(* ===== verification/_CoqProject ===== *)
-Q . S2P
Prelude.v
GoLib.v
DeviceModel.v
Accounting.v
Allocator.v
AllocatorSpec.v
K8sApi.v
Render.v
K8sAllocator.v
K8sAllocatorSpec.v
ConfigApi.v
Effects.v
Prepare.v
PrepareSteps.v
PrepareProtocol.v
PrepareSpec.v
PrepareTheorems.v
UnprepareSpec.v
PrepareExamples.v
Reconciler.v
DraController.v
ClusterSafety.v
ClusterExamples.v
GpuApi.v
PoolApi.v
PoolAdmission.v
PriorityQueue.v
PriorityQueueSpec.v
CpReconciler.v
PoolSync.v
PoolSyncSpec.v
PodWebhook.v
PodWebhookSpec.v
DeviceInventory.v
Bootstrap.v
Lifecycle.v
DeviceInventorySpec.v
GpuStore.v
Inventory.v
InventorySpec.v
InventoryExamples.v
Driver.v
DriverSpec.v
Webhook.v
DriverExamples.v
Vfio.v
RwNames.v
Json.v
ModuleConfig.v
Hooks.v
PoolExamples.v
RwRules.v
Rewriter.v
RewriterRbac.v
RwEndpoint.v
RuleRewriter.v
JsonText.v
OsFiles.v
SysInfo.v
Resource.v
PhysicalGpu.v
NodeAgent.v
NodeAgentSpec.v
SyncLoop.v
CheckpointFile.v
FsLock.v
MigNvml.v
GpuChecker.v
NvmlReader.v
GpuHandler.v
GpuHandlerSpec.v
FeatureGates.v
Cdi.v
AgentExamples.v
SharingAdapters.v
AdapterExamples.v
RewriterSim.v
RewriterSpec.v
RewriterRbacSpec.v
RewriterExamples.v
