(* ===== verification/Prelude.v ===== *)
(** * A verification library for the GPU control plane

    The repository offers the GPUs of a Kubernetes cluster in two ways: through
    dynamic resource allocation (images/gpu-artifact), and through pools of
    devices handed to a device plugin (images/gpu-control-plane-artifact).  Its
    parts, and how they work together:

    - the node agent and [gpu-handler] (images/gpu-artifact/pkg/nodeagent and
      gpuhandler) find the GPUs of a node, keep a PhysicalGPU object for each
      and build an inventory of devices: the whole GPU, and one device per MIG
      profile and placement, which draw on shared counters; the inventory is
      published as resource slices, for GPUs whose driver the PhysicalGPU
      controller (pkg/controller/physicalgpu) has found ready;
    - the allocation controller (pkg/controller/dra) reads the slices and the
      claims from the informer cache, runs the allocator (pkg/dra/services/
      allocator) and writes the result into the status of the claim; its
      webhook checks the configuration of claims;
    - on the selected node the DRA driver (pkg/dra/driver), a kubelet plugin,
      turns the claim into a request of the prepare service (pkg/dra/services/
      prepare), which makes MIG instances, binds GPUs to VFIO, sets time slices
      and starts MPS daemons through its adapters (pkg/dra/adapters), and keeps
      a checkpoint so that a later call can undo all of it;
    - the API rewriter (images/kube-api-rewriter/pkg/rewriter), a proxy between
      the controllers and the API server, renames API groups, resources,
      labels and the like in requests and restores them in responses;
    - the control plane (images/gpu-control-plane-artifact/pkg): the inventory
      controller makes a GPUDevice of every GPU a node shows, bootstrap lets it
      into service when the workloads of its node are ready, pools take devices
      and mark their nodes, and webhooks check pools, assignments and pods, and
      tie a pod to the nodes of the pool it asks for;
    - the hooks of the module (images/hooks) check the ModuleConfig and turn it
      and the state of the nodes into the values the module is rendered from.

    ** Files

    Foundations: [Prelude] (errors, [int64], the combinators for loops over
    maps, tactics, the hint databases and the lemmas all files share), [GoLib]
    (the parts of Go's standard library the program uses), [K8sApi] and
    [GpuApi] (Kubernetes types and library interfaces, the API of PhysicalGPU),
    [Effects] (a monad of state, errors and a history of external calls,
    automata over those calls and triples against them).

    The device model and the allocator, under images/gpu-artifact/pkg/dra:
    - [DeviceModel]: quantities, domain/allocatable, device names;
    - [Accounting] (capacities, counters, exclusion of a whole GPU and its
      partitions), [Allocator]: services/allocator; [AllocatorSpec] is its
      abstract specification and the refinement proof;
    - [Render]: adapters/k8s/allocatable and resourceslice, publishing;
    - [K8sAllocator], [K8sAllocatorSpec]: adapters/k8s/allocator, reading the
      published slices back, and requests and results.

    The controllers of pkg/controller:
    - [Reconciler]: controller/reconciler; [DraController]: controller/dra, its
      services, handlers and watches, and what one reconcile does; [Webhook]:
      controller/dra/webhook; [Resource]: patches and the resource wrapper;
      [PhysicalGpu]: controller/physicalgpu;
    - [ClusterSafety], [ClusterExamples]: the claims of the whole cluster as a
      transition system, its safety, and a cluster to run it on.

    The agents of a node:
    - [SysInfo]: pkg/sys; [GpuStore]: PhysicalGPU objects on the API server;
      [NodeAgent], [NodeAgentSpec]: pkg/nodeagent; [SyncLoop]: the loops of
      both agents; [NvmlReader]: what NVML says of a GPU; [GpuHandler],
      [GpuHandlerSpec]: gpuhandler/internal/handler; [FeatureGates];
    - [Inventory], [InventorySpec], [InventoryExamples]: gpuhandler/internal/
      service/inventory; [AgentExamples]: a node to run them on.

    Preparing claims on a node:
    - [ConfigApi]: configapi; [Prepare]: domain, ports and state;
      [PrepareSteps]: every step, the pipelines and the service;
    - [PrepareProtocol], [PrepareSpec], [PrepareTheorems], [UnprepareSpec]: the
      two protocols, the proof that every run follows them, and what follows
      from that; [PrepareExamples]: a node to run them on;
    - [Driver], [DriverSpec], [DriverExamples]: driver and adapters/k8s/prepare;
    - [Vfio]: adapters/vfio over the PCI files of sysfs; [OsFiles] (operations
      on files that may be interrupted), [CheckpointFile]: adapters/checkpoint/
      file; [FsLock]: adapters/lock/fslock as interleaved state machines over
      flock; [MigNvml]: adapters/mig/nvml over NVML; [GpuChecker]: adapters/
      nvml; [Cdi]: adapters/cdi; [SharingAdapters]: programs and directories of
      the host, adapters/timeslicing and adapters/mps; [AdapterExamples]: a
      disk, a kernel, a GPU and a host to run them on.

    The API rewriter, under images/kube-api-rewriter/pkg/rewriter:
    - [RwNames]: prefixed_name_rewriter.go and what a client and the server
      agree on; [RwRules]: rules.go and indexer/;
    - [Json]: the JSON library as an interface, transformers.go, list.go and
      map.go; [JsonText]: a library that satisfies it, edits at a path;
    - [Rewriter], [RewriterRbac], [RuleRewriter]: the rewriters of payloads, one
      definition per function, discovery, dispatch by kind, excludes, patches;
    - [RwEndpoint]: api_endpoint.go, target_request.go and the rewriting of
      request lines;
    - [RewriterSim] (each helper is an edit of the document its text denotes),
      [RewriterSpec], [RewriterRbacSpec]: the theorems, and [RewriterExamples].

    The control plane, under images/gpu-control-plane-artifact/pkg:
    - [PoolApi]: api/gpu/v1alpha1, names, tolerations, indexers; [CpReconciler]:
      controller/reconciler and conditions; [PriorityQueue],
      [PriorityQueueSpec]: its work queue over container/heap;
    - [PoolAdmission]: admission and the webhooks of pools; [PoolSync],
      [PoolSyncSpec]: the handlers of a pool reconcile and what they do to
      devices and nodes; [PodWebhook], [PodWebhookSpec]: the webhooks of pods
      and the usage controllers;
    - [DeviceInventory], [DeviceInventorySpec]: controller/inventory;
      [Bootstrap]: controller/bootstrap and validation; [Lifecycle]: the
      reconciles of all controllers as one transition system over devices;
    - [ModuleConfig]: controller/moduleconfig and config; [Hooks]: images/hooks;
      [PoolExamples]: an API server and a cluster to run them on.

    ** What is shown

    The cluster is safe ([ClusterSafety.cluster_safe]): creating, deleting,
    releasing and reconciling claims, with any API call failing, never
    allocates an exclusive device twice, overdraws a shared capacity or
    counter, or gives a GPU out whole and partitioned, as long as a reconcile
    sees the last allocation in its cache.  It rests on the refinement of
    [valid_allocation] by the allocator, on the round trip of devices through
    published slices, and on the inventory being well formed; with the
    counters of the inventory it follows that MIG devices that are allocated
    together do not overlap.

    The agents converge: a sync of the node agent that scans the bus and reports
    no error leaves exactly the objects of the devices found, the gpu-handler
    publishes only GPUs that were healthy when the sync listed or read them,
    what NVML answers is in the range the theorems on devices
    assume, no trigger of the loops is lost, and retries and reconciles end.

    Preparing is crash safe: every run of Prepare and Unprepare, whatever the
    managers answer, follows a protocol in which a record is written ahead of
    any change, everything made is in the completed record, failures stop the
    run, the lock is held throughout, and Unprepare undoes what a completed
    Prepare made before it drops the record (a record that is only started it
    leaves alone).  The driver hands the service exactly the
    allocated devices with the configuration they are meant to have.  The
    adapters behind the ports do their part: the checkpoint file holds a whole
    checkpoint at every instant, the lock has at most one holder and is never
    lost, a failed preparation of a MIG device leaves nothing behind that NVML
    agrees to destroy, MIG devices, VFIO bindings, CDI specs and MPS daemons are given back by the call
    that undoes them, and time slices are set for each GPU once.

    The rewriter is transparent: what a client reads and sends back denotes the
    document of the server, for custom resources and for roles, and request
    paths are rewritten segment by segment.

    The control plane keeps its books: after quiet reconciles every GPU of a
    node has its device, a pool holds exactly the devices it is given, its
    nodes are marked and its usage is the sum over its pods; however the
    controllers interleave, a device is in service only after its node was
    found ready and belongs to a pool only with a reference to it; admitted
    pools are valid, and have names of their own as long as the cache of the
    webhooks shows all pools; a pod bound to a pool runs only where the
    pool has devices; the work queue implements its contract; and the
    settings of the module have a normal form that the controller starts with.

    ** Bounds and fuel

    [int64] and [int32] arithmetic wraps as in Go.  The theorems on capacities
    assume values in the range the inventory produces (below 2^62; memory below
    2^42 MiB, so that its byte count is an [int64]), and the inventory is proved
    to stay in it; those on pools assume less than 2^31 devices.  [Itoa] has
    fuel 20, enough for the 19 digits of an [int64].  The parser of [JsonText]
    has fuel twice the length of the text plus one, and each step that does not
    consume a character enters a structure that was opened by one; its round
    trip with the printer is proved for this fuel.  Splitting a path has fuel
    its length; sifting in the heap has fuel the length of the heap.

    ** Assumptions

    Code outside the repository is an argument of the definitions: the
    managers of the prepare service, the API client and the informer cache as
    functions of the history of calls (so their answers may be anything), the
    CEL compiler, the quantity library, NVML, nvcdi, the file system, flock, the
    programs of the host, the JSON libraries, float64 arithmetic, SHA-256, the
    parser of label selectors, the order in which Go visits a map or sorts equal
    elements.  What a theorem needs of them is a class of laws ([QuantityLaws],
    [JsonLaws], [PoolServer], [InventoryServer], ...) with an instance that
    satisfies it.

    ** What is not modelled

    Strings are bytes: Unicode case folding is left out.  Contexts, logging,
    events and metrics have no effect on the behaviour that is stated.  A
    crash is the death of a process, not a loss of power.  Generated code
    (deep copies, the PCI device catalogue), flags and the wiring of the managers
    are left out, and so are: the transport of the API rewriter (HTTP streams
    and TLS), the manifests of the pool workloads (device plugin, validator, MIG
    manager), which are data for Helm and the API server, the registration of
    watches, the hooks that only copy certificates, and the NVML exporter of the
    gfd-extender. *)

From stdpp Require Export base gmap sets list strings sorting.
From Stdlib Require Export ZArith Lia.

(** ** Notations *)

Declare Scope go_scope.
Delimit Scope go_scope with go.
Open Scope Z_scope.

(** ** Errors and results

    A Go [error] is kept structurally: the format string of the [errors.New]
    or [fmt.Errorf] call with its arguments, and the wrapped cause of a [%w].
    [External] is an error value produced by code outside the repository and
    [GoPanic] a run-time panic. *)
Inductive error :=
| Errorf (format : string) (args : list string)
| Wrapf (format : string) (args : list string) (cause : error)
| External (code : Z)
| GoPanic (what : string).

#[export] Instance error_eq_dec : EqDecision error.
Proof. solve_decision. Defined.

(** [errors.Is]: the error or one it wraps. *)
Fixpoint errorsIs (e target : error) : bool :=
  bool_decide (e = target) ||
  match e with Wrapf _ _ cause => errorsIs cause target | _ => false end.

(** The pair [(value, error)] of a Go function, of which exactly one half is
    meaningful. *)
Inductive res (A : Type) :=
| Ok (a : A)
| Err (e : error).
Arguments Ok {A} a.
Arguments Err {A} e.

#[export] Instance res_eq_dec {A} `{EqDecision A} : EqDecision (res A).
Proof. solve_decision. Defined.

#[export] Instance res_ret : MRet res := @Ok.
#[export] Instance res_bind : MBind res := λ A B f r,
  match r with Ok a => f a | Err e => Err e end.
#[export] Instance res_fmap : FMap res := λ A B f r,
  match r with Ok a => Ok (f a) | Err e => Err e end.

Definition is_Ok {A} (r : res A) : bool :=
  match r with Ok _ => true | Err _ => false end.

(** ** Machine integers: [int64] as [Z] with explicit wrap-around *)

Definition in_int64 (z : Z) : Prop := -2 ^ 63 ≤ z < 2 ^ 63.
Definition wrap64 (z : Z) : Z := (z + 2 ^ 63) `mod` 2 ^ 64 - 2 ^ 63.
Definition add64 (a b : Z) : Z := wrap64 (a + b).
Definition sub64 (a b : Z) : Z := wrap64 (a - b).
Definition mul64 (a b : Z) : Z := wrap64 (a * b).

Infix "+!" := add64 (at level 50, left associativity) : go_scope.
Infix "-!" := sub64 (at level 50, left associativity) : go_scope.
Infix "*!" := mul64 (at level 40, left associativity) : go_scope.

(** [int32] *)
Definition wrap32 (z : Z) : Z := (z + 2 ^ 31) `mod` 2 ^ 32 - 2 ^ 31.

Lemma wrap32_id z : - 2 ^ 31 ≤ z < 2 ^ 31 → wrap32 z = z.
Proof. unfold wrap32. intros. rewrite Z.mod_small; lia. Qed.

(** Sums may be wrapped at the end. *)
Lemma wrap32_add a b : wrap32 (wrap32 a + b) = wrap32 (a + b).
Proof.
  unfold wrap32. replace ((a + 2 ^ 31) `mod` 2 ^ 32 - 2 ^ 31 + b + 2 ^ 31) with ((a + 2 ^ 31) `mod` 2 ^ 32 + b) by lia.
  rewrite Zplus_mod_idemp_l. f_equal. f_equal. lia.
Qed.

Lemma wrap64_id z : in_int64 z → wrap64 z = z.
Proof. unfold in_int64, wrap64. intros. rewrite Z.mod_small; lia. Qed.

Lemma wrap64_in z : in_int64 (wrap64 z).
Proof. unfold in_int64, wrap64. pose proof (Z.mod_pos_bound (z + 2^63) (2^64)). lia. Qed.

Lemma add64_id a b : in_int64 (a + b) → add64 a b = a + b.
Proof. apply wrap64_id. Qed.
Lemma sub64_id a b : in_int64 (a - b) → sub64 a b = a - b.
Proof. apply wrap64_id. Qed.
Lemma mul64_id a b : in_int64 (a * b) → mul64 a b = a * b.
Proof. apply wrap64_id. Qed.

(** ** [for k, v := range m] over a Go map

    Go visits the entries of a map in an unspecified order.  The loops of the
    program that are insensitive to it are written with the combinators below,
    and their lemmas characterise the result without reference to an order. *)
Section Range.
Context {K V : Type} `{Countable K}.

(** [for k, v := range m { if !f(k, v) { return false } }; return true] *)
Definition range_all (f : K → V → bool) (m : gmap K V) : bool :=
  forallb (uncurry f) (map_to_list m).

(** [for k, v := range m { if f(k, v) { return true } }; return false] *)
Definition range_any (f : K → V → bool) (m : gmap K V) : bool :=
  existsb (uncurry f) (map_to_list m).

(** [for k, v := range m { out[k] = f(k, v, out[k]) }] *)
Definition range_update {W} (f : K → V → option W → W) (m : gmap K V)
    (init : gmap K W) : gmap K W :=
  map_fold (λ k v acc, <[k := f k v (acc !! k)]> acc) init m.

(** [for k, v := range m { w, ok := f(k, v); if !ok { return nil, false }; out[k] = w }] *)
Definition range_collect {W} (f : K → V → option W) (m : gmap K V) : option (gmap K W) :=
  map_fold (λ k v acc, out ← acc; w ← f k v; Some (<[k := w]> out)) (Some ∅) m.

Lemma range_all_true f m : range_all f m = true ↔ map_Forall (λ k v, f k v = true) m.
Proof.
  unfold range_all. rewrite forallb_forall, map_Forall_to_list, Forall_forall.
  split; intros Hl [k v] Hin; apply (Hl (k, v)); by apply list_elem_of_In.
Qed.

Lemma range_any_true f m : range_any f m = true ↔ ∃ k v, m !! k = Some v ∧ f k v = true.
Proof.
  unfold range_any. rewrite existsb_exists. split.
  - intros ([k v] & Hin & Hf). exists k, v.
    by rewrite <- elem_of_map_to_list, list_elem_of_In.
  - intros (k & v & Hk & Hf). exists (k, v).
    by rewrite <- list_elem_of_In, elem_of_map_to_list.
Qed.

(** Each key is written once, from the value it had before the loop. *)
Lemma lookup_range_update {W} (f : K → V → option W → W) m init k :
  range_update f m init !! k =
    match m !! k with Some v => Some (f k v (init !! k)) | None => init !! k end.
Proof.
  unfold range_update. revert k.
  apply (map_fold_weak_ind (λ (out : gmap K W) (m : gmap K V), ∀ k, out !! k =
    match m !! k with Some v => Some (f k v (init !! k)) | None => init !! k end)).
  - intros. by rewrite lookup_empty.
  - intros i x m' out Hi IH k'. destruct (decide (i = k')) as [<-|Hne].
    + by rewrite !lookup_insert_eq, IH, Hi.
    + by rewrite !lookup_insert_ne.
Qed.

(** A loop that collects one value per entry succeeds exactly when every
    entry yields one, and returns them under the same keys. *)
Definition collects {W} (f : K → V → option W) (m : gmap K V) (out : gmap K W) : Prop :=
  ∀ k, match m !! k with
       | Some v => ∃ w, f k v = Some w ∧ out !! k = Some w
       | None => out !! k = None
       end.

Lemma collects_fun {W} (f : K → V → option W) m out out' :
  collects f m out → collects f m out' → out = out'.
Proof.
  intros H1 H2. apply map_eq. intros k. specialize (H1 k). specialize (H2 k).
  destruct (m !! k); naive_solver congruence.
Qed.

Lemma collects_insert {W} (f : K → V → option W) i x m w out :
  m !! i = None → f i x = Some w → collects f m out →
  collects f (<[i := x]> m) (<[i := w]> out).
Proof.
  intros Hi Hw Hout k. destruct (decide (i = k)) as [<-|Hne].
  - rewrite !lookup_insert_eq. eauto.
  - rewrite !lookup_insert_ne by done. apply Hout.
Qed.

Lemma range_collect_sound {W} (f : K → V → option W) m :
  match range_collect f m with
  | Some out => collects f m out
  | None => ∃ k v, m !! k = Some v ∧ f k v = None
  end.
Proof.
  unfold range_collect.
  apply (map_fold_weak_ind (λ (r : option (gmap K W)) (m : gmap K V),
    match r with
    | Some out => collects f m out
    | None => ∃ k v, m !! k = Some v ∧ f k v = None end)).
  - intros k. by rewrite !lookup_empty.
  - intros i x m' r Hi IH. destruct r as [out|]; simpl.
    + destruct (f i x) as [w|] eqn:Hw; simpl; [by apply collects_insert|].
      exists i, x. by rewrite lookup_insert_eq.
    + destruct IH as (k & v & Hk & Hf). exists k, v.
      rewrite lookup_insert_ne; [done|congruence].
Qed.

Lemma range_collect_Some {W} (f : K → V → option W) m out :
  range_collect f m = Some out ↔ collects f m out.
Proof.
  pose proof (range_collect_sound f m) as Hs. destruct (range_collect f m) as [out'|].
  - split; [by intros [= <-]|]. intros Hc. f_equal. by eapply collects_fun.
  - split; [done|]. destruct Hs as (k & v & Hk & Hf). intros Hc.
    specialize (Hc k). rewrite Hk in Hc. naive_solver.
Qed.
End Range.

(** ** Sums of integers over lists *)

Definition Zsum {A} (f : A → Z) (l : list A) : Z := foldr (λ a s, f a + s) 0 l.

Lemma Zsum_app {A} (f : A → Z) l1 l2 : Zsum f (l1 ++ l2) = Zsum f l1 + Zsum f l2.
Proof. induction l1; simpl; lia. Qed.

Lemma Zsum_fmap {A B} (f : B → Z) (g : A → B) l : Zsum f (g <$> l) = Zsum (λ x, f (g x)) l.
Proof. induction l; csimpl; lia. Qed.

Lemma Zsum_nonneg {A} (f : A → Z) l : (∀ x, x ∈ l → 0 ≤ f x) → 0 ≤ Zsum f l.
Proof.
  induction l as [|a l IH]; simpl; intros Hf; [lia|].
  pose proof (Hf a ltac:(left)). assert (0 ≤ Zsum f l) by (apply IH; intros; apply Hf; by right).
  lia.
Qed.

Lemma Zsum_perm {A} (f : A → Z) l1 l2 : l1 ≡ₚ l2 → Zsum f l1 = Zsum f l2.
Proof. induction 1; simpl; lia. Qed.

#[export] Instance Zsum_Proper {A} (f : A → Z) : Proper ((≡ₚ) ==> (=)) (Zsum f).
Proof. intros l1 l2. apply Zsum_perm. Qed.

Lemma Zsum_zero {A} (f : A → Z) l : (∀ x, x ∈ l → f x = 0) → Zsum f l = 0.
Proof.
  induction l as [|a l IH]; simpl; intros Hf; [done|].
  rewrite Hf by left. rewrite IH; [done|]. intros. apply Hf. by right.
Qed.

(** ** Emptiness tests [len(m) == 0] *)

Definition map_len0 {K V} `{Countable K} (m : gmap K V) : bool := (size m =? 0)%nat.

Lemma map_len0_true {K V} `{Countable K} (m : gmap K V) : map_len0 m = true ↔ m = ∅.
Proof. unfold map_len0. by rewrite Nat.eqb_eq, map_size_empty_iff. Qed.

Lemma map_len0_false {K V} `{Countable K} (m : gmap K V) : map_len0 m = false ↔ m ≠ ∅.
Proof. unfold map_len0. by rewrite Nat.eqb_neq, map_size_empty_iff. Qed.

Definition list_len0 {A} (l : list A) : bool := match l with [] => true | _ => false end.

Lemma list_len0_true {A} (l : list A) : list_len0 l = true ↔ l = [].
Proof. by destruct l. Qed.

(** Go string equality. *)
Definition str_eqb (a b : string) : bool := bool_decide (a = b).

Lemma str_eqb_true a b : str_eqb a b = true ↔ a = b.
Proof. apply bool_decide_eq_true. Qed.
Lemma str_eqb_false a b : str_eqb a b = false ↔ a ≠ b.
Proof. apply bool_decide_eq_false. Qed.
Lemma str_eqb_refl a : str_eqb a a = true.
Proof. by apply str_eqb_true. Qed.

(** ** Automation

    [go_simpl] turns the boolean tests of the code into propositions, [go_case]
    splits on the next test or match of a hypothesis. *)
Create HintDb go discriminated.
Create Rewrite HintDb go_bool.
#[export] Hint Rewrite @range_all_true @range_any_true @map_len0_true @map_len0_false
  @list_len0_true str_eqb_true str_eqb_false andb_true_iff andb_false_iff
  orb_true_iff orb_false_iff negb_true_iff negb_false_iff
  Z.ltb_lt Z.ltb_ge Z.leb_le Z.leb_gt Z.eqb_eq Z.eqb_neq
  @bool_decide_eq_true @bool_decide_eq_false : go_bool.

Ltac go_bool := autorewrite with go_bool in *.

Ltac go_case H :=
  match type of H with
  | context [match ?x with _ => _ end] =>
      lazymatch x with context [match _ with _ => _ end] => fail | _ => idtac end;
      let E := fresh "E" in destruct x eqn:E; simplify_eq/=; try done
  end.

Ltac int64_lia := unfold in_int64 in *; lia.

(** ** Maps filled by a loop over a slice: [for _, d := range l { m[key(d)] = f(d) }] *)
Section FillMap.
Context {A K V : Type} `{Countable K} (key : A → K) (f : A → V).

Lemma lookup_fill_notin (m : gmap K V) l k :
  k ∉ key <$> l → foldl (λ m d, <[key d := f d]> m) m l !! k = m !! k.
Proof.
  revert m. induction l as [|d l IH]; intros m Hk; csimpl in *; [done|].
  rewrite IH by set_solver. apply lookup_insert_ne. set_solver.
Qed.

Lemma lookup_fill (m : gmap K V) l d :
  NoDup (key <$> l) → d ∈ l → foldl (λ m d, <[key d := f d]> m) m l !! key d = Some (f d).
Proof.
  revert m. induction l as [|d' l IH]; intros m Hnd Hd; csimpl in *; [by apply elem_of_nil in Hd|].
  inversion_clear Hnd as [|?? Hnotin Hnd']. apply elem_of_cons in Hd as [->|Hd]; [|by apply IH].
  rewrite lookup_fill_notin by done. apply lookup_insert_eq.
Qed.

Lemma lookup_fill_inv (m : gmap K V) l k v :
  foldl (λ m d, <[key d := f d]> m) m l !! k = Some v →
  m !! k = Some v ∨ ∃ d, d ∈ l ∧ key d = k ∧ f d = v.
Proof.
  revert m. induction l as [|d l IH]; intros m Hv; csimpl in *; [by left|].
  destruct (IH _ Hv) as [Hm|(d' & ? & ? & ?)].
  - destruct (decide (key d = k)) as [<-|Hne].
    + rewrite lookup_insert_eq in Hm. right. exists d. split; [left|]. by simplify_eq.
    + rewrite lookup_insert_ne in Hm by done. by left.
  - right. exists d'. split; [by right|done].
Qed.
End FillMap.

Lemma NoDup_fmap_inj {A B} (f : A → B) l x y :
  NoDup (f <$> l) → x ∈ l → y ∈ l → f x = f y → x = y.
Proof.
  induction l as [|a l IH]; csimpl; intros Hnd Hx Hy Hf; [by apply elem_of_nil in Hx|].
  inversion_clear Hnd as [|?? Hnotin Hnd'].
  apply elem_of_cons in Hx as [->|Hx]; apply elem_of_cons in Hy as [->|Hy]; [done| | |by apply IH].
  - destruct Hnotin. rewrite Hf. by apply list_elem_of_fmap_2.
  - destruct Hnotin. rewrite <- Hf. by apply list_elem_of_fmap_2.
Qed.

(** ** Grouping a list by a key *)
Lemma filter_partition {A} (P Q R : A → Prop) `{∀ x, Decision (P x), ∀ x, Decision (Q x),
    ∀ x, Decision (R x)} l :
  (∀ x, x ∈ l → (P x ↔ Q x ∨ R x) ∧ ¬ (Q x ∧ R x)) → filter P l ≡ₚ filter Q l ++ filter R l.
Proof.
  induction l as [|x l IH]; intros Hl; [done|].
  assert (filter P l ≡ₚ filter Q l ++ filter R l) as IH' by (apply IH; intros; apply Hl; by right).
  destruct (Hl x ltac:(left)) as [HP Hno]. rewrite !filter_cons.
  repeat case_decide; try tauto; [by rewrite IH'|].
  rewrite IH'. apply Permutation_middle.
Qed.

Lemma group_perm {A K} `{EqDecision K} (f : A → K) (keys : list K) l :
  NoDup keys →
  concat ((λ k, filter (λ x, f x = k) l) <$> keys) ≡ₚ filter (λ x, f x ∈ keys) l.
Proof.
  induction 1 as [|k keys Hk Hnd IH]; csimpl.
  - induction l as [|x l IH]; [done|]. rewrite filter_cons. case_decide; [by apply elem_of_nil in H|done].
  - rewrite IH. symmetry. apply filter_partition. intros x _. rewrite elem_of_cons. naive_solver.
Qed.

Lemma concat_fmap_ext {A B} (f g : A → list B) l :
  (∀ x, x ∈ l → f x = g x) → concat (f <$> l) = concat (g <$> l).
Proof.
  induction l as [|x l IH]; csimpl; intros Hfg; [done|].
  rewrite Hfg by left. rewrite IH; [done|]. intros. apply Hfg. by right.
Qed.

Lemma elem_of_filter_bool {A} (f : A → bool) l a : a ∈ List.filter f l ↔ a ∈ l ∧ f a = true.
Proof. rewrite !list_elem_of_In. apply filter_In. Qed.
Lemma filter_ext_in {A} (P R : A → Prop) `{∀ x, Decision (P x), ∀ x, Decision (R x)}
    (l : list A) :
  (∀ x, x ∈ l → P x ↔ R x) → filter P l = filter R l.
Proof.
  induction l as [|x l IH]; intros Hl; [done|]. rewrite !filter_cons.
  rewrite IH by (intros; apply Hl; by right). pose proof (Hl x ltac:(left)).
  repeat case_decide; tauto.
Qed.

Lemma filter_none_in {A} (P : A → Prop) `{∀ x, Decision (P x)} (l : list A) :
  (∀ x, x ∈ l → ¬ P x) → filter P l = [].
Proof.
  intros Hl. rewrite (filter_ext_in P (λ _, False)) by (intros x Hx; specialize (Hl x Hx); tauto).
  by induction l; [|apply IHl; intros; apply Hl; right].
Qed.
