(* ===== verification/GoLib.v ===== *)
(** * The Go standard library

    What the code uses of [strings], [strconv], [sort], [net/url] and
    [encoding/base64], written from their documentation. *)

From S2P Require Import Prelude.

From Stdlib Require Import Ascii.

(** * The parts of Go's [strings] and [strconv] packages the program uses

    Strings are byte strings ([string]).  The functions below agree with Go on
    ASCII text, which is what PCI addresses, Kubernetes names, UUIDs and MIG
    profile names are; the Unicode case folding and Unicode spaces that Go
    also knows are outside the model. *)

(** ** Characters *)

Definition is_space (c : ascii) : bool :=
  let n := N_of_ascii c in ((9 <=? n) && (n <=? 13) || (n =? 32))%N.

Definition is_lower (c : ascii) : bool :=
  let n := N_of_ascii c in ((97 <=? n) && (n <=? 122))%N.

Definition is_upper (c : ascii) : bool :=
  let n := N_of_ascii c in ((65 <=? n) && (n <=? 90))%N.

Definition is_digit (c : ascii) : bool :=
  let n := N_of_ascii c in ((48 <=? n) && (n <=? 57))%N.

Definition lower (c : ascii) : ascii :=
  if is_upper c then ascii_of_N (N_of_ascii c + 32) else c.

Definition digit_val (c : ascii) : Z := Z.of_N (N_of_ascii c) - 48.

(** ** [strings] *)

Fixpoint ToLower (s : string) : string :=
  match s with
  | EmptyString => EmptyString
  | String c s' => String (lower c) (ToLower s')
  end.

Definition EqualFold (a b : string) : bool := str_eqb (ToLower a) (ToLower b).

(** [TrimLeft]/[TrimRight]/[Trim] with a predicate on bytes. *)
Fixpoint TrimLeftFunc (p : ascii → bool) (s : string) : string :=
  match s with
  | EmptyString => EmptyString
  | String c s' => if p c then TrimLeftFunc p s' else s
  end.

Fixpoint TrimRightFunc (p : ascii → bool) (s : string) : string :=
  match s with
  | EmptyString => EmptyString
  | String c s' =>
      match TrimRightFunc p s' with
      | EmptyString => if p c then EmptyString else String c EmptyString
      | t => String c t
      end
  end.

Definition TrimFunc (p : ascii → bool) (s : string) : string :=
  TrimRightFunc p (TrimLeftFunc p s).

Definition TrimSpace : string → string := TrimFunc is_space.
Definition TrimDash : string → string := TrimFunc (λ c, bool_decide (c = "-"%char)).

Fixpoint HasPrefix (s prefix : string) : bool :=
  match prefix, s with
  | EmptyString, _ => true
  | String p prefix', String c s' => bool_decide (p = c) && HasPrefix s' prefix'
  | String _ _, EmptyString => false
  end.

(** [s[:n]] for [n <= len(s)]. *)
Fixpoint str_take (n : nat) (s : string) : string :=
  match n, s with
  | S n', String c s' => String c (str_take n' s')
  | _, _ => EmptyString
  end.

Fixpoint str_drop (n : nat) (s : string) : string :=
  match n, s with
  | S n', String _ s' => str_drop n' s'
  | _, _ => s
  end.

(** The pieces before and after the first occurrence of a non-empty
    separator. *)
Fixpoint cut (sep s : string) : option (string * string) :=
  if HasPrefix s sep then Some (EmptyString, str_drop (String.length sep) s)
  else match s with
       | EmptyString => None
       | String c s' =>
           match cut sep s' with
           | Some (a, b) => Some (String c a, b)
           | None => None
           end
       end.

(** [strings.SplitN(s, sep, 2)] for a non-empty separator. *)
Definition SplitN2 (s sep : string) : list string :=
  match cut sep s with
  | Some (a, b) => [a; b]
  | None => [s]
  end.

Definition Join (parts : list string) (sep : string) : string := String.concat sep parts.

(** [strings.Cut(s, sep)]: the pieces and whether the separator was found. *)
Definition Cut (s sep : string) : string * string * bool :=
  match cut sep s with
  | Some (a, b) => (a, b, true)
  | None => (s, EmptyString, false)
  end.

Definition Contains (s sub : string) : bool := bool_decide (is_Some (cut sub s)).

Definition TrimPrefix (s prefix : string) : string :=
  if HasPrefix s prefix then str_drop (String.length prefix) s else s.

Definition CutPrefix (s prefix : string) : string * bool :=
  if HasPrefix s prefix then (str_drop (String.length prefix) s, true) else (s, false).

Definition HasSuffix (s suffix : string) : bool :=
  (String.length suffix <=? String.length s)%nat &&
  str_eqb (str_drop (String.length s - String.length suffix) s) suffix.

Definition TrimSuffix (s suffix : string) : string :=
  if HasSuffix s suffix then str_take (String.length s - String.length suffix) s else s.

(** [strings.Split(s, sep)] for a separator of one byte. *)
Fixpoint SplitChar (s : string) (sep : ascii) : list string :=
  match s with
  | EmptyString => [EmptyString]
  | String c s' =>
      if bool_decide (c = sep) then EmptyString :: SplitChar s' sep
      else match SplitChar s' sep with
           | part :: parts => String c part :: parts
           | [] => [String c EmptyString]
           end
  end.

(** [strings.Replace(s, old, new, -1)] for a non-empty [old]: [skip] bytes of
    an occurrence are still to be dropped. *)
Fixpoint replace_from (old new : string) (skip : nat) (s : string) : string :=
  match s with
  | EmptyString => EmptyString
  | String c s' =>
      match skip with
      | S skip' => replace_from old new skip' s'
      | O => if HasPrefix s old then new +:+ replace_from old new (String.length old - 1) s'
             else String c (replace_from old new 0 s')
      end
  end.

Definition ReplaceAll (s old new : string) : string := replace_from old new 0 s.

(** ** [strconv.Atoi] on a 64-bit platform *)

Fixpoint digits_val (acc : Z) (s : string) : option Z :=
  match s with
  | EmptyString => Some acc
  | String c s' => if is_digit c then digits_val (10 * acc + digit_val c) s' else None
  end.

Definition Atoi (s : string) : option Z :=
  let parse (neg : bool) (ds : string) : option Z :=
    match ds with
    | EmptyString => None
    | _ =>
        match digits_val 0 ds with
        | Some n =>
            let z := if neg then - n else n in
            if bool_decide (- 2 ^ 63 ≤ z < 2 ^ 63) then Some z else None
        | None => None
        end
    end in
  match s with
  | String "-" s' => parse true s'
  | String "+" s' => parse false s'
  | _ => parse false s
  end.

(** [strconv.Itoa] / [%d] for non-negative numbers. *)
Definition digit_char (n : Z) : ascii := ascii_of_N (Z.to_N n + 48).

Fixpoint itoa_aux (fuel : nat) (n : Z) (acc : string) : string :=
  match fuel with
  | O => acc
  | S fuel' =>
      let acc' := String (digit_char (n `mod` 10)) acc in
      if n <? 10 then acc' else itoa_aux fuel' (n / 10) acc'
  end.

(** Twenty digits are enough for any [int64]. *)
Definition Itoa (n : Z) : string :=
  if n <? 0 then String "-" (itoa_aux 20 (- n) EmptyString) else itoa_aux 20 n EmptyString.

Example Atoi_ex : (Atoi "42", Atoi "-7", Atoi "", Atoi "4x") = (Some 42, Some (-7), None, None).
Proof. reflexivity. Qed.
Example Itoa_ex : (Itoa 9223372036854775807, Itoa 0) = ("9223372036854775807", "0").
Proof. reflexivity. Qed.
Example SplitN2_ex : (SplitN2 "a-pb-pc" "-p", SplitN2 "abc" "-p") = (["a"; "b-pc"], ["abc"]).
Proof. reflexivity. Qed.

Example ReplaceAll_ex : (ReplaceAll "a~1b~0~1" "~1" "/", ReplaceAll "aaa" "aa" "b") = ("a/b~0/", "ba").
Proof. reflexivity. Qed.
Example Split_ex : (SplitChar "a//b" "/", SplitChar "" "/") = (["a"; ""; "b"], [""]).
Proof. reflexivity. Qed.
Example Suffix_ex : (TrimSuffix "PodList" "List", HasSuffix "List" "PodList", TrimPrefix "abc" "ab") = ("Pod", false, "c").
Proof. reflexivity. Qed.

(** ** Lemmas *)

Fixpoint all_chars (p : ascii → bool) (s : string) : bool :=
  match s with
  | EmptyString => true
  | String c s' => p c && all_chars p s'
  end.

Lemma all_chars_app p s t : all_chars p (s +:+ t) = all_chars p s && all_chars p t.
Proof. induction s as [|c s IH]; simpl; [done|]. by rewrite IH, andb_assoc. Qed.

Lemma all_chars_weaken (p q : ascii → bool) s :
  (∀ c, p c = true → q c = true) → all_chars p s = true → all_chars q s = true.
Proof. intros Hpq. induction s; simpl; [done|]. rewrite !andb_true_iff. naive_solver. Qed.

Lemma str_app_cons x (a b : string) : String x a +:+ b = String x (a +:+ b).
Proof. reflexivity. Qed.

Lemma str_app_assoc (a b c : string) : (a +:+ b) +:+ c = a +:+ (b +:+ c).
Proof.
  induction a as [|x a IH]; [done|]. by rewrite !str_app_cons, IH.
Qed.

Lemma str_length_app (a b : string) : String.length (a +:+ b) = (String.length a + String.length b)%nat.
Proof. induction a as [|x a IH]; [done|]. rewrite str_app_cons. simpl. lia. Qed.

(** The first and the last character do not satisfy [p]. *)
Fixpoint ends_without (p : ascii → bool) (s : string) : bool :=
  match s with
  | EmptyString => false
  | String c EmptyString => negb (p c)
  | String _ s' => ends_without p s'
  end.

Lemma ends_without_weaken (p q : ascii → bool) s :
  (∀ c, q c = true → p c = true) → ends_without p s = true → ends_without q s = true.
Proof.
  intros Hpq. induction s as [|c s IH]; [done|]. simpl. destruct s; [|exact IH].
  rewrite !negb_true_iff. intros Hp. destruct (q c) eqn:Hq; [|done]. apply Hpq in Hq. congruence.
Qed.

Definition starts_without (p : ascii → bool) (s : string) : bool :=
  match s with EmptyString => false | String c _ => negb (p c) end.

Lemma ends_without_app p s t : ends_without p t = true → ends_without p (s +:+ t) = true.
Proof.
  intros Ht. induction s as [|c s IH]; [done|]. rewrite str_app_cons. simpl.
  destruct (s +:+ t) eqn:E; [by destruct s, t|done].
Qed.

Lemma ends_without_ne p s : ends_without p s = true → s ≠ EmptyString.
Proof. by destruct s. Qed.

Lemma TrimRightFunc_id p s : ends_without p s = true → TrimRightFunc p s = s.
Proof.
  induction s as [|c s IH]; simpl; [done|]. intros He. destruct s as [|c' s].
  - simpl. apply negb_true_iff in He. by rewrite He.
  - by rewrite IH.
Qed.

Lemma TrimFunc_id p s : starts_without p s = true → ends_without p s = true → TrimFunc p s = s.
Proof.
  intros Hs He. unfold TrimFunc. destruct s as [|c s]; [done|]. simpl in Hs.
  apply negb_true_iff in Hs. unfold TrimLeftFunc. rewrite Hs. by apply TrimRightFunc_id.
Qed.

Lemma ToLower_id s : all_chars (λ c, negb (is_upper c)) s = true → ToLower s = s.
Proof.
  induction s as [|c s IH]; simpl; [done|]. rewrite andb_true_iff, negb_true_iff. intros [Hc Hs].
  rewrite IH by done. unfold lower. by rewrite Hc.
Qed.

(** Trimming gives a string without the characters at its ends, or nothing. *)
Lemma TrimRightFunc_ends p s : TrimRightFunc p s = EmptyString ∨ ends_without p (TrimRightFunc p s) = true.
Proof.
  induction s as [|c s IH]; simpl; [by left|].
  destruct (TrimRightFunc p s) as [|c' t] eqn:Ht.
  - destruct (p c) eqn:Hc; [by left|]. right. simpl. by rewrite Hc.
  - right. destruct IH as [?|IH]; [done|]. exact IH.
Qed.

Lemma TrimLeftFunc_starts p s : TrimLeftFunc p s = EmptyString ∨ starts_without p (TrimLeftFunc p s) = true.
Proof.
  induction s as [|c s IH]; simpl; [by left|]. destruct (p c) eqn:Hc; [done|]. right. simpl. by rewrite Hc.
Qed.

Lemma TrimRightFunc_starts p s : starts_without p s = true → starts_without p (TrimRightFunc p s) = true.
Proof.
  destruct s as [|c s]; [done|]. simpl. intros Hc.
  destruct (TrimRightFunc p s); [|done]. apply negb_true_iff in Hc. rewrite Hc. simpl. by rewrite Hc.
Qed.

Lemma TrimRightFunc_chars (p q : ascii → bool) s : all_chars q s = true → all_chars q (TrimRightFunc p s) = true.
Proof.
  induction s as [|c s IH]; simpl; [done|]. rewrite andb_true_iff. intros [Hc Hs]. specialize (IH Hs).
  destruct (TrimRightFunc p s); [destruct (p c); simpl; by rewrite ?Hc|]. simpl in *. by rewrite Hc.
Qed.

Lemma TrimLeftFunc_chars (p q : ascii → bool) s : all_chars q s = true → all_chars q (TrimLeftFunc p s) = true.
Proof.
  induction s as [|c s IH]; simpl; [done|]. intros Hcs. pose proof Hcs as [Hc Hs]%andb_true_iff.
  destruct (p c); [by apply IH|done].
Qed.

Lemma TrimRightFunc_length p s : (String.length (TrimRightFunc p s) ≤ String.length s)%nat.
Proof.
  induction s as [|c s IH]; simpl; [lia|].
  destruct (TrimRightFunc p s); [destruct (p c); simpl; lia|simpl in *; lia].
Qed.

Lemma str_take_length n s : (String.length (str_take n s) ≤ n)%nat.
Proof. revert s. induction n as [|n IH]; intros [|c s]; simpl; try lia. specialize (IH s). lia. Qed.

Lemma str_take_chars q n s : all_chars q s = true → all_chars q (str_take n s) = true.
Proof.
  revert s. induction n as [|n IH]; intros [|c s]; simpl; try done.
  rewrite !andb_true_iff. intros [Hc Hs]. split; [done|by apply IH].
Qed.

(** *** Decimal numbers *)

Lemma digit_char_ok n : 0 ≤ n < 10 → is_digit (digit_char n) = true ∧ digit_val (digit_char n) = n.
Proof.
  intros Hn. assert (n = 0 ∨ n = 1 ∨ n = 2 ∨ n = 3 ∨ n = 4 ∨ n = 5 ∨ n = 6 ∨ n = 7 ∨ n = 8 ∨ n = 9)
    as Hc by lia. by destruct_or! Hc; subst n.
Qed.

Lemma itoa_aux_val fuel n acc : 0 ≤ n < 10 ^ Z.of_nat fuel →
  digits_val 0 (itoa_aux fuel n acc) = digits_val n acc.
Proof.
  revert n acc. induction fuel as [|fuel IH]; intros n acc Hn.
  - simpl in *. by replace n with 0 by lia.
  - rewrite Nat2Z.inj_succ, Z.pow_succ_r in Hn by lia. simpl.
    destruct (digit_char_ok (n `mod` 10)) as [Hd Hv]; [apply Z.mod_pos_bound; lia|].
    destruct (Z.ltb_spec n 10).
    + simpl. rewrite Hd, Hv. f_equal. rewrite Z.mod_small by lia. lia.
    + rewrite IH by (split; [apply Z.div_pos; lia|apply Z.div_lt_upper_bound; lia]). simpl.
      rewrite Hd, Hv. f_equal. pose proof (Z_div_mod_eq_full n 10). lia.
Qed.

Lemma itoa_aux_digits fuel n acc : 0 ≤ n → all_chars is_digit acc = true →
  all_chars is_digit (itoa_aux fuel n acc) = true.
Proof.
  revert n acc. induction fuel as [|fuel IH]; intros n acc Hn Hacc; simpl; [done|].
  destruct (digit_char_ok (n `mod` 10)) as [Hd _]; [apply Z.mod_pos_bound; lia|].
  destruct (n <? 10); [simpl; by rewrite Hd|]. apply IH; [apply Z.div_pos; lia|]. simpl. by rewrite Hd.
Qed.

Lemma itoa_aux_length fuel k n acc : 0 ≤ n < 10 ^ Z.of_nat (S k) →
  (String.length (itoa_aux fuel n acc) ≤ S k + String.length acc)%nat.
Proof.
  revert k n acc. induction fuel as [|fuel IH]; intros k n acc Hn; simpl; [lia|].
  destruct (Z.ltb_spec n 10); simpl; [lia|].
  destruct k as [|k]; [simpl in Hn; lia|].
  rewrite Nat2Z.inj_succ, Z.pow_succ_r in Hn by lia.
  specialize (IH k (n / 10) (String (digit_char (n `mod` 10)) acc)). simpl in IH.
  etrans; [apply IH|lia].
  split; [apply Z.div_pos; lia|apply Z.div_lt_upper_bound; lia].
Qed.

Lemma itoa_aux_ne fuel n acc : itoa_aux (S fuel) n acc ≠ EmptyString.
Proof.
  revert n acc. induction fuel as [|fuel IH]; intros n acc; simpl; [by destruct (n <? 10)|].
  destruct (n <? 10); [done|]. apply IH.
Qed.

Lemma Itoa_digits n : 0 ≤ n → all_chars is_digit (Itoa n) = true.
Proof. intros Hn. unfold Itoa. destruct (Z.ltb_spec n 0); [lia|]. by apply itoa_aux_digits. Qed.

Lemma Itoa_ne n : 0 ≤ n → Itoa n ≠ EmptyString.
Proof. intros Hn. unfold Itoa. destruct (Z.ltb_spec n 0); [lia|]. apply itoa_aux_ne. Qed.

Lemma Itoa_length32 n : 0 ≤ n < 2 ^ 31 → (String.length (Itoa n) ≤ 10)%nat.
Proof.
  intros Hn. unfold Itoa. destruct (Z.ltb_spec n 0); [lia|].
  pose proof (itoa_aux_length 20 9 n EmptyString) as Hl. etrans; [apply Hl|simpl; lia].
  split; [lia|]. etrans; [apply Hn|]. done.
Qed.

(** A string of digits starts with neither sign. *)
Lemma Atoi_digits s : s ≠ EmptyString → all_chars is_digit s = true →
  Atoi s = match digits_val 0 s with
           | Some n => if bool_decide (- 2 ^ 63 ≤ n < 2 ^ 63) then Some n else None
           | None => None
           end.
Proof.
  destruct s as [|c s]; [done|]. intros _ Hd. simpl in Hd. apply andb_true_iff in Hd as [Hc _].
  destruct c as [[] [] [] [] [] [] [] []]; try discriminate Hc; reflexivity.
Qed.

Lemma Atoi_Itoa n : 0 ≤ n < 2 ^ 63 → Atoi (Itoa n) = Some n.
Proof.
  intros Hn. rewrite Atoi_digits by (first [apply Itoa_ne|apply Itoa_digits]; lia).
  unfold Itoa. destruct (Z.ltb_spec n 0); [lia|]. rewrite itoa_aux_val; [|split; [lia|]].
  - simpl. rewrite bool_decide_eq_true_2; [done|lia].
  - etrans; [apply Hn|]. done.
Qed.

Lemma Atoi_Itoa64 n : in_int64 n → Atoi (Itoa n) = Some n.
Proof.
  unfold in_int64. intros Hn. destruct (Z.ltb_spec n 0) as [Hneg|Hpos]; [|apply Atoi_Itoa; lia].
  unfold Itoa. rewrite (proj2 (Z.ltb_lt n 0)) by done. cbn [Atoi].
  pose proof (itoa_aux_ne 19 (- n) EmptyString) as Hne.
  assert (2 ^ 63 < 10 ^ Z.of_nat 20) as Hbig by (vm_compute; reflexivity).
  assert (digits_val 0 (itoa_aux 20 (- n) EmptyString) = Some (- n)) as Hval.
  { rewrite itoa_aux_val; [done|]. split; [lia|]. eapply Z.le_lt_trans; [|exact Hbig]. lia. }
  clear Hbig. revert Hne Hval. generalize (itoa_aux 20 (- n) EmptyString). intros [|c ds] Hne Hval; [by destruct Hne|].
  rewrite Hval, bool_decide_eq_true_2 by lia. f_equal. lia.
Qed.

Lemma Itoa_inj n m : 0 ≤ n < 2 ^ 63 → 0 ≤ m < 2 ^ 63 → Itoa n = Itoa m → n = m.
Proof. intros Hn Hm Heq. apply Atoi_Itoa in Hn, Hm. rewrite Heq in Hn. congruence. Qed.

(** *** Splitting at a two-character separator *)
Lemma cut_app a b s t : a ≠ b → all_chars (λ c, negb (bool_decide (c = b))) s = true →
  cut (String a (String b EmptyString)) (s +:+ String a (String b t)) = Some (s, t).
Proof.
  intros Hab. induction s as [|c s IH]; intros Hs.
  - simpl. rewrite !bool_decide_eq_true_2 by done. by destruct t.
  - simpl in Hs. apply andb_true_iff in Hs as [Hc Hs]. specialize (IH Hs).
    simpl. rewrite IH.
    replace (bool_decide (a = c) && _) with false; [done|]. symmetry. apply andb_false_iff.
    destruct (decide (a = c)) as [<-|Hne]; [right|left; by apply bool_decide_eq_false_2].
    destruct s as [|c' s]; simpl.
    + rewrite bool_decide_eq_false_2 by congruence. done.
    + simpl in Hs. apply andb_true_iff in Hs as [Hc' _]. apply negb_true_iff, bool_decide_eq_false in Hc'.
      rewrite bool_decide_eq_false_2 by congruence. done.
Qed.

(** *** Prefixes and one-character separators *)

Lemma HasPrefix_app p s : HasPrefix (p +:+ s) p = true.
Proof.
  induction p as [|c p IH]; [by destruct s|]. rewrite str_app_cons. simpl. by rewrite bool_decide_eq_true_2.
Qed.

Lemma str_drop_app p s : str_drop (String.length p) (p +:+ s) = s.
Proof. induction p as [|c p IH]; [done|]. rewrite str_app_cons. simpl. done. Qed.

Lemma HasPrefix_true s p : HasPrefix s p = true → s = p +:+ str_drop (String.length p) s.
Proof.
  revert s. induction p as [|c p IH]; intros s; [done|]. destruct s as [|c' s]; [done|]. simpl.
  rewrite andb_true_iff, bool_decide_eq_true, str_app_cons. intros [<- Hp]. f_equal. by apply IH.
Qed.

Lemma TrimPrefix_app p s : TrimPrefix (p +:+ s) p = s.
Proof. unfold TrimPrefix. rewrite HasPrefix_app. apply str_drop_app. Qed.

Lemma TrimPrefix_id s p : HasPrefix s p = false → TrimPrefix s p = s.
Proof. unfold TrimPrefix. by intros ->. Qed.

Lemma str_app_inj (p a b : string) : p +:+ a = p +:+ b → a = b.
Proof. induction p as [|c p IH]; [done|]. rewrite !str_app_cons. intros [= ?]. auto. Qed.

(** No character of [s] is [c]. *)
Abbreviation free_of c s := (all_chars (λ x, negb (bool_decide (x = c))) s).

Lemma cut_char_app c s t : free_of c s = true →
  cut (String c EmptyString) (s +:+ String c t) = Some (s, t).
Proof.
  induction s as [|x s IH]; intros Hs.
  - change (EmptyString +:+ String c t) with (String c t). simpl. rewrite bool_decide_eq_true_2 by done. simpl.
    by destruct t.
  - rewrite str_app_cons. simpl in *. apply andb_true_iff in Hs as [Hx Hs].
    apply negb_true_iff, bool_decide_eq_false in Hx. rewrite bool_decide_eq_false_2 by congruence. simpl.
    by rewrite IH.
Qed.

Lemma cut_char_inv c s a b :
  cut (String c EmptyString) s = Some (a, b) → s = a +:+ String c b ∧ free_of c a = true.
Proof.
  revert a. induction s as [|x s IH]; intros a; simpl; [done|].
  destruct (bool_decide_reflect (c = x)) as [<-|Hne]; simpl.
  - destruct s; simpl; intros [= <- <-]; done.
  - destruct (cut _ s) as [[a' b']|]; [|done]. intros [= <- <-].
    destruct (IH a' eq_refl) as [-> Hf]. rewrite str_app_cons. simpl. rewrite Hf.
    rewrite bool_decide_eq_false_2 by congruence. done.
Qed.

Lemma cut_char_None c s : cut (String c EmptyString) s = None ↔ free_of c s = true.
Proof.
  induction s as [|x s IH]; simpl; [done|].
  destruct (bool_decide_reflect (c = x)) as [<-|Hne]; simpl.
  - rewrite bool_decide_eq_true_2 by done. simpl. by destruct s.
  - rewrite bool_decide_eq_false_2 by congruence. simpl. rewrite <- IH.
    destruct (cut _ s) as [[]|]; done.
Qed.

Lemma SplitChar_item c s : free_of c s = true → SplitChar s c = [s].
Proof.
  induction s as [|x s IH]; [done|]. simpl. rewrite andb_true_iff, negb_true_iff. intros [-> Hs]. by rewrite IH.
Qed.

Lemma SplitChar_app c s t : free_of c s = true → SplitChar (s +:+ String c t) c = s :: SplitChar t c.
Proof.
  induction s as [|x s IH]; intros Hs.
  - change (EmptyString +:+ String c t) with (String c t). simpl. by rewrite bool_decide_eq_true_2.
  - rewrite str_app_cons. revert Hs. simpl. rewrite andb_true_iff, negb_true_iff. intros [-> Hs]. by rewrite IH.
Qed.

(** [ReplaceAll] of one character. *)
Lemma ReplaceAll_cons c new x s :
  ReplaceAll (String x s) (String c EmptyString) new
  = (if bool_decide (x = c) then new else String x EmptyString) +:+ ReplaceAll s (String c EmptyString) new.
Proof.
  unfold ReplaceAll. simpl. destruct (bool_decide_reflect (x = c)) as [->|Hne].
  - rewrite bool_decide_eq_true_2 by done. simpl. by destruct s.
  - rewrite bool_decide_eq_false_2 by congruence. done.
Qed.

(** * Go's [sort] package

    [sort.Slice] is not stable: elements the [less] function does not separate
    come out in an unspecified order.  The class states what it guarantees;
    the instance is a stable merge sort.  [sort.Strings] has one possible
    result, since the order on strings is total. *)

(** [a < b] on strings: the bytewise order is total. *)
Definition str_ltb (a b : string) : bool := negb (bool_decide (String.le b a)).

Lemma str_ltb_false a b : str_ltb a b = false ↔ String.le b a.
Proof. unfold str_ltb. by rewrite negb_false_iff, bool_decide_eq_true. Qed.

(** The contract of a [less] function: a strict weak order. *)
Definition weak_order {A} (less : A → A → bool) : Prop :=
  (∀ x y, less x y = true → less y x = false) ∧
  (∀ x y z, less y x = false → less z y = false → less z x = false).

(** Comparing by a string key is one. *)
Lemma weak_order_key {A} (key : A → string) : weak_order (λ x y, str_ltb (key x) (key y)).
Proof.
  split.
  - intros x y Hlt. apply str_ltb_false. destruct (total String.le (key x) (key y)) as [|Hle]; [done|].
    apply str_ltb_false in Hle. congruence.
  - intros x y z. rewrite !str_ltb_false. by etrans.
Qed.

Lemma Sorted_mono {A} (R R' : A → A → Prop) l :
  (∀ x y, R x y → R' x y) → Sorted R l → Sorted R' l.
Proof. intros HR. induction 1 as [|x l _ IH Hd]; constructor; [done|]. destruct Hd; constructor; auto. Qed.

Class GoSort := {
  sort_Slice : ∀ {A : Type}, (A → A → bool) → list A → list A;
  sort_Slice_perm : ∀ {A : Type} (less : A → A → bool) l, sort_Slice less l ≡ₚ l;
  sort_Slice_sorted : ∀ {A : Type} (less : A → A → bool) l,
    weak_order less → Sorted (λ x y, less y x = false) (sort_Slice less l);
}.

Section Merge.
Context {A : Type} (less : A → A → bool).

#[local] Instance not_less_dec : RelDecision (λ x y : A, less y x = false).
Proof. intros x y. apply _. Defined.

Lemma merge_sort_less_sorted l :
  weak_order less → Sorted (λ x y, less y x = false) (merge_sort (λ x y, less y x = false) l).
Proof.
  intros [Hasym _]. apply Sorted_merge_sort. intros x y.
  destruct (less y x) eqn:E; [right; by apply Hasym|by left].
Qed.
End Merge.

#[export] Instance merge_GoSort : GoSort := {|
  sort_Slice A less l := merge_sort (λ x y, less y x = false) l;
  sort_Slice_perm A less l := merge_sort_Permutation _ l;
  sort_Slice_sorted A less l := merge_sort_less_sorted less l;
|}.

Definition sort_Strings (l : list string) : list string := merge_sort String.le l.

Lemma sort_Strings_perm l : sort_Strings l ≡ₚ l.
Proof. apply merge_sort_Permutation. Qed.

Lemma sort_Strings_sorted l : StronglySorted String.le (sort_Strings l).
Proof. apply Sorted_StronglySorted; [apply _|]. apply Sorted_merge_sort. apply _. Qed.

Example sort_Strings_ex : sort_Strings ["b"; "a"; "ab"] = ["a"; "ab"; "b"].
Proof. reflexivity. Qed.

(** * More of the Go string library: quoting, fields, fixed-width numbers *)

(** ** [%q] of fmt: the text in double quotes

    Quotes, backslashes and control characters are escaped; bytes from 128 on
    are taken as printable UTF-8. *)

Definition quote_char : ascii := ascii_of_nat 34.
Definition backslash_char : ascii := ascii_of_nat 92.

Definition hex_digit (n : nat) : ascii :=
  match String.get n "0123456789abcdef" with Some c => c | None => "0"%char end.

Definition quoted (c : ascii) : string :=
  let n := nat_of_ascii c in
  let esc (x : ascii) : string := String backslash_char (String x EmptyString) in
  if bool_decide (c = quote_char) || bool_decide (c = backslash_char) then esc c else
  if (n =? 7)%nat then esc "a"%char else if (n =? 8)%nat then esc "b"%char else if (n =? 9)%nat then esc "t"%char else
  if (n =? 10)%nat then esc "n"%char else if (n =? 11)%nat then esc "v"%char else if (n =? 12)%nat then esc "f"%char else
  if (n =? 13)%nat then esc "r"%char else
  if (n <? 32)%nat || (n =? 127)%nat
  then String backslash_char (String "x" (String (hex_digit (n / 16)) (String (hex_digit (n mod 16)) EmptyString)))
  else String c EmptyString.

Fixpoint quote_body (s : string) : string :=
  match s with EmptyString => EmptyString | String c s' => quoted c +:+ quote_body s' end.

Definition Quote (s : string) : string :=
  String quote_char (quote_body s +:+ String quote_char EmptyString).

(** ** [strings.Fields]: the words between white space *)

Fixpoint fields_from (word : string) (s : string) : list string :=
  let flush := if str_eqb word "" then [] else [word] in
  match s with
  | EmptyString => flush
  | String c s' =>
      if is_space c then flush ++ fields_from EmptyString s'
      else fields_from (word +:+ String c EmptyString) s'
  end.
Definition Fields (s : string) : list string := fields_from EmptyString s.

(** ** [strings.ToUpper] on ASCII *)

Definition upper (c : ascii) : ascii := if is_lower c then ascii_of_N (N_of_ascii c - 32) else c.
Fixpoint ToUpper (s : string) : string :=
  match s with EmptyString => EmptyString | String c s' => String (upper c) (ToUpper s') end.

Example Fields_ex : Fields "  10de  NVIDIA Corporation" = ["10de"; "NVIDIA"; "Corporation"].
Proof. reflexivity. Qed.

(** ** [errors.Join] of at least one error

    The joined error is kept as its text: one line per error. *)
Definition joinErrors (text : error → string) (errs : list error) : error :=
  Errorf "%s" [Join (text <$> errs) (String (ascii_of_nat 10) EmptyString)].

(** * Query strings: the parts of Go's [net/url] the rewriter uses *)

Section GoURL.
#[local] Open Scope N_scope.

Definition HEX_digit (n : N) : ascii := ascii_of_N (if n <? 10 then n + 48 else n + 55).

Definition hex_val (c : ascii) : option N :=
  let n := N_of_ascii c in
  if (48 <=? n) && (n <=? 57) then Some (n - 48) else
  if (97 <=? n) && (n <=? 102) then Some (n - 87) else
  if (65 <=? n) && (n <=? 70) then Some (n - 55) else None.

Definition unreserved (c : ascii) : bool :=
  is_lower c || is_upper c || is_digit c || existsb (λ d, bool_decide (c = d)) ["-"; "_"; "."; "~"]%char.

Fixpoint QueryEscape (s : string) : string :=
  match s with
  | EmptyString => EmptyString
  | String c s' =>
      if unreserved c then String c (QueryEscape s')
      else if bool_decide (c = " "%char) then String "+" (QueryEscape s')
      else String "%" (String (HEX_digit (N_of_ascii c / 16)) (String (HEX_digit (N_of_ascii c mod 16)) (QueryEscape s')))
  end.

Fixpoint QueryUnescape (s : string) : option string :=
  match s with
  | EmptyString => Some EmptyString
  | String c s' =>
      if bool_decide (c = "%"%char) then
        match s' with
        | String a (String b s'') =>
            x ← hex_val a; y ← hex_val b; t ← QueryUnescape s''; Some (String (ascii_of_N (16 * x + y)) t)
        | _ => None
        end
      else t ← QueryUnescape s'; Some (String (if bool_decide (c = "+"%char) then " "%char else c) t)
  end.

(** [url.Values]; [ParseQuery] gives no values when a part is malformed, as
    its caller drops them. *)
Definition Values := gmap string (list string).

Definition parsePart (acc : option Values) (part : string) : option Values :=
  q ← acc;
  if str_eqb part "" then Some q else
  if Contains part ";" then None else
  let '(key, value, _) := Cut part "=" in
  key ← QueryUnescape key;
  value ← QueryUnescape value;
  Some (<[key := default [] (q !! key) ++ [value]]> q).

Definition ParseQuery (query : string) : option Values :=
  foldl parsePart (Some ∅) (SplitChar query "&").

Definition v_Get (q : Values) (key : string) : string :=
  match q !! key with Some (v :: _) => v | _ => "" end.

Definition v_Set (q : Values) (key value : string) : Values := <[key := [value]]> q.

Definition v_Encode (q : Values) : string :=
  Join (key ← sort_Strings (fst <$> map_to_list q); value ← default [] (q !! key);
        [QueryEscape key +:+ "=" +:+ QueryEscape value]) "&".

Example query_ex : (λ q, v_Encode (v_Set q "labelSelector" "app=x, y")) <$> ParseQuery "watch=true&labelSelector=app%3Dsomething&a=1+2" =
  Some "a=1+2&labelSelector=app%3Dx%2C+y&watch=true".
Proof. vm_compute. reflexivity. Qed.
End GoURL.

(** * Go's [encoding/base64.StdEncoding]

    The standard alphabet with padding; the decoder is strict about the
    alphabet and the padding and skips line breaks. *)

Section Base64.
#[local] Open Scope N_scope.

Definition b64_char (n : N) : ascii := ascii_of_N
  (if n <? 26 then n + 65 else if n <? 52 then n + 71 else if n <? 62 then n - 4 else if n =? 62 then 43 else 47).

Definition b64_val (c : ascii) : option N :=
  let n := N_of_ascii c in
  if (65 <=? n) && (n <=? 90) then Some (n - 65) else
  if (97 <=? n) && (n <=? 122) then Some (n - 71) else
  if (48 <=? n) && (n <=? 57) then Some (n + 4) else
  if n =? 43 then Some 62 else if n =? 47 then Some 63 else None.

Definition b64_pad : ascii := "=".

(** Three bytes are four digits of six bits. *)
Fixpoint EncodeToString (s : string) : string :=
  match s with
  | EmptyString => EmptyString
  | String a EmptyString =>
      let n := N.shiftl (N_of_ascii a) 16 in
      String (b64_char (N.shiftr n 18)) (String (b64_char (N.land (N.shiftr n 12) 63))
        (String b64_pad (String b64_pad EmptyString)))
  | String a (String b EmptyString) =>
      let n := N.lor (N.shiftl (N_of_ascii a) 16) (N.shiftl (N_of_ascii b) 8) in
      String (b64_char (N.shiftr n 18)) (String (b64_char (N.land (N.shiftr n 12) 63))
        (String (b64_char (N.land (N.shiftr n 6) 63)) (String b64_pad EmptyString)))
  | String a (String b (String c rest)) =>
      let n := N.lor (N.lor (N.shiftl (N_of_ascii a) 16) (N.shiftl (N_of_ascii b) 8)) (N_of_ascii c) in
      String (b64_char (N.shiftr n 18)) (String (b64_char (N.land (N.shiftr n 12) 63))
        (String (b64_char (N.land (N.shiftr n 6) 63)) (String (b64_char (N.land n 63)) (EncodeToString rest))))
  end.

Definition byte_at (n shift : N) : ascii := ascii_of_N (N.land (N.shiftr n shift) 255).

Fixpoint decode_quads (s : string) : option string :=
  match s with
  | EmptyString => Some EmptyString
  | String a (String b (String c (String d rest))) =>
      x ← b64_val a; y ← b64_val b;
      let n := N.lor (N.shiftl x 18) (N.shiftl y 12) in
      match b64_val c, b64_val d with
      | Some z, Some w =>
          let n := N.lor n (N.lor (N.shiftl z 6) w) in
          t ← decode_quads rest;
          Some (String (byte_at n 16) (String (byte_at n 8) (String (byte_at n 0) t)))
      | Some z, None =>
          let n := N.lor n (N.shiftl z 6) in
          if bool_decide (d = b64_pad) && str_eqb rest EmptyString
          then Some (String (byte_at n 16) (String (byte_at n 8) EmptyString)) else None
      | None, _ =>
          if bool_decide (c = b64_pad) && bool_decide (d = b64_pad) && str_eqb rest EmptyString
          then Some (String (byte_at n 16) EmptyString) else None
      end
  | _ => None
  end.

Fixpoint drop_newlines (s : string) : string :=
  match s with
  | EmptyString => EmptyString
  | String c s' => if (N_of_ascii c =? 10) || (N_of_ascii c =? 13) then drop_newlines s' else String c (drop_newlines s')
  end.

Definition CorruptInputError : error := Errorf "illegal base64 data at input byte" [].

Definition DecodeString (s : string) : res string :=
  match decode_quads (drop_newlines s) with Some t => Ok t | None => Err CorruptInputError end.

Example base64_encode_ex : EncodeToString "light work" = "bGlnaHQgd29yaw==".
Proof. vm_compute. reflexivity. Qed.
Example base64_decode_ex : (DecodeString "bGlnaHQgd29yay4=", DecodeString "bGlnaHQgd29yaw==", is_Ok (DecodeString "bGl"), is_Ok (DecodeString "b===")) =
  (Ok "light work.", Ok "light work", false, false).
Proof. vm_compute. reflexivity. Qed.
End Base64.
