(* ===== verification/DeviceModel.v ===== *)
(** * The device model

    Quantities of the Kubernetes API, the devices of [domain/allocatable] and
    the DNS labels their names are made of. *)

From S2P Require Import Prelude GoLib.

From Stdlib Require Import Ascii.

(** * [resource.Quantity] of k8s.io/apimachinery as an interface

    The quantity library is not part of the repository.  The program uses
    [Value], [NewQuantity], [DeepCopy], the [Format] field and the zero value;
    the class names these operations, and [QuantityLaws] the documented
    behaviour the program relies on.  [DeepCopy] of a value type is the value
    itself. *)

Inductive Format := BinarySI | DecimalSI | DecimalExponent.

#[export] Instance Format_eq_dec : EqDecision Format.
Proof. solve_decision. Defined.

Class Quantity (Q : Type) := {
  Value : Q → Z;
  NewQuantity : Z → Format → Q;
  QFormat : Q → Format;
  zeroQuantity : Q;
}.

Class QuantityLaws (Q : Type) `{Quantity Q} : Prop := {
  Value_NewQuantity v f : in_int64 v → Value (NewQuantity v f) = v;
  QFormat_NewQuantity v f : QFormat (NewQuantity v f) = f;
  Value_zero : Value zeroQuantity = 0;
  Value_in q : in_int64 (Value q);
}.

(** [Quantity.Add], used by the controller.  [Value] rounds fractions up, so
    sums of values are exact for integral quantities only. *)
Class QuantityAdd (Q : Type) := { QAdd : Q → Q → Q }.

Class QuantityAddLaws (Q : Type) `{Quantity Q, QuantityAdd Q} := {
  Integral : Q → Prop;
  Integral_NewQuantity v f : in_int64 v → Integral (NewQuantity v f);
  Value_QAdd a b : Integral a → Integral b → in_int64 (Value a + Value b) →
    Value (QAdd a b) = Value a + Value b;
  Integral_QAdd a b : Integral a → Integral b → in_int64 (Value a + Value b) → Integral (QAdd a b);
}.

(** An instance of the interface, used by the witnesses: an [int64] and its
    format. *)
Record int_quantity := IntQuantity { iq_value : Z; iq_format : Format }.

#[export] Instance int_quantity_eq_dec : EqDecision int_quantity.
Proof. solve_decision. Defined.

#[export] Instance int_quantity_Quantity : Quantity int_quantity := {|
  Value q := wrap64 (iq_value q);
  NewQuantity := IntQuantity;
  QFormat := iq_format;
  zeroQuantity := IntQuantity 0 DecimalSI;
|}.

#[export] Instance int_quantity_laws : QuantityLaws int_quantity.
Proof.
  constructor; simpl; [intros; by apply wrap64_id|done|done|intros; apply wrap64_in].
Qed.

#[export] Instance int_quantity_add : QuantityAdd int_quantity := {|
  QAdd a b := IntQuantity (iq_value a + iq_value b) (iq_format a);
|}.

#[export] Instance int_quantity_add_laws : QuantityAddLaws int_quantity.
Proof.
  refine {| Integral q := in_int64 (iq_value q) |}; simpl; [done| |];
    intros a b Ha Hb; rewrite !wrap64_id by done; [by apply wrap64_id|done].
Defined.

(** * Device offers: pkg/dra/domain/allocatable

    The data model of an allocatable GPU or MIG partition, its attribute keys,
    and the derivation of DNS labels (device and counter-set names). *)

(** ** types.go *)

Record AttributeValue := mkAttributeValue {
  attr_String : option string;
  attr_Int : option Z;
  attr_Bool : option bool;
}.

Definition StringAttr (s : string) : AttributeValue := mkAttributeValue (Some s) None None.

Definition CapacityUnitMiB : string := "MiB".
Definition CapacityUnitPercent : string := "Percent".
Definition CapacityUnitCount : string := "Count".
Definition CounterUnitMiB : string := "MiB".
Definition CounterUnitCount : string := "Count".

Record CapacityPolicy := mkCapacityPolicy {
  pol_Default : Z;
  pol_Min : Z;
  pol_Max : Z;
  pol_Step : Z;
  pol_Unit : string;
}.

Record CapacityValue := mkCapacityValue {
  cap_Value : Z;
  cap_Unit : string;
  cap_Policy : option CapacityPolicy;
}.

Record CounterValue := mkCounterValue { ctr_Value : Z; ctr_Unit : string }.

Record CounterSet := mkCounterSet {
  cs_Name : string;
  cs_Counters : gmap string CounterValue;
}.

Record CounterConsumption := mkCounterConsumption {
  cc_CounterSet : string;
  cc_Counters : gmap string CounterValue;
}.

Record DeviceSpec := mkDeviceSpec {
  spec_Name : string;
  spec_Attributes : gmap string AttributeValue;
  spec_Capacity : gmap string CapacityValue;
  spec_Consumes : list CounterConsumption;
  spec_AllowMultipleAllocations : bool;
  spec_BindingConditions : list string;
  spec_BindingFailureConditions : list string;
}.

(** ** keys.go, conditions.go and the device types of api/v1alpha1 *)

Definition AttrDeviceType : string := "gpu.deckhouse.io/deviceType".
Definition AttrPCIAddress : string := "gpu.deckhouse.io/pciAddress".
Definition AttrGPUUUID : string := "gpu.deckhouse.io/gpuUUID".
Definition AttrMigUUID : string := "gpu.deckhouse.io/migUUID".
Definition AttrMpsPipeDir : string := "gpu.deckhouse.io/mpsPipeDir".
Definition AttrMpsShmDir : string := "gpu.deckhouse.io/mpsShmDir".
Definition AttrMpsLogDir : string := "gpu.deckhouse.io/mpsLogDir".

Definition DeviceConditionReady : string := "Ready".
Definition DeviceConditionBindingFailed : string := "BindingFailed".

Definition DeviceTypePhysical : string := "Physical".
Definition DeviceTypeMIG : string := "MIG".

(** ** device_base.go, gpu.go, mig.go, set.go *)

Record Device := mkDevice {
  dev_uuid : string;
  dev_deviceType : string;
  dev_canonicalName : string;
  dev_attributes : gmap string AttributeValue;
  dev_capacity : gmap string CapacityValue;
  dev_consumes : list CounterConsumption;
  dev_allowMultipleAllocations : bool;
  dev_bindingConditions : list string;
  dev_bindingFailureConditions : list string;
}.

Definition Spec (d : Device) : DeviceSpec := {|
  spec_Name := dev_canonicalName d;
  spec_Attributes := dev_attributes d;
  spec_Capacity := dev_capacity d;
  spec_Consumes := dev_consumes d;
  spec_AllowMultipleAllocations := dev_allowMultipleAllocations d;
  spec_BindingConditions := dev_bindingConditions d;
  spec_BindingFailureConditions := dev_bindingFailureConditions d;
|}.

Definition NewGPUDevice (name uuid : string) (attrs : gmap string AttributeValue)
    (capacity : gmap string CapacityValue) (consumes : list CounterConsumption)
    (allowMultiple : bool) : Device := {|
  dev_uuid := uuid;
  dev_deviceType := DeviceTypePhysical;
  dev_canonicalName := name;
  dev_attributes := attrs;
  dev_capacity := capacity;
  dev_consumes := consumes;
  dev_allowMultipleAllocations := allowMultiple;
  dev_bindingConditions := [DeviceConditionReady];
  dev_bindingFailureConditions := [DeviceConditionBindingFailed];
|}.

Definition NewMIGDevice (name uuid : string) (attrs : gmap string AttributeValue)
    (capacity : gmap string CapacityValue) (consumes : list CounterConsumption) : Device := {|
  dev_uuid := uuid;
  dev_deviceType := DeviceTypeMIG;
  dev_canonicalName := name;
  dev_attributes := attrs;
  dev_capacity := capacity;
  dev_consumes := consumes;
  dev_allowMultipleAllocations := false;
  dev_bindingConditions := [DeviceConditionReady];
  dev_bindingFailureConditions := [DeviceConditionBindingFailed];
|}.

Record Inventory := mkInventory {
  inv_Devices : list Device;
  inv_CounterSets : list CounterSet;
}.

Definition FilterByType (d : list Device) (deviceType : string) : list Device :=
  filter (λ dev, dev_deviceType dev = deviceType) d.

(** ** attrs.go *)

Definition AttrString (attrs : gmap string AttributeValue) (key : string) : string :=
  match attrs !! key with
  | Some (mkAttributeValue (Some s) _ _) => TrimSpace s
  | _ => ""
  end.

Definition IsMigDevice (deviceType : string) : bool := EqualFold deviceType "mig".
Definition IsPhysicalDevice (deviceType : string) : bool := EqualFold deviceType "physical".

(** ** names.go *)

Definition is_label_char (c : ascii) : bool := is_lower c || is_digit c.

(** The loop over the runes of the lower-cased value: runs of other
    characters become one dash. *)
Fixpoint sanitizeLoop (lastDash : bool) (value : string) : string :=
  match value with
  | EmptyString => EmptyString
  | String r rest =>
      if is_label_char r then String r (sanitizeLoop false rest)
      else if lastDash then sanitizeLoop true rest
      else String "-" (sanitizeLoop true rest)
  end.

Definition SanitizeDNSLabel (value : string) : string :=
  let value := ToLower (TrimSpace value) in
  if str_eqb value "" then "gpu" else
  let normalized := TrimDash (sanitizeLoop false value) in
  if str_eqb normalized "" then "gpu" else
  if (String.length normalized <=? 63)%nat then normalized
  else TrimDash (str_take 63 normalized).

Definition CounterSetNameForPCI (pci : string) : string :=
  let pci := TrimSpace pci in
  if str_eqb pci "" then "" else SanitizeDNSLabel ("pgpu-" +:+ pci).

Example CounterSetNameForPCI_ex :
  CounterSetNameForPCI " 0000:65:00.0 " = "pgpu-0000-65-00-0".
Proof. reflexivity. Qed.

(** * Device names

    [SanitizeDNSLabel] always returns a DNS label; the lemmas on names that
    are sanitised already are used for the names of MIG devices. *)

Definition is_dash (c : ascii) : bool := bool_decide (c = "-"%char).
Definition is_name_char (c : ascii) : bool := is_label_char c || is_dash c.

(** RFC 1123: one to 63 lower-case letters, digits and dashes, with a letter
    or digit at both ends. *)
Definition is_dns_label (s : string) : bool :=
  (1 <=? String.length s)%nat && (String.length s <=? 63)%nat && all_chars is_name_char s &&
  starts_without is_dash s && ends_without is_dash s.

Lemma sanitizeLoop_chars b s : all_chars is_name_char (sanitizeLoop b s) = true.
Proof.
  revert b. induction s as [|c s IH]; intros b; simpl; [done|]. unfold is_name_char.
  destruct (is_label_char c) eqn:Hc; simpl; [rewrite Hc; apply IH|]. destruct b; [apply IH|]. simpl. apply IH.
Qed.

(** What trimming leaves: nothing, or a string with good ends. *)
Lemma TrimDash_ends s : all_chars is_name_char s = true →
  TrimDash s = EmptyString ∨
  (all_chars is_name_char (TrimDash s) = true ∧ starts_without is_dash (TrimDash s) = true ∧
   ends_without is_dash (TrimDash s) = true).
Proof.
  intros Hs. change (TrimDash s) with (TrimRightFunc is_dash (TrimLeftFunc is_dash s)).
  pose proof (TrimLeftFunc_chars is_dash is_name_char s Hs) as Hl.
  destruct (TrimLeftFunc_starts is_dash s) as [->|Hst]; [by left|].
  destruct (TrimRightFunc_ends is_dash (TrimLeftFunc is_dash s)) as [->|He]; [by left|right].
  split; [by apply TrimRightFunc_chars|]. split; [by apply TrimRightFunc_starts|done].
Qed.

Lemma TrimDash_take s n : (0 < n ≤ 63)%nat → all_chars is_name_char s = true →
  starts_without is_dash s = true → is_dns_label (TrimDash (str_take n s)) = true.
Proof.
  intros Hn Hs Hst. destruct n as [|n]; [lia|]. destruct s as [|c s]; [done|].
  assert (starts_without is_dash (str_take (S n) (String c s)) = true) as Hst' by exact Hst.
  pose proof (str_take_chars is_name_char (S n) _ Hs) as Hch.
  pose proof (str_take_length (S n) (String c s)) as Hlen. set (t := str_take _ _) in *. clearbody t.
  assert (TrimLeftFunc is_dash t = t) as Hl.
  { destruct t as [|d t]; [done|]. simpl in Hst'. apply negb_true_iff in Hst'. simpl. by rewrite Hst'. }
  assert (TrimDash t = TrimRightFunc is_dash t) as Htr.
  { change (TrimDash t) with (TrimRightFunc is_dash (TrimLeftFunc is_dash t)). by rewrite Hl. }
  assert (TrimDash t ≠ EmptyString) as Hne.
  { rewrite Htr. pose proof (TrimRightFunc_starts is_dash t Hst') as Hr. by destruct (TrimRightFunc is_dash t). }
  pose proof (TrimRightFunc_length is_dash t) as Hlen'. rewrite <- Htr in Hlen'.
  destruct (TrimDash_ends t Hch) as [?|(H1 & H2 & H3)]; [done|].
  unfold is_dns_label. rewrite H1, H2, H3, !andb_true_r. apply andb_true_iff.
  split; apply Nat.leb_le; [destruct (TrimDash t); [done|simpl; lia]|lia].
Qed.

Lemma dns_label_valid value : is_dns_label (SanitizeDNSLabel value) = true.
Proof.
  unfold SanitizeDNSLabel. destruct (str_eqb _ ""); [done|].
  set (n := TrimDash (sanitizeLoop false (ToLower (TrimSpace value)))).
  destruct (str_eqb n "") eqn:Hne; [done|]. apply str_eqb_false in Hne.
  destruct (TrimDash_ends _ (sanitizeLoop_chars false (ToLower (TrimSpace value)))) as [?|(H1 & H2 & H3)];
    [done|]. fold n in H1, H2, H3.
  destruct (String.length n <=? 63)%nat eqn:Hlen; [|by apply TrimDash_take; [lia|..]].
  unfold is_dns_label. rewrite H1, H2, H3, Hlen, !andb_true_r. apply Nat.leb_le.
  destruct n; [done|simpl; lia].
Qed.

(** [SanitizeDNSLabel] returns a DNS label for every input. *)
Theorem SanitizeDNSLabel_valid value : is_dns_label (SanitizeDNSLabel value) = true.
Proof. apply dns_label_valid. Qed.

(** ** Names that need no change *)

(** After a letter or digit the loop starts afresh. *)
Lemma sanitizeLoop_app b s t :
  ends_without (λ c, negb (is_label_char c)) s = true →
  sanitizeLoop b (s +:+ t) = sanitizeLoop b s +:+ sanitizeLoop false t.
Proof.
  revert b. induction s as [|c s IH]; intros b He; [done|]. rewrite str_app_cons. simpl.
  destruct s as [|c' s].
  - simpl in He. rewrite negb_involutive in He. by rewrite He.
  - specialize (λ b, IH b He). destruct (is_label_char c); [by rewrite IH, str_app_cons|].
    destruct b; by rewrite IH, ?str_app_cons.
Qed.

Lemma sanitizeLoop_id b s : all_chars is_label_char s = true → sanitizeLoop b s = s.
Proof.
  revert b. induction s as [|c s IH]; intros b; simpl; [done|]. intros [Hc Hs]%andb_true_iff.
  by rewrite Hc, IH.
Qed.

Lemma sanitizeLoop_preserves (q : ascii → bool) b s :
  q "-"%char = true → all_chars q s = true → all_chars q (sanitizeLoop b s) = true.
Proof.
  intros Hq. revert b. induction s as [|c s IH]; intros b; simpl; [done|]. intros [Hc Hs]%andb_true_iff.
  destruct (is_label_char c); [simpl; by rewrite Hc, IH|]. destruct b; [by apply IH|].
  simpl. by rewrite Hq, IH.
Qed.

Lemma sanitizeLoop_length b s : (String.length (sanitizeLoop b s) ≤ String.length s)%nat.
Proof.
  revert b. induction s as [|c s IH]; intros b; simpl; [lia|].
  destruct (is_label_char c); [simpl; specialize (IH false); lia|].
  destruct b; simpl; specialize (IH true); lia.
Qed.

Lemma digits_label s : all_chars is_digit s = true → all_chars is_label_char s = true.
Proof. apply all_chars_weaken. intros c Hc. unfold is_label_char. by rewrite Hc, orb_true_r. Qed.

Lemma is_label_char_cases c : is_label_char c = true →
  is_upper c = false ∧ is_space c = false ∧ is_dash c = false.
Proof. destruct c as [[] [] [] [] [] [] [] []]; vm_compute; intros; by repeat split. Qed.
