(* ===== verification/Accounting.v ===== *)
(** * The accounts of the allocator

    Capacity of shared devices, shared counters, and the exclusion between a
    whole GPU and its partitions. *)

From S2P Require Import Prelude GoLib DeviceModel.

(** * Consumable capacity: pkg/dra/services/allocator/capacity*.go

    How much of a shared device's capacity a request takes, whether it still
    fits, and the running totals.  Values are [int64] in the unit of the
    capacity; quantities cross the interface of [Quantity]. *)

Section Capacity.
Context {Q : Type} `{Quantity Q}.
Local Open Scope go_scope.

(** ** capacity_quantity.go *)

Definition quantityValue (qty : Q) (unit : string) : Z :=
  if str_eqb unit CapacityUnitMiB then Z.quot (Value qty) (1024 * 1024)
  else Value qty.

Definition quantityFromValue (value : Z) (unit : string) : Q :=
  if str_eqb unit CapacityUnitMiB then NewQuantity (value *! 1024 *! 1024) BinarySI
  else NewQuantity value DecimalSI.

(** ** capacity_helpers.go *)

Definition cloneQuantities (m : gmap string Q) : gmap string Q := m.

Definition calculateConsumedValue (requested : option Q) (capacity : CapacityValue) : option Z :=
  match requested with
  | None =>
      match cap_Policy capacity with
      | Some p => Some (pol_Default p)
      | None => Some (cap_Value capacity)
      end
  | Some qty =>
      let requestedValue := quantityValue qty (cap_Unit capacity) in
      match cap_Policy capacity with
      | None => Some requestedValue
      | Some p =>
          if (0 <? pol_Max p) && (pol_Max p <? requestedValue) then None else
          let min := pol_Min p in
          let consumed := if requestedValue <? min then min else requestedValue in
          let consumed :=
            if 0 <? pol_Step p then
              let diff := consumed -! min in
              let diff := if diff <? 0 then 0 else diff in
              let remainder := Z.rem diff (pol_Step p) in
              if negb (remainder =? 0) then consumed +! (pol_Step p -! remainder) else consumed
            else consumed in
          if (0 <? pol_Max p) && (pol_Max p <? consumed) then None else Some consumed
      end
  end.

(** ** capacity.go *)

Record CapacityRequirements := mkCapacityRequirements { cr_Requests : gmap string Q }.

Definition requestedFor (req : option CapacityRequirements) (name : string) : option Q :=
  r ← req; cr_Requests r !! name.

(** The body of the loop over the capacities of the device. *)
Definition consumeOne (req : option CapacityRequirements) (name : string)
    (cap : CapacityValue) : option Q :=
  v ← calculateConsumedValue (requestedFor req name) cap;
  if cap_Value cap <? v then None else Some (quantityFromValue v (cap_Unit cap)).

Definition computeConsumedCapacity (req : option CapacityRequirements)
    (capacity : gmap string CapacityValue) : option (gmap string Q) :=
  let norequests := match req with None => true | Some r => map_len0 (cr_Requests r) end in
  if map_len0 capacity then (if norequests then Some ∅ else None) else
  let known := match req with
    | None => true
    | Some r => range_all (λ name _, bool_decide (is_Some (capacity !! name))) (cr_Requests r)
    end in
  if negb known then None else range_collect (consumeOne req) capacity.

(** [total] of [fitsCapacity] and [addConsumed]: [add[name]] is the zero
    quantity when the key is missing. *)
Definition capacityTotal (existing add : gmap string Q) (name : string) (unit : string) : Z :=
  let total := quantityValue (default zeroQuantity (add !! name)) unit in
  match existing !! name with
  | Some current => total +! quantityValue current unit
  | None => total
  end.

Definition fitsCapacity (existing add : gmap string Q)
    (capacity : gmap string CapacityValue) : bool :=
  range_all (λ name cap, capacityTotal existing add name (cap_Unit cap) <=? cap_Value cap) capacity.

Definition addConsumed (existing add : gmap string Q)
    (capacity : gmap string CapacityValue) : gmap string Q :=
  range_update (λ name cap current,
    let total := quantityValue (default zeroQuantity (add !! name)) (cap_Unit cap) in
    let total := match current with
      | Some q => total +! quantityValue q (cap_Unit cap)
      | None => total
      end in
    quantityFromValue total (cap_Unit cap)) capacity existing.

(** ** Lemmas *)

Lemma quantity_roundtrip `{!QuantityLaws Q} v unit :
  0 ≤ v < 2 ^ 42 → quantityValue (quantityFromValue v unit) unit = v.
Proof.
  intros Hv. unfold quantityValue, quantityFromValue. destruct (str_eqb unit CapacityUnitMiB).
  - rewrite (mul64_id v) by int64_lia. rewrite mul64_id by int64_lia.
    rewrite Value_NewQuantity by int64_lia.
    replace (v * 1024 * 1024) with (v * (1024 * 1024)) by lia. by rewrite Z.quot_mul.
  - rewrite Value_NewQuantity; [done|int64_lia].
Qed.

Lemma lookup_addConsumed existing add capacity name :
  addConsumed existing add capacity !! name =
    match capacity !! name with
    | Some cap => Some (quantityFromValue (capacityTotal existing add name (cap_Unit cap)) (cap_Unit cap))
    | None => existing !! name
    end.
Proof. unfold addConsumed. rewrite lookup_range_update. by destruct (capacity !! name). Qed.

Lemma fitsCapacity_true existing add capacity :
  fitsCapacity existing add capacity = true ↔
    map_Forall (λ name cap, capacityTotal existing add name (cap_Unit cap) ≤ cap_Value cap) capacity.
Proof.
  unfold fitsCapacity. rewrite range_all_true.
  split; intros Hf name cap Hc; by apply Z.leb_le, (Hf name cap Hc).
Qed.

(** The grid of admissible amounts of a policy: [min + k * step]. *)
Definition on_grid (p : CapacityPolicy) (v : Z) : Prop :=
  pol_Min p ≤ v ∧ (0 < pol_Step p → (v - pol_Min p) `mod` pol_Step p = 0).

(** Rounding up, free of wrap-around. *)
Definition roundUp (p : CapacityPolicy) (v : Z) : Z :=
  let base := Z.max v (pol_Min p) in
  if 0 <? pol_Step p then
    let r := (base - pol_Min p) `mod` pol_Step p in
    if r =? 0 then base else base + (pol_Step p - r)
  else base.

Lemma roundUp_on_grid p v : on_grid p (roundUp p v) ∧ v ≤ roundUp p v.
Proof.
  unfold on_grid, roundUp. set (base := Z.max v (pol_Min p)).
  destruct (0 <? pol_Step p) eqn:Hstep; go_bool; [|repeat split; lia].
  pose proof (Z.mod_pos_bound (base - pol_Min p) (pol_Step p) Hstep).
  destruct (_ =? 0) eqn:Hr; go_bool; [repeat split; lia|].
  repeat split; [lia| |lia]. intros _.
  pose proof (Z_div_mod_eq_full (base - pol_Min p) (pol_Step p)).
  set (r := (base - pol_Min p) `mod` pol_Step p) in *.
  set (d := (base - pol_Min p) `div` pol_Step p) in *. clearbody d r.
  replace (base + (pol_Step p - r) - pol_Min p) with ((d + 1) * pol_Step p) by lia.
  apply Z.mod_mul. lia.
Qed.

Lemma roundUp_least p v w : v ≤ w → on_grid p w → roundUp p v ≤ w.
Proof.
  unfold on_grid, roundUp. set (base := Z.max v (pol_Min p)). intros Hvw [Hmin Hgrid].
  destruct (0 <? pol_Step p) eqn:Hstep; go_bool; [|lia].
  specialize (Hgrid Hstep).
  pose proof (Z.mod_pos_bound (base - pol_Min p) (pol_Step p) Hstep).
  pose proof (Z_div_mod_eq_full (base - pol_Min p) (pol_Step p)).
  pose proof (Z_div_mod_eq_full (w - pol_Min p) (pol_Step p)).
  destruct (_ =? 0) eqn:Hr; go_bool; [lia|].
  set (r := (base - pol_Min p) `mod` pol_Step p) in *.
  set (a := (base - pol_Min p) `div` pol_Step p) in *.
  set (b := (w - pol_Min p) `div` pol_Step p) in *. 
  assert (base ≤ w) by lia. rewrite Hgrid in *. clearbody a b r base.
  assert (a < b) by nia. nia.
Qed.

Lemma calculateConsumedValue_roundUp qty cap p :
  cap_Policy cap = Some p →
  0 ≤ pol_Min p < 2 ^ 62 → 0 ≤ pol_Step p < 2 ^ 62 →
  0 ≤ quantityValue qty (cap_Unit cap) < 2 ^ 62 →
  calculateConsumedValue (Some qty) cap =
    let v := roundUp p (quantityValue qty (cap_Unit cap)) in
    if (0 <? pol_Max p) && (pol_Max p <? v) then None else Some v.
Proof.
  intros Hp Hmin Hstep Hq. unfold calculateConsumedValue, roundUp. rewrite Hp.
  set (q := quantityValue qty (cap_Unit cap)) in *.
  replace (if q <? pol_Min p then pol_Min p else q) with (Z.max q (pol_Min p))
    by (destruct (Z.ltb_spec q (pol_Min p)); lia).
  set (base := Z.max q (pol_Min p)).
  rewrite sub64_id by int64_lia.
  destruct (Z.ltb_spec (base - pol_Min p) 0); [lia|]. simpl.
  pose proof (roundUp_on_grid p q) as [_ Hge]. unfold roundUp in Hge. fold base in Hge.
  destruct (0 <? pol_Step p) eqn:Hs; go_bool.
  - rewrite Z.rem_mod_nonneg by lia.
    pose proof (Z.mod_pos_bound (base - pol_Min p) (pol_Step p) Hs).
    destruct (_ =? 0) eqn:Hr; simpl.
    + destruct (Z.ltb_spec 0 (pol_Max p)), (Z.ltb_spec (pol_Max p) q),
        (Z.ltb_spec (pol_Max p) base); simpl; try done; lia.
    + rewrite sub64_id, add64_id by int64_lia.
      destruct (Z.ltb_spec 0 (pol_Max p)), (Z.ltb_spec (pol_Max p) q),
        (Z.ltb_spec (pol_Max p) (base + (pol_Step p - (base - pol_Min p) `mod` pol_Step p)));
        simpl; try done; lia.
  - destruct (Z.ltb_spec 0 (pol_Max p)), (Z.ltb_spec (pol_Max p) q),
        (Z.ltb_spec (pol_Max p) base); simpl; try done; lia.
Qed.

(** What a request takes under a policy: the least admissible amount that
    covers it, or nothing when that amount is above the maximum. *)
Theorem calculateConsumedValue_least qty cap p :
  cap_Policy cap = Some p →
  0 ≤ pol_Min p < 2 ^ 62 → 0 ≤ pol_Step p < 2 ^ 62 →
  0 ≤ quantityValue qty (cap_Unit cap) < 2 ^ 62 →
  match calculateConsumedValue (Some qty) cap with
  | Some v =>
      quantityValue qty (cap_Unit cap) ≤ v ∧ on_grid p v ∧ (0 < pol_Max p → v ≤ pol_Max p) ∧
      (∀ w, quantityValue qty (cap_Unit cap) ≤ w → on_grid p w → v ≤ w)
  | None =>
      0 < pol_Max p ∧
      (∀ w, quantityValue qty (cap_Unit cap) ≤ w → on_grid p w → pol_Max p < w)
  end.
Proof.
  intros Hp Hmin Hstep Hq. rewrite (calculateConsumedValue_roundUp _ _ p) by done. simpl.
  set (q := quantityValue qty (cap_Unit cap)) in *.
  pose proof (roundUp_on_grid p q) as [Hgrid Hge].
  destruct (_ && _) eqn:Hmax; go_bool.
  - split; [lia|]. intros w Hw Hg. pose proof (roundUp_least p q w Hw Hg). lia.
  - repeat split; [done|apply Hgrid|apply Hgrid|lia|]. intros w. apply roundUp_least.
Qed.

(** ** Bounds under which the arithmetic does not wrap

    A capacity value below [2^42] (in MiB: four exabytes) and requests below
    [2^62]; both are far above any real device. *)
Definition policy_ok (p : CapacityPolicy) : Prop :=
  0 ≤ pol_Default p ∧ 0 ≤ pol_Min p < 2 ^ 62 ∧ 0 ≤ pol_Step p < 2 ^ 62.

Definition capacity_ok (cap : CapacityValue) : Prop :=
  0 ≤ cap_Value cap < 2 ^ 42 ∧ ∀ p, cap_Policy cap = Some p → policy_ok p.

Definition requirements_ok (req : option (CapacityRequirements)) : Prop :=
  ∀ r name q, req = Some r → cr_Requests r !! name = Some q → 0 ≤ Value q < 2 ^ 62.

#[export] Instance policy_ok_dec p : Decision (policy_ok p).
Proof. unfold policy_ok. apply _. Defined.

Lemma policy_capacity_ok cap :
  (0 ≤ cap_Value cap < 2 ^ 42 ∧ default True (policy_ok <$> cap_Policy cap)) ↔ capacity_ok cap.
Proof.
  unfold capacity_ok. destruct (cap_Policy cap) as [p|]; simpl; split.
  - intros [Hv Hp]. split; [done|]. by intros p' [= <-].
  - intros [Hv Hp]. auto.
  - intros [Hv _]. split; [done|]. done.
  - intros [Hv _]. done.
Qed.

#[export] Instance capacity_ok_dec cap : Decision (capacity_ok cap).
Proof.
  assert (Hdec : Decision (0 ≤ cap_Value cap < 2 ^ 42 ∧
    default True (policy_ok <$> cap_Policy cap))).
  { apply and_dec; [apply _|]. destruct (cap_Policy cap); simpl; apply _. }
  destruct Hdec as [Hok|Hbad]; [left|right].
  - by apply policy_capacity_ok.
  - by rewrite <- policy_capacity_ok.
Defined.

#[export] Instance requirements_ok_dec req : Decision (requirements_ok req).
Proof.
  destruct req as [r|]; [|left; by intros ???].
  destruct (decide (map_Forall (λ _ q, 0 ≤ Value q < 2 ^ 62) (cr_Requests r)))
    as [Hok|Hbad]; [left|right].
  - intros r' name q [= <-]. apply Hok.
  - intros Hr. apply Hbad. intros name q Hq. by apply (Hr r name q).
Defined.

(** The amount a map of quantities holds under a name, read in a unit. *)
Definition amount (m : gmap string Q) (name unit : string) : Z :=
  match m !! name with Some q => quantityValue q unit | None => 0 end.

Lemma quantityValue_nonneg q unit : 0 ≤ Value q < 2 ^ 62 → 0 ≤ quantityValue q unit < 2 ^ 62.
Proof.
  unfold quantityValue. intros Hq. destruct (str_eqb _ _); [|done].
  rewrite Z.quot_div_nonneg by lia.
  split; [apply Z.div_pos; lia|]. apply Z.div_lt_upper_bound; lia.
Qed.

Lemma calculateConsumedValue_nonneg requested cap v :
  capacity_ok cap → (∀ q, requested = Some q → 0 ≤ Value q < 2 ^ 62) →
  calculateConsumedValue requested cap = Some v → 0 ≤ v.
Proof.
  intros [Hcap Hpol] Hq Hv. destruct requested as [q|].
  - specialize (Hq q eq_refl). pose proof (quantityValue_nonneg q (cap_Unit cap) Hq).
    destruct (cap_Policy cap) as [p|] eqn:Hp; [|by simpl in Hv; rewrite Hp in Hv; simplify_eq; lia].
    destruct (Hpol p eq_refl) as (? & ? & ?).
    rewrite (calculateConsumedValue_roundUp _ _ p) in Hv by done. simpl in Hv.
    pose proof (roundUp_on_grid p (quantityValue q (cap_Unit cap))) as [_ ?].
    destruct (_ && _); simplify_eq; lia.
  - simpl in Hv. destruct (cap_Policy cap) as [p|] eqn:Hp; simplify_eq; [by destruct (Hpol p eq_refl)|lia].
Qed.

(** Every capacity of the device is charged a non-negative amount within it. *)
Lemma computeConsumedCapacity_bound `{!QuantityLaws Q} req capacity add :
  map_Forall (λ _, capacity_ok) capacity → requirements_ok req →
  computeConsumedCapacity req capacity = Some add →
  ∀ name cap, capacity !! name = Some cap →
    0 ≤ amount add name (cap_Unit cap) ≤ cap_Value cap ∧ is_Some (add !! name).
Proof.
  intros Hok Hreq Hadd name cap Hname. unfold computeConsumedCapacity in Hadd.
  destruct (map_len0 capacity) eqn:Hempty; go_bool; [by subst|].
  destruct (negb _); [done|]. rewrite range_collect_Some in Hadd.
  specialize (Hadd name). rewrite Hname in Hadd. destruct Hadd as (q & Hq & Hadd).
  unfold amount. rewrite Hadd. unfold consumeOne in Hq.
  destruct (calculateConsumedValue _ cap) as [v|] eqn:Hv; simplify_eq/=.
  destruct (cap_Value cap <? v) eqn:Hle; go_bool; simplify_eq.
  pose proof (Hok name cap Hname) as Hcap.
  assert (0 ≤ v).
  { eapply calculateConsumedValue_nonneg; [done| |done].
    intros q Hq. unfold requestedFor in Hq. destruct req as [r|]; simplify_eq/=; eauto. }
  destruct Hcap as [? _]. rewrite quantity_roundtrip by lia. split; [lia|eauto].
Qed.

(** A charge that fits is added exactly, and stays within the capacity. *)
Lemma addConsumed_amount `{!QuantityLaws Q} existing add capacity name cap :
  capacity !! name = Some cap → capacity_ok cap →
  0 ≤ amount existing name (cap_Unit cap) < 2 ^ 62 →
  0 ≤ amount add name (cap_Unit cap) ≤ cap_Value cap →
  fitsCapacity existing add capacity = true →
  amount (addConsumed existing add capacity) name (cap_Unit cap)
    = amount existing name (cap_Unit cap) + amount add name (cap_Unit cap) ∧
  amount (addConsumed existing add capacity) name (cap_Unit cap) ≤ cap_Value cap.
Proof.
  intros Hname [Hcap _] Hex Hadd Hfit. rewrite fitsCapacity_true in Hfit.
  specialize (Hfit name cap Hname). simpl in Hfit.
  assert (capacityTotal existing add name (cap_Unit cap) =
    amount existing name (cap_Unit cap) + amount add name (cap_Unit cap)) as Htot.
  { unfold capacityTotal, amount in *.
    assert (quantityValue zeroQuantity (cap_Unit cap) = 0) as Hz.
    { unfold quantityValue. rewrite Value_zero. by destruct (str_eqb _ _). }
    destruct (add !! name), (existing !! name); simpl; rewrite ?Hz; [|lia| |lia];
      rewrite add64_id by int64_lia; lia. }
  assert (amount (addConsumed existing add capacity) name (cap_Unit cap) =
    capacityTotal existing add name (cap_Unit cap)) as ->; [|lia].
  unfold amount at 1. rewrite lookup_addConsumed, Hname. apply quantity_roundtrip. lia.
Qed.

Lemma addConsumed_other existing add capacity name unit :
  capacity !! name = None →
  amount (addConsumed existing add capacity) name unit = amount existing name unit.
Proof. intros Hn. unfold amount. by rewrite lookup_addConsumed, Hn. Qed.

End Capacity.
Arguments CapacityRequirements Q : clear implicits.
Arguments mkCapacityRequirements {Q}.

(** * Shared counters of partitionable GPUs: pkg/dra/services/allocator/counters.go

    A GPU publishes a counter set (memory, slices, ...) and every MIG or
    whole-GPU offer consumes from it.  The model keeps the maps of the code:
    set name to counter name to value. *)

Local Open Scope go_scope.

Abbreviation CounterUsage := (gmap string (gmap string CounterValue)).

Definition counterSetBlocked (consumes : list CounterConsumption) (blocked : gset string) : bool :=
  existsb (λ c, str_eqb (cc_CounterSet c) "" || bool_decide (cc_CounterSet c ∈ blocked)) consumes.

Definition blockCounterSets (blocked : gset string) (consumes : list CounterConsumption)
    : gset string :=
  foldl (λ b c, if str_eqb (cc_CounterSet c) "" then b else {[cc_CounterSet c]} ∪ b)
    blocked consumes.

(** The body of the loop of [fitsCounters]. *)
Definition fitsCounter (available current : gmap string CounterValue)
    (name : string) (addVal : CounterValue) : bool :=
  match available !! name with
  | None => false
  | Some avail =>
      if negb (str_eqb (ctr_Unit addVal) (ctr_Unit avail)) then false else
      match current !! name with
      | None => ctr_Value addVal <=? ctr_Value avail
      | Some currentVal =>
          if negb (str_eqb (ctr_Unit currentVal) (ctr_Unit avail)) then false
          else ctr_Value addVal +! ctr_Value currentVal <=? ctr_Value avail
      end
  end.

Definition fitsCounters (available current add : gmap string CounterValue) : bool :=
  if map_len0 add then true else
  if map_len0 available then false else
  range_all (fitsCounter available current) add.

Definition addCounters (current add available : gmap string CounterValue)
    : gmap string CounterValue :=
  if map_len0 add then current else
  range_update (λ name addVal currentVal,
    let unit := match available !! name with Some avail => ctr_Unit avail | None => "" end in
    let total := match currentVal with
      | Some v => ctr_Value addVal +! ctr_Value v
      | None => ctr_Value addVal
      end in
    mkCounterValue total unit) add current.

(** The first loop of [consumeCounters]: every consumption fits what is
    consumed so far. *)
Definition consumptionFits (consumed : CounterUsage) (available : gmap string CounterSet)
    (c : CounterConsumption) : bool :=
  if str_eqb (cc_CounterSet c) "" then false else
  match available !! cc_CounterSet c with
  | None => false
  | Some set =>
      fitsCounters (cs_Counters set) (default ∅ (consumed !! cc_CounterSet c)) (cc_Counters c)
  end.

(** One turn of the second loop. *)
Definition addConsumption (available : gmap string CounterSet) (consumed : CounterUsage)
    (c : CounterConsumption) : CounterUsage :=
  let set := match available !! cc_CounterSet c with Some s => cs_Counters s | None => ∅ end in
  <[cc_CounterSet c :=
     addCounters (default ∅ (consumed !! cc_CounterSet c)) (cc_Counters c) set]> consumed.

(** [None] is the [false] result, which leaves [consumed] as it was. *)
Definition consumeCounters (consumed : CounterUsage) (available : gmap string CounterSet)
    (consumes : list CounterConsumption) : option CounterUsage :=
  if list_len0 consumes then Some consumed else
  if negb (forallb (consumptionFits consumed available) consumes) then None else
  Some (foldl (addConsumption available) consumed consumes).

(** ** Accounting

    The value recorded under a set and a counter, and the demand of a list of
    consumptions for it. *)
Definition counterAt (m : gmap string CounterValue) (c : string) : Z :=
  match m !! c with Some v => ctr_Value v | None => 0 end.

Definition usageAt (u : CounterUsage) (s c : string) : Z :=
  counterAt (default ∅ (u !! s)) c.

Definition demand (consumes : list CounterConsumption) (s c : string) : Z :=
  Zsum (λ k, if decide (cc_CounterSet k = s) then counterAt (cc_Counters k) c else 0) consumes.

Definition availableAt (available : gmap string CounterSet) (s c : string) : Z :=
  match available !! s with Some set => counterAt (cs_Counters set) c | None => 0 end.

(** Counter values in the range where no sum wraps. *)
Definition counters_ok (m : gmap string CounterValue) : Prop :=
  map_Forall (λ _ v, 0 ≤ ctr_Value v < 2 ^ 62) m.

Definition consumes_ok (consumes : list CounterConsumption) : Prop :=
  NoDup (cc_CounterSet <$> consumes) ∧ Forall (λ k, counters_ok (cc_Counters k)) consumes.

Definition available_ok (available : gmap string CounterSet) : Prop :=
  map_Forall (λ _ set, counters_ok (cs_Counters set)) available.

(** The invariant of the usage map: what is recorded is non-negative, in the
    unit of the available counter, and within it. *)
Definition usage_ok (available : gmap string CounterSet) (u : CounterUsage) : Prop :=
  ∀ s c v, u !! s ≫= lookup c = Some v →
    0 ≤ ctr_Value v ∧
    ∃ set a, available !! s = Some set ∧ cs_Counters set !! c = Some a ∧
      ctr_Unit v = ctr_Unit a ∧ ctr_Value v ≤ ctr_Value a.

Lemma counterSetBlocked_false consumes blocked :
  counterSetBlocked consumes blocked = false ↔
    ∀ k, k ∈ consumes → cc_CounterSet k ≠ "" ∧ cc_CounterSet k ∉ blocked.
Proof.
  unfold counterSetBlocked. induction consumes as [|k l IH]; simpl.
  - split; [intros _ k Hk; by apply elem_of_nil in Hk|done].
  - rewrite orb_false_iff, orb_false_iff, IH, str_eqb_false, bool_decide_eq_false.
    setoid_rewrite elem_of_cons. naive_solver.
Qed.

Lemma elem_of_blockCounterSets blocked consumes s :
  s ∈ blockCounterSets blocked consumes ↔
    s ∈ blocked ∨ (s ≠ "" ∧ s ∈ cc_CounterSet <$> consumes).
Proof.
  unfold blockCounterSets. revert blocked.
  induction consumes as [|k l IH]; intros blocked; csimpl; [set_solver|].
  rewrite IH. destruct (str_eqb _ "") eqn:Hk; go_bool; set_solver.
Qed.

Lemma usage_ok_empty available : usage_ok available ∅.
Proof. intros s c v. by rewrite lookup_empty. Qed.

Lemma demand_nonneg consumes s c : consumes_ok consumes → 0 ≤ demand consumes s c.
Proof.
  intros [_ Hok]. apply Zsum_nonneg. intros k Hk. rewrite Forall_forall in Hok.
  specialize (Hok k Hk). case_decide; [|lia]. unfold counterAt.
  destruct (_ !! c) as [v|] eqn:Hv; [|lia]. by destruct (Hok c v Hv).
Qed.

Lemma demand_notin consumes s c : s ∉ cc_CounterSet <$> consumes → demand consumes s c = 0.
Proof.
  intros Hs. apply Zsum_zero. intros k Hk. case_decide as Heq; [|done].
  destruct Hs. apply list_elem_of_fmap. by exists k.
Qed.

(** A counter that fits is added exactly and stays within what is available. *)
Lemma addCounters_fits available current add c :
  counters_ok available → counters_ok add →
  (∀ v, current !! c = Some v → 0 ≤ ctr_Value v ∧ ∃ a, available !! c = Some a ∧
      ctr_Unit v = ctr_Unit a ∧ ctr_Value v ≤ ctr_Value a) →
  fitsCounters available current add = true →
  counterAt (addCounters current add available) c = counterAt current c + counterAt add c ∧
  (∀ v, addCounters current add available !! c = Some v →
     0 ≤ ctr_Value v ∧ ∃ a, available !! c = Some a ∧
      ctr_Unit v = ctr_Unit a ∧ ctr_Value v ≤ ctr_Value a).
Proof.
  intros Hav Hadd Hcur Hfit. unfold fitsCounters in Hfit. unfold addCounters, counterAt.
  destruct (map_len0 add) eqn:Hempty; go_bool.
  { subst. rewrite lookup_empty. split; [destruct (current !! c); lia|done]. }
  destruct (map_len0 available); [done|]. go_bool.
  rewrite lookup_range_update. destruct (add !! c) as [w|] eqn:Hw;
    [|split; [destruct (current !! c); lia|done]].
  specialize (Hfit c w Hw). simpl in Hfit. unfold fitsCounter in Hfit.
  pose proof (Hadd c w Hw) as Hwpos. simpl in Hwpos.
  destruct (available !! c) as [a|] eqn:Ha; [|done].
  pose proof (Hav c a Ha) as Hapos. simpl in Hapos.
  destruct (current !! c) as [v|] eqn:Hv.
  - destruct (Hcur v eq_refl) as (? & a' & ? & ? & ?). simplify_eq.
    destruct (negb _); [done|]. destruct (negb _); [done|]. go_bool.
    rewrite add64_id in * by int64_lia. simpl. split; [lia|]. intros ? [= <-]. simpl.
    split; [lia|]. eauto with lia.
  - destruct (negb _); [done|]. go_bool. simpl. split; [lia|].
    intros ? [= <-]. simpl. split; [lia|]. eauto.
Qed.

Lemma addConsumption_spec available u k :
  available_ok available → counters_ok (cc_Counters k) → usage_ok available u →
  consumptionFits u available k = true →
  usage_ok available (addConsumption available u k) ∧
  ∀ s c, usageAt (addConsumption available u k) s c =
    usageAt u s c + (if decide (cc_CounterSet k = s) then counterAt (cc_Counters k) c else 0).
Proof.
  intros Hav Hk Hu Hfit. unfold consumptionFits in Hfit. unfold addConsumption.
  destruct (str_eqb _ "") eqn:Hne; [done|].
  destruct (available !! cc_CounterSet k) as [set|] eqn:Hset; [|done].
  set (cur := default ∅ (u !! cc_CounterSet k)) in *.
  assert (∀ c v, cur !! c = Some v → 0 ≤ ctr_Value v ∧ ∃ a, cs_Counters set !! c = Some a ∧
      ctr_Unit v = ctr_Unit a ∧ ctr_Value v ≤ ctr_Value a) as Hcur.
  { intros c v Hv. unfold cur in Hv. destruct (u !! cc_CounterSet k) as [m|] eqn:Hm; simpl in Hv;
      [|by rewrite lookup_empty in Hv].
    destruct (Hu (cc_CounterSet k) c v) as (? & set' & a & ? & ?); [by rewrite Hm|].
    simplify_eq. eauto. }
  pose proof (λ c, addCounters_fits (cs_Counters set) cur (cc_Counters k) c
    (Hav _ _ Hset) Hk (Hcur c) Hfit) as Hadd.
  split.
  - intros s c v. destruct (decide (cc_CounterSet k = s)) as [<-|Hs].
    + rewrite lookup_insert_eq. simpl. intros Hv. destruct (Hadd c) as [_ Hc].
      destruct (Hc v Hv) as (? & a & ? & ?). eauto 10.
    + rewrite lookup_insert_ne by done. apply Hu.
  - intros s c. unfold usageAt. case_decide as Hs.
    + subst s. rewrite lookup_insert_eq. simpl. by destruct (Hadd c) as [-> _].
    + rewrite lookup_insert_ne by done. lia.
Qed.

Lemma consumptionFits_other available u k k' :
  cc_CounterSet k ≠ cc_CounterSet k' →
  consumptionFits (addConsumption available u k) available k' = consumptionFits u available k'.
Proof. intros Hne. unfold consumptionFits, addConsumption. by rewrite lookup_insert_ne. Qed.

Lemma foldl_addConsumption available consumes u :
  available_ok available → consumes_ok consumes → usage_ok available u →
  forallb (consumptionFits u available) consumes = true →
  usage_ok available (foldl (addConsumption available) u consumes) ∧
  ∀ s c, usageAt (foldl (addConsumption available) u consumes) s c =
    usageAt u s c + demand consumes s c.
Proof.
  intros Hav. revert u. induction consumes as [|k l IH]; intros u [Hnd Hok] Hu Hfit; csimpl.
  { split; [done|]. unfold demand; simpl; lia. }
  csimpl in *. apply andb_true_iff in Hfit as [Hk Hl]. inversion_clear Hnd as [|?? Hnotin Hnd'].
  apply Forall_cons in Hok as [Hok1 Hok2].
  destruct (addConsumption_spec available u k) as [Hu' Hat]; [done..|].
  destruct (IH (addConsumption available u k)) as [Hu'' Hat']; [done|done| |].
  { apply forallb_forall. intros k' Hk'. rewrite forallb_forall in Hl.
    rewrite consumptionFits_other; [by apply Hl|]. intros Heq. apply Hnotin.
    rewrite Heq. apply list_elem_of_fmap. exists k'. by rewrite list_elem_of_In. }
  split; [done|]. intros s c. rewrite Hat', Hat. unfold demand; simpl. lia.
Qed.

(** When the consumptions name distinct counter sets, a successful
    [consumeCounters] adds their demand exactly and keeps every counter within
    what is available. *)
Lemma consumeCounters_spec available consumed consumes consumed' :
  available_ok available → consumes_ok consumes → usage_ok available consumed →
  consumeCounters consumed available consumes = Some consumed' →
  usage_ok available consumed' ∧
  ∀ s c, usageAt consumed' s c = usageAt consumed s c + demand consumes s c.
Proof.
  intros Hav Hok Hu. unfold consumeCounters.
  destruct (list_len0 consumes) eqn:Hl; go_bool.
  { intros [= <-]. subst. split; [done|]. unfold demand; simpl; lia. }
  destruct (forallb _ _) eqn:Hfit; simpl; [|done]. intros [= <-].
  by apply foldl_addConsumption.
Qed.

Lemma usage_ok_at available u s c :
  available_ok available → usage_ok available u → 0 ≤ usageAt u s c ≤ availableAt available s c.
Proof.
  intros Hav Hu. unfold usageAt, availableAt, counterAt.
  destruct (u !! s) as [m|] eqn:Hm; simpl.
  - destruct (m !! c) as [v|] eqn:Hv.
    + destruct (Hu s c v) as (? & set & a & Hs & Ha & ? & ?); [by rewrite Hm|].
      rewrite Hs, Ha. lia.
    + destruct (available !! s) as [set|] eqn:Hs; [|lia].
      destruct (cs_Counters set !! c) as [a|] eqn:Ha; [|lia]. by destruct (Hav s set Hs c a Ha).
  - rewrite lookup_empty. destruct (available !! s) as [set|] eqn:Hs; [|lia].
    destruct (cs_Counters set !! c) as [a|] eqn:Ha; [|lia]. by destruct (Hav s set Hs c a Ha).
Qed.

(** The distinctness hypothesis is needed: two consumptions of one set are
    each compared with the usage before the call, so together they can take
    more than is available. *)
Definition twice_set : CounterSet :=
  mkCounterSet "pgpu-0" {["slices" := mkCounterValue 7 CounterUnitCount]}.
Definition twice_consumes : list CounterConsumption :=
  replicate 2 (mkCounterConsumption "pgpu-0" {["slices" := mkCounterValue 4 CounterUnitCount]}).

Lemma consumeCounters_twice :
  ∃ u, consumeCounters ∅ {["pgpu-0" := twice_set]} twice_consumes = Some u ∧
       usageAt u "pgpu-0" "slices" = 8 ∧
       availableAt {["pgpu-0" := twice_set]} "pgpu-0" "slices" = 7.
Proof. eexists. split; [reflexivity|]. split; vm_compute; reflexivity. Qed.

(** * Whole-GPU / MIG exclusion: pkg/dra/services/allocator/grouping*.go

    Devices of one physical GPU share a group key; a group that has a MIG
    partition in use refuses the whole GPU and the other way round. *)

(** ** grouping_types.go *)

Inductive deviceKind := deviceKindUnknown | deviceKindPhysical | deviceKindMIG.

#[export] Instance deviceKind_eq_dec : EqDecision deviceKind.
Proof. solve_decision. Defined.

Record deviceMeta := mkDeviceMeta { groupKey : string; kind : deviceKind }.

(** The zero value of the struct, read from a map at a missing key. *)
Definition zeroMeta : deviceMeta := mkDeviceMeta "" deviceKindUnknown.

Record groupState := mkGroupState { hasPhysical : bool; hasMIG : bool }.
Definition zeroGroup : groupState := mkGroupState false false.

(** ** grouping_meta.go *)

Definition attrStringPtr (attrs : gmap string AttributeValue) (key : string) : option string :=
  attr ← attrs !! key; attr_String attr.

Definition deviceGroupKey (spec : DeviceSpec) : string :=
  let fromAttrs :=
    match attrStringPtr (spec_Attributes spec) AttrPCIAddress with
    | None => ""
    | Some pci => CounterSetNameForPCI pci
    end in
  match spec_Consumes spec with
  | c :: _ => if str_eqb (cc_CounterSet c) "" then fromAttrs else cc_CounterSet c
  | [] => fromAttrs
  end.

Definition deviceKindFromSpec (spec : DeviceSpec) : deviceKind :=
  match attrStringPtr (spec_Attributes spec) AttrDeviceType with
  | None => deviceKindUnknown
  | Some s =>
      if str_eqb s DeviceTypeMIG then deviceKindMIG
      else if str_eqb s DeviceTypePhysical then deviceKindPhysical
      else deviceKindUnknown
  end.

Definition deviceMetaFromSpec (spec : DeviceSpec) : deviceMeta :=
  mkDeviceMeta (deviceGroupKey spec) (deviceKindFromSpec spec).

(** ** grouping_state.go *)

Definition ungrouped (meta : deviceMeta) : bool :=
  str_eqb (groupKey meta) "" || bool_decide (kind meta = deviceKindUnknown).

Definition conflictsWithGroup (meta : deviceMeta) (state : gmap string groupState) : bool :=
  if ungrouped meta then false else
  let st := default zeroGroup (state !! groupKey meta) in
  match kind meta with
  | deviceKindMIG => hasPhysical st
  | deviceKindPhysical => hasMIG st
  | deviceKindUnknown => false
  end.

Definition markGroupState (meta : deviceMeta) (state : gmap string groupState)
    : gmap string groupState :=
  if ungrouped meta then state else
  let st := default zeroGroup (state !! groupKey meta) in
  let st := match kind meta with
    | deviceKindMIG => mkGroupState (hasPhysical st) true
    | deviceKindPhysical => mkGroupState true (hasMIG st)
    | deviceKindUnknown => st
    end in
  <[groupKey meta := st]> state.

(** The loop of [buildGroupState] over the metas of the allocated devices,
    in the order [range allocated] yields them; the body is the one of
    [markGroupState]. *)
Definition markAll (metas : list deviceMeta) (state : gmap string groupState)
    : gmap string groupState :=
  foldl (λ st m, markGroupState m st) state metas.

(** ** Marks

    [marked state key k]: some device of kind [k] in group [key] is in use. *)
Definition marked (state : gmap string groupState) (key : string) (k : deviceKind) : Prop :=
  match k with
  | deviceKindPhysical => hasPhysical (default zeroGroup (state !! key)) = true
  | deviceKindMIG => hasMIG (default zeroGroup (state !! key)) = true
  | deviceKindUnknown => False
  end.

(** No group mixes the whole GPU with its partitions. *)
Definition exclusive_groups (state : gmap string groupState) : Prop :=
  ∀ key, ¬ (marked state key deviceKindPhysical ∧ marked state key deviceKindMIG).

Lemma marked_markGroupState meta state key k :
  marked (markGroupState meta state) key k ↔
    marked state key k ∨
    (ungrouped meta = false ∧ groupKey meta = key ∧ kind meta = k).
Proof.
  unfold markGroupState. destruct (ungrouped meta) eqn:Hu; [naive_solver|].
  unfold ungrouped in Hu. go_bool. destruct Hu as [_ Hk].
  destruct (decide (groupKey meta = key)) as [<-|Hne].
  - destruct (kind meta) eqn:Hkind; [done| |]; destruct k; simpl;
      rewrite ?lookup_insert_eq; simpl; naive_solver.
  - destruct (kind meta), k; simpl; rewrite ?lookup_insert_ne by done; naive_solver.
Qed.

Lemma markGroupState_exclusive meta state :
  conflictsWithGroup meta state = false → exclusive_groups state →
  exclusive_groups (markGroupState meta state).
Proof.
  intros Hc Hex key. rewrite !marked_markGroupState. unfold conflictsWithGroup in Hc.
  intros [[Hp|(Hu & Hk & Hkind)] [Hm|(Hu' & Hk' & Hkind')]].
  - by apply (Hex key).
  - rewrite Hu', Hkind' in Hc. subst. simpl in Hp. congruence.
  - rewrite Hu, Hkind in Hc. subst. simpl in Hm. congruence.
  - congruence.
Qed.

Lemma marked_markAll metas state key k :
  marked (markAll metas state) key k ↔
    marked state key k ∨
    ∃ m, m ∈ metas ∧ ungrouped m = false ∧ groupKey m = key ∧ kind m = k.
Proof.
  unfold markAll. revert state. induction metas as [|m ms IH]; intros state; simpl.
  - setoid_rewrite elem_of_nil. naive_solver.
  - rewrite IH, marked_markGroupState. setoid_rewrite elem_of_cons. naive_solver.
Qed.

(** The marks do not depend on the order in which the devices are visited. *)
Lemma markAll_perm metas metas' state key k :
  metas ≡ₚ metas' → marked (markAll metas state) key k ↔ marked (markAll metas' state) key k.
Proof. intros Hp. rewrite !marked_markAll. by setoid_rewrite Hp. Qed.

(** Marking a group with a device's own kind does not make it conflict. *)
Lemma conflictsWithGroup_mark meta state :
  conflictsWithGroup meta (markGroupState meta state) = conflictsWithGroup meta state.
Proof.
  unfold conflictsWithGroup, markGroupState. destruct (ungrouped meta); [done|].
  destruct (kind meta); by rewrite ?lookup_insert_eq.
Qed.
