(* ===== verification/Allocator.v ===== *)
(** * The allocator: pkg/dra/services/allocator

    Greedy allocation of a claim's requests on one node, first node in name
    order that can take the whole claim.  The mutable maps and the result
    slice of [allocateOnNode] are threaded as one record ([allocCfg]). *)

From S2P Require Import Prelude GoLib DeviceModel Accounting.

(** ** types.go *)

Record DeviceKey := mkDeviceKey { dk_Driver : string; dk_Pool : string; dk_Device : string }.

#[export] Instance DeviceKey_eq_dec : EqDecision DeviceKey.
Proof. solve_decision. Defined.

#[export] Instance DeviceKey_countable : Countable DeviceKey.
Proof.
  apply (inj_countable' (λ k, (dk_Driver k, dk_Pool k, dk_Device k))
           (λ '(a, b, c), mkDeviceKey a b c)). by intros [].
Defined.

(** A selector is code behind an interface (CEL in production): a function of
    the driver name and the device that may fail. *)
Abbreviation Selector := (string → DeviceSpec → res bool).

Record CandidateDevice := mkCandidate {
  cd_Key : DeviceKey;
  cd_Driver : string;
  cd_Pool : string;
  cd_NodeName : string;
  cd_Spec : DeviceSpec;
}.

Abbreviation CounterSetInventory := (gmap string (gmap string CounterSet)).

Section Allocator.
Context {Q : Type} `{Quantity Q} `{GoSort}.

Record Request := mkRequest {
  req_Name : string;
  req_Count : Z;
  req_Selectors : list Selector;
  req_Capacity : option (CapacityRequirements Q);
}.

Record AllocatedDeviceInfo := mkAllocatedDeviceInfo {
  adi_Exclusive : bool;
  adi_ConsumedCapacity : gmap string Q;
}.

Record Input := mkInput {
  in_Requests : list Request;
  in_Candidates : list CandidateDevice;
  in_Allocated : gmap DeviceKey AllocatedDeviceInfo;
  in_CounterSets : CounterSetInventory;
}.

(** ** The results: pkg/dra/domain/types.go *)

Record AllocatedDevice := mkAllocatedDevice {
  ad_Request : string;
  ad_Driver : string;
  ad_Pool : string;
  ad_Device : string;
  ad_ShareID : string;
  ad_ConsumedCapacity : gmap string Q;
  ad_BindingConditions : list string;
  ad_BindingFailureConditions : list string;
}.

Record AllocationResult := mkAllocationResult {
  ar_ClaimUID : string;
  ar_NodeName : string;
  ar_Devices : list AllocatedDevice;
  ar_NodeSelector : option string;
}.

(** ** selector_match.go, strings.go *)

Fixpoint matchesDevice (driver : string) (spec : DeviceSpec) (selectors : list Selector)
    : res bool :=
  match selectors with
  | [] => Ok true
  | sel :: rest =>
      match sel driver spec with
      | Err e => Err e
      | Ok false => Ok false
      | Ok true => matchesDevice driver spec rest
      end
  end.

(** A nil slice and an empty slice are both the empty list. *)
Definition cloneStrings (l : list string) : list string := l.

(** ** node_grouping.go, grouping.go *)

Definition addToNode (nodes : gmap string (list CandidateDevice)) (dev : CandidateDevice)
    : gmap string (list CandidateDevice) :=
  if str_eqb (cd_NodeName dev) "" then nodes
  else <[cd_NodeName dev := default [] (nodes !! cd_NodeName dev) ++ [dev]]> nodes.

Definition lessByName (a b : CandidateDevice) : bool :=
  str_ltb (spec_Name (cd_Spec a)) (spec_Name (cd_Spec b)).

Definition groupByNode (devices : list CandidateDevice) : gmap string (list CandidateDevice) :=
  sort_Slice lessByName <$> foldl addToNode ∅ devices.

Definition indexDevices (devices : list CandidateDevice) : gmap DeviceKey CandidateDevice :=
  foldl (λ index dev, <[cd_Key dev := dev]> index) ∅ devices.

Definition buildDeviceMeta (devices : list CandidateDevice) : gmap DeviceKey deviceMeta :=
  foldl (λ meta dev, <[cd_Key dev := deviceMetaFromSpec (cd_Spec dev)]> meta) ∅ devices.

(** ** grouping_state.go: the groups in use by the allocated devices *)

Definition buildGroupState (metaByKey : gmap DeviceKey deviceMeta)
    (allocated : gmap DeviceKey AllocatedDeviceInfo) : gmap string groupState :=
  markAll (omap (λ '(key, _), metaByKey !! key) (map_to_list allocated)) ∅.

(** ** allocation_state.go *)

Definition buildCapacityState (allocated : gmap DeviceKey AllocatedDeviceInfo)
    : gset DeviceKey * gmap DeviceKey (gmap string Q) :=
  (dom (filter (λ '(_, info), adi_Exclusive info = true) allocated),
   omap (λ info, if map_len0 (adi_ConsumedCapacity info) then None
                 else Some (cloneQuantities (adi_ConsumedCapacity info))) allocated).

(** One turn of the loop of [buildCounterState]. *)
Definition counterStateStep (deviceIndex : gmap DeviceKey CandidateDevice)
    (counterSets : gmap string CounterSet) (acc : CounterUsage * gset string)
    (key : DeviceKey) : CounterUsage * gset string :=
  let '(consumed, blocked) := acc in
  match deviceIndex !! key with
  | None => acc
  | Some device =>
      let consumes := spec_Consumes (cd_Spec device) in
      if list_len0 consumes then acc else
      if map_len0 counterSets then (consumed, blockCounterSets blocked consumes) else
      match consumeCounters consumed counterSets consumes with
      | Some consumed' => (consumed', blocked)
      | None => (consumed, blockCounterSets blocked consumes)
      end
  end.

(** [order] is the order in which [range allocated] visits the keys. *)
Definition buildCounterState (order : list DeviceKey)
    (deviceIndex : gmap DeviceKey CandidateDevice) (counterSets : gmap string CounterSet)
    : CounterUsage * gset string :=
  foldl (counterStateStep deviceIndex counterSets) (∅, ∅) order.

(** ** node_allocation_helpers.go *)

Record nodeAllocationState := mkNodeState {
  ns_allocated : gmap DeviceKey AllocatedDeviceInfo;
  ns_counterSets : gmap string CounterSet;
  ns_consumedTotals : gmap DeviceKey (gmap string Q);
  ns_consumedCounters : CounterUsage;
  ns_usedExclusive : gset DeviceKey;
}.

(** The receiver [s], the map [groupState] and the slice [*results]. *)
Record allocCfg := mkCfg {
  cfg_state : nodeAllocationState;
  cfg_groups : gmap string groupState;
  cfg_results : list AllocatedDevice;
}.

(** The counters part common to both kinds of device: nothing to do without
    consumptions, a refusal without counter sets. *)
Definition tryConsume (s : nodeAllocationState) (consumes : list CounterConsumption)
    : option CounterUsage :=
  if list_len0 consumes then Some (ns_consumedCounters s) else
  if map_len0 (ns_counterSets s) then None else
  consumeCounters (ns_consumedCounters s) (ns_counterSets s) consumes.

Definition resultFor (req : Request) (dev : CandidateDevice) (consumed : gmap string Q)
    : AllocatedDevice := {|
  ad_Request := req_Name req;
  ad_Driver := cd_Driver dev;
  ad_Pool := cd_Pool dev;
  ad_Device := spec_Name (cd_Spec dev);
  ad_ShareID := "";
  ad_ConsumedCapacity := consumed;
  ad_BindingConditions := cloneStrings (spec_BindingConditions (cd_Spec dev));
  ad_BindingFailureConditions := cloneStrings (spec_BindingFailureConditions (cd_Spec dev));
|}.

(** One turn of the loop of [allocateShared]; [None] is a [break]. *)
Definition shareOnce (req : Request) (dev : CandidateDevice) (meta : deviceMeta)
    (cfg : allocCfg) : option allocCfg :=
  let s := cfg_state cfg in
  let capacity := spec_Capacity (cd_Spec dev) in
  let totals := default ∅ (ns_consumedTotals s !! cd_Key dev) in
  consumed ← computeConsumedCapacity (req_Capacity req) capacity;
  if negb (fitsCapacity totals consumed capacity) then None else
  counters ← tryConsume s (spec_Consumes (cd_Spec dev));
  Some {|
    cfg_state := {|
      ns_allocated := ns_allocated s;
      ns_counterSets := ns_counterSets s;
      ns_consumedTotals :=
        <[cd_Key dev := addConsumed totals consumed capacity]> (ns_consumedTotals s);
      ns_consumedCounters := counters;
      ns_usedExclusive := ns_usedExclusive s |};
    cfg_groups := markGroupState meta (cfg_groups cfg);
    cfg_results := cfg_results cfg ++ [resultFor req dev consumed] |}.

(** [for allocatedCount < remaining]: at most [remaining] turns. *)
Fixpoint shareLoop (turns : nat) (req : Request) (dev : CandidateDevice) (meta : deviceMeta)
    (cfg : allocCfg) : Z * allocCfg :=
  match turns with
  | O => (0, cfg)
  | S turns' =>
      match shareOnce req dev meta cfg with
      | None => (0, cfg)
      | Some cfg' =>
          let '(n, cfg'') := shareLoop turns' req dev meta cfg' in (1 + n, cfg'')
      end
  end.

Definition allocateShared (req : Request) (dev : CandidateDevice) (meta : deviceMeta)
    (remaining : Z) (cfg : allocCfg) : Z * allocCfg :=
  if remaining <=? 0 then (0, cfg) else
  match ns_allocated (cfg_state cfg) !! cd_Key dev with
  | Some info => if adi_Exclusive info then (0, cfg)
                 else shareLoop (Z.to_nat remaining) req dev meta cfg
  | None => shareLoop (Z.to_nat remaining) req dev meta cfg
  end.

(** [None] is the [false] result, which changes nothing. *)
Definition allocateExclusive (req : Request) (dev : CandidateDevice) (meta : deviceMeta)
    (cfg : allocCfg) : option allocCfg :=
  let s := cfg_state cfg in
  if bool_decide (cd_Key dev ∈ ns_usedExclusive s) then None else
  if bool_decide (is_Some (ns_allocated s !! cd_Key dev)) then None else
  let capacityOk := match req_Capacity req with
    | None => true
    | Some _ => bool_decide (is_Some
        (computeConsumedCapacity (req_Capacity req) (spec_Capacity (cd_Spec dev))))
    end in
  if negb capacityOk then None else
  counters ← tryConsume s (spec_Consumes (cd_Spec dev));
  Some {|
    cfg_state := {|
      ns_allocated := ns_allocated s;
      ns_counterSets := ns_counterSets s;
      ns_consumedTotals := ns_consumedTotals s;
      ns_consumedCounters := counters;
      ns_usedExclusive := {[cd_Key dev]} ∪ ns_usedExclusive s |};
    cfg_groups := markGroupState meta (cfg_groups cfg);
    cfg_results := cfg_results cfg ++ [resultFor req dev ∅] |}.

(** ** node_allocation.go *)

(** The two branches of the loop body that allocate. *)
Definition allocateDevice (req : Request) (dev : CandidateDevice) (meta : deviceMeta)
    (allocatedCount : Z) (cfg : allocCfg) : Z * allocCfg :=
  if spec_AllowMultipleAllocations (cd_Spec dev) then
    let '(n, cfg') := allocateShared req dev meta (req_Count req - allocatedCount) cfg in
    (allocatedCount + n, cfg')
  else
    match allocateExclusive req dev meta cfg with
    | Some cfg' => (allocatedCount + 1, cfg')
    | None => (allocatedCount, cfg)
    end.

(** [for _, dev := range devices] of one request. *)
Fixpoint deviceLoop (metaByKey : gmap DeviceKey deviceMeta) (blocked : gset string)
    (req : Request) (devices : list CandidateDevice) (allocatedCount : Z) (cfg : allocCfg)
    : res (Z * allocCfg) :=
  match devices with
  | [] => Ok (allocatedCount, cfg)
  | dev :: rest =>
      let meta := default zeroMeta (metaByKey !! cd_Key dev) in
      if counterSetBlocked (spec_Consumes (cd_Spec dev)) blocked then
        deviceLoop metaByKey blocked req rest allocatedCount cfg
      else if conflictsWithGroup meta (cfg_groups cfg) then
        deviceLoop metaByKey blocked req rest allocatedCount cfg
      else
        match matchesDevice (cd_Driver dev) (cd_Spec dev) (req_Selectors req) with
        | Err e => Err e
        | Ok false => deviceLoop metaByKey blocked req rest allocatedCount cfg
        | Ok true =>
            let '(count', cfg') := allocateDevice req dev meta allocatedCount cfg in
            if req_Count req <=? count' then Ok (count', cfg')
            else deviceLoop metaByKey blocked req rest count' cfg'
        end
  end.

(** [for _, req := range requests]; [Ok None] is [return nil, false, nil]. *)
Fixpoint requestLoop (metaByKey : gmap DeviceKey deviceMeta) (blocked : gset string)
    (devices : list CandidateDevice) (requests : list Request) (cfg : allocCfg)
    : res (option allocCfg) :=
  match requests with
  | [] => Ok (Some cfg)
  | req :: rest =>
      match deviceLoop metaByKey blocked req devices 0 cfg with
      | Err e => Err e
      | Ok (count, cfg') =>
          if count <? req_Count req then Ok None
          else requestLoop metaByKey blocked devices rest cfg'
      end
  end.

Definition initialCfg (devices : list CandidateDevice)
    (allocated : gmap DeviceKey AllocatedDeviceInfo) (counterSets : gmap string CounterSet)
    (consumedCounters : CounterUsage) : allocCfg :=
  let '(usedExclusive, consumedTotals) := buildCapacityState allocated in
  {| cfg_state := mkNodeState allocated counterSets consumedTotals consumedCounters usedExclusive;
     cfg_groups := buildGroupState (buildDeviceMeta devices) allocated;
     cfg_results := [] |}.

Definition allocateOnNode (order : list DeviceKey) (nodeName : string)
    (devices : list CandidateDevice) (requests : list Request)
    (allocated : gmap DeviceKey AllocatedDeviceInfo) (counterSets : gmap string CounterSet)
    : res (option AllocationResult) :=
  if list_len0 devices then Ok None else
  let '(consumedCounters, blocked) :=
    buildCounterState order (indexDevices devices) counterSets in
  match requestLoop (buildDeviceMeta devices) blocked devices requests
          (initialCfg devices allocated counterSets consumedCounters) with
  | Err e => Err e
  | Ok None => Ok None
  | Ok (Some cfg) =>
      Ok (Some (mkAllocationResult "" nodeName (cfg_results cfg) (Some nodeName)))
  end.

(** ** service.go *)

Fixpoint tryNodes (order : string → list DeviceKey) (input : Input)
    (nodes : gmap string (list CandidateDevice)) (names : list string)
    : res (option AllocationResult) :=
  match names with
  | [] => Ok None
  | nodeName :: rest =>
      match allocateOnNode (order nodeName) nodeName (default [] (nodes !! nodeName))
              (in_Requests input) (in_Allocated input)
              (default ∅ (in_CounterSets input !! nodeName)) with
      | Err e => Err e
      | Ok (Some alloc) => Ok (Some alloc)
      | Ok None => tryNodes order input nodes rest
      end
  end.

Definition Allocate (order : string → list DeviceKey) (input : Input)
    : res (option AllocationResult) :=
  if list_len0 (in_Requests input) then Ok None else
  if list_len0 (in_Candidates input) then Ok None else
  let nodes := groupByNode (in_Candidates input) in
  if map_len0 nodes then Ok None else
  tryNodes order input nodes (sort_Strings (map_to_list nodes).*1).

End Allocator.
Arguments Request Q : clear implicits.
Arguments AllocatedDeviceInfo Q : clear implicits.
Arguments Input Q : clear implicits.
Arguments AllocatedDevice Q : clear implicits.
Arguments AllocationResult Q : clear implicits.
Arguments allocCfg Q : clear implicits.
Arguments nodeAllocationState Q : clear implicits.
