(* ===== verification/AllocatorSpec.v ===== *)
(** * What the allocator promises

    The abstract specification [valid_allocation] of a successful allocation
    on a node, and the refinement theorem that [allocateOnNode] and [Allocate]
    implement it.  The proof goes through a small-step relation: the nested
    loops perform a sequence of picks, and each conjunct of the specification
    is an invariant of the steps. *)

From S2P Require Import Prelude GoLib DeviceModel Accounting Allocator.

Section Spec.
Context {Q : Type} `{Quantity Q, !QuantityLaws Q} `{GoSort}.

(** A device given to a request, with the capacity it is charged. *)
Record pick := mkPick {
  pk_req : Request Q;
  pk_dev : CandidateDevice;
  pk_consumed : gmap string Q;
}.

Definition renderPick (p : pick) : AllocatedDevice Q :=
  resultFor (pk_req p) (pk_dev p) (pk_consumed p).

Definition pk_key (p : pick) : DeviceKey := cd_Key (pk_dev p).
Definition pk_spec (p : pick) : DeviceSpec := cd_Spec (pk_dev p).
Definition pk_shared (p : pick) : bool := spec_AllowMultipleAllocations (pk_spec p).
Definition pk_meta (p : pick) : deviceMeta := deviceMetaFromSpec (pk_spec p).

(** The amount a pick charges to a capacity of its device. *)
Definition pk_charge (name unit : string) (p : pick) : Z := amount (pk_consumed p) name unit.

(** Same physical GPU, but one takes it whole and the other a partition. *)
Definition incompatible (m1 m2 : deviceMeta) : Prop :=
  ungrouped m1 = false ∧ ungrouped m2 = false ∧
  groupKey m1 = groupKey m2 ∧ kind m1 ≠ kind m2.

#[export] Instance incompatible_dec m1 m2 : Decision (incompatible m1 m2).
Proof. unfold incompatible. apply _. Defined.

(** What is already taken from the counters by the allocated devices. *)
Definition allocatedDemand (devices : list CandidateDevice) (keys : list DeviceKey)
    (s c : string) : Z :=
  Zsum (λ key, match indexDevices devices !! key with
               | Some d => demand (spec_Consumes (cd_Spec d)) s c
               | None => 0 end) keys.

Record valid_allocation (devices : list CandidateDevice) (requests : list (Request Q))
    (allocated : gmap DeviceKey (AllocatedDeviceInfo Q)) (counterSets : gmap string CounterSet)
    (picks : list pick) : Prop := {
  (** every request gets exactly [Count] devices, in order; *)
  va_counts : ∃ segs, picks = concat segs ∧
    Forall2 (λ req seg, Z.of_nat (length seg) = req_Count req ∧
                        Forall (λ p, pk_req p = req) seg) requests segs;
  (** each is a device of the node that satisfies the selectors; *)
  va_match p : p ∈ picks → pk_dev p ∈ devices ∧
    matchesDevice (cd_Driver (pk_dev p)) (pk_spec p) (req_Selectors (pk_req p)) = Ok true;
  (** an exclusive device is free, and handed out once; *)
  va_exclusive_free p : p ∈ picks → pk_shared p = false → allocated !! pk_key p = None;
  va_exclusive_once :
    NoDup (pk_key <$> filter (λ p, pk_shared p = false) picks);
  va_exclusive_charge p : p ∈ picks → pk_shared p = false → pk_consumed p = ∅;
  (** a shared device is not held exclusively, each pick is charged what the
      request and the policies of the device give, and the capacity suffices
      for what is consumed already and all the picks; *)
  va_shared p info : p ∈ picks → pk_shared p = true →
    allocated !! pk_key p = Some info → adi_Exclusive info = false;
  va_charge p : p ∈ picks → pk_shared p = true →
    computeConsumedCapacity (req_Capacity (pk_req p)) (spec_Capacity (pk_spec p))
      = Some (pk_consumed p);
  va_capacity p name cap : p ∈ picks → pk_shared p = true →
    spec_Capacity (pk_spec p) !! name = Some cap →
    amount (from_option adi_ConsumedCapacity ∅ (allocated !! pk_key p)) name (cap_Unit cap) +
    Zsum (pk_charge name (cap_Unit cap)) (filter (λ q, pk_shared q = true ∧ pk_key q = pk_key p) picks)
      ≤ cap_Value cap;
  (** no counter is overdrawn; *)
  va_counters p k c : p ∈ picks → k ∈ spec_Consumes (pk_spec p) →
    allocatedDemand devices (map_to_list allocated).*1 (cc_CounterSet k) c +
    Zsum (λ q, demand (spec_Consumes (pk_spec q)) (cc_CounterSet k) c) picks
      ≤ availableAt counterSets (cc_CounterSet k) c;
  (** no GPU is used both whole and partitioned. *)
  va_groups p q : p ∈ picks → q ∈ picks → ¬ incompatible (pk_meta p) (pk_meta q);
  va_groups_allocated p d : p ∈ picks → d ∈ devices → is_Some (allocated !! cd_Key d) →
    ¬ incompatible (pk_meta p) (deviceMetaFromSpec (cd_Spec d));
}.

(** ** The steps of the loops *)
Section Steps.
Context (metaByKey : gmap DeviceKey deviceMeta) (blocked : gset string).
Context (devices : list CandidateDevice) (requests : list (Request Q)).

Definition metaOf (dev : CandidateDevice) : deviceMeta :=
  default zeroMeta (metaByKey !! cd_Key dev).

(** The guards both kinds of pick have passed. *)
Definition eligible (cfg : allocCfg Q) (p : pick) : Prop :=
  pk_dev p ∈ devices ∧ pk_req p ∈ requests ∧
  counterSetBlocked (spec_Consumes (pk_spec p)) blocked = false ∧
  conflictsWithGroup (metaOf (pk_dev p)) (cfg_groups cfg) = false ∧
  matchesDevice (cd_Driver (pk_dev p)) (pk_spec p) (req_Selectors (pk_req p)) = Ok true.

Inductive pick_step (cfg : allocCfg Q) (p : pick) (cfg' : allocCfg Q) : Prop :=
| step_shared :
    eligible cfg p → pk_shared p = true →
    (∀ info, ns_allocated (cfg_state cfg) !! pk_key p = Some info → adi_Exclusive info = false) →
    computeConsumedCapacity (req_Capacity (pk_req p)) (spec_Capacity (pk_spec p))
      = Some (pk_consumed p) →
    shareOnce (pk_req p) (pk_dev p) (metaOf (pk_dev p)) cfg = Some cfg' →
    pick_step cfg p cfg'
| step_exclusive :
    eligible cfg p → pk_shared p = false → pk_consumed p = ∅ →
    allocateExclusive (pk_req p) (pk_dev p) (metaOf (pk_dev p)) cfg = Some cfg' →
    pick_step cfg p cfg'.

Inductive steps : allocCfg Q → list pick → allocCfg Q → Prop :=
| steps_nil cfg : steps cfg [] cfg
| steps_cons cfg p cfg1 ps cfg2 :
    pick_step cfg p cfg1 → steps cfg1 ps cfg2 → steps cfg (p :: ps) cfg2.

Lemma steps_app cfg ps cfg1 qs cfg2 :
  steps cfg ps cfg1 → steps cfg1 qs cfg2 → steps cfg (ps ++ qs) cfg2.
Proof. induction 1; simpl; eauto using steps. Qed.

(** *** The effect of one step *)
Lemma tryConsume_Some (s : nodeAllocationState Q) consumes u :
  tryConsume s consumes = Some u →
  consumeCounters (ns_consumedCounters s) (ns_counterSets s) consumes = Some u.
Proof.
  unfold tryConsume, consumeCounters. destruct (list_len0 consumes); [done|].
  by destruct (map_len0 _).
Qed.

Record step_effect (cfg : allocCfg Q) (p : pick) (cfg' : allocCfg Q) : Prop := {
  se_allocated : ns_allocated (cfg_state cfg') = ns_allocated (cfg_state cfg);
  se_counterSets : ns_counterSets (cfg_state cfg') = ns_counterSets (cfg_state cfg);
  se_counters : consumeCounters (ns_consumedCounters (cfg_state cfg))
      (ns_counterSets (cfg_state cfg)) (spec_Consumes (pk_spec p))
    = Some (ns_consumedCounters (cfg_state cfg'));
  se_groups : cfg_groups cfg' = markGroupState (metaOf (pk_dev p)) (cfg_groups cfg);
  se_results : cfg_results cfg' = cfg_results cfg ++ [renderPick p];
  se_exclusive : ns_usedExclusive (cfg_state cfg') =
    (if pk_shared p then ns_usedExclusive (cfg_state cfg)
     else {[pk_key p]} ∪ ns_usedExclusive (cfg_state cfg));
  se_fresh : pk_shared p = false →
    (pk_key p ∉ ns_usedExclusive (cfg_state cfg)) ∧
    ns_allocated (cfg_state cfg) !! pk_key p = None;
  se_totals : ns_consumedTotals (cfg_state cfg') =
    (if pk_shared p then
      <[pk_key p := addConsumed (default ∅ (ns_consumedTotals (cfg_state cfg) !! pk_key p))
                      (pk_consumed p) (spec_Capacity (pk_spec p))]>
        (ns_consumedTotals (cfg_state cfg))
    else ns_consumedTotals (cfg_state cfg));
  se_fits : pk_shared p = true →
    fitsCapacity (default ∅ (ns_consumedTotals (cfg_state cfg) !! pk_key p))
      (pk_consumed p) (spec_Capacity (pk_spec p)) = true;
}.

Lemma pick_step_effect cfg p cfg' : pick_step cfg p cfg' → step_effect cfg p cfg'.
Proof.
  intros [_ Hsh _ Hcc Hs|_ Hsh Hcc Hs].
  - unfold shareOnce in Hs. unfold pk_spec, pk_key in *. rewrite Hcc in Hs. simpl in Hs.
    destruct (fitsCapacity _ _ _) eqn:Hfit; [|done]. simpl in Hs.
    destruct (tryConsume _ _) as [u|] eqn:Hu; simplify_eq/=.
    constructor; simpl; unfold pk_key, pk_spec; rewrite ?Hsh; try done; [].
    by apply tryConsume_Some.
  - unfold allocateExclusive in Hs. case_bool_decide as Hused; [done|].
    case_bool_decide as Hall; [done|]. destruct (negb _); [done|].
    destruct (tryConsume _ _) as [u|] eqn:Hu; simplify_eq/=.
    apply eq_None_not_Some in Hall.
    constructor; simpl; unfold pk_key, renderPick; rewrite ?Hsh, ?Hcc; try done; [].
    by apply tryConsume_Some.
Qed.

(** *** The loops perform steps *)

(** [ran cfg req count n cfg']: from [count] devices to [n], all for [req]. *)
Definition ran (cfg : allocCfg Q) (req : Request Q) (count n : Z) (cfg' : allocCfg Q) : Prop :=
  ∃ ps, steps cfg ps cfg' ∧ count + Z.of_nat (length ps) = n ∧ Forall (λ p, pk_req p = req) ps.

Lemma ran_refl cfg req count : ran cfg req count count cfg.
Proof. exists []. simpl. split; [constructor|]. split; [lia|constructor]. Qed.

Lemma ran_cons cfg p cfg1 count n cfg' :
  pick_step cfg p cfg1 → ran cfg1 (pk_req p) (count + 1) n cfg' → ran cfg (pk_req p) count n cfg'.
Proof.
  intros Hp (ps & Hps & Hlen & Hreq). exists (p :: ps). simpl.
  split; [by econstructor|]. split; [lia|by constructor].
Qed.

Lemma ran_trans cfg req count n cfg1 n' cfg' :
  ran cfg req count n cfg1 → ran cfg1 req n n' cfg' → ran cfg req count n' cfg'.
Proof.
  intros (ps & Hps & ? & ?) (qs & Hqs & ? & ?). exists (ps ++ qs).
  rewrite length_app, Forall_app. eauto using steps_app with lia.
Qed.

Lemma shareLoop_ran turns req dev count cfg n cfg' :
  eligible cfg (mkPick req dev ∅) → spec_AllowMultipleAllocations (cd_Spec dev) = true →
  (∀ info, ns_allocated (cfg_state cfg) !! cd_Key dev = Some info → adi_Exclusive info = false) →
  shareLoop turns req dev (metaOf dev) cfg = (n, cfg') →
  ran cfg req count (count + n) cfg' ∧ n ≤ Z.of_nat turns.
Proof.
  revert cfg count n cfg'.
  induction turns as [|turns IH]; intros cfg count n cfg' Hel Hsh Hex Hloop; simpl in Hloop.
  { simplify_eq. rewrite Z.add_0_r. split; [apply ran_refl|lia]. }
  destruct (shareOnce _ _ _ _) as [cfg1|] eqn:Hs;
    [|simplify_eq; rewrite Z.add_0_r; split; [apply ran_refl|lia]].
  destruct (shareLoop _ _ _ _ cfg1) as [m cfg2] eqn:Hm. simplify_eq.
  destruct (computeConsumedCapacity (req_Capacity req) (spec_Capacity (cd_Spec dev)))
    as [add|] eqn:Hcc; [|unfold shareOnce in Hs; by rewrite Hcc in Hs].
  assert (pick_step cfg (mkPick req dev add) cfg1) as Hstep by (by constructor 1).
  destruct (pick_step_effect _ _ _ Hstep) as [Hal _ _ Hgr _ _ _ _ _].
  destruct (IH cfg1 (count + 1) m cfg') as [Hran ?]; [|done| |done|].
  - destruct Hel as (? & ? & ? & ? & ?). repeat split; simpl; try done.
    by rewrite Hgr, conflictsWithGroup_mark.
  - intros info. rewrite Hal. apply Hex.
  - split; [|lia]. apply (ran_cons _ _ _ _ _ _ Hstep).
    by replace (count + (1 + m)) with (count + 1 + m) by lia.
Qed.

Lemma allocateDevice_ran req dev count cfg n cfg' :
  eligible cfg (mkPick req dev ∅) → count < req_Count req →
  allocateDevice req dev (metaOf dev) count cfg = (n, cfg') →
  ran cfg req count n cfg' ∧ n ≤ req_Count req.
Proof.
  intros Hel Hlt Hall. unfold allocateDevice in Hall.
  destruct (spec_AllowMultipleAllocations (cd_Spec dev)) eqn:Hsh.
  - destruct (allocateShared _ _ _ _ _) as [m cfg1] eqn:Hm. simplify_eq.
    unfold allocateShared in Hm. destruct (Z.leb_spec (req_Count req - count) 0); [lia|].
    destruct (ns_allocated _ !! _) as [info|] eqn:Hinfo; [destruct (adi_Exclusive info) eqn:Hexc|].
    + simplify_eq. rewrite Z.add_0_r. split; [apply ran_refl|lia].
    + apply (shareLoop_ran _ _ _ count) in Hm; [|done|done|naive_solver].
      destruct Hm. split; [done|lia].
    + apply (shareLoop_ran _ _ _ count) in Hm; [|done|done|naive_solver].
      destruct Hm. split; [done|lia].
  - destruct (allocateExclusive _ _ _ _) as [cfg1|] eqn:Hm; simplify_eq.
    + split; [|lia]. apply (ran_cons cfg (mkPick req dev ∅) cfg'); [by constructor 2|apply ran_refl].
    + split; [apply ran_refl|lia].
Qed.

Lemma deviceLoop_ran req ds count cfg n cfg' :
  (∀ d, d ∈ ds → d ∈ devices) → req ∈ requests → count < req_Count req →
  deviceLoop metaByKey blocked req ds count cfg = Ok (n, cfg') →
  ran cfg req count n cfg' ∧ n ≤ req_Count req.
Proof.
  revert count cfg. induction ds as [|d ds IH]; intros count cfg Hds Hin Hlt Hloop; simpl in Hloop.
  { simplify_eq. split; [apply ran_refl|lia]. }
  assert (∀ d', d' ∈ ds → d' ∈ devices) as Hds' by (intros; apply Hds; by right).
  destruct (counterSetBlocked _ _) eqn:Hb; [by apply IH|].
  destruct (conflictsWithGroup _ _) eqn:Hc; [by apply IH|].
  destruct (matchesDevice _ _ _) as [[]|] eqn:Hmatch; [|by apply IH|done].
  destruct (allocateDevice _ _ _ _ _) as [m cfg1] eqn:Hd.
  apply allocateDevice_ran in Hd as [Hran Hle]; [|by repeat split; [apply Hds; left|..]|done].
  destruct (Z.leb_spec (req_Count req) m).
  - by simplify_eq.
  - apply IH in Hloop as [??]; [|done..]. split; [by eapply ran_trans|done].
Qed.

Lemma requestLoop_steps reqs cfg cfg' :
  (∀ req, req ∈ reqs → req ∈ requests) → Forall (λ req, 1 ≤ req_Count req) reqs →
  requestLoop metaByKey blocked devices reqs cfg = Ok (Some cfg') →
  ∃ segs, steps cfg (concat segs) cfg' ∧
    Forall2 (λ req seg, Z.of_nat (length seg) = req_Count req ∧
                        Forall (λ p, pk_req p = req) seg) reqs segs.
Proof.
  revert cfg. induction reqs as [|req rest IH]; intros cfg Hin Hcounts Hloop; simpl in Hloop.
  { simplify_eq. exists []. split; constructor. }
  apply Forall_cons in Hcounts as [Hcount Hcounts].
  destruct (deviceLoop _ _ _ _ _ _) as [[n cfg1]|] eqn:Hd; [|done].
  apply deviceLoop_ran in Hd as [(ps & Hps & Hlen & Hreq) Hle]; [|done|apply Hin; left|lia].
  destruct (Z.ltb_spec n (req_Count req)); [done|].
  destruct (IH cfg1 (λ r Hr, Hin r (list_elem_of_further _ _ _ Hr)) Hcounts Hloop) as (segs & Hsegs & Hall).
  exists (ps :: segs). simpl. split; [by eapply steps_app|]. constructor; [|done].
  split; [lia|done].
Qed.

(** *** Invariants of the steps *)
Lemma steps_invariant (I : list pick → allocCfg Q → Prop) :
  (∀ prev p cfg cfg', I prev cfg → pick_step cfg p cfg' → I (prev ++ [p]) cfg') →
  ∀ prev cfg ps cfg', steps cfg ps cfg' → I prev cfg → I (prev ++ ps) cfg'.
Proof.
  intros Hstep prev cfg ps cfg' Hps. revert prev.
  induction Hps as [cfg|cfg p cfg1 ps cfg2 Hp _ IH]; intros prev HI; [by rewrite app_nil_r|].
  rewrite cons_middle, app_assoc. apply IH. by eapply Hstep.
Qed.

Lemma pick_step_eligible cfg p cfg' : pick_step cfg p cfg' → eligible cfg p.
Proof. by intros []. Qed.

(** Bookkeeping: the constant parts of the state, the results, the guards. *)
Record inv_picks (cfg0 : allocCfg Q) (prev : list pick) (cfg : allocCfg Q) : Prop := {
  ip_allocated : ns_allocated (cfg_state cfg) = ns_allocated (cfg_state cfg0);
  ip_counterSets : ns_counterSets (cfg_state cfg) = ns_counterSets (cfg_state cfg0);
  ip_results : cfg_results cfg = cfg_results cfg0 ++ (renderPick <$> prev);
  ip_device p : p ∈ prev → pk_dev p ∈ devices;
  ip_request p : p ∈ prev → pk_req p ∈ requests;
  ip_unblocked p : p ∈ prev → counterSetBlocked (spec_Consumes (pk_spec p)) blocked = false;
  ip_match p : p ∈ prev →
    matchesDevice (cd_Driver (pk_dev p)) (pk_spec p) (req_Selectors (pk_req p)) = Ok true;
  ip_free p : p ∈ prev → pk_shared p = false →
    ns_allocated (cfg_state cfg0) !! pk_key p = None ∧ pk_key p ∈ ns_usedExclusive (cfg_state cfg);
  ip_once : NoDup (pk_key <$> filter (λ p, pk_shared p = false) prev);
  ip_shared p info : p ∈ prev → pk_shared p = true →
    ns_allocated (cfg_state cfg0) !! pk_key p = Some info → adi_Exclusive info = false;
  ip_charge p : p ∈ prev → pk_shared p = true →
    computeConsumedCapacity (req_Capacity (pk_req p)) (spec_Capacity (pk_spec p))
      = Some (pk_consumed p);
  ip_uncharged p : p ∈ prev → pk_shared p = false → pk_consumed p = ∅;
}.

Lemma inv_picks_init cfg0 : inv_picks cfg0 [] cfg0.
Proof.
  constructor; try (by intros ? Hin; apply elem_of_nil in Hin);
    try (by intros ?? Hin; apply elem_of_nil in Hin); try done.
  - by rewrite app_nil_r.
  - constructor.
Qed.

Lemma inv_picks_step cfg0 prev p cfg cfg' :
  inv_picks cfg0 prev cfg → pick_step cfg p cfg' → inv_picks cfg0 (prev ++ [p]) cfg'.
Proof.
  intros [] Hp. destruct (pick_step_eligible _ _ _ Hp) as (? & ? & ? & ? & ?).
  destruct (pick_step_effect _ _ _ Hp) as [Hal Hcs _ _ Hres Hexc Hfresh _ _].
  constructor; try (intros q; rewrite elem_of_app, list_elem_of_singleton; intros [Hq| ->]; by eauto).
  - congruence.
  - congruence.
  - rewrite Hres, ip_results0, fmap_app. by rewrite app_assoc.
  - intros q. rewrite elem_of_app, list_elem_of_singleton. intros [Hq| ->] Hsh.
    + destruct (ip_free0 q Hq Hsh). split; [done|]. rewrite Hexc. destruct (pk_shared p); set_solver.
    + destruct (Hfresh Hsh). rewrite <- ip_allocated0, Hexc, Hsh. set_solver.
  - rewrite filter_app, fmap_app. destruct (pk_shared p) eqn:Hsh.
    + rewrite (filter_cons_False _ p) by congruence. by rewrite app_nil_r.
    + rewrite (filter_cons_True _ p) by done. destruct (Hfresh eq_refl) as [Hnew _].
      apply NoDup_app. split; [done|]. csimpl. split; [|by apply NoDup_singleton].
      intros k Hk Hk'. apply list_elem_of_singleton in Hk' as ->.
      apply list_elem_of_fmap in Hk as (q & Hkq & Hq). apply list_elem_of_filter in Hq as [Hqs Hq].
      apply Hnew. rewrite Hkq. by apply ip_free0.
  - intros q info. rewrite elem_of_app, list_elem_of_singleton. intros [Hq| ->] Hsh Hinfo; [by eauto|].
    rewrite <- ip_allocated0 in Hinfo. destruct Hp; [by eauto|congruence].
  - intros q. rewrite elem_of_app, list_elem_of_singleton. intros [Hq| ->] Hsh; [by eauto|].
    destruct Hp; [done|congruence].
  - intros q. rewrite elem_of_app, list_elem_of_singleton. intros [Hq| ->] Hsh; [by eauto|].
    destruct Hp; [congruence|done].
Qed.

(** Groups: marks only grow, picked devices are marked, nothing is mixed. *)
Definition inv_groups (cfg0 : allocCfg Q) (prev : list pick) (cfg : allocCfg Q) : Prop :=
  (exclusive_groups (cfg_groups cfg0) → exclusive_groups (cfg_groups cfg)) ∧
  (∀ key k, marked (cfg_groups cfg) key k ↔
     marked (cfg_groups cfg0) key k ∨
     ∃ p, p ∈ prev ∧ ungrouped (metaOf (pk_dev p)) = false ∧
          groupKey (metaOf (pk_dev p)) = key ∧ kind (metaOf (pk_dev p)) = k).

Lemma inv_groups_init cfg0 : inv_groups cfg0 [] cfg0.
Proof. split; [done|]. setoid_rewrite elem_of_nil. naive_solver. Qed.

Lemma inv_groups_step cfg0 prev p cfg cfg' :
  inv_groups cfg0 prev cfg → pick_step cfg p cfg' → inv_groups cfg0 (prev ++ [p]) cfg'.
Proof.
  intros [Hex Hmark] Hp. destruct (pick_step_eligible _ _ _ Hp) as (? & ? & ? & Hc & ?).
  destruct (pick_step_effect _ _ _ Hp) as [_ _ _ Hgr _ _ _ _ _]. unfold inv_groups. rewrite Hgr. split.
  - intros Hinit. by apply markGroupState_exclusive; [|apply Hex].
  - intros key k. rewrite marked_markGroupState, Hmark.
    setoid_rewrite elem_of_app. setoid_rewrite list_elem_of_singleton. split.
    + intros [[|(q & ? & ?)]|?]; [by left|right; exists q; auto|right; exists p; auto].
    + intros [|(q & [Hq| ->] & ?)]; [by left; left|left; right; by exists q|by right].
Qed.

(** Counters: the usage is the initial usage plus the demand of the picks. *)
Definition inv_counters (cfg0 : allocCfg Q) (prev : list pick) (cfg : allocCfg Q) : Prop :=
  usage_ok (ns_counterSets (cfg_state cfg0)) (ns_consumedCounters (cfg_state cfg)) ∧
  ∀ s c, usageAt (ns_consumedCounters (cfg_state cfg)) s c =
    usageAt (ns_consumedCounters (cfg_state cfg0)) s c +
    Zsum (λ q, demand (spec_Consumes (pk_spec q)) s c) prev.

Lemma inv_counters_step cfg0 prev p cfg cfg' :
  available_ok (ns_counterSets (cfg_state cfg0)) →
  (∀ d, d ∈ devices → consumes_ok (spec_Consumes (cd_Spec d))) →
  inv_picks cfg0 prev cfg → inv_counters cfg0 prev cfg → pick_step cfg p cfg' →
  inv_counters cfg0 (prev ++ [p]) cfg'.
Proof.
  intros Hav Hdev Hip [Hok Hat] Hp. destruct (pick_step_eligible _ _ _ Hp) as (? & ? & ? & ? & ?).
  destruct (pick_step_effect _ _ _ Hp) as [_ _ Hc _ _ _ _ _ _].
  rewrite (ip_counterSets _ _ _ Hip) in Hc.
  apply consumeCounters_spec in Hc as [Hok' Hat']; [|done|by apply Hdev|done].
  split; [done|]. intros s c. rewrite Hat', Hat, Zsum_app. simpl. lia.
Qed.

(** Capacity: the totals of a device grow by what its picks are charged. *)
Definition totalAt (cfg : allocCfg Q) (key : DeviceKey) (name unit : string) : Z :=
  amount (default ∅ (ns_consumedTotals (cfg_state cfg) !! key)) name unit.

Definition charged (key : DeviceKey) (prev : list pick) : list pick :=
  filter (λ q, pk_shared q = true ∧ pk_key q = key) prev.

Definition inv_totals (cfg0 : allocCfg Q) (prev : list pick) (cfg : allocCfg Q) : Prop :=
  ∀ d name cap, d ∈ devices → spec_Capacity (cd_Spec d) !! name = Some cap →
    0 ≤ totalAt cfg (cd_Key d) name (cap_Unit cap) < 2 ^ 62 ∧
    totalAt cfg (cd_Key d) name (cap_Unit cap) =
      totalAt cfg0 (cd_Key d) name (cap_Unit cap) +
      Zsum (pk_charge name (cap_Unit cap)) (charged (cd_Key d) prev) ∧
    (charged (cd_Key d) prev ≠ [] →
      totalAt cfg (cd_Key d) name (cap_Unit cap) ≤ cap_Value cap).

Lemma charged_snoc key prev p :
  charged key (prev ++ [p]) =
    charged key prev ++ (if decide (pk_shared p = true ∧ pk_key p = key) then [p] else []).
Proof. unfold charged. by rewrite filter_app. Qed.

(** The step of [inv_totals] on the device that is picked. *)
Lemma inv_totals_charge cfg0 prev p cfg cfg' name cap :
  NoDup (cd_Key <$> devices) →
  (∀ d, d ∈ devices → map_Forall (λ _, capacity_ok) (spec_Capacity (cd_Spec d))) →
  (∀ r, r ∈ requests → requirements_ok (req_Capacity r)) →
  inv_totals cfg0 prev cfg → pick_step cfg p cfg' → pk_shared p = true →
  spec_Capacity (pk_spec p) !! name = Some cap →
  0 ≤ pk_charge name (cap_Unit cap) p ∧
  totalAt cfg' (pk_key p) name (cap_Unit cap) =
    totalAt cfg (pk_key p) name (cap_Unit cap) + pk_charge name (cap_Unit cap) p ∧
  totalAt cfg' (pk_key p) name (cap_Unit cap) ≤ cap_Value cap.
Proof.
  intros Hnd Hcaps Hreqs Hinv Hp Hsh Hname.
  destruct (pick_step_eligible _ _ _ Hp) as (Hdev & Hreq & ? & ? & ?).
  destruct (pick_step_effect _ _ _ Hp) as [_ _ _ _ _ _ _ Htot Hfits].
  assert (computeConsumedCapacity (req_Capacity (pk_req p)) (spec_Capacity (pk_spec p))
      = Some (pk_consumed p)) as Hcc by (destruct Hp; [done|congruence]).
  destruct (computeConsumedCapacity_bound _ _ _ (Hcaps _ Hdev) (Hreqs _ Hreq) Hcc name cap Hname)
    as [Hadd _].
  destruct (Hinv (pk_dev p) name cap Hdev Hname) as (Hb & _ & _).
  specialize (Hfits Hsh). rewrite Hsh in Htot. unfold totalAt in *. rewrite Htot.
  rewrite lookup_insert_eq. simpl.
  destruct (addConsumed_amount (default ∅ (ns_consumedTotals (cfg_state cfg) !! pk_key p))
    (pk_consumed p) (spec_Capacity (pk_spec p)) name cap Hname (Hcaps _ Hdev _ _ Hname) Hb Hadd Hfits).
  unfold pk_charge. repeat split; [lia|done|done].
Qed.

Lemma inv_totals_step cfg0 prev p cfg cfg' :
  NoDup (cd_Key <$> devices) →
  (∀ d, d ∈ devices → map_Forall (λ _, capacity_ok) (spec_Capacity (cd_Spec d))) →
  (∀ r, r ∈ requests → requirements_ok (req_Capacity r)) →
  inv_totals cfg0 prev cfg → pick_step cfg p cfg' → inv_totals cfg0 (prev ++ [p]) cfg'.
Proof.
  intros Hnd Hcaps Hreqs Hinv Hp d name cap Hd Hname.
  destruct (Hinv d name cap Hd Hname) as (Hb & Heq & Hle). rewrite charged_snoc, Zsum_app.
  case_decide as Hcase.
  - destruct Hcase as [Hsh Hkey].
    assert (pk_dev p = d) as <-.
    { eapply NoDup_fmap_inj; [done| |done|done]. by destruct (pick_step_eligible _ _ _ Hp). }
    destruct (inv_totals_charge _ _ _ _ _ name cap Hnd Hcaps Hreqs Hinv Hp Hsh Hname) as (? & Htot & ?).
    unfold pk_key in Htot. fold (pk_key p) in *. unfold pk_key in *. rewrite Htot in *.
    destruct (Hcaps _ Hd _ _ Hname) as [? _]. simpl. repeat split; lia.
  - assert (totalAt cfg' (cd_Key d) name (cap_Unit cap) = totalAt cfg (cd_Key d) name (cap_Unit cap))
      as ->; [|simpl; rewrite app_nil_r; repeat split; [lia|lia|lia|done]].
    destruct (pick_step_effect _ _ _ Hp) as [_ _ _ _ _ _ _ Htot _]. unfold totalAt. rewrite Htot.
    destruct (pk_shared p) eqn:Hsh; [|done]. rewrite lookup_insert_ne; [done|naive_solver].
Qed.
End Steps.

(** ** The initial state *)

Lemma lookup_buildDeviceMeta devices d :
  NoDup (cd_Key <$> devices) → d ∈ devices →
  metaOf (buildDeviceMeta devices) d = deviceMetaFromSpec (cd_Spec d).
Proof.
  intros Hnd Hd. unfold metaOf, buildDeviceMeta.
  by rewrite (lookup_fill cd_Key (λ d, deviceMetaFromSpec (cd_Spec d))).
Qed.

Lemma lookup_indexDevices_inv devices key d :
  indexDevices devices !! key = Some d → d ∈ devices ∧ cd_Key d = key.
Proof.
  intros Hd. unfold indexDevices in Hd.
  apply (lookup_fill_inv cd_Key id) in Hd as [Hd|(d' & ? & ? & ?)]; [by rewrite lookup_empty in Hd|].
  unfold id in *. by subst.
Qed.

(** Outside the blocked sets the counters hold exactly what the allocated
    devices visited so far demand. *)
Lemma counterState_spec devices counterSets order u b u' b' :
  available_ok counterSets → (∀ d, d ∈ devices → consumes_ok (spec_Consumes (cd_Spec d))) →
  usage_ok counterSets u →
  foldl (counterStateStep (indexDevices devices) counterSets) (u, b) order = (u', b') →
  usage_ok counterSets u' ∧ b ⊆ b' ∧
  ∀ s c, s ≠ "" → s ∉ b' → usageAt u' s c = usageAt u s c + allocatedDemand devices order s c.
Proof.
  intros Hav Hdev. unfold allocatedDemand. revert u b.
  induction order as [|key order IH]; intros u b Hu Hfold; simpl in *.
  { simplify_eq. split; [done|]. split; [done|]. intros. lia. }
  destruct (indexDevices devices !! key) as [d|] eqn:Hd; [|by apply IH in Hfold].
  set (consumes := spec_Consumes (cd_Spec d)) in *.
  assert (∀ u0, usage_ok counterSets u0 → u0 = u →
    foldl (counterStateStep (indexDevices devices) counterSets)
      (u0, blockCounterSets b consumes) order = (u', b') →
    usage_ok counterSets u' ∧ b ⊆ b' ∧ ∀ s c, s ≠ "" → s ∉ b' → usageAt u' s c = usageAt u s c +
      (demand consumes s c + Zsum (λ key, match indexDevices devices !! key with
         | Some d => demand (spec_Consumes (cd_Spec d)) s c | None => 0 end) order)) as Hblock.
  { intros ? ? -> Hf. apply IH in Hf as (? & Hsub & Hat); [|done]. split; [done|].
    split; [intros x ?; apply Hsub, elem_of_blockCounterSets; by left|].
    intros s c Hs Hsb. rewrite Hat by done. rewrite demand_notin; [lia|].
    intros Hin. apply Hsb, Hsub, elem_of_blockCounterSets. by right. }
  destruct (list_len0 consumes) eqn:Hlen; go_bool.
  { apply IH in Hfold as (? & ? & Hat); [|done]. split; [done|]. split; [done|].
    intros s c ??. rewrite Hat by done. rewrite Hlen. unfold demand; simpl; lia. }
  destruct (map_len0 counterSets); [by eapply Hblock|].
  destruct (consumeCounters u counterSets consumes) as [u1|] eqn:Hc; [|by eapply Hblock].
  apply consumeCounters_spec in Hc as [Hu1 Hat1]; [|done| |done];
    [|apply Hdev; by apply lookup_indexDevices_inv in Hd as []].
  apply IH in Hfold as (? & ? & Hat); [|done]. split; [done|]. split; [done|].
  intros s c ??. rewrite Hat, Hat1 by done. lia.
Qed.

Lemma initialCfg_totalAt devices allocated counterSets u key name unit :
  totalAt (initialCfg devices allocated counterSets u) key name unit =
    amount (from_option adi_ConsumedCapacity ∅ (allocated !! key)) name unit.
Proof.
  unfold totalAt, initialCfg. simpl. rewrite lookup_omap.
  destruct (allocated !! key) as [info|]; [|done]. simpl.
  destruct (map_len0 (adi_ConsumedCapacity info)) eqn:He; [|done].
  apply map_len0_true in He. by rewrite He.
Qed.

Lemma marked_buildGroupState devices (allocated : gmap DeviceKey (AllocatedDeviceInfo Q)) gk k :
  marked (buildGroupState (buildDeviceMeta devices) allocated) gk k ↔
    ∃ key m, is_Some (allocated !! key) ∧ buildDeviceMeta devices !! key = Some m ∧
      ungrouped m = false ∧ groupKey m = gk ∧ kind m = k.
Proof.
  unfold buildGroupState. rewrite marked_markAll. split.
  - intros [Hm|(m & Hm & Hrest)]; [by destruct k|].
    apply list_elem_of_omap in Hm as ([key info] & Hin & Hkey).
    apply elem_of_map_to_list in Hin. exists key, m. eauto.
  - intros (key & m & [info Hal] & Hm & Hrest). right. exists m. split; [|done].
    apply list_elem_of_omap. exists (key, info). by rewrite elem_of_map_to_list.
Qed.

(** ** Refinement *)

(** Well-formed input of a node: distinct device keys, counters and capacities
    in the range where sums do not wrap, each device naming a counter set at
    most once, positive counts, and existing allocations that do not already
    mix a whole GPU with its partitions. *)
Record node_ok (devices : list CandidateDevice) (requests : list (Request Q))
    (allocated : gmap DeviceKey (AllocatedDeviceInfo Q)) (counterSets : gmap string CounterSet)
    : Prop := {
  no_keys : NoDup (cd_Key <$> devices);
  no_consumes d : d ∈ devices → consumes_ok (spec_Consumes (cd_Spec d));
  no_available : available_ok counterSets;
  no_capacity d : d ∈ devices → map_Forall (λ _, capacity_ok) (spec_Capacity (cd_Spec d));
  no_requests r : r ∈ requests → 1 ≤ req_Count r ∧ requirements_ok (req_Capacity r);
  no_allocated key info name q : allocated !! key = Some info →
    adi_ConsumedCapacity info !! name = Some q → 0 ≤ Value q < 2 ^ 62;
  no_groups d1 d2 : d1 ∈ devices → d2 ∈ devices →
    is_Some (allocated !! cd_Key d1) → is_Some (allocated !! cd_Key d2) →
    ¬ incompatible (deviceMetaFromSpec (cd_Spec d1)) (deviceMetaFromSpec (cd_Spec d2));
}.

(** The run behind a successful allocation. *)
Record node_run (order : list DeviceKey) (devices : list CandidateDevice)
    (requests : list (Request Q)) (allocated : gmap DeviceKey (AllocatedDeviceInfo Q))
    (counterSets : gmap string CounterSet) (picks : list pick) (u : CounterUsage)
    (blocked : gset string) (cfg : allocCfg Q) : Prop := {
  nr_state : buildCounterState order (indexDevices devices) counterSets = (u, blocked);
  nr_steps : steps (buildDeviceMeta devices) blocked devices requests
               (initialCfg devices allocated counterSets u) picks cfg;
  nr_segs : ∃ segs, picks = concat segs ∧
    Forall2 (λ req seg, Z.of_nat (length seg) = req_Count req ∧
                        Forall (λ p, pk_req p = req) seg) requests segs;
}.

Lemma allocateOnNode_run order nodeName devices requests allocated counterSets r :
  Forall (λ req, 1 ≤ req_Count req) requests →
  allocateOnNode order nodeName devices requests allocated counterSets = Ok (Some r) →
  ∃ picks u blocked cfg, node_run order devices requests allocated counterSets picks u blocked cfg ∧
    r = mkAllocationResult "" nodeName (renderPick <$> picks) (Some nodeName).
Proof.
  intros Hcounts Hall. unfold allocateOnNode in Hall.
  destruct (list_len0 devices); [done|].
  destruct (buildCounterState _ _ _) as [u blocked] eqn:Hb.
  destruct (requestLoop _ _ _ _ _) as [[cfg|]|] eqn:Hloop; simplify_eq.
  apply (requestLoop_steps _ _ devices requests) in Hloop as (segs & Hsteps & Hsegs); [|done|done].
  exists (concat segs), u, blocked, cfg. split; [split; eauto|].
  pose proof (steps_invariant _ _ _ _ (inv_picks _ devices requests _)
    (λ prev p c c', inv_picks_step _ _ _ _ _ prev p c c') [] _ _ _ Hsteps
    (inv_picks_init _ _ _ _)) as Hip.
  by rewrite (ip_results _ _ _ _ _ _ Hip).
Qed.

Section Run.
Context (order : list DeviceKey) (devices : list CandidateDevice) (requests : list (Request Q)).
Context (allocated : gmap DeviceKey (AllocatedDeviceInfo Q)) (counterSets : gmap string CounterSet).
Context (picks : list pick) (u : CounterUsage) (blocked : gset string) (cfg : allocCfg Q).
Hypothesis run : node_run order devices requests allocated counterSets picks u blocked cfg.

Let cfg0 := initialCfg devices allocated counterSets u.

Lemma run_picks : inv_picks blocked devices requests cfg0 picks cfg.
Proof.
  destruct run as [_ Hsteps _].
  apply (steps_invariant _ _ _ _ (inv_picks blocked devices requests cfg0)
    (λ prev p c c', inv_picks_step _ _ _ _ _ prev p c c') [] _ _ _ Hsteps (inv_picks_init _ _ _ _)).
Qed.

Lemma run_groups : inv_groups (buildDeviceMeta devices) cfg0 picks cfg.
Proof.
  destruct run as [_ Hsteps _].
  apply (steps_invariant _ _ _ _ (inv_groups (buildDeviceMeta devices) cfg0)
    (λ prev p c c', inv_groups_step _ _ _ _ _ prev p c c') [] _ _ _ Hsteps (inv_groups_init _ _)).
Qed.

Lemma run_meta p : NoDup (cd_Key <$> devices) → p ∈ picks →
  metaOf (buildDeviceMeta devices) (pk_dev p) = pk_meta p.
Proof.
  intros Hnd Hp. apply lookup_buildDeviceMeta; [done|]. by apply (ip_device _ _ _ _ _ _ run_picks).
Qed.

Lemma exclusive_compatible gs m1 m2 :
  exclusive_groups gs → marked gs (groupKey m1) (kind m1) → marked gs (groupKey m2) (kind m2) →
  ¬ incompatible m1 m2.
Proof.
  intros Hex H1 H2 (_ & _ & Hkey & Hne). rewrite <- Hkey in H2.
  destruct (kind m1) eqn:E1, (kind m2) eqn:E2; try done; by apply (Hex (groupKey m1)).
Qed.

Lemma exclusive_initial : NoDup (cd_Key <$> devices) →
  (∀ d1 d2, d1 ∈ devices → d2 ∈ devices →
    is_Some (allocated !! cd_Key d1) → is_Some (allocated !! cd_Key d2) →
    ¬ incompatible (deviceMetaFromSpec (cd_Spec d1)) (deviceMetaFromSpec (cd_Spec d2))) →
  exclusive_groups (cfg_groups cfg0).
Proof.
  intros Hnd Hcompat gk.
  change (cfg_groups cfg0) with (buildGroupState (buildDeviceMeta devices) allocated).
  rewrite !marked_buildGroupState.
  intros [(k1 & m1 & Ha1 & Hm1 & Hu1 & Hg1 & Hk1) (k2 & m2 & Ha2 & Hm2 & Hu2 & Hg2 & Hk2)].
  apply (lookup_fill_inv cd_Key (λ d, deviceMetaFromSpec (cd_Spec d))) in Hm1
    as [Hm1|(d1 & ? & ? & ?)]; [by rewrite lookup_empty in Hm1|].
  apply (lookup_fill_inv cd_Key (λ d, deviceMetaFromSpec (cd_Spec d))) in Hm2
    as [Hm2|(d2 & ? & ? & ?)]; [by rewrite lookup_empty in Hm2|].
  subst. apply (Hcompat d1 d2); [done..|]. repeat split; [done|done|congruence|congruence].
Qed.

Lemma run_compatible : NoDup (cd_Key <$> devices) → exclusive_groups (cfg_groups cfg0) →
  (∀ p q, p ∈ picks → q ∈ picks → ¬ incompatible (pk_meta p) (pk_meta q)) ∧
  (∀ p d, p ∈ picks → d ∈ devices → is_Some (allocated !! cd_Key d) →
     ¬ incompatible (pk_meta p) (deviceMetaFromSpec (cd_Spec d))).
Proof.
  intros Hnd Hex0. destruct run_groups as [Hex Hmark]. specialize (Hex Hex0).
  assert (∀ p, p ∈ picks → ungrouped (pk_meta p) = false →
    marked (cfg_groups cfg) (groupKey (pk_meta p)) (kind (pk_meta p))) as Hpick.
  { intros p Hp Hu. apply Hmark. right. exists p. by rewrite run_meta. }
  split.
  - intros p q Hp Hq Hinc. pose proof Hinc as (? & ? & _).
    by apply (exclusive_compatible (cfg_groups cfg) (pk_meta p) (pk_meta q)); auto.
  - intros p d Hp Hd Hal Hinc. pose proof Hinc as (? & Hu & _).
    apply (exclusive_compatible (cfg_groups cfg) (pk_meta p) (deviceMetaFromSpec (cd_Spec d))); auto.
    apply Hmark. left.
    change (cfg_groups cfg0) with (buildGroupState (buildDeviceMeta devices) allocated).
    apply marked_buildGroupState.
    exists (cd_Key d), (deviceMetaFromSpec (cd_Spec d)). repeat split; try done.
    by apply (lookup_fill cd_Key (λ d, deviceMetaFromSpec (cd_Spec d))).
Qed.

Hypothesis ok : node_ok devices requests allocated counterSets.
Hypothesis order_ok : order ≡ₚ (map_to_list allocated).*1.

Lemma run_counters :
  inv_counters cfg0 picks cfg ∧
  ∀ s c, s ≠ "" → s ∉ blocked →
    usageAt u s c = allocatedDemand devices (map_to_list allocated).*1 s c.
Proof.
  destruct run as [Hstate Hsteps _]. unfold buildCounterState in Hstate.
  apply counterState_spec in Hstate as (Hu & _ & Hat); [|apply ok..|apply usage_ok_empty].
  split.
  - refine (proj2 (steps_invariant _ _ _ _
      (λ prev c, inv_picks blocked devices requests cfg0 prev c ∧ inv_counters cfg0 prev c)
      _ [] _ _ _ Hsteps _)).
    + intros prev p c c' [Hip Hic] Hp. split; [by eapply inv_picks_step|].
      by eapply inv_counters_step; [apply ok|apply ok| | |].
    + split; [apply inv_picks_init|]. split; [done|]. intros. simpl. lia.
  - intros s c Hs Hb. rewrite (Hat s c Hs Hb). unfold allocatedDemand.
    by rewrite (Zsum_perm _ _ _ order_ok).
Qed.

Lemma run_totals : inv_totals devices cfg0 picks cfg.
Proof.
  destruct run as [_ Hsteps _].
  apply (steps_invariant _ _ _ _ (inv_totals devices cfg0)
    (λ prev p c c', inv_totals_step _ _ _ _ _ prev p c c' (no_keys _ _ _ _ ok)
       (no_capacity _ _ _ _ ok) (λ r Hr, proj2 (no_requests _ _ _ _ ok r Hr))) [] _ _ _ Hsteps).
  intros d name cap Hd Hname. unfold cfg0. rewrite initialCfg_totalAt. simpl.
  split; [|split; [lia|done]].
  destruct (allocated !! cd_Key d) as [info|] eqn:Hal; simpl; [|unfold amount; rewrite lookup_empty; lia].
  unfold amount. destruct (adi_ConsumedCapacity info !! name) as [q|] eqn:Hq; [|lia].
  apply quantityValue_nonneg. by eapply no_allocated.
Qed.

Lemma run_valid : valid_allocation devices requests allocated counterSets picks.
Proof.
  pose proof run_picks as Hip. pose proof (no_keys _ _ _ _ ok) as Hnd.
  destruct (run_compatible Hnd (exclusive_initial Hnd (no_groups _ _ _ _ ok))) as [Hg1 Hg2].
  constructor.
  - apply run.
  - intros p Hp. split; [by apply Hip|by apply Hip].
  - intros p Hp Hsh. by apply (ip_free _ _ _ _ _ _ Hip p Hp Hsh).
  - apply Hip.
  - intros p Hp Hsh. by apply Hip.
  - intros p info Hp Hsh Hinfo. by apply (ip_shared _ _ _ _ _ _ Hip p info Hp Hsh).
  - intros p Hp Hsh. by apply Hip.
  - intros p name cap Hp Hsh Hname.
    destruct (run_totals (pk_dev p) name cap) as (_ & Heq & Hle);
      [by apply Hip|done|]. unfold cfg0 in Heq. rewrite initialCfg_totalAt in Heq.
    assert (charged (cd_Key (pk_dev p)) picks ≠ []) as Hne.
    { intros Hnil. apply (not_elem_of_nil p). rewrite <- Hnil. by apply list_elem_of_filter. }
    specialize (Hle Hne). unfold pk_key at 1. unfold charged in Heq. fold (pk_key p) in *.
    rewrite Heq in Hle. done.
  - intros p k c Hp Hk. destruct run_counters as [[Huse Hat] Hbase].
    pose proof (ip_unblocked _ _ _ _ _ _ Hip p Hp) as Hb. rewrite counterSetBlocked_false in Hb.
    destruct (Hb k Hk) as [Hs Hnb]. rewrite <- Hbase by done.
    pose proof (usage_ok_at _ _ (cc_CounterSet k) c (no_available _ _ _ _ ok) Huse).
    rewrite Hat in *. simpl in *. lia.
  - done.
  - done.
Qed.
End Run.

(** ** The choice of the node *)

Lemma lookup_addToNode cands nodes n :
  foldl addToNode nodes cands !! n =
    match filter (λ d, cd_NodeName d = n) cands with
    | [] => nodes !! n
    | ds => if str_eqb n "" then nodes !! n else Some (default [] (nodes !! n) ++ ds)
    end.
Proof.
  revert nodes. induction cands as [|d cands IH]; intros nodes; simpl; [done|].
  rewrite IH, filter_cons. unfold addToNode.
  destruct (str_eqb (cd_NodeName d) "") eqn:He; go_bool.
  - case_decide as Hn; [|done]. subst n. rewrite He, str_eqb_refl.
    clear IH. by case_match.
  - case_decide as Hn.
    + subst n. rewrite lookup_insert_eq. apply str_eqb_false in He. rewrite He. simpl.
      clear IH. case_match; [done|]. by rewrite <- app_assoc.
    + by rewrite !lookup_insert_ne.
Qed.

(** The devices of a node are its candidates, in some order. *)
Lemma lookup_groupByNode cands n ds :
  groupByNode cands !! n = Some ds →
  n ≠ "" ∧ ds ≡ₚ filter (λ d, cd_NodeName d = n) cands ∧ ds ≠ [].
Proof.
  unfold groupByNode. rewrite lookup_fmap, lookup_addToNode, lookup_empty.
  destruct (filter _ cands) as [|d l] eqn:Hf; [done|].
  destruct (str_eqb n "") eqn:Hn; [done|]. simpl. intros [= <-]. go_bool.
  split; [done|]. split; [apply sort_Slice_perm|].
  intros Hnil. pose proof (sort_Slice_perm lessByName (d :: l)) as Hp. rewrite Hnil in Hp.
  by apply Permutation_nil_l in Hp.
Qed.

Lemma tryNodes_Some order input nodes names r :
  tryNodes order input nodes names = Ok (Some r) →
  ∃ before n after, names = before ++ n :: after ∧
    (∀ m, m ∈ before →
      allocateOnNode (order m) m (default [] (nodes !! m)) (in_Requests input)
        (in_Allocated input) (default ∅ (in_CounterSets input !! m)) = Ok None) ∧
    allocateOnNode (order n) n (default [] (nodes !! n)) (in_Requests input)
      (in_Allocated input) (default ∅ (in_CounterSets input !! n)) = Ok (Some r).
Proof.
  induction names as [|m names IH]; simpl; [done|].
  destruct (allocateOnNode _ _ _ _ _ _) as [[r'|]|] eqn:Hm; intros Heq; simplify_eq.
  - exists [], m, names. split; [done|]. split; [intros ? Hin; by apply elem_of_nil in Hin|done].
  - destruct (IH Heq) as (before & n & after & -> & Hb & Hn).
    exists (m :: before), n, after. split; [done|]. split; [|done].
    intros m' [-> |Hm']%elem_of_cons; [done|by apply Hb].
Qed.

Lemma tryNodes_None order input nodes names :
  tryNodes order input nodes names = Ok None ↔
  ∀ m, m ∈ names →
    allocateOnNode (order m) m (default [] (nodes !! m)) (in_Requests input)
      (in_Allocated input) (default ∅ (in_CounterSets input !! m)) = Ok None.
Proof.
  induction names as [|m names IH]; simpl.
  { split; [intros _ m Hm; by apply elem_of_nil in Hm|done]. }
  setoid_rewrite elem_of_cons. destruct (allocateOnNode _ _ _ _ _ _) as [[r'|]|] eqn:Hm.
  - split; [done|]. intros Hall. specialize (Hall m (or_introl eq_refl)). congruence.
  - rewrite IH. split; [intros Hall m' [-> |]; auto|auto].
  - split; [done|]. intros Hall. specialize (Hall m (or_introl eq_refl)). congruence.
Qed.

(** Well-formed input of [Allocate]: every node is. *)
Definition input_ok (input : Input Q) : Prop :=
  ∀ n ds, ds ≡ₚ filter (λ d, cd_NodeName d = n) (in_Candidates input) →
    node_ok ds (in_Requests input) (in_Allocated input) (default ∅ (in_CounterSets input !! n)).

(** It suffices to check the candidates, and the check is decidable. *)
Definition candidates_ok (input : Input Q) : Prop :=
  NoDup (cd_Key <$> in_Candidates input) ∧
  Forall (λ d, consumes_ok (spec_Consumes (cd_Spec d)) ∧
               map_Forall (λ _, capacity_ok) (spec_Capacity (cd_Spec d))) (in_Candidates input) ∧
  map_Forall (λ _, available_ok) (in_CounterSets input) ∧
  Forall (λ r, 1 ≤ req_Count r ∧ requirements_ok (req_Capacity r)) (in_Requests input) ∧
  map_Forall (λ _ info, map_Forall (λ _ q, 0 ≤ Value q < 2 ^ 62) (adi_ConsumedCapacity info))
    (in_Allocated input) ∧
  Forall (λ d1, Forall (λ d2,
    ¬ (is_Some (in_Allocated input !! cd_Key d1) ∧ is_Some (in_Allocated input !! cd_Key d2) ∧
       incompatible (deviceMetaFromSpec (cd_Spec d1)) (deviceMetaFromSpec (cd_Spec d2))))
    (in_Candidates input)) (in_Candidates input).

#[export] Instance candidates_ok_dec input : Decision (candidates_ok input).
Proof. unfold candidates_ok, consumes_ok, available_ok, counters_ok. apply _. Defined.

Lemma candidates_ok_input input : candidates_ok input → input_ok input.
Proof.
  intros (Hkeys & Hdev & Hav & Hreq & Hal & Hgr) n ds Hperm.
  rewrite !Forall_forall in *.
  assert (∀ d, d ∈ ds → d ∈ in_Candidates input) as Hin.
  { intros d. rewrite Hperm. by intros [_ ?]%list_elem_of_filter. }
  constructor.
  - rewrite Hperm. eapply sublist_NoDup; [done|]. apply fmap_sublist, sublist_filter.
  - intros d Hd. by apply Hdev, Hin.
  - destruct (in_CounterSets input !! n) as [m|] eqn:Hm; simpl; [by apply (Hav n)|].
    apply map_Forall_empty.
  - intros d Hd. by apply Hdev, Hin.
  - done.
  - intros key info name q Hinfo Hq. by apply (Hal key info Hinfo name).
  - intros d1 d2 H1 H2 Ha1 Ha2 Hinc. specialize (Hgr d1 (Hin d1 H1)). rewrite Forall_forall in Hgr.
    by apply (Hgr d2 (Hin d2 H2)).
Qed.

(** *** Errors *)
Lemma matchesDevice_Err driver spec sels e :
  matchesDevice driver spec sels = Err e → ∃ sel, sel ∈ sels ∧ sel driver spec = Err e.
Proof.
  induction sels as [|sel sels IH]; simpl; [done|].
  destruct (sel driver spec) as [[]|] eqn:Hsel; intros Heq; simplify_eq.
  - destruct (IH Heq) as (sel' & ? & ?). exists sel'. split; [by right|done].
  - exists sel. split; [left|done].
Qed.

Definition selector_failed (requests : list (Request Q)) (devices : list CandidateDevice)
    (e : error) : Prop :=
  ∃ req dev sel, req ∈ requests ∧ dev ∈ devices ∧ sel ∈ req_Selectors req ∧
    sel (cd_Driver dev) (cd_Spec dev) = Err e.

Lemma deviceLoop_Err meta blocked req ds count cfg e :
  deviceLoop meta blocked req ds count cfg = Err e → selector_failed [req] ds e.
Proof.
  revert count cfg. induction ds as [|d ds IH]; intros count cfg Hloop; simpl in Hloop; [done|].
  assert (selector_failed [req] ds e → selector_failed [req] (d :: ds) e) as Hmono.
  { intros (r & dev & sel & ? & ? & ?). exists r, dev, sel. split; [done|]. split; [by right|done]. }
  destruct (counterSetBlocked _ _); [by eapply Hmono, IH|].
  destruct (conflictsWithGroup _ _); [by eapply Hmono, IH|].
  destruct (matchesDevice _ _ _) as [[]|] eqn:Hmatch; [|by eapply Hmono, IH|].
  - destruct (allocateDevice _ _ _ _ _) as [m cfg1]. destruct (_ <=? _); [done|by eapply Hmono, IH].
  - simplify_eq. apply matchesDevice_Err in Hmatch as (sel & ? & ?).
    exists req, d, sel. repeat split; [left|left|done|done].
Qed.

Lemma requestLoop_Err meta blocked ds reqs cfg e :
  requestLoop meta blocked ds reqs cfg = Err e → selector_failed reqs ds e.
Proof.
  revert cfg. induction reqs as [|req reqs IH]; intros cfg Hloop; simpl in Hloop; [done|].
  destruct (deviceLoop _ _ _ _ _ _) as [[n cfg']|] eqn:Hd; simplify_eq.
  - destruct (_ <? _); [done|]. destruct (IH _ Hloop) as (r & dev & sel & ? & ?).
    exists r, dev, sel. split; [by right|done].
  - destruct (deviceLoop_Err _ _ _ _ _ _ _ Hd) as (r & dev & sel & Hr & ?).
    apply list_elem_of_singleton in Hr as ->. exists req, dev, sel. split; [left|done].
Qed.

Lemma tryNodes_Err order input names e :
  (∀ n, n ∈ names → is_Some (groupByNode (in_Candidates input) !! n)) →
  tryNodes order input (groupByNode (in_Candidates input)) names = Err e →
  selector_failed (in_Requests input) (in_Candidates input) e.
Proof.
  induction names as [|n names IH]; intros Hin Htry; simpl in Htry; [done|].
  destruct (allocateOnNode _ _ _ _ _ _) as [[r|]|e'] eqn:Hn; simplify_eq.
  { apply IH; [|done]. intros m Hm. apply Hin. by right. }
  destruct (Hin n) as [ds Hds]; [left|]. rewrite Hds in Hn. simpl in Hn.
  apply lookup_groupByNode in Hds as (_ & Hperm & _). unfold allocateOnNode in Hn.
  destruct (list_len0 ds); [done|]. destruct (buildCounterState _ _ _) as [u b].
  destruct (requestLoop _ _ _ _ _) as [[cfg|]|] eqn:Hloop; simplify_eq.
  destruct (requestLoop_Err _ _ _ _ _ _ Hloop) as (req & dev & sel & ? & Hdev & ?).
  exists req, dev, sel. repeat split; [done| |naive_solver|naive_solver].
  rewrite Hperm in Hdev. by apply list_elem_of_filter in Hdev as [].
Qed.

Lemma Allocate_valid_run order input r :
  input_ok input → (∀ n, order n ≡ₚ (map_to_list (in_Allocated input)).*1) →
  Allocate order input = Ok (Some r) →
  ∃ devices picks,
    ar_NodeName r ≠ "" ∧
    devices ≡ₚ filter (λ d, cd_NodeName d = ar_NodeName r) (in_Candidates input) ∧
    ar_Devices r = renderPick <$> picks ∧ ar_NodeSelector r = Some (ar_NodeName r) ∧
    valid_allocation devices (in_Requests input) (in_Allocated input)
      (default ∅ (in_CounterSets input !! ar_NodeName r)) picks.
Proof.
  intros Hok Horder Hall. unfold Allocate in Hall.
  destruct (list_len0 _); [done|]. destruct (list_len0 _); [done|]. destruct (map_len0 _); [done|].
  apply tryNodes_Some in Hall as (before & n & after & Hnames & _ & Hn).
  assert (n ∈ (map_to_list (groupByNode (in_Candidates input))).*1) as Hin.
  { rewrite <- (sort_Strings_perm _), Hnames. set_solver. }
  apply list_elem_of_fmap in Hin as ([n' ds] & -> & Hin). apply elem_of_map_to_list in Hin.
  simpl in *. rewrite Hin in Hn. simpl in Hn. apply lookup_groupByNode in Hin as (Hne & Hperm & _).
  pose proof (Hok n' ds Hperm) as Hnode.
  apply allocateOnNode_run in Hn as (picks & u & blocked & cfg & Hrun & ->).
  - exists ds, picks. simpl. do 4 (split; [done|]). by eapply run_valid.
  - apply Forall_forall. intros req Hreq. by apply (no_requests _ _ _ _ Hnode).
Qed.

(** C2: a successful [Allocate] returns a valid allocation on one node: every
    request gets exactly its count of matching devices, exclusive devices are
    free and used once, shared capacity and shared counters are not overdrawn,
    and no GPU is used both whole and partitioned. *)
Theorem Allocate_valid order input r :
  input_ok input → (∀ n, order n ≡ₚ (map_to_list (in_Allocated input)).*1) →
  Allocate order input = Ok (Some r) →
  ∃ devices picks,
    ar_NodeName r ≠ "" ∧
    devices ≡ₚ filter (λ d, cd_NodeName d = ar_NodeName r) (in_Candidates input) ∧
    ar_Devices r = renderPick <$> picks ∧ ar_NodeSelector r = Some (ar_NodeName r) ∧
    valid_allocation devices (in_Requests input) (in_Allocated input)
      (default ∅ (in_CounterSets input !! ar_NodeName r)) picks.
Proof. apply Allocate_valid_run. Qed.

(** The node is the first one, in name order, that can take the whole
    claim: every node before it refuses. *)
Theorem Allocate_first_node order input r n ds :
  Allocate order input = Ok (Some r) →
  groupByNode (in_Candidates input) !! n = Some ds →
  String.le n (ar_NodeName r) → n ≠ ar_NodeName r →
  allocateOnNode (order n) n ds (in_Requests input) (in_Allocated input)
    (default ∅ (in_CounterSets input !! n)) = Ok None.
Proof.
  intros Hall Hn Hle Hne. unfold Allocate in Hall.
  destruct (list_len0 _); [done|]. destruct (list_len0 _); [done|]. destruct (map_len0 _); [done|].
  apply tryNodes_Some in Hall as (before & m & after & Hnames & Hbefore & Hm).
  assert (ar_NodeName r = m) as Hrm.
  { unfold allocateOnNode in Hm. destruct (list_len0 _); [done|].
    destruct (buildCounterState _ _ _). destruct (requestLoop _ _ _ _ _) as [[]|]; by simplify_eq. }
  rewrite Hrm in *.
  assert (n ∈ before ++ m :: after) as Hin.
  { rewrite <- Hnames, sort_Strings_perm. apply list_elem_of_fmap. exists (n, ds).
    by rewrite elem_of_map_to_list. }
  specialize (Hbefore n). rewrite Hn in Hbefore. simpl in Hbefore.
  apply elem_of_app in Hin as [Hin|Hin]; [by apply Hbefore|].
  apply elem_of_cons in Hin as [|Hin]; [done|]. exfalso. apply Hne.
  pose proof (sort_Strings_sorted (map_to_list (groupByNode (in_Candidates input))).*1) as Hsort.
  rewrite Hnames in Hsort. apply StronglySorted_app_1_r in Hsort.
  apply StronglySorted_inv in Hsort as [_ Hsort]. rewrite Forall_forall in Hsort.
  apply (anti_symm String.le); [done|by apply Hsort].
Qed.

(** [Allocate] reports "no allocation" exactly when there is nothing to
    allocate or every node refuses the claim. *)
Theorem Allocate_none_iff order input :
  Allocate order input = Ok None ↔
    in_Requests input = [] ∨
    ∀ n ds, groupByNode (in_Candidates input) !! n = Some ds →
      allocateOnNode (order n) n ds (in_Requests input) (in_Allocated input)
        (default ∅ (in_CounterSets input !! n)) = Ok None.
Proof.
  unfold Allocate. destruct (list_len0 (in_Requests input)) eqn:Hreq; go_bool; [tauto|].
  assert (in_Requests input ≠ []) as Hne by (by destruct (in_Requests input)).
  destruct (list_len0 (in_Candidates input)) eqn:Hcand; go_bool.
  { rewrite Hcand. split; [|done]. intros _. right. intros n ds Hn.
    apply lookup_groupByNode in Hn as (_ & Hp & Hds). by apply Permutation_nil_r in Hp. }
  destruct (map_len0 _) eqn:Hmap; go_bool.
  { rewrite Hmap. split; [|done]. intros _. right. intros n ds. by rewrite lookup_empty. }
  rewrite tryNodes_None. split.
  - intros Hall. right. intros n ds Hn. specialize (Hall n). rewrite Hn in Hall. apply Hall.
    rewrite sort_Strings_perm. apply list_elem_of_fmap. exists (n, ds).
    by rewrite elem_of_map_to_list.
  - intros [|Hall] n Hn; [done|]. rewrite sort_Strings_perm in Hn.
    apply list_elem_of_fmap in Hn as ([n' ds] & -> & Hin). apply elem_of_map_to_list in Hin.
    simpl. rewrite Hin. by apply Hall.
Qed.

(** The only errors of [Allocate] are those of a selector applied to a
    candidate. *)
Theorem Allocate_error order input e :
  Allocate order input = Err e → selector_failed (in_Requests input) (in_Candidates input) e.
Proof.
  unfold Allocate. destruct (list_len0 _); [done|]. destruct (list_len0 _); [done|].
  destruct (map_len0 _); [done|]. apply tryNodes_Err. intros n Hn.
  rewrite sort_Strings_perm in Hn. apply list_elem_of_fmap in Hn as ([n' ds] & -> & Hin).
  apply elem_of_map_to_list in Hin. by exists ds.
Qed.
End Spec.
