(* ===== verification/K8sApi.v ===== *)
(** * The Kubernetes objects the program exchanges

    The fields of k8s.io/api/resource/v1 that the program reads or writes,
    and the interfaces of two libraries it calls: the CEL compiler of
    k8s.io/dynamic-resource-allocation and [Slice] of its resourceslice
    helper.  An absent pointer is [None]; a nil map or slice is empty. *)

From S2P Require Import Prelude DeviceModel.

(** ** Devices and slices *)

Record DeviceAttribute := mkDeviceAttribute {
  da_IntValue : option Z;
  da_BoolValue : option bool;
  da_StringValue : option string;
  da_VersionValue : option string;
}.

Section Api.
Context {Q : Type}.

Record CapacityRequestPolicyRange := mkPolicyRange {
  pr_Min : option Q;
  pr_Max : option Q;
  pr_Step : option Q;
}.

Record CapacityRequestPolicy := mkRequestPolicy {
  rp_Default : option Q;
  rp_ValidValues : list Q;
  rp_ValidRange : option CapacityRequestPolicyRange;
}.

Record DeviceCapacity := mkDeviceCapacity {
  dcap_Value : Q;
  dcap_RequestPolicy : option CapacityRequestPolicy;
}.

Record DeviceCounterConsumption := mkDeviceCounterConsumption {
  dcc_CounterSet : string;
  dcc_Counters : gmap string Q;
}.

Record ApiCounterSet := mkApiCounterSet {
  acs_Name : string;
  acs_Counters : gmap string Q;
}.

Record ApiDevice := mkApiDevice {
  api_Name : string;
  api_Attributes : gmap string DeviceAttribute;
  api_Capacity : gmap string DeviceCapacity;
  api_ConsumesCounters : list DeviceCounterConsumption;
  api_NodeName : option string;
  api_AllowMultipleAllocations : option bool;
  api_BindingConditions : list string;
  api_BindingFailureConditions : list string;
}.

(** [resourceslice.Slice]: what the driver hands to the publishing helper. *)
Record Slice := mkSlice {
  sl_SharedCounters : list ApiCounterSet;
  sl_Devices : list ApiDevice;
}.

Record ResourceSlice := mkResourceSlice {
  rs_Name : string;
  rs_Driver : string;
  rs_PoolName : string;
  rs_PoolGeneration : Z;
  rs_PoolResourceSliceCount : Z;
  rs_NodeName : option string;
  rs_PerDeviceNodeSelection : option bool;
  rs_Devices : list ApiDevice;
  rs_SharedCounters : list ApiCounterSet;
}.

(** ** Claims and classes *)

(** A selector is CEL or of an unknown kind. *)
Record DeviceSelector := mkDeviceSelector { sel_CEL : option string }.

Record OpaqueDeviceConfiguration := mkOpaque {
  od_Driver : string;
  od_Parameters : string;
}.

(** A configuration is opaque or of an unknown kind. *)
Record DeviceConfiguration := mkDeviceConfiguration {
  dc_Opaque : option OpaqueDeviceConfiguration;
}.

Record ExactDeviceRequest := mkExact {
  ex_DeviceClassName : string;
  ex_Selectors : list DeviceSelector;
  ex_AllocationMode : string;
  ex_Count : Z;
  ex_AdminAccess : option bool;
  ex_Capacity : option (gmap string Q);
}.

Record DeviceSubRequest := mkSubRequest { sub_DeviceClassName : string }.

Record DeviceRequest := mkDeviceRequest {
  dr_Name : string;
  dr_Exactly : option ExactDeviceRequest;
  dr_FirstAvailable : list DeviceSubRequest;
}.

Record DeviceClaimConfiguration := mkClaimConfiguration {
  dcl_Requests : list string;
  dcl_Configuration : DeviceConfiguration;
}.

Record DeviceClass := mkDeviceClass {
  class_Name : string;
  class_Selectors : list DeviceSelector;
  class_Config : list DeviceConfiguration;
  class_ExtendedResourceName : option string;
}.

(** A string in the API: the two known values, or another. *)
Inductive AllocationConfigSource :=
| AllocationConfigSourceClass
| AllocationConfigSourceClaim
| AllocationConfigSourceOther (source : string).

Record DeviceAllocationConfiguration := mkAllocationConfiguration {
  dac_Source : AllocationConfigSource;
  dac_Requests : list string;
  dac_Configuration : DeviceConfiguration;
}.

Record DeviceRequestAllocationResult := mkRequestResult {
  rr_Request : string;
  rr_Driver : string;
  rr_Pool : string;
  rr_Device : string;
  rr_BindingConditions : list string;
  rr_BindingFailureConditions : list string;
  rr_ShareID : option string;
  rr_ConsumedCapacity : gmap string Q;
}.

(** A node selector with one match-field term: the key, the operator and the
    values. *)
Record NodeSelector := mkNodeSelector {
  nsel_Key : string;
  nsel_Operator : string;
  nsel_Values : list string;
}.

Record ApiAllocationResult := mkApiAllocation {
  aar_Results : list DeviceRequestAllocationResult;
  aar_Config : list DeviceAllocationConfiguration;
  aar_NodeSelector : option NodeSelector;
  aar_AllocationTimestamp : option Z;
}.

Record ResourceClaim := mkResourceClaim {
  claim_Namespace : string;
  claim_Name : string;
  claim_Requests : list DeviceRequest;
  (** the number of entries of [spec.devices.constraints] *)
  claim_Constraints : nat;
  claim_Config : list DeviceClaimConfiguration;
  claim_Allocation : option ApiAllocationResult;
}.
End Api.
Arguments CapacityRequestPolicyRange Q : clear implicits.
Arguments CapacityRequestPolicy Q : clear implicits.
Arguments DeviceCapacity Q : clear implicits.
Arguments DeviceCounterConsumption Q : clear implicits.
Arguments ApiCounterSet Q : clear implicits.
Arguments ApiDevice Q : clear implicits.
Arguments Slice Q : clear implicits.
Arguments ResourceSlice Q : clear implicits.
Arguments ExactDeviceRequest Q : clear implicits.
Arguments DeviceRequest Q : clear implicits.
Arguments DeviceRequestAllocationResult Q : clear implicits.
Arguments ApiAllocationResult Q : clear implicits.
Arguments ResourceClaim Q : clear implicits.

Definition DeviceAllocationModeExactCount : string := "ExactCount".

(** ** The CEL compiler *)

(** The input of a compiled selector. *)
Record CelDevice (Q : Type) := mkCelDevice {
  cel_Driver : string;
  cel_AllowMultipleAllocations : option bool;
  cel_Attributes : gmap string DeviceAttribute;
  cel_Capacity : gmap string (DeviceCapacity Q);
}.
Arguments mkCelDevice {Q}.
Arguments cel_Driver {Q}.
Arguments cel_AllowMultipleAllocations {Q}.
Arguments cel_Attributes {Q}.
Arguments cel_Capacity {Q}.

Class CelCompiler (Q : Type) := {
  CompilationResult : Type;
  CompileCELExpression : string → res CompilationResult;
  DeviceMatches : CompilationResult → CelDevice Q → res bool;
}.

(** An instance for the witnesses: an expression is [true], [false], or a
    value the attribute "deviceType" has to have; the empty one is invalid. *)
#[export] Instance deviceTypeCel (Q : Type) : CelCompiler Q := {|
  CompilationResult := string;
  CompileCELExpression e := if str_eqb e "!" then Err (External 90) else Ok e;
  DeviceMatches p d :=
    if str_eqb p "true" then Ok true else if str_eqb p "false" then Ok false else
    Ok (match cel_Attributes d !! "gpu.deckhouse.io/deviceType" with
        | Some a => bool_decide (da_StringValue a = Some p)
        | None => false end);
|}.
