(* ===== verification/Render.v ===== *)
(** * Publishing devices: pkg/dra/adapters/k8s/allocatable and resourceslice

    Rendering of the inventory into the slices of a pool, under the features
    the API server supports.  The theorems: every device and every counter set
    of the inventory is published exactly once, and in the inline layout a
    device that draws on a counter set is published in the slice that carries
    it. *)

From S2P Require Import Prelude GoLib DeviceModel K8sApi.

Section Render.
Context {Q : Type} `{Quantity Q}.
Local Open Scope go_scope.

(** ** allocatable/render_attributes.go, render_capacity.go, render_counters.go *)

Definition renderAttribute (val : AttributeValue) : DeviceAttribute :=
  mkDeviceAttribute (attr_Int val) (attr_Bool val) (attr_String val) None.

Definition RenderAttributes (attrs : gmap string AttributeValue) : gmap string DeviceAttribute :=
  renderAttribute <$> attrs.

Definition quantityFromCapacity (value : Z) (unit : string) : Q :=
  if str_eqb unit CapacityUnitMiB then NewQuantity (value *! 1024 *! 1024) BinarySI
  else NewQuantity value DecimalSI.

Definition quantityPtrFromCapacity (value : Z) (unit : string) : option Q :=
  Some (quantityFromCapacity value unit).

Definition renderPolicy (p : CapacityPolicy) : CapacityRequestPolicy Q :=
  mkRequestPolicy (quantityPtrFromCapacity (pol_Default p) (pol_Unit p)) []
    (Some (mkPolicyRange (quantityPtrFromCapacity (pol_Min p) (pol_Unit p))
             (quantityPtrFromCapacity (pol_Max p) (pol_Unit p))
             (quantityPtrFromCapacity (pol_Step p) (pol_Unit p)))).

Definition renderCapacity (val : CapacityValue) : DeviceCapacity Q :=
  mkDeviceCapacity (quantityFromCapacity (cap_Value val) (cap_Unit val))
    (renderPolicy <$> cap_Policy val).

Definition RenderCapacities (capacity : gmap string CapacityValue)
    : gmap string (DeviceCapacity Q) :=
  renderCapacity <$> capacity.

Definition quantityFromCounter (value : Z) (unit : string) : Q :=
  if str_eqb unit CounterUnitMiB then NewQuantity (value *! 1024 *! 1024) BinarySI
  else NewQuantity value DecimalSI.

Definition renderCounters (values : gmap string CounterValue) : gmap string Q :=
  (λ val, quantityFromCounter (ctr_Value val) (ctr_Unit val)) <$> values.

Definition RenderCounterSets (counterSets : list CounterSet) : list (ApiCounterSet Q) :=
  (λ set, mkApiCounterSet (cs_Name set) (renderCounters (cs_Counters set))) <$> counterSets.

Definition renderConsumes (consumes : list CounterConsumption)
    : list (DeviceCounterConsumption Q) :=
  (λ c, mkDeviceCounterConsumption (cc_CounterSet c) (renderCounters (cc_Counters c)))
    <$> consumes.

(** ** allocatable/render_devices.go *)

Record DeviceRenderOptions := mkRenderOptions {
  IncludeCapacity : bool;
  IncludeMultiAllocations : bool;
  IncludeBindingConditions : bool;
}.

(** [device.BindingFailureConditions] after the two [if]s. *)
Definition renderFailureConditions (spec : DeviceSpec) : list string :=
  if negb (list_len0 (spec_BindingConditions spec)) then
    (if negb (list_len0 (spec_BindingFailureConditions spec))
     then spec_BindingFailureConditions spec else [DeviceConditionBindingFailed])
  else spec_BindingFailureConditions spec.

Definition renderDeviceWithOptions (spec : DeviceSpec) (opts : DeviceRenderOptions)
    : ApiDevice Q := {|
  api_Name := spec_Name spec;
  api_Attributes := RenderAttributes (spec_Attributes spec);
  api_Capacity := if IncludeCapacity opts then RenderCapacities (spec_Capacity spec) else ∅;
  api_ConsumesCounters := renderConsumes (spec_Consumes spec);
  api_NodeName := None;
  api_AllowMultipleAllocations :=
    if IncludeMultiAllocations opts && spec_AllowMultipleAllocations spec then Some true else None;
  api_BindingConditions :=
    if IncludeBindingConditions opts then spec_BindingConditions spec else [];
  api_BindingFailureConditions :=
    if IncludeBindingConditions opts then renderFailureConditions spec else [];
|}.

Definition RenderDevicesWithOptions (devices : list Device) (opts : DeviceRenderOptions)
    : list (ApiDevice Q) :=
  (λ dev, renderDeviceWithOptions (Spec dev) opts) <$> devices.

Definition RenderDevices (devices : list Device) : list (ApiDevice Q) :=
  RenderDevicesWithOptions devices (mkRenderOptions true true true).

(** ** resourceslice/features.go *)

Inductive SharedCountersLayout := SharedCountersInline | SharedCountersSeparate.

#[export] Instance SharedCountersLayout_eq_dec : EqDecision SharedCountersLayout.
Proof. solve_decision. Defined.

Record FeatureSet := mkFeatureSet {
  PartitionableDevices : bool;
  ConsumableCapacity : bool;
  BindingConditions : bool;
  Layout : SharedCountersLayout;
}.

#[export] Instance FeatureSet_eq_dec : EqDecision FeatureSet.
Proof. solve_decision. Defined.

Definition DefaultFeatures : FeatureSet := mkFeatureSet true false false SharedCountersInline.

Definition WithSharedCountersLayout (f : FeatureSet) (layout : SharedCountersLayout)
    : FeatureSet * bool :=
  if bool_decide (Layout f = layout) then (f, false)
  else (mkFeatureSet (PartitionableDevices f) (ConsumableCapacity f) (BindingConditions f) layout,
        true).

Definition WithBindingConditions (f : FeatureSet) (enabled : bool) : FeatureSet * bool :=
  if Bool.eqb (BindingConditions f) enabled then (f, false)
  else (mkFeatureSet (PartitionableDevices f) (ConsumableCapacity f) enabled (Layout f), true).

(** The [switch] of [Enable] ([v = true]) and [Disable] ([v = false]). *)
Definition setFeature (v : bool) (acc : FeatureSet * bool) (feature : string)
    : FeatureSet * bool :=
  let '(f, changed) := acc in
  if str_eqb feature "DRAPartitionableDevices" then
    (if Bool.eqb (PartitionableDevices f) v then acc else
       (mkFeatureSet v (ConsumableCapacity f) (BindingConditions f) (Layout f), true))
  else if str_eqb feature "DRAConsumableCapacity" then
    (if Bool.eqb (ConsumableCapacity f) v then acc else
       (mkFeatureSet (PartitionableDevices f) v (BindingConditions f) (Layout f), true))
  else if str_eqb feature "DRADeviceBindingConditions" then
    (if Bool.eqb (BindingConditions f) v then acc else
       (mkFeatureSet (PartitionableDevices f) (ConsumableCapacity f) v (Layout f), true))
  else acc.

Definition Enable (f : FeatureSet) (features : list string) : FeatureSet * bool :=
  foldl (setFeature true) (f, false) features.
Definition Disable (f : FeatureSet) (features : list string) : FeatureSet * bool :=
  foldl (setFeature false) (f, false) features.

(** ** resourceslice/plan.go *)

Record sliceGroup := mkSliceGroup {
  sg_counterSets : list CounterSet;
  sg_devicesWithCounters : list Device;
  sg_devicesNoConsumption : list Device;
}.
Definition emptyGroup : sliceGroup := mkSliceGroup [] [] [].

Record slicePlan := mkSlicePlan {
  sp_groups : gmap string sliceGroup;
  sp_standalone : list Device;
}.

(** [plan.group(key)] followed by an update of the group it returns. *)
Definition updateGroup (key : string) (f : sliceGroup → sliceGroup) (p : slicePlan) : slicePlan :=
  mkSlicePlan (<[key := f (default emptyGroup (sp_groups p !! key))]> (sp_groups p))
    (sp_standalone p).

Definition addSet (set : CounterSet) (g : sliceGroup) : sliceGroup :=
  mkSliceGroup (sg_counterSets g ++ [set]) (sg_devicesWithCounters g) (sg_devicesNoConsumption g).
Definition addConsumer (dev : Device) (g : sliceGroup) : sliceGroup :=
  mkSliceGroup (sg_counterSets g) (sg_devicesWithCounters g ++ [dev]) (sg_devicesNoConsumption g).
Definition addPlain (dev : Device) (g : sliceGroup) : sliceGroup :=
  mkSliceGroup (sg_counterSets g) (sg_devicesWithCounters g) (sg_devicesNoConsumption g ++ [dev]).

Definition counterSetKeyFromConsumes (consumes : list CounterConsumption) : option string :=
  match consumes with
  | [] => None
  | c :: _ => if str_eqb (cc_CounterSet c) "" then None else Some (cc_CounterSet c)
  end.

(** The empty string is "no group". *)
Definition groupKeyFromAttrs (attrs : gmap string AttributeValue)
    (groups : gmap string sliceGroup) : string :=
  match attrs !! AttrPCIAddress with
  | Some (mkAttributeValue (Some pci) _ _) =>
      let key := CounterSetNameForPCI pci in
      if str_eqb key "" then "" else
      match groups !! key with Some _ => key | None => "" end
  | _ => ""
  end.

Definition placeSet (p : slicePlan) (set : CounterSet) : slicePlan :=
  updateGroup (cs_Name set) (addSet set) p.

Definition placeDevice (p : slicePlan) (dev : Device) : slicePlan :=
  match counterSetKeyFromConsumes (dev_consumes dev) with
  | Some key => updateGroup key (addConsumer dev) p
  | None =>
      let key := groupKeyFromAttrs (dev_attributes dev) (sp_groups p) in
      if negb (str_eqb key "") then updateGroup key (addPlain dev) p
      else mkSlicePlan (sp_groups p) (sp_standalone p ++ [dev])
  end.

Definition buildSlicePlan (inv : Inventory) : slicePlan :=
  foldl placeDevice (foldl placeSet (mkSlicePlan ∅ []) (inv_CounterSets inv)) (inv_Devices inv).

Definition groupKeys (p : slicePlan) : list string := sort_Strings (map_to_list (sp_groups p)).*1.

(** ** resourceslice/plan_render.go *)

Definition renderGroup (opts : DeviceRenderOptions) (layout : SharedCountersLayout)
    (g : sliceGroup) : list (Slice Q) :=
  match layout with
  | SharedCountersSeparate =>
      (if negb (list_len0 (sg_counterSets g))
       then [mkSlice (RenderCounterSets (sg_counterSets g)) []] else []) ++
      (if negb (list_len0 (sg_devicesNoConsumption g)) || negb (list_len0 (sg_devicesWithCounters g))
       then [mkSlice [] (RenderDevicesWithOptions
               (sg_devicesNoConsumption g ++ sg_devicesWithCounters g) opts)] else [])
  | SharedCountersInline =>
      (if negb (list_len0 (sg_devicesNoConsumption g))
       then [mkSlice [] (RenderDevicesWithOptions (sg_devicesNoConsumption g) opts)] else []) ++
      (if negb (list_len0 (sg_counterSets g)) || negb (list_len0 (sg_devicesWithCounters g))
       then [mkSlice (RenderCounterSets (sg_counterSets g))
               (RenderDevicesWithOptions (sg_devicesWithCounters g) opts)] else [])
  end.

Definition renderSlicePlan (plan : slicePlan) (opts : DeviceRenderOptions)
    (layout : SharedCountersLayout) : list (Slice Q) :=
  let slices :=
    concat ((λ key, renderGroup opts layout (default emptyGroup (sp_groups plan !! key)))
              <$> groupKeys plan) ++
    (if negb (list_len0 (sp_standalone plan))
     then [mkSlice [] (RenderDevicesWithOptions (sp_standalone plan) opts)] else []) in
  if list_len0 slices then [mkSlice [] []] else slices.

(** ** resourceslice/render.go *)

Definition filterInventory (inv : Inventory) (features : FeatureSet) : Inventory :=
  if negb (PartitionableDevices features)
  then mkInventory (FilterByType (inv_Devices inv) DeviceTypePhysical) []
  else inv.

Definition renderOptions (features : FeatureSet) : DeviceRenderOptions :=
  mkRenderOptions (ConsumableCapacity features) (ConsumableCapacity features)
    (BindingConditions features).

Definition Render (features : FeatureSet) (inv : Inventory) : list (Slice Q) :=
  let inv := filterInventory inv features in
  let opts := renderOptions features in
  if list_len0 (inv_CounterSets inv) then
    [mkSlice [] (RenderDevicesWithOptions (inv_Devices inv) opts)]
  else renderSlicePlan (buildSlicePlan inv) opts (Layout features).

(** The pools of [DriverResources]: one, with the rendered slices. *)
Definition BuildDriverResources (poolName : string) (inv : Inventory) (features : FeatureSet)
    : gmap string (list (Slice Q)) :=
  {[ poolName := Render features inv ]}.

(** ** Lemmas: what a plan holds *)

(** The entries of all the groups under a view of a group. *)
Definition inGroups {A} (view : sliceGroup → list A) (groups : gmap string sliceGroup) : list A :=
  concat ((λ kg, view kg.2) <$> map_to_list groups).

Definition groupDevices (g : sliceGroup) : list Device :=
  sg_devicesNoConsumption g ++ sg_devicesWithCounters g.

Definition placedDevices (p : slicePlan) : list Device :=
  inGroups groupDevices (sp_groups p) ++ sp_standalone p.

Lemma inGroups_insert {A} (view : sliceGroup → list A) groups key g :
  groups !! key = None → inGroups view (<[key := g]> groups) ≡ₚ view g ++ inGroups view groups.
Proof.
  intros Hkey. unfold inGroups. rewrite map_to_list_insert by done. csimpl. done.
Qed.

Lemma inGroups_update {A} (view : sliceGroup → list A) groups key f (l : list A) :
  view emptyGroup = [] → (∀ g, view (f g) ≡ₚ view g ++ l) →
  inGroups view (<[key := f (default emptyGroup (groups !! key))]> groups)
    ≡ₚ inGroups view groups ++ l.
Proof.
  intros Hempty Hf. destruct (groups !! key) as [g|] eqn:Hg; simpl.
  - rewrite <- insert_delete_eq, inGroups_insert by apply lookup_delete_eq. rewrite Hf.
    rewrite <- (insert_delete_id groups key g Hg) at 2.
    rewrite inGroups_insert by apply lookup_delete_eq.
    by rewrite <- !app_assoc, (Permutation_app_comm l).
  - rewrite inGroups_insert by done. rewrite Hf, Hempty. simpl. apply Permutation_app_comm.
Qed.

Lemma inGroups_same {A} (view : sliceGroup → list A) groups key f :
  view emptyGroup = [] → (∀ g, view (f g) = view g) →
  inGroups view (<[key := f (default emptyGroup (groups !! key))]> groups) ≡ₚ inGroups view groups.
Proof.
  intros Hempty Hf. rewrite (inGroups_update view groups key f []); [by rewrite app_nil_r|done|].
  intros g. by rewrite Hf, app_nil_r.
Qed.

Lemma placeDevice_devices p dev : placedDevices (placeDevice p dev) ≡ₚ placedDevices p ++ [dev].
Proof.
  unfold placedDevices, placeDevice, updateGroup.
  destruct (counterSetKeyFromConsumes _) as [key|]; simpl.
  - rewrite (inGroups_update groupDevices _ key (addConsumer dev) [dev]); [|done|].
    + by rewrite <- !app_assoc, (Permutation_app_comm [dev]).
    + intros g. unfold groupDevices. simpl. by rewrite app_assoc.
  - set (key := groupKeyFromAttrs _ _). destruct (negb _); simpl; [|by rewrite app_assoc].
    rewrite (inGroups_update groupDevices _ key (addPlain dev) [dev]); [|done|].
    + by rewrite <- !app_assoc, (Permutation_app_comm [dev]).
    + intros g. unfold groupDevices. simpl.
      by rewrite <- !app_assoc, (Permutation_app_comm [dev]).
Qed.

Lemma placeDevice_sets p dev :
  inGroups sg_counterSets (sp_groups (placeDevice p dev)) ≡ₚ inGroups sg_counterSets (sp_groups p).
Proof.
  unfold placeDevice, updateGroup. destruct (counterSetKeyFromConsumes _) as [key|]; simpl.
  - by apply inGroups_same.
  - destruct (negb _); simpl; [by apply inGroups_same|done].
Qed.

Lemma buildSlicePlan_holds inv :
  placedDevices (buildSlicePlan inv) ≡ₚ inv_Devices inv ∧
  inGroups sg_counterSets (sp_groups (buildSlicePlan inv)) ≡ₚ inv_CounterSets inv.
Proof.
  unfold buildSlicePlan. set (p0 := foldl placeSet _ _).
  assert (placedDevices p0 ≡ₚ [] ∧ inGroups sg_counterSets (sp_groups p0) ≡ₚ inv_CounterSets inv)
    as [Hd Hs].
  { subst p0. induction (inv_CounterSets inv) as [|set sets IH] using rev_ind; [done|].
    rewrite foldl_snoc. destruct IH as [Hd Hs]. set (p := foldl placeSet _ sets) in *. split.
    - rewrite <- Hd. unfold placedDevices, placeSet, updateGroup. simpl.
      by rewrite inGroups_same.
    - unfold placeSet, updateGroup. simpl. rewrite (inGroups_update _ _ _ (addSet set) [set]); [|done|done].
      by rewrite Hs. }
  clearbody p0. rewrite <- Hs. clear Hs.
  induction (inv_Devices inv) as [|dev devs IH] using rev_ind; [done|].
  rewrite foldl_snoc. destruct IH as [IHd IHs]. split.
  - by rewrite placeDevice_devices, IHd.
  - by rewrite placeDevice_sets.
Qed.

(** ** Lemmas: what the slices carry *)

Definition allDevices (slices : list (Slice Q)) : list (ApiDevice Q) := concat (sl_Devices <$> slices).
Definition allCounters (slices : list (Slice Q)) : list (ApiCounterSet Q) :=
  concat (sl_SharedCounters <$> slices).

Lemma allDevices_app l1 l2 : allDevices (l1 ++ l2) = allDevices l1 ++ allDevices l2.
Proof. unfold allDevices. by rewrite fmap_app, concat_app. Qed.
Lemma allCounters_app l1 l2 : allCounters (l1 ++ l2) = allCounters l1 ++ allCounters l2.
Proof. unfold allCounters. by rewrite fmap_app, concat_app. Qed.

Lemma allDevices_concat ls : allDevices (concat ls) = concat (allDevices <$> ls).
Proof. induction ls; csimpl; [done|]. by rewrite allDevices_app, IHls. Qed.
Lemma allCounters_concat ls : allCounters (concat ls) = concat (allCounters <$> ls).
Proof. induction ls; csimpl; [done|]. by rewrite allCounters_app, IHls. Qed.

Lemma renderGroup_carries opts layout g :
  allDevices (renderGroup opts layout g) = RenderDevicesWithOptions (groupDevices g) opts ∧
  allCounters (renderGroup opts layout g) = RenderCounterSets (sg_counterSets g).
Proof.
  destruct g as [[|s ss] [|w ws] [|n ns]], layout; unfold allDevices, allCounters,
    RenderDevicesWithOptions, RenderCounterSets, groupDevices; csimpl;
    unfold RenderDevicesWithOptions; rewrite ?app_nil_r, ?fmap_app; done.
Qed.

Lemma concat_keys {A} (F : sliceGroup → list A) groups keys :
  keys ≡ₚ (map_to_list groups).*1 →
  concat ((λ key, F (default emptyGroup (groups !! key))) <$> keys) ≡ₚ inGroups F groups.
Proof.
  intros ->. unfold inGroups. rewrite <- list_fmap_compose.
  erewrite list_fmap_ext; [done|]. intros i [k g] Hkg. simpl.
  apply list_elem_of_lookup_2, elem_of_map_to_list in Hkg. by rewrite Hkg.
Qed.

Lemma inGroups_fmap {A B} (F : sliceGroup → list A) (h : A → B) groups :
  inGroups (λ g, h <$> F g) groups = h <$> inGroups F groups.
Proof.
  unfold inGroups. induction (map_to_list groups) as [|kg l IH]; csimpl; [done|].
  by rewrite IH, fmap_app.
Qed.

Lemma renderSlicePlan_carries plan opts layout :
  allDevices (renderSlicePlan plan opts layout) ≡ₚ RenderDevicesWithOptions (placedDevices plan) opts ∧
  allCounters (renderSlicePlan plan opts layout)
    ≡ₚ RenderCounterSets (inGroups sg_counterSets (sp_groups plan)).
Proof.
  unfold renderSlicePlan. set (slices := concat _ ++ _).
  assert (allDevices (if list_len0 slices then [mkSlice [] []] else slices) = allDevices slices ∧
          allCounters (if list_len0 slices then [mkSlice [] []] else slices) = allCounters slices)
    as [-> ->] by (by destruct slices).
  subst slices. rewrite allDevices_app, allCounters_app, allDevices_concat, allCounters_concat.
  rewrite <- !list_fmap_compose.
  assert (groupKeys plan ≡ₚ (map_to_list (sp_groups plan)).*1) as Hk by apply sort_Strings_perm.
  split.
  - rewrite (concat_keys (λ g, allDevices (renderGroup opts layout g)) _ _ Hk).
    unfold placedDevices, RenderDevicesWithOptions. rewrite fmap_app, <- inGroups_fmap.
    apply Permutation_app.
    + apply reflexive_eq. unfold inGroups. f_equal. apply list_fmap_ext. intros _ kg _.
      apply renderGroup_carries.
    + destruct (sp_standalone plan); unfold allDevices; csimpl; by rewrite ?app_nil_r.
  - rewrite (concat_keys (λ g, allCounters (renderGroup opts layout g)) _ _ Hk).
    unfold RenderCounterSets. rewrite <- inGroups_fmap.
    assert (allCounters (if negb (list_len0 (sp_standalone plan))
      then [mkSlice [] (RenderDevicesWithOptions (sp_standalone plan) opts)] else []) = []) as ->
      by (by destruct (sp_standalone plan)).
    rewrite app_nil_r. apply reflexive_eq. unfold inGroups. f_equal. apply list_fmap_ext.
    intros _ kg _. apply renderGroup_carries.
Qed.

(** The slices of a pool carry every device of the inventory (every
    physical one, when partitionable devices are off) exactly once, rendered
    with the enabled features, and every counter set exactly once. *)
Theorem Render_publishes features inv :
  let inv' := filterInventory inv features in
  allDevices (Render features inv)
    ≡ₚ RenderDevicesWithOptions (inv_Devices inv') (renderOptions features) ∧
  allCounters (Render features inv) ≡ₚ RenderCounterSets (inv_CounterSets inv').
Proof.
  simpl. unfold Render. set (inv' := filterInventory inv features).
  destruct (list_len0 (inv_CounterSets inv')) eqn:Hsets.
  - apply list_len0_true in Hsets. rewrite Hsets. unfold allDevices, allCounters. csimpl.
    by rewrite app_nil_r.
  - destruct (renderSlicePlan_carries (buildSlicePlan inv') (renderOptions features) (Layout features))
      as [-> ->].
    destruct (buildSlicePlan_holds inv') as [Hd Hs]. unfold RenderDevicesWithOptions, RenderCounterSets.
    by rewrite Hd, Hs.
Qed.

(** ** Lemmas: where a plan puts a set and its consumers *)

(** The group of [key] has the set and the consumer. *)
Definition hasSet (key : string) (set : CounterSet) (p : slicePlan) : Prop :=
  ∃ g, sp_groups p !! key = Some g ∧ set ∈ sg_counterSets g.
Definition hasConsumer (key : string) (dev : Device) (p : slicePlan) : Prop :=
  ∃ g, sp_groups p !! key = Some g ∧ dev ∈ sg_devicesWithCounters g.

Definition extends (f : sliceGroup → sliceGroup) : Prop := ∀ g,
  sg_counterSets g ⊆ sg_counterSets (f g) ∧
  sg_devicesWithCounters g ⊆ sg_devicesWithCounters (f g).

Lemma updateGroup_keeps f k p key : extends f →
  (∀ set, hasSet key set p → hasSet key set (updateGroup k f p)) ∧
  (∀ dev, hasConsumer key dev p → hasConsumer key dev (updateGroup k f p)).
Proof.
  intros Hf. unfold hasSet, hasConsumer, updateGroup.
  split; intros x (g & Hg & Hx); simpl; destruct (decide (k = key)) as [->|Hne];
    rewrite ?lookup_insert_eq, ?lookup_insert_ne by done; eauto;
    rewrite Hg; simpl; eexists; (split; [done|]); by apply Hf.
Qed.

Lemma placeSet_extends set : extends (addSet set).
Proof. intros g. simpl. set_solver. Qed.
Lemma addConsumer_extends dev : extends (addConsumer dev).
Proof. intros g. simpl. set_solver. Qed.
Lemma addPlain_extends dev : extends (addPlain dev).
Proof. intros g. simpl. set_solver. Qed.

Lemma placeDevice_keeps p dev key :
  (∀ set, hasSet key set p → hasSet key set (placeDevice p dev)) ∧
  (∀ d, hasConsumer key d p → hasConsumer key d (placeDevice p dev)).
Proof.
  unfold placeDevice. destruct (counterSetKeyFromConsumes _).
  - apply updateGroup_keeps, addConsumer_extends.
  - destruct (negb _); [apply updateGroup_keeps, addPlain_extends|]. done.
Qed.

Lemma buildSlicePlan_places inv dev key set :
  dev ∈ inv_Devices inv → counterSetKeyFromConsumes (dev_consumes dev) = Some key →
  set ∈ inv_CounterSets inv → cs_Name set = key →
  ∃ g, sp_groups (buildSlicePlan inv) !! key = Some g ∧
       set ∈ sg_counterSets g ∧ dev ∈ sg_devicesWithCounters g.
Proof.
  intros Hdev Hkey Hset Hname. unfold buildSlicePlan. set (p0 := foldl placeSet _ _).
  assert (hasSet key set p0) as H0.
  { subst p0. induction (inv_CounterSets inv) as [|s sets IH] using rev_ind; [by apply elem_of_nil in Hset|].
    rewrite foldl_snoc. apply elem_of_app in Hset as [Hset|Hset%list_elem_of_singleton].
    - by apply updateGroup_keeps; [apply placeSet_extends|apply IH].
    - subst s. unfold hasSet, placeSet, updateGroup. simpl. rewrite Hname, lookup_insert_eq.
      eexists. split; [done|]. set_solver. }
  clearbody p0.
  assert (hasSet key set (foldl placeDevice p0 (inv_Devices inv)) ∧
          hasConsumer key dev (foldl placeDevice p0 (inv_Devices inv))) as [(g & Hg & ?) (g' & Hg' & ?)].
  { clear Hset. induction (inv_Devices inv) as [|d devs IH] using rev_ind; [by apply elem_of_nil in Hdev|].
    rewrite foldl_snoc. split.
    - apply placeDevice_keeps. clear -H0. induction devs as [|d' devs IH] using rev_ind; [done|].
      rewrite foldl_snoc. by apply placeDevice_keeps.
    - apply elem_of_app in Hdev as [Hdev|Hdev%list_elem_of_singleton].
      + by apply placeDevice_keeps, IH.
      + subst d. unfold hasConsumer, placeDevice, updateGroup. rewrite Hkey. simpl.
        rewrite lookup_insert_eq. eexists. split; [done|]. set_solver. }
  exists g. by simplify_eq.
Qed.

(** In the inline layout a device that draws on a counter set of the
    inventory is published in a slice that carries the set. *)
Theorem Render_inline features inv dev key set :
  PartitionableDevices features = true → Layout features = SharedCountersInline →
  dev ∈ inv_Devices inv → counterSetKeyFromConsumes (dev_consumes dev) = Some key →
  set ∈ inv_CounterSets inv → cs_Name set = key →
  ∃ s, s ∈ Render features inv ∧
    renderDeviceWithOptions (Spec dev) (renderOptions features) ∈ sl_Devices s ∧
    mkApiCounterSet key (renderCounters (cs_Counters set)) ∈ sl_SharedCounters s.
Proof.
  intros Hpart Hlay Hdev Hkey Hset Hname.
  destruct (buildSlicePlan_places inv dev key set Hdev Hkey Hset Hname) as (g & Hg & Hs & Hd).
  unfold Render, filterInventory. rewrite Hpart, Hlay. simpl.
  destruct (list_len0 (inv_CounterSets inv)) eqn:Hl.
  { apply list_len0_true in Hl. rewrite Hl in Hset. by apply elem_of_nil in Hset. }
  exists (mkSlice (RenderCounterSets (sg_counterSets g))
            (RenderDevicesWithOptions (sg_devicesWithCounters g) (renderOptions features))).
  split; [|split].
  - unfold renderSlicePlan. set (slices := concat _ ++ _).
    assert (mkSlice (RenderCounterSets (sg_counterSets g))
      (RenderDevicesWithOptions (sg_devicesWithCounters g) (renderOptions features)) ∈ slices) as Hin.
    { subst slices. apply elem_of_app. left. apply list_elem_of_In, in_concat.
      exists (renderGroup (renderOptions features) SharedCountersInline g). split.
      - apply list_elem_of_In, list_elem_of_fmap. exists key. rewrite Hg. split; [done|].
        unfold groupKeys. rewrite sort_Strings_perm. apply list_elem_of_fmap. exists (key, g).
        by rewrite elem_of_map_to_list.
      - apply list_elem_of_In. destruct g as [[|] [|] n]; simpl in *; try by apply elem_of_nil in Hs.
        + by apply elem_of_nil in Hd.
        + apply elem_of_app. right. left. }
    destruct slices; [by apply elem_of_nil in Hin|done].
  - simpl. unfold RenderDevicesWithOptions. apply list_elem_of_fmap. eauto.
  - simpl. unfold RenderCounterSets. apply list_elem_of_fmap. exists set. by rewrite Hname.
Qed.
End Render.
