(* ===== verification/K8sAllocator.v ===== *)
(** * Allocator inputs and outputs: pkg/dra/adapters/k8s/allocator

    Resource slices become candidates and counter sets, the requests of a
    claim become allocator requests with compiled selectors, and an allocation
    becomes the status of the claim. *)

From S2P Require Import Prelude GoLib DeviceModel Accounting Allocator K8sApi Render.

Section Adapter.
Context {Q : Type} `{Quantity Q} `{GoSort} `{CelCompiler Q}.

(** ** allocation_quantity.go *)

(** [quantityValue] of this package: a nil pointer is zero. *)
Definition apiQuantityValue (qty : option Q) (unit : string) : Z :=
  match qty with
  | None => 0
  | Some q => if str_eqb unit CapacityUnitMiB then Z.quot (Value q) (1024 * 1024) else Value q
  end.

Definition capacityValueFromQuantity (qty : Q) (policy : option (CapacityRequestPolicy Q))
    : CapacityValue :=
  let '(unit, value) :=
    if bool_decide (QFormat qty = BinarySI)
    then (CapacityUnitMiB, Z.quot (Value qty) (1024 * 1024))
    else (CapacityUnitCount, Value qty) in
  mkCapacityValue value unit
    ((λ p,
        let '(min, max, step) := match rp_ValidRange p with
          | Some r => (apiQuantityValue (pr_Min r) unit, apiQuantityValue (pr_Max r) unit,
                       apiQuantityValue (pr_Step r) unit)
          | None => (0, 0, 0)
          end in
        mkCapacityPolicy (apiQuantityValue (rp_Default p) unit) min max step unit) <$> policy).

Definition counterValueFromQuantity (qty : Q) : CounterValue :=
  if bool_decide (QFormat qty = BinarySI)
  then mkCounterValue (Z.quot (Value qty) (1024 * 1024)) CounterUnitMiB
  else mkCounterValue (Value qty) CounterUnitCount.

(** ** convert.go *)

Definition toAttributes (attrs : gmap string DeviceAttribute) : gmap string AttributeValue :=
  (λ val, mkAttributeValue (da_StringValue val) (da_IntValue val) (da_BoolValue val)) <$> attrs.

Definition toCapacities (capacity : gmap string (DeviceCapacity Q)) : gmap string CapacityValue :=
  (λ val, capacityValueFromQuantity (dcap_Value val) (dcap_RequestPolicy val)) <$> capacity.

Definition toCounters (counters : gmap string Q) : gmap string CounterValue :=
  counterValueFromQuantity <$> counters.

Definition toConsumes (consumes : list (DeviceCounterConsumption Q)) : list CounterConsumption :=
  (λ c, mkCounterConsumption (dcc_CounterSet c) (toCounters (dcc_Counters c))) <$> consumes.

Definition toCounterSet (counterSet : ApiCounterSet Q) : CounterSet :=
  mkCounterSet (acs_Name counterSet) (toCounters (acs_Counters counterSet)).

Definition toDeviceSpec (device : ApiDevice Q) : DeviceSpec := {|
  spec_Name := api_Name device;
  spec_Attributes := toAttributes (api_Attributes device);
  spec_Capacity := toCapacities (api_Capacity device);
  spec_Consumes := toConsumes (api_ConsumesCounters device);
  spec_AllowMultipleAllocations := default false (api_AllowMultipleAllocations device);
  spec_BindingConditions := api_BindingConditions device;
  spec_BindingFailureConditions := api_BindingFailureConditions device;
|}.

(** ** pool_filter.go *)

Record poolGen := mkPoolGen { pg_expected : Z; pg_slices : list (ResourceSlice Q) }.

(** One turn of the first loop: [pools] maps a pool and a generation to what
    was seen of it. *)
Definition addSlice (driverName : string) (pools : gmap string (gmap Z poolGen))
    (slice : ResourceSlice Q) : gmap string (gmap Z poolGen) :=
  if negb (str_eqb (rs_Driver slice) driverName) then pools else
  if str_eqb (rs_PoolName slice) "" then pools else
  if rs_PoolResourceSliceCount slice <? 1 then pools else
  let gens := default ∅ (pools !! rs_PoolName slice) in
  let entry := default (mkPoolGen (rs_PoolResourceSliceCount slice) [])
                 (gens !! rs_PoolGeneration slice) in
  <[rs_PoolName slice :=
      <[rs_PoolGeneration slice := mkPoolGen (pg_expected entry) (pg_slices entry ++ [slice])]> gens]>
    pools.

(** [max] after the loop over the generations of a pool. *)
Definition maxEntry (gens : list (Z * poolGen)) : Z * option poolGen :=
  foldl (λ max '(gen, data), if max.1 <=? gen then (gen, Some data) else max) (0, None) gens.

Definition poolSlices (gens : gmap Z poolGen) : list (ResourceSlice Q) :=
  match (maxEntry (map_to_list gens)).2 with
  | None => []
  | Some data =>
      if negb (Z.of_nat (length (pg_slices data)) =? pg_expected data) then [] else pg_slices data
  end.

Definition lessSlice (a b : ResourceSlice Q) : bool := str_ltb (rs_Name a) (rs_Name b).

Definition filterPoolSlices (driverName : string) (slices : list (ResourceSlice Q))
    : list (ResourceSlice Q) :=
  let pools := foldl (addSlice driverName) ∅ slices in
  sort_Slice lessSlice (concat ((λ p, poolSlices p.2) <$> map_to_list pools)).

(** [None] is the result ["", false]. *)
Definition sliceNodeName (slice : ResourceSlice Q) : option string :=
  match rs_NodeName slice with
  | Some n => if str_eqb n "" then None else Some n
  | None => None
  end.

Definition deviceNodeName (slice : ResourceSlice Q) (device : ApiDevice Q) : option string :=
  match sliceNodeName slice with
  | Some n => Some n
  | None =>
      if default false (rs_PerDeviceNodeSelection slice) then
        match api_NodeName device with
        | Some n => if str_eqb n "" then None else Some n
        | None => None
        end
      else None
  end.

(** ** candidates.go, countersets.go *)

Definition candidateOf (slice : ResourceSlice Q) (device : ApiDevice Q) : option CandidateDevice :=
  nodeName ← deviceNodeName slice device;
  Some (mkCandidate (mkDeviceKey (rs_Driver slice) (rs_PoolName slice) (api_Name device))
          (rs_Driver slice) (rs_PoolName slice) nodeName (toDeviceSpec device)).

Definition lessCandidate (a b : CandidateDevice) : bool :=
  if str_eqb (cd_NodeName a) (cd_NodeName b)
  then str_ltb (spec_Name (cd_Spec a)) (spec_Name (cd_Spec b))
  else str_ltb (cd_NodeName a) (cd_NodeName b).

Definition BuildCandidates (driverName : string) (slices : list (ResourceSlice Q))
    : list CandidateDevice :=
  sort_Slice lessCandidate
    (concat ((λ slice, omap (candidateOf slice) (rs_Devices slice)) <$> filterPoolSlices driverName slices)).

Definition addCounterSet (sets : gmap string CounterSet) (set : ApiCounterSet Q)
    : gmap string CounterSet :=
  if str_eqb (acs_Name set) "" then sets else <[acs_Name set := toCounterSet set]> sets.

Definition addCounterSets (out : CounterSetInventory) (slice : ResourceSlice Q)
    : CounterSetInventory :=
  if list_len0 (rs_SharedCounters slice) then out else
  match sliceNodeName slice with
  | None => out
  | Some nodeName =>
      <[nodeName := foldl addCounterSet (default ∅ (out !! nodeName)) (rs_SharedCounters slice)]> out
  end.

Definition BuildCounterSets (driverName : string) (slices : list (ResourceSlice Q))
    : CounterSetInventory :=
  foldl addCounterSets ∅ (filterPoolSlices driverName slices).

(** ** selectors.go *)

Definition celSelector (expr : string) (program : CompilationResult) : Selector := λ driver spec,
  match DeviceMatches program
          (mkCelDevice driver (Some (spec_AllowMultipleAllocations spec))
             (RenderAttributes (spec_Attributes spec)) (RenderCapacities (spec_Capacity spec))) with
  | Err e => Err (Wrapf "selector %q failed: %w" [expr] e)
  | Ok ok => Ok ok
  end.

(** The text of a compilation error is not kept. *)
Fixpoint compileSelectors (selectors : list DeviceSelector) : res (list Selector) :=
  match selectors with
  | [] => Ok []
  | sel :: rest =>
      match sel_CEL sel with
      | None => Err (Errorf "only CEL selectors are supported" [])
      | Some expr =>
          if str_eqb expr "" then Err (Errorf "only CEL selectors are supported" []) else
          match CompileCELExpression expr with
          | Err _ => Err (Errorf "invalid selector %q: %v" [expr])
          | Ok program => rest' ← compileSelectors rest; Ok (celSelector expr program :: rest')
          end
      end
  end.

(** ** requests.go *)

Definition capacityRequests (requests : gmap string Q) : gmap string Q := requests.

(** One turn of the loop of [BuildRequests]. *)
Definition buildRequest (classes : gmap string DeviceClass) (req : DeviceRequest Q)
    : res (Request Q) :=
  let name := dr_Name req in
  match dr_Exactly req with
  | None => Err (Errorf "firstAvailable requests are not supported yet" [])
  | Some ex =>
      let className := ex_DeviceClassName ex in
      if str_eqb className "" then Err (Errorf "request %q has empty deviceClassName" [name]) else
      if default false (ex_AdminAccess ex)
      then Err (Errorf "request %q admin access is not supported yet" [name]) else
      let capacityReq := match ex_Capacity ex with
        | Some requests =>
            if map_len0 requests then None
            else Some (mkCapacityRequirements (capacityRequests requests))
        | None => None
        end in
      match classes !! className with
      | None => Err (Errorf "deviceclass %q not found" [className])
      | Some class =>
          let mode := if str_eqb (ex_AllocationMode ex) "" then DeviceAllocationModeExactCount
                      else ex_AllocationMode ex in
          if negb (str_eqb mode DeviceAllocationModeExactCount)
          then Err (Errorf "request %q allocation mode %q is not supported yet" [name; mode]) else
          let count := if ex_Count ex =? 0 then 1 else ex_Count ex in
          if count <? 1 then Err (Errorf "request %q count must be positive" [name]) else
          match compileSelectors (class_Selectors class ++ ex_Selectors ex) with
          | Err e => Err (Wrapf "request %q: %w" [name] e)
          | Ok selectors => Ok (mkRequest name count selectors capacityReq)
          end
      end
  end.

Fixpoint buildRequests (classes : gmap string DeviceClass) (requests : list (DeviceRequest Q))
    : res (list (Request Q)) :=
  match requests with
  | [] => Ok []
  | req :: rest => r ← buildRequest classes req; rest' ← buildRequests classes rest; Ok (r :: rest')
  end.

Definition BuildRequests (claim : option (ResourceClaim Q)) (classes : gmap string DeviceClass)
    : res (list (Request Q)) :=
  match claim with
  | None => Ok []
  | Some claim =>
      if negb (claim_Constraints claim =? 0)%nat
      then Err (Errorf "device constraints are not supported yet" [])
      else buildRequests classes (claim_Requests claim)
  end.

(** ** allocation_config.go *)

Definition configFromClass (req : DeviceRequest Q) (class : DeviceClass)
    : list DeviceAllocationConfiguration :=
  mkAllocationConfiguration AllocationConfigSourceClass [dr_Name req] <$> class_Config class.

Fixpoint classConfigs (classes : gmap string DeviceClass) (requests : list (DeviceRequest Q))
    : res (list DeviceAllocationConfiguration) :=
  match requests with
  | [] => Ok []
  | req :: rest =>
      match dr_Exactly req with
      | None => classConfigs classes rest
      | Some ex =>
          if str_eqb (ex_DeviceClassName ex) "" then classConfigs classes rest else
          match classes !! ex_DeviceClassName ex with
          | None => Err (Errorf "deviceclass %q not found" [ex_DeviceClassName ex])
          | Some class => rest' ← classConfigs classes rest; Ok (configFromClass req class ++ rest')
          end
      end
  end.

Definition buildAllocationConfig (claim : option (ResourceClaim Q))
    (classes : gmap string DeviceClass) : res (list DeviceAllocationConfiguration) :=
  match claim with
  | None => Ok []
  | Some claim =>
      if list_len0 (claim_Requests claim) then Ok [] else
      fromClasses ← classConfigs classes (claim_Requests claim);
      Ok (((λ c, mkAllocationConfiguration AllocationConfigSourceClaim (dcl_Requests c)
                   (dcl_Configuration c)) <$> claim_Config claim) ++ fromClasses)
  end.

(** ** allocation_helpers.go, allocation_result.go *)

Definition consumedCapacity (consumed : gmap string Q) : gmap string Q := consumed.

Definition nodeSelectorForNode (nodeName : string) : option NodeSelector :=
  if str_eqb nodeName "" then None else Some (mkNodeSelector "metadata.name" "In" [nodeName]).

Record AllocationOptions := mkAllocationOptions {
  IncludeBindingConditionsOpt : bool;
  IncludeAllocationTimestamp : bool;
}.

(** [newUUID] is the identifier [uuid.NewUUID] generates for this device. *)
Definition resultOf (opts : AllocationOptions) (newUUID : string) (dev : AllocatedDevice Q)
    : DeviceRequestAllocationResult Q :=
  let conditions := IncludeBindingConditionsOpt opts in
  let shared := negb (map_len0 (ad_ConsumedCapacity dev)) in
  {| rr_Request := ad_Request dev;
     rr_Driver := ad_Driver dev;
     rr_Pool := ad_Pool dev;
     rr_Device := ad_Device dev;
     rr_BindingConditions := if conditions then ad_BindingConditions dev else [];
     rr_BindingFailureConditions := if conditions then ad_BindingFailureConditions dev else [];
     rr_ShareID :=
       if shared then
         Some (if negb (str_eqb (ad_ShareID dev) "") then ad_ShareID dev else newUUID)
       else None;
     rr_ConsumedCapacity := if shared then consumedCapacity (ad_ConsumedCapacity dev) else ∅ |}.

(** [uuids i] is generated for the [i]-th device, [now] is the clock. *)
Definition BuildAllocationResultWithOptions (uuids : nat → string) (now : Z)
    (claim : option (ResourceClaim Q)) (alloc : option (AllocationResult Q))
    (classes : gmap string DeviceClass) (opts : AllocationOptions)
    : res (option (ApiAllocationResult Q)) :=
  match claim, alloc with
  | Some c, Some a =>
      config ← buildAllocationConfig claim classes;
      Ok (Some (mkApiAllocation
        (imap (λ i dev, resultOf opts (uuids i) dev) (ar_Devices a)) config
        (nodeSelectorForNode (ar_NodeName a))
        (if IncludeAllocationTimestamp opts then Some now else None)))
  | _, _ => Ok None
  end.
End Adapter.
Arguments poolGen Q : clear implicits.
