(* ===== verification/K8sAllocatorSpec.v ===== *)
(** * What the slice adapter promises

    Which slices count ([filterPoolSlices_spec]), what a published device is
    read back as ([render_roundtrip]) and that this changes no decision of the
    allocator, and what the requests of a claim become. *)

From S2P Require Import Prelude GoLib DeviceModel Accounting Allocator K8sApi Render K8sAllocator.

Section PoolFilter.
Context {Q : Type} `{Quantity Q} `{GoSort}.
Context (driverName : string) (slices : list (ResourceSlice Q)).

(** ** Which slices count *)

(** A slice of the driver that names its pool and the pool's size. *)
Definition eligibleSlice (s : ResourceSlice Q) : Prop :=
  rs_Driver s = driverName ∧ rs_PoolName s ≠ "" ∧ 1 ≤ rs_PoolResourceSliceCount s.

#[export] Instance eligibleSlice_dec s : Decision (eligibleSlice s).
Proof. unfold eligibleSlice. apply _. Defined.

(** The slices of one generation of a pool. *)
Definition generation (l : list (ResourceSlice Q)) (pool : string) (gen : Z) : list (ResourceSlice Q) :=
  filter (λ s, eligibleSlice s ∧ rs_PoolName s = pool ∧ rs_PoolGeneration s = gen) l.

(** All the slices of a generation are there. *)
Definition completeGen (pool : string) (gen : Z) : Prop :=
  match generation slices pool gen with
  | [] => False
  | (s :: _) as l => Z.of_nat (length l) = rs_PoolResourceSliceCount s
  end.

#[export] Instance completeGen_dec pool gen : Decision (completeGen pool gen).
Proof. unfold completeGen. destruct (generation _ _ _); apply _. Defined.

(** The newest generation of the pool, and complete. *)
Definition publishedSlice (s : ResourceSlice Q) : Prop :=
  eligibleSlice s ∧ 0 ≤ rs_PoolGeneration s ∧
  Forall (λ s', eligibleSlice s' → rs_PoolName s' = rs_PoolName s →
                rs_PoolGeneration s' ≤ rs_PoolGeneration s) slices ∧
  completeGen (rs_PoolName s) (rs_PoolGeneration s).

#[export] Instance publishedSlice_dec s : Decision (publishedSlice s).
Proof. unfold publishedSlice. apply _. Defined.

(** *** The map of pools *)

Definition genOf (l : list (ResourceSlice Q)) : option (poolGen Q) :=
  match l with [] => None | s :: _ => Some (mkPoolGen (rs_PoolResourceSliceCount s) l) end.

Lemma addSlice_eligible pools s :
  addSlice driverName pools s =
    if decide (eligibleSlice s) then
      let gens := default ∅ (pools !! rs_PoolName s) in
      let entry := default (mkPoolGen (rs_PoolResourceSliceCount s) []) (gens !! rs_PoolGeneration s) in
      <[rs_PoolName s :=
          <[rs_PoolGeneration s := mkPoolGen (pg_expected entry) (pg_slices entry ++ [s])]> gens]> pools
    else pools.
Proof.
  unfold addSlice, eligibleSlice.
  destruct (str_eqb _ driverName) eqn:E1, (str_eqb _ "") eqn:E2,
    (rs_PoolResourceSliceCount s <? 1) eqn:E3; simpl; go_bool;
    case_decide as Hd; try done; exfalso; revert Hd; intuition lia.
Qed.

Lemma generation_snoc l s pool gen :
  generation (l ++ [s]) pool gen =
    generation l pool gen ++
    (if decide (eligibleSlice s ∧ rs_PoolName s = pool ∧ rs_PoolGeneration s = gen) then [s] else []).
Proof. unfold generation. rewrite filter_app, filter_cons. by case_decide. Qed.

Lemma genOf_snoc l s :
  genOf (l ++ [s]) =
    let entry := default (mkPoolGen (rs_PoolResourceSliceCount s) []) (genOf l) in
    Some (mkPoolGen (pg_expected entry) (pg_slices entry ++ [s])).
Proof. by destruct l. Qed.

Lemma lookup_pools l pool gen :
  foldl (addSlice driverName) ∅ l !! pool ≫= (λ gens, gens !! gen) = genOf (generation l pool gen).
Proof.
  induction l as [|s l IH] using rev_ind; [done|].
  rewrite foldl_snoc, generation_snoc, addSlice_eligible. set (pools := foldl _ ∅ l) in *.
  destruct (decide (eligibleSlice s)) as [Hel|Hel]; [|rewrite decide_False, app_nil_r by tauto; done].
  simpl. destruct (decide (rs_PoolName s = pool)) as [Hp|Hp].
  - subst pool. rewrite lookup_insert_eq. simpl.
    destruct (decide (rs_PoolGeneration s = gen)) as [Hg|Hg].
    + subst gen. rewrite decide_True by done. rewrite lookup_insert_eq, genOf_snoc, <- IH.
      by destruct (pools !! rs_PoolName s).
    + rewrite lookup_insert_ne, decide_False, app_nil_r, <- IH by naive_solver.
      by destruct (pools !! rs_PoolName s).
  - rewrite lookup_insert_ne, decide_False, app_nil_r by naive_solver. done.
Qed.

Lemma pools_known l s :
  s ∈ l → eligibleSlice s → is_Some (foldl (addSlice driverName) ∅ l !! rs_PoolName s).
Proof.
  intros Hs Hel. pose proof (lookup_pools l (rs_PoolName s) (rs_PoolGeneration s)) as Hp.
  destruct (foldl _ ∅ l !! rs_PoolName s); [by eexists|]. simpl in Hp.
  assert (s ∈ generation l (rs_PoolName s) (rs_PoolGeneration s)) as Hin
    by (by apply list_elem_of_filter).
  by destruct (generation _ _ _); [apply elem_of_nil in Hin|].
Qed.

(** *** The newest generation *)

Lemma maxEntry_acc (l : list (Z * poolGen Q)) m :
  let r := foldl (λ max '(gen, data), if max.1 <=? gen then (gen, Some data) else max) m l in
  m.1 ≤ r.1 ∧ (∀ g d, (g, d) ∈ l → g ≤ r.1 ) ∧
  (r = m ∧ (∀ g d, (g, d) ∈ l → g < m.1) ∨ ∃ d, r.2 = Some d ∧ (r.1, d) ∈ l).
Proof.
  revert m. induction l as [|[g d] l IH]; intros m; cbn.
  - split; [done|]. split; [intros ?? Hin; by apply elem_of_nil in Hin|]. left. split; [done|].
    intros ?? Hin; by apply elem_of_nil in Hin.
  - destruct (Z.leb_spec m.1 g) as [Hle|Hlt].
    + destruct (IH (g, Some d)) as (H1 & H2 & H3). cbn in *. split; [lia|].
      split; [intros g' d' [[= -> ->]|?]%elem_of_cons; eauto|]. right.
      destruct H3 as [[-> _]|(d' & ? & ?)]; [exists d; split; [done|left]|].
      exists d'. split; [done|by right].
    + destruct (IH m) as (H1 & H2 & H3). split; [done|].
      split; [intros g' d' [[= -> ->]|?]%elem_of_cons; [lia|eauto]|].
      destruct H3 as [[-> H3]|(d' & ? & ?)]; [left; split; [done|]|right; exists d'; split; [done|by right]].
      intros g' d' [[= -> ->]|?]%elem_of_cons; [done|eauto].
Qed.

Lemma maxEntry_spec (gens : gmap Z (poolGen Q)) :
  match maxEntry (map_to_list gens) with
  | (g, Some d) => gens !! g = Some d ∧ 0 ≤ g ∧ ∀ g' d', gens !! g' = Some d' → g' ≤ g
  | (_, None) => ∀ g' d', gens !! g' = Some d' → g' < 0
  end.
Proof.
  unfold maxEntry. destruct (maxEntry_acc (map_to_list gens) (0, None)) as (H1 & H2 & H3).
  set (r := foldl _ _ _) in *. destruct r as [g [d|]]; simpl in *.
  - destruct H3 as [[[=] _]|(d' & [= <-] & Hd)]. apply elem_of_map_to_list in Hd.
    do 2 (split; [done|]). intros g' d' Hg'%elem_of_map_to_list. eauto.
  - destruct H3 as [[[= ->] H3]|(? & ? & _)]; [|done].
    intros g' d' Hg'%elem_of_map_to_list. eauto.
Qed.

(** *** The slices of one pool *)

Context (gens : gmap Z (poolGen Q)) (pool : string).
Hypothesis Hgens : foldl (addSlice driverName) ∅ slices !! pool = Some gens.

Lemma lookup_gens gen : gens !! gen = genOf (generation slices pool gen).
Proof. by rewrite <- lookup_pools, Hgens. Qed.

Lemma gens_known s : s ∈ slices → eligibleSlice s → rs_PoolName s = pool →
  ∃ d, gens !! rs_PoolGeneration s = Some d.
Proof.
  intros Hs Hel Hp. rewrite lookup_gens.
  assert (s ∈ generation slices pool (rs_PoolGeneration s)) as Hin by (by apply list_elem_of_filter).
  destruct (generation _ _ _); [by apply elem_of_nil in Hin|by eexists].
Qed.

Lemma completeGen_lookup gen d : gens !! gen = Some d →
  generation slices pool gen = pg_slices d ∧
  (completeGen pool gen ↔ Z.of_nat (length (pg_slices d)) = pg_expected d) ∧
  ∃ s, s ∈ slices ∧ eligibleSlice s ∧ rs_PoolName s = pool ∧ rs_PoolGeneration s = gen.
Proof.
  rewrite lookup_gens. unfold completeGen. intros Hd.
  destruct (generation slices pool gen) as [|s l] eqn:Hl; [done|]. simplify_eq/=.
  do 2 (split; [done|]). exists s. assert (s ∈ generation slices pool gen) as Hs by (rewrite Hl; left).
  apply list_elem_of_filter in Hs as [(? & ? & ?) ?]. done.
Qed.

Lemma poolSlices_published :
  poolSlices gens = filter (λ s, rs_PoolName s = pool) (filter publishedSlice slices).
Proof.
  rewrite list_filter_filter. unfold poolSlices. pose proof (maxEntry_spec gens) as Hmax.
  destruct (maxEntry _) as [g [d|]]; simpl.
  - destruct Hmax as (Hd & Hg & Hle).
    destruct (completeGen_lookup g d Hd) as (Hgen & Hcomp & s0 & Hs0 & Hel0 & Hp0 & Hg0).
    assert (∀ s, s ∈ slices → rs_PoolName s = pool ∧ publishedSlice s → rs_PoolGeneration s = g)
      as Hnew.
    { intros s Hs (Hp & Hel & _ & Hall & _). rewrite Forall_forall in Hall.
      destruct (gens_known s Hs Hel Hp) as [d' Hd']. apply Hle in Hd'.
      specialize (Hall s0 Hs0 Hel0 ltac:(congruence)). lia. }
    destruct (_ =? _) eqn:Hc; simpl; go_bool.
    + rewrite <- Hgen. apply filter_ext_in. intros s Hs. split; [|intros Hs'; by split_and!; try apply Hs'; auto].
      intros (Hel & Hp & Hgs). split; [done|]. split; [done|]. split; [lia|].
      split; [|rewrite Hp, Hgs; tauto]. apply Forall_forall. intros s' Hs' Hel' Hp'.
      destruct (gens_known s' Hs' Hel' ltac:(congruence)) as [d' Hd']. apply Hle in Hd'. lia.
    + symmetry. apply filter_none_in. intros s Hs Hpub. pose proof (Hnew s Hs Hpub) as Hgs.
      destruct Hpub as (Hp & _ & _ & _ & Hcs). rewrite Hp, Hgs in Hcs. tauto.
  - symmetry. apply filter_none_in. intros s Hs (Hp & Hel & Hge & _).
    destruct (gens_known s Hs Hel Hp) as [d' Hd']. apply Hmax in Hd'. lia.
Qed.
End PoolFilter.

Section Adapter.
Context {Q : Type} `{Quantity Q, !QuantityLaws Q} `{GoSort} `{CelCompiler Q}.

Lemma filterPoolSlices_perm driverName (slices : list (ResourceSlice Q)) :
  filterPoolSlices driverName slices ≡ₚ filter (publishedSlice driverName slices) slices.
Proof.
  unfold filterPoolSlices. rewrite sort_Slice_perm. set (pools := foldl _ ∅ slices).
  rewrite (concat_fmap_ext _ (λ p, filter (λ s, rs_PoolName s = p.1)
             (filter (publishedSlice driverName slices) slices))).
  2: { intros [pool gens] Hp%elem_of_map_to_list. by apply poolSlices_published. }
  change (λ p : string * gmap Z (poolGen Q), _) with ((λ pool, filter (λ s, rs_PoolName s = pool)
    (filter (publishedSlice driverName slices) slices)) ∘ fst (B := gmap Z (poolGen Q))).
  rewrite list_fmap_compose, group_perm by apply NoDup_fst_map_to_list.
  rewrite list_filter_filter. apply reflexive_eq, filter_ext_in. intros s Hs. split; [by intros [_ ?]|].
  intros Hpub. split; [|done]. destruct (pools_known driverName slices s Hs (proj1 Hpub)) as [gens Hg].
  apply list_elem_of_fmap. exists (rs_PoolName s, gens). by rewrite elem_of_map_to_list.
Qed.

(** The slices the allocator works with are exactly those of the newest
    generation of each pool of the driver, and of these only the complete
    generations; whatever the iteration order of the maps, they come out in
    name order. *)
Theorem filterPoolSlices_spec driverName (slices : list (ResourceSlice Q)) :
  filterPoolSlices driverName slices ≡ₚ filter (publishedSlice driverName slices) slices ∧
  Sorted (λ a b, String.le (rs_Name a) (rs_Name b)) (filterPoolSlices driverName slices).
Proof.
  split; [apply filterPoolSlices_perm|].
  assert (weak_order (lessSlice (Q:=Q))) as Hw by apply weak_order_key.
  pose proof (sort_Slice_sorted lessSlice
    (concat ((λ p, poolSlices p.2) <$> map_to_list (foldl (addSlice driverName) ∅ slices))) Hw) as Hs.
  eapply Sorted_mono; [|exact Hs]. intros a b. apply str_ltb_false.
Qed.

(** ** Publishing and reading back *)

(** A quantity carries only "binary" or "decimal": percentages come back as
    counts. *)
Definition readUnit (unit : string) : string :=
  if str_eqb unit CapacityUnitMiB then CapacityUnitMiB else CapacityUnitCount.

Definition readPolicy (unit : string) (p : CapacityPolicy) : CapacityPolicy :=
  mkCapacityPolicy (pol_Default p) (pol_Min p) (pol_Max p) (pol_Step p) (readUnit unit).
Definition readCapacity (c : CapacityValue) : CapacityValue :=
  mkCapacityValue (cap_Value c) (readUnit (cap_Unit c)) (readPolicy (cap_Unit c) <$> cap_Policy c).
Definition readCounters (m : gmap string CounterValue) : gmap string CounterValue :=
  (λ v, mkCounterValue (ctr_Value v) (readUnit (ctr_Unit v))) <$> m.

Definition readSpec (spec : DeviceSpec) : DeviceSpec := {|
  spec_Name := spec_Name spec;
  spec_Attributes := spec_Attributes spec;
  spec_Capacity := readCapacity <$> spec_Capacity spec;
  spec_Consumes :=
    (λ c, mkCounterConsumption (cc_CounterSet c) (readCounters (cc_Counters c))) <$> spec_Consumes spec;
  spec_AllowMultipleAllocations := spec_AllowMultipleAllocations spec;
  spec_BindingConditions := spec_BindingConditions spec;
  spec_BindingFailureConditions := renderFailureConditions spec;
|}.

(** Amounts that fit in an [int64] of bytes, and policies in the unit of
    their capacity. *)
Definition small (v : Z) : Prop := 0 ≤ v < 2 ^ 42.
Definition renderablePolicy (unit : string) (p : CapacityPolicy) : Prop :=
  pol_Unit p = unit ∧ small (pol_Default p) ∧ small (pol_Min p) ∧ small (pol_Max p) ∧ small (pol_Step p).
Definition renderableCounters (m : gmap string CounterValue) : Prop :=
  map_Forall (λ _ v, small (ctr_Value v)) m.
Definition renderable (spec : DeviceSpec) : Prop :=
  map_Forall (λ _ c, small (cap_Value c) ∧ default True (renderablePolicy (cap_Unit c) <$> cap_Policy c))
    (spec_Capacity spec) ∧
  Forall (λ c, renderableCounters (cc_Counters c)) (spec_Consumes spec).

Lemma quantityFromCapacity_read v unit : small v →
  apiQuantityValue (quantityPtrFromCapacity v unit) (readUnit unit) = v ∧
  QFormat (quantityFromCapacity (Q:=Q) v unit) = (if str_eqb unit CapacityUnitMiB then BinarySI else DecimalSI).
Proof.
  intros Hv. pose proof (quantity_roundtrip (Q:=Q) v unit Hv) as Hr.
  unfold quantityPtrFromCapacity, quantityFromCapacity, apiQuantityValue, readUnit,
    quantityValue, quantityFromValue in *.
  destruct (str_eqb unit CapacityUnitMiB) eqn:Hu; simpl in *; rewrite ?str_eqb_refl;
    (split; [done|apply QFormat_NewQuantity]).
Qed.

Lemma renderCapacity_read c :
  small (cap_Value c) → default True (renderablePolicy (cap_Unit c) <$> cap_Policy c) →
  capacityValueFromQuantity (dcap_Value (renderCapacity (Q:=Q) c)) (dcap_RequestPolicy (renderCapacity c))
    = readCapacity c.
Proof.
  intros Hv Hp. unfold capacityValueFromQuantity, readCapacity, renderCapacity. simpl.
  destruct (quantityFromCapacity_read (cap_Value c) (cap_Unit c) Hv) as [Hval ->].
  assert (∀ v, small v → apiQuantityValue (quantityPtrFromCapacity v (cap_Unit c)) (readUnit (cap_Unit c)) = v)
    as Hread by (intros; by apply quantityFromCapacity_read).
  unfold readUnit, readPolicy in *. simpl in Hval.
  destruct (str_eqb (cap_Unit c) CapacityUnitMiB) eqn:Hu; simpl in *; rewrite Hval;
    (destruct (cap_Policy c) as [p|]; simpl in *; [|done]);
    destruct Hp as (Hpu & Hd & Hmin & Hmax & Hstep);
    unfold readUnit; rewrite Hu, Hpu; do 3 f_equal; auto.
Qed.

Lemma renderCounters_read m : renderableCounters m →
  toCounters (renderCounters (Q:=Q) m) = readCounters m.
Proof.
  intros Hm. unfold toCounters, renderCounters, readCounters. rewrite <- map_fmap_compose.
  apply map_fmap_ext. intros k v Hv%Hm. simpl. unfold counterValueFromQuantity, readUnit.
  destruct (quantityFromCapacity_read (ctr_Value v) (ctr_Unit v) Hv) as [Hval Hfmt].
  unfold readUnit in Hval. change (quantityFromCounter (ctr_Value v) (ctr_Unit v))
    with (quantityFromCapacity (Q:=Q) (ctr_Value v) (ctr_Unit v)).
  rewrite Hfmt. destruct (str_eqb (ctr_Unit v) CapacityUnitMiB); simpl in *; by rewrite Hval.
Qed.

Lemma render_read spec : renderable spec →
  toDeviceSpec (renderDeviceWithOptions (Q:=Q) spec (mkRenderOptions true true true)) = readSpec spec.
Proof.
  intros [Hcap Hcons]. unfold toDeviceSpec, readSpec, renderDeviceWithOptions. simpl. f_equal.
  - unfold toAttributes, RenderAttributes. rewrite <- map_fmap_compose.
    rewrite <- (map_fmap_id (spec_Attributes spec)) at 2. apply map_fmap_ext. by intros k [] _.
  - unfold toCapacities, RenderCapacities. rewrite <- map_fmap_compose. apply map_fmap_ext.
    intros k c [Hv Hp]%Hcap. by apply renderCapacity_read.
  - unfold toConsumes, renderConsumes. rewrite <- list_fmap_compose.
    apply list_fmap_ext. intros i c Hc%list_elem_of_lookup_2. simpl. f_equal.
    apply renderCounters_read. rewrite Forall_forall in Hcons. by apply Hcons.
  - by destruct (spec_AllowMultipleAllocations spec).
Qed.

(** *** Reading back changes no decision *)

Lemma quantityValue_read (q : Q) unit : quantityValue q (readUnit unit) = quantityValue q unit.
Proof.
  unfold quantityValue, readUnit. destruct (str_eqb unit CapacityUnitMiB) eqn:Hu; [|done].
  by rewrite str_eqb_refl.
Qed.

Lemma quantityFromValue_read v unit :
  quantityFromValue (Q:=Q) v (readUnit unit) = quantityFromValue v unit.
Proof.
  unfold quantityFromValue, readUnit. destruct (str_eqb unit CapacityUnitMiB) eqn:Hu; [|done].
  by rewrite str_eqb_refl.
Qed.

Lemma consumeOne_read (req : option (CapacityRequirements Q)) name c :
  consumeOne req name (readCapacity c) = consumeOne req name c.
Proof.
  unfold consumeOne, calculateConsumedValue. destruct (requestedFor req name) as [q|]; simpl;
    rewrite ?quantityValue_read; destruct (cap_Policy c) as [p|]; simpl;
    repeat case_match; simplify_eq/=; by rewrite ?quantityFromValue_read.
Qed.

Lemma range_collect_fmap {W X Y} (f : string → Y → option W) (h : X → Y) (m : gmap string X) :
  range_collect f (h <$> m) = range_collect (λ k x, f k (h x)) m.
Proof.
  apply option_eq. intros out. rewrite !range_collect_Some. unfold collects.
  apply forall_proper. intros k. rewrite lookup_fmap. by destruct (m !! k).
Qed.

Lemma computeConsumedCapacity_read (req : option (CapacityRequirements Q)) capacity :
  computeConsumedCapacity req (readCapacity <$> capacity) = computeConsumedCapacity req capacity.
Proof.
  unfold computeConsumedCapacity, map_len0. rewrite map_size_fmap.
  destruct (_ =? 0)%nat; [done|]. rewrite range_collect_fmap.
  assert (range_collect (λ k c, consumeOne req k (readCapacity c)) capacity
          = range_collect (consumeOne req) capacity) as ->.
  { apply option_eq. intros out. rewrite !range_collect_Some. unfold collects.
    apply forall_proper. intros k. destruct (capacity !! k); [|done]. by rewrite consumeOne_read. }
  assert (∀ name, bool_decide (is_Some ((readCapacity <$> capacity) !! name))
                = bool_decide (is_Some (capacity !! name))) as Hb.
  { intros name. apply bool_decide_ext. rewrite lookup_fmap. by rewrite fmap_is_Some. }
  destruct req as [r|]; [|done].
  assert (range_all (λ name _, bool_decide (is_Some ((readCapacity <$> capacity) !! name))) (cr_Requests r)
    = range_all (λ name _, bool_decide (is_Some (capacity !! name))) (cr_Requests r)) as ->; [|done].
  apply eq_bool_prop_intro. rewrite !Is_true_true, !range_all_true.
  split; intros Hf name v Hv; specialize (Hf name v Hv); [by rewrite <- Hb|by rewrite Hb].
Qed.

Lemma fitsCapacity_read (existing add : gmap string Q) capacity :
  fitsCapacity existing add (readCapacity <$> capacity) = fitsCapacity existing add capacity.
Proof.
  apply eq_bool_prop_intro. rewrite !Is_true_true, !fitsCapacity_true, map_Forall_fmap.
  assert (∀ name c, capacityTotal existing add name (cap_Unit (readCapacity c))
                  = capacityTotal existing add name (cap_Unit c)) as Ht.
  { intros name c. unfold capacityTotal. simpl. rewrite quantityValue_read.
    destruct (existing !! name); [|done]. by rewrite quantityValue_read. }
  split; intros Hf name c Hc; specialize (Hf name c Hc); cbn beta in *;
    [by rewrite <- Ht|unfold compose; cbn beta; by rewrite (Ht name c)].
Qed.

(** What the options leave of a device. *)
Definition offered (opts : DeviceRenderOptions) (spec : DeviceSpec) : DeviceSpec := {|
  spec_Name := spec_Name spec;
  spec_Attributes := spec_Attributes spec;
  spec_Capacity := if IncludeCapacity opts then spec_Capacity spec else ∅;
  spec_Consumes := spec_Consumes spec;
  spec_AllowMultipleAllocations := IncludeMultiAllocations opts && spec_AllowMultipleAllocations spec;
  spec_BindingConditions := if IncludeBindingConditions opts then spec_BindingConditions spec else [];
  spec_BindingFailureConditions := if IncludeBindingConditions opts then spec_BindingFailureConditions spec else [];
|}.
Lemma render_offered spec opts :
  renderDeviceWithOptions (Q:=Q) spec opts = renderDeviceWithOptions (offered opts spec) (mkRenderOptions true true true).
Proof.
  destruct opts as [[] [] []]; unfold renderDeviceWithOptions, offered; simpl; f_equal; try (unfold RenderCapacities; by rewrite fmap_empty);
    unfold renderFailureConditions; simpl; done.
Qed.
Lemma renderable_offered spec opts : renderable spec → renderable (offered opts spec).
Proof. intros [Hcap Hcons]. split; [|done]. simpl. destruct (IncludeCapacity opts); [done|apply map_Forall_empty]. Qed.

(** C27: a device that is published and read back by the allocator is what the
    features that are on leave of it, and of that nothing is lost, as long as
    the amounts are below 2^42 and policies in the unit of their capacity: the
    name, the attributes, the counters drawn on, and, each with its feature,
    the capacity, the sharing mode and the binding conditions are the same;
    only the unit "Percent" becomes "Count" and missing failure conditions are
    filled in.  What a request takes from the capacity offered, and whether it
    fits, is the same before and after. *)
Theorem render_roundtrip spec opts :
  renderable spec →
  let spec' := toDeviceSpec (renderDeviceWithOptions (Q:=Q) spec opts) in
  spec' = readSpec (offered opts spec) ∧
  (∀ req : option (CapacityRequirements Q),
     computeConsumedCapacity req (spec_Capacity spec') = computeConsumedCapacity req (spec_Capacity (offered opts spec))) ∧
  (∀ existing add : gmap string Q,
     fitsCapacity existing add (spec_Capacity spec') = fitsCapacity existing add (spec_Capacity (offered opts spec))).
Proof.
  intros Hr spec'. subst spec'. rewrite render_offered, render_read by (by apply renderable_offered). split; [done|].
  split; intros; [apply computeConsumedCapacity_read|apply fitsCapacity_read].
Qed.

(** ** Candidates and requests *)

Lemma elem_of_BuildCandidates driverName (slices : list (ResourceSlice Q)) c :
  c ∈ BuildCandidates driverName slices ↔
  ∃ s dev, s ∈ slices ∧ publishedSlice driverName slices s ∧ dev ∈ rs_Devices s ∧
    candidateOf s dev = Some c.
Proof.
  unfold BuildCandidates. rewrite sort_Slice_perm, list_elem_of_In, in_concat. split.
  - intros (l & Hl%list_elem_of_In & Hc%list_elem_of_In).
    apply list_elem_of_fmap in Hl as (s & -> & Hs). rewrite filterPoolSlices_perm in Hs.
    apply list_elem_of_filter in Hs as [Hpub Hs]. apply list_elem_of_omap in Hc as (dev & Hdev & Hc).
    by exists s, dev.
  - intros (s & dev & Hs & Hpub & Hdev & Hc). exists (omap (candidateOf s) (rs_Devices s)).
    rewrite <- !list_elem_of_In. split.
    + apply list_elem_of_fmap. exists s. split; [done|]. rewrite filterPoolSlices_perm.
      by apply list_elem_of_filter.
    + apply list_elem_of_omap. eauto.
Qed.

Lemma candidateOf_node s dev (c : CandidateDevice) : candidateOf s dev = Some c → cd_NodeName c ≠ "".
Proof.
  unfold candidateOf, deviceNodeName, sliceNodeName. intros Hc.
  destruct (rs_NodeName s) as [n|]; simpl in *.
  - destruct (str_eqb n "") eqn:Hn; simpl in *; go_bool; [|by simplify_eq].
    destruct (default _ _); [|done]. destruct (api_NodeName dev) as [m|]; [|done].
    destruct (str_eqb m "") eqn:Hm; go_bool; by simplify_eq/=.
  - destruct (default _ _); [|done]. destruct (api_NodeName dev) as [m|]; [|done].
    destruct (str_eqb m "") eqn:Hm; go_bool; by simplify_eq/=.
Qed.

(** A compiled selector. *)
Definition selector_for (sel : DeviceSelector) (s : Selector) : Prop :=
  ∃ expr program, sel_CEL sel = Some expr ∧ expr ≠ "" ∧
    CompileCELExpression expr = Ok program ∧ s = celSelector expr program.

Lemma compileSelectors_spec selectors out :
  compileSelectors selectors = Ok out ↔ Forall2 selector_for selectors out.
Proof.
  revert out. induction selectors as [|sel rest IH]; intros out; simpl.
  { split; [intros [= <-]; constructor|]. intros Hf. by inversion Hf. }
  split.
  - destruct (sel_CEL sel) as [expr|] eqn:Hcel; [|done]. destruct (str_eqb expr "") eqn:He; [done|].
    destruct (CompileCELExpression expr) as [prog|] eqn:Hc; [|done].
    destruct (compileSelectors rest) as [rest'|] eqn:Hr; [|done]. intros [= <-]. go_bool.
    constructor; [by exists expr, prog|by apply IH].
  - intros Hf. inversion Hf as [|? s ? rest' (expr & prog & Hcel & Hne & Hc & ->) Hrest]; subst.
    rewrite Hcel, Hc. apply str_eqb_false in Hne as ->. apply IH in Hrest as ->. done.
Qed.

(** The allocator's request for a request of the claim: "ExactCount" mode, no
    admin access, a count of at least one, the selectors of the class and then
    its own. *)
Definition request_for (classes : gmap string DeviceClass) (dr : DeviceRequest Q) (req : Request Q)
    : Prop :=
  ∃ ex class selectors,
    dr_Exactly dr = Some ex ∧ ex_DeviceClassName ex ≠ "" ∧
    classes !! ex_DeviceClassName ex = Some class ∧
    default false (ex_AdminAccess ex) = false ∧
    (ex_AllocationMode ex = "" ∨ ex_AllocationMode ex = DeviceAllocationModeExactCount) ∧
    0 ≤ ex_Count ex ∧
    Forall2 selector_for (class_Selectors class ++ ex_Selectors ex) selectors ∧
    req = mkRequest (dr_Name dr) (Z.max 1 (ex_Count ex)) selectors
            (match ex_Capacity ex with
             | Some requests => if decide (requests = ∅) then None
                                else Some (mkCapacityRequirements requests)
             | None => None
             end).

Lemma capacityReq_decide (m : option (gmap string Q)) :
  match m with
  | Some requests => if map_len0 requests then None
                     else Some (mkCapacityRequirements (capacityRequests requests))
  | None => None
  end = match m with
  | Some requests => if decide (requests = ∅) then None else Some (mkCapacityRequirements requests)
  | None => None
  end.
Proof. destruct m as [m|]; [|done]. destruct (map_len0 m) eqn:Hm; go_bool; by case_decide. Qed.

Lemma count_max n : 0 ≤ n → (if n =? 0 then 1 else n) = Z.max 1 n.
Proof. destruct (Z.eqb_spec n 0); lia. Qed.

Lemma buildRequest_spec classes dr req :
  buildRequest classes dr = Ok req ↔ request_for classes dr req.
Proof.
  unfold buildRequest, request_for. split.
  - intros Hb. destruct (dr_Exactly dr) as [ex|]; [|done].
    destruct (str_eqb (ex_DeviceClassName ex) "") eqn:Hn; [done|].
    destruct (default false (ex_AdminAccess ex)) eqn:Ha; [done|].
    destruct (classes !! ex_DeviceClassName ex) as [class|] eqn:Hcl; [|done].
    destruct (negb _) eqn:Hmode; [done|]. destruct (_ <? 1) eqn:Hcount; [done|].
    destruct (compileSelectors _) as [sels|] eqn:Hsel; [|done]. simplify_eq. go_bool.
    exists ex, class, sels. apply compileSelectors_spec in Hsel.
    assert (0 ≤ ex_Count ex) by (destruct (ex_Count ex =? 0) eqn:E; go_bool; lia).
    rewrite count_max, capacityReq_decide by done. do 4 (split; [done|]). split; [|done].
    destruct (str_eqb (ex_AllocationMode ex) "") eqn:Hm; go_bool; auto.
  - intros (ex & class & sels & -> & Hn & Hcl & Ha & Hmode & Hcount & Hsel & ->).
    apply str_eqb_false in Hn as ->. rewrite Ha, Hcl, count_max, capacityReq_decide by done.
    apply compileSelectors_spec in Hsel as ->.
    destruct (Z.ltb_spec (Z.max 1 (ex_Count ex)) 1); [lia|].
    by destruct Hmode as [-> | ->].
Qed.

Lemma buildRequests_spec classes drs reqs :
  buildRequests classes drs = Ok reqs ↔ Forall2 (request_for classes) drs reqs.
Proof.
  revert reqs. induction drs as [|dr drs IH]; intros reqs; simpl.
  { split; [intros [= <-]; constructor|]. intros Hf. by inversion Hf. }
  split.
  - destruct (buildRequest classes dr) as [r|] eqn:Hr; [|done].
    destruct (buildRequests classes drs) as [rs|] eqn:Hrs; [|done]. intros [= <-].
    constructor; [by apply buildRequest_spec|by apply IH].
  - intros Hf. inversion Hf as [|? r ? rs Hr Hrs]; subst.
    apply buildRequest_spec in Hr as ->. by apply IH in Hrs as ->.
Qed.

Lemma BuildRequests_for claim classes reqs :
  BuildRequests (Some claim) classes = Ok reqs ↔
    claim_Constraints claim = 0%nat ∧ Forall2 (request_for classes) (claim_Requests claim) reqs.
Proof.
  simpl. destruct (Nat.eqb_spec (claim_Constraints claim) 0); simpl;
    rewrite ?buildRequests_spec; [tauto|]. split; [done|tauto].
Qed.

(** The requests of a claim are accepted exactly when the claim has no
    constraints and every request is in "ExactCount" mode with a non-negative
    count, a known device class, no admin access and compilable selectors; then
    each becomes one allocator request of the same name, with a count of at
    least one (zero means one), the selectors of its class before its own, and
    its capacity requirements. *)
Theorem BuildRequests_spec claim classes reqs :
  BuildRequests (Some claim) classes = Ok reqs ↔
    claim_Constraints claim = 0%nat ∧ Forall2 (request_for classes) (claim_Requests claim) reqs.
Proof. apply BuildRequests_for. Qed.
End Adapter.
