(* ===== verification/ConfigApi.v ===== *)
(** * Driver configuration objects: pkg/dra/configapi

    The opaque parameters a claim attaches to its devices: sharing strategy,
    time slices and MPS limits, with their normalisation and validation.
    Methods that mutate the receiver return the new value.  The string-typed
    enumerations of the source stay strings. *)

From S2P Require Import Prelude GoLib DeviceModel.

(** ** api.go, sharing.go *)

Definition GroupName : string := "resource.gpu.deckhouse.io".
Definition ApiVersion : string := "v1alpha1".
Definition GpuConfigKind : string := "GpuConfig".
Definition MigDeviceConfigKind : string := "MigDeviceConfig".
Definition VfioDeviceConfigKind : string := "VfioDeviceConfig".

Definition TimeSlicingStrategy : string := "TimeSlicing".
Definition MpsStrategy : string := "MPS".

Definition DefaultTimeSlice : string := "Default".
Definition ShortTimeSlice : string := "Short".
Definition MediumTimeSlice : string := "Medium".
Definition LongTimeSlice : string := "Long".

Record TimeSlicingConfig := mkTimeSlicingConfig { tsc_Interval : option string }.

Record TypeMeta := mkTypeMeta { tm_APIVersion : string; tm_Kind : string }.

Section Config.
Context {Q : Type} `{Quantity Q}.

Record MpsConfig := mkMpsConfig {
  mps_DefaultActiveThreadPercentage : option Z;
  mps_DefaultPinnedDeviceMemoryLimit : option Q;
  mps_DefaultPerDevicePinnedMemoryLimit : gmap string Q;
}.

Record GpuSharing := mkGpuSharing {
  gs_Strategy : string;
  gs_TimeSlicingConfig : option TimeSlicingConfig;
  gs_MpsConfig : option MpsConfig;
}.

Record MigDeviceSharing := mkMigDeviceSharing {
  ms_Strategy : string;
  ms_MpsConfig : option MpsConfig;
}.

(** ** gpu.go, mig.go, vfio.go: the implementations of [Interface] *)

Record GpuConfig := mkGpuConfig {
  gc_TypeMeta : TypeMeta;
  gc_Sharing : option GpuSharing;
}.

Record MigDeviceConfig := mkMigDeviceConfig {
  mc_TypeMeta : TypeMeta;
  mc_Sharing : option MigDeviceSharing;
}.

Record VfioDeviceConfig := mkVfioDeviceConfig { vc_TypeMeta : TypeMeta }.

(** A non-nil value of the interface type.  [OtherConfig] stands for any
    other implementation. *)
Inductive Config :=
| GpuConf (c : GpuConfig)
| MigConf (c : MigDeviceConfig)
| VfioConf (c : VfioDeviceConfig)
| OtherConfig.

(** ** defaults.go *)

Definition metaFor (kind : string) : TypeMeta :=
  mkTypeMeta (GroupName +:+ "/" +:+ ApiVersion) kind.
Definition DefaultGpuConfig : GpuConfig := mkGpuConfig (metaFor GpuConfigKind) None.
Definition DefaultMigDeviceConfig : MigDeviceConfig :=
  mkMigDeviceConfig (metaFor MigDeviceConfigKind) None.
Definition DefaultVfioDeviceConfig : VfioDeviceConfig :=
  mkVfioDeviceConfig (metaFor VfioDeviceConfigKind).

(** ** sharing_methods.go; a nil receiver is [None] *)

Definition gs_IsTimeSlicing (s : option GpuSharing) : bool :=
  match s with None => false | Some s => str_eqb (gs_Strategy s) TimeSlicingStrategy end.

Definition gs_IsMps (s : option GpuSharing) : bool :=
  match s with None => false | Some s => str_eqb (gs_Strategy s) MpsStrategy end.

Definition ms_IsTimeSlicing (s : option MigDeviceSharing) : bool :=
  match s with None => false | Some s => str_eqb (ms_Strategy s) TimeSlicingStrategy end.

Definition ms_IsMps (s : option MigDeviceSharing) : bool :=
  match s with None => false | Some s => str_eqb (ms_Strategy s) MpsStrategy end.

Definition gs_GetTimeSlicingConfig (s : option GpuSharing) : res (option TimeSlicingConfig) :=
  match s with
  | None => Err (Errorf "no sharing set to get config from" [])
  | Some s =>
      if negb (str_eqb (gs_Strategy s) TimeSlicingStrategy) then
        Err (Errorf "strategy is not set to '%v'" [TimeSlicingStrategy])
      else match gs_MpsConfig s with
        | Some _ =>
            Err (Errorf "cannot use MpsConfig with the '%v' strategy" [TimeSlicingStrategy])
        | None => Ok (gs_TimeSlicingConfig s)
        end
  end.

Definition ms_GetTimeSlicingConfig (s : option MigDeviceSharing)
    : res (option TimeSlicingConfig) := Ok None.

Definition gs_GetMpsConfig (s : option GpuSharing) : res (option MpsConfig) :=
  match s with
  | None => Err (Errorf "no sharing set to get config from" [])
  | Some s =>
      if negb (str_eqb (gs_Strategy s) MpsStrategy) then
        Err (Errorf "strategy is not set to '%v'" [MpsStrategy])
      else match gs_TimeSlicingConfig s with
        | Some _ =>
            Err (Errorf "cannot use TimeSlicingConfig with the '%v' strategy" [MpsStrategy])
        | None => Ok (gs_MpsConfig s)
        end
  end.

Definition ms_GetMpsConfig (s : option MigDeviceSharing) : res (option MpsConfig) :=
  match s with
  | None => Err (Errorf "no sharing set to get config from" [])
  | Some s =>
      if negb (str_eqb (ms_Strategy s) MpsStrategy) then
        Err (Errorf "strategy is not set to '%v'" [MpsStrategy])
      else Ok (ms_MpsConfig s)
  end.

(** ** sharing_timeslice.go *)

Definition TimeSliceInterval_Int (t : string) : Z :=
  if str_eqb t DefaultTimeSlice then 0
  else if str_eqb t ShortTimeSlice then 1
  else if str_eqb t MediumTimeSlice then 2
  else if str_eqb t LongTimeSlice then 3
  else -1.

(** ** validate.go *)

Definition Strategy_Validate (s : string) : res unit :=
  if str_eqb s TimeSlicingStrategy || str_eqb s MpsStrategy then Ok ()
  else Err (Errorf "unknown GPU sharing strategy: %v" [s]).

Definition Interval_Validate (t : string) : res unit :=
  if str_eqb t DefaultTimeSlice || str_eqb t ShortTimeSlice || str_eqb t MediumTimeSlice
     || str_eqb t LongTimeSlice then Ok ()
  else Err (Errorf "unknown time-slice interval: %v" [t]).

Definition TimeSlicingConfig_Validate (c : option TimeSlicingConfig) : res unit :=
  match c with
  | Some (mkTimeSlicingConfig (Some i)) => Interval_Validate i
  | _ => Err (Errorf "timeSlicingConfig.interval must be set" [])
  end.

Definition MpsConfig_Validate (c : option MpsConfig) : res unit :=
  match c with
  | None => Ok ()
  | Some c =>
      match mps_DefaultActiveThreadPercentage c with
      | None => Ok ()
      | Some p =>
          if p <? 0 then Err (Errorf "active thread percentage must not be negative" [])
          else if 100 <? p then
            Err (Errorf "active thread percentage must not be greater than 100" [])
          else Ok ()
      end
  end.

Definition GpuSharing_Validate (s : option GpuSharing) : res unit :=
  match s with
  | None => Ok ()
  | Some sh =>
      _ ← Strategy_Validate (gs_Strategy sh);
      if gs_IsTimeSlicing s then TimeSlicingConfig_Validate (gs_TimeSlicingConfig sh)
      else if gs_IsMps s then MpsConfig_Validate (gs_MpsConfig sh)
      else Err (Errorf "invalid GPU sharing settings: %v" [])
  end.

Definition MigDeviceSharing_Validate (s : option MigDeviceSharing) : res unit :=
  match s with
  | None => Ok ()
  | Some sh =>
      _ ← Strategy_Validate (ms_Strategy sh);
      if ms_IsTimeSlicing s then Ok ()
      else if ms_IsMps s then MpsConfig_Validate (ms_MpsConfig sh)
      else Err (Errorf "invalid MIG device sharing settings: %v" [])
  end.

(** ** Normalize and Validate of the three kinds of configuration *)

Definition emptyMps : MpsConfig := mkMpsConfig None None ∅.

Definition GpuConfig_Normalize (c : GpuConfig) : GpuConfig :=
  match gc_Sharing c with
  | None => c
  | Some s =>
      let ts := if str_eqb (gs_Strategy s) TimeSlicingStrategy then
                  match gs_TimeSlicingConfig s with
                  | None => Some (mkTimeSlicingConfig (Some DefaultTimeSlice))
                  | some => some
                  end
                else gs_TimeSlicingConfig s in
      let mps := if str_eqb (gs_Strategy s) MpsStrategy then
                   match gs_MpsConfig s with None => Some emptyMps | some => some end
                 else gs_MpsConfig s in
      mkGpuConfig (gc_TypeMeta c) (Some (mkGpuSharing (gs_Strategy s) ts mps))
  end.

Definition MigDeviceConfig_Normalize (c : MigDeviceConfig) : MigDeviceConfig :=
  match mc_Sharing c with
  | None => c
  | Some s =>
      let mps := if str_eqb (ms_Strategy s) MpsStrategy then
                   match ms_MpsConfig s with None => Some emptyMps | some => some end
                 else ms_MpsConfig s in
      mkMigDeviceConfig (mc_TypeMeta c) (Some (mkMigDeviceSharing (ms_Strategy s) mps))
  end.

Definition VfioDeviceConfig_Normalize (c : VfioDeviceConfig) : VfioDeviceConfig :=
  if str_eqb (tm_APIVersion (vc_TypeMeta c)) "" || str_eqb (tm_Kind (vc_TypeMeta c)) ""
  then DefaultVfioDeviceConfig else c.

Definition GpuConfig_Validate (c : GpuConfig) : res unit :=
  match gc_Sharing c with None => Ok () | s => GpuSharing_Validate s end.

Definition MigDeviceConfig_Validate (c : MigDeviceConfig) : res unit :=
  match mc_Sharing c with None => Ok () | s => MigDeviceSharing_Validate s end.

Definition VfioDeviceConfig_Validate (c : VfioDeviceConfig) : res unit := Ok ().

(** ** sharing_mps.go *)

Definition ErrInvalidDeviceSelector : error := Errorf "invalid device" [].
Definition ErrInvalidLimit : error := Errorf "invalid limit" [].

(** [d.Value() / 1024 / 1024] with Go's truncating division. *)
Definition Megabyte (d : Q) : string * bool :=
  let v := (Value d `quot` 1024) `quot` 1024 in (Itoa v +:+ "M", 0 <? v).

Definition limit_get (d : option Q) (uuids : list string) : res (gmap string string) :=
  match d with
  | None => Ok ∅
  | Some d =>
      if list_len0 uuids then Ok ∅ else
      let '(megabyte, valid) := Megabyte d in
      if negb valid then Err (Wrapf "%w: default value set too low: %v" [] ErrInvalidLimit)
      else Ok (foldl (λ limits uuid, <[uuid := megabyte]> limits) ∅ uuids)
  end.

(** [newUUIDSet(uuids).Normalize(key)]. *)
Definition uuidSet_Normalize (uuids : list string) (key : string) : res string :=
  if bool_decide (key ∈ uuids) then Ok key else
  match Atoi key with
  | None =>
      Err (Wrapf "%w: unable to parse key as an integer: %v" [key] ErrInvalidDeviceSelector)
  | Some index =>
      if (0 <=? index) && (index <? Z.of_nat (length uuids)) then
        match uuids !! Z.to_nat index with
        | Some u => Ok u
        | None => Err (GoPanic "index out of range")
        end
      else Err (Wrapf "%w: invalid device index: %v" [Itoa index] ErrInvalidDeviceSelector)
  end.

(** The body of the loop of [MpsPerDevicePinnedMemoryLimit.Normalize]. *)
Definition limitStep (uuids : list string) (limits : gmap string string) (k : string) (v : Q)
    : res (gmap string string) :=
  id ← uuidSet_Normalize uuids k;
  let '(megabyte, valid) := Megabyte v in
  if negb valid then Err (Wrapf "%w: value set too low: %v: %v" [k] ErrInvalidLimit)
  else Ok (<[id := megabyte]> limits).

(** [range m] visits the entries in the order [entries]. *)
Fixpoint limitLoop (uuids : list string) (entries : list (string * Q))
    (limits : gmap string string) : res (gmap string string) :=
  match entries with
  | [] => Ok limits
  | (k, v) :: rest => limits ← limitStep uuids limits k v; limitLoop uuids rest limits
  end.

Definition MpsLimit_Normalize (entries : list (string * Q)) (uuids : list string)
    (defaultPinnedDeviceMemoryLimit : option Q) : res (gmap string string) :=
  limits ← limit_get defaultPinnedDeviceMemoryLimit uuids;
  limitLoop uuids entries limits.

(** ** Properties *)

Lemma Interval_Int_Validate t :
  Interval_Validate t = Ok () ↔ 0 ≤ TimeSliceInterval_Int t.
Proof.
  unfold Interval_Validate, TimeSliceInterval_Int.
  repeat destruct (str_eqb _ _); simpl; split; (done || lia).
Qed.

Lemma Strategy_Validate_ok s :
  Strategy_Validate s = Ok () ↔ s = TimeSlicingStrategy ∨ s = MpsStrategy.
Proof.
  unfold Strategy_Validate. rewrite <- !str_eqb_true.
  destruct (str_eqb s TimeSlicingStrategy), (str_eqb s MpsStrategy); naive_solver.
Qed.

Lemma GpuConfig_Normalize_idemp c :
  GpuConfig_Normalize (GpuConfig_Normalize c) = GpuConfig_Normalize c.
Proof.
  destruct c as [tm [[st ts mps]|]]; [|done]. unfold GpuConfig_Normalize; simpl.
  by destruct (str_eqb st TimeSlicingStrategy), (str_eqb st MpsStrategy), ts, mps.
Qed.

Lemma MigDeviceConfig_Normalize_idemp c :
  MigDeviceConfig_Normalize (MigDeviceConfig_Normalize c) = MigDeviceConfig_Normalize c.
Proof.
  destruct c as [tm [[st mps]|]]; [|done]. unfold MigDeviceConfig_Normalize; simpl.
  by destruct (str_eqb st MpsStrategy), mps.
Qed.

Lemma VfioDeviceConfig_Normalize_idemp c :
  VfioDeviceConfig_Normalize (VfioDeviceConfig_Normalize c) = VfioDeviceConfig_Normalize c.
Proof. unfold VfioDeviceConfig_Normalize at 2 3. by destruct (_ || _) eqn:E; [|unfold VfioDeviceConfig_Normalize; rewrite E]. Qed.

(** What a normalised and valid sharing section gives its consumers: a
    time-slicing strategy has a known interval, an MPS strategy a
    configuration whose thread percentage is a percentage; the getter then
    answers, unless the section of the other strategy is present too. *)
Definition sharing_usable (s : GpuSharing) : Prop :=
  (gs_Strategy s = TimeSlicingStrategy ∧
     ∃ i, gs_TimeSlicingConfig s = Some (mkTimeSlicingConfig (Some i)) ∧ 0 ≤ TimeSliceInterval_Int i ≤ 3 ∧
       (is_Ok (gs_GetTimeSlicingConfig (Some s)) = true ↔ gs_MpsConfig s = None)) ∨
  (gs_Strategy s = MpsStrategy ∧
     ∃ m, gs_MpsConfig s = Some m ∧
       (∀ p, mps_DefaultActiveThreadPercentage m = Some p → 0 ≤ p ≤ 100) ∧
       (is_Ok (gs_GetMpsConfig (Some s)) = true ↔ gs_TimeSlicingConfig s = None)).

Lemma MpsConfig_Validate_ok m :
  MpsConfig_Validate (Some m) = Ok () ↔
  ∀ p, mps_DefaultActiveThreadPercentage m = Some p → 0 ≤ p ≤ 100.
Proof.
  unfold MpsConfig_Validate. destruct (mps_DefaultActiveThreadPercentage m) as [p|]; [|done].
  destruct (Z.ltb_spec p 0), (Z.ltb_spec 100 p); split; try done;
    try (intros Hp; specialize (Hp p eq_refl); lia).
  intros _ q [= <-]. lia.
Qed.

Lemma TimeSliceInterval_Int_range t : -1 ≤ TimeSliceInterval_Int t ≤ 3.
Proof. unfold TimeSliceInterval_Int. repeat destruct (str_eqb _ _); lia. Qed.

(** A configuration that passes [Validate] after [Normalize] either
    shares nothing or is usable: its strategy is known and has the parameters
    the prepare steps read, and the getter of the strategy fails only when the
    parameters of the other strategy were given as well. *)
Theorem GpuConfig_usable c :
  GpuConfig_Validate (GpuConfig_Normalize c) = Ok () →
  match gc_Sharing (GpuConfig_Normalize c) with
  | None => gc_Sharing c = None
  | Some s => sharing_usable s
  end.
Proof.
  destruct c as [tm [[st ts mps]|]]; [|done]. unfold GpuConfig_Normalize, GpuConfig_Validate; simpl.
  intros Hval. destruct (Strategy_Validate st) as [[]|] eqn:Hst; [|done]. simpl in Hval.
  apply Strategy_Validate_ok in Hst as [-> | ->]; simpl in *.
  - left. split; [done|]. simpl.
    destruct ts as [[[i|]]|]; simpl in *; [|done|].
    + exists i. apply Interval_Int_Validate in Hval. pose proof (TimeSliceInterval_Int_range i).
      split; [done|]. split; [lia|]. by destruct mps.
    + exists DefaultTimeSlice. split; [done|]. split; [by vm_compute|]. by destruct mps.
  - right. split; [done|]. simpl. destruct mps as [m|]; simpl in *.
    + exists m. split; [done|]. split; [by apply MpsConfig_Validate_ok|]. by destruct ts.
    + exists emptyMps. split; [done|]. split; [done|]. by destruct ts.
Qed.

(** *** MPS limits *)
Lemma uuidSet_Normalize_in uuids k u : uuidSet_Normalize uuids k = Ok u → u ∈ uuids.
Proof.
  unfold uuidSet_Normalize. case_bool_decide; [by intros [= <-]|].
  destruct (Atoi k) as [i|]; [|done]. destruct (_ && _); [|done].
  destruct (uuids !! _) eqn:E; [|done]. intros [= <-]. by eapply list_elem_of_lookup_2.
Qed.

Lemma uuidSet_Normalize_no_panic uuids k w : uuidSet_Normalize uuids k ≠ Err (GoPanic w).
Proof.
  unfold uuidSet_Normalize. case_bool_decide; [done|].
  destruct (Atoi k) as [i|]; [|done]. destruct (_ && _) eqn:Hi; [|done]. go_bool.
  destruct Hi as [??]. destruct (uuids !! _) eqn:E; [done|].
  apply lookup_ge_None in E. lia.
Qed.

(** A limit that is accepted: at least one MiB. *)
Definition limit_valid (q : Q) : Prop := 1024 * 1024 ≤ Value q.

Lemma Megabyte_valid q : 0 ≤ Value q → snd (Megabyte q) = true ↔ limit_valid q.
Proof.
  intros Hq. unfold Megabyte, limit_valid. simpl. rewrite Z.ltb_lt.
  rewrite (Z.quot_div_nonneg (Value q)) by lia.
  rewrite Z.quot_div_nonneg by (try apply Z.div_pos; lia).
  rewrite Z.div_div by lia. split; intros Hv.
  - pose proof (Z.mul_div_le (Value q) (1024 * 1024)). lia.
  - apply Z.div_str_pos. lia.
Qed.

(** The limits by their meaning: an entry that names the device by UUID or by
    index, else the default. *)
Definition limit_for (entries : list (string * Q)) (uuids : list string) (def : option Q)
    (u : string) (text : string) : Prop :=
  (∃ k q, (k, q) ∈ entries ∧ uuidSet_Normalize uuids k = Ok u ∧ text = fst (Megabyte q)) ∨
  ((∀ k q, (k, q) ∈ entries → uuidSet_Normalize uuids k ≠ Ok u) ∧
   u ∈ uuids ∧ ∃ q, def = Some q ∧ text = fst (Megabyte q)).

(** No two entries name the same device. *)
Definition one_entry_per_device (entries : list (string * Q)) (uuids : list string) : Prop :=
  ∀ k1 q1 k2 q2 u, (k1, q1) ∈ entries → (k2, q2) ∈ entries →
    uuidSet_Normalize uuids k1 = Ok u → uuidSet_Normalize uuids k2 = Ok u → q1 = q2.

Lemma lookup_limit_get def uuids limits u :
  limit_get def uuids = Ok limits →
  limits !! u = (if decide (u ∈ uuids) then fst ∘ Megabyte <$> def else None).
Proof.
  unfold limit_get. destruct def as [d|]; [|intros [= <-]; by case_decide].
  destruct (list_len0 uuids) eqn:Hu; go_bool.
  { subst. intros [= <-]. rewrite lookup_empty, decide_False; [done|]. apply not_elem_of_nil. }
  destruct (Megabyte d) as [mb valid] eqn:Hm. destruct (negb valid); [done|]. intros [= <-].
  change ((fst ∘ Megabyte) <$> Some d) with (Some (fst (Megabyte d))). rewrite Hm. clear Hu. simpl.
  generalize (∅ : gmap string string) (lookup_empty (A:=string) (M:=gmap string) u).
  induction uuids as [|v l IH]; intros m Hmu; [done|]; simpl foldl.
  destruct (decide (u = v)) as [->|Hne].
  - rewrite decide_True by left. clear IH. generalize (lookup_insert_eq m v mb).
    generalize (<[v:=mb]> m). induction l as [|w l IH]; intros m' Hm'; simpl; [done|].
    apply IH. destruct (decide (v = w)) as [->|]; by rewrite ?lookup_insert_eq, ?lookup_insert_ne.
  - rewrite IH by (by rewrite lookup_insert_ne). apply decide_ext. rewrite elem_of_cons. naive_solver.
Qed.

Lemma named_or_not (entries : list (string * Q)) uuids u :
  (∃ k q, (k, q) ∈ entries ∧ uuidSet_Normalize uuids k = Ok u) ∨
  (∀ k q, (k, q) ∈ entries → uuidSet_Normalize uuids k ≠ Ok u).
Proof.
  destruct (decide (Exists (λ kq, uuidSet_Normalize uuids kq.1 = Ok u) entries)) as [He|He];
    rewrite Exists_exists in He.
  - left. destruct He as ([k q] & Hin & Hr). by exists k, q.
  - right. intros k q Hin Hr. apply He. by exists (k, q).
Qed.

Lemma limitLoop_lookup uuids entries limits out u :
  one_entry_per_device entries uuids → limitLoop uuids entries limits = Ok out →
  (∀ k q, (k, q) ∈ entries → uuidSet_Normalize uuids k = Ok u → out !! u = Some (fst (Megabyte q))) ∧
  ((∀ k q, (k, q) ∈ entries → uuidSet_Normalize uuids k ≠ Ok u) → out !! u = limits !! u).
Proof.
  revert limits. induction entries as [|[k v] l IH]; intros limits Hone Hloop.
  { simplify_eq/=. split; [|done]. intros ?? Hin. by apply elem_of_nil in Hin. }
  cbn [limitLoop] in Hloop. unfold limitStep in Hloop. destruct (uuidSet_Normalize uuids k) as [w|] eqn:Hk; [|done].
  destruct (Megabyte v) as [mb valid] eqn:Hm. simpl in Hloop.
  destruct (negb valid); [done|]. simpl in Hloop.
  destruct (IH (<[w:=mb]> limits)) as [Hin Hout]; [|done|].
  { intros k1 q1 k2 q2 x ??. apply (Hone k1 q1 k2 q2); by right. }
  split.
  - intros k' q [Heq|Hl]%elem_of_cons Hr; [|by apply (Hin k' q)].
    simplify_eq. rewrite Hk in Hr. simplify_eq.
    destruct (named_or_not l uuids u) as [(k2 & q2 & Hl & Hr2)|Hno].
    + rewrite (Hin k2 q2) by done. by rewrite (Hone k2 q2 k v u); [|right|left| |].
    + by rewrite Hout, lookup_insert_eq, Hm.
  - intros Hno. rewrite Hout by (intros k' q Hl; apply (Hno k' q); by right).
    apply lookup_insert_ne. intros ->. by apply (Hno k v); [left|].
Qed.

(** The limits that [Normalize] computes for the allocated devices do not
    depend on the iteration order of the map when every device is named at
    most once: each device gets the limit of the entry that names it by UUID
    or by index, the others the default, and no other device appears. *)
Theorem MpsLimit_Normalize_spec entries uuids def limits :
  one_entry_per_device entries uuids →
  MpsLimit_Normalize entries uuids def = Ok limits →
  ∀ u text, limits !! u = Some text ↔ limit_for entries uuids def u text.
Proof.
  intros Hone Hnorm u text. unfold MpsLimit_Normalize in Hnorm.
  destruct (limit_get def uuids) as [l0|] eqn:Hget; [|done]. simpl in Hnorm.
  destruct (limitLoop_lookup _ _ _ _ u Hone Hnorm) as [Hin Hout].
  rewrite (lookup_limit_get _ _ _ u Hget) in Hout.
  unfold limit_for.
  destruct (named_or_not entries uuids u) as [(k & q & Hl & Hr)|Hn].
  - rewrite (Hin k q) by done. split.
    + intros [= <-]. left. by exists k, q.
    + intros [(k' & q' & Hl' & Hr' & ->)|[Hn _]]; [|by destruct (Hn k q Hl)].
      by rewrite (Hone k q k' q' u).
  - rewrite Hout by done. split.
    + intros Ht. right. split; [done|]. case_decide; [|done]. split; [done|].
      destruct def as [q|]; [|done]. simplify_eq/=. by exists q.
    + intros [(k' & q' & Hl' & Hr' & ->)|(_ & Hu & q & -> & ->)]; [by destruct (Hn k' q' Hl')|].
      by rewrite decide_True.
Qed.
End Config.

Arguments MpsConfig Q : clear implicits.
Arguments GpuSharing Q : clear implicits.
Arguments MigDeviceSharing Q : clear implicits.
Arguments GpuConfig Q : clear implicits.
Arguments MigDeviceConfig Q : clear implicits.
Arguments Config Q : clear implicits.

(** ** Concrete configurations *)
Module ConfigExamples.

Definition mib (n : Z) : int_quantity := IntQuantity (n * 1024 * 1024) BinarySI.

Definition timeSliced : GpuConfig int_quantity :=
  mkGpuConfig (metaFor GpuConfigKind) (Some (mkGpuSharing TimeSlicingStrategy None None)).

Lemma GpuConfig_usable_witness :
  sharing_usable
    (mkGpuSharing (Q:=int_quantity) TimeSlicingStrategy
       (Some (mkTimeSlicingConfig (Some DefaultTimeSlice))) None).
Proof. exact (GpuConfig_usable timeSliced eq_refl). Defined.

(** Both sections given: accepted by [Validate], refused by the getter. *)
Example GpuConfig_both_sections :
  let c := mkGpuConfig (Q:=int_quantity) (metaFor GpuConfigKind)
    (Some (mkGpuSharing TimeSlicingStrategy None (Some emptyMps))) in
  (GpuConfig_Validate (GpuConfig_Normalize c),
   is_Ok (gs_GetTimeSlicingConfig (gc_Sharing (GpuConfig_Normalize c)))) = (Ok (), false).
Proof. reflexivity. Qed.

Definition uuids : list string := ["GPU-a"; "GPU-b"].
Definition limits : gmap string string := {[ "GPU-a" := "512M"; "GPU-b" := "1024M" ]}.

Lemma MpsLimit_Normalize_spec_witness :
  MpsLimit_Normalize [("1", mib 1024)] uuids (Some (mib 512)) = Ok limits ∧
  ∀ u text, limits !! u = Some text ↔
    limit_for [("1", mib 1024)] uuids (Some (mib 512)) u text.
Proof.
  split; [vm_compute; reflexivity|].
  apply (MpsLimit_Normalize_spec [("1", mib 1024)] uuids (Some (mib 512))).
  - intros k1 q1 k2 q2 u H1 H2 _ _. apply list_elem_of_singleton in H1, H2. congruence.
  - vm_compute. reflexivity.
Defined.

(** One device named twice, by index and by UUID: the iteration order of the
    map decides. *)
Example MpsLimit_order_matters :
  MpsLimit_Normalize [("0", mib 512); ("GPU-a", mib 1024)] uuids None
    = Ok {[ "GPU-a" := "1024M" ]} ∧
  MpsLimit_Normalize [("GPU-a", mib 1024); ("0", mib 512)] uuids None
    = Ok {[ "GPU-a" := "512M" ]}.
Proof. split; vm_compute; reflexivity. Qed.
End ConfigExamples.
