(* ===== verification/Effects.v ===== *)
(** * Effects and protocols

    The monad of calls, errors and state, and invariants over the calls that
    were made. *)

From S2P Require Import Prelude.

(** * State, errors and a trace of external calls

    Steps of a pipeline mutate a state record, may fail, and call external
    managers.  A computation takes the state and the history of external
    calls, and returns a result with the state and the history after it; the
    state survives an error, as the fields of a Go struct do.  External calls
    are functions of the history, so that an answer may depend on everything
    that happened before. *)

Section Monad.
Context {E S : Type}.

Definition M (A : Type) : Type := S → list E → res A * (S * list E).

#[global] Instance M_ret : MRet M := λ A a s h, (Ok a, (s, h)).
#[global] Instance M_bind : MBind M := λ A B f m s h,
  match m s h with
  | (Ok a, (s', h')) => f a s' h'
  | (Err e, sh') => (Err e, sh')
  end.

Definition fail {A} (e : error) : M A := λ s h, (Err e, (s, h)).
Definition get : M S := λ s h, (Ok s, (s, h)).
Definition modify (f : S → S) : M () := λ s h, (Ok (), (f s, h)).
Definition liftR {A} (r : res A) : M A := λ s h, (r, (s, h)).

(** An external call [f], recorded with its answer. *)
Definition call {A} (f : list E → res A) (ev : res A → E) : M A :=
  λ s h, (f h, (s, h ++ [ev (f h)])).

(** [if err != nil { return fmt.Errorf(..., err) }] *)
Definition wrapErr {A} (w : error → error) (m : M A) : M A := λ s h,
  match m s h with
  | (Err e, sh') => (Err (w e), sh')
  | ok => ok
  end.

Fixpoint forEach {A} (f : A → M ()) (l : list A) : M () :=
  match l with
  | [] => mret ()
  | a :: rest => f a ≫= λ _, forEach f rest
  end.

(** A call whose error is looked at. *)
Definition try {A} (m : M A) : M (res A) := λ s h, let '(r, sh) := m s h in (Ok r, sh).

(** An event sent, when there is a recorder. *)
Definition emit (recorder : bool) (ev : E) : M () := λ s h, (Ok (), (s, if recorder then h ++ [ev] else h)).

(** A loop that goes on after an error and collects the errors. *)
Fixpoint collectErrors {A} (f : A → M ()) (l : list A) : M (list error) :=
  match l with
  | [] => mret []
  | a :: rest => r ← try (f a); errs ← collectErrors f rest; mret (match r with Err e => e :: errs | Ok _ => errs end)
  end.

(** ** common/steptaker: a step continues ([None]), finishes or fails *)

Definition continue_ : M (option ()) := mret None.
Definition final : M (option ()) := mret (Some ()).

Fixpoint Run (steps : list (M (option ()))) : M () :=
  match steps with
  | [] => fail (Errorf "none of the steps returned a final result" [])
  | s :: rest => s ≫= λ r, match r with Some _ => mret () | None => Run rest end
  end.

Lemma Run_continue m rest s h s' h' :
  m s h = (Ok None, (s', h')) → Run (m :: rest) s h = Run rest s' h'.
Proof. intros Hm. simpl. unfold mbind, M_bind. by rewrite Hm. Qed.

Lemma Run_final m rest s h s' h' :
  m s h = (Ok (Some ()), (s', h')) → Run (m :: rest) s h = (Ok (), (s', h')).
Proof. intros Hm. simpl. unfold mbind, M_bind. by rewrite Hm. Qed.

(** ** Triples

    [triple P m R]: from a state and a history in [P], whatever the external
    calls answer, the outcome is in [R]. *)
Definition triple {A} (P : S → list E → Prop) (m : M A) (R : res A → S → list E → Prop) : Prop :=
  ∀ s h, P s h → R (fst (m s h)) (fst (snd (m s h))) (snd (snd (m s h))).

(** The postcondition of a computation with the error outcome [X]. *)
Definition post {A} (R : A → S → list E → Prop) (X : error → S → list E → Prop)
    (r : res A) (s : S) (h : list E) : Prop :=
  match r with Ok a => R a s h | Err e => X e s h end.

Lemma triple_bind {A B} P (m : M A) (f : A → M B) R X Post :
  triple P m (post R X) → (∀ a, triple (R a) (f a) Post) →
  (∀ e s h, X e s h → Post (Err e) s h) → triple P (m ≫= f) Post.
Proof.
  intros Hm Hf HX s h HP. specialize (Hm s h HP). unfold mbind, M_bind.
  destruct (m s h) as [[a|e] [s' h']]; simpl in *; [by apply Hf|by apply HX].
Qed.

Lemma triple_conseq {A} (P P' : S → list E → Prop) (m : M A) (R R' : res A → S → list E → Prop) :
  triple P m R → (∀ s h, P' s h → P s h) → (∀ r s h, R r s h → R' r s h) → triple P' m R'.
Proof. intros Hm HP HR s h Hs. apply HR, Hm, HP, Hs. Qed.

Lemma triple_ret {A} (P : S → list E → Prop) (a : A) R :
  (∀ s h, P s h → R (Ok a) s h) → triple P (mret a) R.
Proof. intros HR s h HP. by apply HR. Qed.

Lemma triple_forEach {A} (I : list A → S → list E → Prop) (f : A → M ()) (X : error → S → list E → Prop) l :
  (∀ done_ a rest, l = done_ ++ a :: rest →
     triple (I done_) (f a) (post (λ _, I (done_ ++ [a])) X)) →
  triple (I []) (forEach f l) (post (λ _, I l) X).
Proof.
  intros Hf.
  assert (∀ rest done_, l = done_ ++ rest →
    triple (I done_) (forEach f rest) (post (λ _, I l) X)) as Hgen; [|by apply (Hgen l [])].
  induction rest as [|a rest IH]; intros done_ ->; simpl.
  - rewrite app_nil_r. by apply triple_ret.
  - eapply triple_bind; [by eapply Hf| |done]. intros []. apply IH. by rewrite <- app_assoc.
Qed.

(** A pipeline: assertion by assertion. *)
Inductive chain (Post : res () → S → list E → Prop)
    : (S → list E → Prop) → list (M (option ())) → Prop :=
| chain_nil (I : S → list E → Prop) :
    (∀ s h e, I s h → Post (Err e) s h) → chain Post I []
| chain_cons (I J : S → list E → Prop) m rest :
    triple I m (post (λ r s h, match r with Some _ => Post (Ok ()) s h | None => J s h end)
                  (λ e s h, Post (Err e) s h)) →
    chain Post J rest → chain Post I (m :: rest).

Lemma Run_chain Post I steps : chain Post I steps → triple I (Run steps) Post.
Proof.
  induction 1 as [I HI|I J m rest Hm _ IH]; simpl.
  - intros s h Hs. by apply HI.
  - eapply triple_bind; [exact Hm| |done]. intros [[]|]; [by apply triple_ret|apply IH].
Qed.
End Monad.
Arguments M E S A : clear implicits.
Abbreviation StepTaker E S := (M E S (option ())).

(** * Protocols: automata over external calls, and triples against them

    A protocol is a transition relation on phases labelled by calls.  A
    computation is verified against it with assertions on its state and the
    phase its trace has reached. *)

Section Automaton.
Context {E P : Type} (next : P → E → P → Prop).

Inductive runs : P → list E → P → Prop :=
| runs_nil p : runs p [] p
| runs_snoc p t q e r : runs p t q → next q e r → runs p (t ++ [e]) r.

Lemma runs_prefix p t q :
  runs p t q → ∀ l1 e l2, t = l1 ++ e :: l2 → ∃ p1 p2, runs p l1 p1 ∧ next p1 e p2.
Proof.
  induction 1 as [p|p t q e r Ht IH Hn]; intros l1 e' l2 Heq.
  - by destruct l1.
  - destruct (decide (l2 = [])) as [->|Hne].
    + apply app_inj_tail in Heq as [-> ->]. by exists q, r.
    + apply exists_last in Hne as (l2' & z & ->).
      rewrite app_comm_cons, app_assoc in Heq. apply app_inj_tail in Heq as [-> ->].
      by eapply IH.
Qed.

Lemma runs_split p t1 t2 q :
  runs p (t1 ++ t2) q → ∃ m, runs p t1 m ∧ runs m t2 q.
Proof.
  intros Ht. remember (t1 ++ t2) as t eqn:Heq. revert t1 t2 Heq.
  induction Ht as [p|p t m e r Ht IH Hn]; intros t1 t2 Heq.
  - destruct t1, t2; try done. exists p. split; constructor.
  - destruct (decide (t2 = [])) as [->|Hne].
    + rewrite app_nil_r in Heq. subst. exists r. split; [by econstructor|constructor].
    + apply exists_last in Hne as (t2' & z & ->). rewrite app_assoc in Heq.
      apply app_inj_tail in Heq as [-> ->]. destruct (IH t1 t2' eq_refl) as (m' & Ha & Hb).
      exists m'. split; [done|]. by econstructor.
Qed.

Lemma runs_cons p e t q :
  runs p (e :: t) q → ∃ m, next p e m ∧ runs m t q.
Proof.
  intros Ht. apply (runs_split p [e] t) in Ht as (m & Ha & Hb). exists m. split; [|done].
  remember [e] as l eqn:Heq. destruct Ha as [|p t' q' e' r Ha' Hn]; [done|].
  apply (app_inj_tail t' []) in Heq as [-> ->].
  remember [] as l eqn:Heq. destruct Ha' as [|? t'' ? ? ? ? ?]; [done|by destruct t''].
Qed.

End Automaton.

Definition at_ {E S P : Type} (next : P → E → P → Prop) (p0 : P) (h0 : list E)
    (Φ : S → P → Prop) (s : S) (h : list E) : Prop :=
  ∃ t p, h = h0 ++ t ∧ runs next p0 t p ∧ Φ s p.

Section Assertions.
Context {E S P : Type} {next : P → E → P → Prop} {p0 : P} {h0 : list E}.
(** What is known of the state when a step fails, and when the pipeline ends. *)
Context {stop success : S → P → Prop}.

#[local] Abbreviation at_ := (at_ next p0 h0).
#[local] Abbreviation failed := (λ _ : error, at_ stop).

Definition goes_ (Ψ : S → P → Prop) (r : option ()) : S → list E → Prop :=
  match r with Some _ => at_ success | None => at_ Ψ end.
#[local] Abbreviation goes := goes_.

Lemma at_mono (Φ Ψ : S → P → Prop) s h :
  (∀ s p, Φ s p → Ψ s p) → at_ Φ s h → at_ Ψ s h.
Proof. intros Himp (t & p & -> & Ht & HΦ). exists t, p. auto. Qed.

Lemma triple_seq {A B} Pre (m : M E S A) (f : A → M E S B) R R' :
  triple Pre m (post R failed) → (∀ a, triple (R a) (f a) (post R' failed)) →
  triple Pre (m ≫= f) (post R' failed).
Proof. intros Hm Hf. by eapply triple_bind. Qed.

Lemma triple_pre {A} (Φ Φ' : S → P → Prop) (m : M E S A) R :
  (∀ s p, Φ' s p → Φ s p) → triple (at_ Φ) m R → triple (at_ Φ') m R.
Proof. intros Himp Hm s h Hs. apply Hm. by apply (at_mono Φ'). Qed.

Lemma triple_get {B} Φ (f : S → M E S B) R :
  (∀ s0, triple (at_ (λ s p, s = s0 ∧ Φ s p)) (f s0) R) → triple (at_ Φ) (get ≫= f) R.
Proof.
  intros Hf s h (t & p & -> & Ht & HΦ). apply Hf. by exists t, p.
Qed.

Lemma triple_modify Φ (Ψ : S → P → Prop) (g : S → S) :
  (∀ s p, Φ s p → Ψ (g s) p) → triple (at_ Φ) (modify g) (post (λ _, at_ Ψ) failed).
Proof. intros Hg s h (t & p & -> & Ht & HΦ). exists t, p. split_and!; [done..|by apply Hg]. Qed.

Lemma triple_fail {A} Φ e (R : A → S → list E → Prop) :
  (∀ s p, Φ s p → stop s p) → triple (at_ Φ) (fail e) (post R failed).
Proof. intros Hf s h (t & p & -> & Ht & HΦ). exists t, p. split_and!; [done..|by apply Hf]. Qed.

Lemma triple_lift {A} Φ (r : res A) (R : A → S → P → Prop) :
  (∀ s p, Φ s p → match r with Ok a => R a s p | Err _ => stop s p end) →
  triple (at_ Φ) (liftR r) (post (λ a, at_ (R a)) failed).
Proof.
  intros Hf s h (t & p & -> & Ht & HΦ). specialize (Hf s p HΦ).
  destruct r; exists t, p; by split_and!.
Qed.

Lemma triple_wrapErr {A} Pre w (m : M E S A) R X :
  triple Pre m (post R (λ _, X)) → triple Pre (wrapErr w m) (post R (λ _, X)).
Proof.
  intros Hm s h HP. specialize (Hm s h HP). unfold wrapErr.
  by destruct (m s h) as [[a|e] [s' h']].
Qed.

(** A call: the automaton has a transition for every answer. *)
Lemma triple_call_at {A} Φ (f : list E → res A) ev (Ψ : A → S → P → Prop) :
  (∀ s p t r, Φ s p → runs next p0 t p → f (h0 ++ t) = r → ∃ p', next p (ev r) p' ∧
     match r with Ok a => Ψ a s p' | Err _ => stop s p' end) →
  triple (at_ Φ) (call f ev) (post (λ a, at_ (Ψ a)) failed).
Proof.
  intros Hf s h (t & p & -> & Ht & HΦ). unfold call. simpl.
  destruct (Hf s p t (f (h0 ++ t)) HΦ Ht eq_refl) as (p' & Hn & Hr).
  assert (runs next p0 (t ++ [ev (f (h0 ++ t))]) p') as Ht' by (by econstructor).
  destruct (f (h0 ++ t)) eqn:Hfh; exists (t ++ [ev (f (h0 ++ t))]), p'; rewrite Hfh in *;
    by rewrite <- app_assoc.
Qed.

Lemma triple_call {A} Φ (f : list E → res A) ev (Ψ : A → S → P → Prop) :
  (∀ s p r, Φ s p → ∃ p', next p (ev r) p' ∧
     match r with Ok a => Ψ a s p' | Err _ => stop s p' end) →
  triple (at_ Φ) (call f ev) (post (λ a, at_ (Ψ a)) failed).
Proof. intros Hf. apply triple_call_at. eauto. Qed.

(** Fix the state (and use what is known of it). *)
Lemma triple_fix {A} Φ (m : M E S A) R :
  (∀ s1 p1, Φ s1 p1 → triple (at_ (λ s p, s = s1 ∧ Φ s p)) m R) → triple (at_ Φ) m R.
Proof.
  intros Hm s h (t & p & -> & Ht & HΦ). apply (Hm s p HΦ). by exists t, p.
Qed.

Lemma triple_continue Φ : triple (at_ Φ) continue_ (post (goes Φ) failed).
Proof. intros s h Hs. exact Hs. Qed.

Lemma triple_then {A} Pre (m : M E S A) Ψ :
  triple Pre m (post (λ _, at_ Ψ) failed) →
  triple Pre (m ≫= λ _, continue_) (post (goes Ψ) failed).
Proof. intros Hm. eapply triple_seq; [exact Hm|]. intros a. apply triple_continue. Qed.

Lemma triple_finish Φ (g : S → S) Ψ :
  (∀ s p, Φ s p → success (g s) p) → triple (at_ Φ) (modify g ≫= λ _, final) (post (goes Ψ) failed).
Proof.
  intros Hg. eapply triple_seq; [by apply (triple_modify _ success)|]. intros []. by intros s h.
Qed.

Lemma triple_loop {A} (I : list A → S → P → Prop) (f : A → M E S ()) l :
  (∀ done_ a rest, l = done_ ++ a :: rest →
     triple (at_ (I done_)) (f a) (post (λ _, at_ (I (done_ ++ [a]))) failed)) →
  triple (at_ (I [])) (forEach f l) (post (λ _, at_ (I l)) failed).
Proof. intros Hf. by apply (triple_forEach (λ d, at_ (I d))). Qed.

(** A step of a pipeline. *)
Lemma chain_step Φ m Ψ rest :
  triple (at_ Φ) m (post (goes Ψ) failed) →
  chain (post (λ _, at_ success) failed) (at_ Ψ) rest →
  chain (post (λ _, at_ success) failed) (at_ Φ) (m :: rest).
Proof.
  intros Hm Hrest. eapply chain_cons; [|exact Hrest].
  eapply triple_conseq; [exact Hm|done|]. by intros [[[]|]|e] s h.
Qed.
End Assertions.
