(* ===== verification/Prepare.v ===== *)
(** * Node-local preparation: pkg/dra/services/prepare

    [Prepare] and [Unprepare] run a pipeline of steps under a node lock: load
    the checkpoint, plan, check that GPUs are idle, save a write-ahead record,
    call the MIG / VFIO / sharing / CDI managers, save the completed record.
    The managers ([ports]) are records of functions of the call history; a nil
    manager is [None].  Every call is recorded as an event.

    Slices and maps are values: no step keeps a reference to a device state or
    an attribute map that another step mutates ([PlanPrepareStep] clones the
    attributes, and the claim put in the checkpoint is replaced, not read,
    before it is saved again). *)

From S2P Require Import Prelude GoLib DeviceModel ConfigApi Effects.

(** ** domain/checkpoint.go *)

Record MigPrepareRequest := mkMigPrepareRequest {
  mpr_PCIBusID : string;
  mpr_ProfileID : Z;
  mpr_SliceStart : Z;
  mpr_SliceSize : Z;
}.

Record PreparedMigDevice := mkPreparedMigDevice {
  pmd_PCIBusID : string;
  pmd_ProfileID : Z;
  pmd_SliceStart : Z;
  pmd_SliceSize : Z;
  pmd_GPUInstanceID : Z;
  pmd_ComputeInstanceID : Z;
  pmd_DeviceUUID : string;
}.

Record PreparedVfioDevice := mkPreparedVfioDevice {
  pvd_PCIBusID : string;
  pvd_OriginalDriver : string;
  pvd_IommuGroup : Z;
}.

Record PreparedMpsState := mkPreparedMpsState {
  pms_ControlID : string;
  pms_PipeDir : string;
  pms_ShmDir : string;
  pms_LogDir : string;
}.

Record PreparedSharing := mkPreparedSharing {
  psh_Strategy : string;
  psh_DeviceUUID : string;
  psh_MPS : option PreparedMpsState;
}.

Record PreparedDeviceState := mkPreparedDeviceState {
  pds_Request : string;
  pds_Pool : string;
  pds_Device : string;
  pds_CDIDeviceIDs : list string;
  pds_MIG : option PreparedMigDevice;
  pds_VFIO : option PreparedVfioDevice;
  pds_Sharing : option PreparedSharing;
}.

Definition PrepareStateStarted : string := "PrepareStarted".
Definition PrepareStateCompleted : string := "PrepareCompleted".

Record PreparedClaim := mkPreparedClaim {
  pc_State : string;
  pc_Devices : list PreparedDeviceState;
}.

(** The zero value. *)
Definition zeroClaim : PreparedClaim := mkPreparedClaim "" [].

Record PrepareCheckpoint := mkPrepareCheckpoint {
  pcp_Version : string;
  pcp_Claims : gmap string PreparedClaim;
}.
Definition zeroCheckpoint : PrepareCheckpoint := mkPrepareCheckpoint "" ∅.

Definition setClaim (uid : string) (c : PreparedClaim) (cp : PrepareCheckpoint)
    : PrepareCheckpoint :=
  mkPrepareCheckpoint (pcp_Version cp) (<[uid := c]> (pcp_Claims cp)).
Definition dropClaim (uid : string) (cp : PrepareCheckpoint) : PrepareCheckpoint :=
  mkPrepareCheckpoint (pcp_Version cp) (delete uid (pcp_Claims cp)).

(** ** domain/types.go *)

Record PreparedDevice := mkPreparedDevice {
  pdv_Request : string;
  pdv_Pool : string;
  pdv_Device : string;
  pdv_CDIDeviceIDs : list string;
}.

Record PrepareResult := mkPrepareResult {
  pres_ClaimUID : string;
  pres_Devices : list PreparedDevice;
}.

Section Types.
Context {Q : Type} `{Quantity Q}.

Record PrepareDevice := mkPrepareDevice {
  pd_Request : string;
  pd_Driver : string;
  pd_Pool : string;
  pd_Device : string;
  pd_ShareID : string;
  pd_ConsumedCapacity : gmap string Q;
  pd_Attributes : gmap string AttributeValue;
  pd_Config : option (Config Q);
}.

Record PrepareRequest := mkPrepareRequest {
  pr_ClaimUID : string;
  pr_NodeName : string;
  pr_VFIO : bool;
  pr_Devices : list PrepareDevice;
}.

Record MpsPrepareRequest := mkMpsPrepareRequest {
  mpq_ControlID : string;
  mpq_DeviceUUIDs : list string;
  mpq_Config : option (MpsConfig Q);
}.

(** ** The calls to the ports, with their answers *)

Inductive event :=
| ELock (r : res ())
| EUnlock (r : res ())
| ELoad (r : res PrepareCheckpoint)
| ESave (cp : PrepareCheckpoint) (r : res ())
| EEnsureGPUFree (pci : string) (r : res ())
| EMigPrepare (q : MigPrepareRequest) (r : res PreparedMigDevice)
| EMigUnprepare (m : PreparedMigDevice) (r : res ())
| EVfioPrepare (pci : string) (r : res PreparedVfioDevice)
| EVfioUnprepare (v : PreparedVfioDevice) (r : res ())
| ESetTimeSlice (uuids : list string) (c : option TimeSlicingConfig) (r : res ())
| EMpsStart (q : MpsPrepareRequest) (r : res PreparedMpsState)
| EMpsStop (m : PreparedMpsState) (r : res ())
| ECDIWrite (q : PrepareRequest) (r : res (gmap string (list string)))
| ECDIDelete (uid : string) (r : res ())
| ENotify.

Abbreviation history := (list event).

(** ** ports.go *)

Record PrepareLocker := {
  lk_Lock : history → res ();
  lk_Unlock : history → res ();
}.
Record PrepareCheckpointStore := {
  st_Load : history → res PrepareCheckpoint;
  st_Save : history → PrepareCheckpoint → res ();
}.
Record MigManager := {
  mig_Prepare : history → MigPrepareRequest → res PreparedMigDevice;
  mig_Unprepare : history → PreparedMigDevice → res ();
}.
Record VfioManager := {
  vfio_Prepare : history → string → res PreparedVfioDevice;
  vfio_Unprepare : history → PreparedVfioDevice → res ();
}.
Record GPUProcessChecker := { chk_EnsureGPUFree : history → string → res () }.
Record TimeSlicingManager := {
  ts_SetTimeSlice : history → list string → option TimeSlicingConfig → res ();
}.
Record MpsManager := {
  mps_Start : history → MpsPrepareRequest → res PreparedMpsState;
  mps_Stop : history → PreparedMpsState → res ();
}.
Record CDIWriter := {
  cdi_Write : history → PrepareRequest → res (gmap string (list string));
  cdi_Delete : history → string → res ();
}.

(** ** service.go: Options *)

Record Options := mkOptions {
  opt_CDI : option CDIWriter;
  opt_MIG : option MigManager;
  opt_VFIO : option VfioManager;
  opt_TimeSlicing : option TimeSlicingManager;
  opt_Mps : option MpsManager;
  opt_Locker : option PrepareLocker;
  opt_Checkpoints : option PrepareCheckpointStore;
  opt_GPUChecker : option GPUProcessChecker;
  opt_ResourcesNotifier : bool;
}.

(** ** state/prepare.go, state/unprepare.go; [Unlock] says whether the unlock
    function is set *)

Record PrepareState := mkPrepareState {
  ps_Request : PrepareRequest;
  ps_MutableRequest : PrepareRequest;
  ps_Checkpoint : PrepareCheckpoint;
  ps_Claim : PreparedClaim;
  ps_DeviceMap : gmap string PrepareDevice;
  ps_DeviceStates : list PreparedDeviceState;
  ps_Result : PrepareResult;
  ps_Unlock : bool;
  ps_ResourcesChanged : bool;
}.

Definition NewPrepareState (req : PrepareRequest) : PrepareState :=
  mkPrepareState req req zeroCheckpoint zeroClaim ∅ [] (mkPrepareResult "" []) false false.

Record UnprepareState := mkUnprepareState {
  us_ClaimUID : string;
  us_Checkpoint : PrepareCheckpoint;
  us_Claim : PreparedClaim;
  us_Unlock : bool;
  us_Skip : bool;
  us_ResourcesChanged : bool;
}.

Definition NewUnprepareState (claimUID : string) : UnprepareState :=
  mkUnprepareState claimUID zeroCheckpoint zeroClaim false false false.
End Types.
Arguments PrepareDevice Q : clear implicits.
Arguments PrepareRequest Q : clear implicits.
Arguments MpsPrepareRequest Q : clear implicits.
Arguments event Q : clear implicits.
Arguments PrepareState Q : clear implicits.
Arguments Options Q : clear implicits.
Arguments CDIWriter Q : clear implicits.
Arguments MigManager Q : clear implicits.
Arguments VfioManager Q : clear implicits.
Arguments TimeSlicingManager Q : clear implicits.
Arguments MpsManager Q : clear implicits.
Arguments PrepareLocker Q : clear implicits.
Arguments PrepareCheckpointStore Q : clear implicits.
Arguments GPUProcessChecker Q : clear implicits.
