(* ===== verification/PrepareSteps.v ===== *)
(** * The steps of the prepare and unprepare pipelines

    pkg/dra/services/prepare: step/, internal/device, checkpoint, pipeline.go
    and service.go.  One definition per [Take]; the guard against a nil state
    is left out, since the service always passes one. *)

From S2P Require Import Prelude GoLib DeviceModel ConfigApi Effects Prepare.

(** ** internal/device/device.go *)

Definition CloneAttributes (attrs : gmap string AttributeValue) : gmap string AttributeValue := attrs.

Definition badName (name : string) : error := Errorf "invalid mig device name %q" [name].

Definition parseMigDeviceName (name : string) : res (Z * Z * Z) :=
  let name := TrimSpace name in
  if negb (HasPrefix name "mig-") then Err (badName name) else
  match SplitN2 name "-p" with
  | [_; profilePart] =>
      match SplitN2 profilePart "-s" with
      | [profile; placement] =>
          match Atoi profile with
          | None => Err (Errorf "invalid mig profile id in %q" [name])
          | Some profileID =>
              match SplitN2 placement "-n" with
              | [startPart; sizePart] =>
                  match Atoi startPart with
                  | None => Err (Errorf "invalid mig placement start in %q" [name])
                  | Some start =>
                      match Atoi sizePart with
                      | None => Err (Errorf "invalid mig placement size in %q" [name])
                      | Some size => Ok (profileID, start, size)
                      end
                  end
              | _ => Err (badName name)
              end
          end
      | _ => Err (badName name)
      end
  | _ => Err (badName name)
  end.

Example parseMigDeviceName_ex :
  parseMigDeviceName " mig-0000-65-00-0-p19-s4-n1 " = Ok (19, 4, 1).
Proof. reflexivity. Qed.

(** The hash of a control id: [hex.EncodeToString(sha256.Sum256(payload))],
    and the JSON text of an MPS configuration ([None] when it cannot be
    encoded, as with a NaN; its quantities are encoded outside the
    repository). *)
Class MpsEncoding (Q : Type) := {
  sha256_hex : string → string;
  json_MpsConfig : MpsConfig Q → option string;
}.

(** [range] over a map visits the keys in some order, which may differ from
    call to call. *)
Class RangeOrder (Q : Type) := {
  rangeKeys : list (event Q) → list string → list string;
  rangeKeys_perm h l : rangeKeys h l ≡ₚ l;
}.

Section Steps.
Context {Q : Type} `{Quantity Q} `{MpsEncoding Q} `{RangeOrder Q}.

Abbreviation PDevice := (PrepareDevice Q).
Abbreviation PState := (PrepareState Q).
Abbreviation PStep := (StepTaker (event Q) PState).
Abbreviation PM := (M (event Q) PState).
Abbreviation UStep := (StepTaker (event Q) UnprepareState).
Abbreviation UM := (M (event Q) UnprepareState).

Definition deviceTypeOf (dev : PDevice) : string := AttrString (pd_Attributes dev) AttrDeviceType.
Definition pciOf (dev : PDevice) : string := AttrString (pd_Attributes dev) AttrPCIAddress.

Definition BuildMigPrepareRequest (dev : PDevice) : res MigPrepareRequest :=
  let pci := pciOf dev in
  if str_eqb pci "" then Err (Errorf "pci address is missing for device %q" [pd_Device dev]) else
  match parseMigDeviceName (pd_Device dev) with
  | Err e => Err e
  | Ok (profileID, start, size) => Ok (mkMigPrepareRequest pci profileID start size)
  end.

(** ** Field updates of the mutable state *)

Definition setMutable (r : PrepareRequest Q) (s : PState) : PState :=
  mkPrepareState (ps_Request s) r (ps_Checkpoint s) (ps_Claim s) (ps_DeviceMap s)
    (ps_DeviceStates s) (ps_Result s) (ps_Unlock s) (ps_ResourcesChanged s).
Definition setCheckpoint (c : PrepareCheckpoint) (s : PState) : PState :=
  mkPrepareState (ps_Request s) (ps_MutableRequest s) c (ps_Claim s) (ps_DeviceMap s)
    (ps_DeviceStates s) (ps_Result s) (ps_Unlock s) (ps_ResourcesChanged s).
Definition setPClaim (c : PreparedClaim) (s : PState) : PState :=
  mkPrepareState (ps_Request s) (ps_MutableRequest s) (ps_Checkpoint s) c (ps_DeviceMap s)
    (ps_DeviceStates s) (ps_Result s) (ps_Unlock s) (ps_ResourcesChanged s).
Definition setDeviceMap (m : gmap string PDevice) (s : PState) : PState :=
  mkPrepareState (ps_Request s) (ps_MutableRequest s) (ps_Checkpoint s) (ps_Claim s) m
    (ps_DeviceStates s) (ps_Result s) (ps_Unlock s) (ps_ResourcesChanged s).
Definition setStates (l : list PreparedDeviceState) (s : PState) : PState :=
  mkPrepareState (ps_Request s) (ps_MutableRequest s) (ps_Checkpoint s) (ps_Claim s)
    (ps_DeviceMap s) l (ps_Result s) (ps_Unlock s) (ps_ResourcesChanged s).
Definition setResult (r : PrepareResult) (s : PState) : PState :=
  mkPrepareState (ps_Request s) (ps_MutableRequest s) (ps_Checkpoint s) (ps_Claim s)
    (ps_DeviceMap s) (ps_DeviceStates s) r (ps_Unlock s) (ps_ResourcesChanged s).
Definition setUnlock (s : PState) : PState :=
  mkPrepareState (ps_Request s) (ps_MutableRequest s) (ps_Checkpoint s) (ps_Claim s)
    (ps_DeviceMap s) (ps_DeviceStates s) (ps_Result s) true (ps_ResourcesChanged s).
Definition setChanged (s : PState) : PState :=
  mkPrepareState (ps_Request s) (ps_MutableRequest s) (ps_Checkpoint s) (ps_Claim s)
    (ps_DeviceMap s) (ps_DeviceStates s) (ps_Result s) (ps_Unlock s) true.

Definition setMIG (m : PreparedMigDevice) (d : PreparedDeviceState) : PreparedDeviceState :=
  mkPreparedDeviceState (pds_Request d) (pds_Pool d) (pds_Device d) (pds_CDIDeviceIDs d)
    (Some m) (pds_VFIO d) (pds_Sharing d).
Definition setVFIO (v : PreparedVfioDevice) (d : PreparedDeviceState) : PreparedDeviceState :=
  mkPreparedDeviceState (pds_Request d) (pds_Pool d) (pds_Device d) (pds_CDIDeviceIDs d)
    (pds_MIG d) (Some v) (pds_Sharing d).
Definition applySharingState (sh : PreparedSharing) (d : PreparedDeviceState)
    : PreparedDeviceState :=
  mkPreparedDeviceState (pds_Request d) (pds_Pool d) (pds_Device d) (pds_CDIDeviceIDs d)
    (pds_MIG d) (pds_VFIO d) (Some sh).
Definition setCDI (ids : list string) (d : PreparedDeviceState) : PreparedDeviceState :=
  mkPreparedDeviceState (pds_Request d) (pds_Pool d) (pds_Device d) ids
    (pds_MIG d) (pds_VFIO d) (pds_Sharing d).
Definition setAttributes (a : gmap string AttributeValue) (d : PDevice) : PDevice :=
  mkPrepareDevice (pd_Request d) (pd_Driver d) (pd_Pool d) (pd_Device d) (pd_ShareID d)
    (pd_ConsumedCapacity d) a (pd_Config d).
Definition setDevices (l : list PDevice) (r : PrepareRequest Q) : PrepareRequest Q :=
  mkPrepareRequest (pr_ClaimUID r) (pr_NodeName r) (pr_VFIO r) l.

(** ** checkpoint/checkpoint.go *)

Definition checkpointVersion : string := "v1".

(** A nil [Claims] map is the empty map already. *)
Definition normalizeCheckpoint (cp : PrepareCheckpoint) : PrepareCheckpoint :=
  if str_eqb (pcp_Version cp) "" then mkPrepareCheckpoint checkpointVersion (pcp_Claims cp) else cp.

Definition notConfigured {S A} (what : string) : M (event Q) S A := fail (Errorf what []).

Definition CheckpointLoad {S} (store : PrepareCheckpointStore Q)
    : M (event Q) S PrepareCheckpoint :=
  cp ← wrapErr (Wrapf "load prepare checkpoint: %w" []) (call (st_Load store) ELoad);
  mret (normalizeCheckpoint cp).

Fixpoint preparedDevices (devs : list PreparedDeviceState) : res (list PreparedDevice) :=
  match devs with
  | [] => Ok []
  | dev :: rest =>
      if list_len0 (pds_CDIDeviceIDs dev) then
        Err (Errorf "missing CDI ids for device %q" [pds_Device dev])
      else
        out ← preparedDevices rest;
        Ok (mkPreparedDevice (pds_Request dev) (pds_Pool dev) (pds_Device dev)
              (pds_CDIDeviceIDs dev) :: out)
  end.

Definition PreparedResultFromClaim (claimUID : string) (claim : PreparedClaim)
    : res PrepareResult :=
  if negb (str_eqb (pc_State claim) PrepareStateCompleted) then
    Err (Errorf "claim %q is not prepared" [claimUID])
  else
    devices ← preparedDevices (pc_Devices claim);
    Ok (mkPrepareResult claimUID devices).

(** ** validate_prepare.go, lock.go, checkpoint_load.go, short_circuit_prepare.go *)

Definition ValidatePrepareStep : PStep :=
  st ← get;
  if str_eqb (pr_ClaimUID (ps_Request st)) "" then fail (Errorf "claim UID is required" [])
  else if list_len0 (pr_Devices (ps_Request st)) then fail (Errorf "no devices to prepare" [])
  else continue_.

Definition LockPrepareStep (locker : option (PrepareLocker Q)) : PStep :=
  match locker with
  | None => notConfigured "prepare locker is not configured"
  | Some l =>
      _ ← wrapErr (Wrapf "acquire prepare lock: %w" []) (call (lk_Lock l) ELock);
      _ ← modify setUnlock; continue_
  end.

Definition LoadPrepareCheckpointStep (store : option (PrepareCheckpointStore Q)) : PStep :=
  match store with
  | None => notConfigured "prepare checkpoint store is not configured"
  | Some store =>
      cp ← CheckpointLoad store;
      _ ← modify (setCheckpoint cp);
      st ← get;
      match pcp_Claims cp !! pr_ClaimUID (ps_Request st) with
      | Some claim => _ ← modify (setPClaim claim); continue_
      | None => continue_
      end
  end.

Definition ShortCircuitPrepareStep : PStep :=
  st ← get;
  if negb (str_eqb (pc_State (ps_Claim st)) PrepareStateCompleted) then continue_ else
  result ← liftR (PreparedResultFromClaim (pr_ClaimUID (ps_Request st)) (ps_Claim st));
  _ ← modify (setResult result); final.

(** ** plan_prepare.go *)

(** The body of the loop of [PlanPrepareStep]: the device state and the
    mutable copy of one requested device. *)
Definition planDevice (mig vfio wantsVfio : bool) (known : gmap string PreparedDeviceState)
    (dev : PDevice) : res (PreparedDeviceState * PDevice) :=
  let item := match known !! pd_Device dev with
    | Some it => it
    | None => mkPreparedDeviceState (pd_Request dev) (pd_Pool dev) (pd_Device dev) [] None None None
    end in
  let item := mkPreparedDeviceState (pd_Request dev) (pd_Pool dev) (pds_Device item)
    (pds_CDIDeviceIDs item) (pds_MIG item) (pds_VFIO item) (pds_Sharing item) in
  let deviceType := deviceTypeOf dev in
  _ ← (if negb wantsVfio then Ok () else
       if negb (IsPhysicalDevice deviceType) then
         Err (Errorf "vfio requested for non-physical device %q" [pd_Device dev])
       else if negb (str_eqb (pd_ShareID dev) "") || negb (map_len0 (pd_ConsumedCapacity dev)) then
         Err (Errorf "vfio requires exclusive allocation for device %q" [pd_Device dev])
       else if negb vfio then Err (Errorf "vfio manager is not configured" [])
       else Ok ());
  if IsMigDevice deviceType && negb mig then Err (Errorf "mig manager is not configured" []) else
  let attrs := CloneAttributes (pd_Attributes dev) in
  let attrs := match pds_MIG item with
    | Some m => <[AttrMigUUID := StringAttr (pmd_DeviceUUID m)]> attrs
    | None => attrs
    end in
  Ok (item, setAttributes attrs dev).

Fixpoint planDevices (mig vfio wantsVfio : bool) (known : gmap string PreparedDeviceState)
    (devs : list PDevice) : res (list (PreparedDeviceState * PDevice)) :=
  match devs with
  | [] => Ok []
  | dev :: rest =>
      p ← planDevice mig vfio wantsVfio known dev;
      ps ← planDevices mig vfio wantsVfio known rest;
      Ok (p :: ps)
  end.

Definition knownDevices (devs : list PreparedDeviceState) : gmap string PreparedDeviceState :=
  foldl (λ known dev, <[pds_Device dev := dev]> known) ∅ devs.

Definition requestedDevices (devs : list PDevice) : gmap string PDevice :=
  foldl (λ m dev, <[pd_Device dev := dev]> m) ∅ devs.

(** [DeviceMap] is filled during the loop; after an error it is not read. *)
Definition PlanPrepareStep (mig : option (MigManager Q)) (vfio : option (VfioManager Q)) : PStep :=
  st ← get;
  let req := ps_Request st in
  _ ← modify (setDeviceMap (requestedDevices (pr_Devices req)));
  planned ← liftR (planDevices (bool_decide (is_Some mig)) (bool_decide (is_Some vfio))
                     (pr_VFIO req) (knownDevices (pc_Devices (ps_Claim st))) (pr_Devices req));
  _ ← modify (setStates (planned.*1));
  _ ← modify (setMutable (setDevices (planned.*2) req));
  continue_.

(** ** gpu_free_check.go *)

Fixpoint freeLoop (checker : GPUProcessChecker Q) (seen : gset string) (devs : list PDevice)
    : PM () :=
  match devs with
  | [] => mret ()
  | dev :: rest =>
      if negb (IsPhysicalDevice (deviceTypeOf dev)) then freeLoop checker seen rest else
      let pci := pciOf dev in
      if str_eqb pci "" then fail (Errorf "pci address is missing for device %q" [pd_Device dev])
      else if bool_decide (pci ∈ seen) then freeLoop checker seen rest
      else
        _ ← call (λ h, chk_EnsureGPUFree checker h pci) (EEnsureGPUFree pci);
        freeLoop checker ({[pci]} ∪ seen) rest
  end.

Definition GPUFreeCheckStep (checker : option (GPUProcessChecker Q)) : PStep :=
  st ← get;
  if negb (pr_VFIO (ps_Request st)) then continue_ else
  match checker with
  | None => notConfigured "gpu process checker is not configured"
  | Some c => _ ← freeLoop c ∅ (pr_Devices (ps_Request st)); continue_
  end.

(** ** checkpoint_started.go, checkpoint_complete.go *)

Definition saveClaim (state what : string) (store : option (PrepareCheckpointStore Q)) : PStep :=
  match store with
  | None => notConfigured "prepare checkpoint store is not configured"
  | Some store =>
      st ← get;
      let cp := setClaim (pr_ClaimUID (ps_Request st))
                  (mkPreparedClaim state (ps_DeviceStates st)) (ps_Checkpoint st) in
      _ ← modify (setCheckpoint cp);
      _ ← wrapErr (Wrapf what []) (call (λ h, st_Save store h cp) (ESave cp));
      continue_
  end.

Definition SavePrepareStartedStep : option (PrepareCheckpointStore Q) → PStep :=
  saveClaim PrepareStateStarted "save prepare checkpoint: %w".

Definition SavePrepareCompletedStep : option (PrepareCheckpointStore Q) → PStep :=
  saveClaim PrepareStateCompleted "save completed checkpoint: %w".

(** ** mig_prepare.go *)

Definition indexed {A} (l : list A) : list (nat * A) := imap pair l.

(** Set the MIG UUID on the first device of that name. *)
Fixpoint withMigUUID (deviceName uuid : string) (devs : list PDevice) : list PDevice :=
  match devs with
  | [] => []
  | dev :: rest =>
      if negb (str_eqb (pd_Device dev) deviceName) then dev :: withMigUUID deviceName uuid rest
      else setAttributes (<[AttrMigUUID := StringAttr uuid]> (pd_Attributes dev)) dev :: rest
  end.

Definition applyMigUUID (deviceName uuid : string) (st : PState) : PState :=
  if str_eqb uuid "" then st else
  let req := ps_MutableRequest st in
  setMutable (setDevices (withMigUUID deviceName uuid (pr_Devices req)) req) st.

Definition updateState (i : nat) (f : PreparedDeviceState → PreparedDeviceState) (st : PState)
    : PState :=
  setStates (alter f i (ps_DeviceStates st)) st.

Definition migPrepareDevice (mig : MigManager Q) (p : nat * PreparedDeviceState) : PM () :=
  let '(i, devState) := p in
  st ← get;
  match ps_DeviceMap st !! pds_Device devState with
  | None => fail (Errorf "missing prepare device %q" [pds_Device devState])
  | Some reqDev =>
      if negb (IsMigDevice (deviceTypeOf reqDev)) then mret () else
      match pds_MIG devState with
      | Some m => modify (applyMigUUID (pds_Device devState) (pmd_DeviceUUID m))
      | None =>
          migReq ← liftR (BuildMigPrepareRequest reqDev);
          migState ← wrapErr (Wrapf "mig prepare %q: %w" [pds_Device devState])
                       (call (λ h, mig_Prepare mig h migReq) (EMigPrepare migReq));
          _ ← modify (updateState i (setMIG migState));
          _ ← modify setChanged;
          modify (applyMigUUID (pds_Device devState) (pmd_DeviceUUID migState))
      end
  end.

Definition MigPrepareStep (mig : option (MigManager Q)) : PStep :=
  match mig with
  | None => continue_
  | Some mig =>
      st ← get;
      _ ← forEach (migPrepareDevice mig) (indexed (ps_DeviceStates st));
      continue_
  end.

(** ** vfio_prepare.go *)

Definition vfioPrepareDevice (vfio : VfioManager Q) (p : nat * PreparedDeviceState) : PM () :=
  let '(i, devState) := p in
  st ← get;
  match ps_DeviceMap st !! pds_Device devState with
  | None => fail (Errorf "missing prepare device %q" [pds_Device devState])
  | Some reqDev =>
      if negb (IsPhysicalDevice (deviceTypeOf reqDev)) then mret () else
      match pds_VFIO devState with
      | Some _ => mret ()
      | None =>
          let pci := pciOf reqDev in
          if str_eqb pci "" then
            fail (Errorf "pci address is missing for device %q" [pds_Device devState])
          else
            vfioState ← wrapErr (Wrapf "vfio prepare %q: %w" [pds_Device devState])
                          (call (λ h, vfio_Prepare vfio h pci) (EVfioPrepare pci));
            _ ← modify (updateState i (setVFIO vfioState));
            modify setChanged
      end
  end.

Definition VfioPrepareStep (vfio : option (VfioManager Q)) : PStep :=
  st ← get;
  if negb (pr_VFIO (ps_Request st)) then continue_ else
  match vfio with
  | None => notConfigured "vfio manager is not configured"
  | Some vfio =>
      _ ← forEach (vfioPrepareDevice vfio) (indexed (ps_DeviceStates st));
      continue_
  end.

(** ** sharing_groups.go, sharing_helpers.go *)

(** What both kinds of group record of their devices. *)
Record deviceGroup := mkDeviceGroup {
  dg_reqIndexes : list nat;
  dg_stateIndexes : list nat;
  dg_deviceUUIDs : list string;
  dg_deviceIndex : gmap nat nat;
}.
Definition emptyGroup : deviceGroup := mkDeviceGroup [] [] [] ∅.

Definition group_add (g : deviceGroup) (reqIdx stateIdx : nat) (uuid : string) : deviceGroup :=
  mkDeviceGroup (dg_reqIndexes g ++ [reqIdx]) (dg_stateIndexes g ++ [stateIdx])
    (dg_deviceUUIDs g ++ [uuid])
    (<[stateIdx := length (dg_deviceUUIDs g)]> (dg_deviceIndex g)).

Record timeSlicingGroup := mkTimeSlicingGroup {
  tg_config : option TimeSlicingConfig;
  tg_devices : deviceGroup;
}.

Record mpsGroup := mkMpsGroup {
  mg_key : string;
  mg_config : option (MpsConfig Q);
  mg_devices : deviceGroup;
  mg_existing : option PreparedMpsState;
}.

Definition mpsConfigKey (cfg : option (MpsConfig Q)) : string :=
  match cfg with
  | None => "default"
  | Some c => match json_MpsConfig c with
              | None => "default"
              | Some payload => str_take 8 (sha256_hex payload)
              end
  end.

Definition buildMpsControlID (claimUID groupKey : string) (deviceUUIDs : list string) : string :=
  let payload := Join (claimUID :: groupKey :: sort_Strings deviceUUIDs) "|" in
  claimUID +:+ "-" +:+ str_take 6 (sha256_hex payload).

Definition mpsGroupKey (deviceType : string) (cfg : option (MpsConfig Q)) : string :=
  ToLower deviceType +:+ "/" +:+ mpsConfigKey cfg.

(** The group of a key, created when missing. *)
Definition ensureMpsGroup (groups : gmap string mpsGroup) (deviceType : string)
    (cfg : option (MpsConfig Q)) : mpsGroup :=
  let key := mpsGroupKey deviceType cfg in
  default (mkMpsGroup key cfg emptyGroup None) (groups !! key).

Definition mergeExistingMpsState (group : mpsGroup) (sharing : option PreparedSharing)
    : res mpsGroup :=
  match sharing ≫= psh_MPS with
  | None => Ok group
  | Some m =>
      match mg_existing group with
      | None => Ok (mkMpsGroup (mg_key group) (mg_config group) (mg_devices group) (Some m))
      | Some e =>
          if negb (str_eqb (pms_ControlID e) (pms_ControlID m)) then
            Err (Errorf "conflicting MPS control IDs %q and %q" [pms_ControlID e; pms_ControlID m])
          else Ok group
      end
  end.

Definition mg_add (g : mpsGroup) (reqIdx stateIdx : nat) (uuid : string) : mpsGroup :=
  mkMpsGroup (mg_key g) (mg_config g) (group_add (mg_devices g) reqIdx stateIdx uuid)
    (mg_existing g).

Definition applyMpsAttributes (m : PreparedMpsState) (dev : PDevice) : PDevice :=
  setAttributes (<[AttrMpsLogDir := StringAttr (pms_LogDir m)]>
                 (<[AttrMpsShmDir := StringAttr (pms_ShmDir m)]>
                  (<[AttrMpsPipeDir := StringAttr (pms_PipeDir m)]> (pd_Attributes dev)))) dev.

Fixpoint uniqueFrom (seen : gset string) (values : list string) : list string :=
  match values with
  | [] => []
  | v :: rest =>
      if str_eqb v "" then uniqueFrom seen rest
      else if bool_decide (v ∈ seen) then uniqueFrom seen rest
      else v :: uniqueFrom ({[v]} ∪ seen) rest
  end.
Definition uniqueStrings (values : list string) : list string := uniqueFrom ∅ values.

(** [deviceStateIndex] and [requestIndex]: the last index of each name. *)
Definition indexBy {A} (name : A → string) (l : list A) : gmap string nat :=
  foldl (λ m '(i, x), <[name x := i]> m) ∅ (indexed l).

(** [applySharingState(&st.DeviceStates[idx], ...)] *)
Definition shareDevice (strategy : string) (mps : option PreparedMpsState) (g : deviceGroup)
    (idx : nat) : PM () :=
  st ← get;
  match dg_deviceUUIDs g !! default O (dg_deviceIndex g !! idx), ps_DeviceStates st !! idx with
  | Some uuid, Some _ =>
      modify (updateState idx (applySharingState (mkPreparedSharing strategy uuid mps)))
  | _, _ => fail (GoPanic "index out of range")
  end.

(** The iteration order of a map, as a computation. *)
Definition rangeM {S A} (m : gmap string A) : M (event Q) S (list string) :=
  λ s h, (Ok (rangeKeys h (map_to_list m).*1), (s, h)).

(** ** time_slicing_prepare.go *)

(** The body of the first loop: [None] is a [continue]. *)
Definition timeSlicingTarget (stateIndex reqIndex : gmap string nat) (dev : PDevice)
    : res (option (TimeSlicingConfig * string * nat * nat * string)) :=
  match pd_Config dev with
  | Some (GpuConf cfg) =>
      if negb (gs_IsTimeSlicing (gc_Sharing cfg)) then Ok None else
      if negb (IsPhysicalDevice (deviceTypeOf dev)) then
        Err (Errorf "time-slicing requires physical device %q" [pd_Device dev])
      else match stateIndex !! pd_Device dev, reqIndex !! pd_Device dev with
        | None, _ => Err (Errorf "missing device state for %q" [pd_Device dev])
        | _, None => Err (Errorf "missing mutable request for %q" [pd_Device dev])
        | Some stateIdx, Some reqIdx =>
            match gs_GetTimeSlicingConfig (gc_Sharing cfg) with
            | Err e => Err (Wrapf "get time-slicing config: %w" [] e)
            | Ok (Some (mkTimeSlicingConfig (Some interval))) =>
                let uuid := AttrString (pd_Attributes dev) AttrGPUUUID in
                if str_eqb uuid "" then Err (Errorf "gpu uuid is missing for %q" [pd_Device dev])
                else Ok (Some (mkTimeSlicingConfig (Some interval), interval, reqIdx, stateIdx, uuid))
            | Ok _ => Err (Errorf "time-slicing config missing interval for %q" [pd_Device dev])
            end
        end
  | _ => Ok None
  end.

Fixpoint timeSlicingGroups (stateIndex reqIndex : gmap string nat) (devs : list PDevice)
    (groups : gmap string timeSlicingGroup) : res (gmap string timeSlicingGroup) :=
  match devs with
  | [] => Ok groups
  | dev :: rest =>
      t ← timeSlicingTarget stateIndex reqIndex dev;
      match t with
      | None => timeSlicingGroups stateIndex reqIndex rest groups
      | Some (tsc, key, reqIdx, stateIdx, uuid) =>
          let g := default (mkTimeSlicingGroup (Some tsc) emptyGroup) (groups !! key) in
          timeSlicingGroups stateIndex reqIndex rest
            (<[key := mkTimeSlicingGroup (tg_config g)
                        (group_add (tg_devices g) reqIdx stateIdx uuid)]> groups)
      end
  end.

Definition applyTimeSlicing (ts : TimeSlicingManager Q) (groups : gmap string timeSlicingGroup)
    (key : string) : PM () :=
  match groups !! key with
  | None => mret ()
  | Some g =>
      let uuids := uniqueStrings (dg_deviceUUIDs (tg_devices g)) in
      _ ← call (λ h, ts_SetTimeSlice ts h uuids (tg_config g)) (ESetTimeSlice uuids (tg_config g));
      forEach (shareDevice TimeSlicingStrategy None (tg_devices g)) (dg_stateIndexes (tg_devices g))
  end.

Definition TimeSlicingPrepareStep (timeSlicing : option (TimeSlicingManager Q)) : PStep :=
  st ← get;
  groups ← liftR (timeSlicingGroups (indexBy pds_Device (ps_DeviceStates st))
                    (indexBy pd_Device (pr_Devices (ps_MutableRequest st)))
                    (pr_Devices (ps_MutableRequest st)) ∅);
  if map_len0 groups then continue_ else
  match timeSlicing with
  | None => notConfigured "time-slicing manager is not configured"
  | Some ts =>
      keys ← rangeM groups;
      _ ← forEach (applyTimeSlicing ts groups) keys;
      continue_
  end.

(** ** mps_prepare.go *)

(** The type switch: the MPS configuration and the UUID, or a [continue]. *)
Definition mpsTarget (cfg : Config Q) (dev : PDevice) : res (option (option (MpsConfig Q) * string)) :=
  match cfg with
  | GpuConf c =>
      if negb (gs_IsMps (gc_Sharing c)) then Ok None else
      match gs_GetMpsConfig (gc_Sharing c) with
      | Err e => Err (Wrapf "get mps config: %w" [] e)
      | Ok mpsCfg =>
          let uuid := AttrString (pd_Attributes dev) AttrGPUUUID in
          if str_eqb uuid "" then Err (Errorf "gpu uuid is missing for %q" [pd_Device dev])
          else Ok (Some (mpsCfg, uuid))
      end
  | MigConf c =>
      if negb (ms_IsMps (mc_Sharing c)) then Ok None else
      match ms_GetMpsConfig (mc_Sharing c) with
      | Err e => Err (Wrapf "get mps config: %w" [] e)
      | Ok mpsCfg =>
          let uuid := AttrString (pd_Attributes dev) AttrMigUUID in
          if str_eqb uuid "" then Err (Errorf "mig uuid is missing for %q" [pd_Device dev])
          else Ok (Some (mpsCfg, uuid))
      end
  | VfioConf _ => Ok None
  | OtherConfig => Err (Errorf "unsupported config type %T" [])
  end.

Fixpoint mpsGroups (states : list PreparedDeviceState) (stateIndex reqIndex : gmap string nat)
    (devs : list PDevice) (groups : gmap string mpsGroup) : res (gmap string mpsGroup) :=
  match devs with
  | [] => Ok groups
  | dev :: rest =>
      match pd_Config dev with
      | None => mpsGroups states stateIndex reqIndex rest groups
      | Some cfg =>
          match stateIndex !! pd_Device dev, reqIndex !! pd_Device dev with
          | None, _ => Err (Errorf "missing device state for %q" [pd_Device dev])
          | _, None => Err (Errorf "missing mutable request for %q" [pd_Device dev])
          | Some stateIdx, Some reqIdx =>
              t ← mpsTarget cfg dev;
              match t with
              | None => mpsGroups states stateIndex reqIndex rest groups
              | Some (mpsCfg, uuid) =>
                  match states !! stateIdx with
                  | None => Err (GoPanic "index out of range")
                  | Some devState =>
                      g ← mergeExistingMpsState (ensureMpsGroup groups (deviceTypeOf dev) mpsCfg)
                            (pds_Sharing devState);
                      mpsGroups states stateIndex reqIndex rest
                        (<[mpsGroupKey (deviceTypeOf dev) mpsCfg := mg_add g reqIdx stateIdx uuid]> groups)
                  end
              end
          end
      end
  end.

Definition setMpsAttributes (m : PreparedMpsState) (idx : nat) : PM () :=
  st ← get;
  match pr_Devices (ps_MutableRequest st) !! idx with
  | None => fail (GoPanic "index out of range")
  | Some _ =>
      let req := ps_MutableRequest st in
      modify (setMutable (setDevices (alter (applyMpsAttributes m) idx (pr_Devices req)) req))
  end.

Definition mpsControlID (claimUID : string) (g : mpsGroup) : string :=
  let controlID := from_option pms_ControlID "" (mg_existing g) in
  if str_eqb controlID "" then
    buildMpsControlID claimUID (mg_key g) (uniqueStrings (dg_deviceUUIDs (mg_devices g)))
  else controlID.

Definition applyMps (mps : MpsManager Q) (groups : gmap string mpsGroup) (key : string) : PM () :=
  match groups !! key with
  | None => mret ()
  | Some g =>
      st ← get;
      let q := mkMpsPrepareRequest (mpsControlID (pr_ClaimUID (ps_Request st)) g)
                 (uniqueStrings (dg_deviceUUIDs (mg_devices g))) (mg_config g) in
      m ← call (λ h, mps_Start mps h q) (EMpsStart q);
      _ ← forEach (setMpsAttributes m) (dg_reqIndexes (mg_devices g));
      forEach (shareDevice MpsStrategy (Some m) (mg_devices g)) (dg_stateIndexes (mg_devices g))
  end.

Definition MpsPrepareStep (mps : option (MpsManager Q)) : PStep :=
  st ← get;
  groups ← liftR (mpsGroups (ps_DeviceStates st) (indexBy pds_Device (ps_DeviceStates st))
                    (indexBy pd_Device (pr_Devices (ps_MutableRequest st)))
                    (pr_Devices (ps_MutableRequest st)) ∅);
  if map_len0 groups then continue_ else
  match mps with
  | None => notConfigured "mps manager is not configured"
  | Some mps =>
      keys ← rangeM groups;
      _ ← forEach (applyMps mps groups) keys;
      continue_
  end.

(** ** cdi_write.go *)

(** The loop: the device states with their CDI ids and the result devices.
    After an error the partly filled states are not read. *)
Fixpoint cdiDevices (ids : gmap string (list string)) (states : list PreparedDeviceState)
    : res (list (PreparedDeviceState * PreparedDevice)) :=
  match states with
  | [] => Ok []
  | d :: rest =>
      match ids !! pds_Device d with
      | None => Err (Errorf "missing CDI ids for device %q" [pds_Device d])
      | Some l =>
          out ← cdiDevices ids rest;
          Ok ((setCDI l d,
               mkPreparedDevice (pds_Request d) (pds_Pool d) (pds_Device d) l) :: out)
      end
  end.

Definition WriteCDIStep (cdi : option (CDIWriter Q)) : PStep :=
  match cdi with
  | None => notConfigured "cdi writer is not configured"
  | Some cdi =>
      st ← get;
      let req := ps_MutableRequest st in
      deviceIDs ← call (λ h, cdi_Write cdi h req) (ECDIWrite req);
      out ← liftR (cdiDevices deviceIDs (ps_DeviceStates st));
      _ ← modify (setStates (out.*1));
      _ ← modify (setResult (mkPrepareResult (pr_ClaimUID (ps_Request st)) (out.*2)));
      continue_
  end.

(** ** notify_resources.go, final.go *)

Definition notify {S} : M (event Q) S () := λ s h, (Ok (), (s, h ++ [ENotify])).

Definition NotifyResourcesPrepareStep (notifier : bool) : PStep :=
  st ← get;
  if negb (ps_ResourcesChanged st) || negb notifier then continue_ else
  _ ← notify; continue_.

Definition FinalPrepareStep : PStep :=
  st ← get;
  if str_eqb (pres_ClaimUID (ps_Result st)) "" then fail (Errorf "prepare result is empty" [])
  else final.

(** ** pipeline.go, service.go *)

Definition newPrepareSteps (opts : Options Q) : list PStep := [
  ValidatePrepareStep;
  LockPrepareStep (opt_Locker opts);
  LoadPrepareCheckpointStep (opt_Checkpoints opts);
  ShortCircuitPrepareStep;
  PlanPrepareStep (opt_MIG opts) (opt_VFIO opts);
  GPUFreeCheckStep (opt_GPUChecker opts);
  SavePrepareStartedStep (opt_Checkpoints opts);
  MigPrepareStep (opt_MIG opts);
  VfioPrepareStep (opt_VFIO opts);
  TimeSlicingPrepareStep (opt_TimeSlicing opts);
  MpsPrepareStep (opt_Mps opts);
  WriteCDIStep (opt_CDI opts);
  SavePrepareCompletedStep (opt_Checkpoints opts);
  NotifyResourcesPrepareStep (opt_ResourcesNotifier opts);
  FinalPrepareStep
].

Definition NewService (opts : Options Q) : res (Options Q) :=
  match opt_CDI opts, opt_Locker opts, opt_Checkpoints opts with
  | None, _, _ => Err (Errorf "CDI writer is required" [])
  | _, None, _ => Err (Errorf "prepare locker is required" [])
  | _, _, None => Err (Errorf "checkpoint store is required" [])
  | Some _, Some _, Some _ => Ok opts
  end.

(** The deferred [st.Unlock()]; its error is dropped. *)
Definition deferUnlock (locker : option (PrepareLocker Q)) (held : bool) (h : list (event Q))
    : list (event Q) :=
  match locker with
  | Some l => if held then h ++ [EUnlock (lk_Unlock l h)] else h
  | None => h
  end.

Definition ServicePrepare (opts : Options Q) (req : PrepareRequest Q) (h : list (event Q))
    : res PrepareResult * list (event Q) :=
  match opt_CDI opts with
  | None => (Err (Errorf "CDI writer is not configured" []), h)
  | Some _ =>
      let '(r, (st, h')) := Run (newPrepareSteps opts) (NewPrepareState req) h in
      (match r with
       | Err e => Err e
       | Ok _ =>
           if str_eqb (pres_ClaimUID (ps_Result st)) "" then
             Err (Errorf "prepare completed without result" [])
           else Ok (ps_Result st)
       end, deferUnlock (opt_Locker opts) (ps_Unlock st) h')
  end.

(** ** The unprepare steps *)

Definition setUCheckpoint (c : PrepareCheckpoint) (s : UnprepareState) : UnprepareState :=
  mkUnprepareState (us_ClaimUID s) c (us_Claim s) (us_Unlock s) (us_Skip s) (us_ResourcesChanged s).
Definition setUClaim (c : PreparedClaim) (s : UnprepareState) : UnprepareState :=
  mkUnprepareState (us_ClaimUID s) (us_Checkpoint s) c (us_Unlock s) (us_Skip s)
    (us_ResourcesChanged s).
Definition setUUnlock (s : UnprepareState) : UnprepareState :=
  mkUnprepareState (us_ClaimUID s) (us_Checkpoint s) (us_Claim s) true (us_Skip s)
    (us_ResourcesChanged s).
Definition setSkip (s : UnprepareState) : UnprepareState :=
  mkUnprepareState (us_ClaimUID s) (us_Checkpoint s) (us_Claim s) (us_Unlock s) true
    (us_ResourcesChanged s).
Definition setUChanged (s : UnprepareState) : UnprepareState :=
  mkUnprepareState (us_ClaimUID s) (us_Checkpoint s) (us_Claim s) (us_Unlock s) (us_Skip s) true.

Definition ValidateUnprepareStep : UStep :=
  st ← get;
  if str_eqb (us_ClaimUID st) "" then fail (Errorf "claim UID is required" []) else continue_.

Definition LockUnprepareStep (locker : option (PrepareLocker Q)) : UStep :=
  match locker with
  | None => notConfigured "prepare locker is not configured"
  | Some l =>
      _ ← wrapErr (Wrapf "acquire prepare lock: %w" []) (call (lk_Lock l) ELock);
      _ ← modify setUUnlock; continue_
  end.

Definition LoadUnprepareCheckpointStep (store : option (PrepareCheckpointStore Q)) : UStep :=
  match store with
  | None => notConfigured "prepare checkpoint store is not configured"
  | Some store =>
      cp ← CheckpointLoad store;
      _ ← modify (setUCheckpoint cp);
      st ← get;
      match pcp_Claims cp !! us_ClaimUID st with
      | Some claim => _ ← modify (setUClaim claim); continue_
      | None => continue_
      end
  end.

Definition ShortCircuitUnprepareStep : UStep :=
  st ← get;
  if list_len0 (pc_Devices (us_Claim st)) then _ ← modify setSkip; final
  else if str_eqb (pc_State (us_Claim st)) PrepareStateStarted then _ ← modify setSkip; final
  else continue_.

(** *** mps_unprepare.go *)

Definition mpsStateOf (dev : PreparedDeviceState) : option PreparedMpsState :=
  sh ← pds_Sharing dev;
  if negb (str_eqb (psh_Strategy sh) MpsStrategy) then None else psh_MPS sh.

Definition mpsStates (devs : list PreparedDeviceState) : gmap string PreparedMpsState :=
  foldl (λ m dev, match mpsStateOf dev with
                  | Some s => <[pms_ControlID s := s]> m
                  | None => m end) ∅ devs.

Definition stopMps (mps : MpsManager Q) (states : gmap string PreparedMpsState) (key : string)
    : UM () :=
  match states !! key with
  | None => mret ()
  | Some s => call (λ h, mps_Stop mps h s) (EMpsStop s)
  end.

Definition MpsUnprepareStep (mps : option (MpsManager Q)) : UStep :=
  st ← get;
  if us_Skip st then continue_ else
  let states := mpsStates (pc_Devices (us_Claim st)) in
  if map_len0 states then continue_ else
  match mps with
  | None => notConfigured "mps manager is not configured"
  | Some mps =>
      keys ← rangeM states;
      _ ← forEach (stopMps mps states) keys;
      continue_
  end.

(** *** time_slicing_unprepare.go *)

Definition timeSliceUUID (dev : PreparedDeviceState) : option string :=
  sh ← pds_Sharing dev;
  if negb (str_eqb (psh_Strategy sh) TimeSlicingStrategy) then None
  else if str_eqb (psh_DeviceUUID sh) "" then None
  else Some (psh_DeviceUUID sh).

Definition timeSliceUUIDs (devs : list PreparedDeviceState) : gmap string () :=
  foldl (λ m dev, match timeSliceUUID dev with Some u => <[u := ()]> m | None => m end) ∅ devs.

Definition TimeSlicingUnprepareStep (timeSlicing : option (TimeSlicingManager Q)) : UStep :=
  st ← get;
  if us_Skip st then continue_ else
  let uuidSet := timeSliceUUIDs (pc_Devices (us_Claim st)) in
  if map_len0 uuidSet then continue_ else
  match timeSlicing with
  | None => notConfigured "time-slicing manager is not configured"
  | Some ts =>
      uuids ← rangeM uuidSet;
      let cfg := Some (mkTimeSlicingConfig (Some DefaultTimeSlice)) in
      _ ← call (λ h, ts_SetTimeSlice ts h uuids cfg) (ESetTimeSlice uuids cfg);
      continue_
  end.

(** *** mig_unprepare.go, vfio_unprepare.go *)

Definition migUnprepareDevice (mig : MigManager Q) (dev : PreparedDeviceState) : UM () :=
  match pds_MIG dev with
  | None => mret ()
  | Some m =>
      _ ← wrapErr (Wrapf "mig unprepare %q: %w" [pds_Device dev])
            (call (λ h, mig_Unprepare mig h m) (EMigUnprepare m));
      modify setUChanged
  end.

Definition MigUnprepareStep (mig : option (MigManager Q)) : UStep :=
  st ← get;
  match mig with
  | None => continue_
  | Some mig =>
      if us_Skip st then continue_ else
      _ ← forEach (migUnprepareDevice mig) (pc_Devices (us_Claim st)); continue_
  end.

Definition vfioUnprepareDevice (vfio : VfioManager Q) (dev : PreparedDeviceState) : UM () :=
  match pds_VFIO dev with
  | None => mret ()
  | Some v =>
      _ ← wrapErr (Wrapf "vfio unprepare %q: %w" [pds_Device dev])
            (call (λ h, vfio_Unprepare vfio h v) (EVfioUnprepare v));
      modify setUChanged
  end.

Definition VfioUnprepareStep (vfio : option (VfioManager Q)) : UStep :=
  st ← get;
  match vfio with
  | None => continue_
  | Some vfio =>
      if us_Skip st then continue_ else
      _ ← forEach (vfioUnprepareDevice vfio) (pc_Devices (us_Claim st)); continue_
  end.

(** *** cdi_delete.go, checkpoint_cleanup.go, notify_resources.go, final.go *)

Definition DeleteCDIStep (cdi : option (CDIWriter Q)) : UStep :=
  st ← get;
  if us_Skip st then continue_ else
  match cdi with
  | None => notConfigured "cdi writer is not configured"
  | Some cdi =>
      _ ← call (λ h, cdi_Delete cdi h (us_ClaimUID st)) (ECDIDelete (us_ClaimUID st)); continue_
  end.

Definition CleanupCheckpointStep (store : option (PrepareCheckpointStore Q)) : UStep :=
  st ← get;
  if us_Skip st then continue_ else
  match store with
  | None => notConfigured "prepare checkpoint store is not configured"
  | Some store =>
      let cp := dropClaim (us_ClaimUID st) (us_Checkpoint st) in
      _ ← modify (setUCheckpoint cp);
      _ ← wrapErr (Wrapf "save checkpoint cleanup: %w" [])
            (call (λ h, st_Save store h cp) (ESave cp));
      continue_
  end.

Definition NotifyResourcesUnprepareStep (notifier : bool) : UStep :=
  st ← get;
  if negb (us_ResourcesChanged st) || negb notifier then continue_ else
  _ ← notify; continue_.

Definition FinalUnprepareStep : UStep := final.

Definition newUnprepareSteps (opts : Options Q) : list UStep := [
  ValidateUnprepareStep;
  LockUnprepareStep (opt_Locker opts);
  LoadUnprepareCheckpointStep (opt_Checkpoints opts);
  ShortCircuitUnprepareStep;
  MpsUnprepareStep (opt_Mps opts);
  TimeSlicingUnprepareStep (opt_TimeSlicing opts);
  MigUnprepareStep (opt_MIG opts);
  VfioUnprepareStep (opt_VFIO opts);
  DeleteCDIStep (opt_CDI opts);
  CleanupCheckpointStep (opt_Checkpoints opts);
  NotifyResourcesUnprepareStep (opt_ResourcesNotifier opts);
  FinalUnprepareStep
].

Definition ServiceUnprepare (opts : Options Q) (claimUID : string) (h : list (event Q))
    : res () * list (event Q) :=
  match opt_CDI opts with
  | None => (Err (Errorf "prepare service is not configured" []), h)
  | Some _ =>
      let '(r, (st, h')) := Run (newUnprepareSteps opts) (NewUnprepareState claimUID) h in
      (r, deferUnlock (opt_Locker opts) (us_Unlock st) h')
  end.
End Steps.
