(* ===== verification/PrepareProtocol.v ===== *)
(** * The protocol of node preparation

    What [Prepare] promises to the world: an automaton over the external
    calls.  A claim's record is written ahead of any change to the hardware,
    changes happen only between the two records, a GPU is bound to VFIO only
    after it was found idle, the completed record names everything that was
    made, and after a failed call nothing but the unlock follows. *)

From S2P Require Import Prelude GoLib DeviceModel ConfigApi Effects Prepare PrepareSteps.

(** What the hardware phase makes, and what a device record must say for
    [Unprepare] to undo it. *)
Inductive resource :=
| RMig (m : PreparedMigDevice)
| RVfio (v : PreparedVfioDevice)
| RTimeSlice (uuid : string)
| RMps (m : PreparedMpsState).

Definition holds (d : PreparedDeviceState) (r : resource) : Prop :=
  match r with
  | RMig m => pds_MIG d = Some m
  | RVfio v => pds_VFIO d = Some v
  | RTimeSlice u => pds_Sharing d = Some (mkPreparedSharing TimeSlicingStrategy u None)
  | RMps m => ∃ u, pds_Sharing d = Some (mkPreparedSharing MpsStrategy u (Some m))
  end.

Definition recorded (ds : list PreparedDeviceState) (r : resource) : Prop :=
  ∃ d, d ∈ ds ∧ holds d r.

Definition toPrepared (d : PreparedDeviceState) : PreparedDevice :=
  mkPreparedDevice (pds_Request d) (pds_Pool d) (pds_Device d) (pds_CDIDeviceIDs d).

Section Protocol.
Context {Q : Type} `{Quantity Q} `{MpsEncoding Q} `{RangeOrder Q}.
Context (req : PrepareRequest Q).

Abbreviation uid := (pr_ClaimUID req).
Definition names : list string := pd_Device <$> pr_Devices req.

Inductive phase :=
| Idle
| Locked
| Loaded (cp : PrepareCheckpoint) (free : gset string)
| Started (cp : PrepareCheckpoint) (free : gset string) (made : list resource)
| Written (cp : PrepareCheckpoint) (made : list resource) (ids : gmap string (list string))
| Completed (cp : PrepareCheckpoint) (ds : list PreparedDeviceState)
| Stopped (held : bool)
| Released.

Definition held (p : phase) : bool :=
  match p with Idle => false | Stopped b => b | Released => false | _ => true end.

(** What a checkpoint says of the claim. *)
Definition claimIn (cp : PrepareCheckpoint) : PreparedClaim :=
  default zeroClaim (pcp_Claims cp !! uid).

(** The records written for the claim: the other claims are kept, a completed
    claim is never started again, and the devices are the requested ones in
    order. *)
Definition startedRecord (cp cp' : PrepareCheckpoint) : Prop :=
  ∃ ds, pc_State (claimIn cp) ≠ PrepareStateCompleted ∧
         cp' = setClaim uid (mkPreparedClaim PrepareStateStarted ds) cp ∧
        pds_Device <$> ds = names.

Definition completedRecord (cp : PrepareCheckpoint) (made : list resource)
    (ids : gmap string (list string)) (ds : list PreparedDeviceState) (cp' : PrepareCheckpoint)
    : Prop :=
  cp' = setClaim uid (mkPreparedClaim PrepareStateCompleted ds) cp ∧
  pds_Device <$> ds = names ∧
  Forall (λ d, ids !! pds_Device d = Some (pds_CDIDeviceIDs d)) ds ∧
  (NoDup names → Forall (recorded ds) made).

(** The resources a successful call makes; [None] for other events. *)
Definition makes (e : event Q) : option (list resource) :=
  match e with
  | EMigPrepare _ (Ok m) => Some [RMig m]
  | EVfioPrepare _ (Ok v) => Some [RVfio v]
  | ESetTimeSlice us _ (Ok _) => Some (RTimeSlice <$> us)
  | EMpsStart _ (Ok m) => Some [RMps m]
  | _ => None
  end.

Definition isErr {A} (r : res A) : Prop := is_Ok r = false.

(** A failed call of the hardware phase. *)
Definition hardwareFails (e : event Q) : Prop :=
  match e with
  | EMigPrepare _ r => isErr r
  | EVfioPrepare _ r => isErr r
  | ESetTimeSlice _ _ r => isErr r
  | EMpsStart _ r => isErr r
  | ECDIWrite _ r => isErr r
  | _ => False
  end.

(** Conditions on a call of the hardware phase, whatever its answer. *)
Definition allowed (free : gset string) (e : event Q) : Prop :=
  match e with
  | EMigPrepare q _ => ∃ dev, dev ∈ pr_Devices req ∧ BuildMigPrepareRequest dev = Ok q
  | EVfioPrepare pci _ => pr_VFIO req = true ∧ pci ∈ free
  | ESetTimeSlice us _ _ => "" ∉ us
  | _ => True
  end.

Inductive next : phase → event Q → phase → Prop :=
| n_lock : next Idle (ELock (Ok ())) Locked
| n_lock_err e : next Idle (ELock (Err e)) (Stopped false)
| n_load raw : next Locked (ELoad (Ok raw)) (Loaded (normalizeCheckpoint raw) ∅)
| n_load_err e : next Locked (ELoad (Err e)) (Stopped true)
| n_free cp free pci : pr_VFIO req = true →
    next (Loaded cp free) (EEnsureGPUFree pci (Ok ())) (Loaded cp ({[pci]} ∪ free))
| n_free_err cp free pci e :
    next (Loaded cp free) (EEnsureGPUFree pci (Err e)) (Stopped true)
| n_start cp free cp' : startedRecord cp cp' →
    next (Loaded cp free) (ESave cp' (Ok ())) (Started cp' free [])
| n_start_err cp free cp' e : startedRecord cp cp' →
    next (Loaded cp free) (ESave cp' (Err e)) (Stopped true)
| n_make cp free made e new : allowed free e → makes e = Some new →
    next (Started cp free made) e (Started cp free (made ++ new))
| n_write cp free made q ids :
    next (Started cp free made) (ECDIWrite q (Ok ids)) (Written cp made ids)
| n_hw_err cp free made e : allowed free e → hardwareFails e →
    next (Started cp free made) e (Stopped true)
| n_complete cp made ids ds cp' : completedRecord cp made ids ds cp' →
    next (Written cp made ids) (ESave cp' (Ok ())) (Completed cp' ds)
| n_complete_err cp made ids ds cp' e : completedRecord cp made ids ds cp' →
    next (Written cp made ids) (ESave cp' (Err e)) (Stopped true)
| n_notify cp ds : next (Completed cp ds) ENotify (Completed cp ds)
| n_unlock p r : held p = true → next p (EUnlock r) Released.

#[local] Abbreviation accepts := (runs next).

(** ** Consequences for any accepted trace *)

Definition isHardware (e : event Q) : Prop :=
  match e with
  | EMigPrepare _ _ | EVfioPrepare _ _ | ESetTimeSlice _ _ _ | EMpsStart _ _ | ECDIWrite _ _ => True
  | _ => False
  end.

Definition inHardware (p : phase) : bool :=
  match p with Started _ _ _ | Written _ _ _ | Completed _ _ => true | _ => false end.

(** The write-ahead record is in the trace of every phase past [Loaded]. *)
Lemma accepts_started t p :
  accepts Idle t p → inHardware p = true →
  ∃ cp ds, ESave cp (Ok ()) ∈ t ∧
    pcp_Claims cp !! uid = Some (mkPreparedClaim PrepareStateStarted ds) ∧
    pds_Device <$> ds = names.
Proof.
  remember Idle as p0. induction 1 as [|p0 t q e r Ht IH Hn]; intros Hp; subst; [done|].
  assert (inHardware q = true → ∃ cp ds, ESave cp (Ok ()) ∈ t ++ [e] ∧
    pcp_Claims cp !! uid = Some (mkPreparedClaim PrepareStateStarted ds) ∧
    pds_Device <$> ds = names) as Hkeep.
  { intros Hq. destruct (IH eq_refl Hq) as (cp & ds & Hin & ?).
    exists cp, ds. split; [|done]. apply elem_of_app. by left. }
  destruct Hn as [| | | | | |cp free cp' (ds & _ & -> & Hds)| | | | | | | |]; simpl in *; try done;
    try by apply Hkeep.
  exists (setClaim uid (mkPreparedClaim PrepareStateStarted ds) cp), ds.
  split; [set_solver|]. split; [|done]. apply lookup_insert_eq.
Qed.

Lemma next_hardware p e q : next p e q → isHardware e → inHardware p = true.
Proof.
  intros Hn He. destruct Hn; try done.
Qed.

(** Once stopped, only the unlock is possible. *)
Lemma next_stopped b e q : next (Stopped b) e q → b = true ∧ q = Released ∧ ∃ r, e = EUnlock r.
Proof. inversion 1; subst; simpl in *; simplify_eq; eauto. Qed.

Lemma next_released e q : ¬ next Released e q.
Proof. inversion 1; done. Qed.

(** The pcis found idle, in the phases that remember them. *)
Definition freeOf (p : phase) : gset string :=
  match p with Loaded _ f | Started _ f _ => f | _ => ∅ end.

Lemma accepts_free t p pci :
  accepts Idle t p → pci ∈ freeOf p → EEnsureGPUFree pci (Ok ()) ∈ t.
Proof.
  remember Idle as p0. induction 1 as [|p0 t q e r Ht IH Hn]; intros Hp; subst; [done|].
  rewrite elem_of_app, list_elem_of_singleton.
  destruct Hn; simpl in *; try set_solver.
Qed.

(** What was made is what the calls made. *)
Definition madeOf (t : list (event Q)) : list resource := concat (omap makes t).

Definition madeIn (p : phase) : option (list resource) :=
  match p with
  | Idle | Locked | Loaded _ _ => Some []
  | Started _ _ m | Written _ m _ => Some m
  | _ => None
  end.

Lemma madeOf_app t1 t2 : madeOf (t1 ++ t2) = madeOf t1 ++ madeOf t2.
Proof. unfold madeOf. by rewrite omap_app, concat_app. Qed.

Lemma madeOf_notify n : madeOf (replicate n ENotify) = [].
Proof. unfold madeOf. induction n; simpl; done. Qed.

Lemma madeOf_snoc t e : madeOf (t ++ [e]) = madeOf t ++ default [] (makes e).
Proof.
  rewrite madeOf_app. f_equal. unfold madeOf. simpl. destruct (makes e); simpl; [|done].
  by rewrite app_nil_r.
Qed.

Lemma accepts_made t p made : accepts Idle t p → madeIn p = Some made → madeOf t = made.
Proof.
  remember Idle as p0. intros Ht. revert made.
  induction Ht as [|p0 t q e r Ht IH Hn]; intros made Hp; subst; [by simplify_eq/=|].
  rewrite madeOf_snoc.
  destruct Hn as [| | | | | | | |cp free made' e new _ Hm| | | | | |]; simplify_eq/=;
    try (rewrite (IH eq_refl _ eq_refl); by rewrite app_nil_r).
  rewrite (IH eq_refl _ eq_refl). by rewrite Hm.
Qed.
End Protocol.
Abbreviation accepts req := (runs (next req)).
