(* ===== verification/PrepareSpec.v ===== *)
(** * [Prepare] follows its protocol

    The refinement proof: every run of the pipeline, whatever the managers
    answer, produces a trace the automaton of [PrepareProtocol] accepts. *)

From S2P Require Import Prelude GoLib DeviceModel ConfigApi Effects Prepare PrepareSteps PrepareProtocol.

Section Refine.
Context {Q : Type} `{Quantity Q} `{MpsEncoding Q} `{RangeOrder Q}.
Context (opts : Options Q) (req : PrepareRequest Q) (h0 : list (event Q)).

Abbreviation uid := (pr_ClaimUID req).
Abbreviation PState := (PrepareState Q).
Abbreviation PM := (M (event Q) PState).

(** ** Assertions on the state and the phase reached since [h0] *)

#[local] Abbreviation at_ := (at_ (next req) Idle h0).

Definition lock_known (s : PState) (p : phase) : Prop := ps_Unlock s = held p.
#[local] Abbreviation failed := (λ _ : error, at_ lock_known).

(** What the store answers when it is read under the lock. *)
Definition fromStore (raw : PrepareCheckpoint) : Prop :=
  ∃ store, opt_Checkpoints opts = Some store ∧ st_Load store (h0 ++ [ELock (Ok ())]) = Ok raw.

(** The outcome of a successful run: a cached result or a completed one. *)
Definition success (s : PState) (p : phase) : Prop :=
  ps_Unlock s = true ∧ uid ≠ "" ∧
  ((∃ raw, p = Loaded (normalizeCheckpoint raw) ∅ ∧ fromStore raw ∧
      PreparedResultFromClaim uid (claimIn req (normalizeCheckpoint raw)) = Ok (ps_Result s)) ∨
   (∃ cp ds, p = Completed cp ds ∧
      ps_Result s = mkPrepareResult uid (toPrepared <$> ds))).

#[local] Abbreviation goes := (goes_ (next:=next req) (p0:=Idle) (h0:=h0) (success:=success)).
#[local] Abbreviation loop_rule := (triple_loop (next:=next req) (p0:=Idle) (h0:=h0) (stop:=lock_known)).
#[local] Abbreviation step_ok Φ m Ψ := (triple (at_ Φ) m (post (goes Ψ) failed)).

(** ** Before the hardware phase *)

Definition initial (s : PState) (p : phase) : Prop := s = NewPrepareState req ∧ p = Idle.

Definition validated (s : PState) (p : phase) : Prop := initial s p ∧ uid ≠ "".

Definition locked (s : PState) (p : phase) : Prop :=
  s = setUnlock (NewPrepareState req) ∧ p = Locked ∧ uid ≠ "".

Definition loaded (s : PState) (p : phase) : Prop :=
  ∃ cp, s = setPClaim (claimIn req cp) (setCheckpoint cp (setUnlock (NewPrepareState req))) ∧
        p = Loaded cp ∅ ∧ uid ≠ "" ∧ ∃ raw, cp = normalizeCheckpoint raw ∧ fromStore raw.

Lemma accepts_locked t : accepts req Idle t Locked → t = [ELock (Ok ())].
Proof.
  intros Ht. inversion Ht as [|? t1 q e ? Ht1 Hn]; subst. inversion Hn; subst.
  inversion Ht1 as [|? t2 q2 e2 ? Ht2 Hn2]; subst; [done|]. inversion Hn2.
Qed.

Lemma ValidatePrepareStep_ok : step_ok initial ValidatePrepareStep validated.
Proof.
  apply triple_get. intros s0. unfold ValidatePrepareStep.
  assert (∀ s p, s = s0 ∧ initial s p → lock_known s p) as Hk by (by intros s p (-> & -> & ->)).
  destruct (str_eqb _ "") eqn:Hu; [by apply triple_fail|].
  destruct (list_len0 _); [by apply triple_fail|].
  eapply triple_pre; [|apply triple_continue].
  intros s p (-> & -> & ->). go_bool. done.
Qed.

Lemma LockPrepareStep_ok : step_ok validated (LockPrepareStep (opt_Locker opts)) locked.
Proof.
  unfold LockPrepareStep, notConfigured. destruct (opt_Locker opts) as [l|];
    [|apply triple_fail; by intros s p ((-> & ->) & _)].
  eapply triple_seq.
  - apply triple_wrapErr, (triple_call _ _ _ (λ _ s p, s = NewPrepareState req ∧ p = Locked ∧ uid ≠ "")).
    intros s p r ((-> & ->) & Hu). destruct r as [[]|e].
    + exists Locked. split; [constructor|done].
    + exists (Stopped false). split; [constructor|done].
  - intros []. apply triple_then.
    apply triple_modify. by intros s p (-> & -> & Hu).
Qed.

Lemma LoadPrepareCheckpointStep_ok :
  step_ok locked (LoadPrepareCheckpointStep (opt_Checkpoints opts)) loaded.
Proof.
  unfold LoadPrepareCheckpointStep, notConfigured.
  destruct (opt_Checkpoints opts) as [store|] eqn:Hstore;
    [|apply triple_fail; by intros s p (-> & -> & _)].
  set (read := λ cp, ∃ raw, cp = normalizeCheckpoint raw ∧ fromStore raw).
  unfold CheckpointLoad. eapply triple_seq; [eapply triple_seq|].
  - apply triple_wrapErr, (triple_call_at _ _ _ (λ raw s p, s = setUnlock (NewPrepareState req) ∧
      p = Loaded (normalizeCheckpoint raw) ∅ ∧ uid ≠ "" ∧ fromStore raw)).
    intros s p t r (-> & -> & Hu) Ht Hr. apply accepts_locked in Ht as ->. destruct r as [raw|e].
    + eexists. split; [constructor|]. do 3 (split; [done|]). by exists store.
    + exists (Stopped true). split; [constructor|done].
  - intros raw. apply (triple_ret _ _ (post (λ cp, at_ (λ s p,
      s = setUnlock (NewPrepareState req) ∧ p = Loaded cp ∅ ∧ uid ≠ "" ∧ read cp)) failed)).
    intros s h. apply at_mono. intros s' p (-> & -> & Hu & Hf). do 3 (split; [done|]). by exists raw.
  - intros cp. eapply triple_seq.
    { apply (triple_modify _ (λ s p, s = setCheckpoint cp (setUnlock (NewPrepareState req)) ∧
        p = Loaded cp ∅ ∧ uid ≠ "" ∧ read cp)). by intros s p (-> & -> & ?). }
    intros []. apply triple_get. intros s0.
    destruct (pcp_Claims cp !! pr_ClaimUID (ps_Request s0)) as [claim|] eqn:Hc.
    + apply triple_then.
      apply triple_modify. intros s p (-> & -> & -> & Hu). exists cp. simpl in Hc.
      unfold claimIn. by rewrite Hc.
    + eapply triple_pre; [|apply triple_continue]. intros s p (-> & -> & -> & Hu). exists cp.
      simpl in Hc. unfold claimIn. by rewrite Hc.
Qed.

Definition fresh (s : PState) (p : phase) : Prop :=
  ∃ cp, s = setPClaim (claimIn req cp) (setCheckpoint cp (setUnlock (NewPrepareState req))) ∧
        p = Loaded cp ∅ ∧ uid ≠ "" ∧ pc_State (claimIn req cp) ≠ PrepareStateCompleted.

Lemma ShortCircuitPrepareStep_ok : step_ok loaded ShortCircuitPrepareStep fresh.
Proof.
  apply triple_get. intros s0. unfold ShortCircuitPrepareStep.
  destruct (str_eqb _ _) eqn:Hst; simpl; go_bool.
  - eapply triple_seq; [|intros r; apply triple_finish].
    + apply (triple_lift _ _ (λ r s p, s = s0 ∧ loaded s p ∧
        PreparedResultFromClaim (pr_ClaimUID (ps_Request s0)) (ps_Claim s0) = Ok r)).
      intros s p [-> Hl]. destruct (PreparedResultFromClaim _ _) eqn:Hr; [done|].
      by destruct Hl as (cp & -> & -> & _).
    + intros s p (-> & (cp & -> & -> & Hu & raw & -> & Hraw) & Hr).
      split; [done|]. split; [done|]. left. by exists raw.
  - eapply triple_pre; [|apply triple_continue].
    intros s p (-> & cp & -> & -> & Hu & _). exists cp. done.
Qed.

(** ** Planning *)

(** What stays true of the state from the plan on. *)
Record common (cp : PrepareCheckpoint) (s : PState) : Prop := {
  co_uid : uid ≠ "";
  co_req : ps_Request s = req;
  co_unlock : ps_Unlock s = true;
  co_cp : ps_Checkpoint s = cp;
  co_map : ps_DeviceMap s = requestedDevices (pr_Devices req);
  co_states : pds_Device <$> ps_DeviceStates s = names req;
  co_names : pd_Device <$> pr_Devices (ps_MutableRequest s) = names req;
}.

Lemma knownDevices_name devs name d : knownDevices devs !! name = Some d → pds_Device d = name.
Proof.
  intros Hd. apply (lookup_fill_inv pds_Device (λ d, d)) in Hd as [Hd|(d' & _ & <- & <-)]; [|done].
  by rewrite lookup_empty in Hd.
Qed.

Lemma planDevices_names mig vfio wants known devs planned :
  (∀ name d, known !! name = Some d → pds_Device d = name) →
  planDevices (Q:=Q) mig vfio wants known devs = Ok planned →
  pds_Device <$> planned.*1 = pd_Device <$> devs ∧ pd_Device <$> planned.*2 = pd_Device <$> devs.
Proof.
  intros Hk. revert planned. induction devs as [|dev devs IH]; intros planned Hp; simpl in Hp.
  { by simplify_eq. }
  destruct (planDevice _ _ _ _ dev) as [[item mdev]|] eqn:Hd; [|done]. simpl in Hp.
  destruct (planDevices _ _ _ _ devs) as [ps|] eqn:Hps; [|done]. simplify_eq/=.
  destruct (IH ps eq_refl) as [-> ->]. unfold planDevice in Hd.
  set (v := if negb wants then _ else _) in Hd. destruct v; [|done]. simpl in Hd.
  destruct (_ && _); [done|]. simplify_eq. simpl. split; f_equal.
  destruct (known !! pd_Device dev) eqn:Hkd; [by apply Hk|done].
Qed.

Definition planned (s : PState) (p : phase) : Prop :=
  ∃ cp, common cp s ∧ p = Loaded cp ∅ ∧ pc_State (claimIn req cp) ≠ PrepareStateCompleted.

Lemma PlanPrepareStep_ok : step_ok fresh (PlanPrepareStep (opt_MIG opts) (opt_VFIO opts)) planned.
Proof.
  unfold PlanPrepareStep. apply triple_get. intros s0.
  eapply triple_seq.
  { apply (triple_modify _ (λ s p, fresh s0 p ∧
      s = setDeviceMap (requestedDevices (pr_Devices (ps_Request s0))) s0)).
    by intros s p [-> Hf]. }
  intros []. eapply triple_seq.
  { apply (triple_lift _ _ (λ pl s p, fresh s0 p ∧
      s = setDeviceMap (requestedDevices (pr_Devices (ps_Request s0))) s0 ∧
      pds_Device <$> pl.*1 = pd_Device <$> pr_Devices (ps_Request s0) ∧
      pd_Device <$> pl.*2 = pd_Device <$> pr_Devices (ps_Request s0))).
    intros s p [Hf ->]. destruct (planDevices _ _ _ _ _) as [pl|e] eqn:Hpl.
    - split; [done|]. split; [done|]. eapply planDevices_names; [|done]. apply knownDevices_name.
    - by destruct Hf as (cp & -> & -> & _). }
  intros pl. eapply triple_seq; [by apply (triple_modify _ (λ s p, fresh s0 p ∧
      s = setStates (pl.*1) (setDeviceMap (requestedDevices (pr_Devices (ps_Request s0))) s0) ∧
      pds_Device <$> pl.*1 = pd_Device <$> pr_Devices (ps_Request s0) ∧
      pd_Device <$> pl.*2 = pd_Device <$> pr_Devices (ps_Request s0)));
      intros s p (? & -> & ?)|].
  intros []. apply triple_then, triple_modify.
  intros s p ((cp & -> & -> & Hu & Hst) & -> & Hn1 & Hn2). exists cp. by split; [constructor|].
Qed.

(** ** The idle check *)

Definition all_free (free : gset string) : Prop :=
  pr_VFIO req = true → ∀ dev, dev ∈ pr_Devices req →
    IsPhysicalDevice (deviceTypeOf dev) = true → pciOf dev ∈ free.

Definition checked (s : PState) (p : phase) : Prop :=
  ∃ cp free, common cp s ∧ p = Loaded cp free ∧ all_free free ∧
    pc_State (claimIn req cp) ≠ PrepareStateCompleted.

(** The loop over the devices: [seen] is the set of the phase. *)
Definition checking (seen : gset string) (devs : list (PrepareDevice Q)) (s : PState) (p : phase)
    : Prop :=
  ∃ cp, common cp s ∧ p = Loaded cp seen ∧ pc_State (claimIn req cp) ≠ PrepareStateCompleted ∧
    pr_VFIO req = true ∧
    ∀ dev, dev ∈ pr_Devices req → IsPhysicalDevice (deviceTypeOf dev) = true →
      pciOf dev ∈ seen ∨ dev ∈ devs.

Lemma checking_skip seen dev devs s p :
  (IsPhysicalDevice (deviceTypeOf dev) = true → pciOf dev ∈ seen) →
  checking seen (dev :: devs) s p → checking seen devs s p.
Proof.
  intros Hskip (cp & ? & ? & ? & ? & Hall). exists cp. do 4 (split; [done|]). intros d Hd Hp.
  destruct (Hall d Hd Hp) as [|[-> |]%elem_of_cons]; auto.
Qed.

Lemma freeLoop_ok c devs : ∀ seen,
  triple (at_ (checking seen devs)) (freeLoop c seen devs) (post (λ _, at_ checked) failed).
Proof.
  assert (∀ seen ds s p, checking seen ds s p → lock_known s p) as Hk.
  { intros seen ds s p (cp & Hco & -> & _). by apply Hco. }
  induction devs as [|dev devs IH]; intros seen; simpl.
  - apply (triple_ret _ _ (post (λ _, at_ checked) failed)). intros s h. apply at_mono.
    intros s' p (cp & Hco & -> & Hst & _ & Hall). exists cp, seen. split; [done|]. split; [done|].
    split; [|done].
    intros _ d Hd Hp. by destruct (Hall d Hd Hp) as [|Hin%elem_of_nil].
  - destruct (IsPhysicalDevice (deviceTypeOf dev)) eqn:Hphys; simpl;
      [|eapply triple_pre; [|apply IH]; intros s p; apply checking_skip; congruence].
    destruct (str_eqb (pciOf dev) "") eqn:Hpci; [apply triple_fail; apply Hk|].
    case_bool_decide as Hseen; [eapply triple_pre; [|apply IH]; intros s p; by apply checking_skip|].
    apply (triple_seq _ _ _ (λ _, at_ (checking ({[pciOf dev]} ∪ seen) devs))); [|intros _; apply IH].
    apply (triple_call _ _ _ (λ _, checking ({[pciOf dev]} ∪ seen) devs)). intros s p r (cp & Hco & -> & Hst & Hv & Hall). destruct r as [[]|e].
    + exists (Loaded cp ({[pciOf dev]} ∪ seen)). split; [by constructor|].
      exists cp. do 4 (split; [done|]). intros d Hd Hp.
      destruct (Hall d Hd Hp) as [|[-> |]%elem_of_cons]; set_solver.
    + exists (Stopped true). split; [by constructor|]. apply Hco.
Qed.

Lemma GPUFreeCheckStep_ok : step_ok planned (GPUFreeCheckStep (opt_GPUChecker opts)) checked.
Proof.
  unfold GPUFreeCheckStep. apply triple_get. intros s0.
  destruct (pr_VFIO (ps_Request s0)) eqn:Hv; simpl.
  - destruct (opt_GPUChecker opts) as [c|].
    + apply triple_then.
      eapply triple_pre; [|apply freeLoop_ok]. intros s p (-> & cp & Hco & -> & Hst).
        exists cp. rewrite (co_req _ _ Hco) in Hv |- *. do 4 (split; [done|]). intros d Hd _. by right.
    + apply triple_fail. intros s p (_ & cp & Hco & -> & _). apply Hco.
  - eapply triple_pre; [|apply triple_continue]. intros s p (-> & cp & Hco & -> & Hst).
    exists cp, ∅. rewrite (co_req _ _ Hco) in Hv. do 2 (split; [done|]). split; [|done].
    unfold all_free. by rewrite Hv.
Qed.

(** ** The hardware phase *)

Definition timeSliced (dev : PrepareDevice Q) (u : string) : Prop :=
  AttrString (pd_Attributes dev) AttrGPUUUID = u ∧
  ∃ c, pd_Config dev = Some (GpuConf c) ∧ gs_IsTimeSlicing (gc_Sharing c) = true.

(** Where a resource may be recorded: a time slice at the device with that
    UUID, configured for it. *)
Definition place (dev : PrepareDevice Q) (r : resource) : Prop :=
  match r with RTimeSlice u => timeSliced dev u | _ => True end.

(** A resource is recorded at some index. *)
Definition recAt (s : PState) (r : resource) : Prop :=
  ∃ i d dev, ps_DeviceStates s !! i = Some d ∧
    pr_Devices (ps_MutableRequest s) !! i = Some dev ∧ holds d r ∧ place dev r.

Definition working (made : list resource) (s : PState) (p : phase) : Prop :=
  ∃ cp free, common cp s ∧ p = Started cp free made ∧ all_free free.

Definition notMps (r : resource) : Prop := match r with RMps _ => False | _ => True end.

(** Up to the MPS step. *)
Definition hardware (s : PState) (p : phase) : Prop :=
  ∃ made, working made s p ∧ (NoDup (names req) → Forall (recAt s) made) ∧ Forall notMps made.

Lemma working_lock made s p : working made s p → lock_known s p.
Proof. intros (cp & free & Hco & -> & _). apply Hco. Qed.

Lemma hardware_lock s p : hardware s p → lock_known s p.
Proof. intros (made & Hw & _). by eapply working_lock. Qed.

Lemma SavePrepareStartedStep_ok :
  step_ok checked (SavePrepareStartedStep (opt_Checkpoints opts)) hardware.
Proof.
  unfold SavePrepareStartedStep, saveClaim, notConfigured.
  destruct (opt_Checkpoints opts) as [store|];
    [|apply triple_fail; intros s p (cp & free & Hco & -> & _); apply Hco].
  apply triple_get. intros s0.
  set (cp' := setClaim _ _ _). eapply triple_seq.
  { apply (triple_modify _ (λ s p, checked s0 p ∧ s = setCheckpoint cp' s0)).
    by intros s p [-> Hc]. }
  intros []. apply triple_then, triple_wrapErr, (triple_call _ _ _ (λ _, hardware)).
  intros s p r [(cp & free & [] & -> & Hall & Hst) ->].
  assert (startedRecord req cp cp') as Hrec.
  { exists (ps_DeviceStates s0). subst cp'. by rewrite co_req0, co_cp0. }
  destruct r as [[]|e].
  - exists (Started cp' free []). split; [by constructor|]. exists []. split; [|by split].
    exists cp', free. split; [by constructor|done].
  - exists (Stopped true). split; [by econstructor|]. done.
Qed.

(** *** Updates of the state *)

Definition same_config (a b : PrepareDevice Q) : Prop :=
  pd_Device a = pd_Device b ∧ pd_Config a = pd_Config b ∧
  pd_Attributes a !! AttrGPUUUID = pd_Attributes b !! AttrGPUUUID.

(** The devices of the mutable request may get attributes, nothing else. *)
Lemma place_same a b r : same_config a b → place a r → place b r.
Proof.
  intros (_ & Hc & Ha). destruct r; try done. unfold place, timeSliced, AttrString.
  by rewrite Hc, Ha.
Qed.

Definition sim (s s' : PState) : Prop :=
  Forall2 same_config (pr_Devices (ps_MutableRequest s)) (pr_Devices (ps_MutableRequest s')).

Lemma sim_names s s' : sim s s' →
  pd_Device <$> pr_Devices (ps_MutableRequest s) = pd_Device <$> pr_Devices (ps_MutableRequest s').
Proof. unfold sim. induction 1 as [|a b l l' [Hd _] _ IH]; csimpl; congruence. Qed.

Lemma recAt_sim s s' r :
  ps_DeviceStates s' = ps_DeviceStates s → sim s s' → recAt s r → recAt s' r.
Proof.
  intros Hst Hsim (i & d & dev & Hd & Hdev & Hh & Ht).
  destruct (Forall2_lookup_l _ _ _ _ _ Hsim Hdev) as (dev' & Hdev' & Hc).
  exists i, d, dev'. rewrite Hst. do 3 (split; [done|]). by eapply place_same.
Qed.

Lemma recAt_update s i f r :
  (∀ d dev, ps_DeviceStates s !! i = Some d → pr_Devices (ps_MutableRequest s) !! i = Some dev →
     holds d r → place dev r → holds (f d) r) →
  recAt s r → recAt (updateState i f s) r.
Proof.
  intros Hf (j & d & dev & Hd & Hdev & Hh & Ht). exists j.
  destruct (decide (i = j)) as [->|Hne].
  - exists (f d), dev. simpl. rewrite list_lookup_alter_eq, Hd. eauto.
  - exists d, dev. simpl. by rewrite list_lookup_alter_ne.
Qed.

Lemma common_update cp i f s :
  (∀ d, pds_Device (f d) = pds_Device d) → common cp s → common cp (updateState i f s).
Proof.
  intros Hf []. constructor; try done. simpl. rewrite <- co_states0.
  apply list_eq. intros j. rewrite !list_lookup_fmap. destruct (decide (i = j)) as [->|Hne].
  - rewrite list_lookup_alter_eq. destruct (ps_DeviceStates s !! j); simpl; [|done]. by rewrite Hf.
  - by rewrite list_lookup_alter_ne.
Qed.

Lemma common_sim cp s s' :
  common cp s → sim s s' → ps_Request s' = ps_Request s → ps_Unlock s' = ps_Unlock s →
  ps_Checkpoint s' = ps_Checkpoint s → ps_DeviceMap s' = ps_DeviceMap s →
  ps_DeviceStates s' = ps_DeviceStates s → common cp s'.
Proof.
  intros [] Hsim ? ? ? ? Hst. constructor; try congruence. rewrite <- (sim_names s s'); done.
Qed.

Lemma withMigUUID_sim name u (devs : list (PrepareDevice Q)) :
  Forall2 same_config devs (withMigUUID name u devs).
Proof.
  induction devs as [|d devs IH]; simpl; [constructor|]. destruct (negb _).
  - by constructor.
  - constructor; [|by apply Forall2_same_length_lookup_2; [|intros; simplify_eq]].
    split; [done|]. split; [done|]. simpl. by rewrite lookup_insert_ne.
Qed.

Lemma sim_refl s : sim s s.
Proof. apply Forall2_same_length_lookup_2; [done|]. intros. by simplify_eq. Qed.

Lemma applyMigUUID_sim name u s : sim s (applyMigUUID name u s).
Proof.
  unfold applyMigUUID. destruct (str_eqb u ""); [apply sim_refl|]. apply withMigUUID_sim.
Qed.

Lemma applyMigUUID_states name u (s : PState) : ps_DeviceStates (applyMigUUID name u s) = ps_DeviceStates s.
Proof. unfold applyMigUUID. by destruct (str_eqb u ""). Qed.

Lemma common_applyMigUUID cp name u s : common cp s → common cp (applyMigUUID name u s).
Proof.
  intros Hco. apply (common_sim cp s); [done|apply applyMigUUID_sim|..];
    unfold applyMigUUID; by destruct (str_eqb u "").
Qed.

(** *** Loops over the device states *)

(** The states from an index on are as they were when the loop began. *)
Definition untouched (states : list PreparedDeviceState) (n : nat) (s : PState) : Prop :=
  ∀ j, (n ≤ j)%nat → ps_DeviceStates s !! j = states !! j.

Lemma indexed_split {A} (l : list A) done_ i a rest :
  indexed l = done_ ++ (i, a) :: rest → i = length done_ ∧ l !! i = Some a.
Proof.
  intros Heq. assert (indexed l !! length done_ = Some (i, a)) as Hl.
  { rewrite Heq. apply list_lookup_middle. done. }
  unfold indexed in Hl. rewrite list_lookup_imap in Hl.
  destruct (l !! length done_) eqn:Hd; simplify_eq/=. done.
Qed.

Lemma requestedDevices_in devs name (dev : PrepareDevice Q) :
  requestedDevices devs !! name = Some dev → dev ∈ devs.
Proof.
  intros Hd. apply (lookup_fill_inv pd_Device (λ d, d)) in Hd as [Hd|(d' & Hin & _ & <-)]; [|done].
  by rewrite lookup_empty in Hd.
Qed.

Definition looping (states : list PreparedDeviceState) (done_ : list (nat * PreparedDeviceState))
    (s : PState) (p : phase) : Prop :=
  hardware s p ∧ untouched states (length done_) s.

Lemma looping_next states done_ a s p : looping states done_ s p → looping states (done_ ++ [a]) s p.
Proof.
  intros [Hh Hu]. split; [done|]. intros j Hj. apply Hu. rewrite length_app in Hj. simpl in Hj. lia.
Qed.

Lemma untouched_update states n f s :
  untouched states n s → untouched states (S n) (updateState n f s).
Proof.
  intros Hu j Hj. simpl. rewrite list_lookup_alter_ne by lia. apply Hu. lia.
Qed.

(** Recording a new resource at the index of the loop. *)
Lemma hardware_record made s p i d f r :
  working (made ++ [r]) s p → (NoDup (names req) → Forall (recAt s) made) → Forall notMps made →
  ps_DeviceStates s !! i = Some d → (∀ d, pds_Device (f d) = pds_Device d) →
  (∀ r', holds d r' → holds (f d) r') → holds (f d) r →
  (match r with RTimeSlice _ | RMps _ => False | _ => True end) →
  hardware (updateState i f s) p.
Proof.
  intros (cp & free & Hco & -> & Hall) Hrec Hno Hd Hf Hkeep Hr Hnt. exists (made ++ [r]). split.
  { exists cp, free. split; [by apply common_update|done]. }
  split; [|rewrite Forall_app, Forall_singleton; split; [done|by destruct r]].
  intros Hnd. rewrite Forall_app, Forall_singleton. split.
  - eapply Forall_impl; [by apply Hrec|]. intros r' Hr'. apply recAt_update; [|done].
    intros d' dev Hd' _ Hh _. simplify_eq. by apply Hkeep.
  - assert (is_Some (pr_Devices (ps_MutableRequest s) !! i)) as [dev Hdev].
    { apply lookup_lt_is_Some. apply lookup_lt_Some in Hd.
      assert (length (pds_Device <$> ps_DeviceStates s)
        = length (pd_Device <$> pr_Devices (ps_MutableRequest s))) as Hlen.
      { by rewrite (co_states _ _ Hco), (co_names _ _ Hco). }
      rewrite !length_fmap in Hlen. lia. }
    exists i, (f d), dev. simpl. rewrite list_lookup_alter_eq, Hd. split; [done|].
    split; [done|]. split; [done|]. by destruct r.
Qed.

Lemma hardware_sim s s' p :
  hardware s p → sim s s' → ps_Request s' = ps_Request s → ps_Unlock s' = ps_Unlock s →
  ps_Checkpoint s' = ps_Checkpoint s → ps_DeviceMap s' = ps_DeviceMap s →
  ps_DeviceStates s' = ps_DeviceStates s → hardware s' p.
Proof.
  intros (made & (cp & free & Hco & -> & Hall) & Hrec & Hno) Hsim ? ? ? ? ?. exists made. split.
  - exists cp, free. split; [by apply (common_sim cp s)|done].
  - split; [|done]. intros Hnd. eapply Forall_impl; [by apply Hrec|]. intros r. by apply recAt_sim.
Qed.

Lemma looping_applyMigUUID states done_ a name u s p :
  looping states (done_ ++ [a]) s p → looping states (done_ ++ [a]) (applyMigUUID name u s) p.
Proof.
  intros [Hh Hu]. split.
  - apply (hardware_sim s); [done|apply applyMigUUID_sim|..];
      unfold applyMigUUID; by destruct (str_eqb u "").
  - intros j Hj. rewrite applyMigUUID_states. by apply Hu.
Qed.

Lemma migPrepareDevice_ok mig states done_ a rest :
  indexed states = done_ ++ a :: rest →
  triple (at_ (looping states done_)) (migPrepareDevice mig a)
    (post (λ _, at_ (looping states (done_ ++ [a]))) failed).
Proof.
  destruct a as [i d]. intros Hidx. pose proof (indexed_split _ _ _ _ _ Hidx) as [-> Hd].
  unfold migPrepareDevice. apply triple_get. intros s0.
  destruct (ps_DeviceMap s0 !! pds_Device d) as [dev|] eqn:Hdev;
    [|apply triple_fail; intros s p (_ & Hh & _); by apply hardware_lock].
  destruct (negb _).
  { apply (triple_ret _ _ (post (λ _, at_ (looping states (done_ ++ [(length done_, d)]))) failed)).
    intros s h. apply at_mono. intros s' p [_ Hl]. by apply looping_next. }
  destruct (pds_MIG d) as [m|] eqn:Hm.
  { apply triple_modify. intros s p [_ Hl]. by apply looping_applyMigUUID, looping_next. }
  eapply triple_seq.
  { apply (triple_lift _ _ (λ q s p, s = s0 ∧ looping states done_ s p ∧
      BuildMigPrepareRequest dev = Ok q)).
    intros s p [-> Hl]. destruct (BuildMigPrepareRequest dev); [done|]. by apply hardware_lock, Hl. }
  intros q. eapply triple_seq.
  { apply triple_wrapErr, (triple_call _ _ _ (λ m s p, ∃ made, untouched states (length done_) s ∧
      working (made ++ [RMig m]) s p ∧ (NoDup (names req) → Forall (recAt s) made) ∧
      Forall notMps made)).
    intros s p r (-> & [(made & (cp & free & Hco & -> & Hall) & Hrec & Hno) Hu] & Hq).
    assert (∀ r, allowed req free (EMigPrepare q r)) as Hok.
    { intros r'. exists dev. rewrite (co_map _ _ Hco) in Hdev. split; [|done].
      by eapply requestedDevices_in. }
    destruct r as [m|e].
    - exists (Started cp free (made ++ [RMig m])). split; [by apply n_make|].
      exists made. split; [done|]. split; [|done]. by exists cp, free.
    - exists (Stopped true). split; [by apply n_hw_err|]. apply Hco. }
  intros m. eapply triple_seq.
  { apply (triple_modify _ (looping states (done_ ++ [(length done_, d)]))).
    intros s p (made & Hu & Hw & Hrec & Hno). split.
    - eapply (hardware_record made); [done..|by rewrite Hu|done| |done|done].
      intros [m'|v|u|m']; simpl; try done. congruence.
    - rewrite length_app, Nat.add_1_r. by apply untouched_update. }
  intros []. eapply triple_seq.
  { apply (triple_modify _ (looping states (done_ ++ [(length done_, d)]))).
    intros s p [Hh Hu]. split; [|done]. by apply (hardware_sim s); [|exact (sim_refl s)|..]. }
  intros []. apply triple_modify. intros s p. apply looping_applyMigUUID.
Qed.

Lemma device_loop_ok (f : nat * PreparedDeviceState → PM ()) :
  (∀ states done_ a rest, indexed states = done_ ++ a :: rest →
     triple (at_ (looping states done_)) (f a) (post (λ _, at_ (looping states (done_ ++ [a]))) failed)) →
  ∀ s0, triple (at_ (λ s p, s = s0 ∧ hardware s p))
    (forEach f (indexed (ps_DeviceStates s0))) (post (λ _, at_ hardware) failed).
Proof.
  intros Hf s0. eapply triple_conseq.
  - apply (loop_rule (looping (ps_DeviceStates s0))). intros. by eapply Hf.
  - intros s h. apply at_mono. intros s' p [-> Hh]. by split.
  - intros [[]|e] s h; simpl; [|done]. apply at_mono. by intros s' p [Hh _].
Qed.

Lemma MigPrepareStep_ok : step_ok hardware (MigPrepareStep (opt_MIG opts)) hardware.
Proof.
  unfold MigPrepareStep. destruct (opt_MIG opts) as [mig|]; [|apply triple_continue].
  apply triple_get. intros s0. apply triple_then, device_loop_ok. apply migPrepareDevice_ok.
Qed.

(** *** VFIO *)

Lemma vfioPrepareDevice_ok vfio :
  pr_VFIO req = true → ∀ states done_ a rest, indexed states = done_ ++ a :: rest →
  triple (at_ (looping states done_)) (vfioPrepareDevice vfio a)
    (post (λ _, at_ (looping states (done_ ++ [a]))) failed).
Proof.
  intros Hv states done_ [i d] rest Hidx. pose proof (indexed_split _ _ _ _ _ Hidx) as [-> Hd].
  unfold vfioPrepareDevice. apply triple_get. intros s0.
  destruct (ps_DeviceMap s0 !! pds_Device d) as [dev|] eqn:Hdev;
    [|apply triple_fail; intros s p (_ & Hh & _); by apply hardware_lock].
  assert (triple (at_ (λ s p, s = s0 ∧ looping states done_ s p)) (mret ())
    (post (λ _, at_ (looping states (done_ ++ [(length done_, d)]))) failed)) as Hskip.
  { intros s h. apply at_mono. intros s' p [_ Hl]. by apply looping_next. }
  destruct (IsPhysicalDevice (deviceTypeOf dev)) eqn:Hphys; simpl; [|done].
  destruct (pds_VFIO d) as [v|] eqn:Hvd; [done|].
  destruct (str_eqb (pciOf dev) "").
  { apply triple_fail. intros s p (_ & Hh & _). by apply hardware_lock. }
  eapply triple_seq.
  { apply triple_wrapErr, (triple_call _ _ _ (λ v s p, ∃ made, untouched states (length done_) s ∧
      working (made ++ [RVfio v]) s p ∧ (NoDup (names req) → Forall (recAt s) made) ∧
      Forall notMps made)).
    intros s p r (-> & (made & (cp & free & Hco & -> & Hall) & Hrec & Hno) & Hu).
    assert (∀ r, allowed req free (EVfioPrepare (pciOf dev) r)) as Hok.
    { intros r'. split; [done|]. apply Hall; [done| |done].
      rewrite (co_map _ _ Hco) in Hdev. by eapply requestedDevices_in. }
    destruct r as [v|e].
    - exists (Started cp free (made ++ [RVfio v])). split; [by apply n_make|].
      exists made. split; [done|]. split; [|done]. by exists cp, free.
    - exists (Stopped true). split; [by apply n_hw_err|]. apply Hco. }
  intros v. eapply triple_seq.
  { apply (triple_modify _ (looping states (done_ ++ [(length done_, d)]))).
    intros s p (made & Hu & Hw & Hrec & Hno). split.
    - eapply (hardware_record made); [done..|by rewrite Hu|done| |done|done].
      intros [m'|v'|u|m']; simpl; try done. congruence.
    - rewrite length_app, Nat.add_1_r. by apply untouched_update. }
  intros []. apply triple_modify.
  intros s p [Hh Hu]. split; [|done]. by apply (hardware_sim s); [|exact (sim_refl s)|..].
Qed.

Lemma VfioPrepareStep_ok : step_ok hardware (VfioPrepareStep (opt_VFIO opts)) hardware.
Proof.
  unfold VfioPrepareStep. apply triple_get. intros s0.
  destruct (pr_VFIO (ps_Request s0)) eqn:Hv; simpl;
    [|eapply triple_pre; [|apply triple_continue]; by intros s p [_ ?]].
  destruct (opt_VFIO opts) as [vfio|];
    [|apply triple_fail; intros s p [_ Hh]; by apply hardware_lock].
  apply triple_then. intros s h Hat.
  assert (pr_VFIO req = true) as Hreq.
  { destruct Hat as (t & p & _ & _ & -> & made & (cp & free & Hco & _) & _).
    by rewrite <- (co_req _ _ Hco). }
  revert s h Hat. apply device_loop_ok. by apply vfioPrepareDevice_ok.
Qed.

(** *** Groups of devices that share a setting *)

(** [T idx uuid]: some device targets the state [idx] with this UUID. *)
Record group_ok (T : nat → string → Prop) (g : deviceGroup) : Prop := {
  go_len : length (dg_stateIndexes g) = length (dg_deviceUUIDs g);
  go_target j idx u : dg_stateIndexes g !! j = Some idx → dg_deviceUUIDs g !! j = Some u → T idx u;
  go_index idx : idx ∈ dg_stateIndexes g →
    ∃ j, dg_deviceIndex g !! idx = Some j ∧ dg_stateIndexes g !! j = Some idx;
}.

Lemma emptyGroup_ok T : group_ok T emptyGroup.
Proof. constructor; [done|done|]. intros idx Hin. by apply elem_of_nil in Hin. Qed.

Lemma group_ok_mono (T T' : nat → string → Prop) g :
  (∀ i u, T i u → T' i u) → group_ok T g → group_ok T' g.
Proof. intros HT []. constructor; eauto. Qed.

Lemma group_add_ok T g reqIdx idx u :
  group_ok T g → T idx u → group_ok T (group_add g reqIdx idx u).
Proof.
  intros [Hlen Ht Hi] HT. constructor; simpl.
  - rewrite !length_app. simpl. lia.
  - intros j i v. rewrite !lookup_app_Some. intros [Hj|[Hj Hs]] [Hu|[Hu Hs']].
    + eauto.
    + apply lookup_lt_Some in Hj. lia.
    + apply lookup_lt_Some in Hu. lia.
    + apply list_lookup_singleton_Some in Hs as [_ <-].
      by apply list_lookup_singleton_Some in Hs' as [_ <-].
  - intros i Hin. destruct (decide (i = idx)) as [->|Hne].
    + exists (length (dg_deviceUUIDs g)). rewrite lookup_insert_eq. split; [done|].
      rewrite <- Hlen. by apply list_lookup_middle.
    + rewrite elem_of_app, list_elem_of_singleton in Hin. destruct Hin as [Hin|]; [|done].
      destruct (Hi i Hin) as (j & Hj & Hs). exists j. rewrite lookup_insert_ne by done.
      split; [done|]. by apply lookup_app_l_Some.
Qed.

(** What [shareDevice] writes at an index. *)
Definition sharingOf (strategy : string) (mps : option PreparedMpsState) (g : deviceGroup)
    (idx : nat) : option PreparedSharing :=
  uuid ← dg_deviceUUIDs g !! default O (dg_deviceIndex g !! idx);
  Some (mkPreparedSharing strategy uuid mps).

Lemma sharingOf_target T strategy mps g idx :
  group_ok T g → idx ∈ dg_stateIndexes g →
  ∃ u, T idx u ∧ sharingOf strategy mps g idx = Some (mkPreparedSharing strategy u mps).
Proof.
  intros [Hlen Ht Hi] Hin. destruct (Hi idx Hin) as (j & Hj & Hs).
  destruct (dg_deviceUUIDs g !! j) as [u|] eqn:Hu.
  - exists u. split; [by eapply Ht|]. unfold sharingOf. rewrite Hj. simpl. by rewrite Hu.
  - apply lookup_ge_None in Hu. apply lookup_lt_Some in Hs. lia.
Qed.

(** The states after sharing the devices at [idxs]. *)
Definition shared (f : nat → option PreparedSharing) (idxs : list nat)
    (states states' : list PreparedDeviceState) : Prop :=
  ∀ i, states' !! i =
    if decide (i ∈ idxs) then
      match f i with Some sh => applySharingState sh <$> states !! i | None => states !! i end
    else states !! i.

Lemma shared_nil f states : shared f [] states states.
Proof. intros i. rewrite decide_False; [done|]. apply not_elem_of_nil. Qed.

Lemma shared_snoc f idxs states states' idx sh :
  shared f idxs states states' → f idx = Some sh →
  shared f (idxs ++ [idx]) states (alter (applySharingState sh) idx states').
Proof.
  intros Hs Hf i. destruct (decide (idx = i)) as [->|Hne].
  - rewrite list_lookup_alter_eq, Hs. rewrite (decide_True (P:=i ∈ idxs ++ [i])) by set_solver.
    rewrite Hf. case_decide; [|done]. by destruct (states !! i).
  - rewrite list_lookup_alter_ne, Hs by done.
    destruct (decide (i ∈ idxs)) as [Hin|Hin].
    + by rewrite decide_True by set_solver.
    + rewrite decide_False; [done|]. set_solver.
Qed.

Lemma shareDevices_ok strategy mps g T s0 (P : phase → Prop) :
  group_ok T g →
  (∀ idx, idx ∈ dg_stateIndexes g → (idx < length (ps_DeviceStates s0))%nat) →
  triple (at_ (λ s p, s = s0 ∧ P p)) (forEach (shareDevice strategy mps g) (dg_stateIndexes g))
    (post (λ _, at_ (λ s p, P p ∧ ∃ st', s = setStates st' s0 ∧
       shared (sharingOf strategy mps g) (dg_stateIndexes g) (ps_DeviceStates s0) st')) failed).
Proof.
  intros Hg Hlt.
  eapply triple_pre; [|apply (loop_rule (λ done_ s p, P p ∧ ∃ st', s = setStates st' s0 ∧
    shared (sharingOf strategy mps g) done_ (ps_DeviceStates s0) st'))].
  { intros s p [-> HP]. split; [done|]. exists (ps_DeviceStates s0). split; [by destruct s0|].
    apply shared_nil. }
  intros done_ idx rest Heq. assert (idx ∈ dg_stateIndexes g) as Hin by (rewrite Heq; set_solver).
  destruct (sharingOf_target T strategy mps g idx Hg Hin) as (u & _ & Hsh).
  unfold shareDevice. apply triple_get. intros s.
  unfold sharingOf in Hsh.
  destruct (dg_deviceUUIDs g !! _) as [u'|] eqn:Hu; [|done]. simplify_eq/=.
  intros s' h (t & p & -> & Ht & -> & HP & st' & -> & Hshared).
  assert (is_Some (st' !! idx)) as [d Hd].
  { rewrite Hshared. destruct (lookup_lt_is_Some_2 _ _ (Hlt idx Hin)) as [d Hd]. rewrite Hd.
    case_decide; [|done]. by destruct (sharingOf _ _ _ _). }
  simpl. rewrite Hd. exists t, p. split; [done|]. split; [done|]. split; [done|].
  eexists. split; [reflexivity|]. apply shared_snoc; [done|].
  unfold sharingOf. by rewrite Hu.
Qed.

Lemma shared_holds f idxs states states' i d r :
  shared f idxs states states' → states !! i = Some d → holds d r →
  (∀ sh, i ∈ idxs → f i = Some sh → holds (applySharingState sh d) r) →
  ∃ d', states' !! i = Some d' ∧ holds d' r.
Proof.
  intros Hs Hd Hr Hf. rewrite Hs, Hd. case_decide as Hin; [|by exists d].
  destruct (f i) as [sh|] eqn:Hfi; [|by exists d]. simpl. eauto.
Qed.

Lemma shared_devices f idxs states states' :
  shared f idxs states states' → pds_Device <$> states' = pds_Device <$> states.
Proof.
  intros Hs. apply list_eq. intros i. rewrite !list_lookup_fmap, Hs.
  case_decide; [|done]. destruct (f i); [|done]. by destruct (states !! i).
Qed.

Lemma common_setStates cp s st' :
  common cp s → pds_Device <$> st' = pds_Device <$> ps_DeviceStates s → common cp (setStates st' s).
Proof. intros [] Hst. constructor; try done. simpl. congruence. Qed.

(** *** Names and indices *)

Lemma indexBy_Some {A} (name : A → string) l n i :
  indexBy name l !! n = Some i → ∃ x, l !! i = Some x ∧ name x = n.
Proof.
  unfold indexBy. intros Hi.
  assert (∀ (ps : list (nat * A)) (m : gmap string nat),
    foldl (λ m '(i, x), <[name x := i]> m) m ps !! n = Some i →
    m !! n = Some i ∨ ∃ x, (i, x) ∈ ps ∧ name x = n) as Hgen.
  { clear Hi. induction ps as [|[j x] ps IH]; intros m Hm; simpl in Hm; [by left|].
    destruct (IH _ Hm) as [Hl|(y & Hin & Hy)].
    - rewrite lookup_insert_Some in Hl. destruct Hl as [[Hn ->]|[_ Hl]]; [|by left].
      right. exists x. split; [left|done].
    - right. exists y. split; [by right|done]. }
  destruct (Hgen _ _ Hi) as [Hl|(x & Hin & Hx)]; [by rewrite lookup_empty in Hl|].
  exists x. split; [|done]. apply list_elem_of_lookup in Hin as [k Hk].
  unfold indexed in Hk. rewrite list_lookup_imap in Hk.
  destruct (l !! k) eqn:Hlk; simplify_eq/=. done.
Qed.

(** The device at the index of a name is the device of that name. *)
Lemma device_at cp s (dev : PrepareDevice Q) idx :
  common cp s → NoDup (names req) → dev ∈ pr_Devices (ps_MutableRequest s) →
  indexBy pds_Device (ps_DeviceStates s) !! pd_Device dev = Some idx →
  pr_Devices (ps_MutableRequest s) !! idx = Some dev.
Proof.
  intros Hco Hnd Hin Hidx. apply indexBy_Some in Hidx as (d & Hd & Hname).
  assert ((pd_Device <$> pr_Devices (ps_MutableRequest s)) !! idx = Some (pd_Device dev)) as Hn.
  { rewrite (co_names _ _ Hco), <- (co_states _ _ Hco), list_lookup_fmap, Hd. simpl. by rewrite Hname. }
  rewrite list_lookup_fmap in Hn.
  destruct (pr_Devices (ps_MutableRequest s) !! idx) as [dev'|] eqn:Hdev'; [|done]. simplify_eq/=.
  f_equal. eapply (NoDup_fmap_inj pd_Device); [|by eapply list_elem_of_lookup_2|done|done].
  by rewrite (co_names _ _ Hco).
Qed.

Lemma index_lt s n idx :
  indexBy pds_Device (ps_DeviceStates s) !! n = Some idx → (idx < length (ps_DeviceStates (Q:=Q) s))%nat.
Proof. intros Hi. apply indexBy_Some in Hi as (d & Hd & _). by eapply lookup_lt_Some. Qed.

(** *** Time slicing *)

Definition stateIndex (s : PState) : gmap string nat := indexBy pds_Device (ps_DeviceStates s).
Definition reqIndex (s : PState) : gmap string nat :=
  indexBy pd_Device (pr_Devices (ps_MutableRequest s)).

(** A device that the time-slicing step targets. *)
Definition sliceTarget (s : PState) (idx : nat) (u : string) : Prop :=
  ∃ dev, dev ∈ pr_Devices (ps_MutableRequest s) ∧ stateIndex s !! pd_Device dev = Some idx ∧
    timeSliced dev u.

Lemma timeSlicingTarget_ok s dev tsc key ridx idx u :
  dev ∈ pr_Devices (ps_MutableRequest s) →
  timeSlicingTarget (stateIndex s) (reqIndex s) dev = Ok (Some (tsc, key, ridx, idx, u)) →
  sliceTarget s idx u.
Proof.
  intros Hin Ht. exists dev. unfold timeSlicingTarget in Ht.
  destruct (pd_Config dev) as [[c| | |]|] eqn:Hc; try done.
  destruct (gs_IsTimeSlicing (gc_Sharing c)) eqn:Hts; [|done]. simpl in Ht.
  destruct (negb _); [done|]. destruct (stateIndex s !! pd_Device dev) as [i|]; [|done].
  destruct (reqIndex s !! pd_Device dev) as [j|]; [|done].
  destruct (gs_GetTimeSlicingConfig _) as [[[[i'|]]|]|]; try done.
  destruct (str_eqb _ ""); [done|]. simplify_eq.
  split; [done|]. split; [done|]. split; [done|]. by exists c.
Qed.

Lemma timeSlicingGroups_ok s devs groups groups' :
  (∀ dev, dev ∈ devs → dev ∈ pr_Devices (ps_MutableRequest s)) →
  map_Forall (λ _ g, group_ok (sliceTarget s) (tg_devices g)) groups →
  timeSlicingGroups (stateIndex s) (reqIndex s) devs groups = Ok groups' →
  map_Forall (λ _ g, group_ok (sliceTarget s) (tg_devices g)) groups'.
Proof.
  revert groups. induction devs as [|dev devs IH]; intros groups Hin Hg Hgs; simpl in Hgs.
  { by simplify_eq. }
  assert (∀ d, d ∈ devs → d ∈ pr_Devices (ps_MutableRequest s)) as Hin' by (intros; apply Hin; by right).
  destruct (timeSlicingTarget _ _ dev) as [[[[[[tsc key] ridx] idx] u]|]|] eqn:Ht; [| |done];
    simpl in Hgs; [|by eapply IH].
  eapply IH; [done| |done]. apply map_Forall_insert_2; [|done]. simpl.
  apply group_add_ok; [|by eapply timeSlicingTarget_ok; [apply Hin; left|]].
  destruct (groups !! key) as [g|] eqn:Hk; simpl; [by apply (Hg key)|apply emptyGroup_ok].
Qed.

Lemma uniqueFrom_in seen l u : u ∈ uniqueFrom seen l → u ∈ l.
Proof.
  revert seen. induction l as [|v l IH]; intros seen; simpl; [done|].
  rewrite elem_of_cons. destruct (str_eqb v ""); [by eauto|].
  case_bool_decide; [by eauto|]. rewrite elem_of_cons. naive_solver.
Qed.

Lemma uniqueFrom_nonempty seen l : "" ∉ uniqueFrom seen l.
Proof.
  revert seen. induction l as [|v l IH]; intros seen; simpl; [apply not_elem_of_nil|].
  destruct (str_eqb v "") eqn:Hv; [done|]. go_bool. case_bool_decide; [done|].
  rewrite not_elem_of_cons. auto.
Qed.

(** The device that a written time slice belongs to. *)
Lemma sliceTarget_at cp s0 idx u :
  common cp s0 → NoDup (names req) → sliceTarget s0 idx u →
  ∃ dev, pr_Devices (ps_MutableRequest s0) !! idx = Some dev ∧ timeSliced dev u.
Proof.
  intros Hco Hnd (dev & Hin & Hidx & Hts). exists dev. split; [|done]. by eapply device_at.
Qed.

Definition slicing (s0 s : PState) (p : phase) : Prop :=
  hardware s p ∧ ∃ st', s = setStates st' s0 ∧ pds_Device <$> st' = pds_Device <$> ps_DeviceStates s0.

Lemma slice_keep cp s0 s1 st2 g r :
  common cp s0 → NoDup (names req) → group_ok (sliceTarget s0) g →
  ps_MutableRequest s1 = ps_MutableRequest s0 → notMps r →
  shared (sharingOf TimeSlicingStrategy None g) (dg_stateIndexes g) (ps_DeviceStates s1) st2 →
  recAt s1 r → recAt (setStates st2 s1) r.
Proof.
  intros Hco Hnd Hg Hmut Hno Hsh (i & d & dev & Hd & Hdev & Hh & Hp).
  destruct (shared_holds _ _ _ _ i d r Hsh Hd Hh) as (d' & Hd' & Hh').
  - intros sh Hin Hf. destruct (sharingOf_target _ TimeSlicingStrategy None _ _ Hg Hin) as (u & Ht & Hf').
    rewrite Hf' in Hf. simplify_eq. destruct r as [m|v|u'|m]; try done.
    destruct (sliceTarget_at _ _ _ _ Hco Hnd Ht) as (dev' & Hdev' & Hu & _).
    rewrite Hmut in Hdev. simplify_eq. simpl. destruct Hp as [<- _]. done.
  - by exists i, d', dev.
Qed.

Lemma slice_new cp s0 s1 st2 g u :
  common cp s0 → NoDup (names req) → group_ok (sliceTarget s0) g →
  ps_MutableRequest s1 = ps_MutableRequest s0 →
  length (ps_DeviceStates s1) = length (ps_DeviceStates s0) →
  shared (sharingOf TimeSlicingStrategy None g) (dg_stateIndexes g) (ps_DeviceStates s1) st2 →
  u ∈ dg_deviceUUIDs g → recAt (setStates st2 s1) (RTimeSlice u).
Proof.
  intros Hco Hnd Hg Hmut Hlen Hsh Hu. apply list_elem_of_lookup in Hu as [j Hj].
  assert (is_Some (dg_stateIndexes g !! j)) as [idx Hidx].
  { apply lookup_lt_is_Some. rewrite (go_len _ _ Hg). by eapply lookup_lt_Some. }
  pose proof (go_target _ _ Hg _ _ _ Hidx Hj) as Ht.
  assert (idx ∈ dg_stateIndexes g) as Hin by (by eapply list_elem_of_lookup_2).
  destruct (sharingOf_target _ TimeSlicingStrategy None _ _ Hg Hin) as (u2 & Ht2 & Hf).
  destruct (sliceTarget_at _ _ _ _ Hco Hnd Ht) as (dev & Hdev & Hts).
  destruct (sliceTarget_at _ _ _ _ Hco Hnd Ht2) as (dev2 & Hdev2 & Hts2). simplify_eq.
  assert (u = u2) as <- by (destruct Hts as [<- _], Hts2 as [<- _]; done).
  assert (idx < length (ps_DeviceStates s1))%nat as Hlt.
  { rewrite Hlen. destruct Ht as (? & _ & Hi & _). by eapply index_lt. }
  apply lookup_lt_is_Some in Hlt as [d Hd].
  exists idx, (applySharingState (mkPreparedSharing TimeSlicingStrategy u None) d), dev.
  simpl. rewrite Hsh, decide_True, Hf, Hd, Hmut by done. done.
Qed.

Lemma applyTimeSlicing_ok ts groups cp0 s0 key :
  common cp0 s0 → map_Forall (λ _ g, group_ok (sliceTarget s0) (tg_devices g)) groups →
  triple (at_ (slicing s0)) (applyTimeSlicing ts groups key) (post (λ _, at_ (slicing s0)) failed).
Proof.
  intros Hco0 Hgs. unfold applyTimeSlicing. destruct (groups !! key) as [g|] eqn:Hg; [|by intros s h].
  specialize (Hgs key g Hg). set (uuids := uniqueStrings _).
  eapply triple_seq.
  { apply (triple_call _ _ _ (λ _ s p, ∃ made, working (made ++ (RTimeSlice <$> uuids)) s p ∧
      (NoDup (names req) → Forall (recAt s) made) ∧ Forall notMps made ∧
      ∃ st', s = setStates st' s0 ∧ pds_Device <$> st' = pds_Device <$> ps_DeviceStates s0)).
    intros s p r [(made & (cp & free & Hco & -> & Hall) & Hrec & Hno) Hst].
    pose proof (uniqueFrom_nonempty ∅ (dg_deviceUUIDs (tg_devices g))) as Hne. destruct r as [[]|e].
    - eexists. split; [by apply n_make|]. exists made. split; [by exists cp, free|done].
    - exists (Stopped true). split; [by apply n_hw_err|]. apply Hco. }
  intros []. apply triple_fix. intros s1 p1 (_ & _ & _ & _ & st1 & -> & Hdev1).
  assert (length st1 = length (ps_DeviceStates s0)) as Hlen.
  { rewrite <- (length_fmap pds_Device), Hdev1. apply length_fmap. }
  eapply triple_conseq; [apply (shareDevices_ok _ _ _ _ (setStates st1 s0) (λ p, ∃ made,
      working (made ++ (RTimeSlice <$> uuids)) (setStates st1 s0) p ∧
      (NoDup (names req) → Forall (recAt (setStates st1 s0)) made) ∧ Forall notMps made) Hgs)|..].
  - intros idx Hin. simpl. rewrite Hlen.
    destruct (sharingOf_target _ "" None _ _ Hgs Hin) as (u & (dev & _ & Hi & _) & _).
    by eapply index_lt.
  - intros s h. apply at_mono. intros s' p [-> (made & ? & ? & ? & _)]. split; [done|]. by exists made.
  - intros [[]|e] s h; simpl; [|done]. apply at_mono.
    intros s' p [(made & (cp & free & Hco & -> & Hall) & Hrec & Hno) (st2 & -> & Hsh)].
    pose proof (shared_devices _ _ _ _ Hsh) as Hdev2. simpl in Hdev2. split.
    + exists (made ++ (RTimeSlice <$> uuids)). split; [|split].
      * exists cp, free. split; [|done]. by apply common_setStates.
      * intros Hnd. rewrite Forall_app, !Forall_forall. split.
        -- intros r Hr. apply (slice_keep cp0 s0 (setStates st1 s0) st2 (tg_devices g)); [done|done|done|done| |done|].
           ++ by eapply (proj1 (Forall_forall _ _)) in Hno.
           ++ by eapply (proj1 (Forall_forall _ _)); [apply Hrec|].
        -- intros r (u & -> & Hu)%list_elem_of_fmap. apply uniqueFrom_in in Hu.
           by apply (slice_new cp0 s0 (setStates st1 s0) st2 (tg_devices g)).
      * rewrite Forall_app. split; [done|]. rewrite Forall_fmap. by apply Forall_true.
    + exists st2. split; [done|]. congruence.
Qed.

Lemma TimeSlicingPrepareStep_ok :
  step_ok hardware (TimeSlicingPrepareStep (opt_TimeSlicing opts)) hardware.
Proof.
  unfold TimeSlicingPrepareStep. apply triple_get. intros s0.
  eapply triple_seq.
  { apply (triple_lift _ _ (λ groups s p, s = s0 ∧ hardware s p ∧
      map_Forall (λ _ g, group_ok (sliceTarget s0) (tg_devices g)) groups)).
    intros s p [-> Hh]. destruct (timeSlicingGroups _ _ _ _) as [groups|] eqn:Hg;
      [|by apply hardware_lock].
    split; [done|]. split; [done|]. eapply timeSlicingGroups_ok; [| |exact Hg]; [done|].
    apply map_Forall_empty. }
  intros groups. destruct (map_len0 groups).
  { eapply triple_pre; [|apply triple_continue]. by intros s p (_ & ? & _). }
  destruct (opt_TimeSlicing opts) as [ts|];
    [|apply triple_fail; intros s p (_ & Hh & _); by apply hardware_lock].
  apply triple_fix. intros s1 p1 (-> & (made0 & (cp0 & free0 & Hco0 & _) & _) & Hgs).
  eapply triple_seq.
  { instantiate (1 := λ _, at_ (slicing s0)). intros s h. apply at_mono.
    intros s' p (-> & _ & Hh & _). split; [done|]. exists (ps_DeviceStates s0). by destruct s0. }
  intros keys. apply triple_then. eapply triple_conseq;
    [apply (loop_rule (λ _ s p, slicing s0 s p)); intros; by eapply applyTimeSlicing_ok|done|].
  intros [[]|e] s h; simpl; [|done]. apply at_mono. by intros s' p [? _].
Qed.

(** *** MPS *)

(** A device that the MPS step puts in the group [key]. *)
Definition mpsUses (s : PState) (key : string) (idx : nat) (u : string) : Prop :=
  ∃ dev cfg mc, dev ∈ pr_Devices (ps_MutableRequest s) ∧ stateIndex s !! pd_Device dev = Some idx ∧
    pd_Config dev = Some cfg ∧ mpsTarget cfg dev = Ok (Some (mc, u)) ∧
    key = mpsGroupKey (deviceTypeOf dev) mc.

Record mps_ok (s : PState) (key : string) (g : mpsGroup (Q:=Q)) : Prop := {
  mo_group : group_ok (mpsUses s key) (mg_devices g);
  mo_nonempty : dg_stateIndexes (mg_devices g) ≠ [];
  mo_reqs : Forall (λ i, (i < length (pr_Devices (ps_MutableRequest s)))%nat) (dg_reqIndexes (mg_devices g));
}.

Lemma mergeExisting_devices g sh g' : mergeExistingMpsState g sh = Ok g' → mg_devices g' = mg_devices (Q:=Q) g.
Proof.
  unfold mergeExistingMpsState. destruct (sh ≫= psh_MPS); [|by intros [= <-]].
  destruct (mg_existing g); [destruct (negb _); [done|]|]; by intros [= <-].
Qed.

Lemma mpsGroups_ok s devs groups groups' :
  (∀ dev, dev ∈ devs → dev ∈ pr_Devices (ps_MutableRequest s)) →
  map_Forall (mps_ok s) groups →
  mpsGroups (ps_DeviceStates s) (stateIndex s) (reqIndex s) devs groups = Ok groups' →
  map_Forall (mps_ok s) groups'.
Proof.
  revert groups. induction devs as [|dev devs IH]; intros groups Hin Hg Hgs; simpl in Hgs.
  { by simplify_eq. }
  assert (∀ d, d ∈ devs → d ∈ pr_Devices (ps_MutableRequest s)) as Hin' by (intros; apply Hin; by right).
  destruct (pd_Config dev) as [cfg|] eqn:Hcfg; [|by eapply IH].
  destruct (stateIndex s !! pd_Device dev) as [idx|] eqn:Hidx; [|done].
  destruct (reqIndex s !! pd_Device dev) as [ridx|] eqn:Hridx; [|done].
  destruct (mpsTarget cfg dev) as [[[mc u]|]|] eqn:Ht; [| |done]; simpl in Hgs; [|by eapply IH].
  destruct (ps_DeviceStates s !! idx) as [d|]; [|done].
  destruct (mergeExistingMpsState _ _) as [g|] eqn:Hm; [|done]. simpl in Hgs.
  eapply IH; [done| |done]. apply map_Forall_insert_2; [|done].
  apply mergeExisting_devices in Hm. set (key := mpsGroupKey (deviceTypeOf dev) mc) in *.
  assert (group_ok (mpsUses s key) (mg_devices g) ∧
    Forall (λ i, (i < length (pr_Devices (ps_MutableRequest s)))%nat) (dg_reqIndexes (mg_devices g)))
    as [Hgo Hgr].
  { rewrite Hm. unfold ensureMpsGroup. fold key.
    destruct (groups !! key) as [g0|] eqn:Hk; simpl.
    - by destruct (Hg key g0 Hk).
    - split; [apply emptyGroup_ok|constructor]. }
  constructor; simpl.
  - apply group_add_ok; [done|]. exists dev, cfg, mc. split; [apply Hin; left|done].
  - by destruct (dg_stateIndexes (mg_devices g)).
  - rewrite Forall_app, Forall_singleton. split; [done|].
    apply indexBy_Some in Hridx as (x & Hx & _). by eapply lookup_lt_Some.
Qed.

Lemma setMpsAttributes_ok m idxs s1 (P : phase → Prop) :
  Forall (λ i, (i < length (pr_Devices (ps_MutableRequest s1)))%nat) idxs →
  triple (at_ (λ s p, s = s1 ∧ P p)) (forEach (setMpsAttributes m) idxs)
    (post (λ _, at_ (λ s p, P p ∧ ∃ req', s = setMutable req' s1 ∧ sim s1 s)) failed).
Proof.
  intros Hlt. eapply triple_pre; [|apply (loop_rule (λ _ s p, P p ∧ ∃ req', s = setMutable req' s1 ∧ sim s1 s))].
  { intros s p [-> HP]. split; [done|]. exists (ps_MutableRequest s1). split; [by destruct s1|apply sim_refl]. }
  intros done_ idx rest ->. unfold setMpsAttributes. apply triple_get. intros s.
  intros s' h (t & p & -> & Ht & -> & HP & req' & -> & Hsim).
  rewrite Forall_app, Forall_cons in Hlt. destruct Hlt as (_ & Hidx & _).
  rewrite (Forall2_length _ _ _ Hsim) in Hidx. apply lookup_lt_is_Some in Hidx as [dev Hdev].
  rewrite Hdev. exists t, p. split; [done|]. split; [done|]. split; [done|].
  eexists. split; [reflexivity|]. unfold sim in *. simpl in *.
  apply Forall2_same_length_lookup_2.
  { rewrite length_alter. by eapply Forall2_length. }
  intros i a b Ha Hb. destruct (decide (idx = i)) as [->|Hne].
  - rewrite list_lookup_alter_eq, Hdev in Hb. simplify_eq/=.
    destruct (Forall2_lookup_lr _ _ _ _ _ _ Hsim Ha Hdev) as (Hn & Hc & Hat).
    split; [done|]. split; [done|]. simpl. by rewrite !lookup_insert_ne.
  - rewrite list_lookup_alter_ne in Hb by done. by eapply Forall2_lookup_lr.
Qed.

Lemma mpsUses_at cp s0 key idx u :
  common cp s0 → NoDup (names req) → mpsUses s0 key idx u →
  ∃ dev cfg mc, pr_Devices (ps_MutableRequest s0) !! idx = Some dev ∧ pd_Config dev = Some cfg ∧
    mpsTarget cfg dev = Ok (Some (mc, u)) ∧ key = mpsGroupKey (deviceTypeOf dev) mc.
Proof.
  intros Hco Hnd (dev & cfg & mc & Hin & Hidx & ? & ? & ?). exists dev, cfg, mc.
  split; [|done]. by eapply device_at.
Qed.

Lemma mpsUses_key cp s0 key1 key2 idx u1 u2 :
  common cp s0 → NoDup (names req) → mpsUses s0 key1 idx u1 → mpsUses s0 key2 idx u2 → key1 = key2.
Proof.
  intros Hco Hnd Ha Hb. destruct (mpsUses_at _ _ _ _ _ Hco Hnd Ha) as (d1 & c1 & m1 & ? & ? & ? & ->).
  destruct (mpsUses_at _ _ _ _ _ Hco Hnd Hb) as (d2 & c2 & m2 & ? & ? & ? & ->).
  simplify_eq. congruence.
Qed.

(** A device in an MPS group is not time-sliced. *)
Lemma mpsTarget_not_sliced cfg dev dev' mc u u' :
  pd_Config dev = Some cfg → mpsTarget cfg dev = Ok (Some (mc, u)) → same_config dev dev' →
  ¬ timeSliced dev' u'.
Proof.
  intros Hc Ht (_ & Hc' & _) (_ & c & Hcfg & Hts). rewrite <- Hc', Hc in Hcfg. simplify_eq.
  simpl in Ht. destruct (gc_Sharing c) as [sh|]; [|done]. simpl in *.
  destruct (str_eqb (gs_Strategy sh) MpsStrategy) eqn:Hm; [|done].
  apply str_eqb_true in Hts, Hm. rewrite Hts in Hm. discriminate.
Qed.

(** An MPS daemon is recorded at a device of one of the groups done. *)
Definition mpsAt (groups : gmap string (mpsGroup (Q:=Q))) (done_ : list string) (s : PState)
    (m : PreparedMpsState) : Prop :=
  ∃ key g idx d, key ∈ done_ ∧ groups !! key = Some g ∧ idx ∈ dg_stateIndexes (mg_devices g) ∧
    ps_DeviceStates s !! idx = Some d ∧ holds d (RMps m).

Definition mpsing (groups : gmap string (mpsGroup (Q:=Q))) (s0 : PState) (done_ : list string)
    (s : PState) (p : phase) : Prop :=
  ∃ made ms, working (made ++ (RMps <$> ms)) s p ∧ Forall notMps made ∧ sim s0 s ∧
    pds_Device <$> ps_DeviceStates s = pds_Device <$> ps_DeviceStates s0 ∧
    (NoDup (names req) → Forall (recAt s) made ∧ Forall (mpsAt groups done_ s) ms).

Lemma mps_keep cp s0 s1 st2 key g m r :
  common cp s0 → NoDup (names req) → mps_ok s0 key g → sim s0 s1 → notMps r →
  shared (sharingOf MpsStrategy (Some m) (mg_devices g)) (dg_stateIndexes (mg_devices g))
    (ps_DeviceStates s1) st2 →
  recAt s1 r → recAt (setStates st2 s1) r.
Proof.
  intros Hco Hnd [Hg _ _] Hsim Hno Hsh (i & d & dev & Hd & Hdev & Hh & Hp).
  destruct (shared_holds _ _ _ _ i d r Hsh Hd Hh) as (d' & Hd' & Hh').
  - intros sh Hin _. destruct r as [m'|v|u'|m']; try done. exfalso.
    destruct (sharingOf_target _ MpsStrategy None _ _ Hg Hin) as (u & Ht & _).
    destruct (mpsUses_at _ _ _ _ _ Hco Hnd Ht) as (dev0 & cfg & mc & Hdev0 & Hc & Hmt & _).
    eapply mpsTarget_not_sliced; [exact Hc|exact Hmt| |exact Hp]. by eapply Forall2_lookup_lr.
  - by exists i, d', dev.
Qed.

Lemma mps_keep_at cp (groups : gmap string (mpsGroup (Q:=Q))) s0 s1 st2 done_ key g m m' :
  common cp s0 → NoDup (names req) → map_Forall (mps_ok s0) groups → key ∉ done_ →
  groups !! key = Some g →
  shared (sharingOf MpsStrategy (Some m) (mg_devices g)) (dg_stateIndexes (mg_devices g))
    (ps_DeviceStates s1) st2 →
  mpsAt groups done_ s1 m' → mpsAt groups (done_ ++ [key]) (setStates st2 s1) m'.
Proof.
  intros Hco Hnd Hgs Hkey Hk Hsh (key' & g' & idx & d & Hin & Hk' & Hidx & Hd & Hh).
  exists key', g', idx, d. split; [set_solver|]. do 2 (split; [done|]). split; [|done].
  simpl. rewrite Hsh, decide_False; [done|]. intros Hidx2.
  destruct (sharingOf_target _ MpsStrategy None _ _ (mo_group _ _ _ (Hgs _ _ Hk)) Hidx2) as (u & Ht & _).
  destruct (sharingOf_target _ MpsStrategy None _ _ (mo_group _ _ _ (Hgs _ _ Hk')) Hidx) as (u' & Ht' & _).
  apply Hkey. by rewrite (mpsUses_key _ _ _ _ _ _ _ Hco Hnd Ht Ht').
Qed.

Lemma mps_new (groups : gmap string (mpsGroup (Q:=Q))) s0 s1 st2 done_ key g m :
  mps_ok s0 key g → groups !! key = Some g →
  length (ps_DeviceStates s1) = length (ps_DeviceStates s0) →
  shared (sharingOf MpsStrategy (Some m) (mg_devices g)) (dg_stateIndexes (mg_devices g))
    (ps_DeviceStates s1) st2 →
  mpsAt groups (done_ ++ [key]) (setStates st2 s1) m.
Proof.
  intros [Hg Hne _] Hk Hlen Hsh. destruct (dg_stateIndexes (mg_devices g)) as [|idx l] eqn:Hidx; [done|].
  assert (idx ∈ dg_stateIndexes (mg_devices g)) as Hin by (rewrite Hidx; left).
  destruct (sharingOf_target _ MpsStrategy (Some m) _ _ Hg Hin) as (u & Ht & Hf).
  assert (idx < length (ps_DeviceStates s1))%nat as Hlt.
  { rewrite Hlen. destruct Ht as (? & ? & ? & _ & Hi & _). by eapply index_lt. }
  apply lookup_lt_is_Some in Hlt as [d Hd].
  exists key, g, idx, (applySharingState (mkPreparedSharing MpsStrategy u (Some m)) d).
  split; [set_solver|]. split; [done|]. split; [done|]. simpl.
  split; [|by exists u]. rewrite Hsh, decide_True, Hf, Hd by left. done.
Qed.

Lemma length_devices (l l' : list PreparedDeviceState) :
  pds_Device <$> l = pds_Device <$> l' → length l = length l'.
Proof. intros Heq. rewrite <- (length_fmap pds_Device l), Heq. apply length_fmap. Qed.

Lemma applyMps_ok mps groups cp0 s0 done_ key :
  common cp0 s0 → map_Forall (mps_ok s0) groups → key ∉ done_ →
  triple (at_ (mpsing groups s0 done_)) (applyMps mps groups key)
    (post (λ _, at_ (mpsing groups s0 (done_ ++ [key]))) failed).
Proof.
  intros Hco0 Hgs Hkey. unfold applyMps. destruct (groups !! key) as [g|] eqn:Hk; last first.
  { intros s h. apply at_mono. intros s' p (made & ms & Hw & Hno & Hsim & Hdev & Hrec).
    exists made, ms. do 4 (split; [done|]). intros Hnd. destruct (Hrec Hnd) as [? Hms].
    split; [done|]. eapply Forall_impl; [exact Hms|]. intros m (k & g & i & d & ? & ?).
    exists k, g, i, d. split; [set_solver|done]. }
  pose proof (Hgs key g Hk) as Hg. apply triple_get. intros s1. set (q := mkMpsPrepareRequest _ _ _).
  eapply triple_seq.
  { apply (triple_call _ _ _ (λ m s p, s = s1 ∧ ∃ made ms,
      working (made ++ (RMps <$> ms ++ [m])) s1 p ∧ Forall notMps made ∧ sim s0 s1 ∧
      pds_Device <$> ps_DeviceStates s1 = pds_Device <$> ps_DeviceStates s0 ∧
      (NoDup (names req) → Forall (recAt s1) made ∧ Forall (mpsAt groups done_ s1) ms))).
    intros s p r (-> & made & ms & (cp & free & Hco & -> & Hall) & Hrest). destruct r as [m|e].
    - eexists. split; [by apply n_make|]. split; [done|]. exists made, ms.
      split; [|done]. exists cp, free. by rewrite fmap_app, app_assoc.
    - exists (Stopped true). split; [by apply n_hw_err|]. apply Hco. }
  intros m. apply triple_fix. intros s1' p1 (-> & made1 & ms1 & _ & _ & Hsim1 & Hdev1 & _).
  eapply triple_seq.
  { eapply triple_pre; [|apply (setMpsAttributes_ok m _ s1 (λ p, ∃ made ms,
      working (made ++ (RMps <$> ms ++ [m])) s1 p ∧ Forall notMps made ∧
      (NoDup (names req) → Forall (recAt s1) made ∧ Forall (mpsAt groups done_ s1) ms)))].
    - intros s p (-> & _ & made & ms & ? & ? & _ & _ & ?). split; [done|]. by exists made, ms.
    - rewrite <- (Forall2_length _ _ _ Hsim1). apply Hg. }
  intros []. apply triple_fix. intros s2 p2 (_ & req2 & -> & Hsim2).
  assert (length (ps_DeviceStates s1) = length (ps_DeviceStates s0)) as Hlen by (by apply length_devices).
  assert (sim s0 (setMutable req2 s1)) as Hsim02.
  { unfold sim in *. eapply Forall2_trans; [|exact Hsim1|exact Hsim2].
    intros a b c (? & ? & ?) (? & ? & ?). split_and!; congruence. }
  eapply triple_conseq; [apply (shareDevices_ok MpsStrategy (Some m) (mg_devices g) _
    (setMutable req2 s1) (λ p, ∃ made ms,
      working (made ++ (RMps <$> ms ++ [m])) s1 p ∧ Forall notMps made ∧
      (NoDup (names req) → Forall (recAt s1) made ∧ Forall (mpsAt groups done_ s1) ms)) (mo_group _ _ _ Hg))|..].
  - intros idx Hin. simpl. rewrite Hlen.
    destruct (sharingOf_target _ "" None _ _ (mo_group _ _ _ Hg) Hin) as (u & (? & ? & ? & _ & Hi & _) & _).
    by eapply index_lt.
  - intros s h. apply at_mono. by intros s' p (-> & HP & _).
  - intros [[]|e] s h; simpl; [|done]. apply at_mono.
    intros s' p [(made & ms & (cp & free & Hco & -> & Hall) & Hno & Hrec) (st2 & -> & Hsh)].
    pose proof (shared_devices _ _ _ _ Hsh) as Hdev2. simpl in Hdev2.
    assert (common cp (setMutable req2 s1)) as Hco2 by (by apply (common_sim cp s1)).
    exists made, (ms ++ [m]). split; [exists cp, free; split; [by apply common_setStates|done]|].
    split; [done|]. split; [exact Hsim02|]. split; [simpl; congruence|].
    intros Hnd. destruct (Hrec Hnd) as [Hmade Hms]. split.
    + apply Forall_forall. intros r Hr. rewrite Forall_forall in Hno, Hmade.
      eapply (mps_keep cp0 s0); [done|done|done|done|by apply Hno|done|].
      apply (recAt_sim s1); [done|done|by apply Hmade].
    + rewrite Forall_app, Forall_singleton. split.
      * eapply Forall_impl; [exact Hms|]. intros m' Hm'.
        by eapply (mps_keep_at cp0 groups s0 (setMutable req2 s1)).
      * by eapply (mps_new groups s0 (setMutable req2 s1)).
Qed.

Definition hardwareDone (s : PState) (p : phase) : Prop :=
  ∃ made, working made s p ∧ (NoDup (names req) → Forall (recorded (ps_DeviceStates s)) made).

Lemma recAt_recorded s r : recAt s r → recorded (ps_DeviceStates s) r.
Proof.
  intros (i & d & dev & Hd & _ & Hh & _). exists d. split; [by eapply list_elem_of_lookup_2|done].
Qed.

Lemma hardware_done s p : hardware s p → hardwareDone s p.
Proof.
  intros (made & Hw & Hrec & _). exists made. split; [done|]. intros Hnd.
  eapply Forall_impl; [by apply Hrec|]. intros r. apply recAt_recorded.
Qed.

Lemma mpsing_done groups s0 done_ s p : mpsing groups s0 done_ s p → hardwareDone s p.
Proof.
  intros (made & ms & Hw & _ & _ & _ & Hrec). eexists. split; [exact Hw|]. intros Hnd.
  destruct (Hrec Hnd) as [Hm Hms]. rewrite Forall_app, Forall_fmap. split.
  - eapply Forall_impl; [exact Hm|]. intros r. apply recAt_recorded.
  - eapply Forall_impl; [exact Hms|]. intros m (key & g & idx & d & _ & _ & _ & Hd & Hh).
    exists d. split; [by eapply list_elem_of_lookup_2|done].
Qed.

Lemma MpsPrepareStep_ok : step_ok hardware (MpsPrepareStep (opt_Mps opts)) hardwareDone.
Proof.
  unfold MpsPrepareStep. apply triple_get. intros s0.
  eapply triple_seq.
  { apply (triple_lift _ _ (λ groups s p, s = s0 ∧ hardware s p ∧ map_Forall (mps_ok s0) groups)).
    intros s p [-> Hh]. destruct (mpsGroups _ _ _ _ _) as [groups|] eqn:Hg; [|by apply hardware_lock].
    split; [done|]. split; [done|]. eapply mpsGroups_ok; [| |exact Hg]; [done|]. apply map_Forall_empty. }
  intros groups. destruct (map_len0 groups).
  { eapply triple_pre; [|apply triple_continue]. intros s p (_ & ? & _). by apply hardware_done. }
  destruct (opt_Mps opts) as [mps|];
    [|apply triple_fail; intros s p (_ & Hh & _); by apply hardware_lock].
  apply triple_fix. intros s1 p1 (-> & (made0 & (cp0 & free0 & Hco0 & _) & _) & Hgs).
  eapply (triple_seq _ _ _ (λ keys s h, NoDup keys ∧ at_ (mpsing groups s0 []) s h)).
  { intros s h Hat. split.
    - simpl. rewrite (rangeKeys_perm h). apply NoDup_fst_map_to_list.
    - revert Hat. apply at_mono. intros s' p (-> & _ & (made & Hw & Hrec & Hno) & _).
      exists made, []. rewrite app_nil_r. split; [done|]. split; [done|].
      split; [apply sim_refl|]. split; [done|]. intros Hnd. split; [by apply Hrec|constructor]. }
  intros keys. apply triple_then. intros s h [Hkeys Hat]. revert s h Hat.
  eapply triple_conseq; [apply (loop_rule (mpsing groups s0))|done|].
  - intros done_ key rest ->. eapply applyMps_ok; [done|done|].
    apply NoDup_app in Hkeys as (_ & Hdis & _). intros Hin. apply (Hdis key Hin). left.
  - intros [[]|e] s h; simpl; [|done]. apply at_mono. intros s' p. apply mpsing_done.
Qed.

(** ** The CDI files and the completed record *)

Definition written (s : PState) (p : phase) : Prop :=
  ∃ cp made ids, common cp s ∧ p = Written cp made ids ∧
    Forall (λ d, ids !! pds_Device d = Some (pds_CDIDeviceIDs d)) (ps_DeviceStates s) ∧
    (NoDup (names req) → Forall (recorded (ps_DeviceStates s)) made) ∧
    ps_Result s = mkPrepareResult uid (toPrepared <$> ps_DeviceStates s).

Lemma cdiDevices_ok ids states out :
  cdiDevices ids states = Ok out →
  pds_Device <$> out.*1 = pds_Device <$> states ∧
  Forall (λ d, ids !! pds_Device d = Some (pds_CDIDeviceIDs d)) out.*1 ∧
  out.*2 = toPrepared <$> out.*1 ∧
  (∀ r, recorded states r → recorded out.*1 r).
Proof.
  revert out. induction states as [|d states IH]; intros out Hout; simpl in Hout.
  { simplify_eq. split_and!; [done|constructor|done|done]. }
  destruct (ids !! pds_Device d) as [l|] eqn:Hl; [|done].
  destruct (cdiDevices ids states) as [out'|]; [|done]. simplify_eq/=.
  destruct (IH out' eq_refl) as (Hd & Hi & Hp & Hr). split_and!.
  - by rewrite Hd.
  - by constructor.
  - by rewrite Hp.
  - intros r (x & [-> |Hx]%elem_of_cons & Hh).
    + exists (setCDI l d). split; [left|]. by destruct r.
    + destruct (Hr r) as (y & Hy & Hh'); [by exists x|]. exists y. split; [by right|done].
Qed.

Lemma WriteCDIStep_ok : step_ok hardwareDone (WriteCDIStep (opt_CDI opts)) written.
Proof.
  assert (∀ s p, hardwareDone s p → lock_known s p) as Hk.
  { intros s p (made & Hw & _). by eapply working_lock. }
  unfold WriteCDIStep, notConfigured. destruct (opt_CDI opts) as [cdi|];
    [|apply triple_fail; apply Hk].
  apply triple_get. intros s0. set (q := ps_MutableRequest s0).
  eapply triple_seq.
  { apply (triple_call _ _ _ (λ ids s p, s = s0 ∧ ∃ cp made, common cp s0 ∧
      p = Written cp made ids ∧ (NoDup (names req) → Forall (recorded (ps_DeviceStates s0)) made))).
    intros s p r (-> & made & (cp & free & Hco & -> & Hall) & Hrec). destruct r as [ids|e].
    - eexists. split; [by constructor|]. split; [done|]. by exists cp, made.
    - exists (Stopped true). split; [by apply n_hw_err|]. apply Hco. }
  intros ids. eapply triple_seq.
  { apply (triple_lift _ _ (λ out s p, s = s0 ∧ cdiDevices ids (ps_DeviceStates s0) = Ok out ∧
      ∃ cp made, common cp s0 ∧ p = Written cp made ids ∧
      (NoDup (names req) → Forall (recorded (ps_DeviceStates s0)) made))).
    intros s p (-> & Hrest). destruct (cdiDevices ids _) eqn:Hout; [done|].
    destruct Hrest as (cp & made & Hco & -> & _). apply Hco. }
  intros out. eapply triple_seq.
  { apply (triple_modify _ (λ s p, s = setStates (out.*1) s0 ∧
      cdiDevices ids (ps_DeviceStates s0) = Ok out ∧
      ∃ cp made, common cp s0 ∧ p = Written cp made ids ∧
      (NoDup (names req) → Forall (recorded (ps_DeviceStates s0)) made))).
    by intros s p (-> & ?). }
  intros []. apply triple_then, triple_modify.
  intros s p (-> & Hout & cp & made & Hco & -> & Hrec).
  destruct (cdiDevices_ok _ _ _ Hout) as (Hd & Hi & Hp & Hr).
  exists cp, made, ids. split.
  { destruct (common_setStates _ _ _ Hco Hd). by constructor. }
  split; [done|]. split; [done|]. split.
  - intros Hnd. eapply Forall_impl; [by apply Hrec|]. simpl. done.
  - simpl. by rewrite (co_req _ _ Hco), Hp.
Qed.

Definition completed (s : PState) (p : phase) : Prop :=
  ∃ cp, ps_Unlock s = true ∧ uid ≠ "" ∧ p = Completed cp (ps_DeviceStates s) ∧
    ps_Result s = mkPrepareResult uid (toPrepared <$> ps_DeviceStates s).

Lemma SavePrepareCompletedStep_ok :
  step_ok written (SavePrepareCompletedStep (opt_Checkpoints opts)) completed.
Proof.
  unfold SavePrepareCompletedStep, saveClaim, notConfigured.
  destruct (opt_Checkpoints opts) as [store|];
    [|apply triple_fail; intros s p (cp & made & ids & Hco & -> & _); apply Hco].
  apply triple_get. intros s0.
  set (cp' := setClaim _ _ _). eapply triple_seq.
  { apply (triple_modify _ (λ s p, written s0 p ∧ s = setCheckpoint cp' s0)).
    by intros s p [-> Hc]. }
  intros []. apply triple_then, triple_wrapErr, (triple_call _ _ _ (λ _, completed)).
  intros s p r [(cp & made & ids & [] & -> & Hids & Hrec & Hres) ->].
  assert (completedRecord req cp made ids (ps_DeviceStates s0) cp') as Hcr.
  { subst cp'. rewrite co_req0, co_cp0. by split_and!. }
  destruct r as [[]|e].
  - exists (Completed cp' (ps_DeviceStates s0)). split; [by econstructor|]. by exists cp'.
  - exists (Stopped true). split; [by econstructor|]. done.
Qed.

Lemma NotifyResourcesPrepareStep_ok :
  step_ok completed (NotifyResourcesPrepareStep (opt_ResourcesNotifier opts)) completed.
Proof.
  unfold NotifyResourcesPrepareStep. apply triple_get. intros s0.
  destruct (_ || _); [eapply triple_pre; [|apply triple_continue]; by intros s p [_ ?]|].
  apply triple_then. intros s h (t & p & -> & Ht & -> & cp & ? & ? & -> & ?).
  exists (t ++ [ENotify]), (Completed cp (ps_DeviceStates s0)). simpl. rewrite app_assoc.
  split; [done|]. split; [econstructor; [done|constructor]|]. by exists cp.
Qed.

Lemma FinalPrepareStep_ok : step_ok completed FinalPrepareStep completed.
Proof.
  unfold FinalPrepareStep. apply triple_get. intros s0.
  destruct (str_eqb _ "") eqn:Hres; go_bool.
  - apply triple_fail. by intros s p (_ & cp & Hu & _ & -> & _).
  - intros s h. apply at_mono. intros s' p (-> & cp & ? & ? & -> & Hr).
    split; [done|]. split; [done|]. right. by eexists _, _.
Qed.

(** ** The pipeline *)

Lemma Prepare_run :
  triple (at_ initial) (Run (newPrepareSteps opts)) (post (λ _, at_ success) failed).
Proof.
  apply Run_chain. unfold newPrepareSteps.
  eapply chain_step; [apply ValidatePrepareStep_ok|].
  eapply chain_step; [apply LockPrepareStep_ok|].
  eapply chain_step; [apply LoadPrepareCheckpointStep_ok|].
  eapply chain_step; [apply ShortCircuitPrepareStep_ok|].
  eapply chain_step; [apply PlanPrepareStep_ok|].
  eapply chain_step; [apply GPUFreeCheckStep_ok|].
  eapply chain_step; [apply SavePrepareStartedStep_ok|].
  eapply chain_step; [apply MigPrepareStep_ok|].
  eapply chain_step; [apply VfioPrepareStep_ok|].
  eapply chain_step; [apply TimeSlicingPrepareStep_ok|].
  eapply chain_step; [apply MpsPrepareStep_ok|].
  eapply chain_step; [apply WriteCDIStep_ok|].
  eapply chain_step; [apply SavePrepareCompletedStep_ok|].
  eapply chain_step; [apply NotifyResourcesPrepareStep_ok|].
  eapply chain_step; [apply FinalPrepareStep_ok|].
  apply chain_nil. intros s h e. apply at_mono. by intros s' p (cp & Hu & _ & -> & _).
Qed.
End Refine.
