(* ===== verification/PrepareTheorems.v ===== *)
(** * What [Prepare] guarantees

    The consequences of the protocol for the whole service call: locking,
    write-ahead, fail-stop, completeness of the record, isolation of other
    claims, and idempotency. *)

From S2P Require Import Prelude GoLib DeviceModel ConfigApi Effects Prepare PrepareSteps PrepareProtocol.
From S2P Require Import PrepareSpec.

Section Theorems.
Context {Q : Type} `{Quantity Q} `{MpsEncoding Q} `{RangeOrder Q}.
Implicit Types (req : PrepareRequest Q) (t : list (event Q)).

(** The calls a service call adds to the history. *)
Definition adds {A} (out : res A * list (event Q)) (h t : list (event Q)) : Prop :=
  snd out = h ++ t.

(** How a successful call ended: from the cache, or completed. *)
Definition endsOk (opts : Options Q) (req : PrepareRequest Q) (h t : list (event Q))
    (r : PrepareResult) : Prop :=
  ∃ t' u p, t = t' ++ [EUnlock u] ∧ accepts req Idle t' p ∧
    ((∃ raw, p = Loaded (normalizeCheckpoint raw) ∅ ∧ fromStore opts h raw ∧
        PreparedResultFromClaim (pr_ClaimUID req) (claimIn req (normalizeCheckpoint raw)) = Ok r) ∨
     (∃ cp ds, p = Completed cp ds ∧ r = mkPrepareResult (pr_ClaimUID req) (toPrepared <$> ds))).

Lemma NewService_inv opts svc :
  NewService opts = Ok svc → svc = opts ∧
  ∃ cdi l store, opt_CDI opts = Some cdi ∧ opt_Locker opts = Some l ∧
    opt_Checkpoints (Q:=Q) opts = Some store.
Proof.
  unfold NewService. destruct (opt_CDI opts); [|done]. destruct (opt_Locker opts); [|done].
  destruct (opt_Checkpoints opts); [|done]. intros [= <-]. eauto 10.
Qed.

Lemma Prepare_trace opts svc req h :
  NewService opts = Ok svc →
  ∃ t p, adds (ServicePrepare svc req h) h t ∧ accepts req Idle t p ∧ held p = false ∧
    match fst (ServicePrepare svc req h) with Ok r => endsOk opts req h t r | Err _ => True end.
Proof.
  intros (-> & cdi & l & store & Hcdi & Hl & Hstore)%NewService_inv.
  unfold adds, ServicePrepare. rewrite Hcdi.
  pose proof (Prepare_run opts req h (NewPrepareState req) h) as Hrun.
  destruct (Run (newPrepareSteps opts) (NewPrepareState req) h) as [r [st h']].
  simpl in Hrun. unfold deferUnlock. rewrite Hl.
  assert (∀ t p, accepts req Idle t p → ps_Unlock st = held p → ∃ t2 p2,
    (if ps_Unlock st then (h ++ t) ++ [EUnlock (lk_Unlock l (h ++ t))] else h ++ t) = h ++ t2 ∧
    accepts req Idle t2 p2 ∧ held p2 = false) as Hunlock.
  { intros t p Ht Hu. destruct (ps_Unlock st).
    - exists (t ++ [EUnlock (lk_Unlock l (h ++ t))]), Released. rewrite app_assoc.
      split; [done|]. split; [|done]. by econstructor; [|constructor].
    - by exists t, p. }
  assert (at_ (next req) Idle h (initial req) (NewPrepareState req) h) as Hinit.
  { exists [], Idle. rewrite app_nil_r. split; [done|]. split; [constructor|done]. }
  specialize (Hrun Hinit). destruct r as [[]|e]; destruct Hrun as (t & p & -> & Ht & Hpost); simpl.
  - destruct Hpost as (Hu & Huid & Hout). rewrite Hu.
    exists (t ++ [EUnlock (lk_Unlock l (h ++ t))]), Released. rewrite app_assoc. split; [done|].
    assert (held p = true) as Hheld by (destruct Hout as [(? & -> & _)|(? & ? & -> & _)]; done).
    split; [by econstructor; [|constructor]|]. split; [done|].
    destruct (str_eqb _ ""); [done|]. eexists t, _, p. split; [done|]. split; [done|].
    destruct Hout as [(raw & -> & ? & Hr)|(cp & ds & -> & Hr)]; [left|right]; eauto.
  - destruct (Hunlock t p Ht Hpost) as (t2 & p2 & Heq & Ht2 & Hp2). exists t2, p2. by rewrite Heq.
Qed.

(** ** Trace properties of the protocol *)

Definition lockEvent (e : event Q) : bool :=
  match e with ELock _ | EUnlock _ => true | _ => false end.

Lemma accepts_bracket req t p :
  accepts req Idle t p →
  match p with
  | Idle => t = []
  | Stopped false => ∃ e, t = [ELock (Err e)]
  | Released => ∃ body u, t = ELock (Ok ()) :: body ++ [EUnlock u] ∧
                  Forall (λ e, lockEvent e = false) body
  | _ => ∃ body, t = ELock (Ok ()) :: body ∧ Forall (λ e, lockEvent e = false) body
  end.
Proof.
  remember Idle as p0. induction 1 as [|p0 t q e r Ht IH Hn]; subst; [done|].
  specialize (IH eq_refl).
  destruct Hn as [| | | | | | | |? ? ? e new ? Hm| |? ? ? e ? Hf| | | |p u Hh]; simpl in *;
    try (destruct IH as (body & -> & Hb); eexists (body ++ [_]);
         split; [done|]; rewrite Forall_app, Forall_singleton; split; [done|];
         (done || by destruct e)).
  - subst. by exists [].
  - subst. by eexists.
  - destruct p as [| | | | | |[]|]; try done; destruct IH as (body & -> & Hb); by exists body, u.
Qed.

Definition failedCall (e : event Q) : Prop :=
  match e with
  | ELock r | ESave _ r | EEnsureGPUFree _ r | ESetTimeSlice _ _ r => isErr r
  | ELoad r => isErr r
  | EMigPrepare _ r => isErr r
  | EVfioPrepare _ r => isErr r
  | EMpsStart _ r => isErr r
  | ECDIWrite _ r => isErr r
  | _ => False
  end.

Lemma next_failed req p e q : next req p e q → failedCall e → ∃ b, q = Stopped b.
Proof.
  intros Hn Hf. destruct Hn as [| | | | | | | |? ? ? e new ? Hm| | | | | |]; try done; eauto.
  by destruct e as [| | | | |? []| |? []| |? ? []|? []| | | |].
Qed.

Lemma accepts_from_stopped req t b p : accepts req (Stopped b) t p → t = [] ∨ ∃ u, t = [EUnlock u].
Proof.
  remember (Stopped b) as p0. intros Ht.
  assert ((t = [] ∧ p = Stopped b) ∨ ((∃ u, t = [EUnlock u]) ∧ p = Released)) as [[]|[]]; auto.
  induction Ht as [|p0 t q e r Ht IH Hn]; subst; [by left|].
  destruct (IH eq_refl) as [[-> ->]|[(u & ->) ->]].
  - right. apply next_stopped in Hn as (_ & -> & u & ->). split; [by exists u|done].
  - by apply next_released in Hn.
Qed.

(** Checkpoints agree on the other claims. *)
Definition agree (uid : string) (cp raw : PrepareCheckpoint) : Prop :=
  ∀ u, u ≠ uid → pcp_Claims cp !! u = pcp_Claims raw !! u.

Definition cpOf (p : phase) : option PrepareCheckpoint :=
  match p with
  | Loaded cp _ | Started cp _ _ | Written cp _ _ | Completed cp _ => Some cp
  | _ => None
  end.

Lemma agree_setClaim uid c cp raw : agree uid cp raw → agree uid (setClaim uid c cp) raw.
Proof. intros Ha u Hu. simpl. rewrite lookup_insert_ne by done. by apply Ha. Qed.

Lemma agree_normalize uid raw : agree uid (normalizeCheckpoint raw) raw.
Proof. intros u _. unfold normalizeCheckpoint. by destruct (str_eqb _ ""). Qed.

Lemma accepts_agree req t p :
  accepts req Idle t p →
  (∀ cp r, ESave cp r ∈ t → ∃ raw, ELoad (Ok raw) ∈ t ∧ agree (pr_ClaimUID req) cp raw) ∧
  (∀ cp, cpOf p = Some cp → ∃ raw, ELoad (Ok raw) ∈ t ∧ agree (pr_ClaimUID req) cp raw).
Proof.
  remember Idle as p0. induction 1 as [|p0 t q e r Ht IH Hn]; subst.
  { split; [intros ?? Hin; by apply elem_of_nil in Hin|done]. }
  destruct (IH eq_refl) as [Hs Hp]. setoid_rewrite elem_of_app. setoid_rewrite list_elem_of_singleton.
  assert (∀ cp', (∃ raw, ELoad (Ok raw) ∈ t ∧ agree (pr_ClaimUID req) cp' raw) →
    ∃ raw, (ELoad (Ok raw) ∈ t ∨ ELoad (Ok raw) = e) ∧ agree (pr_ClaimUID req) cp' raw) as Hlift.
  { intros cp' (raw & ? & ?). exists raw. auto. }
  assert (∀ cp' cp c, cpOf q = Some cp → cp' = setClaim (pr_ClaimUID req) c cp →
    ∃ raw, ELoad (Ok raw) ∈ t ∧ agree (pr_ClaimUID req) cp' raw) as Hset.
  { intros cp' cp c Hq ->. destruct (Hp cp Hq) as (raw & ? & ?). exists raw.
    split; [done|]. by apply agree_setClaim. }
  split.
  - intros cp rr [Hin|<-]; [by apply Hlift, (Hs cp rr)|]. apply Hlift.
    inversion Hn as [| | | | | |? ? ? (ds & _ & Hc & _)|? ? ? ? (ds & _ & Hc & _)|? ? ? ? ? ? Hm| |
      ? ? ? ? ? Hf|? ? ? ? ? (Hc & _)|? ? ? ? ? ? (Hc & _)| |]; subst; simpl in *; try done;
      by eapply Hset.
  - intros cp Hcp.
    destruct Hn as [| |raw| | | |? ? cp' (ds & _ & Hc & _)|? ? ? ? _|? ? ? e new ? Hm| |? ? ? e ? Hf|
      ? ? ? ? ? (Hc & _)|? ? ? ? ? ? _| |]; simplify_eq/=; try (apply Hlift; first [by apply Hp|by eapply Hset]).
    exists raw. split; [by right|]. apply agree_normalize.
Qed.

Lemma accepts_completed req t cp ds :
  accepts req Idle t (Completed cp ds) →
  ∃ t0 n cp0 made ids, t = t0 ++ ESave cp (Ok ()) :: replicate n ENotify ∧
    accepts req Idle t0 (Written cp0 made ids) ∧ completedRecord req cp0 made ids ds cp.
Proof.
  remember Idle as p0. remember (Completed cp ds) as p. intros Ht. revert Heqp.
  induction Ht as [|p0 t q e r Ht IH Hn]; intros Hp; subst; [done|].
  inversion Hn as [| | | | | | | | | | |cp1 made ids ? ? Hcr| |? ? |]; subst.
  - by exists t, O, cp1, made, ids.
  - destruct (IH eq_refl eq_refl) as (t0 & n & cp0 & made & ids & -> & Ha & Hcr).
    exists t0, (n + 1)%nat, cp0, made, ids. split; [|done].
    rewrite <- app_assoc. simpl. by rewrite replicate_add.
Qed.

Lemma accepts_loaded req t cp :
  accepts req Idle t (Loaded cp ∅) →
  ∃ raw, cp = normalizeCheckpoint raw ∧ t = [ELock (Ok ()); ELoad (Ok raw)].
Proof.
  intros Ht. inversion Ht as [|? t1 q e ? Ht1 Hn]; subst.
  inversion Hn as [| |raw| | | | | | | | | | | |]; subst; [|set_solver].
  inversion Ht1 as [|? t2 q2 e2 ? Ht2 Hn2]; subst. inversion Hn2; subst.
  exists raw. split; [done|]. by apply accepts_bracket in Ht2 as ->.
Qed.

Lemma accepts_written req t cp made ids :
  accepts req Idle t (Written cp made ids) → ∃ t' q, t = t' ++ [ECDIWrite q (Ok ids)].
Proof.
  intros Ht. inversion Ht as [|? t1 p1 e ? Ht1 Hn]; subst. inversion Hn; subst. eauto.
Qed.

Lemma normalize_claims raw : pcp_Claims (normalizeCheckpoint raw) = pcp_Claims raw.
Proof. unfold normalizeCheckpoint. by destruct (str_eqb (pcp_Version raw) ""). Qed.

Lemma claimIn_normalize req raw : claimIn req (normalizeCheckpoint raw) = claimIn req raw.
Proof. unfold claimIn, normalizeCheckpoint. by destruct (str_eqb _ ""). Qed.

(** ** The guarantees *)

(** Every call of [Prepare] brackets its work with the node lock: it does
    nothing, or fails to lock, or locks first and unlocks last exactly once,
    whatever the managers answer. *)
Theorem Prepare_lock opts svc req h :
  NewService opts = Ok svc →
  ∃ t, adds (ServicePrepare svc req h) h t ∧
    (t = [] ∨ (∃ e, t = [ELock (Err e)]) ∨
     ∃ body u, t = ELock (Ok ()) :: body ++ [EUnlock u] ∧
       Forall (λ e, lockEvent e = false) body).
Proof.
  intros Hsvc. destruct (Prepare_trace opts svc req h Hsvc) as (t & p & Hadd & Ht & Hp & _).
  exists t. split; [done|]. apply accepts_bracket in Ht.
  destruct p as [| | | | | |[]|]; try done; auto.
Qed.

(** C5: no hardware or CDI call is made before a record of the claim, in
    state "PrepareStarted" and naming every requested device, was saved. *)
Theorem Prepare_write_ahead opts svc req h t :
  NewService opts = Ok svc → adds (ServicePrepare svc req h) h t →
  ∀ l1 e l2, t = l1 ++ e :: l2 → isHardware e →
  ∃ cp ds, ESave cp (Ok ()) ∈ l1 ∧
    pcp_Claims cp !! pr_ClaimUID req = Some (mkPreparedClaim PrepareStateStarted ds) ∧
    pds_Device <$> ds = pd_Device <$> pr_Devices req.
Proof.
  intros Hsvc Hadd l1 e l2 Heq He.
  destruct (Prepare_trace opts svc req h Hsvc) as (t' & p & Hadd' & Ht & _).
  unfold adds in *. rewrite Hadd in Hadd'. apply app_inv_head in Hadd' as <-.
  destruct (runs_prefix _ _ _ _ Ht _ _ _ Heq) as (p1 & p2 & Hl1 & Hn).
  eapply accepts_started; [exact Hl1|]. by eapply next_hardware.
Qed.

(** the first failed call is the last one, but for the unlock. *)
Theorem Prepare_fail_stop opts svc req h t :
  NewService opts = Ok svc → adds (ServicePrepare svc req h) h t →
  ∀ l1 e l2, t = l1 ++ e :: l2 → failedCall e → l2 = [] ∨ ∃ u, l2 = [EUnlock u].
Proof.
  intros Hsvc Hadd l1 e l2 Heq He.
  destruct (Prepare_trace opts svc req h Hsvc) as (t' & p & Hadd' & Ht & _).
  unfold adds in *. rewrite Hadd in Hadd'. apply app_inv_head in Hadd' as <-. subst t.
  apply runs_split in Ht as (m & _ & Ht). apply runs_cons in Ht as (m' & Hn & Ht).
  destruct (next_failed _ _ _ _ Hn He) as [b ->]. by eapply accepts_from_stopped.
Qed.

(** C4: a successful [Prepare] that is not answered from the cache saved,
    after everything else, a "PrepareCompleted" record of the claim whose
    devices are the requested ones and whose CDI ids are those the CDI writer
    returned and the result carries; and when the requested names are
    distinct, every MIG instance, VFIO binding, time slice and MPS daemon it
    made is in that record. *)
Theorem Prepare_completed opts svc req h t r :
  NewService opts = Ok svc → adds (ServicePrepare svc req h) h t →
  fst (ServicePrepare svc req h) = Ok r →
  (∃ raw u, t = [ELock (Ok ()); ELoad (Ok raw); EUnlock u] ∧
     PreparedResultFromClaim (pr_ClaimUID req) (claimIn req raw) = Ok r) ∨
  (∃ t0 n u cp ds q ids,
     t = t0 ++ ESave cp (Ok ()) :: replicate n ENotify ++ [EUnlock u] ∧
     pcp_Claims cp !! pr_ClaimUID req = Some (mkPreparedClaim PrepareStateCompleted ds) ∧
     r = mkPrepareResult (pr_ClaimUID req) (toPrepared <$> ds) ∧
     pds_Device <$> ds = pd_Device <$> pr_Devices req ∧
     ECDIWrite q (Ok ids) ∈ t0 ∧
     Forall (λ d, ids !! pds_Device d = Some (pds_CDIDeviceIDs d)) ds ∧
     (NoDup (pd_Device <$> pr_Devices req) → Forall (recorded ds) (madeOf t0))).
Proof.
  intros Hsvc Hadd Hr. destruct (Prepare_trace opts svc req h Hsvc) as (t' & p & Hadd' & _ & _ & Hend).
  unfold adds in *. rewrite Hadd in Hadd'. apply app_inv_head in Hadd' as <-. rewrite Hr in Hend.
  destruct Hend as (t1 & u & q & -> & Ht & [(raw & -> & _ & Hres)|(cp & ds & -> & ->)]).
  - left. apply accepts_loaded in Ht as (raw' & Hn & ->). exists raw', u.
    by rewrite Hn, claimIn_normalize in Hres.
  - right. apply accepts_completed in Ht as (t0 & n & cp0 & made & ids & -> & Ht & -> & Hn & Hids & Hrec).
    pose proof (accepts_made _ _ _ _ Ht eq_refl) as Hmade.
    apply accepts_written in Ht as (t2 & w & ->).
    exists (t2 ++ [ECDIWrite w (Ok ids)]), n, u, (setClaim (pr_ClaimUID req) (mkPreparedClaim PrepareStateCompleted ds) cp0), ds, w, ids.
    split; [by rewrite <- app_assoc|]. split; [apply lookup_insert_eq|]. do 2 (split; [done|]).
    split; [set_solver|]. split; [done|]. by rewrite Hmade.
Qed.

(** whatever happens, a checkpoint that [Prepare] saves agrees with the
    one it loaded on every other claim. *)
Theorem Prepare_other_claims opts svc req h t cp r :
  NewService opts = Ok svc → adds (ServicePrepare svc req h) h t → ESave cp r ∈ t →
  ∃ raw, ELoad (Ok raw) ∈ t ∧
    ∀ u, u ≠ pr_ClaimUID req → pcp_Claims cp !! u = pcp_Claims raw !! u.
Proof.
  intros Hsvc Hadd Hin. destruct (Prepare_trace opts svc req h Hsvc) as (t' & p & Hadd' & Ht & _).
  unfold adds in *. rewrite Hadd in Hadd'. apply app_inv_head in Hadd' as <-.
  by apply (proj1 (accepts_agree _ _ _ Ht) cp r).
Qed.

(** A GPU is bound to VFIO only in a VFIO claim and only after it was
    found free of processes. *)
Theorem Prepare_vfio_checked opts svc req h t :
  NewService opts = Ok svc → adds (ServicePrepare svc req h) h t →
  ∀ l1 pci r l2, t = l1 ++ EVfioPrepare pci r :: l2 →
  pr_VFIO req = true ∧ EEnsureGPUFree pci (Ok ()) ∈ l1.
Proof.
  intros Hsvc Hadd l1 pci r l2 Heq.
  destruct (Prepare_trace opts svc req h Hsvc) as (t' & p & Hadd' & Ht & _).
  unfold adds in *. rewrite Hadd in Hadd'. apply app_inv_head in Hadd' as <-.
  destruct (runs_prefix _ _ _ _ Ht _ _ _ Heq) as (p1 & p2 & Hl1 & Hn).
  assert (pr_VFIO req = true ∧ pci ∈ freeOf p1) as [Hv Hf].
  { inversion Hn; subst; simpl in *; done. }
  split; [done|]. by eapply accepts_free.
Qed.

(** ** Idempotency *)

(** The checkpoint store as documented: it keeps what was last saved. *)
Fixpoint lastSaved (h : list (event Q)) : option PrepareCheckpoint :=
  match h with
  | [] => None
  | e :: rest =>
      match lastSaved rest, e with
      | Some cp, _ => Some cp
      | None, ESave cp (Ok _) => Some cp
      | None, _ => None
      end
  end.

Definition store_keeps (store : PrepareCheckpointStore Q) : Prop :=
  ∀ h, st_Load store h = Ok (default zeroCheckpoint (lastSaved h)).

Lemma lastSaved_app h1 h2 :
  lastSaved (h1 ++ h2) = match lastSaved h2 with Some cp => Some cp | None => lastSaved h1 end.
Proof.
  induction h1 as [|e h1 IH]; simpl; [by destruct (lastSaved h2)|]. rewrite IH.
  by destruct (lastSaved h2).
Qed.

Lemma lastSaved_notify n : lastSaved (replicate n ENotify) = None.
Proof. induction n as [|n IH]; simpl; [done|]. by rewrite IH. Qed.

Lemma preparedDevices_ok ds :
  Forall (λ d, pds_CDIDeviceIDs d ≠ []) ds → preparedDevices ds = Ok (toPrepared <$> ds).
Proof.
  induction 1 as [|d ds Hd _ IH]; simpl; [done|].
  destruct (list_len0 _) eqn:Hl; go_bool; [done|]. by rewrite IH.
Qed.

(** A call answered from the cache. *)
Lemma Prepare_cached opts svc req h cp r :
  NewService opts = Ok svc → pr_ClaimUID req ≠ "" → pr_Devices req ≠ [] →
  (∀ l, opt_Locker opts = Some l → lk_Lock l h = Ok ()) →
  (∀ s, opt_Checkpoints opts = Some s → st_Load s (h ++ [ELock (Ok ())]) = Ok cp) →
  pc_State (claimIn req cp) = PrepareStateCompleted →
  PreparedResultFromClaim (pr_ClaimUID req) (claimIn req cp) = Ok r →
  ∃ u, ServicePrepare svc req h = (Ok r, h ++ [ELock (Ok ()); ELoad (Ok cp); EUnlock u]).
Proof.
  intros (-> & cdi & l & store & Hcdi & Hl & Hstore)%NewService_inv Huid Hdev Hlock Hload Hst Hres.
  specialize (Hlock l Hl). specialize (Hload store Hstore).
  assert (pres_ClaimUID r = pr_ClaimUID req) as Hruid.
  { unfold PreparedResultFromClaim in Hres. destruct (negb _); [done|].
    destruct (preparedDevices _); [|done]. by simplify_eq/=. }
  unfold ServicePrepare, newPrepareSteps. rewrite Hcdi, Hl, Hstore.
  assert (str_eqb (pr_ClaimUID req) "" = false) as Hu by (by apply str_eqb_false).
  assert (list_len0 (pr_Devices req) = false) as Hd by (by destruct (pr_Devices req)).
  assert (pcp_Claims (normalizeCheckpoint cp) !! pr_ClaimUID req = Some (claimIn req cp)) as Hc.
  { unfold claimIn in *. rewrite normalize_claims.
    by destruct (pcp_Claims cp !! pr_ClaimUID req) as [c|]. }
  set (s0 := NewPrepareState req). set (h1 := h ++ [ELock (Ok ())]) in *.
  set (h2 := h1 ++ [ELoad (Ok cp)]).
  set (s2 := setPClaim (claimIn req cp) (setCheckpoint (normalizeCheckpoint cp) (setUnlock s0))).
  rewrite (Run_continue _ _ _ _ s0 h).
  2:{ unfold ValidatePrepareStep, get, mbind, M_bind. simpl. by rewrite Hu, Hd. }
  rewrite (Run_continue _ _ _ _ (setUnlock s0) h1).
  2:{ unfold LockPrepareStep, wrapErr, call, modify, mbind, M_bind. by rewrite Hlock. }
  rewrite (Run_continue _ _ _ _ s2 h2).
  2:{ unfold LoadPrepareCheckpointStep, CheckpointLoad, wrapErr, call, modify, get, mbind, M_bind.
      rewrite Hload. cbn -[normalizeCheckpoint]. by rewrite Hc. }
  rewrite (Run_final _ _ _ _ (setResult r s2) h2).
  2:{ unfold ShortCircuitPrepareStep, get, liftR, modify, mbind, M_bind. simpl.
      by rewrite Hst, Hres. }
  simpl. rewrite Hruid, Hu. exists (lk_Unlock l h2). unfold h2, h1. by rewrite <- !app_assoc.
Qed.

(** C6: [Prepare] is idempotent: after a call that returned a result with at
    least one CDI id per device, and with a store that keeps what was saved,
    a repeated call returns the same result and calls nothing but the lock,
    the load and the unlock. *)
Theorem Prepare_idempotent opts svc req h r h' :
  NewService opts = Ok svc → ServicePrepare svc req h = (Ok r, h') →
  pr_ClaimUID req ≠ "" → pr_Devices req ≠ [] →
  Forall (λ d, pdv_CDIDeviceIDs d ≠ []) (pres_Devices r) →
  (∀ l, opt_Locker opts = Some l → lk_Lock l h' = Ok ()) →
  (∀ s, opt_Checkpoints opts = Some s → store_keeps s) →
  ∃ cp u, ServicePrepare svc req h' = (Ok r, h' ++ [ELock (Ok ()); ELoad (Ok cp); EUnlock u]).
Proof.
  intros Hsvc Hrun Huid Hdev Hids Hlock Hkeep.
  destruct (NewService_inv _ _ Hsvc) as (_ & _ & _ & store & _ & _ & Hstore).
  destruct (Prepare_trace opts svc req h Hsvc) as (t & p & Hadd & _ & _ & Hend).
  unfold adds in Hadd. rewrite Hrun in Hadd, Hend. simpl in Hadd, Hend. subst h'.
  set (cp2 := default zeroCheckpoint (lastSaved (h ++ t))). exists cp2.
  assert (PreparedResultFromClaim (pr_ClaimUID req) (claimIn req cp2) = Ok r) as Hres.
  { destruct Hend as (t1 & u & q & -> & Ht & [(raw & -> & Hraw & Hres)|(cp & ds & -> & ->)]).
    - apply accepts_loaded in Ht as (raw' & Hn & ->). rewrite claimIn_normalize in Hres.
      destruct Hraw as (store' & Hs' & Hl). simplify_eq. rewrite (Hkeep _ Hstore) in Hl.
      subst cp2. rewrite lastSaved_app in Hl |- *. simpl in *. by simplify_eq.
    - apply accepts_completed in Ht as (t0 & n & cp0 & made & ids & -> & Ht & -> & _).
      subst cp2. rewrite !lastSaved_app. simpl. rewrite lastSaved_notify. simpl.
      unfold claimIn. simpl. rewrite lookup_insert_eq. simpl. unfold PreparedResultFromClaim. simpl.
      rewrite preparedDevices_ok; [done|]. simpl in Hids. by rewrite Forall_fmap in Hids. }
  eapply Prepare_cached; [done..| | |done].
  - intros s Hs. rewrite (Hkeep s Hs), lastSaved_app. done.
  - unfold PreparedResultFromClaim in Hres. destruct (str_eqb _ _) eqn:Hst; [|done].
    by apply str_eqb_true in Hst.
Qed.
End Theorems.
