(* ===== verification/UnprepareSpec.v ===== *)
(** * [Unprepare]: protocol and guarantees

    The automaton of the calls [Unprepare] may make, the proof that every run
    follows it, and what it means: recorded resources are undone before the
    record is dropped, a failure keeps the record, and together with the
    guarantees of [Prepare], what one call makes the other undoes. *)

From S2P Require Import Prelude GoLib DeviceModel ConfigApi Effects Prepare PrepareSteps PrepareProtocol.
From S2P Require Import PrepareSpec PrepareTheorems.

Section Unprepare.
Context {Q : Type} `{Quantity Q} `{MpsEncoding Q} `{RangeOrder Q}.
Context (opts : Options Q) (uid : string) (h0 : list (event Q)).

Abbreviation UM := (M (event Q) UnprepareState).

(** ** The protocol *)

Inductive uphase :=
| UIdle
| ULocked
| ULoaded (cp : PrepareCheckpoint) (undone : list resource)
| UDeleted (cp : PrepareCheckpoint)
| UCleaned (cp : PrepareCheckpoint)
| UStopped (held : bool)
| UReleased.

Definition uheld (p : uphase) : bool :=
  match p with UIdle => false | UStopped b => b | UReleased => false | _ => true end.

Definition claimOf (cp : PrepareCheckpoint) : PreparedClaim :=
  default zeroClaim (pcp_Claims cp !! uid).
Definition devicesOf (cp : PrepareCheckpoint) : list PreparedDeviceState := pc_Devices (claimOf cp).

(** Only a claim past the write-ahead record is cleaned up. *)
Definition active (cp : PrepareCheckpoint) : Prop :=
  devicesOf cp ≠ [] ∧ pc_State (claimOf cp) ≠ PrepareStateStarted.

(** The resources a call undoes, with its answer. *)
Definition undoes (e : event Q) : option (list resource * res ()) :=
  match e with
  | EMigUnprepare m r => Some ([RMig m], r)
  | EVfioUnprepare v r => Some ([RVfio v], r)
  | ESetTimeSlice us c r =>
      if bool_decide (tsc_Interval <$> c = Some (Some DefaultTimeSlice)) then Some (RTimeSlice <$> us, r)
      else None
  | EMpsStop m r => Some ([RMps m], r)
  | _ => None
  end.

(** A resource that the records of the devices name. *)
Definition named (ds : list PreparedDeviceState) (r : resource) : Prop :=
  ∃ d, d ∈ ds ∧
    match r with
    | RMig m => pds_MIG d = Some m
    | RVfio v => pds_VFIO d = Some v
    | RTimeSlice u => timeSliceUUID d = Some u
    | RMps m => mpsStateOf d = Some m
    end.

(** Everything named is undone: a MIG instance or a VFIO binding if its
    manager is configured, an MPS daemon by its control id. *)
Definition undoneBy (undone : list resource) (r : resource) : Prop :=
  match r with
  | RMig m => is_Some (opt_MIG opts) → RMig m ∈ undone
  | RVfio v => is_Some (opt_VFIO opts) → RVfio v ∈ undone
  | RTimeSlice u => RTimeSlice u ∈ undone
  | RMps m => ∃ m', RMps m' ∈ undone ∧ pms_ControlID m' = pms_ControlID m
  end.

Definition cleaned (ds : list PreparedDeviceState) (undone : list resource) : Prop :=
  ∀ r, named ds r → undoneBy undone r.

Inductive unext : uphase → event Q → uphase → Prop :=
| u_lock : unext UIdle (ELock (Ok ())) ULocked
| u_lock_err e : unext UIdle (ELock (Err e)) (UStopped false)
| u_load raw : unext ULocked (ELoad (Ok raw)) (ULoaded (normalizeCheckpoint raw) [])
| u_load_err e : unext ULocked (ELoad (Err e)) (UStopped true)
| u_undo cp undone e rs : active cp → undoes e = Some (rs, Ok ()) → Forall (named (devicesOf cp)) rs →
    unext (ULoaded cp undone) e (ULoaded cp (undone ++ rs))
| u_undo_err cp undone e rs x : active cp → undoes e = Some (rs, Err x) →
    unext (ULoaded cp undone) e (UStopped true)
| u_delete cp undone : active cp → cleaned (devicesOf cp) undone →
    unext (ULoaded cp undone) (ECDIDelete uid (Ok ())) (UDeleted cp)
| u_delete_err cp undone x : active cp → cleaned (devicesOf cp) undone →
    unext (ULoaded cp undone) (ECDIDelete uid (Err x)) (UStopped true)
| u_drop cp : unext (UDeleted cp) (ESave (dropClaim uid cp) (Ok ())) (UCleaned cp)
| u_drop_err cp x : unext (UDeleted cp) (ESave (dropClaim uid cp) (Err x)) (UStopped true)
| u_notify cp : unext (UCleaned cp) ENotify (UCleaned cp)
| u_unlock p r : uheld p = true → unext p (EUnlock r) UReleased.

(** ** Assertions *)

#[local] Abbreviation at_ := (at_ unext UIdle h0).
(** The phases in which the record may be gone. *)
Definition isCleaned (p : uphase) : bool :=
  match p with UCleaned _ | UReleased => true | _ => false end.
Definition ustop (s : UnprepareState) (p : uphase) : Prop :=
  us_Unlock s = uheld p ∧ isCleaned p = false.
#[local] Abbreviation failed := (λ _ : error, at_ ustop).

(** A checkpoint as the store gave it under the lock. *)
Definition ufrom (cp : PrepareCheckpoint) : Prop :=
  ∃ raw, cp = normalizeCheckpoint raw ∧ fromStore opts h0 raw.

(** Success: nothing to do, or everything undone and the record dropped. *)
Definition usuccess (s : UnprepareState) (p : uphase) : Prop :=
  us_Unlock s = true ∧
  ∃ cp, ufrom cp ∧ ((p = ULoaded cp [] ∧ ¬ active cp) ∨ p = UCleaned cp).

#[local] Abbreviation goes := (goes_ (next:=unext) (p0:=UIdle) (h0:=h0) (success:=usuccess)).
#[local] Abbreviation step_ok Φ m Ψ := (triple (at_ Φ) m (post (goes Ψ) failed)).
#[local] Abbreviation loop_rule := (triple_loop (next:=unext) (p0:=UIdle) (h0:=h0) (stop:=ustop)).

Definition uinitial (s : UnprepareState) (p : uphase) : Prop := s = NewUnprepareState uid ∧ p = UIdle.
Definition ulocked (s : UnprepareState) (p : uphase) : Prop :=
  s = setUUnlock (NewUnprepareState uid) ∧ p = ULocked.

Record ucommon (cp : PrepareCheckpoint) (s : UnprepareState) : Prop := {
  uc_uid : us_ClaimUID s = uid;
  uc_cp : us_Checkpoint s = cp;
  uc_claim : us_Claim s = claimOf cp;
  uc_unlock : us_Unlock s = true;
  uc_skip : us_Skip s = false;
  uc_from : ufrom cp;
}.

Definition uloaded (s : UnprepareState) (p : uphase) : Prop :=
  ∃ cp, ucommon cp s ∧ p = ULoaded cp [].

Lemma ValidateUnprepareStep_ok : step_ok uinitial ValidateUnprepareStep uinitial.
Proof.
  unfold ValidateUnprepareStep. apply triple_get. intros s0.
  destruct (str_eqb _ ""); [apply triple_fail; by intros s p (_ & -> & ->)|].
  eapply triple_pre; [|apply triple_continue]. by intros s p [_ ?].
Qed.

Lemma LockUnprepareStep_ok : step_ok uinitial (LockUnprepareStep (opt_Locker opts)) ulocked.
Proof.
  unfold LockUnprepareStep, notConfigured. destruct (opt_Locker opts) as [l|];
    [|apply triple_fail; by intros s p (-> & ->)].
  eapply triple_seq.
  - apply triple_wrapErr, (triple_call _ _ _ (λ _ s p, s = NewUnprepareState uid ∧ p = ULocked)).
    intros s p r (-> & ->). destruct r as [[]|e].
    + exists ULocked. split; [constructor|done].
    + exists (UStopped false). split; [constructor|done].
  - intros []. apply triple_then, triple_modify. by intros s p (-> & ->).
Qed.

Lemma uaccepts_locked t : runs unext UIdle t ULocked → t = [ELock (Ok ())].
Proof.
  intros Ht. inversion Ht as [|? t1 q e ? Ht1 Hn]; subst. inversion Hn; subst.
  inversion Ht1 as [|? t2 q2 e2 ? Ht2 Hn2]; subst; [done|]. inversion Hn2; subst; done.
Qed.

Lemma LoadUnprepareCheckpointStep_ok :
  step_ok ulocked (LoadUnprepareCheckpointStep (opt_Checkpoints opts)) uloaded.
Proof.
  unfold LoadUnprepareCheckpointStep, notConfigured.
  destruct (opt_Checkpoints opts) as [store|] eqn:Hstore;
    [|apply triple_fail; by intros s p (-> & ->)].
  unfold CheckpointLoad. eapply triple_seq; [eapply triple_seq|].
  - apply triple_wrapErr, (triple_call_at _ _ _ (λ raw s p, s = setUUnlock (NewUnprepareState uid) ∧
      p = ULoaded (normalizeCheckpoint raw) [] ∧ ufrom (normalizeCheckpoint raw))).
    intros s p t r (-> & ->) Ht Hr. apply uaccepts_locked in Ht as ->. destruct r as [raw|e].
    + eexists. split; [constructor|]. do 2 (split; [done|]). exists raw. split; [done|]. by exists store.
    + exists (UStopped true). split; [constructor|done].
  - intros raw. by apply (triple_ret _ _ (post (λ cp, at_ (λ s p,
      s = setUUnlock (NewUnprepareState uid) ∧ p = ULoaded cp [] ∧ ufrom cp)) failed)).
  - intros cp. eapply triple_seq.
    { apply (triple_modify _ (λ s p, s = setUCheckpoint cp (setUUnlock (NewUnprepareState uid)) ∧
        p = ULoaded cp [] ∧ ufrom cp)). by intros s p (-> & -> & ?). }
    intros []. apply triple_get. intros s0.
    destruct (pcp_Claims cp !! us_ClaimUID s0) as [claim|] eqn:Hc.
    + apply triple_then, triple_modify. intros s p (-> & -> & -> & Hf). exists cp. simpl in Hc.
      split; [|done]. constructor; try done. simpl. unfold claimOf. by rewrite Hc.
    + eapply triple_pre; [|apply triple_continue]. intros s p (-> & -> & -> & Hf). exists cp.
      simpl in Hc. split; [|done]. constructor; try done. simpl. unfold claimOf. by rewrite Hc.
Qed.

(** The cleanup phase: what is undone so far. *)
Definition cleaning (C : list PreparedDeviceState → list resource → Prop) (s : UnprepareState)
    (p : uphase) : Prop :=
  ∃ cp undone, ucommon cp s ∧ p = ULoaded cp undone ∧ active cp ∧ C (devicesOf cp) undone.

Lemma cleaning_stop C s p : cleaning C s p → ustop s p.
Proof. intros (cp & undone & Hco & -> & _). split; [apply Hco|done]. Qed.

Definition anyUndone (ds : list PreparedDeviceState) (undone : list resource) : Prop := True.

Lemma ShortCircuitUnprepareStep_ok : step_ok uloaded ShortCircuitUnprepareStep (cleaning anyUndone).
Proof.
  unfold ShortCircuitUnprepareStep. apply triple_get. intros s0.
  assert (∀ P : Prop, (∀ cp, ucommon cp s0 → ¬ active cp) →
    step_ok (λ s p, s = s0 ∧ uloaded s p) (modify setSkip ≫= λ _, final) (cleaning anyUndone)) as Hskip.
  { intros _ Hna. apply triple_finish. intros s p (-> & cp & Hco & ->). split; [apply Hco|].
    exists cp. split; [apply Hco|]. left. split; [done|]. by apply Hna. }
  destruct (list_len0 _) eqn:Hlen; go_bool.
  { apply (Hskip True). intros cp Hco [Hne _]. apply Hne. unfold devicesOf.
    by rewrite <- (uc_claim _ _ Hco). }
  destruct (str_eqb _ _) eqn:Hst; go_bool.
  { apply (Hskip True). intros cp Hco [_ Hne]. apply Hne. by rewrite <- (uc_claim _ _ Hco). }
  eapply triple_pre; [|apply triple_continue]. intros s p (-> & cp & Hco & ->).
  exists cp, []. split; [done|]. split; [done|]. split; [|done].
  rewrite (uc_claim _ _ Hco) in Hlen, Hst. split; [|done]. unfold devicesOf.
  by destruct (pc_Devices (claimOf cp)).
Qed.

(** *** Undoing *)

Lemma undo_call (f : list (event Q) → res ()) ev rs
    (C C' : list PreparedDeviceState → list resource → Prop) :
  (∀ r, undoes (ev r) = Some (rs, r)) →
  (∀ ds undone, C ds undone → Forall (named ds) rs ∧ C' ds (undone ++ rs)) →
  triple (at_ (cleaning C)) (call f ev) (post (λ _, at_ (cleaning C')) failed).
Proof.
  intros Hev HC. apply (triple_call _ _ _ (λ _, cleaning C')).
  intros s p r (cp & undone & Hco & -> & Hact & Hc). destruct (HC _ _ Hc) as [Hn Hc'].
  destruct r as [[]|x].
  - exists (ULoaded cp (undone ++ rs)). split; [by apply u_undo|]. by exists cp, (undone ++ rs).
  - exists (UStopped true). split; [by eapply u_undo_err|]. split; [apply Hco|done].
Qed.

Lemma cleaning_mono (C C' : list PreparedDeviceState → list resource → Prop) s p :
  (∀ ds undone, C ds undone → C' ds undone) → cleaning C s p → cleaning C' s p.
Proof. intros Himp (cp & undone & ? & ? & ? & ?). exists cp, undone. auto. Qed.

Lemma cleaning_changed C s p : cleaning C s p → cleaning C (setUChanged s) p.
Proof. intros (cp & undone & [] & ? & ? & ?). exists cp, undone. by split; [constructor|]. Qed.

(** The resources of some kinds are dealt with. *)
Definition doneFor (K : resource → bool) (ds : list PreparedDeviceState) (undone : list resource)
    : Prop :=
  ∀ r, K r = true → named ds r → undoneBy undone r.

Lemma undoneBy_mono undone more r : undoneBy undone r → undoneBy (undone ++ more) r.
Proof.
  destruct r as [m|v|u|m]; simpl; [set_solver|set_solver|set_solver|].
  intros (m' & ? & ?). exists m'. split; [set_solver|done].
Qed.

Lemma doneFor_mono K ds undone more : doneFor K ds undone → doneFor K ds (undone ++ more).
Proof. intros Hd r Hk Hn. by apply undoneBy_mono, Hd. Qed.

Definition isMps (r : resource) : bool := match r with RMps _ => true | _ => false end.
Definition isSlice (r : resource) : bool := match r with RTimeSlice _ => true | _ => false end.
Definition isMig (r : resource) : bool := match r with RMig _ => true | _ => false end.
Definition isVfio (r : resource) : bool := match r with RVfio _ => true | _ => false end.
Definition also (K L : resource → bool) (r : resource) : bool := K r || L r.

Lemma doneFor_also K L ds undone :
  doneFor K ds undone → doneFor L ds undone → doneFor (also K L) ds undone.
Proof. intros Hk Hl r [?|?]%orb_true_iff; auto. Qed.

(** The maps collected from the records. *)
Lemma mpsStates_spec ds :
  (∀ k m, mpsStates ds !! k = Some m → pms_ControlID m = k ∧ named ds (RMps m)) ∧
  (∀ m, named ds (RMps m) → is_Some (mpsStates ds !! pms_ControlID m)).
Proof.
  unfold mpsStates. rewrite <- (rev_involutive ds).
  induction (rev ds) as [|d l IH]; simpl.
  { split; [done|]. intros m (d & Hd & _). by apply elem_of_nil in Hd. }
  rewrite foldl_app. simpl. destruct IH as [IH1 IH2].
  assert (∀ r, named (rev l) r → named (rev l ++ [d]) r) as Hmono.
  { intros r (x & ? & ?). exists x. split; [set_solver|done]. }
  destruct (mpsStateOf d) as [m0|] eqn:Hm0.
  - split.
    + intros k m. rewrite lookup_insert_Some. intros [[<- <-]|[_ Hk]].
      * split; [done|]. exists d. split; [set_solver|done].
      * destruct (IH1 k m Hk). auto.
    + intros m (x & Hx & Hm). rewrite lookup_insert_is_Some'.
      apply elem_of_app in Hx as [Hx|Hx]; [right; apply IH2; by exists x|left].
      apply list_elem_of_singleton in Hx as ->. simpl in Hm. congruence.
  - split.
    + intros k m Hk. destruct (IH1 k m Hk). auto.
    + intros m (x & Hx & Hm). apply IH2. apply elem_of_app in Hx as [Hx|Hx]; [by exists x|].
      apply list_elem_of_singleton in Hx as ->. simpl in Hm. congruence.
Qed.

Lemma timeSliceUUIDs_spec ds u : is_Some (timeSliceUUIDs ds !! u) ↔ named ds (RTimeSlice u).
Proof.
  unfold timeSliceUUIDs. rewrite <- (rev_involutive ds). induction (rev ds) as [|d l IH]; simpl.
  { rewrite lookup_empty. split; [by intros []|]. intros (d & Hd & _). by apply elem_of_nil in Hd. }
  rewrite foldl_app. simpl. unfold named in *. setoid_rewrite elem_of_app.
  setoid_rewrite list_elem_of_singleton. destruct (timeSliceUUID d) as [u0|] eqn:Hu0.
  - rewrite lookup_insert_is_Some', IH. split.
    + intros [<-|(x & ? & ?)]; [by exists d; auto|exists x; auto].
    + intros (x & [Hx| ->] & Hs); [right; by exists x|left; congruence].
  - rewrite IH. split.
    + intros (x & ? & ?). exists x. auto.
    + intros (x & [Hx| ->] & Hs); [by exists x|congruence].
Qed.

Lemma MpsUnprepareStep_ok :
  step_ok (cleaning anyUndone) (MpsUnprepareStep (opt_Mps opts)) (cleaning (doneFor isMps)).
Proof.
  unfold MpsUnprepareStep. apply triple_get. intros s0.
  apply triple_fix. intros s1 p1 (-> & cp0 & undone0 & Hco0 & _ & _ & _).
  rewrite (uc_skip _ _ Hco0). set (ds := pc_Devices (us_Claim s0)). set (states := mpsStates ds).
  destruct (mpsStates_spec ds) as [Hst1 Hst2]. fold states in Hst1, Hst2.
  assert (∀ s p, s = s0 ∧ s = s0 ∧ cleaning anyUndone s p → cleaning (λ ds' _, ds' = ds) s p) as Hds.
  { intros s p (-> & _ & cp & undone & Hco & -> & Hact & _). exists cp, undone.
    do 3 (split; [done|]). subst ds. unfold devicesOf. by rewrite (uc_claim _ _ Hco). }
  destruct (map_len0 states) eqn:Hlen; go_bool.
  { eapply triple_pre; [|apply triple_continue]. intros s p Hs. apply Hds in Hs. revert Hs.
    apply cleaning_mono. intros ds' undone -> r Hk Hn. destruct r as [| | |m]; try done.
    destruct (Hst2 m Hn) as [? Hl]. by rewrite Hlen, lookup_empty in Hl. }
  destruct (opt_Mps opts) as [mps|];
    [|apply triple_fail; intros s p Hs; by apply Hds, cleaning_stop in Hs].
  eapply (triple_seq _ _ _ (λ keys s h, keys ≡ₚ (map_to_list states).*1 ∧
    at_ (cleaning (λ ds' undone, ds' = ds ∧ ∀ k m, k ∈ ([] : list string) → states !! k = Some m → RMps m ∈ undone)) s h)).
  { intros s h Hat. split; [apply rangeKeys_perm|]. revert Hat. apply at_mono. intros s' p Hs.
    apply Hds in Hs. revert Hs. apply cleaning_mono. intros ds' undone ->. split; [done|].
    intros k m Hin. by apply elem_of_nil in Hin. }
  intros keys. apply triple_then. intros s h [Hkeys Hat]. revert s h Hat.
  eapply triple_conseq; [apply (loop_rule (λ done_, cleaning (λ ds' undone, ds' = ds ∧
    ∀ k m, k ∈ done_ → states !! k = Some m → RMps m ∈ undone)))|done|].
  - intros done_ key rest Heq. unfold stopMps. destruct (states !! key) as [m|] eqn:Hm; last first.
    { intros s h. apply at_mono. intros s' p. apply cleaning_mono. intros ds' undone [-> Hd].
      split; [done|]. intros k m. rewrite elem_of_app, list_elem_of_singleton.
      intros [Hk| ->] Hs; [by eapply Hd|congruence]. }
    apply (undo_call _ _ [RMps m]); [done|]. intros ds' undone [-> Hd]. split.
    + apply Forall_singleton. by apply (Hst1 key).
    + split; [done|]. intros k m'. rewrite elem_of_app, list_elem_of_singleton.
      intros [Hk| ->] Hs; [apply elem_of_app; left; by eapply Hd|]. simplify_eq. set_solver.
  - intros [[]|e] s h; simpl; [|done]. apply at_mono. intros s' p. apply cleaning_mono.
    intros ds' undone [-> Hd] r Hk Hn. destruct r as [| | |m]; try done.
    destruct (Hst2 m Hn) as [m' Hm']. exists m'. split; [|by apply (Hst1 _ m')].
    eapply Hd; [|exact Hm']. rewrite Hkeys. apply list_elem_of_fmap. exists (pms_ControlID m, m').
    split; [done|]. by apply elem_of_map_to_list.
Qed.

(** What every cleanup step knows of the state it reads. *)
Lemma cleaning_get C (f : UnprepareState → UM (option ())) R :
  (∀ s0, us_Skip s0 = false →
     triple (at_ (cleaning (λ ds undone, ds = pc_Devices (us_Claim s0) ∧ C ds undone))) (f s0) R) →
  triple (at_ (cleaning C)) (get ≫= f) R.
Proof.
  intros Hf. apply triple_get. intros s0. apply triple_fix.
  intros s1 p1 (-> & cp0 & undone0 & Hco0 & _). eapply triple_pre; [|by apply Hf, (uc_skip cp0)].
  intros s p (-> & _ & cp & undone & Hco & -> & Hact & Hc). exists cp, undone.
  do 3 (split; [done|]). split; [|done]. unfold devicesOf. by rewrite (uc_claim _ _ Hco).
Qed.

Lemma TimeSlicingUnprepareStep_ok K :
  step_ok (cleaning (doneFor K)) (TimeSlicingUnprepareStep (opt_TimeSlicing opts))
    (cleaning (doneFor (also K isSlice))).
Proof.
  apply cleaning_get. intros s0 ->. cbv zeta. set (ds := pc_Devices (us_Claim s0)).
  assert (∀ undone us, doneFor K ds undone → (∀ u, named ds (RTimeSlice u) → u ∈ us) →
    doneFor (also K isSlice) ds (undone ++ (RTimeSlice <$> us))) as Hdone.
  { intros undone us Hd Hus. apply doneFor_also; [by apply doneFor_mono|].
    intros [| |u|] Hk Hn; try done. simpl. apply elem_of_app. right.
    apply list_elem_of_fmap. exists u. split; [done|]. by apply Hus. }
  destruct (map_len0 _) eqn:Hlen; go_bool.
  { eapply triple_pre; [|apply triple_continue]. intros s p. apply cleaning_mono.
    intros ds' undone [-> Hd]. rewrite <- (app_nil_r undone). apply (Hdone undone []); [done|].
    intros u Hu. apply timeSliceUUIDs_spec in Hu. rewrite Hlen in Hu. destruct Hu as [? Hu].
    by rewrite lookup_empty in Hu. }
  destruct (opt_TimeSlicing opts) as [ts|];
    [|apply triple_fail; intros s p; apply cleaning_stop].
  eapply (triple_seq _ _ _ (λ us s h, us ≡ₚ (map_to_list (timeSliceUUIDs ds)).*1 ∧
    at_ (cleaning (λ ds' undone, ds' = ds ∧ doneFor K ds' undone)) s h)).
  { intros s h Hat. split; [apply rangeKeys_perm|done]. }
  intros us. apply triple_then. intros s h [Hus Hat]. revert s h Hat.
  assert (∀ u, u ∈ us ↔ named ds (RTimeSlice u)) as Hin.
  { intros u. rewrite Hus, <- timeSliceUUIDs_spec, list_elem_of_fmap. split.
    - intros ([u' []] & -> & Hx). apply elem_of_map_to_list in Hx. by exists ().
    - intros [[] Hx]. exists (u, ()). split; [done|]. by apply elem_of_map_to_list. }
  apply (undo_call _ _ (RTimeSlice <$> us)).
  { intros r. reflexivity. }
  intros ds' undone [-> Hd]. split.
  - rewrite Forall_fmap, Forall_forall. intros u Hu. by apply Hin.
  - apply Hdone; [done|]. intros u Hu. by apply Hin.
Qed.

(** A loop over the devices that undoes what each records. *)
Lemma undo_loop K L (pick : PreparedDeviceState → option resource) (f : PreparedDeviceState → UM ()) ds :
  (∀ d r, pick d = Some r → ∀ ds', d ∈ ds' → named ds' r) →
  (∀ r, L r = true → ∀ ds', named ds' r → ∃ d, d ∈ ds' ∧ pick d = Some r) →
  (∀ r undone, L r = true → r ∈ undone → undoneBy undone r) →
  (∀ d C C', (∀ ds' undone, C ds' undone → match pick d with
       | Some r => named ds' r ∧ C' ds' (undone ++ [r])
       | None => C' ds' undone end) →
     triple (at_ (cleaning C)) (f d) (post (λ _, at_ (cleaning C')) failed)) →
  triple (at_ (cleaning (λ ds' undone, ds' = ds ∧ doneFor K ds' undone))) (forEach f ds)
    (post (λ _, at_ (cleaning (doneFor (also K L)))) failed).
Proof.
  intros Hpick Hall Hund Hf.
  eapply triple_conseq; [apply (loop_rule (λ done_, cleaning (λ ds' undone, ds' = ds ∧
    doneFor K ds' undone ∧ ∀ d r, d ∈ done_ → pick d = Some r → r ∈ undone)))|..].
  - intros done_ d rest Heq. apply Hf. intros ds' undone (-> & Hd & Hr).
    destruct (pick d) as [r|] eqn:Hp.
    + split; [eapply Hpick; [done|]; rewrite Heq; set_solver|]. split; [done|].
      split; [by apply doneFor_mono|]. intros d' r'. rewrite elem_of_app, list_elem_of_singleton.
      intros [Hd'| ->] Hp'; [apply elem_of_app; left; by eapply Hr|]. simplify_eq. set_solver.
    + split; [done|]. split; [done|]. intros d' r'. rewrite elem_of_app, list_elem_of_singleton.
      intros [Hd'| ->] Hp'; [by eapply Hr|congruence].
  - intros s h. apply at_mono. intros s' p. apply cleaning_mono. intros ds' undone [-> Hd].
    split; [done|]. split; [done|]. intros d r Hin. by apply elem_of_nil in Hin.
  - intros [[]|e] s h; simpl; [|done]. apply at_mono. intros s' p. apply cleaning_mono.
    intros ds' undone (-> & Hd & Hr). apply doneFor_also; [done|]. intros r Hl Hn.
    destruct (Hall r Hl ds Hn) as (d & Hin & Hp).
    apply Hund; [done|]. by eapply Hr.
Qed.

Lemma MigUnprepareStep_ok K :
  step_ok (cleaning (doneFor K)) (MigUnprepareStep (opt_MIG opts)) (cleaning (doneFor (also K isMig))).
Proof.
  apply cleaning_get. intros s0 Hskip. destruct (opt_MIG opts) as [mig|] eqn:Hmig; last first.
  { eapply triple_pre; [|apply triple_continue]. intros s p. apply cleaning_mono.
    intros ds' undone [-> Hd]. apply doneFor_also; [done|]. intros [m| | |] Hk Hn; try done.
    simpl. rewrite Hmig. by intros []. }
  rewrite Hskip. apply triple_then. apply (undo_loop K isMig (λ d, RMig <$> pds_MIG d)).
  - intros d r Hr ds' Hd. destruct (pds_MIG d) as [m|] eqn:Hm; simplify_eq/=. by exists d.
  - intros [m| | |] Hk ds' (d & Hd & Hm); try done. exists d. by rewrite Hm.
  - intros [m| | |] undone Hk Hin; try done. by intros _.
  - intros d C C' HC. unfold migUnprepareDevice. destruct (pds_MIG d) as [m|]; simpl in HC.
    + eapply triple_seq; [apply triple_wrapErr, (undo_call _ _ [RMig m] C C'); [done|]|].
      * intros ds' undone Hc. destruct (HC _ _ Hc). split; [by apply Forall_singleton|done].
      * intros []. apply triple_modify. intros s p. apply cleaning_changed.
    + intros s h. apply at_mono. intros s' p. by apply cleaning_mono.
Qed.

Lemma VfioUnprepareStep_ok K :
  step_ok (cleaning (doneFor K)) (VfioUnprepareStep (opt_VFIO opts)) (cleaning (doneFor (also K isVfio))).
Proof.
  apply cleaning_get. intros s0 Hskip. destruct (opt_VFIO opts) as [vfio|] eqn:Hvfio; last first.
  { eapply triple_pre; [|apply triple_continue]. intros s p. apply cleaning_mono.
    intros ds' undone [-> Hd]. apply doneFor_also; [done|]. intros [|v| |] Hk Hn; try done.
    simpl. rewrite Hvfio. by intros []. }
  rewrite Hskip. apply triple_then. apply (undo_loop K isVfio (λ d, RVfio <$> pds_VFIO d)).
  - intros d r Hr ds' Hd. destruct (pds_VFIO d) as [v|] eqn:Hv; simplify_eq/=. by exists d.
  - intros [|v| |] Hk ds' (d & Hd & Hv); try done. exists d. by rewrite Hv.
  - intros [|v| |] undone Hk Hin; try done. by intros _.
  - intros d C C' HC. unfold vfioUnprepareDevice. destruct (pds_VFIO d) as [v|]; simpl in HC.
    + eapply triple_seq; [apply triple_wrapErr, (undo_call _ _ [RVfio v] C C'); [done|]|].
      * intros ds' undone Hc. destruct (HC _ _ Hc). split; [by apply Forall_singleton|done].
      * intros []. apply triple_modify. intros s p. apply cleaning_changed.
    + intros s h. apply at_mono. intros s' p. by apply cleaning_mono.
Qed.

(** *** Dropping the record *)

Definition udeleted (s : UnprepareState) (p : uphase) : Prop :=
  ∃ cp, ucommon cp s ∧ p = UDeleted cp.
Definition udropped (s : UnprepareState) (p : uphase) : Prop :=
  ∃ cp, us_Unlock s = true ∧ p = UCleaned cp ∧ ufrom cp.

Lemma DeleteCDIStep_ok : step_ok (cleaning cleaned) (DeleteCDIStep (opt_CDI opts)) udeleted.
Proof.
  unfold DeleteCDIStep. apply triple_get. intros s0. apply triple_fix.
  intros s1 p1 (-> & cp0 & undone0 & Hco0 & _). rewrite (uc_skip _ _ Hco0).
  destruct (opt_CDI opts) as [cdi|];
    [|apply triple_fail; intros s p (_ & _ & Hc); by eapply cleaning_stop].
  apply triple_then, (triple_call _ _ _ (λ _, udeleted)).
  intros s p r (-> & _ & cp & undone & Hco & -> & Hact & Hc). rewrite (uc_uid _ _ Hco).
  destruct r as [[]|x].
  - exists (UDeleted cp). split; [by eapply u_delete|]. by exists cp.
  - exists (UStopped true). split; [by eapply u_delete_err|]. split; [apply Hco|done].
Qed.

Lemma CleanupCheckpointStep_ok :
  step_ok udeleted (CleanupCheckpointStep (opt_Checkpoints opts)) udropped.
Proof.
  unfold CleanupCheckpointStep. apply triple_get. intros s0. apply triple_fix.
  intros s1 p1 (-> & cp & Hco & ->). rewrite (uc_skip _ _ Hco), (uc_uid _ _ Hco), (uc_cp _ _ Hco).
  destruct (opt_Checkpoints opts) as [store|];
    [|apply triple_fail; intros s p (-> & _ & cp' & Hco' & ->); split; [apply Hco'|done]].
  eapply triple_seq.
  { apply (triple_modify _ (λ s p, us_Unlock s = true ∧ p = UDeleted cp ∧ ufrom cp)).
    intros s p (-> & _ & cp' & Hco' & ->). split; [apply Hco'|]. split; [|apply Hco].
    by rewrite <- (uc_cp _ _ Hco), <- (uc_cp _ _ Hco'). }
  intros []. apply triple_then, triple_wrapErr, (triple_call _ _ _ (λ _, udropped)).
  intros s p r (Hu & -> & Hf). destruct r as [[]|x].
  - exists (UCleaned cp). split; [constructor|]. by exists cp.
  - exists (UStopped true). split; [constructor|]. by split.
Qed.

Lemma NotifyResourcesUnprepareStep_ok :
  step_ok udropped (NotifyResourcesUnprepareStep (opt_ResourcesNotifier opts)) udropped.
Proof.
  unfold NotifyResourcesUnprepareStep. apply triple_get. intros s0.
  destruct (_ || _); [eapply triple_pre; [|apply triple_continue]; by intros s p [_ ?]|].
  apply triple_then. intros s h (t & p & -> & Ht & -> & cp & ? & -> & ?).
  exists (t ++ [ENotify]), (UCleaned cp). simpl. rewrite app_assoc.
  split; [done|]. split; [econstructor; [done|constructor]|]. by exists cp.
Qed.

Lemma FinalUnprepareStep_ok : step_ok udropped FinalUnprepareStep (λ _ _, False).
Proof.
  intros s h. apply at_mono. intros s' p (cp & Hu & -> & Hf). split; [done|]. exists cp. auto.
Qed.

Lemma Unprepare_run :
  triple (at_ uinitial) (Run (newUnprepareSteps opts)) (post (λ _, at_ usuccess) failed).
Proof.
  apply Run_chain. unfold newUnprepareSteps.
  eapply chain_step; [apply ValidateUnprepareStep_ok|].
  eapply chain_step; [apply LockUnprepareStep_ok|].
  eapply chain_step; [apply LoadUnprepareCheckpointStep_ok|].
  eapply chain_step; [apply ShortCircuitUnprepareStep_ok|].
  eapply chain_step; [apply MpsUnprepareStep_ok|].
  eapply chain_step; [apply TimeSlicingUnprepareStep_ok|].
  eapply chain_step; [apply MigUnprepareStep_ok|].
  eapply chain_step; [apply VfioUnprepareStep_ok|].
  eapply chain_step; [eapply triple_pre; [|apply DeleteCDIStep_ok]; intros s p; apply cleaning_mono|].
  { intros ds undone Hd [] Hn; by apply Hd. }
  eapply chain_step; [apply CleanupCheckpointStep_ok|].
  eapply chain_step; [apply NotifyResourcesUnprepareStep_ok|].
  eapply chain_step; [apply FinalUnprepareStep_ok|].
  apply chain_nil. by intros s h e (t & p & _ & _ & []).
Qed.
End Unprepare.

Section UnprepareTheorems.
Context {Q : Type} `{Quantity Q} `{MpsEncoding Q} `{RangeOrder Q}.
Implicit Types (opts : Options Q) (uid : string) (t : list (event Q)).

Abbreviation uaccepts opts uid := (runs (unext opts uid)).

(** Successful calls that undo a resource. *)
Definition undoneIn (t : list (event Q)) (r : resource) : Prop :=
  ∃ e rs, e ∈ t ∧ undoes e = Some (rs, Ok ()) ∧ r ∈ rs.

Lemma uaccepts_undone opts uid t cp undone :
  uaccepts opts uid UIdle t (ULoaded cp undone) → ∀ r, r ∈ undone → undoneIn t r.
Proof.
  remember UIdle as p0. remember (ULoaded cp undone) as p. intros Ht. revert undone Heqp.
  induction Ht as [|p0 t q e p1 Ht IH Hn]; intros undone Hp r Hr; subst; [done|].
  inversion Hn as [| | | |cp' undone' ? rs Hact Hu Hnm| | | | | | |]; subst.
  - by apply elem_of_nil in Hr.
  - apply elem_of_app in Hr as [Hr|Hr].
    + destruct (IH eq_refl undone' eq_refl r Hr) as (e' & rs' & Hin & ?).
      exists e', rs'. split; [set_solver|done].
    + exists e, rs. split; [set_solver|done].
Qed.

(** A checkpoint is loaded once. *)
Lemma uaccepts_load_once opts uid t cp undone raw :
  uaccepts opts uid UIdle t (ULoaded cp undone) → ELoad (Ok raw) ∈ t → cp = normalizeCheckpoint raw.
Proof.
  remember UIdle as p0. remember (ULoaded cp undone) as p. intros Ht. revert undone Heqp.
  induction Ht as [|p0 t q e p1 Ht IH Hn]; intros undone Hp Hin; subst; [done|].
  inversion Hn as [| |raw'| |cp' undone' ? rs Hact Hu Hnm| | | | | | |]; subst.
  - apply elem_of_app in Hin as [Hin|Hin]; [|by apply list_elem_of_singleton in Hin as [= ->]].
    inversion Ht as [|? t2 q2 e2 ? Ht2 Hn2]; subst. inversion Hn2; subst.
    inversion Ht2 as [|? t3 q3 e3 ? Ht3 Hn3]; subst; [|inversion Hn3; subst; done].
    by apply list_elem_of_singleton in Hin.
  - apply elem_of_app in Hin as [Hin|Hin]; [by eapply IH|]. by apply list_elem_of_singleton in Hin as <-.
Qed.

Lemma uaccepts_loaded opts uid t cp undone :
  uaccepts opts uid UIdle t (ULoaded cp undone) →
  ∃ raw, cp = normalizeCheckpoint raw ∧ ELoad (Ok raw) ∈ t ∧
    (¬ active uid cp → t = [ELock (Ok ()); ELoad (Ok raw)]).
Proof.
  remember UIdle as p0. remember (ULoaded cp undone) as p. intros Ht. revert undone Heqp.
  induction Ht as [|p0 t q e p1 Ht IH Hn]; intros undone Hp; subst; [done|].
  inversion Hn as [| |raw| |cp' undone' ? rs Hact Hu Hnm| | | | | | |]; subst.
  - exists raw. split; [done|]. split; [set_solver|]. intros _.
    inversion Ht as [|? t2 q2 e2 ? Ht2 Hn2]; subst. inversion Hn2; subst.
    inversion Ht2 as [|? t3 q3 e3 ? Ht3 Hn3]; subst; [done|]. inversion Hn3; subst; done.
  - destruct (IH eq_refl undone' eq_refl) as (raw & -> & Hin & _). exists raw.
    split; [done|]. split; [set_solver|done].
Qed.

Lemma uaccepts_cleaned opts uid t cp :
  uaccepts opts uid UIdle t (UCleaned cp) →
  ∃ t0 n undone, t = t0 ++ ECDIDelete uid (Ok ()) :: ESave (dropClaim uid cp) (Ok ()) :: replicate n ENotify ∧
    uaccepts opts uid UIdle t0 (ULoaded cp undone) ∧ cleaned opts (devicesOf uid cp) undone.
Proof.
  remember UIdle as p0. remember (UCleaned cp) as p. intros Ht. revert Heqp.
  induction Ht as [|p0 t q e r Ht IH Hn]; intros Hp; subst; [done|].
  inversion Hn; subst.
  - inversion Ht as [|? t1 q1 e1 ? Ht1 Hn1]; subst.
    inversion Hn1 as [| | | | | |? undone Hact Hcl| | | | |]; subst.
    exists t1, O, undone. split; [by rewrite <- app_assoc|done].
  - destruct (IH eq_refl eq_refl) as (t0 & n & undone & -> & ? & ?).
    exists t0, (n + 1)%nat, undone. split; [|done]. rewrite <- app_assoc. simpl.
    by rewrite replicate_add.
Qed.

Lemma uaccepts_saved opts uid t p cp :
  uaccepts opts uid UIdle t p → ESave cp (Ok ()) ∈ t → isCleaned p = true.
Proof.
  remember UIdle as p0. induction 1 as [|p0 t q e r Ht IH Hn]; intros Hin; subst.
  { by apply elem_of_nil in Hin. }
  apply elem_of_app in Hin as [Hin|Hin].
  - specialize (IH eq_refl Hin). destruct q; try done; inversion Hn; subst; done.
  - apply list_elem_of_singleton in Hin as <-. inversion Hn; subst; simpl in *; done.
Qed.

Lemma uaccepts_bracket opts uid t p :
  uaccepts opts uid UIdle t p →
  match p with
  | UIdle => t = []
  | UStopped false => ∃ e, t = [ELock (Err e)]
  | UReleased => ∃ body u, t = ELock (Ok ()) :: body ++ [EUnlock u] ∧
                  Forall (λ e, lockEvent e = false) body
  | _ => ∃ body, t = ELock (Ok ()) :: body ∧ Forall (λ e, lockEvent e = false) body
  end.
Proof.
  remember UIdle as p0. induction 1 as [|p0 t q e r Ht IH Hn]; subst; [done|].
  specialize (IH eq_refl).
  destruct Hn as [| | | |? ? e ? ? Hu|? ? e ? ? ? Hu| | | | | |p u Hh]; simpl in *;
    try (destruct IH as (body & -> & Hb); eexists (body ++ [_]);
         split; [done|]; rewrite Forall_app, Forall_singleton; split; [done|];
         (done || by destruct e)).
  - subst. by exists [].
  - subst. by eexists.
  - destruct p as [| | | | |[]|]; try done; destruct IH as (body & -> & Hb); by exists body, u.
Qed.

Lemma Unprepare_trace opts svc uid h :
  NewService opts = Ok svc →
  ∃ t p, adds (ServiceUnprepare svc uid h) h t ∧ uaccepts svc uid UIdle t p ∧ uheld p = false ∧
    match fst (ServiceUnprepare svc uid h) with
    | Ok _ => ∃ t' u q, t = t' ++ [EUnlock u] ∧ uaccepts svc uid UIdle t' q ∧
        ∃ cp, ufrom svc h cp ∧ ((q = ULoaded cp [] ∧ ¬ active uid cp) ∨ q = UCleaned cp)
    | Err _ => ∀ cp, ESave cp (Ok ()) ∉ t
    end.
Proof.
  intros (-> & cdi & l & store & Hcdi & Hl & Hstore)%NewService_inv.
  unfold adds, ServiceUnprepare. rewrite Hcdi.
  pose proof (Unprepare_run opts uid h (NewUnprepareState uid) h) as Hrun.
  destruct (Run (newUnprepareSteps opts) (NewUnprepareState uid) h) as [r [st h']].
  simpl in Hrun. unfold deferUnlock. rewrite Hl.
  assert (at_ (unext opts uid) UIdle h (uinitial uid) (NewUnprepareState uid) h) as Hinit.
  { exists [], UIdle. rewrite app_nil_r. split; [done|]. split; [constructor|done]. }
  specialize (Hrun Hinit). destruct r as [[]|e]; destruct Hrun as (t & p & -> & Ht & Hu & Hpost); simpl.
  - rewrite Hu. exists (t ++ [EUnlock (lk_Unlock l (h ++ t))]), UReleased. rewrite app_assoc.
    split; [done|].
    assert (uheld p = true) as Hheld by (destruct Hpost as (? & _ & [[-> _]| ->]); done).
    split; [by econstructor; [|constructor]|]. split; [done|]. by eexists t, _, p.
  - rewrite Hu. destruct (uheld p) eqn:Hh.
    + exists (t ++ [EUnlock (lk_Unlock l (h ++ t))]), UReleased. rewrite app_assoc.
      split; [done|]. split; [by econstructor; [|constructor]|]. split; [done|].
      intros cp Hin. apply elem_of_app in Hin as [Hin|Hin]; [|by apply list_elem_of_singleton in Hin].
      apply (uaccepts_saved _ _ _ _ _ Ht) in Hin. congruence.
    + exists t, p. do 3 (split; [done|]). intros cp Hin.
      apply (uaccepts_saved _ _ _ _ _ Ht) in Hin. congruence.
Qed.

(** ** The guarantees *)

(** [Unprepare] brackets its work with the node lock as [Prepare] does. *)
Theorem Unprepare_lock opts svc uid h :
  NewService opts = Ok svc →
  ∃ t, adds (ServiceUnprepare svc uid h) h t ∧
    (t = [] ∨ (∃ e, t = [ELock (Err e)]) ∨
     ∃ body u, t = ELock (Ok ()) :: body ++ [EUnlock u] ∧
       Forall (λ e, lockEvent e = false) body).
Proof.
  intros Hsvc. destruct (Unprepare_trace opts svc uid h Hsvc) as (t & p & Hadd & Ht & Hp & _).
  exists t. split; [done|]. apply uaccepts_bracket in Ht.
  destruct p as [| | | | |[]|]; try done; auto.
Qed.

Lemma devicesOf_normalize uid raw : devicesOf uid (normalizeCheckpoint raw) = devicesOf uid raw.
Proof. unfold devicesOf, claimOf. by rewrite normalize_claims. Qed.

Lemma active_normalize uid raw : active uid (normalizeCheckpoint raw) ↔ active uid raw.
Proof. unfold active, devicesOf, claimOf. by rewrite normalize_claims. Qed.

Lemma undoneBy_in opts t undone r :
  is_Some (opt_MIG opts) → is_Some (opt_VFIO opts) →
  (∀ r, r ∈ undone → undoneIn t r) → undoneBy opts undone r →
  match r with
  | RMps m => ∃ m', undoneIn t (RMps m') ∧ pms_ControlID m' = pms_ControlID m
  | _ => undoneIn t r
  end.
Proof.
  intros Hm Hv Hin. destruct r as [m|v|u|m]; simpl; auto.
  intros (m' & ? & ?). exists m'. auto.
Qed.

(** What a trace undoes, in the terms of the records. *)
Definition undoneAll (t : list (event Q)) (ds : list PreparedDeviceState) : Prop :=
  ∀ r, named ds r →
    match r with
    | RMps m => ∃ m', undoneIn t (RMps m') ∧ pms_ControlID m' = pms_ControlID m
    | _ => undoneIn t r
    end.

(** C7: with the MIG and VFIO managers configured, an [Unprepare] that
    succeeds and loaded a checkpoint in which the claim has devices and is past
    the started state made a successful call for every MIG instance, VFIO
    binding, time slice and MPS daemon of the record, then deleted the CDI files
    of the claim, and only then saved the checkpoint without it.  (A claim that
    is only started is passed over: [Unprepare_started_noop].) *)
Theorem Unprepare_complete opts svc uid h t raw :
  NewService opts = Ok svc → is_Some (opt_MIG opts) → is_Some (opt_VFIO opts) →
  adds (ServiceUnprepare svc uid h) h t → fst (ServiceUnprepare svc uid h) = Ok () →
  ELoad (Ok raw) ∈ t → active uid raw →
  ∃ t0 n u, t = t0 ++ ECDIDelete uid (Ok ())
                  :: ESave (dropClaim uid (normalizeCheckpoint raw)) (Ok ())
                  :: replicate n ENotify ++ [EUnlock u] ∧
    undoneAll t0 (devicesOf uid raw).
Proof.
  intros Hsvc Hmig Hvfio Hadd Hok Hload Hact.
  destruct (Unprepare_trace opts svc uid h Hsvc) as (t' & p & Hadd' & _ & _ & Hend).
  destruct (NewService_inv _ _ Hsvc) as [-> _].
  unfold adds in *. rewrite Hadd in Hadd'. apply app_inv_head in Hadd' as <-. rewrite Hok in Hend.
  destruct Hend as (t1 & u & q & -> & Ht & cp & _ & [[-> Hna]| ->]);
    apply elem_of_app in Hload as [Hload|Hload%list_elem_of_singleton]; try done.
  - destruct Hna. rewrite (uaccepts_load_once _ _ _ _ _ _ Ht Hload). by rewrite active_normalize.
  - apply uaccepts_cleaned in Ht as (t0 & n & undone & -> & Ht & Hcl).
    assert (ELoad (Ok raw) ∈ t0) as Hin.
    { apply elem_of_app in Hload as [Hload|Hload]; [done|]. rewrite !elem_of_cons in Hload.
      destruct Hload as [?|[?|Hload]]; [done..|]. by apply elem_of_replicate in Hload as [? _]. }
    pose proof (uaccepts_undone _ _ _ _ _ Ht) as Hund.
    rewrite (uaccepts_load_once _ _ _ _ _ _ Ht Hin) in *. exists t0, n, u.
    split; [by rewrite <- app_assoc|]. intros r Hr.
    rewrite <- devicesOf_normalize in Hr. eapply undoneBy_in; [done|done|done|]. by apply Hcl.
Qed.

(** C8: an [Unprepare] that fails saves nothing, so the record of the claim
    is still there for the next attempt. *)
Theorem Unprepare_error_keeps opts svc uid h t e cp :
  NewService opts = Ok svc → adds (ServiceUnprepare svc uid h) h t →
  fst (ServiceUnprepare svc uid h) = Err e → ESave cp (Ok ()) ∉ t.
Proof.
  intros Hsvc Hadd Hres. destruct (Unprepare_trace opts svc uid h Hsvc) as (t' & p & Hadd' & _ & _ & Hend).
  unfold adds in *. rewrite Hadd in Hadd'. apply app_inv_head in Hadd' as <-. rewrite Hres in Hend.
  apply Hend.
Qed.

Lemma recorded_named ds r : recorded ds r → r ≠ RTimeSlice "" → named ds r.
Proof.
  intros (d & Hd & Hh) Hne. exists d. split; [done|]. destruct r as [m|v|u|m]; try done.
  - unfold timeSliceUUID. simpl in Hh. rewrite Hh. simpl.
    destruct (str_eqb u "") eqn:Hu; go_bool; congruence.
  - destruct Hh as [u Hh]. unfold mpsStateOf. by rewrite Hh.
Qed.

Lemma active_completed uid raw ds :
  pcp_Claims raw !! uid = Some (mkPreparedClaim PrepareStateCompleted ds) → ds ≠ [] → active uid raw.
Proof. intros Hc Hne. unfold active, devicesOf, claimOf. by rewrite Hc. Qed.

Lemma devicesOf_completed uid raw s ds :
  pcp_Claims raw !! uid = Some (mkPreparedClaim s ds) → devicesOf uid raw = ds.
Proof. intros Hc. unfold devicesOf, claimOf. by rewrite Hc. Qed.

Lemma made_nonempty opts svc req h t :
  NewService opts = Ok svc → adds (ServicePrepare svc req h) h t → RTimeSlice "" ∉ madeOf t.
Proof.
  intros Hsvc Hadd Hin. destruct (Prepare_trace opts svc req h Hsvc) as (t' & p & Hadd' & Ht & _).
  unfold adds in *. rewrite Hadd in Hadd'. apply app_inv_head in Hadd' as <-.
  unfold madeOf in Hin. apply list_elem_of_In, in_concat in Hin as (rs & Hrs & Hin).
  apply list_elem_of_In in Hrs, Hin. apply list_elem_of_omap in Hrs as (e & He & Hm).
  apply list_elem_of_split in He as (l1 & l2 & Heq).
  destruct (runs_prefix _ _ _ _ Ht _ _ _ Heq) as (p1 & p2 & _ & Hn).
  destruct e as [| | | | |? []| |? []| |us ? []|? []| | | |]; simplify_eq/=;
    try (apply list_elem_of_singleton in Hin; done).
  inversion Hn as [| | | | | | | |? ? ? ? ? Hal| |? ? ? ? ? Hf| | | |]; subst; simpl in *; try done.
  apply list_elem_of_fmap in Hin as (u & [= <-] & Hu). done.
Qed.

(** C3: what [Prepare] makes, [Unprepare] undoes: with the MIG and VFIO
    managers configured, distinct device names and a store that keeps what was
    saved, let a [Prepare] that made something succeed, then anything happen
    that leaves the record of the claim in the checkpoint as it is (other claims
    may come and go), and then [Unprepare] of the claim succeed: every MIG
    instance, VFIO binding and time slice of the first is undone by a successful
    call of the second, every MPS daemon is stopped by its control id, and the
    stored checkpoint no longer has the claim. *)
Theorem Prepare_Unprepare_roundtrip opts svc req h r t1 mid t2 :
  NewService opts = Ok svc → is_Some (opt_MIG opts) → is_Some (opt_VFIO opts) →
  (∀ s, opt_Checkpoints opts = Some s → store_keeps s) →
  NoDup (pd_Device <$> pr_Devices req) → pr_Devices req ≠ [] →
  ServicePrepare svc req h = (Ok r, h ++ t1) → madeOf t1 ≠ [] →
  let claimIn hist := pcp_Claims (default zeroCheckpoint (lastSaved hist)) !! pr_ClaimUID req in
  claimIn ((h ++ t1) ++ mid) = claimIn (h ++ t1) →
  ServiceUnprepare svc (pr_ClaimUID req) ((h ++ t1) ++ mid) = (Ok (), ((h ++ t1) ++ mid) ++ t2) →
  (∀ x, x ∈ madeOf t1 →
     match x with
     | RMps m => ∃ m', undoneIn t2 (RMps m') ∧ pms_ControlID m' = pms_ControlID m
     | _ => undoneIn t2 x
     end) ∧
  claimIn (((h ++ t1) ++ mid) ++ t2) = None.
Proof.
  intros Hsvc Hmig Hvfio Hkeep Hnd Hne Hprep Hmade claimIn Hmid Hunp. unfold claimIn in *. clear claimIn.
  assert (adds (ServicePrepare svc req h) h t1) as Hadd1 by (unfold adds; by rewrite Hprep).
  pose proof (made_nonempty _ _ _ _ _ Hsvc Hadd1) as Hnoempty.
  destruct (Prepare_trace opts svc req h Hsvc) as (t1' & p1 & Hadd1' & _ & _ & Hend).
  unfold adds in Hadd1'. rewrite Hprep in Hadd1', Hend. simpl in Hadd1', Hend.
  apply app_inv_head in Hadd1' as <-.
  destruct Hend as (t0 & u & q & -> & Ht & [(raw & -> & _)|(cp & ds & -> & ->)]).
  { apply accepts_loaded in Ht as (raw' & _ & ->). by destruct Hmade. }
  apply accepts_completed in Ht as (tw & n & cp0 & made & ids & -> & Ht & -> & Hnames & _ & Hrec).
  pose proof (accepts_made _ _ _ _ Ht eq_refl) as Hm. set (cp := setClaim _ _ cp0) in *.
  assert (pcp_Claims cp !! pr_ClaimUID req = Some (mkPreparedClaim PrepareStateCompleted ds)) as Hcl
    by apply lookup_insert_eq.
  clearbody cp.
  assert (madeOf ((tw ++ ESave cp (Ok ()) :: replicate n ENotify) ++ [EUnlock u]) = made) as Hmd.
  { rewrite !madeOf_app, Hm. change (ESave cp (Ok ()) :: ?l) with ([ESave cp (Ok ())] ++ l).
    by rewrite madeOf_app, madeOf_notify, !app_nil_r. }
  rewrite Hmd in *. set (h1 := h ++ _) in Hmid, Hunp |- *.
  assert (lastSaved h1 = Some cp) as Hlast.
  { subst h1. rewrite !lastSaved_app. simpl. by rewrite lastSaved_notify. }
  rewrite Hlast in Hmid. cbn [default from_option id] in Hmid. rewrite Hcl in Hmid.
  destruct (Unprepare_trace opts svc (pr_ClaimUID req) (h1 ++ mid) Hsvc) as (t2' & p2 & Hadd2 & _ & _ & Hend).
  unfold adds in Hadd2. rewrite Hunp in Hadd2, Hend. simpl in Hadd2, Hend.
  apply app_inv_head in Hadd2 as <-. destruct (NewService_inv _ _ Hsvc) as [-> _].
  destruct Hend as (tu & v & q & -> & Hu & cp2 & (raw & -> & store & Hstore & Hload) & Hend).
  rewrite (Hkeep _ Hstore), lastSaved_app in Hload. cbn [lastSaved] in Hload. injection Hload as <-.
  assert (ds ≠ []) as Hds by (intros ->; unfold names in Hnames; by destruct (pr_Devices req)).
  destruct Hend as [[-> Hna]| ->].
  { exfalso. apply Hna. rewrite active_normalize. by eapply active_completed. }
  apply uaccepts_cleaned in Hu as (tc & k & undone & -> & Hu & Hclean).
  pose proof (uaccepts_undone _ _ _ _ _ Hu) as Hund.
  rewrite devicesOf_normalize, (devicesOf_completed _ _ _ _ Hmid) in Hclean. split.
  - intros x Hx.
    assert (named ds x) as Hn.
    { apply recorded_named; [|congruence]. eapply (proj1 (Forall_forall _ _)); [by apply Hrec|done]. }
    eapply undoneBy_in; [exact Hmig|exact Hvfio| |by apply Hclean].
    intros y Hy. destruct (Hund y Hy) as (e & rs & Hin & ?). exists e, rs. split; [set_solver|done].
  - rewrite !lastSaved_app. simpl. rewrite lastSaved_notify. simpl. apply lookup_delete_eq.
Qed.

(** [Unprepare] of a claim whose preparation was started but never
    completed does nothing, and reports success: whatever the interrupted
    [Prepare] made stays, and so does the record. *)
Theorem Unprepare_started_noop opts svc uid h cp ds :
  NewService opts = Ok svc → uid ≠ "" →
  (∀ l, opt_Locker opts = Some l → lk_Lock l h = Ok ()) →
  (∀ s, opt_Checkpoints opts = Some s → st_Load s (h ++ [ELock (Ok ())]) = Ok cp) →
  pcp_Claims cp !! uid = Some (mkPreparedClaim PrepareStateStarted ds) →
  ∃ u, ServiceUnprepare svc uid h = (Ok (), h ++ [ELock (Ok ()); ELoad (Ok cp); EUnlock u]).
Proof.
  intros (-> & cdi & l & store & Hcdi & Hl & Hstore)%NewService_inv Huid Hlock Hload Hc.
  specialize (Hlock l Hl). specialize (Hload store Hstore).
  unfold ServiceUnprepare, newUnprepareSteps. rewrite Hcdi, Hl, Hstore.
  assert (str_eqb uid "" = false) as Hu by (by apply str_eqb_false).
  assert (pcp_Claims (normalizeCheckpoint cp) !! uid = Some (mkPreparedClaim PrepareStateStarted ds))
    as Hc' by (by rewrite normalize_claims).
  set (s0 := NewUnprepareState uid). set (h1 := h ++ [ELock (Ok ())]) in *.
  set (h2 := h1 ++ [ELoad (Ok cp)]).
  set (s2 := setUClaim (mkPreparedClaim PrepareStateStarted ds)
               (setUCheckpoint (normalizeCheckpoint cp) (setUUnlock s0))).
  rewrite (Run_continue _ _ _ _ s0 h).
  2:{ unfold ValidateUnprepareStep, get, mbind, M_bind. simpl. by rewrite Hu. }
  rewrite (Run_continue _ _ _ _ (setUUnlock s0) h1).
  2:{ unfold LockUnprepareStep, wrapErr, call, modify, mbind, M_bind. by rewrite Hlock. }
  rewrite (Run_continue _ _ _ _ s2 h2).
  2:{ unfold LoadUnprepareCheckpointStep, CheckpointLoad, wrapErr, call, modify, get, mbind, M_bind.
      rewrite Hload. cbn -[normalizeCheckpoint]. by rewrite Hc'. }
  rewrite (Run_final _ _ _ _ (setSkip s2) h2).
  2:{ unfold ShortCircuitUnprepareStep, get, modify, mbind, M_bind. simpl. by destruct ds. }
  simpl. exists (lk_Unlock l h2). unfold h2, h1. by rewrite <- !app_assoc.
Qed.
End UnprepareTheorems.
