(* ===== verification/PrepareExamples.v ===== *)
(** * [Prepare] and [Unprepare] on a concrete node

    Managers that answer from fixed data and a store that keeps what was
    saved; the theorems are applied to claims for a MIG partition and a
    time-sliced GPU, and for a GPU passed through with VFIO. *)

From S2P Require Import Prelude GoLib DeviceModel ConfigApi Effects Prepare PrepareSteps PrepareProtocol.
From S2P Require Import PrepareSpec PrepareTheorems UnprepareSpec.

Module Node.

Abbreviation Q := int_quantity.
Abbreviation ev := (event Q).

#[export] Instance encoding : MpsEncoding Q := {|
  sha256_hex _ := "0123456789abcdef";
  json_MpsConfig _ := Some "{}";
|}.

Lemma range_id_perm (h : list ev) (l : list string) : l ≡ₚ l.
Proof. done. Qed.

#[export] Instance range_id : RangeOrder Q := {| rangeKeys _ l := l; rangeKeys_perm := range_id_perm |}.

Definition locker : PrepareLocker Q := {| lk_Lock _ := Ok (); lk_Unlock _ := Ok () |}.
Definition store : PrepareCheckpointStore Q := {|
  st_Load h := Ok (default zeroCheckpoint (lastSaved h));
  st_Save _ _ := Ok ();
|}.
Definition mig : MigManager Q := {|
  mig_Prepare _ q := Ok (mkPreparedMigDevice (mpr_PCIBusID q) (mpr_ProfileID q) (mpr_SliceStart q)
    (mpr_SliceSize q) 3 0 "MIG-3");
  mig_Unprepare _ _ := Ok ();
|}.
Definition vfio : VfioManager Q := {|
  vfio_Prepare _ pci := Ok (mkPreparedVfioDevice pci "nvidia" 7);
  vfio_Unprepare _ _ := Ok ();
|}.
Definition ts : TimeSlicingManager Q := {| ts_SetTimeSlice _ _ _ := Ok () |}.
Definition mps : MpsManager Q := {|
  mps_Start _ q := Ok (mkPreparedMpsState (mpq_ControlID q) "/pipe" "/shm" "/log");
  mps_Stop _ _ := Ok ();
|}.
Definition checker : GPUProcessChecker Q := {| chk_EnsureGPUFree _ _ := Ok () |}.

(** One CDI id per device of the request. *)
Definition cdi : CDIWriter Q := {|
  cdi_Write _ q := Ok (foldl (λ m d, <[pd_Device d := ["k8s.gpu=" +:+ pd_Device d]]> m) ∅ (pr_Devices q));
  cdi_Delete _ _ := Ok ();
|}.

(** A CDI writer that fails. *)
Definition brokenCdi : CDIWriter Q := {| cdi_Write _ _ := Err (External 5); cdi_Delete _ _ := Ok () |}.

Definition svc : Options Q :=
  mkOptions (Some cdi) (Some mig) (Some vfio) (Some ts) (Some mps) (Some locker) (Some store)
    (Some checker) true.
Definition brokenSvc : Options Q :=
  mkOptions (Some brokenCdi) (Some mig) (Some vfio) (Some ts) (Some mps) (Some locker) (Some store)
    (Some checker) true.

Definition device (name : string) (attrs : list (string * string)) (cfg : option (Config Q))
    : PrepareDevice Q :=
  mkPrepareDevice "req" "gpu.deckhouse.io" "node-a" name "" ∅
    (list_to_map (prod_map id StringAttr <$> attrs)) cfg.

Definition migPart : PrepareDevice Q :=
  device "mig-0000-65-00-0-p19-s4-n1"
    [(AttrDeviceType, DeviceTypeMIG); (AttrPCIAddress, "0000:65:00.0")]
    (Some (MigConf (mkMigDeviceConfig (metaFor MigDeviceConfigKind)
       (Some (mkMigDeviceSharing MpsStrategy (Some emptyMps)))))).

Definition slicedGpu : PrepareDevice Q :=
  device "gpu-1"
    [(AttrDeviceType, DeviceTypePhysical); (AttrPCIAddress, "0000:17:00.0"); (AttrGPUUUID, "GPU-1")]
    (Some (GpuConf (mkGpuConfig (metaFor GpuConfigKind)
       (Some (mkGpuSharing TimeSlicingStrategy (Some (mkTimeSlicingConfig (Some LongTimeSlice))) None))))).

Definition plainGpu : PrepareDevice Q :=
  device "gpu-1" [(AttrDeviceType, DeviceTypePhysical); (AttrPCIAddress, "0000:17:00.0")] None.

Definition claim : PrepareRequest Q := mkPrepareRequest "uid-1" "node-a" false [migPart; slicedGpu].
Definition vfioClaim : PrepareRequest Q := mkPrepareRequest "uid-2" "node-a" true [plainGpu].

Definition prepared : list ev := Eval vm_compute in snd (ServicePrepare svc claim []).
Definition result : PrepareResult :=
  mkPrepareResult "uid-1"
    [mkPreparedDevice "req" "node-a" "mig-0000-65-00-0-p19-s4-n1" ["k8s.gpu=mig-0000-65-00-0-p19-s4-n1"];
     mkPreparedDevice "req" "node-a" "gpu-1" ["k8s.gpu=gpu-1"]].
Definition vfioPrepared : list ev := Eval vm_compute in snd (ServicePrepare svc vfioClaim []).
Definition unprepared : list ev := Eval vm_compute in
  drop (length prepared) (snd (ServiceUnprepare svc "uid-1" prepared)).
Definition broken : list ev := Eval vm_compute in snd (ServicePrepare brokenSvc claim []).

Example Prepare_claim : ServicePrepare svc claim [] = (Ok result, prepared).
Proof. vm_compute. reflexivity. Qed.

Example Unprepare_claim : ServiceUnprepare svc "uid-1" prepared = (Ok (), prepared ++ unprepared).
Proof. vm_compute. reflexivity. Qed.

(** The number of calls of both. *)
Example calls : (length prepared, length unprepared, length vfioPrepared, length broken) = (10, 9, 9, 8)%nat.
Proof. vm_compute. reflexivity. Qed.

Lemma store_ok : ∀ s, opt_Checkpoints svc = Some s → store_keeps s.
Proof. intros s [= <-] h. reflexivity. Qed.

Lemma prepared_adds : adds (ServicePrepare svc claim []) [] prepared.
Proof. vm_compute. reflexivity. Qed.

Lemma vfio_adds : adds (ServicePrepare svc vfioClaim []) [] vfioPrepared.
Proof. vm_compute. reflexivity. Qed.

Lemma unprepared_adds : adds (ServiceUnprepare svc "uid-1" prepared) prepared unprepared.
Proof. vm_compute. reflexivity. Qed.

(** ** Witnesses *)

Lemma Prepare_lock_witness :
  ∃ t, adds (ServicePrepare svc claim []) [] t ∧
    (t = [] ∨ (∃ e, t = [ELock (Err e)]) ∨
     ∃ body u, t = ELock (Ok ()) :: body ++ [EUnlock u] ∧ Forall (λ e, lockEvent e = false) body).
Proof. apply (Prepare_lock svc svc claim []). reflexivity. Defined.

Definition eventAt (t : list ev) (i : nat) : ev := default ENotify (t !! i).

Lemma Prepare_write_ahead_witness :
  isHardware (eventAt prepared 3) ∧
  ∃ cp ds, ESave cp (Ok ()) ∈ take 3 prepared ∧
    pcp_Claims cp !! "uid-1" = Some (mkPreparedClaim PrepareStateStarted ds) ∧
    pds_Device <$> ds = pd_Device <$> pr_Devices claim.
Proof.
  assert (isHardware (eventAt prepared 3)) by (vm_compute; exact I). split; [done|].
  apply (Prepare_write_ahead svc svc claim [] prepared eq_refl prepared_adds (take 3 prepared)
           (eventAt prepared 3) (drop 4 prepared)).
  - vm_compute. reflexivity.
  - done.
Defined.

Lemma Prepare_fail_stop_witness :
  drop 7 broken = [] ∨ ∃ u, drop 7 broken = [EUnlock u].
Proof.
  apply (Prepare_fail_stop brokenSvc brokenSvc claim [] broken eq_refl) with
    (l1 := take 6 broken) (e := ECDIWrite (match broken !! 6%nat with Some (ECDIWrite q _) => q | _ => claim end)
                                  (Err (External 5))).
  - vm_compute. reflexivity.
  - vm_compute. reflexivity.
  - reflexivity.
Defined.

Lemma Prepare_completed_witness :
  (∃ raw u, prepared = [ELock (Ok ()); ELoad (Ok raw); EUnlock u] ∧
     PreparedResultFromClaim "uid-1" (claimIn claim raw) = Ok result) ∨
  (∃ t0 n u cp ds q ids,
     prepared = t0 ++ ESave cp (Ok ()) :: replicate n ENotify ++ [EUnlock u] ∧
     pcp_Claims cp !! "uid-1" = Some (mkPreparedClaim PrepareStateCompleted ds) ∧
     result = mkPrepareResult "uid-1" (toPrepared <$> ds) ∧
     pds_Device <$> ds = pd_Device <$> pr_Devices claim ∧
     ECDIWrite q (Ok ids) ∈ t0 ∧
     Forall (λ d, ids !! pds_Device d = Some (pds_CDIDeviceIDs d)) ds ∧
     (NoDup (pd_Device <$> pr_Devices claim) → Forall (recorded ds) (madeOf t0))).
Proof.
  apply (Prepare_completed svc svc claim [] prepared result eq_refl prepared_adds).
  vm_compute. reflexivity.
Defined.

(** The checkpoint of the last save of [prepared]. *)
Definition savedLast : PrepareCheckpoint := Eval vm_compute in default zeroCheckpoint (lastSaved prepared).

Lemma Prepare_other_claims_witness :
  ESave savedLast (Ok ()) ∈ prepared ∧
  ∃ raw, ELoad (Ok raw) ∈ prepared ∧
    ∀ u, u ≠ "uid-1" → pcp_Claims savedLast !! u = pcp_Claims raw !! u.
Proof.
  assert (ESave savedLast (Ok ()) ∈ prepared) as Hin
    by (apply (list_elem_of_lookup_2 _ 7%nat); vm_compute; reflexivity).
  split; [done|].
  exact (Prepare_other_claims svc svc claim [] prepared savedLast (Ok ()) eq_refl prepared_adds Hin).
Defined.

Lemma Prepare_vfio_checked_witness :
  pr_VFIO vfioClaim = true ∧ EEnsureGPUFree "0000:17:00.0" (Ok ()) ∈ take 4 vfioPrepared.
Proof.
  apply (Prepare_vfio_checked svc svc vfioClaim [] vfioPrepared eq_refl vfio_adds (take 4 vfioPrepared)
           "0000:17:00.0" (Ok (mkPreparedVfioDevice "0000:17:00.0" "nvidia" 7)) (drop 5 vfioPrepared)).
  vm_compute. reflexivity.
Defined.

Lemma Prepare_idempotent_witness :
  ∃ cp u, ServicePrepare svc claim prepared
    = (Ok result, prepared ++ [ELock (Ok ()); ELoad (Ok cp); EUnlock u]).
Proof.
  apply (Prepare_idempotent svc svc claim [] result prepared).
  - reflexivity.
  - exact Prepare_claim.
  - discriminate.
  - discriminate.
  - apply (bool_decide_unpack _). vm_compute. exact I.
  - intros l [= <-]. reflexivity.
  - exact store_ok.
Defined.

Lemma Unprepare_lock_witness :
  ∃ t, adds (ServiceUnprepare svc "uid-1" prepared) prepared t ∧
    (t = [] ∨ (∃ e, t = [ELock (Err e)]) ∨
     ∃ body u, t = ELock (Ok ()) :: body ++ [EUnlock u] ∧ Forall (λ e, lockEvent e = false) body).
Proof. apply (Unprepare_lock svc svc "uid-1" prepared). reflexivity. Defined.

Lemma Unprepare_complete_witness : active "uid-1" savedLast ∧
  ∃ t0 n u, unprepared = t0 ++ ECDIDelete "uid-1" (Ok ())
                  :: ESave (dropClaim "uid-1" (normalizeCheckpoint savedLast)) (Ok ())
                  :: replicate n ENotify ++ [EUnlock u] ∧
    undoneAll t0 (devicesOf "uid-1" savedLast).
Proof.
  assert (active "uid-1" savedLast) as Ha by (split; vm_compute; discriminate). split; [exact Ha|].
  apply (Unprepare_complete svc svc "uid-1" prepared unprepared savedLast).
  - reflexivity.
  - by exists mig.
  - by exists vfio.
  - exact unprepared_adds.
  - vm_compute. reflexivity.
  - apply (list_elem_of_lookup_2 _ 1%nat). vm_compute. reflexivity.
  - exact Ha.
Defined.

(** The MIG manager refuses to delete. *)
Definition stuckSvc : Options Q :=
  mkOptions (Some cdi) (Some {| mig_Prepare := mig_Prepare mig; mig_Unprepare _ _ := Err (External 6) |})
    (Some vfio) (Some ts) (Some mps) (Some locker) (Some store) (Some checker) true.
Definition stuck : list ev := Eval vm_compute in
  drop (length prepared) (snd (ServiceUnprepare stuckSvc "uid-1" prepared)).

Lemma Unprepare_error_keeps_witness : ESave zeroCheckpoint (Ok ()) ∉ stuck.
Proof.
  apply (Unprepare_error_keeps stuckSvc stuckSvc "uid-1" prepared stuck
           (Wrapf "mig unprepare %q: %w" ["mig-0000-65-00-0-p19-s4-n1"] (External 6)) zeroCheckpoint).
  - reflexivity.
  - vm_compute. reflexivity.
  - vm_compute. reflexivity.
Defined.

(** Between the two calls another claim is prepared. *)
Definition otherClaim : PrepareRequest Q := mkPrepareRequest "uid-3" "node-a" false
  [device "gpu-2" [(AttrDeviceType, DeviceTypePhysical); (AttrPCIAddress, "0000:31:00.0")] None].
Definition between : list ev := Eval vm_compute in drop (length prepared) (snd (ServicePrepare svc otherClaim prepared)).
Definition unpreparedLater : list ev := Eval vm_compute in
  drop (length (prepared ++ between)) (snd (ServiceUnprepare svc "uid-1" (prepared ++ between))).

Lemma Prepare_Unprepare_roundtrip_witness : length between = 6%nat ∧
  (∀ x, x ∈ madeOf prepared →
     match x with
     | RMps m => ∃ m', undoneIn unpreparedLater (RMps m') ∧ pms_ControlID m' = pms_ControlID m
     | _ => undoneIn unpreparedLater x
     end) ∧
  pcp_Claims (default zeroCheckpoint (lastSaved ((([] ++ prepared) ++ between) ++ unpreparedLater))) !! "uid-1" = None.
Proof.
  split; [vm_compute; reflexivity|].
  apply (Prepare_Unprepare_roundtrip svc svc claim [] result prepared between unpreparedLater).
  - reflexivity.
  - by exists mig.
  - by exists vfio.
  - exact store_ok.
  - apply (bool_decide_unpack _). vm_compute. exact I.
  - discriminate.
  - exact Prepare_claim.
  - vm_compute. discriminate.
  - vm_compute. reflexivity.
  - vm_compute. reflexivity.
Defined.

(** After the failed CDI write the claim is recorded as started, and a MIG
    instance exists. *)
Definition brokenRecord : PrepareCheckpoint := default zeroCheckpoint (lastSaved broken).

Example broken_made : madeOf broken ≠ [].
Proof. vm_compute. discriminate. Qed.

Lemma Unprepare_started_noop_witness :
  ∃ u, ServiceUnprepare svc "uid-1" broken
    = (Ok (), broken ++ [ELock (Ok ()); ELoad (Ok brokenRecord); EUnlock u]).
Proof.
  apply (Unprepare_started_noop svc svc "uid-1" broken brokenRecord
           (from_option pc_Devices [] (pcp_Claims brokenRecord !! "uid-1"))).
  - reflexivity.
  - discriminate.
  - intros l [= <-]. reflexivity.
  - intros s [= <-]. vm_compute. reflexivity.
  - vm_compute. reflexivity.
Defined.
End Node.
