(* ===== verification/Reconciler.v ===== *)
(** * The handler chain: pkg/controller/reconciler

    [BaseReconciler] runs a chain of handlers over a shared state, updates the
    resource and merges the results.  A handler returns a result and possibly
    an error; the state is threaded explicitly.  Durations are nanoseconds. *)

From S2P Require Import Prelude.

(** ** [reconcile.Result] and results.go *)

Record Result := mkResult { Requeue : bool; RequeueAfter : Z }.

#[export] Instance Result_eq_dec : EqDecision Result.
Proof. solve_decision. Defined.

Definition zeroResult : Result := mkResult false 0.
Definition IsZero (r : Result) : bool := bool_decide (r = zeroResult).

(** The loop of [MergeResults], with its early return. *)
Fixpoint mergeLoop (result : Result) (results : list Result) : Result :=
  match results with
  | [] => result
  | r :: rest =>
      if IsZero r then mergeLoop result rest else
      if Requeue r && (RequeueAfter r =? 0) then r else
      if IsZero result && (0 <? RequeueAfter r) then mergeLoop r rest else
      if (0 <? RequeueAfter r) && (RequeueAfter r <? RequeueAfter result)
      then mergeLoop (mkResult (Requeue result) (RequeueAfter r)) rest
      else mergeLoop result rest
  end.

Definition MergeResults (results : list Result) : Result := mergeLoop zeroResult results.

(** ** Errors *)

Definition ErrStopHandlerChain : error := Errorf "stop handler chain execution" [].

(** Two tests on errors of the API server. *)
Class ApiErrors := {
  IsConflict : error → bool;
  noNewFinalizers : error → bool;
}.

(** ** reconciler.go, reconciler_steps.go *)

Section Base.
Context {H S : Type} `{ApiErrors}.

Record BaseReconciler := mkBaseReconciler {
  br_handlers : list H;
  br_update : option (S → option error * S);
  br_execute : option (H → S → (Result * option error) * S);
  (** [Finalize] of the handlers that have it *)
  br_finalizer : H → option (S → option error * S);
}.

(** [errs] is the list of joined errors; [true] is a [break]. *)
Definition handleOutcome (result : Result) (errs : list error) (res : Result)
    (err : option error) : (Result * list error) * bool :=
  match err with
  | None => ((MergeResults [result; res], errs), false)
  | Some e =>
      if errorsIs e ErrStopHandlerChain then ((MergeResults [result; res], errs), true) else
      if IsConflict e
      then ((MergeResults [mkResult (Requeue result) 100000; res], errs), false)
      else ((MergeResults [result; res], errs ++ [e]), false)
  end.

Fixpoint handlersLoop (execute : H → S → (Result * option error) * S) (handlers : list H)
    (result : Result) (errs : list error) (s : S) : (Result * list error) * S :=
  match handlers with
  | [] => ((result, errs), s)
  | h :: rest =>
      let '((res, err), s') := execute h s in
      let '((result', errs'), stop) := handleOutcome result errs res err in
      if stop then ((result', errs'), s') else handlersLoop execute rest result' errs' s'
  end.

Definition runHandlers (execute : H → S → (Result * option error) * S) (handlers : list H)
    (s : S) : (Result * list error) * S :=
  handlersLoop execute handlers zeroResult [] s.

Definition updateResource (update : S → option error * S) (result : Result) (s : S)
    : (Result * option error) * S :=
  let '(err, s') := update s in
  match err with
  | None => ((result, None), s')
  | Some e =>
      if IsConflict e then ((mkResult (Requeue result) 100000, None), s') else
      if noNewFinalizers e then ((mkResult (Requeue result) 1000000000, None), s')
      else ((result, Some e), s')
  end.

Fixpoint runFinalizers (finalizer : H → option (S → option error * S)) (handlers : list H)
    (s : S) : option error * S :=
  match handlers with
  | [] => (None, s)
  | h :: rest =>
      match finalizer h with
      | None => runFinalizers finalizer rest s
      | Some f =>
          let '(err, s') := f s in
          match err with
          | Some e => (Some e, s')
          | None => runFinalizers finalizer rest s'
          end
      end
  end.

(** The result, the joined errors (none is nil), and the state. *)
Definition BaseReconcile (r : BaseReconciler) (s : S) : (Result * list error) * S :=
  match br_update r, br_execute r with
  | None, _ => ((zeroResult, [Errorf "update func is omitted: cannot reconcile" []]), s)
  | _, None => ((zeroResult, [Errorf "execute func is omitted: cannot reconcile" []]), s)
  | Some update, Some execute =>
      let '((result, errs), s1) := runHandlers execute (br_handlers r) s in
      let '((result, uerr), s2) := updateResource update result s1 in
      let errs := errs ++ option_list uerr in
      if negb (list_len0 errs) then ((zeroResult, errs), s2) else
      let '(ferr, s3) := runFinalizers (br_finalizer r) (br_handlers r) s2 in
      match ferr with
      | Some e => ((zeroResult, [e]), s3)
      | None => ((result, []), s3)
      end
  end.

(** ** Lemmas *)

(** What every handler preserves, the chain preserves. *)
Lemma handlersLoop_inv (I : S → Prop) execute handlers result errs s :
  (∀ h s, h ∈ handlers → I s → I (snd (execute h s))) → I s →
  I (snd (handlersLoop execute handlers result errs s)).
Proof.
  revert result errs s. induction handlers as [|h rest IH]; intros result errs s Hex Hs; simpl; [done|].
  pose proof (Hex h s ltac:(left) Hs) as Hs'. destruct (execute h s) as [[res err] s']. simpl in Hs'.
  destruct (handleOutcome result errs res err) as [[result' errs'] []]; [done|].
  apply IH; [|done]. intros h' s'' Hin. apply Hex. by right.
Qed.

Lemma runFinalizers_none finalizer handlers s :
  (∀ h, h ∈ handlers → finalizer h = None) → runFinalizers finalizer handlers s = (None, s).
Proof.
  induction handlers as [|h rest IH]; intros Hf; simpl; [done|].
  rewrite Hf by left. apply IH. intros h' Hh'. apply Hf. by right.
Qed.

Lemma BaseReconcile_inv (I : S → Prop) r s :
  (∀ execute, br_execute r = Some execute → ∀ h s, h ∈ br_handlers r → I s → I (snd (execute h s))) →
  (∀ update, br_update r = Some update → ∀ s, I s → I (snd (update s))) →
  (∀ h, h ∈ br_handlers r → br_finalizer r h = None) →
  I s → I (snd (BaseReconcile r s)).
Proof.
  intros Hex Hup Hfin Hs. unfold BaseReconcile.
  destruct (br_update r) as [update|]; [|done]. destruct (br_execute r) as [execute|]; [|done].
  pose proof (handlersLoop_inv I execute (br_handlers r) zeroResult [] s (Hex _ eq_refl) Hs) as H1.
  unfold runHandlers. destruct (handlersLoop _ _ _ _ _) as [[result errs] s1]. simpl in H1.
  pose proof (Hup _ eq_refl s1 H1) as H2. unfold updateResource.
  destruct (update s1) as [uerr s2]. simpl in H2.
  assert (runFinalizers (br_finalizer r) (br_handlers r) s2 = (None, s2)) as Hf
    by by apply runFinalizers_none.
  destruct uerr as [e|]; [destruct (IsConflict e); [|destruct (noNewFinalizers e)]|];
    simpl; (destruct (negb _); [done|]); by rewrite Hf.
Qed.
End Base.
Arguments BaseReconciler H S : clear implicits.

(** Without a request to requeue at once, the merged delay is the least
    positive one. *)
Lemma mergeLoop_least acc results :
  (∀ r, r ∈ results → Requeue r = false ∧ 0 ≤ RequeueAfter r) →
  Requeue acc = false → 0 ≤ RequeueAfter acc →
  let d := RequeueAfter (mergeLoop acc results) in
  Requeue (mergeLoop acc results) = false ∧
  (d = RequeueAfter acc ∨ ∃ r, r ∈ results ∧ RequeueAfter r = d) ∧
  (∀ r, r ∈ acc :: results → 0 < RequeueAfter r → 0 < d ≤ RequeueAfter r).
Proof.
  revert acc. induction results as [|r rest IH]; intros acc Hrs Hacc Hpos; cbn.
  { split; [done|]. split; [by left|]. intros r ->%list_elem_of_singleton. lia. }
  destruct (Hrs r ltac:(left)) as [Hr Hr0].
  assert (∀ r', r' ∈ rest → Requeue r' = false ∧ 0 ≤ RequeueAfter r') as Hrest
    by (intros; apply Hrs; by right).
  rewrite Hr. simpl. unfold IsZero.
  destruct (bool_decide (r = zeroResult)) eqn:Hz; go_bool.
  - subst r. destruct (IH acc Hrest Hacc Hpos) as (H1 & H2 & H3). split; [done|].
    split; [destruct H2 as [|(r' & ? & ?)]; [by left|right; exists r'; split; [by right|done]]|].
    intros r' Hr'. rewrite !elem_of_cons in Hr'. destruct Hr' as [->|[->|Hr']]; [|simpl; lia|];
      apply H3; set_solver.
  - assert (0 < RequeueAfter r) as Hrpos.
    { destruct r as [[] d]; simpl in *; [done|]. destruct (decide (d = 0)); [by subst|lia]. }
    assert (∀ acc', Requeue acc' = false → RequeueAfter acc' = RequeueAfter r →
      (RequeueAfter acc = 0 ∨ RequeueAfter r ≤ RequeueAfter acc) →
      let m := mergeLoop acc' rest in Requeue m = false ∧
      (RequeueAfter m = RequeueAfter acc ∨ ∃ r', r' ∈ r :: rest ∧ RequeueAfter r' = RequeueAfter m) ∧
      (∀ r', r' ∈ acc :: r :: rest → 0 < RequeueAfter r' → 0 < RequeueAfter m ≤ RequeueAfter r')) as Htake.
    { intros acc' Ha Hd Hcmp. destruct (IH acc' Hrest Ha ltac:(lia)) as (H1 & H2 & H3). split; [done|].
      pose proof (H3 acc' ltac:(left) ltac:(lia)) as H4. split.
      - right. destruct H2 as [H2|(r' & ? & ?)]; [exists r; split; [left|lia]|exists r'; split; [by right|done]].
      - intros r' Hr'. rewrite !elem_of_cons in Hr'. destruct Hr' as [->|[->|Hr']]; [lia|lia|].
        apply H3. by right. }
    destruct (Z.ltb_spec 0 (RequeueAfter r)); [|lia]. rewrite andb_true_r. simpl.
    destruct (bool_decide (acc = zeroResult)) eqn:Hza; go_bool.
    { subst acc. apply Htake; [done|done|by left]. }
    destruct (Z.ltb_spec (RequeueAfter r) (RequeueAfter acc)).
    { apply Htake; [done|done|lia]. }
    destruct (IH acc Hrest Hacc Hpos) as (H1 & H2 & H3). split; [done|].
    split; [destruct H2 as [|(r' & ? & ?)]; [by left|right; exists r'; split; [by right|done]]|].
    assert (0 < RequeueAfter acc).
    { destruct acc as [[] d]; simpl in *; [done|]. destruct (decide (d = 0)); [by subst|lia]. }
    pose proof (H3 acc ltac:(left) ltac:(lia)).
    intros r' Hr'. rewrite !elem_of_cons in Hr'. destruct Hr' as [->|[->|Hr']]; [lia|lia|].
    apply H3. by right.
Qed.
