(* ===== verification/DraController.v ===== *)
(** * The allocation controller

    Services, handlers, reconcile and watches of [controller/dra], and what a
    reconcile changes. *)

From S2P Require Import Prelude GoLib DeviceModel Accounting Allocator K8sApi Render K8sAllocator Effects.
From S2P Require Import Reconciler.

(** * The allocation controller: pkg/controller/dra

    Reconciles resource claims: loads the device classes, lists slices and
    allocated claims, runs the allocator and writes the allocation into the
    status of the claim.  Reads go to the informer cache, the write goes to
    the API server; both are explicit in the state, since they may differ.
    Every API call is recorded in the history and may fail. *)

(** The name of [services/allocator/service.go]. *)
Definition DefaultDriverName : string := "gpu.deckhouse.io".

Definition AttachKey {Q} (claim : ResourceClaim Q) : string * string :=
  (claim_Namespace claim, claim_Name claim).

(** The calls of the controller, and the events it records. *)
Inductive apiEvent :=
| AGetClaim (key : string * string)
| AGetClass (name : string)
| AListSlices
| AListClaims
| APatchStatus (key : string * string)
| ARecord (object eventType reason : string).

#[export] Instance apiEvent_eq_dec : EqDecision apiEvent.
Proof. solve_decision. Defined.

(** [k8serrors.NewNotFound]. *)
Definition NotFound : error := External 404.

Section Controller.
Context {Q : Type} `{Quantity Q} `{GoSort} `{CelCompiler Q} `{ApiErrors}.

Context `{QuantityAdd Q}.

(** The objects of the API the controller reads. *)
Record Objects := mkObjects {
  ob_claims : list (ResourceClaim Q);
  ob_slices : list (ResourceSlice Q);
  ob_classes : gmap string DeviceClass;
}.

(** The API server, the informer cache, and [state.DRAState.Allocation]. *)
Record World := mkWorld {
  w_server : Objects;
  w_cache : Objects;
  w_Allocation : option (ApiAllocationResult Q);
}.

(** What the environment decides during a reconcile: which calls fail (given
    the history), the UUIDs, the clock, and the iteration order of maps. *)
Record Env := mkEnv {
  env_fault : list apiEvent → apiEvent → option error;
  env_uuids : nat → string;
  env_now : Z;
  env_classOrder : gset string → list string;
  env_allocatedOrder : gmap DeviceKey (AllocatedDeviceInfo Q) → list DeviceKey;
}.
Context (env : Env).

Abbreviation CM := (M apiEvent World).

(** An API call that reads or writes the world. *)
Definition api {A} (ev : apiEvent) (f : World → res (A * World)) : CM A := λ w h,
  match env_fault env h ev with
  | Some e => (Err e, (w, h ++ [ev]))
  | None =>
      match f w with
      | Ok (a, w') => (Ok a, (w', h ++ [ev]))
      | Err e => (Err e, (w, h ++ [ev]))
      end
  end.

Definition record (object eventType reason : string) : CM () := λ w h,
  (Ok (), (w, h ++ [ARecord object eventType reason])).

(** ** internal/service/deviceclass.go *)

Definition requestClassNames (seen : gset string) (req : DeviceRequest Q) : gset string :=
  let seen := match dr_Exactly req with
    | Some ex => if str_eqb (ex_DeviceClassName ex) "" then seen
                 else {[ex_DeviceClassName ex]} ∪ seen
    | None => seen
    end in
  foldl (λ seen sub, if str_eqb (sub_DeviceClassName sub) "" then seen
                     else {[sub_DeviceClassName sub]} ∪ seen) seen (dr_FirstAvailable req).

Definition deviceClassNames (claim : ResourceClaim Q) : list string :=
  env_classOrder env (foldl requestClassNames ∅ (claim_Requests claim)).

Definition getClass (name : string) : CM DeviceClass :=
  api (AGetClass name) (λ w, match ob_classes (w_cache w) !! name with
    | Some class => Ok (class, w)
    | None => Err NotFound
    end).

Fixpoint loadClasses (names : list string) (classes : gmap string DeviceClass)
    : CM (gmap string DeviceClass) :=
  match names with
  | [] => mret classes
  | name :: rest =>
      class ← wrapErr (Wrapf "deviceclass %q: %w" [name]) (getClass name);
      loadClasses rest (<[name := class]> classes)
  end.

Definition Load (claim : ResourceClaim Q) : CM (gmap string DeviceClass) :=
  loadClasses (deviceClassNames claim) ∅.

(** ** internal/service/resource_slices.go, allocated_devices.go *)

Definition listResourceSlices : CM (list (ResourceSlice Q)) :=
  api AListSlices (λ w, Ok (ob_slices (w_cache w), w)).

Definition mergeConsumedCapacity (dst src : gmap string Q) : gmap string Q :=
  range_update (λ _ qty current, match current with Some q => QAdd q qty | None => qty end) src dst.

Definition resultKey (res : DeviceRequestAllocationResult Q) : DeviceKey :=
  mkDeviceKey (rr_Driver res) (rr_Pool res) (rr_Device res).

(** One turn of the inner loop. *)
Definition addAllocated (allocated : gmap DeviceKey (AllocatedDeviceInfo Q))
    (res : DeviceRequestAllocationResult Q) : gmap DeviceKey (AllocatedDeviceInfo Q) :=
  let key := resultKey res in
  if map_len0 (rr_ConsumedCapacity res) then <[key := mkAllocatedDeviceInfo true ∅]> allocated else
  let info := default (mkAllocatedDeviceInfo false ∅) (allocated !! key) in
  if adi_Exclusive info then allocated else
  <[key := mkAllocatedDeviceInfo false
             (mergeConsumedCapacity (adi_ConsumedCapacity info) (rr_ConsumedCapacity res))]> allocated.

Definition claimResults (claim : ResourceClaim Q) : list (DeviceRequestAllocationResult Q) :=
  match claim_Allocation claim with Some alloc => aar_Results alloc | None => [] end.

Definition allocatedDevices (claims : list (ResourceClaim Q))
    : gmap DeviceKey (AllocatedDeviceInfo Q) :=
  foldl (λ allocated claim, foldl addAllocated allocated (claimResults claim)) ∅ claims.

Definition listAllocatedDevices : CM (gmap DeviceKey (AllocatedDeviceInfo Q)) :=
  claims ← api AListClaims (λ w, Ok (ob_claims (w_cache w), w));
  mret (allocatedDevices claims).

(** ** internal/service/allocator.go *)

Definition AllocatorAllocate (options : AllocationOptions) (claim : ResourceClaim Q)
    : CM (option (ApiAllocationResult Q)) :=
  classes ← Load claim;
  requests ← liftR (BuildRequests (Some claim) classes);
  if list_len0 requests then mret None else
  slices ← listResourceSlices;
  allocated ← listAllocatedDevices;
  let candidates := BuildCandidates DefaultDriverName slices in
  let counterSets := BuildCounterSets DefaultDriverName slices in
  let input := mkInput requests candidates allocated counterSets in
  result ← liftR (Allocate (λ _, env_allocatedOrder env allocated) input);
  match result with
  | None => mret None
  | Some r => liftR (BuildAllocationResultWithOptions (env_uuids env) (env_now env)
                       (Some claim) (Some r) classes options)
  end.

(** ** internal/service/allocation_writer.go *)

(** The server side of the status patch: only [status.allocation] of the
    named claim changes. *)
Definition setAllocation (key : string * string) (alloc : ApiAllocationResult Q)
    (claim : ResourceClaim Q) : ResourceClaim Q :=
  if decide (AttachKey claim = key) then
    mkResourceClaim (claim_Namespace claim) (claim_Name claim) (claim_Requests claim)
      (claim_Constraints claim) (claim_Config claim) (Some alloc)
  else claim.

Definition patchAllocation (key : string * string) (alloc : ApiAllocationResult Q) (w : World)
    : res (() * World) :=
  if decide (key ∈ AttachKey <$> ob_claims (w_server w)) then
    Ok ((), mkWorld (mkObjects (setAllocation key alloc <$> ob_claims (w_server w))
                       (ob_slices (w_server w)) (ob_classes (w_server w)))
              (w_cache w) (w_Allocation w))
  else Err NotFound.

Definition Write (claim : ResourceClaim Q) (alloc : ApiAllocationResult Q) : CM () :=
  api (APatchStatus (AttachKey claim)) (patchAllocation (AttachKey claim) alloc).

(** ** internal/handler *)

Definition reasonFeatureGateDisabled : string := "FeatureGateDisabled".
Definition reasonResourceClaimAllocated : string := "ResourceClaimAllocated".
Definition reasonResourceClaimAllocationFailed : string := "ResourceClaimAllocationFailed".

(** feature_gate.go; [enabled] is the flag of the handler. *)
Definition recordFeatureGate (class : DeviceClass) : CM () :=
  match class_ExtendedResourceName class with
  | None => mret ()
  | Some name => if str_eqb name "" then mret ()
                 else record (class_Name class) "Warning" reasonFeatureGateDisabled
  end.

Definition FeatureGateHandle (enabled : bool) (claim : ResourceClaim Q) : CM () :=
  if enabled then mret () else
  classes ← Load claim;
  forEach recordFeatureGate (map_to_list classes).*2.

(** allocate.go *)
Definition AllocateHandle (options : AllocationOptions) (claim : ResourceClaim Q) : CM () := λ w h,
  match claim_Allocation claim with
  | Some _ => (Err ErrStopHandlerChain, (w, h))
  | None =>
      match AllocatorAllocate options claim w h with
      | (Err e, (w', h')) =>
          (Err e, (w', h' ++ [ARecord (claim_Name claim) "Warning" reasonResourceClaimAllocationFailed]))
      | (Ok None, wh') => (Ok (), wh')
      | (Ok (Some alloc), (w', h')) =>
          (Ok (), (mkWorld (w_server w') (w_cache w') (Some alloc), h'))
      end
  end.

(** persist.go *)
Definition PersistHandle (claim : ResourceClaim Q) : CM () := λ w h,
  match w_Allocation w with
  | None => (Ok (), (w, h))
  | Some alloc =>
      let '(r, (w', h')) := Write claim alloc w h in
      let event := match r with
        | Err _ => ARecord (claim_Name claim) "Warning" reasonResourceClaimAllocationFailed
        | Ok _ => ARecord (claim_Name claim) "Normal" reasonResourceClaimAllocated
        end in
      (r, (w', h' ++ [event]))
  end.

(** ** reconciler.go, setup.go *)

Inductive DraHandler := FeatureGateHandler | AllocateHandler | PersistHandler.

Record Setup := mkSetup { su_extendedResource : bool; su_options : AllocationOptions }.

Definition draHandlers : list DraHandler := [FeatureGateHandler; AllocateHandler; PersistHandler].

Definition Handle (setup : Setup) (claim : ResourceClaim Q) (handler : DraHandler) : CM () :=
  match handler with
  | FeatureGateHandler => FeatureGateHandle (su_extendedResource setup) claim
  | AllocateHandler => AllocateHandle (su_options setup) claim
  | PersistHandler => PersistHandle claim
  end.

(** Every handler returns the zero result. *)
Definition execute (setup : Setup) (claim : ResourceClaim Q) (handler : DraHandler)
    (s : World * list apiEvent) : (Result * option error) * (World * list apiEvent) :=
  let '(r, s') := Handle setup claim handler s.1 s.2 in
  ((zeroResult, match r with Ok _ => None | Err e => Some e end), s').

Definition draReconciler (setup : Setup) (claim : ResourceClaim Q)
    : BaseReconciler DraHandler (World * list apiEvent) :=
  mkBaseReconciler draHandlers (Some (λ s, (None, s))) (Some (execute setup claim)) (λ _, None).

(** [object.FetchObject]: an object that is not found is the empty one. *)
Definition findClaim (key : string * string) (claims : list (ResourceClaim Q))
    : option (ResourceClaim Q) :=
  head (filter (λ c, AttachKey c = key) claims).

Definition FetchObject (key : string * string) : CM (option (ResourceClaim Q)) := λ w h,
  match api (AGetClaim key) (λ w, match findClaim key (ob_claims (w_cache w)) with
          | Some c => Ok (c, w)
          | None => Err NotFound
          end) w h with
  | (Ok c, wh') => (Ok (Some c), wh')
  | (Err e, wh') => if decide (e = NotFound) then (Ok None, wh') else (Err e, wh')
  end.

(** A reconcile starts with a fresh [DRAState]. *)
Definition Reconcile (setup : Setup) (key : string * string) (w : World) (h : list apiEvent)
    : (Result * list error) * (World * list apiEvent) :=
  let w := mkWorld (w_server w) (w_cache w) None in
  match FetchObject key w h with
  | (Err e, s) => ((zeroResult, [e]), s)
  | (Ok None, s) => ((zeroResult, []), s)
  | (Ok (Some claim), s) => BaseReconcile (draReconciler setup claim) s
  end.

(** ** internal/watcher *)

Definition claimUsesDeviceClass (claim : ResourceClaim Q) (className : string) : bool :=
  existsb (λ req,
    match dr_Exactly req with
    | Some ex => str_eqb (ex_DeviceClassName ex) className
    | None => false
    end || existsb (λ sub, str_eqb (sub_DeviceClassName sub) className) (dr_FirstAvailable req))
    (claim_Requests claim).

(** A failed list enqueues nothing. *)
Definition deviceClassEnqueue (claims : res (list (ResourceClaim Q))) (className : string)
    : list (string * string) :=
  if str_eqb className "" then [] else
  match claims with
  | Err _ => []
  | Ok claims => AttachKey <$> filter (λ c, claimUsesDeviceClass c className = true) claims
  end.

Definition resourceSliceEnqueue (claims : res (list (ResourceClaim Q))) (slice : ResourceSlice Q)
    : list (string * string) :=
  if negb (str_eqb (rs_Driver slice) DefaultDriverName) then [] else
  match claims with
  | Err _ => []
  | Ok claims => AttachKey <$> claims
  end.
End Controller.
Arguments Objects Q : clear implicits.
Arguments World Q : clear implicits.
Arguments Env Q : clear implicits.

(** * What a reconcile of the allocation controller does

    [Reconcile_effect]: a reconcile changes at most the allocation of its
    claim, only when the cached claim has none, and to an allocation the
    allocator computed from the cached objects.  Two theorems on the watches:
    a changed device class wakes exactly the claims that load it. *)

Section Effect.
Context {Q : Type} `{Quantity Q} `{GoSort} `{CelCompiler Q} `{ApiErrors} `{QuantityAdd Q}.
Context (env : Env Q).

(** The allocation the controller computes for a claim from the objects it
    reads. *)
Record computed (options : AllocationOptions) (objects : Objects Q) (claim : ResourceClaim Q)
    (alloc : ApiAllocationResult Q) : Prop := {
  co_unallocated : claim_Allocation claim = None;
  co_run : ∃ classes requests result,
    classes ⊆ ob_classes objects ∧
    BuildRequests (Some claim) classes = Ok requests ∧
    Allocate (λ _, env_allocatedOrder env (allocatedDevices (ob_claims objects)))
      (mkInput requests (BuildCandidates DefaultDriverName (ob_slices objects))
         (allocatedDevices (ob_claims objects)) (BuildCounterSets DefaultDriverName (ob_slices objects)))
      = Ok (Some result) ∧
    BuildAllocationResultWithOptions (env_uuids env) (env_now env) (Some claim) (Some result)
      classes options = Ok (Some alloc);
}.

Definition patched (key : string * string) (alloc : ApiAllocationResult Q) (objects : Objects Q)
    : Objects Q :=
  mkObjects (setAllocation key alloc <$> ob_claims objects) (ob_slices objects) (ob_classes objects).

(** ** Reading calls *)

Lemma api_read {A} ev (f : World Q → res A) w h r w' h' :
  api env ev (λ w, match f w with Ok a => Ok (a, w) | Err e => Err e end) w h = (r, (w', h')) →
  w' = w ∧ ∀ a, r = Ok a → f w = Ok a.
Proof.
  unfold api. destruct (env_fault env h ev); [by intros [= <- <- _]|].
  destruct (f w); intros [= <- <- _]; naive_solver.
Qed.

Lemma getClass_read name w h r w' h' :
  getClass env name w h = (r, (w', h')) →
  w' = w ∧ ∀ class, r = Ok class → ob_classes (w_cache w) !! name = Some class.
Proof.
  unfold getClass, api. destruct (env_fault env h _); [by intros [= <- <- _]|].
  destruct (ob_classes (w_cache w) !! name); intros [= <- <- _]; naive_solver.
Qed.

Lemma loadClasses_read names classes w h r w' h' :
  classes ⊆ ob_classes (w_cache w) →
  loadClasses env names classes w h = (r, (w', h')) →
  w' = w ∧ ∀ out, r = Ok out → out ⊆ ob_classes (w_cache w).
Proof.
  revert classes h. induction names as [|name rest IH]; intros classes h Hsub; simpl.
  { intros [= <- <- _]. naive_solver. }
  unfold mbind, M_bind, wrapErr. destruct (getClass env name w h) as [[class|e] [w1 h1]] eqn:Hg;
    apply getClass_read in Hg as [-> Hg]; [|by intros [= <- <- _]].
  apply IH. apply insert_subseteq_l; [|done]. by apply Hg.
Qed.

Lemma Load_read claim w h r w' h' :
  Load env claim w h = (r, (w', h')) → w' = w ∧ ∀ out, r = Ok out → out ⊆ ob_classes (w_cache w).
Proof. apply loadClasses_read, map_empty_subseteq. Qed.

Lemma AllocatorAllocate_read options claim w h r w' h' :
  claim_Allocation claim = None →
  AllocatorAllocate env options claim w h = (r, (w', h')) →
  w' = w ∧ ∀ alloc, r = Ok (Some alloc) → computed options (w_cache w) claim alloc.
Proof.
  intros Hnone. unfold AllocatorAllocate, mbind, M_bind, liftR.
  destruct (Load env claim w h) as [[classes|e] [w1 h1]] eqn:Hl;
    apply Load_read in Hl as [-> Hl]; [|by intros [= <- <- _]].
  destruct (BuildRequests (Some claim) classes) as [requests|e] eqn:Hr; [|by intros [= <- <- _]].
  destruct (list_len0 requests); [by intros [= <- <- _]|].
  unfold listResourceSlices, listAllocatedDevices, mbind, M_bind, api.
  destruct (env_fault env h1 _); [by intros [= <- <- _]|].
  destruct (env_fault env _ _); [by intros [= <- <- _]|]. simpl.
  destruct (Allocate _ _) as [[result|]|e] eqn:Ha; [|by intros [= <- <- _]..].
  intros [= <- <- _]. split; [done|]. intros alloc Hb. split; [done|].
  exists classes, requests, result. split; [by apply Hl|]. done.
Qed.

(** ** The handlers *)

Lemma forEach_record (classes : list DeviceClass) (w : World Q) h :
  fst (snd (forEach recordFeatureGate classes w h)) = w.
Proof.
  revert h. induction classes as [|c cs IH]; intros h; simpl; [done|].
  unfold mbind, M_bind. unfold recordFeatureGate at 1.
  destruct (class_ExtendedResourceName c) as [n|]; simpl; [destruct (str_eqb n "")|]; apply IH.
Qed.

Context (setup : Setup) (claim : ResourceClaim Q) (server0 cache0 : Objects Q).

(** What holds before and after every handler of a reconcile of [claim]. *)
Definition during (s : World Q * list apiEvent) : Prop :=
  let w := s.1 in
  w_cache w = cache0 ∧
  (∀ alloc, w_Allocation w = Some alloc → computed (su_options setup) cache0 claim alloc) ∧
  (w_server w = server0 ∨ ∃ alloc, computed (su_options setup) cache0 claim alloc ∧
     AttachKey claim ∈ AttachKey <$> ob_claims server0 ∧
     w_server w = patched (AttachKey claim) alloc server0).

Lemma setAllocation_key key alloc (c : ResourceClaim Q) : AttachKey (setAllocation key alloc c) = AttachKey c.
Proof. unfold setAllocation. by case_decide. Qed.

Lemma setAllocation_twice key a1 a2 (l : list (ResourceClaim Q)) :
  setAllocation key a2 <$> (setAllocation key a1 <$> l) = setAllocation key a2 <$> l.
Proof.
  rewrite <- list_fmap_compose. apply list_fmap_ext. intros _ c _. simpl.
  unfold setAllocation. destruct (decide (AttachKey c = key)) as [Hk|Hk]; [|by rewrite decide_False].
  by rewrite decide_True.
Qed.

Lemma patched_twice key a1 a2 (objects : Objects Q) :
  patched key a2 (patched key a1 objects) = patched key a2 objects.
Proof. unfold patched. simpl. by rewrite setAllocation_twice. Qed.

Lemma patched_keys key alloc (objects : Objects Q) :
  AttachKey <$> ob_claims (patched key alloc objects) = AttachKey <$> ob_claims objects.
Proof.
  simpl. rewrite <- list_fmap_compose. apply list_fmap_ext. intros _ c _. apply setAllocation_key.
Qed.

Lemma Handle_during handler s : during s → during (snd (execute env setup claim handler s)).
Proof.
  destruct s as [w h]. intros Hd. pose proof Hd as (Hcache & Halloc & Hserver). simpl in Hcache, Halloc, Hserver.
  unfold execute. simpl. destruct handler; simpl.
  - unfold FeatureGateHandle. destruct (su_extendedResource setup); [done|].
    unfold mbind, M_bind. destruct (Load env claim w h) as [[classes|e] [w1 h1]] eqn:Hl;
      apply Load_read in Hl as [-> _]; [|done].
    pose proof (forEach_record (map_to_list classes).*2 w h1) as Hw.
    destruct (forEach _ _ _ _) as [r [w2 h2]]. simpl in *. by subst w2.
  - unfold AllocateHandle. destruct (claim_Allocation claim) eqn:Hc; [done|].
    destruct (AllocatorAllocate _ _ _ _ _) as [[[alloc|]|e] [w1 h1]] eqn:Ha;
      apply AllocatorAllocate_read in Ha as [-> Ha]; try done.
    split; [done|]. split; [|done]. intros a [= <-]. rewrite <- Hcache. by apply Ha.
  - unfold PersistHandle. destruct (w_Allocation w) as [alloc|] eqn:Ha; [|done].
    unfold Write, api. destruct (env_fault env h _); [done|].
    unfold patchAllocation. case_decide as Hin; [|done].
    unfold during. simpl. split; [done|]. split; [intros a; rewrite Ha; intros [= <-]; by apply Halloc|]. right. exists alloc.
    split; [by apply Halloc|]. destruct Hserver as [Hs|(a & _ & Hk & Hs)]; rewrite Hs in *.
    + by split.
    + rewrite patched_keys in Hin. split; [done|]. apply (patched_twice _ a).
Qed.

Lemma draReconciler_during s : during s → during (snd (BaseReconcile (draReconciler env setup claim) s)).
Proof.
  apply BaseReconcile_inv; simpl.
  - intros ex [= <-] handler s' _. apply Handle_during.
  - by intros update [= <-] s'.
  - done.
Qed.
End Effect.

Section Reconcile.
Context {Q : Type} `{Quantity Q} `{GoSort} `{CelCompiler Q} `{ApiErrors} `{QuantityAdd Q}.
Context (env : Env Q) (setup : Setup).

Lemma findClaim_Some key (claims : list (ResourceClaim Q)) c :
  findClaim key claims = Some c → c ∈ claims ∧ AttachKey c = key.
Proof.
  unfold findClaim. intros Hc. apply head_Some_elem_of in Hc.
  by apply list_elem_of_filter in Hc as [].
Qed.

Lemma FetchObject_read key w h r w' h' :
  FetchObject env key w h = (r, (w', h')) →
  w' = w ∧ ∀ c, r = Ok (Some c) → findClaim key (ob_claims (w_cache w)) = Some c.
Proof.
  unfold FetchObject, api. destruct (env_fault env h _).
  - case_decide; by intros [= <- <- _].
  - destruct (findClaim key _) as [c|]; [intros [= <- <- _]; naive_solver|].
    case_decide; by intros [= <- <- _].
Qed.

(** What a reconcile may do to the API server. *)
Definition writes (key : string * string) (w w' : World Q) : Prop :=
  w_cache w' = w_cache w ∧
  (w_server w' = w_server w ∨
   ∃ claim alloc,
     findClaim key (ob_claims (w_cache w)) = Some claim ∧
     key ∈ AttachKey <$> ob_claims (w_server w) ∧
     computed env (su_options setup) (w_cache w) claim alloc ∧
     w_server w' = patched key alloc (w_server w)).

Lemma Reconcile_writes key w h r w' h' :
  Reconcile env setup key w h = (r, (w', h')) → writes key w w'.
Proof.
  unfold Reconcile. set (w0 := mkWorld (w_server w) (w_cache w) None). intros Hrec.
  destruct (FetchObject env key w0 h) as [[[claim|]|e] [w1 h1]] eqn:Hf;
    apply FetchObject_read in Hf as [-> Hf]; [|simplify_eq; by split; [|left]..].
  specialize (Hf claim eq_refl). simpl in Hf.
  pose proof (draReconciler_during env setup claim (w_server w) (w_cache w) (w0, h1)) as Hd.
  rewrite Hrec in Hd. simpl in Hd.
  destruct Hd as (Hcache & _ & Hserver); [split; [done|split; [done|by left]]|].
  split; [done|]. destruct Hserver as [Hs|(alloc & Hco & Hin & Hs)]; [by left|right].
  exists claim, alloc. apply findClaim_Some in Hf as Hk. destruct Hk as [_ Hk]. rewrite Hk in *. done.
Qed.

(** C28: a reconcile leaves every object as it is, except for the allocation
    of its own claim; it sets that only when the claim it read has none, and
    to the rendering of what the allocator computes from the objects it read. *)
Theorem Reconcile_effect key w h r w' h' :
  Reconcile env setup key w h = (r, (w', h')) →
  ob_slices (w_server w') = ob_slices (w_server w) ∧
  ob_classes (w_server w') = ob_classes (w_server w) ∧
  (ob_claims (w_server w') = ob_claims (w_server w) ∨
   ∃ claim alloc,
     findClaim key (ob_claims (w_cache w)) = Some claim ∧
     computed env (su_options setup) (w_cache w) claim alloc ∧
     ob_claims (w_server w') = setAllocation key alloc <$> ob_claims (w_server w)).
Proof.
  intros [_ Hs]%Reconcile_writes. destruct Hs as [->|(claim & alloc & Hf & _ & Hco & ->)].
  - do 2 (split; [done|]). by left.
  - do 2 (split; [done|]). right. by exists claim, alloc.
Qed.

(** ** The watches *)

Lemma elem_of_subNames subs (seen : gset string) name :
  name ∈ foldl (λ seen sub, if str_eqb (sub_DeviceClassName sub) "" then seen
                            else {[sub_DeviceClassName sub]} ∪ seen) seen subs ↔
  name ∈ seen ∨ (name ≠ "" ∧ existsb (λ sub, str_eqb (sub_DeviceClassName sub) name) subs = true).
Proof.
  revert seen. induction subs as [|sub subs IH]; intros seen; simpl; [naive_solver|].
  rewrite IH, orb_true_iff, str_eqb_true.
  destruct (str_eqb (sub_DeviceClassName sub) "") eqn:E; go_bool; set_solver.
Qed.

Lemma elem_of_requestClassNames (reqs : list (DeviceRequest Q)) seen name :
  name ≠ "" →
  name ∈ foldl requestClassNames seen reqs ↔
  name ∈ seen ∨ existsb (λ req,
    match dr_Exactly req with
    | Some ex => str_eqb (ex_DeviceClassName ex) name
    | None => false
    end || existsb (λ sub, str_eqb (sub_DeviceClassName sub) name) (dr_FirstAvailable req)) reqs = true.
Proof.
  intros Hname. revert seen. induction reqs as [|req reqs IH]; intros seen; simpl; [naive_solver|].
  rewrite IH. unfold requestClassNames. rewrite elem_of_subNames, !orb_true_iff.
  destruct (dr_Exactly req) as [ex|]; [|naive_solver].
  rewrite str_eqb_true. destruct (str_eqb (ex_DeviceClassName ex) "") eqn:E; go_bool; set_solver.
Qed.

(** A change of a device class enqueues exactly the claims that would
    load the class when they are reconciled, so no claim misses it. *)
Theorem deviceClassEnqueue_complete (claims : list (ResourceClaim Q)) className claim :
  (∀ s, env_classOrder env s ≡ₚ elements s) → className ≠ "" → claim ∈ claims →
  NoDup (AttachKey <$> claims) →
  AttachKey claim ∈ deviceClassEnqueue (Ok claims) className ↔
  className ∈ deviceClassNames env claim.
Proof.
  intros Horder Hname Hin Hnd. unfold deviceClassEnqueue, deviceClassNames.
  rewrite (proj2 (str_eqb_false className "")) by done.
  rewrite Horder, elem_of_elements, elem_of_requestClassNames by done.
  rewrite list_elem_of_fmap. split.
  - intros (c & Hc & Hcl). apply list_elem_of_filter in Hcl as [Huses Hcl].
    rewrite (NoDup_fmap_inj AttachKey claims claim c) by done. right. exact Huses.
  - intros [Hs|Huses]; [set_solver|]. exists claim. split; [done|]. by apply list_elem_of_filter.
Qed.
End Reconcile.
