(* ===== verification/ClusterSafety.v ===== *)
(** * Safety of the cluster

    What claims hold, and the invariant that reconciles keep. *)

From S2P Require Import Prelude GoLib DeviceModel Accounting Allocator AllocatorSpec K8sApi Render K8sAllocator.
From S2P Require Import K8sAllocatorSpec Effects Reconciler DraController.

(** * Who holds what

    The claims of the cluster seen as a list of holdings: a device key and the
    capacity consumed of it.  The controller folds them into the table of
    allocated devices; [table_spec] says what the table holds. *)

(** ** Sums *)

Lemma Zsum_ext {A} (f g : A → Z) l : (∀ x, x ∈ l → f x = g x) → Zsum f l = Zsum g l.
Proof.
  induction l as [|a l IH]; simpl; intros Hfg; [done|].
  rewrite Hfg by left. rewrite IH; [done|]. intros. apply Hfg. by right.
Qed.

Lemma Zsum_le {A} (f g : A → Z) l : (∀ x, x ∈ l → f x ≤ g x) → Zsum f l ≤ Zsum g l.
Proof.
  induction l as [|a l IH]; simpl; intros Hfg; [lia|].
  pose proof (Hfg a ltac:(left)). assert (Zsum f l ≤ Zsum g l) by (apply IH; intros; apply Hfg; by right).
  lia.
Qed.

Lemma Zsum_scale {A} (f : A → Z) n l : Zsum (λ x, n * f x) l = n * Zsum f l.
Proof. induction l; simpl; lia. Qed.

(** Distinct elements of a list sum to at most the list. *)
Lemma Zsum_subset {A} (f : A → Z) l1 l2 :
  NoDup l1 → (∀ x, x ∈ l1 → x ∈ l2) → (∀ x, x ∈ l2 → 0 ≤ f x) → Zsum f l1 ≤ Zsum f l2.
Proof.
  intros Hnd Hsub Hpos.
  destruct (submseteq_Permutation l1 l2) as [k Hk].
  { by apply NoDup_submseteq. }
  rewrite Hk, Zsum_app. assert (0 ≤ Zsum f k); [|lia].
  apply Zsum_nonneg. intros x Hx. apply Hpos. rewrite Hk. apply elem_of_app. by right.
Qed.

Section Holdings.
Context {Q : Type} `{Quantity Q, QuantityAdd Q, !QuantityLaws Q, !QuantityAddLaws Q}.

Abbreviation holding := (DeviceKey * gmap string Q)%type.

(** The results of all the claims. *)
Definition resultsOf (claims : list (ResourceClaim Q)) : list (DeviceRequestAllocationResult Q) :=
  concat (claimResults <$> claims).

Definition holdingOf (r : DeviceRequestAllocationResult Q) : holding :=
  (resultKey r, rr_ConsumedCapacity r).

Definition holdings (claims : list (ResourceClaim Q)) : list holding :=
  holdingOf <$> resultsOf claims.

Definition on (k : DeviceKey) (hs : list holding) : list holding := filter (λ x, x.1 = k) hs.

(** What is consumed under a name, as raw values. *)
Definition heldValue (name : string) (x : holding) : Z := from_option Value 0 (x.2 !! name).

Record quantities_ok (hs : list holding) : Prop := {
  qo_integral x name q : x ∈ hs → x.2 !! name = Some q → Integral q ∧ 0 ≤ Value q;
  qo_total k name : Zsum (heldValue name) (on k hs) < 2 ^ 62;
}.

#[export] Instance on_Proper k : Proper ((≡ₚ) ==> (≡ₚ)) (on k).
Proof. intros h1 h2 Hp. unfold on. by rewrite Hp. Qed.

Lemma on_app k h1 h2 : on k (h1 ++ h2) = on k h1 ++ on k h2.
Proof. apply filter_app. Qed.

Lemma elem_of_on k x hs : x ∈ on k hs ↔ x.1 = k ∧ x ∈ hs.
Proof. unfold on. by rewrite list_elem_of_filter. Qed.

Lemma heldValue_nonneg hs name x : quantities_ok hs → x ∈ hs → 0 ≤ heldValue name x.
Proof.
  intros Hok Hx. unfold heldValue. destruct (x.2 !! name) as [q|] eqn:Hq; simpl; [|lia].
  by destruct (qo_integral _ Hok x name q Hx Hq).
Qed.

Lemma quantities_ok_sub h1 h2 : quantities_ok (h1 ++ h2) → quantities_ok h1.
Proof.
  intros Hok. split.
  - intros x name q Hx. apply (qo_integral _ Hok). apply elem_of_app. by left.
  - intros k name. pose proof (qo_total _ Hok k name) as Ht. rewrite on_app, Zsum_app in Ht.
    assert (0 ≤ Zsum (heldValue name) (on k h2)); [|lia].
    apply Zsum_nonneg. intros x [_ Hx]%elem_of_on. apply (heldValue_nonneg (h1 ++ h2)); [done|].
    apply elem_of_app. by right.
Qed.

Lemma quantities_ok_perm h1 h2 : h1 ≡ₚ h2 → quantities_ok h1 → quantities_ok h2.
Proof.
  intros Hp Hok. split.
  - intros x name q Hx. apply (qo_integral _ Hok). by rewrite Hp.
  - intros k name. rewrite <- Hp. apply (qo_total _ Hok).
Qed.

(** ** The table of allocated devices *)

Definition addHolding (t : gmap DeviceKey (AllocatedDeviceInfo Q)) (x : holding)
    : gmap DeviceKey (AllocatedDeviceInfo Q) :=
  if map_len0 x.2 then <[x.1 := mkAllocatedDeviceInfo true ∅]> t else
  let info := default (mkAllocatedDeviceInfo false ∅) (t !! x.1) in
  if adi_Exclusive info then t else
  <[x.1 := mkAllocatedDeviceInfo false (mergeConsumedCapacity (adi_ConsumedCapacity info) x.2)]> t.

Definition table (hs : list holding) : gmap DeviceKey (AllocatedDeviceInfo Q) := foldl addHolding ∅ hs.

Lemma allocatedDevices_table claims : allocatedDevices claims = table (holdings claims).
Proof.
  unfold allocatedDevices, table, holdings, resultsOf. generalize (∅ : gmap DeviceKey (AllocatedDeviceInfo Q)).
  induction claims as [|c claims IH]; intros t; csimpl; [done|].
  rewrite fmap_app, foldl_app, IH. f_equal. clear IH. revert t.
  induction (claimResults c) as [|r rs IH]; intros t; csimpl; [done|]. apply IH.
Qed.

(** What an entry says about the holdings of its key. *)
Definition entry_ok (info : AllocatedDeviceInfo Q) (xs : list holding) : Prop :=
  xs ≠ [] ∧
  if adi_Exclusive info then (∃ x, x ∈ xs ∧ x.2 = ∅) ∧ adi_ConsumedCapacity info = ∅
  else (∀ x, x ∈ xs → x.2 ≠ ∅) ∧
    ∀ name, match adi_ConsumedCapacity info !! name with
      | Some q => Integral q ∧ Value q = Zsum (heldValue name) xs
      | None => ∀ x, x ∈ xs → x.2 !! name = None
      end.

Lemma heldValue_none name xs : (∀ x, x ∈ xs → x.2 !! name = None) → Zsum (heldValue name) xs = 0.
Proof. intros Hn. apply Zsum_zero. intros x Hx. unfold heldValue. by rewrite Hn. Qed.

Lemma entry_merge info xs x :
  adi_Exclusive info = false → quantities_ok (xs ++ [x]) → on x.1 xs = xs →
  (xs = [] ∧ adi_ConsumedCapacity info = ∅ ∨ entry_ok info xs) → x.2 ≠ ∅ →
  entry_ok (mkAllocatedDeviceInfo false (mergeConsumedCapacity (adi_ConsumedCapacity info) x.2)) (xs ++ [x]).
Proof.
  intros Hex Hok Hon Hinfo Hx. split; [by destruct xs|]. simpl.
  assert ((∀ y, y ∈ xs → y.2 ≠ ∅) ∧ ∀ name, match adi_ConsumedCapacity info !! name with
      | Some q => Integral q ∧ Value q = Zsum (heldValue name) xs
      | None => ∀ x, x ∈ xs → x.2 !! name = None end) as [Hne Hent].
  { destruct Hinfo as [[-> ->]|[_ Hi]]; [|by rewrite Hex in Hi].
    split; [|intros name; rewrite lookup_empty]; intros y Hy; by apply elem_of_nil in Hy. }
  split.
  { intros y [Hy|Hy%list_elem_of_singleton]%elem_of_app; [by apply Hne|by subst]. }
  intros name. unfold mergeConsumedCapacity. rewrite lookup_range_update.
  specialize (Hent name). rewrite Zsum_app. simpl.
  assert (∀ q, x.2 !! name = Some q → Integral q ∧ 0 ≤ Value q) as Hq
    by (intros q Hq; apply (qo_integral _ Hok x name q); [set_solver|done]).
  assert (Zsum (heldValue name) xs + heldValue name x < 2 ^ 62) as Htot.
  { pose proof (qo_total _ Hok x.1 name) as Ht. rewrite on_app, Hon, Zsum_app in Ht.
    unfold on in Ht. rewrite filter_cons, decide_True in Ht by done. simpl in Ht. lia. }
  assert (0 ≤ Zsum (heldValue name) xs) as Hnn.
  { apply Zsum_nonneg. intros y Hy. apply (heldValue_nonneg (xs ++ [x])); [done|set_solver]. }
  unfold heldValue in Htot at 2. unfold heldValue at 2.
  destruct (x.2 !! name) as [q|] eqn:Hxq; simpl in *.
  - destruct (Hq q eq_refl) as [Hqi Hq0].
    destruct (adi_ConsumedCapacity info !! name) as [q0|]; simpl in *.
    + destruct Hent as [Hi0 Hv0]. assert (in_int64 (Value q0 + Value q)) by int64_lia.
      split; [by apply Integral_QAdd|]. rewrite Value_QAdd by done. lia.
    + rewrite (heldValue_none name xs) by done. split; [done|lia].
  - destruct (adi_ConsumedCapacity info !! name) as [q0|]; simpl in *.
    + destruct Hent as [? ->]. split; [done|lia].
    + intros y [Hy|Hy%list_elem_of_singleton]%elem_of_app; [by apply Hent|by subst].
Qed.

Lemma on_on k hs : on k (on k hs) = on k hs.
Proof. unfold on. rewrite list_filter_filter. apply filter_ext_in. naive_solver. Qed.

Lemma quantities_ok_on hs k : quantities_ok hs → quantities_ok (on k hs).
Proof.
  intros Hok. split.
  - intros x name q [_ Hx]%elem_of_on. by apply (qo_integral _ Hok).
  - intros k' name. destruct (decide (k = k')) as [<-|Hne].
    + rewrite on_on. apply (qo_total _ Hok).
    + replace (on k' (on k hs)) with (@nil holding); [simpl; lia|]. symmetry.
      apply filter_none_in. intros x [Hx _]%elem_of_on. congruence.
Qed.

Lemma table_spec hs k : quantities_ok hs →
  match table hs !! k with
  | None => on k hs = []
  | Some info => entry_ok info (on k hs)
  end.
Proof.
  induction hs as [|x hs IH] using rev_ind; intros Hok; [unfold table; simpl; by rewrite lookup_empty|].
  specialize (IH (quantities_ok_sub _ _ Hok)). unfold table. rewrite foldl_snoc. fold (table hs).
  rewrite on_app. unfold on at 2 4. rewrite filter_cons. unfold addHolding.
  destruct (decide (x.1 = k)) as [Hk|Hk]; simpl.
  - subst k. destruct (map_len0 x.2) eqn:Hx; go_bool.
    + rewrite lookup_insert_eq. split; [by destruct (on x.1 hs)|]. simpl. split; [|done].
      exists x. split; [set_solver|done].
    + assert (quantities_ok (on x.1 hs ++ [x])) as Hok'.
      { pose proof (quantities_ok_on _ x.1 Hok) as Ho. rewrite on_app in Ho. unfold on in Ho at 2.
        by rewrite filter_cons, decide_True in Ho by done. }
      destruct (table hs !! x.1) as [info|] eqn:Ht; simpl.
      * destruct (adi_Exclusive info) eqn:He.
        -- rewrite Ht. destruct IH as [Hne Hent]. split; [by destruct (on x.1 hs)|]. rewrite He in *.
           destruct Hent as [(y & ? & ?) ?]. split; [|done]. exists y. set_solver.
        -- rewrite lookup_insert_eq. apply entry_merge; auto using on_on.
      * rewrite lookup_insert_eq. rewrite IH in *.
        apply (entry_merge (mkAllocatedDeviceInfo false ∅) []); auto.
  - rewrite app_nil_r. destruct (map_len0 x.2); [by rewrite lookup_insert_ne|].
    destruct (adi_Exclusive _); [done|by rewrite lookup_insert_ne].
Qed.
End Holdings.

(** * Safety of the whole cluster

    [safe]: no exclusive device is held twice, no shared capacity is exceeded,
    no GPU is held both whole and partitioned, no shared counter is overdrawn,
    counted over all the claims.  A valid allocation added to safe holdings
    gives safe holdings; so every reconcile with a fresh cache preserves
    safety, and so does creating and deleting claims. *)

Section Safety.
Context {Q : Type} `{Quantity Q, QuantityAdd Q, !QuantityLaws Q, !QuantityAddLaws Q} `{GoSort}.
Context (candidates : list CandidateDevice) (counterSets : CounterSetInventory).

Abbreviation holding := (DeviceKey * gmap string Q)%type.

(** What the slices have to satisfy: distinct device keys and amounts in the
    range where sums do not wrap. *)
Record inventory_ok : Prop := {
  io_keys : NoDup (cd_Key <$> candidates);
  io_devices d : d ∈ candidates →
    consumes_ok (spec_Consumes (cd_Spec d)) ∧ map_Forall (λ _, capacity_ok) (spec_Capacity (cd_Spec d));
  io_available : map_Forall (λ _, available_ok) counterSets;
}.

Definition held (d : CandidateDevice) (hs : list holding) : Prop := on (cd_Key d) hs ≠ [].

#[export] Instance held_dec d hs : Decision (held d hs).
Proof. unfold held. destruct (on _ hs); [right; tauto|by left]. Defined.

Definition charge (name unit : string) (x : holding) : Z := amount x.2 name unit.

(** What the held devices of a node draw from a counter. *)
Definition nodeDemand (hs : list holding) (node s c : string) : Z :=
  Zsum (λ d, demand (spec_Consumes (cd_Spec d)) s c)
    (filter (λ d, cd_NodeName d = node ∧ held d hs) candidates).

Record safe (hs : list holding) : Prop := {
  sf_once d : d ∈ candidates → spec_AllowMultipleAllocations (cd_Spec d) = false →
    (length (on (cd_Key d) hs) ≤ 1)%nat;
  sf_capacity d name cap : d ∈ candidates → spec_AllowMultipleAllocations (cd_Spec d) = true →
    spec_Capacity (cd_Spec d) !! name = Some cap →
    Zsum (charge name (cap_Unit cap)) (on (cd_Key d) hs) ≤ cap_Value cap;
  sf_groups d1 d2 : d1 ∈ candidates → d2 ∈ candidates → cd_NodeName d1 = cd_NodeName d2 →
    held d1 hs → held d2 hs →
    ¬ incompatible (deviceMetaFromSpec (cd_Spec d1)) (deviceMetaFromSpec (cd_Spec d2));
  sf_counters d k c : d ∈ candidates → held d hs → k ∈ spec_Consumes (cd_Spec d) →
    nodeDemand hs (cd_NodeName d) (cc_CounterSet k) c
      ≤ availableAt (default ∅ (counterSets !! cd_NodeName d)) (cc_CounterSet k) c;
}.

(** ** Basics *)

Lemma held_app d h1 h2 : held d (h1 ++ h2) ↔ held d h1 ∨ held d h2.
Proof. unfold held. rewrite on_app. destruct (on _ h1), (on _ h2); naive_solver. Qed.

Lemma held_perm d h1 h2 : h1 ≡ₚ h2 → held d h1 ↔ held d h2.
Proof.
  intros Hp. unfold held. assert (on (cd_Key d) h1 ≡ₚ on (cd_Key d) h2) as Ho by (by rewrite Hp).
  split; intros Hne Hnil; apply Hne; rewrite Hnil in Ho; by apply Permutation_nil.
Qed.

Lemma nodeDemand_ext h1 h2 node s c :
  (∀ d, d ∈ candidates → cd_NodeName d = node → held d h1 ↔ held d h2) →
  nodeDemand h1 node s c = nodeDemand h2 node s c.
Proof.
  intros Hh. unfold nodeDemand. f_equal. apply filter_ext_in. intros d Hd.
  specialize (Hh d Hd). naive_solver.
Qed.

Lemma safe_perm h1 h2 : h1 ≡ₚ h2 → safe h1 → safe h2.
Proof.
  intros Hp Hs. constructor.
  - intros d Hd Hex. rewrite <- Hp. by apply Hs.
  - intros d name cap Hd Hsh Hc. rewrite <- Hp. by apply Hs.
  - intros d1 d2 Hc1 Hc2 Hn Hh1 Hh2. apply Hs; try done; by eapply held_perm.
  - intros d k c Hd Hh Hk. rewrite (nodeDemand_ext h2 h1) by (intros; by apply held_perm).
    apply Hs; try done. by eapply held_perm.
Qed.

Lemma amount_nonneg (m : gmap string Q) name unit :
  (∀ q, m !! name = Some q → 0 ≤ Value q) → 0 ≤ amount m name unit.
Proof.
  unfold amount, quantityValue. intros Hq. destruct (m !! name) as [q|]; [|lia].
  specialize (Hq q eq_refl). destruct (str_eqb _ _); [|done].
  rewrite Z.quot_div_nonneg by lia. apply Z.div_pos; lia.
Qed.

Lemma charge_nonneg hs name unit x : quantities_ok hs → x ∈ hs → 0 ≤ charge name unit x.
Proof. intros Hok Hx. apply amount_nonneg. intros q Hq. by eapply qo_integral. Qed.

Hypothesis inv_ok : inventory_ok.

Lemma demand_candidate d s c : d ∈ candidates → 0 ≤ demand (spec_Consumes (cd_Spec d)) s c.
Proof. intros Hd. apply demand_nonneg. by apply (io_devices inv_ok). Qed.

Lemma candidate_key d1 d2 : d1 ∈ candidates → d2 ∈ candidates → cd_Key d1 = cd_Key d2 → d1 = d2.
Proof. apply NoDup_fmap_inj, inv_ok. Qed.

(** Giving devices back keeps safety. *)
Lemma safe_sub h1 h2 : quantities_ok (h1 ++ h2) → safe (h1 ++ h2) → safe h1.
Proof.
  intros Hq Hs. constructor.
  - intros d Hd Hex. pose proof (sf_once _ Hs d Hd Hex) as Hl. rewrite on_app, length_app in Hl. lia.
  - intros d name cap Hd Hsh Hc. pose proof (sf_capacity _ Hs d name cap Hd Hsh Hc) as Hl.
    rewrite on_app, Zsum_app in Hl.
    assert (0 ≤ Zsum (charge name (cap_Unit cap)) (on (cd_Key d) h2)); [|lia].
    apply Zsum_nonneg. intros x [_ Hx]%elem_of_on. eapply charge_nonneg; [done|]. apply elem_of_app. by right.
  - intros d1 d2 Hc1 Hc2 Hn Hh1 Hh2. apply (sf_groups _ Hs); try done; apply held_app; by left.
  - intros d k c Hd Hh Hk. etrans; [|apply (sf_counters _ Hs d k c Hd); [apply held_app; by left|done]].
    unfold nodeDemand. apply Zsum_subset.
    + eapply sublist_NoDup; [|apply sublist_filter]. apply (NoDup_fmap_1 cd_Key), inv_ok.
    + intros d'. rewrite !list_elem_of_filter, held_app. tauto.
    + intros d' [_ Hd']%list_elem_of_filter. by apply demand_candidate.
Qed.

(** ** A valid allocation on a node *)

Context (hs : list holding) (node : string) (devices : list CandidateDevice).
Context (requests : list (Request Q)) (picks : list (pick (Q:=Q))).
Hypothesis Hq : quantities_ok hs.
Hypothesis Hsafe : safe hs.
Hypothesis Hdev : devices ≡ₚ filter (λ d, cd_NodeName d = node) candidates.
Hypothesis Hva : valid_allocation devices requests (table hs) (default ∅ (counterSets !! node)) picks.
Hypothesis Hreq : Forall (λ r, requirements_ok (req_Capacity r)) requests.

Definition pickHolding (p : pick (Q:=Q)) : holding := (pk_key p, pk_consumed p).
Definition added : list holding := pickHolding <$> picks.

Lemma pick_candidate p : p ∈ picks → pk_dev p ∈ candidates ∧ cd_NodeName (pk_dev p) = node.
Proof.
  intros Hp. destruct (va_match _ _ _ _ _ Hva p Hp) as [Hd _].
  rewrite Hdev in Hd. by apply list_elem_of_filter in Hd as [].
Qed.

Lemma pick_request p : p ∈ picks → pk_req p ∈ requests.
Proof.
  intros Hp. destruct (va_counts _ _ _ _ _ Hva) as (segs & -> & Hf).
  apply list_elem_of_In, in_concat in Hp as (seg & Hseg & Hp). apply list_elem_of_In in Hseg, Hp.
  apply list_elem_of_lookup in Hseg as [i Hi]. destruct (Forall2_lookup_r _ _ _ _ _ Hf Hi) as (r & Hr & _ & Hall).
  rewrite Forall_forall in Hall. rewrite (Hall p Hp). by eapply list_elem_of_lookup_2.
Qed.

Lemma on_added k : on k added = pickHolding <$> filter (λ p, pk_key p = k) picks.
Proof.
  unfold on, added. generalize picks. intros l. induction l as [|p ps IH]; csimpl; [done|].
  rewrite !filter_cons. simpl. destruct (decide (pk_key p = k)); csimpl; by rewrite IH.
Qed.

(** Holding a picked device: it is the device of a pick. *)
Lemma held_added d : d ∈ candidates → held d added ↔ ∃ p, p ∈ picks ∧ pk_dev p = d.
Proof.
  intros Hd. unfold held. rewrite on_added. split.
  - destruct (filter _ picks) as [|p l] eqn:Hf; [done|]. intros _. exists p.
    assert (p ∈ filter (λ p, pk_key p = cd_Key d) picks) as Hp by (rewrite Hf; left).
    apply list_elem_of_filter in Hp as [Hk Hp]. split; [done|].
    destruct (pick_candidate p Hp) as [Hc _]. by apply candidate_key.
  - intros (p & Hp & <-) Hnil. apply (not_elem_of_nil p).
    apply fmap_nil_inv in Hnil. rewrite <- Hnil. by apply list_elem_of_filter.
Qed.

Lemma table_held d : is_Some (table hs !! cd_Key d) ↔ held d hs.
Proof.
  unfold held. pose proof (table_spec hs (cd_Key d) Hq) as Ht.
  destruct (table hs !! cd_Key d) as [info|].
  - destruct Ht as [Hne _]. split; [done|by eexists].
  - rewrite Ht. split; [by intros []|done].
Qed.

(** *** What a shared pick consumes *)

Definition scale (unit : string) : Z := if str_eqb unit CapacityUnitMiB then 1024 * 1024 else 1.

Lemma quantityFromValue_scale v unit : 0 ≤ v < 2 ^ 42 →
  Value (quantityFromValue (Q:=Q) v unit) = scale unit * v ∧ Integral (quantityFromValue (Q:=Q) v unit).
Proof.
  intros Hv. unfold quantityFromValue, scale. destruct (str_eqb unit CapacityUnitMiB).
  - rewrite (mul64_id v) by int64_lia. rewrite mul64_id by int64_lia.
    split; [rewrite Value_NewQuantity by int64_lia; lia|apply Integral_NewQuantity; int64_lia].
  - split; [rewrite Value_NewQuantity by int64_lia; lia|apply Integral_NewQuantity; int64_lia].
Qed.

Lemma pick_consumed p name q : p ∈ picks → pk_consumed p !! name = Some q →
  pk_shared p = true ∧ ∃ cap, spec_Capacity (pk_spec p) !! name = Some cap ∧
    Integral q ∧ 0 ≤ Value q ∧ Value q = scale (cap_Unit cap) * pk_charge name (cap_Unit cap) p.
Proof.
  intros Hp Hname. destruct (pk_shared p) eqn:Hsh.
  2: { by rewrite (va_exclusive_charge _ _ _ _ _ Hva p Hp Hsh), lookup_empty in Hname. }
  split; [done|]. pose proof (va_charge _ _ _ _ _ Hva p Hp Hsh) as Hc.
  destruct (pick_candidate p Hp) as [Hcand _]. destruct (io_devices inv_ok _ Hcand) as [_ Hcap].
  pose proof (pick_request p Hp) as Hr. rewrite Forall_forall in Hreq. specialize (Hreq _ Hr).
  unfold computeConsumedCapacity in Hc. destruct (map_len0 (spec_Capacity (pk_spec p))) eqn:H0'.
  { destruct (match req_Capacity (pk_req p) with None => true | Some r => map_len0 (cr_Requests r) end);
      simplify_eq. by rewrite <- Hc, lookup_empty in Hname. }
  destruct (negb _); [done|]. rewrite range_collect_Some in Hc. specialize (Hc name).
  destruct (spec_Capacity (pk_spec p) !! name) as [cap|] eqn:Hcn; [|congruence].
  exists cap. split; [done|]. destruct (Hcap name cap Hcn) as [Hcv Hpol].
  destruct Hc as (w & Hw & Hlook). rewrite Hname in Hlook. injection Hlook as <-.
  unfold consumeOne in Hw. destruct (calculateConsumedValue _ cap) as [v|] eqn:Hcv'; [|done]. simpl in Hw.
  destruct (cap_Value cap <? v) eqn:Hle; go_bool; simplify_eq.
  assert (0 ≤ v) as Hv0.
  { eapply calculateConsumedValue_nonneg; [by apply (Hcap name)| |done].
    intros q0 Hq0. unfold requestedFor in Hq0. destruct (req_Capacity (pk_req p)); simplify_eq/=; eauto. }
  destruct (quantityFromValue_scale v (cap_Unit cap)) as [Hv Hi]; [lia|].
  unfold pk_charge, amount. rewrite Hname, quantity_roundtrip by lia.
  split; [done|]. rewrite Hv. split; [|done]. unfold scale. destruct (str_eqb _ _); lia.
Qed.

(** *** What is held already *)

Lemma scale_pos unit : 1 ≤ scale unit ≤ 1024 * 1024.
Proof. unfold scale. destruct (str_eqb _ _); lia. Qed.

Lemma amount_div (m : gmap string Q) name unit :
  (∀ q, m !! name = Some q → 0 ≤ Value q) →
  amount m name unit = from_option Value 0 (m !! name) `div` scale unit.
Proof.
  unfold amount, quantityValue, scale. intros Hm.
  destruct (m !! name) as [q|]; simpl; [|by rewrite Z.div_0_l by (destruct (str_eqb _ _); lia)].
  specialize (Hm q eq_refl). destruct (str_eqb _ _); [|by rewrite Z.div_1_r].
  by rewrite Z.quot_div_nonneg by lia.
Qed.

Lemma heldValue_sum_nonneg k name : 0 ≤ Zsum (heldValue name) (on k hs).
Proof. apply Zsum_nonneg. intros x [_ Hx]%elem_of_on. by eapply heldValue_nonneg. Qed.

Lemma old_amount k name unit :
  (∀ info, table hs !! k = Some info → adi_Exclusive info = false) →
  amount (from_option adi_ConsumedCapacity ∅ (table hs !! k)) name unit
    = Zsum (heldValue name) (on k hs) `div` scale unit.
Proof.
  intros Hex. pose proof (table_spec hs k Hq) as Ht. pose proof (heldValue_sum_nonneg k name) as Hnn.
  destruct (table hs !! k) as [info|]; simpl.
  - destruct Ht as [_ Ht]. rewrite (Hex info eq_refl) in Ht. destruct Ht as [_ Ht]. specialize (Ht name).
    destruct (adi_ConsumedCapacity info !! name) as [q|] eqn:Hn.
    + destruct Ht as [_ Hv]. rewrite amount_div, Hn; simpl; [by rewrite Hv|].
      intros q' Hq'. simplify_eq. lia.
    + rewrite heldValue_none by done. rewrite amount_div, Hn by congruence. done.
  - rewrite Ht. rewrite amount_div, lookup_empty; [done|]. intros q. by rewrite lookup_empty.
Qed.

Lemma charge_heldValue k name unit :
  Zsum (charge name unit) (on k hs) ≤ Zsum (heldValue name) (on k hs) `div` scale unit.
Proof.
  pose proof (scale_pos unit) as Hs. apply Z.div_le_lower_bound; [lia|]. rewrite <- Zsum_scale.
  apply Zsum_le. intros x [_ Hx]%elem_of_on. unfold charge.
  rewrite amount_div by (intros q Hxq; by eapply qo_integral). fold (heldValue name x).
  apply Z.mul_div_le. lia.
Qed.

(** *** The new holdings *)

Lemma heldValue_pick p name cap : p ∈ picks → pk_shared p = true →
  spec_Capacity (pk_spec p) !! name = Some cap →
  heldValue name (pickHolding p) = scale (cap_Unit cap) * pk_charge name (cap_Unit cap) p.
Proof.
  intros Hp Hsh Hcap. unfold heldValue, pickHolding. simpl.
  destruct (pk_consumed p !! name) as [q|] eqn:Hn; simpl.
  - destruct (pick_consumed p name q Hp Hn) as (_ & cap' & Hcap' & _ & _ & Hv). by simplify_eq.
  - unfold pk_charge, amount. rewrite Hn. lia.
Qed.

(** The picks of a key are all of one device. *)
Lemma same_device p p' : p ∈ picks → p' ∈ picks → pk_key p' = pk_key p → pk_dev p' = pk_dev p.
Proof. intros Hp Hp' Hk. by apply candidate_key; [apply pick_candidate..|]. Qed.

Lemma picks_of_key p : p ∈ picks → pk_shared p = true →
  filter (λ q, pk_key q = pk_key p) picks
    = filter (λ q, pk_shared q = true ∧ pk_key q = pk_key p) picks.
Proof.
  intros Hp Hsh. apply filter_ext_in. intros q Hqp. split; [|by intros [_ ?]]. intros Hk.
  split; [|done]. unfold pk_shared, pk_spec. by rewrite (same_device p q).
Qed.

(** The capacity of a shared pick, old and new holdings together. *)
Lemma total_le p name cap : p ∈ picks → pk_shared p = true →
  spec_Capacity (pk_spec p) !! name = Some cap →
  Zsum (heldValue name) (on (pk_key p) hs) `div` scale (cap_Unit cap) +
  Zsum (pk_charge name (cap_Unit cap)) (filter (λ q, pk_key q = pk_key p) picks) ≤ cap_Value cap.
Proof.
  intros Hp Hsh Hcap. rewrite <- old_amount.
  - rewrite picks_of_key by done. by apply (va_capacity _ _ _ _ _ Hva).
  - intros info. by apply (va_shared _ _ _ _ _ Hva).
Qed.

Lemma added_total k name : Zsum (heldValue name) (on k (hs ++ added)) < 2 ^ 62.
Proof.
  rewrite on_app, Zsum_app, on_added, Zsum_fmap. pose proof (qo_total _ Hq k name) as Hold.
  pose proof (heldValue_sum_nonneg k name) as Hnn.
  destruct (filter (λ p, pk_key p = k) picks) as [|p l] eqn:Hf; [simpl; lia|]. rewrite <- Hf.
  assert (p ∈ filter (λ p, pk_key p = k) picks) as Hp by (rewrite Hf; left). clear Hf.
  apply list_elem_of_filter in Hp as [<- Hp].
  destruct (pk_shared p) eqn:Hsh.
  - destruct (spec_Capacity (pk_spec p) !! name) as [cap|] eqn:Hcap.
    + pose proof (total_le p name cap Hp Hsh Hcap) as Ht.
      rewrite (Zsum_ext _ (λ q, scale (cap_Unit cap) * pk_charge name (cap_Unit cap) q)), Zsum_scale.
      2: { intros q [Hk Hqp]%list_elem_of_filter. unfold pk_shared, pk_spec in *.
           rewrite <- (same_device p q) in Hsh, Hcap by done. by apply heldValue_pick. }
      set (old := Zsum (heldValue _) _) in *. set (new := Zsum (pk_charge _ _) _) in *.
      destruct (pick_candidate p Hp) as [Hc _]. destruct (io_devices inv_ok _ Hc) as [_ Hcok].
      destruct (Hcok name cap Hcap) as [Hcv _]. pose proof (scale_pos (cap_Unit cap)) as Hs.
      pose proof (Z.mul_succ_div_gt old (scale (cap_Unit cap)) ltac:(lia)).
      assert (scale (cap_Unit cap) * (cap_Value cap + 1) ≤ 1024 * 1024 * 2 ^ 42) by nia.
      set (quo := old `div` _) in *. set (u := scale _) in *. clearbody quo u old new.
      assert (u * (quo + new + 1) ≤ u * (cap_Value cap + 1)) by (apply Z.mul_le_mono_nonneg_l; lia). lia.
    + rewrite (Zsum_zero (λ q, heldValue name (pickHolding q))); [lia|].
      intros q [Hk Hqp]%list_elem_of_filter. unfold heldValue, pickHolding. simpl.
      destruct (pk_consumed q !! name) as [v|] eqn:Hn; [|done].
      destruct (pick_consumed q name v Hqp Hn) as (_ & cap & Hcap' & _).
      unfold pk_spec in *. rewrite (same_device p q) in Hcap' by done. congruence.
  - rewrite (Zsum_zero (λ q, heldValue name (pickHolding q))); [lia|].
    intros q [Hk Hqp]%list_elem_of_filter. unfold heldValue, pickHolding. simpl.
    rewrite (va_exclusive_charge _ _ _ _ _ Hva q Hqp); [done|].
    unfold pk_shared, pk_spec in *. by rewrite (same_device p q).
Qed.

Lemma added_quantities : quantities_ok (hs ++ added).
Proof.
  split; [|apply added_total]. intros x name q [Hx|Hx]%elem_of_app Hn; [by eapply qo_integral|].
  apply list_elem_of_fmap in Hx as (p & -> & Hp).
  destruct (pick_consumed p name q Hp Hn) as (_ & cap & _ & Hi & H0' & _). done.
Qed.

Lemma NoDup_filter_key {A K} `{EqDecision K} (f : A → K) (l : list A) k :
  NoDup (f <$> l) → (length (filter (λ x, f x = k) l) ≤ 1)%nat.
Proof.
  induction l as [|a l IH]; csimpl; [lia|]. intros Hnd. inversion_clear Hnd as [|?? Hni Hnd'].
  rewrite filter_cons. case_decide as Hk; [|by apply IH]. rewrite filter_none_in; [done|].
  intros x Hx Hxk. apply Hni. rewrite Hk, <- Hxk. by apply list_elem_of_fmap_2.
Qed.

Lemma added_once d : d ∈ candidates → spec_AllowMultipleAllocations (cd_Spec d) = false →
  (length (on (cd_Key d) (hs ++ added)) ≤ 1)%nat.
Proof.
  intros Hd Hex. rewrite on_app, on_added, length_app, length_fmap.
  destruct (filter (λ p, pk_key p = cd_Key d) picks) as [|p l] eqn:Hf.
  { simpl. rewrite Nat.add_0_r. by apply Hsafe. }
  assert (p ∈ filter (λ p, pk_key p = cd_Key d) picks) as Hp by (rewrite Hf; left).
  apply list_elem_of_filter in Hp as [Hk Hp].
  assert (∀ q, q ∈ picks → pk_key q = cd_Key d → pk_shared q = false) as Hsh.
  { intros q Hqp Hqk. unfold pk_shared, pk_spec. destruct (pick_candidate q Hqp) as [Hc _].
    by rewrite (candidate_key (pk_dev q) d). }
  assert (on (cd_Key d) hs = []) as Hfree.
  { pose proof (va_exclusive_free _ _ _ _ _ Hva p Hp (Hsh p Hp Hk)) as Hnone. rewrite Hk in Hnone.
    pose proof (table_spec hs (cd_Key d) Hq) as Ht. by rewrite Hnone in Ht. }
  rewrite Hfree, <- Hf.
  rewrite (filter_ext_in _ (λ q, pk_key q = cd_Key d ∧ pk_shared q = false)) by naive_solver.
  rewrite <- list_filter_filter. apply NoDup_filter_key, (va_exclusive_once _ _ _ _ _ Hva).
Qed.

Lemma added_capacity d name cap : d ∈ candidates →
  spec_AllowMultipleAllocations (cd_Spec d) = true → spec_Capacity (cd_Spec d) !! name = Some cap →
  Zsum (charge name (cap_Unit cap)) (on (cd_Key d) (hs ++ added)) ≤ cap_Value cap.
Proof.
  intros Hd Hsh Hcap. rewrite on_app, Zsum_app, on_added, Zsum_fmap.
  destruct (filter (λ p, pk_key p = cd_Key d) picks) as [|p l] eqn:Hf.
  { simpl. rewrite Z.add_0_r. by apply Hsafe. }
  assert (p ∈ filter (λ p, pk_key p = cd_Key d) picks) as Hp by (rewrite Hf; left).
  rewrite <- Hf. clear Hf. apply list_elem_of_filter in Hp as [Hk Hp].
  destruct (pick_candidate p Hp) as [Hc _]. assert (pk_dev p = d) as Hpd by (by apply candidate_key).
  rewrite <- Hk. etrans; [|apply (total_le p name cap Hp)]; unfold pk_shared, pk_spec; rewrite ?Hpd; try done.
  apply Z.add_le_mono_r, charge_heldValue.
Qed.

Lemma incompatible_sym m1 m2 : incompatible m1 m2 → incompatible m2 m1.
Proof. unfold incompatible. naive_solver. Qed.

Lemma added_groups d1 d2 : d1 ∈ candidates → d2 ∈ candidates → cd_NodeName d1 = cd_NodeName d2 →
  held d1 (hs ++ added) → held d2 (hs ++ added) →
  ¬ incompatible (deviceMetaFromSpec (cd_Spec d1)) (deviceMetaFromSpec (cd_Spec d2)).
Proof.
  intros Hc1 Hc2 Hn. rewrite !held_app.
  assert (∀ p d, p ∈ picks → d ∈ candidates → cd_NodeName (pk_dev p) = cd_NodeName d → held d hs →
    ¬ incompatible (pk_meta p) (deviceMetaFromSpec (cd_Spec d))) as Hmix.
  { intros p d Hp Hd Hnode Hh. apply (va_groups_allocated _ _ _ _ _ Hva); [done| |by apply table_held].
    rewrite Hdev. apply list_elem_of_filter. split; [|done]. rewrite <- Hnode. by apply pick_candidate. }
  rewrite !held_added by done. intros [Hh1|(p1 & Hp1 & <-)] [Hh2|(p2 & Hp2 & <-)].
  - by apply Hsafe.
  - intros Hi%incompatible_sym. by apply (Hmix p2 d1).
  - by apply Hmix.
  - by apply (va_groups _ _ _ _ _ Hva).
Qed.

(** *** Counters *)

Lemma nodeDemand_allocated s c :
  nodeDemand hs node s c ≤ allocatedDemand devices (map_to_list (table hs)).*1 s c.
Proof.
  unfold nodeDemand, allocatedDemand.
  assert (NoDup (cd_Key <$> devices)) as Hnd.
  { rewrite Hdev. eapply sublist_NoDup; [apply inv_ok|]. apply fmap_sublist, sublist_filter. }
  assert (∀ d, d ∈ filter (λ d, cd_NodeName d = node ∧ held d hs) candidates →
    indexDevices devices !! cd_Key d = Some d) as Hidx.
  { intros d [[Hn _] Hd]%list_elem_of_filter. unfold indexDevices. apply (lookup_fill cd_Key id); [done|].
    rewrite Hdev. by apply list_elem_of_filter. }
  erewrite (Zsum_ext _ (λ d, match indexDevices devices !! cd_Key d with
    | Some d => demand (spec_Consumes (cd_Spec d)) s c | None => 0 end));
    [|intros d Hd; by rewrite (Hidx d Hd)].
  rewrite <- (Zsum_fmap (λ key, match indexDevices devices !! key with
    | Some d => demand (spec_Consumes (cd_Spec d)) s c | None => 0 end) cd_Key).
  apply Zsum_subset.
  - eapply sublist_NoDup; [apply inv_ok|]. apply fmap_sublist, sublist_filter.
  - intros k Hk. apply list_elem_of_fmap in Hk as (d & -> & [[_ Hh] Hd]%list_elem_of_filter).
    apply table_held in Hh as [info Hi]. apply list_elem_of_fmap. exists (cd_Key d, info).
    by rewrite elem_of_map_to_list.
  - intros k _. destruct (indexDevices devices !! k) as [d|] eqn:Hd; [|lia].
    apply lookup_indexDevices_inv in Hd as [Hd _]. rewrite Hdev in Hd.
    apply list_elem_of_filter in Hd as [_ Hd]. by apply demand_candidate.
Qed.

Lemma nodeDemand_added s c :
  nodeDemand (hs ++ added) node s c
    ≤ nodeDemand hs node s c + Zsum (λ p, demand (spec_Consumes (pk_spec p)) s c) picks.
Proof.
  unfold nodeDemand at 1.
  rewrite (filter_partition _ (λ d, cd_NodeName d = node ∧ held d hs)
             (λ d, cd_NodeName d = node ∧ ¬ held d hs ∧ held d added)).
  2: { intros d _. rewrite held_app. destruct (decide (held d hs)); naive_solver. }
  rewrite Zsum_app. apply Z.add_le_mono_l.
  unfold pk_spec. rewrite <- (Zsum_fmap (λ d, demand (spec_Consumes (cd_Spec d)) s c) pk_dev).
  apply Zsum_subset.
  - eapply sublist_NoDup; [|apply sublist_filter]. apply (NoDup_fmap_1 cd_Key), inv_ok.
  - intros d [(_ & _ & Hh) Hd]%list_elem_of_filter. apply held_added in Hh as (p & Hp & <-); [|done].
    by apply list_elem_of_fmap_2.
  - intros d Hd. apply list_elem_of_fmap in Hd as (p & -> & Hp). by apply demand_candidate, pick_candidate.
Qed.

Lemma added_counters d k c : d ∈ candidates → held d (hs ++ added) → k ∈ spec_Consumes (cd_Spec d) →
  nodeDemand (hs ++ added) (cd_NodeName d) (cc_CounterSet k) c
    ≤ availableAt (default ∅ (counterSets !! cd_NodeName d)) (cc_CounterSet k) c.
Proof.
  intros Hd Hh Hk. destruct (decide (cd_NodeName d = node)) as [Hn|Hn].
  - rewrite Hn. etrans; [apply nodeDemand_added|].
    destruct (decide (Exists (λ p, cc_CounterSet k ∈ cc_CounterSet <$> spec_Consumes (pk_spec p)) picks))
      as [Hex|Hnone].
    + apply Exists_exists in Hex as (p & Hp & Hs). apply list_elem_of_fmap in Hs as (k' & Hs & Hk').
      rewrite Hs. etrans; [|by apply (va_counters _ _ _ _ _ Hva p k' c)].
      apply Z.add_le_mono_r, nodeDemand_allocated.
    + rewrite <- Forall_Exists_neg, Forall_forall in Hnone.
      rewrite (Zsum_zero _ picks) by (intros p Hp; by apply demand_notin, Hnone).
      rewrite Z.add_0_r, <- Hn. apply Hsafe; [done| |done].
      apply held_app in Hh as [Hh|Hh]; [done|]. apply held_added in Hh as (p & Hp & <-); [|done].
      destruct (Hnone p Hp). by apply list_elem_of_fmap_2.
  - assert (∀ d', d' ∈ candidates → cd_NodeName d' = cd_NodeName d →
      held d' (hs ++ added) ↔ held d' hs) as Hsame.
    { intros d' Hd' Hn'. rewrite held_app. split; [|by left]. intros [Hh'|Hh']; [done|].
      apply held_added in Hh' as (p & Hp & <-); [|done]. destruct (pick_candidate p Hp). congruence. }
    rewrite (nodeDemand_ext _ hs) by done. apply Hsafe; [done| |done]. by apply Hsame.
Qed.

Lemma added_safe : safe (hs ++ added).
Proof.
  constructor; [apply added_once|apply added_capacity|apply added_groups|apply added_counters].
Qed.
End Safety.

(** ** The cluster *)

Section Cluster.
Context {Q : Type} `{Quantity Q, QuantityAdd Q, !QuantityLaws Q, !QuantityAddLaws Q} `{GoSort}.
Context `{CelCompiler Q} `{ApiErrors}.

(** Requested amounts in the range where sums do not wrap. *)
Definition requests_in_range (claim : ResourceClaim Q) : Prop :=
  ∀ r ex amounts, r ∈ claim_Requests claim → dr_Exactly r = Some ex → ex_Capacity ex = Some amounts →
    map_Forall (λ _ q, 0 ≤ Value q < 2 ^ 62) amounts.

Abbreviation candidatesOf slices := (BuildCandidates DefaultDriverName slices).
Abbreviation countersOf slices := (BuildCounterSets DefaultDriverName slices).

Record cluster_ok (objects : Objects Q) : Prop := {
  ck_keys : NoDup (AttachKey <$> ob_claims objects);
  ck_requests c : c ∈ ob_claims objects → requests_in_range c;
  ck_quantities : quantities_ok (holdings (ob_claims objects));
  ck_safe : safe (candidatesOf (ob_slices objects)) (countersOf (ob_slices objects))
              (holdings (ob_claims objects));
}.

(** *** A new allocation adds its holdings *)

Lemma setAllocation_other key alloc (l : list (ResourceClaim Q)) :
  key ∉ AttachKey <$> l → setAllocation key alloc <$> l = l.
Proof.
  induction l as [|c l IH]; csimpl; intros Hk; [done|]. rewrite IH by set_solver. f_equal.
  unfold setAllocation. rewrite decide_False; [done|]. set_solver.
Qed.

Lemma holdings_app (l1 l2 : list (ResourceClaim Q)) : holdings (l1 ++ l2) = holdings l1 ++ holdings l2.
Proof. unfold holdings, resultsOf. by rewrite fmap_app, concat_app, fmap_app. Qed.

Lemma holdings_cons (c : ResourceClaim Q) l : holdings (c :: l) = (holdingOf <$> claimResults c) ++ holdings l.
Proof. unfold holdings, resultsOf. csimpl. by rewrite fmap_app. Qed.

Lemma holdings_patched claim alloc (claims : list (ResourceClaim Q)) :
  NoDup (AttachKey <$> claims) → claim ∈ claims → claim_Allocation claim = None →
  holdings (setAllocation (AttachKey claim) alloc <$> claims)
    ≡ₚ holdings claims ++ (holdingOf <$> aar_Results alloc).
Proof.
  intros Hnd Hin Hnone. apply list_elem_of_split in Hin as (l1 & l2 & ->).
  rewrite fmap_app, fmap_cons in Hnd. apply NoDup_app in Hnd as (_ & Hd1 & Hnd2).
  inversion_clear Hnd2 as [|?? Hni _].
  rewrite fmap_app, fmap_cons, !setAllocation_other
    by first [done|intros Hk; apply (Hd1 _ Hk); left].
  unfold setAllocation. rewrite decide_True by done.
  rewrite !holdings_app, !holdings_cons. unfold claimResults. rewrite Hnone. simpl.
  rewrite <- app_assoc. apply Permutation_app_head, Permutation_app_comm.
Qed.

Lemma resultOf_holding opts uuid (dev : AllocatedDevice Q) :
  holdingOf (resultOf opts uuid dev)
    = (mkDeviceKey (ad_Driver dev) (ad_Pool dev) (ad_Device dev), ad_ConsumedCapacity dev).
Proof.
  unfold holdingOf, resultOf, resultKey. simpl. f_equal.
  destruct (map_len0 (ad_ConsumedCapacity dev)) eqn:Hl; simpl; [|done]. by apply map_len0_true in Hl.
Qed.

Lemma candidate_identity (slices : list (ResourceSlice Q)) d : d ∈ candidatesOf slices →
  mkDeviceKey (cd_Driver d) (cd_Pool d) (spec_Name (cd_Spec d)) = cd_Key d.
Proof.
  rewrite elem_of_BuildCandidates. intros (s & dev & _ & _ & _ & Hc). unfold candidateOf in Hc.
  destruct (deviceNodeName s dev); simplify_eq/=. done.
Qed.

Lemma allocation_holdings (slices : list (ResourceSlice Q)) opts uuids (picks : list (pick (Q:=Q))) :
  (∀ p, p ∈ picks → pk_dev p ∈ candidatesOf slices) →
  holdingOf <$> imap (λ i dev, resultOf opts (uuids i) dev) (renderPick <$> picks) = added picks.
Proof.
  intros Hp. unfold added. apply list_eq. intros i.
  rewrite !list_lookup_fmap, list_lookup_imap, list_lookup_fmap.
  destruct (picks !! i) as [p|] eqn:Hi; simpl; [|done]. f_equal. rewrite resultOf_holding. simpl.
  unfold pickHolding, pk_key. f_equal. apply (candidate_identity slices), Hp. by eapply list_elem_of_lookup_2.
Qed.

Lemma allocation_results uuids now (claim : ResourceClaim Q) result classes opts alloc :
  BuildAllocationResultWithOptions uuids now (Some claim) (Some result) classes opts = Ok (Some alloc) →
  aar_Results alloc = imap (λ i dev, resultOf opts (uuids i) dev) (ar_Devices result).
Proof.
  unfold BuildAllocationResultWithOptions.
  destruct (buildAllocationConfig (Some claim) classes); [|done]. by intros [= <-].
Qed.

(** *** The input of the allocator is well formed *)

Context (env : Env Q) (setup : Setup).
Hypothesis order_ok : ∀ m, env_allocatedOrder env m ≡ₚ (map_to_list m).*1.

Lemma requests_ok claim classes requests :
  requests_in_range claim → BuildRequests (Some claim) classes = Ok requests →
  Forall (λ r, 1 ≤ req_Count r ∧ requirements_ok (req_Capacity r)) requests.
Proof.
  intros Hr [_ Hf]%BuildRequests_for. apply Forall_forall. intros req Hin.
  apply list_elem_of_lookup in Hin as [i Hi].
  destruct (Forall2_lookup_r _ _ _ _ _ Hf Hi) as (dr & Hdr & Hfor).
  apply list_elem_of_lookup_2 in Hdr.
  destruct Hfor as (ex & class & sels & Hex & _ & _ & _ & _ & _ & _ & ->). simpl.
  split; [lia|]. intros r name q Hsome Hq. destruct (ex_Capacity ex) as [amounts|] eqn:Hcap; [|done].
  case_decide; [done|]. injection Hsome as <-. by apply (Hr dr ex amounts Hdr Hex Hcap name).
Qed.

Lemma allocator_input_ok objects claim classes requests :
  inventory_ok (candidatesOf (ob_slices objects)) (countersOf (ob_slices objects)) →
  cluster_ok objects → requests_in_range claim → BuildRequests (Some claim) classes = Ok requests →
  input_ok (mkInput requests (candidatesOf (ob_slices objects)) (allocatedDevices (ob_claims objects))
              (countersOf (ob_slices objects))).
Proof.
  intros Hinv Hck Hr Hb n ds Hperm. simpl in *. rewrite allocatedDevices_table.
  assert (∀ d, d ∈ ds → d ∈ candidatesOf (ob_slices objects) ∧ cd_NodeName d = n) as Hin.
  { intros d. rewrite Hperm, list_elem_of_filter. tauto. }
  pose proof (ck_quantities _ Hck) as Hq. constructor.
  - rewrite Hperm. eapply sublist_NoDup; [apply Hinv|]. apply fmap_sublist, sublist_filter.
  - intros d [Hd _]%Hin. by apply (io_devices _ _ Hinv).
  - destruct (countersOf (ob_slices objects) !! n) eqn:Hn; simpl; [by eapply (io_available _ _ Hinv)|].
    apply map_Forall_empty.
  - intros d [Hd _]%Hin. by apply (io_devices _ _ Hinv).
  - intros r Hrin. pose proof (requests_ok _ _ _ Hr Hb) as Hall. rewrite Forall_forall in Hall. by apply Hall.
  - intros key info name q Hinfo Hname. pose proof (table_spec _ key Hq) as Ht. rewrite Hinfo in Ht.
    destruct Ht as [_ Ht]. destruct (adi_Exclusive info).
    + destruct Ht as [_ Ht]. by rewrite Ht, lookup_empty in Hname.
    + destruct Ht as [_ Ht]. specialize (Ht name). rewrite Hname in Ht. destruct Ht as [_ ->].
      split; [by apply heldValue_sum_nonneg|apply (qo_total _ Hq)].
  - intros d1 d2 [Hd1 Hn1]%Hin [Hd2 Hn2]%Hin Ha1 Ha2.
    apply (sf_groups _ _ _ (ck_safe _ Hck)); [done|done|congruence|by apply table_held..].
Qed.

(** A computed allocation keeps the cluster safe. *)
Lemma computed_ok objects claim alloc :
  inventory_ok (candidatesOf (ob_slices objects)) (countersOf (ob_slices objects)) →
  cluster_ok objects → claim ∈ ob_claims objects →
  computed env (su_options setup) objects claim alloc →
  cluster_ok (patched (AttachKey claim) alloc objects).
Proof.
  intros Hinv Hck Hin [Hnone (classes & requests & result & _ & Hb & Hall & Hres)].
  pose proof (ck_requests _ Hck _ Hin) as Hr.
  pose proof (allocator_input_ok objects claim classes requests Hinv Hck Hr Hb) as Hok.
  apply Allocate_valid_run in Hall as (devices & picks & _ & Hdev & Hdevs & _ & Hva);
    [|done|intros; apply order_ok].
  cbn [in_Candidates in_Allocated in_Requests in_CounterSets] in *.
  rewrite allocatedDevices_table in Hva.
  assert (Forall (λ r, requirements_ok (req_Capacity r)) requests) as Hreq.
  { eapply Forall_impl; [by eapply requests_ok|]. naive_solver. }
  assert (holdingOf <$> aar_Results alloc = added picks) as Hadd.
  { rewrite (allocation_results _ _ _ _ _ _ _ Hres), Hdevs.
    apply (allocation_holdings (ob_slices objects)). intros p Hp.
    by apply (pick_candidate _ _ _ _ _ _ _ Hdev Hva p Hp). }
  pose proof (holdings_patched claim alloc _ (ck_keys _ Hck) Hin Hnone) as Hp. rewrite Hadd in Hp.
  constructor.
  - rewrite patched_keys. apply Hck.
  - intros c Hc. simpl in Hc. apply list_elem_of_fmap in Hc as (c0 & -> & Hc0).
    pose proof (ck_requests _ Hck c0 Hc0) as Hr0. unfold setAllocation. by case_decide.
  - eapply quantities_ok_perm; [symmetry; exact Hp|].
    eapply (added_quantities _ _ Hinv); [apply Hck|exact Hdev|exact Hva|exact Hreq].
  - eapply safe_perm; [symmetry; exact Hp|].
    eapply (added_safe _ _ Hinv); [apply Hck|apply Hck|exact Hdev|exact Hva].
Qed.

Lemma writes_ok key w w' :
  inventory_ok (candidatesOf (ob_slices (w_server w))) (countersOf (ob_slices (w_server w))) →
  w_cache w = w_server w → cluster_ok (w_server w) → writes env setup key w w' → cluster_ok (w_server w').
Proof.
  intros Hinv Hfresh Hck [_ [->|(claim & alloc & Hf & _ & Hco & ->)]]; [done|].
  rewrite Hfresh in *. apply findClaim_Some in Hf as [Hin <-]. by apply computed_ok.
Qed.
End Cluster.

Section Runs.
Context {Q : Type} `{Quantity Q, QuantityAdd Q, !QuantityLaws Q, !QuantityAddLaws Q} `{GoSort}.
Context `{CelCompiler Q} `{ApiErrors}.

Definition withClaims (objects : Objects Q) (claims : list (ResourceClaim Q)) : Objects Q :=
  mkObjects claims (ob_slices objects) (ob_classes objects).

(** A claim whose allocation is given back. *)
Definition released (c : ResourceClaim Q) : ResourceClaim Q :=
  mkResourceClaim (claim_Namespace c) (claim_Name c) (claim_Requests c) (claim_Constraints c)
    (claim_Config c) None.

(** What happens in the cluster: a reconcile with a fresh cache, whatever
    calls fail; a claim is created, deleted, or released by its last user. *)
Inductive cluster_step : Objects Q → Objects Q → Prop :=
| step_reconcile env setup key w h r w' h' :
    (∀ m, env_allocatedOrder env m ≡ₚ (map_to_list m).*1) → w_cache w = w_server w →
    Reconcile env setup key w h = (r, (w', h')) →
    cluster_step (w_server w) (w_server w')
| step_create objects claim :
    AttachKey claim ∉ AttachKey <$> ob_claims objects → claim_Allocation claim = None →
    requests_in_range claim →
    cluster_step objects (withClaims objects (ob_claims objects ++ [claim]))
| step_delete objects l1 claim l2 :
    ob_claims objects = l1 ++ claim :: l2 → cluster_step objects (withClaims objects (l1 ++ l2))
| step_release objects l1 claim l2 :
    ob_claims objects = l1 ++ claim :: l2 →
    cluster_step objects (withClaims objects (l1 ++ released claim :: l2)).

Definition slices_ok (slices : list (ResourceSlice Q)) : Prop :=
  inventory_ok (BuildCandidates DefaultDriverName slices) (BuildCounterSets DefaultDriverName slices).

(** Giving holdings back keeps a cluster well formed. *)
Lemma cluster_ok_fewer objects claims hs :
  slices_ok (ob_slices objects) → cluster_ok objects →
  NoDup (AttachKey <$> claims) → (∀ c, c ∈ claims → requests_in_range c) →
  holdings (ob_claims objects) ≡ₚ holdings claims ++ hs →
  cluster_ok (withClaims objects claims).
Proof.
  intros Hinv Hck Hnd Hreq Hp.
  pose proof (quantities_ok_perm _ _ Hp (ck_quantities _ Hck)) as Hq.
  constructor; simpl; [done|done|by eapply quantities_ok_sub|].
  eapply safe_sub; [done|exact Hq|]. eapply safe_perm; [exact Hp|apply Hck].
Qed.

Lemma cluster_step_ok o o' :
  slices_ok (ob_slices o) → cluster_ok o → cluster_step o o' →
  cluster_ok o' ∧ ob_slices o' = ob_slices o.
Proof.
  intros Hinv Hck Hstep. destruct Hstep as
    [env setup key w h r w' h' Horder Hfresh Hrec|o claim Hkey Hnone Hr|o l1 claim l2 Heq|o l1 claim l2 Heq].
  - apply Reconcile_writes in Hrec as Hw. split; [by eapply writes_ok|].
    destruct Hw as [_ [->|(? & ? & _ & _ & _ & ->)]]; done.
  - split; [|done].
    assert (holdings (ob_claims o ++ [claim]) = holdings (ob_claims o)) as Hh.
    { rewrite holdings_app, holdings_cons. unfold claimResults. rewrite Hnone. by rewrite app_nil_r. }
    constructor; simpl; rewrite ?Hh; try apply Hck.
    + rewrite fmap_app. apply NoDup_app. split; [apply Hck|]. csimpl. split; [|apply NoDup_singleton].
      intros k Hk Hk'%list_elem_of_singleton. by subst.
    + intros c [Hc|Hc%list_elem_of_singleton]%elem_of_app; [by apply (ck_requests _ Hck)|by subst].
  - split; [|done]. apply (cluster_ok_fewer _ _ (holdingOf <$> claimResults claim)); [done..| | |].
    + pose proof (ck_keys _ Hck) as Hnd. rewrite Heq in Hnd. eapply sublist_NoDup; [done|].
      apply fmap_sublist, sublist_app; [done|]. by apply sublist_cons.
    + intros c Hc. apply (ck_requests _ Hck). rewrite Heq. set_solver.
    + rewrite Heq, !holdings_app, holdings_cons, <- app_assoc.
      apply Permutation_app_head, Permutation_app_comm.
  - split; [|done]. apply (cluster_ok_fewer _ _ (holdingOf <$> claimResults claim)); [done..| | |].
    + pose proof (ck_keys _ Hck) as Hnd. rewrite Heq in Hnd. by rewrite fmap_app, fmap_cons in *.
    + intros c [Hc|[->|Hc]%elem_of_cons]%elem_of_app.
      * apply (ck_requests _ Hck). rewrite Heq. set_solver.
      * assert (requests_in_range claim) as Hrc; [|exact Hrc]. apply (ck_requests _ Hck). rewrite Heq. set_solver.
      * apply (ck_requests _ Hck). rewrite Heq. set_solver.
    + rewrite Heq, !holdings_app, !holdings_cons. simpl. rewrite <- app_assoc.
      apply Permutation_app_head, Permutation_app_comm.
Qed.

(** A cluster without allocations is safe. *)
Lemma cluster_ok_fresh objects :
  slices_ok (ob_slices objects) → NoDup (AttachKey <$> ob_claims objects) → (∀ c, c ∈ ob_claims objects → requests_in_range c) →
  (∀ c, c ∈ ob_claims objects → claim_Allocation c = None) → cluster_ok objects.
Proof.
  intros Hinv Hnd Hreq Hnone.
  assert (holdings (ob_claims objects) = []) as Hh.
  { clear Hnd Hreq. induction (ob_claims objects) as [|c l IH]; [done|]. rewrite holdings_cons, IH.
    - unfold claimResults. by rewrite Hnone by left.
    - intros c' Hc'. apply Hnone. by right. }
  constructor; [done|done| |]; rewrite Hh.
  - constructor; [intros ??? Hx; by apply elem_of_nil in Hx|intros; simpl; lia].
  - constructor; [intros; simpl; lia| |done|done]. intros d name cap Hd _ Hcap. simpl.
    destruct (io_devices _ _ Hinv d Hd) as [_ Hok]. by destruct (Hok name cap Hcap) as [[] _].
Qed.

(** C1: whatever claims are created, deleted and released, and whichever API
    calls fail, reconciles that read a fresh cache keep the cluster safe: over
    all the claims, no exclusive device is allocated twice, no shared device
    is charged more than its capacity, no GPU is allocated both whole and
    partitioned, and no shared counter is overdrawn. *)
Theorem cluster_safe o o' :
  slices_ok (ob_slices o) → cluster_ok o → rtc cluster_step o o' → cluster_ok o'.
Proof.
  intros Hinv Hck Hsteps. induction Hsteps as [|o o1 o' Hstep _ IH]; [done|].
  destruct (cluster_step_ok _ _ Hinv Hck Hstep) as [Hck1 Hsl]. apply IH; [by rewrite Hsl|done].
Qed.
End Runs.
