(* ===== verification/ClusterExamples.v ===== *)
(** * A concrete cluster

    Two nodes with GPUs on which the allocator and the controller are run, and
    the witnesses of their theorems. *)

From S2P Require Import Prelude GoLib DeviceModel Accounting Allocator AllocatorSpec K8sApi Render K8sAllocator.
From S2P Require Import K8sAllocatorSpec Effects Reconciler DraController ClusterSafety.

(** * The allocator on a concrete cluster

    Two nodes.  On [node-a] one GPU offers itself whole and as a MIG
    partition over a shared counter set, and another partition of it is
    already allocated; on [node-b] a shared GPU offers its memory in steps of
    ten per cent.  The theorems of [AllocatorSpec] are applied to it. *)

Module Cluster.

Definition qty (v : Z) : int_quantity := IntQuantity v DecimalSI.

Definition attrs (deviceType pci : string) : gmap string AttributeValue :=
  {[ AttrDeviceType := StringAttr deviceType; AttrPCIAddress := StringAttr pci ]}.

Definition memory (mib : Z) : gmap string CounterValue :=
  {[ "memory" := mkCounterValue mib CounterUnitMiB ]}.

Definition consumesMemory (mib : Z) : list CounterConsumption :=
  [mkCounterConsumption "pgpu-0000-65-00-0" (memory mib)].

Definition gpu0 : Device :=
  NewGPUDevice "gpu-0" "GPU-0" (attrs DeviceTypePhysical "0000:65:00.0") ∅
    (consumesMemory 40960) false.
Definition mig0 : Device :=
  NewMIGDevice "mig-0" "MIG-0" (attrs DeviceTypeMIG "0000:65:00.0") ∅ (consumesMemory 10240).
Definition mig1 : Device :=
  NewMIGDevice "mig-1" "MIG-1" (attrs DeviceTypeMIG "0000:65:00.0") ∅ (consumesMemory 10240).

Definition sharePolicy : CapacityPolicy := mkCapacityPolicy 50 10 100 10 CapacityUnitPercent.
Definition shareCapacity : CapacityValue :=
  mkCapacityValue 100 CapacityUnitPercent (Some sharePolicy).
Definition shared0 : Device :=
  NewGPUDevice "gpu-0" "GPU-1" (attrs DeviceTypePhysical "0000:17:00.0")
    {[ "sharePercent" := shareCapacity ]} [] true.

Definition driver : string := "gpu.deckhouse.io".
Definition key (pool device : string) : DeviceKey := mkDeviceKey driver pool device.
Definition offer (node : string) (d : Device) : CandidateDevice :=
  mkCandidate (key node (dev_canonicalName d)) driver node node (Spec d).

(** A selector on the device type. *)
Definition isType (deviceType : string) : Selector :=
  λ _ spec, Ok (str_eqb (AttrString (spec_Attributes spec) AttrDeviceType) deviceType).

Definition wholeGPU (count percent : Z) : Request int_quantity :=
  mkRequest "gpu" count [isType DeviceTypePhysical]
    (Some (mkCapacityRequirements {[ "sharePercent" := qty percent ]})).

Definition allocated : gmap DeviceKey (AllocatedDeviceInfo int_quantity) :=
  {[ key "node-a" "mig-1" := mkAllocatedDeviceInfo true ∅ ]}.

Definition input (requests : list (Request int_quantity)) : Input int_quantity :=
  mkInput requests
    [offer "node-b" shared0; offer "node-a" gpu0; offer "node-a" mig0; offer "node-a" mig1]
    allocated
    {[ "node-a" := {[ "pgpu-0000-65-00-0" := mkCounterSet "pgpu-0000-65-00-0" (memory 40960) ]} ]}.

Definition order (node : string) : list DeviceKey := (map_to_list allocated).*1.

(** Two shares of 45 per cent are rounded up to 50 each, on [node-b]: the
    GPU of [node-a] is partitioned. *)
Definition two_shares : AllocationResult int_quantity :=
  mkAllocationResult "" "node-b"
    (replicate 2 (mkAllocatedDevice "gpu" driver "node-b" "gpu-0" ""
       {[ "sharePercent" := qty 50 ]} [DeviceConditionReady] [DeviceConditionBindingFailed]))
    (Some "node-b").

Example Allocate_two_shares : Allocate order (input [wholeGPU 2 45]) = Ok (Some two_shares).
Proof. vm_compute. reflexivity. Qed.

(** A third share does not fit. *)
Example Allocate_three_shares : Allocate order (input [wholeGPU 3 45]) = Ok None.
Proof. vm_compute. reflexivity. Qed.

Lemma input_two_ok : input_ok (input [wholeGPU 2 45]).
Proof. apply candidates_ok_input. by apply (bool_decide_unpack _); vm_compute. Qed.

Lemma Allocate_valid_witness :
  ∃ devices picks,
    devices ≡ₚ filter (λ d, cd_NodeName d = "node-b") (in_Candidates (input [wholeGPU 2 45])) ∧
    ar_Devices two_shares = renderPick <$> picks ∧
    valid_allocation devices [wholeGPU 2 45] allocated ∅ picks.
Proof.
  destruct (Allocate_valid order (input [wholeGPU 2 45]) two_shares) as
    (devices & picks & _ & Hperm & Hdev & _ & Hvalid).
  - exact input_two_ok.
  - intros n. reflexivity.
  - exact Allocate_two_shares.
  - exists devices, picks. split; [exact Hperm|]. split; [exact Hdev|]. exact Hvalid.
Defined.

Lemma Allocate_first_node_witness :
  allocateOnNode (order "node-a") "node-a"
    (default [] (groupByNode (in_Candidates (input [wholeGPU 2 45])) !! "node-a"))
    [wholeGPU 2 45] allocated
    (default ∅ (in_CounterSets (input [wholeGPU 2 45]) !! "node-a")) = Ok None.
Proof.
  apply (Allocate_first_node order (input [wholeGPU 2 45]) two_shares "node-a").
  - exact Allocate_two_shares.
  - vm_compute. reflexivity.
  - apply (bool_decide_unpack _). vm_compute. exact I.
  - discriminate.
Defined.

(** A selector that fails on every device. *)
Definition broken : Request int_quantity :=
  mkRequest "gpu" 1 [λ _ _, Err (External 1)] None.

Lemma Allocate_error_witness :
  selector_failed [broken] (in_Candidates (input [broken])) (External 1).
Proof.
  apply (Allocate_error order (input [broken]) (External 1)). vm_compute. reflexivity.
Defined.

Lemma calculateConsumedValue_least_witness :
  match calculateConsumedValue (Some (qty 45)) shareCapacity with
  | Some v => 45 ≤ v ∧ on_grid sharePolicy v ∧ (0 < 100 → v ≤ 100) ∧
      (∀ w, 45 ≤ w → on_grid sharePolicy w → v ≤ w)
  | None => False
  end.
Proof.
  pose proof (calculateConsumedValue_least (qty 45) shareCapacity sharePolicy) as Hleast.
  apply Hleast; [reflexivity|vm_compute; split; [discriminate|reflexivity]..].
Defined.

End Cluster.

(** * The controller on a concrete cluster

    The devices of [AllocatorExamples] published as slices by the renderer and
    read back; three claims are reconciled one after the other.  The last
    example shows why the cache has to be fresh. *)

Module Claims.
Import Cluster.

Abbreviation Q := int_quantity.

#[export] Instance apiErrors : ApiErrors := {|
  IsConflict e := bool_decide (e = External 409);
  noNewFinalizers _ := false;
|}.

(** ** Slices *)

Definition features : FeatureSet := mkFeatureSet true true true SharedCountersInline.

Definition counterSet : CounterSet := mkCounterSet "pgpu-0000-65-00-0" (memory 40960).
Definition inventoryA : Inventory := mkInventory [gpu0; mig0] [counterSet].
Definition inventoryB : Inventory := mkInventory [shared0] [].

(** What the publishing helper makes of the slices of a pool. *)
Definition publish (node : string) (count : Z) (i : nat) (s : Slice Q) : ResourceSlice Q :=
  mkResourceSlice (node +:+ Itoa (Z.of_nat i)) driver node 1 count (Some node) None (sl_Devices s)
    (sl_SharedCounters s).

Definition pool (node : string) (inv : Inventory) : list (ResourceSlice Q) :=
  let slices := Render features inv in imap (publish node (Z.of_nat (length slices))) slices.

(** An older generation of [node-a] is still around. *)
Definition outdated : ResourceSlice Q :=
  mkResourceSlice "old" driver "node-a" 0 1 (Some "node-a") None
    (RenderDevices [shared0]) [].

Definition slices : list (ResourceSlice Q) := outdated :: pool "node-a" inventoryA ++ pool "node-b" inventoryB.

Example candidates_read :
  (λ c, (cd_NodeName c, spec_Name (cd_Spec c))) <$> BuildCandidates DefaultDriverName slices
    = [("node-a", "gpu-0"); ("node-a", "mig-0"); ("node-b", "gpu-0")].
Proof. vm_compute. reflexivity. Qed.

Lemma slices_are_ok : slices_ok slices.
Proof.
  constructor.
  - apply (bool_decide_unpack _). vm_compute. exact I.
  - assert (Forall (λ d, consumes_ok (spec_Consumes (cd_Spec d)) ∧
      map_Forall (λ _, capacity_ok) (spec_Capacity (cd_Spec d))) (BuildCandidates DefaultDriverName slices))
      as Hall by (unfold consumes_ok, counters_ok; apply (bool_decide_unpack _); vm_compute; exact I).
    rewrite Forall_forall in Hall. exact Hall.
  - unfold available_ok, counters_ok. apply (bool_decide_unpack _). vm_compute. exact I.
Qed.

(** ** Claims *)

Definition gpuClass : DeviceClass := mkDeviceClass "gpu" [mkDeviceSelector (Some "Physical")] [] None.

Definition claimFor (name : string) (amounts : option (gmap string Q)) : ResourceClaim Q :=
  mkResourceClaim "default" name
    [mkDeviceRequest "gpu" (Some (mkExact "gpu" [] "" 0 None amounts)) []] 0 [] None.

Definition objects : Objects Q :=
  mkObjects [claimFor "a" None; claimFor "b" (Some {[ "sharePercent" := qty 45 ]}); claimFor "c" None]
    slices {[ "gpu" := gpuClass ]}.

Definition env : Env Q :=
  mkEnv (λ _ _, None) (λ i, "uuid-" +:+ Itoa (Z.of_nat i)) 1000 elements (λ m, (map_to_list m).*1).
Definition setup : Setup := mkSetup false (mkAllocationOptions true true).

Definition reconcile (cache server : Objects Q) (name : string) : Objects Q :=
  w_server (fst (snd (Reconcile env setup ("default", name) (mkWorld server cache None) []))).

Definition objects1 : Objects Q := Eval vm_compute in reconcile objects objects "a".
Definition objects2 : Objects Q := Eval vm_compute in reconcile objects1 objects1 "b".
Definition objects3 : Objects Q := Eval vm_compute in reconcile objects2 objects2 "c".

Definition devicesOfClaims (o : Objects Q) : list (list (string * string)) :=
  (λ c, (λ r, (rr_Pool r, rr_Device r)) <$> claimResults c) <$> ob_claims o.

Example allocated_devices :
  devicesOfClaims objects3 = [[("node-a", "gpu-0")]; [("node-b", "gpu-0")]; [("node-b", "gpu-0")]].
Proof. vm_compute. reflexivity. Qed.

Lemma objects_are_ok : cluster_ok objects.
Proof.
  apply cluster_ok_fresh; [apply slices_are_ok|..].
  - apply (bool_decide_unpack _). vm_compute. exact I.
  - intros c Hc r ex amounts Hr Hex Ham. simpl in Hc. rewrite !elem_of_cons, elem_of_nil in Hc.
    destruct Hc as [->|[->|[->|[]]]]; simpl in Hr; apply list_elem_of_singleton in Hr as ->;
      simpl in Hex; simplify_eq/=; try done.
    apply (bool_decide_unpack _). vm_compute. exact I.
  - intros c Hc. simpl in Hc. rewrite !elem_of_cons, elem_of_nil in Hc.
    by destruct Hc as [->|[->|[->|[]]]].
Qed.

(** ** The theorems on this cluster *)

Lemma reconcile_step o name o' : reconcile o o name = o' → cluster_step o o'.
Proof.
  intros <-. unfold reconcile.
  destruct (Reconcile env setup ("default", name) (mkWorld o o None) []) as (r & w' & h') eqn:Hrec.
  exact (step_reconcile env setup ("default", name) (mkWorld o o None) [] r w' h'
    (λ m, reflexivity _) eq_refl Hrec).
Qed.

Lemma cluster_safe_witness : cluster_ok objects3.
Proof.
  apply (cluster_safe objects objects3 slices_are_ok objects_are_ok).
  apply (rtc_l _ _ objects1); [apply (reconcile_step _ "a"); vm_compute; reflexivity|].
  apply (rtc_l _ _ objects2); [apply (reconcile_step _ "b"); vm_compute; reflexivity|].
  apply (rtc_l _ _ objects3); [apply (reconcile_step _ "c"); vm_compute; reflexivity|].
  apply rtc_refl.
Defined.

(** Claim "a" is reconciled, then claim "c" with a cache that has not seen
    the allocation yet: both get the same exclusive GPU. *)
Definition staleObjects : Objects Q := Eval vm_compute in reconcile objects objects1 "c".

Example stale_cache : devicesOfClaims staleObjects = [[("node-a", "gpu-0")]; []; [("node-a", "gpu-0")]].
Proof. vm_compute. reflexivity. Qed.

Definition gpu0read : CandidateDevice := Eval vm_compute in
  default (offer "node-a" gpu0) (head (BuildCandidates DefaultDriverName slices)).

Example stale_cache_unsafe : ¬ cluster_ok staleObjects.
Proof.
  intros Hck. pose proof (sf_once _ _ _ (ck_safe _ Hck) gpu0read) as Honce.
  assert (1 < length (on (cd_Key gpu0read) (holdings (ob_claims staleObjects))))%nat as Htwice
    by (vm_compute; lia).
  apply (Nat.lt_irrefl 1). eapply Nat.lt_le_trans; [exact Htwice|]. apply Honce; [|reflexivity].
  apply (list_elem_of_lookup_2 _ 0%nat). vm_compute. reflexivity.
Qed.

Lemma Reconcile_effect_witness :
  ob_slices objects1 = ob_slices objects ∧ ob_classes objects1 = ob_classes objects ∧
  (ob_claims objects1 = ob_claims objects ∨
   ∃ claim alloc, findClaim ("default", "a") (ob_claims objects) = Some claim ∧
     computed env (su_options setup) objects claim alloc ∧
     ob_claims objects1 = setAllocation ("default", "a") alloc <$> ob_claims objects).
Proof.
  apply (Reconcile_effect env setup ("default", "a") (mkWorld objects objects None) []
    (fst (Reconcile env setup ("default", "a") (mkWorld objects objects None) []))
    (mkWorld objects1 objects (w_Allocation (fst (snd (Reconcile env setup ("default", "a")
       (mkWorld objects objects None) [])))))
    (snd (snd (Reconcile env setup ("default", "a") (mkWorld objects objects None) [])))).
  vm_compute. reflexivity.
Defined.

Lemma deviceClassEnqueue_complete_witness :
  ("default", "b") ∈ deviceClassEnqueue (Ok (ob_claims objects)) "gpu" ↔
  "gpu" ∈ deviceClassNames env (claimFor "b" (Some {[ "sharePercent" := qty 45 ]})).
Proof.
  apply (deviceClassEnqueue_complete env (ob_claims objects) "gpu"
           (claimFor "b" (Some {[ "sharePercent" := qty 45 ]}))).
  - intros s. reflexivity.
  - discriminate.
  - right. left.
  - apply (bool_decide_unpack _). vm_compute. exact I.
Defined.

Lemma Render_inline_witness :
  ∃ s, s ∈ Render (Q:=Q) features inventoryA ∧
    renderDeviceWithOptions (Spec mig0) (renderOptions features) ∈ sl_Devices s ∧
    mkApiCounterSet "pgpu-0000-65-00-0" (renderCounters (memory 40960)) ∈ sl_SharedCounters s.
Proof.
  apply (Render_inline features inventoryA mig0 "pgpu-0000-65-00-0" counterSet);
    [reflexivity..| |reflexivity| |reflexivity].
  - right. left.
  - left.
Defined.

Lemma render_roundtrip_witness :
  let spec' := toDeviceSpec (renderDeviceWithOptions (Q:=Q) (Spec shared0) (mkRenderOptions true true false)) in
  spec' = readSpec (offered (mkRenderOptions true true false) (Spec shared0)) ∧
  (∀ req : option (CapacityRequirements Q),
     computeConsumedCapacity req (spec_Capacity spec')
       = computeConsumedCapacity req (spec_Capacity (Spec shared0))) ∧
  (∀ existing add : gmap string Q,
     fitsCapacity existing add (spec_Capacity spec')
       = fitsCapacity existing add (spec_Capacity (Spec shared0))).
Proof.
  apply (render_roundtrip (Spec shared0) (mkRenderOptions true true false)). split.
  - intros name c Hc. unfold shared0, Spec in Hc. simpl in Hc. apply lookup_singleton_Some in Hc as [_ <-]. unfold renderablePolicy, small.
    split; [simpl; lia|]. repeat split; simpl; lia.
  - constructor.
Defined.
End Claims.
