(* ===== verification/GpuApi.v ===== *)
(** * The API of PhysicalGPU

    Object metadata and conditions of apimachinery, and the types of
    [api/v1alpha1]. *)

From S2P Require Import Prelude GoLib.

(** * Metadata and conditions of objects: pkg/controller/conditions

    The metadata of a Kubernetes object and the conditions of its status, with
    the builder and the manager the controllers use.  The functions of
    k8s.io/apimachinery/pkg/api/meta are outside the repository: they are the
    class [MetaConditions], with what they document as its laws. *)

(** ** metav1.ObjectMeta, as far as it is used; a map may be nil *)

Record ObjectMeta := mkObjectMeta {
  om_Name : string;
  om_Finalizers : list string;
  om_Annotations : option (gmap string string);
  om_Labels : option (gmap string string);
  om_Generation : Z;
  om_DeletionTimestamp : option Z;
}.
#[export] Instance ObjectMeta_eq_dec : EqDecision ObjectMeta.
Proof. solve_decision. Defined.

Definition om_label (m : ObjectMeta) (key : string) : string := default "" (default ∅ (om_Labels m) !! key).

(** ** metav1.Condition *)

Record Condition := mkCondition {
  cond_Type : string;
  cond_Status : string;
  cond_Reason : string;
  cond_Message : string;
  cond_ObservedGeneration : Z;
  cond_LastTransitionTime : Z;
}.
#[export] Instance Condition_eq_dec : EqDecision Condition.
Proof. solve_decision. Defined.

Definition ConditionTrue : string := "True".
Definition ConditionFalse : string := "False".
Definition ConditionUnknown : string := "Unknown".

(** Two conditions that differ in the time of the transition only. *)
Definition same_condition (a b : Condition) : Prop :=
  cond_Type a = cond_Type b ∧ cond_Status a = cond_Status b ∧ cond_Reason a = cond_Reason b ∧
  cond_Message a = cond_Message b ∧ cond_ObservedGeneration a = cond_ObservedGeneration b.
#[export] Instance same_condition_dec a b : Decision (same_condition a b).
Proof. unfold same_condition. apply _. Defined.

#[export] Instance same_condition_equiv : Equivalence same_condition.
Proof. split; unfold same_condition; [by intros ?|intros a b|intros a b c]; intuition congruence. Qed.

(** ** k8s.io/apimachinery/pkg/api/meta

    [SetStatusCondition] at time [now] replaces the condition of the type, or
    appends it; the time of the transition moves when the status does. *)
Class MetaConditions := {
  FindStatusCondition : list Condition → string → option Condition;
  SetStatusCondition : Z → list Condition → Condition → list Condition;
  RemoveStatusCondition : list Condition → string → list Condition;
  Find_type cs t c : FindStatusCondition cs t = Some c → cond_Type c = t;
  Find_Set now cs c : ∃ c', FindStatusCondition (SetStatusCondition now cs c) (cond_Type c) = Some c' ∧ same_condition c' c ∧
    (∀ old, FindStatusCondition cs (cond_Type c) = Some old → cond_Status old = cond_Status c →
       cond_LastTransitionTime c' = cond_LastTransitionTime old);
  Find_Set_other now cs c t : t ≠ cond_Type c → FindStatusCondition (SetStatusCondition now cs c) t = FindStatusCondition cs t;
  Set_same now cs c old : FindStatusCondition cs (cond_Type c) = Some old → same_condition old c → SetStatusCondition now cs c = cs;
  Find_Remove cs t t' : FindStatusCondition (RemoveStatusCondition cs t) t' = if str_eqb t' t then None else FindStatusCondition cs t';
  Remove_absent cs t : FindStatusCondition cs t = None → RemoveStatusCondition cs t = cs;
}.

(** ** builder.go *)

Definition ReasonUnknown : string := "Unknown".

Record ConditionBuilder := mkConditionBuilder {
  cb_status : string;
  cb_conditionType : string;
  cb_reason : string;
  cb_message : string;
  cb_generation : Z;
  cb_lastTransitionTime : Z;
}.

Definition NewConditionBuilder (conditionType : string) : ConditionBuilder :=
  mkConditionBuilder ConditionUnknown conditionType ReasonUnknown "" 0 0.

Definition cb_Condition (c : ConditionBuilder) : Condition :=
  mkCondition (cb_conditionType c) (cb_status c) (cb_reason c) (cb_message c) (cb_generation c) (cb_lastTransitionTime c).

Definition cb_Status (status : string) (c : ConditionBuilder) : ConditionBuilder :=
  if str_eqb status "" then c else
  mkConditionBuilder status (cb_conditionType c) (cb_reason c) (cb_message c) (cb_generation c) (cb_lastTransitionTime c).
Definition cb_Reason (reason : string) (c : ConditionBuilder) : ConditionBuilder :=
  if str_eqb reason "" then c else
  mkConditionBuilder (cb_status c) (cb_conditionType c) reason (cb_message c) (cb_generation c) (cb_lastTransitionTime c).
Definition cb_Message (msg : string) (c : ConditionBuilder) : ConditionBuilder :=
  mkConditionBuilder (cb_status c) (cb_conditionType c) (cb_reason c) msg (cb_generation c) (cb_lastTransitionTime c).
Definition cb_Generation (generation : Z) (c : ConditionBuilder) : ConditionBuilder :=
  mkConditionBuilder (cb_status c) (cb_conditionType c) (cb_reason c) (cb_message c) generation (cb_lastTransitionTime c).

(** ** manager.go: the manager is its list of conditions *)

Section Manager.
Context `{MetaConditions}.

Definition RemoveCondition (conditionType : string) (conditions : list Condition) : list Condition :=
  RemoveStatusCondition conditions conditionType.

Definition NewManager (conditions : list Condition) : list Condition := conditions.
(** Whether the condition was added, which is whether it was absent. *)
Definition mgr_Add (now : Z) (c : Condition) (conds : list Condition) : bool * list Condition :=
  match FindStatusCondition conds (cond_Type c) with
  | Some _ => (false, conds)
  | None => (true, SetStatusCondition now conds c)
  end.
Definition mgr_Update (now : Z) (c : Condition) (conds : list Condition) : list Condition := SetStatusCondition now conds c.
Definition mgr_Generate (conds : list Condition) : list Condition := conds.
End Manager.

(** ** The documented functions on lists *)

Module ListConditions.

Fixpoint find (cs : list Condition) (t : string) : option Condition :=
  match cs with [] => None | c :: cs' => if str_eqb (cond_Type c) t then Some c else find cs' t end.

Definition merged (now : Z) (old c : Condition) : Condition :=
  mkCondition (cond_Type c) (cond_Status c) (cond_Reason c) (cond_Message c) (cond_ObservedGeneration c)
    (if str_eqb (cond_Status old) (cond_Status c) then cond_LastTransitionTime old
     else if cond_LastTransitionTime c =? 0 then now else cond_LastTransitionTime c).

Fixpoint set (now : Z) (cs : list Condition) (c : Condition) : list Condition :=
  match cs with
  | [] => [mkCondition (cond_Type c) (cond_Status c) (cond_Reason c) (cond_Message c) (cond_ObservedGeneration c)
             (if cond_LastTransitionTime c =? 0 then now else cond_LastTransitionTime c)]
  | old :: cs' => if str_eqb (cond_Type old) (cond_Type c) then merged now old c :: cs' else old :: set now cs' c
  end.

Definition remove (cs : list Condition) (t : string) : list Condition := filter (λ c, cond_Type c ≠ t) cs.

Lemma find_set now cs c : ∃ c', find (set now cs c) (cond_Type c) = Some c' ∧ same_condition c' c ∧
  (∀ old, find cs (cond_Type c) = Some old → cond_Status old = cond_Status c → cond_LastTransitionTime c' = cond_LastTransitionTime old).
Proof.
  induction cs as [|old cs IH]; cbn [find set].
  - eexists. cbn [cond_Type]. unfold str_eqb. rewrite bool_decide_eq_true_2 by done. done.
  - destruct (str_eqb (cond_Type old) (cond_Type c)) eqn:Ht; cbn [find].
    + exists (merged now old c). cbn [merged cond_Type]. unfold str_eqb at 1. rewrite bool_decide_eq_true_2 by done.
      split; [done|]. split; [done|]. intros o [= <-] Hs. unfold merged, str_eqb. simpl. by rewrite bool_decide_eq_true_2.
    + rewrite Ht. exact IH.
Qed.

Lemma find_set_other now cs c t : t ≠ cond_Type c → find (set now cs c) t = find cs t.
Proof.
  intros Hne. induction cs as [|old cs IH]; cbn [find set].
  - cbn [cond_Type]. unfold str_eqb. by rewrite bool_decide_eq_false_2 by congruence.
  - destruct (str_eqb (cond_Type old) (cond_Type c)) eqn:Ht; cbn [find]; go_bool.
    + cbn [merged cond_Type]. rewrite Ht. unfold str_eqb. by rewrite bool_decide_eq_false_2 by congruence.
    + by rewrite IH.
Qed.

Lemma set_same now cs c old : find cs (cond_Type c) = Some old → same_condition old c → set now cs c = cs.
Proof.
  intros Hf (H1 & H2 & H3 & H4 & H5). induction cs as [|o cs IH]; [done|]. cbn [find set] in *.
  destruct (str_eqb (cond_Type o) (cond_Type c)); [|by rewrite IH].
  injection Hf as ->. unfold merged, str_eqb. rewrite H2, bool_decide_eq_true_2 by done. destruct old. simpl in *. congruence.
Qed.

Lemma find_remove cs t t' : find (remove cs t) t' = if str_eqb t' t then None else find cs t'.
Proof.
  induction cs as [|c cs IH]; cbn [find]; [by destruct (str_eqb t' t)|]. unfold remove in *. rewrite filter_cons.
  destruct (decide (cond_Type c ≠ t)) as [Hne|Heq].
  - cbn [find]. rewrite IH. destruct (str_eqb (cond_Type c) t') eqn:Hc; [|done]. go_bool. subst t'.
    unfold str_eqb. by rewrite bool_decide_eq_false_2.
  - rewrite IH. apply dec_stable in Heq. subst t. destruct (str_eqb t' (cond_Type c)) eqn:Ht; [done|]. go_bool.
    unfold str_eqb. by rewrite bool_decide_eq_false_2 by congruence.
Qed.

Lemma remove_absent cs t : find cs t = None → remove cs t = cs.
Proof.
  induction cs as [|c cs IH]; [done|]. cbn [find]. destruct (str_eqb (cond_Type c) t) eqn:Hc; [done|]. go_bool.
  intros Hf. unfold remove. rewrite filter_cons, decide_True by done. f_equal. by apply IH.
Qed.

Lemma find_type cs t c : find cs t = Some c → cond_Type c = t.
Proof.
  induction cs as [|o cs IH]; [done|]. cbn [find]. destruct (str_eqb (cond_Type o) t) eqn:Ho; [|done].
  go_bool. congruence.
Qed.

#[export] Instance listConditions : MetaConditions := {|
  FindStatusCondition := find;
  SetStatusCondition := set;
  RemoveStatusCondition := remove;
  Find_type := find_type;
  Find_Set := find_set;
  Find_Set_other := find_set_other;
  Set_same := set_same;
  Find_Remove := find_remove;
  Remove_absent := remove_absent;
|}.
End ListConditions.

(** * The API of the module: images/gpu-artifact/api/v1alpha1

    The PhysicalGPU object with all its fields: the node agent creates it, the
    gpu-handler fills in capabilities and health, the controller its readiness,
    and the inventory turns it into devices. *)

(** ** common_types.go *)

Definition VendorNvidia : string := "Nvidia".
Definition VendorAMD : string := "Amd".
Definition VendorIntel : string := "Intel".

Definition DriverTypeNvidia : string := "Nvidia".
Definition DriverTypeVFIO : string := "VFIO".
Definition DriverTypeROCm : string := "ROCm".

Definition MIGModeEnabled : string := "Enabled".
Definition MIGModeDisabled : string := "Disabled".
Definition MIGModeNA : string := "NotAvailable".
Definition MIGModeUnknown : string := "Unknown".

(** ** physicalgpu_types.go *)

Record OSInfo := mkOSInfo { os_ID : string; os_Version : string; os_Name : string }.
Record NodeInfo := mkNodeInfo {
  ni_NodeName : string;
  ni_OS : option OSInfo;
  ni_KernelRelease : string;
  ni_BareMetal : option bool;
}.

Record PCIClassInfo := mkPCIClass { pcic_Code : string; pcic_Name : string }.
Record PCIVendorInfo := mkPCIVendor { pciv_ID : string; pciv_Name : string }.
Record PCIDeviceInfo := mkPCIDevice { pcid_ID : string; pcid_Name : string }.
Record PCIInfo := mkPCIInfo {
  pci_Address : string;
  pci_Class : option PCIClassInfo;
  pci_Vendor : option PCIVendorInfo;
  pci_Device : option PCIDeviceInfo;
}.

Record NvidiaMIGProfile := mkMIGProfile {
  mp_ProfileID : Z;
  mp_Name : string;
  mp_MemoryMiB : Z;
  mp_SliceCount : Z;
  mp_MaxInstances : Z;
  mp_Multiprocessors : Z;
  mp_CopyEngines : Z;
  mp_Decoders : Z;
  mp_Encoders : Z;
  mp_JpegEngines : Z;
  mp_OfaEngines : Z;
}.
Record NvidiaMIGCapabilities := mkMIGCapabilities { mc_TotalSlices : Z; mc_Profiles : list NvidiaMIGProfile }.
Record NvidiaCapabilities := mkNvidiaCapabilities {
  nc_ComputeCap : string;
  nc_ProductArchitecture : string;
  nc_BoardPartNumber : string;
  nc_ComputeTypes : list string;
  nc_PowerLimitMinW : option Z;
  nc_PowerLimitMaxW : option Z;
  nc_MIGSupported : option bool;
  nc_MIG : option NvidiaMIGCapabilities;
}.
Record GPUCapabilities := mkGPUCapabilities {
  gcap_ProductName : string;
  gcap_MemoryMiB : option Z;
  gcap_Vendor : string;
  gcap_Nvidia : option NvidiaCapabilities;
}.

Record NvidiaMIGState := mkMIGState { ms_Mode : string }.
Record NvidiaCurrentState := mkNvidiaCurrentState {
  ncs_GPUUUID : string;
  ncs_DriverVersion : string;
  ncs_CUDAVersion : string;
  ncs_PowerLimitCurrentW : option Z;
  ncs_PowerLimitEnforcedW : option Z;
  ncs_MIG : option NvidiaMIGState;
}.
Record GPUCurrentState := mkCurrentState { gcs_DriverType : string; gcs_Nvidia : option NvidiaCurrentState }.

Record PhysicalGPUStatus := mkStatus {
  st_NodeInfo : option NodeInfo;
  st_PCIInfo : option PCIInfo;
  st_Capabilities : option GPUCapabilities;
  st_Conditions : list Condition;
  st_CurrentState : option GPUCurrentState;
}.
Record PhysicalGPU := mkPhysicalGPU { pg_Meta : ObjectMeta; pg_Status : PhysicalGPUStatus }.

#[export] Instance OSInfo_eq_dec : EqDecision OSInfo. Proof. solve_decision. Defined.
#[export] Instance NodeInfo_eq_dec : EqDecision NodeInfo. Proof. solve_decision. Defined.
#[export] Instance PCIClassInfo_eq_dec : EqDecision PCIClassInfo. Proof. solve_decision. Defined.
#[export] Instance PCIVendorInfo_eq_dec : EqDecision PCIVendorInfo. Proof. solve_decision. Defined.
#[export] Instance PCIDeviceInfo_eq_dec : EqDecision PCIDeviceInfo. Proof. solve_decision. Defined.
#[export] Instance PCIInfo_eq_dec : EqDecision PCIInfo. Proof. solve_decision. Defined.
#[export] Instance NvidiaMIGProfile_eq_dec : EqDecision NvidiaMIGProfile. Proof. solve_decision. Defined.
#[export] Instance NvidiaMIGCapabilities_eq_dec : EqDecision NvidiaMIGCapabilities. Proof. solve_decision. Defined.
#[export] Instance NvidiaCapabilities_eq_dec : EqDecision NvidiaCapabilities. Proof. solve_decision. Defined.
#[export] Instance GPUCapabilities_eq_dec : EqDecision GPUCapabilities. Proof. solve_decision. Defined.
#[export] Instance NvidiaMIGState_eq_dec : EqDecision NvidiaMIGState. Proof. solve_decision. Defined.
#[export] Instance NvidiaCurrentState_eq_dec : EqDecision NvidiaCurrentState. Proof. solve_decision. Defined.
#[export] Instance GPUCurrentState_eq_dec : EqDecision GPUCurrentState. Proof. solve_decision. Defined.
#[export] Instance PhysicalGPUStatus_eq_dec : EqDecision PhysicalGPUStatus. Proof. solve_decision. Defined.
#[export] Instance PhysicalGPU_eq_dec : EqDecision PhysicalGPU. Proof. solve_decision. Defined.

(** ** Reading through the pointers *)

Definition pg_Name (p : PhysicalGPU) : string := om_Name (pg_Meta p).
Definition pg_Labels (p : PhysicalGPU) : gmap string string := default ∅ (om_Labels (pg_Meta p)).
Definition pg_PCIInfo (p : PhysicalGPU) : option PCIInfo := st_PCIInfo (pg_Status p).
Definition pg_Capabilities (p : PhysicalGPU) : option GPUCapabilities := st_Capabilities (pg_Status p).
Definition pg_NvidiaState (p : PhysicalGPU) : option NvidiaCurrentState := st_CurrentState (pg_Status p) ≫= gcs_Nvidia.
Definition pg_NodeName (p : PhysicalGPU) : string := from_option ni_NodeName "" (st_NodeInfo (pg_Status p)).
Definition pci_VendorName (i : PCIInfo) : option string := pciv_Name <$> pci_Vendor i.
Definition pci_DeviceName (i : PCIInfo) : option string := pcid_Name <$> pci_Device i.

(** ** Writing a part *)

Definition set_Meta (m : ObjectMeta) (p : PhysicalGPU) : PhysicalGPU := mkPhysicalGPU m (pg_Status p).
Definition set_Status (st : PhysicalGPUStatus) (p : PhysicalGPU) : PhysicalGPU := mkPhysicalGPU (pg_Meta p) st.
Definition set_Conditions (cs : list Condition) (p : PhysicalGPU) : PhysicalGPU :=
  set_Status (mkStatus (st_NodeInfo (pg_Status p)) (st_PCIInfo (pg_Status p)) (st_Capabilities (pg_Status p)) cs
    (st_CurrentState (pg_Status p))) p.
