(* ===== verification/PoolApi.v ===== *)
(** * Pools of GPUs: the API and its helpers

    The types of [api/gpu/v1alpha1] and the helpers all parts of the control
    plane share: service/pool/common, names, tolerations, and the field indexes
    of controller/indexer.  Labels and annotations are maps, of which the code
    reads single keys; a missing key reads as the empty string. *)

From S2P Require Import Prelude GoLib GpuApi.

From Stdlib Require Import Ascii.

(** ** metav1.LabelSelector and corev1.Taint, Toleration *)

Record LabelSelectorRequirement := mkLsRequirement { lsr_Key : string; lsr_Operator : string; lsr_Values : list string }.
Record LabelSelector := mkLabelSelector {
  ls_MatchLabels : gmap string string;
  ls_MatchExpressions : list LabelSelectorRequirement;
}.
#[export] Instance LabelSelectorRequirement_eq_dec : EqDecision LabelSelectorRequirement.
Proof. solve_decision. Defined.
#[export] Instance LabelSelector_eq_dec : EqDecision LabelSelector.
Proof. solve_decision. Defined.

(** [metav1.LabelSelectorAsSelector] and the selector it returns *)
Class LabelSelectors := {
  Selector : Type;
  LabelSelectorAsSelector : LabelSelector → res Selector;
  Selector_Matches : Selector → gmap string string → bool;
}.

Record Taint := mkTaint { tnt_Key : string; tnt_Value : string; tnt_Effect : string }.
#[export] Instance Taint_eq_dec : EqDecision Taint.
Proof. solve_decision. Defined.
Definition TaintEffectNoSchedule : string := "NoSchedule".

Record Toleration := mkToleration { tol_Key : string; tol_Operator : string; tol_Value : string; tol_Effect : string }.
#[export] Instance Toleration_eq_dec : EqDecision Toleration.
Proof. solve_decision. Defined.
Definition TolerationOpExists : string := "Exists".
Definition TolerationOpEqual : string := "Equal".

Definition label (m : gmap string string) (key : string) : string := default "" (m !! key).

(** ** types.go: GPUDevice *)

Definition GPUDeviceState : Type := string.
Definition GPUDeviceStateDiscovered : GPUDeviceState := "Discovered".
Definition GPUDeviceStateValidating : GPUDeviceState := "Validating".
Definition GPUDeviceStateReady : GPUDeviceState := "Ready".
Definition GPUDeviceStatePendingAssignment : GPUDeviceState := "PendingAssignment".
Definition GPUDeviceStateAssigned : GPUDeviceState := "Assigned".
Definition GPUDeviceStateReserved : GPUDeviceState := "Reserved".
Definition GPUDeviceStateInUse : GPUDeviceState := "InUse".
Definition GPUDeviceStateFaulted : GPUDeviceState := "Faulted".

Record GPUPoolReference := mkPoolReference { ref_Name : string; ref_Namespace : string }.
Record PCIAddress := mkPCIAddress { pa_Vendor : string; pa_Device : string; pa_Class : string; pa_Address : string }.

Definition GPUMIGStrategyNone : string := "None".
Definition GPUMIGStrategySingle : string := "Single".
Definition GPUMIGStrategyMixed : string := "Mixed".

Record GPUMIGTypeCapacity := mkMIGTypeCapacity { mtc_Name : string; mtc_Count : Z }.
Record GPUMIGConfig := mkMIGConfig {
  mig_Capable : bool;
  mig_Strategy : string;
  mig_ProfilesSupported : list string;
  mig_Types : list GPUMIGTypeCapacity;
}.
Record GPUDeviceHardware := mkHardware {
  hw_UUID : string;
  hw_Product : string;
  hw_PCI : PCIAddress;
  hw_MIG : GPUMIGConfig;
}.
Record GPUDeviceStatus := mkDeviceStatus {
  gds_NodeName : string;
  gds_InventoryID : string;
  gds_Managed : bool;
  gds_State : GPUDeviceState;
  gds_AutoAttach : bool;
  gds_PoolRef : option GPUPoolReference;
  gds_Hardware : GPUDeviceHardware;
  gds_Conditions : list Condition;
}.
Record OwnerReference := mkOwnerReference { or_Kind : string; or_Name : string; or_UID : string }.
Record GPUDevice := mkGPUDevice {
  gd_Name : string;
  gd_Labels : gmap string string;
  gd_Annotations : gmap string string;
  gd_Owners : list OwnerReference;
  gd_Status : GPUDeviceStatus;
}.

#[export] Instance GPUPoolReference_eq_dec : EqDecision GPUPoolReference.
Proof. solve_decision. Defined.
#[export] Instance PCIAddress_eq_dec : EqDecision PCIAddress.
Proof. solve_decision. Defined.
#[export] Instance GPUMIGTypeCapacity_eq_dec : EqDecision GPUMIGTypeCapacity.
Proof. solve_decision. Defined.
#[export] Instance GPUMIGConfig_eq_dec : EqDecision GPUMIGConfig.
Proof. solve_decision. Defined.
#[export] Instance GPUDeviceHardware_eq_dec : EqDecision GPUDeviceHardware.
Proof. solve_decision. Defined.
#[export] Instance GPUDeviceStatus_eq_dec : EqDecision GPUDeviceStatus.
Proof. unfold EqDecision, GPUDeviceState. solve_decision. Defined.
#[export] Instance OwnerReference_eq_dec : EqDecision OwnerReference.
Proof. solve_decision. Defined.
#[export] Instance GPUDevice_eq_dec : EqDecision GPUDevice.
Proof. solve_decision. Defined.

Definition gd_State (d : GPUDevice) : GPUDeviceState := gds_State (gd_Status d).
Definition gd_PoolRef (d : GPUDevice) : option GPUPoolReference := gds_PoolRef (gd_Status d).
Definition gd_Hardware (d : GPUDevice) : GPUDeviceHardware := gds_Hardware (gd_Status d).

(** A device in another pool and state. *)
Definition set_assignment (poolRef : option GPUPoolReference) (state : GPUDeviceState) (d : GPUDevice) : GPUDevice :=
  let st := gd_Status d in
  mkGPUDevice (gd_Name d) (gd_Labels d) (gd_Annotations d) (gd_Owners d)
    (mkDeviceStatus (gds_NodeName st) (gds_InventoryID st) (gds_Managed st) state (gds_AutoAttach st) poolRef
       (gds_Hardware st) (gds_Conditions st)).

(** ** types.go: GPUPool, ClusterGPUPool *)

Record GPUPoolResourceSpec := mkResourceSpec {
  rs_Unit : string;
  rs_MIGProfile : string;
  rs_MaxDevicesPerNode : option Z;
  rs_SlicesPerUnit : Z;
}.
Record GPUPoolSelectorRules := mkSelectorRules {
  sr_InventoryIDs : list string;
  sr_Products : list string;
  sr_PCIVendors : list string;
  sr_PCIDevices : list string;
  sr_MIGCapable : option bool;
  sr_MIGProfiles : list string;
}.
Record GPUPoolDeviceSelector := mkPoolDeviceSelector { gsel_Include : GPUPoolSelectorRules; gsel_Exclude : GPUPoolSelectorRules }.
Record GPUPoolAssignmentSpec := mkAssignmentSpec {
  as_RequireAnnotation : bool;
  as_AutoApproveSelector : option LabelSelector;
}.
Definition GPUPoolSchedulingBinPack : string := "BinPack".
Definition GPUPoolSchedulingSpread : string := "Spread".
Record GPUPoolTaintSpec := mkTaintSpec { ts_Key : string; ts_Value : string; ts_Effect : string }.
Record GPUPoolSchedulingSpec := mkSchedulingSpec {
  sch_Strategy : string;
  sch_TopologyKey : string;
  sch_TaintsEnabled : option bool;
  sch_Taints : list GPUPoolTaintSpec;
}.
Record GPUPoolSpec := mkPoolSpec {
  gps_Provider : string;
  gps_Backend : string;
  gps_Resource : GPUPoolResourceSpec;
  gps_NodeSelector : option LabelSelector;
  gps_DeviceSelector : option GPUPoolDeviceSelector;
  gps_DeviceAssignment : GPUPoolAssignmentSpec;
  gps_Scheduling : GPUPoolSchedulingSpec;
}.
Record GPUPoolCapacityStatus := mkCapacityStatus { gcap_Total : Z; gcap_Available : Z; gcap_Used : Z }.
Record GPUPoolStatus := mkPoolStatus { gpst_Capacity : GPUPoolCapacityStatus; gpst_Conditions : list Condition }.

(** A [ClusterGPUPool] has the same fields; the code works on its copy as a
    [GPUPool] whose kind says what it is. *)
Record GPUPool := mkGPUPool {
  gp_Kind : string;
  gp_Name : string;
  gp_Namespace : string;
  gp_UID : string;
  gp_Generation : Z;
  gp_Spec : GPUPoolSpec;
  gp_Status : GPUPoolStatus;
}.

#[export] Instance GPUPoolResourceSpec_eq_dec : EqDecision GPUPoolResourceSpec.
Proof. solve_decision. Defined.
#[export] Instance GPUPoolSelectorRules_eq_dec : EqDecision GPUPoolSelectorRules.
Proof. solve_decision. Defined.
#[export] Instance GPUPoolDeviceSelector_eq_dec : EqDecision GPUPoolDeviceSelector.
Proof. solve_decision. Defined.
#[export] Instance GPUPoolAssignmentSpec_eq_dec : EqDecision GPUPoolAssignmentSpec.
Proof. solve_decision. Defined.
#[export] Instance GPUPoolTaintSpec_eq_dec : EqDecision GPUPoolTaintSpec.
Proof. solve_decision. Defined.
#[export] Instance GPUPoolSchedulingSpec_eq_dec : EqDecision GPUPoolSchedulingSpec.
Proof. solve_decision. Defined.
#[export] Instance GPUPoolSpec_eq_dec : EqDecision GPUPoolSpec.
Proof. solve_decision. Defined.
#[export] Instance GPUPoolCapacityStatus_eq_dec : EqDecision GPUPoolCapacityStatus.
Proof. solve_decision. Defined.
#[export] Instance GPUPoolStatus_eq_dec : EqDecision GPUPoolStatus.
Proof. solve_decision. Defined.
#[export] Instance GPUPool_eq_dec : EqDecision GPUPool.
Proof. solve_decision. Defined.

Definition set_PoolSpec (spec : GPUPoolSpec) (p : GPUPool) : GPUPool :=
  mkGPUPool (gp_Kind p) (gp_Name p) (gp_Namespace p) (gp_UID p) (gp_Generation p) spec (gp_Status p).
Definition set_PoolStatus (st : GPUPoolStatus) (p : GPUPool) : GPUPool :=
  mkGPUPool (gp_Kind p) (gp_Name p) (gp_Namespace p) (gp_UID p) (gp_Generation p) (gp_Spec p) st.
Definition set_PoolConditions (cs : list Condition) (p : GPUPool) : GPUPool :=
  set_PoolStatus (mkPoolStatus (gpst_Capacity (gp_Status p)) cs) p.
Definition set_Total (total : Z) (p : GPUPool) : GPUPool :=
  let c := gpst_Capacity (gp_Status p) in
  set_PoolStatus (mkPoolStatus (mkCapacityStatus total (gcap_Available c) (gcap_Used c)) (gpst_Conditions (gp_Status p))) p.

(** ** service/pool/common: constants.go, labels.go, common/annotations *)

Definition NamespacedPoolResourcePrefix : string := "gpu.deckhouse.io".
Definition ClusterPoolResourcePrefix : string := "cluster.gpu.deckhouse.io".
Definition DeviceIgnoreKey : string := "gpu.deckhouse.io/ignore".
Definition NamespacedAssignmentAnnotation : string := "gpu.deckhouse.io/assignment".
Definition ClusterAssignmentAnnotation : string := "cluster.gpu.deckhouse.io/assignment".
Definition PoolNameKey : string := "gpu-control-plane.deckhouse.io/pool".
Definition PoolScopeKey : string := "gpu-control-plane.deckhouse.io/pool-scope".
Definition PoolScopeNamespaced : string := "namespaced".
Definition PoolScopeCluster : string := "cluster".

(** ** common: device.go, helpers.go *)

Definition IsDeviceIgnored (dev : GPUDevice) : bool := EqualFold (label (gd_Labels dev) DeviceIgnoreKey) "true".
Definition DeviceNodeName (dev : GPUDevice) : string := TrimSpace (gds_NodeName (gd_Status dev)).

Definition isClusterPool (pool : GPUPool) : bool := str_eqb (gp_Kind pool) "ClusterGPUPool".
Definition PoolResourcePrefixFor (pool : GPUPool) : string :=
  if isClusterPool pool then ClusterPoolResourcePrefix else NamespacedPoolResourcePrefix.
Definition AssignmentAnnotationKey (pool : GPUPool) : string :=
  if isClusterPool pool then ClusterAssignmentAnnotation else NamespacedAssignmentAnnotation.

Definition PoolRefMatchesPool (pool : GPUPool) (ref : option GPUPoolReference) : bool :=
  match ref with
  | None => false
  | Some ref =>
      if negb (str_eqb (ref_Name ref) (gp_Name pool)) then false else
      if isClusterPool pool || str_eqb (gp_Namespace pool) "" then str_eqb (TrimSpace (ref_Namespace ref)) "" else
      str_eqb (ref_Namespace ref) (gp_Namespace pool)
  end.

Definition PoolLabelKey (pool : GPUPool) : string := PoolResourcePrefixFor pool +:+ "/" +:+ gp_Name pool.
Definition PoolValueFromKey (key : string) : string := List.last (SplitChar key "/"%char) "".

(** ** common/matcher.go *)

Definition contains (l : list string) (value : string) : bool := existsb (λ v, str_eqb v value) l.
Definition anyMIGProfile (want supported : list string) : bool := existsb (contains supported) want.

Definition migProfiles (m : GPUMIGConfig) : list string :=
  if negb (list_len0 (mig_ProfilesSupported m)) then mig_ProfilesSupported m else
  omap (λ t, let name := TrimSpace (mtc_Name t) in if str_eqb name "" then None else Some name) (mig_Types m).

(** The inventory id a rule is compared with. *)
Definition selectorID (dev : GPUDevice) : string :=
  let id := TrimSpace (gds_InventoryID (gd_Status dev)) in if str_eqb id "" then gd_Name dev else id.

Definition matchesInclude (include : GPUPoolSelectorRules) (dev : GPUDevice) : bool :=
  if list_len0 (sr_InventoryIDs include) && list_len0 (sr_Products include) && list_len0 (sr_PCIVendors include) &&
     list_len0 (sr_PCIDevices include) && list_len0 (sr_MIGProfiles include) && bool_decide (sr_MIGCapable include = None)
  then true else
  let hw := gd_Hardware dev in
  if negb (list_len0 (sr_InventoryIDs include)) && negb (contains (sr_InventoryIDs include) (selectorID dev)) then false else
  if negb (list_len0 (sr_Products include)) && negb (contains (sr_Products include) (hw_Product hw)) then false else
  if negb (list_len0 (sr_PCIVendors include)) && negb (contains (sr_PCIVendors include) (pa_Vendor (hw_PCI hw))) then false else
  if negb (list_len0 (sr_PCIDevices include)) && negb (contains (sr_PCIDevices include) (pa_Device (hw_PCI hw))) then false else
  if match sr_MIGCapable include with Some b => negb (Bool.eqb (mig_Capable (hw_MIG hw)) b) | None => false end then false else
  if negb (list_len0 (sr_MIGProfiles include)) && negb (anyMIGProfile (sr_MIGProfiles include) (migProfiles (hw_MIG hw)))
  then false else true.

Definition matchesExclude (exclude : GPUPoolSelectorRules) (dev : GPUDevice) : bool :=
  let hw := gd_Hardware dev in
  if negb (list_len0 (sr_InventoryIDs exclude)) && contains (sr_InventoryIDs exclude) (selectorID dev) then true else
  if negb (list_len0 (sr_Products exclude)) && contains (sr_Products exclude) (hw_Product hw) then true else
  if negb (list_len0 (sr_PCIVendors exclude)) && contains (sr_PCIVendors exclude) (pa_Vendor (hw_PCI hw)) then true else
  if negb (list_len0 (sr_PCIDevices exclude)) && contains (sr_PCIDevices exclude) (pa_Device (hw_PCI hw)) then true else
  if match sr_MIGCapable exclude with Some b => Bool.eqb (mig_Capable (hw_MIG hw)) b | None => false end then true else
  if negb (list_len0 (sr_MIGProfiles exclude)) && anyMIGProfile (sr_MIGProfiles exclude) (migProfiles (hw_MIG hw))
  then true else false.

Definition FilterDevices (devices : list GPUDevice) (sel : option GPUPoolDeviceSelector) : list GPUDevice :=
  match sel with
  | None => devices
  | Some sel => List.filter (λ dev, negb (matchesExclude (gsel_Exclude sel) dev) && matchesInclude (gsel_Include sel) dev) devices
  end.

(** ** names/names.go *)

Definition ResolveResourceName (pool : GPUPool) (rawName : string) : string :=
  let name := TrimSpace rawName in
  let name := if str_eqb name "" then gp_Name pool else name in
  if Contains name "/" then
    let parts := SplitChar name "/"%char in
    if bool_decide (1 < length parts)%nat then List.last parts "" else name
  else name.
Definition PoolResourceName (pool : GPUPool) : string :=
  PoolResourcePrefixFor pool +:+ "/" +:+ ResolveResourceName pool (gp_Name pool).

(** ** tolerations/tolerations.go *)

Fixpoint buildCustomFrom (seen : gset string) (keys : list string) : list Toleration :=
  match keys with
  | [] => []
  | k :: rest =>
      if str_eqb k "" then buildCustomFrom seen rest else
      if bool_decide (k ∈ seen) then buildCustomFrom seen rest else
      mkToleration k TolerationOpExists "" "" :: buildCustomFrom ({[k]} ∪ seen) rest
  end.
Definition BuildCustom (keys : list string) : list Toleration := buildCustomFrom ∅ keys.

Definition tolerationKey (t : Toleration) : string := tol_Key t +:+ tol_Operator t +:+ tol_Value t +:+ tol_Effect t.
Fixpoint mergeExtra (seen : gset string) (extra : list Toleration) : list Toleration :=
  match extra with
  | [] => []
  | t :: rest => if bool_decide (tolerationKey t ∈ seen) then mergeExtra seen rest else t :: mergeExtra ({[tolerationKey t]} ∪ seen) rest
  end.
Definition tolerations_Merge (base extra : list Toleration) : list Toleration :=
  if list_len0 extra then base else base ++ mergeExtra (list_to_set (tolerationKey <$> base)) extra.

(** The tolerations for the taints of the nodes of a pool, in the order of the list. *)
Fixpoint taintTolerations (seen : gset string) (taints : list Taint) : list Toleration :=
  match taints with
  | [] => []
  | t :: rest =>
      let key := tnt_Key t +:+ tnt_Effect t in
      if bool_decide (key ∈ seen) then taintTolerations seen rest else
      mkToleration (tnt_Key t) TolerationOpExists "" (tnt_Effect t) :: taintTolerations ({[key]} ∪ seen) rest
  end.

(** ** controller/indexer: what a device or a node is found by *)

Definition IndexGPUDeviceByNode (dev : GPUDevice) : list string :=
  let node := gds_NodeName (gd_Status dev) in if str_eqb node "" then [] else [node].
Definition IndexGPUDeviceByPoolRefName (dev : GPUDevice) : list string :=
  match gd_PoolRef dev with None => [] | Some ref => if str_eqb (ref_Name ref) "" then [] else [ref_Name ref] end.
Definition IndexGPUDeviceByNamespacedAssignment (dev : GPUDevice) : list string :=
  let value := label (gd_Annotations dev) NamespacedAssignmentAnnotation in if str_eqb value "" then [] else [value].
Definition IndexGPUDeviceByClusterAssignment (dev : GPUDevice) : list string :=
  let value := label (gd_Annotations dev) ClusterAssignmentAnnotation in if str_eqb value "" then [] else [value].

Record Node := mkNode {
  node_Name : string;
  node_Labels : gmap string string;
  node_Taints : list Taint;
}.
#[export] Instance Node_eq_dec : EqDecision Node.
Proof. solve_decision. Defined.

Fixpoint taintKeysFrom (seen : gset string) (taints : list Taint) : list string :=
  match taints with
  | [] => []
  | t :: rest =>
      if str_eqb (tnt_Key t) "" then taintKeysFrom seen rest else
      if bool_decide (tnt_Key t ∈ seen) then taintKeysFrom seen rest else
      tnt_Key t :: taintKeysFrom ({[tnt_Key t]} ∪ seen) rest
  end.
Definition IndexNodeByTaintKey (node : Node) : list string := taintKeysFrom ∅ (node_Taints node).
Definition IndexGPUPoolByName (pool : GPUPool) : list string := if str_eqb (gp_Name pool) "" then [] else [gp_Name pool].

(** ** Lemmas *)

Lemma label_ne m key value : value ≠ "" → label m key = value ↔ m !! key = Some value.
Proof. intros Hne. unfold label. destruct (m !! key); simpl; split; congruence. Qed.

Lemma contains_spec l value : contains l value = true ↔ value ∈ l.
Proof.
  unfold contains. rewrite existsb_exists. setoid_rewrite list_elem_of_In. split.
  - intros (v & Hin & Hv). go_bool. by subst.
  - intros Hin. exists value. split; [done|]. by go_bool.
Qed.

Lemma anyMIGProfile_spec want supported : anyMIGProfile want supported = true ↔ ∃ p, p ∈ want ∧ p ∈ supported.
Proof.
  unfold anyMIGProfile. rewrite existsb_exists.
  setoid_rewrite contains_spec. setoid_rewrite list_elem_of_In. done.
Qed.

Lemma taintKeysFrom_spec seen taints key : key ∈ taintKeysFrom seen taints ↔ (key ≠ "") ∧ (key ∉ seen) ∧ key ∈ (tnt_Key <$> taints).
Proof.
  revert seen. induction taints as [|t rest IH]; intros seen; simpl; [set_solver|].
  destruct (str_eqb (tnt_Key t) "") eqn:He; go_bool; [rewrite IH; set_solver|].
  case_bool_decide; [rewrite IH; set_solver|]. rewrite elem_of_cons, IH, not_elem_of_union, elem_of_cons, not_elem_of_singleton.
  destruct (decide (key = tnt_Key t)); naive_solver.
Qed.

Lemma IndexNodeByTaintKey_spec node key : key ∈ IndexNodeByTaintKey node ↔ (key ≠ "") ∧ key ∈ (tnt_Key <$> node_Taints node).
Proof. unfold IndexNodeByTaintKey. rewrite taintKeysFrom_spec. set_solver. Qed.

Lemma TrimFunc_idem p s : TrimFunc p (TrimFunc p s) = TrimFunc p s.
Proof.
  unfold TrimFunc at 2 3. destruct (TrimRightFunc_ends p (TrimLeftFunc p s)) as [->|He]; [done|].
  apply TrimFunc_id; [|done]. destruct (TrimLeftFunc_starts p s) as [Hs|Hs]; [|by apply TrimRightFunc_starts].
  by rewrite Hs in He.
Qed.
Lemma TrimSpace_idem s : TrimSpace (TrimSpace s) = TrimSpace s.
Proof. apply TrimFunc_idem. Qed.
