(* ===== verification/PoolAdmission.v ===== *)
(** * Admission of pools

    service/pool/admission with its validators, and the webhooks of GPUPool and
    ClusterGPUPool.  A validator changes the spec it checks, so it returns the
    spec also when it fails.  The theorems: what a pool must be to be admitted,
    that admission is a normal form, and that pools admitted one after the
    other have names of their own and keep their immutable part. *)

From S2P Require Import Prelude GoLib GpuApi PoolApi.

From Stdlib Require Import Ascii.

(** ** validators/helpers.go *)

Fixpoint dropDigits (s : string) : string :=
  match s with
  | EmptyString => EmptyString
  | String c s' => if is_digit c then dropDigits s' else s
  end.
(** [[0-9]+] at the start of the text: what follows. *)
Definition matchDigits (s : string) : option string :=
  match s with
  | EmptyString => None
  | String c s' => if is_digit c then Some (dropDigits s') else None
  end.

(** The regular expression [^[0-9]+g\.[0-9]+gb$] *)
Definition migProfileRE (s : string) : bool :=
  match matchDigits s with
  | None => false
  | Some rest =>
      if negb (HasPrefix rest "g.") then false else
      match matchDigits (TrimPrefix rest "g.") with
      | None => false
      | Some rest' => str_eqb rest' "gb"
      end
  end.
Definition isValidMIGProfile (s : string) : bool := migProfileRE (ToLower s).

Definition is_hex_digit (c : ascii) : bool :=
  let n := N_of_ascii c in is_digit c || ((97 <=? n) && (n <=? 102) || (65 <=? n) && (n <=? 70))%N.
Definition isHex4 (s : string) : bool := (String.length s =? 4)%nat && all_chars is_hex_digit s.

Fixpoint dedupFrom (seen : gset string) (items : list string) : list string :=
  match items with
  | [] => []
  | v :: rest =>
      let v := TrimSpace v in
      if str_eqb v "" then dedupFrom seen rest else
      if bool_decide (v ∈ seen) then dedupFrom seen rest else v :: dedupFrom ({[v]} ∪ seen) rest
  end.
Definition dedupStrings (items : list string) : list string := sort_Strings (dedupFrom ∅ items).

(** ** validators/types.go, run.go *)

Definition SpecValidator : Type := GPUPoolSpec → option error * GPUPoolSpec.

Fixpoint validators_Run (validators : list SpecValidator) (spec : GPUPoolSpec) : option error * GPUPoolSpec :=
  match validators with
  | [] => (None, spec)
  | v :: rest => match v spec with (Some e, spec') => (Some e, spec') | (None, spec') => validators_Run rest spec' end
  end.

(** ** validators/provider.go, resource.go *)

Definition Provider (expected : string) : SpecValidator := λ spec,
  (if negb (str_eqb (gps_Provider spec) expected) then Some (Errorf "unsupported provider %q" [gps_Provider spec]) else None, spec).

Definition checkResource (spec : GPUPoolSpec) : option error :=
  let r := gps_Resource spec in
  if str_eqb (rs_Unit r) "" then Some (Errorf "resource.unit must be set" []) else
  let unitError :=
    if str_eqb (rs_Unit r) "Card" then
      if negb (str_eqb (rs_MIGProfile r) "") then Some (Errorf "resource.migProfile is not allowed when unit=Card" []) else None
    else if str_eqb (rs_Unit r) "MIG" then
      if str_eqb (rs_MIGProfile r) "" then Some (Errorf "resource.migProfile is required when unit=MIG" []) else
      if negb (isValidMIGProfile (rs_MIGProfile r)) then Some (Errorf "resource.migProfile %q has invalid format" [rs_MIGProfile r]) else None
    else Some (Errorf "unsupported resource.unit %q" [rs_Unit r]) in
  match unitError with
  | Some e => Some e
  | None =>
      if rs_SlicesPerUnit r <? 1 then Some (Errorf "resource.slicesPerUnit must be >= 1" []) else
      if 64 <? rs_SlicesPerUnit r then Some (Errorf "resource.slicesPerUnit must be <= 64" []) else
      if str_eqb (gps_Backend spec) "DRA" then
        if negb (str_eqb (rs_Unit r) "Card") then Some (Errorf "backend=DRA currently supports only unit=Card" []) else
        if 1 <? rs_SlicesPerUnit r then Some (Errorf "backend=DRA does not support slicesPerUnit>1" []) else None
      else None
  end.
Definition validators_Resource : SpecValidator := λ spec, (checkResource spec, spec).

(** ** validators/selectors.go *)

Definition set_DeviceSelector (sel : option GPUPoolDeviceSelector) (spec : GPUPoolSpec) : GPUPoolSpec :=
  mkPoolSpec (gps_Provider spec) (gps_Backend spec) (gps_Resource spec) (gps_NodeSelector spec) sel
    (gps_DeviceAssignment spec) (gps_Scheduling spec).

Definition noRules : GPUPoolSelectorRules := mkSelectorRules [] [] [] [] None [].
Definition dedupRules (r : GPUPoolSelectorRules) : GPUPoolSelectorRules :=
  mkSelectorRules (dedupStrings (sr_InventoryIDs r)) (dedupStrings (sr_Products r)) (dedupStrings (sr_PCIVendors r))
    (dedupStrings (sr_PCIDevices r)) (sr_MIGCapable r) (dedupStrings (sr_MIGProfiles r)).

Definition firstError {A} (check : A → option error) (l : list A) : option error := head (omap check l).

Section Validators.
Context `{LabelSelectors}.

(** The checks of [Selectors], on the deduplicated selector. *)
Definition checkSelectors (sel : GPUPoolDeviceSelector) (spec : GPUPoolSpec) : option error :=
  let both f := f (gsel_Include sel) ++ f (gsel_Exclude sel) in
  match firstError (λ v, if isHex4 v then None else Some (Errorf "pci vendor %q must be 4-digit hex without 0x" [v])) (both sr_PCIVendors) with
  | Some e => Some e
  | None =>
  match firstError (λ d, if isHex4 d then None else Some (Errorf "pci device %q must be 4-digit hex without 0x" [d])) (both sr_PCIDevices) with
  | Some e => Some e
  | None =>
  match firstError (λ p, if isValidMIGProfile p then None else Some (Errorf "migProfile %q has invalid format" [p])) (both sr_MIGProfiles) with
  | Some e => Some e
  | None =>
  match (match gps_NodeSelector spec with None => Ok None | Some s => Some <$> LabelSelectorAsSelector s end) with
  | Err e => Some (Wrapf "invalid nodeSelector: %w" [] e)
  | Ok _ =>
  match (match as_AutoApproveSelector (gps_DeviceAssignment spec) with None => Ok None | Some s => Some <$> LabelSelectorAsSelector s end) with
  | Err e => Some (Wrapf "invalid deviceAssignment.autoApproveSelector: %w" [] e)
  | Ok _ => None
  end end end end end.

Definition Selectors : SpecValidator := λ spec,
  let sel := default (mkPoolDeviceSelector noRules noRules) (gps_DeviceSelector spec) in
  let sel := mkPoolDeviceSelector (dedupRules (gsel_Include sel)) (dedupRules (gsel_Exclude sel)) in
  let spec := set_DeviceSelector (Some sel) spec in
  (checkSelectors sel spec, spec).

(** ** validators/scheduling.go *)

Definition set_Scheduling (s : GPUPoolSchedulingSpec) (spec : GPUPoolSpec) : GPUPoolSpec :=
  mkPoolSpec (gps_Provider spec) (gps_Backend spec) (gps_Resource spec) (gps_NodeSelector spec) (gps_DeviceSelector spec)
    (gps_DeviceAssignment spec) s.
Definition set_Taints (enabled : option bool) (taints : list GPUPoolTaintSpec) (s : GPUPoolSchedulingSpec) : GPUPoolSchedulingSpec :=
  mkSchedulingSpec (sch_Strategy s) (sch_TopologyKey s) enabled taints.

(** The taints are trimmed in place; the loop stops at a taint without a key. *)
Fixpoint trimTaints (i : Z) (taints : list GPUPoolTaintSpec) : option error * list GPUPoolTaintSpec :=
  match taints with
  | [] => (None, [])
  | t :: rest =>
      if str_eqb (TrimSpace (ts_Key t)) "" then (Some (Errorf "taints[%d].key must be set" [Itoa i]), t :: rest) else
      let '(err, rest') := trimTaints (i + 1) rest in
      (err, mkTaintSpec (TrimSpace (ts_Key t)) (TrimSpace (ts_Value t)) (TrimSpace (ts_Effect t)) :: rest')
  end.

Definition Scheduling : SpecValidator := λ spec,
  let s := gps_Scheduling spec in
  if negb (bool_decide (sch_Strategy s ∈ [""; GPUPoolSchedulingBinPack; GPUPoolSchedulingSpread]))
  then (Some (Errorf "unsupported scheduling.strategy %q" [sch_Strategy s]), spec) else
  if str_eqb (sch_Strategy s) GPUPoolSchedulingSpread && str_eqb (sch_TopologyKey s) ""
  then (Some (Errorf "scheduling.topologyKey is required when strategy=Spread" []), spec) else
  let enabled := match sch_TaintsEnabled s with None => Some true | e => e end in
  let '(err, taints) := trimTaints 0 (sch_Taints s) in
  (err, set_Scheduling (set_Taints enabled taints s) spec).

(** ** admission/defaults.go, handler.go *)

Definition defaultProvider : string := "Nvidia".
Definition defaultBackend : string := "DevicePlugin".

Definition applyDefaults (spec : GPUPoolSpec) : GPUPoolSpec :=
  let r := gps_Resource spec in
  let s := gps_Scheduling spec in
  let strategy := if str_eqb (sch_Strategy s) "" then GPUPoolSchedulingSpread else sch_Strategy s in
  let topologyKey :=
    if str_eqb (sch_TopologyKey s) "" && str_eqb strategy GPUPoolSchedulingSpread then "topology.kubernetes.io/zone" else sch_TopologyKey s in
  mkPoolSpec (if str_eqb (gps_Provider spec) "" then defaultProvider else gps_Provider spec)
    (if str_eqb (gps_Backend spec) "" then defaultBackend else gps_Backend spec)
    (mkResourceSpec (rs_Unit r) (rs_MIGProfile r) (rs_MaxDevicesPerNode r) (if rs_SlicesPerUnit r =? 0 then 1 else rs_SlicesPerUnit r))
    (gps_NodeSelector spec) (gps_DeviceSelector spec) (gps_DeviceAssignment spec)
    (mkSchedulingSpec strategy topologyKey (sch_TaintsEnabled s) (sch_Taints s)).

Definition specChecks : list SpecValidator := [Provider defaultProvider; validators_Resource; Selectors; Scheduling].

Definition SyncPool (pool : GPUPool) : option error * GPUPool :=
  if str_eqb (TrimSpace (gp_Name pool)) "" then (Some (Errorf "metadata.name must be set" []), pool) else
  let '(err, spec) := validators_Run specChecks (applyDefaults (gp_Spec pool)) in
  (err, set_PoolSpec spec pool).

(** ** What is admitted

    A list of a rule in its normal form: trimmed, without the empty string and
    repetitions, in order. *)
Record rule_normal (l : list string) : Prop := {
  rn_sorted : StronglySorted String.le l;
  rn_unique : NoDup l;
  rn_trimmed : Forall (λ v, v ≠ "" ∧ TrimSpace v = v) l;
}.

Definition rules_normal (r : GPUPoolSelectorRules) : Prop :=
  rule_normal (sr_InventoryIDs r) ∧ rule_normal (sr_Products r) ∧ rule_normal (sr_PCIVendors r) ∧
  rule_normal (sr_PCIDevices r) ∧ rule_normal (sr_MIGProfiles r) ∧
  Forall (λ v, isHex4 v = true) (sr_PCIVendors r) ∧ Forall (λ v, isHex4 v = true) (sr_PCIDevices r) ∧
  Forall (λ v, isValidMIGProfile v = true) (sr_MIGProfiles r).

Definition selector_ok (s : option LabelSelector) : Prop :=
  match s with None => True | Some s => ∃ c, LabelSelectorAsSelector s = Ok c end.

Definition unit_valid (r : GPUPoolResourceSpec) : Prop :=
  rs_Unit r = "Card" ∧ rs_MIGProfile r = "" ∨ rs_Unit r = "MIG" ∧ isValidMIGProfile (rs_MIGProfile r) = true.

Record spec_valid (spec : GPUPoolSpec) : Prop := {
  sv_provider : gps_Provider spec = "Nvidia";
  sv_backend : gps_Backend spec ≠ "";
  sv_unit : unit_valid (gps_Resource spec);
  sv_slices : 1 ≤ rs_SlicesPerUnit (gps_Resource spec) ≤ 64;
  sv_dra : gps_Backend spec = "DRA" → rs_Unit (gps_Resource spec) = "Card" ∧ rs_SlicesPerUnit (gps_Resource spec) = 1;
  sv_selector : ∃ sel, gps_DeviceSelector spec = Some sel ∧ rules_normal (gsel_Include sel) ∧ rules_normal (gsel_Exclude sel);
  sv_nodes : selector_ok (gps_NodeSelector spec);
  sv_approve : selector_ok (as_AutoApproveSelector (gps_DeviceAssignment spec));
  sv_strategy : sch_Strategy (gps_Scheduling spec) ∈ [GPUPoolSchedulingBinPack; GPUPoolSchedulingSpread];
  sv_topology : sch_Strategy (gps_Scheduling spec) = GPUPoolSchedulingSpread → sch_TopologyKey (gps_Scheduling spec) ≠ "";
  sv_enabled : sch_TaintsEnabled (gps_Scheduling spec) ≠ None;
  sv_taints : Forall (λ t, ts_Key t ≠ "" ∧ TrimSpace (ts_Key t) = ts_Key t ∧ TrimSpace (ts_Value t) = ts_Value t ∧
                           TrimSpace (ts_Effect t) = ts_Effect t) (sch_Taints (gps_Scheduling spec));
}.

(** The normal form of a spec: defaults, trimmed taints and clean rules. *)
Definition trimTaint (t : GPUPoolTaintSpec) : GPUPoolTaintSpec :=
  mkTaintSpec (TrimSpace (ts_Key t)) (TrimSpace (ts_Value t)) (TrimSpace (ts_Effect t)).
Definition dedupSelector (sel : GPUPoolDeviceSelector) : GPUPoolDeviceSelector :=
  mkPoolDeviceSelector (dedupRules (gsel_Include sel)) (dedupRules (gsel_Exclude sel)).
Definition normalise (spec : GPUPoolSpec) : GPUPoolSpec :=
  let spec := applyDefaults spec in
  let s := gps_Scheduling spec in
  set_Scheduling (set_Taints (match sch_TaintsEnabled s with None => Some true | e => e end) (trimTaint <$> sch_Taints s) s)
    (set_DeviceSelector (Some (dedupSelector (default (mkPoolDeviceSelector noRules noRules) (gps_DeviceSelector spec)))) spec).

(** *** Clean lists *)

Lemma dedupFrom_spec seen items v : v ∈ dedupFrom seen items ↔ (v ≠ "") ∧ (v ∉ seen) ∧ v ∈ (TrimSpace <$> items).
Proof.
  revert seen. induction items as [|w rest IH]; intros seen; simpl; [set_solver|].
  destruct (str_eqb (TrimSpace w) "") eqn:He; go_bool; [rewrite IH, elem_of_cons; naive_solver|].
  case_bool_decide; [rewrite IH, elem_of_cons; naive_solver|].
  rewrite !elem_of_cons, IH, not_elem_of_union, not_elem_of_singleton. destruct (decide (v = TrimSpace w)); naive_solver.
Qed.

Lemma dedupFrom_NoDup seen items : NoDup (dedupFrom seen items).
Proof.
  revert seen. induction items as [|w rest IH]; intros seen; simpl; [constructor|].
  destruct (str_eqb _ _); [done|]. case_bool_decide; [done|]. constructor; [|done]. rewrite dedupFrom_spec. set_solver.
Qed.

Lemma dedupStrings_spec items v : v ∈ dedupStrings items ↔ (v ≠ "") ∧ v ∈ (TrimSpace <$> items).
Proof. unfold dedupStrings. rewrite sort_Strings_perm, dedupFrom_spec. set_solver. Qed.

Lemma dedupStrings_normal items : rule_normal (dedupStrings items).
Proof.
  split; [apply sort_Strings_sorted|unfold dedupStrings; rewrite sort_Strings_perm; apply dedupFrom_NoDup|].
  apply Forall_forall. intros v [Hne Hin]%dedupStrings_spec. split; [done|].
  apply list_elem_of_fmap in Hin as (w & -> & _). apply TrimSpace_idem.
Qed.

Lemma dedupFrom_id seen l : NoDup l → Forall (λ v, v ≠ "" ∧ TrimSpace v = v) l → (∀ v, v ∈ l → v ∉ seen) → dedupFrom seen l = l.
Proof.
  revert seen. induction l as [|v l IH]; intros seen Hnd Htr Hseen; [done|]. simpl.
  apply NoDup_cons in Hnd as [Hnin Hnd]. apply Forall_cons in Htr as [[Hne ->] Htr].
  destruct (str_eqb v "") eqn:He; go_bool; [done|]. rewrite bool_decide_eq_false_2 by (apply Hseen; left).
  f_equal. apply IH; [done..|]. intros w Hw. apply not_elem_of_union. split; [set_solver|apply Hseen; by right].
Qed.

Lemma dedupStrings_id l : rule_normal l → dedupStrings l = l.
Proof.
  intros [Hs Hn Ht]. unfold dedupStrings. rewrite dedupFrom_id by set_solver.
  eapply (StronglySorted_unique String.le); [apply sort_Strings_sorted|done|apply sort_Strings_perm].
Qed.

Lemma dedupStrings_idem l : dedupStrings (dedupStrings l) = dedupStrings l.
Proof. apply dedupStrings_id, dedupStrings_normal. Qed.

(** *** Each check *)

Lemma firstError_None {A} (check : A → option error) l : firstError check l = None ↔ Forall (λ a, check a = None) l.
Proof.
  unfold firstError. induction l as [|a l IH]; simpl; [split; [constructor|done]|]. rewrite Forall_cons, <- IH.
  destruct (check a); simpl; naive_solver.
Qed.

Lemma firstError_test {A} (test : A → bool) (e : A → error) l :
  firstError (λ a, if test a then None else Some (e a)) l = None ↔ Forall (λ a, test a = true) l.
Proof. rewrite firstError_None. apply Forall_iff. intros a. by destruct (test a). Qed.

Lemma unit_valid_profile : isValidMIGProfile "" = false.
Proof. reflexivity. Qed.

Lemma checkResource_None spec : checkResource spec = None ↔
  unit_valid (gps_Resource spec) ∧ 1 ≤ rs_SlicesPerUnit (gps_Resource spec) ≤ 64 ∧
  (gps_Backend spec = "DRA" → rs_Unit (gps_Resource spec) = "Card" ∧ rs_SlicesPerUnit (gps_Resource spec) = 1).
Proof.
  unfold checkResource, unit_valid. destruct spec as [prov back [u prof mx n] nodes sel asg sch]; simpl.
  destruct (str_eqb u "") eqn:H1; go_bool; [subst; naive_solver|].
  destruct (str_eqb u "Card") eqn:H2; go_bool.
  - subst u. destruct (str_eqb prof "") eqn:H3; go_bool; simpl; [subst prof|naive_solver].
    destruct (Z.ltb_spec n 1); [naive_solver lia|]. destruct (Z.ltb_spec 64 n); [naive_solver lia|].
    destruct (str_eqb back "DRA") eqn:H4; go_bool; [|naive_solver lia].
    destruct (Z.ltb_spec 1 n); [naive_solver lia|]. split; [|done]. intros _. split; [by left|]. split; [lia|]. intros _. split; [done|lia].
  - destruct (str_eqb u "MIG") eqn:H3; go_bool; [subst u|naive_solver].
    destruct (str_eqb prof "") eqn:H5; go_bool; [subst prof; rewrite unit_valid_profile; naive_solver|].
    destruct (isValidMIGProfile prof) eqn:Hp; simpl; [|naive_solver].
    destruct (Z.ltb_spec n 1); [naive_solver lia|]. destruct (Z.ltb_spec 64 n); [naive_solver lia|].
    destruct (str_eqb back "DRA") eqn:H4; go_bool; [naive_solver|]. split; [|done]. intros _. split; [by right|]. split; [lia|done].
Qed.

Lemma compiled_ok (s : option LabelSelector) :
  selector_ok s ↔ ∃ c, (match s with None => Ok None | Some s => Some <$> LabelSelectorAsSelector s end) = Ok c.
Proof. destruct s as [s|]; simpl; [|naive_solver]. destruct (LabelSelectorAsSelector s); naive_solver. Qed.

Definition rules_checked (r : GPUPoolSelectorRules) : Prop :=
  Forall (λ v, isHex4 v = true) (sr_PCIVendors r) ∧ Forall (λ v, isHex4 v = true) (sr_PCIDevices r) ∧
  Forall (λ v, isValidMIGProfile v = true) (sr_MIGProfiles r).

Lemma checkSelectors_None sel spec : checkSelectors sel spec = None ↔
  rules_checked (gsel_Include sel) ∧ rules_checked (gsel_Exclude sel) ∧
  selector_ok (gps_NodeSelector spec) ∧ selector_ok (as_AutoApproveSelector (gps_DeviceAssignment spec)).
Proof.
  unfold checkSelectors, rules_checked. rewrite !compiled_ok.
  pose proof (firstError_test isHex4 (λ v, Errorf "pci vendor %q must be 4-digit hex without 0x" [v])
    (sr_PCIVendors (gsel_Include sel) ++ sr_PCIVendors (gsel_Exclude sel))) as H1.
  pose proof (firstError_test isHex4 (λ v, Errorf "pci device %q must be 4-digit hex without 0x" [v])
    (sr_PCIDevices (gsel_Include sel) ++ sr_PCIDevices (gsel_Exclude sel))) as H2.
  pose proof (firstError_test isValidMIGProfile (λ v, Errorf "migProfile %q has invalid format" [v])
    (sr_MIGProfiles (gsel_Include sel) ++ sr_MIGProfiles (gsel_Exclude sel))) as H3.
  rewrite Forall_app in H1, H2, H3. cbv beta zeta in *.
  do 3 (match goal with |- context [firstError ?f ?l] => destruct (firstError f l) end; [split; [discriminate|tauto]|]).
  destruct (proj1 H1 eq_refl), (proj1 H2 eq_refl), (proj1 H3 eq_refl).
  match goal with |- context [match ?x with Ok _ => _ | Err _ => _ end] => destruct x end; [|split; [discriminate|naive_solver]].
  match goal with |- context [match ?x with Ok _ => _ | Err _ => _ end] => destruct x end; [|split; [discriminate|naive_solver]].
  split; [intros _|done]. split_and!; eauto; naive_solver.
Qed.

Lemma trimTaints_spec i taints : let '(err, out) := trimTaints i taints in
  (err = None ↔ Forall (λ t, TrimSpace (ts_Key t) ≠ "") taints) ∧ (err = None → out = trimTaint <$> taints).
Proof.
  revert i. induction taints as [|t rest IH]; intros i; simpl; [naive_solver|].
  destruct (str_eqb (TrimSpace (ts_Key t)) "") eqn:He; go_bool; [rewrite Forall_cons; naive_solver|].
  specialize (IH (i + 1)). destruct (trimTaints (i + 1) rest) as [err out]. rewrite Forall_cons. naive_solver.
Qed.

(** *** The handler *)

Lemma rules_normal_split r : rules_normal r ↔ dedupRules r = r ∧ rules_checked r.
Proof.
  unfold rules_normal, rules_checked, dedupRules. destruct r as [ids prods vends devs cap profs]; simpl. split.
  - intros (? & ? & ? & ? & ? & ?). rewrite !dedupStrings_id by done. done.
  - intros [[= H1 H2 H3 H4 H5] Hc]. split_and!; [rewrite <- H1|rewrite <- H2|rewrite <- H3|rewrite <- H4|rewrite <- H5|tauto..]; apply dedupStrings_normal.
Qed.

Lemma dedupRules_idem r : dedupRules (dedupRules r) = dedupRules r.
Proof. unfold dedupRules; simpl. by rewrite !dedupStrings_idem. Qed.

Lemma Run_specChecks spec0 spec' : gps_Backend spec0 ≠ "" → sch_Strategy (gps_Scheduling spec0) ≠ "" →
  let norm := set_Scheduling (set_Taints (match sch_TaintsEnabled (gps_Scheduling spec0) with None => Some true | e => e end)
                  (trimTaint <$> sch_Taints (gps_Scheduling spec0)) (gps_Scheduling spec0))
                (set_DeviceSelector (Some (dedupSelector (default (mkPoolDeviceSelector noRules noRules) (gps_DeviceSelector spec0)))) spec0) in
  validators_Run specChecks spec0 = (None, spec') ↔ spec' = norm ∧ spec_valid norm.
Proof.
  intros Hb Hs norm. unfold specChecks. cbn [validators_Run]. unfold Provider at 1.
  destruct (str_eqb (gps_Provider spec0) defaultProvider) eqn:Hp; go_bool; cbn [negb];
    [|split; [discriminate|]; intros [_ Hv]; destruct (Hp (sv_provider _ Hv))].
  unfold validators_Resource at 1. destruct (checkResource spec0) as [e|] eqn:Hr.
  { split; [discriminate|]. intros [_ Hv]. exfalso. assert (checkResource spec0 = None); [|congruence].
    apply checkResource_None. split; [exact (sv_unit _ Hv)|]. split; [exact (sv_slices _ Hv)|exact (sv_dra _ Hv)]. }
  apply checkResource_None in Hr as (Hu & Hsl & Hdra).
  unfold Selectors at 1. set (sel := dedupSelector _) in norm.
  change (mkPoolDeviceSelector (dedupRules _) (dedupRules _)) with sel.
  destruct (checkSelectors _ _) as [e|] eqn:Hc.
  { split; [discriminate|]. intros [_ Hv]. exfalso.
    assert (checkSelectors sel (set_DeviceSelector (Some sel) spec0) = None); [|congruence]. apply checkSelectors_None.
    destruct (sv_selector _ Hv) as (sel' & [= <-] & Hi & He). split; [by apply rules_normal_split in Hi as []|]. split; [by apply rules_normal_split in He as []|].
    split; [exact (sv_nodes _ Hv)|exact (sv_approve _ Hv)]. }
  apply checkSelectors_None in Hc as (Hi & He & Hn & Ha).
  unfold Scheduling at 1. cbn [gps_Scheduling set_DeviceSelector].
  pose proof (trimTaints_spec 0 (sch_Taints (gps_Scheduling spec0))) as Ht.
  destruct (trimTaints 0 (sch_Taints (gps_Scheduling spec0))) as [err taints]. destruct Ht as [Ht1 Ht2].
  case_bool_decide as Hst; cbn [negb].
  2: { split; [discriminate|]. intros [_ Hv]. destruct Hst. right. exact (sv_strategy _ Hv). }
  destruct (str_eqb (sch_Strategy (gps_Scheduling spec0)) GPUPoolSchedulingSpread && str_eqb (sch_TopologyKey (gps_Scheduling spec0)) "") eqn:Htop;
    go_bool.
  { split; [discriminate|]. intros [_ Hv]. destruct Htop as [H1 H2]. destruct (sv_topology _ Hv H1 H2). }
  assert (Forall (λ t, ts_Key t ≠ "" ∧ TrimSpace (ts_Key t) = ts_Key t ∧ TrimSpace (ts_Value t) = ts_Value t ∧
      TrimSpace (ts_Effect t) = ts_Effect t) (trimTaint <$> sch_Taints (gps_Scheduling spec0)) ↔ err = None) as Htaints.
  { rewrite Ht1, Forall_fmap. apply Forall_iff. intros t. simpl. rewrite !TrimSpace_idem. naive_solver. }
  destruct err as [e|].
  { split; [discriminate|]. intros [_ Hv]. pose proof (sv_taints _ Hv) as Hv'. by apply Htaints in Hv'. }
  rewrite (Ht2 eq_refl). split; [|by intros [-> _]]. intros [= <-]. split; [done|].
  split; simpl; try done.
  - exists sel. split; [done|]. unfold sel, dedupSelector. simpl. rewrite !rules_normal_split, !dedupRules_idem. done.
  - set_solver.
  - naive_solver.
  - by destruct (sch_TaintsEnabled _).
  - by apply Htaints.
Qed.

Lemma applyDefaults_set spec : gps_Backend (applyDefaults spec) ≠ "" ∧ sch_Strategy (gps_Scheduling (applyDefaults spec)) ≠ "".
Proof.
  unfold applyDefaults. simpl. split; [destruct (str_eqb (gps_Backend spec) "") eqn:E|destruct (str_eqb (sch_Strategy _) "") eqn:E]; by go_bool.
Qed.

Lemma SyncPool_spec pool pool' : SyncPool pool = (None, pool') ↔
  TrimSpace (gp_Name pool) ≠ "" ∧ pool' = set_PoolSpec (normalise (gp_Spec pool)) pool ∧ spec_valid (normalise (gp_Spec pool)).
Proof.
  unfold SyncPool. destruct (str_eqb (TrimSpace (gp_Name pool)) "") eqn:Hn; go_bool; [split; [discriminate|naive_solver]|].
  destruct (applyDefaults_set (gp_Spec pool)) as [Hb Hs].
  pose proof (λ spec', Run_specChecks (applyDefaults (gp_Spec pool)) spec' Hb Hs) as Hr. cbv zeta in Hr.
  change (set_Scheduling _ _) with (normalise (gp_Spec pool)) in Hr.
  destruct (validators_Run specChecks (applyDefaults (gp_Spec pool))) as [err spec']. destruct err as [e|]; split.
  - discriminate.
  - intros (_ & _ & Hv). by pose proof (proj2 (Hr _) (conj eq_refl Hv)).
  - intros [= <-]. destruct (proj1 (Hr spec') eq_refl) as [-> Hv]. done.
  - intros (_ & -> & Hv). pose proof (proj2 (Hr _) (conj eq_refl Hv)) as [= ->]. done.
Qed.

(** A valid spec is its own normal form. *)
Lemma normalise_valid spec : spec_valid spec → normalise spec = spec.
Proof.
  intros Hv. destruct (sv_selector _ Hv) as (sel & Hsel & Hi & He). unfold normalise.
  assert (applyDefaults spec = spec) as ->.
  { pose proof (sv_provider _ Hv) as Hp. pose proof (sv_backend _ Hv) as Hb. pose proof (sv_slices _ Hv) as Hsl.
    pose proof (sv_strategy _ Hv) as Hst. pose proof (sv_topology _ Hv) as Htop. unfold applyDefaults.
    destruct spec as [prov back [u prof mx n] nodes sel' asg [strat topo en taints]]; simpl in *. subst prov.
    destruct (str_eqb back "") eqn:E1; go_bool; [done|]. destruct (Z.eqb_spec n 0); [lia|].
    assert (strat ≠ "") as Hne by (intros ->; set_solver). destruct (str_eqb strat "") eqn:E2; go_bool; [done|].
    destruct (str_eqb topo "" && str_eqb strat GPUPoolSchedulingSpread) eqn:E3; go_bool; [|done]. destruct E3 as [-> ->]. by destruct (Htop eq_refl). }
  assert (trimTaint <$> sch_Taints (gps_Scheduling spec) = sch_Taints (gps_Scheduling spec)) as ->.
  { pose proof (sv_taints _ Hv) as Ht. induction Ht as [|t l (_ & H1 & H2 & H3) _ IH]; [done|].
    rewrite fmap_cons, IH. unfold trimTaint. rewrite H1, H2, H3. by destruct t. }
  rewrite Hsel. simpl. apply rules_normal_split in Hi as [Hi _], He as [He _]. unfold dedupSelector. rewrite Hi, He.
  pose proof (sv_enabled _ Hv) as Hen.
  destruct spec as [prov back r nodes sel' asg [strat topo [en|] taints]], sel; simpl in *; subst; done.
Qed.

(** ** The webhooks: pool/gpupool/internal/webhook/webhook.go

    The object of a request has the expected type or another one. *)

Inductive AdmObject (A : Type) := Expected (a : A) | OtherType (T : string).
#[global] Arguments Expected {A} a.
#[global] Arguments OtherType {A} T.

Definition AdmissionHandler : Type := GPUPool → option error * GPUPool.
Definition admissionHandlers : list AdmissionHandler := [SyncPool].

Fixpoint runAdmission (handlers : list AdmissionHandler) (pool : GPUPool) : option error * GPUPool :=
  match handlers with
  | [] => (None, pool)
  | h :: rest => match h pool with (Some e, pool') => (Some e, pool') | (None, pool') => runAdmission rest pool' end
  end.

Record immutableSpec := mkImmutableSpec {
  im_Provider : string;
  im_Backend : string;
  im_Resource : GPUPoolResourceSpec;
  im_DeviceSelector : option GPUPoolDeviceSelector;
  im_NodeSelector : option LabelSelector;
  im_Scheduling : GPUPoolSchedulingSpec;
}.
#[global] Instance immutableSpec_eq_dec : EqDecision immutableSpec.
Proof. solve_decision. Defined.

Definition immutableView (p : GPUPool) : immutableSpec :=
  let spec := gp_Spec p in
  mkImmutableSpec (gps_Provider spec) (gps_Backend spec) (gps_Resource spec) (gps_DeviceSelector spec) (gps_NodeSelector spec)
    (gps_Scheduling spec).
Definition immutableEqual (old cur : GPUPool) : bool := bool_decide (immutableView old = immutableView cur).

(** The pools as the client of a webhook reads them. *)
Class PoolReader (S : Type) := {
  rd_GetClusterPool : string → S → res GPUPool;
  rd_ListPools : S → res (list GPUPool);
  rd_IsNotFound : error → bool;
}.

Section Webhooks.
Context {S : Type} `{PoolReader S}.

Definition fetchClusterPool (name : string) (c : S) : res (option GPUPool) :=
  match rd_GetClusterPool name c with
  | Ok p => Ok (Some p)
  | Err e => if rd_IsNotFound e then Ok None else Err e
  end.

Definition validateNamespacedPoolNameUnique (c : option S) (pool : GPUPool) (admissionNamespace : string) : option error :=
  match c with
  | None => Some (Errorf "webhook client is not configured" [])
  | Some c =>
      let ns := if str_eqb (gp_Namespace pool) "" then admissionNamespace else gp_Namespace pool in
      let name := TrimSpace (gp_Name pool) in
      if str_eqb name "" then None else
      match fetchClusterPool name c with
      | Err e => Some (Wrapf "check ClusterGPUPool %q: %w" [name] e)
      | Ok (Some _) => Some (Errorf "GPUPool name %q conflicts with existing ClusterGPUPool of the same name" [name])
      | Ok None =>
          match rd_ListPools c with
          | Err e => Some (Wrapf "list GPUPools: %w" [] e)
          | Ok items =>
              let namespaces := gp_Namespace <$> filter (λ item, gp_Name item = name ∧ gp_Namespace item ≠ ns) items in
              if list_len0 namespaces then None else
              Some (Errorf "GPUPool name %q must be unique cluster-wide (found in namespaces: %s)"
                      [name; Join (sort_Strings namespaces) ", "])
          end
      end
  end.

(** [reqNamespace] is the namespace of the request, when the context has one. *)
Definition admissionNamespaceOf (pool : GPUPool) (reqNamespace : option string) : string :=
  if str_eqb (gp_Namespace pool) "" then default "" reqNamespace else gp_Namespace pool.

Definition ValidateCreate (c : option S) (reqNamespace : option string) (obj : AdmObject GPUPool) : option error :=
  match obj with
  | OtherType T => Some (Errorf "expected a GPUPool but got a %T" [T])
  | Expected pool =>
      match validateNamespacedPoolNameUnique c pool (admissionNamespaceOf pool reqNamespace) with
      | Some e => Some e
      | None => fst (runAdmission admissionHandlers pool)
      end
  end.

Definition ValidateUpdate (c : option S) (reqNamespace : option string) (oldObj newObj : AdmObject GPUPool) : option error :=
  match oldObj, newObj with
  | OtherType T, _ => Some (Errorf "expected an old GPUPool but got a %T" [T])
  | _, OtherType T => Some (Errorf "expected a new GPUPool but got a %T" [T])
  | Expected oldPool, Expected newPool =>
      if negb (immutableEqual oldPool newPool) then Some (Errorf "immutable fields of GPUPool cannot be changed" []) else
      match validateNamespacedPoolNameUnique c newPool (admissionNamespaceOf newPool reqNamespace) with
      | Some e => Some e
      | None => fst (runAdmission admissionHandlers newPool)
      end
  end.

Definition GPUPoolDefault (obj : AdmObject GPUPool) : res GPUPool :=
  match obj with
  | OtherType T => Err (Errorf "expected a GPUPool but got a %T" [T])
  | Expected pool => match runAdmission admissionHandlers pool with (Some e, _) => Err e | (None, pool') => Ok pool' end
  end.

(** ** pool/clustergpupool/internal/webhook/webhook.go *)

Definition clusterPoolAsGPUPool (pool : GPUPool) : GPUPool :=
  mkGPUPool (if str_eqb (gp_Kind pool) "" then "ClusterGPUPool" else gp_Kind pool) (gp_Name pool) (gp_Namespace pool) (gp_UID pool)
    (gp_Generation pool) (gp_Spec pool) (gp_Status pool).

Definition validateClusterPoolNameUnique (c : option S) (pool : GPUPool) : option error :=
  match c with
  | None => Some (Errorf "webhook client is not configured" [])
  | Some c =>
      let name := TrimSpace (gp_Name pool) in
      if str_eqb name "" then None else
      match rd_ListPools c with
      | Err e => Some (Wrapf "list GPUPools: %w" [] e)
      | Ok items =>
          let namespaces := gp_Namespace <$> filter (λ item, gp_Name item = name) items in
          if list_len0 namespaces then None else
          Some (Errorf "ClusterGPUPool name %q conflicts with existing GPUPool in namespaces: %s"
                  [name; Join (sort_Strings namespaces) ", "])
      end
  end.

Definition ClusterValidateCreate (c : option S) (obj : AdmObject GPUPool) : option error :=
  match obj with
  | OtherType T => Some (Errorf "expected a ClusterGPUPool but got a %T" [T])
  | Expected pool =>
      match validateClusterPoolNameUnique c pool with
      | Some e => Some e
      | None => fst (runAdmission admissionHandlers (clusterPoolAsGPUPool pool))
      end
  end.

Definition ClusterValidateUpdate (c : option S) (oldObj newObj : AdmObject GPUPool) : option error :=
  match oldObj, newObj with
  | OtherType T, _ => Some (Errorf "expected an old ClusterGPUPool but got a %T" [T])
  | _, OtherType T => Some (Errorf "expected a new ClusterGPUPool but got a %T" [T])
  | Expected oldPool, Expected newPool =>
      if negb (immutableEqual (clusterPoolAsGPUPool oldPool) (clusterPoolAsGPUPool newPool))
      then Some (Errorf "immutable fields of ClusterGPUPool cannot be changed" []) else
      match validateClusterPoolNameUnique c newPool with
      | Some e => Some e
      | None => fst (runAdmission admissionHandlers (clusterPoolAsGPUPool newPool))
      end
  end.

Definition ClusterGPUPoolDefault (obj : AdmObject GPUPool) : res GPUPool :=
  match obj with
  | OtherType T => Err (Errorf "expected a ClusterGPUPool but got a %T" [T])
  | Expected pool =>
      match runAdmission admissionHandlers (clusterPoolAsGPUPool pool) with
      | (Some e, _) => Err e
      | (None, pool') => Ok (set_PoolSpec (gp_Spec pool') pool)
      end
  end.
End Webhooks.

(** ** Pools admitted one after the other

    The pools of the cluster by namespace and name, the cluster-wide ones in
    the empty namespace.  The webhooks read them through the cache of the
    manager, which may be behind. *)

Abbreviation Pools := (gmap (string * string) GPUPool).
Definition key_of (p : GPUPool) : string * string := (gp_Namespace p, gp_Name p).

#[global] Instance pools_reader : PoolReader Pools := {|
  rd_GetClusterPool name s := match s !! ("", name) with Some p => Ok p | None => Err (External 404) end;
  rd_ListPools s := Ok (filter (λ p, gp_Namespace p ≠ "") ((map_to_list s).*2));
  rd_IsNotFound e := bool_decide (e = External 404);
|}.

(** What the API server does with a request: the name has no spaces around it,
    a create needs a name that is not taken in its namespace, an update an
    object, the mutating webhook runs before the validating one, which reads
    [cache]; a controller changes the status. *)
Inductive admits (cache s : Pools) : Pools → Prop :=
| admit_create p p' : gp_Namespace p ≠ "" → TrimSpace (gp_Name p) = gp_Name p → s !! key_of p = None →
    GPUPoolDefault (Expected p) = Ok p' → ValidateCreate (Some cache) (Some (gp_Namespace p)) (Expected p') = None →
    admits cache s (<[key_of p' := p']> s)
| admit_update old p p' : gp_Namespace p ≠ "" → s !! key_of p = Some old →
    GPUPoolDefault (Expected p) = Ok p' → ValidateUpdate (Some cache) (Some (gp_Namespace p)) (Expected old) (Expected p') = None →
    admits cache s (<[key_of p' := p']> s)
| admit_create_cluster p p' : gp_Namespace p = "" → TrimSpace (gp_Name p) = gp_Name p → s !! key_of p = None →
    ClusterGPUPoolDefault (Expected p) = Ok p' → ClusterValidateCreate (Some cache) (Expected p') = None →
    admits cache s (<[key_of p' := p']> s)
| admit_update_cluster old p p' : gp_Namespace p = "" → s !! key_of p = Some old →
    ClusterGPUPoolDefault (Expected p) = Ok p' → ClusterValidateUpdate (Some cache) (Expected old) (Expected p') = None →
    admits cache s (<[key_of p' := p']> s)
| admit_status p st : s !! key_of p = Some p → admits cache s (<[key_of p := set_PoolStatus st p]> s)
| admit_delete k : admits cache s (delete k s).

(** The cache shows every pool there is, if perhaps not as it is now, and
    perhaps pools that are gone. *)
Definition knows (cache s : Pools) : Prop := ∀ k p, s !! k = Some p → ∃ p', cache !! k = Some p' ∧ key_of p' = k.
Definition admitted_any (s s' : Pools) : Prop := ∃ cache, admits cache s s'.
Definition admitted_fresh (s s' : Pools) : Prop := ∃ cache, knows cache s ∧ admits cache s s'.

(** The pools have names of their own, and each is a valid one. *)
Definition names_unique (s : Pools) : Prop := ∀ k k' p p', s !! k = Some p → s !! k' = Some p' → k.2 = k'.2 → k = k'.
Record pools_valid (s : Pools) : Prop := {
  po_key k p : s !! k = Some p → k = key_of p ∧ TrimSpace (gp_Name p) = gp_Name p;
  po_valid k p : s !! k = Some p → spec_valid (gp_Spec p);
}.

Lemma runAdmission_one pool pool' : runAdmission admissionHandlers pool = (None, pool') ↔ SyncPool pool = (None, pool').
Proof. unfold admissionHandlers. simpl. by destruct (SyncPool pool) as [[e|] p]. Qed.

(** What the mutating webhooks return: the pool with a valid spec. *)
Definition defaulted (p p' : GPUPool) : Prop :=
  p' = set_PoolSpec (gp_Spec p') p ∧ spec_valid (gp_Spec p') ∧ TrimSpace (gp_Name p) ≠ "".

Lemma GPUPoolDefault_defaulted p p' : GPUPoolDefault (Expected p) = Ok p' → defaulted p p'.
Proof.
  unfold GPUPoolDefault. destruct (runAdmission admissionHandlers p) as [[e|] q] eqn:Hr; [done|]. intros [= ->].
  apply runAdmission_one, SyncPool_spec in Hr as (Hn & -> & Hv). done.
Qed.

Lemma ClusterGPUPoolDefault_defaulted p p' : ClusterGPUPoolDefault (Expected p) = Ok p' → defaulted p p'.
Proof.
  unfold ClusterGPUPoolDefault. destruct (runAdmission admissionHandlers (clusterPoolAsGPUPool p)) as [[e|] q] eqn:Hr; [done|]. intros [= <-].
  apply runAdmission_one, SyncPool_spec in Hr as (Hn & -> & Hv). done.
Qed.

Lemma defaulted_key p p' : defaulted p p' → key_of p' = key_of p ∧ gp_Namespace p' = gp_Namespace p ∧ gp_Name p' = gp_Name p.
Proof. intros [-> _]. done. Qed.

Lemma filter_none {A} (P : A → Prop) `{∀ a, Decision (P a)} (l : list A) (f : A → string) :
  list_len0 (f <$> filter P l) = true → ∀ a, a ∈ l → ¬ P a.
Proof.
  intros Hl a Hin HP. assert (a ∈ filter P l) as Hf by (by apply list_elem_of_filter). destruct (filter P l); [set_solver|done].
Qed.

Lemma unique_namespaced cache s p ns : knows cache s → gp_Namespace p ≠ "" → TrimSpace (gp_Name p) = gp_Name p → gp_Name p ≠ "" →
  validateNamespacedPoolNameUnique (Some cache) p ns = None → ∀ k q, s !! k = Some q → k.2 = gp_Name p → k = key_of p.
Proof.
  intros Hknow Hns Htrim Hname Hval [kns kname] q0 Hk Hk2. simpl in Hk2. subst kname.
  destruct (Hknow _ _ Hk) as (q & Hq & [= Hkns Hqn]). clear Hk q0. subst kns. unfold validateNamespacedPoolNameUnique in Hval. rewrite Htrim in Hval.
  destruct (str_eqb (gp_Name p) "") eqn:E1; go_bool; [done|]. destruct (str_eqb (gp_Namespace p) "") eqn:E2; go_bool; [done|].
  unfold fetchClusterPool, rd_GetClusterPool, rd_ListPools, rd_IsNotFound in Hval. simpl in Hval.
  destruct (cache !! ("", gp_Name p)) as [c|] eqn:Hc; simpl in Hval; [done|].
  destruct (list_len0 _) eqn:Hl; [|done]. pose proof (filter_none _ _ _ Hl q) as Hnone.
  destruct (decide (gp_Namespace q = "")) as [He|Hne]; [rewrite He in Hq; congruence|].
  unfold key_of. f_equal. destruct (decide (gp_Namespace q = gp_Namespace p)) as [|Hd]; [done|]. exfalso. apply Hnone; [|by split].
  apply list_elem_of_filter. split; [done|]. apply list_elem_of_fmap. exists ((gp_Namespace q, gp_Name p), q). split; [done|].
  by apply elem_of_map_to_list.
Qed.

Lemma unique_cluster cache s p : knows cache s → gp_Namespace p = "" → TrimSpace (gp_Name p) = gp_Name p → gp_Name p ≠ "" →
  validateClusterPoolNameUnique (Some cache) p = None → ∀ k q, s !! k = Some q → k.2 = gp_Name p → k = key_of p.
Proof.
  intros Hknow Hns Htrim Hname Hval [kns kname] q0 Hk Hk2. simpl in Hk2. subst kname.
  destruct (Hknow _ _ Hk) as (q & Hq & [= Hkns Hqn]). clear Hk q0. subst kns. unfold validateClusterPoolNameUnique in Hval. rewrite Htrim in Hval.
  destruct (str_eqb (gp_Name p) "") eqn:E1; go_bool; [done|]. simpl in Hval.
  destruct (list_len0 _) eqn:Hl; [|done]. pose proof (filter_none _ _ _ Hl q) as Hnone. unfold key_of. f_equal.
  destruct (decide (gp_Namespace q = "")) as [He|Hne]; [congruence|]. exfalso. apply Hnone; [|done].
  apply list_elem_of_filter. split; [done|]. apply list_elem_of_fmap. exists ((gp_Namespace q, gp_Name p), q). split; [done|].
  by apply elem_of_map_to_list.
Qed.

Lemma valid_insert s p : pools_valid s → spec_valid (gp_Spec p) → TrimSpace (gp_Name p) = gp_Name p → pools_valid (<[key_of p := p]> s).
Proof.
  intros Hok Hv Ht. split.
  - intros k q [[<- <-]|[_ Hk]]%lookup_insert_Some; [done|by eapply (po_key _ Hok)].
  - intros k q [[<- <-]|[_ Hk]]%lookup_insert_Some; [done|by eapply (po_valid _ Hok)].
Qed.
Lemma valid_update s old p : pools_valid s → s !! key_of p = Some old → spec_valid (gp_Spec p) → pools_valid (<[key_of p := p]> s).
Proof. intros Hok Hold Hv. destruct (po_key _ Hok _ _ Hold) as [[= Hns Hn] Ht]. apply valid_insert; [done..|by rewrite Hn]. Qed.

Lemma unique_insert s p : names_unique s → (∀ k q, s !! k = Some q → k.2 = gp_Name p → k = key_of p) → names_unique (<[key_of p := p]> s).
Proof.
  intros Huniq Hu k k' q q' Hk Hk' Heq. apply lookup_insert_Some in Hk as [[<- _]|[Hne Hk]], Hk' as [[<- _]|[Hne' Hk']]; [done| | |].
  - by rewrite (Hu _ _ Hk' (eq_sym Heq)).
  - by rewrite (Hu _ _ Hk Heq).
  - by eapply Huniq.
Qed.
Lemma unique_update s old p : names_unique s → s !! key_of p = Some old → names_unique (<[key_of p := p]> s).
Proof. intros Huniq Hold. apply unique_insert; [done|]. intros k q Hk Heq. by eapply Huniq. Qed.

Lemma named_ne p : TrimSpace (gp_Name p) ≠ "" → gp_Name p ≠ "".
Proof. intros Hn He. by rewrite He in Hn. Qed.

Lemma valid_step cache s s' : pools_valid s → admits cache s s' → pools_valid s'.
Proof.
  intros Hok. destruct 1 as [p p' Hns Ht Hnew Hd _|old p p' Hns Hold Hd _|p p' Hns Ht Hnew Hd _|old p p' Hns Hold Hd _|p st Hp|k].
  1,2: apply GPUPoolDefault_defaulted in Hd as Hd'; destruct (defaulted_key _ _ Hd') as (Hk & Hns' & Hn); destruct Hd' as (_ & Hv & Hne).
  3,4: apply ClusterGPUPoolDefault_defaulted in Hd as Hd'; destruct (defaulted_key _ _ Hd') as (Hk & Hns' & Hn); destruct Hd' as (_ & Hv & Hne).
  1,3: apply valid_insert; [done..|by rewrite Hn].
  1,2: eapply valid_update; [done|by rewrite Hk|done].
  - change (key_of p) with (key_of (set_PoolStatus st p)). eapply valid_update; [done|exact Hp|exact (po_valid _ Hok _ _ Hp)].
  - split; intros k1 q [_ H1]%lookup_delete_Some; [by eapply (po_key _ Hok)|by eapply (po_valid _ Hok)].
Qed.

Lemma unique_step cache s s' : knows cache s → names_unique s → admits cache s s' → names_unique s'.
Proof.
  intros Hknow Huniq. destruct 1 as [p p' Hns Ht Hnew Hd Hval|old p p' Hns Hold Hd _|p p' Hns Ht Hnew Hd Hval|old p p' Hns Hold Hd _|p st Hp|k].
  - apply GPUPoolDefault_defaulted in Hd as Hd'. destruct (defaulted_key _ _ Hd') as (Hk & Hns' & Hn). destruct Hd' as (_ & Hv & Hne).
    apply unique_insert; [done|]. unfold ValidateCreate in Hval. destruct (validateNamespacedPoolNameUnique _ _ _) eqn:Hu; [done|].
    eapply (unique_namespaced cache s p'); [done|congruence|by rewrite Hn|rewrite Hn; by apply named_ne|exact Hu].
  - apply GPUPoolDefault_defaulted, defaulted_key in Hd as (Hk & _). eapply unique_update; [done|by rewrite Hk].
  - apply ClusterGPUPoolDefault_defaulted in Hd as Hd'. destruct (defaulted_key _ _ Hd') as (Hk & Hns' & Hn). destruct Hd' as (_ & Hv & Hne).
    apply unique_insert; [done|]. unfold ClusterValidateCreate in Hval. destruct (validateClusterPoolNameUnique _ _) eqn:Hu; [done|].
    eapply (unique_cluster cache s p'); [done|congruence|by rewrite Hn|rewrite Hn; by apply named_ne|exact Hu].
  - apply ClusterGPUPoolDefault_defaulted, defaulted_key in Hd as (Hk & _). eapply unique_update; [done|by rewrite Hk].
  - change (key_of p) with (key_of (set_PoolStatus st p)). eapply unique_update; [done|exact Hp].
  - intros k1 k2 q q' [_ H1]%lookup_delete_Some [_ H2]%lookup_delete_Some. by eapply Huniq.
Qed.

Lemma valid_reachable s : rtc admitted_any ∅ s → pools_valid s.
Proof.
  intros Hreach. assert (pools_valid ∅) as H0 by (split; intros *; by rewrite lookup_empty).
  revert H0. induction Hreach as [s|s1 s2 s3 [cache Hs] _ IH]; [done|]. intros H0. by eapply IH, valid_step.
Qed.
Lemma unique_reachable s : rtc admitted_fresh ∅ s → names_unique s.
Proof.
  intros Hreach. assert (names_unique ∅) as H0 by (intros ????; by rewrite lookup_empty).
  revert H0. induction Hreach as [s|s1 s2 s3 (cache & Hk & Hs) _ IH]; [done|]. intros H0. by eapply IH, unique_step.
Qed.

Lemma view_cluster p : immutableView (clusterPoolAsGPUPool p) = immutableView p.
Proof. done. Qed.

(** C32: however users create, change and delete pools one request after the
    other, whatever status the controllers write and however far the cache of
    the webhooks is behind, every pool has a valid spec in normal form, and a
    request never changes the provider, backend, resource, selectors or
    scheduling of a pool that exists; and as long as the cache shows the webhook
    all pools there are, no two pools have the same name, cluster-wide ones
    included. *)
Theorem admitted_pools cache s s' : rtc admitted_any ∅ s → admits cache s s' →
  pools_valid s' ∧ (∀ k p p', s !! k = Some p → s' !! k = Some p' → immutableView p' = immutableView p) ∧
  (rtc admitted_fresh ∅ s → knows cache s → names_unique s').
Proof.
  intros Hreach Hstep. split; [by eapply valid_step; [apply valid_reachable|]|].
  split; [|intros Hf Hk; eapply unique_step; [exact Hk|by apply unique_reachable|done]]. intros k q q' Hq.
  destruct Hstep as [p p' Hns Ht Hnew Hd Hval|old p p' Hns Hold Hd Hval|p p' Hns Ht Hnew Hd Hval|old p p' Hns Hold Hd Hval|p st Hp|k'].
  - apply GPUPoolDefault_defaulted, defaulted_key in Hd as (Hk & _). intros [[<- _]|[_ Hq']]%lookup_insert_Some; congruence.
  - apply GPUPoolDefault_defaulted, defaulted_key in Hd as (Hk & _). intros [[<- <-]|[_ Hq']]%lookup_insert_Some; [|congruence].
    unfold ValidateUpdate, immutableEqual in Hval. case_bool_decide as He; [|done]. congruence.
  - apply ClusterGPUPoolDefault_defaulted, defaulted_key in Hd as (Hk & _). intros [[<- _]|[_ Hq']]%lookup_insert_Some; congruence.
  - apply ClusterGPUPoolDefault_defaulted, defaulted_key in Hd as (Hk & _). intros [[<- <-]|[_ Hq']]%lookup_insert_Some; [|congruence].
    unfold ClusterValidateUpdate, immutableEqual in Hval. rewrite !view_cluster in Hval. case_bool_decide as He; [|done]. congruence.
  - intros [[<- <-]|[_ Hq']]%lookup_insert_Some; [|congruence]. by replace q with p by congruence.
  - intros [_ Hq']%lookup_delete_Some. congruence.
Qed.

(** admission is a normal form: a pool is accepted exactly when it has a
    name and the normal form of its spec is valid, the webhook then leaves that
    normal form, and a pool that is valid is accepted as it is, so that what the
    mutating webhook produced passes the validating one unchanged. *)
Theorem admission_normal_form pool pool' :
  (SyncPool pool = (None, pool') ↔
     TrimSpace (gp_Name pool) ≠ "" ∧ pool' = set_PoolSpec (normalise (gp_Spec pool)) pool ∧ spec_valid (normalise (gp_Spec pool))) ∧
  (SyncPool pool = (None, pool') → SyncPool pool' = (None, pool')).
Proof.
  split; [apply SyncPool_spec|]. intros (Hn & -> & Hv)%SyncPool_spec. apply SyncPool_spec. simpl. rewrite (normalise_valid _ Hv). done.
Qed.
End Validators.
