(* ===== verification/PriorityQueue.v ===== *)
(** * The work queue of the controllers

    controller/reconciler/queue.go on top of Go's container/heap.  Entries are
    shared between the heap and the map of pending items, so they live in a
    store and both hold their addresses.  Every operation holds the lock of the
    queue; [Get] blocks on an empty queue.  The heap operations are written
    against [heap.Interface] and proved on the list of what it holds. *)

From S2P Require Import Prelude.

(** ** container/heap *)

Class HeapInterface (H : Type) := {
  h_Len : H → nat;
  h_Less : H → nat → nat → bool;
  h_Swap : nat → nat → H → H;
}.

Definition heap_parent (j : nat) : nat := (j - 1) / 2.

Section Heap.
Context {H : Type} `{HeapInterface H}.

(** The loops of [up] and [down]; [fuel] bounds the levels. *)
Fixpoint heap_upN (fuel : nat) (h : H) (j : nat) : H :=
  match fuel with
  | O => h
  | S fuel =>
      let i := heap_parent j in
      if (i =? j)%nat || negb (h_Less h j i) then h else heap_upN fuel (h_Swap i j h) i
  end.
Definition heap_up (h : H) (j : nat) : H := heap_upN (S j) h j.

Fixpoint heap_downN (fuel : nat) (h : H) (i n : nat) : H * nat :=
  match fuel with
  | O => (h, i)
  | S fuel =>
      let j1 := (2 * i + 1)%nat in
      if (n <=? j1)%nat then (h, i) else
      let j2 := (j1 + 1)%nat in
      let j := if (j2 <? n)%nat && h_Less h j2 j1 then j2 else j1 in
      if negb (h_Less h j i) then (h, i) else heap_downN fuel (h_Swap i j h) j n
  end.
Definition heap_down (h : H) (i0 n : nat) : H * bool :=
  let '(h, i) := heap_downN n h i0 n in (h, (i0 <? i)%nat).

Definition heap_Fix (h : H) (i : nat) : H :=
  let '(h, moved) := heap_down h i (h_Len h) in if moved then h else heap_up h i.
End Heap.

(** ** The heap as a list

    What is proved of the loops is proved of lists, of which [h_Swap] exchanges
    two elements. *)
Section HeapList.
#[local] Open Scope nat_scope.
Context {E : Type} (less : E → E → bool).

Definition exchange (i j : nat) (l : list E) : list E :=
  match l !! i, l !! j with Some a, Some b => <[i := b]> (<[j := a]> l) | _, _ => l end.

Definition list_heap : HeapInterface (list E) := {|
  h_Len := length;
  h_Less l i j := match l !! i, l !! j with Some a, Some b => less a b | _, _ => false end;
  h_Swap := exchange;
|}.
#[local] Existing Instance list_heap.

Lemma exchange_length i j l : length (exchange i j l) = length l.
Proof. unfold exchange. destruct (l !! i), (l !! j); by rewrite ?length_insert. Qed.

Lemma exchange_lookup i j l k a b : l !! i = Some a → l !! j = Some b →
  exchange i j l !! k = if decide (k = i) then Some b else if decide (k = j) then Some a else l !! k.
Proof.
  intros Ha Hb. unfold exchange. rewrite Ha, Hb.
  pose proof (lookup_lt_Some _ _ _ Ha). pose proof (lookup_lt_Some _ _ _ Hb).
  destruct (decide (k = i)) as [->|]; [by rewrite list_lookup_insert_eq by (by rewrite length_insert)|].
  rewrite list_lookup_insert_ne by done. destruct (decide (k = j)) as [->|]; [by rewrite list_lookup_insert_eq|by rewrite list_lookup_insert_ne].
Qed.

Lemma exchange_perm i j l : exchange i j l ≡ₚ l.
Proof.
  unfold exchange. destruct (l !! i) as [a|] eqn:Ha, (l !! j) as [b|] eqn:Hb; [|done..]. by apply Permutation_insert_swap.
Qed.

Lemma parent_children k i : 0 < k → heap_parent k = i ↔ k = 2 * i + 1 ∨ k = 2 * i + 2.
Proof.
  intros Hk. unfold heap_parent. pose proof (Nat.div_mod_eq (k - 1) 2). pose proof (Nat.mod_upper_bound (k - 1) 2). lia.
Qed.
Lemma parent_lt k : 0 < k → heap_parent k < k.
Proof. intros Hk. destruct (proj1 (parent_children k _ Hk) eq_refl); lia. Qed.

(** [a] may be above [b]. *)
Definition le (a b : E) : Prop := less b a = false.
Context (le_trans : ∀ a b c, le a b → le b c → le a c) (less_le : ∀ a b, less a b = true → le a b).

Lemma le_refl a : le a a.
Proof. destruct (less a a) eqn:Ha; [by apply less_le|done]. Qed.
#[local] Hint Resolve le_refl : core.

(** The first [n] elements are in heap order at the places [ok]. *)
Definition ordered (n : nat) (ok : nat → Prop) (l : list E) : Prop :=
  ∀ k a b, 0 < k < n → ok k → l !! heap_parent k = Some a → l !! k = Some b → le a b.
Definition heap (n : nat) (l : list E) : Prop := ordered n (λ _, True) l.
(** What is below [j] may be below the parent of [j]. *)
Definition grands (n j : nat) (l : list E) : Prop :=
  ∀ k a b, 0 < j → 0 < k < n → heap_parent k = j → l !! heap_parent j = Some a → l !! k = Some b → le a b.

Lemma up_swap n j l x y : 0 < j < n → ordered n (λ k, k ≠ j) l → grands n j l →
  l !! j = Some x → l !! heap_parent j = Some y → less x y = true →
  let l' := exchange (heap_parent j) j l in ordered n (λ k, k ≠ heap_parent j) l' ∧ grands n (heap_parent j) l'.
Proof.
  intros Hj Ho Hg Hx Hy Hl l'. pose proof (parent_lt j ltac:(lia)) as Hpj. set (i := heap_parent j) in *.
  assert (∀ k, l' !! k = if decide (k = i) then Some x else if decide (k = j) then Some y else l !! k) as Hlk.
  { intros k. by apply exchange_lookup. }
  apply less_le in Hl. split.
  - intros k a b Hk Hok Ha Hb. pose proof (parent_lt k ltac:(lia)) as Hpk. rewrite !Hlk in *. rewrite (decide_False (P:=k=i)) in Hb by done.
    destruct (decide (k = j)) as [->|Hkj].
    { injection Hb as <-. fold i in Ha. rewrite decide_True in Ha by done. by injection Ha as <-. }
    destruct (decide (heap_parent k = i)) as [Hpi|Hpi].
    { injection Ha as <-. apply (le_trans _ y); [done|]. apply (Ho k); [done|done| |done]. by rewrite Hpi. }
    destruct (decide (heap_parent k = j)) as [Hpkj|Hpkj]; [|by apply (Ho k)]. injection Ha as <-. apply (Hg k); [lia|done..].
  - intros k a b Hi Hk Hpk Ha Hb. pose proof (parent_lt i Hi) as Hpi. pose proof (parent_lt k ltac:(lia)) as Hik. rewrite !Hlk in *.
    rewrite (decide_False (P:=heap_parent i=i)), (decide_False (P:=heap_parent i=j)) in Ha by lia.
    assert (le a y) as Hay by (apply (Ho i); [lia|lia|done..]).
    rewrite (decide_False (P:=k=i)) in Hb by lia. destruct (decide (k = j)) as [->|Hkj]; [by injection Hb as <-|].
    apply (le_trans _ y); [done|]. apply (Ho k); [done|done| |done]. by rewrite Hpk.
Qed.

Lemma up_heap fuel n j l : j < fuel → j < n → n = length l → ordered n (λ k, k ≠ j) l → grands n j l → heap n (heap_upN fuel l j).
Proof.
  revert j l. induction fuel as [|fuel IH]; intros j l Hf Hj Hn Ho Hg; [lia|]. simpl.
  destruct (Nat.eqb_spec (heap_parent j) j) as [Heq|Hne]; simpl.
  { intros k a b Hk _. apply Ho; [done|]. intros ->. pose proof (parent_lt j ltac:(lia)). lia. }
  assert (0 < j) as Hpos by (destruct j; [done|lia]). pose proof (parent_lt j Hpos) as Hp.
  destruct (lookup_lt_is_Some_2 l j ltac:(lia)) as [x Hx]. destruct (lookup_lt_is_Some_2 l (heap_parent j) ltac:(lia)) as [y Hy].
  rewrite Hx, Hy. destruct (less x y) eqn:Hl; simpl.
  - destruct (up_swap n j l x y) as [Ho' Hg']; [done..|]. apply IH; [lia|lia|by rewrite exchange_length|done|done].
  - intros k a b Hk _ Ha Hb. destruct (decide (k = j)) as [->|Hkj]; [|by apply (Ho k)]. unfold le. congruence.
Qed.

Lemma up_perm fuel l j : heap_upN fuel l j ≡ₚ l.
Proof. revert l j. induction fuel as [|fuel IH]; intros l j; simpl; [done|]. destruct (_ || _); [done|]. by rewrite IH, exchange_perm. Qed.

Lemma down_swap n i j l x y : 0 < j < n → heap_parent j = i → ordered n (λ k, heap_parent k ≠ i) l → grands n i l →
  l !! j = Some x → l !! i = Some y → less x y = true → (∀ k b, 0 < k < n → heap_parent k = i → l !! k = Some b → le x b) →
  let l' := exchange i j l in ordered n (λ k, heap_parent k ≠ j) l' ∧ grands n j l'.
Proof.
  intros Hj Hpj Ho Hg Hx Hy Hl Hmin l'. pose proof (parent_lt j ltac:(lia)) as Hij. rewrite Hpj in Hij.
  assert (∀ k, l' !! k = if decide (k = i) then Some x else if decide (k = j) then Some y else l !! k) as Hlk.
  { intros k. by apply exchange_lookup. }
  apply less_le in Hl. split.
  - intros k a b Hk Hok Ha Hb. pose proof (parent_lt k ltac:(lia)) as Hpk. rewrite !Hlk in *. rewrite (decide_False (P:=heap_parent k = j)) in Ha by done.
    destruct (decide (heap_parent k = i)) as [Hki|Hki].
    { injection Ha as <-. rewrite decide_False in Hb by lia. destruct (decide (k = j)); [by injection Hb as <-|]. by apply (Hmin k). }
    destruct (decide (k = i)) as [->|Hne].
    { injection Hb as <-. apply (Hg j); [lia|done..]. }
    rewrite decide_False in Hb by congruence. by apply (Ho k).
  - intros k a b _ Hk Hpk Ha Hb. pose proof (parent_lt k ltac:(lia)) as Hjk. rewrite !Hlk in *. rewrite Hpj, decide_True in Ha by done.
    injection Ha as <-. rewrite !decide_False in Hb by lia. apply (Ho k); [done|lia|by rewrite Hpk|done].
Qed.

(** The smaller child of [i] below [n]. *)
Lemma down_child n i l : n ≤ length l → 2 * i + 1 < n →
  let j := if (2 * i + 1 + 1 <? n) && h_Less l (2 * i + 1 + 1) (2 * i + 1) then 2 * i + 1 + 1 else 2 * i + 1 in
  ∃ x, l !! j = Some x ∧ 0 < j < n ∧ heap_parent j = i ∧ ∀ k b, 0 < k < n → heap_parent k = i → l !! k = Some b → le x b.
Proof.
  intros Hn Hi j. remember (2 * i + 1) as j1 eqn:Hj1. destruct (lookup_lt_is_Some_2 l j1 ltac:(lia)) as [x1 H1].
  destruct ((j1 + 1 <? n) && h_Less l (j1 + 1) j1) eqn:EE; subst j.
  - apply andb_true_iff in EE as [E1 E2]. apply Nat.ltb_lt in E1. destruct (lookup_lt_is_Some_2 l (j1 + 1) ltac:(lia)) as [x2 H2].
    simpl in E2. rewrite H2, H1 in E2. apply less_le in E2. exists x2. split_and!; [done|lia|lia|apply parent_children; lia|].
    intros k b Hk Hp Hb. apply parent_children in Hp as [->| ->]; [| |lia].
    + by replace b with x1 by congruence.
    + replace (2 * i + 2) with (j1 + 1) in Hb by lia. by replace b with x2 by congruence.
  - exists x1. split_and!; [done|lia|lia|apply parent_children; lia|]. intros k b Hk Hp Hb. apply parent_children in Hp as [->| ->]; [| |lia].
    + by replace b with x1 by congruence.
    + replace (2 * i + 2) with (j1 + 1) in Hb by lia. replace (j1 + 1 <? n) with true in EE by (symmetry; apply Nat.ltb_lt; lia).
      simpl in EE. by rewrite Hb, H1 in EE.
Qed.

Lemma down_heap fuel n i l : n ≤ i + fuel → i < n ∨ n = 0 → n ≤ length l → ordered n (λ k, heap_parent k ≠ i) l → grands n i l →
  heap n (heap_downN fuel l i n).1 ∧ drop n (heap_downN fuel l i n).1 = drop n l.
Proof.
  revert i l. induction fuel as [|fuel IH]; intros i l Hf Hin Hn Ho Hg.
  { simpl. split; [|done]. intros k a b Hk. lia. }
  cbn [heap_downN]. destruct (Nat.leb_spec n (2 * i + 1)) as [Hle|Hlt].
  { split; [|done]. intros k a b Hk _ Ha Hb. apply (Ho k); [done| |done..]. intros [->| ->]%parent_children; lia. }
  destruct (down_child n i l Hn Hlt) as (x & Hx & Hj & Hpj & Hmin). set (j := if _ && _ then _ else _) in *.
  pose proof (parent_lt j ltac:(lia)) as Hij. destruct (lookup_lt_is_Some_2 l i ltac:(lia)) as [y Hy].
  change (h_Less l j i) with (match l !! j, l !! i with Some a, Some b => less a b | _, _ => false end). rewrite Hx, Hy.
  destruct (less x y) eqn:Hl; simpl.
  - destruct (down_swap n i j l x y) as [Ho' Hg']; [done..|]. destruct (IH j (exchange i j l)) as [IH1 IH2]; [lia|lia|by rewrite exchange_length|done..|].
    split; [done|]. rewrite IH2. apply list_eq. intros k. rewrite !lookup_drop, (exchange_lookup _ _ _ _ _ _ Hy Hx).
    rewrite !decide_False by lia. done.
  - split; [|done]. intros k a b Hk _ Ha Hb. destruct (decide (heap_parent k = i)) as [Hpk|Hpk]; [|by apply (Ho k)].
    rewrite Hpk in Ha. apply (le_trans _ x); [|by apply (Hmin k)]. unfold le. congruence.
Qed.

Lemma down_perm fuel l i n : (heap_downN fuel l i n).1 ≡ₚ l.
Proof.
  revert l i. induction fuel as [|fuel IH]; intros l i; [done|]. cbn [heap_downN]. destruct (n <=? _); [done|]. destruct (negb _); [done|].
  by rewrite IH, exchange_perm.
Qed.

(** In a heap the first element may be above all others. *)
Lemma heap_root n l x : heap n l → n ≤ length l → l !! 0 = Some x → ∀ k b, k < n → l !! k = Some b → le x b.
Proof.
  intros Hh Hn Hx k. induction k as [k IH] using lt_wf_ind. intros b Hk Hb.
  destruct (decide (k = 0)) as [->|Hk0]; [by replace b with x by congruence|]. pose proof (parent_lt k ltac:(lia)) as Hp.
  destruct (lookup_lt_is_Some_2 l (heap_parent k) ltac:(lia)) as [a Ha]. apply (le_trans _ a); [by apply (IH (heap_parent k)); [|lia|]|].
  by apply (Hh k); [lia|..].
Qed.
End HeapList.

(** ** queue.go *)

Section Queue.
Context {K : Type} `{Countable K}.

(** The address of an entry. *)
Definition ptr : Type := nat.

Record priorityItem := mkItem {
  it_value : K;
  it_priority : Z;
  it_index : Z;
  it_seq : Z;
}.
Definition set_index (i : Z) (it : priorityItem) : priorityItem := mkItem (it_value it) (it_priority it) i (it_seq it).
Definition set_priority (p : Z) (it : priorityItem) : priorityItem := mkItem (it_value it) p (it_index it) (it_seq it).

(** [priorityHeap]: the addresses, and the entries they refer to. *)
Record priorityHeap := mkHeap {
  ph_slots : list ptr;
  ph_items : gmap ptr priorityItem;
}.

Definition slot (h : priorityHeap) (i : nat) : option priorityItem := ph_slots h !! i ≫= (ph_items h !!.).

Definition rank_less (a b : Z * Z) : bool := if a.1 =? b.1 then a.2 <? b.2 else b.1 <? a.1.
Definition rank (it : priorityItem) : Z * Z := (it_priority it, it_seq it).

Definition queue_Less (h : priorityHeap) (i j : nat) : bool :=
  match slot h i, slot h j with Some a, Some b => rank_less (rank a) (rank b) | _, _ => false end.

Definition queue_Swap (i j : nat) (h : priorityHeap) : priorityHeap :=
  match ph_slots h !! i, ph_slots h !! j with
  | Some p, Some q =>
      mkHeap (exchange i j (ph_slots h)) (alter (set_index (Z.of_nat j)) p (alter (set_index (Z.of_nat i)) q (ph_items h)))
  | _, _ => h
  end.

#[export] Instance priorityHeap_Interface : HeapInterface priorityHeap := {|
  h_Len h := length (ph_slots h);
  h_Less := queue_Less;
  h_Swap := queue_Swap;
|}.

(** [Push] and [Pop] of the interface, and those of container/heap. *)
Definition queue_Push (p : ptr) (h : priorityHeap) : priorityHeap :=
  mkHeap (ph_slots h ++ [p]) (alter (set_index (Z.of_nat (length (ph_slots h)))) p (ph_items h)).
Definition queue_Pop (h : priorityHeap) : option (ptr * priorityHeap) :=
  match last (ph_slots h) with
  | None => None
  | Some p => Some (p, mkHeap (removelast (ph_slots h)) (alter (set_index (-1)) p (ph_items h)))
  end.

Definition heap_Push (p : ptr) (h : priorityHeap) : priorityHeap :=
  let h := queue_Push p h in heap_up h (h_Len h - 1).
Definition heap_Pop (h : priorityHeap) : option (ptr * priorityHeap) :=
  let n := (h_Len h - 1)%nat in
  queue_Pop (heap_down (h_Swap 0 n h) 0 n).1.

Record priorityQueue := mkQueue {
  q_queue : priorityHeap;
  q_next : ptr;
  q_dirty : gset K;
  q_processing : gset K;
  q_pending : gmap K ptr;
  q_priorities : gmap K Z;
  q_shuttingDown : bool;
  q_drain : bool;
  q_seq : Z;
}.

Definition newPriorityQueue : priorityQueue := mkQueue (mkHeap [] ∅) 0%nat ∅ ∅ ∅ ∅ false false 0.

Definition set_queue (h : priorityHeap) (q : priorityQueue) : priorityQueue :=
  mkQueue h (q_next q) (q_dirty q) (q_processing q) (q_pending q) (q_priorities q) (q_shuttingDown q) (q_drain q) (q_seq q).

Definition priorityOf (q : priorityQueue) (item : K) : Z := default 0 (q_priorities q !! item).

(** [pending.priority = p; heap.Fix(&q.queue, pending.index)] when [p] is higher. *)
Definition raisePending (item : K) (p : Z) (q : priorityQueue) : priorityQueue :=
  match q_pending q !! item with
  | None => q
  | Some a =>
      match ph_items (q_queue q) !! a with
      | None => q
      | Some pending =>
          if it_priority pending <? p then
            let h := mkHeap (ph_slots (q_queue q)) (<[a := set_priority p pending]> (ph_items (q_queue q))) in
            set_queue (heap_Fix h (Z.to_nat (it_index pending))) q
          else q
      end
  end.

Definition ensurePriority (item : K) (priority : Z) (q : priorityQueue) : priorityQueue :=
  let priority := if priority <? 0 then 0 else priority in
  if match q_priorities q !! item with Some current => priority <=? current | None => false end then q else
  raisePending item priority
    (mkQueue (q_queue q) (q_next q) (q_dirty q) (q_processing q) (q_pending q) (<[item := priority]> (q_priorities q))
       (q_shuttingDown q) (q_drain q) (q_seq q)).

Definition clearPriority (item : K) (q : priorityQueue) : priorityQueue :=
  mkQueue (q_queue q) (q_next q) (q_dirty q) (q_processing q) (q_pending q) (delete item (q_priorities q)) (q_shuttingDown q) (q_drain q) (q_seq q).

(** A sequence number is a uint64. *)
Definition nextSeq (q : priorityQueue) : Z := (q_seq q + 1) mod 2 ^ 64.

(** [entry := &priorityItem{...}; heap.Push(&q.queue, entry); q.pending[item] = entry] *)
Definition enqueue (item : K) (q : priorityQueue) : priorityQueue :=
  let seq := nextSeq q in
  let entry := mkItem item (priorityOf q item) 0 seq in
  let h := mkHeap (ph_slots (q_queue q)) (<[q_next q := entry]> (ph_items (q_queue q))) in
  mkQueue (heap_Push (q_next q) h) (S (q_next q)) (q_dirty q) (q_processing q) (<[item := q_next q]> (q_pending q)) (q_priorities q)
    (q_shuttingDown q) (q_drain q) seq.

Definition queue_Add (item : K) (q : priorityQueue) : priorityQueue :=
  if q_shuttingDown q then q else
  if bool_decide (item ∈ q_dirty q) then raisePending item (priorityOf q item) q else
  let q := mkQueue (q_queue q) (q_next q) ({[item]} ∪ q_dirty q) (q_processing q) (q_pending q) (q_priorities q) (q_shuttingDown q)
             (q_drain q) (q_seq q) in
  if bool_decide (item ∈ q_processing q) then q else enqueue item q.

Definition queue_Len (q : priorityQueue) : nat := h_Len (q_queue q).

(** [None]: the call waits.  Otherwise the item, if the queue is not shut down. *)
Definition queue_Get (q : priorityQueue) : option (option K * priorityQueue) :=
  if (queue_Len q =? 0)%nat then if q_shuttingDown q then Some (None, q) else None else
  match heap_Pop (q_queue q) with
  | None => None
  | Some (p, h) =>
      match ph_items h !! p with
      | None => None
      | Some entry =>
          let item := it_value entry in
          Some (Some item, mkQueue h (q_next q) (q_dirty q ∖ {[item]}) ({[item]} ∪ q_processing q) (delete item (q_pending q)) (q_priorities q)
                  (q_shuttingDown q) (q_drain q) (q_seq q))
      end
  end.

Definition queue_Done (item : K) (q : priorityQueue) : priorityQueue :=
  let q := mkQueue (q_queue q) (q_next q) (q_dirty q) (q_processing q ∖ {[item]}) (q_pending q) (q_priorities q) (q_shuttingDown q)
             (q_drain q) (q_seq q) in
  if bool_decide (item ∈ q_dirty q) then enqueue item q else q.

Definition queue_ShutDown (q : priorityQueue) : priorityQueue :=
  mkQueue (q_queue q) (q_next q) (q_dirty q) (q_processing q) (q_pending q) (q_priorities q) true (q_drain q) (q_seq q).

(** [ShutDownWithDrain]: what it sets, and when it returns. *)
Definition startDrain (q : priorityQueue) : priorityQueue :=
  mkQueue (q_queue q) (q_next q) (q_dirty q) (q_processing q) (q_pending q) (q_priorities q) true true (q_seq q).
Definition drained (q : priorityQueue) : bool := bool_decide (q_processing q = ∅) && (queue_Len q =? 0)%nat.

(** *** priorityRateLimitingQueue *)

Definition rl_Add (item : K) (q : priorityQueue) : priorityQueue := queue_Add item (ensurePriority item 0 q).
Definition rl_AddWithPriority (item : K) (priority : Z) (q : priorityQueue) : priorityQueue := queue_Add item (ensurePriority item priority q).
Definition rl_Forget (item : K) (q : priorityQueue) : priorityQueue := clearPriority item q.
(** The delayed ones only note the priority: the rate limiter adds the item to
    the queue below when its time has come. *)
Definition rl_AddAfter (item : K) (q : priorityQueue) : priorityQueue := ensurePriority item 0 q.
Definition rl_AddRateLimited (item : K) (q : priorityQueue) : priorityQueue := ensurePriority item 0 q.

(** *** Calls one after the other *)

Inductive call :=
| CAdd (item : K) | CAddWithPriority (item : K) (priority : Z) | CAddAfter (item : K) | CAddRateLimited (item : K)
| CDue (item : K) | CForget (item : K) | CGet | CDone (item : K) | CShutDown | CStartDrain.

(** What a call does to the queue and returns; [None]: it waits. *)
Definition call_queue (c : call) (q : priorityQueue) : option (option K * priorityQueue) :=
  match c with
  | CAdd item => Some (None, rl_Add item q)
  | CAddWithPriority item priority => Some (None, rl_AddWithPriority item priority q)
  | CAddAfter item => Some (None, rl_AddAfter item q)
  | CAddRateLimited item => Some (None, rl_AddRateLimited item q)
  | CDue item => Some (None, queue_Add item q)
  | CForget item => Some (None, rl_Forget item q)
  | CGet => queue_Get q
  | CDone item => Some (None, queue_Done item q)
  | CShutDown => Some (None, queue_ShutDown q)
  | CStartDrain => Some (None, startDrain q)
  end.

(** ** What the queue promises

    The items that wait in the order of their arrival, with their priorities;
    those in work, and those of them to do again. *)
Record workQueue := mkWork {
  w_waiting : list (K * Z);
  w_working : gset K;
  w_again : gset K;
  w_priorities : gmap K Z;
  w_down : bool;
}.

Definition noWork : workQueue := mkWork [] ∅ ∅ ∅ false.

Definition w_priority (item : K) (w : workQueue) : Z := default 0 (w_priorities w !! item).

(** An item that waits keeps its place and gets the higher priority. *)
Definition raise (item : K) (p : Z) (l : list (K * Z)) : list (K * Z) :=
  (λ e, if bool_decide (e.1 = item) then (e.1, Z.max e.2 p) else e) <$> l.

Definition w_ensure (item : K) (p : Z) (w : workQueue) : workQueue :=
  let p := Z.max 0 p in
  if match w_priorities w !! item with Some current => p <=? current | None => false end then w else
  mkWork (raise item p (w_waiting w)) (w_working w) (w_again w) (<[item := p]> (w_priorities w)) (w_down w).

Definition w_add (item : K) (w : workQueue) : workQueue :=
  if w_down w then w else
  if bool_decide (item ∈ (w_waiting w).*1) then
    mkWork (raise item (w_priority item w) (w_waiting w)) (w_working w) (w_again w) (w_priorities w) (w_down w)
  else if bool_decide (item ∈ w_working w) then
    mkWork (w_waiting w) (w_working w) ({[item]} ∪ w_again w) (w_priorities w) (w_down w)
  else mkWork (w_waiting w ++ [(item, w_priority item w)]) (w_working w) (w_again w) (w_priorities w) (w_down w).

(** The first of the highest priority, and the rest. *)
Fixpoint pick (l : list (K * Z)) : option ((K * Z) * list (K * Z)) :=
  match l with
  | [] => None
  | e :: rest =>
      match pick rest with
      | None => Some (e, [])
      | Some (e', rest') => if e.2 <? e'.2 then Some (e', e :: rest') else Some (e, rest)
      end
  end.

Definition w_get (w : workQueue) : option (option K * workQueue) :=
  match pick (w_waiting w) with
  | None => if w_down w then Some (None, w) else None
  | Some (e, rest) => Some (Some e.1, mkWork rest ({[e.1]} ∪ w_working w) (w_again w) (w_priorities w) (w_down w))
  end.

Definition w_done (item : K) (w : workQueue) : workQueue :=
  if bool_decide (item ∈ w_again w) then
    mkWork (w_waiting w ++ [(item, w_priority item w)]) (w_working w ∖ {[item]}) (w_again w ∖ {[item]}) (w_priorities w) (w_down w)
  else mkWork (w_waiting w) (w_working w ∖ {[item]}) (w_again w) (w_priorities w) (w_down w).

Definition call_work (c : call) (w : workQueue) : option (option K * workQueue) :=
  match c with
  | CAdd item => Some (None, w_add item (w_ensure item 0 w))
  | CAddWithPriority item priority => Some (None, w_add item (w_ensure item priority w))
  | CAddAfter item | CAddRateLimited item => Some (None, w_ensure item 0 w)
  | CDue item => Some (None, w_add item w)
  | CForget item => Some (None, mkWork (w_waiting w) (w_working w) (w_again w) (delete item (w_priorities w)) (w_down w))
  | CGet => w_get w
  | CDone item => Some (None, w_done item w)
  | CShutDown | CStartDrain => Some (None, mkWork (w_waiting w) (w_working w) (w_again w) (w_priorities w) true)
  end.

(** Calls in a row, with what they return; a call that waits ends the run.
    [Done] is called for items in work only. *)
Fixpoint run {S} (step : call → S → option (option K * S)) (calls : list call) (s : S) : list (option K) * S :=
  match calls with
  | [] => ([], s)
  | c :: rest =>
      match step c s with
      | None => ([], s)
      | Some (out, s') => let '(outs, s'') := run step rest s' in (out :: outs, s'')
      end
  end.
Definition allowed (c : call) (w : workQueue) : bool := match c with CDone item => bool_decide (item ∈ w_working w) | _ => true end.
Fixpoint disciplined (calls : list call) (w : workQueue) : bool :=
  match calls with
  | [] => true
  | c :: rest => allowed c w && match call_work c w with None => true | Some (_, w') => disciplined rest w' end
  end.
End Queue.

(** Priorities first, then arrival; [Forget] before [Done], as the controllers
    call them after a success, drops the priority given while the item was in
    work. *)
Example queue_order :
  (run call_queue [CAdd "a"; CAdd "b"; CAddWithPriority "c" 5; CAddWithPriority "a" 5; CGet; CGet; CGet] newPriorityQueue).1 =
    [None; None; None; None; Some "a"; Some "c"; Some "b"].
Proof. vm_compute. done. Qed.
Example priority_forgotten :
  (run call_queue [CAdd "a"; CAdd "b"; CGet; CAddWithPriority "a" 5; CForget "a"; CDone "a"; CGet; CGet] newPriorityQueue).1 =
    [None; None; Some "a"; None; None; None; Some "b"; Some "a"].
Proof. vm_compute. done. Qed.
