(* ===== verification/PriorityQueueSpec.v ===== *)
(** * The work queue keeps its promise

    The heap of addresses under [up], [down] and [Fix], the invariant that ties
    heap, pending map and sets together, and the refinement of the queue of
    arrivals. *)

From S2P Require Import Prelude PriorityQueue.

Section Sim.
Context {K : Type} `{Countable K}.
Implicit Types (h : priorityHeap (K:=K)) (q : priorityQueue (K:=K)) (w : workQueue (K:=K)).

(** ** The heap and its list of addresses *)

(** What exchanging entries does not change. *)
Definition core (it : priorityItem (K:=K)) : K * (Z * Z) := (it_value it, rank it).
Definition prank (m : gmap ptr (K * (Z * Z))) (p : ptr) : Z * Z := default (0, 0) (snd <$> m !! p).
Definition pless (m : gmap ptr (K * (Z * Z))) (p q : ptr) : bool := rank_less (prank m p) (prank m q).

Lemma pless_trans m a b c : le (pless m) a b → le (pless m) b c → le (pless m) a c.
Proof.
  unfold le, pless, rank_less. destruct (prank m a) as [a1 a2], (prank m b) as [b1 b2], (prank m c) as [c1 c2]. simpl.
  destruct (Z.eqb_spec b1 a1), (Z.eqb_spec c1 b1), (Z.eqb_spec c1 a1); lia.
Qed.
Lemma pless_le m a b : pless m a b = true → le (pless m) a b.
Proof.
  unfold le, pless, rank_less. destruct (prank m a) as [a1 a2], (prank m b) as [b1 b2]. simpl.
  destruct (Z.eqb_spec a1 b1), (Z.eqb_spec b1 a1); lia.
Qed.

Record sim (m : gmap ptr (K * (Z * Z))) (l : list ptr) (h : priorityHeap) : Prop := {
  sim_slots : ph_slots h = l;
  sim_cores : core <$> ph_items h = m;
  sim_valid p : p ∈ l → p ∈ dom m;
  sim_once : NoDup l;
  sim_index i p it : l !! i = Some p → ph_items h !! p = Some it → it_index it = Z.of_nat i;
}.

Lemma sim_item m l h p : sim m l h → p ∈ l → ∃ it, ph_items h !! p = Some it ∧ m !! p = Some (core it).
Proof.
  intros [_ Hc Hv _ _] [c Hp%eq_sym]%Hv%elem_of_dom. rewrite <- Hc, lookup_fmap in Hp. destruct (ph_items h !! p) as [it|] eqn:Hit; [|done].
  exists it. split; [done|]. by rewrite <- Hc, lookup_fmap, Hit.
Qed.

Lemma less_sim m l h i j : sim m l h → h_Less h i j = h_Less (HeapInterface := list_heap (pless m)) l i j.
Proof.
  intros Hs. simpl. unfold queue_Less, slot. rewrite (sim_slots _ _ _ Hs).
  destruct (l !! i) as [p|] eqn:Hp, (l !! j) as [q|] eqn:Hq; simpl; [|by destruct (ph_items h !! p)|done..].
  destruct (sim_item _ _ _ p Hs) as (a & Ha & Hma); [by eapply list_elem_of_lookup_2|].
  destruct (sim_item _ _ _ q Hs) as (b & Hb & Hmb); [by eapply list_elem_of_lookup_2|].
  rewrite Ha, Hb. unfold pless, prank. by rewrite Hma, Hmb.
Qed.

Lemma cores_index (items : gmap ptr (priorityItem (K:=K))) p i : core <$> alter (set_index i) p items = core <$> items.
Proof. apply map_eq. intros k. rewrite !lookup_fmap, lookup_alter. case_decide as Hk; [subst k|done]. by destruct (items !! p). Qed.

Lemma swap_sim m l h i j : sim m l h → (i < length l)%nat → (j < length l)%nat → sim m (exchange i j l) (h_Swap i j h).
Proof.
  intros Hs [p Hp]%lookup_lt_is_Some_2 [q Hq]%lookup_lt_is_Some_2. simpl. unfold queue_Swap. rewrite (sim_slots _ _ _ Hs), Hp, Hq.
  split; simpl.
  - done.
  - rewrite !cores_index. by apply Hs.
  - intros r. rewrite exchange_perm. by apply Hs.
  - rewrite exchange_perm. apply Hs.
  - intros k r it Hr Hit. rewrite (exchange_lookup _ _ _ _ _ _ Hp Hq) in Hr. rewrite !lookup_alter in Hit.
    assert (∀ a b, l !! a = Some r → l !! b = Some r → a = b) as Hinj by (intros; by eapply NoDup_lookup; [apply Hs|..]).
    destruct (decide (k = i)) as [->|Hki].
    + injection Hr as ->. destruct (decide (p = r)) as [->|]; (destruct (decide (r = r)); [|done]); destruct (ph_items h !! r); simplify_eq/=; [|done].
      by rewrite (Hinj i j).
    + destruct (decide (k = j)) as [->|Hkj].
      * injection Hr as ->. destruct (decide (r = r)); [|done]. destruct (decide (q = r)) as [->|]; destruct (ph_items h !! r); by simplify_eq/=.
      * rewrite (decide_False (P:=p=r)), (decide_False (P:=q=r)) in Hit by (intros ->; naive_solver). by apply (sim_index _ _ _ Hs k r).
Qed.

Lemma upN_sim fuel m l h j : sim m l h → (j < length l)%nat → sim m (heap_upN (H0 := list_heap (pless m)) fuel l j) (heap_upN fuel h j).
Proof.
  revert l h j. induction fuel as [|fuel IH]; intros l h j Hs Hj; [done|]. cbn [heap_upN]. rewrite (less_sim _ _ _ _ _ Hs).
  destruct ((heap_parent j =? j)%nat || _) eqn:E; [done|]. apply orb_false_iff in E as [E _]. apply Nat.eqb_neq in E.
  assert (heap_parent j < j)%nat by (apply parent_lt; destruct j; [done|lia]).
  apply IH; [apply swap_sim; [done|lia|lia]|]. change (h_Swap ?a ?b l) with (exchange a b l). rewrite exchange_length. lia.
Qed.

Lemma downN_sim fuel m l h i n : sim m l h → (n ≤ length l)%nat →
  sim m (heap_downN (H0 := list_heap (pless m)) fuel l i n).1 (heap_downN fuel h i n).1 ∧ (heap_downN (H0 := list_heap (pless m)) fuel l i n).2 = (heap_downN fuel h i n).2.
Proof.
  revert l h i. induction fuel as [|fuel IH]; intros l h i Hs Hn; [done|]. cbn [heap_downN]. rewrite !(less_sim _ _ _ _ _ Hs).
  destruct (Nat.leb_spec n (2 * i + 1)); [done|]. set (j := if _ && _ then _ else _).
  assert (j < n)%nat as Hj by (subst j; destruct ((_ <? _)%nat && _) eqn:E; [apply andb_true_iff in E as [E%Nat.ltb_lt _]; lia|lia]).
  destruct (negb _); [done|]. apply IH; [apply swap_sim; [done|lia|lia]|]. change (h_Swap ?a ?b l) with (exchange a b l). by rewrite exchange_length.
Qed.

(** ** Push, Pop and Fix *)

Definition hp (m : gmap ptr (K * (Z * Z))) (l : list ptr) : Prop := heap (pless m) (length l) l.

(** Ranks of the addresses of a list decide its order. *)
Lemma ordered_rank m m' n ok l : (∀ p, p ∈ l → prank m' p = prank m p) → ordered (pless m) n ok l → ordered (pless m') n ok l.
Proof.
  intros Hr Ho k a b Hk Hok Ha Hb. unfold le, pless. rewrite !Hr by (by eapply list_elem_of_lookup_2). by apply (Ho k).
Qed.

Lemma prank_insert_ne m a c p : p ≠ a → prank (<[a := c]> m) p = prank m p.
Proof. intros Hp. unfold prank. by rewrite lookup_insert_ne. Qed.

Lemma push_ok m l h a it : sim m l h → hp m l → ph_items h !! a = None → ∃ l',
  let m' := <[a := core it]> m in
  sim m' l' (heap_Push a (mkHeap (ph_slots h) (<[a := it]> (ph_items h)))) ∧ hp m' l' ∧ l' ≡ₚ l ++ [a].
Proof.
  intros Hs Hh Ha. set (m' := <[a := core it]> m). assert (a ∉ l) as Hal.
  { intros Hin. destruct (sim_item _ _ _ _ Hs Hin) as (x & Hx & _). congruence. }
  assert (sim m' (l ++ [a]) (queue_Push a (mkHeap (ph_slots h) (<[a := it]> (ph_items h))))) as Hpush.
  { unfold queue_Push. simpl. rewrite (sim_slots _ _ _ Hs). split; simpl.
    - done.
    - rewrite cores_index, fmap_insert. by rewrite (sim_cores _ _ _ Hs).
    - intros p [Hp| ->%list_elem_of_singleton]%elem_of_app; unfold m'; rewrite dom_insert, elem_of_union, elem_of_singleton; [right; by apply Hs|by left].
    - apply NoDup_app. split; [apply Hs|]. split; [by intros x Hx ->%list_elem_of_singleton|apply NoDup_singleton].
    - intros i p x Hi Hx. apply lookup_snoc_Some in Hi as [[Hi Hp]|[-> <-]].
      + assert (p ≠ a) by (intros ->; apply Hal; by eapply list_elem_of_lookup_2). rewrite lookup_alter_ne, lookup_insert_ne in Hx by done.
        by apply (sim_index _ _ _ Hs i p).
      + rewrite lookup_alter_eq, lookup_insert_eq in Hx. by injection Hx as <-. }
  exists (heap_up (H0 := list_heap (pless m')) (l ++ [a]) (length l)). unfold heap_Push. cbn [h_Len priorityHeap_Interface].
  rewrite (sim_slots _ _ _ Hpush), length_app. replace (length l + length [a] - 1)%nat with (length l) by (simpl; lia). split_and!.
  - apply upN_sim; [done|]. rewrite length_app. simpl. lia.
  - unfold hp, heap_up. rewrite (Permutation_length (up_perm _ _ _ _)). apply up_heap; rewrite ?length_app; simpl; try lia.
    + intros x y z. apply pless_trans.
    + apply pless_le.
    + intros k x y Hk Hne Hx Hy. pose proof (parent_lt k ltac:(lia)). rewrite lookup_app_l in Hx by lia. rewrite lookup_app_l in Hy by lia.
      refine (ordered_rank m m' (length l) (λ _, True) l _ Hh k x y _ I Hx Hy); [|lia].
      intros p Hp. apply prank_insert_ne. by intros ->.
    + intros k x y Hj Hk Hpk. pose proof (parent_lt k ltac:(lia)). lia.
  - apply up_perm.
Qed.

Lemma heap_down_fst h i n : (heap_down h i n).1 = (heap_downN n h i n).1.
Proof. unfold heap_down. by destruct (heap_downN n h i n). Qed.

Lemma pop_ok m l h : sim m l h → hp m l → l ≠ [] → ∃ x l' h', heap_Pop h = Some (x, h') ∧ sim m l' h' ∧ hp m l' ∧ x :: l' ≡ₚ l ∧
  ∀ p, p ∈ l → le (pless m) x p.
Proof.
  intros Hs Hh Hne. set (n := (length l - 1)%nat). assert (length l = S n) as Hlen by (destruct l; [done|simpl in *; lia]).
  destruct (lookup_lt_is_Some_2 l 0 ltac:(lia)) as [x Hx]. destruct (lookup_lt_is_Some_2 l n ltac:(lia)) as [y Hy].
  set (l1 := exchange 0 n l). assert (length l1 = S n) as Hlen1 by (unfold l1; by rewrite exchange_length).
  assert (∀ k, l1 !! k = if decide (k = 0%nat) then Some y else if decide (k = n) then Some x else l !! k) as Hl1 by (intros k; by apply exchange_lookup).
  pose proof (swap_sim m l h 0 n Hs ltac:(lia) ltac:(lia)) as Hs1. fold l1 in Hs1.
  destruct (down_heap (pless m) (pless_trans m) (pless_le m) n n 0 l1) as [Hd Hdrop]; [lia|lia|lia| | |].
  { intros k a b Hk Hp Ha Hb. pose proof (parent_lt k ltac:(lia)). rewrite Hl1, !decide_False in Ha by lia. rewrite Hl1, !decide_False in Hb by lia.
    by apply (Hh k); [lia|..]. }
  { intros k a b Hlt. lia. }
  destruct (downN_sim n m l1 (h_Swap 0 n h) 0 n Hs1 ltac:(lia)) as [Hs2 _].
  set (l2 := (heap_downN (H0 := list_heap (pless m)) n l1 0 n).1) in *. set (h2 := (heap_downN n (h_Swap 0 n h) 0 n).1) in *.
  assert (l2 ≡ₚ l) as Hperm by (unfold l2; rewrite (down_perm (pless m)); apply exchange_perm).
  assert (l2 = take n l2 ++ [x]) as Hl2.
  { rewrite <- (take_drop n l2) at 1. f_equal. rewrite Hdrop. apply list_eq. intros i. rewrite lookup_drop, Hl1.
    destruct i as [|i]; simpl; [|rewrite !decide_False by lia; apply lookup_ge_None_2; lia].
    rewrite Nat.add_0_r. destruct (decide (n = 0)%nat) as [->|]; [|by rewrite decide_True]. congruence. }
  assert (length (take n l2) = n) as Htk by (rewrite length_take, (Permutation_length Hperm); lia).
  assert (last l2 = Some x) as Hlast by (rewrite Hl2; apply last_snoc).
  assert (removelast l2 = take n l2) as Hrem by (rewrite Hl2 at 1; apply removelast_last).
  assert (heap_Pop h = Some (x, mkHeap (take n l2) (alter (set_index (-1)) x (ph_items h2)))) as Hpop.
  { unfold heap_Pop, queue_Pop. change (h_Len h) with (length (ph_slots h)). rewrite (sim_slots _ _ _ Hs). fold n. rewrite heap_down_fst. fold h2.
    rewrite (sim_slots _ _ _ Hs2). fold l2. by rewrite Hlast, Hrem. }
  eexists x, (take n l2), _. split; [exact Hpop|]. clear Hpop. clearbody l2 h2. split_and!.
  - split; simpl; [done| | | |].
    + rewrite cores_index. apply Hs2.
    + intros p Hp. apply (sim_valid _ _ _ Hs2). rewrite Hl2. apply elem_of_app. by left.
    + pose proof (sim_once _ _ _ Hs2) as Hnd. rewrite Hl2 in Hnd. by apply NoDup_app in Hnd as (? & _).
    + intros i p it Hi Hit. pose proof (sim_once _ _ _ Hs2) as Hnd. rewrite Hl2 in Hnd. apply NoDup_app in Hnd as (_ & Hd' & _).
      assert (p ≠ x) by (intros ->; apply (Hd' x); [by eapply list_elem_of_lookup_2|by left]). rewrite lookup_alter_ne in Hit by done.
      apply (sim_index _ _ _ Hs2 i p); [|done]. rewrite Hl2. by apply lookup_app_l_Some.
  - unfold hp. rewrite Htk. intros k a b Hk _ Ha Hb. apply (Hd k); [done|done|..]; rewrite Hl2; by apply lookup_app_l_Some.
  - rewrite <- Hperm at 1. rewrite Hl2 at 2. by rewrite (Permutation_app_comm (take n l2) [x]).
  - intros p [k Hk]%list_elem_of_lookup_1. eapply (heap_root (pless m) (pless_trans m) (pless_le m) (length l) l x); [done|lia|done| |done].
    by eapply lookup_lt_Some.
Qed.

(** With nothing smaller below, [down] stays. *)
Lemma down_noop fuel m (l : list ptr) i n x : l !! i = Some x →
  (∀ k b, (0 < k < n)%nat → heap_parent k = i → l !! k = Some b → le (pless m) x b) → (n ≤ length l)%nat →
  heap_downN (H0 := list_heap (pless m)) fuel l i n = (l, i).
Proof.
  intros Hx Hbelow Hn. destruct fuel as [|fuel]; [done|]. cbn [heap_downN]. destruct (Nat.leb_spec n (2 * i + 1)) as [|Hlt]; [done|].
  destruct (down_child (pless m) (pless_le m) n i l Hn Hlt) as (y & Hy & Hj & Hp & _). set (j := if _ && _ then _ else _) in *.
  change (h_Less l j i) with (match l !! j, l !! i with Some a, Some b => pless m a b | _, _ => false end). rewrite Hy, Hx.
  pose proof (Hbelow j y Hj Hp Hy) as Hle. unfold le in Hle. by rewrite Hle.
Qed.

Lemma fix_ok m l h a it p i : sim m l h → hp m l → l !! i = Some a → ph_items h !! a = Some it → it_priority it < p → ∃ l',
  let m' := <[a := core (set_priority p it)]> m in
  sim m' l' (heap_Fix (mkHeap (ph_slots h) (<[a := set_priority p it]> (ph_items h))) i) ∧ hp m' l' ∧ l' ≡ₚ l.
Proof.
  intros Hs Hh Hi Hit Hp. set (m' := <[a := core (set_priority p it)]> m). set (h1 := mkHeap _ _).
  assert (sim m' l h1) as Hs1.
  { split; simpl; [apply Hs| | |apply Hs|].
    - unfold m'. by rewrite fmap_insert, (sim_cores _ _ _ Hs).
    - intros r Hr. unfold m'. rewrite dom_insert, elem_of_union. right. by apply Hs.
    - intros k r x Hk Hx. destruct (decide (r = a)) as [->|]; [|rewrite lookup_insert_ne in Hx by done; by apply (sim_index _ _ _ Hs k r)].
      rewrite lookup_insert_eq in Hx. injection Hx as <-. by apply (sim_index _ _ _ Hs k a it). }
  assert (∀ r, r ≠ a → prank m' r = prank m r) as Hsame by (intros r Hr; by apply prank_insert_ne).
  assert (∀ r, le (pless m) a r → r ≠ a → le (pless m') a r) as Hraise.
  { intros r Hle Hr. unfold le, pless in *. rewrite (Hsame r Hr). unfold prank, m' in *. rewrite lookup_insert_eq.
    assert (m !! a = Some (core it)) as Hma by (rewrite <- (sim_cores _ _ _ Hs), lookup_fmap, Hit; done). rewrite Hma in Hle.
    destruct (default (0, 0) (snd <$> m !! r)) as [r1 r2]. unfold rank_less in *. simpl in *.
    destruct (Z.eqb_spec r1 (it_priority it)), (Z.eqb_spec r1 p); lia. }
  assert (∀ k b, l !! k = Some b → k ≠ i → b ≠ a) as Hne.
  { intros k b Hk Hki ->. apply Hki. by eapply NoDup_lookup; [apply Hs|..]. }
  assert (∀ k b, (0 < k < length l)%nat → heap_parent k = i → l !! k = Some b → le (pless m) a b) as Hkids.
  { intros k b Hk Hpk Hb. apply (Hh k); [done|done|by rewrite Hpk|done]. }
  assert (∀ k, (0 < k)%nat → heap_parent k = i → k ≠ i) as Hki by (intros k Hk Hpk ->; pose proof (parent_lt i Hk); lia).
  pose proof (lookup_lt_Some _ _ _ Hi) as Hlt.
  destruct (downN_sim (length l) m' l h1 i (length l) Hs1 ltac:(lia)) as [Hs2 Hi2].
  rewrite (down_noop _ m' l i (length l) a) in Hs2, Hi2; [|done| |lia|done| |lia];
    [|intros k b Hk Hpk Hb; apply Hraise; [by apply (Hkids k)|]; by apply (Hne k); [|apply Hki; [lia|]]..].
  exists (heap_up (H0 := list_heap (pless m')) l i). split_and!.
  - unfold heap_Fix, heap_down. change (h_Len h1) with (length (ph_slots h)). rewrite (sim_slots _ _ _ Hs).
    destruct (heap_downN (length l) h1 i (length l)) as [h2 i2]. simpl in Hs2, Hi2. subst i2. rewrite Nat.ltb_irrefl. by apply upN_sim.
  - unfold hp, heap_up. rewrite (Permutation_length (up_perm _ _ _ _)). apply up_heap; try lia; [intros x y z; apply pless_trans|apply pless_le| |].
    + intros k x y Hk Hki' Hx Hy. pose proof (Hne k y Hy Hki') as Hya. destruct (decide (heap_parent k = i)) as [Hpk|Hpk].
      * replace x with a by (rewrite Hpk in Hx; congruence). apply Hraise; [|done]. by apply (Hkids k).
      * pose proof (Hne _ x Hx Hpk). unfold le, pless. rewrite !Hsame by done. by apply (Hh k).
    + intros k x y Hi0 Hk Hpk Hx Hy. pose proof (parent_lt i Hi0). assert (x ≠ a) by (apply (Hne _ x Hx); lia).
      assert (y ≠ a) by (apply (Hne k); [done|by apply Hki; [lia|]]). unfold le, pless. rewrite !Hsame by done.
      apply (pless_trans m _ a); [by apply (Hh i); [lia|..]|by apply (Hkids k)].
  - apply up_perm.
Qed.

(** ** The heap and the arrivals

    [os] are the addresses of the heap in the order of their numbers. *)
Record hrep (h : priorityHeap) (next : ptr) (pending : gmap K ptr) (seq : Z) (waiting : list (K * Z))
    (m : gmap ptr (K * (Z * Z))) (l os : list ptr) : Prop := {
  hr_sim : sim m l h;
  hr_heap : hp m l;
  hr_fresh a : a ∈ dom m → (a < next)%nat;
  hr_order : os ≡ₚ l;
  hr_seqs : StronglySorted (λ a b, (prank m a).2 < (prank m b).2) os;
  hr_bound a : a ∈ l → (prank m a).2 ≤ seq;
  hr_waiting : Forall2 (λ e a, ∃ s, m !! a = Some (e.1, (e.2, s))) waiting os;
  hr_pending k a : pending !! k = Some a ↔ a ∈ l ∧ ∃ r, m !! a = Some (k, r);
}.

Lemma hrep_item h next pending seq waiting m l os k : hrep h next pending seq waiting m l os → k ∈ waiting.*1 ↔ is_Some (pending !! k).
Proof.
  intros Hr. rewrite list_elem_of_fmap. split.
  - intros ([k' p] & -> & [i Hi]%list_elem_of_lookup_1). destruct (Forall2_lookup_l _ _ _ _ _ (hr_waiting _ _ _ _ _ _ _ _ Hr) Hi) as (a & Ha & s & Hm).
    exists a. apply (hr_pending _ _ _ _ _ _ _ _ Hr). split; [|eauto]. rewrite <- (hr_order _ _ _ _ _ _ _ _ Hr). by eapply list_elem_of_lookup_2.
  - intros [a [Ha [r Hm]]%(hr_pending _ _ _ _ _ _ _ _ Hr)]. rewrite <- (hr_order _ _ _ _ _ _ _ _ Hr) in Ha. apply list_elem_of_lookup_1 in Ha as [i Hi].
    destruct (Forall2_lookup_r _ _ _ _ _ (hr_waiting _ _ _ _ _ _ _ _ Hr) Hi) as (e & He & s & Hme). exists e.
    split; [congruence|]. by eapply list_elem_of_lookup_2.
Qed.

Lemma sorted_rank m m' os : (∀ a, a ∈ os → (prank m' a).2 = (prank m a).2) →
  StronglySorted (λ a b, (prank m a).2 < (prank m b).2) os → StronglySorted (λ a b, (prank m' a).2 < (prank m' b).2) os.
Proof.
  intros Hr. induction 1 as [|a os Hs IH Hall]; constructor.
  - apply IH. intros b Hb. apply Hr. by right.
  - rewrite Forall_forall in *. intros b Hb. rewrite !Hr by set_solver. by apply Hall.
Qed.

Lemma raise_other (item : K) p l : item ∉ l.*1 → raise item p l = l.
Proof.
  intros Hn. unfold raise. rewrite <- (list_fmap_id l) at 2. apply list_fmap_ext. intros i e He. rewrite bool_decide_false; [done|].
  intros Heq. apply Hn. rewrite <- Heq. apply list_elem_of_fmap_2. by eapply list_elem_of_lookup_2.
Qed.

Lemma raise_ok item p q waiting m l os : hrep (q_queue q) (q_next q) (q_pending q) (q_seq q) waiting m l os →
  ∃ h' m' l' os', raisePending item p q = set_queue h' q ∧ hrep h' (q_next q) (q_pending q) (q_seq q) (raise item p waiting) m' l' os'.
Proof.
  intros Hr. pose proof (hr_sim _ _ _ _ _ _ _ _ Hr) as Hs. unfold raisePending.
  assert (set_queue (q_queue q) q = q) as Hid by (by destruct q).
  destruct (q_pending q !! item) as [a|] eqn:Hpd.
  2: { exists (q_queue q), m, l, os. rewrite Hid, raise_other; [done|]. rewrite (hrep_item _ _ _ _ _ _ _ _ _ Hr), Hpd. by intros [??]. }
  pose proof (proj1 (hr_pending _ _ _ _ _ _ _ _ Hr item a) Hpd) as [Hal [r Hma]].
  destruct (sim_item _ _ _ a Hs Hal) as (it & Hit & Hmit). rewrite Hit.
  assert (∀ b r', b ∈ l → m !! b = Some (item, r') → b = a) as Honly.
  { intros b r' Hb Hmb. assert (q_pending q !! item = Some b) as Hpb by (apply (hr_pending _ _ _ _ _ _ _ _ Hr); eauto). congruence. }
  rewrite Hmit in Hma. injection Hma as Hval <-.
  destruct (Z.ltb_spec (it_priority it) p) as [Hlt|Hge].
  - apply list_elem_of_lookup_1 in Hal as [i Hi]. rewrite (sim_index _ _ _ Hs i a it Hi Hit), Nat2Z.id.
    destruct (fix_ok m l _ a it p i Hs (hr_heap _ _ _ _ _ _ _ _ Hr) Hi Hit Hlt) as (l' & Hs' & Hh' & Hperm).
    eexists _, _, l', os. split; [done|]. set (m' := <[a := core (set_priority p it)]> m) in *.
    assert (∀ b, (prank m' b).2 = (prank m b).2) as Hseq.
    { intros b. unfold prank, m'. destruct (decide (b = a)) as [->|]; [|by rewrite lookup_insert_ne]. by rewrite lookup_insert_eq, Hmit. }
    split; [done|done| | | | | |].
    + intros b. unfold m'. rewrite dom_insert, elem_of_union, elem_of_singleton. intros [->|Hb]; [|by apply (hr_fresh _ _ _ _ _ _ _ _ Hr)].
      apply (hr_fresh _ _ _ _ _ _ _ _ Hr). apply elem_of_dom. eauto.
    + rewrite Hperm. apply Hr.
    + eapply sorted_rank; [|apply Hr]. intros b _. apply Hseq.
    + intros b Hb. rewrite Hseq. apply (hr_bound _ _ _ _ _ _ _ _ Hr). by rewrite <- Hperm.
    + pose proof (hr_waiting _ _ _ _ _ _ _ _ Hr) as Hw. unfold raise. apply Forall2_fmap_l.
      apply Forall2_same_length_lookup in Hw as [Hlen Hw]. apply Forall2_same_length_lookup. split; [done|]. intros k e b He Hb.
      destruct (Hw k e b He Hb) as (sq & Hmb). unfold compose, m'. destruct (decide (b = a)) as [->|Hba].
      * rewrite lookup_insert_eq. rewrite Hmit in Hmb. injection Hmb as He1 He2 <-. rewrite bool_decide_true by congruence. simpl.
        eexists. unfold core, rank. simpl. rewrite Z.max_r by lia. by rewrite He1.
      * rewrite lookup_insert_ne by done. rewrite bool_decide_false; [eauto|]. intros Heq. apply Hba. eapply (Honly b); [|by rewrite <- Heq].
        rewrite <- (hr_order _ _ _ _ _ _ _ _ Hr). by eapply list_elem_of_lookup_2.
    + intros k b. rewrite (hr_pending _ _ _ _ _ _ _ _ Hr), Hperm. unfold m'. destruct (decide (b = a)) as [->|]; [|by rewrite lookup_insert_ne].
      rewrite lookup_insert_eq, Hmit. unfold core. simpl. f_equiv. split; intros [r' Heq]; injection Heq as <- <-; eauto.
  - exists (q_queue q), m, l, os. rewrite Hid. split; [done|]. replace (raise item p waiting) with waiting; [done|]. unfold raise.
    rewrite <- (list_fmap_id waiting) at 1. apply list_fmap_ext. intros k e He. case_bool_decide as Heq; [|done].
    destruct (Forall2_lookup_l _ _ _ _ _ (hr_waiting _ _ _ _ _ _ _ _ Hr) He) as (b & Hb & sq & Hmb). rewrite Heq in Hmb.
    assert (b = a) as ->. { eapply (Honly b); [|done]. rewrite <- (hr_order _ _ _ _ _ _ _ _ Hr). by eapply list_elem_of_lookup_2. }
    rewrite Hmit in Hmb. injection Hmb as _ He2 _. rewrite Z.max_l by lia. by destruct e.
Qed.

Lemma enqueue_ok item q waiting m l os : hrep (q_queue q) (q_next q) (q_pending q) (q_seq q) waiting m l os →
  q_pending q !! item = None → 0 ≤ q_seq q → q_seq q + 1 < 2 ^ 64 → ∃ h' m' l' os',
  enqueue item q = mkQueue h' (S (q_next q)) (q_dirty q) (q_processing q) (<[item := q_next q]> (q_pending q)) (q_priorities q)
    (q_shuttingDown q) (q_drain q) (q_seq q + 1) ∧
  hrep h' (S (q_next q)) (<[item := q_next q]> (q_pending q)) (q_seq q + 1) (waiting ++ [(item, priorityOf q item)]) m' l' os'.
Proof.
  intros Hr Hno Hpos Hlt. pose proof (hr_sim _ _ _ _ _ _ _ _ Hr) as Hs. unfold enqueue, nextSeq. rewrite Z.mod_small by lia.
  set (it := mkItem item (priorityOf q item) 0 (q_seq q + 1)). set (a := q_next q).
  assert (m !! a = None) as Hma.
  { destruct (m !! a) eqn:E; [|done]. assert (a < q_next q)%nat; [|subst a; lia]. apply (hr_fresh _ _ _ _ _ _ _ _ Hr). by apply elem_of_dom. }
  assert (ph_items (q_queue q) !! a = None) as Hia.
  { rewrite <- (sim_cores _ _ _ Hs), lookup_fmap in Hma. by destruct (ph_items (q_queue q) !! a). }
  destruct (push_ok m l _ a it Hs (hr_heap _ _ _ _ _ _ _ _ Hr) Hia) as (l' & Hs' & Hh' & Hperm).
  set (m' := <[a := core it]> m) in *. eexists _, m', l', (os ++ [a]). split; [done|].
  assert (a ∉ l) as Hal by (intros Hin; apply (sim_valid _ _ _ Hs), elem_of_dom in Hin as [? Hin]; congruence).
  assert (∀ b, b ∈ l → prank m' b = prank m b) as Hsame by (intros b Hb; apply prank_insert_ne; by intros ->).
  assert (prank m' a = (priorityOf q item, q_seq q + 1)) as Hra by (unfold prank, m'; by rewrite lookup_insert_eq).
  assert (∀ b, b ∈ os ↔ b ∈ l) as Hos by (intros b; by rewrite (hr_order _ _ _ _ _ _ _ _ Hr)).
  split; [done|done| | | | | |].
  - intros b. unfold m'. rewrite dom_insert, elem_of_union, elem_of_singleton. intros [->|Hb]; [subst a; lia|].
    pose proof (hr_fresh _ _ _ _ _ _ _ _ Hr b Hb). lia.
  - rewrite Hperm. by rewrite (hr_order _ _ _ _ _ _ _ _ Hr).
  - apply StronglySorted_app. split_and!.
    + intros b c Hb Hc%list_elem_of_singleton. rewrite Hc, Hra, Hsame by (by apply Hos). simpl.
      pose proof (hr_bound _ _ _ _ _ _ _ _ Hr b (proj1 (Hos b) Hb)). lia.
    + eapply sorted_rank; [|apply Hr]. intros b Hb. by rewrite Hsame by (by apply Hos).
    + repeat constructor.
  - intros b. rewrite Hperm, elem_of_app, list_elem_of_singleton. intros [Hb| ->]; [|by rewrite Hra].
    rewrite Hsame by done. pose proof (hr_bound _ _ _ _ _ _ _ _ Hr b Hb). lia.
  - apply Forall2_app.
    + eapply Forall2_impl; [apply Hr|]. intros e b [sq Hb]. unfold m'. rewrite lookup_insert_ne by congruence. eauto.
    + constructor; [|constructor]. eexists. unfold m'. by rewrite lookup_insert_eq.
  - intros k b. rewrite Hperm, elem_of_app, list_elem_of_singleton, lookup_insert. unfold m'. destruct (decide (item = k)) as [->|Hk].
    + split.
      * intros [= <-]. split; [by right|]. rewrite lookup_insert_eq. by eexists.
      * intros [[Hb| ->] [r Hm]]; [|done]. rewrite lookup_insert_ne in Hm by (by intros ->).
        assert (q_pending q !! k = Some b) by (apply (hr_pending _ _ _ _ _ _ _ _ Hr); eauto). congruence.
    + rewrite (hr_pending _ _ _ _ _ _ _ _ Hr). split.
      * intros [Hb [r Hm]]. split; [by left|]. rewrite lookup_insert_ne by (by intros ->). eauto.
      * intros [[Hb| ->] [r Hm]]; [rewrite lookup_insert_ne in Hm by (by intros ->); eauto|]. rewrite lookup_insert_eq in Hm. injection Hm as Hm _. done.
Qed.

(** [pick] takes what has the highest priority and came first. *)
Lemma pick_elem (l : list (K * Z)) e rest : pick l = Some (e, rest) → e ∈ l.
Proof.
  revert e rest. induction l as [|e0 l IH]; intros e rest; simpl; [done|]. destruct (pick l) as [[e' rest']|].
  - destruct (e0.2 <? e'.2); intros [= <- _]; [right; by eapply IH|left].
  - intros [= <- _]. left.
Qed.
Lemma pick_None (l : list (K * Z)) : pick l = None → l = [].
Proof. destruct l as [|e l]; [done|]. simpl. destruct (pick l) as [[e' rest']|]; [by destruct (e.2 <? e'.2)|done]. Qed.
Lemma pick_at (w1 w2 : list (K * Z)) e : (∀ e', e' ∈ w1 → e'.2 < e.2) → (∀ e', e' ∈ w2 → e'.2 ≤ e.2) → pick (w1 ++ e :: w2) = Some (e, w1 ++ w2).
Proof.
  intros H1 H2. induction w1 as [|e1 w1 IH]; simpl.
  - destruct (pick w2) as [[e' rest']|] eqn:Hp; [|by apply pick_None in Hp as ->]. apply pick_elem, H2 in Hp.
    by replace (e.2 <? e'.2) with false by lia.
  - rewrite IH by (intros e' He'; apply H1; by right). replace (e1.2 <? e.2) with true; [done|]. symmetry. apply Z.ltb_lt, H1. by left.
Qed.

Lemma get_ok q waiting m l os : hrep (q_queue q) (q_next q) (q_pending q) (q_seq q) waiting m l os → waiting ≠ [] →
  ∃ x h' it e rest l' os', heap_Pop (q_queue q) = Some (x, h') ∧ ph_items h' !! x = Some it ∧ it_value it = e.1 ∧
    pick waiting = Some (e, rest) ∧ hrep h' (q_next q) (delete e.1 (q_pending q)) (q_seq q) rest m l' os'.
Proof.
  intros Hr Hne. pose proof (hr_sim _ _ _ _ _ _ _ _ Hr) as Hs. pose proof (hr_order _ _ _ _ _ _ _ _ Hr) as Hord.
  assert (l ≠ []) as Hl.
  { intros ->. apply Permutation_nil_r in Hord as ->. pose proof (hr_waiting _ _ _ _ _ _ _ _ Hr) as Hw. by apply Forall2_nil_inv_r in Hw. }
  destruct (pop_ok m l _ Hs (hr_heap _ _ _ _ _ _ _ _ Hr) Hl) as (x & l' & h' & Hpop & Hs' & Hh' & Hperm & Hmin).
  assert (x ∈ l) as Hxl by (rewrite <- Hperm; left). destruct (sim_item _ _ _ x Hs Hxl) as (it0 & _ & Hmx).
  assert (∃ it, ph_items h' !! x = Some it ∧ core it = core it0) as (it & Hit & Hcore).
  { rewrite <- (sim_cores _ _ _ Hs'), lookup_fmap in Hmx. destruct (ph_items h' !! x) as [it|]; [|done]. exists it. split; [done|]. by apply (inj Some). }
  assert (x ∈ os) as (o1 & o2 & ->)%list_elem_of_split by (by rewrite Hord).
  pose proof (hr_waiting _ _ _ _ _ _ _ _ Hr) as Hw. apply Forall2_app_inv_r in Hw as (w1 & w2' & Hw1 & Hw2 & ->).
  apply Forall2_cons_inv_r in Hw2 as (e & w2 & [sq Hme] & Hw2 & ->).
  assert (prank m x = (e.2, sq)) as Hrx by (unfold prank; by rewrite Hme).
  pose proof (hr_seqs _ _ _ _ _ _ _ _ Hr) as Hseq. apply StronglySorted_app in Hseq as (Hlt & Hss1 & Hss2).
  assert (∀ b e' sq', b ∈ o1 ++ o2 → m !! b = Some (e'.1, (e'.2, sq')) → (e'.2 < e.2 ∨ e'.2 = e.2 ∧ sq ≤ sq')%Z) as Hrank.
  { intros b e' sq' Hb Hmb. assert (b ∈ l) as Hbl. { rewrite <- Hord, elem_of_app, elem_of_cons. apply elem_of_app in Hb. tauto. }
    pose proof (Hmin b Hbl) as Hle. unfold le, pless in Hle. rewrite Hrx in Hle. unfold prank in Hle. rewrite Hmb in Hle.
    unfold rank_less in Hle. simpl in Hle. destruct (Z.eqb_spec e'.2 e.2); lia. }
  exists x, h', it, e, (w1 ++ w2), l', (o1 ++ o2). split_and!; [done|done| | |].
  - rewrite Hme in Hmx. injection Hmx as Hv _. unfold core in Hcore. injection Hcore as Hc _. congruence.
  - apply pick_at.
    + intros e' [i Hi]%list_elem_of_lookup_1. destruct (Forall2_lookup_l _ _ _ _ _ Hw1 Hi) as (b & Hb & sq' & Hmb).
      apply list_elem_of_lookup_2 in Hb. destruct (Hrank b e' sq') as [?|[_ Hsq]]; [apply elem_of_app; by left|done|done|].
      specialize (Hlt b x Hb ltac:(left)). rewrite Hrx in Hlt. unfold prank in Hlt. rewrite Hmb in Hlt. simpl in Hlt. lia.
    + intros e' [i Hi]%list_elem_of_lookup_1. destruct (Forall2_lookup_l _ _ _ _ _ Hw2 Hi) as (b & Hb & sq' & Hmb).
      apply list_elem_of_lookup_2 in Hb. destruct (Hrank b e' sq') as [?|[? _]]; [apply elem_of_app; by right|done|lia|lia].
  - assert (o1 ++ o2 ≡ₚ l') as Hos. { symmetry. eapply Permutation_cons_app_inv. by rewrite Hperm, Hord. }
    assert (x ∉ l') as Hxl'. { pose proof (sim_once _ _ _ Hs) as Hnd. rewrite <- Hperm in Hnd. by apply NoDup_cons in Hnd as [? _]. }
    assert (∀ b, b ∈ l' → b ∈ l) as Hsub by (intros b Hb; rewrite <- Hperm; by right).
    split; [done|done| |done| | | |].
    + apply Hr.
    + apply StronglySorted_app. split_and!; [|done|by apply StronglySorted_inv in Hss2 as [? _]]. intros b c Hb Hc. apply Hlt; [done|by right].
    + intros b Hb. by apply (hr_bound _ _ _ _ _ _ _ _ Hr), Hsub.
    + by apply Forall2_app.
    + intros k b. rewrite lookup_delete_Some, (hr_pending _ _ _ _ _ _ _ _ Hr). split.
      * intros (Hk & Hb & [r Hm]). split; [|eauto]. rewrite <- Hperm, elem_of_cons in Hb. destruct Hb as [->|Hb]; [|done].
        rewrite Hme in Hm. injection Hm as Hm _. congruence.
      * intros [Hb [r Hm]]. split_and!; [|by apply Hsub|eauto]. intros Hek. rewrite <- Hek in Hm. apply Hxl'.
        assert (q_pending q !! e.1 = Some b) as Hp1 by (apply (hr_pending _ _ _ _ _ _ _ _ Hr); split; [by apply Hsub|eauto]).
        assert (q_pending q !! e.1 = Some x) as Hp2 by (apply (hr_pending _ _ _ _ _ _ _ _ Hr); split; [done|eauto]). congruence.
Qed.

(** ** The queue and its promise *)

Record repr (q : priorityQueue) (w : workQueue) : Prop := {
  rp_heap : ∃ m l os, hrep (q_queue q) (q_next q) (q_pending q) (q_seq q) (w_waiting w) m l os;
  rp_seq : 0 ≤ q_seq q;
  rp_working : q_processing q = w_working w;
  rp_again : w_again w ⊆ w_working w;
  rp_apart k : k ∈ (w_waiting w).*1 → k ∉ w_working w;
  rp_dirty k : k ∈ q_dirty q ↔ k ∈ (w_waiting w).*1 ∨ k ∈ w_again w;
  rp_priorities : q_priorities q = w_priorities w;
  rp_down : q_shuttingDown q = w_down w;
}.

Lemma raise_items (item : K) p l : (raise item p l).*1 = l.*1.
Proof. unfold raise. rewrite <- list_fmap_compose. apply list_fmap_ext. intros i e _. unfold compose. by case_bool_decide. Qed.

Lemma pending_repr q w k : repr q w → k ∈ (w_waiting w).*1 ↔ is_Some (q_pending q !! k).
Proof. intros [(m & l & os & Hr) _ _ _ _ _ _ _]. by eapply hrep_item. Qed.

Lemma waiting_once q w : repr q w → NoDup (w_waiting w).*1 ∧ queue_Len q = length (w_waiting w).
Proof.
  intros [(m & l & os & Hr) _ _ _ _ _ _ _]. pose proof (hr_sim _ _ _ _ _ _ _ _ Hr) as Hs. pose proof (hr_order _ _ _ _ _ _ _ _ Hr) as Hord. split.
  - apply NoDup_alt. intros i j k Hi Hj. apply list_lookup_fmap_Some_1 in Hi as (e1 & -> & Hi). apply list_lookup_fmap_Some_1 in Hj as (e2 & He & Hj).
    destruct (Forall2_lookup_l _ _ _ _ _ (hr_waiting _ _ _ _ _ _ _ _ Hr) Hi) as (a & Ha & s1 & Hma).
    destruct (Forall2_lookup_l _ _ _ _ _ (hr_waiting _ _ _ _ _ _ _ _ Hr) Hj) as (b & Hb & s2 & Hmb).
    assert (∀ c i r, os !! i = Some c → m !! c = Some (e1.1, r) → q_pending q !! e1.1 = Some c) as Hp.
    { intros c i' r Hc Hm. apply (hr_pending _ _ _ _ _ _ _ _ Hr). split; [|eauto]. rewrite <- Hord. by eapply list_elem_of_lookup_2. }
    rewrite <- He in Hmb. pose proof (Hp a i _ Ha Hma) as Hpa. pose proof (Hp b j _ Hb Hmb) as Hpb. assert (a = b) as -> by congruence.
    eapply NoDup_lookup; [|exact Ha|exact Hb]. rewrite Hord. apply Hs.
  - unfold queue_Len. simpl. rewrite (sim_slots _ _ _ Hs), <- Hord. symmetry. eapply Forall2_length, Hr.
Qed.

Lemma ensure_repr item p q w : repr q w → repr (ensurePriority item p q) (w_ensure item p w) ∧ q_seq (ensurePriority item p q) = q_seq q.
Proof.
  intros Hq. unfold ensurePriority, w_ensure. rewrite (rp_priorities _ _ Hq).
  replace (if p <? 0 then 0 else p) with (Z.max 0 p) by (destruct (Z.ltb_spec p 0); lia).
  destruct (match w_priorities w !! item with Some c => _ | None => _ end); [done|].
  destruct Hq as [(m & l & os & Hr) H1 H2 H3 H4 H5 H6 H7].
  set (q1 := mkQueue _ _ _ _ _ _ _ _ _). destruct (raise_ok item (Z.max 0 p) q1 (w_waiting w) m l os Hr) as (h' & m' & l' & os' & -> & Hr').
  split; [|done]. split; simpl; rewrite ?raise_items; try done. eauto.
Qed.

Lemma add_repr item q w : repr q w → q_seq q + 1 < 2 ^ 64 →
  repr (queue_Add item q) (w_add item w) ∧ q_seq (queue_Add item q) ≤ q_seq q + 1.
Proof.
  intros Hq Hlt. unfold queue_Add, w_add. rewrite (rp_down _ _ Hq). destruct (w_down w) eqn:Hdn; [split; [done|lia]|].
  assert (priorityOf q item = w_priority item w) as Hpr by (unfold priorityOf, w_priority; by rewrite (rp_priorities _ _ Hq)).
  rewrite Hpr. pose proof (pending_repr q w item Hq) as Hpd.
  destruct (decide (item ∈ (w_waiting w).*1)) as [Hin|Hin].
  - rewrite bool_decide_true by (apply Hq; by left). rewrite (bool_decide_true (item ∈ (w_waiting w).*1)) by done.
    destruct Hq as [(m & l & os & Hr) H1 H2 H3 H4 H5 H6 H7].
    destruct (raise_ok item (w_priority item w) q (w_waiting w) m l os Hr) as (h' & m' & l' & os' & -> & Hr').
    split; [|simpl; lia]. split; simpl; rewrite ?raise_items; try done; [eauto|congruence].
  - rewrite (bool_decide_false (item ∈ (w_waiting w).*1)) by done. destruct (decide (item ∈ w_again w)) as [Hag|Hag].
    + rewrite bool_decide_true by (apply Hq; by right). rewrite (bool_decide_true (item ∈ w_working w)) by (by apply Hq).
      assert (raisePending item (w_priority item w) q = q) as ->.
      { unfold raisePending. destruct (q_pending q !! item) eqn:E; [|done]. destruct Hin. by apply Hpd. }
      assert ({[item]} ∪ w_again w = w_again w) as -> by set_solver. split; [|lia].
      destruct Hq as [Hh H1 H2 H3 H4 H5 H6 H7]. split; simpl; try done; congruence.
    + rewrite bool_decide_false by (rewrite (rp_dirty _ _ Hq); tauto). simpl. rewrite (rp_working _ _ Hq).
      destruct Hq as [(m & l & os & Hr) H1 H2 H3 H4 H5 H6 H7]. case_bool_decide as Hwk.
      * split; [|simpl; lia]. split; simpl; try done; try congruence; first [by exists m, l, os|set_solver].
      * set (q1 := mkQueue _ _ _ _ _ _ _ _ _).
        destruct (enqueue_ok item q1 (w_waiting w) m l os Hr) as (h' & m' & l' & os' & -> & Hr'); simpl; [|done|done|].
        { destruct (q_pending q !! item) eqn:E; [|done]. destruct Hin. by apply Hpd. }
        change (priorityOf q1 item) with (priorityOf q item) in Hr'. rewrite Hpr in Hr'.
        split; [|lia]. split; simpl; rewrite ?fmap_app; try done; try congruence; first [by exists m', l', os'|lia|set_solver].
Qed.

Lemma done_repr item q w : repr q w → item ∈ w_working w → q_seq q + 1 < 2 ^ 64 →
  repr (queue_Done item q) (w_done item w) ∧ q_seq (queue_Done item q) ≤ q_seq q + 1.
Proof.
  intros Hq Hwk Hlt. unfold queue_Done, w_done. simpl.
  assert (priorityOf q item = w_priority item w) as Hpr by (unfold priorityOf, w_priority; by rewrite (rp_priorities _ _ Hq)).
  assert (item ∉ (w_waiting w).*1) as Hin by (intros Hin; by apply (rp_apart _ _ Hq) in Hin). pose proof (pending_repr q w item Hq) as Hpd.
  pose proof (rp_dirty _ _ Hq item) as Hdi.
  destruct Hq as [(m & l & os & Hr) H1 H2 H3 H4 H5 H6 H7]. destruct (decide (item ∈ w_again w)) as [Hag|Hag].
  - rewrite !bool_decide_true by tauto. set (q1 := mkQueue _ _ _ _ _ _ _ _ _).
    destruct (enqueue_ok item q1 (w_waiting w) m l os Hr) as (h' & m' & l' & os' & -> & Hr'); simpl; [|done|done|].
    { destruct (q_pending q !! item) eqn:E; [|done]. destruct Hin. by apply Hpd. }
    change (priorityOf q1 item) with (priorityOf q item) in Hr'. rewrite Hpr in Hr'. split; [|lia].
    split; simpl; rewrite ?fmap_app; try done; [by exists m', l', os'|lia|by rewrite H2|set_solver|set_solver|].
    intros k. cbn [fmap list_fmap fst]. rewrite H5, elem_of_app, list_elem_of_singleton, elem_of_difference, elem_of_singleton. destruct (decide (k = item)) as [->|]; tauto.
  - rewrite !bool_decide_false by tauto. split; [|simpl; lia]. split; simpl; try done; first [by exists m, l, os|by rewrite H2|set_solver].
Qed.

Lemma get_repr q w : repr q w → match queue_Get q, w_get w with
  | None, None => True
  | Some (o, q'), Some (o', w') => o = o' ∧ repr q' w' ∧ q_seq q' = q_seq q
  | _, _ => False
  end.
Proof.
  intros Hq. destruct (waiting_once q w Hq) as [Hnd Hlen]. unfold queue_Get, w_get. rewrite Hlen, (rp_down _ _ Hq).
  destruct (decide (length (w_waiting w) = 0%nat)) as [Hw%nil_length_inv|Hw].
  { rewrite Hw. simpl. destruct (w_down w); done. }
  rewrite (proj2 (Nat.eqb_neq _ _) Hw). assert (w_waiting w ≠ []) as Hne by (by intros Hnil; rewrite Hnil in Hw).
  destruct Hq as [(m & l & os & Hr) H1 H2 H3 H4 H5 H6 H7].
  destruct (get_ok q (w_waiting w) m l os Hr Hne) as (x & h' & it & e & rest & l' & os' & -> & -> & -> & Hp & Hr'). rewrite Hp.
  split; [done|]. split; [|done].
  assert (∀ k, k ∈ rest.*1 ↔ k ∈ (w_waiting w).*1 ∧ k ≠ e.1) as Hrest.
  { intros k. rewrite (hrep_item _ _ _ _ _ _ _ _ k Hr'), (hrep_item _ _ _ _ _ _ _ _ k Hr). unfold is_Some. setoid_rewrite lookup_delete_Some. naive_solver. }
  assert (e.1 ∈ (w_waiting w).*1) as He by (apply list_elem_of_fmap_2; by eapply pick_elem).
  pose proof (H4 _ He) as Hnw.
  split; simpl; try done; [by exists m, l', os'|by rewrite H2|set_solver|..].
  - intros k [Hk Hne']%Hrest. rewrite elem_of_union, elem_of_singleton. intros [?|?]; [done|by apply (H4 k)].
  - intros k. rewrite elem_of_difference, elem_of_singleton, H5, Hrest. split; [tauto|]. intros [?|Hk]; [tauto|]. split; [by right|]. intros ->. apply Hnw. set_solver.
Qed.

Lemma call_repr c q w : repr q w → allowed c w = true → q_seq q + 1 < 2 ^ 64 → match call_queue c q, call_work c w with
  | None, None => True
  | Some (o, q'), Some (o', w') => o = o' ∧ repr q' w' ∧ q_seq q' ≤ q_seq q + 1
  | _, _ => False
  end.
Proof.
  intros Hq Hal Hlt. destruct c as [item|item p|item|item|item|item| |item| |]; simpl.
  1,2: destruct (ensure_repr item ltac:(first [exact p|exact 0]) q w Hq) as [He Hs]; split; [done|]; rewrite <- Hs in Hlt |- *; by apply add_repr.
  1,2: destruct (ensure_repr item 0 q w Hq) as [He Hs]; split; [done|]; split; [done|]; unfold rl_AddAfter, rl_AddRateLimited; lia.
  - split; [done|]. by apply add_repr.
  - split; [done|]. split; [|simpl; lia]. destruct Hq as [Hh H1 H2 H3 H4 H5 H6 H7]. split; simpl; try done. by rewrite H6.
  - pose proof (get_repr q w Hq) as Hg. destruct (queue_Get q) as [[o q']|], (w_get w) as [[o' w']|]; try done. destruct Hg as (? & ? & ?).
    split; [done|]. split; [done|lia].
  - simpl in Hal. apply bool_decide_eq_true_1 in Hal. split; [done|]. by apply done_repr.
  - split; [done|]. split; [|simpl; lia]. destruct Hq as [Hh H1 H2 H3 H4 H5 H6 H7]. split; done.
  - split; [done|]. split; [|simpl; lia]. destruct Hq as [Hh H1 H2 H3 H4 H5 H6 H7]. split; done.
Qed.

Lemma new_repr : repr newPriorityQueue noWork.
Proof.
  split; simpl; try done; try set_solver. exists ∅, [], []. split.
  - split; try done; try set_solver; first [by rewrite fmap_empty|constructor].
  - intros k a b Hk. simpl in Hk. lia.
  - set_solver.
  - done.
  - constructor.
  - set_solver.
  - constructor.
  - intros k a. rewrite lookup_empty. set_solver.
Qed.

Lemma run_repr calls q w : repr q w → disciplined calls w = true → q_seq q + Z.of_nat (length calls) < 2 ^ 64 →
  (run call_queue calls q).1 = (run call_work calls w).1 ∧ repr (run call_queue calls q).2 (run call_work calls w).2.
Proof.
  revert q w. induction calls as [|c calls IH]; intros q w Hq Hd Hlt; simpl; [done|]. simpl in Hd, Hlt. apply andb_true_iff in Hd as [Hal Hd].
  pose proof (call_repr c q w Hq Hal ltac:(lia)) as Hc. destruct (call_queue c q) as [[o q']|], (call_work c w) as [[o' w']|]; try done.
  destruct Hc as (-> & Hq' & Hs). destruct (IH q' w' Hq' Hd ltac:(lia)) as [IH1 IH2].
  destruct (run call_queue calls q') as [outs q''], (run call_work calls w') as [outs' w'']. simpl in *. split; [by rewrite IH1|done].
Qed.

(** C40: The work queue of the controllers is a queue of distinct items by
    priority and arrival: whatever is called, with [Done] only for items in
    work and fewer than 2^64 calls, every [Get] returns the item a queue of
    arrivals would return, the one of the highest priority that came first, or
    waits when that one is empty; an item never waits twice or while it is in
    work, and one added while it is in work waits again when it is done, so
    that no item is lost and none is worked on twice at a time. *)
Theorem queue_refines (calls : list (call (K:=K))) : disciplined calls noWork = true → Z.of_nat (length calls) < 2 ^ 64 →
  let '(outs, q) := run call_queue calls newPriorityQueue in
  let '(outs', w) := run call_work calls noWork in
  outs = outs' ∧ queue_Len q = length (w_waiting w) ∧ q_processing q = w_working w ∧
  (∀ k, k ∈ q_dirty q ↔ k ∈ (w_waiting w).*1 ∨ k ∈ w_again w) ∧
  NoDup (w_waiting w).*1 ∧ (∀ k, k ∈ (w_waiting w).*1 → k ∉ w_working w) ∧ w_again w ⊆ w_working w.
Proof.
  intros Hd Hlt. destruct (run_repr calls newPriorityQueue noWork new_repr Hd ltac:(simpl; lia)) as [Ho Hq].
  destruct (run call_queue calls newPriorityQueue) as [outs q], (run call_work calls noWork) as [outs' w]. simpl in *.
  destruct (waiting_once q w Hq) as [Hnd Hlen]. destruct Hq as [Hh H1 H2 H3 H4 H5 H6 H7]. done.
Qed.
End Sim.

Lemma queue_refines_witness :
  let calls := [CAdd "a"; CAdd "b"; CGet; CAddWithPriority "c" 5; CAdd "a"; CGet; CDone "a"; CGet; CGet] in
  disciplined calls noWork = true ∧ Z.of_nat (length calls) < 2 ^ 64 ∧
  let '(outs, q) := run call_queue calls newPriorityQueue in
  let '(outs', w) := run call_work calls noWork in
  outs = outs' ∧ queue_Len q = length (w_waiting w) ∧ q_processing q = w_working w ∧
  (∀ k, k ∈ q_dirty q ↔ k ∈ (w_waiting w).*1 ∨ k ∈ w_again w) ∧
  NoDup (w_waiting w).*1 ∧ (∀ k, k ∈ (w_waiting w).*1 → k ∉ w_working w) ∧ w_again w ⊆ w_working w.
Proof.
  intros calls. assert (disciplined calls noWork = true) as Hd by (vm_compute; reflexivity).
  assert (Z.of_nat (length calls) < 2 ^ 64) as Hl by (vm_compute; reflexivity).
  split; [exact Hd|]. split; [exact Hl|]. exact (queue_refines calls Hd Hl).
Defined.
