(* ===== verification/CpReconciler.v ===== *)
(** * The handler chain of the control plane

    controller/reconciler and controller/conditions of gpu-control-plane: the
    chain stops at the first error, the resource is updated also after an error,
    and every finaliser runs.  [MergeResults] is the one of [Reconciler]. *)

From S2P Require Import Prelude Reconciler GpuApi.

(** ** base.go *)

Definition conflictRequeueAfter : Z := 100000.

Section Chain.
Context {H S : Type} `{ApiErrors}.

(** The loop over the handlers; [errs] are the joined errors. *)
Fixpoint cp_handlersLoop (execute : H → S → (Result * option error) * S) (handlers : list H) (result : Result) (errs : list error)
    (s : S) : (Result * list error) * S :=
  match handlers with
  | [] => ((result, errs), s)
  | h :: rest =>
      let '((res, err), s') := execute h s in
      match err with
      | None =>
          let result := MergeResults [result; res] in
          if negb (list_len0 errs) && negb (existsb IsConflict errs) then ((result, errs), s')
          else cp_handlersLoop execute rest result errs s'
      | Some e =>
          if errorsIs e ErrStopHandlerChain then ((MergeResults [result; res], errs), s') else
          if IsConflict e then
            let result := MergeResults [result; MergeResults [res; mkResult false conflictRequeueAfter]] in
            if negb (list_len0 errs) && negb (existsb IsConflict errs) then ((result, errs), s')
            else cp_handlersLoop execute rest result errs s'
          else
            let errs := errs ++ [e] in
            let result := MergeResults [result; res] in
            if negb (list_len0 errs) && negb (existsb IsConflict errs) then ((result, errs), s')
            else cp_handlersLoop execute rest result errs s'
      end
  end.

Fixpoint cp_finalizers (finalizer : H → option (S → option error * S)) (handlers : list H) (errs : list error) (s : S) : list error * S :=
  match handlers with
  | [] => (errs, s)
  | h :: rest =>
      match finalizer h with
      | None => cp_finalizers finalizer rest errs s
      | Some f => let '(err, s') := f s in cp_finalizers finalizer rest (errs ++ option_list err) s'
      end
  end.

Definition cp_Reconcile (r : BaseReconciler H S) (s : S) : (Result * list error) * S :=
  match br_update r, br_execute r with
  | None, _ => ((zeroResult, [Errorf "resource updater is not configured" []]), s)
  | _, None => ((zeroResult, [Errorf "handler executor is not configured" []]), s)
  | Some update, Some execute =>
      let '((result, errs), s1) := cp_handlersLoop execute (br_handlers r) zeroResult [] s in
      let '(uerr, s2) := update s1 in
      let '(result, errs) :=
        match uerr with
        | None => (result, errs)
        | Some e => if IsConflict e then (MergeResults [result; mkResult false conflictRequeueAfter], errs) else (result, errs ++ [e])
        end in
      let '(errs, s3) := cp_finalizers (br_finalizer r) (br_handlers r) errs s2 in
      if negb (list_len0 errs) then ((zeroResult, errs), s3) else ((result, []), s3)
  end.

(** *** Lemmas *)

(** A result that asks for another run, and that merging keeps. *)
Definition live (r : Result) : Prop := Requeue r = true ∧ RequeueAfter r = 0 ∨ 0 < RequeueAfter r.

Lemma live_nonzero r : live r → r ≠ zeroResult.
Proof. intros [[Hq _]|Ha] ->; [done|simpl in Ha; lia]. Qed.

Lemma merge_live a b : live a ∨ live b → live (MergeResults [a; b]).
Proof.
  assert (∀ r, ¬ live r → ∀ q rest, live q ∨ q = zeroResult → mergeLoop q (r :: rest) = mergeLoop q rest) as Hdrop.
  { intros r Hr q rest _. simpl. destruct (IsZero r); [done|]. unfold live in Hr.
    destruct (Requeue r && (RequeueAfter r =? 0)) eqn:E; go_bool; [tauto|]. replace (0 <? RequeueAfter r) with false by lia.
    by rewrite andb_false_r. }
  assert (∀ q r, live r → live q ∨ q = zeroResult → live (mergeLoop q [r])) as Hlast.
  { intros q r Hr Hq. simpl. rewrite (bool_decide_false _ (live_nonzero _ Hr) : IsZero r = false).
    destruct (Requeue r && (RequeueAfter r =? 0)) eqn:E; [done|]. assert (0 < RequeueAfter r) as Hp by (destruct Hr as [[Hr1 Hr2]|]; [rewrite Hr1, Hr2 in E|]; done).
    replace (0 <? RequeueAfter r) with true by lia. destruct Hq as [Hq| ->]; [|done].
    rewrite (bool_decide_false _ (live_nonzero _ Hq) : IsZero q = false). simpl. destruct (RequeueAfter r <? RequeueAfter q); [right; done|done]. }
  assert (∀ q r, live q → live (mergeLoop q [r])) as Hkeep.
  { intros q r Hq. destruct (decide (live r)); [by apply Hlast; [|left]|]. rewrite Hdrop by (done || by left). done. }
  unfold MergeResults. destruct (decide (live a)) as [Ha|Ha].
  - intros _. specialize (λ q, Hkeep q b) as Hb. remember [b] as rest eqn:Erest. clear Erest. cbn [mergeLoop].
    rewrite (bool_decide_false _ (live_nonzero _ Ha) : IsZero a = false).
    destruct (Requeue a && (RequeueAfter a =? 0)) eqn:E; [done|]. assert (0 < RequeueAfter a) as Hp by (destruct Ha as [[Hr1 Hr2]|]; [rewrite Hr1, Hr2 in E|]; done).
    replace (0 <? RequeueAfter a) with true by lia. by apply Hb.
  - intros [?|Hb]; [done|]. rewrite Hdrop by (done || by right). apply Hlast; [done|by right].
Qed.

Lemma cp_loop_live execute handlers result s result' s' :
  cp_handlersLoop execute handlers result [] s = ((result', []), s') → live result → live result'.
Proof.
  revert result s. induction handlers as [|h rest IH]; intros result s; simpl; [by intros [= <- _]|].
  destruct (execute h s) as [[res [e|]] s1]; simpl; [|intros Hr Hl; by apply (IH _ _ Hr), merge_live; left].
  destruct (errorsIs _ _); [intros [= <- _] Hl; by apply merge_live; left|]. destruct (IsConflict e) eqn:Hc; simpl.
  - intros Hr Hl. by apply (IH _ _ Hr), merge_live; left.
  - done.
Qed.

(** A chain that ends without an error and asks for nothing ran its first
    handler without an error, or was stopped by it. *)
Lemma cp_loop_quiet execute h rest result s s' :
  cp_handlersLoop execute (h :: rest) result [] s = ((zeroResult, []), s') →
  (∃ res s1 result1, execute h s = ((res, None), s1) ∧ cp_handlersLoop execute rest result1 [] s1 = ((zeroResult, []), s')) ∨
  (∃ res e, execute h s = ((res, Some e), s') ∧ errorsIs e ErrStopHandlerChain = true).
Proof.
  simpl. destruct (execute h s) as [[res [e|]] s1]; simpl; [|intros Hr; left; eauto].
  destruct (errorsIs e ErrStopHandlerChain) eqn:Hs; [intros [= _ <-]; right; eauto|].
  destruct (IsConflict e) eqn:Hc; simpl; [|done]. intros Hr%cp_loop_live; [by apply live_nonzero in Hr|].
  apply merge_live. right. apply merge_live. right. by right.
Qed.

(** ... and a reconcile that does, updated the resource after such a chain. *)
Lemma cp_reconcile_quiet r s s' execute update :
  br_execute r = Some execute → br_update r = Some update → (∀ h, br_finalizer r h = None) →
  cp_Reconcile r s = ((zeroResult, []), s') →
  ∃ s1, cp_handlersLoop execute (br_handlers r) zeroResult [] s = ((zeroResult, []), s1) ∧ update s1 = (None, s').
Proof.
  intros He Hu Hf. unfold cp_Reconcile. rewrite He, Hu.
  destruct (cp_handlersLoop _ _ _ _ s) as [[result errs] s1]. destruct (update s1) as [uerr s2] eqn:Hup.
  assert (∀ handlers es (st : S), cp_finalizers (br_finalizer r) handlers es st = (es, st)) as Hfin.
  { induction handlers as [|h hs IH]; intros es st; simpl; [done|]. by rewrite Hf. }
  destruct uerr as [e|].
  - destruct (IsConflict e) eqn:Hc; rewrite Hfin; [|destruct errs; done]. destruct errs; simpl; [|done]. intros [= Hm _].
    exfalso. revert Hm. apply live_nonzero, merge_live. right. by right.
  - rewrite Hfin. destruct errs; simpl; [|done]. intros [= -> <-]. eauto.
Qed.
End Chain.

(** ** conditions/builder.go: SetCondition at time [now] *)

Fixpoint findCondition (conditions : list Condition) (conditionType : string) : option Condition :=
  match conditions with [] => None | c :: rest => if str_eqb (cond_Type c) conditionType then Some c else findCondition rest conditionType end.

Definition mergeCondition (now : Z) (existing new : Condition) : Condition :=
  let t1 :=
    if negb (str_eqb (cond_Status existing) (cond_Status new))
    then if negb (cond_LastTransitionTime new =? 0) then cond_LastTransitionTime new else now
    else cond_LastTransitionTime existing in
  let t2 :=
    if negb (str_eqb (cond_Reason existing) (cond_Reason new))
    then if negb (cond_LastTransitionTime new =? 0) && (t1 <? cond_LastTransitionTime new) then cond_LastTransitionTime new else now
    else t1 in
  mkCondition (cond_Type existing) (cond_Status new) (cond_Reason new) (cond_Message new) (cond_ObservedGeneration new) t2.

Fixpoint replaceCondition (now : Z) (conditions : list Condition) (new : Condition) : list Condition :=
  match conditions with
  | [] => []
  | c :: rest => if str_eqb (cond_Type c) (cond_Type new) then mergeCondition now c new :: rest else c :: replaceCondition now rest new
  end.

Definition cp_SetCondition (now : Z) (conditions : list Condition) (new : Condition) : list Condition :=
  match findCondition conditions (cond_Type new) with
  | None =>
      let t := if cond_LastTransitionTime new =? 0 then now else cond_LastTransitionTime new in
      conditions ++ [mkCondition (cond_Type new) (cond_Status new) (cond_Reason new) (cond_Message new) (cond_ObservedGeneration new) t]
  | Some _ => replaceCondition now conditions new
  end.

(** ** resource.go: what [Update] does to conditions before it writes them *)

Definition rewriteCondition (c : Condition) : Condition :=
  mkCondition (cond_Type c) (if str_eqb (cond_Status c) "" then ConditionUnknown else cond_Status c)
    (if str_eqb (cond_Reason c) "" then ReasonUnknown else cond_Reason c) (cond_Message c) (cond_ObservedGeneration c)
    (cond_LastTransitionTime c).
Definition rewriteConditions (conds : list Condition) : list Condition := rewriteCondition <$> conds.

(** The condition set is found again with what was asked for, others stay. *)
Lemma cp_SetCondition_find now cs new :
  (∃ c, findCondition (cp_SetCondition now cs new) (cond_Type new) = Some c ∧ same_condition c new) ∧
  (∀ t, t ≠ cond_Type new → findCondition (cp_SetCondition now cs new) t = findCondition cs t).
Proof.
  assert (∀ a, str_eqb a a = true) as Hrefl by (intros; by go_bool). assert (∀ a b, a ≠ b → str_eqb a b = false) as Hdiff by (intros; by go_bool).
  unfold cp_SetCondition. destruct (findCondition cs (cond_Type new)) as [old|] eqn:Hf.
  - split.
    + revert Hf. induction cs as [|c cs IH]; simpl; [done|]. destruct (str_eqb (cond_Type c) (cond_Type new)) eqn:He.
      * intros _. simpl. rewrite He. eexists. split; [done|]. go_bool. unfold same_condition, mergeCondition. simpl. done.
      * simpl. rewrite He. apply IH.
    + intros t Ht. clear Hf. induction cs as [|c cs IH]; simpl; [done|]. destruct (str_eqb (cond_Type c) (cond_Type new)) eqn:He; simpl; [|by rewrite IH].
      go_bool. rewrite He, Hdiff by done. done.
  - split.
    + revert Hf. induction cs as [|c cs IH]; simpl; [intros _; rewrite Hrefl; eexists; split; [done|]; done|].
      destruct (str_eqb (cond_Type c) (cond_Type new)); [done|]. apply IH.
    + intros t Ht. clear Hf. induction cs as [|c cs IH]; simpl; [by rewrite Hdiff|]. by rewrite IH.
Qed.
