(* ===== verification/PoolSync.v ===== *)
(** * The pool controllers

    service/pool/compatibility, config, selection, nodemark, dpvalidation and
    the reconcilers of GPUPool and ClusterGPUPool.  The API server is a class
    of calls with what they document as laws over the devices and nodes it
    stores: reads show what is stored, a patch against the stored object stores
    the new one, a failed call changes nothing.  A handler gets the pool and
    the server and leaves both changed, also when it fails. *)

From S2P Require Import Prelude GoLib Reconciler GpuApi PoolApi CpReconciler.

Record PoolPod := mkPoolPod { pp_NodeName : string; pp_Conditions : list (string * string) }.

Class PoolClient (S : Type) := {
  (** [List] with [MatchingFields]: the index and the value *)
  pc_ListDevices : (GPUDevice → list string) → string → S → res (list GPUDevice);
  pc_GetDevice : string → S → res GPUDevice;
  (** [Status().Patch(obj, MergeFrom(base))] *)
  pc_PatchDeviceStatus : GPUDevice → GPUDevice → S → option error * S;
  pc_GetNode : string → S → res Node;
  pc_ListNodesByLabel : string → string → S → res (list Node);
  pc_ListNodesByTaint : string → S → res (list Node);
  pc_PatchNode : Node → Node → S → option error * S;
  pc_GetPool : string → string → S → res GPUPool;
  pc_GetClusterPool : string → S → res GPUPool;
  pc_UpdatePoolStatus : GPUPool → S → option error * S;
  (** the pods of a namespace with the labels of the validator of a pool *)
  pc_ListValidatorPods : string → string → S → res (list PoolPod);
  pc_IsNotFound : error → bool;
}.

(** The order in which a [range] over a map visits its keys. *)
Class KeyOrder := {
  range_keys : nat → gset string → list string;
  range_keys_perm n X : range_keys n X ≡ₚ elements X;
}.

(** *** The laws *)
Class PoolServer (S : Type) `{PoolClient S, ApiErrors} := {
  devices : S → gmap string GPUDevice;
  nodes : S → gmap string Node;
  devices_name s name d : devices s !! name = Some d → gd_Name d = name;
  nodes_name s name n : nodes s !! name = Some n → node_Name n = name;
  list_devices s index value l : pc_ListDevices index value s = Ok l →
    NoDup (gd_Name <$> l) ∧ ∀ d, d ∈ l ↔ devices s !! gd_Name d = Some d ∧ value ∈ index d;
  get_device s name d : pc_GetDevice name s = Ok d → devices s !! name = Some d;
  get_device_missing s name e : pc_GetDevice name s = Err e → pc_IsNotFound e = true → devices s !! name = None;
  patch_device s new base s' : pc_PatchDeviceStatus new base s = (None, s') → devices s !! gd_Name base = Some base →
    gd_Name new = gd_Name base → gd_Labels new = gd_Labels base → gd_Annotations new = gd_Annotations base → gd_Owners new = gd_Owners base →
    devices s' = <[gd_Name base := new]> (devices s) ∧ nodes s' = nodes s;
  patch_device_missing s new base e s' : pc_PatchDeviceStatus new base s = (Some e, s') → pc_IsNotFound e = true → devices s !! gd_Name new = None;
  patch_device_failed s new base e s' : pc_PatchDeviceStatus new base s = (Some e, s') → devices s' = devices s ∧ nodes s' = nodes s;
  get_node s name n : pc_GetNode name s = Ok n → nodes s !! name = Some n;
  get_node_missing s name e : pc_GetNode name s = Err e → pc_IsNotFound e = true → nodes s !! name = None;
  list_nodes_label s key value l : pc_ListNodesByLabel key value s = Ok l →
    ∀ n, n ∈ l ↔ nodes s !! node_Name n = Some n ∧ node_Labels n !! key = Some value;
  list_nodes_taint s key l : pc_ListNodesByTaint key s = Ok l → ∀ n, n ∈ l ↔ nodes s !! node_Name n = Some n ∧ key ∈ IndexNodeByTaintKey n;
  patch_node s new base s' : pc_PatchNode new base s = (None, s') → nodes s !! node_Name base = Some base → node_Name new = node_Name base →
    nodes s' = <[node_Name base := new]> (nodes s) ∧ devices s' = devices s;
  patch_node_failed s new base e s' : pc_PatchNode new base s = (Some e, s') → nodes s' = nodes s ∧ devices s' = devices s;
  update_pool s p e s' : pc_UpdatePoolStatus p s = (e, s') → nodes s' = nodes s ∧ devices s' = devices s;
}.

Section Handlers.
Context {S : Type} `{PoolClient S, ApiErrors, LabelSelectors, MetaConditions, GoSort, KeyOrder}.

Definition HandlePool : Type := GPUPool → S → (Result * option error) * (GPUPool * S).

(** ** Effects on the server *)

Fixpoint srv_forEach {A} (f : A → S → option error * S) (l : list A) (s : S) : option error * S :=
  match l with
  | [] => (None, s)
  | a :: rest => match f a s with (Some e, s') => (Some e, s') | (None, s') => srv_forEach f rest s' end
  end.

(** [retry.RetryOnConflict]: again after a conflict, [n] more times. *)
Fixpoint retryN (n : nat) (fn : S → option error * S) (s : S) : option error * S :=
  match fn s with
  | (None, s') => (None, s')
  | (Some e, s') =>
      if IsConflict e then match n with O => (Some e, s') | Datatypes.S n => retryN n fn s' end else (Some e, s')
  end.
(** [retry.DefaultRetry] has five steps. *)
Definition RetryOnConflict : (S → option error * S) → S → option error * S := retryN 4.

Definition ignoreNotFound (err : option error) : option error :=
  match err with Some e => if pc_IsNotFound e then None else Some e | None => None end.

Definition fetch {A} (r : res A) : res (option A) :=
  match r with Ok a => Ok (Some a) | Err e => if pc_IsNotFound e then Ok None else Err e end.

(** ** compatibility/compatibility.go *)

Definition conditionSupported : string := "Supported".

Definition CompatibilityHandle (now : Z) : HandlePool := λ pool s,
  let spec := gp_Spec pool in
  let supportedProvider := str_eqb (gps_Provider spec) "" || str_eqb (gps_Provider spec) "Nvidia" in
  let supportedBackend := str_eqb (gps_Backend spec) "" || str_eqb (gps_Backend spec) "DevicePlugin" in
  let cond (status reason message : string) := mkCondition conditionSupported status reason message (gp_Generation pool) 0 in
  let c :=
    if negb supportedProvider then cond ConditionFalse "UnsupportedProvider" "only provider=Nvidia is supported" else
    if negb supportedBackend then cond ConditionFalse "UnsupportedBackend" "only backend=DevicePlugin is supported" else
    cond ConditionTrue "Supported" "provider/backend supported" in
  ((zeroResult, None), (set_PoolConditions (SetStatusCondition now (gpst_Conditions (gp_Status pool)) c) pool, s)).

(** ** config/config.go *)

Definition conditionConfigured : string := "Configured".

Definition ConfigHandle (now : Z) : HandlePool := λ pool s,
  let collision : res bool :=
    if negb (str_eqb (gp_Namespace pool) "") then (λ p : option GPUPool, match p with Some _ => true | None => false end) <$> fetch (pc_GetClusterPool (gp_Name pool) s)
    else Ok false in
  match collision with
  | Err e => ((zeroResult, Some e), (pool, s))
  | Ok collision =>
      let cond (status reason message : string) := mkCondition conditionConfigured status reason message (gp_Generation pool) 0 in
      let c :=
        if collision then cond ConditionFalse "NameCollision" "ClusterGPUPool with the same name exists"
        else cond ConditionTrue "Configured" "pool configuration is valid" in
      let pool := set_PoolConditions (SetStatusCondition now (gpst_Conditions (gp_Status pool)) c) pool in
      ((zeroResult, if collision then Some ErrStopHandlerChain else None), (pool, s))
  end.

(** ** selection/selection_sync.go *)

Definition assignmentIndex (pool : GPUPool) : GPUDevice → list string :=
  if str_eqb (AssignmentAnnotationKey pool) ClusterAssignmentAnnotation then IndexGPUDeviceByClusterAssignment
  else IndexGPUDeviceByNamespacedAssignment.

Definition deviceSortKey (dev : GPUDevice) : string :=
  let key := TrimSpace (gds_InventoryID (gd_Status dev)) in if negb (str_eqb key "") then key else gd_Name dev.

Definition unitsForDevice (dev : GPUDevice) (pool : GPUPool) : Z :=
  let r := gps_Resource (gp_Spec pool) in
  if str_eqb (rs_Unit r) "MIG" then
    if str_eqb (rs_MIGProfile r) "" then 0 else
    let profileCount := foldl (λ n t, if str_eqb (mtc_Name t) (rs_MIGProfile r) then wrap32 (n + mtc_Count t) else n) 0
                          (mig_Types (hw_MIG (gd_Hardware dev))) in
    if profileCount =? 0 then 0 else
    if 0 <? rs_SlicesPerUnit r then wrap32 (profileCount * rs_SlicesPerUnit r) else profileCount
  else if 0 <? rs_SlicesPerUnit r then rs_SlicesPerUnit r else 1.

Definition needsAssignmentUpdate (dev : GPUDevice) (poolName poolNamespace : string) : bool :=
  match gd_PoolRef dev with
  | None => true
  | Some ref =>
      if negb (str_eqb (ref_Name ref) poolName) then true else
      if (if str_eqb (TrimSpace poolNamespace) "" then negb (str_eqb (TrimSpace (ref_Namespace ref)) "")
          else negb (str_eqb (TrimSpace (ref_Namespace ref)) poolNamespace)) then true else
      str_eqb (gd_State dev) GPUDeviceStateReady
  end.

Definition poolReference (poolName poolNamespace : string) : GPUPoolReference :=
  mkPoolReference poolName (if negb (str_eqb (TrimSpace poolNamespace) "") then poolNamespace else "").

Definition assigned_device (poolName poolNamespace : string) (dev : GPUDevice) : GPUDevice :=
  set_assignment (Some (poolReference poolName poolNamespace))
    (if str_eqb (gd_State dev) GPUDeviceStateReady then GPUDeviceStatePendingAssignment else gd_State dev) dev.

Definition assignDeviceWithRetry (name poolName poolNamespace : string) : S → option error * S :=
  RetryOnConflict (λ s,
    match fetch (pc_GetDevice name s) with
    | Err e => (Some e, s)
    | Ok None => (None, s)
    | Ok (Some current) =>
        let '(err, s') := pc_PatchDeviceStatus (assigned_device poolName poolNamespace current) current s in (ignoreNotFound err, s')
    end).

(** The reference is the one of the pool, as [clearDevicePool] checks it. *)
Definition clearable (poolName poolNamespace : string) (ref : option GPUPoolReference) : bool :=
  match ref with
  | None => false
  | Some ref =>
      if negb (str_eqb (ref_Name ref) poolName) then false else
      if str_eqb (TrimSpace poolNamespace) "" then str_eqb (TrimSpace (ref_Namespace ref)) "" else
      negb (negb (str_eqb (TrimSpace (ref_Namespace ref)) "") && negb (str_eqb (ref_Namespace ref) poolNamespace))
  end.

Definition cleared_device (dev : GPUDevice) : GPUDevice :=
  set_assignment None
    (if bool_decide (gd_State dev ∈ [GPUDeviceStateAssigned; GPUDeviceStateReserved; GPUDeviceStatePendingAssignment])
     then GPUDeviceStateReady else gd_State dev) dev.

Definition clearDevicePool (name poolName poolNamespace assignmentKey : string) : S → option error * S :=
  RetryOnConflict (λ s,
    match fetch (pc_GetDevice name s) with
    | Err e => (Some e, s)
    | Ok None => (None, s)
    | Ok (Some current) =>
        if str_eqb (label (gd_Annotations current) assignmentKey) poolName then (None, s) else
        if negb (clearable poolName poolNamespace (gd_PoolRef current)) then (None, s) else
        let '(err, s') := pc_PatchDeviceStatus (cleared_device current) current s in (ignoreNotFound err, s')
    end).

(** The devices by node, each list in the order of the inventory ids. *)
Definition groupDevices (devs : list GPUDevice) : gmap string (list GPUDevice) :=
  foldl (λ m d, <[DeviceNodeName d := default [] (m !! DeviceNodeName d) ++ [d]]> m) ∅ devs.
Definition sortDevices (devs : list GPUDevice) : list GPUDevice :=
  sort_Slice (λ a b, str_ltb (deviceSortKey a) (deviceSortKey b)) devs.

(** The nodes the selector allows: a node is fetched for every key. *)
Fixpoint eligibleNodes (selector : Selector) (names : list string) (s : S) : res (gset string) :=
  match names with
  | [] => Ok ∅
  | name :: rest =>
      node ← fetch (pc_GetNode name s);
      others ← eligibleNodes selector rest s;
      Ok match node with
         | Some node => if Selector_Matches selector (node_Labels node) then {[name]} ∪ others else others
         | None => others
         end
  end.

(** The units of one node: at most [max] devices count, in order. *)
Fixpoint countNode (pool : GPUPool) (taken : Z) (devs : list GPUDevice) (total : Z) : Z :=
  match devs with
  | [] => total
  | dev :: rest =>
      if match rs_MaxDevicesPerNode (gps_Resource (gp_Spec pool)) with Some max => max <=? taken | None => false end
      then countNode pool taken rest total else
      let units := unitsForDevice dev pool in
      if units <=? 0 then countNode pool taken rest total else countNode pool (wrap32 (taken + 1)) rest (wrap32 (total + units))
  end.

Definition SelectionHandle : HandlePool := λ pool s,
  let name := gp_Name pool in
  match pc_ListDevices (assignmentIndex pool) name s with
  | Err e => ((zeroResult, Some e), (pool, s))
  | Ok assignedDevices =>
  match pc_ListDevices IndexGPUDeviceByPoolRefName name s with
  | Err e => ((zeroResult, Some e), (pool, s))
  | Ok poolRefDevices =>
  match (match gps_NodeSelector (gp_Spec pool) with None => Ok None | Some sel => Some <$> LabelSelectorAsSelector sel end) with
  | Err _ => ((zeroResult, Some (Errorf "invalid nodeSelector" [])), (pool, s))
  | Ok nodeSelector =>
  let assigned := List.filter (λ dev, negb (IsDeviceIgnored dev) && negb (str_eqb (DeviceNodeName dev) "")) assignedDevices in
  let assigned := FilterDevices assigned (gps_DeviceSelector (gp_Spec pool)) in
  let byNode := sortDevices <$> groupDevices assigned in
  match (match nodeSelector with
         | None => Ok byNode
         | Some sel =>
             eligible ← eligibleNodes sel (range_keys 0 (dom byNode)) s;
             Ok (filter (λ kv, kv.1 ∈ eligible) byNode)
         end) with
  | Err e => ((zeroResult, Some e), (pool, s))
  | Ok byNode =>
  let perNode := (λ node, default [] (byNode !! node)) <$> range_keys 1 (dom byNode) in
  let totalUnits := foldl (λ total devs, countNode pool 0 devs total) 0 perNode in
  let toUpdate := List.filter (λ dev, needsAssignmentUpdate dev name (gp_Namespace pool)) (concat perNode) in
  let stale := List.filter (λ dev, negb (str_eqb (label (gd_Annotations dev) (AssignmentAnnotationKey pool)) name) &&
                                   PoolRefMatchesPool pool (gd_PoolRef dev)) poolRefDevices in
  match srv_forEach (λ dev, clearDevicePool (gd_Name dev) name (gp_Namespace pool) (AssignmentAnnotationKey pool)) stale s with
  | (Some e, s) => ((zeroResult, Some e), (pool, s))
  | (None, s) =>
  let pool := set_Total totalUnits pool in
  match srv_forEach (λ dev, assignDeviceWithRetry (gd_Name dev) name (gp_Namespace pool)) toUpdate s with
  | (Some e, s) => ((zeroResult, Some e), (pool, s))
  | (None, s) => ((zeroResult, None), (pool, s))
  end end end end end end.

(** ** nodemark/node_mark.go *)

Definition ensureTaints (current desired : list Taint) (poolKey : string) : list Taint * bool :=
  let out := List.filter (λ t, negb (str_eqb (tnt_Key t) poolKey)) current in
  (out ++ desired, existsb (λ t, str_eqb (tnt_Key t) poolKey) current || negb (list_len0 desired)).

(** What [syncNode] makes of a node, and whether it changed anything. *)
Definition markNode (poolKey : string) (hasDevices taintsEnabled : bool) (node : Node) : Node * bool :=
  let poolValue := PoolValueFromKey poolKey in
  let '(labels, changed) :=
    if hasDevices then
      if negb (str_eqb (label (node_Labels node) poolKey) poolValue) then (<[poolKey := poolValue]> (node_Labels node), true) else (node_Labels node, false)
    else match node_Labels node !! poolKey with Some _ => (delete poolKey (node_Labels node), true) | None => (node_Labels node, false) end in
  let desired := if taintsEnabled && hasDevices then [mkTaint poolKey poolValue TaintEffectNoSchedule] else [] in
  let '(newTaints, taintsChanged) := ensureTaints (node_Taints node) desired poolKey in
  (mkNode (node_Name node) labels (if taintsChanged then newTaints else node_Taints node), changed || taintsChanged).

Definition syncNode (nodeName poolKey : string) (hasDevices taintsEnabled : bool) : S → option error * S :=
  RetryOnConflict (λ s,
    match fetch (pc_GetNode nodeName s) with
    | Err e => (Some e, s)
    | Ok None => (None, s)
    | Ok (Some node) =>
        let '(node', changed) := markNode poolKey hasDevices taintsEnabled node in
        if negb changed then (None, s) else pc_PatchNode node' node s
    end).

Definition countNodes (devs : list GPUDevice) : gmap string Z :=
  foldl (λ m d, <[DeviceNodeName d := wrap32 (default 0 (m !! DeviceNodeName d) + 1)]> m) ∅ devs.

(** A device that makes its node a node of the pool. *)
Definition marks (pool : GPUPool) (dev : GPUDevice) : bool :=
  negb (IsDeviceIgnored dev) && PoolRefMatchesPool pool (gd_PoolRef dev) && negb (str_eqb (DeviceNodeName dev) "").

Definition NodeMarkHandle : HandlePool := λ pool s,
  let poolKey := PoolLabelKey pool in
  let taintsEnabled := default false (sch_TaintsEnabled (gps_Scheduling (gp_Spec pool))) in
  match pc_ListDevices IndexGPUDeviceByPoolRefName (gp_Name pool) s with
  | Err e => ((zeroResult, Some e), (pool, s))
  | Ok devs =>
  let nodesWithDevices := countNodes (List.filter (marks pool) devs) in
  match pc_ListNodesByLabel poolKey (PoolValueFromKey poolKey) s with
  | Err e => ((zeroResult, Some e), (pool, s))
  | Ok labelled =>
  match pc_ListNodesByTaint poolKey s with
  | Err e => ((zeroResult, Some e), (pool, s))
  | Ok tainted =>
  let nodesToSync := dom nodesWithDevices ∪ list_to_set (node_Name <$> labelled) ∪ list_to_set (node_Name <$> tainted) in
  let '(err, s) := srv_forEach (λ nodeName, syncNode nodeName poolKey (0 <? default 0 (nodesWithDevices !! nodeName)) taintsEnabled)
                     (range_keys 2 nodesToSync) s in
  ((zeroResult, err), (pool, s))
  end end end.

(** ** dpvalidation/dp_validation.go *)

Definition PodReadyType : string := "Ready".
Definition isPodReady (pod : PoolPod) : bool :=
  existsb (λ '(type, status), str_eqb type PodReadyType && str_eqb status ConditionTrue) (pp_Conditions pod).

Definition readyNodes (pods : list PoolPod) : gset string :=
  list_to_set (pp_NodeName <$> List.filter (λ p, negb (str_eqb (pp_NodeName p) "") && isPodReady p) pods).

(** The state the validator gives a device. *)
Definition validatedState (ready : gset string) (dev : GPUDevice) : GPUDeviceState :=
  let node := DeviceNodeName dev in
  if str_eqb (gd_State dev) GPUDeviceStatePendingAssignment then
    if bool_decide (node ∈ ready) then GPUDeviceStateAssigned else gd_State dev
  else if str_eqb (gd_State dev) GPUDeviceStateAssigned then
    if negb (bool_decide (node ∈ ready)) then GPUDeviceStatePendingAssignment else gd_State dev
  else gd_State dev.

Definition validateDevice (ready : gset string) (dev : GPUDevice) (s : S) : option error * S :=
  if str_eqb (DeviceNodeName dev) "" then (None, s) else
  let target := validatedState ready dev in
  if str_eqb target (gd_State dev) then (None, s) else
  pc_PatchDeviceStatus (set_assignment (gd_PoolRef dev) target dev) dev s.

Definition DPValidationHandle (ns : string) : HandlePool := λ pool s,
  match (match pc_ListValidatorPods ns (gp_Name pool) s with
         | Ok pods => Ok pods
         | Err e => if pc_IsNotFound e then Ok [] else Err e
         end) with
  | Err e => ((zeroResult, Some e), (pool, s))
  | Ok pods =>
  match pc_ListDevices (assignmentIndex pool) (gp_Name pool) s with
  | Err e => ((zeroResult, Some e), (pool, s))
  | Ok devs => let '(err, s) := srv_forEach (validateDevice (readyNodes pods)) devs s in ((zeroResult, err), (pool, s))
  end end.

(** ** pool/gpupool, pool/clustergpupool: the handlers and the reconcile *)

Definition poolHandlers (now : Z) (ns : string) (workload : HandlePool) : list HandlePool :=
  [CompatibilityHandle now; ConfigHandle now; SelectionHandle; NodeMarkHandle; workload; DPValidationHandle ns].

(** [Update] of the resource: the conditions are completed, and the status is
    written when it is not the one that was fetched. *)
Definition poolUpdate (current : GPUPool) (st : GPUPool * S) : option error * (GPUPool * S) :=
  let '(pool, s) := st in
  let pool := set_PoolConditions (rewriteConditions (gpst_Conditions (gp_Status pool))) pool in
  if bool_decide (gp_Status current = gp_Status pool) then (None, (pool, s)) else
  match pc_UpdatePoolStatus pool s with
  | (Some e, s) => (Some (Wrapf "error updating status subresource: %w" [] e), (pool, s))
  | (None, s) => (None, (pool, s))
  end.

Definition poolChain (current : GPUPool) (handlers : list HandlePool) : BaseReconciler HandlePool (GPUPool * S) :=
  mkBaseReconciler handlers (Some (poolUpdate current)) (Some (λ h st, h (fst st) (snd st))) (λ _, None).

Definition reconcilePool (pool : GPUPool) (handlers : list HandlePool) (s : S) : (Result * list error) * S :=
  let '(out, (_, s')) := cp_Reconcile (poolChain pool handlers) (pool, s) in (out, s').

Definition GPUPoolReconcile (handlers : list HandlePool) (namespace name : string) (s : S) : (Result * list error) * S :=
  match fetch (pc_GetPool namespace name s) with
  | Err e => ((zeroResult, [e]), s)
  | Ok None => ((zeroResult, []), s)
  | Ok (Some pool) => reconcilePool pool handlers s
  end.

(** The cluster-wide pool is handled as a pool of its kind. *)
Definition clusterAsPool (pool : GPUPool) : GPUPool :=
  mkGPUPool (if str_eqb (gp_Kind pool) "" then "ClusterGPUPool" else gp_Kind pool) (gp_Name pool) (gp_Namespace pool) (gp_UID pool)
    (gp_Generation pool) (gp_Spec pool) (gp_Status pool).
Definition ClusterGPUPoolReconcile (handlers : list HandlePool) (name : string) (s : S) : (Result * list error) * S :=
  match fetch (pc_GetClusterPool name s) with
  | Err e => ((zeroResult, [e]), s)
  | Ok None => ((zeroResult, []), s)
  | Ok (Some pool) => reconcilePool (clusterAsPool pool) handlers s
  end.

(** pool_predicates.go: an update counts when the spec changed. *)
Definition poolUpdatePredicate (old new : option GPUPool) : bool :=
  match old, new with Some o, Some n => negb (bool_decide (gp_Spec o = gp_Spec n)) | _, _ => true end.
End Handlers.
