(* ===== verification/PoolSyncSpec.v ===== *)
(** * What the pool controllers do to devices and nodes

    Selection, validation and marking as functions of the devices and nodes
    stored, and their composition in one reconcile. *)

From S2P Require Import Prelude GoLib Reconciler GpuApi PoolApi CpReconciler PoolSync.

From Stdlib Require Import Ascii.

Section Spec.
Context {S : Type} {pc : PoolClient S} {ae : ApiErrors} {srv : PoolServer S} {lsel : LabelSelectors} {mc : MetaConditions}
  {gs : GoSort} {ko : KeyOrder}.
Implicit Types (s : S) (pool : GPUPool) (d dev : GPUDevice).

(** ** Loops and retries *)

Definition view (s : S) : gmap string GPUDevice * gmap string Node := (devices s, nodes s).

Lemma retryN_ok n (fn : S → option error * S) s s' :
  (∀ s0 e s1, fn s0 = (Some e, s1) → view s1 = view s0) → retryN n fn s = (None, s') →
  ∃ s0, view s0 = view s ∧ fn s0 = (None, s').
Proof.
  intros Hfail. revert s. induction n as [|n IH]; intros s; simpl; destruct (fn s) as [[e|] s1] eqn:Hf.
  - destruct (IsConflict e); done.
  - intros [= ->]. eauto.
  - destruct (IsConflict e); [|done]. intros Hr. destruct (IH _ Hr) as (s0 & Hv & H0). exists s0. split; [|done].
    rewrite Hv. by eapply Hfail.
  - intros [= ->]. eauto.
Qed.

(** A loop whose body changes one device, or one node. *)
Lemma forEach_alter {A} (f : A → S → option error * S) (name : A → string) (g : GPUDevice → GPUDevice) l s s' :
  (∀ a s0 s1, f a s0 = (None, s1) → devices s1 = alter g (name a) (devices s0) ∧ nodes s1 = nodes s0) →
  (∀ d, g (g d) = g d) → srv_forEach f l s = (None, s') →
  nodes s' = nodes s ∧ ∀ n, devices s' !! n = (if decide (n ∈ (name <$> l)) then g else id) <$> devices s !! n.
Proof.
  intros Hf Hg. revert s. induction l as [|a l IH]; intros s; cbn [srv_forEach].
  - intros [= <-]. split; [done|]. intros n. rewrite decide_False by set_solver. by rewrite option_fmap_id.
  - destruct (f a s) as [[e|] s1] eqn:Ha; [done|]. intros Hr. destruct (Hf _ _ _ Ha) as [Hd Hn].
    destruct (IH _ Hr) as [IHn IHd]. split; [congruence|]. intros n. rewrite IHd, Hd.
    destruct (decide (n = name a)) as [->|Hne].
    + rewrite lookup_alter_eq. rewrite (decide_True _ _ (P:=name a ∈ (name <$> a :: l))) by (rewrite fmap_cons; left).
      destruct (decide _); [|by rewrite option_fmap_id]. destruct (devices s !! name a); simpl; [by rewrite Hg|done].
    + rewrite lookup_alter_ne by done. f_equal. apply decide_ext. rewrite fmap_cons, elem_of_cons. naive_solver.
Qed.

Lemma forEach_view {A} (f : A → S → option error * S) (P : S → Prop) l s e s' :
  (∀ a s0 err s1, f a s0 = (err, s1) → P s0 → P s1) → P s → srv_forEach f l s = (e, s') → P s'.
Proof.
  intros Hf. revert s. induction l as [|a l IH]; intros s Hs; simpl; [by intros [= _ <-]|].
  destruct (f a s) as [[e'|] s1] eqn:Ha; [intros [= _ <-]|apply IH]; by eapply Hf.
Qed.

(** ** Assigning and clearing one device *)

Lemma alter_present {A} (g : A → A) (m : gmap string A) name a : m !! name = Some a → alter g name m = <[name := g a]> m.
Proof. intros Ha. apply map_eq. intros n. destruct (decide (n = name)) as [->|]; by simplify_map_eq. Qed.
Lemma alter_missing {A} (g : A → A) (m : gmap string A) name : m !! name = None → alter g name m = m.
Proof. intros Ha. apply map_eq. intros n. destruct (decide (n = name)) as [->|]; by simplify_map_eq. Qed.

Lemma set_assignment_meta ref st d :
  gd_Name (set_assignment ref st d) = gd_Name d ∧ gd_Labels (set_assignment ref st d) = gd_Labels d ∧
  gd_Annotations (set_assignment ref st d) = gd_Annotations d ∧ gd_Owners (set_assignment ref st d) = gd_Owners d.
Proof. done. Qed.

Lemma fetch_device name s : match fetch (pc_GetDevice name s) with
  | Err _ => True | Ok None => devices s !! name = None | Ok (Some d) => devices s !! name = Some d end.
Proof.
  unfold fetch. destruct (pc_GetDevice name s) as [d|e] eqn:Hg; [by apply get_device|].
  destruct (pc_IsNotFound e) eqn:He; [by eapply get_device_missing|done].
Qed.

Lemma patch_current (g : GPUDevice → GPUDevice) name s current err s' :
  (∀ d, gd_Name (g d) = gd_Name d ∧ gd_Labels (g d) = gd_Labels d ∧ gd_Annotations (g d) = gd_Annotations d ∧ gd_Owners (g d) = gd_Owners d) →
  devices s !! name = Some current → pc_PatchDeviceStatus (g current) current s = (err, s') → ignoreNotFound err = None →
  devices s' = <[name := g current]> (devices s) ∧ nodes s' = nodes s.
Proof.
  intros Hg Hcur Hp Herr. destruct (Hg current) as (H1 & H2 & H3 & H4). pose proof (devices_name _ _ _ Hcur) as Hname.
  destruct err as [e|].
  - simpl in Herr. destruct (pc_IsNotFound e) eqn:He; [|done]. pose proof (patch_device_missing _ _ _ _ _ Hp He) as Hm.
    rewrite H1, Hname in Hm. congruence.
  - destruct (patch_device _ _ _ _ Hp) as [Hd Hn]; [by rewrite Hname|done..|]. rewrite Hname in Hd. done.
Qed.

Lemma patch_view new base s err s' : pc_PatchDeviceStatus new base s = (err, s') → ignoreNotFound err ≠ None → view s' = view s.
Proof. destruct err as [e|]; [|done]. intros Hp _. destruct (patch_device_failed _ _ _ _ _ Hp). unfold view. congruence. Qed.

Lemma assign_ok name pn pns s s' : assignDeviceWithRetry name pn pns s = (None, s') →
  devices s' = alter (assigned_device pn pns) name (devices s) ∧ nodes s' = nodes s.
Proof.
  intros Hr. apply retryN_ok in Hr as (s0 & [= Hd Hn] & Hr).
  - rewrite <- Hd, <- Hn. pose proof (fetch_device name s0) as Hf. destruct (fetch (pc_GetDevice name s0)) as [[current|]|e]; [| |done].
    + destruct (pc_PatchDeviceStatus _ _ _) as [err s1] eqn:Hp. injection Hr as Herr <-.
      eapply (patch_current (assigned_device pn pns)) in Hp as [-> ->]; [|done..]. split; [|done].
      symmetry. by apply alter_present.
    + injection Hr as <-. split; [|done]. symmetry. by apply alter_missing.
  - intros s1 e s2. destruct (fetch (pc_GetDevice name s1)) as [[current|]|e']; [| done|by intros [= _ <-]].
    destruct (pc_PatchDeviceStatus _ _ _) as [err s3] eqn:Hp. intros [= He <-]. eapply patch_view; [done|congruence].
Qed.

(** What clearing makes of a device. *)
Definition clear_step (pn pns key : string) (d : GPUDevice) : GPUDevice :=
  if str_eqb (label (gd_Annotations d) key) pn then d else if clearable pn pns (gd_PoolRef d) then cleared_device d else d.

Lemma clear_ok name pn pns key s s' : clearDevicePool name pn pns key s = (None, s') →
  devices s' = alter (clear_step pn pns key) name (devices s) ∧ nodes s' = nodes s.
Proof.
  intros Hr. apply retryN_ok in Hr as (s0 & [= Hd Hn] & Hr).
  - rewrite <- Hd, <- Hn. pose proof (fetch_device name s0) as Hf. destruct (fetch (pc_GetDevice name s0)) as [[current|]|e]; [| |done].
    + rewrite (alter_present _ _ _ _ Hf). unfold clear_step.
      destruct (str_eqb _ pn); [injection Hr as <-; by rewrite insert_id|].
      destruct (clearable pn pns (gd_PoolRef current)); simpl in Hr; [|injection Hr as <-; by rewrite insert_id].
      destruct (pc_PatchDeviceStatus _ _ _) as [err s1] eqn:Hp. injection Hr as Herr <-.
      by eapply (patch_current cleared_device) in Hp.
    + injection Hr as <-. split; [|done]. symmetry. by apply alter_missing.
  - intros s1 e s2. destruct (fetch (pc_GetDevice name s1)) as [[current|]|e']; [| done|by intros [= _ <-]].
    destruct (str_eqb _ pn); [done|]. destruct (clearable _ _ _); [|done]. simpl.
    destruct (pc_PatchDeviceStatus _ _ _) as [err s3] eqn:Hp. intros [= He <-]. eapply patch_view; [done|congruence].
Qed.

Lemma assigned_idem pn pns d : assigned_device pn pns (assigned_device pn pns d) = assigned_device pn pns d.
Proof.
  unfold assigned_device, set_assignment, gd_State. destruct d as [n l a o []]; simpl. do 3 f_equal.
  destruct (str_eqb gds_State GPUDeviceStateReady) eqn:E; [done|]. by rewrite E.
Qed.

Lemma clear_idem pn pns key d : clear_step pn pns key (clear_step pn pns key d) = clear_step pn pns key d.
Proof.
  unfold clear_step at 2. destruct (str_eqb (label (gd_Annotations d) key) pn) eqn:E; [unfold clear_step; by rewrite E|].
  destruct (clearable pn pns (gd_PoolRef d)) eqn:Hc; unfold clear_step; rewrite ?E, ?Hc; [|done]. by destruct (str_eqb _ _).
Qed.

(** ** Groups and eligible nodes *)

Lemma groupDevices_lookup devs node :
  default [] (groupDevices devs !! node) = List.filter (λ d, str_eqb (DeviceNodeName d) node) devs.
Proof.
  unfold groupDevices. induction devs as [|x l IH] using rev_ind; [done|].
  rewrite foldl_app, List.filter_app. simpl. destruct (str_eqb (DeviceNodeName x) node) eqn:E; go_bool.
  - subst node. rewrite lookup_insert_eq. simpl. by rewrite IH.
  - rewrite lookup_insert_ne by done. by rewrite IH, app_nil_r.
Qed.

Lemma groupDevices_spec devs node dev :
  dev ∈ default [] (groupDevices devs !! node) ↔ dev ∈ devs ∧ DeviceNodeName dev = node.
Proof. rewrite groupDevices_lookup, !list_elem_of_In, List.filter_In. by go_bool. Qed.

Lemma sortDevices_elem devs dev : dev ∈ sortDevices devs ↔ dev ∈ devs.
Proof. unfold sortDevices. by rewrite sort_Slice_perm. Qed.

Lemma fetch_node name s : match fetch (pc_GetNode name s) with
  | Err _ => True | Ok None => nodes s !! name = None | Ok (Some n) => nodes s !! name = Some n end.
Proof.
  unfold fetch. destruct (pc_GetNode name s) as [n|e] eqn:Hg; [by apply get_node|].
  destruct (pc_IsNotFound e) eqn:He; [by eapply get_node_missing|done].
Qed.

Definition node_matches (sel : Selector) (s : S) (name : string) : Prop :=
  ∃ n, nodes s !! name = Some n ∧ Selector_Matches sel (node_Labels n) = true.

Lemma eligibleNodes_spec sel names s X : eligibleNodes sel names s = Ok X → ∀ name, name ∈ X ↔ name ∈ names ∧ node_matches sel s name.
Proof.
  unfold node_matches. revert X. induction names as [|n0 names IH]; intros X; simpl; [intros [= <-]; set_solver|].
  pose proof (fetch_node n0 s) as Hf. destruct (fetch (pc_GetNode n0 s)) as [node|e]; simpl; [|done].
  destruct (eligibleNodes sel names s) as [Y|e]; simpl; [|done]. intros [= <-] name. specialize (IH Y eq_refl name).
  destruct node as [node|].
  - destruct (Selector_Matches sel (node_Labels node)) eqn:Hm.
    + rewrite elem_of_union, elem_of_singleton, IH, elem_of_cons. split.
      * intros [->|[Hin Hs]]; [split; [by left|by exists node]|split; [by right|done]].
      * intros [[->|Hin] Hs]; [by left|by right].
    + rewrite IH, elem_of_cons. split; [intros [Hin Hs]; split; [by right|done]|]. intros [[->|Hin] (n & Hn & Hs)]; [congruence|by eauto].
  - rewrite IH, elem_of_cons. split; [intros [Hin Hs]; split; [by right|done]|]. intros [[->|Hin] (n & Hn & Hs)]; [congruence|by eauto].
Qed.

(** ** Candidates of a pool *)

Definition selects (sel : option GPUPoolDeviceSelector) (d : GPUDevice) : bool :=
  match sel with None => true | Some sel => negb (matchesExclude (gsel_Exclude sel) d) && matchesInclude (gsel_Include sel) d end.

Lemma FilterDevices_spec devs sel d : d ∈ FilterDevices devs sel ↔ d ∈ devs ∧ selects sel d = true.
Proof. destruct sel as [sel|]; simpl; [|naive_solver]. rewrite !list_elem_of_In, List.filter_In. done. Qed.

Definition annotated (pool : GPUPool) (d : GPUDevice) : Prop := label (gd_Annotations d) (AssignmentAnnotationKey pool) = gp_Name pool.

#[export] Instance annotated_dec pool d : Decision (annotated pool d).
Proof. unfold annotated. apply _. Defined.

(** A device that users gave to the pool and that the pool takes. *)
Record candidate (pool : GPUPool) (s : S) (d : GPUDevice) : Prop := {
  cand_annotated : annotated pool d;
  cand_noticed : IsDeviceIgnored d = false;
  cand_node : DeviceNodeName d ≠ "";
  cand_selected : selects (gps_DeviceSelector (gp_Spec pool)) d = true;
  cand_eligible : ∀ ls sel, gps_NodeSelector (gp_Spec pool) = Some ls → LabelSelectorAsSelector ls = Ok sel → node_matches sel s (DeviceNodeName d);
}.

#[export] Instance candidate_dec pool s d : Decision (candidate pool s d).
Proof.
  refine (match decide (annotated pool d ∧ IsDeviceIgnored d = false ∧ DeviceNodeName d ≠ "" ∧ selects (gps_DeviceSelector (gp_Spec pool)) d = true ∧
    match gps_NodeSelector (gp_Spec pool) with
    | None => True
    | Some ls => match LabelSelectorAsSelector ls with
                 | Err _ => True
                 | Ok sel => match nodes s !! DeviceNodeName d with None => False | Some n => Selector_Matches sel (node_Labels n) = true end
                 end
    end) with left Hyes => left _ | right Hno => right _ end).
  - unfold annotated. destruct (gps_NodeSelector _) as [ls|]; [|apply _]. destruct (LabelSelectorAsSelector ls); [|apply _].
    destruct (nodes s !! _); apply _.
  - destruct Hyes as (H1 & H2 & H3 & H4 & H5). split; [done..|]. intros ls sel Hls Hsel. rewrite Hls, Hsel in H5. unfold node_matches.
    destruct (nodes s !! DeviceNodeName d); [eauto|done].
  - intros [H1 H2 H3 H4 H5]. destruct Hno. split_and!; [done..|]. destruct (gps_NodeSelector _) as [ls|]; [|done].
    destruct (LabelSelectorAsSelector ls) as [sel|] eqn:Hsel; [|done]. destruct (H5 ls sel eq_refl Hsel) as (n & -> & Hn). done.
Defined.

(** A device that still refers to the pool without being given to it. *)
Definition stale (pool : GPUPool) (d : GPUDevice) : Prop := ¬ annotated pool d ∧ PoolRefMatchesPool pool (gd_PoolRef d) = true.
#[export] Instance stale_dec pool d : Decision (stale pool d).
Proof. unfold stale. apply _. Defined.

Lemma assignmentIndex_spec pool d : gp_Name pool ≠ "" → gp_Name pool ∈ assignmentIndex pool d ↔ annotated pool d.
Proof.
  intros Hne. unfold assignmentIndex, annotated, AssignmentAnnotationKey, IndexGPUDeviceByClusterAssignment, IndexGPUDeviceByNamespacedAssignment.
  destruct (isClusterPool pool); simpl; (destruct (str_eqb (label _ _) "") eqn:E; go_bool; [rewrite E|]; set_solver).
Qed.

Lemma poolRefIndex_spec d name : name ≠ "" → name ∈ IndexGPUDeviceByPoolRefName d ↔ ∃ ref, gd_PoolRef d = Some ref ∧ ref_Name ref = name.
Proof.
  intros Hne. unfold IndexGPUDeviceByPoolRefName. destruct (gd_PoolRef d) as [ref|]; [|set_solver].
  destruct (str_eqb (ref_Name ref) "") eqn:E; go_bool; [|set_solver]. split; [set_solver|]. intros (ref' & [= <-] & Hr). congruence.
Qed.

Lemma matches_named pool ref : PoolRefMatchesPool pool ref = true → ∃ r, ref = Some r ∧ ref_Name r = gp_Name pool.
Proof. unfold PoolRefMatchesPool. destruct ref as [r|]; [|done]. destruct (str_eqb (ref_Name r) _) eqn:E; go_bool; [|done]. eauto. Qed.

(** A pool as the API server keeps it: cluster-wide pools have no namespace,
    others a name without spaces around it. *)
Record pool_named (pool : GPUPool) : Prop := {
  pn_name : gp_Name pool ≠ "";
  pn_label : free_of "/"%char (gp_Name pool) = true;
  pn_namespace : if isClusterPool pool then gp_Namespace pool = "" else gp_Namespace pool ≠ "" ∧ TrimSpace (gp_Namespace pool) = gp_Namespace pool;
}.

(** Clearing and matching agree on the references that match. *)
Lemma matches_clearable pool ref : pool_named pool → PoolRefMatchesPool pool ref = true → clearable (gp_Name pool) (gp_Namespace pool) ref = true.
Proof.
  intros [_ _ Hns]. unfold PoolRefMatchesPool, clearable. destruct ref as [ref|]; [|done].
  destruct (str_eqb (ref_Name ref) (gp_Name pool)); [|done]. simpl. destruct (isClusterPool pool); simpl.
  - rewrite Hns. simpl. done.
  - destruct Hns as [Hne Ht]. rewrite Ht. destruct (str_eqb (gp_Namespace pool) "") eqn:E; go_bool; [done|]. intros ->.
    by right.
Qed.

(** ** Capacity *)

Definition takeMax (max : option Z) (l : list GPUDevice) : list GPUDevice :=
  match max with None => l | Some m => take (Z.to_nat m) l end.

(** The units of a node: of its devices with units, the first ones up to the
    maximum count. *)
Definition unitsOnNode (pool : GPUPool) (devs : list GPUDevice) : Z :=
  Zsum (λ d, unitsForDevice d pool)
    (takeMax (rs_MaxDevicesPerNode (gps_Resource (gp_Spec pool))) (List.filter (λ d, 0 <? unitsForDevice d pool) devs)).

Lemma wrap32_idem z : wrap32 (wrap32 z) = wrap32 z.
Proof. apply wrap32_id. unfold wrap32. pose proof (Z.mod_pos_bound (z + 2 ^ 31) (2 ^ 32)). lia. Qed.

Lemma countNode_spec pool devs taken total :
  wrap32 total = total → 0 ≤ taken → taken + Z.of_nat (length devs) < 2 ^ 31 →
  countNode pool taken devs total =
    wrap32 (total + Zsum (λ d, unitsForDevice d pool)
      (takeMax ((λ m, m - taken) <$> rs_MaxDevicesPerNode (gps_Resource (gp_Spec pool))) (List.filter (λ d, 0 <? unitsForDevice d pool) devs))).
Proof.
  set (max := rs_MaxDevicesPerNode (gps_Resource (gp_Spec pool))).
  assert (∀ o, takeMax o [] = []) as Hnil by (intros [m|]; simpl; [by rewrite take_nil|done]).
  assert (∀ m taken l, max = Some m → m ≤ taken → takeMax ((λ m, m - taken) <$> max) l = []) as Hover.
  { intros m t l -> Hle. simpl. by replace (Z.to_nat (m - t)) with 0%nat by lia. }
  revert taken total. induction devs as [|dev devs IH]; intros taken total Htot Ht Hlen.
  { simpl. rewrite Hnil. simpl. by rewrite Z.add_0_r. }
  cbn [countNode length List.filter] in *. fold max. destruct (match max with Some m => m <=? taken | None => false end) eqn:Hmax.
  - destruct max as [m|] eqn:Em; [|done]. go_bool. rewrite IH by (done || lia). by rewrite !(Hover m) by (done || lia).
  - destruct (Z.leb_spec (unitsForDevice dev pool) 0) as [Hu|Hu].
    + replace (0 <? unitsForDevice dev pool) with false by lia. apply IH; [done..|lia].
    + replace (0 <? unitsForDevice dev pool) with true by lia. rewrite (wrap32_id (taken + 1)) by lia.
      rewrite IH by (apply wrap32_idem || lia). rewrite wrap32_add. f_equal. rewrite <- Z.add_assoc. f_equal.
      destruct max as [m|]; simpl; [|done]. go_bool. replace (Z.to_nat (m - taken)) with (Datatypes.S (Z.to_nat (m - (taken + 1)))) by lia.
      done.
Qed.

Lemma countNodes_total pool perNode :
  Forall (λ devs, Z.of_nat (length devs) < 2 ^ 31) perNode →
  foldl (λ total devs, countNode pool 0 devs total) 0 perNode = wrap32 (Zsum (unitsOnNode pool) perNode).
Proof.
  assert (∀ total, wrap32 total = total → Forall (λ devs, Z.of_nat (length devs) < 2 ^ 31) perNode →
    foldl (λ total devs, countNode pool 0 devs total) total perNode = wrap32 (total + Zsum (unitsOnNode pool) perNode)) as Hgen;
    [|intros Hf; by rewrite Hgen].
  induction perNode as [|devs rest IH]; intros total Htot Hf; [simpl; by rewrite Z.add_0_r|].
  apply Forall_cons in Hf as [Hd Hf]. simpl. rewrite countNode_spec by (done || lia).
  rewrite IH by (done || apply wrap32_idem). rewrite wrap32_add. f_equal. unfold unitsOnNode at 2.
  destruct (rs_MaxDevicesPerNode _); simpl; rewrite ?Z.sub_0_r; lia.
Qed.

(** ** Selection *)

Definition less_key (a b : GPUDevice) : bool := str_ltb (deviceSortKey a) (deviceSortKey b).

(** The devices a pool counts, by node: the candidates, each once, in order. *)
Record counted (pool : GPUPool) (s : S) (perNode : gmap string (list GPUDevice)) : Prop := {
  ct_devices node dev : dev ∈ default [] (perNode !! node) ↔
    devices s !! gd_Name dev = Some dev ∧ candidate pool s dev ∧ DeviceNodeName dev = node;
  ct_once node : NoDup (gd_Name <$> default [] (perNode !! node));
  ct_sorted node : Sorted (λ x y, less_key y x = false) (default [] (perNode !! node));
}.

Definition selection_step (pool : GPUPool) (d : GPUDevice) : GPUDevice :=
  if needsAssignmentUpdate d (gp_Name pool) (gp_Namespace pool) then assigned_device (gp_Name pool) (gp_Namespace pool) d else d.

Definition byNodeOf (l : list GPUDevice) : gmap string (list GPUDevice) := sortDevices <$> groupDevices l.

Lemma byNode_elem l node dev : dev ∈ default [] (byNodeOf l !! node) ↔ dev ∈ l ∧ DeviceNodeName dev = node.
Proof.
  rewrite <- groupDevices_spec. unfold byNodeOf. rewrite lookup_fmap. destruct (groupDevices l !! node); simpl; [apply sortDevices_elem|done].
Qed.

Lemma byNode_once l node : NoDup (gd_Name <$> l) → NoDup (gd_Name <$> default [] (byNodeOf l !! node)).
Proof.
  intros Hnd. unfold byNodeOf. rewrite lookup_fmap. pose proof (groupDevices_lookup l node) as Hg.
  destruct (groupDevices l !! node) as [devs|]; simpl in *; [|constructor]. unfold sortDevices. rewrite sort_Slice_perm, Hg. clear Hg.
  induction l as [|d l IH]; simpl in *; [constructor|]. apply NoDup_cons in Hnd as [Hnin Hnd]. destruct (str_eqb _ _); [|by apply IH].
  rewrite fmap_cons. constructor; [|by apply IH]. intros (d' & Hd & Hin)%list_elem_of_fmap. apply Hnin, list_elem_of_fmap. exists d'.
  split; [done|]. rewrite list_elem_of_In, List.filter_In in Hin. rewrite list_elem_of_In. tauto.
Qed.

Lemma byNode_sorted l node : Sorted (λ x y, less_key y x = false) (default [] (byNodeOf l !! node)).
Proof.
  unfold byNodeOf. rewrite lookup_fmap. destruct (groupDevices l !! node) as [devs|]; simpl; [|constructor].
  apply sort_Slice_sorted, weak_order_key.
Qed.

Lemma NoDup_filter_names (f : GPUDevice → bool) l : NoDup (gd_Name <$> l) → NoDup (gd_Name <$> List.filter f l).
Proof.
  induction l as [|d l IH]; simpl; [done|]. intros [Hnin Hnd]%NoDup_cons. destruct (f d); [|by apply IH]. rewrite fmap_cons.
  constructor; [|by apply IH]. intros (d' & Hd & Hin)%list_elem_of_fmap. apply Hnin, list_elem_of_fmap. exists d'. split; [done|].
  rewrite list_elem_of_In, List.filter_In in Hin. rewrite list_elem_of_In. tauto.
Qed.

Lemma FilterDevices_names l sel : NoDup (gd_Name <$> l) → NoDup (gd_Name <$> FilterDevices l sel).
Proof. destruct sel; [apply NoDup_filter_names|done]. Qed.

(** A list of stored devices is not longer than the store. *)
Lemma stored_length s (l : list GPUDevice) : NoDup (gd_Name <$> l) → (∀ d, d ∈ l → devices s !! gd_Name d = Some d) →
  (length l ≤ size (devices s))%nat.
Proof.
  intros Hnd Hin. rewrite <- (length_fmap gd_Name l), <- size_dom. rewrite <- (size_list_to_set (C:=gset string)) by done.
  apply subseteq_size. intros n. rewrite elem_of_list_to_set, elem_of_dom. intros (d & -> & Hd)%list_elem_of_fmap. eauto.
Qed.

(** The devices of the pool by node, as the handler computes them. *)
Lemma selection_groups pool s assignedDevices byNode :
  pool_named pool → pc_ListDevices (assignmentIndex pool) (gp_Name pool) s = Ok assignedDevices →
  let assigned := FilterDevices (List.filter (λ dev, negb (IsDeviceIgnored dev) && negb (str_eqb (DeviceNodeName dev) "")) assignedDevices)
                    (gps_DeviceSelector (gp_Spec pool)) in
  (gps_NodeSelector (gp_Spec pool) = None ∧ byNode = byNodeOf assigned ∨
   ∃ ls sel X, gps_NodeSelector (gp_Spec pool) = Some ls ∧ LabelSelectorAsSelector ls = Ok sel ∧
     eligibleNodes sel (range_keys 0 (dom (byNodeOf assigned))) s = Ok X ∧ byNode = filter (λ kv, kv.1 ∈ X) (byNodeOf assigned)) →
  counted pool s byNode.
Proof.
  intros Hpn Hl assigned Hby. destruct (list_devices _ _ _ _ Hl) as [Hnd Hin].
  assert (∀ dev, dev ∈ assigned ↔ devices s !! gd_Name dev = Some dev ∧ annotated pool dev ∧ IsDeviceIgnored dev = false ∧
    DeviceNodeName dev ≠ "" ∧ selects (gps_DeviceSelector (gp_Spec pool)) dev = true) as Has.
  { intros dev. unfold assigned. rewrite FilterDevices_spec, list_elem_of_In, List.filter_In, <- list_elem_of_In, Hin,
      (assignmentIndex_spec _ _ (pn_name _ Hpn)). destruct (IsDeviceIgnored dev); simpl; [naive_solver|].
    destruct (str_eqb (DeviceNodeName dev) "") eqn:E; go_bool; simpl; naive_solver. }
  assert (NoDup (gd_Name <$> assigned)) as Hand by (apply FilterDevices_names, NoDup_filter_names, Hnd).
  destruct Hby as [[Hsel ->]|(ls & sel & X & Hsel & Hc & HX & ->)].
  - split; [|intros; by apply byNode_once|intros; apply byNode_sorted]. intros node dev. rewrite byNode_elem, Has. split.
    + intros [(H1 & H2 & H3 & H4 & H5) H6]. split; [done|]. split; [|done]. split; [done..|]. intros ls sel Hls. congruence.
    + intros (H1 & [H2 H3 H4 H5 _] & H6). done.
  - pose proof (eligibleNodes_spec _ _ _ _ HX) as Hel.
    assert (∀ node, default [] (filter (λ kv, kv.1 ∈ X) (byNodeOf assigned) !! node) =
      if decide (node ∈ X) then default [] (byNodeOf assigned !! node) else []) as Hlk.
    { intros node. rewrite map_lookup_filter. destruct (byNodeOf assigned !! node) as [devs|]; simpl; [|by destruct (decide _)].
      destruct (decide (node ∈ X)); [by rewrite option_guard_True|by rewrite option_guard_False]. }
    split; intros node; rewrite Hlk; destruct (decide (node ∈ X)) as [HnX|HnX];
      try first [by apply byNode_once|by apply byNode_sorted|by constructor].
    + intros dev. rewrite byNode_elem, Has. apply Hel in HnX as [_ Hm]. split.
      * intros [(H1 & H2 & H3 & H4 & H5) H6]. split; [done|]. split; [|done]. split; [done..|]. intros ls' sel' Hls Hc'.
        rewrite H6. by replace sel' with sel by congruence.
      * intros (H1 & [H2 H3 H4 H5 _] & H6). done.
    + intros dev. split; [intros Hd; by apply not_elem_of_nil in Hd|]. intros (H1 & [H2 H3 H4 H5 Hcand] & H6). destruct HnX.
      apply Hel. rewrite <- H6. split; [|by eapply Hcand]. rewrite range_keys_perm, elem_of_elements, elem_of_dom.
      destruct (byNodeOf assigned !! DeviceNodeName dev) as [devs|] eqn:Hby; [done|].
      assert (dev ∈ default [] (byNodeOf assigned !! DeviceNodeName dev)) as Hd by (by apply byNode_elem; split; [apply Has|]).
      rewrite Hby in Hd. by apply not_elem_of_nil in Hd.
Qed.

Lemma candidate_not_stale pool s d : candidate pool s d → ¬ stale pool d.
Proof. intros Hc [Hn _]. by apply Hn, cand_annotated with s. Qed.

(** The names cleared and the names assigned. *)
Lemma selection_effect pool s perNode poolRefDevices (s1 s2 : S) :
  pool_named pool → counted pool s perNode →
  pc_ListDevices IndexGPUDeviceByPoolRefName (gp_Name pool) s = Ok poolRefDevices →
  let staleDevs := List.filter (λ dev, negb (str_eqb (label (gd_Annotations dev) (AssignmentAnnotationKey pool)) (gp_Name pool)) &&
                                   PoolRefMatchesPool pool (gd_PoolRef dev)) poolRefDevices in
  let toUpdate := List.filter (λ dev, needsAssignmentUpdate dev (gp_Name pool) (gp_Namespace pool))
                    (concat ((λ node, default [] (perNode !! node)) <$> range_keys 1 (dom perNode))) in
  srv_forEach (λ dev, clearDevicePool (gd_Name dev) (gp_Name pool) (gp_Namespace pool) (AssignmentAnnotationKey pool)) staleDevs s = (None, s1) →
  srv_forEach (λ dev, assignDeviceWithRetry (gd_Name dev) (gp_Name pool) (gp_Namespace pool)) toUpdate s1 = (None, s2) →
  nodes s2 = nodes s ∧ (∀ name, devices s !! name = None → devices s2 !! name = None) ∧
  ∀ name d, devices s !! name = Some d →
    (candidate pool s d → devices s2 !! name = Some (selection_step pool d)) ∧
    (stale pool d → devices s2 !! name = Some (cleared_device d)) ∧
    (¬ candidate pool s d → ¬ stale pool d → devices s2 !! name = Some d).
Proof.
  intros Hpn Hct Hl staleDevs toUpdate Hclear Hassign. destruct (list_devices _ _ _ _ Hl) as [_ Hin].
  apply (forEach_alter _ gd_Name (clear_step (gp_Name pool) (gp_Namespace pool) (AssignmentAnnotationKey pool))) in Hclear as [Hn1 Hd1];
    [|intros; by apply clear_ok|apply clear_idem].
  apply (forEach_alter _ gd_Name (assigned_device (gp_Name pool) (gp_Namespace pool))) in Hassign as [Hn2 Hd2];
    [|intros; by apply assign_ok|apply assigned_idem].
  split; [congruence|]. split; [intros name Hnone; by rewrite Hd2, Hd1, Hnone|]. intros name d Hd.
  pose proof (devices_name _ _ _ Hd) as Hname. subst name.
  assert (gd_Name d ∈ (gd_Name <$> staleDevs) ↔ stale pool d) as Hstale.
  { unfold staleDevs, stale, annotated. rewrite list_elem_of_fmap. split.
    - intros (d' & Heq & Hd'). rewrite list_elem_of_In, List.filter_In, <- list_elem_of_In, Hin in Hd'. destruct Hd' as [[Hs' _] Hd'].
      rewrite <- Heq, Hd in Hs'. injection Hs' as <-. go_bool. by destruct Hd'.
    - intros [Hna Hm]. exists d. split; [done|]. rewrite list_elem_of_In, List.filter_In, <- list_elem_of_In, Hin.
      split; [split; [done|]|by go_bool]. apply poolRefIndex_spec; [apply Hpn|]. by apply matches_named. }
  assert (gd_Name d ∈ (gd_Name <$> toUpdate) ↔ candidate pool s d ∧ needsAssignmentUpdate d (gp_Name pool) (gp_Namespace pool) = true) as Hup.
  { assert (∀ d', d' ∈ toUpdate ↔ (devices s !! gd_Name d' = Some d' ∧ candidate pool s d') ∧
      needsAssignmentUpdate d' (gp_Name pool) (gp_Namespace pool) = true) as Hto.
    { intros d'. unfold toUpdate. rewrite list_elem_of_In, List.filter_In, <- list_elem_of_In. f_equiv. rewrite list_elem_of_In, in_concat. setoid_rewrite <- list_elem_of_In. split.
      - intros (l & (node & -> & Hk)%list_elem_of_fmap & Hd'). apply (ct_devices _ _ _ Hct) in Hd' as (? & ? & _). done.
      - intros [H1 H2]. exists (default [] (perNode !! DeviceNodeName d')).
        assert (d' ∈ default [] (perNode !! DeviceNodeName d')) as Hd' by (by apply (ct_devices _ _ _ Hct)). split; [|done].
        apply list_elem_of_fmap. exists (DeviceNodeName d'). split; [done|]. rewrite range_keys_perm, elem_of_elements, elem_of_dom.
        destruct (perNode !! DeviceNodeName d'); [done|]. by apply not_elem_of_nil in Hd'. }
    rewrite list_elem_of_fmap. split.
    - intros (d' & Heq & [[H1 H2] H3]%Hto). rewrite <- Heq, Hd in H1. by injection H1 as <-.
    - intros [H1 H2]. exists d. split; [done|]. by apply Hto. }
  rewrite Hd2, Hd1, Hd. split_and!.
  - intros Hc. pose proof (candidate_not_stale _ _ _ Hc) as Hns. rewrite (decide_False (P:=gd_Name d ∈ (gd_Name <$> staleDevs))) by (by rewrite Hstale).
    simpl. unfold selection_step. destruct (needsAssignmentUpdate _ _ _) eqn:Hna; [rewrite decide_True by (by apply Hup)|rewrite decide_False by (rewrite Hup; by intros [])]; done.
  - intros Hst. rewrite (decide_True (P:=gd_Name d ∈ (gd_Name <$> staleDevs))) by (by apply Hstale).
    rewrite decide_False by (intros [Hc _]%Hup; by eapply candidate_not_stale). simpl. unfold clear_step. destruct Hst as [Hna Hm].
    unfold annotated in Hna. destruct (str_eqb _ _) eqn:E; go_bool; [done|]. by rewrite (matches_clearable _ _ Hpn Hm).
  - intros Hnc Hns. rewrite (decide_False (P:=gd_Name d ∈ (gd_Name <$> staleDevs))) by (by rewrite Hstale). by rewrite decide_False by (rewrite Hup; tauto).
Qed.

(** Selection as a whole: what it does to every device, and the capacity. *)
Record selected (pool pool' : GPUPool) (s s' : S) : Prop := {
  sl_nodes : nodes s' = nodes s;
  sl_missing name : devices s !! name = None → devices s' !! name = None;
  sl_candidate name d : devices s !! name = Some d → candidate pool s d → devices s' !! name = Some (selection_step pool d);
  sl_stale name d : devices s !! name = Some d → stale pool d → devices s' !! name = Some (cleared_device d);
  sl_other name d : devices s !! name = Some d → ¬ candidate pool s d → ¬ stale pool d → devices s' !! name = Some d;
  sl_capacity : ∃ perNode, counted pool s perNode ∧
    pool' = set_Total (wrap32 (Zsum (λ node, unitsOnNode pool (default [] (perNode !! node))) (elements (dom perNode)))) pool;
}.

Lemma selection_ok pool s r pool' s' : pool_named pool → Z.of_nat (size (devices s)) < 2 ^ 31 →
  SelectionHandle pool s = ((r, None), (pool', s')) → selected pool pool' s s'.
Proof.
  intros Hpn Hsize. unfold SelectionHandle.
  destruct (pc_ListDevices (assignmentIndex pool) (gp_Name pool) s) as [assignedDevices|e] eqn:Hl1; [|done].
  destruct (pc_ListDevices IndexGPUDeviceByPoolRefName (gp_Name pool) s) as [poolRefDevices|e] eqn:Hl2; [|done].
  match goal with |- context [match ?x with Ok _ => _ | Err _ => _ end] => destruct x as [nodeSelector|e] eqn:Hsel end; [|done].
  match goal with |- context [match ?x with Ok _ => _ | Err _ => _ end] => destruct x as [perNode|e] eqn:Hby end; [|done].
  assert (counted pool s perNode) as Hct.
  { eapply selection_groups; [done|exact Hl1|]. destruct (gps_NodeSelector (gp_Spec pool)) as [ls|].
    - destruct (LabelSelectorAsSelector ls) as [sel|] eqn:Hc; [|done]. injection Hsel as <-. right. cbn [mbind res_bind] in Hby.
      destruct (eligibleNodes _ _ _) as [X|] eqn:HX; [|done]. injection Hby as <-. exists ls, sel, X. done.
    - injection Hsel as <-. injection Hby as <-. by left. }
  destruct (srv_forEach _ _ s) as [[e|] s1] eqn:Hclear; [done|].
  cbn [gp_Namespace set_Total set_PoolStatus].
  destruct (srv_forEach _ _ s1) as [[e|] s2] eqn:Hassign; [done|]. intros [= _ <- <-].
  destruct (selection_effect _ _ _ _ _ _ Hpn Hct Hl2 Hclear Hassign) as (Hn & Hmiss & Hdev).
  split; [done..|by apply Hdev|by apply Hdev|by apply Hdev|]. exists perNode. split; [done|].
  f_equal. rewrite countNodes_total.
  - f_equal. rewrite <- (Zsum_perm _ _ _ (range_keys_perm 1 (dom perNode))). apply Zsum_fmap.
  - apply Forall_forall. intros devs (node & -> & _)%list_elem_of_fmap.
    pose proof (stored_length s (default [] (perNode !! node)) (ct_once _ _ _ Hct node)) as Hlen.
    assert (length (default [] (perNode !! node)) ≤ size (devices s))%nat; [|lia].
    apply Hlen. intros d Hd. by apply (ct_devices _ _ _ Hct) in Hd as [? _].
Qed.

(** ** The nodes of a pool *)

Definition node_has (pool : GPUPool) (s : S) (node : string) : Prop :=
  ∃ name d, devices s !! name = Some d ∧ marks pool d = true ∧ DeviceNodeName d = node.

Lemma countNodes_spec devs node : (Z.of_nat (length devs) < 2 ^ 31)%Z →
  default 0 (countNodes devs !! node) = Z.of_nat (length (List.filter (λ d, str_eqb (DeviceNodeName d) node) devs)) ∧
  (node ∈ dom (countNodes devs) ↔ node ∈ (DeviceNodeName <$> devs)).
Proof.
  unfold countNodes. induction devs as [|x l IH] using rev_ind; intros Hlen; [split; [done|set_solver]|].
  rewrite length_app in Hlen. simpl in Hlen. destruct IH as [IH1 IH2]; [lia|].
  rewrite foldl_app, List.filter_app, length_app, fmap_app. cbn [foldl]. rewrite dom_insert, elem_of_union, elem_of_app, elem_of_singleton, IH2.
  cbn [fmap list_fmap]. rewrite list_elem_of_singleton. simpl. split; [|tauto]. destruct (str_eqb (DeviceNodeName x) node) eqn:E; go_bool.
  - subst node. rewrite lookup_insert_eq. simpl. rewrite IH1. rewrite wrap32_id; [lia|].
    pose proof (List.filter_length_le (λ d, str_eqb (DeviceNodeName d) (DeviceNodeName x)) l). lia.
  - rewrite lookup_insert_ne by done. rewrite IH1. simpl. lia.
Qed.

Lemma no_taint key (l : list Taint) : existsb (λ t, str_eqb (tnt_Key t) key) l = false →
  List.filter (λ t, negb (str_eqb (tnt_Key t) key)) l = l.
Proof. induction l as [|t l IH]; simpl; [done|]. intros [-> Hl]%orb_false_iff. simpl. by rewrite IH. Qed.

(** What marking makes of the node: the label, and the taint if wanted, of
    exactly the nodes with devices. *)
Lemma markNode_spec key has enabled n n' changed : markNode key has enabled n = (n', changed) → PoolValueFromKey key ≠ "" →
  node_Name n' = node_Name n ∧
  node_Labels n' = (if has then <[key := PoolValueFromKey key]> (node_Labels n) else delete key (node_Labels n)) ∧
  node_Taints n' = List.filter (λ t, negb (str_eqb (tnt_Key t) key)) (node_Taints n) ++
    (if enabled && has then [mkTaint key (PoolValueFromKey key) TaintEffectNoSchedule] else []) ∧
  (changed = false → n' = n).
Proof.
  intros Hm Hv. unfold markNode, ensureTaints in Hm. pose proof (no_taint key (node_Taints n)) as Hfilter.
  destruct has.
  - rewrite andb_true_r in *. destruct (str_eqb (label (node_Labels n) key) (PoolValueFromKey key)) eqn:E; simpl in Hm; go_bool.
    + apply label_ne in E; [|done]. injection Hm as <- <-. simpl. split; [done|]. split; [by rewrite insert_id|].
      destruct (existsb _ _) eqn:Ex; simpl; [|rewrite (Hfilter eq_refl)]; destruct enabled; simpl; rewrite ?app_nil_r; split; try done;
        by destruct n.
    + injection Hm as <- <-. simpl. split; [done|]. split; [done|]. split; [|done].
      destruct (existsb _ _) eqn:Ex; simpl; [|rewrite (Hfilter eq_refl)]; destruct enabled; simpl; by rewrite ?app_nil_r.
  - rewrite andb_false_r in *. simpl in Hm. rewrite orb_false_r, !app_nil_r in *. destruct (node_Labels n !! key) as [v|] eqn:E; injection Hm as <- <-; simpl.
    + split; [done|]. split; [done|]. split; [|done]. destruct (existsb _ _) eqn:Ex; [done|]. by rewrite Hfilter.
    + split; [done|]. split; [by rewrite delete_id|]. split; [destruct (existsb _ _) eqn:Ex; [done|by rewrite Hfilter]|].
      intros ->. by destruct n.
Qed.

Lemma markNode_keeps key has enabled n : node_Name (markNode key has enabled n).1 = node_Name n.
Proof.
  unfold markNode. destruct has; [destruct (negb _)|destruct (node_Labels n !! key)]; by destruct (ensureTaints _ _ _).
Qed.

(** [syncNode] marks the node as it is stored, also when it retries. *)
Lemma syncNode_ok name key has enabled s s' : PoolValueFromKey key ≠ "" → syncNode name key has enabled s = (None, s') →
  nodes s' = alter (λ n, (markNode key has enabled n).1) name (nodes s) ∧ devices s' = devices s.
Proof.
  intros Hv Hr. apply retryN_ok in Hr as (s0 & [= Hd Hn] & Hr).
  - rewrite <- Hd, <- Hn. pose proof (fetch_node name s0) as Hf. destruct (fetch (pc_GetNode name s0)) as [[n|]|e]; [| |done].
    + rewrite (alter_present _ _ _ _ Hf). pose proof (nodes_name _ _ _ Hf) as Hname.
      pose proof (markNode_keeps key has enabled n) as Hk. destruct (markNode key has enabled n) as [n' changed] eqn:Hm.
      pose proof (markNode_spec _ _ _ _ _ _ Hm Hv) as (_ & _ & _ & Hc). simpl in *.
      destruct changed; simpl in Hr; [|injection Hr as <-; rewrite Hc, insert_id by done; done].
      destruct (patch_node _ _ _ _ Hr) as [Hn' Hd']; [by rewrite Hname|done|]. by rewrite <- Hname at 1.
    + injection Hr as <-. split; [|done]. symmetry. by apply alter_missing.
  - intros s1 e s2. destruct (fetch (pc_GetNode name s1)) as [[n|]|e']; [|done|by intros [= _ <-]].
    destruct (markNode key has enabled n) as [n' []]; [|done]. simpl. intros Hp. destruct (patch_node_failed _ _ _ _ _ Hp).
    unfold view. congruence.
Qed.

(** A loop whose body changes the node it is called with. *)
Lemma forEach_nodes (f : string → S → option error * S) (g : string → Node → Node) l s s' :
  (∀ a s0 s1, f a s0 = (None, s1) → nodes s1 = alter (g a) a (nodes s0) ∧ devices s1 = devices s0) →
  NoDup l → srv_forEach f l s = (None, s') →
  devices s' = devices s ∧ ∀ n, nodes s' !! n = (if decide (n ∈ l) then g n else id) <$> nodes s !! n.
Proof.
  intros Hf. revert s. induction l as [|a l IH]; intros s Hnd; cbn [srv_forEach].
  - intros [= <-]. split; [done|]. intros n. rewrite decide_False by set_solver. by rewrite option_fmap_id.
  - apply NoDup_cons in Hnd as [Hnin Hnd]. destruct (f a s) as [[e|] s1] eqn:Ha; [done|]. intros Hr.
    destruct (Hf _ _ _ Ha) as [Hn Hd]. destruct (IH _ Hnd Hr) as [IHd IHn]. split; [congruence|]. intros n. rewrite IHn, Hn.
    destruct (decide (n = a)) as [->|Hne].
    + rewrite lookup_alter_eq, (decide_False (P:=a ∈ l)), (decide_True (P:=a ∈ a :: l)) by (done || left). by rewrite option_fmap_id.
    + rewrite lookup_alter_ne by done. f_equal. apply decide_ext. rewrite elem_of_cons. naive_solver.
Qed.

(** The counters of the handler and the devices of a node. *)
Lemma node_has_count pool s devs node : pool_named pool → Z.of_nat (size (devices s)) < 2 ^ 31 →
  pc_ListDevices IndexGPUDeviceByPoolRefName (gp_Name pool) s = Ok devs →
  let m := countNodes (List.filter (marks pool) devs) in
  ((0 <? default 0 (m !! node)) = true ↔ node_has pool s node) ∧ (node_has pool s node → node ∈ dom m).
Proof.
  intros Hpn Hsize Hl m. destruct (list_devices _ _ _ _ Hl) as [Hnd Hin].
  assert (∀ d, d ∈ List.filter (marks pool) devs ↔ devices s !! gd_Name d = Some d ∧ marks pool d = true) as Hmem.
  { intros d. rewrite list_elem_of_In, List.filter_In, <- list_elem_of_In, Hin, (poolRefIndex_spec _ _ (pn_name _ Hpn)).
    split; [tauto|]. intros [Hd Hm]. split; [|done]. split; [done|]. unfold marks in Hm. go_bool. destruct Hm as [[_ Hm] _]. by apply matches_named. }
  assert (Z.of_nat (length (List.filter (marks pool) devs)) < 2 ^ 31) as Hlen.
  { pose proof (stored_length s (List.filter (marks pool) devs) (NoDup_filter_names _ _ Hnd)) as Hs.
    assert (length (List.filter (marks pool) devs) ≤ size (devices s))%nat; [|lia]. apply Hs. intros d Hd. by apply Hmem. }
  destruct (countNodes_spec _ node Hlen) as [Hcnt Hdom]. fold m in Hcnt, Hdom.
  assert (node_has pool s node ↔ ∃ d, d ∈ List.filter (marks pool) devs ∧ DeviceNodeName d = node) as Hhas.
  { setoid_rewrite Hmem. split.
    - intros (name & d & Hd & Hm & Hn). exists d. rewrite (devices_name _ _ _ Hd). done.
    - intros (d & [Hd Hm] & Hn). by exists (gd_Name d), d. }
  rewrite Hhas, Hcnt. split.
  - rewrite Z.ltb_lt. split.
    + intros Hpos. destruct (List.filter (λ d, str_eqb (DeviceNodeName d) node) (List.filter (marks pool) devs)) as [|d l] eqn:E; [simpl in Hpos; lia|].
      assert (In d (d :: l)) as Hd by (by left). rewrite <- E, List.filter_In in Hd. destruct Hd as [Hd He]. exists d.
      rewrite list_elem_of_In. split; [done|]. by go_bool.
    + intros (d & Hd & He). rewrite list_elem_of_In in Hd.
      assert (In d (List.filter (λ d, str_eqb (DeviceNodeName d) node) (List.filter (marks pool) devs))) as Hd'.
      { apply List.filter_In. split; [done|]. by go_bool. }
      destruct (List.filter (λ d, str_eqb (DeviceNodeName d) node) (List.filter (marks pool) devs)); [done|simpl; lia].
  - intros (d & Hd & <-). apply Hdom. by apply list_elem_of_fmap_2.
Qed.

(** What a node shows of the pool: its label and its taints. *)
Definition shows (pool : GPUPool) (has : Prop) (n n' : Node) : Prop :=
  let key := PoolLabelKey pool in
  (node_Labels n' !! key = Some (PoolValueFromKey key) ↔ has) ∧
  delete key (node_Labels n') = delete key (node_Labels n) ∧
  (∀ t, t ∈ node_Taints n' ∧ tnt_Key t = key ↔
     sch_TaintsEnabled (gps_Scheduling (gp_Spec pool)) = Some true ∧ has ∧ t = mkTaint key (PoolValueFromKey key) TaintEffectNoSchedule) ∧
  List.filter (λ t, negb (str_eqb (tnt_Key t) key)) (node_Taints n') = List.filter (λ t, negb (str_eqb (tnt_Key t) key)) (node_Taints n).

Lemma filter_without key (l : list Taint) t : t ∈ List.filter (λ t, negb (str_eqb (tnt_Key t) key)) l ↔ t ∈ l ∧ tnt_Key t ≠ key.
Proof. rewrite !list_elem_of_In, List.filter_In. by go_bool. Qed.

Lemma filter_twice {A} (f : A → bool) l : List.filter f (List.filter f l) = List.filter f l.
Proof. induction l as [|a l IH]; simpl; [done|]. destruct (f a) eqn:E; simpl; rewrite ?E; by rewrite ?IH. Qed.

Lemma markNode_shows pool (has : bool) (P : Prop) n : PoolValueFromKey (PoolLabelKey pool) ≠ "" → (has = true ↔ P) →
  shows pool P n (markNode (PoolLabelKey pool) has (default false (sch_TaintsEnabled (gps_Scheduling (gp_Spec pool)))) n).1.
Proof.
  intros Hv HP. unfold shows. set (key := PoolLabelKey pool) in *. set (te := sch_TaintsEnabled (gps_Scheduling (gp_Spec pool))).
  destruct (markNode key has (default false te) n) as [n' changed] eqn:Hm.
  destruct (markNode_spec _ _ _ _ _ _ Hm Hv) as (_ & Hl & Ht & _). simpl. rewrite Hl, Ht. split_and!.
  - rewrite <- HP. destruct has; [by rewrite lookup_insert_eq|by rewrite lookup_delete_eq].
  - destruct has; [by rewrite delete_insert_eq|by rewrite delete_delete_eq].
  - intros t. rewrite elem_of_app, filter_without, <- HP.
    destruct te as [[|]|], has; simpl; rewrite ?list_elem_of_singleton; (split; [|intros (H1 & H2 & H3); try done]);
      try (intros [[[_ Hne]|Hin] Hk]; try done; by apply not_elem_of_nil in Hin).
    subst t. split; [by right|done].
  - rewrite List.filter_app, filter_twice. destruct (default false te && has); simpl; [|by rewrite app_nil_r].
    replace (str_eqb key key) with true by (symmetry; by go_bool). by rewrite app_nil_r.
Qed.

Lemma unmarked_shows pool n : node_Labels n !! PoolLabelKey pool ≠ Some (PoolValueFromKey (PoolLabelKey pool)) →
  PoolLabelKey pool ∉ (tnt_Key <$> node_Taints n) → shows pool False n n.
Proof.
  intros Hl Ht. unfold shows. split_and!; [tauto|done| |done]. intros t. split; [|tauto]. intros [Hin Hk].
  destruct Ht. rewrite <- Hk. by apply list_elem_of_fmap_2.
Qed.

(** The nodes after marking: exactly those with devices of the pool carry its
    label and, when wanted, its taint; nothing else of a node changes. *)
Record marked (pool : GPUPool) (s s' : S) : Prop := {
  mk_devices : devices s' = devices s;
  mk_missing name : nodes s !! name = None → nodes s' !! name = None;
  mk_node name n : nodes s !! name = Some n → ∃ n', nodes s' !! name = Some n' ∧ shows pool (node_has pool s name) n n';
}.

Lemma nodemark_ok pool s r pool' s' : pool_named pool → Z.of_nat (size (devices s)) < 2 ^ 31 →
  PoolValueFromKey (PoolLabelKey pool) ≠ "" → NodeMarkHandle pool s = ((r, None), (pool', s')) →
  r = zeroResult ∧ pool' = pool ∧ marked pool s s'.
Proof.
  intros Hpn Hsize Hv. unfold NodeMarkHandle.
  destruct (pc_ListDevices _ _ s) as [devs|e] eqn:Hl; [|done].
  destruct (pc_ListNodesByLabel _ _ s) as [labelled|e] eqn:Hnl; [|done].
  destruct (pc_ListNodesByTaint _ s) as [tainted|e] eqn:Hnt; [|done].
  set (m := countNodes (List.filter (marks pool) devs)). set (X := dom m ∪ _ ∪ _).
  destruct (srv_forEach _ _ s) as [err s1] eqn:Hloop. intros [= <- -> <- <-]. split_and!; [done..|].
  apply (forEach_nodes _ (λ name n, (markNode (PoolLabelKey pool) (0 <? default 0 (m !! name))
    (default false (sch_TaintsEnabled (gps_Scheduling (gp_Spec pool)))) n).1)) in Hloop as [Hd Hn];
    [|intros; by apply syncNode_ok|rewrite range_keys_perm; apply NoDup_elements].
  split; [done|intros name Hm; by rewrite Hn, Hm|]. intros name n Hname. rewrite Hn, Hname. simpl. eexists. split; [done|].
  destruct (node_has_count pool s devs name Hpn Hsize Hl) as [Hhas Hdom]. fold m in Hhas, Hdom.
  destruct (decide _) as [Hin|Hin]; [by apply markNode_shows|]. rewrite range_keys_perm, elem_of_elements in Hin.
  unfold X in Hin. rewrite !elem_of_union, !elem_of_list_to_set in Hin. pose proof (nodes_name _ _ _ Hname) as Hnn.
  assert (¬ node_has pool s name) as Hno by tauto.
  assert (node_has pool s name ↔ False) as Hf by tauto.
  assert (shows pool False n n) as Hsh; [|unfold shows in *; by setoid_rewrite Hf]. apply unmarked_shows.
  - intros Hlab. apply Hin. left. right. apply list_elem_of_fmap. exists n. split; [done|]. apply (list_nodes_label _ _ _ _ Hnl). by rewrite Hnn.
  - intros Ht. apply Hin. right. apply list_elem_of_fmap. exists n. split; [done|]. apply (list_nodes_taint _ _ _ Hnt). rewrite Hnn. split; [done|].
    apply IndexNodeByTaintKey_spec. split; [|done]. unfold PoolLabelKey, PoolResourcePrefixFor. by destruct (isClusterPool pool).
Qed.

(** ** The validator's verdict *)

Definition validated_device (ready : gset string) (d : GPUDevice) : GPUDevice :=
  if str_eqb (DeviceNodeName d) "" then d else set_assignment (gd_PoolRef d) (validatedState ready d) d.

Lemma validateDevice_ok ready d s s' : devices s !! gd_Name d = Some d → validateDevice ready d s = (None, s') →
  devices s' = <[gd_Name d := validated_device ready d]> (devices s) ∧ nodes s' = nodes s.
Proof.
  intros Hd. unfold validateDevice, validated_device. destruct (str_eqb (DeviceNodeName d) ""); [intros [= <-]; by rewrite insert_id|].
  destruct (str_eqb (validatedState ready d) (gd_State d)) eqn:E; go_bool.
  - rewrite E. intros [= <-]. rewrite insert_id; [done|]. destruct d as [n l a o []]. done.
  - intros Hp. by apply (patch_device _ _ _ _ Hp).
Qed.

Lemma forEach_validate ready l s s' : NoDup (gd_Name <$> l) → (∀ d, d ∈ l → devices s !! gd_Name d = Some d) →
  srv_forEach (validateDevice ready) l s = (None, s') →
  nodes s' = nodes s ∧ (∀ d, d ∈ l → devices s' !! gd_Name d = Some (validated_device ready d)) ∧
  ∀ name, name ∉ (gd_Name <$> l) → devices s' !! name = devices s !! name.
Proof.
  revert s. induction l as [|a l IH]; intros s Hnd Hst; cbn [srv_forEach].
  { intros [= <-]. split_and!; [done| |done]. intros d Hd. by apply not_elem_of_nil in Hd. }
  rewrite fmap_cons in *. apply NoDup_cons in Hnd as [Hnin Hnd]. destruct (validateDevice ready a s) as [[e|] s1] eqn:Ha; [done|]. intros Hr.
  destruct (validateDevice_ok _ _ _ _ (Hst a ltac:(left)) Ha) as [Hd1 Hn1]. destruct (IH s1 Hnd) as (IHn & IHd & IHo); [|done|].
  - intros d Hd. rewrite Hd1, lookup_insert_ne; [by apply Hst; right|]. intros Heq. apply Hnin. rewrite Heq. by apply list_elem_of_fmap_2.
  - split_and!; [congruence| |].
    + intros d [->|Hd]%elem_of_cons; [|by apply IHd]. rewrite IHo by done. by rewrite Hd1, lookup_insert_eq.
    + intros name [Hne Hnot]%not_elem_of_cons. rewrite IHo by done. by rewrite Hd1, lookup_insert_ne.
Qed.

(** The devices after validation: those given to the pool have the state the
    validator pods of their nodes allow. *)
Record validated (ready : gset string) (pool : GPUPool) (s s' : S) : Prop := {
  vd_nodes : nodes s' = nodes s;
  vd_missing name : devices s !! name = None → devices s' !! name = None;
  vd_given name d : devices s !! name = Some d → annotated pool d → devices s' !! name = Some (validated_device ready d);
  vd_other name d : devices s !! name = Some d → ¬ annotated pool d → devices s' !! name = Some d;
}.

Lemma validation_ok ns pool s r pool' s' : pool_named pool → DPValidationHandle ns pool s = ((r, None), (pool', s')) →
  r = zeroResult ∧ pool' = pool ∧ ∃ pods, (pc_ListValidatorPods ns (gp_Name pool) s = Ok pods ∨
    pods = [] ∧ ∃ e, pc_ListValidatorPods ns (gp_Name pool) s = Err e ∧ pc_IsNotFound e = true) ∧
  validated (readyNodes pods) pool s s'.
Proof.
  intros Hpn. unfold DPValidationHandle.
  destruct (pc_ListValidatorPods _ _ s) as [pods|e] eqn:Hpods; [|destruct (pc_IsNotFound e) eqn:He; [|done]; set (pods := []) in *];
  destruct (pc_ListDevices _ _ s) as [devs|e'] eqn:Hl; try done;
  destruct (srv_forEach _ _ s) as [err s1] eqn:Hloop; intros [= <- -> <- <-]; split_and!; [done|done| |done|done|];
  exists pods; (split; [naive_solver|]); destruct (list_devices _ _ _ _ Hl) as [Hnd Hin];
  (apply forEach_validate in Hloop as (Hn & Hd & Ho); [|done|intros d Hd; by apply Hin]).
  all: assert (∀ name d, devices s !! name = Some d → d ∈ devs ↔ annotated pool d) as Hmem by
    (intros name d Hd'; rewrite Hin, (assignmentIndex_spec _ _ (pn_name _ Hpn)), (devices_name _ _ _ Hd'); tauto).
  all: assert (∀ name, name ∈ (gd_Name <$> devs) → ∃ d, devices s !! name = Some d ∧ d ∈ devs) as Hback by
    (intros name (d & -> & Hd')%list_elem_of_fmap; exists d; split; [by apply Hin|done]).
  all: split; [done|intros name Hm; rewrite Ho; [done|intros (d & Hd' & _)%Hback; congruence]
    |intros name d Hd' Ha; rewrite <- (devices_name _ _ _ Hd'); apply Hd; by eapply Hmem
    |intros name d Hd' Ha; rewrite Ho; [done|intros (d' & Hd'' & Hin')%Hback; rewrite Hd' in Hd''; injection Hd'' as <-; apply Ha; by eapply Hmem]].
Qed.

(** ** One reconcile *)

(** Errors of the client are not the sentinel that stops the chain. *)
Definition genuine (err : option error) : Prop := ∀ e, err = Some e → errorsIs e ErrStopHandlerChain = false.

Class ClientErrors := {
  ge_ListDevices index value s e : pc_ListDevices index value s = Err e → genuine (Some e);
  ge_GetDevice name s e : pc_GetDevice name s = Err e → genuine (Some e);
  ge_PatchDevice new base s err s' : pc_PatchDeviceStatus new base s = (err, s') → genuine err;
  ge_GetNode name s e : pc_GetNode name s = Err e → genuine (Some e);
  ge_NodesByLabel key value s e : pc_ListNodesByLabel key value s = Err e → genuine (Some e);
  ge_NodesByTaint key s e : pc_ListNodesByTaint key s = Err e → genuine (Some e);
  ge_PatchNode new base s err s' : pc_PatchNode new base s = (err, s') → genuine err;
  ge_GetClusterPool name s e : pc_GetClusterPool name s = Err e → genuine (Some e);
  ge_Pods ns name s e : pc_ListValidatorPods ns name s = Err e → genuine (Some e);
}.
Context {ge : ClientErrors}.

Lemma genuine_None : genuine None.
Proof. done. Qed.

Lemma forEach_genuine {A} (f : A → S → option error * S) l s err s' :
  (∀ a s0 e s1, f a s0 = (e, s1) → genuine e) → srv_forEach f l s = (err, s') → genuine err.
Proof.
  intros Hf. revert s. induction l as [|a l IH]; intros s; simpl; [by intros [= <- _]|].
  destruct (f a s) as [[e|] s1] eqn:Ha; [intros [= <- _]; by eapply Hf|apply IH].
Qed.

Lemma retry_genuine n (fn : S → option error * S) s err s' :
  (∀ s0 e s1, fn s0 = (e, s1) → genuine e) → retryN n fn s = (err, s') → genuine err.
Proof.
  intros Hf. revert s. induction n as [|n IH]; intros s; simpl; destruct (fn s) as [[e|] s1] eqn:Ha; try (by intros [= <- _]);
    destruct (IsConflict e); try (intros [= <- _]; by eapply Hf). apply IH.
Qed.

Lemma fetch_genuine {A} (r : res A) e : (∀ e, r = Err e → genuine (Some e)) → fetch r = Err e → genuine (Some e).
Proof. intros Hr. unfold fetch. destruct r as [a|e']; [done|]. destruct (pc_IsNotFound e'); [done|]. intros [= <-]. by apply Hr. Qed.

Lemma ignore_genuine err : genuine err → genuine (ignoreNotFound err).
Proof. destruct err as [e|]; simpl; [|done]. by destruct (pc_IsNotFound e). Qed.

Lemma assign_genuine name pn pns s err s' : assignDeviceWithRetry name pn pns s = (err, s') → genuine err.
Proof.
  apply retry_genuine. intros s0 e s1. destruct (fetch (pc_GetDevice name s0)) as [[d|]|e'] eqn:Hf; [|by intros [= <- _]|].
  - destruct (pc_PatchDeviceStatus _ _ _) as [e' s2] eqn:Hp. intros [= <- _]. by eapply ignore_genuine, ge_PatchDevice.
  - intros [= <- _]. eapply fetch_genuine; [|done]. apply ge_GetDevice.
Qed.

Lemma clear_genuine name pn pns key s err s' : clearDevicePool name pn pns key s = (err, s') → genuine err.
Proof.
  apply retry_genuine. intros s0 e s1. destruct (fetch (pc_GetDevice name s0)) as [[d|]|e'] eqn:Hf; [|by intros [= <- _]|].
  - destruct (str_eqb _ _); [by intros [= <- _]|]. destruct (clearable _ _ _); simpl; [|by intros [= <- _]].
    destruct (pc_PatchDeviceStatus _ _ _) as [e' s2] eqn:Hp. intros [= <- _]. by eapply ignore_genuine, ge_PatchDevice.
  - intros [= <- _]. eapply fetch_genuine; [|done]. apply ge_GetDevice.
Qed.

Lemma eligible_genuine sel names s e : eligibleNodes sel names s = Err e → genuine (Some e).
Proof.
  revert e. induction names as [|name names IH]; intros e; simpl; [done|].
  destruct (fetch (pc_GetNode name s)) as [n|e'] eqn:Hf; simpl.
  - destruct (eligibleNodes sel names s) as [X|e']; simpl; [done|]. intros [= <-]. by apply IH.
  - intros [= <-]. eapply fetch_genuine; [|done]. apply ge_GetNode.
Qed.

Lemma selection_genuine pool s r err st : SelectionHandle pool s = ((r, err), st) → genuine err.
Proof.
  unfold SelectionHandle.
  destruct (pc_ListDevices (assignmentIndex pool) _ s) as [assigned|e] eqn:Hl1; [|intros [= _ <- _]; by eapply ge_ListDevices].
  destruct (pc_ListDevices IndexGPUDeviceByPoolRefName _ s) as [refs|e] eqn:Hl2; [|intros [= _ <- _]; by eapply ge_ListDevices].
  match goal with |- context [match ?x with Ok _ => _ | Err _ => _ end] => destruct x as [sel|e] end;
    [|intros Heq; injection Heq as _ <- _; intros e' He; injection He as <-; by vm_compute].
  match goal with |- context [match ?x with Ok _ => _ | Err _ => _ end] => destruct x as [perNode|e] eqn:Hby end.
  2: { intros [= _ <- _]. destruct sel as [sel|]; [|done]. cbn [mbind res_bind] in Hby.
       destruct (eligibleNodes _ _ _) eqn:He; [done|]. injection Hby as <-. by eapply eligible_genuine. }
  destruct (srv_forEach _ _ s) as [[e|] s1] eqn:Hc; [intros [= _ <- _]; eapply forEach_genuine, Hc; intros ????; apply clear_genuine|].
  destruct (srv_forEach _ _ s1) as [[e|] s2] eqn:Ha; intros [= _ <- _]; [|done]. eapply forEach_genuine, Ha. intros ????; apply assign_genuine.
Qed.

Lemma nodemark_genuine pool s r err st : NodeMarkHandle pool s = ((r, err), st) → genuine err.
Proof.
  unfold NodeMarkHandle. destruct (pc_ListDevices _ _ s) as [devs|e] eqn:Hl; [|intros [= _ <- _]; by eapply ge_ListDevices].
  destruct (pc_ListNodesByLabel _ _ s) as [labelled|e] eqn:Hnl; [|intros [= _ <- _]; by eapply ge_NodesByLabel].
  destruct (pc_ListNodesByTaint _ s) as [tainted|e] eqn:Hnt; [|intros [= _ <- _]; by eapply ge_NodesByTaint].
  destruct (srv_forEach _ _ s) as [e s1] eqn:Hf. intros [= _ <- _]. eapply forEach_genuine, Hf. intros name s0 e' s2.
  apply retry_genuine. intros s3 e'' s4. destruct (fetch (pc_GetNode name s3)) as [[n|]|e3] eqn:Hn; [|by intros [= <- _]|].
  - destruct (markNode _ _ _ _) as [n' []]; simpl; [|by intros [= <- _]]. intros Hp. by eapply ge_PatchNode.
  - intros [= <- _]. eapply fetch_genuine; [|done]. apply ge_GetNode.
Qed.

Lemma validation_genuine ns pool s r err st : DPValidationHandle ns pool s = ((r, err), st) → genuine err.
Proof.
  unfold DPValidationHandle.
  match goal with |- context [match ?x with Ok _ => _ | Err _ => _ end] => destruct x as [pods|e] eqn:Hp end.
  2: { intros [= _ <- _]. destruct (pc_ListValidatorPods _ _ s) eqn:Hl; [done|]. destruct (pc_IsNotFound _); [done|].
       injection Hp as <-. by eapply ge_Pods. }
  destruct (pc_ListDevices _ _ s) as [devs|e] eqn:Hl; [|intros [= _ <- _]; by eapply ge_ListDevices].
  destruct (srv_forEach _ _ s) as [e s1] eqn:Hf. intros [= _ <- _]. eapply forEach_genuine, Hf. intros d s0 e' s2. unfold validateDevice.
  destruct (str_eqb _ _); [by intros [= <- _]|]. destruct (str_eqb _ _); [by intros [= <- _]|]. intros Hpd. by eapply ge_PatchDevice.
Qed.

Lemma poolValue pool : pool_named pool → PoolValueFromKey (PoolLabelKey pool) = gp_Name pool.
Proof.
  intros [_ Hf _]. unfold PoolValueFromKey, PoolLabelKey.
  change ("/" +:+ gp_Name pool) with (String "/" (gp_Name pool)). rewrite SplitChar_app by (unfold PoolResourcePrefixFor; by destruct (isClusterPool pool)).
  by rewrite SplitChar_item.
Qed.

Lemma candidate_status st pool s d : candidate (set_PoolStatus st pool) s d ↔ candidate pool s d.
Proof. split; intros [H1 H2 H3 H4 H5]; split; done. Qed.
Lemma named_status st pool : pool_named pool → pool_named (set_PoolStatus st pool).
Proof. intros [H1 H2 H3]. split; done. Qed.

(** What the workload handler does to devices and nodes: nothing. *)
Definition keeps_devices (h : HandlePool) : Prop := ∀ pool s res err pool' s', h pool s = ((res, err), (pool', s')) →
  view s' = view s ∧ (∃ st, pool' = set_PoolStatus st pool) ∧ genuine err.

(** The devices and nodes of a pool after a reconcile that reports nothing. *)
Record converged (ready : gset string) (pool : GPUPool) (s s' : S) : Prop := {
  cv_missing name : devices s !! name = None → devices s' !! name = None;
  cv_candidate name d : devices s !! name = Some d → candidate pool s d → ∃ d' ref, devices s' !! name = Some d' ∧
    gd_PoolRef d' = Some ref ∧ ref_Name ref = gp_Name pool ∧ TrimSpace (ref_Namespace ref) = gp_Namespace pool ∧
    gd_State d' ≠ GPUDeviceStateReady ∧
    (gd_State d' = GPUDeviceStateAssigned ↔ DeviceNodeName d ∈ ready ∧
       gd_State d ∈ [GPUDeviceStateReady; GPUDeviceStatePendingAssignment; GPUDeviceStateAssigned]);
  cv_rejected name d : devices s !! name = Some d → annotated pool d → ¬ candidate pool s d →
    devices s' !! name = Some (validated_device ready d);
  cv_withdrawn name d : devices s !! name = Some d → stale pool d → devices s' !! name = Some (cleared_device d);
  cv_foreign name d : devices s !! name = Some d → ¬ annotated pool d → ¬ stale pool d → devices s' !! name = Some d;
  cv_none_stale name d' : devices s' !! name = Some d' → ¬ stale pool d';
  cv_nodes name n : nodes s !! name = Some n → ∃ n', nodes s' !! name = Some n' ∧ shows pool (node_has pool s' name) n n';
}.

Lemma validatedState_Assigned ready d : gd_State (set_assignment (gd_PoolRef d) (validatedState ready d) d) = GPUDeviceStateAssigned ↔
  DeviceNodeName d ∈ ready ∧ gd_State d ∈ [GPUDeviceStatePendingAssignment; GPUDeviceStateAssigned].
Proof.
  change (gd_State (set_assignment _ ?st _)) with st. unfold validatedState.
  destruct (str_eqb (gd_State d) GPUDeviceStatePendingAssignment) eqn:E1; go_bool.
  - rewrite E1. case_bool_decide; [|split; [done|tauto]]. split; [|done]. intros _. split; [done|]. by left.
  - destruct (str_eqb (gd_State d) GPUDeviceStateAssigned) eqn:E2; go_bool.
    + rewrite E2. case_bool_decide; simpl; [|split; [done|tauto]]. split; [|done]. intros _. split; [done|]. right. by left.
    + split; [done|]. intros [_ Hin]. rewrite !elem_of_cons in Hin. destruct Hin as [?|[?|Hin]]; [done..|]. by apply not_elem_of_nil in Hin.
Qed.

Lemma validatedState_notReady ready d : gd_State d ≠ GPUDeviceStateReady → validatedState ready d ≠ GPUDeviceStateReady.
Proof. intros Hd. unfold validatedState. repeat case_match; done. Qed.

Lemma selection_step_spec pool d : pool_named pool →
  (∃ ref, gd_PoolRef (selection_step pool d) = Some ref ∧ ref_Name ref = gp_Name pool ∧ TrimSpace (ref_Namespace ref) = gp_Namespace pool) ∧
  gd_State (selection_step pool d) = (if str_eqb (gd_State d) GPUDeviceStateReady then GPUDeviceStatePendingAssignment else gd_State d) ∧
  DeviceNodeName (selection_step pool d) = DeviceNodeName d ∧ gd_Annotations (selection_step pool d) = gd_Annotations d.
Proof.
  intros [_ _ Hns]. unfold selection_step.
  assert (TrimSpace (gp_Namespace pool) = gp_Namespace pool) as Ht by (destruct (isClusterPool pool); [by rewrite Hns|tauto]).
  destruct (needsAssignmentUpdate d (gp_Name pool) (gp_Namespace pool)) eqn:Hn.
  - split; [|done]. eexists. split; [done|]. simpl. split; [done|]. rewrite Ht. destruct (str_eqb (gp_Namespace pool) "") eqn:E; go_bool; [|done].
    by rewrite E.
  - unfold needsAssignmentUpdate in Hn. destruct (gd_PoolRef d) as [ref|]; [|done]. rewrite Ht in Hn.
    destruct (str_eqb (ref_Name ref) (gp_Name pool)) eqn:E1; simpl in Hn; [|done].
    destruct (if str_eqb (gp_Namespace pool) "" then _ else _) eqn:E2; [done|]. rewrite Hn. split; [|done]. exists ref. go_bool. split; [done|]. split; [done|].
    destruct (str_eqb (gp_Namespace pool) "") eqn:E3; go_bool; congruence.
Qed.

Lemma validated_device_meta ready d : gd_PoolRef (validated_device ready d) = gd_PoolRef d ∧
  DeviceNodeName (validated_device ready d) = DeviceNodeName d ∧ gd_Annotations (validated_device ready d) = gd_Annotations d ∧
  gd_Labels (validated_device ready d) = gd_Labels d.
Proof. unfold validated_device. by destruct (str_eqb _ _). Qed.

Lemma marks_validated pool ready d : marks pool (validated_device ready d) = marks pool d.
Proof. destruct (validated_device_meta ready d) as (H1 & H2 & H3 & H4). unfold marks, IsDeviceIgnored. by rewrite H1, H2, H4. Qed.

(** Validation keeps the devices where they are. *)
Lemma node_has_validated ready pool s s' node : validated ready pool s s' → node_has pool s' node ↔ node_has pool s node.
Proof.
  intros Hv. assert (∀ name d, devices s !! name = Some d → ∃ d', devices s' !! name = Some d' ∧ marks pool d' = marks pool d ∧
    DeviceNodeName d' = DeviceNodeName d) as Hfw.
  { intros name d Hd. destruct (decide (annotated pool d)) as [Ha|Ha].
    - rewrite (vd_given _ _ _ _ Hv _ _ Hd Ha). eexists. split; [done|]. rewrite marks_validated.
      by destruct (validated_device_meta ready d) as (_ & -> & _).
    - rewrite (vd_other _ _ _ _ Hv _ _ Hd Ha). eauto. }
  unfold node_has. split.
  - intros (name & d' & Hd' & Hm & Hn). destruct (devices s !! name) as [d|] eqn:Hd.
    + destruct (Hfw _ _ Hd) as (d'' & Hd'' & Hm' & Hn'). rewrite Hd' in Hd''. injection Hd'' as <-. exists name, d. split; [done|]. split; congruence.
    + apply (vd_missing _ _ _ _ Hv) in Hd. congruence.
  - intros (name & d & Hd & Hm & Hn). destruct (Hfw _ _ Hd) as (d' & Hd' & Hm' & Hn'). exists name, d'. split; [done|]. split; congruence.
Qed.

Lemma stages_converge ready pool pool1 s s1 s2 s' : pool_named pool → selected pool pool1 s s1 → marked pool s1 s2 → validated ready pool s2 s' →
  converged ready pool s s'.
Proof.
  intros Hpn Hs Hm Hv. assert (∀ name d, devices s1 !! name = Some d →
    (annotated pool d → devices s' !! name = Some (validated_device ready d)) ∧ (¬ annotated pool d → devices s' !! name = Some d)) as Hlast.
  { intros name d Hd. rewrite <- (mk_devices _ _ _ Hm) in Hd. split; intros Ha; [by apply (vd_given _ _ _ _ Hv)|by apply (vd_other _ _ _ _ Hv)]. }
  assert (∀ d, annotated pool (selection_step pool d) ↔ annotated pool d) as Hann.
  { intros d. unfold annotated. by destruct (selection_step_spec pool d Hpn) as (_ & _ & _ & ->). }
  assert (∀ name, devices s !! name = None → devices s' !! name = None) as Hmiss.
  { intros name Hd. apply (vd_missing _ _ _ _ Hv). rewrite (mk_devices _ _ _ Hm). by apply (sl_missing _ _ _ _ Hs). }
  assert (∀ name d, devices s !! name = Some d → candidate pool s d → devices s' !! name = Some (validated_device ready (selection_step pool d))) as Hcand.
  { intros name d Hd Hc. apply (proj1 (Hlast name _ (sl_candidate _ _ _ _ Hs _ _ Hd Hc))). apply Hann. by eapply cand_annotated. }
  assert (∀ name d, devices s !! name = Some d → annotated pool d → ¬ candidate pool s d → devices s' !! name = Some (validated_device ready d)) as Hrej.
  { intros name d Hd Ha Hc. refine (proj1 (Hlast name d _) Ha). apply (sl_other _ _ _ _ Hs); [done..|]. by intros [? _]. }
  assert (∀ name d, devices s !! name = Some d → stale pool d → devices s' !! name = Some (cleared_device d)) as Hst.
  { intros name d Hd Hc. apply (proj2 (Hlast name _ (sl_stale _ _ _ _ Hs _ _ Hd Hc))). by destruct Hc. }
  assert (∀ name d, devices s !! name = Some d → ¬ annotated pool d → ¬ stale pool d → devices s' !! name = Some d) as Hfor.
  { intros name d Hd Ha Hc. refine (proj2 (Hlast name d _) Ha). apply (sl_other _ _ _ _ Hs); [done| |done]. intros Hca. by apply Ha, cand_annotated with s. }
  split; [done| |done..| |].
  - intros name d Hd Hc. destruct (selection_step_spec pool d Hpn) as ((ref & H1 & H2 & H3) & H4 & H5 & _).
    destruct (validated_device_meta ready (selection_step pool d)) as (V1 & _).
    eexists _, ref. split; [by apply Hcand|]. rewrite V1. split_and!; [done..| |];
      unfold validated_device; rewrite H5; rewrite (proj2 (str_eqb_false _ _)) by (by eapply cand_node).
    + apply validatedState_notReady. rewrite H4. destruct (str_eqb (gd_State d) GPUDeviceStateReady) eqn:E; go_bool; [|done]. by intros [=].
    + rewrite validatedState_Assigned, H4, H5. f_equiv. rewrite !elem_of_cons. destruct (str_eqb (gd_State d) GPUDeviceStateReady) eqn:E; go_bool.
      * split; [by left|by left].
      * split; [tauto|]. intros [?|?]; done.
  - intros name d' Hd' [Hna Hp]. destruct (devices s !! name) as [d|] eqn:Hd; [|apply Hmiss in Hd; congruence].
    destruct (decide (stale pool d)) as [Hsd|Hsd]; [rewrite (Hst _ _ Hd Hsd) in Hd'; by injection Hd' as <-|].
    destruct (decide (annotated pool d)) as [Ha|Ha]; [|rewrite (Hfor _ _ Hd Ha Hsd) in Hd'; injection Hd' as <-; by apply Hsd].
    apply Hna. unfold annotated in *. destruct (decide (candidate pool s d)) as [Hc|Hc].
    + rewrite (Hcand _ _ Hd Hc) in Hd'. injection Hd' as <-. destruct (validated_device_meta ready (selection_step pool d)) as (_ & _ & -> & _).
      by destruct (selection_step_spec pool d Hpn) as (_ & _ & _ & ->).
    + rewrite (Hrej _ _ Hd Ha Hc) in Hd'. injection Hd' as <-. by destruct (validated_device_meta ready d) as (_ & _ & -> & _).
  - intros name n Hn. rewrite <- (sl_nodes _ _ _ _ Hs) in Hn. destruct (mk_node _ _ _ Hm _ _ Hn) as (n' & Hn' & Hsh). exists n'.
    rewrite (vd_nodes _ _ _ _ Hv). split; [done|]. unfold shows in *. setoid_rewrite (node_has_validated _ _ _ _ name Hv).
    assert (node_has pool s2 name ↔ node_has pool s1 name) as Heq by (unfold node_has; by rewrite (mk_devices _ _ _ Hm)).
    by setoid_rewrite Heq.
Qed.

(** The status of the pool plays no part in these. *)
Lemma marked_status st pool s s' : marked (set_PoolStatus st pool) s s' → marked pool s s'.
Proof. intros [H1 H2 H3]. split; done. Qed.
Lemma validated_status st ready pool s s' : validated ready (set_PoolStatus st pool) s s' → validated ready pool s s'.
Proof. intros [H1 H2 H3 H4]. split; done. Qed.
Lemma converged_status st ready pool s s' : converged ready (set_PoolStatus st pool) s s' → converged ready pool s s'.
Proof.
  intros [H1 H2 H3 H4 H5 H6 H7].
  split; [done|intros name d Hd Hc; by apply (H2 name d Hd), candidate_status|intros name d Hd Ha Hc; apply (H3 name d Hd Ha); by rewrite candidate_status|done..].
Qed.
Lemma marked_view pool s s' s'' : view s'' = view s' → marked pool s s' → marked pool s s''.
Proof. intros [= Hd Hn] [H1 H2 H3]. split; rewrite ?Hd, ?Hn; done. Qed.
Lemma validated_view ready pool s s' s'' : view s'' = view s' → validated ready pool s s' → validated ready pool s s''.
Proof. intros [= Hd Hn] [H1 H2 H3 H4]. split; rewrite ?Hd, ?Hn; done. Qed.

Lemma poolUpdate_view current st err st' : poolUpdate current st = (err, st') → view st'.2 = view st.2.
Proof.
  unfold poolUpdate. destruct st as [pool s]. case_bool_decide; [by intros [= _ <-]|].
  destruct (pc_UpdatePoolStatus _ s) as [[e|] s1] eqn:Hu; intros [= _ <-]; destruct (update_pool _ _ _ _ Hu); unfold view; simpl; congruence.
Qed.

(** The configuration handler stops the chain on a name collision, and only then. *)
Lemma config_stops now pool s r e pool' s' : ConfigHandle now pool s = ((r, Some e), (pool', s')) → errorsIs e ErrStopHandlerChain = true →
  gp_Namespace pool ≠ "" ∧ (∃ p, pc_GetClusterPool (gp_Name pool) s = Ok p) ∧ s' = s.
Proof.
  unfold ConfigHandle. destruct (str_eqb (gp_Namespace pool) "") eqn:Hns; simpl; go_bool; [done|].
  destruct (fetch _) as [o|e'] eqn:Hf; simpl.
  - destruct o as [p|]; [|done]. intros [= _ _ _ <-] _. split_and!; [done| |done]. unfold fetch in Hf.
    destruct (pc_GetClusterPool _ _) as [p'|e']; [eauto|]. by destruct (pc_IsNotFound e').
  - intros [= _ -> _ <-] Hstop. assert (errorsIs e ErrStopHandlerChain = false); [|congruence].
    eapply fetch_genuine; [|exact Hf|done]. intros e'. apply ge_GetClusterPool.
Qed.

Lemma config_keeps now pool s r err pool' s' : ConfigHandle now pool s = ((r, err), (pool', s')) → s' = s ∧ ∃ st, pool' = set_PoolStatus st pool.
Proof.
  unfold ConfigHandle. destruct (if negb _ then _ else _) as [c|e]; intros [= _ _ <- <-]; (split; [done|]); [by eexists|].
  exists (gp_Status pool). by destruct pool.
Qed.

(** The stages after the configuration, on a pool of any status. *)
Lemma stages_quiet now ns workload pool s st' : keeps_devices workload → pool_named pool → Z.of_nat (size (devices s)) < 2 ^ 31 →
  ∀ result, cp_handlersLoop (λ (h : HandlePool) st, h (fst st) (snd st)) (drop 2 (poolHandlers now ns workload)) result [] (pool, s) = ((zeroResult, []), st') →
  ∃ s2 pods, (pc_ListValidatorPods ns (gp_Name pool) s2 = Ok pods ∨
    pods = [] ∧ ∃ e, pc_ListValidatorPods ns (gp_Name pool) s2 = Err e ∧ pc_IsNotFound e = true) ∧ converged (readyNodes pods) pool s st'.2.
Proof.
  intros Hw Hpn Hsize result Hr. unfold poolHandlers in Hr. cbn [drop] in Hr.
  apply cp_loop_quiet in Hr as [(r1 & [p1 s1] & result1 & H1 & Hr)|(r1 & e & H1 & Hstop)]; simpl in H1.
  2: { destruct st'. apply selection_genuine in H1. by rewrite (H1 e eq_refl) in Hstop. }
  pose proof (selection_ok _ _ _ _ _ Hpn Hsize H1) as Hsel. destruct (sl_capacity _ _ _ _ Hsel) as (perNode & _ & ->).
  apply cp_loop_quiet in Hr as [(r2 & [p2 s2] & result2 & H2 & Hr)|(r2 & e & H2 & Hstop)]; simpl in H2.
  2: { destruct st'. apply nodemark_genuine in H2. by rewrite (H2 e eq_refl) in Hstop. }
  apply nodemark_ok in H2 as (_ & -> & Hmark); [|by apply named_status| |rewrite poolValue by (by apply named_status); apply Hpn].
  2: { assert (size (devices s1) ≤ size (devices s))%nat; [|lia]. rewrite <- !size_dom. apply subseteq_size. intros name.
       rewrite !elem_of_dom. intros [d1 Hd1]. destruct (devices s !! name) eqn:Hd; [done|]. apply (sl_missing _ _ _ _ Hsel) in Hd. congruence. }
  apply cp_loop_quiet in Hr as [(r3 & [p3 s3] & result3 & H3 & Hr)|(r3 & e & H3 & Hstop)]; simpl in H3.
  2: { destruct st'. apply Hw in H3 as (_ & _ & Hg). by rewrite (Hg e eq_refl) in Hstop. }
  apply Hw in H3 as (Hview & (st & ->) & _).
  apply cp_loop_quiet in Hr as [(r4 & [p4 s4] & result4 & H4 & Hr)|(r4 & e & H4 & Hstop)]; simpl in H4.
  2: { destruct st'. apply validation_genuine in H4. by rewrite (H4 e eq_refl) in Hstop. }
  apply validation_ok in H4 as (_ & -> & pods & Hpods & Hval); [|by apply named_status, named_status].
  injection Hr as _ <-. exists s3, pods. split; [done|]. simpl. apply marked_status in Hmark. apply validated_status, validated_status in Hval.
  by eapply stages_converge, Hval; [| |eapply marked_view].
Qed.

End Spec.
