(* ===== verification/PodWebhook.v ===== *)
(** * Pods that ask for a pool

    pool/gpupool/internal/webhook/pod_*.go: the mutating webhook ties a pod to
    the nodes of the pool it asks for, the validating one checks the pool; and
    pool/usage: the controllers that count what the pods of a pool use.  A
    quantity is its value. *)

From S2P Require Import Prelude GoLib Reconciler GpuApi PoolApi PoolAdmission CpReconciler PoolSync.

(** ** Pods *)

Record Container := mkContainer { ct_Limits : gmap string Z; ct_Requests : gmap string Z }.
Record NodeSelectorRequirement := mkNsRequirement { nsr_Key : string; nsr_Operator : string; nsr_Values : list string }.
Record NodeSelectorTerm := mkNsTerm { nst_MatchExpressions : list NodeSelectorRequirement; nst_MatchFields : list NodeSelectorRequirement }.
Record SpreadConstraint := mkSpread {
  tsc_MaxSkew : Z;
  tsc_TopologyKey : string;
  tsc_WhenUnsatisfiable : string;
  tsc_LabelSelector : option LabelSelector;
}.
(** [wp_Required] are the terms of the required node affinity, when it is set. *)
Record WorkPod := mkWorkPod {
  wp_Namespace : string;
  wp_Labels : gmap string string;
  wp_Deleting : bool;
  wp_Containers : list Container;
  wp_InitContainers : list Container;
  wp_NodeName : string;
  wp_NodeSelector : gmap string string;
  wp_Tolerations : list Toleration;
  wp_Required : option (list NodeSelectorTerm);
  wp_Spread : list SpreadConstraint;
  wp_Phase : string;
}.

Definition set_wp_Labels (l : gmap string string) (p : WorkPod) : WorkPod :=
  mkWorkPod (wp_Namespace p) l (wp_Deleting p) (wp_Containers p) (wp_InitContainers p) (wp_NodeName p) (wp_NodeSelector p) (wp_Tolerations p)
    (wp_Required p) (wp_Spread p) (wp_Phase p).
Definition set_wp_NodeSelector (s : gmap string string) (p : WorkPod) : WorkPod :=
  mkWorkPod (wp_Namespace p) (wp_Labels p) (wp_Deleting p) (wp_Containers p) (wp_InitContainers p) (wp_NodeName p) s (wp_Tolerations p)
    (wp_Required p) (wp_Spread p) (wp_Phase p).
Definition set_wp_Tolerations (t : list Toleration) (p : WorkPod) : WorkPod :=
  mkWorkPod (wp_Namespace p) (wp_Labels p) (wp_Deleting p) (wp_Containers p) (wp_InitContainers p) (wp_NodeName p) (wp_NodeSelector p) t
    (wp_Required p) (wp_Spread p) (wp_Phase p).
Definition set_wp_Required (r : option (list NodeSelectorTerm)) (p : WorkPod) : WorkPod :=
  mkWorkPod (wp_Namespace p) (wp_Labels p) (wp_Deleting p) (wp_Containers p) (wp_InitContainers p) (wp_NodeName p) (wp_NodeSelector p) (wp_Tolerations p)
    r (wp_Spread p) (wp_Phase p).
Definition set_wp_Spread (s : list SpreadConstraint) (p : WorkPod) : WorkPod :=
  mkWorkPod (wp_Namespace p) (wp_Labels p) (wp_Deleting p) (wp_Containers p) (wp_InitContainers p) (wp_NodeName p) (wp_NodeSelector p) (wp_Tolerations p)
    (wp_Required p) s (wp_Phase p).

(** [corev1.Toleration.ToleratesTaint] of Kubernetes: an empty operator is Equal. *)
Definition ToleratesTaint (t : Toleration) (taint : Taint) : bool :=
  if negb (str_eqb (tol_Effect t) "") && negb (str_eqb (tol_Effect t) (tnt_Effect taint)) then false else
  if negb (str_eqb (tol_Key t) "") && negb (str_eqb (tol_Key t) (tnt_Key taint)) then false else
  if str_eqb (tol_Operator t) "" || str_eqb (tol_Operator t) TolerationOpEqual then str_eqb (tol_Value t) (tnt_Value taint) else
  str_eqb (tol_Operator t) TolerationOpExists.

(** What of the module's configuration the webhook and the counters read. *)
Record ModuleSettings := mkModuleSettings {
  ms_Enabled : bool;
  ms_CustomTolerationKeys : list string;
  ms_DefaultStrategy : string;
  ms_TopologyKey : string;
}.

(** ** pod_webhook.go, pod_context.go, pod_pools.go, pod_resources.go *)

Definition localPoolResourcePrefix : string := "gpu.deckhouse.io/".
Definition clusterPoolResourcePrefix : string := "cluster.gpu.deckhouse.io/".
Definition gpuEnabledLabelKey : string := "gpu.deckhouse.io/enabled".

Record poolRequest := mkPoolRequest { pr_name : string; pr_keyPrefix : string }.
#[export] Instance poolRequest_eq_dec : EqDecision poolRequest.
Proof. solve_decision. Defined.

Definition effectiveNamespace (reqNamespace : option string) (explicit : string) : string :=
  if negb (str_eqb (TrimSpace explicit) "") then explicit else default "" reqNamespace.

(** The pool a resource name asks for. *)
Definition poolOfResource (name : string) : option poolRequest :=
  if HasPrefix name localPoolResourcePrefix then
    let pool := TrimPrefix name localPoolResourcePrefix in
    if str_eqb pool "" then None else Some (mkPoolRequest pool localPoolResourcePrefix)
  else if HasPrefix name clusterPoolResourcePrefix then
    let pool := TrimPrefix name clusterPoolResourcePrefix in
    if str_eqb pool "" then None else Some (mkPoolRequest pool clusterPoolResourcePrefix)
  else None.

Definition poolLabelKey (pool : poolRequest) : string := pr_keyPrefix pool +:+ pr_name pool.

Definition checkResources (resources : gmap string Z) (pools : gmap string poolRequest) : gmap string poolRequest :=
  foldl (λ pools '(name, _), match poolOfResource name with Some p => <[poolLabelKey p := p]> pools | None => pools end) pools (map_to_list resources).

Definition collectPools (pod : WorkPod) : gmap string poolRequest :=
  foldl (λ pools c, checkResources (ct_Requests c) (checkResources (ct_Limits c) pools)) ∅ (wp_Containers pod ++ wp_InitContainers pod).

Definition selectSinglePool (pod : WorkPod) : res (option poolRequest) :=
  match (map_to_list (collectPools pod)).*2 with
  | [] => Ok None
  | [p] => Ok (Some p)
  | ps => Err (Errorf "multiple GPU pools requested: %v" (sort_Strings (poolLabelKey <$> ps)))
  end.

Definition resourceValue (name : string) (c : Container) : Z :=
  match ct_Limits c !! name with
  | Some q => q
  | None => default 0 (ct_Requests c !! name)
  end.

(** [requestedResources] of the webhook and [RequestedResources] of pool/usage. *)
Definition RequestedResources (pod : WorkPod) (resource : string) : Z :=
  let sumContainers := foldl (λ sum c, wrap64 (sum + resourceValue resource c)) 0 (wp_Containers pod) in
  let maxInit := foldl (λ m c, let v := resourceValue resource c in if m <? v then v else m) 0 (wp_InitContainers pod) in
  if maxInit <? sumContainers then sumContainers else maxInit.
Definition requestedResources (pod : WorkPod) (pool : poolRequest) : Z := RequestedResources pod (poolLabelKey pool).

(** ** pod_mutations.go *)

Definition ensurePoolNodeSelector (poolKey pool : string) (pod : WorkPod) : res WorkPod :=
  match wp_NodeSelector pod !! poolKey with
  | Some existing =>
      if negb (str_eqb existing pool) then Err (Errorf "nodeSelector %q already set to %q" [poolKey; existing])
      else Ok (set_wp_NodeSelector (<[poolKey := pool]> (wp_NodeSelector pod)) pod)
  | None => Ok (set_wp_NodeSelector (<[poolKey := pool]> (wp_NodeSelector pod)) pod)
  end.

Definition ensureLabel (key value : string) (labels : gmap string string) : res (gmap string string) :=
  match labels !! key with
  | Some existing =>
      if negb (str_eqb existing value) then Err (Errorf "label %q already set to %q" [key; existing]) else Ok (<[key := value]> labels)
  | None => Ok (<[key := value]> labels)
  end.
Definition scopeOf (pool : poolRequest) : string :=
  if str_eqb (pr_keyPrefix pool) clusterPoolResourcePrefix then PoolScopeCluster else PoolScopeNamespaced.
Definition ensurePoolUsageLabels (pool : poolRequest) (pod : WorkPod) : res WorkPod :=
  labels ← ensureLabel PoolNameKey (pr_name pool) (wp_Labels pod);
  labels ← ensureLabel PoolScopeKey (scopeOf pool) labels;
  Ok (set_wp_Labels labels pod).

(** The loop of [ensurePoolToleration]: the tolerations, changed in place at the
    first one of the key; [None] when there is none. *)
Fixpoint fixToleration (poolKey pool : string) (tols : list Toleration) : res (option (list Toleration)) :=
  match tols with
  | [] => Ok None
  | tol :: rest =>
      if negb (str_eqb (tol_Key tol) poolKey) then
        match fixToleration poolKey pool rest with
        | Err e => Err e
        | Ok None => Ok None
        | Ok (Some rest') => Ok (Some (tol :: rest'))
        end
      else if str_eqb (tol_Operator tol) TolerationOpExists then Ok (Some tols) else
      let op := if str_eqb (tol_Operator tol) "" then TolerationOpEqual else tol_Operator tol in
      let effect := if str_eqb (tol_Effect tol) "" then TaintEffectNoSchedule else tol_Effect tol in
      if str_eqb op TolerationOpEqual then
        if str_eqb (tol_Value tol) "" then Ok (Some (mkToleration (tol_Key tol) op pool effect :: rest)) else
        if str_eqb (tol_Value tol) pool && str_eqb effect TaintEffectNoSchedule then Ok (Some (mkToleration (tol_Key tol) op (tol_Value tol) effect :: rest)) else
        if negb (str_eqb effect TaintEffectNoSchedule) then Err (Errorf "toleration %q has unsupported effect %q" [poolKey; effect]) else
        Err (Errorf "toleration %q already set to %q" [poolKey; tol_Value tol])
      else Err (Errorf "toleration %q has unsupported operator %q" [poolKey; op])
  end.
Definition ensurePoolToleration (poolKey pool : string) (pod : WorkPod) : res WorkPod :=
  fixed ← fixToleration poolKey pool (wp_Tolerations pod);
  Ok match fixed with
     | Some tols => set_wp_Tolerations tols pod
     | None => set_wp_Tolerations (wp_Tolerations pod ++ [mkToleration poolKey TolerationOpEqual pool TaintEffectNoSchedule]) pod
     end.

Definition NodeSelectorOpIn : string := "In".

(** One term: the first expression of the key decides; none is added. *)
Definition fixTerm (poolKey pool : string) (term : NodeSelectorTerm) : res NodeSelectorTerm :=
  match List.find (λ me, str_eqb (nsr_Key me) poolKey) (nst_MatchExpressions term) with
  | None => Ok (mkNsTerm (nst_MatchExpressions term ++ [mkNsRequirement poolKey NodeSelectorOpIn [pool]]) (nst_MatchFields term))
  | Some me =>
      if str_eqb (nsr_Operator me) NodeSelectorOpIn && existsb (λ v, str_eqb v pool) (nsr_Values me) then Ok term
      else Err (Errorf "nodeAffinity already restricts %q differently" [poolKey])
  end.
Fixpoint fixTerms (poolKey pool : string) (terms : list NodeSelectorTerm) : res (list NodeSelectorTerm) :=
  match terms with
  | [] => Ok []
  | t :: rest => t' ← fixTerm poolKey pool t; rest' ← fixTerms poolKey pool rest; Ok (t' :: rest')
  end.
Definition ensurePoolAffinity (poolKey pool : string) (pod : WorkPod) : res WorkPod :=
  match wp_Required pod with
  | None => Ok (set_wp_Required (Some [mkNsTerm [mkNsRequirement poolKey NodeSelectorOpIn [pool]] []]) pod)
  | Some terms => terms' ← fixTerms poolKey pool terms; Ok (set_wp_Required (Some terms') pod)
  end.

Definition hasToleration (tols : list Toleration) (key : string) : bool := existsb (λ t, str_eqb (tol_Key t) key) tols.
Definition ensureCustomTolerations (store : option ModuleSettings) (pod : WorkPod) : WorkPod :=
  match store with
  | None => pod
  | Some st =>
      set_wp_Tolerations (foldl (λ tols key, if hasToleration tols key then tols else tols ++ [mkToleration key TolerationOpExists "" ""])
                            (wp_Tolerations pod) (ms_CustomTolerationKeys st)) pod
  end.

Definition DoNotSchedule : string := "DoNotSchedule".

(** The value a constraint of the topology sets for the key, if any does. *)
Definition spreadValue (poolKey topologyKey : string) (t : SpreadConstraint) : option string :=
  if negb (str_eqb (tsc_TopologyKey t) topologyKey) then None else
  match tsc_LabelSelector t with None => None | Some sel => ls_MatchLabels sel !! poolKey end.
Definition ensureSpreadConstraint (poolKey pool topologyKey : string) (pod : WorkPod) : res WorkPod :=
  if str_eqb topologyKey "" then Ok pod else
  match omap (spreadValue poolKey topologyKey) (wp_Spread pod) with
  | val :: _ => if str_eqb val pool then Ok pod else Err (Errorf "topologySpreadConstraint already sets %q=%q" [poolKey; val])
  | [] =>
      Ok (set_wp_Spread (wp_Spread pod ++ [mkSpread 1 topologyKey DoNotSchedule (Some (mkLabelSelector {[poolKey := pool]} []))]) pod)
  end.

(** ** pod_taints.go *)

Definition toleratesTaint1 (taint : Taint) (t : Toleration) : bool :=
  if negb (str_eqb (tol_Key t) (tnt_Key taint)) then false else
  if negb (str_eqb (tol_Effect t) "") && negb (str_eqb (tnt_Effect taint) "") && negb (str_eqb (tol_Effect t) (tnt_Effect taint)) then false else
  if str_eqb (tol_Operator t) TolerationOpExists || str_eqb (tol_Operator t) "" then true else
  str_eqb (tol_Operator t) TolerationOpEqual && (str_eqb (tol_Value t) "" || str_eqb (tol_Value t) (tnt_Value taint)).
Definition toleratesTaint (tolerations : list Toleration) (taint : Taint) : bool := existsb (toleratesTaint1 taint) tolerations.

Definition taintKey (t : Taint) : string := tnt_Key t +:+ "|" +:+ tnt_Value t +:+ "|" +:+ tnt_Effect t.
Definition seenTaints (nodes : list Node) : gmap string Taint :=
  foldl (λ seen t, <[taintKey t := t]> seen) ∅ (concat (node_Taints <$> nodes)).

Definition tolerationFor (taint : Taint) : Toleration :=
  mkToleration (tnt_Key taint) (if str_eqb (tnt_Value taint) "" then TolerationOpExists else TolerationOpEqual) (tnt_Value taint) (tnt_Effect taint).
Definition addTolerations (taints : list Taint) (tols : list Toleration) : list Toleration :=
  foldl (λ tols taint, if toleratesTaint tols taint then tols else tols ++ [tolerationFor taint]) tols taints.

(** ** The webhooks *)

Class PodReader (S : Type) := {
  (** the labels of a namespace *)
  pr_GetNamespace : string → S → res (gmap string string);
  (** the pods with two labels, in a namespace or, with [None], in all *)
  pr_ListPods : option string → string → string → S → res (list WorkPod);
  (** [Status().Patch] of the capacity of a pool or a cluster-wide pool *)
  pr_PatchCapacity : GPUPool → GPUPoolCapacityStatus → S → option error * S;
}.

Section Webhook.
Context {S : Type} `{PoolClient S, PodReader S, ApiErrors, MetaConditions, KeyOrder}.

Definition requireGPUEnabledNamespace (c : option S) (namespace : string) : option error :=
  match c with
  | None => None
  | Some c =>
      if str_eqb (TrimSpace namespace) "" then Some (Errorf "pod namespace is empty" []) else
      match fetch (pr_GetNamespace namespace c) with
      | Err e => Some (Wrapf "get namespace %q: %w" [namespace] e)
      | Ok None => Some (Errorf "namespace %q not found" [namespace])
      | Ok (Some labels) =>
          if negb (str_eqb (label labels gpuEnabledLabelKey) "true")
          then Some (Errorf "namespace %q is not enabled for GPU (label %s=true is required)" [namespace; gpuEnabledLabelKey]) else None
      end
  end.

Definition resolvePoolByRequest (c : option S) (req : poolRequest) (namespace : string) : res GPUPool :=
  match c with
  | None => Err (Errorf "GPUPool %q: webhook client is not configured" [pr_name req])
  | Some c =>
      if str_eqb (pr_keyPrefix req) clusterPoolResourcePrefix then
        match fetch (pc_GetClusterPool (pr_name req) c) with
        | Err e => Err e
        | Ok None => Err (Errorf "ClusterGPUPool %q not found" [pr_name req])
        | Ok (Some pool) => Ok pool
        end
      else if str_eqb (pr_keyPrefix req) localPoolResourcePrefix then
        if str_eqb (TrimSpace namespace) "" then Err (Errorf "GPUPool %q: pod namespace is empty" [pr_name req]) else
        match fetch (pc_GetPool namespace (pr_name req) c) with
        | Err e => Err e
        | Ok None => Err (Errorf "GPUPool %q not found in namespace %q" [pr_name req; namespace])
        | Ok (Some pool) => Ok pool
        end
      else Err (Errorf "unknown pool resource prefix %q" [pr_keyPrefix req])
  end.

Definition collectPoolNodeTaints (pool : GPUPool) (c : S) : res (list Taint) :=
  let prefix := if str_eqb (gp_Namespace pool) "" then clusterPoolResourcePrefix else localPoolResourcePrefix in
  match pc_ListNodesByLabel (prefix +:+ gp_Name pool) (gp_Name pool) c with
  | Err e => Err (Wrapf "list pool nodes for tolerations: %w" [] e)
  | Ok nodes => let seen := seenTaints nodes in Ok (omap (seen !!.) (range_keys 3 (dom seen)))
  end.

Definition ensureNodeTolerations (c : option S) (pool : option GPUPool) (pod : WorkPod) : res WorkPod :=
  match c, pool with
  | Some c, Some pool =>
      taints ← collectPoolNodeTaints pool c;
      Ok (set_wp_Tolerations (addTolerations taints (wp_Tolerations pod)) pod)
  | _, _ => Ok pod
  end.

Definition topologyLabelPresent (c : S) (poolKey poolName topologyKey : string) : res bool :=
  if str_eqb topologyKey "" then Ok false else
  match pc_ListNodesByLabel poolKey poolName c with
  | Err e => Err (Wrapf "list pool nodes for topology spread: %w" [] e)
  | Ok nodes => if list_len0 nodes then Ok true else Ok (existsb (λ n, bool_decide (is_Some (node_Labels n !! topologyKey))) nodes)
  end.

Definition poolTaintsEnabled (pool : option GPUPool) : bool :=
  match pool with None => true | Some pool => default true (sch_TaintsEnabled (gps_Scheduling (gp_Spec pool))) end.
Definition poolScheduling (store : option ModuleSettings) (pool : option GPUPool) : string * string :=
  let '(strategy, topologyKey) :=
    match pool with Some p => (sch_Strategy (gps_Scheduling (gp_Spec p)), sch_TopologyKey (gps_Scheduling (gp_Spec p))) | None => ("", "") end in
  match store with
  | Some st => if str_eqb strategy "" then (ms_DefaultStrategy st, ms_TopologyKey st) else (strategy, topologyKey)
  | None => (strategy, topologyKey)
  end.

(** The last part of [Default]: spreading the pods. *)
Definition spreadPod (c : option S) (store : option ModuleSettings) (pool : option GPUPool) (poolKey name : string) (pod : WorkPod) : res WorkPod :=
  let '(strategy, topologyKey) := poolScheduling store pool in
  if EqualFold strategy GPUPoolSchedulingSpread then
    match c with
    | Some c => ok ← topologyLabelPresent c poolKey name topologyKey; if (ok : bool) then ensureSpreadConstraint poolKey name topologyKey pod else Ok pod
    | None => ensureSpreadConstraint poolKey name topologyKey pod
    end
  else Ok pod.

(** What [Default] does to a pod that asks for the pool. *)
Definition bindPod (c : option S) (store : option ModuleSettings) (pool : option GPUPool) (ref : poolRequest) (pod : WorkPod) : res WorkPod :=
  let poolKey := poolLabelKey ref in
  pod ← ensurePoolUsageLabels ref pod;
  pod ← ensurePoolNodeSelector poolKey (pr_name ref) pod;
  pod ← (if poolTaintsEnabled pool then
           pod ← ensurePoolToleration poolKey (pr_name ref) pod;
           pod ← ensurePoolAffinity poolKey (pr_name ref) pod;
           ensureNodeTolerations c pool pod
         else Ok pod);
  pod ← spreadPod c store pool poolKey (pr_name ref) pod;
  Ok (ensureCustomTolerations store pod).

Definition PodDefault (c : option S) (store : option ModuleSettings) (reqNamespace : option string) (obj : AdmObject WorkPod) : res WorkPod :=
  match obj with
  | OtherType T => Err (Errorf "expected a Pod but got a %T" [T])
  | Expected pod =>
      let namespace := effectiveNamespace reqNamespace (wp_Namespace pod) in
      ref ← selectSinglePool pod;
      match ref with
      | None => Ok pod
      | Some ref =>
          match requireGPUEnabledNamespace c namespace with
          | Some e => Err e
          | None =>
              pool ← match c with None => Ok None | Some _ => Some <$> resolvePoolByRequest c ref namespace end;
              bindPod c store pool ref pod
          end
      end
  end.

(** pod_validator_webhook.go *)
Definition PodValidate (c : option S) (reqNamespace : option string) (obj : AdmObject WorkPod) : option error :=
  match obj with
  | OtherType T => Some (Errorf "expected a Pod but got a %T" [T])
  | Expected pod =>
      let namespace := effectiveNamespace reqNamespace (wp_Namespace pod) in
      match selectSinglePool pod with
      | Err e => Some e
      | Ok None => None
      | Ok (Some ref) =>
          match requireGPUEnabledNamespace c namespace with
          | Some e => Some e
          | None =>
              let requested := requestedResources pod ref in
              if requested <=? 0 then None else
              match resolvePoolByRequest c ref namespace with
              | Err e => Some e
              | Ok pool =>
                  match FindStatusCondition (gpst_Conditions (gp_Status pool)) conditionConfigured with
                  | None => None
                  | Some cond =>
                      if str_eqb (cond_Status cond) ConditionFalse
                      then Some (Errorf "GPU pool %s is not configured: %s" [poolLabelKey ref; cond_Message cond]) else
                      let total := gcap_Total (gpst_Capacity (gp_Status pool)) in
                      if str_eqb (cond_Status cond) ConditionTrue && (0 <? total) && (total <? requested)
                      then Some (Errorf "requested %d units of %s but pool capacity is %d" [Itoa requested; poolLabelKey ref; Itoa total]) else None
                  end
              end
          end
      end
  end.

(** ** pool/usage *)

Definition PodSucceeded : string := "Succeeded".
Definition PodFailed : string := "Failed".
Definition PodCountsTowardsUsage (pod : WorkPod) : bool :=
  if str_eqb (TrimSpace (wp_NodeName pod)) "" then false else
  negb (str_eqb (wp_Phase pod) PodSucceeded || str_eqb (wp_Phase pod) PodFailed).

Definition ClampInt64ToInt32 (value : Z) : Z :=
  if value <? 0 then 0 else if 2 ^ 31 - 1 <? value then 2 ^ 31 - 1 else value.

Definition usedBy (resource : string) (pods : list WorkPod) : Z :=
  ClampInt64ToInt32 (foldl (λ used pod, if PodCountsTowardsUsage pod then wrap64 (used + RequestedResources pod resource) else used) 0 pods).

(** [Handle] of gpupool_usage.go and clustergpupool_usage.go *)
Definition poolUsage (pool : GPUPool) (s : S) : res Z :=
  usedBy (localPoolResourcePrefix +:+ gp_Name pool) <$> pr_ListPods (Some (gp_Namespace pool)) (gp_Name pool) PoolScopeNamespaced s.
Definition clusterPoolUsage (pool : GPUPool) (s : S) : res Z :=
  usedBy (clusterPoolResourcePrefix +:+ gp_Name pool) <$> pr_ListPods None (gp_Name pool) PoolScopeCluster s.

(** [patchStatus]: int32 arithmetic, nothing is written when nothing changes. *)
Definition withUsage (used : Z) (c : GPUPoolCapacityStatus) : GPUPoolCapacityStatus :=
  let available := wrap32 (gcap_Total c - used) in
  mkCapacityStatus (gcap_Total c) (if available <? 0 then 0 else available) used.
Definition patchStatus (get : S → res GPUPool) (used : Z) : S → option error * S :=
  RetryOnConflict (λ s,
    match fetch (get s) with
    | Err e => (Some e, s)
    | Ok None => (None, s)
    | Ok (Some current) =>
        let c := gpst_Capacity (gp_Status current) in
        let c' := withUsage used c in
        if (gcap_Used c =? gcap_Used c') && (gcap_Available c =? gcap_Available c') then (None, s) else pr_PatchCapacity current c' s
    end).

(** [Reconcile]: the chain of one handler that sets the usage, and the update
    that writes it when it was set. *)
Definition usageChain (usage : S → res Z) (get : S → res GPUPool) : BaseReconciler unit (option Z * S) :=
  mkBaseReconciler [()]
    (Some (λ st, let '(used, s) := st in
       match used with
       | None => (None, (used, s))
       | Some u => let '(err, s') := patchStatus get u s in (err, (used, s'))
       end))
    (Some (λ _ st, let '(used, s) := st in
       match usage s with Err e => ((zeroResult, Some e), (used, s)) | Ok u => ((zeroResult, None), (Some u, s)) end))
    (λ _, None).
Definition reconcileUsage (store : option ModuleSettings) (get : S → res GPUPool) (usage : GPUPool → S → res Z) (s : S) : (Result * list error) * S :=
  if match store with Some st => negb (ms_Enabled st) | None => false end then ((zeroResult, []), s) else
  match fetch (get s) with
  | Err e => ((zeroResult, [e]), s)
  | Ok None => ((zeroResult, []), s)
  | Ok (Some pool) => let '(out, (_, s')) := cp_Reconcile (usageChain (usage pool) get) (None, s) in (out, s')
  end.
Definition GPUPoolUsageReconcile (store : option ModuleSettings) (namespace name : string) (s : S) : (Result * list error) * S :=
  reconcileUsage store (pc_GetPool namespace name) poolUsage s.
Definition ClusterGPUPoolUsageReconcile (store : option ModuleSettings) (name : string) (s : S) : (Result * list error) * S :=
  reconcileUsage store (pc_GetClusterPool name) clusterPoolUsage s.
End Webhook.

(** *** pool/usage/internal/watcher *)

Definition usagePoolUpdate (old new : option GPUPool) : bool :=
  match old, new with
  | Some o, Some n =>
      negb (gp_Generation o =? gp_Generation n) ||
      negb (gcap_Total (gpst_Capacity (gp_Status o)) =? gcap_Total (gpst_Capacity (gp_Status n)))
  | _, _ => true
  end.

Definition isGPUWorkloadPod (scope : string) (pod : WorkPod) : bool :=
  if str_eqb (TrimSpace (label (wp_Labels pod) PoolNameKey)) "" then false else str_eqb (label (wp_Labels pod) PoolScopeKey) scope.
Definition workloadPodUpdate (scope : string) (old new : option WorkPod) : bool :=
  match old, new with
  | Some o, Some n =>
      if negb (isGPUWorkloadPod scope n) then false else
      if negb (isGPUWorkloadPod scope o) then true else
      if negb (str_eqb (wp_NodeName o) (wp_NodeName n)) then true else
      if negb (str_eqb (wp_Phase o) (wp_Phase n)) then true else
      negb (Bool.eqb (wp_Deleting o) (wp_Deleting n))
  | _, _ => true
  end.

Definition MapPodToNamespacedPool (pod : WorkPod) : list (string * string) :=
  if negb (str_eqb (label (wp_Labels pod) PoolScopeKey) PoolScopeNamespaced) then [] else
  let poolName := TrimSpace (label (wp_Labels pod) PoolNameKey) in
  if str_eqb poolName "" then [] else [(wp_Namespace pod, poolName)].
Definition MapPodToClusterPool (pod : WorkPod) : list (string * string) :=
  if negb (str_eqb (label (wp_Labels pod) PoolScopeKey) PoolScopeCluster) then [] else
  let poolName := TrimSpace (label (wp_Labels pod) PoolNameKey) in
  if str_eqb poolName "" then [] else [("", poolName)].
