(* ===== verification/PodWebhookSpec.v ===== *)
(** * What the webhook makes of a pod, and what is counted

    A pod the webhook has seen carries the labels, node selector and
    tolerations of the pool it asks for, and is left alone the next time; with
    the nodes marked by the pool controller it can only run where the pool has
    devices; and the usage of a pool is the sum over the pods that ask for it. *)

From S2P Require Import Prelude GoLib Reconciler GpuApi PoolApi PoolAdmission CpReconciler PoolSync PoolSyncSpec.
From S2P Require Import PodWebhook.

From Stdlib Require Import Ascii.

(** ** The pool a pod asks for *)

Lemma poolOfResource_label name p : poolOfResource name = Some p → poolLabelKey p = name ∧ pr_name p ≠ "" ∧
  (pr_keyPrefix p = localPoolResourcePrefix ∨ pr_keyPrefix p = clusterPoolResourcePrefix).
Proof.
  unfold poolOfResource, poolLabelKey, TrimPrefix.
  destruct (HasPrefix name localPoolResourcePrefix) eqn:E1; [|destruct (HasPrefix name clusterPoolResourcePrefix) eqn:E2; [|done]];
    (destruct (str_eqb _ "") eqn:E3; [done|]); intros [= <-]; cbn [pr_name pr_keyPrefix]; go_bool.
  - split; [|split; [done|by left]]. symmetry. by apply HasPrefix_true.
  - split; [|split; [done|by right]]. symmetry. by apply HasPrefix_true.
Qed.

Lemma poolOfResource_of prefix name : prefix = localPoolResourcePrefix ∨ prefix = clusterPoolResourcePrefix → name ≠ "" →
  poolOfResource (prefix +:+ name) = Some (mkPoolRequest name prefix).
Proof.
  intros [-> | ->] Hn; unfold poolOfResource.
  - rewrite HasPrefix_app, TrimPrefix_app. by rewrite (proj2 (str_eqb_false _ _) Hn).
  - replace (HasPrefix (clusterPoolResourcePrefix +:+ name) localPoolResourcePrefix) with false by done.
    rewrite HasPrefix_app, TrimPrefix_app. by rewrite (proj2 (str_eqb_false _ _) Hn).
Qed.

(** The resources of all containers. *)
Definition names_resource (pod : WorkPod) (name : string) : Prop :=
  ∃ c, c ∈ wp_Containers pod ++ wp_InitContainers pod ∧ (is_Some (ct_Limits c !! name) ∨ is_Some (ct_Requests c !! name)).

Lemma names_resource_ext pod pod' name : wp_Containers pod = wp_Containers pod' → wp_InitContainers pod = wp_InitContainers pod' →
  names_resource pod name → names_resource pod' name.
Proof. unfold names_resource. by intros -> ->. Qed.

Definition keyed (pools : gmap string poolRequest) : Prop := ∀ k p, pools !! k = Some p → poolOfResource k = Some p.

Lemma checkResources_lookup resources pools k p : keyed pools →
  checkResources resources pools !! k = Some p ↔ pools !! k = Some p ∨ (is_Some (resources !! k) ∧ poolOfResource k = Some p).
Proof.
  intros Hk. unfold checkResources.
  assert (∀ l : list (string * Z), foldl (λ pools '(name, _), match poolOfResource name with Some p => <[poolLabelKey p := p]> pools | None => pools end) pools l !! k = Some p
    ↔ pools !! k = Some p ∨ (k ∈ l.*1 ∧ poolOfResource k = Some p)) as Hgen.
  { intros l. induction l as [|[name v] l IH] using rev_ind; [simpl; split; [by left|intros [?|[Hn _]]; [done|by apply not_elem_of_nil in Hn]]|].
    rewrite foldl_app, fmap_app, elem_of_app. simpl. rewrite list_elem_of_singleton. destruct (poolOfResource name) as [q|] eqn:Hq.
    - destruct (poolOfResource_label _ _ Hq) as (Hl & _). rewrite Hl, lookup_insert. case_decide as Hd.
      + subst k. split; [intros [= <-]; right; split; [by right|done]|].
        intros [Hp|[_ Hp]]; [apply Hk in Hp|]; congruence.
      + rewrite IH. split; [intros [?|[??]]; auto|intros [?|[[?|?] ?]]; auto; congruence].
    - rewrite IH. split; [intros [?|[??]]; auto|intros [?|[[?|?] ?]]; auto; congruence]. }
  rewrite Hgen. f_equiv. f_equiv. rewrite list_elem_of_fmap. split.
  - intros ([name v] & -> & Hin). apply elem_of_map_to_list in Hin. eauto.
  - intros [v Hv]. exists (k, v). by rewrite elem_of_map_to_list.
Qed.

Lemma checkResources_keyed resources pools : keyed pools → keyed (checkResources resources pools).
Proof. intros Hk k p. rewrite checkResources_lookup by done. intros [?|[_ ?]]; [by apply Hk|done]. Qed.

Lemma collectPools_lookup pod k p : collectPools pod !! k = Some p ↔ names_resource pod k ∧ poolOfResource k = Some p.
Proof.
  unfold collectPools, names_resource.
  assert (∀ l, let m := foldl (λ pools c, checkResources (ct_Requests c) (checkResources (ct_Limits c) pools)) ∅ l in
    keyed m ∧ (m !! k = Some p ↔ (∃ c, c ∈ l ∧ (is_Some (ct_Limits c !! k) ∨ is_Some (ct_Requests c !! k))) ∧ poolOfResource k = Some p)) as Hgen;
    [|apply Hgen].
  intros l. induction l as [|c l IH] using rev_ind.
  - simpl. split; [intros k0 p0 Hn; by rewrite (lookup_empty (M := gmap string)) in Hn|]. rewrite lookup_empty. split; [done|]. intros [(c & Hc & _) _]. by apply not_elem_of_nil in Hc.
  - rewrite foldl_app. simpl. destruct IH as [Hk IH]. split; [by do 2 apply checkResources_keyed|].
    rewrite checkResources_lookup by by apply checkResources_keyed. rewrite checkResources_lookup, IH by done.
    setoid_rewrite elem_of_app. setoid_rewrite list_elem_of_singleton. split.
    + intros [[[(d & Hd & Hr) Hp]|[Hr Hp]]|[Hr Hp]]; split; eauto 6.
    + intros [(d & [Hd|Hd] & Hr) Hp]; [left; left; eauto|subst d]. destruct Hr; auto.
Qed.

Definition asks_for (pod : WorkPod) (ref : poolRequest) : Prop :=
  names_resource pod (poolLabelKey ref) ∧ poolOfResource (poolLabelKey ref) = Some ref.

(** The webhook takes a pod for one of the pool [ref] exactly when it names the
    resource of that pool and of no other. *)
Lemma selectSinglePool_some pod ref : selectSinglePool pod = Ok (Some ref) ↔ asks_for pod ref ∧ ∀ ref', asks_for pod ref' → ref' = ref.
Proof.
  assert (∀ k p, collectPools pod !! k = Some p ↔ asks_for pod p ∧ k = poolLabelKey p) as Hl.
  { intros k p. rewrite collectPools_lookup. split.
    - intros [Hn Hp]. destruct (poolOfResource_label _ _ Hp) as [<- _]. done.
    - intros [[? ?] ->]. done. }
  unfold selectSinglePool. destruct (map_to_list (collectPools pod)) as [|[k p] [|[k' p'] l]] eqn:Hm.
  - simpl. split; [done|]. intros [Ha _]. apply map_to_list_empty_iff in Hm.
    assert (collectPools pod !! poolLabelKey ref = Some ref) as Hr by by apply Hl. by rewrite Hm, lookup_empty in Hr.
  - simpl. assert (collectPools pod = {[k := p]}) as Hc.
    { rewrite <- (list_to_map_to_list (collectPools pod)), Hm. done. }
    assert (∀ q, asks_for pod q → q = p) as Hone.
    { intros q Hq. assert (collectPools pod !! poolLabelKey q = Some q) as Hr by by apply Hl.
      rewrite Hc in Hr. by apply lookup_singleton_Some in Hr as [_ ->]. }
    assert (asks_for pod p) as Hp by (eapply Hl with (k := k); by rewrite Hc, lookup_singleton_eq).
    split; [intros [= <-]; auto|intros [Hr _]; by rewrite (Hone _ Hr)].
  - simpl. split; [done|]. intros [_ Hone]. exfalso.
    pose proof (NoDup_fst_map_to_list (collectPools pod)) as Hnd. rewrite Hm in Hnd. simpl in Hnd.
    assert (∀ k p, (k, p) ∈ map_to_list (collectPools pod) → k = poolLabelKey ref) as Hk.
    { intros k0 p0 Hin. apply elem_of_map_to_list, Hl in Hin as [Ha ->]. by rewrite (Hone _ Ha). }
    rewrite Hm in Hk. rewrite (Hk k p), (Hk k' p') in Hnd by set_solver. apply NoDup_cons in Hnd as [Hn _]. set_solver.
Qed.

(** ** The pieces of the mutating webhook, run again *)

Lemma ensureLabel_inv key v m m' : ensureLabel key v m = Ok m' → m' = <[key := v]> m ∧ m ⊆ m'.
Proof.
  unfold ensureLabel. destruct (m !! key) as [w|] eqn:E.
  - destruct (str_eqb w v) eqn:Ew; simpl; [|done]. go_bool. subst w. intros [= <-]. by rewrite insert_id.
  - intros [= <-]. split; [done|]. by apply insert_subseteq.
Qed.

Lemma ensureLabel_again key v m : m !! key = Some v → ensureLabel key v m = Ok m.
Proof. intros Hm. unfold ensureLabel. rewrite Hm, str_eqb_refl. simpl. by rewrite insert_id. Qed.

Lemma nodeSelector_inv key v pod pod' : ensurePoolNodeSelector key v pod = Ok pod' →
  pod' = set_wp_NodeSelector (<[key := v]> (wp_NodeSelector pod)) pod ∧ wp_NodeSelector pod ⊆ <[key := v]> (wp_NodeSelector pod).
Proof.
  unfold ensurePoolNodeSelector. destruct (wp_NodeSelector pod !! key) as [w|] eqn:E.
  - destruct (str_eqb w v) eqn:Ew; simpl; [|done]. go_bool. subst w. intros [= <-]. by rewrite insert_id.
  - intros [= <-]. split; [done|]. by apply insert_subseteq.
Qed.

(** Tolerations of the pool's key have an effect the webhook takes. *)
Definition usual_effects (key : string) (tols : list Toleration) : Prop :=
  ∀ t, t ∈ tols → tol_Key t = key → tol_Effect t = "" ∨ tol_Effect t = TaintEffectNoSchedule.

Lemma fixToleration_again key pool tols tols' ext : pool ≠ "" → usual_effects key tols →
  fixToleration key pool tols = Ok (Some tols') → fixToleration key pool (tols' ++ ext) = Ok (Some (tols' ++ ext)).
Proof.
  intros Hp. revert tols'. induction tols as [|tol tols IH]; intros tols' Hu; simpl; [done|].
  destruct (str_eqb (tol_Key tol) key) eqn:Ek; simpl.
  - destruct (str_eqb (tol_Operator tol) TolerationOpExists) eqn:Eo.
    { intros [= <-]. simpl. by rewrite Ek, Eo. }
    set (op := if str_eqb (tol_Operator tol) "" then _ else _). set (effect := if str_eqb (tol_Effect tol) "" then _ else _).
    destruct (str_eqb op TolerationOpEqual) eqn:Eop; [|done].
    assert (effect = TaintEffectNoSchedule) as He.
    { unfold effect. go_bool. destruct (Hu tol ltac:(by left) Ek) as [-> | ->]; done. }
    rewrite He. apply str_eqb_true in Eop. rewrite Eop.
    assert (fixToleration key pool (mkToleration (tol_Key tol) TolerationOpEqual pool TaintEffectNoSchedule :: tols ++ ext) =
      Ok (Some (mkToleration (tol_Key tol) TolerationOpEqual pool TaintEffectNoSchedule :: tols ++ ext))) as Hdone.
    { simpl. rewrite Ek. simpl. by rewrite (proj2 (str_eqb_false _ _) Hp), str_eqb_refl. }
    destruct (str_eqb (tol_Value tol) "") eqn:Ev; [intros [= <-]; exact Hdone|].
    destruct (str_eqb (tol_Value tol) pool) eqn:Ev'; simpl; [|done]. apply str_eqb_true in Ev'. rewrite Ev'. intros [= <-]. exact Hdone.
  - destruct (fixToleration key pool tols) as [[tols1|]|] eqn:E; try done. intros [= <-]. simpl. rewrite Ek. simpl.
    by rewrite (IH tols1) by (done || intros t Ht; apply Hu; by right).
Qed.

Lemma fixToleration_fresh key pool tols ext : pool ≠ "" → fixToleration key pool tols = Ok None →
  let tols' := tols ++ [mkToleration key TolerationOpEqual pool TaintEffectNoSchedule] in
  fixToleration key pool (tols' ++ ext) = Ok (Some (tols' ++ ext)).
Proof.
  intros Hp. induction tols as [|tol tols IH]; simpl.
  - intros _. by rewrite str_eqb_refl, (proj2 (str_eqb_false _ _) Hp), str_eqb_refl.
  - destruct (str_eqb (tol_Key tol) key) eqn:Ek; simpl; [repeat case_match; done|].
    destruct (fixToleration key pool tols) as [[tols1|]|]; try done. intros _. simpl in IH. by rewrite IH.
Qed.

Lemma toleration_again key pool pod pod' : pool ≠ "" → usual_effects key (wp_Tolerations pod) → ensurePoolToleration key pool pod = Ok pod' →
  pod' = set_wp_Tolerations (wp_Tolerations pod') pod ∧
  ∀ ext, fixToleration key pool (wp_Tolerations pod' ++ ext) = Ok (Some (wp_Tolerations pod' ++ ext)).
Proof.
  unfold ensurePoolToleration. intros Hp Hu. destruct (fixToleration key pool (wp_Tolerations pod)) as [[tols|]|] eqn:E; simpl; [..|done]; intros [= <-].
  - split; [done|]. intros ext. by eapply fixToleration_again.
  - split; [done|]. intros ext. by apply fixToleration_fresh.
Qed.

Lemma fixTerm_again key pool t t' : fixTerm key pool t = Ok t' → fixTerm key pool t' = Ok t'.
Proof.
  unfold fixTerm. destruct (List.find _ (nst_MatchExpressions t)) as [me|] eqn:E.
  - destruct (_ && _) eqn:Ec; [|done]. intros [= <-]. by rewrite E, Ec.
  - intros [= <-]. simpl. assert (∀ l r, List.find (λ me, str_eqb (nsr_Key me) key) l = None →
      List.find (λ me, str_eqb (nsr_Key me) key) (l ++ r) = List.find (λ me, str_eqb (nsr_Key me) key) r) as Hf.
    { intros l r. induction l as [|a l IH]; simpl; [done|]. by destruct (str_eqb _ _). }
    rewrite (Hf _ _ E). simpl. rewrite str_eqb_refl. simpl. by rewrite str_eqb_refl.
Qed.

Lemma fixTerms_again key pool ts ts' : fixTerms key pool ts = Ok ts' → fixTerms key pool ts' = Ok ts'.
Proof.
  revert ts'. induction ts as [|t ts IH]; intros ts'; simpl; [by intros [= <-]|].
  destruct (fixTerm key pool t) as [t'|] eqn:E; simpl; [|done]. destruct (fixTerms key pool ts) as [ts1|]; simpl; [|done]. intros [= <-].
  simpl. by rewrite (fixTerm_again _ _ _ _ E), (IH _ eq_refl).
Qed.

Lemma affinity_again key pool pod pod' : ensurePoolAffinity key pool pod = Ok pod' →
  ∃ terms, pod' = set_wp_Required (Some terms) pod ∧ fixTerms key pool terms = Ok terms.
Proof.
  unfold ensurePoolAffinity. destruct (wp_Required pod) as [terms|].
  - destruct (fixTerms key pool terms) as [terms'|] eqn:E; simpl; [|done]. intros [= <-]. exists terms'. split; [done|]. by eapply fixTerms_again.
  - intros [= <-]. eexists. split; [done|]. simpl. unfold fixTerm. simpl. rewrite str_eqb_refl. simpl. by rewrite str_eqb_refl.
Qed.

(** A list completed with what it lacks. *)
Section Complete.
Context {A T : Type} (has : list T → A → bool) (mk : A → T).
Context (has_app : ∀ l ext a, has l a = true → has (l ++ ext) a = true) (has_mk : ∀ l a, has (l ++ [mk a]) a = true).
Abbreviation complete := (foldl (λ l a, if has l a then l else l ++ [mk a])).

Lemma complete_ext l xs : ∃ ext, complete l xs = l ++ ext ∧ ∀ t, t ∈ ext → ∃ a, a ∈ xs ∧ t = mk a.
Proof.
  revert l. induction xs as [|a xs IH]; intros l; simpl; [exists []; split; [by rewrite app_nil_r|]; intros t Ht; by apply not_elem_of_nil in Ht|].
  destruct (has l a).
  - destruct (IH l) as (ext & -> & He). exists ext. split; [done|]. intros t (a' & Ha & ->)%He. exists a'. split; [by right|done].
  - destruct (IH (l ++ [mk a])) as (ext & -> & He). exists (mk a :: ext). rewrite <- app_assoc. split; [done|].
    intros t [-> | (a' & Ha & ->)%He]%elem_of_cons; [exists a; split; [by left|done]|exists a'; split; [by right|done]].
Qed.

Lemma complete_all l xs a : a ∈ xs → has (complete l xs) a = true.
Proof.
  revert l. induction xs as [|x xs IH]; intros l; [by intros ?%not_elem_of_nil|]. intros [-> |Hin]%elem_of_cons; simpl; [|by apply IH].
  destruct (has l x) eqn:E; destruct (complete_ext (if has l x then l else l ++ [mk x]) xs) as (ext & He & _); rewrite E in He; rewrite He; auto.
Qed.

Lemma complete_done l xs : (∀ a, a ∈ xs → has l a = true) → complete l xs = l.
Proof.
  induction xs as [|x xs IH]; intros Ha; simpl; [done|]. rewrite (Ha x) by by left. apply IH. intros a Hin. apply Ha. by right.
Qed.
End Complete.

Lemma toleratesTaint_app tols ext taint : toleratesTaint tols taint = true → toleratesTaint (tols ++ ext) taint = true.
Proof. unfold toleratesTaint. rewrite existsb_app. by intros ->. Qed.

Lemma tolerationFor_tolerates tols taint : toleratesTaint (tols ++ [tolerationFor taint]) taint = true.
Proof.
  unfold toleratesTaint. rewrite existsb_app. apply orb_true_intro. right. simpl. rewrite orb_false_r. unfold toleratesTaint1, tolerationFor. simpl.
  rewrite !str_eqb_refl. simpl. rewrite andb_false_r. simpl. destruct (str_eqb (tnt_Value taint) "") eqn:E; done.
Qed.

Lemma hasToleration_app tols ext key : hasToleration tols key = true → hasToleration (tols ++ ext) key = true.
Proof. unfold hasToleration. rewrite existsb_app. by intros ->. Qed.
Lemma hasToleration_new tols key : hasToleration (tols ++ [mkToleration key TolerationOpExists "" ""]) key = true.
Proof. unfold hasToleration. rewrite existsb_app. simpl. rewrite str_eqb_refl. by rewrite orb_true_r. Qed.

Lemma spread_again key pool topology pod pod' : ensureSpreadConstraint key pool topology pod = Ok pod' →
  pod' = set_wp_Spread (wp_Spread pod') pod ∧
  ∀ pod1, wp_Spread pod1 = wp_Spread pod' → ensureSpreadConstraint key pool topology pod1 = Ok pod1.
Proof.
  unfold ensureSpreadConstraint. destruct (str_eqb topology "") eqn:Et; [intros [= <-]; by destruct pod|].
  destruct (omap _ (wp_Spread pod)) as [|v vs] eqn:E.
  - intros [= <-]. split; [by destruct pod|]. intros pod1 ->. simpl. rewrite omap_app, E. simpl. unfold spreadValue at 1. simpl.
    rewrite str_eqb_refl. simpl. rewrite lookup_singleton_eq. simpl. by rewrite str_eqb_refl.
  - destruct (str_eqb v pool) eqn:Ev; [|done]. intros [= <-]. split; [by destruct pod|]. intros pod1 ->. by rewrite E, Ev.
Qed.

(** ** The whole webhook *)

(** Tolerations that mean the same to the webhook and to the scheduler. *)
Definition plain_toleration (t : Toleration) : Prop :=
  tol_Operator t = TolerationOpExists ∨ (tol_Operator t = TolerationOpEqual ∧ tol_Value t ≠ "").

Lemma plain_tolerates t taint : plain_toleration t → tnt_Effect taint ≠ "" → toleratesTaint1 taint t = true → ToleratesTaint t taint = true.
Proof.
  unfold toleratesTaint1, ToleratesTaint. intros Hp He. destruct (str_eqb (tol_Key t) (tnt_Key taint)) eqn:Ek; simpl; [|done].
  rewrite (proj2 (str_eqb_false _ _) He). simpl. rewrite andb_true_r, andb_false_r.
  destruct (_ && _); [done|]. destruct Hp as [-> |[-> Hv]]; [done|]. simpl. rewrite (proj2 (str_eqb_false _ _) Hv). done.
Qed.

Lemma fixToleration_plain key pool tols tols' : pool ≠ "" → fixToleration key pool tols = Ok (Some tols') →
  Forall plain_toleration tols → Forall plain_toleration tols'.
Proof.
  intros Hp. revert tols'. induction tols as [|tol tols IH]; intros tols'; [done|]. simpl. destruct (str_eqb (tol_Key tol) key); simpl.
  - destruct (str_eqb (tol_Operator tol) TolerationOpExists); [by intros [= <-]|].
    set (op := if str_eqb (tol_Operator tol) "" then _ else _). destruct (str_eqb op TolerationOpEqual) eqn:Eo; [|done]. apply str_eqb_true in Eo.
    intros Hf [_ Ht]%Forall_cons. repeat go_case Hf; (apply Forall_cons; split; [|done]); right; go_bool; split; simpl; congruence.
  - destruct (fixToleration key pool tols) as [[tols1|]|]; try done. intros [= <-] [Ht Hts]%Forall_cons. apply Forall_cons. auto.
Qed.

Lemma toleration_plain key pool pod pod' : pool ≠ "" → ensurePoolToleration key pool pod = Ok pod' →
  Forall plain_toleration (wp_Tolerations pod) → Forall plain_toleration (wp_Tolerations pod').
Proof.
  unfold ensurePoolToleration. intros Hp. destruct (fixToleration key pool (wp_Tolerations pod)) as [[tols|]|] eqn:E; simpl; [..|done]; intros [= <-] Ht.
  - by eapply fixToleration_plain.
  - simpl. apply Forall_app. split; [done|]. apply Forall_singleton. by right.
Qed.

Lemma complete_plain {A} (has : list Toleration → A → bool) (mk : A → Toleration) l xs : (∀ a, plain_toleration (mk a)) → Forall plain_toleration l →
  Forall plain_toleration (foldl (λ l a, if has l a then l else l ++ [mk a]) l xs).
Proof.
  intros Hmk Hl. destruct (complete_ext has mk l xs) as (ext & -> & He). apply Forall_app. split; [done|].
  apply Forall_forall. intros t (a & _ & ->)%He. apply Hmk.
Qed.

Lemma tolerationFor_plain taint : plain_toleration (tolerationFor taint).
Proof. unfold plain_toleration, tolerationFor. simpl. destruct (str_eqb (tnt_Value taint) "") eqn:E; go_bool; auto. Qed.

Section Bound.
Context {S : Type} `{PoolClient S, PodReader S, ApiErrors, MetaConditions, KeyOrder}.
Implicit Types (c : option S) (pod : WorkPod).

Lemma nodeTolerations_inv c pool pod pod' : ensureNodeTolerations c pool pod = Ok pod' → ∃ taints,
  (∀ pod1, ensureNodeTolerations c pool pod1 = Ok (set_wp_Tolerations (addTolerations taints (wp_Tolerations pod1)) pod1)) ∧
  (∀ s p, c = Some s → pool = Some p → collectPoolNodeTaints p s = Ok taints).
Proof.
  unfold ensureNodeTolerations. intros Hok. destruct c as [s|]; [destruct pool as [p|]|].
  - destruct (collectPoolNodeTaints p s) as [taints|] eqn:E; [|done]. exists taints. split; [done|]. intros ?? [= <-] [= <-]. done.
  - exists []. split; [by intros []|done].
  - exists []. split; [by intros []|done].
Qed.

Lemma spreadPod_again c store pool key name pod pod' : spreadPod c store pool key name pod = Ok pod' →
  pod' = set_wp_Spread (wp_Spread pod') pod ∧ ∀ pod1, wp_Spread pod1 = wp_Spread pod' → spreadPod c store pool key name pod1 = Ok pod1.
Proof.
  unfold spreadPod. destruct (poolScheduling store pool) as [strategy topology].
  assert (pod = set_wp_Spread (wp_Spread pod) pod) as Heta by by destruct pod.
  destruct (EqualFold strategy GPUPoolSchedulingSpread); [|by intros [= <-]].
  destruct c as [s|]; [|apply spread_again]. destruct (topologyLabelPresent s key name topology) as [[]|]; simpl; [apply spread_again|by intros [= <-]|done].
Qed.

Definition customKeys (store : option ModuleSettings) : list string := match store with Some st => ms_CustomTolerationKeys st | None => [] end.
Definition withCustom (keys : list string) (tols : list Toleration) : list Toleration :=
  foldl (λ tols key, if hasToleration tols key then tols else tols ++ [mkToleration key TolerationOpExists "" ""]) tols keys.
Lemma custom_eq store pod : ensureCustomTolerations store pod = set_wp_Tolerations (withCustom (customKeys store) (wp_Tolerations pod)) pod.
Proof. destruct store; [done|]. by destruct pod. Qed.

Lemma withCustom_ext keys tols : ∃ ext, withCustom keys tols = tols ++ ext.
Proof.
  destruct (complete_ext hasToleration (λ key, mkToleration key TolerationOpExists "" "") tols keys) as (ext & He & _). by exists ext.
Qed.
Lemma withCustom_again keys tols : withCustom keys (withCustom keys tols) = withCustom keys tols.
Proof. apply complete_done. intros a Ha. apply complete_all; [apply hasToleration_app|apply hasToleration_new|done]. Qed.

Lemma addTolerations_ext taints tols : ∃ ext, addTolerations taints tols = tols ++ ext.
Proof. destruct (complete_ext toleratesTaint tolerationFor tols taints) as (ext & He & _). by exists ext. Qed.
Lemma addTolerations_all taints tols t : t ∈ taints → toleratesTaint (addTolerations taints tols) t = true.
Proof. intros Ht. apply complete_all; [apply toleratesTaint_app|apply tolerationFor_tolerates|done]. Qed.
Lemma addTolerations_done taints tols : (∀ t, t ∈ taints → toleratesTaint tols t = true) → addTolerations taints tols = tols.
Proof. apply complete_done. Qed.

(** What is kept of the tolerations and of the required affinity. *)
Lemma fixToleration_kept key pool tols tols' : fixToleration key pool tols = Ok (Some tols') → ∀ t, t ∈ tols → tol_Key t ≠ key → t ∈ tols'.
Proof.
  revert tols'. induction tols as [|tol tols IH]; intros tols'; simpl; [done|]. destruct (str_eqb (tol_Key tol) key) eqn:Ek; cbn [negb].
  - go_bool. intros Hf t [->|Hin]%elem_of_cons Hne; [done|]. repeat case_match; simplify_eq; by right.
  - destruct (fixToleration key pool tols) as [[rest|]|] eqn:E; try done. intros [= <-] t [->|Hin]%elem_of_cons Hne; [by left|right; by eapply IH].
Qed.
Lemma toleration_kept key pool pod pod' : ensurePoolToleration key pool pod = Ok pod' →
  ∀ t, t ∈ wp_Tolerations pod → tol_Key t ≠ key → t ∈ wp_Tolerations pod'.
Proof.
  unfold ensurePoolToleration. destruct (fixToleration key pool (wp_Tolerations pod)) as [[tols|]|] eqn:E; simpl; [..|done]; intros [= <-] t Ht Hne; simpl.
  - by eapply fixToleration_kept.
  - apply elem_of_app. by left.
Qed.

(** A term with one more requirement at most, which asks for the pool. *)
Definition narrowed_term (key pool : string) (t t' : NodeSelectorTerm) : Prop :=
  nst_MatchFields t' = nst_MatchFields t ∧ (∃ ext, nst_MatchExpressions t' = nst_MatchExpressions t ++ ext) ∧
  ∃ me, me ∈ nst_MatchExpressions t' ∧ nsr_Key me = key ∧ nsr_Operator me = NodeSelectorOpIn ∧ pool ∈ nsr_Values me.
Definition narrowed_terms (key pool : string) (terms terms' : option (list NodeSelectorTerm)) : Prop :=
  match terms with
  | None => terms' = Some [mkNsTerm [mkNsRequirement key NodeSelectorOpIn [pool]] []]
  | Some ts => ∃ ts', terms' = Some ts' ∧ Forall2 (narrowed_term key pool) ts ts'
  end.
Lemma fixTerm_narrowed key pool t t' : fixTerm key pool t = Ok t' → narrowed_term key pool t t'.
Proof.
  unfold fixTerm. destruct (List.find _ _) as [me|] eqn:Ef.
  - destruct (str_eqb (nsr_Operator me) NodeSelectorOpIn) eqn:Eo; cbn [andb]; [|done].
    destruct (existsb _ _) eqn:Ev; [|done]. intros [= <-]. apply find_some in Ef as [Hin%list_elem_of_In Hk]. go_bool.
    split; [done|]. split; [exists []; by rewrite app_nil_r|]. exists me. split_and!; [done..|].
    apply existsb_exists in Ev as (v & Hv%list_elem_of_In & Heq). go_bool. by subst v.
  - intros [= <-]. split; [done|]. split; [by eexists|]. eexists. split; [apply elem_of_app; right; by left|]. split; [done|]. split; [done|by left].
Qed.
Lemma fixTerms_narrowed key pool ts ts' : fixTerms key pool ts = Ok ts' → Forall2 (narrowed_term key pool) ts ts'.
Proof.
  revert ts'. induction ts as [|t ts IH]; intros ts'; simpl; [intros [= <-]; constructor|].
  destruct (fixTerm key pool t) as [t'|] eqn:Et; [|done]. cbn [mbind res_bind]. destruct (fixTerms key pool ts) as [rest|]; [|done].
  cbn [mbind res_bind]. intros [= <-]. constructor; [by apply fixTerm_narrowed|by apply IH].
Qed.
Lemma affinity_narrowed key pool pod pod' : ensurePoolAffinity key pool pod = Ok pod' → narrowed_terms key pool (wp_Required pod) (wp_Required pod').
Proof.
  unfold ensurePoolAffinity, narrowed_terms. destruct (wp_Required pod) as [ts|]; [|by intros [= <-]].
  destruct (fixTerms key pool ts) as [ts'|] eqn:E; [|done]. cbn [mbind res_bind]. intros [= <-]. exists ts'. split; [done|by apply fixTerms_narrowed].
Qed.

Lemma spreadPod_kept c store pool key name pod pod' : spreadPod c store pool key name pod = Ok pod' →
  ∃ ext, wp_Spread pod' = wp_Spread pod ++ ext ∧ (length ext ≤ 1)%nat.
Proof.
  assert (∀ key name topology, ensureSpreadConstraint key name topology pod = Ok pod' → ∃ ext, wp_Spread pod' = wp_Spread pod ++ ext ∧ (length ext ≤ 1)%nat) as Hs.
  { intros k n topology. unfold ensureSpreadConstraint. destruct (str_eqb topology ""); [intros [= <-]; exists []; rewrite app_nil_r; split; [done|simpl; lia]|].
    destruct (omap _ _) as [|v ?]; [intros [= <-]; by eexists|]. destruct (str_eqb v n); [|done].
    intros [= <-]. exists []. rewrite app_nil_r. split; [done|simpl; lia]. }
  assert (pod' = pod → ∃ ext, wp_Spread pod' = wp_Spread pod ++ ext ∧ (length ext ≤ 1)%nat) as Hid
    by (intros ->; exists []; rewrite app_nil_r; split; [done|simpl; lia]).
  unfold spreadPod. destruct (poolScheduling store pool) as [strategy topology]. destruct (EqualFold _ _); [|intros [= <-]; by apply Hid].
  destruct c as [s|]; [|apply Hs]. destruct (topologyLabelPresent _ _ _ _) as [[]|]; simpl; [apply Hs|intros [= <-]; by apply Hid|done].
Qed.

(** What the webhook promises of a pod: its own fields are kept, and it carries
    the labels, the node selector and the tolerations of the pool; other
    tolerations, the terms of the required affinity and the spread constraints
    stay. *)
Record bound (c : option S) (pool : option GPUPool) (ref : poolRequest) (pod pod' : WorkPod) : Prop := {
  bd_frame : wp_Namespace pod' = wp_Namespace pod ∧ wp_Containers pod' = wp_Containers pod ∧ wp_InitContainers pod' = wp_InitContainers pod ∧
    wp_NodeName pod' = wp_NodeName pod ∧ wp_Phase pod' = wp_Phase pod ∧ wp_Deleting pod' = wp_Deleting pod;
  bd_labels : wp_Labels pod ⊆ wp_Labels pod';
  bd_name : wp_Labels pod' !! PoolNameKey = Some (pr_name ref);
  bd_scope : wp_Labels pod' !! PoolScopeKey = Some (scopeOf ref);
  bd_selectors : wp_NodeSelector pod ⊆ wp_NodeSelector pod';
  bd_selector : wp_NodeSelector pod' !! poolLabelKey ref = Some (pr_name ref);
  bd_taints s p : c = Some s → pool = Some p → poolTaintsEnabled pool = true → ∃ taints, collectPoolNodeTaints p s = Ok taints ∧
    ∀ t, t ∈ taints → toleratesTaint (wp_Tolerations pod') t = true;
  bd_plain : Forall plain_toleration (wp_Tolerations pod) → Forall plain_toleration (wp_Tolerations pod');
  bd_tolerations t : t ∈ wp_Tolerations pod → tol_Key t ≠ poolLabelKey ref → t ∈ wp_Tolerations pod';
  bd_required : if poolTaintsEnabled pool then narrowed_terms (poolLabelKey ref) (pr_name ref) (wp_Required pod) (wp_Required pod')
                else wp_Required pod' = wp_Required pod;
  bd_spread : ∃ ext, wp_Spread pod' = wp_Spread pod ++ ext ∧ (length ext ≤ 1)%nat;
}.

(** The tolerations of a pool with taints, once the webhook has run. *)
Lemma poolTolerations_again key name taints keys pod pod1 pod2 : name ≠ "" → usual_effects key (wp_Tolerations pod) →
  ensurePoolToleration key name pod = Ok pod1 → ensurePoolAffinity key name pod1 = Ok pod2 →
  let tols := withCustom keys (addTolerations taints (wp_Tolerations pod2)) in
  (∃ terms, pod2 = set_wp_Required (Some terms) (set_wp_Tolerations (wp_Tolerations pod2) pod) ∧ fixTerms key name terms = Ok terms) ∧
  fixToleration key name tols = Ok (Some tols) ∧ addTolerations taints tols = tols ∧ withCustom keys tols = tols ∧
  (∀ t, t ∈ taints → toleratesTaint tols t = true) ∧
  (Forall plain_toleration (wp_Tolerations pod) → Forall plain_toleration tols).
Proof.
  intros Hn Hu Ht Ha tols. destruct (toleration_again _ _ _ _ Hn Hu Ht) as [E1 Hagain].
  destruct (affinity_again _ _ _ _ Ha) as (terms & E2 & Hterms).
  assert (wp_Tolerations pod2 = wp_Tolerations pod1) as Et by by rewrite E2.
  assert (∀ t, t ∈ taints → toleratesTaint tols t = true) as Hall.
  { intros t Hin. unfold tols. destruct (withCustom_ext keys (addTolerations taints (wp_Tolerations pod2))) as [ext ->].
    by apply toleratesTaint_app, addTolerations_all. }
  split_and!; [exists terms; split; [rewrite Et, E2, E1 at 1; done|done]| |by apply addTolerations_done|apply withCustom_again|done|].
  - unfold tols. destruct (withCustom_ext keys (addTolerations taints (wp_Tolerations pod2))) as [ext ->].
    destruct (addTolerations_ext taints (wp_Tolerations pod2)) as [ext' ->]. rewrite <- app_assoc, Et. apply Hagain.
  - intros Hp. apply complete_plain; [intros key'; by left|]. apply complete_plain; [apply tolerationFor_plain|].
    rewrite Et. by eapply toleration_plain.
Qed.

Lemma set_Tolerations_same tols pod : tols = wp_Tolerations pod → set_wp_Tolerations tols pod = pod.
Proof. intros ->. by destruct pod. Qed.

(** A pod the webhook leaves as it is. *)
Lemma bindPod_fixed c store pool ref q :
  wp_Labels q !! PoolNameKey = Some (pr_name ref) → wp_Labels q !! PoolScopeKey = Some (scopeOf ref) →
  wp_NodeSelector q !! poolLabelKey ref = Some (pr_name ref) →
  (poolTaintsEnabled pool = true →
     fixToleration (poolLabelKey ref) (pr_name ref) (wp_Tolerations q) = Ok (Some (wp_Tolerations q)) ∧
     (∃ terms, wp_Required q = Some terms ∧ fixTerms (poolLabelKey ref) (pr_name ref) terms = Ok terms) ∧ ensureNodeTolerations c pool q = Ok q) →
  spreadPod c store pool (poolLabelKey ref) (pr_name ref) q = Ok q → withCustom (customKeys store) (wp_Tolerations q) = wp_Tolerations q →
  bindPod c store pool ref q = Ok q.
Proof.
  intros H1' H2' H3' Ht Hs Hc. unfold bindPod, ensurePoolUsageLabels. rewrite (ensureLabel_again _ _ _ H1'). cbn [mbind res_bind].
  rewrite (ensureLabel_again _ _ _ H2'). cbn [mbind res_bind]. replace (set_wp_Labels (wp_Labels q) q) with q by by destruct q.
  unfold ensurePoolNodeSelector. rewrite H3', str_eqb_refl. cbn [negb mbind res_bind]. rewrite insert_id by done.
  replace (set_wp_NodeSelector (wp_NodeSelector q) q) with q by by destruct q.
  assert ((if poolTaintsEnabled pool then
             ensurePoolToleration (poolLabelKey ref) (pr_name ref) q ≫= λ pod0, ensurePoolAffinity (poolLabelKey ref) (pr_name ref) pod0 ≫= λ pod1, ensureNodeTolerations c pool pod1
           else Ok q) = Ok q) as Hm.
  { destruct (poolTaintsEnabled pool); [|done]. destruct (Ht eq_refl) as (Hf & (terms & Hr & Hx) & Hn).
    unfold ensurePoolToleration. rewrite Hf. cbn [mbind res_bind]. replace (set_wp_Tolerations (wp_Tolerations q) q) with q by by destruct q.
    unfold ensurePoolAffinity. rewrite Hr, Hx. cbn [mbind res_bind]. rewrite <- Hr. by replace (set_wp_Required (wp_Required q) q) with q by by destruct q. }
  rewrite Hm. cbn [mbind res_bind]. rewrite Hs. cbn [mbind res_bind]. rewrite custom_eq, Hc. by destruct q.
Qed.

Lemma bindPod_spec c store pool ref pod pod' : pr_name ref ≠ "" → usual_effects (poolLabelKey ref) (wp_Tolerations pod) →
  bindPod c store pool ref pod = Ok pod' → bound c pool ref pod pod' ∧ bindPod c store pool ref pod' = Ok pod'.
Proof.
  intros Hn Hu Hok. unfold bindPod, ensurePoolUsageLabels in Hok. revert Hok.
  destruct (ensureLabel PoolNameKey _ _) as [l1|] eqn:E1; [|done]. destruct (ensureLabel_inv _ _ _ _ E1) as [Hl1 Hs1]. cbn [mbind res_bind].
  destruct (ensureLabel PoolScopeKey _ _) as [l2|] eqn:E2; [|done]. destruct (ensureLabel_inv _ _ _ _ E2) as [Hl2 Hs2]. cbn [mbind res_bind].
  assert (l2 !! PoolNameKey = Some (pr_name ref)) as Hname by (rewrite Hl2, lookup_insert_ne by done; by rewrite Hl1, lookup_insert_eq).
  assert (l2 !! PoolScopeKey = Some (scopeOf ref)) as Hscope by by rewrite Hl2, lookup_insert_eq.
  assert (wp_Labels pod ⊆ l2) as Hsub by by etrans.
  destruct (ensurePoolNodeSelector _ _ _) as [pod2|] eqn:E3; [|done]. destruct (nodeSelector_inv _ _ _ _ E3) as [-> Hsel]. cbn [mbind res_bind].
  cbn [set_wp_Labels wp_NodeSelector] in Hsel |- *. set (pod0 := set_wp_NodeSelector _ _).
  assert (<[poolLabelKey ref := pr_name ref]> (wp_NodeSelector pod) !! poolLabelKey ref = Some (pr_name ref)) as Hkey by by rewrite lookup_insert_eq.
  destruct (poolTaintsEnabled pool) eqn:Hen.
  - destruct (ensurePoolToleration _ _ pod0) as [pod3|] eqn:E4; [|done]. cbn [mbind res_bind].
    destruct (ensurePoolAffinity _ _ pod3) as [pod4|] eqn:E5; [|done]. cbn [mbind res_bind].
    destruct (ensureNodeTolerations c pool pod4) as [pod5|] eqn:E6; [|done]. destruct (nodeTolerations_inv _ _ _ _ E6) as (taints & Hnode & Hcollect).
    rewrite Hnode in E6. injection E6 as <-. cbn [mbind res_bind].
    pose proof (toleration_kept _ _ _ _ E4) as Hkept. pose proof (affinity_narrowed _ _ _ _ E5) as Hnarrow.
    destruct (toleration_again _ _ pod0 pod3 Hn Hu E4) as [E4' _]. replace (wp_Required pod3) with (wp_Required pod) in Hnarrow by (by rewrite E4').
    destruct (affinity_again _ _ _ _ E5) as (terms0 & E5' & _). assert (wp_Tolerations pod4 = wp_Tolerations pod3) as Et by (by rewrite E5'). clear E5' terms0.
    destruct (poolTolerations_again _ _ taints (customKeys store) pod0 pod3 pod4 Hn Hu E4 E5) as ((terms & Hp4 & Hterms) & Hfix & Hadd & Hcus & Hall & Hplain).
    pose proof (f_equal wp_Required Hp4) as Hr4. cbn [wp_Required set_wp_Required] in Hr4. rewrite Hr4 in Hnarrow. rewrite Hp4.
    destruct (spreadPod _ _ _ _ _ _) as [pod6|] eqn:E7; [|done]. pose proof (spreadPod_kept _ _ _ _ _ _ _ E7) as Hsp.
    destruct (spreadPod_again _ _ _ _ _ _ _ E7) as [-> Hspread]. cbn [mbind res_bind].
    rewrite custom_eq. intros [= <-]. split.
    + split; try done.
      * intros s p Hc Hp _. exists taints. auto.
      * intros t Ht Hne. cbn [wp_Tolerations set_wp_Tolerations set_wp_Spread set_wp_Required].
        destruct (withCustom_ext (customKeys store) (addTolerations taints (wp_Tolerations pod4))) as [ext ->].
        destruct (addTolerations_ext taints (wp_Tolerations pod4)) as [ext' ->]. rewrite !elem_of_app, Et. left. left. by apply Hkept.
      * rewrite Hen. exact Hnarrow.
    + apply bindPod_fixed; [done..| |by apply Hspread|done]. intros _. split_and!; [done|by exists terms|]. rewrite Hnode. f_equal. apply set_Tolerations_same. exact Hadd.
  - cbn [mbind res_bind]. destruct (spreadPod _ _ _ _ _ _) as [pod6|] eqn:E7; [|done]. pose proof (spreadPod_kept _ _ _ _ _ _ _ E7) as Hsp.
    destruct (spreadPod_again _ _ _ _ _ _ _ E7) as [-> Hspread]. cbn [mbind res_bind]. rewrite custom_eq. intros [= <-]. split.
    + split; try done; [congruence| | |by rewrite Hen].
      * intros Hp. apply complete_plain; [intros key'; by left|done].
      * intros t Ht _. simpl. destruct (withCustom_ext (customKeys store) (wp_Tolerations pod)) as [ext ->]. apply elem_of_app. by left.
    + apply bindPod_fixed; [done..|congruence|by apply Hspread|apply withCustom_again].
Qed.

(** Outside of the binding itself the webhook only reads. *)
Definition lookedUp (c : option S) (ref : poolRequest) (namespace : string) : res (option GPUPool) :=
  match c with None => Ok None | Some _ => Some <$> resolvePoolByRequest c ref namespace end.

Lemma PodDefault_inv c store ns pod pod' ref : selectSinglePool pod = Ok (Some ref) → PodDefault c store ns (Expected pod) = Ok pod' →
  let namespace := effectiveNamespace ns (wp_Namespace pod) in
  pr_name ref ≠ "" ∧ requireGPUEnabledNamespace c namespace = None ∧
  ∃ pool, lookedUp c ref namespace = Ok pool ∧ bindPod c store pool ref pod = Ok pod'.
Proof.
  intros Href Hok namespace. split; [by destruct (proj1 (selectSinglePool_some _ _) Href) as [[_ (_ & ? & _)%poolOfResource_label] _]|].
  unfold PodDefault in Hok. rewrite Href in Hok. cbn [mbind res_bind] in Hok. fold namespace in Hok.
  destruct (requireGPUEnabledNamespace c _); [done|]. split; [done|]. fold (lookedUp c ref namespace) in Hok.
  destruct (lookedUp c ref namespace) as [pool|]; [|done]. by exists pool.
Qed.

(** C34: the mutating webhook ties a pod to the pool it asks for and to no
    other, provided that the pod's own tolerations of the pool's taint have the
    effect NoSchedule or none.  The pod keeps its containers, its node, its
    labels and selectors, its tolerations of other taints and its spread
    constraints, to which at most one is added; it carries the labels by which
    the pool's usage is counted, the node selector of the pool's nodes and, when
    the pool taints them, tolerations of what their nodes carry and required
    terms that are its own ones, narrowed to the pool; and running the webhook
    on its own result changes nothing. *)
Theorem pod_bound c store ns pod pod' ref :
  usual_effects (poolLabelKey ref) (wp_Tolerations pod) →
  selectSinglePool pod = Ok (Some ref) → PodDefault c store ns (Expected pod) = Ok pod' →
  asks_for pod ref ∧ (∀ ref', asks_for pod ref' → ref' = ref) ∧
  (∃ pool, bound c pool ref pod pod' ∧
     (∀ s, c = Some s → ∃ p, pool = Some p ∧ resolvePoolByRequest c ref (effectiveNamespace ns (wp_Namespace pod)) = Ok p)) ∧
  PodDefault c store ns (Expected pod') = Ok pod'.
Proof.
  intros Hu Href Hok. destruct (proj1 (selectSinglePool_some _ _) Href) as [Hask Honly]. split; [done|]. split; [done|].
  destruct (PodDefault_inv _ _ _ _ _ _ Href Hok) as (Hn & Hns & pool & Hpool & Hbind).
  destruct (bindPod_spec _ _ _ _ _ _ Hn Hu Hbind) as [Hb Hagain]. split.
  - exists pool. split; [done|]. intros s ->. unfold lookedUp in Hpool. destruct (resolvePoolByRequest (Some s) ref _) as [p|]; [|done].
    injection Hpool as <-. by exists p.
  - destruct (bd_frame _ _ _ _ _ Hb) as (F1 & F2 & F3 & _). unfold PodDefault. rewrite F1.
    replace (selectSinglePool pod') with (selectSinglePool pod); [|unfold selectSinglePool, collectPools; by rewrite F2, F3].
    rewrite Href. cbn [mbind res_bind]. rewrite Hns. fold (lookedUp c ref (effectiveNamespace ns (wp_Namespace pod))). by rewrite Hpool.
Qed.
End Bound.

(** ** On the nodes of a reconciled pool *)

Definition requestOf (pool : GPUPool) : poolRequest :=
  mkPoolRequest (gp_Name pool) (if isClusterPool pool then clusterPoolResourcePrefix else localPoolResourcePrefix).

Lemma requestOf_key pool : poolLabelKey (requestOf pool) = PoolLabelKey pool.
Proof. unfold poolLabelKey, requestOf, PoolLabelKey, PoolResourcePrefixFor. by destruct (isClusterPool pool). Qed.

(** The key, the value and the effect of a taint are labels. *)
Definition plain_taint (t : Taint) : Prop :=
  tnt_Effect t ≠ "" ∧ free_of "|"%char (tnt_Key t) = true ∧ free_of "|"%char (tnt_Value t) = true.

Lemma taintKey_inj t t' : plain_taint t → plain_taint t' → taintKey t = taintKey t' → t = t'.
Proof.
  intros (_ & Hk & Hv) (_ & Hk' & Hv') Heq.
  change (tnt_Key t +:+ String "|" (tnt_Value t +:+ String "|" (tnt_Effect t)) =
          tnt_Key t' +:+ String "|" (tnt_Value t' +:+ String "|" (tnt_Effect t'))) in Heq.
  apply (f_equal (cut (String "|" EmptyString))) in Heq. rewrite !cut_char_app in Heq by done. injection Heq as Ek Ev.
  apply (f_equal (cut (String "|" EmptyString))) in Ev. rewrite !cut_char_app in Ev by done. injection Ev as Ev Ee.
  destruct t, t'. simpl in *. congruence.
Qed.

Lemma seenTaints_lookup ns t : (∀ n t, n ∈ ns → t ∈ node_Taints n → plain_taint t) → (∃ n, n ∈ ns ∧ t ∈ node_Taints n) →
  seenTaints ns !! taintKey t = Some t.
Proof.
  intros Hplain (n & Hn & Ht). unfold seenTaints. set (l := concat _).
  assert (∀ t, t ∈ l → plain_taint t) as Hl.
  { intros t' Hin. apply list_elem_of_In, in_concat in Hin as (ts & Hts & Hin). apply list_elem_of_In, list_elem_of_fmap in Hts as (n' & -> & Hn').
    eapply Hplain; [done|]. by apply list_elem_of_In. }
  assert (t ∈ l) as Hin by (apply list_elem_of_In, in_concat; exists (node_Taints n); rewrite <- !list_elem_of_In, list_elem_of_fmap; eauto).
  clearbody l. clear Hplain Hn Ht. induction l as [|t' l IH] using rev_ind; [by apply not_elem_of_nil in Hin|].
  rewrite foldl_app. simpl. rewrite lookup_insert. case_decide as Hd.
  - f_equal. apply taintKey_inj; [apply Hl; set_solver..|done].
  - apply elem_of_app in Hin as [Hin|Hin%list_elem_of_singleton]; [|by subst]. apply IH; [|done]. intros ??. apply Hl. set_solver.
Qed.

Section Placed.
Context {S : Type} `{PC : PoolClient S, PR : PodReader S, AE : ApiErrors, MC : MetaConditions, KO : KeyOrder, LS : LabelSelectors, PS : !PoolServer S}.

(** What the API server is documented to do with pools. *)
Class NamedPools := {
  get_pool s ns name p : pc_GetPool ns name s = Ok p → gp_Name p = name ∧ gp_Namespace p = ns;
  get_cluster_pool s name p : pc_GetClusterPool name s = Ok p → gp_Name p = name ∧ gp_Namespace p = "";
}.
Context `{NP : NamedPools}.

(** The taints the webhook collects are those of the nodes of the pool. *)
Lemma collected ref ns (s : S) p taints n t : resolvePoolByRequest (Some s) ref ns = Ok p → collectPoolNodeTaints p s = Ok taints →
  (∀ name n t, nodes s !! name = Some n → t ∈ node_Taints n → plain_taint t) →
  nodes s !! node_Name n = Some n → node_Labels n !! poolLabelKey ref = Some (pr_name ref) → t ∈ node_Taints n → t ∈ taints.
Proof.
  intros Hres Hcol Hplain Hn Hl Ht.
  assert ((if str_eqb (gp_Namespace p) "" then clusterPoolResourcePrefix else localPoolResourcePrefix) = pr_keyPrefix ref ∧ gp_Name p = pr_name ref) as [Hp Hname].
  { unfold resolvePoolByRequest, fetch in Hres. destruct (str_eqb (pr_keyPrefix ref) clusterPoolResourcePrefix) eqn:E1.
    - destruct (pc_GetClusterPool _ s) as [q|e] eqn:Hg; [|by destruct (pc_IsNotFound e)]. injection Hres as ->.
      destruct (get_cluster_pool _ _ _ Hg) as [-> ->]. go_bool. by rewrite E1.
    - destruct (str_eqb (pr_keyPrefix ref) localPoolResourcePrefix) eqn:E2; [|done]. destruct (str_eqb (TrimSpace ns) "") eqn:E3; [done|].
      destruct (pc_GetPool _ _ s) as [q|e] eqn:Hg; [|by destruct (pc_IsNotFound e)]. injection Hres as ->.
      destruct (get_pool _ _ _ _ Hg) as [-> ->]. destruct (str_eqb ns "") eqn:E4; go_bool; [by rewrite E4 in E3|done]. }
  unfold collectPoolNodeTaints in Hcol. rewrite Hp, Hname in Hcol. destruct (pc_ListNodesByLabel _ _ s) as [ns'|] eqn:Hlist; [|done]. injection Hcol as <-.
  apply list_elem_of_omap. exists (taintKey t).
  assert (seenTaints ns' !! taintKey t = Some t) as Hseen.
  { apply seenTaints_lookup.
    - intros n' t' Hin. apply (list_nodes_label _ _ _ _ Hlist) in Hin as [Hin _]. by eapply Hplain.
    - exists n. split; [|done]. by apply (list_nodes_label _ _ _ _ Hlist). }
  split; [|done]. rewrite range_keys_perm, elem_of_elements, elem_of_dom. eauto.
Qed.

(** C33: a pod the webhook has bound to a pool the controller has reconciled
    fits only nodes that have devices of the pool, whatever the state of the
    nodes before, provided that the pod's own tolerations of the pool's taint
    have the effect NoSchedule or none; and, when the pool taints its nodes, the
    pod tolerates, by the rules of the scheduler, every taint of such a node,
    provided that the pod's own tolerations name an operator and, for Equal, a
    value, and the taints of the nodes have an effect and no bar in key or value. *)
Theorem pod_lands_on_pool ready pool (s0 s : S) store ns pod pod' name n0 n :
  pool_named pool → converged ready pool s0 s → usual_effects (PoolLabelKey pool) (wp_Tolerations pod) →
  selectSinglePool pod = Ok (Some (requestOf pool)) → PodDefault (Some s) store ns (Expected pod) = Ok pod' →
  nodes s0 !! name = Some n0 → nodes s !! name = Some n → wp_NodeSelector pod' ⊆ node_Labels n →
  node_has pool s name ∧
  ((∀ p, resolvePoolByRequest (Some s) (requestOf pool) (effectiveNamespace ns (wp_Namespace pod)) = Ok p → poolTaintsEnabled (Some p) = true) →
   Forall plain_toleration (wp_Tolerations pod) → (∀ name n t, nodes s !! name = Some n → t ∈ node_Taints n → plain_taint t) →
   ∀ t, t ∈ node_Taints n → ∃ tol, tol ∈ wp_Tolerations pod' ∧ ToleratesTaint tol t = true).
Proof.
  intros Hnamed Hconv Hu Href Hok Hn0 Hn Hfits. destruct (PodDefault_inv _ _ _ _ _ _ Href Hok) as (Hname & _ & p & Hp & Hbind).
  rewrite <- requestOf_key in Hu. destruct (bindPod_spec _ _ _ _ _ _ Hname Hu Hbind) as [Hb _].
  pose proof (lookup_weaken _ _ _ _ (bd_selector _ _ _ _ _ Hb) Hfits) as Hlabel. split.
  - destruct (cv_nodes _ _ _ _ Hconv _ _ Hn0) as (n' & Hn' & Hshow & _). rewrite Hn' in Hn. injection Hn as ->.
    apply Hshow. by rewrite poolValue, <- requestOf_key by done.
  - intros Hen Hpt Htaints t Ht. unfold lookedUp in Hp. destruct (resolvePoolByRequest (Some s) _ _) as [p'|] eqn:Hres; [|done]. injection Hp as <-.
    destruct (bd_taints _ _ _ _ _ Hb s p' eq_refl eq_refl (Hen _ eq_refl)) as (taints & Hcol & Hall).
    rewrite <- (nodes_name _ _ _ Hn) in Hn. pose proof (collected _ _ _ _ _ _ _ Hres Hcol Htaints Hn Hlabel Ht) as Hin.
    apply Hall, existsb_exists in Hin as (tol & Htol & Hok'). apply list_elem_of_In in Htol. exists tol. split; [done|].
    apply plain_tolerates; [|by eapply Htaints|done]. by eapply Forall_forall; [apply (bd_plain _ _ _ _ _ Hb)|].
Qed.
End Placed.

(** ** What is counted *)

Section Loops.
Context {A : Type} (counts : A → bool) (f : A → Z).
Definition tally (a : A) : Z := if counts a then f a else 0.

(** A sum of an int64 loop that does not overflow. *)
Lemma sum_loop z l : 0 ≤ z → (∀ a, a ∈ l → 0 ≤ tally a) → z + Zsum tally l < 2 ^ 63 →
  foldl (λ sum a, if counts a then wrap64 (sum + f a) else sum) z l = z + Zsum tally l.
Proof.
  revert z. induction l as [|a l IH]; intros z Hz Hl Hs; simpl in *; [lia|].
  pose proof (Hl a ltac:(by left)) as Ha. assert (0 ≤ Zsum tally l) by (apply Zsum_nonneg; intros; apply Hl; by right).
  assert (tally a = if counts a then f a else 0) as Ht by done. destruct (counts a); rewrite Ht in *.
  - rewrite wrap64_id by (unfold in_int64; lia). rewrite IH; [lia|lia|intros; apply Hl; by right|lia].
  - rewrite IH; [lia|done|intros; apply Hl; by right|lia].
Qed.

Lemma max_loop z l : foldl (λ m a, let v := f a in if m <? v then v else m) z l = foldl Z.max z (f <$> l).
Proof.
  revert z. induction l as [|a l IH]; intros z; csimpl; [done|]. rewrite IH. f_equal. destruct (Z.ltb_spec z (f a)); lia.
Qed.
End Loops.

(** What a pod asks of a resource: its containers run together, its init
    containers one after the other before them. *)
Definition demand (resource : string) (pod : WorkPod) : Z :=
  Z.max (Zsum (resourceValue resource) (wp_Containers pod)) (foldl Z.max 0 (resourceValue resource <$> wp_InitContainers pod)).

Definition nonneg_quantities (pod : WorkPod) : Prop :=
  ∀ c r, c ∈ wp_Containers pod ++ wp_InitContainers pod → 0 ≤ resourceValue r c.

Lemma demand_sum resource pod : nonneg_quantities pod → 0 ≤ Zsum (resourceValue resource) (wp_Containers pod) ≤ demand resource pod.
Proof.
  intros Hq. unfold demand. split; [|lia]. apply Zsum_nonneg. intros c Hc. apply Hq. set_solver.
Qed.

Lemma RequestedResources_demand resource pod : nonneg_quantities pod → demand resource pod < 2 ^ 63 →
  RequestedResources pod resource = demand resource pod.
Proof.
  intros Hq Hb. pose proof (demand_sum resource pod Hq) as Hs. unfold RequestedResources.
  rewrite (max_loop (resourceValue resource)).
  assert (foldl (λ sum c, wrap64 (sum + resourceValue resource c)) 0 (wp_Containers pod) = 0 + Zsum (resourceValue resource) (wp_Containers pod)) as ->.
  { apply (sum_loop (λ _, true) (resourceValue resource)); [lia| |].
    - intros c Hc. apply Hq. set_solver.
    - change (0 + Zsum (resourceValue resource) (wp_Containers pod) < 2 ^ 63). lia. }
  unfold demand. rewrite Z.add_0_l. destruct (Z.ltb_spec (foldl Z.max 0 (resourceValue resource <$> wp_InitContainers pod)) (Zsum (resourceValue resource) (wp_Containers pod))); lia.
Qed.

(** A pod that does not name a resource asks nothing of it. *)
Lemma demand_unnamed resource pod : ¬ names_resource pod resource → demand resource pod = 0.
Proof.
  intros Hn. assert (∀ c, c ∈ wp_Containers pod ++ wp_InitContainers pod → resourceValue resource c = 0) as Hz.
  { intros c Hc. unfold resourceValue. destruct (ct_Limits c !! resource) eqn:E1; [destruct Hn; exists c; split; [done|left; eauto]|].
    destruct (ct_Requests c !! resource) eqn:E2; [destruct Hn; exists c; split; [done|right; eauto]|done]. }
  unfold demand. rewrite Zsum_zero by (intros; apply Hz; set_solver).
  assert (∀ l, (∀ c, c ∈ l → resourceValue resource c = 0) → foldl Z.max 0 (resourceValue resource <$> l) = 0) as ->; [|done|intros; apply Hz; set_solver].
  induction l as [|c l IH]; intros Hl; csimpl; [done|]. rewrite (Hl c) by by left. apply IH. intros. apply Hl. by right.
Qed.

(** The int32 the pools report. *)
Lemma clamp_min z : 0 ≤ z → ClampInt64ToInt32 z = Z.min z (2 ^ 31 - 1).
Proof. intros Hz. unfold ClampInt64ToInt32. destruct (Z.ltb_spec z 0); [lia|]. destruct (Z.ltb_spec (2 ^ 31 - 1) z); lia. Qed.

Definition counted (resource : string) (pod : WorkPod) : Z := tally PodCountsTowardsUsage (demand resource) pod.

Lemma usedBy_spec resource l : (∀ pod, pod ∈ l → nonneg_quantities pod) → Zsum (counted resource) l < 2 ^ 63 →
  usedBy resource l = Z.min (Zsum (counted resource) l) (2 ^ 31 - 1).
Proof.
  intros Hq Hs. assert (∀ pod, pod ∈ l → 0 ≤ counted resource pod) as Hnn.
  { intros pod Hp. unfold counted, tally. destruct (PodCountsTowardsUsage pod); [|done]. pose proof (demand_sum resource pod (Hq _ Hp)). lia. }
  unfold usedBy. rewrite <- clamp_min by by apply Zsum_nonneg. f_equal.
  assert (∀ z l', (∀ pod, pod ∈ l' → nonneg_quantities pod ∧ counted resource pod < 2 ^ 63) →
    foldl (λ used pod, if PodCountsTowardsUsage pod then wrap64 (used + RequestedResources pod resource) else used) z l' =
    foldl (λ used pod, if PodCountsTowardsUsage pod then wrap64 (used + demand resource pod) else used) z l') as Heq.
  { intros z l'. revert z. induction l' as [|pod l' IH]; intros z Hl; simpl; [done|]. destruct (Hl pod ltac:(by left)) as [Hpq Hpb].
    rewrite IH by (intros; apply Hl; by right). f_equal. unfold counted, tally in Hpb. destruct (PodCountsTowardsUsage pod); [|done].
    by rewrite RequestedResources_demand. }
  rewrite Heq; [by rewrite sum_loop|]. intros pod Hp. split; [by apply Hq|]. apply list_elem_of_split in Hp as (l1 & l2 & ->).
  rewrite Zsum_app in Hs. simpl in Hs.
  assert (0 ≤ Zsum (counted resource) l1) by (apply Zsum_nonneg; intros; apply Hnn; set_solver).
  assert (0 ≤ Zsum (counted resource) l2) by (apply Zsum_nonneg; intros; apply Hnn; set_solver). lia.
Qed.

Section Usage.
Context {S : Type} `{PC : PoolClient S, PR : PodReader S, AE : ApiErrors, MC : MetaConditions, KO : KeyOrder}.

(** The labels do not depend on what else the webhook finds in the pod. *)
Lemma bindPod_labels (c : option S) store pool ref pod pod' : bindPod c store pool ref pod = Ok pod' →
  (wp_Containers pod' = wp_Containers pod ∧ wp_InitContainers pod' = wp_InitContainers pod) ∧
  wp_Labels pod' !! PoolNameKey = Some (pr_name ref) ∧ wp_Labels pod' !! PoolScopeKey = Some (scopeOf ref).
Proof.
  unfold bindPod, ensurePoolUsageLabels.
  destruct (ensureLabel PoolNameKey _ _) as [l1|] eqn:E1; [|done]. destruct (ensureLabel_inv _ _ _ _ E1) as [Hl1 _]. cbn [mbind res_bind].
  destruct (ensureLabel PoolScopeKey _ _) as [l2|] eqn:E2; [|done]. destruct (ensureLabel_inv _ _ _ _ E2) as [Hl2 _]. cbn [mbind res_bind].
  assert (l2 !! PoolNameKey = Some (pr_name ref)) as Hname by (rewrite Hl2, lookup_insert_ne by done; by rewrite Hl1, lookup_insert_eq).
  assert (l2 !! PoolScopeKey = Some (scopeOf ref)) as Hscope by by rewrite Hl2, lookup_insert_eq.
  destruct (ensurePoolNodeSelector _ _ _) as [pod2|] eqn:E3; [|done]. destruct (nodeSelector_inv _ _ _ _ E3) as [-> _]. cbn [mbind res_bind].
  set (pod0 := set_wp_NodeSelector _ _).
  destruct (if poolTaintsEnabled pool then _ else _) as [pod3|] eqn:E4; [|done]. cbn [mbind res_bind].
  destruct (spreadPod _ _ _ _ _ _) as [pod4|] eqn:E5; [|done]. destruct (spreadPod_again _ _ _ _ _ _ _ E5) as [-> _]. cbn [mbind res_bind].
  rewrite custom_eq. intros [= <-]. simpl. enough (∃ tols req, pod3 = set_wp_Required req (set_wp_Tolerations tols pod0)) as (tols & req & ->) by done.
  destruct (poolTaintsEnabled pool); [|injection E4 as <-; exists (wp_Tolerations pod0), (wp_Required pod0); done].
  unfold ensurePoolToleration in E4. destruct (fixToleration _ _ _) as [fixed|]; [|done]. cbn [mbind res_bind] in E4.
  destruct (ensurePoolAffinity _ _ _) as [pod5|] eqn:E6; [|done]. destruct (affinity_again _ _ _ _ E6) as (terms & -> & _). cbn [mbind res_bind] in E4.
  destruct (nodeTolerations_inv _ _ _ _ E4) as (taints & Hn & _). rewrite Hn in E4. injection E4 as <-.
  destruct fixed as [tols|]; eexists _, _; done.
Qed.

(** A pod as the webhook left it, apart from where it runs and how far it is. *)
Definition admitted (pod : WorkPod) : Prop := ∃ (c : option S) store ns pod0 pod1, PodDefault c store ns (Expected pod0) = Ok pod1 ∧
  wp_Containers pod = wp_Containers pod1 ∧ wp_InitContainers pod = wp_InitContainers pod1 ∧ wp_Labels pod = wp_Labels pod1.

Lemma admitted_labels pod ref : admitted pod → asks_for pod ref →
  wp_Labels pod !! PoolNameKey = Some (pr_name ref) ∧ wp_Labels pod !! PoolScopeKey = Some (scopeOf ref).
Proof.
  intros (c & store & ns & pod0 & pod1 & Hok & Hc & Hi & Hl) Hask.
  destruct (selectSinglePool pod0) as [[ref'|]|] eqn:Hsel.
  - destruct (PodDefault_inv _ _ _ _ _ _ Hsel Hok) as (_ & _ & pool & _ & Hb). destruct (bindPod_labels _ _ _ _ _ _ Hb) as ([Fc Fi] & Hn & Hs).
    assert (ref = ref') as ->.
    { apply selectSinglePool_some in Hsel as [_ Ho]. apply Ho. destruct Hask as [Hn' Hp]. split; [|done]. eapply names_resource_ext, Hn'; congruence. }
    by rewrite Hl.
  - exfalso. assert (pod1 = pod0) as -> by (unfold PodDefault in Hok; rewrite Hsel in Hok; by injection Hok).
    destruct Hask as [Hn Hp]. assert (collectPools pod0 !! poolLabelKey ref = Some ref) as Hr.
    { apply collectPools_lookup. split; [|done]. eapply names_resource_ext, Hn; congruence. }
    unfold selectSinglePool in Hsel. apply elem_of_map_to_list in Hr.
    destruct (map_to_list (collectPools pod0)) as [|? [|? ?]]; [by apply not_elem_of_nil in Hr|done..].
  - unfold PodDefault in Hok. by rewrite Hsel in Hok.
Qed.

(** The pods of a namespace, or of all. *)
Definition within (ns : option string) (pod : WorkPod) : bool := match ns with Some ns => str_eqb (wp_Namespace pod) ns | None => true end.

(** What the API server is documented to do with pods and with the capacity of a pool. *)
Class PodServer := {
  pods : S → list WorkPod;
  pools : S → gmap (string * string) GPUPool;
  list_pods s ns name scope l : pr_ListPods ns name scope s = Ok l →
    l ≡ₚ filter (λ p, wp_Labels p !! PoolNameKey = Some name ∧ wp_Labels p !! PoolScopeKey = Some scope ∧ within ns p = true) (pods s);
  list_pods_error s ns name scope e : pr_ListPods ns name scope s = Err e → errorsIs e ErrStopHandlerChain = false;
  pool_key s k p : pools s !! k = Some p → key_of p = k;
  read_pool s ns name p : pc_GetPool ns name s = Ok p → pools s !! (ns, name) = Some p;
  read_pool_missing s ns name e : pc_GetPool ns name s = Err e → pc_IsNotFound e = true → pools s !! (ns, name) = None;
  read_cluster_pool s name p : pc_GetClusterPool name s = Ok p → pools s !! ("", name) = Some p;
  read_cluster_pool_missing s name e : pc_GetClusterPool name s = Err e → pc_IsNotFound e = true → pools s !! ("", name) = None;
  patch_capacity s p cap s' : pr_PatchCapacity p cap s = (None, s') → pools s !! key_of p = Some p →
    pools s' = <[key_of p := set_PoolStatus (mkPoolStatus cap (gpst_Conditions (gp_Status p))) p]> (pools s) ∧ pods s' = pods s;
  patch_capacity_failed s p cap e s' : pr_PatchCapacity p cap s = (Some e, s') → pools s' = pools s ∧ pods s' = pods s;
}.
Context `{PSV : PodServer}.
Abbreviation seen s := (pools s, pods s).

Definition with_capacity (cap : GPUPoolCapacityStatus) (p : GPUPool) : GPUPool := set_PoolStatus (mkPoolStatus cap (gpst_Conditions (gp_Status p))) p.

(** The reads of the two controllers. *)
Definition reads (get : S → res GPUPool) (k : string * string) : Prop :=
  (∀ s p, get s = Ok p → pools s !! k = Some p) ∧ (∀ s e, get s = Err e → pc_IsNotFound e = true → pools s !! k = None).

Lemma retry_seen n (fn : S → option error * S) s s' :
  (∀ s0 e s1, fn s0 = (Some e, s1) → seen s1 = seen s0) → retryN n fn s = (None, s') → ∃ s0, seen s0 = seen s ∧ fn s0 = (None, s').
Proof.
  intros Hfail. revert s. induction n as [|n IH]; intros s; simpl; destruct (fn s) as [[e|] s1] eqn:Hf; try (intros [= <-]; by exists s);
    destruct (IsConflict e); try done. intros Hr. destruct (IH _ Hr) as (s0 & Hs & Ho). exists s0. split; [|done]. by rewrite Hs, (Hfail _ _ _ Hf).
Qed.

Lemma patchStatus_ok get k used s s' p : reads get k → pools s !! k = Some p → patchStatus get used s = (None, s') →
  pools s' = <[k := with_capacity (withUsage used (gpst_Capacity (gp_Status p))) p]> (pools s) ∧ pods s' = pods s.
Proof.
  intros [Hget Hmiss] Hp Hr. apply retry_seen in Hr as (s0 & [= Hpools Hpods] & Hf).
  - rewrite <- Hpools in Hp |- *. rewrite <- Hpods. revert Hf. unfold fetch. destruct (get s0) as [q|e] eqn:Hg.
    + rewrite (Hget _ _ Hg) in Hp. injection Hp as ->. destruct (_ && _) eqn:Hsame.
      * intros [= <-]. split; [|done]. rewrite insert_id; [done|]. rewrite (Hget _ _ Hg). f_equal. apply andb_true_iff in Hsame as [Hu Ha]. apply Z.eqb_eq in Hu, Ha.
        destruct p as [? ? ? ? ? ? [[] ?]]. unfold with_capacity, withUsage, set_PoolStatus in *. simpl in *. by rewrite Hu, Ha at 1.
      * intros Hpatch. pose proof (pool_key _ _ _ (Hget _ _ Hg)) as Hk.
        destruct (patch_capacity _ _ _ _ Hpatch) as [-> ->]; [by rewrite Hk; apply Hget|]. by rewrite Hk.
    + destruct (pc_IsNotFound e) eqn:He; [|done]. by rewrite (Hmiss _ _ Hg He) in Hp.
  - intros s0 e s1. unfold fetch. destruct (get s0) as [q|e0]; [|destruct (pc_IsNotFound e0); [done|by intros [= _ <-]]].
    destruct (_ && _); [done|]. intros [-> ->]%patch_capacity_failed. done.
Qed.

(** A reconcile of a usage controller that reports nothing. *)
Lemma reconcileUsage_ok store get usage k s s' p : reads get k → match store with Some st => ms_Enabled st = true | None => True end →
  (∀ p s e, usage p s = Err e → errorsIs e ErrStopHandlerChain = false) → pools s !! k = Some p →
  reconcileUsage store get usage s = ((zeroResult, []), s') →
  ∃ used, usage p s = Ok used ∧ pools s' = <[k := with_capacity (withUsage used (gpst_Capacity (gp_Status p))) p]> (pools s) ∧ pods s' = pods s.
Proof.
  intros Hr Hst Hstop Hp. unfold reconcileUsage, fetch.
  replace (match store with Some st => negb (ms_Enabled st) | None => false end) with false by (destruct store; [by rewrite Hst|done]).
  destruct (get s) as [q|e] eqn:Hg; [|destruct (pc_IsNotFound e) eqn:He; [by rewrite (proj2 Hr _ _ Hg He) in Hp|done]].
  rewrite (proj1 Hr _ _ Hg) in Hp. injection Hp as ->.
  destruct (cp_Reconcile _ _) as [out [u1 s1]] eqn:Hrec. intros [= -> ->].
  apply (cp_reconcile_quiet (usageChain (usage p) get) _ _ _ _ eq_refl eq_refl (λ _, eq_refl)) in Hrec as ([u2 s2] & Hloop & Hup).
  apply cp_loop_quiet in Hloop as [(r & s3 & r1 & Hex & Hend)|(r & e & Hex & He)].
  - simpl in Hend. injection Hend as _ ->. simpl in Hex. destruct (usage p s) as [used|] eqn:Hu; [|done]. injection Hex as _ <- <-.
    simpl in Hup. destruct (patchStatus get used s) as [err s4] eqn:Hpatch. injection Hup as -> _ ->. exists used. split; [done|].
    eapply patchStatus_ok; [done|by apply Hr|done].
  - simpl in Hex. destruct (usage p s) as [used|e'] eqn:Hu; [done|]. injection Hex as _ <- _ _. by rewrite (Hstop _ _ _ Hu) in He.
Qed.

Definition poolPrefix (wide : bool) : string := if wide then clusterPoolResourcePrefix else localPoolResourcePrefix.
Definition usageReconcile (store : option ModuleSettings) (wide : bool) (ns name : string) : S → (Result * list error) * S :=
  if wide then ClusterGPUPoolUsageReconcile store name else GPUPoolUsageReconcile store ns name.

(** What the pods of a namespace, or of all, ask of a resource. *)
Definition inUse (ns : option string) (resource : string) (l : list WorkPod) : Z := Zsum (tally (within ns) (counted resource)) l.

(** The listing of a pool has the pods that ask for it, and whatever else it has
    asks nothing. *)
Lemma listed_inUse ref ns s l : pr_keyPrefix ref = localPoolResourcePrefix ∨ pr_keyPrefix ref = clusterPoolResourcePrefix → pr_name ref ≠ "" →
  (∀ pod, pod ∈ pods s → asks_for pod ref → admitted pod) → pr_ListPods ns (pr_name ref) (scopeOf ref) s = Ok l →
  Zsum (counted (poolLabelKey ref)) l = inUse ns (poolLabelKey ref) (pods s).
Proof.
  intros Hpre Hn Hadm Hl. rewrite (list_pods _ _ _ _ _ Hl). clear Hl. unfold inUse. induction (pods s) as [|pod l' IH]; [done|].
  rewrite filter_cons. assert (∀ pod, pod ∈ l' → asks_for pod ref → admitted pod) as Hadm' by (intros ???; apply Hadm; [by right|done]). simpl.
  rewrite <- (IH Hadm'). unfold tally at 1. case_decide as Hd; simpl.
  - destruct Hd as (_ & _ & ->). done.
  - destruct (within ns pod) eqn:Hw; [|done]. enough (counted (poolLabelKey ref) pod = 0) as -> by done.
    unfold counted, tally. rewrite demand_unnamed; [by destruct (PodCountsTowardsUsage pod)|]. intros Hnamed. apply Hd.
    assert (poolOfResource (poolLabelKey ref) = Some ref) as Href by (destruct ref; by apply poolOfResource_of).
    assert (asks_for pod ref) as Hask by by split.
    destruct (admitted_labels pod ref) as [Hl1 Hl2]; [apply Hadm; [by left|done]|done|]. done.
Qed.

(** C35: a usage reconcile of a module that is not enabled does nothing.  After
    one of an enabled module that reports nothing, a pool shows what the pods
    running in its namespace (or, for a cluster-wide pool, anywhere) ask of its
    resource, cut off at the int32 the status has room for, and what of its
    capacity is left, never negative; nothing else of the pool changes, no other
    pool and no pod.  The pods that ask for the pool are to have passed the
    webhook, and quantities not to be negative nor add up to 2^63. *)
Theorem usage_exact store (wide : bool) ns name s s' p : name ≠ "" →
  (∀ pod, pod ∈ pods s → nonneg_quantities pod ∧ (asks_for pod (mkPoolRequest name (poolPrefix wide)) → admitted pod)) →
  pools s !! (if wide then "" else ns, name) = Some p →
  let resource := poolPrefix wide +:+ name in
  let used := inUse (if wide then None else Some ns) resource (pods s) in
  let total := gcap_Total (gpst_Capacity (gp_Status p)) in
  used < 2 ^ 63 → 0 ≤ total < 2 ^ 31 → usageReconcile store wide ns name s = ((zeroResult, []), s') →
  let shown := Z.min used (2 ^ 31 - 1) in
  if match store with Some st => ms_Enabled st | None => true end then
    pools s' = <[(if wide then "" else ns, name) := with_capacity (mkCapacityStatus total (Z.max 0 (total - shown)) shown) p]> (pools s) ∧ pods s' = pods s
  else s' = s.
Proof.
  intros Hname Hpods Hp resource used total Hused Htotal Hrec shown.
  destruct (match store with Some st => ms_Enabled st | None => true end) eqn:Hen.
  2: { destruct store as [st|]; [|done]. revert Hrec. unfold usageReconcile, ClusterGPUPoolUsageReconcile, GPUPoolUsageReconcile, reconcileUsage.
       rewrite Hen. by destruct wide; intros [= <-]. }
  assert (match store with Some st => ms_Enabled st = true | None => True end) as Hst by by destruct store.
  set (ref := mkPoolRequest name (poolPrefix wide)). set (k := (if wide then "" else ns, name)) in *.
  set (get := if wide then pc_GetClusterPool name else pc_GetPool ns name).
  set (usage := if wide then clusterPoolUsage else poolUsage).
  assert (reads get k) as Hreads.
  { unfold get, k. destruct wide; split; intros; [by apply read_cluster_pool|by eapply read_cluster_pool_missing|by apply read_pool|by eapply read_pool_missing]. }
  assert (gp_Name p = name ∧ (wide = false → gp_Namespace p = ns)) as [Hpn Hpns].
  { pose proof (pool_key _ _ _ Hp) as Hk. unfold key_of, k in Hk. injection Hk as E1 E2. split; [done|]. by intros ->. }
  assert (∀ q s, usage q s = usedBy (poolPrefix wide +:+ gp_Name q) <$> pr_ListPods (if wide then None else Some (gp_Namespace q)) (gp_Name q) (scopeOf ref) s) as Husage.
  { intros q s0. unfold usage, ref, scopeOf, poolPrefix. by destruct wide. }
  destruct (reconcileUsage_ok store get usage k s s' p Hreads Hst) as (n & Hn & Hp' & Hs'); [|done|by revert Hrec; unfold usageReconcile, get, usage; destruct wide|].
  { intros q s0 e. rewrite Husage. destruct (pr_ListPods _ _ _ s0) as [|e0] eqn:Hl; [done|]. intros [= <-]. by eapply list_pods_error. }
  split; [|done]. rewrite Hp'. rewrite Husage, Hpn in Hn.
  replace (if wide then None else Some (gp_Namespace p)) with (if wide then None else Some ns) in Hn by (destruct wide; [done|by rewrite Hpns]).
  destruct (pr_ListPods _ _ _ s) as [l|] eqn:Hl; [|done]. injection Hn as <-.
  assert (Zsum (counted resource) l = used) as Hsum.
  { apply (listed_inUse ref); [unfold ref, poolPrefix; destruct wide; auto|done|intros pod Hin Hask; by apply Hpods|done]. }
  assert (usedBy resource l = shown) as Hshown.
  { unfold shown. rewrite <- Hsum. apply usedBy_spec; [|by rewrite Hsum]. intros pod Hin. apply Hpods. rewrite (list_pods _ _ _ _ _ Hl) in Hin.
    by apply list_elem_of_filter in Hin as [_ Hin]. }
  fold resource. rewrite Hshown. assert (0 ≤ shown < 2 ^ 31) as Hrange.
  { unfold shown. split; [|lia]. apply Z.min_glb; [|lia]. apply Zsum_nonneg. intros pod Hin. unfold tally at 1. destruct (within _ pod); [|done].
    unfold counted, tally. destruct (PodCountsTowardsUsage pod); [|done]. pose proof (demand_sum resource pod (proj1 (Hpods _ Hin))). lia. }
  f_equal. unfold withUsage. f_equal. fold total. rewrite wrap32_id by lia. f_equal. destruct (Z.ltb_spec (total - shown) 0); lia.
Qed.
End Usage.
