(* ===== verification/DeviceInventory.v ===== *)
(** * The inventory of a node

    controller/inventory: the labels of a node and its NodeFeature describe its
    GPUs; the inventory controller keeps one GPUDevice per GPU, with what is
    known of its hardware, and the GPUNodeState of the node.  The device
    catalogue (hardware/nvidia, generated), float64 arithmetic and the answers
    of the gfd-extender are parameters; ranges over maps are in any order. *)

From S2P Require Import Prelude GoLib Reconciler GpuApi PoolApi CpReconciler PoolSync.

From Stdlib Require Import Ascii.

(** ** internal/state/types.go, consts.go *)

Record deviceSnapshot := mkSnapshot {
  ds_Index : string;
  ds_Vendor : string;
  ds_Device : string;
  ds_Class : string;
  ds_PCIAddress : string;
  ds_Product : string;
  ds_MemoryMiB : Z;
  ds_ComputeMajor : Z;
  ds_ComputeMinor : Z;
  ds_UUID : string;
  ds_Precision : list string;
  ds_NUMANode : option Z;
  ds_PowerLimitMW : option Z;
  ds_SMCount : option Z;
  ds_MemBandwidth : option Z;
  ds_PCIEGen : option Z;
  ds_PCIELinkWid : option Z;
  ds_Board : string;
  ds_Family : string;
  ds_Serial : string;
  ds_PState : string;
  ds_DisplayMode : string;
  ds_MIG : GPUMIGConfig;
}.

Definition noMIG : GPUMIGConfig := mkMIGConfig false "" [] [].
(** A [deviceSnapshot] with these fields and zero values. *)
Definition bareSnapshot (index vendor device class product : string) (memory : Z) : deviceSnapshot :=
  mkSnapshot index vendor device class "" product memory 0 0 "" [] None None None None None None "" "" "" "" "" noMIG.

Record nodeDriverSnapshot := mkDriverSnapshot {
  nd_Version : string;
  nd_CUDAVersion : string;
  nd_ToolkitInstalled : bool;
  nd_ToolkitReady : bool;
}.
Record nodeSnapshot := mkNodeSnapshot {
  ns_Managed : bool;
  ns_FeatureDetected : bool;
  ns_Driver : nodeDriverSnapshot;
  ns_Devices : list deviceSnapshot;
  ns_Labels : gmap string string;
}.

Definition deviceLabelPrefix : string := "gpu.deckhouse.io/device.".
Definition DeviceNodeLabelKey : string := "gpu.deckhouse.io/node".
Definition DeviceIndexLabelKey : string := "gpu.deckhouse.io/device-index".
Definition DefaultManagedNodeLabelKey : string := "gpu.deckhouse.io/enabled".
Definition gfdProductLabel : string := "nvidia.com/gpu.product".
Definition gfdMemoryLabel : string := "nvidia.com/gpu.memory".
Definition gfdComputeMajorLabel : string := "nvidia.com/gpu.compute.major".
Definition gfdComputeMinorLabel : string := "nvidia.com/gpu.compute.minor".
Definition gfdDriverVersionLabel : string := "nvidia.com/gpu.driver".
Definition gfdCudaRuntimeVersionLabel : string := "nvidia.com/cuda.runtime.version".
Definition gfdCudaDriverMajorLabel : string := "nvidia.com/cuda.driver.major".
Definition gfdCudaDriverMinorLabel : string := "nvidia.com/cuda.driver.minor".
Definition gfdMigCapableLabel : string := "nvidia.com/mig.capable".
Definition gfdMigStrategyLabel : string := "nvidia.com/mig.strategy".
Definition gfdMigAltCapableLabel : string := "nvidia.com/mig-capable".
Definition gfdMigAltStrategy : string := "nvidia.com/mig-strategy".
Definition deckhouseToolkitInstalled : string := "gpu.deckhouse.io/toolkit.installed".
Definition deckhouseToolkitReadyLabel : string := "gpu.deckhouse.io/toolkit.ready".
Definition migProfileLabelPrefix : string := "nvidia.com/mig-".
Definition vendorNvidia : string := "10de".

(** A NodeFeature: the labels and, per feature, its instances with their
    attributes, each of which may be nil. *)
Record NodeFeature := mkNodeFeature {
  nf_Name : string;
  nf_ResourceVersion : string;
  nf_Labels : gmap string string;
  nf_Instances : option (gmap string (list (option (gmap string string))));
}.

(** ** The numbers of parse.go *)

(** float64: [math.Round] and the conversion to int32 are one operation. *)
Class Float64 := {
  float64 : Type;
  ParseFloat : string → option float64;
  f_scale : Z → float64 → float64;
  f_roundInt32 : float64 → Z;
}.

Fixpoint extractLeadingDigits (value : string) : string :=
  match value with
  | EmptyString => EmptyString
  | String c rest => if is_digit c then String c (extractLeadingDigits rest) else EmptyString
  end.

Definition parseInt32 (value : string) : Z :=
  let value := TrimSpace value in
  if str_eqb value "" then 0 else
  match Atoi value with
  | Some number => wrap32 number
  | None =>
      let digits := extractLeadingDigits value in
      if str_eqb digits "" then 0 else
      match Atoi digits with Some number => wrap32 number | None => 0 end
  end.

Definition parseOptionalInt32 (value : string) : option Z :=
  let value := TrimSpace value in if str_eqb value "" then None else Some (parseInt32 value).

Definition parseBool (value : string) : bool :=
  let value := TrimSpace (ToLower value) in
  str_eqb value "true" || str_eqb value "1" || str_eqb value "yes" || str_eqb value "on".

Section Parse.
Context `{F64 : Float64}.

Definition scaleUnit (unit : string) (f : float64) : float64 :=
  if str_eqb unit "gib" || str_eqb unit "gb" then f_scale 1024 f else
  if str_eqb unit "tib" || str_eqb unit "tb" then f_scale (1024 * 1024) f else f.
Definition parseMemoryMiB (value : string) : Z :=
  let value := TrimSpace value in
  if str_eqb value "" then 0 else
  match Fields value with
  | [] => 0
  | numberPart :: rest =>
      let unit := match rest with u :: _ => ToLower u | [] => "" end in
      match ParseFloat numberPart with
      | Some f => f_roundInt32 (scaleUnit unit f)
      | None =>
          let digits := extractLeadingDigits numberPart in
          if str_eqb digits "" then 0 else
          match ParseFloat digits with Some f => f_roundInt32 (scaleUnit unit f) | None => 0 end
      end
  end.
End Parse.

(** ** device_extract.go *)

Definition canonicalIndex (index : string) : string :=
  let index := TrimSpace index in
  if str_eqb index "" then "0" else match Atoi index with Some i => Itoa i | None => index end.

Definition sortDeviceSnapshots `{GoSort} (devices : list deviceSnapshot) : list deviceSnapshot :=
  sort_Slice (λ a b, str_ltb (ds_Index a) (ds_Index b)) devices.

Section Extract.
Context `{F64 : Float64, KO : KeyOrder, GS : GoSort}.

(** One label of a device. *)
Definition setField (field value : string) (info : deviceSnapshot) : deviceSnapshot :=
  let '(mkSnapshot idx vendor device class pci product mem cmaj cmin uuid prec numa pow sm bw gen wid board fam ser ps dm mig) := info in
  let lower := ToLower value in
  mkSnapshot idx (if str_eqb field "vendor" then lower else vendor) (if str_eqb field "device" then lower else device)
    (if str_eqb field "class" then lower else class) pci (if str_eqb field "product" then value else product)
    (if str_eqb field "memoryMiB" then parseMemoryMiB value else mem) cmaj cmin uuid prec numa pow sm bw gen wid board fam ser ps dm mig.

(** The index and the field a label is about. *)
Definition labelTarget (key : string) : option (string * string) :=
  if negb (HasPrefix key deviceLabelPrefix) then None else
  match SplitN2 (TrimPrefix key deviceLabelPrefix) "." with
  | [index; field] => Some (canonicalIndex index, field)
  | _ => None
  end.

Definition collectLabel (labels : gmap string string) (devices : gmap string deviceSnapshot) (key : string) : gmap string deviceSnapshot :=
  match labelTarget key with
  | None => devices
  | Some (index, field) =>
      let info := default (bareSnapshot index "" "" "" "" 0) (devices !! index) in
      <[index := setField field (label labels key) info]> devices
  end.

Definition complete (d : deviceSnapshot) : bool :=
  negb (str_eqb (ds_Vendor d) "" || str_eqb (ds_Device d) "" || str_eqb (ds_Class d) "") && str_eqb (ds_Vendor d) vendorNvidia.

Definition extractDeviceSnapshots (labels : gmap string string) : list deviceSnapshot :=
  let devices := foldl (collectLabel labels) ∅ (range_keys 10 (dom labels)) in
  sortDeviceSnapshots (List.filter complete (omap (devices !!.) (range_keys 11 (dom devices)))).
End Extract.

(** ** mig.go *)

Definition firstExisting (labels : gmap string string) (keys : list string) : option string := head (omap (labels !!.) keys).
Definition firstNonEmpty (values : list string) : string :=
  default "" (head (List.filter (λ v, negb (str_eqb (TrimSpace v) "")) values)).

Definition migStrategy (value : string) : string :=
  let v := ToLower value in
  if str_eqb v "single" then GPUMIGStrategySingle else if str_eqb v "mixed" then GPUMIGStrategyMixed else GPUMIGStrategyNone.

(** The profile and the metric of a label [nvidia.com/mig-1g.5gb.count]. *)
Definition migLabel (key : string) : option (string * string) :=
  if negb (HasPrefix key migProfileLabelPrefix) then None else
  match cut "." (TrimPrefix key migProfileLabelPrefix) with
  | None => None
  | Some (first, rest) =>
      match cut "." rest with
      | None => None
      | Some (second, metric) => if str_eqb metric "" then None else Some (ToLower (first +:+ "." +:+ second), metric)
      end
  end.

Definition metricPriority (metric : string) : option Z :=
  if str_eqb metric "count" then Some 3 else if str_eqb metric "ready" then Some 2 else if str_eqb metric "available" then Some 1 else None.

(** The profiles seen, and per profile the count with the priority it has. *)
Definition migState : Type := gset string * gmap string (Z * Z).
Definition collectMig (labels : gmap string string) (st : migState) (key : string) : migState :=
  let '(profiles, types) := st in
  match migLabel key with
  | None => st
  | Some (profile, metric) =>
      let value := label labels key in
      let count := parseInt32 value in
      if (count =? 0) && str_eqb value "" then st else
      let profiles := {[profile]} ∪ profiles in
      match metricPriority metric with
      | None => (profiles, types)
      | Some priority =>
          let '(old, prio) := default (0, 0) (types !! profile) in
          (profiles, <[profile := if prio <? priority then (count, priority) else (old, prio)]> types)
      end
  end.

Section Mig.
Context `{KO : KeyOrder, GS : GoSort}.

Definition parseMIGConfig (labels : gmap string string) : GPUMIGConfig :=
  let capable := match firstExisting labels [gfdMigCapableLabel; gfdMigAltCapableLabel] with Some v => parseBool v | None => false end in
  let strategy := match firstExisting labels [gfdMigStrategyLabel; gfdMigAltStrategy] with Some v => migStrategy v | None => "" end in
  let '(profiles, types) := foldl (collectMig labels) (∅, ∅) (range_keys 12 (dom labels)) in
  mkMIGConfig capable strategy (sort_Strings (range_keys 13 profiles))
    (sort_Slice (λ a b, str_ltb (mtc_Name a) (mtc_Name b))
       (omap (λ name, (λ e : Z * Z, mkMIGTypeCapacity name e.1) <$> types !! name) (range_keys 14 (dom types)))).
End Mig.

Definition migConfigEmpty (cfg : GPUMIGConfig) : bool :=
  negb (mig_Capable cfg) && str_eqb (mig_Strategy cfg) "" && list_len0 (mig_ProfilesSupported cfg) && list_len0 (mig_Types cfg).

(** ** defaults.go, driver.go *)

Section Defaults.
Context `{F64 : Float64, KO : KeyOrder, GS : GoSort}.

Definition parseHardwareDefaults (labels : gmap string string) : deviceSnapshot :=
  let l := label labels in
  let mig := parseMIGConfig labels in
  let capable := mig_Capable mig || negb (list_len0 (mig_Types mig)) || negb (list_len0 (mig_ProfilesSupported mig)) in
  mkSnapshot "" "" "" "" "" (firstNonEmpty [l gfdProductLabel]) (parseMemoryMiB (l gfdMemoryLabel)) (parseInt32 (l gfdComputeMajorLabel))
    (parseInt32 (l gfdComputeMinorLabel)) "" [] (parseOptionalInt32 (l "nvidia.com/gpu.numa.node")) (parseOptionalInt32 (l "nvidia.com/gpu.power.limit"))
    (parseOptionalInt32 (l "nvidia.com/gpu.sm.count")) (parseOptionalInt32 (l "nvidia.com/gpu.memory.bandwidth"))
    (parseOptionalInt32 (l "nvidia.com/gpu.pcie.gen")) (parseOptionalInt32 (l "nvidia.com/gpu.pcie.link.width"))
    (TrimSpace (l "nvidia.com/gpu.board")) (TrimSpace (l "nvidia.com/gpu.family")) (TrimSpace (l "nvidia.com/gpu.serial"))
    (TrimSpace (l "nvidia.com/gpu.pstate")) (TrimSpace (l "nvidia.com/gpu.display_mode"))
    (mkMIGConfig capable (mig_Strategy mig) (mig_ProfilesSupported mig) (mig_Types mig)).
End Defaults.

Definition parseDriverInfo (labels : gmap string string) : nodeDriverSnapshot :=
  let l := label labels in
  let cudaMajor := TrimSpace (l gfdCudaDriverMajorLabel) in
  let cudaMinor := TrimSpace (l gfdCudaDriverMinorLabel) in
  let cuda :=
    if negb (str_eqb cudaMajor "") then (if negb (str_eqb cudaMinor "") then cudaMajor +:+ "." +:+ cudaMinor else cudaMajor)
    else if negb (str_eqb (l gfdCudaRuntimeVersionLabel) "") then TrimSpace (l gfdCudaRuntimeVersionLabel) else "" in
  let ready := parseBool (l deckhouseToolkitReadyLabel) in
  mkDriverSnapshot (TrimSpace (l gfdDriverVersionLabel)) cuda (parseBool (l deckhouseToolkitInstalled) || ready) ready.

(** ** enrich_feature.go *)

(** [strings.FieldsFunc] *)
Fixpoint fieldsFunc (p : ascii → bool) (word s : string) : list string :=
  let flush := if str_eqb word "" then [] else [word] in
  match s with
  | EmptyString => flush
  | String c s' => if p c then flush ++ fieldsFunc p EmptyString s' else fieldsFunc p (word +:+ String c EmptyString) s'
  end.
Definition listSeparator (c : ascii) : bool :=
  bool_decide (c = ","%char) || bool_decide (c = ";"%char) || bool_decide (c = " "%char) || bool_decide (c = ascii_of_nat 9).
Definition splitAndNormalizeList (input : string) : list string :=
  List.filter (λ f, negb (str_eqb f "")) (TrimSpace <$> fieldsFunc listSeparator EmptyString input).

Fixpoint deduplicateFrom (seen : gset string) (items : list string) : list string :=
  match items with
  | [] => []
  | i :: rest => if bool_decide (i ∈ seen) then deduplicateFrom seen rest else i :: deduplicateFrom ({[i]} ∪ seen) rest
  end.
Definition deduplicateStrings (items : list string) : list string := deduplicateFrom ∅ items.

Section Enrich.
Context `{F64 : Float64, KO : KeyOrder, GS : GoSort}.

Definition extractPrecision (attrs : gmap string string) : list string :=
  let raw := label attrs "precision" in
  let named := if str_eqb raw "" then [] else splitAndNormalizeList raw in
  let flags := omap (λ key, if HasPrefix key "precision." && parseBool (label attrs key) then Some (TrimPrefix key "precision.") else None)
                 (range_keys 15 (dom attrs)) in
  sort_Strings (deduplicateStrings (named ++ flags)).

(** The first of the two that is set. *)
Definition orElse (current new : string) : string := if str_eqb current "" then new else current.
Definition over (new current : string) : string := if str_eqb new "" then current else new.
Definition overInt (new current : option Z) : option Z := match new with Some _ => new | None => current end.

(** What an instance says of a device. *)
Definition applyInstance (attrs : gmap string string) (d : deviceSnapshot) : deviceSnapshot :=
  let a := label attrs in
  let mem := parseMemoryMiB (a "memory.total") in
  let major := parseInt32 (a "compute.major") in
  let minor := parseInt32 (a "compute.minor") in
  let precisions := extractPrecision attrs in
  mkSnapshot (ds_Index d) (orElse (ds_Vendor d) (ToLower (a "vendor"))) (orElse (ds_Device d) (ToLower (a "device")))
    (orElse (ds_Class d) (ToLower (a "class"))) (over (TrimSpace (a "pci.address")) (ds_PCIAddress d))
    (orElse (ds_Product d) (TrimSpace (a "product"))) (if 0 <? mem then mem else ds_MemoryMiB d)
    (if negb (major =? 0) then major else ds_ComputeMajor d) (if negb (minor =? 0) then minor else ds_ComputeMinor d)
    (over (TrimSpace (a "uuid")) (ds_UUID d)) (if list_len0 precisions then ds_Precision d else precisions)
    (overInt (parseOptionalInt32 (a "numa.node")) (ds_NUMANode d)) (overInt (parseOptionalInt32 (a "power.limit")) (ds_PowerLimitMW d))
    (overInt (parseOptionalInt32 (a "sm.count")) (ds_SMCount d)) (overInt (parseOptionalInt32 (a "memory.bandwidth")) (ds_MemBandwidth d))
    (overInt (parseOptionalInt32 (a "pcie.gen")) (ds_PCIEGen d)) (overInt (parseOptionalInt32 (a "pcie.link.width")) (ds_PCIELinkWid d))
    (orElse (ds_Board d) (TrimSpace (a "board"))) (orElse (ds_Family d) (TrimSpace (a "family"))) (orElse (ds_Serial d) (TrimSpace (a "serial")))
    (orElse (ds_PState d) (TrimSpace (a "pstate"))) (orElse (ds_DisplayMode d) (TrimSpace (a "display_mode"))) (ds_MIG d).

(** One instance: the devices and where each index is. *)
Definition enrichInstance (st : list deviceSnapshot * gmap string nat) (inst : option (gmap string string)) : list deviceSnapshot * gmap string nat :=
  let '(devices, indexMap) := st in
  match inst with
  | None => st
  | Some attrs =>
      let index := canonicalIndex (label attrs "index") in
      match indexMap !! index with
      | Some i => (alter (applyInstance attrs) i devices, indexMap)
      | None =>
          let vendor := ToLower (label attrs "vendor") in
          let device := ToLower (label attrs "device") in
          let class := ToLower (label attrs "class") in
          if str_eqb vendor "" || str_eqb device "" || str_eqb class "" then st else
          (devices ++ [applyInstance attrs (bareSnapshot index vendor device class "" 0)], <[index := length devices]> indexMap)
      end
  end.

Definition indexPositions (devices : list deviceSnapshot) : gmap string nat :=
  foldl (λ m '(i, d), <[ds_Index d := i]> m) ∅ (imap pair devices).

Definition enrichDevicesFromFeature (devices : list deviceSnapshot) (feature : option NodeFeature) : list deviceSnapshot :=
  match feature with
  | None => devices
  | Some f =>
      match nf_Instances f with
      | None => devices
      | Some instances =>
          match instances !! "nvidia.com/gpu" with
          | None => devices
          | Some elements => sortDeviceSnapshots (foldl enrichInstance (devices, indexPositions devices) elements).1
          end
      end
  end.
End Enrich.

(** ** catalog.go, node_snapshot.go *)

Class Catalog := DeviceNames : gmap string string.

Definition set_Product (product : string) (d : deviceSnapshot) : deviceSnapshot :=
  let '(mkSnapshot idx vendor device class pci _ mem cmaj cmin uuid prec numa pow sm bw gen wid board fam ser ps dm mig) := d in
  mkSnapshot idx vendor device class pci product mem cmaj cmin uuid prec numa pow sm bw gen wid board fam ser ps dm mig.

Definition catalogProduct `{Catalog} (d : deviceSnapshot) : deviceSnapshot :=
  if negb (str_eqb (ds_Product d) "") then d else
  let vendor := ToLower (ds_Vendor d) in
  if str_eqb vendor "10de" then
    match DeviceNames !! (vendor +:+ ":" +:+ ToLower (ds_Device d)) with Some name => set_Product name d | None => d end
  else d.
Definition enrichDevicesFromCatalog `{Catalog} (devices : list deviceSnapshot) : list deviceSnapshot := catalogProduct <$> devices.

Record ManagedNodesPolicy := mkManagedPolicy { mp_LabelKey : string; mp_EnabledByDefault : bool }.

Definition nodeManaged (labels : gmap string string) (policy : ManagedNodesPolicy) : bool :=
  match labels !! mp_LabelKey policy with Some val => negb (EqualFold val "false") | None => mp_EnabledByDefault policy end.

Definition orDefault (value default : Z) : Z := if value =? 0 then default else value.
Definition orNil (value default : option Z) : option Z := match value with Some _ => value | None => default end.

(** A device completed with the defaults of its node. *)
Definition withDefaults (defaults d : deviceSnapshot) : deviceSnapshot :=
  mkSnapshot (ds_Index d) (ds_Vendor d) (ds_Device d) (ds_Class d) (ds_PCIAddress d) (orElse (ds_Product d) (ds_Product defaults))
    (orDefault (ds_MemoryMiB d) (ds_MemoryMiB defaults)) (orDefault (ds_ComputeMajor d) (ds_ComputeMajor defaults))
    (orDefault (ds_ComputeMinor d) (ds_ComputeMinor defaults)) (ds_UUID d) (ds_Precision d) (orNil (ds_NUMANode d) (ds_NUMANode defaults))
    (orNil (ds_PowerLimitMW d) (ds_PowerLimitMW defaults)) (orNil (ds_SMCount d) (ds_SMCount defaults))
    (orNil (ds_MemBandwidth d) (ds_MemBandwidth defaults)) (orNil (ds_PCIEGen d) (ds_PCIEGen defaults))
    (orNil (ds_PCIELinkWid d) (ds_PCIELinkWid defaults)) (orElse (ds_Board d) (ds_Board defaults)) (orElse (ds_Family d) (ds_Family defaults))
    (orElse (ds_Serial d) (ds_Serial defaults)) (orElse (ds_PState d) (ds_PState defaults)) (orElse (ds_DisplayMode d) (ds_DisplayMode defaults))
    (if migConfigEmpty (ds_MIG d) then ds_MIG defaults else ds_MIG d).

(** A node as the controller sees it. *)
Record InvNode := mkInvNode { in_Name : string; in_UID : string; in_Labels : gmap string string; in_Deleting : bool }.

Section Snapshot.
Context `{F64 : Float64, KO : KeyOrder, GS : GoSort, CT : Catalog}.

Definition mergedLabels (node : InvNode) (feature : option NodeFeature) : gmap string string :=
  in_Labels node ∪ match feature with Some f => nf_Labels f | None => ∅ end.

Definition buildNodeSnapshot (node : InvNode) (feature : option NodeFeature) (policy : ManagedNodesPolicy) : nodeSnapshot :=
  let labels := mergedLabels node feature in
  let devices := withDefaults (parseHardwareDefaults labels) <$> extractDeviceSnapshots labels in
  let devices := enrichDevicesFromCatalog (enrichDevicesFromFeature devices feature) in
  mkNodeSnapshot (nodeManaged labels policy) (bool_decide (is_Some feature)) (parseDriverInfo labels) devices labels.
End Snapshot.

(** ** names.go *)

Definition nameChar (c : ascii) : bool := is_lower c || is_digit c.
Fixpoint sanitizeFrom (lastHyphen : bool) (s : string) : string :=
  match s with
  | EmptyString => EmptyString
  | String c rest =>
      if nameChar c then String c (sanitizeFrom false rest)
      else if lastHyphen then sanitizeFrom true rest else String "-" (sanitizeFrom true rest)
  end.
Definition sanitizeName (input : string) : string :=
  let result := TrimDash (sanitizeFrom false (ToLower input)) in
  if str_eqb result "" then "gpu" else result.
Definition truncateName (name : string) : string := if (String.length name <=? 63)%nat then name else str_take 63 name.
Definition buildDeviceName (nodeName : string) (info : deviceSnapshot) : string :=
  truncateName (sanitizeName nodeName +:+ "-" +:+ sanitizeName (ds_Index info +:+ "-" +:+ ds_Vendor info +:+ "-" +:+ ds_Device info)).
Definition buildInventoryID (nodeName : string) (info : deviceSnapshot) : string :=
  truncateName (sanitizeName nodeName +:+ "-" +:+ sanitizeName (ds_Index info +:+ "-" +:+ ds_Vendor info +:+ "-" +:+ ds_Device info)).

(** ** node_feature.go *)

Definition ParseUint64 (s : string) : option Z :=
  if str_eqb s "" then None else match digits_val 0 s with Some n => if n <? 2 ^ 64 then Some n else None | None => None end.

Definition resourceVersionNewer (candidate current : string) : bool :=
  if str_eqb candidate "" then false else
  if str_eqb current "" then true else
  match ParseUint64 candidate, ParseUint64 current with
  | Some c, Some d => d <? c
  | Some _, None => true
  | None, Some _ => false
  | None, None => str_ltb current candidate
  end.

Definition preferFeature (nodeName : string) (selected item : NodeFeature) : NodeFeature :=
  if str_eqb (nf_Name item) nodeName && negb (str_eqb (nf_Name selected) nodeName) then item else
  if resourceVersionNewer (nf_ResourceVersion item) (nf_ResourceVersion selected) then item else selected.
Definition chooseNodeFeature (items : list NodeFeature) (nodeName : string) : option NodeFeature :=
  match items with [] => None | first :: rest => Some (foldl (preferFeature nodeName) first rest) end.

(** ** pci.go *)

Definition isHexChar (c : ascii) : bool := is_digit c || (bool_decide (97 ≤ N_of_ascii c)%N && bool_decide (N_of_ascii c ≤ 102)%N).
Definition isHex (s : string) : bool := all_chars isHexChar s.
Definition octalDigit (s : string) : bool :=
  match s with String c EmptyString => bool_decide (48 ≤ N_of_ascii c)%N && bool_decide (N_of_ascii c ≤ 55)%N | _ => false end.

Definition CanonicalizePCIAddress (addr : string) : string :=
  let addr := TrimSpace addr in
  if str_eqb addr "" then "" else
  let addr := ToLower addr in
  match SplitChar addr ":"%char with
  | [domain; bus; devfn] =>
      match SplitChar devfn "."%char with
      | [device; function] =>
          let domain := if (String.length domain =? 8)%nat then str_drop 4 domain else domain in
          if negb ((String.length domain =? 4)%nat && (String.length bus =? 2)%nat && (String.length device =? 2)%nat && (String.length function =? 1)%nat) then addr else
          if negb (isHex domain && isHex bus && isHex device) then addr else
          if negb (octalDigit function) then addr else
          domain +:+ ":" +:+ bus +:+ ":" +:+ device +:+ "." +:+ function
      | _ => addr
      end
  | _ => addr
  end.

(** ** policy.go *)

Definition DeviceApprovalModeManual : string := "Manual".
Definition DeviceApprovalModeAutomatic : string := "Automatic".
Definition DeviceApprovalModeSelector : string := "Selector".

Section Policy.
Context `{LS : LabelSelectors}.

Record DeviceApprovalPolicy := mkApprovalPolicy { ap_Mode : string; ap_Selector : option Selector }.

Definition NewDeviceApprovalPolicy (mode : string) (selector : option LabelSelector) : res DeviceApprovalPolicy :=
  let mode := if str_eqb mode "" then DeviceApprovalModeManual else mode in
  if str_eqb mode DeviceApprovalModeManual || str_eqb mode DeviceApprovalModeAutomatic then Ok (mkApprovalPolicy mode None) else
  if str_eqb mode DeviceApprovalModeSelector then
    match LabelSelectorAsSelector (default (mkLabelSelector ∅ []) selector) with
    | Err e => Err (Wrapf "compile device approval selector: %w" [] e)
    | Ok compiled => Ok (mkApprovalPolicy mode (Some compiled))
    end
  else Ok (mkApprovalPolicy DeviceApprovalModeManual None).

Definition AutoAttach (p : DeviceApprovalPolicy) (managed : bool) (labels : gmap string string) : bool :=
  if negb managed then false else
  if str_eqb (ap_Mode p) DeviceApprovalModeAutomatic then true else
  if str_eqb (ap_Mode p) DeviceApprovalModeSelector then
    match ap_Selector p with None => false | Some sel => Selector_Matches sel labels end
  else false.

(** inventory_reconciler.go: managedAndApprovalFromState, currentPolicies *)
Record InventorySettings := mkInventorySettings {
  is_LabelKey : string;
  is_EnabledByDefault : bool;
  is_ApprovalMode : string;
  is_ApprovalSelector : option LabelSelector;
}.
Definition managedAndApprovalFromState (st : InventorySettings) : res (ManagedNodesPolicy * DeviceApprovalPolicy) :=
  let key := TrimSpace (is_LabelKey st) in
  let managed := mkManagedPolicy (if str_eqb key "" then DefaultManagedNodeLabelKey else key) (is_EnabledByDefault st) in
  approval ← NewDeviceApprovalPolicy (is_ApprovalMode st) (is_ApprovalSelector st);
  Ok (managed, approval).
Definition currentPolicies (store : option InventorySettings) (fallback : ManagedNodesPolicy * DeviceApprovalPolicy) :
    ManagedNodesPolicy * DeviceApprovalPolicy :=
  match store with
  | Some st => match managedAndApprovalFromState st with Ok p => p | Err _ => fallback end
  | None => fallback
  end.
End Policy.
Arguments DeviceApprovalPolicy : clear implicits.
Arguments DeviceApprovalPolicy {LS}.

Definition setIf (b : bool) (key value : string) (m : gmap string string) : gmap string string := if b then <[key := value]> m else m.
Definition LabelsForDevice (d : deviceSnapshot) (nodeLabels : gmap string string) : gmap string string :=
  let prefix := deviceLabelPrefix +:+ ds_Index d +:+ "." in
  let result := filter (λ kv, HasPrefix kv.1 prefix = true) nodeLabels in
  let result := <["gpu.deckhouse.io/device.index" := ds_Index d]> result in
  let result := setIf (negb (str_eqb (ds_Vendor d) "")) "gpu.deckhouse.io/device.vendor" (ToLower (ds_Vendor d)) result in
  let result := setIf (negb (str_eqb (ds_Device d) "")) "gpu.deckhouse.io/device.device" (ToLower (ds_Device d)) result in
  let result := setIf (negb (str_eqb (ds_Class d) "")) "gpu.deckhouse.io/device.class" (ToLower (ds_Class d)) result in
  let result := setIf (negb (str_eqb (ds_Product d) "")) "gpu.deckhouse.io/device.product" (ds_Product d) result in
  let result := setIf (negb (str_eqb (ds_UUID d) "")) "gpu.deckhouse.io/device.uuid" (ds_UUID d) result in
  let result := setIf (0 <? ds_MemoryMiB d) "gpu.deckhouse.io/device.memoryMiB" (Itoa (ds_MemoryMiB d)) result in
  if mig_Capable (ds_MIG d) then
    setIf (negb (str_eqb (mig_Strategy (ds_MIG d)) "")) "gpu.deckhouse.io/device.mig.strategy" (mig_Strategy (ds_MIG d))
      (<["gpu.deckhouse.io/device.mig.capable" := "true"]> result)
  else <["gpu.deckhouse.io/device.mig.capable" := "false"]> result.

(** ** internal/service/detection.go *)

Record detectGPUEntry := mkDetectEntry {
  de_Index : Z;
  de_UUID : string;
  de_Product : string;
  de_PCI : PCIAddress;
  de_MIGCapable : bool;
  de_MIGMode : string;
  de_MIGProfiles : list string;
}.
Record NodeDetection := mkNodeDetection { nd_byUUID : gmap string detectGPUEntry; nd_byIndex : gmap string detectGPUEntry }.
Definition noDetection : NodeDetection := mkNodeDetection ∅ ∅.

(** A pod of the gfd-extender: per container the name and the ports. *)
Record DetectPod := mkDetectPod {
  dp_NodeName : string;
  dp_PodIP : string;
  dp_Conditions : list (string * string);
  dp_Containers : list (string * list Z);
}.

Fixpoint isPodReady (conditions : list (string * string)) : bool :=
  match conditions with [] => false | (t, st) :: rest => if str_eqb t "Ready" then str_eqb st ConditionTrue else isPodReady rest end.
Definition detectGPUPort (pod : DetectPod) : Z :=
  default 0 (head (List.filter (λ p, 0 <? p) (concat (snd <$> List.filter (λ c, str_eqb c.1 "gfd-extender") (dp_Containers pod))))).

Definition recordEntry (d : NodeDetection) (e : detectGPUEntry) : NodeDetection :=
  mkNodeDetection (if str_eqb (de_UUID e) "" then nd_byUUID d else <[de_UUID e := e]> (nd_byUUID d)) (<[Itoa (de_Index e) := e]> (nd_byIndex d)).

(** What the collector asks: the pods, and a GET that fails, answers another
    status than OK ([None]) or has a body that decodes or not. *)
Class Detector (S : Type) := {
  dt_ListPods : S → res (list DetectPod);
  dt_Get : string → S → option (res (list detectGPUEntry));
}.

Definition detectTarget (node : string) (pod : DetectPod) : option (string * Z) :=
  if negb (str_eqb (dp_NodeName pod) node) then None else
  if str_eqb (dp_PodIP pod) "" || negb (isPodReady (dp_Conditions pod)) then None else
  let p := detectGPUPort pod in if p =? 0 then None else Some (dp_PodIP pod, p).
Definition Collect {S : Type} `{Detector S} (node : string) (s : S) : res NodeDetection :=
  pods ← dt_ListPods s;
  match omap (detectTarget node) pods with
  | [] => Ok noDetection
  | (ip, port) :: _ =>
      match dt_Get ("http://" +:+ ip +:+ ":" +:+ Itoa port +:+ "/api/v1/detect/gpu") s with
      | None => Ok noDetection
      | Some (Err e) => Err e
      | Some (Ok entries) => Ok (foldl recordEntry noDetection entries)
      end
  end.

Definition findDetection (n : NodeDetection) (d : deviceSnapshot) : option detectGPUEntry :=
  match (if str_eqb (ds_UUID d) "" then None else nd_byUUID n !! ds_UUID d) with
  | Some e => Some e
  | None => nd_byIndex n !! ds_Index d
  end.

Definition detectProfile (raw : string) : option string :=
  let profile := TrimSpace raw in
  if str_eqb profile "" then None else Some (TrimPrefix (ToLower profile) "mig-").
Definition detectStrategy (mode current : string) : string :=
  let mode := ToLower (TrimSpace mode) in
  if str_eqb mode "single" then GPUMIGStrategySingle else
  if str_eqb mode "mixed" then GPUMIGStrategyMixed else
  if str_eqb mode "none" then GPUMIGStrategyNone else current.

Definition applyDetectionHardware (e : detectGPUEntry) (hw : GPUDeviceHardware) : GPUDeviceHardware :=
  let pci := hw_PCI hw in
  let addr := CanonicalizePCIAddress (pa_Address (de_PCI e)) in
  let profiles :=
    if list_len0 (de_MIGProfiles e) then mig_ProfilesSupported (hw_MIG hw)
    else sort_Strings (deduplicateStrings (omap detectProfile (de_MIGProfiles e))) in
  let capable := mig_Capable (hw_MIG hw) || de_MIGCapable e || negb (list_len0 profiles) in
  mkHardware (over (de_UUID e) (hw_UUID hw)) (over (de_Product e) (hw_Product hw))
    (mkPCIAddress (orElse (pa_Vendor pci) (ToLower (pa_Vendor (de_PCI e)))) (orElse (pa_Device pci) (ToLower (pa_Device (de_PCI e))))
       (orElse (pa_Class pci) (ToLower (pa_Class (de_PCI e)))) (over addr (pa_Address pci)))
    (mkMIGConfig capable (detectStrategy (de_MIGMode e) (mig_Strategy (hw_MIG hw))) profiles (mig_Types (hw_MIG hw))).

Definition set_Hardware (hw : GPUDeviceHardware) (d : GPUDevice) : GPUDevice :=
  let st := gd_Status d in
  mkGPUDevice (gd_Name d) (gd_Labels d) (gd_Annotations d) (gd_Owners d)
    (mkDeviceStatus (gds_NodeName st) (gds_InventoryID st) (gds_Managed st) (gds_State st) (gds_AutoAttach st) (gds_PoolRef st) hw (gds_Conditions st)).
Definition ApplyDetection (snapshot : deviceSnapshot) (detections : NodeDetection) (device : GPUDevice) : GPUDevice :=
  match findDetection detections snapshot with
  | None => device
  | Some e => set_Hardware (applyDetectionHardware e (gd_Hardware device)) device
  end.

(** ** The API server *)

Record GPUNodeState := mkNodeState {
  gns_Name : string;
  gns_Owners : list OwnerReference;
  gns_Generation : Z;
  gns_NodeName : string;
  gns_Conditions : list Condition;
}.
#[export] Instance GPUNodeState_eq_dec : EqDecision GPUNodeState.
Proof. solve_decision. Defined.

(** [controllerutil.SetOwnerReference]: a reference to the same kind and name is
    replaced, otherwise one is added. *)
Definition sameOwner (a b : OwnerReference) : bool := str_eqb (or_Kind a) (or_Kind b) && str_eqb (or_Name a) (or_Name b).
Fixpoint SetOwnerReference (owner : OwnerReference) (refs : list OwnerReference) : list OwnerReference :=
  match refs with
  | [] => [owner]
  | r :: rest => if sameOwner r owner then owner :: rest else r :: SetOwnerReference owner rest
  end.
Definition ownerOf (node : InvNode) : OwnerReference := mkOwnerReference "Node" (in_Name node) (in_UID node).

Class InventoryClient (S : Type) := {
  ic_GetNode : string → S → res InvNode;
  ic_GetNodeFeature : string → S → res NodeFeature;
  (** the NodeFeatures with the label of a node *)
  ic_ListNodeFeatures : string → S → res (list NodeFeature);
  (** [Create] stores the object without its status *)
  ic_CreateDevice : GPUDevice → S → option error * S;
  ic_PatchDevice : GPUDevice → GPUDevice → S → option error * S;
  ic_UpdateDeviceStatus : GPUDevice → S → option error * S;
  ic_DeleteDevice : string → S → option error * S;
  ic_GetNodeState : string → S → res GPUNodeState;
  ic_CreateNodeState : GPUNodeState → S → option error * S;
  ic_PatchNodeState : GPUNodeState → GPUNodeState → S → option error * S;
  ic_UpdateNodeStateStatus : GPUNodeState → S → option error * S;
  ic_DeleteNodeState : string → S → option error * S;
}.

Definition emptyStatus : GPUDeviceStatus :=
  mkDeviceStatus "" "" false "" false None (mkHardware "" "" (mkPCIAddress "" "" "" "") noMIG) [].

Definition set_DeviceLabels (l : gmap string string) (d : GPUDevice) : GPUDevice :=
  mkGPUDevice (gd_Name d) l (gd_Annotations d) (gd_Owners d) (gd_Status d).
Definition set_DeviceOwners (o : list OwnerReference) (d : GPUDevice) : GPUDevice :=
  mkGPUDevice (gd_Name d) (gd_Labels d) (gd_Annotations d) o (gd_Status d).
Definition set_DeviceStatus (st : GPUDeviceStatus) (d : GPUDevice) : GPUDevice :=
  mkGPUDevice (gd_Name d) (gd_Labels d) (gd_Annotations d) (gd_Owners d) st.

(** *** handler/device_state.go *)
Definition DeviceHandler : Type := GPUDevice → (Result * option error) * GPUDevice.
Definition set_DeviceState (state : GPUDeviceState) (d : GPUDevice) : GPUDevice := set_assignment (gd_PoolRef d) state d.
Definition HandleDeviceState : DeviceHandler := λ device,
  ((zeroResult, None), if str_eqb (gd_State device) "" then set_DeviceState GPUDeviceStateDiscovered device else device).

Section Service.
Context {S : Type} `{PC : PoolClient S, IC : InventoryClient S, DT : Detector S, AE : ApiErrors, KO : KeyOrder, GS : GoSort, LS : LabelSelectors}.
Context `{F64 : Float64, CT : Catalog}.

(** *** internal/service/device.go *)

(** The chain stops at the first error that is no conflict, so it reports at
    most one. *)
Definition invokeHandlers (handlers : list DeviceHandler) (device : GPUDevice) : (Result * option error) * GPUDevice :=
  let '((result, errs), device') := cp_Reconcile (mkBaseReconciler handlers (Some (λ d, (None, d))) (Some (λ (h : DeviceHandler) d, h d)) (λ _, None)) device in
  ((result, head errs), device').

Definition ensureDeviceMetadata (node : InvNode) (device : GPUDevice) (snapshot : deviceSnapshot) (s : S) : res bool * (GPUDevice * S) :=
  let labels := gd_Labels device in
  let changed1 := negb (str_eqb (label labels DeviceNodeLabelKey) (in_Name node)) in
  let labels := setIf changed1 DeviceNodeLabelKey (in_Name node) labels in
  let changed2 := negb (str_eqb (label labels DeviceIndexLabelKey) (ds_Index snapshot)) in
  let labels := setIf changed2 DeviceIndexLabelKey (ds_Index snapshot) labels in
  let owners := SetOwnerReference (ownerOf node) (gd_Owners device) in
  let desired := set_DeviceOwners owners (set_DeviceLabels labels device) in
  if negb (changed1 || changed2 || negb (bool_decide (gd_Owners device = owners))) then (Ok false, (device, s)) else
  match ic_PatchDevice desired device s with
  | (Some e, s) => (Err e, (device, s))
  | (None, s) => (Ok true, (desired, s))
  end.

(** The status the inventory writes, before the detections. *)
Definition refreshStatus (node : InvNode) (snapshot : deviceSnapshot) (nodeLabels : gmap string string) (managed : bool) (approval : DeviceApprovalPolicy)
    (st : GPUDeviceStatus) : GPUDeviceStatus :=
  mkDeviceStatus (in_Name node) (buildInventoryID (in_Name node) snapshot) managed (gds_State st)
    (AutoAttach approval managed (LabelsForDevice snapshot nodeLabels)) (gds_PoolRef st)
    (mkHardware (ds_UUID snapshot) (ds_Product snapshot)
       (mkPCIAddress (ds_Vendor snapshot) (ds_Device snapshot) (ds_Class snapshot) (CanonicalizePCIAddress (ds_PCIAddress snapshot))) (ds_MIG snapshot))
    (gds_Conditions st).

Definition canonicalAddress (d : GPUDevice) : GPUDevice :=
  let hw := gd_Hardware d in
  let pci := hw_PCI hw in
  set_Hardware (mkHardware (hw_UUID hw) (hw_Product hw)
    (mkPCIAddress (pa_Vendor pci) (pa_Device pci) (pa_Class pci) (CanonicalizePCIAddress (pa_Address pci))) (hw_MIG hw)) d.

Definition requeueOnConflict (device : GPUDevice) (result : Result) (r : option error * S) : res (GPUDevice * Result) * S :=
  match r with
  | (None, s) => (Ok (device, result), s)
  | (Some e, s) => if IsConflict e then (Ok (device, MergeResults [result; mkResult true 0]), s) else (Err e, s)
  end.

Definition createDevice (handlers : list DeviceHandler) (node : InvNode) (snapshot : deviceSnapshot) (nodeLabels : gmap string string) (managed : bool)
    (approval : DeviceApprovalPolicy) (applyDetection : GPUDevice → GPUDevice) (s : S) : res (GPUDevice * Result) * S :=
  let device := mkGPUDevice (buildDeviceName (in_Name node) snapshot) {[DeviceNodeLabelKey := in_Name node; DeviceIndexLabelKey := ds_Index snapshot]} ∅
                  (SetOwnerReference (ownerOf node) []) emptyStatus in
  match ic_CreateDevice device s with
  | (Some e, s) => (Err e, s)
  | (None, s) =>
      let st := refreshStatus node snapshot nodeLabels managed approval (gd_Status device) in
      let device := set_DeviceState GPUDeviceStateDiscovered (set_DeviceStatus st device) in
      let '((result, err), device) := invokeHandlers handlers (canonicalAddress (applyDetection device)) in
      match err with
      | Some e => (Err e, s)
      | None => requeueOnConflict device result (ic_UpdateDeviceStatus device s)
      end
  end.

Definition DeviceReconcile (handlers : list DeviceHandler) (node : InvNode) (snapshot : deviceSnapshot) (nodeLabels : gmap string string) (managed : bool)
    (approval : DeviceApprovalPolicy) (applyDetection : GPUDevice → GPUDevice) (s : S) : res (GPUDevice * Result) * S :=
  let name := buildDeviceName (in_Name node) snapshot in
  match fetch (pc_GetDevice name s) with
  | Err e => (Err e, s)
  | Ok None => createDevice handlers node snapshot nodeLabels managed approval applyDetection s
  | Ok (Some device) =>
      let '(updated, (device, s)) := ensureDeviceMetadata node device snapshot s in
      match updated with
      | Err e => (Err e, s)
      | Ok metaUpdated =>
          match (if (metaUpdated : bool) then pc_GetDevice name s else Ok device) with
          | Err e => (Err e, s)
          | Ok before =>
              let device := set_DeviceStatus (refreshStatus node snapshot nodeLabels managed approval (gd_Status before)) before in
              let '((result, err), device) := invokeHandlers handlers (canonicalAddress (applyDetection device)) in
              match err with
              | Some e => (Err e, s)
              | None =>
                  if bool_decide (gd_Status before = gd_Status device) then (Ok (device, result), s)
                  else requeueOnConflict device result (pc_PatchDeviceStatus device before s)
              end
          end
      end
  end.

(** *** internal/service/cleanup.go; [DeleteObject] takes what is not there for deleted *)

Definition deleteDevice (name : string) (s : S) : option error * S := let '(err, s) := ic_DeleteDevice name s in (ignoreNotFound err, s).
Definition RemoveOrphans (orphans : gset string) (s : S) : option error * S := srv_forEach deleteDevice (range_keys 16 orphans) s.
Definition DeleteInventory (nodeName : string) (s : S) : option error * S :=
  match fetch (ic_GetNodeState nodeName s) with
  | Err e => (Some e, s)
  | Ok None => (None, s)
  | Ok (Some st) => let '(err, s) := ic_DeleteNodeState (gns_Name st) s in (ignoreNotFound err, s)
  end.
Definition CleanupNode (nodeName : string) (s : S) : option error * S :=
  match pc_ListDevices IndexGPUDeviceByNode nodeName s with
  | Err e => (Some e, s)
  | Ok l =>
      match srv_forEach deleteDevice (gd_Name <$> l) s with
      | (Some e, s) => (Some e, s)
      | (None, s) => DeleteInventory nodeName s
      end
  end.

(** *** internal/service/inventory.go *)

Definition ConditionInventoryComplete : string := "InventoryComplete".
Definition inventoryReason (snapshot : nodeSnapshot) : string * string :=
  if negb (ns_FeatureDetected snapshot) then ("NodeFeatureMissing", "NodeFeature resource not discovered yet") else
  if list_len0 (ns_Devices snapshot) then ("NoDevicesDiscovered", "no NVIDIA devices detected on the node") else
  ("InventorySynced", "inventory data collected").
Definition boolToConditionStatus (b : bool) : string := if b then ConditionTrue else ConditionFalse.
Definition completeCondition (snapshot : nodeSnapshot) (generation : Z) : Condition :=
  let '(reason, message) := inventoryReason snapshot in
  mkCondition ConditionInventoryComplete (boolToConditionStatus (ns_FeatureDetected snapshot && negb (list_len0 (ns_Devices snapshot)))) reason message generation 0.

Definition set_NodeStateConditions (cs : list Condition) (st : GPUNodeState) : GPUNodeState :=
  mkNodeState (gns_Name st) (gns_Owners st) (gns_Generation st) (gns_NodeName st) cs.

(** [Resource.Update]: the status is written when it is not the one fetched. *)
Definition updateNodeState (current changed : GPUNodeState) (s : S) : option error * S :=
  let changed := set_NodeStateConditions (rewriteConditions (gns_Conditions changed)) changed in
  if bool_decide (gns_Conditions current = gns_Conditions changed) then (None, s) else
  let '(err, s) := ic_UpdateNodeStateStatus changed s in (Wrapf "error updating status subresource: %w" [] <$> err, s).

(** The second half: the condition of the node state. *)
Definition reportCondition (now : Z) (node : InvNode) (snapshot : nodeSnapshot) (s : S) : option error * S :=
  match fetch (ic_GetNodeState (in_Name node) s) with
  | Err e => (Some e, s)
  | Ok None => (None, s)
  | Ok (Some current) =>
      let conds := cp_SetCondition now (gns_Conditions current) (completeCondition snapshot (gns_Generation current)) in
      if bool_decide (gns_Conditions current = conds) then (None, s) else updateNodeState current (set_NodeStateConditions conds current) s
  end.

(** The first half: the node state exists and belongs to the node. *)
Definition ensureNodeState (node : InvNode) (devices : list GPUDevice) (s : S) : (option error * bool) * S :=
  match fetch (ic_GetNodeState (in_Name node) s) with
  | Err e => ((Some e, false), s)
  | Ok None =>
      if list_len0 devices then ((None, false), s) else
      let '(err, s) := ic_CreateNodeState (mkNodeState (in_Name node) (SetOwnerReference (ownerOf node) []) 0 (in_Name node) []) s in ((err, true), s)
  | Ok (Some st) =>
      let desired := mkNodeState (gns_Name st) (SetOwnerReference (ownerOf node) (gns_Owners st)) (gns_Generation st) (in_Name node) (gns_Conditions st) in
      if bool_decide (gns_NodeName st = in_Name node) && bool_decide (gns_Owners st = gns_Owners desired) then ((None, true), s) else
      match ic_PatchNodeState desired st s with
      | (Some e, s) => ((Some e, false), s)
      | (None, s) => match ic_GetNodeState (in_Name node) s with Err e => ((Some e, false), s) | Ok _ => ((None, true), s) end
      end
  end.

Definition InventoryServiceReconcile (now : Z) (node : InvNode) (snapshot : nodeSnapshot) (devices : list GPUDevice) (s : S) : option error * S :=
  match ensureNodeState node devices s with
  | ((Some e, _), s) => (Some e, s)
  | ((None, false), s) => (None, s)
  | ((None, true), s) => reportCondition now node snapshot s
  end.

Definition deviceStateCounts (devices : list GPUDevice) : gmap string Z :=
  foldl (λ counts d, let key := if str_eqb (gd_State d) "" then GPUDeviceStateDiscovered else gd_State d in
                     <[key := default 0 (counts !! key) + 1]> counts) ∅ devices.

(** *** internal/handler/inventory_handler.go *)

(** The loop over the devices: the devices, the merged results, and which of
    the stored devices were not met. *)
Fixpoint reconcileDevices (reconcile : deviceSnapshot → S → res (GPUDevice * Result) * S) (snapshots : list deviceSnapshot)
    (orphans : gset string) (devices : list GPUDevice) (aggregate : Result) (s : S) : res (gset string * list GPUDevice * Result) * S :=
  match snapshots with
  | [] => (Ok (orphans, devices, aggregate), s)
  | d :: rest =>
      match reconcile d s with
      | (Err e, s) => (Err e, s)
      | (Ok (device, r), s) => reconcileDevices reconcile rest (orphans ∖ {[gd_Name device]}) (devices ++ [device]) (MergeResults [aggregate; r]) s
      end
  end.

Definition followUp (devices : list GPUDevice) (aggregate : Result) : Result :=
  if list_len0 devices then zeroResult else
  mkResult (Requeue aggregate) (if 0 <? RequeueAfter aggregate then RequeueAfter aggregate else 0).

Definition InventoryHandle (now : Z) (handlers : list DeviceHandler) (node : InvNode) (snapshot : nodeSnapshot) (approval : DeviceApprovalPolicy) (s : S) :
    (Result * option error) * S :=
  if negb (ns_FeatureDetected snapshot) && list_len0 (ns_Devices snapshot) then ((zeroResult, None), s) else
  match pc_ListDevices IndexGPUDeviceByNode (in_Name node) s with
  | Err e => ((zeroResult, Some e), s)
  | Ok existing =>
      let detections :=
        if list_len0 (ns_Devices snapshot) then noDetection else match Collect (in_Name node) s with Ok d => d | Err _ => noDetection end in
      let reconcile := λ d, DeviceReconcile handlers node d (ns_Labels snapshot) (ns_Managed snapshot) approval (ApplyDetection d detections) in
      match reconcileDevices reconcile (ns_Devices snapshot) (list_to_set (gd_Name <$> existing)) [] zeroResult s with
      | (Err e, s) => ((zeroResult, Some e), s)
      | (Ok (orphans, devices, aggregate), s) =>
          match (if in_Deleting node then RemoveOrphans orphans s else (None, s)) with
          | (Some e, s) => ((zeroResult, Some e), s)
          | (None, s) =>
              match InventoryServiceReconcile now node snapshot devices s with
              | (Some e, s) => if IsConflict e then ((mkResult true 0, None), s) else ((zeroResult, Some e), s)
              | (None, s) => ((followUp devices aggregate, None), s)
              end
          end
      end
  end.

(** *** inventory_reconciler_run.go *)

Definition FindNodeFeature (nodeName : string) (s : S) : res (option NodeFeature) :=
  match fetch (ic_GetNodeFeature nodeName s) with
  | Err e => Err e
  | Ok (Some f) => Ok (Some f)
  | Ok None => items ← ic_ListNodeFeatures nodeName s; Ok (chooseNodeFeature items nodeName)
  end.

Definition InventoryReconcile (now : Z) (handlers : list DeviceHandler) (store : option InventorySettings)
    (fallback : ManagedNodesPolicy * DeviceApprovalPolicy) (name : string) (s : S) : (Result * list error) * S :=
  match fetch (ic_GetNode name s) with
  | Err e => ((zeroResult, [e]), s)
  | Ok None => ((zeroResult, []), s)
  | Ok (Some node) =>
      let '(managed, approval) := currentPolicies store fallback in
      match FindNodeFeature (in_Name node) s with
      | Err e => ((zeroResult, [e]), s)
      | Ok feature =>
          let snapshot := buildNodeSnapshot node feature managed in
          cp_Reconcile (mkBaseReconciler [()] (Some (λ s, (None, s))) (Some (λ _ s, InventoryHandle now handlers node snapshot approval s)) (λ _, None)) s
      end
  end.
End Service.

(** ** internal/webhook/gpu_device_assignment_validator.go *)

Class AssignmentReader (S : Type) := {
  ar_GetClusterPool : string → S → res (option GPUPool);
  (** [List] by the index of the name, and all pools *)
  ar_ListPoolsByName : string → S → res (list GPUPool);
  ar_ListPools : S → res (list GPUPool);
  ar_isMissingIndexError : error → bool;
}.

Section Assignment.
Context {S : Type} `{AssignmentReader S}.

Definition resolveNamespacedPoolByName (c : option S) (name : string) : res GPUPool :=
  let name := TrimSpace name in
  if str_eqb name "" then Err (Errorf "assigned pool name is empty" []) else
  match c with
  | None => Err (Errorf "GPUPool %q: webhook client is not configured" [name])
  | Some c =>
      list ← match ar_ListPoolsByName name c with
             | Ok l => Ok l
             | Err e =>
                 if negb (ar_isMissingIndexError e) then Err (Wrapf "list GPUPools by name: %w" [] e) else
                 match ar_ListPools c with Ok l => Ok l | Err e => Err (Wrapf "list GPUPools: %w" [] e) end
             end;
      match List.filter (λ p, str_eqb (gp_Name p) name) list with
      | [] => Err (Errorf "assigned pool %q not found" [name])
      | [p] => Ok p
      | matches =>
          Err (Errorf "assigned pool %q is ambiguous (found in namespaces: %s)"
                 [name; Join (sort_Strings (List.filter (λ ns, negb (str_eqb ns "")) (gp_Namespace <$> matches))) ", "])
      end
  end.

Definition matchesDeviceSelector (dev : GPUDevice) (sel : option GPUPoolDeviceSelector) : bool := (length (FilterDevices [dev] sel) =? 1)%nat.

Definition validateAssignment (c : option S) (device : GPUDevice) (namespacedPool clusterPool : string) : option error :=
  match c with
  | None => Some (Errorf "webhook client is not configured" [])
  | Some c' =>
      if EqualFold (label (gd_Labels device) DeviceIgnoreKey) "true" then Some (Errorf "device is marked as ignored" []) else
      if negb (str_eqb (gd_State device) GPUDeviceStateReady) then Some (Errorf "device state must be Ready, got %s" [gd_State device]) else
      if str_eqb (TrimSpace (hw_UUID (gd_Hardware device))) "" || str_eqb (TrimSpace (pa_Address (hw_PCI (gd_Hardware device)))) ""
      then Some (Errorf "device inventory is incomplete (uuid/pci address), wait for inventory sync" []) else
      if negb (str_eqb clusterPool "") then
        match ar_GetClusterPool clusterPool c' with
        | Err e => Some e
        | Ok None => Some (Errorf "assigned ClusterGPUPool %q not found" [clusterPool])
        | Ok (Some pool) =>
            if matchesDeviceSelector device (gps_DeviceSelector (gp_Spec pool)) then None
            else Some (Errorf "device does not match selector of ClusterGPUPool %q" [gp_Name pool])
        end
      else
        match resolveNamespacedPoolByName c namespacedPool with
        | Err e => Some e
        | Ok pool =>
            if matchesDeviceSelector device (gps_DeviceSelector (gp_Spec pool)) then None
            else Some (Errorf "device does not match selector of pool %q" [gp_Name pool])
        end
  end.

Definition namespacedAssignment (d : GPUDevice) : string := TrimSpace (label (gd_Annotations d) NamespacedAssignmentAnnotation).
Definition clusterAssignment (d : GPUDevice) : string := TrimSpace (label (gd_Annotations d) ClusterAssignmentAnnotation).

Definition checkAssignment (c : option S) (device : GPUDevice) : option error :=
  let ns := namespacedAssignment device in
  let cl := clusterAssignment device in
  if negb (str_eqb ns "") && negb (str_eqb cl "") then Some (Errorf "only one assignment annotation is allowed (namespaced or cluster)" []) else
  if str_eqb ns "" && str_eqb cl "" then None else validateAssignment c device ns cl.
Definition AssignmentValidateCreate (c : option S) (device : GPUDevice) : option error := checkAssignment c device.
Definition AssignmentValidateUpdate (c : option S) (old new : GPUDevice) : option error :=
  if str_eqb (namespacedAssignment old) (namespacedAssignment new) && str_eqb (clusterAssignment old) (clusterAssignment new) then None
  else checkAssignment c new.
End Assignment.
