(* ===== verification/Bootstrap.v ===== *)
(** * Bootstrap of a node

    controller/bootstrap and validation: the workloads that validate a node,
    read from its pods, become conditions of its GPUNodeState, and these decide
    how far the devices of the node are.  Metrics are left out; of several
    errors joined into one the first is kept. *)

From S2P Require Import Prelude GoLib Reconciler GpuApi PoolApi CpReconciler PoolSync DeviceInventory.

(** ** validation/service.go *)

Record ValidationConfig := mkValidationConfig {
  vc_WorkloadsNamespace : string;
  vc_ValidatorApp : string;
  vc_GFDApp : string;
  vc_DCGMApp : string;
  vc_DCGMExporterApp : string;
}.
Record ValidationResult := mkValidationResult {
  vr_Ready : bool;
  vr_DriverReady : bool;
  vr_ToolkitReady : bool;
  vr_GFDReady : bool;
  vr_DCGMReady : bool;
  vr_DCGMExporterReady : bool;
  vr_MonitoringReady : bool;
  vr_Message : string;
}.
Definition noValidation : ValidationResult := mkValidationResult false false false false false false false "".

Record BootPod := mkBootPod { bp_NodeName : string; bp_Labels : gmap string string; bp_Conditions : list (string * string) }.

Definition orValue (value fallback : string) : string := if str_eqb value "" then fallback else value.
Definition validation_applyDefaults (cfg : ValidationConfig) : ValidationConfig :=
  mkValidationConfig (orValue (vc_WorkloadsNamespace cfg) "d8-gpu-control-plane") (orValue (vc_ValidatorApp cfg) "nvidia-operator-validator")
    (orValue (vc_GFDApp cfg) "gpu-control-plane-gpu-feature-discovery") (orValue (vc_DCGMApp cfg) "gpu-control-plane-dcgm")
    (orValue (vc_DCGMExporterApp cfg) "gpu-control-plane-dcgm-exporter").
Definition allowedApps (cfg : ValidationConfig) : gset string :=
  list_to_set (List.filter (λ a, negb (str_eqb a "")) [vc_ValidatorApp cfg; vc_GFDApp cfg; vc_DCGMApp cfg; vc_DCGMExporterApp cfg]).

(** common/pod: a pod with a true Ready condition *)
Definition pod_IsReady (pod : BootPod) : bool := existsb (λ '(t, st), str_eqb t "Ready" && str_eqb st ConditionTrue) (bp_Conditions pod).

Definition filterPods (pods : list BootPod) (nodeName : string) (allowed : gset string) : list BootPod :=
  List.filter (λ p, negb (negb (str_eqb nodeName "") && negb (str_eqb (bp_NodeName p) nodeName)) &&
                    (bool_decide (allowed = ∅) || bool_decide (label (bp_Labels p) "app" ∈ allowed))) pods.
Definition hasReadyPod (pods : list BootPod) (app : string) : bool :=
  existsb (λ p, str_eqb (label (bp_Labels p) "app") app && pod_IsReady p) pods.
Definition hasReadyBootstrapValidator (pods : list BootPod) (app : string) : bool :=
  existsb (λ p, str_eqb (label (bp_Labels p) "app") app && str_eqb (TrimSpace (label (bp_Labels p) "pool")) "" && pod_IsReady p) pods.

Definition missingWorkloads (validator gfd dcgm exporter : bool) : list string :=
  (if validator then [] else ["validator"]) ++ (if gfd then [] else ["gfd"]) ++ (if dcgm then [] else ["dcgm"]) ++ (if exporter then [] else ["dcgm-exporter"]).
Definition validationOf (cfg : ValidationConfig) (pods : list BootPod) : ValidationResult :=
  let validator := hasReadyBootstrapValidator pods (vc_ValidatorApp cfg) in
  let gfd := hasReadyPod pods (vc_GFDApp cfg) in
  let dcgm := hasReadyPod pods (vc_DCGMApp cfg) in
  let exporter := hasReadyPod pods (vc_DCGMExporterApp cfg) in
  let ready := validator && gfd && dcgm && exporter in
  mkValidationResult ready validator validator gfd dcgm exporter (dcgm && exporter)
    (if ready then "" else "validation workloads not ready: " +:+ Join (missingWorkloads validator gfd dcgm exporter) ", ").

(** ** bootstrap/internal/handler/workload_status.go *)

Definition conditionDriverReady : string := "DriverReady".
Definition conditionToolkitReady : string := "ToolkitReady".
Definition conditionMonitoringReady : string := "MonitoringReady".
Definition conditionReadyForPooling : string := "ReadyForPooling".
Definition conditionWorkloadsDegraded : string := "WorkloadsDegraded".

Definition boolReason (ok : bool) (success failure : string) : string := if ok then success else failure.
Definition conditionMessage (ok : bool) (okMessage notReadyDetails : string) : string :=
  if ok then okMessage else if negb (str_eqb notReadyDetails "") then notReadyDetails else "not ready".
Definition workloadsDegradedMessage (hasWorkloads degraded : bool) : string :=
  if negb hasWorkloads then "no GPU workloads detected on node" else
  if degraded then "GPU workloads are running while infrastructure is not ready" else "GPU workloads are running on node".

Definition normalizeDeviceState (state : GPUDeviceState) : GPUDeviceState := if str_eqb state "" then GPUDeviceStateDiscovered else state.
Definition deviceStateNeedsValidation (state : GPUDeviceState) : bool :=
  negb (bool_decide ((state : string) ∈ [GPUDeviceStateReady; GPUDeviceStatePendingAssignment; GPUDeviceStateAssigned; GPUDeviceStateReserved; GPUDeviceStateInUse])).
Definition deviceCounters (devices : list GPUDevice) : gmap string Z :=
  foldl (λ counters d, let key := normalizeDeviceState (gd_State d) in <[key := wrap32 (default 0 (counters !! key) + 1)]> counters) ∅ devices.
Definition pendingDeviceIDs (devices : list GPUDevice) : list string :=
  sort_Strings ((λ d, let id := TrimSpace (gds_InventoryID (gd_Status d)) in if str_eqb id "" then gd_Name d else id)
    <$> List.filter (λ d, deviceStateNeedsValidation (gd_State d)) devices).
Definition pendingDevicesMessage (total : Z) (pendingIDs : list string) : string :=
  let base := if total =? 1 then "GPU device requires validation" else "GPU devices require validation" in
  let message := Itoa total +:+ " " +:+ base in
  if list_len0 pendingIDs then message else message +:+ " (" +:+ Join pendingIDs ", " +:+ ")".

Definition evaluateReadyForPooling (devicesPresent inventoryComplete driverReady toolkitReady monitoringReady : bool) (counters : gmap string Z)
    (pendingIDs : list string) (validatorMessage : string) : bool * string * string :=
  if negb devicesPresent then (false, "NoDevices", "GPU devices are not detected on the node") else
  if negb inventoryComplete then (false, "InventoryIncomplete", "inventory data is incomplete") else
  let faulted := default 0 (counters !! GPUDeviceStateFaulted) in
  if 0 <? faulted then (false, "DevicesFaulted", Itoa faulted +:+ " device(s) are faulted") else
  if negb (list_len0 pendingIDs) then (false, "PendingDevices", pendingDevicesMessage (Z.of_nat (length pendingIDs)) pendingIDs) else
  if negb driverReady then (false, "DriverNotReady", conditionMessage false "driver is ready" validatorMessage) else
  if negb toolkitReady then (false, "ToolkitNotReady", conditionMessage false "toolkit is ready" validatorMessage) else
  if negb monitoringReady then (false, "MonitoringNotReady", conditionMessage false "monitoring is ready" validatorMessage) else
  (true, "Ready", "all bootstrap checks passed").

(** The first condition of the type decides. *)
Definition isConditionTrue (inventory : GPUNodeState) (condType : string) : bool :=
  match findCondition (gns_Conditions inventory) condType with Some c => str_eqb (cond_Status c) ConditionTrue | None => false end.

(** ** bootstrap/internal/handler/device_state_sync.go *)

Definition desiredDeviceState (device : GPUDevice) (driverAndToolkitReady infraReady : bool) : GPUDeviceState * bool :=
  let current := gd_State device in
  let state := normalizeDeviceState current in
  let keep := (state, negb (str_eqb state current)) in
  if bool_decide ((state : string) ∈ [GPUDeviceStateAssigned; GPUDeviceStateReserved; GPUDeviceStateInUse]) then keep else
  if str_eqb state GPUDeviceStatePendingAssignment then keep else
  if str_eqb state GPUDeviceStateReady then keep else
  if str_eqb state GPUDeviceStateFaulted then (if driverAndToolkitReady then (GPUDeviceStateValidating, true) else keep) else
  if str_eqb state GPUDeviceStateValidating then (if infraReady then (GPUDeviceStateReady, true) else keep) else
  if infraReady then (GPUDeviceStateReady, true) else
  if driverAndToolkitReady then (GPUDeviceStateValidating, true) else keep.

Definition NewAggregate (errs : list error) : option error :=
  match errs with [] => None | e :: rest => Some (Wrapf "aggregate" [Itoa (Z.of_nat (length rest))] e) end.

Definition nodeNameOf (inventory : GPUNodeState) : string := orValue (gns_NodeName inventory) (gns_Name inventory).

Section Bootstrap.
Context {S : Type} `{PC : PoolClient S, IC : InventoryClient S, AE : ApiErrors, MC : MetaConditions}.

(** The pods of the module in a namespace, on a node when one is named. *)
Class BootReader := br_ListPods : string → string → S → res (list BootPod).
Context `{BR : BootReader}.

Definition listPods (cfg : ValidationConfig) (nodeName : string) (s : S) : res (list BootPod) :=
  match br_ListPods (vc_WorkloadsNamespace cfg) nodeName s with
  | Ok pods => Ok (filterPods pods nodeName (allowedApps cfg))
  | Err e => if pc_IsNotFound e then Ok [] else Err e
  end.
Definition validatorStatus (cfg : ValidationConfig) (nodeName : string) (s : S) : res ValidationResult :=
  validationOf cfg <$> listPods cfg nodeName s.

Definition setCondition (now : Z) (condType : string) (status : bool) (reason message : string) (inventory : GPUNodeState) : GPUNodeState :=
  set_NodeStateConditions (SetStatusCondition now (gns_Conditions inventory)
    (mkCondition condType (boolToConditionStatus status) reason message (gns_Generation inventory) 0)) inventory.
Definition isInventoryComplete (inventory : GPUNodeState) : bool :=
  match FindStatusCondition (gns_Conditions inventory) ConditionInventoryComplete with Some c => str_eqb (cond_Status c) ConditionTrue | None => false end.

(** What the handler writes into the conditions, given the devices. *)
Definition workloadConditions (now : Z) (status : option ValidationResult) (devices : list GPUDevice) (inventory : GPUNodeState) : GPUNodeState :=
  let v := default noValidation status in
  let present := bool_decide (is_Some status) in
  let message := let m := TrimSpace (vr_Message v) in if negb present && str_eqb m "" then "validator status unavailable" else m in
  let driver := present && vr_DriverReady v in
  let toolkit := present && vr_ToolkitReady v in
  let monitoring := present && vr_GFDReady v && vr_DCGMReady v && vr_DCGMExporterReady v in
  let counters := deviceCounters devices in
  let pendingIDs := pendingDeviceIDs devices in
  let complete := isInventoryComplete inventory in
  let count state := default 0 (counters !! state) in
  let hasWorkloads := 0 <? wrap32 (count GPUDeviceStateAssigned + count GPUDeviceStateReserved + count GPUDeviceStateInUse) in
  let degraded := negb (driver && toolkit && monitoring) && hasWorkloads in
  let inventory := setCondition now conditionDriverReady driver (boolReason driver conditionDriverReady "DriverNotReady")
                     (conditionMessage driver "driver is ready" message) inventory in
  let inventory := setCondition now conditionToolkitReady toolkit (boolReason toolkit conditionToolkitReady "ToolkitNotReady")
                     (conditionMessage toolkit "toolkit is ready" message) inventory in
  let inventory := setCondition now conditionMonitoringReady monitoring (boolReason monitoring conditionMonitoringReady "MonitoringNotReady")
                     (conditionMessage monitoring "monitoring is ready" message) inventory in
  let inventory := setCondition now conditionWorkloadsDegraded degraded (boolReason degraded "WorkloadsDegraded" "WorkloadsHealthy")
                     (workloadsDegradedMessage hasWorkloads degraded) inventory in
  let '(ready, reason, text) := evaluateReadyForPooling (negb (list_len0 devices)) complete driver toolkit monitoring counters pendingIDs message in
  setCondition now conditionReadyForPooling ready reason text inventory.

Definition HandleNode : Type := GPUNodeState → S → (Result * option error) * (GPUNodeState * S).

Definition WorkloadStatusHandle (now : Z) (status : option ValidationResult) : HandleNode := λ inventory s,
  let nodeName := let n := TrimSpace (gns_NodeName inventory) in if str_eqb n "" then TrimSpace (gns_Name inventory) else n in
  if str_eqb nodeName "" then ((zeroResult, None), (inventory, s)) else
  match pc_ListDevices IndexGPUDeviceByNode nodeName s with
  | Err e => ((zeroResult, Some (Wrapf "list GPUDevices for bootstrap status: %w" [] e)), (inventory, s))
  | Ok devices => ((zeroResult, None), (workloadConditions now status devices inventory, s))
  end.

(** One device: nothing is written when it has its state. *)
Definition syncDeviceState (driverAndToolkitReady infraReady : bool) (errs : list error) (device : GPUDevice) (s : S) : list error * S :=
  let '(target, mutate) := desiredDeviceState device driverAndToolkitReady infraReady in
  if negb mutate || str_eqb (gd_State device) target then (errs, s) else
  match pc_PatchDeviceStatus (set_DeviceState target device) device s with
  | (Some e, s) => (errs ++ [Wrapf "patch device %s: %w" [gd_Name device] e], s)
  | (None, s) => (errs, s)
  end.
Fixpoint syncDeviceStates (driverAndToolkitReady infraReady : bool) (errs : list error) (devices : list GPUDevice) (s : S) : list error * S :=
  match devices with
  | [] => (errs, s)
  | d :: rest => let '(errs, s) := syncDeviceState driverAndToolkitReady infraReady errs d s in syncDeviceStates driverAndToolkitReady infraReady errs rest s
  end.

Definition DeviceStateSyncHandle : HandleNode := λ inventory s,
  let nodeName := nodeNameOf inventory in
  if str_eqb nodeName "" then ((zeroResult, None), (inventory, s)) else
  let driver := isConditionTrue inventory conditionDriverReady in
  let toolkit := isConditionTrue inventory conditionToolkitReady in
  let monitoring := isConditionTrue inventory conditionMonitoringReady in
  match pc_ListDevices IndexGPUDeviceByNode nodeName s with
  | Err e => ((zeroResult, Some (Wrapf "list devices on node %s: %w" [nodeName] e)), (inventory, s))
  | Ok devices =>
      let '(errs, s) := syncDeviceStates (driver && toolkit) (driver && toolkit && monitoring) [] devices s in
      ((zeroResult, NewAggregate errs), (inventory, s))
  end.

(** ** bootstrap_reconciler.go *)

Definition bootstrapHandlers (now : Z) (status : option ValidationResult) : list HandleNode := [WorkloadStatusHandle now status; DeviceStateSyncHandle].

Definition bootstrapUpdate (current : GPUNodeState) (st : GPUNodeState * S) : option error * (GPUNodeState * S) :=
  let '(inventory, s) := st in
  if bool_decide (gns_Conditions current = gns_Conditions inventory) then (None, st) else
  let '(err, s) := updateNodeState current inventory s in (err, (inventory, s)).

Definition BootstrapReconcile (now : Z) (cfg : ValidationConfig) (enabled : bool) (name : string) (s : S) : (Result * list error) * S :=
  match fetch (ic_GetNodeState name s) with
  | Err e => ((zeroResult, [e]), s)
  | Ok None => ((zeroResult, []), s)
  | Ok (Some current) =>
      if negb enabled then ((zeroResult, []), s) else
      let status := match validatorStatus cfg (nodeNameOf current) s with Ok v => Some v | Err _ => None end in
      let '((result, errs), (_, s)) := cp_Reconcile (mkBaseReconciler (bootstrapHandlers now status) (Some (bootstrapUpdate current))
                                         (Some (λ (h : HandleNode) st, h (fst st) (snd st))) (λ _, None)) (current, s) in
      ((if list_len0 errs then result else zeroResult, errs), s)
  end.
End Bootstrap.

Definition effectiveBootstrapPhase (inventory : GPUNodeState) : string :=
  if isConditionTrue inventory conditionReadyForPooling then "Ready" else
  if negb (isConditionTrue inventory conditionDriverReady) || negb (isConditionTrue inventory conditionToolkitReady) then "Validating" else
  if negb (isConditionTrue inventory conditionMonitoringReady) then "Monitoring" else "Validating".

(** ** internal/watcher/device_watcher.go, workload_pod_watcher.go *)

Definition deviceChanged (old new : GPUDevice) : bool :=
  let o := gd_Status old in let n := gd_Status new in
  if negb (str_eqb (gds_State o) (gds_State n)) || negb (str_eqb (gds_NodeName o) (gds_NodeName n)) || negb (Bool.eqb (gds_Managed o) (gds_Managed n)) then true else
  match gds_PoolRef o, gds_PoolRef n with
  | None, None => false
  | Some a, Some b => negb (str_eqb (ref_Name a) (ref_Name b)) || negb (str_eqb (ref_Namespace a) (ref_Namespace b))
  | _, _ => true
  end.
Definition enqueueDeviceNode (dev : GPUDevice) : list string :=
  let nodeName := TrimSpace (gds_NodeName (gd_Status dev)) in if str_eqb nodeName "" then [] else [nodeName].
