(* ===== verification/Lifecycle.v ===== *)
(** * The life of a device

    Three controllers write the state of a GPUDevice: the inventory creates it,
    bootstrap lets it into service when the workloads of its node are ready, and
    the pools take and release it.  However their reconciles follow each other,
    fail and are repeated, and whatever is annotated in between, a device is in
    service only if its node was found ready since the device was created, and
    is given to a pool only with a reference to it. *)

From S2P Require Import Prelude GoLib Reconciler GpuApi PoolApi CpReconciler PoolSync PoolSyncSpec DeviceInventory.
From S2P Require Import Bootstrap.

Definition in_service : list string :=
  [GPUDeviceStateReady; GPUDeviceStatePendingAssignment; GPUDeviceStateAssigned; GPUDeviceStateReserved; GPUDeviceStateInUse].

Lemma not_Discovered : GPUDeviceStateDiscovered ∉ in_service.
Proof. apply (bool_decide_unpack _). vm_compute. exact I. Qed.
Lemma not_empty : "" ∉ in_service.
Proof. apply (bool_decide_unpack _). vm_compute. exact I. Qed.
Lemma not_Validating : GPUDeviceStateValidating ∉ in_service.
Proof. apply (bool_decide_unpack _). vm_compute. exact I. Qed.

(** What holds of a device, given the devices found ready. *)
Definition life (verified : gset string) (d : GPUDevice) : Prop :=
  (gd_State d ∈ in_service → gd_Name d ∈ verified) ∧
  (gd_State d = GPUDeviceStatePendingAssignment ∨ gd_State d = GPUDeviceStateAssigned → is_Some (gd_PoolRef d)).

(** What the API server is documented to do with the objects of the inventory. *)
Class InventoryServer (S : Type) `{PC : PoolClient S, AE : ApiErrors, PS : !PoolServer S, IC : InventoryClient S} := {
  create_device s d s' : ic_CreateDevice d s = (None, s') →
    devices s !! gd_Name d = None ∧ devices s' = <[gd_Name d := set_DeviceStatus emptyStatus d]> (devices s);
  patch_meta s new base s' : ic_PatchDevice new base s = (None, s') → devices s !! gd_Name base = Some base → gd_Name new = gd_Name base →
    devices s' = <[gd_Name base := set_DeviceStatus (gd_Status base) new]> (devices s);
  update_status s d s' : ic_UpdateDeviceStatus d s = (None, s') →
    ∃ d0, devices s !! gd_Name d = Some d0 ∧ devices s' = <[gd_Name d := set_DeviceStatus (gd_Status d) d0]> (devices s);
  delete_device s name s' : ic_DeleteDevice name s = (None, s') → devices s' = delete name (devices s);
  create_failed s d e s' : ic_CreateDevice d s = (Some e, s') → devices s' = devices s;
  patch_meta_failed s new base e s' : ic_PatchDevice new base s = (Some e, s') → devices s' = devices s;
  update_failed s d e s' : ic_UpdateDeviceStatus d s = (Some e, s') → devices s' = devices s;
  delete_failed s name e s' : ic_DeleteDevice name s = (Some e, s') → devices s' = devices s;
  create_state s st err s' : ic_CreateNodeState st s = (err, s') → devices s' = devices s;
  patch_state s new base err s' : ic_PatchNodeState new base s = (err, s') → devices s' = devices s;
  update_state s st err s' : ic_UpdateNodeStateStatus st s = (err, s') → devices s' = devices s;
  (** the name of a node state is the name of a node *)
  state_named s name st : ic_GetNodeState name s = Ok st → nodeNameOf st ≠ "" ∧ TrimSpace (gns_NodeName st) = gns_NodeName st ∧ TrimSpace (gns_Name st) = gns_Name st;
  (** a listing does not report a conflict *)
  list_no_conflict s index value e : pc_ListDevices index value s = Err e →
    ∀ text args, IsConflict (Wrapf text args e) = false ∧ errorsIs (Wrapf text args e) ErrStopHandlerChain = false;
}.

Section Lifecycle.
Context {S : Type} {PC : PoolClient S} {AE : ApiErrors} {PS : PoolServer S} {IC : InventoryClient S} {IS : InventoryServer S}.
Context {LS : LabelSelectors} {MC : MetaConditions} {GS : GoSort} {KO : KeyOrder} {F64 : Float64} {CT : Catalog} {DT : Detector S} {BR : BootReader (S := S)}.

(** Every device stored has the property. *)
Definition all_devices (I : GPUDevice → Prop) (s : S) : Prop := ∀ name d, devices s !! name = Some d → I d.

Section Keeps.
Context (I : GPUDevice → Prop).

(** What a call may do to a device that has the property, and to one that is not there. *)
Lemma all_insert name d s s' : all_devices I s → I d → devices s' = <[name := d]> (devices s) → all_devices I s'.
Proof.
  intros Hs Hd Heq n d'. rewrite Heq, lookup_insert. case_decide; [by intros [= <-]|]. apply Hs.
Qed.
Lemma all_same s s' : all_devices I s → devices s' = devices s → all_devices I s'.
Proof. intros Hs Heq n d. rewrite Heq. apply Hs. Qed.

Definition keeps {X} (f : S → X * S) : Prop := ∀ s x s', f s = (x, s') → all_devices I s → all_devices I s'.

Lemma keeps_forEach {A} (f : A → S → option error * S) l : (∀ a, keeps (f a)) → keeps (srv_forEach f l).
Proof.
  intros Hf. induction l as [|a l IH]; intros s x s'; simpl; [by intros [= _ <-]|].
  destruct (f a s) as [[e|] s1] eqn:E; [intros [= _ <-]; by eapply Hf|]. intros Hr Hs. eapply IH; [done|]. by eapply Hf.
Qed.
Lemma keeps_retry n fn : keeps fn → keeps (retryN n fn).
Proof.
  intros Hf. induction n as [|n IH]; intros s x s'; simpl; destruct (fn s) as [[e|] s1] eqn:E; try (intros [= _ <-]; by eapply Hf);
    destruct (IsConflict e); try (intros [= _ <-]; by eapply Hf). intros Hr Hs. eapply IH; [done|]. by eapply Hf.
Qed.

(** A patch of a device that was just read. *)
Lemma keeps_patch s base new err s' : pc_PatchDeviceStatus new base s = (err, s') → devices s !! gd_Name base = Some base →
  gd_Name new = gd_Name base → gd_Labels new = gd_Labels base → gd_Annotations new = gd_Annotations base → gd_Owners new = gd_Owners base → I new → all_devices I s → all_devices I s'.
Proof.
  intros Hp Hb Hn Hl Ha Ho Hi Hs. destruct err as [e|].
  - destruct (patch_device_failed _ _ _ _ _ Hp) as [Hd _]. by eapply all_same.
  - destruct (patch_device _ _ _ _ Hp Hb Hn Hl Ha Ho) as [Hd _]. by eapply all_insert.
Qed.

Lemma keeps_assign name pn pns : (∀ d, I d → I (assigned_device pn pns d)) → keeps (assignDeviceWithRetry name pn pns).
Proof.
  intros Hi. apply keeps_retry. intros s x s'. pose proof (fetch_device name s) as Hf. destruct (fetch (pc_GetDevice name s)) as [[d|]|]; [|by intros [= _ <-]..].
  destruct (pc_PatchDeviceStatus _ _ s) as [err s1] eqn:E. intros [= _ <-] Hs. pose proof (devices_name _ _ _ Hf) as Hn. subst name.
  eapply keeps_patch; [done|done..| |done]. apply Hi. by eapply Hs.
Qed.
Lemma keeps_clear name pn pns key : (∀ d, I d → I (cleared_device d)) → keeps (clearDevicePool name pn pns key).
Proof.
  intros Hi. apply keeps_retry. intros s x s'. pose proof (fetch_device name s) as Hf. destruct (fetch (pc_GetDevice name s)) as [[d|]|]; [|by intros [= _ <-]..].
  destruct (str_eqb _ pn); [by intros [= _ <-]|]. destruct (negb _); [by intros [= _ <-]|].
  destruct (pc_PatchDeviceStatus _ _ s) as [err s1] eqn:E. intros [= _ <-] Hs. pose proof (devices_name _ _ _ Hf) as Hn. subst name.
  eapply keeps_patch; [done|done..| |done]. apply Hi. by eapply Hs.
Qed.

(** A loop over devices listed before it: each turn writes its device only. *)
Definition touches (d : GPUDevice) (s s' : S) : Prop := devices s' = devices s ∨ ∃ d', I d' ∧ devices s' = <[gd_Name d := d']> (devices s).

Lemma touches_all d s s' : touches d s s' → all_devices I s → all_devices I s'.
Proof. intros [Heq|(d' & Hd & Heq)] Hs; [by eapply all_same|by eapply all_insert]. Qed.
Lemma touches_other d s s' d' : touches d s s' → gd_Name d' ≠ gd_Name d → devices s !! gd_Name d' = Some d' → devices s' !! gd_Name d' = Some d'.
Proof. intros [-> |(d1 & _ & ->)] Hne Hd'; [done|]. by rewrite lookup_insert_ne. Qed.

Lemma forEach_listed (f : GPUDevice → S → option error * S) l s x s' : NoDup (gd_Name <$> l) → (∀ d, d ∈ l → devices s !! gd_Name d = Some d) →
  (∀ d s x s', devices s !! gd_Name d = Some d → I d → f d s = (x, s') → touches d s s') →
  srv_forEach f l s = (x, s') → all_devices I s → all_devices I s'.
Proof.
  intros Hnd Hl Hf. revert s Hl. induction l as [|d l IH]; intros s Hl; simpl; [by intros [= _ <-]|].
  apply NoDup_cons in Hnd as [Hn Hnd]. destruct (f d s) as [[e|] s1] eqn:E; intros Hr Hs;
    pose proof (Hf d s _ s1 (Hl d ltac:(by left)) (Hs _ _ (Hl d ltac:(by left))) E) as Ht.
  - injection Hr as _ <-. by eapply touches_all.
  - eapply IH; [done| |done|by eapply touches_all]. intros d' Hd'. eapply touches_other; [done| |apply Hl; by right].
    intros Heq. apply Hn. rewrite <- Heq. apply list_elem_of_fmap. by exists d'.
Qed.

Lemma patch_touches d new s err s' : pc_PatchDeviceStatus new d s = (err, s') → devices s !! gd_Name d = Some d → gd_Name new = gd_Name d →
  gd_Labels new = gd_Labels d → gd_Annotations new = gd_Annotations d → gd_Owners new = gd_Owners d → I new → touches d s s'.
Proof.
  intros Hp Hd Hn Hl Ha Ho Hi. destruct err as [e|].
  - left. by destruct (patch_device_failed _ _ _ _ _ Hp).
  - right. exists new. split; [done|]. by destruct (patch_device _ _ _ _ Hp Hd Hn Hl Ha Ho).
Qed.

(** *** The handlers of a pool *)

Definition handler_keeps (h : HandlePool) : Prop := ∀ pool s r pool' s', h pool s = (r, (pool', s')) → all_devices I s → all_devices I s'.

Lemma selection_keeps : (∀ pn pns d, I d → I (assigned_device pn pns d)) → (∀ d, I d → I (cleared_device d)) → handler_keeps SelectionHandle.
Proof.
  intros Ha Hc pool s r pool' s' Hh Hs. unfold SelectionHandle in Hh.
  destruct (pc_ListDevices (assignmentIndex pool) _ s) as [l1|]; [|by injection Hh as _ _ <-].
  destruct (pc_ListDevices IndexGPUDeviceByPoolRefName _ s) as [l2|]; [|by injection Hh as _ _ <-].
  destruct (match gps_NodeSelector _ with Some _ => _ | None => _ end) as [sel|]; [|by injection Hh as _ _ <-].
  destruct (match sel with Some _ => _ | None => _ end) as [byNode|]; [|by injection Hh as _ _ <-].
  destruct (srv_forEach (λ dev, clearDevicePool _ _ _ _) _ s) as [[e|] s1] eqn:E1.
  - injection Hh as _ _ <-. eapply keeps_forEach, Hs; [|exact E1]. intros d. by apply keeps_clear.
  - assert (all_devices I s1) as Hs1 by (eapply keeps_forEach, Hs; [|exact E1]; intros d; by apply keeps_clear).
    destruct (srv_forEach (λ dev, assignDeviceWithRetry _ _ _) _ s1) as [err s2] eqn:E2.
    assert (s' = s2) as -> by (destruct err; by injection Hh). eapply keeps_forEach, Hs1; [|exact E2]. intros d. apply keeps_assign. intros d1. apply Ha.
Qed.

Lemma nodemark_keeps : handler_keeps NodeMarkHandle.
Proof.
  intros pool s r pool' s' Hh Hs. unfold NodeMarkHandle in Hh.
  destruct (pc_ListDevices _ _ s) as [l|]; [|by injection Hh as _ _ <-].
  destruct (pc_ListNodesByLabel _ _ s) as [l1|]; [|by injection Hh as _ _ <-].
  destruct (pc_ListNodesByTaint _ s) as [l2|]; [|by injection Hh as _ _ <-].
  destruct (srv_forEach _ _ s) as [err s1] eqn:E. injection Hh as _ _ <-. eapply keeps_forEach, Hs; [|exact E].
  intros name. apply keeps_retry. intros s2 x s3. unfold fetch. destruct (pc_GetNode name s2) as [n|e] eqn:Hg; [|destruct (pc_IsNotFound e); by intros [= _ <-]].
  destruct (markNode _ _ _ n) as [n' changed] eqn:Hm. destruct (negb changed); [by intros [= _ <-]|]. intros Hp Hs2. eapply all_same; [done|].
  apply get_node in Hg. pose proof (nodes_name _ _ _ Hg) as Hn. destruct x as [e|]; [by apply patch_node_failed in Hp as [_ ?]|].
  subst name. apply patch_node in Hp as [_ ?]; [done|done|]. by rewrite <- (markNode_keeps (PoolLabelKey pool) (0 <? default 0 (countNodes (List.filter (marks pool) l) !! node_Name n)) (default false (sch_TaintsEnabled (gps_Scheduling (gp_Spec pool)))) n), Hm.
Qed.

Lemma validation_keeps ns : (∀ d st, I d → validatedState st d ≠ gd_State d → I (set_assignment (gd_PoolRef d) (validatedState st d) d)) → handler_keeps (DPValidationHandle ns).
Proof.
  intros Hi pool s r pool' s' Hh Hs. unfold DPValidationHandle in Hh.
  destruct (match pc_ListValidatorPods _ _ s with Ok _ => _ | Err _ => _ end) as [pods|]; [|by injection Hh as _ _ <-].
  destruct (pc_ListDevices _ _ s) as [l|] eqn:Hl; [|by injection Hh as _ _ <-]. destruct (list_devices _ _ _ _ Hl) as [Hnd Hin].
  destruct (srv_forEach _ _ s) as [err s1] eqn:E. injection Hh as _ _ <-.
  eapply forEach_listed; [exact Hnd|intros d Hd; by apply Hin|  |exact E|done].
  intros d s2 x s3 Hd Hid. unfold validateDevice. destruct (str_eqb (DeviceNodeName d) ""); [intros [= _ <-]; by left|].
  destruct (str_eqb (validatedState _ d) (gd_State d)) eqn:Heq; [intros [= _ <-]; by left|]. intros Hp. go_bool.
  eapply patch_touches; [done|done..|]. by apply Hi.
Qed.
End Keeps.

(** *** Chains *)

Lemma chain_keeps {H St : Type} (P : St → Prop) (execute : H → St → (Result * option error) * St) handlers result errs st out st' :
  (∀ h st r st', h ∈ handlers → execute h st = (r, st') → P st → P st') → cp_handlersLoop execute handlers result errs st = (out, st') → P st → P st'.
Proof.
  intros Hh. revert result errs st. induction handlers as [|h rest IH]; intros result errs st; simpl; [by intros [= _ <-]|].
  destruct (execute h st) as [[res err] st1] eqn:E. intros Hr Hp. assert (P st1) as Hp1 by (eapply Hh; [by left|done..]).
  assert (∀ h st r st', h ∈ rest → execute h st = (r, st') → P st → P st') as Hrest by (intros; eapply Hh; [by right|done..]).
  destruct err as [e|]; [destruct (errorsIs e ErrStopHandlerChain); [by injection Hr as _ <-|]; destruct (IsConflict e)|];
    (destruct (_ && _); [by injection Hr as _ <-|by eapply IH]).
Qed.

Lemma reconcile_keeps {H St : Type} (P : St → Prop) (rec : BaseReconciler H St) st out st' :
  (∀ execute h st r st', br_execute rec = Some execute → h ∈ br_handlers rec → execute h st = (r, st') → P st → P st') →
  (∀ update st e st', br_update rec = Some update → update st = (e, st') → P st → P st') → (∀ h, br_finalizer rec h = None) →
  cp_Reconcile rec st = (out, st') → P st → P st'.
Proof.
  intros Hex Hup Hfin. unfold cp_Reconcile. destruct (br_update rec) as [update|] eqn:Eu; [|by intros [= _ <-]].
  destruct (br_execute rec) as [execute|] eqn:Ee; [|by intros [= _ <-]].
  destruct (cp_handlersLoop _ _ _ _ st) as [[result errs] st1] eqn:El. destruct (update st1) as [uerr st2] eqn:E2.
  assert (∀ handlers es (st : St), cp_finalizers (br_finalizer rec) handlers es st = (es, st)) as Hf.
  { induction handlers as [|h hs IH]; intros es st0; simpl; [done|]. by rewrite Hfin. }
  intros Hr Hp. assert (P st2) as Hp2.
  { eapply Hup; [done|exact E2|]. eapply chain_keeps, Hp; [|exact El]. intros h st0 r st0' Hh. by eapply Hex. }
  destruct (match uerr with Some _ => _ | None => _ end) as [result' errs']. rewrite Hf in Hr. destruct (negb _); by injection Hr as _ <-.
Qed.

(** *** The pool controllers *)

Section Pools.
Context (I : GPUDevice → Prop) (Iassign : ∀ pn pns d, I d → I (assigned_device pn pns d)) (Iclear : ∀ d, I d → I (cleared_device d)).
Context (Ivalidate : ∀ d ready, I d → validatedState ready d ≠ gd_State d → I (set_assignment (gd_PoolRef d) (validatedState ready d) d)).

Lemma reconcilePool_keeps now ns workload pool : keeps_devices workload → keeps I (reconcilePool pool (poolHandlers now ns workload)).
Proof.
  intros Hw s x s'. unfold reconcilePool. destruct (cp_Reconcile _ (pool, s)) as [out [p s1]] eqn:E. intros [= _ <-] Hs.
  apply (reconcile_keeps (λ st : GPUPool * S, all_devices I st.2) _ _ _ _) in E; [done| | |done|done].
  - intros execute h [p0 s0] r [p1 s2] [= <-] Hh Hex Hp. change (h ∈ poolHandlers now ns workload) in Hh. unfold poolHandlers in Hh. rewrite !elem_of_cons in Hh. simpl in *.
    destruct Hh as [-> |[-> |[-> |[-> |[-> |[-> |Hh]]]]]]; [| | | | | |by apply not_elem_of_nil in Hh].
    + by injection Hex as _ _ <-.
    + destruct r. apply config_keeps in Hex as [-> _]. done.
    + by eapply selection_keeps.
    + by eapply nodemark_keeps.
    + destruct r as [res err]. apply Hw in Hex as (Hv & _ & _). injection Hv as Hd _. by eapply all_same.
    + by eapply validation_keeps.
  - intros update [p0 s0] e [p1 s2] [= <-] Hu Hp. apply poolUpdate_view in Hu. injection Hu as Hd _. simpl in *. by eapply all_same.
Qed.

Lemma GPUPoolReconcile_keeps now ns workload namespace name : keeps_devices workload → keeps I (GPUPoolReconcile (poolHandlers now ns workload) namespace name).
Proof.
  intros Hw s x s'. unfold GPUPoolReconcile. destruct (fetch _) as [[pool|]|]; [by eapply reconcilePool_keeps|by intros [= _ <-]..].
Qed.
Lemma ClusterGPUPoolReconcile_keeps now ns workload name : keeps_devices workload → keeps I (ClusterGPUPoolReconcile (poolHandlers now ns workload) name).
Proof.
  intros Hw s x s'. unfold ClusterGPUPoolReconcile. destruct (fetch _) as [[pool|]|]; [by eapply reconcilePool_keeps|by intros [= _ <-]..].
Qed.
End Pools.

(** *** Bootstrap *)

(** [FindStatusCondition] finds the first condition of a type. *)
Class FindsFirst := find_first cs t : FindStatusCondition cs t = findCondition cs t.
Context {FF : FindsFirst}.

Lemma setCondition_true now t b reason message inv t' : isConditionTrue (setCondition now t b reason message inv) t' = if str_eqb t' t then b else isConditionTrue inv t'.
Proof.
  unfold isConditionTrue, setCondition, set_NodeStateConditions. simpl. rewrite <- !find_first. destruct (str_eqb t' t) eqn:E; go_bool.
  - subst t'. set (c := mkCondition t _ _ _ _ _). destruct (Find_Set now (gns_Conditions inv) c) as (c' & Hf & (_ & Hst & _) & _).
    change (cond_Type c) with t in Hf. rewrite Hf, Hst. by destruct b.
  - by rewrite Find_Set_other.
Qed.

Definition infrastructureReady (v : ValidationResult) : bool :=
  vr_DriverReady v && vr_ToolkitReady v && (vr_GFDReady v && vr_DCGMReady v && vr_DCGMExporterReady v).

Lemma workloadConditions_infra now status devices inv : let inv' := workloadConditions now status devices inv in
  isConditionTrue inv' conditionDriverReady && isConditionTrue inv' conditionToolkitReady && isConditionTrue inv' conditionMonitoringReady = true →
  ∃ v, status = Some v ∧ infrastructureReady v = true.
Proof.
  unfold workloadConditions. destruct (evaluateReadyForPooling _ _ _ _ _ _ _ _) as [[ready reason] text].
  cbv zeta. rewrite !setCondition_true. cbn [str_eqb]. destruct status as [v|]; simpl; [|done]. intros Hr. exists v. split; [done|]. unfold infrastructureReady.
  exact Hr.
Qed.

Lemma workloadConditions_name now status devices inv : nodeNameOf (workloadConditions now status devices inv) = nodeNameOf inv.
Proof. unfold workloadConditions. by destruct (evaluateReadyForPooling _ _ _ _ _ _ _ _) as [[ready reason] text]. Qed.

(** The state bootstrap wants of a device. *)
Lemma desired_cases d dtr infra t m : desiredDeviceState d dtr infra = (t, m) →
  t = normalizeDeviceState (gd_State d) ∨ t = GPUDeviceStateValidating ∨ (t = GPUDeviceStateReady ∧ infra = true).
Proof. unfold desiredDeviceState. intros Hd. repeat case_match; simplify_eq; auto. Qed.

Lemma life_state V t d : life V d → t = normalizeDeviceState (gd_State d) ∨ t = GPUDeviceStateValidating ∨ (t = GPUDeviceStateReady ∧ gd_Name d ∈ V) →
  life V (set_DeviceState t d).
Proof.
  intros [Hs Hp] Ht. unfold life. change (gd_State (set_DeviceState t d)) with t. change (gd_Name (set_DeviceState t d)) with (gd_Name d).
  change (gd_PoolRef (set_DeviceState t d)) with (gd_PoolRef d). destruct Ht as [-> |[-> |[-> Hv]]].
  - unfold normalizeDeviceState. destruct (str_eqb (gd_State d) "") eqn:E; [|done]. split; [by intros []%not_Discovered|by intros [?|?]].
  - split; [by intros []%not_Validating|by intros [?|?]].
  - split; [done|by intros [?|?]].
Qed.

Lemma syncDeviceStates_keeps V dtr infra errs l s x s' : NoDup (gd_Name <$> l) → (∀ d, d ∈ l → devices s !! gd_Name d = Some d) →
  (infra = true → ∀ d, d ∈ l → gd_Name d ∈ V) → syncDeviceStates dtr infra errs l s = (x, s') → all_devices (life V) s → all_devices (life V) s'.
Proof.
  intros Hnd. revert errs s. induction l as [|d l IH]; intros errs s Hl Hv; simpl; [by intros [= _ <-]|].
  apply NoDup_cons in Hnd as [Hn Hnd]. destruct (syncDeviceState dtr infra errs d s) as [errs1 s1] eqn:E. intros Hr Hs.
  assert (touches (life V) d s s1) as Ht.
  { unfold syncDeviceState in E. destruct (desiredDeviceState d dtr infra) as [t m] eqn:Hd. destruct (_ || _); [injection E as _ <-; by left|].
    destruct (pc_PatchDeviceStatus _ _ s) as [err s2] eqn:Hp. assert (s1 = s2) as -> by (destruct err; by injection E).
    eapply patch_touches; [exact Hp|apply Hl; by left|done..|]. apply life_state; [by eapply Hs, Hl; left|].
    destruct (desired_cases _ _ _ _ _ Hd) as [?|[?|[? Hi]]]; [auto..|]. right. right. split; [done|]. apply Hv; [done|by left]. }
  eapply IH; [done| | |exact Hr|by eapply touches_all].
  - intros d' Hd'. eapply touches_other; [exact Ht| |apply Hl; by right]. intros Heq. apply Hn. rewrite <- Heq. apply list_elem_of_fmap. by exists d'.
  - intros Hi d' Hd'. apply Hv; [done|by right].
Qed.

(** The devices a bootstrap reconcile finds on a ready node. *)
Definition found_ready (cfg : ValidationConfig) (name : string) (s : S) : gset string :=
  match ic_GetNodeState name s with
  | Err _ => ∅
  | Ok st =>
      match validatorStatus cfg (nodeNameOf st) s, pc_ListDevices IndexGPUDeviceByNode (nodeNameOf st) s with
      | Ok v, Ok l => if infrastructureReady v then list_to_set (gd_Name <$> l) else ∅
      | _, _ => ∅
      end
  end.

Lemma updateNodeState_devices current changed s err s' : updateNodeState current changed s = (err, s') → devices s' = devices s.
Proof.
  unfold updateNodeState. case_bool_decide; [by intros [= _ <-]|]. destruct (ic_UpdateNodeStateStatus _ s) as [e s1] eqn:E. intros [= _ <-].
  by apply update_state in E.
Qed.

Lemma bootstrap_keeps now cfg enabled name V s out s' : BootstrapReconcile now cfg enabled name s = (out, s') →
  all_devices (life V) s → all_devices (life (V ∪ found_ready cfg name s)) s'.
Proof.
  intros Hr Hs. assert (all_devices (life (V ∪ found_ready cfg name s)) s) as Hs'.
  { intros n d Hd. destruct (Hs n d Hd) as [H1 H2]. split; [|done]. intros Hin. apply elem_of_union. left. auto. }
  clear Hs. unfold found_ready in Hs' |- *. unfold BootstrapReconcile, fetch in Hr.
  destruct (ic_GetNodeState name s) as [st|e] eqn:Hg; [|destruct (pc_IsNotFound e); by injection Hr as _ <-].
  destruct (negb enabled); [by injection Hr as _ <-|]. destruct (state_named _ _ _ Hg) as (Hne & Ht1 & Ht2).
  set (V' := V ∪ _) in *. set (status := match validatorStatus _ _ _ with Ok v => Some v | Err _ => None end) in Hr.
  destruct (cp_Reconcile _ _) as [[res0 errs0] [inv s1]] eqn:E. injection Hr as _ <-.
  unfold cp_Reconcile in E. cbn [br_update br_execute br_handlers br_finalizer] in E.
  destruct (cp_handlersLoop _ _ _ _ (st, s)) as [[result errs] [inv1 s2]] eqn:El.
  assert (all_devices (life V') s2) as Hs2.
  { revert El. unfold bootstrapHandlers. cbn [cp_handlersLoop fst snd]. unfold WorkloadStatusHandle at 1. rewrite Ht1, Ht2.
    replace (if str_eqb (gns_NodeName st) "" then gns_Name st else gns_NodeName st) with (nodeNameOf st) by done.
    rewrite (proj2 (str_eqb_false _ _) Hne). destruct (pc_ListDevices _ _ s) as [l|e] eqn:Hl.
    2: { destruct (list_no_conflict _ _ _ _ Hl "list GPUDevices for bootstrap status: %w" []) as [Hc Hst]. rewrite Hst, Hc. simpl. rewrite Hc. simpl.
         intros [= _ _ _ <-]. done. }
    intros El. simpl in El. set (inv' := workloadConditions now status l st) in El. unfold DeviceStateSyncHandle in El.
    replace (nodeNameOf inv') with (nodeNameOf st) in El by (symmetry; apply workloadConditions_name).
    rewrite (proj2 (str_eqb_false _ _) Hne), Hl in El. destruct (syncDeviceStates _ _ _ _ s) as [errs1 s3] eqn:Esync.
    assert (s2 = s3) as ->.
    { destruct (NewAggregate errs1) as [e|]; [destruct (errorsIs _ _); [by injection El|destruct (IsConflict e)]|]; simpl in El; by injection El. }
    destruct (list_devices _ _ _ _ Hl) as [Hnd Hin]. eapply syncDeviceStates_keeps; [done|intros d Hd; by apply Hin| |exact Esync|done].
    intros Hinfra d Hd. apply workloadConditions_infra in Hinfra as (v & Hv & Hready). unfold V', status in *.
    destruct (validatorStatus cfg (nodeNameOf st) s) as [v'|]; [|done]. injection Hv as ->. rewrite Hready. apply elem_of_union. right.
    apply elem_of_list_to_set, list_elem_of_fmap. by exists d. }
  destruct (bootstrapUpdate st (inv1, s2)) as [uerr [inv2 s3]] eqn:Eu.
  assert (devices s3 = devices s2) as Hd3.
  { unfold bootstrapUpdate in Eu. case_bool_decide; [by injection Eu as _ _ <-|]. destruct (updateNodeState _ _ s2) as [e s4] eqn:E4.
    injection Eu as _ _ <-. by eapply updateNodeState_devices. }
  destruct (match uerr with Some _ => _ | None => _ end) as [result' errs']. simpl in E.
  assert (s1 = s3) as -> by (destruct (negb _); by injection E). by eapply all_same.
Qed.

(** *** The inventory *)

(** The inventory leaves the name, the state and the pool of a device alone,
    apart from giving the state Discovered to one that has none. *)
Definition same_life (d d' : GPUDevice) : Prop :=
  gd_Name d' = gd_Name d ∧ gd_PoolRef d' = gd_PoolRef d ∧ (gd_State d' = gd_State d ∨ gd_State d' = normalizeDeviceState (gd_State d)).

Lemma life_same V d d' : same_life d d' → life V d → life V d'.
Proof.
  intros (Hn & Hp & Hs) Hl. destruct Hs as [Hs|Hs].
  - unfold life in *. by rewrite Hn, Hp, Hs.
  - pose proof (life_state V (gd_State d') d Hl) as Hl'. unfold life in *.
    change (gd_State (set_DeviceState (gd_State d') d)) with (gd_State d') in Hl'. change (gd_Name (set_DeviceState (gd_State d') d)) with (gd_Name d) in Hl'.
    change (gd_PoolRef (set_DeviceState (gd_State d') d)) with (gd_PoolRef d) in Hl'. rewrite Hn, Hp. auto.
Qed.

Lemma invoke_state d : ∃ r, invokeHandlers [HandleDeviceState] d =
  ((r, None), if str_eqb (gd_State d) "" then set_DeviceState GPUDeviceStateDiscovered d else d).
Proof. eexists. reflexivity. Qed.

(** What the inventory writes into the status. *)
Lemma refreshed node snapshot labels managed approval detections d r err d' :
  invokeHandlers [HandleDeviceState] (canonicalAddress (ApplyDetection snapshot detections
    (set_DeviceStatus (refreshStatus node snapshot labels managed approval (gd_Status d)) d))) = ((r, err), d') →
  err = None ∧ same_life d d' ∧ gd_Labels d' = gd_Labels d ∧ gd_Annotations d' = gd_Annotations d ∧ gd_Owners d' = gd_Owners d.
Proof.
  destruct (invoke_state (canonicalAddress (ApplyDetection snapshot detections
    (set_DeviceStatus (refreshStatus node snapshot labels managed approval (gd_Status d)) d)))) as [r' Hi].
  rewrite Hi. intros [= _ <- <-]. split; [done|]. unfold same_life, ApplyDetection, normalizeDeviceState, gd_State.
  destruct (findDetection detections snapshot); cbn; (destruct (str_eqb (gds_State (gd_Status d)) "") eqn:E; cbn; split_and!; auto).
Qed.

Lemma create_keeps V node snapshot labels managed approval detections :
  keeps (life V) (createDevice [HandleDeviceState] node snapshot labels managed approval (ApplyDetection snapshot detections)).
Proof.
  intros s x s' Hc Hs. unfold createDevice in Hc. set (d := mkGPUDevice _ _ _ _ emptyStatus) in Hc.
  destruct (ic_CreateDevice d s) as [err s1] eqn:Ec. assert (all_devices (life V) s1) as Hs1.
  { destruct err as [e|]; [by eapply all_same, create_failed|]. destruct (create_device _ _ _ Ec) as [_ Heq]. eapply all_insert; [done| |exact Heq].
    split; [|by intros [?|?]]. by intros []%not_empty. }
  destruct err as [e|]; [by injection Hc as _ <-|].
  set (d1 := set_DeviceState _ _) in Hc.
  destruct (invokeHandlers _ _) as [[r err] d2] eqn:Ei.
  assert (gd_State d2 = GPUDeviceStateDiscovered ∧ err = None) as [Hst ->].
  { destruct (invoke_state (canonicalAddress (ApplyDetection snapshot detections d1))) as [r' Hi]. rewrite Hi in Ei. injection Ei as _ <- <-.
    split; [|done]. unfold ApplyDetection. by destruct (findDetection detections snapshot). }
  unfold requeueOnConflict in Hc. destruct (ic_UpdateDeviceStatus d2 s1) as [err s2] eqn:Eu.
  assert (s' = s2) as -> by (destruct err as [e|]; [destruct (IsConflict e)|]; by injection Hc).
  destruct err as [e|]; [by eapply all_same, update_failed|]. destruct (update_status _ _ _ Eu) as (d0 & _ & Heq). eapply all_insert; [done| |exact Heq].
  unfold life. change (gd_State (set_DeviceStatus (gd_Status d2) d0)) with (gd_State d2). rewrite Hst. split; [by intros []%not_Discovered|by intros [?|?]].
Qed.

Lemma metadata_keeps V node device snapshot s r device' s' : devices s !! gd_Name device = Some device →
  ensureDeviceMetadata node device snapshot s = (r, (device', s')) → all_devices (life V) s →
  all_devices (life V) s' ∧ (r = Ok false → device' = device ∧ s' = s).
Proof.
  intros Hd. unfold ensureDeviceMetadata. destruct (negb _); [intros [= <- <- <-] Hs; done|].
  set (new := set_DeviceOwners _ _). destruct (ic_PatchDevice new device s) as [err s1] eqn:Ep. intros Hr Hs.
  assert (s' = s1 ∧ r ≠ Ok false) as [-> Hne] by (destruct err; by injection Hr as <- _ <-). split; [|by intros ->].
  destruct err as [e|]; [by eapply all_same, patch_meta_failed|]. eapply all_insert; [done| |exact (patch_meta _ _ _ _ Ep Hd eq_refl)].
  pose proof (Hs _ _ Hd) as Hl. exact Hl.
Qed.

Lemma device_keeps V node snapshot labels managed approval detections :
  keeps (life V) (DeviceReconcile [HandleDeviceState] node snapshot labels managed approval (ApplyDetection snapshot detections)).
Proof.
  intros s x s' Hr Hs. unfold DeviceReconcile in Hr. set (name := buildDeviceName _ _) in Hr. pose proof (fetch_device name s) as Hf.
  destruct (fetch (pc_GetDevice name s)) as [[d|]|]; [|by eapply create_keeps|by injection Hr as _ <-].
  pose proof (devices_name _ _ _ Hf) as Hn. destruct (ensureDeviceMetadata node d snapshot s) as [u [d1 s1]] eqn:Em.
  rewrite <- Hn in Hf. destruct (metadata_keeps V _ _ _ _ _ _ _ Hf Em Hs) as [Hs1 Hsame].
  destruct u as [u|]; [|by injection Hr as _ <-].
  destruct (if (u : bool) then pc_GetDevice name s1 else Ok d1) as [b|] eqn:Hb; [|by injection Hr as _ <-].
  assert (devices s1 !! gd_Name b = Some b) as Hstored.
  { destruct u; [apply get_device in Hb; by rewrite (devices_name _ _ _ Hb)|]. injection Hb as <-. by destruct (Hsame eq_refl) as [-> ->]. }
  destruct (invokeHandlers _ _) as [[r err] d2] eqn:Ei. destruct (refreshed _ _ _ _ _ _ _ _ _ _ Ei) as (-> & Hlife & Hlab & Hann & Hown).
  case_bool_decide; [by injection Hr as _ <-|]. unfold requeueOnConflict in Hr. destruct (pc_PatchDeviceStatus d2 b s1) as [err s2] eqn:Ep.
  assert (s' = s2) as -> by (destruct err as [e|]; [destruct (IsConflict e)|]; by injection Hr).
  eapply keeps_patch; [exact Ep|done|apply Hlife|done..| |done]. eapply life_same; [done|]. by eapply Hs1.
Qed.

Lemma loop_keeps V reconcile snapshots : (∀ d, keeps (life V) (reconcile d)) →
  ∀ orphans l r, keeps (life V) (reconcileDevices reconcile snapshots orphans l r).
Proof.
  intros Hk. induction snapshots as [|d rest IH]; intros orphans l r s x s'; simpl; [by intros [= _ <-]|].
  destruct (reconcile d s) as [[[device r1]|e] s1] eqn:E; intros Hr Hs; [|injection Hr as _ <-; by eapply Hk]. eapply IH; [done|]. by eapply Hk.
Qed.

Lemma orphans_keep V orphans : keeps (life V) (RemoveOrphans orphans).
Proof.
  apply keeps_forEach. intros name s x s'. unfold deleteDevice. destruct (ic_DeleteDevice name s) as [err s1] eqn:E. intros [= _ <-] Hs.
  destruct err as [e|]; [by eapply all_same, delete_failed|]. intros n d. rewrite (delete_device _ _ _ E), lookup_delete_Some. intros [_ Hd]. by eapply Hs.
Qed.

Lemma service_devices now node snapshot l s err s' : InventoryServiceReconcile now node snapshot l s = (err, s') → devices s' = devices s.
Proof.
  unfold InventoryServiceReconcile. destruct (ensureNodeState node l s) as [[err1 go] s1] eqn:E1. assert (devices s1 = devices s) as Hd.
  { unfold ensureNodeState in E1. destruct (fetch _) as [[st|]|]; [| |by injection E1 as _ _ <-].
    - destruct (_ && _); [by injection E1 as _ _ <-|]. destruct (ic_PatchNodeState _ _ s) as [[e|] s2] eqn:Ep; apply patch_state in Ep; [by injection E1 as _ _ <-|].
      destruct (ic_GetNodeState _ s2); by injection E1 as _ _ <-.
    - destruct (list_len0 l); [by injection E1 as _ _ <-|]. destruct (ic_CreateNodeState _ s) as [e s2] eqn:Ec. apply create_state in Ec. by injection E1 as _ _ <-. }
  destruct err1 as [e|]; [by intros [= _ <-]|]. destruct go; [|by intros [= _ <-]]. unfold reportCondition.
  destruct (fetch _) as [[st|]|]; [|by intros [= _ <-]..]. case_bool_decide; [by intros [= _ <-]|]. intros Hu. by rewrite (updateNodeState_devices _ _ _ _ _ Hu).
Qed.

Lemma inventory_keeps V now store fallback name : keeps (life V) (InventoryReconcile now [HandleDeviceState] store fallback name).
Proof.
  intros s x s' Hr Hs. unfold InventoryReconcile in Hr. destruct (fetch (ic_GetNode name s)) as [[node|]|]; [|by injection Hr as _ <-..].
  destruct (currentPolicies store fallback) as [managed approval]. destruct (FindNodeFeature _ s) as [feature|]; [|by injection Hr as _ <-].
  apply (reconcile_keeps (all_devices (life V))) in Hr; [done| |by intros update st e st' [= <-] [= _ <-]|done|done].
  clear s s' x Hr Hs. intros execute [] s [r err] s' [= <-] _ Hh Hs. unfold InventoryHandle in Hh. set (snap := buildNodeSnapshot _ _ _) in Hh.
  destruct (negb _ && _); [by injection Hh as _ _ <-|]. destruct (pc_ListDevices _ _ s) as [existing|]; [|by injection Hh as _ _ <-].
  destruct (reconcileDevices _ _ _ _ _ s) as [[[[orphans l] agg]|e] s1] eqn:E1;
    (assert (all_devices (life V) s1) as Hs1 by (eapply loop_keeps; [|exact E1|exact Hs]; intros d; apply device_keeps)); [|by injection Hh as _ _ <-].
  destruct (if in_Deleting node then RemoveOrphans orphans s1 else (None, s1)) as [err2 s2] eqn:E2.
  assert (all_devices (life V) s2) as Hs2 by (destruct (in_Deleting node); [by eapply orphans_keep|by injection E2 as _ <-]).
  destruct err2 as [e|]; [by injection Hh as _ _ <-|]. destruct (InventoryServiceReconcile now node snap l s2) as [err3 s3] eqn:E3.
  apply service_devices in E3. assert (s' = s3) as -> by (destruct err3 as [e|]; [destruct (IsConflict e)|]; by injection Hh). by eapply all_same.
Qed.

(** ** Runs of the controllers *)

(** Someone changes the labels and annotations of a device. *)
Definition edited (s s' : S) : Prop := ∃ name d d', devices s !! name = Some d ∧ gd_Name d' = gd_Name d ∧ gd_Status d' = gd_Status d ∧
  devices s' = <[name := d']> (devices s).

(** One reconcile, whatever its outcome, or one edit, with the devices found
    ready so far among those that still exist. *)
Inductive control : S * gset string → S * gset string → Prop :=
| control_inventory now store fallback name s out s' V :
    InventoryReconcile now [HandleDeviceState] store fallback name s = (out, s') → control (s, V) (s', V ∩ dom (devices s'))
| control_bootstrap now cfg enabled name s out s' V :
    BootstrapReconcile now cfg enabled name s = (out, s') → control (s, V) (s', (V ∪ found_ready cfg name s) ∩ dom (devices s'))
| control_pool now ns workload namespace name s out s' V : keeps_devices workload →
    GPUPoolReconcile (poolHandlers now ns workload) namespace name s = (out, s') → control (s, V) (s', V ∩ dom (devices s'))
| control_cluster_pool now ns workload name s out s' V : keeps_devices workload →
    ClusterGPUPoolReconcile (poolHandlers now ns workload) name s = (out, s') → control (s, V) (s', V ∩ dom (devices s'))
| control_edit s s' V : edited s s' → control (s, V) (s', V ∩ dom (devices s')).

Lemma life_assigned V pn pns d : life V d → life V (assigned_device pn pns d).
Proof.
  intros [Hs Hp]. unfold life, assigned_device. destruct (str_eqb (gd_State d) GPUDeviceStateReady) eqn:E; cbn.
  - go_bool. split; [|done]. intros _. apply Hs. rewrite E. by left.
  - split; [exact Hs|done].
Qed.
Lemma life_cleared V d : life V d → life V (cleared_device d).
Proof.
  intros [Hs Hp]. unfold life, cleared_device. case_bool_decide as Hin; cbn.
  - split; [|by intros [?|?]]. intros _. apply Hs. rewrite !elem_of_cons in Hin. unfold in_service. rewrite !elem_of_cons. tauto.
  - split; [exact Hs|]. intros Hst. destruct Hin. rewrite !elem_of_cons. change (gds_State (gd_Status d)) with (gd_State d) in Hst. tauto.
Qed.
Lemma life_validated V ready d : life V d → life V (set_assignment (gd_PoolRef d) (validatedState ready d) d).
Proof.
  intros [Hs Hp]. assert (validatedState ready d = gd_State d ∨
    ((validatedState ready d = GPUDeviceStatePendingAssignment ∨ validatedState ready d = GPUDeviceStateAssigned) ∧
     (gd_State d = GPUDeviceStatePendingAssignment ∨ gd_State d = GPUDeviceStateAssigned))) as [Heq|[Hv Hd]].
  { unfold validatedState. destruct (str_eqb (gd_State d) GPUDeviceStatePendingAssignment) eqn:E1; go_bool; [case_bool_decide; auto|].
    destruct (str_eqb (gd_State d) GPUDeviceStateAssigned) eqn:E2; go_bool; [case_bool_decide; simpl; auto|auto]. }
  - unfold life. cbn. rewrite Heq. done.
  - unfold life. cbn. split; [|auto]. intros _. apply Hs. unfold in_service. rewrite !elem_of_cons. tauto.
Qed.

Lemma restrict V (s : S) : all_devices (life V) s → all_devices (life (V ∩ dom (devices s))) s.
Proof.
  intros Hs name d Hd. destruct (Hs _ _ Hd) as [H1 H2]. split; [|done]. intros Hin. apply elem_of_intersection. split; [auto|].
  rewrite (devices_name _ _ _ Hd). apply elem_of_dom. eauto.
Qed.

Lemma control_life c c' : control c c' → all_devices (life c.2) c.1 → all_devices (life c'.2) c'.1.
Proof.
  intros [now store fallback name s out s' V Hr|now cfg enabled name s out s' V Hr|now ns workload namespace name s out s' V Hw Hr
    |now ns workload name s out s' V Hw Hr|s s' V (name & d & d' & Hd & Hn & Hst & Heq)] Hs; simpl in *; apply restrict.
  - by eapply inventory_keeps.
  - by eapply bootstrap_keeps.
  - eapply GPUPoolReconcile_keeps; [..|exact Hw|exact Hr|exact Hs]; intros; auto using life_assigned, life_cleared, life_validated.
  - eapply ClusterGPUPoolReconcile_keeps; [..|exact Hw|exact Hr|exact Hs]; intros; auto using life_assigned, life_cleared, life_validated.
  - eapply all_insert; [exact Hs| |exact Heq]. pose proof (Hs _ _ Hd) as Hl. unfold life, gd_State, gd_PoolRef in *. by rewrite Hn, Hst.
Qed.

(** C36: However the reconciles of inventory, bootstrap and pools follow each
    other, with whatever outcome, and whatever is labelled and annotated in
    between, starting without devices: a device is in service (Ready or beyond)
    only if a bootstrap reconcile found all workloads of its node ready since
    the device was created, and it is pending for or assigned to a pool only
    while it refers to one. *)
Theorem device_lifecycle (s0 : S) s V : devices s0 = ∅ → rtc control (s0, ∅) (s, V) → ∀ name d, devices s !! name = Some d →
  (gd_State d ∈ in_service → name ∈ V) ∧
  (gd_State d = GPUDeviceStatePendingAssignment ∨ gd_State d = GPUDeviceStateAssigned → is_Some (gd_PoolRef d)).
Proof.
  intros H0 Hrun name d Hd. assert (all_devices (life (s, V).2) (s, V).1) as Hs.
  { refine (rtc_ind_r (λ c, all_devices (life c.2) c.1) (s0, ∅) _ _ (s, V) Hrun).
    - intros n d0. simpl. by rewrite H0, lookup_empty.
    - intros c c' _ Hstep. by apply control_life. }
  simpl in Hs. destruct (Hs _ _ Hd) as [H1 H2]. by rewrite (devices_name _ _ _ Hd) in H1.
Qed.
End Lifecycle.
