(* ===== verification/DeviceInventorySpec.v ===== *)
(** * What the inventory promises

    After a reconcile of a node that reports nothing, there is a GPUDevice for
    every GPU the node shows, with the node, the hardware and the policies as
    they are now, and with everything other controllers keep in it as it was;
    other devices are not touched, and reconciling again writes nothing. *)

From S2P Require Import Prelude GoLib Reconciler GpuApi PoolApi CpReconciler PoolSync PoolSyncSpec DeviceInventory.
From S2P Require Import Bootstrap Lifecycle.

(** ** Metadata *)

Lemma owner_set o refs : o ∈ SetOwnerReference o refs.
Proof. induction refs as [|r rest IH]; simpl; [by left|]. destruct (sameOwner r o); [by left|by right]. Qed.
Lemma sameOwner_refl o : sameOwner o o = true.
Proof. unfold sameOwner. by rewrite !str_eqb_refl. Qed.
Lemma owner_set_idem o refs : SetOwnerReference o (SetOwnerReference o refs) = SetOwnerReference o refs.
Proof.
  induction refs as [|r rest IH]; simpl; [by rewrite sameOwner_refl|]. destruct (sameOwner r o) eqn:E; simpl; [by rewrite sameOwner_refl|].
  rewrite E. by f_equal.
Qed.

(** A label written when it is not the one wanted. *)
Definition wantLabel (key value : string) (l : gmap string string) : gmap string string := setIf (negb (str_eqb (label l key) value)) key value l.

Lemma wantLabel_spec key value l : label (wantLabel key value l) key = value.
Proof.
  unfold wantLabel, setIf. destruct (str_eqb (label l key) value) eqn:E; simpl; go_bool; [done|]. unfold label. by rewrite lookup_insert_eq.
Qed.
Lemma wantLabel_other key value l k : k ≠ key → wantLabel key value l !! k = l !! k.
Proof. intros Hk. unfold wantLabel, setIf. destruct (negb _); [|done]. by rewrite lookup_insert_ne. Qed.
Lemma wantLabel_same key value l : label l key = value → wantLabel key value l = l.
Proof. intros H. unfold wantLabel, setIf. by rewrite H, str_eqb_refl. Qed.

Lemma label_keys : DeviceNodeLabelKey ≠ DeviceIndexLabelKey.
Proof. done. Qed.

Lemma device_ext (a b : GPUDevice) : gd_Name a = gd_Name b → gd_Labels a = gd_Labels b → gd_Annotations a = gd_Annotations b → gd_Owners a = gd_Owners b →
  gd_Status a = gd_Status b → a = b.
Proof. destruct a, b; simpl. by intros -> -> -> -> ->. Qed.

Section Spec.
Context {S : Type} {PC : PoolClient S} {AE : ApiErrors} {PS : PoolServer S} {IC : InventoryClient S} {IS : InventoryServer S}.
Context {LS : LabelSelectors} {GS : GoSort} {KO : KeyOrder} {F64 : Float64} {CT : Catalog} {DT : Detector S}.

(** What a reconcile of a device is given. *)
Context (node : InvNode) (nodeLabels : gmap string string) (managed : bool) (approval : DeviceApprovalPolicy) (detections : NodeDetection).

Definition inventoryLabels (d : deviceSnapshot) (l : gmap string string) : gmap string string :=
  wantLabel DeviceIndexLabelKey (ds_Index d) (wantLabel DeviceNodeLabelKey (in_Name node) l).

Lemma inventoryLabels_spec d l : label (inventoryLabels d l) DeviceNodeLabelKey = in_Name node ∧ label (inventoryLabels d l) DeviceIndexLabelKey = ds_Index d.
Proof.
  unfold inventoryLabels. rewrite wantLabel_spec. split; [|done]. unfold label at 1. rewrite wantLabel_other by apply label_keys. apply wantLabel_spec.
Qed.
Lemma inventoryLabels_idem d l : inventoryLabels d (inventoryLabels d l) = inventoryLabels d l.
Proof. destruct (inventoryLabels_spec d l) as [H1 H2]. unfold inventoryLabels at 1. by rewrite (wantLabel_same _ _ _ H1), wantLabel_same. Qed.

(** The device with the metadata and with the status the inventory gives it. *)
Definition withMeta (d : deviceSnapshot) (old : GPUDevice) : GPUDevice :=
  set_DeviceOwners (SetOwnerReference (ownerOf node) (gd_Owners old)) (set_DeviceLabels (inventoryLabels d (gd_Labels old)) old).
Definition withStatus (d : deviceSnapshot) (old : GPUDevice) : GPUDevice :=
  let new := canonicalAddress (ApplyDetection d detections (set_DeviceStatus (refreshStatus node d nodeLabels managed approval (gd_Status old)) old)) in
  if str_eqb (gd_State new) "" then set_DeviceState GPUDeviceStateDiscovered new else new.
Definition freshDevice (d : deviceSnapshot) : GPUDevice :=
  mkGPUDevice (buildDeviceName (in_Name node) d) {[DeviceNodeLabelKey := in_Name node; DeviceIndexLabelKey := ds_Index d]} ∅
    (SetOwnerReference (ownerOf node) []) emptyStatus.
Definition syncedDevice (d : deviceSnapshot) (old : option GPUDevice) : GPUDevice := withStatus d (withMeta d (default (freshDevice d) old)).

Lemma withStatus_meta d old : gd_Name (withStatus d old) = gd_Name old ∧ gd_Labels (withStatus d old) = gd_Labels old ∧
  gd_Annotations (withStatus d old) = gd_Annotations old ∧ gd_Owners (withStatus d old) = gd_Owners old.
Proof. unfold withStatus, ApplyDetection. destruct (findDetection detections d); destruct (str_eqb _ ""); done. Qed.
Lemma withMeta_same d old : inventoryLabels d (gd_Labels old) = gd_Labels old → SetOwnerReference (ownerOf node) (gd_Owners old) = gd_Owners old →
  withMeta d old = old.
Proof. intros Hl Ho. unfold withMeta. rewrite Hl, Ho. by destruct old. Qed.
Lemma withMeta_fresh d : withMeta d (freshDevice d) = freshDevice d.
Proof.
  apply withMeta_same; [|apply owner_set_idem]. unfold inventoryLabels. cbn [freshDevice gd_Labels].
  rewrite (wantLabel_same DeviceNodeLabelKey); [rewrite wantLabel_same; [done|]|]; unfold label.
  - by rewrite lookup_insert_ne, lookup_singleton_eq.
  - by rewrite lookup_insert_eq.
Qed.
Lemma withMeta_idem d old : withMeta d (withStatus d (withMeta d old)) = withStatus d (withMeta d old).
Proof.
  destruct (withStatus_meta d (withMeta d old)) as (_ & Hl & _ & Ho). apply withMeta_same; rewrite ?Hl, ?Ho.
  - apply inventoryLabels_idem.
  - apply owner_set_idem.
Qed.
Lemma withStatus_idem d old : withStatus d (withStatus d old) = withStatus d old.
Proof.
  unfold withStatus, ApplyDetection. destruct old as [n l a o [nn id m st aa ref hw cs]].
  destruct (findDetection detections d) as [e|]; cbn; destruct (str_eqb st "") eqn:E; cbn; rewrite ?E; done.
Qed.

(** *** A device *)

Lemma ensure_ok device d s u device' s' : devices s !! gd_Name device = Some device →
  ensureDeviceMetadata node device d s = (Ok u, (device', s')) →
  device' = withMeta d device ∧ devices s' = <[gd_Name device := withMeta d device]> (devices s).
Proof.
  intros Hd. unfold ensureDeviceMetadata. fold (wantLabel DeviceNodeLabelKey (in_Name node) (gd_Labels device)).
  set (l1 := wantLabel DeviceNodeLabelKey _ _). fold (wantLabel DeviceIndexLabelKey (ds_Index d) l1).
  change (wantLabel DeviceIndexLabelKey (ds_Index d) l1) with (inventoryLabels d (gd_Labels device)).
  destruct (negb (_ || _ || _)) eqn:E.
  - intros [= _ <- <-]. rewrite negb_true_iff, !orb_false_iff, !negb_false_iff, bool_decide_eq_true in E. destruct E as [[E1 E2] E3].
    go_bool. assert (withMeta d device = device) as ->; [|by rewrite insert_id].
    apply withMeta_same; [|done]. unfold inventoryLabels. fold l1. rewrite (wantLabel_same _ _ _ E2). unfold l1. by apply wantLabel_same.
  - clear E. destruct (ic_PatchDevice _ device s) as [[e|] s1] eqn:Ep; [done|]. intros [= _ <- <-]. split; [done|].
    by rewrite (patch_meta _ _ _ _ Ep Hd eq_refl).
Qed.

Lemma invoke_ok d old : ∃ r, invokeHandlers [HandleDeviceState] (canonicalAddress (ApplyDetection d detections
  (set_DeviceStatus (refreshStatus node d nodeLabels managed approval (gd_Status old)) old))) = ((r, None), withStatus d old).
Proof. eexists. reflexivity. Qed.

Lemma requeue_live r : live (MergeResults [r; mkResult true 0]).
Proof. apply merge_live. right. by left. Qed.

Local Notation "'deviceReconcile' d" := (DeviceReconcile [HandleDeviceState] node d nodeLabels managed approval (ApplyDetection d detections)) (at level 9, d at level 1).

(** A conflict asks for another run; otherwise the device is as it should be. *)
Lemma device_synced d s dev r s' : deviceReconcile d s = (Ok (dev, r), s') →
  gd_Name dev = buildDeviceName (in_Name node) d ∧
  (live r ∨ devices s' = <[buildDeviceName (in_Name node) d := syncedDevice d (devices s !! buildDeviceName (in_Name node) d)]> (devices s)).
Proof.
  unfold DeviceReconcile, syncedDevice. set (name := buildDeviceName _ _). pose proof (fetch_device name s) as Hf.
  destruct (fetch (pc_GetDevice name s)) as [[old|]|]; [| |done].
  - rewrite Hf. pose proof (devices_name _ _ _ Hf) as Hn. destruct (ensureDeviceMetadata node old d s) as [u [d1 s1]] eqn:Em.
    rewrite <- Hn in Hf. destruct u as [u|]; [|done]. destruct (ensure_ok _ _ _ _ _ _ Hf Em) as [-> Hs1]. rewrite Hn in Hs1.
    destruct (if (u : bool) then _ else _) as [b|] eqn:Hb; [|done].
    assert (b = withMeta d old) as ->.
    { destruct u; [|by injection Hb]. apply get_device in Hb. rewrite Hs1, lookup_insert_eq in Hb. by injection Hb. }
    change (default (freshDevice d) (Some old)) with old. set (old' := withMeta d old) in *. destruct (invoke_ok d old') as [r0 ->]. destruct (withStatus_meta d old') as (H1 & H2 & H3 & H4).
    assert (gd_Name old' = name) as Hn' by done.
    case_bool_decide as Hst.
    + intros [= <- _ <-]. split; [congruence|]. right. rewrite (device_ext (withStatus d old') old') by done. done.
    + unfold requeueOnConflict. destruct (pc_PatchDeviceStatus _ old' s1) as [[e|] s2] eqn:Ep.
      * destruct (IsConflict e); [|done]. intros [= <- <- <-]. split; [congruence|]. left. apply requeue_live.
      * intros [= <- _ <-]. split; [congruence|]. right.
        destruct (patch_device _ _ _ _ Ep) as [-> _]; [by rewrite Hn', Hs1, lookup_insert_eq|done..|]. by rewrite Hn', Hs1, insert_insert_eq.
  - rewrite Hf. change (default (freshDevice d) None) with (freshDevice d). rewrite withMeta_fresh. unfold createDevice. fold (freshDevice d).
    destruct (ic_CreateDevice (freshDevice d) s) as [[e|] s1] eqn:Ec; [done|]. destruct (create_device _ _ _ Ec) as [_ Hs1].
    destruct (withStatus_meta d (freshDevice d)) as (H1 & _). set (d1 := canonicalAddress _).
    assert (∃ r0, invokeHandlers [HandleDeviceState] d1 = ((r0, None), withStatus d (freshDevice d))) as [r0 ->].
    { eexists. unfold d1, withStatus, ApplyDetection. destruct (findDetection detections d); reflexivity. }
    unfold requeueOnConflict. destruct (ic_UpdateDeviceStatus _ s1) as [[e|] s2] eqn:Eu.
    + destruct (IsConflict e); [|done]. intros [= <- <- <-]. split; [done|]. left. apply requeue_live.
    + intros [= <- _ <-]. split; [done|]. right. destruct (update_status _ _ _ Eu) as (d0 & Hd0 & ->). rewrite H1 in Hd0 |- *.
      rewrite Hs1, lookup_insert_eq in Hd0. injection Hd0 as <-. rewrite Hs1, insert_insert_eq. f_equal.
      destruct (withStatus_meta d (freshDevice d)) as (_ & H2 & H3 & H4). by apply device_ext.
Qed.

(** A device that is as it should be is not written. *)
Lemma device_rests d s old : devices s !! buildDeviceName (in_Name node) d = Some (syncedDevice d old) → (deviceReconcile d s).2 = s.
Proof.
  unfold DeviceReconcile. set (name := buildDeviceName _ _). intros Hd. pose proof (fetch_device name s) as Hf.
  destruct (fetch (pc_GetDevice name s)) as [[b|]|]; [|congruence|done]. assert (b = syncedDevice d old) as -> by congruence. clear Hf.
  unfold syncedDevice in *. set (o := withMeta d (default _ old)) in *.
  assert (ensureDeviceMetadata node (withStatus d o) d s = (Ok false, (withStatus d o, s))) as ->.
  { destruct (withStatus_meta d o) as (_ & Hl & _ & Ho). unfold ensureDeviceMetadata. rewrite Hl, Ho.
    destruct (inventoryLabels_spec d (gd_Labels (default (freshDevice d) old))) as [H1 H2].
    change (inventoryLabels d _) with (gd_Labels o) in H1, H2. rewrite H1, str_eqb_refl. cbn [negb setIf]. rewrite H2, str_eqb_refl.
    change (gd_Owners o) with (SetOwnerReference (ownerOf node) (gd_Owners (default (freshDevice d) old))).
    rewrite owner_set_idem, bool_decide_true by done. done. }
  destruct (invoke_ok d (withStatus d o)) as [r0 ->]. rewrite withStatus_idem, bool_decide_true by done. done.
Qed.

(** *** The loop over the devices *)

Lemma loop_live snapshots orphans l r s orphans' l' r' s' :
  reconcileDevices (λ d, deviceReconcile d) snapshots orphans l r s = (Ok (orphans', l', r'), s') → live r → live r'.
Proof.
  revert orphans l r s. induction snapshots as [|d rest IH]; intros orphans l r s; simpl; [by intros [= _ _ <- _]|].
  destruct (deviceReconcile d s) as [[[dev r1]|e] s1]; [|done]. intros Hr Hl. apply (IH _ _ _ _ Hr), merge_live. by left.
Qed.

Lemma loop_length snapshots orphans l r s orphans' l' r' s' :
  reconcileDevices (λ d, deviceReconcile d) snapshots orphans l r s = (Ok (orphans', l', r'), s') → length l' = (length l + length snapshots)%nat.
Proof.
  revert orphans l r s. induction snapshots as [|d rest IH]; intros orphans l r s; simpl; [intros [= _ <- _ _]; lia|].
  destruct (deviceReconcile d s) as [[[dev r1]|e] s1]; [|done]. intros Hr. apply IH in Hr. rewrite length_app in Hr. simpl in Hr. lia.
Qed.

Lemma loop_synced snapshots orphans l r s orphans' l' r' s' :
  NoDup (buildDeviceName (in_Name node) <$> snapshots) →
  reconcileDevices (λ d, deviceReconcile d) snapshots orphans l r s = (Ok (orphans', l', r'), s') → ¬ live r' →
  (∀ d, d ∈ snapshots → devices s' !! buildDeviceName (in_Name node) d = Some (syncedDevice d (devices s !! buildDeviceName (in_Name node) d))) ∧
  (∀ name, name ∉ buildDeviceName (in_Name node) <$> snapshots → devices s' !! name = devices s !! name).
Proof.
  intros Hnd. revert orphans l r s. induction snapshots as [|d rest IH]; intros orphans l r s; simpl.
  { intros [= _ _ _ <-] _. split; [by intros ? ?%not_elem_of_nil|done]. }
  apply NoDup_cons in Hnd as [Hd Hnd]. destruct (deviceReconcile d s) as [[[dev r1]|e] s1] eqn:E; [|done]. intros Hr Hq.
  destruct (device_synced _ _ _ _ _ E) as [_ [Hl|Hs1]]; [destruct Hq; apply (loop_live _ _ _ _ _ _ _ _ _ Hr), merge_live; by right|].
  destruct (IH Hnd _ _ _ _ Hr Hq) as [H1 H2]. split.
  - intros d' [-> |Hd']%elem_of_cons; [by rewrite H2, Hs1, lookup_insert_eq|]. rewrite H1 by done. rewrite Hs1, lookup_insert_ne; [done|].
    intros Heq. apply Hd. rewrite Heq. by apply list_elem_of_fmap_2.
  - intros name [Hne Hn]%not_elem_of_cons. by rewrite H2, Hs1, lookup_insert_ne.
Qed.

(** *** What a device says of its GPU *)

Definition observed (d : deviceSnapshot) : GPUDeviceHardware :=
  let hw := mkHardware (ds_UUID d) (ds_Product d) (mkPCIAddress (ds_Vendor d) (ds_Device d) (ds_Class d) (CanonicalizePCIAddress (ds_PCIAddress d))) (ds_MIG d) in
  match findDetection detections d with None => hw | Some e => applyDetectionHardware e hw end.

Record describes (d : deviceSnapshot) (old : option GPUDevice) (dev : GPUDevice) : Prop := mkDescribes {
  on_node : gds_NodeName (gd_Status dev) = in_Name node ∧ label (gd_Labels dev) DeviceNodeLabelKey = in_Name node ∧
            label (gd_Labels dev) DeviceIndexLabelKey = ds_Index d ∧ ownerOf node ∈ gd_Owners dev;
  identified : gds_InventoryID (gd_Status dev) = buildInventoryID (in_Name node) d;
  policies : gds_Managed (gd_Status dev) = managed ∧ gds_AutoAttach (gd_Status dev) = AutoAttach approval managed (LabelsForDevice d nodeLabels);
  hardware : let hw := gd_Hardware dev in let seen := observed d in
             hw_UUID hw = hw_UUID seen ∧ hw_Product hw = hw_Product seen ∧ hw_MIG hw = hw_MIG seen ∧ pa_Vendor (hw_PCI hw) = pa_Vendor (hw_PCI seen) ∧
             pa_Device (hw_PCI hw) = pa_Device (hw_PCI seen) ∧ pa_Class (hw_PCI hw) = pa_Class (hw_PCI seen) ∧
             pa_Address (hw_PCI hw) = CanonicalizePCIAddress (pa_Address (hw_PCI seen));
  (** what is not the inventory's *)
  kept : gd_Annotations dev = default ∅ (gd_Annotations <$> old) ∧ gd_PoolRef dev = (old ≫= gd_PoolRef) ∧
         gds_Conditions (gd_Status dev) = default [] (gds_Conditions ∘ gd_Status <$> old) ∧
         gd_State dev = normalizeDeviceState (default "" (gd_State <$> old)) ∧
         ∀ key, key ≠ DeviceNodeLabelKey → key ≠ DeviceIndexLabelKey → gd_Labels dev !! key = (old ≫= λ o, gd_Labels o !! key);
}.

Lemma withStatus_status d old : let st := gd_Status (withStatus d old) in
  gds_NodeName st = in_Name node ∧ gds_InventoryID st = buildInventoryID (in_Name node) d ∧ gds_Managed st = managed ∧
  gds_AutoAttach st = AutoAttach approval managed (LabelsForDevice d nodeLabels) ∧ gds_PoolRef st = gd_PoolRef old ∧
  gds_Conditions st = gds_Conditions (gd_Status old) ∧ gds_State st = normalizeDeviceState (gd_State old).
Proof.
  unfold withStatus, ApplyDetection, normalizeDeviceState, gd_State. destruct old as [n l a o [nn id m st aa ref hw cs]].
  destruct (findDetection detections d) as [e|]; cbn; destruct (str_eqb st "") eqn:E; cbn; go_bool; subst; done.
Qed.
Lemma withStatus_hardware d old : let hw := gd_Hardware (withStatus d old) in let seen := observed d in
  hw_UUID hw = hw_UUID seen ∧ hw_Product hw = hw_Product seen ∧ hw_MIG hw = hw_MIG seen ∧ pa_Vendor (hw_PCI hw) = pa_Vendor (hw_PCI seen) ∧
  pa_Device (hw_PCI hw) = pa_Device (hw_PCI seen) ∧ pa_Class (hw_PCI hw) = pa_Class (hw_PCI seen) ∧
  pa_Address (hw_PCI hw) = CanonicalizePCIAddress (pa_Address (hw_PCI seen)).
Proof.
  unfold withStatus, ApplyDetection, observed. destruct old as [n l a o [nn id m st aa ref hw cs]].
  destruct (findDetection detections d) as [e|]; cbn; destruct (str_eqb st ""); done.
Qed.

Lemma synced_describes d old : describes d old (syncedDevice d old).
Proof.
  unfold syncedDevice. set (o := default (freshDevice d) old). destruct (withStatus_meta d (withMeta d o)) as (_ & Hl & Ha & Ho).
  destruct (withStatus_status d (withMeta d o)) as (H1 & H2 & H3 & H4 & H5 & H6 & H7). destruct (inventoryLabels_spec d (gd_Labels o)) as [Hl1 Hl2]. constructor.
  - rewrite Hl, Ho. split_and!; [done..|apply owner_set].
  - done.
  - done.
  - apply withStatus_hardware.
  - unfold gd_PoolRef at 1, gd_State at 1. rewrite Ha, H5, H6, H7, Hl. split_and!; [by destruct old..|].
    intros key Hk1 Hk2. cbn [withMeta set_DeviceOwners set_DeviceLabels gd_Labels]. unfold inventoryLabels. rewrite !wantLabel_other by done.
    unfold o. destruct old; simpl; [done|]. by rewrite lookup_insert_ne, lookup_singleton_ne.
Qed.
End Spec.

(** ** A reconcile of a node *)

Section Reconcile.
Context {S : Type} {PC : PoolClient S} {AE : ApiErrors} {PS : PoolServer S} {IC : InventoryClient S} {IS : InventoryServer S}.
Context {LS : LabelSelectors} {GS : GoSort} {KO : KeyOrder} {F64 : Float64} {CT : Catalog} {DT : Detector S}.

(** No call of a client returns the error with which a handler stops its chain. *)
Class InventoryErrors := {
  ie_GetNodeState name s e : ic_GetNodeState name s = Err e → genuine (Some e);
  ie_CreateDevice d s err s' : ic_CreateDevice d s = (err, s') → genuine err;
  ie_PatchDevice new base s err s' : ic_PatchDevice new base s = (err, s') → genuine err;
  ie_UpdateDeviceStatus d s err s' : ic_UpdateDeviceStatus d s = (err, s') → genuine err;
  ie_CreateNodeState st s err s' : ic_CreateNodeState st s = (err, s') → genuine err;
  ie_PatchNodeState new base s err s' : ic_PatchNodeState new base s = (err, s') → genuine err;
  ie_UpdateNodeStateStatus st s err s' : ic_UpdateNodeStateStatus st s = (err, s') → genuine err;
}.
Context {CE : ClientErrors} {IE : InventoryErrors}.

Definition detectionsOf (node : InvNode) (s : S) : NodeDetection := match Collect (in_Name node) s with Ok d => d | Err _ => noDetection end.

Lemma requeue_genuine device r err (s : S) e s' : genuine err → requeueOnConflict device r (err, s) = (Err e, s') → genuine (Some e).
Proof. intros Hg. simpl. destruct err as [e'|]; [|done]. destruct (IsConflict e'); [done|]. by intros [= <- _]. Qed.

Lemma ensure_genuine node old d s e d' s' : ensureDeviceMetadata node old d s = (Err e, (d', s')) → genuine (Some e).
Proof.
  unfold ensureDeviceMetadata. destruct (negb (_ || _ || _)); [done|]. destruct (ic_PatchDevice _ old s) as [[x|] s1] eqn:Ep; [|done].
  intros [= <- _ _]. by eapply ie_PatchDevice.
Qed.

Lemma device_genuine node d labels managed approval detections s e s' :
  DeviceReconcile [HandleDeviceState] node d labels managed approval (ApplyDetection d detections) s = (Err e, s') → genuine (Some e).
Proof.
  unfold DeviceReconcile. set (name := buildDeviceName _ _). destruct (fetch (pc_GetDevice name s)) as [[old|]|e0] eqn:Hf.
  - destruct (ensureDeviceMetadata node old d s) as [[u|x] [d1 s1]] eqn:Es; [|intros [= <- _]; by eapply ensure_genuine].
    destruct (if (u : bool) then _ else _) as [b|x] eqn:Hb; [|intros [= <- _]; destruct u; [by eapply ge_GetDevice|done]].
    destruct (invoke_ok node labels managed approval detections d b) as [r0 ->]. case_bool_decide; [done|].
    destruct (pc_PatchDeviceStatus _ b s1) as [err s2] eqn:Ep. eapply requeue_genuine, ge_PatchDevice, Ep.
  - unfold createDevice. destruct (ic_CreateDevice _ s) as [[x|] s1] eqn:Ec; [intros [= <- _]; by eapply ie_CreateDevice|].
    set (d1 := canonicalAddress _). destruct (invoke_state d1) as [r0 ->]. destruct (ic_UpdateDeviceStatus _ s1) as [err s2] eqn:Eu.
    eapply requeue_genuine, ie_UpdateDeviceStatus, Eu.
  - intros [= <- _]. eapply fetch_genuine; [|done]. apply ge_GetDevice.
Qed.

Lemma loop_genuine (reconcile : deviceSnapshot → S → res (GPUDevice * Result) * S) snapshots orphans l r s e s' :
  (∀ d s e s', reconcile d s = (Err e, s') → genuine (Some e)) →
  reconcileDevices reconcile snapshots orphans l r s = (Err e, s') → genuine (Some e).
Proof.
  intros Hg. revert orphans l r s. induction snapshots as [|d rest IH]; intros orphans l r s; simpl; [done|].
  destruct (reconcile d s) as [[[dev r1]|x] s1] eqn:E; [apply IH|]. intros [= <- _]. by eapply Hg.
Qed.

Lemma wrap_genuine text args err : genuine err → genuine (Wrapf text args <$> err).
Proof. intros Hg e He. destruct err as [x|]; [|done]. injection He as <-. by apply (Hg x). Qed.

Lemma service_genuine now node snapshot l s err s' : InventoryServiceReconcile now node snapshot l s = (err, s') → genuine err.
Proof.
  unfold InventoryServiceReconcile. destruct (ensureNodeState node l s) as [[err1 go] s1] eqn:E. assert (genuine err1) as H1.
  { unfold ensureNodeState in E. destruct (fetch _) as [[st|]|x] eqn:Hf.
    - destruct (_ && _); [by injection E as <- _ _|]. destruct (ic_PatchNodeState _ _ s) as [[x|] s2] eqn:Ep; [injection E as <- _ _; by eapply ie_PatchNodeState|].
      destruct (ic_GetNodeState _ s2) eqn:Eg; injection E as <- _ _; [done|by eapply ie_GetNodeState].
    - destruct (list_len0 l); [by injection E as <- _ _|]. destruct (ic_CreateNodeState _ s) as [x s2] eqn:Ec. injection E as <- _ _. by eapply ie_CreateNodeState.
    - injection E as <- _ _. eapply fetch_genuine; [|done]. apply ie_GetNodeState. }
  destruct err1 as [x|]; [by intros [= <- _]|]. destruct go; [|by intros [= <- _]]. unfold reportCondition.
  destruct (fetch _) as [[st|]|x] eqn:Hf; [|by intros [= <- _]|intros [= <- _]; eapply fetch_genuine; [|done]; apply ie_GetNodeState].
  case_bool_decide; [by intros [= <- _]|]. unfold updateNodeState. case_bool_decide; [by intros [= <- _]|].
  destruct (ic_UpdateNodeStateStatus _ s1) as [x s2] eqn:Eu. intros [= <- _]. by eapply wrap_genuine, ie_UpdateNodeStateStatus.
Qed.

Lemma handle_genuine now node snapshot approval s r err s' : in_Deleting node = false →
  InventoryHandle now [HandleDeviceState] node snapshot approval s = ((r, err), s') → genuine err.
Proof.
  intros Hdel. unfold InventoryHandle. rewrite Hdel. destruct (negb _ && _); [by intros [= _ <- _]|].
  destruct (pc_ListDevices _ _ s) as [existing|e] eqn:Hl; [|intros [= _ <- _]; by eapply ge_ListDevices].
  destruct (reconcileDevices _ _ _ _ _ s) as [[[[orphans l] agg]|e] s1] eqn:E1.
  - destruct (InventoryServiceReconcile now node snapshot l s1) as [[e|] s2] eqn:E2; [|by intros [= _ <- _]].
    destruct (IsConflict e); intros [= _ <- _]; [done|]. by eapply service_genuine.
  - intros [= _ <- _]. eapply loop_genuine; [|exact E1]. intros d s0 e0 s0' Hd. exact (device_genuine _ _ _ _ _ _ _ _ _ Hd).
Qed.

(** The chain has one handler, and nothing stops it. *)
Lemma handle_quiet now node snapshot approval s s1 : in_Deleting node = false →
  cp_handlersLoop (λ (_ : unit) s, InventoryHandle now [HandleDeviceState] node snapshot approval s) [()] zeroResult [] s = ((zeroResult, []), s1) →
  ∃ r, InventoryHandle now [HandleDeviceState] node snapshot approval s = ((r, None), s1) ∧ ¬ live r.
Proof.
  intros Hdel. simpl. destruct (InventoryHandle now _ node snapshot approval s) as [[r err] s2] eqn:E.
  pose proof (handle_genuine _ _ _ _ _ _ _ _ Hdel E) as Hg. destruct err as [e|]; simpl; [rewrite (Hg e eq_refl)|].
  - destruct (IsConflict e); simpl; [|done]. intros [= Hr _]. exfalso. revert Hr. apply live_nonzero, merge_live. right. apply merge_live. right. by right.
  - intros [= Hr <-]. exists r. split; [done|]. intros Hl. revert Hr. apply live_nonzero, merge_live. by right.
Qed.

(** A handler that asks for nothing has left every device as it should be. *)
Lemma handle_synced now node snapshot approval s r s' : in_Deleting node = false → NoDup (buildDeviceName (in_Name node) <$> ns_Devices snapshot) →
  InventoryHandle now [HandleDeviceState] node snapshot approval s = ((r, None), s') → ¬ live r →
  (∀ d, d ∈ ns_Devices snapshot → devices s' !! buildDeviceName (in_Name node) d =
    Some (syncedDevice node (ns_Labels snapshot) (ns_Managed snapshot) approval (detectionsOf node s) d (devices s !! buildDeviceName (in_Name node) d))) ∧
  (∀ n, n ∉ buildDeviceName (in_Name node) <$> ns_Devices snapshot → devices s' !! n = devices s !! n).
Proof.
  intros Hdel Hnd. unfold InventoryHandle. rewrite Hdel. destruct (ns_Devices snapshot) as [|d0 ds] eqn:Hds.
  - intros Hh Hr. split; [by intros d ?%not_elem_of_nil|]. intros n _. revert Hh. destruct (negb _ && _); [by intros [= _ <-]|].
    destruct (pc_ListDevices _ _ s); [|done]. simpl. destruct (InventoryServiceReconcile _ _ _ _ s) as [[e|] s1] eqn:E; [destruct (IsConflict e); [|done]; intros [= <- _]; destruct Hr; by left|].
    intros [= _ <-]. by rewrite (service_devices _ _ _ _ _ _ _ E).
  - rewrite <- Hds in *. replace (list_len0 (ns_Devices snapshot)) with false by by rewrite Hds. rewrite andb_false_r.
    destruct (pc_ListDevices _ _ s); [|done]. fold (detectionsOf node s).
    destruct (reconcileDevices _ _ _ _ _ s) as [[[[orphans l] agg]|e] s1] eqn:E1; [|done].
    destruct (InventoryServiceReconcile _ _ _ _ s1) as [[e|] s2] eqn:E2; [destruct (IsConflict e); [|done]; intros [= <- _] Hr; destruct Hr; by left|]. intros [= <- <-] Hr.
    assert (¬ live agg) as Hq.
    { intros Hlive. destruct Hr. unfold followUp. destruct (list_len0 l) eqn:El.
      - apply loop_length in E1. rewrite Hds in E1. by destruct l.
      - destruct Hlive as [[Hr Ha]|Ha]; [left; by rewrite Ha|right]. by rewrite (proj2 (Z.ltb_lt _ _) Ha). }
    rewrite (service_devices _ _ _ _ _ _ _ E2).
    destruct (loop_synced _ _ _ _ _ _ _ _ _ _ _ _ _ _ Hnd E1 Hq) as [H1 H2]. done.
Qed.

(** C37: What the inventory promises.  After a reconcile of a node that is not
    being deleted, which reports no error and asks for nothing, and when the
    GPUs of the node get distinct names: every GPU the labels and the
    NodeFeature of the node show has a GPUDevice that names the node and is
    owned by it, carries the hardware as labels, NodeFeature and detections
    describe it and the policies as configured, and keeps the pool, the
    conditions, the annotations, the other labels and the state other
    controllers gave it (a new device is Discovered); no other device is
    touched; and reconciling a device again with the same detections writes
    nothing. *)
Theorem inventory_synced now store fallback name s s' node feature managed approval :
  InventoryReconcile now [HandleDeviceState] store fallback name s = ((zeroResult, []), s') →
  ic_GetNode name s = Ok node → in_Deleting node = false → FindNodeFeature (in_Name node) s = Ok feature →
  currentPolicies store fallback = (managed, approval) →
  let snapshot := buildNodeSnapshot node feature managed in
  NoDup (buildDeviceName (in_Name node) <$> ns_Devices snapshot) →
  let reconcile d := DeviceReconcile [HandleDeviceState] node d (ns_Labels snapshot) (ns_Managed snapshot) approval (ApplyDetection d (detectionsOf node s)) in
  (∀ d, d ∈ ns_Devices snapshot → ∃ dev, devices s' !! buildDeviceName (in_Name node) d = Some dev ∧
     describes node (ns_Labels snapshot) (ns_Managed snapshot) approval (detectionsOf node s) d (devices s !! buildDeviceName (in_Name node) d) dev ∧
     ∀ s'', devices s'' = devices s' → (reconcile d s'').2 = s'') ∧
  (∀ n, n ∉ buildDeviceName (in_Name node) <$> ns_Devices snapshot → devices s' !! n = devices s !! n).
Proof.
  intros Hr Hg Hdel Hf Hp snapshot Hnd reconcile. unfold InventoryReconcile, fetch in Hr. rewrite Hg, Hp, Hf in Hr. fold snapshot in Hr.
  pose proof (λ execute update He Hu Hfin, cp_reconcile_quiet _ _ _ execute update He Hu Hfin Hr) as Hq.
  destruct (Hq _ _ eq_refl eq_refl (λ _, eq_refl)) as (s1 & Hl & [= ->]). clear Hq. destruct (handle_quiet _ _ _ _ _ _ Hdel Hl) as (r & Hh & Hq).
  destruct (handle_synced _ _ _ _ _ _ _ Hdel Hnd Hh Hq) as [H1 H2]. split; [|done]. intros d Hd. eexists. split; [by apply H1|].
  split; [apply synced_describes|]. intros s'' Heq. unfold reconcile. eapply device_rests. rewrite Heq. by apply H1.
Qed.
End Reconcile.
