(* ===== verification/GpuStore.v ===== *)
(** * PhysicalGPU objects on the API server

    The client the agents of a node use, as a class, and what the API server
    documents of it, as laws over the objects stored: reads show what is stored,
    a create puts an object without status, a patch changes the parts in which
    the new object differs from its base, a delete removes the object, and an
    error changes nothing. *)

From S2P Require Import Prelude GoLib GpuApi.

Class GpuClient (S : Type) := {
  gc_Get : string → S → res PhysicalGPU;
  gc_Create : PhysicalGPU → S → res PhysicalGPU * S;
  (** [Patch(obj, MergeFrom(base))] of the object and of its status *)
  gc_Patch : PhysicalGPU → PhysicalGPU → S → res PhysicalGPU * S;
  gc_PatchStatus : PhysicalGPU → PhysicalGPU → S → res PhysicalGPU * S;
  gc_List : gmap string string → S → res (list PhysicalGPU);
  gc_Delete : PhysicalGPU → S → option error * S;
  gc_IsNotFound : error → bool;
  gc_ErrorText : error → string;
}.

(** ** Patches

    A field of the answer: untouched when the new object and its base agree on
    it, the new one when the base agrees with what is stored. *)
Definition patched {A} (new base old answer : A) : Prop :=
  (new = base → answer = old) ∧ (base = old → answer = new).

Record patched_status (new base old answer : PhysicalGPUStatus) : Prop := {
  ps_NodeInfo : patched (st_NodeInfo new) (st_NodeInfo base) (st_NodeInfo old) (st_NodeInfo answer);
  ps_PCIInfo : patched (st_PCIInfo new) (st_PCIInfo base) (st_PCIInfo old) (st_PCIInfo answer);
  ps_Capabilities : patched (st_Capabilities new) (st_Capabilities base) (st_Capabilities old) (st_Capabilities answer);
  ps_Conditions : patched (st_Conditions new) (st_Conditions base) (st_Conditions old) (st_Conditions answer);
  ps_CurrentState : patched (st_CurrentState new) (st_CurrentState base) (st_CurrentState old) (st_CurrentState answer);
}.

Definition emptyStatus : PhysicalGPUStatus := mkStatus None None None [] None.

Class GpuServer (S : Type) `{GpuClient S} := {
  stored : S → gmap string PhysicalGPU;
  stored_name s name obj : stored s !! name = Some obj → pg_Name obj = name;
  get_stored s name obj : gc_Get name s = Ok obj → stored s !! name = Some obj;
  get_missing s name e : gc_Get name s = Err e → gc_IsNotFound e = true → stored s !! name = None;
  create_stored s obj obj' s' : gc_Create obj s = (Ok obj', s') →
    stored s !! pg_Name obj = None ∧ stored s' = <[pg_Name obj := obj']> (stored s) ∧
    pg_Labels obj' = pg_Labels obj ∧ pg_Status obj' = emptyStatus;
  create_failed s obj e s' : gc_Create obj s = (Err e, s') → stored s' = stored s;
  patch_stored s obj base obj' s' : gc_Patch obj base s = (Ok obj', s') →
    ∃ old, stored s !! pg_Name obj = Some old ∧ stored s' = <[pg_Name obj := obj']> (stored s) ∧
      pg_Status obj' = pg_Status old ∧
      ∀ key, patched (pg_Labels obj !! key) (pg_Labels base !! key) (pg_Labels old !! key) (pg_Labels obj' !! key);
  patch_failed s obj base e s' : gc_Patch obj base s = (Err e, s') → stored s' = stored s;
  patchStatus_stored s obj base obj' s' : gc_PatchStatus obj base s = (Ok obj', s') →
    ∃ old, stored s !! pg_Name obj = Some old ∧ stored s' = <[pg_Name obj := obj']> (stored s) ∧
      pg_Meta obj' = pg_Meta old ∧ patched_status (pg_Status obj) (pg_Status base) (pg_Status old) (pg_Status obj');
  patchStatus_failed s obj base e s' : gc_PatchStatus obj base s = (Err e, s') → stored s' = stored s;
  list_stored s labels items : gc_List labels s = Ok items →
    ∀ obj, obj ∈ items ↔ stored s !! pg_Name obj = Some obj ∧ labels ⊆ pg_Labels obj;
  delete_stored s obj s' : gc_Delete obj s = (None, s') → stored s' = delete (pg_Name obj) (stored s);
  delete_missing s obj e s' : gc_Delete obj s = (Some e, s') → gc_IsNotFound e = true → stored s !! pg_Name obj = None;
  delete_failed s obj e s' : gc_Delete obj s = (Some e, s') → stored s' = stored s;
}.

(** ** A server in memory *)

Module MemoryServer.

Abbreviation Objects := (gmap string PhysicalGPU).

Definition keep {A} `{EqDecision A} (new base old : A) : A := if decide (new = base) then old else new.

Lemma keep_patched {A} `{EqDecision A} (new base old : A) : patched new base old (keep new base old).
Proof. unfold patched, keep. destruct (decide (new = base)) as [->|]; naive_solver. Qed.

Definition keepStatus (new base old : PhysicalGPUStatus) : PhysicalGPUStatus :=
  mkStatus (keep (st_NodeInfo new) (st_NodeInfo base) (st_NodeInfo old)) (keep (st_PCIInfo new) (st_PCIInfo base) (st_PCIInfo old))
    (keep (st_Capabilities new) (st_Capabilities base) (st_Capabilities old))
    (keep (st_Conditions new) (st_Conditions base) (st_Conditions old))
    (keep (st_CurrentState new) (st_CurrentState base) (st_CurrentState old)).

Lemma keepStatus_patched new base old : patched_status new base old (keepStatus new base old).
Proof. split; apply keep_patched. Qed.

(** Labels: a key in which new and base agree keeps the stored value. *)
Definition keepLabels (new base old : gmap string string) : gmap string string :=
  filter (λ kv, new !! fst kv ≠ base !! fst kv) new ∪ filter (λ kv, new !! fst kv = base !! fst kv) old.

Lemma keepLabels_lookup new base old key : keepLabels new base old !! key = keep (new !! key) (base !! key) (old !! key).
Proof.
  unfold keepLabels, keep. rewrite lookup_union, !map_lookup_filter. destruct (decide (new !! key = base !! key)) as [Heq|Hne].
  - destruct (new !! key) as [v|] eqn:Hn; simpl.
    + rewrite option_guard_False by (rewrite Hn; congruence). destruct (old !! key) as [w|]; simpl; [|done].
      rewrite option_guard_True by congruence. done.
    + destruct (old !! key) as [w|]; simpl; [|done]. rewrite option_guard_True by congruence. done.
  - destruct (new !! key) as [v|] eqn:Hn; simpl.
    + rewrite option_guard_True by congruence. destruct (old !! key) as [w|]; simpl; [|done].
      rewrite option_guard_False by congruence. done.
    + destruct (old !! key) as [w|]; simpl; [|done]. by rewrite option_guard_False by congruence.
Qed.

Definition withLabels (labels : gmap string string) (m : ObjectMeta) : ObjectMeta :=
  mkObjectMeta (om_Name m) (om_Finalizers m) (om_Annotations m) (Some labels) (om_Generation m) (om_DeletionTimestamp m).

Definition update (s : Objects) (name : string) (f : PhysicalGPU → PhysicalGPU) : res PhysicalGPU * Objects :=
  match s !! name with
  | None => (Err (External 404), s)
  | Some old => let obj := f old in (Ok obj, <[name := obj]> s)
  end.

(** The server stores objects under their names. *)
Definition named (s : Objects) : Prop := map_Forall (λ name obj, pg_Name obj = name) s.
#[export] Instance named_dec s : Decision (named s).
Proof. unfold named. apply _. Defined.

Definition Server : Type := dsig named.
Definition contents (s : Server) : Objects := proj1_sig s.

Definition write (s : Server) (o : Objects) : Server :=
  match decide (named o) with left H => dexist o H | right _ => s end.

Lemma write_named s o : named o → contents (write s o) = o.
Proof. intros Hn. unfold write. by destruct (decide (named o)). Qed.

#[export] Instance memoryClient : GpuClient Server := {|
  gc_Get name s := match contents s !! name with Some obj => Ok obj | None => Err (External 404) end;
  gc_Create obj s := match contents s !! pg_Name obj with
    | Some _ => (Err (External 409), s)
    | None => let obj' := mkPhysicalGPU (pg_Meta obj) emptyStatus in (Ok obj', write s (<[pg_Name obj := obj']> (contents s)))
    end;
  gc_Patch obj base s := match contents s !! pg_Name obj with
    | None => (Err (External 404), s)
    | Some old =>
        let obj' := mkPhysicalGPU (withLabels (keepLabels (pg_Labels obj) (pg_Labels base) (pg_Labels old)) (pg_Meta old)) (pg_Status old) in
        (Ok obj', write s (<[pg_Name obj := obj']> (contents s)))
    end;
  gc_PatchStatus obj base s := match contents s !! pg_Name obj with
    | None => (Err (External 404), s)
    | Some old =>
        let obj' := mkPhysicalGPU (pg_Meta old) (keepStatus (pg_Status obj) (pg_Status base) (pg_Status old)) in
        (Ok obj', write s (<[pg_Name obj := obj']> (contents s)))
    end;
  gc_List labels s := Ok (filter (λ obj, labels ⊆ pg_Labels obj) ((map_to_list (contents s)).*2));
  gc_Delete obj s := match contents s !! pg_Name obj with
    | None => (Some (External 404), s)
    | Some _ => (None, write s (delete (pg_Name obj) (contents s)))
    end;
  gc_IsNotFound e := bool_decide (e = External 404);
  gc_ErrorText _ := "error";
|}.

Lemma server_named (s : Server) : named (contents s).
Proof. exact (proj2_dsig s). Qed.

Lemma write_insert s name obj : pg_Name obj = name → contents (write s (<[name := obj]> (contents s))) = <[name := obj]> (contents s).
Proof. intros <-. apply write_named, map_Forall_insert_2; [done|apply server_named]. Qed.

#[export] Instance memoryServer : GpuServer Server.
Proof.
  refine {| stored s := contents s |}; unfold gc_Get, gc_Create, gc_Patch, gc_PatchStatus, gc_List, gc_Delete, gc_IsNotFound, memoryClient.
  - intros s name obj Hs. by apply (server_named s).
  - intros s name obj. destruct (contents s !! name); [|done]. by intros [= <-].
  - intros s name e. by destruct (contents s !! name).
  - intros s obj obj' s'. destruct (contents s !! pg_Name obj) eqn:Hs; [done|]. intros [= <- <-]. by rewrite write_insert.
  - intros s obj e s'. destruct (contents s !! pg_Name obj); [|done]. by intros [= _ <-].
  - intros s obj base obj' s'. destruct (contents s !! pg_Name obj) as [old|] eqn:Hs; [|done]. intros [= <- <-]. exists old.
    split; [done|]. split; [by rewrite write_insert by (apply (server_named s) in Hs; done)|]. split; [done|].
    intros key. unfold pg_Labels at 4. simpl. rewrite keepLabels_lookup. apply keep_patched.
  - intros s obj base e s'. destruct (contents s !! pg_Name obj); [done|]. by intros [= _ <-].
  - intros s obj base obj' s'. destruct (contents s !! pg_Name obj) as [old|] eqn:Hs; [|done]. intros [= <- <-]. exists old.
    split; [done|]. split; [by rewrite write_insert by (apply (server_named s) in Hs; done)|]. split; [done|]. apply keepStatus_patched.
  - intros s obj base e s'. destruct (contents s !! pg_Name obj); [done|]. by intros [= _ <-].
  - intros s labels items [= <-] obj. rewrite list_elem_of_filter, list_elem_of_fmap. split.
    + intros [Hl ([name obj'] & -> & Hin)]. apply elem_of_map_to_list in Hin. simpl in *. split; [|done].
      by rewrite (server_named s _ _ Hin).
    + intros [Hs Hl]. split; [done|]. exists (pg_Name obj, obj). split; [done|]. by apply elem_of_map_to_list.
  - intros s obj s'. destruct (contents s !! pg_Name obj); [|done]. intros [= <-]. apply write_named.
    apply map_Forall_delete, server_named.
  - intros s obj e s'. by destruct (contents s !! pg_Name obj).
  - intros s obj e s'. destruct (contents s !! pg_Name obj); [done|]. by intros [= _ <-].
Defined.
End MemoryServer.
