(* ===== verification/Inventory.v ===== *)
(** * The inventory of a node: pkg/gpuhandler/internal/service/inventory

    From the status of the physical GPUs of a node to the devices offered for
    allocation: one shared physical device per GPU, one MIG device per profile
    and placement, and one counter set per MIG-capable GPU.  The placements
    come from NVML through a session, which is an argument. *)

From S2P Require Import Prelude GoLib DeviceModel GpuApi.

(** ** common/attrs_helpers.go, attrs_identity.go *)

Definition AttrVendor : string := "gpu.deckhouse.io/vendor".
Definition AttrDevice : string := "gpu.deckhouse.io/device".
Definition AttrDriverVer : string := "gpu.deckhouse.io/driverVersion".
Definition AttrCCMajor : string := "gpu.deckhouse.io/ccMajor".
Definition AttrCCMinor : string := "gpu.deckhouse.io/ccMinor".
Definition AttrMigProfile : string := "gpu.deckhouse.io/migProfile".
Definition CapMemory : string := "memory".
Definition CapSharePercent : string := "sharePercent".

Definition parseComputeCap (raw : string) : option (Z * Z) :=
  let raw := TrimSpace raw in
  if str_eqb raw "" then None else
  match SplitN2 raw "." with
  | [major; minor] =>
      major ← Atoi major; minor ← Atoi minor; Some (major, minor)
  | [major] => major ← Atoi major; Some (major, 0)
  | _ => None
  end.

Definition stringAttr (val : string) : AttributeValue := mkAttributeValue (Some val) None None.
Definition intAttr (val : Z) : AttributeValue := mkAttributeValue None (Some val) None.

Definition normalizeLabelValue (value : string) : string :=
  let value := ToLower (TrimSpace value) in
  if str_eqb value "" then "" else TrimDash (sanitizeLoop false value).

(** [pgpu.Labels[key]]: a missing label is the empty string. *)
Definition label (pgpu : PhysicalGPU) (key : string) : string := default "" (pg_Labels pgpu !! key).

Definition vendorAttribute (pgpu : PhysicalGPU) : string :=
  let val := TrimSpace (label pgpu "gpu.deckhouse.io/vendor") in
  if negb (str_eqb val "") then val else
  let fromPCI := match pg_PCIInfo pgpu ≫= pci_VendorName with
    | Some name => normalizeLabelValue name
    | None => ""
    end in
  match pg_Capabilities pgpu with
  | Some caps =>
      if str_eqb (gcap_Vendor caps) VendorNvidia then "nvidia" else
      if str_eqb (gcap_Vendor caps) VendorAMD then "amd" else
      if str_eqb (gcap_Vendor caps) VendorIntel then "intel" else fromPCI
  | None => fromPCI
  end.

Definition deviceAttribute (pgpu : PhysicalGPU) : string :=
  let val := TrimSpace (label pgpu "gpu.deckhouse.io/device") in
  if negb (str_eqb val "") then val else
  match pg_PCIInfo pgpu ≫= pci_DeviceName with
  | Some name => normalizeLabelValue name
  | None => ""
  end.

Definition PCIAddressFor (pgpu : PhysicalGPU) : string :=
  match pg_PCIInfo pgpu with Some info => TrimSpace (pci_Address info) | None => "" end.

Definition DeviceName (prefix pciAddress : string) : string :=
  SanitizeDNSLabel (prefix +:+ "-" +:+ pciAddress).

(** ** common/attrs.go *)

(** [if val != "" { attrs[key] = stringAttr(val) }] *)
Definition putString (key val : string) (attrs : gmap string AttributeValue)
    : gmap string AttributeValue :=
  if str_eqb val "" then attrs else <[key := stringAttr val]> attrs.

Definition BaseAttributes (pgpu : PhysicalGPU) (deviceType migProfile : string)
    : gmap string AttributeValue :=
  let attrs := putString AttrVendor (vendorAttribute pgpu) ∅ in
  let attrs := putString AttrDevice (deviceAttribute pgpu) attrs in
  let attrs := <[AttrDeviceType := stringAttr deviceType]> attrs in
  let attrs := putString AttrPCIAddress (PCIAddressFor pgpu) attrs in
  let attrs := match pg_NvidiaState pgpu with
    | Some st => putString AttrDriverVer (TrimSpace (ncs_DriverVersion st))
                   (putString AttrGPUUUID (TrimSpace (ncs_GPUUUID st)) attrs)
    | None => attrs
    end in
  let attrs := match pg_Capabilities pgpu ≫= gcap_Nvidia with
    | Some nv => match parseComputeCap (nc_ComputeCap nv) with
        | Some (major, minor) => <[AttrCCMinor := intAttr minor]> (<[AttrCCMajor := intAttr major]> attrs)
        | None => attrs
        end
    | None => attrs
    end in
  putString AttrMigProfile migProfile attrs.

(** ** common/capacity.go *)

Definition MemoryCapacityMiB (memoryMiB : Z) : CapacityValue :=
  mkCapacityValue memoryMiB CapacityUnitMiB None.

Definition ShareableMemoryCapacityMiB (memoryMiB : Z) : CapacityValue :=
  mkCapacityValue memoryMiB CapacityUnitMiB (Some (mkCapacityPolicy 0 0 memoryMiB 1 CapacityUnitMiB)).

Definition SharePercentCapacity : CapacityValue :=
  mkCapacityValue 100 CapacityUnitPercent (Some (mkCapacityPolicy 100 1 100 1 CapacityUnitPercent)).

(** ** physical/device.go *)

Definition buildPhysicalDevice (pgpu : PhysicalGPU) : res Device :=
  let pciAddress := PCIAddressFor pgpu in
  if str_eqb pciAddress "" then Err (Errorf "missing pci address for %s" [pg_Name pgpu]) else
  match pg_Capabilities pgpu with
  | None => Err (Errorf "missing capabilities for %s" [pg_Name pgpu])
  | Some caps =>
      if negb (str_eqb (gcap_Vendor caps) VendorNvidia)
      then Err (Errorf "unsupported vendor for %s" [pg_Name pgpu]) else
      match gcap_MemoryMiB caps with
      | None => Err (Errorf "missing memoryMiB for %s" [pg_Name pgpu])
      | Some memoryMiB =>
          let uuid := match pg_NvidiaState pgpu with
            | Some st => TrimSpace (ncs_GPUUUID st)
            | None => ""
            end in
          Ok (NewGPUDevice (DeviceName "gpu" pciAddress) uuid
                (BaseAttributes pgpu DeviceTypePhysical "")
                {[ CapMemory := ShareableMemoryCapacityMiB memoryMiB;
                   CapSharePercent := SharePercentCapacity ]}
                [] true)
      end
  end.

(** ** mig/counters.go *)

Definition counterMemory : string := "memory".
Definition counterMultiprocessor : string := "multiprocessors".
Definition counterCopyEngines : string := "copy-engines".
Definition counterDecoders : string := "decoders".
Definition counterEncoders : string := "encoders".
Definition counterJpegEngines : string := "jpeg-engines".
Definition counterOfaEngines : string := "ofa-engines".

Record migCountersTotal := mkCountersTotal {
  mt_MemoryMiB : Z;
  mt_TotalSlices : Z;
  mt_Multiprocessors : Z;
  mt_CopyEngines : Z;
  mt_Decoders : Z;
  mt_Encoders : Z;
  mt_JpegEngines : Z;
  mt_OfaEngines : Z;
}.

Definition maxCounterTotal (current perProfile instances : Z) : Z :=
  if perProfile <=? 0 then current else
  let total := wrap32 (perProfile * instances) in
  if current <? total then total else current.

(** One turn of the loop of [totalsFromProfiles]. *)
Definition addProfileTotals (totals : migCountersTotal) (profile : NvidiaMIGProfile)
    : migCountersTotal :=
  let max := if mp_MaxInstances profile <? 1 then 1 else mp_MaxInstances profile in
  mkCountersTotal (mt_MemoryMiB totals) (mt_TotalSlices totals)
    (maxCounterTotal (mt_Multiprocessors totals) (mp_Multiprocessors profile) max)
    (maxCounterTotal (mt_CopyEngines totals) (mp_CopyEngines profile) max)
    (maxCounterTotal (mt_Decoders totals) (mp_Decoders profile) max)
    (maxCounterTotal (mt_Encoders totals) (mp_Encoders profile) max)
    (maxCounterTotal (mt_JpegEngines totals) (mp_JpegEngines profile) max)
    (maxCounterTotal (mt_OfaEngines totals) (mp_OfaEngines profile) max).

Definition totalsFromProfiles (memoryMiB totalSlices : Z) (profiles : list NvidiaMIGProfile)
    : migCountersTotal :=
  foldl addProfileTotals (mkCountersTotal memoryMiB totalSlices 0 0 0 0 0 0) profiles.

Definition addCounterIfPositive (target : gmap string CounterValue) (name : string) (value : Z)
    : gmap string CounterValue :=
  if value <=? 0 then target else <[name := mkCounterValue value CounterUnitCount]> target.

Definition memorySlice (i : Z) : string := "memory-slice-" +:+ Itoa i.

(** [for i := from; i < to; i++ { counters[memory-slice-i] = 1 }] *)
Definition addMemorySlices (from to : Z) (counters : gmap string CounterValue)
    : gmap string CounterValue :=
  foldl (λ m i, <[memorySlice i := mkCounterValue 1 CounterUnitCount]> m) counters
    (seqZ from (to - from)).

Definition buildMigCounters (totals : migCountersTotal) : gmap string CounterValue :=
  let counters := {[ counterMemory := mkCounterValue (mt_MemoryMiB totals) CounterUnitMiB ]} in
  let counters := addMemorySlices 0 (mt_TotalSlices totals) counters in
  let counters := addCounterIfPositive counters counterMultiprocessor (mt_Multiprocessors totals) in
  let counters := addCounterIfPositive counters counterCopyEngines (mt_CopyEngines totals) in
  let counters := addCounterIfPositive counters counterDecoders (mt_Decoders totals) in
  let counters := addCounterIfPositive counters counterEncoders (mt_Encoders totals) in
  let counters := addCounterIfPositive counters counterJpegEngines (mt_JpegEngines totals) in
  addCounterIfPositive counters counterOfaEngines (mt_OfaEngines totals).

Record MigPlacement := mkMigPlacement { pl_Start : Z; pl_Size : Z }.

Definition buildMigConsumes (profile : NvidiaMIGProfile) (placement : MigPlacement)
    : gmap string CounterValue :=
  let counters := {[ counterMemory := mkCounterValue (mp_MemoryMiB profile) CounterUnitMiB ]} in
  let counters := addMemorySlices (pl_Start placement)
                    (wrap32 (pl_Start placement + pl_Size placement)) counters in
  let counters := addCounterIfPositive counters counterMultiprocessor (mp_Multiprocessors profile) in
  let counters := addCounterIfPositive counters counterCopyEngines (mp_CopyEngines profile) in
  let counters := addCounterIfPositive counters counterDecoders (mp_Decoders profile) in
  let counters := addCounterIfPositive counters counterEncoders (mp_Encoders profile) in
  let counters := addCounterIfPositive counters counterJpegEngines (mp_JpegEngines profile) in
  addCounterIfPositive counters counterOfaEngines (mp_OfaEngines profile).

(** ** mig/names.go, devices.go, support.go *)

Definition migDeviceName (pciAddress : string) (profileID : Z) (placement : MigPlacement) : string :=
  SanitizeDNSLabel ("mig-" +:+ pciAddress +:+ "-p" +:+ Itoa profileID +:+
    "-s" +:+ Itoa (pl_Start placement) +:+ "-n" +:+ Itoa (pl_Size placement)).

Definition Supported (pgpu : PhysicalGPU) : bool :=
  default false ((pg_Capabilities pgpu ≫= gcap_Nvidia) ≫= nc_MIGSupported).

Definition AnySupported (devices : list PhysicalGPU) : bool := existsb Supported devices.

(** The order of the iteration over the map does not matter for a maximum. *)
Definition maxMigSlices (placements : gmap Z (list MigPlacement)) : Z :=
  foldl (λ max placement,
           let stop := wrap32 (pl_Start placement + pl_Size placement) in
           if max <? stop then stop else max)
    0 (concat (map_to_list placements).*2).

Abbreviation MigPlacementSession := (string → list Z → res (gmap Z (list MigPlacement))).

Definition migDevice (pgpu : PhysicalGPU) (pciAddress setName : string) (profile : NvidiaMIGProfile)
    (placement : MigPlacement) : Device :=
  NewMIGDevice (migDeviceName pciAddress (mp_ProfileID profile) placement) ""
    (BaseAttributes pgpu DeviceTypeMIG (mp_Name profile))
    {[ CapMemory := MemoryCapacityMiB (mp_MemoryMiB profile) ]}
    [mkCounterConsumption setName (buildMigConsumes profile placement)].

Definition profileDevices (pgpu : PhysicalGPU) (pciAddress setName : string)
    (placements : gmap Z (list MigPlacement)) (profile : NvidiaMIGProfile) : list Device :=
  if (mp_MemoryMiB profile =? 0) || (mp_SliceCount profile =? 0) then [] else
  migDevice pgpu pciAddress setName profile <$> default [] (placements !! mp_ProfileID profile).

Definition buildMigDevices (pgpu : PhysicalGPU) (session : option MigPlacementSession)
    : res (list CounterSet * list Device) :=
  if negb (Supported pgpu) then Ok ([], []) else
  match pg_Capabilities pgpu with
  | Some (mkGPUCapabilities _ (Some memoryMiB) _ (Some (mkNvidiaCapabilities _ _ _ _ _ _ _ (Some mig)))) =>
      match session with
      | None => Err (Errorf "mig placements unavailable for %s" [pg_Name pgpu])
      | Some readPlacements =>
          let pciAddress := PCIAddressFor pgpu in
          let profiles := mc_Profiles mig in
          if list_len0 profiles then Ok ([], []) else
          placements ← readPlacements pciAddress (mp_ProfileID <$> profiles);
          let placementSlices := maxMigSlices placements in
          let totalSlices := if mc_TotalSlices mig <? placementSlices then placementSlices
                             else mc_TotalSlices mig in
          let setName := CounterSetNameForPCI pciAddress in
          Ok ([mkCounterSet setName
                 (buildMigCounters (totalsFromProfiles memoryMiB totalSlices profiles))],
              concat (profileDevices pgpu pciAddress setName placements <$> profiles))
      end
  | _ => Err (Errorf "missing mig capabilities for %s" [pg_Name pgpu])
  end.

(** ** factory.go, builder.go *)

(** The builders to run: the physical one, and MIG with a session. *)
Record Plan := mkPlan {
  plan_mig : option MigPlacementSession;
  plan_Errs : list error;
}.

(** [open] is [placements.Open()], [None] without a reader. *)
Definition FactoryBuild (open : option (res MigPlacementSession)) (devices : list PhysicalGPU) : Plan :=
  if negb (AnySupported devices) then mkPlan None [] else
  match open with
  | None => mkPlan None [Errorf "mig placements reader is not configured" []]
  | Some (Err e) => mkPlan None [e]
  | Some (Ok session) => mkPlan (Some session) []
  end.

(** The builders of the plan on one GPU, in order. *)
Definition runBuilders (plan : Plan) (pgpu : PhysicalGPU)
    : list (res (list CounterSet * list Device)) :=
  ((λ d, ([], [d])) <$> buildPhysicalDevice pgpu) ::
  match plan_mig plan with
  | Some session => [buildMigDevices pgpu (Some session)]
  | None => []
  end.

Definition addBuilt (acc : Inventory * list error) (r : res (list CounterSet * list Device))
    : Inventory * list error :=
  let '(inv, errs) := acc in
  match r with
  | Err e => (inv, errs ++ [e])
  | Ok (sets, devs) => (mkInventory (inv_Devices inv ++ devs) (inv_CounterSets inv ++ sets), errs)
  end.

Definition BuildInventory (open : option (res MigPlacementSession)) (devices : list PhysicalGPU)
    : Inventory * list error :=
  let plan := FactoryBuild open devices in
  foldl addBuilt (mkInventory [] [], plan_Errs plan) (concat (runBuilders plan <$> devices)).
