(* ===== verification/InventorySpec.v ===== *)
(** * What the inventory promises

    The names of MIG devices are read back by the prepare service; the devices
    are well formed, so that the theorems on publishing and allocating apply
    to them; every MIG device fits on an empty GPU; and two MIG devices whose
    placements overlap are never allocated together. *)

From S2P Require Import Prelude GoLib DeviceModel Accounting Allocator AllocatorSpec K8sApi Render K8sAllocator.
From S2P Require Import K8sAllocatorSpec Effects Prepare PrepareSteps Reconciler DraController ClusterSafety.
From S2P Require Import GpuApi Inventory.

From Stdlib Require Import Ascii.

(** ** Names *)

Definition is_hex (c : ascii) : bool :=
  is_digit c || (let n := N_of_ascii c in ((97 <=? n) && (n <=? 102))%N).

(** A PCI address: hexadecimal digits, colons and dots, digits at its end. *)
Definition pci_address (s : string) : bool :=
  all_chars (λ c, is_hex c || bool_decide (c = ":"%char) || bool_decide (c = "."%char)) s &&
  ends_without (λ c, negb (is_hex c)) s && (String.length s <=? 23)%nat.

Definition in_int32 (z : Z) : Prop := 0 ≤ z < 2 ^ 31.

Lemma pci_char_cases c : is_hex c || bool_decide (c = ":"%char) || bool_decide (c = "."%char) = true →
  negb (is_upper c) = true ∧ negb (bool_decide (c = "p"%char)) = true.
Proof. destruct c as [[] [] [] [] [] [] [] []]; vm_compute; intros; by split. Qed.

Lemma hex_label c : is_hex c = true → is_label_char c = true.
Proof. destruct c as [[] [] [] [] [] [] [] []]; vm_compute; done. Qed.

Lemma digit_cases c : is_digit c = true →
  is_space c = false ∧ is_dash c = false ∧ is_upper c = false ∧
  c ≠ "p"%char ∧ c ≠ "s"%char ∧ c ≠ "n"%char.
Proof. destruct c as [[] [] [] [] [] [] [] []]; vm_compute; intros; by repeat split. Qed.

Lemma ends_without_digits (p : ascii → bool) s :
  (∀ c, is_digit c = true → p c = false) → s ≠ EmptyString → all_chars is_digit s = true →
  ends_without p s = true.
Proof.
  intros Hp. induction s as [|c s IH]; [done|]. intros _. simpl. intros [Hc Hs]%andb_true_iff.
  destruct s; [by rewrite Hp|]. by apply IH.
Qed.

(** The name before sanitising and after it. *)
Definition migRaw (pci d1 d2 d3 : string) : string :=
  "mig-" +:+ pci +:+ "-p" +:+ d1 +:+ "-s" +:+ d2 +:+ "-n" +:+ d3.

Lemma sanitize_field b (c : ascii) d t :
  is_label_char c = true → d ≠ EmptyString → all_chars is_digit d = true →
  sanitizeLoop b (String c d +:+ t) = String c d +:+ sanitizeLoop false t.
Proof.
  intros Hc Hne Hd. rewrite sanitizeLoop_app.
  - rewrite sanitizeLoop_id; [done|]. simpl. rewrite Hc. by apply digits_label.
  - simpl. destruct d as [|c' d]; [done|]. apply ends_without_digits; [|done|done].
    intros x Hx. unfold is_label_char. by rewrite Hx, orb_true_r.
Qed.

Lemma migRaw_sanitize pci d1 d2 d3 :
  pci_address pci = true → d1 ≠ EmptyString → d2 ≠ EmptyString → d3 ≠ EmptyString →
  all_chars is_digit d1 = true → all_chars is_digit d2 = true → all_chars is_digit d3 = true →
  sanitizeLoop false (migRaw pci d1 d2 d3) = migRaw (sanitizeLoop true pci) d1 d2 d3.
Proof.
  intros Hpci Hn1 Hn2 Hn3 H1 H2 H3. unfold migRaw.
  apply andb_true_iff in Hpci as [[_ Hend]%andb_true_iff _].
  change (sanitizeLoop false ("mig-" +:+ pci +:+ "-p" +:+ d1 +:+ "-s" +:+ d2 +:+ "-n" +:+ d3))
    with ("mig-" +:+ sanitizeLoop true (pci +:+ "-p" +:+ d1 +:+ "-s" +:+ d2 +:+ "-n" +:+ d3)).
  rewrite sanitizeLoop_app.
  2: { eapply ends_without_weaken; [|exact Hend]. intros c. rewrite !negb_true_iff. intros Hl.
       destruct (is_hex c) eqn:Hh; [|done]. apply hex_label in Hh. congruence. }
  do 2 f_equal.
  change (sanitizeLoop false ("-p" +:+ d1 +:+ "-s" +:+ d2 +:+ "-n" +:+ d3))
    with (String "-" (sanitizeLoop true (String "p" d1 +:+ ("-s" +:+ d2 +:+ "-n" +:+ d3)))).
  rewrite sanitize_field by done.
  change (sanitizeLoop false ("-s" +:+ d2 +:+ "-n" +:+ d3))
    with (String "-" (sanitizeLoop true (String "s" d2 +:+ ("-n" +:+ d3)))).
  rewrite sanitize_field by done.
  change (sanitizeLoop false ("-n" +:+ d3)) with (String "-" (sanitizeLoop true (String "n" d3))).
  rewrite (sanitizeLoop_id true (String "n" d3)); [done|]. simpl. by apply digits_label.
Qed.

Lemma migRaw_ends (p : ascii → bool) pci d1 d2 d3 :
  p "m"%char = false → (∀ c, is_digit c = true → p c = false) →
  d3 ≠ EmptyString → all_chars is_digit d3 = true →
  starts_without p (migRaw pci d1 d2 d3) = true ∧ ends_without p (migRaw pci d1 d2 d3) = true.
Proof.
  intros Hm Hp Hne Hd. unfold migRaw. split; [simpl; by rewrite Hm|].
  do 7 apply ends_without_app. by apply ends_without_digits.
Qed.

Lemma SanitizeDNSLabel_mig pci d1 d2 d3 :
  pci_address pci = true → d1 ≠ EmptyString → d2 ≠ EmptyString → d3 ≠ EmptyString →
  all_chars is_digit d1 = true → all_chars is_digit d2 = true → all_chars is_digit d3 = true →
  (String.length d1 ≤ 10)%nat → (String.length d2 ≤ 10)%nat → (String.length d3 ≤ 10)%nat →
  SanitizeDNSLabel (migRaw pci d1 d2 d3) = migRaw (sanitizeLoop true pci) d1 d2 d3.
Proof.
  intros Hpci Hn1 Hn2 Hn3 H1 H2 H3 Hl1 Hl2 Hl3. unfold SanitizeDNSLabel.
  assert (TrimSpace (migRaw pci d1 d2 d3) = migRaw pci d1 d2 d3) as ->.
  { apply TrimFunc_id; apply migRaw_ends; try done; intros c Hc; by apply digit_cases. }
  assert (ToLower (migRaw pci d1 d2 d3) = migRaw pci d1 d2 d3) as ->.
  { apply ToLower_id. unfold migRaw. rewrite !all_chars_app.
    assert (∀ d, all_chars is_digit d = true → all_chars (λ c, negb (is_upper c)) d = true) as Hd.
    { intros d. apply all_chars_weaken. intros c Hc. apply digit_cases in Hc. destruct Hc as (_ & _ & -> & _). done. }
    rewrite (Hd d1), (Hd d2), (Hd d3) by done. simpl. rewrite !andb_true_r.
    apply andb_true_iff in Hpci as [[Hall _]%andb_true_iff _].
    eapply all_chars_weaken; [|exact Hall]. intros c Hc. by destruct (pci_char_cases c Hc). }
  replace (str_eqb (migRaw pci d1 d2 d3) "") with false by done.
  rewrite migRaw_sanitize by done.
  assert (TrimDash (migRaw (sanitizeLoop true pci) d1 d2 d3) = migRaw (sanitizeLoop true pci) d1 d2 d3) as ->.
  { apply TrimFunc_id; apply (migRaw_ends is_dash); try done; intros c Hc; by apply digit_cases. }
  replace (str_eqb (migRaw (sanitizeLoop true pci) d1 d2 d3) "") with false by done.
  apply andb_true_iff in Hpci as [_ Hlen]. apply Nat.leb_le in Hlen.
  pose proof (sanitizeLoop_length true pci) as Hs.
  rewrite (proj2 (Nat.leb_le _ _)); [done|]. unfold migRaw. rewrite !str_length_app. simpl. lia.
Qed.

Lemma SplitN2_digits (b : ascii) d t :
  all_chars is_digit d = true → (∀ c, is_digit c = true → c ≠ b) → b ≠ "-"%char →
  SplitN2 (d +:+ String "-" (String b t)) (String "-" (String b EmptyString)) = [d; t].
Proof.
  intros Hd Hb Hne. unfold SplitN2. rewrite cut_app; [done|by intros <-|].
  eapply all_chars_weaken; [|exact Hd]. intros c Hc. rewrite bool_decide_eq_false_2; [done|by apply Hb].
Qed.

Lemma parse_migRaw pci p s n :
  pci_address pci = true → in_int32 p → in_int32 s → in_int32 n →
  parseMigDeviceName (migRaw (sanitizeLoop true pci) (Itoa p) (Itoa s) (Itoa n)) = Ok (p, s, n).
Proof.
  unfold in_int32. intros Hpci Hp Hs Hn. unfold parseMigDeviceName.
  assert (TrimSpace (migRaw (sanitizeLoop true pci) (Itoa p) (Itoa s) (Itoa n))
    = migRaw (sanitizeLoop true pci) (Itoa p) (Itoa s) (Itoa n)) as ->.
  { apply TrimFunc_id; apply migRaw_ends; try done; try (intros c Hc; by apply digit_cases);
      first [apply Itoa_ne|apply Itoa_digits]; lia. }
  replace (negb (HasPrefix (migRaw (sanitizeLoop true pci) (Itoa p) (Itoa s) (Itoa n)) "mig-")) with false
    by (symmetry; by destruct (sanitizeLoop true pci)).
  assert (SplitN2 (migRaw (sanitizeLoop true pci) (Itoa p) (Itoa s) (Itoa n)) "-p"
    = ["mig-" +:+ sanitizeLoop true pci; Itoa p +:+ "-s" +:+ Itoa s +:+ "-n" +:+ Itoa n]) as ->.
  { unfold SplitN2, migRaw. rewrite <- str_app_assoc.
    change ("-p" +:+ Itoa p +:+ "-s" +:+ Itoa s +:+ "-n" +:+ Itoa n)
      with (String "-" (String "p" (Itoa p +:+ "-s" +:+ Itoa s +:+ "-n" +:+ Itoa n))).
    rewrite cut_app; [done|done|]. rewrite all_chars_app. apply andb_true_iff. split; [done|].
    apply sanitizeLoop_preserves; [done|]. apply andb_true_iff in Hpci as [[Hall _]%andb_true_iff _].
    eapply all_chars_weaken; [|exact Hall]. intros c Hc. by destruct (pci_char_cases c Hc). }
  change ("-s" +:+ Itoa s +:+ "-n" +:+ Itoa n) with (String "-" (String "s" (Itoa s +:+ "-n" +:+ Itoa n))).
  rewrite SplitN2_digits; [|by apply Itoa_digits; lia|intros c Hc; by apply digit_cases|done].
  rewrite Atoi_Itoa by lia. change ("-n" +:+ Itoa n) with (String "-" (String "n" (Itoa n))).
  rewrite SplitN2_digits; [|by apply Itoa_digits; lia|intros c Hc; by apply digit_cases|done].
  by rewrite !Atoi_Itoa by lia.
Qed.

(** The name under which a MIG placement is published is a DNS label from
    which the prepare service reads back the profile and the placement. *)
Theorem migDeviceName_roundtrip pci profileID placement :
  pci_address pci = true → in_int32 profileID → in_int32 (pl_Start placement) →
  in_int32 (pl_Size placement) →
  is_dns_label (migDeviceName pci profileID placement) = true ∧
  parseMigDeviceName (migDeviceName pci profileID placement)
    = Ok (profileID, pl_Start placement, pl_Size placement).
Proof.
  intros Hpci Hp Hs Hn. split; [apply dns_label_valid|]. unfold migDeviceName.
  change ("mig-" +:+ pci +:+ "-p" +:+ Itoa profileID +:+ "-s" +:+ Itoa (pl_Start placement) +:+ "-n"
    +:+ Itoa (pl_Size placement))
    with (migRaw pci (Itoa profileID) (Itoa (pl_Start placement)) (Itoa (pl_Size placement))).
  unfold in_int32 in *.
  rewrite SanitizeDNSLabel_mig; try done; try (apply Itoa_ne; lia); try (apply Itoa_digits; lia);
    try (apply Itoa_length32; lia). by apply parse_migRaw.
Qed.

(** ** Counters *)

(** Both counter maps have this shape. *)
Definition migCounters (mem from to mp ce de en je ofa : Z) : gmap string CounterValue :=
  addCounterIfPositive (addCounterIfPositive (addCounterIfPositive (addCounterIfPositive
    (addCounterIfPositive (addCounterIfPositive
      (addMemorySlices from to {[ counterMemory := mkCounterValue mem CounterUnitMiB ]})
      counterMultiprocessor mp) counterCopyEngines ce) counterDecoders de) counterEncoders en)
    counterJpegEngines je) counterOfaEngines ofa.

Definition countOf (v : Z) : CounterValue := mkCounterValue v CounterUnitCount.

Lemma lookup_addCounter m name v k :
  addCounterIfPositive m name v !! k = if decide (k = name ∧ 0 < v) then Some (countOf v) else m !! k.
Proof.
  unfold addCounterIfPositive. destruct (Z.leb_spec v 0); case_decide as Hd; try lia; [done|..].
  - destruct Hd as [-> _]. by rewrite lookup_insert_eq.
  - rewrite lookup_insert_ne; [done|]. intros <-. by apply Hd.
Qed.

Lemma memorySlice_inj i j : in_int32 i → in_int32 j → memorySlice i = memorySlice j → i = j.
Proof.
  unfold in_int32, memorySlice. intros Hi Hj Heq. apply Itoa_inj; [lia..|].
  by injection Heq.
Qed.

Lemma lookup_memorySlices from to m k : 0 ≤ from → to ≤ 2 ^ 31 →
  addMemorySlices from to m !! k = Some (countOf 1) ∧ (∃ i, from ≤ i < to ∧ k = memorySlice i) ∨
  addMemorySlices from to m !! k = m !! k ∧ (∀ i, from ≤ i < to → k ≠ memorySlice i).
Proof.
  intros Hfrom Hto. unfold addMemorySlices.
  assert (∀ i, i ∈ seqZ from (to - from) ↔ from ≤ i < to) as Hin.
  { intros i. rewrite elem_of_seqZ. lia. }
  destruct (decide (k ∈ memorySlice <$> seqZ from (to - from))) as [Hk|Hk].
  - left. apply list_elem_of_fmap in Hk as (i & -> & Hi). split; [|exists i; by rewrite <- Hin].
    apply (lookup_fill memorySlice (λ _, countOf 1)); [|done].
    apply NoDup_fmap_2_strong; [|apply NoDup_seqZ]. intros a b Ha Hb.
    apply Hin in Ha, Hb. apply memorySlice_inj; unfold in_int32; lia.
  - right. split; [by apply (lookup_fill_notin memorySlice (λ _, countOf 1))|].
    intros i Hi ->. apply Hk, list_elem_of_fmap_2. by apply Hin.
Qed.

(** What the map holds. *)
Inductive counter_entry (mem from to mp ce de en je ofa : Z) : string → CounterValue → Prop :=
| ce_memory : counter_entry mem from to mp ce de en je ofa counterMemory (mkCounterValue mem CounterUnitMiB)
| ce_slice i : from ≤ i < to → counter_entry mem from to mp ce de en je ofa (memorySlice i) (countOf 1)
| ce_mp : 0 < mp → counter_entry mem from to mp ce de en je ofa counterMultiprocessor (countOf mp)
| ce_ce : 0 < ce → counter_entry mem from to mp ce de en je ofa counterCopyEngines (countOf ce)
| ce_de : 0 < de → counter_entry mem from to mp ce de en je ofa counterDecoders (countOf de)
| ce_en : 0 < en → counter_entry mem from to mp ce de en je ofa counterEncoders (countOf en)
| ce_je : 0 < je → counter_entry mem from to mp ce de en je ofa counterJpegEngines (countOf je)
| ce_ofa : 0 < ofa → counter_entry mem from to mp ce de en je ofa counterOfaEngines (countOf ofa).

Lemma migCounters_spec mem from to mp ce de en je ofa k v : 0 ≤ from → to ≤ 2 ^ 31 →
  migCounters mem from to mp ce de en je ofa !! k = Some v ↔
  counter_entry mem from to mp ce de en je ofa k v.
Proof.
  intros Hfrom Hto. unfold migCounters. rewrite !lookup_addCounter.
  pose proof (lookup_memorySlices from to {[ counterMemory := mkCounterValue mem CounterUnitMiB ]} k
    Hfrom Hto) as Hs.
  split.
  - repeat case_decide; try (intros [= <-]; destruct_and!; subst; by constructor).
    destruct Hs as [[-> (i & Hi & ->)]|[-> _]]; [intros [= <-]; by constructor|].
    intros [<- <-]%lookup_singleton_Some. constructor.
  - intros He.
    destruct He as [|i Hi| | | | | |];
      repeat (rewrite decide_False by (intros [Heq ?]; discriminate Heq));
      rewrite ?decide_True by done; try done.
    + destruct Hs as [[_ (j & _ & Hj)]|[-> _]]; [discriminate Hj|]. apply lookup_singleton_eq.
    + destruct Hs as [[-> _]|[_ Hno]]; [done|]. by destruct (Hno i Hi).
Qed.

Lemma buildMigCounters_eq t :
  buildMigCounters t = migCounters (mt_MemoryMiB t) 0 (mt_TotalSlices t) (mt_Multiprocessors t)
    (mt_CopyEngines t) (mt_Decoders t) (mt_Encoders t) (mt_JpegEngines t) (mt_OfaEngines t).
Proof. reflexivity. Qed.

Lemma buildMigConsumes_eq p pl :
  buildMigConsumes p pl = migCounters (mp_MemoryMiB p) (pl_Start pl)
    (wrap32 (pl_Start pl + pl_Size pl)) (mp_Multiprocessors p) (mp_CopyEngines p) (mp_Decoders p)
    (mp_Encoders p) (mp_JpegEngines p) (mp_OfaEngines p).
Proof. reflexivity. Qed.

(** ** Ranges *)

Definition placement_in_range (pl : MigPlacement) : Prop :=
  0 ≤ pl_Start pl ∧ 0 ≤ pl_Size pl ∧ pl_Start pl + pl_Size pl < 2 ^ 31.

(** The values of a profile, and their products with the number of instances,
    are non-negative 32-bit integers. *)
Definition per_instance (p : NvidiaMIGProfile) (v : Z) : Prop :=
  0 ≤ v ∧ v * Z.max 1 (mp_MaxInstances p) < 2 ^ 31.

Definition profile_in_range (p : NvidiaMIGProfile) : Prop :=
  in_int32 (mp_MemoryMiB p) ∧
  per_instance p (mp_Multiprocessors p) ∧ per_instance p (mp_CopyEngines p) ∧
  per_instance p (mp_Decoders p) ∧ per_instance p (mp_Encoders p) ∧
  per_instance p (mp_JpegEngines p) ∧ per_instance p (mp_OfaEngines p).

Definition profiles_of (pgpu : PhysicalGPU) : list NvidiaMIGProfile :=
  match (pg_Capabilities pgpu ≫= gcap_Nvidia) ≫= nc_MIG with
  | Some mig => mc_Profiles mig
  | None => []
  end.

Record gpu_in_range (pgpu : PhysicalGPU) : Prop := {
  gr_memory caps mem : pg_Capabilities pgpu = Some caps → gcap_MemoryMiB caps = Some mem → 0 ≤ mem < 2 ^ 42;
  gr_profiles p : p ∈ profiles_of pgpu → profile_in_range p;
  gr_slices caps mig : pg_Capabilities pgpu = Some caps → gcap_Nvidia caps ≫= nc_MIG = Some mig →
    mc_TotalSlices mig < 2 ^ 31;
}.

Definition session_in_range (session : MigPlacementSession) : Prop :=
  ∀ pci ids m i pls pl, session pci ids = Ok m → m !! i = Some pls → pl ∈ pls → placement_in_range pl.

Lemma per_instance_le p v : per_instance p v → 0 ≤ v < 2 ^ 31.
Proof. unfold per_instance. nia. Qed.

Lemma placement_stop pl : placement_in_range pl →
  wrap32 (pl_Start pl + pl_Size pl) = pl_Start pl + pl_Size pl.
Proof. intros (? & ? & ?). apply wrap32_id. lia. Qed.

(** ** Well-formed devices *)

Lemma buildMigConsumes_small p pl : profile_in_range p → placement_in_range pl →
  map_Forall (λ _ v, 0 ≤ ctr_Value v < 2 ^ 31) (buildMigConsumes p pl).
Proof.
  intros (Hm & H1 & H2 & H3 & H4 & H5 & H6) Hpl k v. unfold in_int32 in Hm. pose proof Hpl as (? & ? & ?).
  apply per_instance_le in H1, H2, H3, H4, H5, H6.
  rewrite buildMigConsumes_eq, placement_stop, migCounters_spec by (done || lia).
  intros He. destruct He; simpl; lia.
Qed.

Definition device_wellformed (d : Device) : Prop :=
  renderable (Spec d) ∧ consumes_ok (dev_consumes d) ∧ map_Forall (λ _, capacity_ok) (dev_capacity d).

Lemma physical_wellformed pgpu d : gpu_in_range pgpu → buildPhysicalDevice pgpu = Ok d → device_wellformed d.
Proof.
  intros Hr. unfold buildPhysicalDevice. destruct (str_eqb _ ""); [done|].
  destruct (pg_Capabilities pgpu) as [caps|] eqn:Hc; [|done]. destruct (negb _); [done|].
  destruct (gcap_MemoryMiB caps) as [mem|] eqn:Hm; [|done]. intros [= <-].
  pose proof (gr_memory _ Hr caps mem Hc Hm) as Hmem.
  assert (∀ name c, ({[ CapMemory := ShareableMemoryCapacityMiB mem;
      CapSharePercent := SharePercentCapacity ]} : gmap string CapacityValue) !! name = Some c →
    c = ShareableMemoryCapacityMiB mem ∨ c = SharePercentCapacity) as Hcap.
  { intros name c. rewrite lookup_insert_Some, lookup_singleton_Some. naive_solver. }
  split; [split; [|constructor]|split; [split; constructor|]]; simpl.
  - intros name c [->| ->]%Hcap; simpl; unfold renderablePolicy, small; simpl; repeat split; lia.
  - intros name c [->| ->]%Hcap; (split; [simpl; lia|]); intros p [= <-]; unfold policy_ok; simpl; lia.
Qed.

Lemma mig_wellformed pgpu pci setName p pl : profile_in_range p → placement_in_range pl →
  device_wellformed (migDevice pgpu pci setName p pl).
Proof.
  intros Hp Hpl. pose proof (buildMigConsumes_small p pl Hp Hpl) as Hs.
  destruct Hp as (Hm & _). unfold in_int32 in Hm.
  split; [split|split]; simpl.
  - intros name c [_ <-]%lookup_singleton_Some. unfold small. simpl. split; [lia|done].
  - constructor; [|done]. simpl. intros k v [Hv1 Hv2]%Hs. unfold small. lia.
  - split; [simpl; apply NoDup_singleton|]. constructor; [|done]. simpl.
    intros k v [Hv1 Hv2]%Hs. lia.
  - intros name c [_ <-]%lookup_singleton_Some. split; [simpl; lia|]. intros ? [=].
Qed.

(** What [buildMigDevices] returns. *)
Lemma buildMigDevices_shape pgpu session sets devs d :
  buildMigDevices pgpu (Some session) = Ok (sets, devs) → d ∈ devs →
  ∃ mem caps mig placements p pl,
    pg_Capabilities pgpu = Some caps ∧ gcap_MemoryMiB caps = Some mem ∧
    gcap_Nvidia caps ≫= nc_MIG = Some mig ∧
    session (PCIAddressFor pgpu) (mp_ProfileID <$> mc_Profiles mig) = Ok placements ∧
    p ∈ mc_Profiles mig ∧ pl ∈ default [] (placements !! mp_ProfileID p) ∧
    d = migDevice pgpu (PCIAddressFor pgpu) (CounterSetNameForPCI (PCIAddressFor pgpu)) p pl ∧
    sets = [mkCounterSet (CounterSetNameForPCI (PCIAddressFor pgpu))
      (buildMigCounters (totalsFromProfiles mem
         (Z.max (mc_TotalSlices mig) (maxMigSlices placements)) (mc_Profiles mig)))].
Proof.
  unfold buildMigDevices. destruct (negb (Supported pgpu)); [intros [= <- <-] Hd; by apply elem_of_nil in Hd|].
  destruct (pg_Capabilities pgpu) as [[product [mem|] vendor [[cc arch board types pmin pmax sup [mig|]]|]]|] eqn:Hc; try done.
  destruct (list_len0 _); [intros [= <- <-] Hd; by apply elem_of_nil in Hd|].
  destruct (session _ _) as [placements|] eqn:Hs; [|done]. simpl. intros [= <- <-] Hd.
  apply list_elem_of_In, in_concat in Hd as (l & Hl%list_elem_of_In & Hd%list_elem_of_In).
  apply list_elem_of_fmap in Hl as (p & -> & Hp). unfold profileDevices in Hd.
  destruct (_ || _); [by apply elem_of_nil in Hd|]. apply list_elem_of_fmap in Hd as (pl & -> & Hpl).
  eexists mem, _, mig, placements, p, pl. do 7 (split; [done|]). do 4 f_equal.
  destruct (Z.ltb_spec (mc_TotalSlices mig) (maxMigSlices placements)); lia.
Qed.

Lemma addBuilt_devices l acc d :
  d ∈ inv_Devices (fst (foldl addBuilt acc l)) →
  d ∈ inv_Devices (fst acc) ∨ ∃ sets devs, Ok (sets, devs) ∈ l ∧ d ∈ devs.
Proof.
  revert acc. induction l as [|r l IH]; intros [inv errs]; simpl; [by left|]. intros Hd.
  destruct (IH _ Hd) as [Hin|(sets & devs & Hin & Hdd)]; [|right; exists sets, devs; split; [by right|done]].
  unfold addBuilt in Hin. destruct r as [[sets devs]|e]; simpl in Hin; [|by left].
  apply elem_of_app in Hin as [Hin|Hin]; [by left|]. right. exists sets, devs. split; [left|done].
Qed.

Lemma inventory_wellformed open gpus d :
  Forall gpu_in_range gpus → (∀ session, open = Some (Ok session) → session_in_range session) →
  d ∈ inv_Devices (fst (BuildInventory open gpus)) → device_wellformed d.
Proof.
  intros Hgpus Hses Hd. rewrite Forall_forall in Hgpus. unfold BuildInventory in Hd.
  apply addBuilt_devices in Hd as [Hd|(sets & devs & Hin & Hd)]; [by apply elem_of_nil in Hd|].
  apply list_elem_of_In, in_concat in Hin as (l & Hl%list_elem_of_In & Hin%list_elem_of_In).
  apply list_elem_of_fmap in Hl as (pgpu & -> & Hpgpu). specialize (Hgpus pgpu Hpgpu).
  unfold runBuilders in Hin. apply elem_of_cons in Hin as [Hin|Hin].
  - destruct (buildPhysicalDevice pgpu) as [d'|] eqn:Hb; [|done]. injection Hin as -> ->.
    apply list_elem_of_singleton in Hd as ->. by eapply physical_wellformed.
  - destruct (plan_mig _) as [session|] eqn:Hp; [|by apply elem_of_nil in Hin].
    apply list_elem_of_singleton in Hin.
    assert (open = Some (Ok session)) as Hopen.
    { unfold FactoryBuild in Hp. destruct (negb _); [done|]. by destruct open as [[]|]; simplify_eq/=. }
    destruct (buildMigDevices_shape _ _ _ _ d (eq_sym Hin) Hd)
      as (mem & caps & mig & placements & p & pl & Hc & _ & Hmig & Hs & Hpm & Hpl & -> & _).
    apply mig_wellformed.
    + apply (gr_profiles _ Hgpus). unfold profiles_of. rewrite Hc. simpl. by rewrite Hmig.
    + destruct (placements !! mp_ProfileID p) as [pls|] eqn:Hpls; [|by apply elem_of_nil in Hpl].
      by eapply (Hses session Hopen).
Qed.

(** Every device of the inventory, published and allocated, is in the
    range where the theorems on publishing and on allocation apply: its
    amounts fit, its policies are in the unit of their capacity, and it names a
    counter set at most once. *)
Theorem BuildInventory_wellformed open gpus d :
  Forall gpu_in_range gpus → (∀ session, open = Some (Ok session) → session_in_range session) →
  d ∈ inv_Devices (fst (BuildInventory open gpus)) → device_wellformed d.
Proof. apply inventory_wellformed. Qed.

(** ** A MIG device fits on an empty GPU *)

Lemma maxCounterTotal_ge cur p v : per_instance p v →
  let inst := if mp_MaxInstances p <? 1 then 1 else mp_MaxInstances p in
  cur ≤ maxCounterTotal cur v inst ∧ (0 < v → v ≤ maxCounterTotal cur v inst).
Proof.
  intros [Hv Hp]. simpl.
  replace (if mp_MaxInstances p <? 1 then 1 else mp_MaxInstances p) with (Z.max 1 (mp_MaxInstances p))
    by (destruct (Z.ltb_spec (mp_MaxInstances p) 1); lia).
  unfold maxCounterTotal. destruct (Z.leb_spec v 0); [lia|]. rewrite wrap32_id by nia.
  destruct (Z.ltb_spec cur (v * Z.max 1 (mp_MaxInstances p))); nia.
Qed.

Definition totals_le (t t' : migCountersTotal) : Prop :=
  mt_MemoryMiB t' = mt_MemoryMiB t ∧ mt_TotalSlices t' = mt_TotalSlices t ∧
  mt_Multiprocessors t ≤ mt_Multiprocessors t' ∧ mt_CopyEngines t ≤ mt_CopyEngines t' ∧
  mt_Decoders t ≤ mt_Decoders t' ∧ mt_Encoders t ≤ mt_Encoders t' ∧
  mt_JpegEngines t ≤ mt_JpegEngines t' ∧ mt_OfaEngines t ≤ mt_OfaEngines t'.

(** The positive counts of a profile are within the totals. *)
Definition profile_le (p : NvidiaMIGProfile) (t : migCountersTotal) : Prop :=
  (0 < mp_Multiprocessors p → mp_Multiprocessors p ≤ mt_Multiprocessors t) ∧
  (0 < mp_CopyEngines p → mp_CopyEngines p ≤ mt_CopyEngines t) ∧
  (0 < mp_Decoders p → mp_Decoders p ≤ mt_Decoders t) ∧
  (0 < mp_Encoders p → mp_Encoders p ≤ mt_Encoders t) ∧
  (0 < mp_JpegEngines p → mp_JpegEngines p ≤ mt_JpegEngines t) ∧
  (0 < mp_OfaEngines p → mp_OfaEngines p ≤ mt_OfaEngines t).

Lemma addProfileTotals_le t p : profile_in_range p →
  totals_le t (addProfileTotals t p) ∧ profile_le p (addProfileTotals t p).
Proof.
  intros (_ & H1 & H2 & H3 & H4 & H5 & H6). unfold totals_le, profile_le, addProfileTotals. simpl.
  pose proof (λ cur, maxCounterTotal_ge cur p _ H1) as G1. pose proof (λ cur, maxCounterTotal_ge cur p _ H2) as G2.
  pose proof (λ cur, maxCounterTotal_ge cur p _ H3) as G3. pose proof (λ cur, maxCounterTotal_ge cur p _ H4) as G4.
  pose proof (λ cur, maxCounterTotal_ge cur p _ H5) as G5. pose proof (λ cur, maxCounterTotal_ge cur p _ H6) as G6.
  simpl in *. repeat split; first [apply G1|apply G2|apply G3|apply G4|apply G5|apply G6].
Qed.

Lemma totals_le_trans t1 t2 t3 : totals_le t1 t2 → totals_le t2 t3 → totals_le t1 t3.
Proof. unfold totals_le. intros. destruct_and!. split_and!; congruence || lia. Qed.

Lemma profile_le_trans p t t' : profile_le p t → totals_le t t' → profile_le p t'.
Proof. unfold totals_le, profile_le. intros. destruct_and!. split_and!; lia. Qed.

Lemma totals_fold profiles t : Forall profile_in_range profiles →
  totals_le t (foldl addProfileTotals t profiles) ∧
  ∀ p, p ∈ profiles → profile_le p (foldl addProfileTotals t profiles).
Proof.
  intros Hall. revert t. induction Hall as [|p l Hp Hl IH]; intros t; simpl.
  { split; [unfold totals_le; split_and!; lia|]. intros p Hin. by apply elem_of_nil in Hin. }
  destruct (addProfileTotals_le t p Hp) as [Hle Hple]. destruct (IH (addProfileTotals t p)) as [Hle' Hall'].
  split; [by eapply totals_le_trans|]. intros q [->|Hq]%elem_of_cons; [by eapply profile_le_trans|by apply Hall'].
Qed.

Lemma maxMigSlices_ge placements i pls pl :
  placements !! i = Some pls → pl ∈ pls → wrap32 (pl_Start pl + pl_Size pl) ≤ maxMigSlices placements.
Proof.
  intros Hi Hpl. unfold maxMigSlices.
  assert (pl ∈ concat (map_to_list placements).*2) as Hin.
  { apply list_elem_of_In, in_concat. exists pls. rewrite <- !list_elem_of_In. split; [|done].
    apply list_elem_of_fmap. exists (i, pls). by rewrite elem_of_map_to_list. }
  revert Hin. generalize (concat (map_to_list placements).*2), 0. intros l.
  induction l as [|a l IH]; intros z Hin; [by apply elem_of_nil in Hin|]. simpl.
  assert (∀ (l : list MigPlacement) z, z ≤ foldl (λ max q, let stop := wrap32 (pl_Start q + pl_Size q) in
    if max <? stop then stop else max) z l) as Hmono.
  { clear. intros l. induction l as [|a l IH]; intros z; simpl; [lia|]. etrans; [|apply IH].
    destruct (Z.ltb_spec z (wrap32 (pl_Start a + pl_Size a))); lia. }
  apply elem_of_cons in Hin as [->|Hin]; [|by apply IH]. etrans; [|apply Hmono].
  destruct (Z.ltb_spec z (wrap32 (pl_Start a + pl_Size a))); lia.
Qed.

Lemma wrap32_lt z : wrap32 z < 2 ^ 31.
Proof. unfold wrap32. pose proof (Z.mod_pos_bound (z + 2 ^ 31) (2 ^ 32)). lia. Qed.

Lemma maxMigSlices_lt placements : maxMigSlices placements < 2 ^ 31.
Proof.
  unfold maxMigSlices. assert (0 < 2 ^ 31) as Hz by lia. revert Hz.
  generalize (concat (map_to_list placements).*2), 0. intros l.
  induction l as [|a l IH]; intros z Hz; simpl; [done|]. apply IH.
  pose proof (wrap32_lt (pl_Start a + pl_Size a)). by destruct (Z.ltb_spec z (wrap32 (pl_Start a + pl_Size a))).
Qed.

(** C25: the counter set of a MIG-capable GPU covers every MIG device offered
    on it, when the answers of the hardware are in range: each counter the
    device draws on exists in the set, in the same unit; of the slices and
    engines the set has at least the amount drawn; and of the memory, where the
    amounts are as reported, the device draws the memory of its profile and the
    set has the memory of the GPU. *)
Theorem mig_device_fits pgpu session sets devs d :
  gpu_in_range pgpu → session_in_range session →
  buildMigDevices pgpu (Some session) = Ok (sets, devs) → d ∈ devs →
  ∃ set counters p mem, sets = [set] ∧ dev_consumes d = [mkCounterConsumption (cs_Name set) counters] ∧
    p ∈ profiles_of pgpu ∧ pg_Capabilities pgpu ≫= gcap_MemoryMiB = Some mem ∧
    ∀ name v, counters !! name = Some v → ∃ a, cs_Counters set !! name = Some a ∧ ctr_Unit a = ctr_Unit v ∧
      if bool_decide (name = counterMemory) then ctr_Value v = mp_MemoryMiB p ∧ ctr_Value a = mem else ctr_Value v ≤ ctr_Value a.
Proof.
  intros Hr Hses Hb Hd.
  destruct (buildMigDevices_shape _ _ _ _ d Hb Hd)
    as (mem & caps & mig & placements & p & pl & Hc & Hcm & Hmig & Hs & Hp & Hpl & -> & ->).
  assert (profiles_of pgpu = mc_Profiles mig) as Hprof by (unfold profiles_of; rewrite Hc; simpl; by rewrite Hmig).
  eexists _, (buildMigConsumes p pl), p, mem. split; [done|]. split; [done|]. split; [by rewrite Hprof|]. split; [by rewrite Hc|]. simpl.
  destruct (placements !! mp_ProfileID p) as [pls|] eqn:Hpls; [|by apply elem_of_nil in Hpl].
  pose proof (Hses _ _ _ _ _ _ Hs Hpls Hpl) as Hplr. pose proof Hplr as (Hst & _ & Hsum).
  pose proof (maxMigSlices_ge _ _ _ _ Hpls Hpl) as Hge. rewrite placement_stop in Hge by done.
  pose proof (maxMigSlices_lt placements) as Hlt.
  assert (mc_TotalSlices mig < 2 ^ 31) as Hts by (apply (gr_slices _ Hr caps mig); done).
  destruct (totals_fold (mc_Profiles mig)
    (mkCountersTotal mem (Z.max (mc_TotalSlices mig) (maxMigSlices placements)) 0 0 0 0 0 0)) as [Hle Hall].
  { apply Forall_forall. intros q Hq. apply (gr_profiles _ Hr). by rewrite Hprof. }
  specialize (Hall p Hp). fold (totalsFromProfiles mem
    (Z.max (mc_TotalSlices mig) (maxMigSlices placements)) (mc_Profiles mig)) in *.
  set (t := totalsFromProfiles _ _ _) in *. destruct Hle as (Hm & Hsl & _). simpl in Hm, Hsl.
  destruct Hall as (G1 & G2 & G3 & G4 & G5 & G6).
  intros name v. rewrite buildMigConsumes_eq, placement_stop, migCounters_spec by (done || lia).
  intros He. setoid_rewrite buildMigCounters_eq. setoid_rewrite migCounters_spec; [|lia..].
  destruct He; eexists; (split; [constructor; first [lia|done]|]); (split; [done|]);
    (case_bool_decide as Hn; simpl; [first [discriminate Hn | by split]|try (by destruct Hn); lia || auto]).
Qed.

(** ** Overlapping placements are never allocated together *)

Lemma counterAt_read m c : counterAt (readCounters m) c = counterAt m c.
Proof. unfold counterAt, readCounters. rewrite lookup_fmap. by destruct (m !! c). Qed.

Section Overlap.
Context {Q : Type} `{Quantity Q, QuantityAdd Q, !QuantityLaws Q, !QuantityAddLaws Q} `{GoSort}.
Context `{CelCompiler Q} `{ApiErrors}.

(** The candidate that is the published MIG device. *)
Definition is_mig (d : CandidateDevice) (pgpu : PhysicalGPU) (pci setName : string)
    (p : NvidiaMIGProfile) (pl : MigPlacement) : Prop :=
  cd_Spec d = readSpec (Spec (migDevice pgpu pci setName p pl)) ∧ placement_in_range pl.

Lemma is_mig_demand d pgpu pci setName p pl i : is_mig d pgpu pci setName p pl →
  pl_Start pl ≤ i < pl_Start pl + pl_Size pl →
  demand (spec_Consumes (cd_Spec d)) setName (memorySlice i) = 1.
Proof.
  intros [-> Hpl] Hi. pose proof Hpl as (? & ? & ?). unfold demand. simpl. rewrite decide_True by done.
  rewrite counterAt_read. unfold counterAt.
  assert (buildMigConsumes p pl !! memorySlice i = Some (countOf 1)) as ->; [|done].
  rewrite buildMigConsumes_eq, placement_stop, migCounters_spec by (done || lia). by constructor.
Qed.

(** C24: in a safe cluster two MIG devices of one GPU that are both allocated
    share no memory slice: their placements do not overlap. *)
Theorem mig_no_overlap (objects : Objects Q) d1 d2 pgpu pci setName p1 pl1 p2 pl2 t :
  slices_ok (ob_slices objects) → cluster_ok objects →
  d1 ∈ BuildCandidates DefaultDriverName (ob_slices objects) →
  d2 ∈ BuildCandidates DefaultDriverName (ob_slices objects) →
  d1 ≠ d2 → cd_NodeName d1 = cd_NodeName d2 →
  is_mig d1 pgpu pci setName p1 pl1 → is_mig d2 pgpu pci setName p2 pl2 →
  BuildCounterSets DefaultDriverName (ob_slices objects) !! cd_NodeName d1 ≫= lookup setName
    = Some (mkCounterSet setName (readCounters (buildMigCounters t))) → mt_TotalSlices t < 2 ^ 31 →
  held d1 (holdings (ob_claims objects)) → held d2 (holdings (ob_claims objects)) →
  ¬ ∃ i, pl_Start pl1 ≤ i < pl_Start pl1 + pl_Size pl1 ∧ pl_Start pl2 ≤ i < pl_Start pl2 + pl_Size pl2.
Proof.
  intros Hinv Hck Hc1 Hc2 Hne Hnode Hm1 Hm2 Hset Ht Hh1 Hh2 (i & Hi1 & Hi2).
  pose proof (is_mig_demand _ _ _ _ _ _ _ Hm1 Hi1) as Hd1.
  pose proof (is_mig_demand _ _ _ _ _ _ _ Hm2 Hi2) as Hd2.
  assert (nodeDemand (BuildCandidates DefaultDriverName (ob_slices objects)) (holdings (ob_claims objects))
    (cd_NodeName d1) setName (memorySlice i) ≤ 1) as Hle.
  { pose proof (sf_counters _ _ _ (ck_safe _ Hck) d1) as Hs. destruct Hm1 as [Hspec _]. rewrite Hspec in Hs.
    etrans; [apply (Hs (mkCounterConsumption setName (readCounters (buildMigConsumes p1 pl1)))); [done|done|left]|].
    simpl. unfold availableAt. destruct (_ !! cd_NodeName d1) as [sets|]; simpl in *; [|done].
    rewrite Hset. simpl. rewrite counterAt_read. unfold counterAt.
    destruct (buildMigCounters t !! memorySlice i) as [v|] eqn:Hv; [|lia].
    rewrite buildMigCounters_eq, migCounters_spec in Hv by lia. inversion Hv; subst; simpl; try lia; discriminate. }
  assert (Zsum (λ d, demand (spec_Consumes (cd_Spec d)) setName (memorySlice i)) [d1; d2]
    ≤ nodeDemand (BuildCandidates DefaultDriverName (ob_slices objects)) (holdings (ob_claims objects))
        (cd_NodeName d1) setName (memorySlice i)) as Hge.
  { apply Zsum_subset.
    - apply NoDup_cons. split; [by rewrite list_elem_of_singleton|apply NoDup_singleton].
    - intros d Hd. rewrite !elem_of_cons, elem_of_nil in Hd.
      destruct Hd as [->|[->|[]]]; by apply list_elem_of_filter.
    - intros d [_ Hd]%list_elem_of_filter. by eapply demand_candidate. }
  simpl in Hge. lia.
Qed.
End Overlap.
