(* ===== verification/InventoryExamples.v ===== *)
(** * The inventory of a node with an A30

    The GPU offers profiles of one and of two slices of its four.  Its
    inventory is built, published and read back, and two claims for MIG
    devices are allocated from it. *)

From S2P Require Import Prelude GoLib DeviceModel Accounting Allocator AllocatorSpec K8sApi Render K8sAllocator.
From S2P Require Import K8sAllocatorSpec Effects Prepare PrepareSteps Reconciler DraController ClusterSafety.
From S2P Require Import ClusterExamples GpuApi Inventory InventorySpec.

Module A30.
Import Cluster Claims.

Definition pci : string := "0000:65:00.0".

Definition oneSlice : NvidiaMIGProfile := mkMIGProfile 14 "1g.6gb" 5952 1 4 14 1 0 0 0 0.
Definition twoSlices : NvidiaMIGProfile := mkMIGProfile 5 "2g.12gb" 12032 2 2 28 2 0 0 0 0.

Definition a30 : PhysicalGPU :=
  mkPhysicalGPU (mkObjectMeta "pgpu-a30" [] None None 1 None) (mkStatus None
    (Some (mkPCIInfo pci None (Some (mkPCIVendor "10de" "NVIDIA Corporation")) (Some (mkPCIDevice "20b7" "GA100GL [A30 PCIe]"))))
    (Some (mkGPUCapabilities "NVIDIA A30" (Some 24576) VendorNvidia
       (Some (mkNvidiaCapabilities "8.0" "Ampere" "" [] None None (Some true) (Some (mkMIGCapabilities 4 [oneSlice; twoSlices]))))))
    [] (Some (mkCurrentState DriverTypeNvidia (Some (mkNvidiaCurrentState "GPU-a30" "570.1" "" None None None))))).

(** NVML answers the placements of each profile. *)
Definition table : gmap Z (list MigPlacement) :=
  {[ 14 := [mkMigPlacement 0 1; mkMigPlacement 1 1; mkMigPlacement 2 1; mkMigPlacement 3 1];
     5 := [mkMigPlacement 0 2; mkMigPlacement 2 2] ]}.
Definition session : MigPlacementSession := λ _ _, Ok table.

Definition inventory : Inventory := fst (BuildInventory (Some (Ok session)) [a30]).

Example inventory_names :
  dev_canonicalName <$> inv_Devices inventory =
    ["gpu-0000-65-00-0"; "mig-0000-65-00-0-p14-s0-n1"; "mig-0000-65-00-0-p14-s1-n1";
     "mig-0000-65-00-0-p14-s2-n1"; "mig-0000-65-00-0-p14-s3-n1"; "mig-0000-65-00-0-p5-s0-n2";
     "mig-0000-65-00-0-p5-s2-n2"].
Proof. vm_compute. reflexivity. Qed.

Example inventory_errors : snd (BuildInventory (Some (Err (External 1))) [a30]) = [External 1].
Proof. vm_compute. reflexivity. Qed.

Lemma a30_in_range : gpu_in_range a30.
Proof.
  constructor.
  - intros ? ? [= <-] [= <-]. lia.
  - intros p Hp. change (p ∈ [oneSlice; twoSlices]) in Hp. rewrite !elem_of_cons, elem_of_nil in Hp.
    destruct Hp as [->|[->|[]]]; unfold profile_in_range, in_int32, per_instance; simpl; lia.
  - intros ? ? [= <-] [= <-]. simpl. lia.
Qed.

Lemma table_in_range : map_Forall (λ _ pls, Forall placement_in_range pls) table.
Proof. unfold placement_in_range. apply (bool_decide_unpack _). vm_compute. exact I. Qed.

Lemma session_is_in_range : session_in_range session.
Proof.
  intros p ids m i pls pl [= <-] Hi Hpl. pose proof (table_in_range i pls Hi) as Hall.
  rewrite Forall_forall in Hall. by apply Hall.
Qed.

Lemma migDeviceName_roundtrip_witness :
  is_dns_label (migDeviceName pci 5 (mkMigPlacement 2 2)) = true ∧
  parseMigDeviceName (migDeviceName pci 5 (mkMigPlacement 2 2)) = Ok (5, 2, 2).
Proof.
  apply (migDeviceName_roundtrip pci 5 (mkMigPlacement 2 2)); unfold in_int32; simpl;
    [reflexivity|lia..].
Defined.

Definition lastMig : Device := migDevice a30 pci (CounterSetNameForPCI pci) twoSlices (mkMigPlacement 2 2).

Lemma BuildInventory_wellformed_witness : device_wellformed lastMig.
Proof.
  apply (BuildInventory_wellformed (Some (Ok session)) [a30] lastMig).
  - apply Forall_singleton, a30_in_range.
  - intros s [= <-]. apply session_is_in_range.
  - apply (list_elem_of_lookup_2 _ 6%nat). vm_compute. reflexivity.
Defined.

Definition built : list CounterSet * list Device :=
  match buildMigDevices a30 (Some session) with Ok b => b | Err _ => ([], []) end.

Lemma mig_device_fits_witness :
  ∃ set counters p mem, fst built = [set] ∧ dev_consumes lastMig = [mkCounterConsumption (cs_Name set) counters] ∧
    p ∈ profiles_of a30 ∧ pg_Capabilities a30 ≫= gcap_MemoryMiB = Some mem ∧
    ∀ name v, counters !! name = Some v → ∃ a, cs_Counters set !! name = Some a ∧ ctr_Unit a = ctr_Unit v ∧
      if bool_decide (name = counterMemory) then ctr_Value v = mp_MemoryMiB p ∧ ctr_Value a = mem else ctr_Value v ≤ ctr_Value a.
Proof.
  apply (mig_device_fits a30 session (fst built) (snd built) lastMig a30_in_range session_is_in_range).
  - vm_compute. reflexivity.
  - apply (list_elem_of_lookup_2 _ 5%nat). vm_compute. reflexivity.
Defined.

(** ** Two claims for MIG devices *)

Definition a30slices : list (ResourceSlice Q) := Eval vm_compute in pool "node-m" inventory.

Definition migClass (name profile : string) : DeviceClass :=
  mkDeviceClass name [mkDeviceSelector (Some profile)] [] None.

Definition migClaim (name : string) : ResourceClaim Q :=
  mkResourceClaim "default" name
    [mkDeviceRequest "mig" (Some (mkExact "mig" [] "" 0 None None)) []] 0 [] None.

Definition migObjects : Objects Q :=
  mkObjects [migClaim "a"; migClaim "b"] a30slices {[ "mig" := migClass "mig" DeviceTypeMIG ]}.

Definition migObjects1 : Objects Q := Eval vm_compute in reconcile migObjects migObjects "a".
Definition migObjects2 : Objects Q := Eval vm_compute in reconcile migObjects1 migObjects1 "b".

Example mig_allocated : devicesOfClaims migObjects2 =
  [[("node-m", "mig-0000-65-00-0-p14-s0-n1")]; [("node-m", "mig-0000-65-00-0-p14-s1-n1")]].
Proof. vm_compute. reflexivity. Qed.

Lemma a30slices_ok : slices_ok a30slices.
Proof.
  constructor.
  - apply (bool_decide_unpack _). vm_compute. exact I.
  - assert (Forall (λ d, consumes_ok (spec_Consumes (cd_Spec d)) ∧
      map_Forall (λ _, capacity_ok) (spec_Capacity (cd_Spec d))) (BuildCandidates DefaultDriverName a30slices))
      as Hall by (unfold consumes_ok, counters_ok; apply (bool_decide_unpack _); vm_compute; exact I).
    rewrite Forall_forall in Hall. exact Hall.
  - unfold available_ok, counters_ok. apply (bool_decide_unpack _). vm_compute. exact I.
Qed.

Lemma migObjects_ok : cluster_ok migObjects2.
Proof.
  assert (cluster_ok migObjects) as H0.
  { apply cluster_ok_fresh; [apply a30slices_ok|..].
    - apply (bool_decide_unpack _). vm_compute. exact I.
    - intros c Hc r ex amounts Hr Hex Ham. simpl in Hc. rewrite !elem_of_cons, elem_of_nil in Hc.
      destruct Hc as [->|[->|[]]]; simpl in Hr; apply list_elem_of_singleton in Hr as ->;
        simpl in Hex; by simplify_eq/=.
    - intros c Hc. simpl in Hc. rewrite !elem_of_cons, elem_of_nil in Hc. by destruct Hc as [->|[->|[]]]. }
  assert (cluster_step migObjects migObjects1) as S1 by (apply (reconcile_step _ "a"); vm_compute; reflexivity).
  assert (cluster_step migObjects1 migObjects2) as S2 by (apply (reconcile_step _ "b"); vm_compute; reflexivity).
  destruct (cluster_step_ok migObjects migObjects1 a30slices_ok H0 S1) as [H1 Hs].
  assert (slices_ok (ob_slices migObjects1)) as Hok by (rewrite Hs; exact a30slices_ok).
  exact (proj1 (cluster_step_ok migObjects1 migObjects2 Hok H1 S2)).
Qed.

Lemma migObjects2_slices : ob_slices migObjects2 = a30slices.
Proof. vm_compute. reflexivity. Qed.

Definition candidateAt (i : nat) : CandidateDevice := Eval vm_compute in
  default (offer "node-m" gpu0) (BuildCandidates DefaultDriverName a30slices !! i).

Definition first : CandidateDevice := Eval vm_compute in candidateAt 1.
Definition second : CandidateDevice := Eval vm_compute in candidateAt 2.

Lemma mig_no_overlap_witness :
  ¬ ∃ i, 0 ≤ i < 0 + 1 ∧ 1 ≤ i < 1 + 1.
Proof.
  apply (mig_no_overlap migObjects2 first second a30 pci (CounterSetNameForPCI pci)
    oneSlice (mkMigPlacement 0 1) oneSlice (mkMigPlacement 1 1)
    (totalsFromProfiles 24576 4 [oneSlice; twoSlices]) 
    (eq_ind_r slices_ok a30slices_ok migObjects2_slices) migObjects_ok).
  - apply (list_elem_of_lookup_2 _ 1%nat). vm_compute. reflexivity.
  - apply (list_elem_of_lookup_2 _ 2%nat). vm_compute. reflexivity.
  - discriminate.
  - reflexivity.
  - split; [vm_compute; reflexivity|]. unfold placement_in_range. simpl. lia.
  - split; [vm_compute; reflexivity|]. unfold placement_in_range. simpl. lia.
  - vm_compute. reflexivity.
  - vm_compute. reflexivity.
  - vm_compute. discriminate.
  - vm_compute. discriminate.
Defined.
End A30.
