(* ===== verification/Driver.v ===== *)
(** * The kubelet plugin: pkg/dra/driver, pkg/dra/adapters/k8s/prepare

    The driver turns an allocated claim and the slices of its node into a
    request of the prepare service, with the configuration of each device,
    calls the service, and records the outcome in the status of the claim.

    A call to the API server is a function of the history, as the managers of
    the prepare service are; the events of the service are part of the history
    of the driver.  Claims handed over by the kubelet are non-nil, and the
    client and the service are set by [Start]. *)

From S2P Require Import Prelude GoLib DeviceModel K8sApi ConfigApi Effects Prepare PrepareSteps Reconciler.

(** ** API objects *)

Record Condition := mkCondition {
  cnd_Type : string;
  cnd_Status : string;
  cnd_Reason : string;
  cnd_Message : string;
  cnd_LastTransitionTime : Z;
}.

Record AllocatedDeviceStatus := mkDeviceStatus {
  ds_Driver : string;
  ds_Pool : string;
  ds_Device : string;
  ds_ShareID : option string;
  ds_Conditions : list Condition;
}.

(** What the decoder of the opaque parameters returns: one of the three kinds
    of configuration, or an object that is none. *)
Inductive DecodedObject (Q : Type) :=
| DecodedGpu (c : GpuConfig Q)
| DecodedMig (c : MigDeviceConfig Q)
| DecodedVfio (c : VfioDeviceConfig)
| DecodedOther (kind : string).
Arguments DecodedGpu {Q}.
Arguments DecodedMig {Q}.
Arguments DecodedVfio {Q}.
Arguments DecodedOther {Q}.

(** [runtime.Decode(configapi.StrictDecoder, raw)]. *)
Class ConfigDecoder (Q : Type) := { StrictDecode : string → res (DecodedObject Q) }.

(** Errors of the API server and of the kubelet plugin library; the number of
    attempts of [retry.DefaultRetry]. *)
Class KubeletLibrary := {
  IsNotFound : error → bool;
  ErrRecoverable : error;
  ErrorString : error → string;
  DefaultRetrySteps : nat;
}.

Section Driver.
Context {Q : Type} `{Quantity Q} `{ConfigDecoder Q} `{KubeletLibrary} `{ApiErrors}.

(** A claim with the metadata and the status only the driver reads. *)
Record ClaimObject := mkClaimObject {
  co_UID : string;
  co_Annotations : gmap string string;
  co_Claim : ResourceClaim Q;
  co_Devices : list AllocatedDeviceStatus;
}.

(** ** adapters/k8s/prepare *)

Definition shareID (id : option string) : string := default "" id.

Definition prepareConsumed (input : gmap string Q) : gmap string Q := input.

Definition attributesFromDevice (device : ApiDevice Q) : gmap string AttributeValue :=
  (λ attr, mkAttributeValue (da_StringValue attr) (da_IntValue attr) (da_BoolValue attr))
    <$> api_Attributes device.

Definition filterResults (results : list (DeviceRequestAllocationResult Q)) (driverName : string)
    : list (DeviceRequestAllocationResult Q) :=
  if str_eqb driverName "" then results else
  filter (λ res, rr_Driver res = driverName) results.

Record poolIndex := mkPoolIndex { pi_generation : Z; pi_devices : gmap string (ApiDevice Q) }.

Definition addDevices (devices : gmap string (ApiDevice Q)) (slice : ResourceSlice Q)
    : gmap string (ApiDevice Q) :=
  foldl (λ m dev, <[api_Name dev := dev]> m) devices (rs_Devices slice).

(** The first three [continue] of the loop: is the slice looked at? *)
Definition indexedSlice (driverName nodeName : string) (slice : ResourceSlice Q) : bool :=
  negb (negb (str_eqb driverName "") && negb (str_eqb (rs_Driver slice) driverName)) &&
  negb (match rs_NodeName slice with
        | Some n => negb (str_eqb nodeName "") && negb (str_eqb n nodeName)
        | None => false
        end) &&
  negb (str_eqb (rs_PoolName slice) "").

(** One turn of the loop. *)
Definition indexSlice (driverName nodeName : string) (index : gmap string poolIndex)
    (slice : ResourceSlice Q) : gmap string poolIndex :=
  if negb (indexedSlice driverName nodeName slice) then index else
  let gen := rs_PoolGeneration slice in
  let entry := match index !! rs_PoolName slice with
    | Some entry => if pi_generation entry <? gen then mkPoolIndex gen ∅ else entry
    | None => mkPoolIndex gen ∅
    end in
  if gen <? pi_generation entry then <[rs_PoolName slice := entry]> index else
  <[rs_PoolName slice := mkPoolIndex (pi_generation entry) (addDevices (pi_devices entry) slice)]> index.

Definition indexPools (slices : list (ResourceSlice Q)) (driverName nodeName : string)
    : gmap string poolIndex := foldl (indexSlice driverName nodeName) ∅ slices.

(** The body of the loop over the results. *)
Definition prepareDevice (deviceIndex : gmap string poolIndex) (r : DeviceRequestAllocationResult Q)
    : res (PrepareDevice Q) :=
  match deviceIndex !! rr_Pool r with
  | None => Err (Errorf "pool %q not found for device %q" [rr_Pool r; rr_Device r])
  | Some pool =>
      match pi_devices pool !! rr_Device r with
      | None => Err (Errorf "device %q not found in pool %q" [rr_Device r; rr_Pool r])
      | Some dev =>
          Ok (mkPrepareDevice (rr_Request r) (rr_Driver r) (rr_Pool r) (rr_Device r)
                (shareID (rr_ShareID r)) (prepareConsumed (rr_ConsumedCapacity r))
                (attributesFromDevice dev) None)
      end
  end.

Fixpoint prepareDevices (deviceIndex : gmap string poolIndex)
    (results : list (DeviceRequestAllocationResult Q)) : res (list (PrepareDevice Q)) :=
  match results with
  | [] => Ok []
  | r :: rest =>
      dev ← prepareDevice deviceIndex r; devs ← prepareDevices deviceIndex rest; Ok (dev :: devs)
  end.

Definition BuildPrepareRequest (claim : ClaimObject) (driverName nodeName : string)
    (slices : list (ResourceSlice Q)) : res (PrepareRequest Q) :=
  if str_eqb (co_UID claim) "" then Err (Errorf "claim UID is empty" []) else
  let name := claim_Name (co_Claim claim) in
  match claim_Allocation (co_Claim claim) with
  | None => Err (Errorf "claim %q has no allocation" [name])
  | Some alloc =>
      if list_len0 (aar_Results alloc) then Err (Errorf "claim %q has no allocated devices" [name]) else
      let filtered := filterResults (aar_Results alloc) driverName in
      if list_len0 filtered then Err (Errorf "claim %q has no devices for driver %q" [name; driverName]) else
      devices ← prepareDevices (indexPools slices driverName nodeName) filtered;
      Ok (mkPrepareRequest (co_UID claim) nodeName false devices)
  end.

(** ** annotations.go *)

Definition VfioAnnotationKey : string := "gpu.deckhouse.io/vfio".

Definition VFIORequested (annotations : gmap string string) : bool :=
  let raw := TrimSpace (default "" (annotations !! VfioAnnotationKey)) in
  if str_eqb raw "" then false else
  let low := ToLower raw in
  str_eqb low "true" || str_eqb low "1" || str_eqb low "yes" || str_eqb low "y".

(** ** device_config_decode.go *)

Record OpaqueDeviceConfig := mkOpaqueConfig {
  odc_Requests : list string;
  odc_Config : Config Q;
}.

(** The first loop: the configurations of classes and of claims. *)
Fixpoint splitConfigs (configs : list DeviceAllocationConfiguration)
    : res (list DeviceAllocationConfiguration * list DeviceAllocationConfiguration) :=
  match configs with
  | [] => Ok ([], [])
  | cfg :: rest =>
      match dac_Source cfg with
      | AllocationConfigSourceClass => '(cs, ls) ← splitConfigs rest; Ok (cfg :: cs, ls)
      | AllocationConfigSourceClaim => '(cs, ls) ← splitConfigs rest; Ok (cs, cfg :: ls)
      | AllocationConfigSourceOther s => Err (Errorf "invalid config source: %v" [s])
      end
  end.

(** [if err := config.Validate(); err != nil { return ... }] *)
Definition checkedConfig (r : res ()) (c : Config Q) : res (Config Q) :=
  match r with
  | Err e => Err (Wrapf "validate device config: %w" [] e)
  | Ok _ => Ok c
  end.

(** [Normalize], which fails for none of the three kinds, and [Validate]. *)
Definition validatedConfig (obj : DecodedObject Q) : res (Config Q) :=
  match obj with
  | DecodedGpu c => let c := GpuConfig_Normalize c in checkedConfig (GpuConfig_Validate c) (GpuConf c)
  | DecodedMig c =>
      let c := MigDeviceConfig_Normalize c in checkedConfig (MigDeviceConfig_Validate c) (MigConf c)
  | DecodedVfio c =>
      let c := VfioDeviceConfig_Normalize c in checkedConfig (VfioDeviceConfig_Validate c) (VfioConf c)
  | DecodedOther kind => Err (Errorf "unsupported device config type %T" [kind])
  end.

Fixpoint decodeLoop (driverName : string) (candidates : list DeviceAllocationConfiguration)
    : res (list OpaqueDeviceConfig) :=
  match candidates with
  | [] => Ok []
  | cfg :: rest =>
      match dc_Opaque (dac_Configuration cfg) with
      | None => Err (Errorf "only opaque configs are supported" [])
      | Some o =>
          if negb (str_eqb (od_Driver o) driverName) then decodeLoop driverName rest else
          match StrictDecode (od_Parameters o) with
          | Err e => Err (Wrapf "decode device config: %w" [] e)
          | Ok obj =>
              config ← validatedConfig obj;
              result ← decodeLoop driverName rest;
              Ok (mkOpaqueConfig (dac_Requests cfg) config :: result)
          end
      end
  end.

Definition decodeDeviceConfigs (configs : list DeviceAllocationConfiguration) (driverName : string)
    : res (list OpaqueDeviceConfig) :=
  '(classConfigs, claimConfigs) ← splitConfigs configs;
  decodeLoop driverName (classConfigs ++ claimConfigs).

Definition configAppliesToRequest (configRequests : list string) (request : string) : bool :=
  let request := TrimSpace request in
  if str_eqb request "" then false else
  if list_len0 configRequests then true else
  existsb (λ name,
    let name := TrimSpace name in
    if str_eqb name "" then false else
    str_eqb name request || HasPrefix request (name +:+ "/")) configRequests.

(** The order of the iteration over the set does not matter. *)
Definition configApplies (configRequests : list string) (allocated : list string) : bool :=
  if list_len0 configRequests then true else
  existsb (configAppliesToRequest configRequests) allocated.

(** ** device_config_vfio.go *)

Definition isVfioConfig (c : Config Q) : bool := match c with VfioConf _ => true | _ => false end.

Definition vfioRequestedFromConfig (claim : ClaimObject) (driverName : string) : res bool :=
  match claim_Allocation (co_Claim claim) with
  | None => Ok false
  | Some alloc =>
      let requests := rr_Request <$> filter (λ r, rr_Driver r = driverName) (aar_Results alloc) in
      if list_len0 requests then Ok false else
      configs ← decodeDeviceConfigs (aar_Config alloc) driverName;
      Ok (existsb (λ cfg, configApplies (odc_Requests cfg) requests && isVfioConfig (odc_Config cfg)) configs)
  end.

(** ** device_config_apply.go *)

Definition defaultConfigForDevice (deviceType : string) : option (Config Q) :=
  if IsPhysicalDevice deviceType then Some (GpuConf DefaultGpuConfig) else
  if IsMigDevice deviceType then Some (MigConf DefaultMigDeviceConfig) else None.

Definition configMatchesDeviceType (cfg : Config Q) (deviceType : string) : bool :=
  match cfg with
  | GpuConf _ => IsPhysicalDevice deviceType
  | MigConf _ => IsMigDevice deviceType
  | _ => false
  end.

(** The loop over the configurations for one device. *)
Fixpoint selectConfig (device request deviceType : string) (configs : list OpaqueDeviceConfig)
    (selected : option (Config Q)) : res (option (Config Q)) :=
  match configs with
  | [] => Ok selected
  | cfg :: rest =>
      if isVfioConfig (odc_Config cfg) || negb (configAppliesToRequest (odc_Requests cfg) request)
      then selectConfig device request deviceType rest selected else
      if negb (configMatchesDeviceType (odc_Config cfg) deviceType)
      then Err (Errorf "cannot apply %T to device %q (type %q)" [device; deviceType])
      else selectConfig device request deviceType rest (Some (odc_Config cfg))
  end.

Definition setConfig (dev : PrepareDevice Q) (c : option (Config Q)) : PrepareDevice Q :=
  mkPrepareDevice (pd_Request dev) (pd_Driver dev) (pd_Pool dev) (pd_Device dev) (pd_ShareID dev)
    (pd_ConsumedCapacity dev) (pd_Attributes dev) c.

Definition applyToDevice (configs : list OpaqueDeviceConfig) (dev : PrepareDevice Q)
    : res (PrepareDevice Q) :=
  let deviceType := AttrString (pd_Attributes dev) AttrDeviceType in
  selected ← selectConfig (pd_Device dev) (pd_Request dev) deviceType configs
               (defaultConfigForDevice deviceType);
  Ok (setConfig dev selected).

Fixpoint applyToDevices (configs : list OpaqueDeviceConfig) (devices : list (PrepareDevice Q))
    : res (list (PrepareDevice Q)) :=
  match devices with
  | [] => Ok []
  | dev :: rest =>
      dev' ← applyToDevice configs dev; rest' ← applyToDevices configs rest; Ok (dev' :: rest')
  end.

Definition applyDeviceConfigs (req : PrepareRequest Q) (configs : list OpaqueDeviceConfig)
    : res (PrepareRequest Q) :=
  devices ← applyToDevices configs (pr_Devices req);
  Ok (mkPrepareRequest (pr_ClaimUID req) (pr_NodeName req) (pr_VFIO req) devices).

(** ** device_status_build.go *)

Definition deviceStatusReasonPrepared : string := "Prepared".
Definition deviceStatusMessagePrepared : string := "device prepared".

(** [appendCondition] on [out], whose types are the set [seen]. *)
Definition appendCondition (now : Z) (out : list Condition) (condType : string) : list Condition :=
  if str_eqb condType "" then out else
  if bool_decide (condType ∈ cnd_Type <$> out) then out else
  out ++ [mkCondition condType "True" deviceStatusReasonPrepared deviceStatusMessagePrepared now].

Definition buildDeviceConditions (result : DeviceRequestAllocationResult Q) (now : Z) : list Condition :=
  foldl (appendCondition now) (appendCondition now [] DeviceConditionReady) (rr_BindingConditions result).

Definition deviceStatus (now : Z) (result : DeviceRequestAllocationResult Q) : AllocatedDeviceStatus :=
  mkDeviceStatus (rr_Driver result) (rr_Pool result) (rr_Device result) (rr_ShareID result)
    (buildDeviceConditions result now).

Definition buildDeviceStatuses (claim : ClaimObject) (driverName : string) (now : Z)
    : list AllocatedDeviceStatus :=
  match claim_Allocation (co_Claim claim) with
  | None => []
  | Some alloc =>
      deviceStatus now <$> filter (λ result, rr_Driver result = driverName) (aar_Results alloc)
  end.

Definition mergeDeviceStatuses (existing desired : list AllocatedDeviceStatus) (driverName : string)
    : list AllocatedDeviceStatus :=
  filter (λ status, ds_Driver status ≠ driverName) existing ++ desired.

(** ** The calls of the driver *)

(** [resourceSliceListOptions]: the fields the listed slices must have. *)
Definition resourceSliceListOptions (driverName nodeName : string) : gmap string string :=
  let selector := if str_eqb driverName "" then ∅ else {[ "spec.driver" := driverName ]} in
  if str_eqb nodeName "" then selector else <["spec.nodeName" := nodeName]> selector.

Inductive driverEvent :=
| DService (e : event Q)
| DListSlices (selector : gmap string string) (r : res (list (ResourceSlice Q)))
| DGetClaim (namespace name : string) (r : res ClaimObject)
| DUpdateStatus (claim : ClaimObject) (r : res ()).

Record KubeClient := {
  kc_ListSlices : gmap string string → list driverEvent → res (list (ResourceSlice Q));
  kc_GetClaim : string → string → list driverEvent → res ClaimObject;
  kc_UpdateStatus : ClaimObject → list driverEvent → res ();
}.

Record DriverState := mkDriver {
  drv_driverName : string;
  drv_nodeName : string;
  drv_kubeClient : KubeClient;
  drv_prepareService : Options Q;
  drv_deviceStatusEnabled : bool;
  (** [metav1.Now()] *)
  drv_now : Z;
}.

Definition DM (A : Type) : Type := M driverEvent () A.

(** The result of a computation whose error is handled by the caller. *)
Definition attempt {A} (m : DM A) : DM (res A) := λ s h, let '(r, sh) := m s h in (Ok r, sh).

(** The events of the prepare service. *)
Definition serviceEvents (h : list driverEvent) : list (event Q) :=
  omap (λ e, match e with DService e => Some e | _ => None end) h.

(** A call of the prepare service, which sees its own events only. *)
Definition callService {A} (f : list (event Q) → res A * list (event Q)) : DM A := λ s h,
  let '(r, h') := f (serviceEvents h) in
  (r, (s, h ++ (DService <$> drop (length (serviceEvents h)) h'))).

(** ** device_status.go *)

(** The function that is retried. *)
Definition patchAttempt (d : DriverState) (namespace name : string)
    (statuses : list AllocatedDeviceStatus) : DM () :=
  r ← attempt (call (kc_GetClaim (drv_kubeClient d) namespace name) (DGetClaim namespace name));
  match r with
  | Err e => if IsNotFound e then mret () else fail e
  | Ok current =>
      let updated := mkClaimObject (co_UID current) (co_Annotations current) (co_Claim current)
        (mergeDeviceStatuses (co_Devices current) statuses (drv_driverName d)) in
      call (kc_UpdateStatus (drv_kubeClient d) updated) (DUpdateStatus updated)
  end.

(** [retry.RetryOnConflict]: up to [steps] attempts, the last error. *)
Fixpoint RetryOnConflict (steps : nat) (last : res ()) (fn : DM ()) : DM () :=
  match steps with
  | 0%nat => liftR last
  | S steps =>
      r ← attempt fn;
      match r with
      | Ok _ => mret ()
      | Err e => if IsConflict e then RetryOnConflict steps (Err e) fn else fail e
      end
  end.

Definition patchClaimDeviceStatuses (d : DriverState) (namespace name : string)
    (statuses : list AllocatedDeviceStatus) : DM () :=
  if str_eqb namespace "" || str_eqb name "" then mret () else
  RetryOnConflict DefaultRetrySteps (Ok ()) (patchAttempt d namespace name statuses).

Definition updateClaimDeviceStatus (d : DriverState) (claim : ClaimObject) : DM () :=
  let statuses := buildDeviceStatuses claim (drv_driverName d) (drv_now d) in
  if list_len0 statuses then mret () else
  patchClaimDeviceStatuses d (claim_Namespace (co_Claim claim)) (claim_Name (co_Claim claim)) statuses.

Definition clearClaimDeviceStatus (d : DriverState) (namespace name : string) : DM () :=
  patchClaimDeviceStatuses d namespace name [].

(** ** prepare_claim.go *)

Record KubeletDevice := mkKubeletDevice {
  kd_Requests : list string;
  kd_PoolName : string;
  kd_DeviceName : string;
  kd_CDIDeviceIDs : list string;
}.

Record KubeletResult := mkKubeletResult {
  kr_Devices : list KubeletDevice;
  kr_Err : option error;
}.

Definition prepareErrorResult (err : error) : KubeletResult :=
  mkKubeletResult [] (Some (Wrapf "prepare failed: %v: %w" [ErrorString err] ErrRecoverable)).

Definition withVFIO (req : PrepareRequest Q) (vfio : bool) : PrepareRequest Q :=
  mkPrepareRequest (pr_ClaimUID req) (pr_NodeName req) vfio (pr_Devices req).

(** The request made from a claim. *)
Definition claimRequest (d : DriverState) (claim : ClaimObject) (slices : list (ResourceSlice Q))
    : res (PrepareRequest Q) :=
  req ← BuildPrepareRequest claim (drv_driverName d) (drv_nodeName d) slices;
  vfioConfigRequested ← vfioRequestedFromConfig claim (drv_driverName d);
  let req := withVFIO req (VFIORequested (co_Annotations claim) || vfioConfigRequested) in
  match claim_Allocation (co_Claim claim) with
  | None => Err (GoPanic "nil pointer dereference")
  | Some alloc =>
      configs ← decodeDeviceConfigs (aar_Config alloc) (drv_driverName d);
      applyDeviceConfigs req configs
  end.

Definition kubeletDevice (dev : PreparedDevice) : KubeletDevice :=
  mkKubeletDevice [pdv_Request dev] (pdv_Pool dev) (pdv_Device dev) (pdv_CDIDeviceIDs dev).

Context `{MpsEncoding Q} `{RangeOrder Q}.

Definition prepareClaim (d : DriverState) (claim : ClaimObject) (slices : list (ResourceSlice Q))
    : DM KubeletResult :=
  match claimRequest d claim slices with
  | Err e => mret (prepareErrorResult e)
  | Ok req =>
      r ← attempt (callService (ServicePrepare (drv_prepareService d) req));
      match r with
      | Err e => mret (prepareErrorResult e)
      | Ok result =>
          _ ← (if drv_deviceStatusEnabled d then attempt (updateClaimDeviceStatus d claim)
               else mret (Ok ()));
          mret (mkKubeletResult (kubeletDevice <$> pres_Devices result) None)
      end
  end.

Record NamespacedObject := mkNamespacedObject { no_UID : string; no_Namespace : string; no_Name : string }.

Definition unprepareClaim (d : DriverState) (claim : NamespacedObject) : DM () :=
  _ ← callService (ServiceUnprepare (drv_prepareService d) (no_UID claim));
  _ ← (if drv_deviceStatusEnabled d
       then attempt (clearClaimDeviceStatus d (no_Namespace claim) (no_Name claim))
       else mret (Ok ()));
  mret ().

(** ** resourceslices.go, prepare.go *)

Definition driverListSlices (d : DriverState) : DM (list (ResourceSlice Q)) :=
  let selector := resourceSliceListOptions (drv_driverName d) (drv_nodeName d) in
  call (kc_ListSlices (drv_kubeClient d) selector) (DListSlices selector).

(** The loop over the claims. *)
Fixpoint prepareLoop (d : DriverState) (slices : list (ResourceSlice Q)) (claims : list ClaimObject)
    (results : gmap string KubeletResult) : DM (gmap string KubeletResult) :=
  match claims with
  | [] => mret results
  | claim :: rest =>
      r ← prepareClaim d claim slices;
      prepareLoop d slices rest (<[co_UID claim := r]> results)
  end.

Definition PrepareResourceClaims (d : DriverState) (claims : list ClaimObject)
    : DM (gmap string KubeletResult) :=
  if list_len0 claims then mret ∅ else
  r ← attempt (driverListSlices d);
  match r with
  | Err e => mret (foldl (λ m claim, <[co_UID claim := prepareErrorResult e]> m) ∅ claims)
  | Ok slices => prepareLoop d slices claims ∅
  end.

Fixpoint unprepareLoop (d : DriverState) (claims : list NamespacedObject)
    (results : gmap string (res ())) : DM (gmap string (res ())) :=
  match claims with
  | [] => mret results
  | claim :: rest =>
      r ← attempt (unprepareClaim d claim);
      unprepareLoop d rest (<[no_UID claim := r]> results)
  end.

Definition UnprepareResourceClaims (d : DriverState) (claims : list NamespacedObject)
    : DM (gmap string (res ())) := unprepareLoop d claims ∅.
End Driver.
