(* ===== verification/DriverSpec.v ===== *)
(** * What the driver promises

    The request handed to the prepare service names exactly the devices the
    claim was allocated, with the attributes they were published with, and
    gives each the configuration it is meant to have. *)

From S2P Require Import Prelude GoLib DeviceModel Accounting Allocator AllocatorSpec K8sApi Render K8sAllocator.
From S2P Require Import K8sAllocatorSpec ConfigApi Effects Prepare PrepareSteps Reconciler DraController.
From S2P Require Import ClusterSafety Driver.

(** ** The index of devices *)

Section Index.
Context {Q : Type} (driverName nodeName : string).

Abbreviation indexed := (indexedSlice (Q:=Q) driverName nodeName).

(** A slice of the pool that the index looks at. *)
Definition slice_of (l : list (ResourceSlice Q)) (pool : string) (s : ResourceSlice Q) : Prop :=
  s ∈ l ∧ indexed s = true ∧ rs_PoolName s = pool.

(** [dev] is offered under [name] in generation [gen]. *)
Definition offered (l : list (ResourceSlice Q)) (pool : string) (gen : Z) (name : string)
    (dev : ApiDevice Q) : Prop :=
  ∃ s, slice_of l pool s ∧ rs_PoolGeneration s = gen ∧ dev ∈ rs_Devices s ∧ api_Name dev = name.

Record entry_ok (l : list (ResourceSlice Q)) (pool : string) (e : poolIndex (Q:=Q)) : Prop := {
  eo_max s : slice_of l pool s → rs_PoolGeneration s ≤ pi_generation e;
  eo_some name dev : pi_devices e !! name = Some dev → offered l pool (pi_generation e) name dev;
  eo_none name dev : pi_devices e !! name = None → ¬ offered l pool (pi_generation e) name dev;
}.

Definition entry_seen (l : list (ResourceSlice Q)) (pool : string) (e : poolIndex (Q:=Q)) : Prop :=
  ∃ s, slice_of l pool s ∧ rs_PoolGeneration s = pi_generation e.

Definition index_ok (l : list (ResourceSlice Q)) (index : gmap string poolIndex) : Prop :=
  ∀ pool, match index !! pool with
    | Some e => entry_ok l pool e ∧ entry_seen l pool e
    | None => ∀ s, ¬ slice_of l pool s
    end.

Lemma lookup_addDevices m (s : ResourceSlice Q) name :
  (∃ dev, addDevices m s !! name = Some dev ∧ dev ∈ rs_Devices s ∧ api_Name dev = name) ∨
  addDevices m s !! name = m !! name ∧ ∀ dev, dev ∈ rs_Devices s → api_Name dev ≠ name.
Proof.
  unfold addDevices. induction (rs_Devices s) as [|dev l IH] using rev_ind.
  { right. split; [done|]. intros dev Hd. by apply elem_of_nil in Hd. }
  rewrite foldl_snoc. destruct (decide (api_Name dev = name)) as [Hn|Hn].
  - left. exists dev. subst name. rewrite lookup_insert_eq. split; [done|]. split; [set_solver|done].
  - rewrite lookup_insert_ne by done. destruct IH as [(dev' & Hl & Hin & Hn')|[Hl Hno]].
    + left. exists dev'. split; [done|]. split; [set_solver|done].
    + right. split; [done|]. intros dev' [Hin|Hin%list_elem_of_singleton]%elem_of_app; [by apply Hno|by subst].
Qed.

Lemma slice_of_snoc l s pool s' :
  slice_of (l ++ [s]) pool s' ↔ slice_of l pool s' ∨ s' = s ∧ indexed s = true ∧ rs_PoolName s = pool.
Proof. unfold slice_of. rewrite elem_of_app, list_elem_of_singleton. naive_solver. Qed.

Lemma offered_snoc l s pool gen name dev :
  offered (l ++ [s]) pool gen name dev ↔ offered l pool gen name dev ∨
    indexed s = true ∧ rs_PoolName s = pool ∧ rs_PoolGeneration s = gen ∧ dev ∈ rs_Devices s ∧
    api_Name dev = name.
Proof. unfold offered. setoid_rewrite slice_of_snoc. naive_solver. Qed.

Lemma entry_ok_other l s pool e : (indexed s = true → rs_PoolName s ≠ pool) →
  entry_ok l pool e → entry_ok (l ++ [s]) pool e.
Proof.
  intros Hs [Hmax Hsome Hnone]. constructor.
  - intros s'. rewrite slice_of_snoc. naive_solver.
  - intros name dev Hd. rewrite offered_snoc. left. by apply Hsome.
  - intros name dev Hd. rewrite offered_snoc. intros [Ho|Ho]; [by eapply Hnone|naive_solver].
Qed.

(** The newest generation takes the devices of the slice. *)
Lemma entry_ok_add l s e : indexed s = true → rs_PoolGeneration s = pi_generation e →
  entry_ok l (rs_PoolName s) e →
  entry_ok (l ++ [s]) (rs_PoolName s) (mkPoolIndex (pi_generation e) (addDevices (pi_devices e) s)).
Proof.
  intros Hi Hg [Hmax Hsome Hnone]. constructor; simpl.
  - intros s'. rewrite slice_of_snoc. intros [Hs'|[-> _]]; [by apply Hmax|lia].
  - intros name dev Hd. rewrite offered_snoc.
    destruct (lookup_addDevices (pi_devices e) s name) as [(dev' & Hl & Hin & Hn)|[Hl _]].
    + right. rewrite Hd in Hl. injection Hl as ->. done.
    + left. apply Hsome. by rewrite <- Hl.
  - intros name dev Hd. rewrite offered_snoc.
    destruct (lookup_addDevices (pi_devices e) s name) as [(dev' & Hl & _)|[Hl Hno]]; [congruence|].
    intros [Ho|(_ & _ & _ & Hin & Hn)]; [apply (Hnone name dev); [congruence|done]|by eapply Hno].
Qed.

(** An older generation, or none, is forgotten. *)
Lemma entry_ok_fresh l s : indexed s = true →
  (∀ s', slice_of l (rs_PoolName s) s' → rs_PoolGeneration s' < rs_PoolGeneration s) →
  entry_ok l (rs_PoolName s) (mkPoolIndex (rs_PoolGeneration s) ∅).
Proof.
  intros Hi Hlt. constructor; simpl; [|done|].
  - intros s' Hs'. apply Hlt in Hs'. lia.
  - intros name dev _ (s' & Hs' & Hg & _). apply Hlt in Hs'. lia.
Qed.

Lemma entry_seen_last l s e : indexed s = true → rs_PoolGeneration s = pi_generation e →
  entry_seen (l ++ [s]) (rs_PoolName s) e.
Proof. intros Hi Hg. exists s. rewrite slice_of_snoc. auto. Qed.

Lemma entry_seen_snoc l s pool e : entry_seen l pool e → entry_seen (l ++ [s]) pool e.
Proof. intros (s' & Hs' & Hg). exists s'. rewrite slice_of_snoc. auto. Qed.

Abbreviation fresh s := (mkPoolIndex (rs_PoolGeneration s) ∅).

(** The entry of the pool of the slice. *)
Lemma index_pool l s index : index_ok l index → indexed s = true →
  ∃ e, indexSlice driverName nodeName index s !! rs_PoolName s = Some e ∧
    entry_ok (l ++ [s]) (rs_PoolName s) e ∧ entry_seen (l ++ [s]) (rs_PoolName s) e.
Proof.
  intros Hok Hi. specialize (Hok (rs_PoolName s)). unfold indexSlice. rewrite Hi. simpl.
  assert ((∀ s', slice_of l (rs_PoolName s) s' → rs_PoolGeneration s' < rs_PoolGeneration s) →
    ∃ e, <[rs_PoolName s := mkPoolIndex (rs_PoolGeneration s) (addDevices ∅ s)]> index !! rs_PoolName s
      = Some e ∧ entry_ok (l ++ [s]) (rs_PoolName s) e ∧ entry_seen (l ++ [s]) (rs_PoolName s) e) as Hnew.
  { intros Hlt. eexists. split; [by rewrite lookup_insert_eq|]. split; [|by apply entry_seen_last].
    by apply (entry_ok_add l s (fresh s)); [..|apply entry_ok_fresh]. }
  destruct (index !! rs_PoolName s) as [e|] eqn:He; simpl; [|rewrite Z.ltb_irrefl; apply Hnew; naive_solver].
  destruct Hok as [Hok Hseen].
  destruct (Z.ltb_spec (pi_generation e) (rs_PoolGeneration s)) as [Hlt|Hge]; simpl.
  { rewrite Z.ltb_irrefl. apply Hnew. intros s' Hs'. apply (eo_max _ _ _ Hok) in Hs'. lia. }
  destruct (Z.ltb_spec (rs_PoolGeneration s) (pi_generation e)) as [Hold|Hsame];
    rewrite lookup_insert_eq; (eexists; split; [done|]); (split; [|by apply entry_seen_snoc]).
  - destruct Hok as [Hmax Hsome Hnone]. constructor.
    + intros s'. rewrite slice_of_snoc. intros [Hs'|[-> _]]; [by apply Hmax|lia].
    + intros name dev Hd. rewrite offered_snoc. left. by apply Hsome.
    + intros name dev Hd. rewrite offered_snoc. intros [Ho|(_ & _ & ? & _)]; [by eapply Hnone|lia].
  - apply entry_ok_add; [done|lia|done].
Qed.

Lemma index_other s index pool : (indexed s = true → rs_PoolName s ≠ pool) →
  indexSlice driverName nodeName index s !! pool = index !! pool.
Proof.
  intros Hp. unfold indexSlice. destruct (indexed s); simpl; [|done].
  destruct (_ <? _); by rewrite lookup_insert_ne by auto.
Qed.

Lemma index_snoc l s index :
  index_ok l index → index_ok (l ++ [s]) (indexSlice driverName nodeName index s).
Proof.
  intros Hok pool. destruct (decide (indexed s = true ∧ rs_PoolName s = pool)) as [[Hi <-]|Hno].
  - by destruct (index_pool l s index Hok Hi) as (e & -> & He).
  - rewrite index_other by naive_solver. specialize (Hok pool). destruct (index !! pool) as [e|].
    + destruct Hok as [Hok Hseen]. split; [apply entry_ok_other; [naive_solver|done]|by apply entry_seen_snoc].
    + intros s'. rewrite slice_of_snoc. specialize (Hok s'). intros [?|(_ & ? & ?)]; [done|naive_solver].
Qed.

Lemma indexPools_ok slices : index_ok slices (indexPools slices driverName nodeName).
Proof.
  unfold indexPools. induction slices as [|s l IH] using rev_ind.
  - intros pool. simpl. rewrite lookup_empty. intros s (Hs & _). by apply elem_of_nil in Hs.
  - rewrite foldl_snoc. by apply index_snoc.
Qed.
(** What is built for a result. *)
Definition prepared_for (l : list (ResourceSlice Q)) (r : DeviceRequestAllocationResult Q)
    (d : PrepareDevice Q) : Prop :=
  ∃ gen dev, offered l (rr_Pool r) gen (rr_Device r) dev ∧
    (∀ s, slice_of l (rr_Pool r) s → rs_PoolGeneration s ≤ gen) ∧
    d = mkPrepareDevice (rr_Request r) (rr_Driver r) (rr_Pool r) (rr_Device r) (shareID (rr_ShareID r))
          (rr_ConsumedCapacity r) (attributesFromDevice dev) None.

Lemma prepareDevice_ok l r d :
  prepareDevice (indexPools l driverName nodeName) r = Ok d → prepared_for l r d.
Proof.
  unfold prepareDevice. pose proof (indexPools_ok l (rr_Pool r)) as Hok.
  destruct (_ !! rr_Pool r) as [e|]; [|done]. destruct (pi_devices e !! rr_Device r) as [dev|] eqn:Hd; [|done].
  intros [= <-]. destruct Hok as [Hok _]. exists (pi_generation e), dev.
  split; [by apply (eo_some _ _ _ Hok)|]. split; [apply (eo_max _ _ _ Hok)|done].
Qed.

(** A device of the newest generation is found. *)
Lemma prepareDevice_total l r gen dev :
  offered l (rr_Pool r) gen (rr_Device r) dev →
  (∀ s, slice_of l (rr_Pool r) s → rs_PoolGeneration s ≤ gen) →
  ∃ d, prepareDevice (indexPools l driverName nodeName) r = Ok d.
Proof.
  intros Ho Hmax. unfold prepareDevice. pose proof (indexPools_ok l (rr_Pool r)) as Hok.
  destruct (_ !! rr_Pool r) as [e|]; [|destruct Ho as (s & Hs & _); by destruct (Hok s)].
  destruct (pi_devices e !! rr_Device r) as [dev'|] eqn:Hd; [by eexists|exfalso].
  destruct Hok as [[Hmax' Hsome Hnone] (s0 & Hs0 & Hg0)]. pose proof Ho as (s & Hs & Hg & Hin & Hn).
  apply (Hnone _ dev Hd). exists s. split; [done|]. split; [|done].
  pose proof (Hmax' s Hs). pose proof (Hmax s0 Hs0). lia.
Qed.
End Index.

(** ** From the allocation to the request *)

(** The slices the API server lists for a field selector: a field the selector
    names has the value it gives. *)
Definition listed {Q} (selector : gmap string string) (slices : list (ResourceSlice Q))
    : list (ResourceSlice Q) :=
  filter (λ s, default (rs_Driver s) (selector !! "spec.driver") = rs_Driver s ∧
               default (default "" (rs_NodeName s)) (selector !! "spec.nodeName") = default "" (rs_NodeName s))
    slices.

Section Link.
Context {Q : Type} `{Quantity Q, QuantityAdd Q, !QuantityLaws Q, !QuantityAddLaws Q} `{GoSort}.
Context `{CelCompiler Q}.
Context (slices : list (ResourceSlice Q)).

(** Slices as the publishing helper makes them: of one node, and counted. *)
Definition node_slices : Prop :=
  ∀ s, s ∈ slices → 1 ≤ rs_PoolResourceSliceCount s ∧ ∃ n, rs_NodeName s = Some n ∧ n ≠ "".

Hypothesis Hslices : node_slices.
Hypothesis Hok : slices_ok slices.
Context (node : string).
Hypothesis Hnode : node ≠ "".

Abbreviation nodeList := (listed (resourceSliceListOptions DefaultDriverName node) slices).
Abbreviation candidates := (BuildCandidates DefaultDriverName slices).

Lemma elem_of_nodeList s :
  s ∈ nodeList ↔ s ∈ slices ∧ rs_Driver s = DefaultDriverName ∧ rs_NodeName s = Some node.
Proof.
  unfold listed, resourceSliceListOptions. rewrite (proj2 (str_eqb_false node "")) by done.
  simpl. rewrite list_elem_of_filter, lookup_insert_eq, lookup_insert_ne, lookup_singleton_eq by done.
  split; [|intros (? & ? & ->); done]. intros [[Hd Hn] Hs]. split_and!; [done|done|].
  destruct (Hslices s Hs) as (_ & n & Hsn & _). rewrite Hsn in *. by f_equal.
Qed.

Lemma slice_of_nodeList pool s :
  slice_of DefaultDriverName node nodeList pool s ↔
  s ∈ slices ∧ eligibleSlice DefaultDriverName s ∧ rs_NodeName s = Some node ∧ rs_PoolName s = pool.
Proof.
  unfold slice_of, eligibleSlice, indexedSlice. rewrite elem_of_nodeList. split.
  - intros ((Hs & Hd & Hn) & Hi & Hp). split_and!; try done; [|by apply Hslices].
    intros Hp0. rewrite Hp0 in Hi. simpl in Hi. by rewrite andb_false_r in Hi.
  - intros (Hs & (Hd & Hp & _) & Hn & Heq). split_and!; try done. rewrite Hd, Hn.
    rewrite (proj2 (str_eqb_true DefaultDriverName DefaultDriverName)) by done.
    rewrite (proj2 (str_eqb_true node node)) by done. rewrite (proj2 (str_eqb_false (rs_PoolName s) "")) by done.
    simpl. by rewrite andb_false_r.
Qed.

(** A candidate of the node, and the slice it comes from. *)
Lemma candidate_offered c : c ∈ candidates → cd_NodeName c = node →
  ∃ gen dev, offered DefaultDriverName node nodeList (cd_Pool c) gen (spec_Name (cd_Spec c)) dev ∧
    ∀ s, slice_of DefaultDriverName node nodeList (cd_Pool c) s → rs_PoolGeneration s ≤ gen.
Proof.
  rewrite elem_of_BuildCandidates. intros (s & dev & Hs & Hpub & Hdev & Hc) Hcn.
  destruct (Hslices s Hs) as (_ & n & Hsn & Hn0).
  unfold candidateOf, deviceNodeName, sliceNodeName in Hc. rewrite Hsn in Hc.
  rewrite (proj2 (str_eqb_false n "")) in Hc by done. injection Hc as <-. simpl in *. subst n.
  destruct Hpub as (Hel & _ & Hmax & _). exists (rs_PoolGeneration s), dev. split.
  - exists s. rewrite slice_of_nodeList. done.
  - intros s'. rewrite slice_of_nodeList. intros (Hs' & Hel' & _ & Hp).
    rewrite Forall_forall in Hmax. by apply Hmax.
Qed.

(** What the driver finds under the name of a candidate has its attributes. *)
Lemma candidate_attributes c gen dev : c ∈ candidates → cd_NodeName c = node →
  offered DefaultDriverName node nodeList (cd_Pool c) gen (spec_Name (cd_Spec c)) dev →
  (∀ s, slice_of DefaultDriverName node nodeList (cd_Pool c) s → rs_PoolGeneration s ≤ gen) →
  attributesFromDevice dev = spec_Attributes (cd_Spec c).
Proof.
  intros Hcin Hcn (s' & Hs' & Hg & Hdev & Hname) Hmax. apply slice_of_nodeList in Hs' as Hs''.
  destruct Hs'' as (Hin' & Hel' & Hn' & Hp').
  pose proof Hcin as Hc. rewrite elem_of_BuildCandidates in Hc. destruct Hc as (s & dev0 & Hs & Hpub & Hdev0 & Hc).
  destruct (Hslices s Hs) as (_ & n & Hsn & Hn0).
  unfold candidateOf, deviceNodeName, sliceNodeName in Hc. rewrite Hsn in Hc.
  rewrite (proj2 (str_eqb_false n "")) in Hc by done. injection Hc as <-. simpl in *. subst n.
  pose proof Hpub as (Hel & Hge & Hall & Hcomp). rewrite Forall_forall in Hall.
  assert (rs_PoolGeneration s' = rs_PoolGeneration s) as Hgen.
  { pose proof (Hall s' Hin' Hel' Hp'). pose proof (Hmax s (proj2 (slice_of_nodeList _ s) (conj Hs (conj Hel (conj Hsn eq_refl))))). lia. }
  assert (candidateOf s' dev = Some (mkCandidate (mkDeviceKey (rs_Driver s') (rs_PoolName s') (api_Name dev))
    (rs_Driver s') (rs_PoolName s') node (toDeviceSpec dev))) as Hc'.
  { unfold candidateOf, deviceNodeName, sliceNodeName. by rewrite Hn', (proj2 (str_eqb_false node "")). }
  assert (mkCandidate (mkDeviceKey (rs_Driver s') (rs_PoolName s') (api_Name dev))
    (rs_Driver s') (rs_PoolName s') node (toDeviceSpec dev) ∈ candidates) as Hin2.
  { rewrite elem_of_BuildCandidates. exists s', dev. split_and!; try done.
    unfold publishedSlice. rewrite Hgen, Hp'. split_and!; try done. apply Forall_forall. naive_solver. }
  assert (rs_Driver s' = rs_Driver s) as Hdrv by (destruct Hel, Hel'; congruence).
  pose proof (candidate_key _ _ Hok _ _ Hin2 Hcin) as Heq. simpl in Heq.
  rewrite Hdrv, Hp', Hname in Heq. specialize (Heq eq_refl).
  exact (f_equal (λ c, spec_Attributes (cd_Spec c)) Heq).
Qed.

(** The device of the request for the candidate [c]. *)
Definition request_device (r : DeviceRequestAllocationResult Q) (c : CandidateDevice) : PrepareDevice Q :=
  mkPrepareDevice (rr_Request r) (rr_Driver r) (rr_Pool r) (rr_Device r) (shareID (rr_ShareID r))
    (rr_ConsumedCapacity r) (spec_Attributes (cd_Spec c)) None.

Definition result_of (c : CandidateDevice) (r : DeviceRequestAllocationResult Q) : Prop :=
  c ∈ candidates ∧ cd_NodeName c = node ∧ rr_Driver r = cd_Driver c ∧ rr_Pool r = cd_Pool c ∧
  rr_Device r = spec_Name (cd_Spec c).

Lemma prepareDevice_result c r : result_of c r →
  prepareDevice (indexPools nodeList DefaultDriverName node) r = Ok (request_device r c).
Proof.
  intros (Hc & Hn & Hdrv & Hp & Hd). destruct (candidate_offered c Hc Hn) as (gen & dev & Ho & Hmax).
  rewrite <- Hp, <- Hd in Ho. rewrite <- Hp in Hmax.
  destruct (prepareDevice_total _ _ _ r gen dev Ho Hmax) as [d Hr]. rewrite Hr. f_equal.
  destruct (prepareDevice_ok _ _ _ r d Hr) as (gen' & dev' & Ho' & Hmax' & ->). unfold request_device. f_equal.
  rewrite Hp, Hd in *. by eapply candidate_attributes.
Qed.

Lemma prepareDevices_results cs rs : Forall2 result_of cs rs →
  prepareDevices (indexPools nodeList DefaultDriverName node) rs = Ok (zip_with request_device rs cs).
Proof.
  induction 1 as [|c r cs rs Hr _ IH]; simpl; [done|]. rewrite (prepareDevice_result c r Hr). simpl. by rewrite IH.
Qed.

Lemma results_filter cs rs : Forall2 result_of cs rs → filterResults rs DefaultDriverName = rs.
Proof.
  unfold filterResults. simpl. induction 1 as [|c r cs rs Hr _ IH]; [done|]. rewrite filter_cons, IH.
  rewrite decide_True; [done|]. destruct Hr as (Hc & _ & -> & _).
  rewrite elem_of_BuildCandidates in Hc. destruct Hc as (s & dev & _ & [[Hd _] _] & _ & Hc).
  unfold candidateOf in Hc. by destruct (deviceNodeName s dev); simplify_eq/=.
Qed.
End Link.

Section Allocated.
Context {Q : Type} `{Quantity Q, QuantityAdd Q, !QuantityLaws Q, !QuantityAddLaws Q} `{GoSort}.
Context `{CelCompiler Q} (env : Env Q) (setup : Setup).

(** Requests of at least one device get at least one. *)
Lemma picks_nonempty devices requests allocated sets (picks : list (pick (Q:=Q))) :
  valid_allocation devices requests allocated sets picks →
  Forall (λ r, 1 ≤ req_Count r ∧ requirements_ok (req_Capacity r)) requests → requests ≠ [] → picks ≠ [].
Proof.
  intros Hva Hall Hne ->. destruct (va_counts _ _ _ _ _ Hva) as (segs & Hp & Hf).
  destruct requests as [|r rest]; [done|]. inversion Hf as [|? seg ? segs' [Hl _] _]; subst.
  apply Forall_cons_1 in Hall as [[Hc _] _]. destruct seg; simpl in *; [lia|done].
Qed.

(** C16: the driver can prepare what the controller allocated.  For a claim
    with the allocation the controller computed, the driver of the selected
    node, reading the slices of its node, builds a request that names exactly
    the allocated devices, in order, with the attributes the controller
    matched its selectors against. *)
Theorem allocated_request (objects : Objects Q) claim alloc obj :
  (∀ m, env_allocatedOrder env m ≡ₚ (map_to_list m).*1) →
  slices_ok (ob_slices objects) → node_slices (ob_slices objects) → cluster_ok objects →
  claim ∈ ob_claims objects → computed env (su_options setup) objects claim alloc →
  co_UID obj ≠ "" → claim_Allocation (co_Claim obj) = Some alloc →
  ∃ node cs, node ≠ "" ∧ aar_NodeSelector alloc = nodeSelectorForNode node ∧
    Forall2 (result_of (ob_slices objects) node) cs (aar_Results alloc) ∧
    BuildPrepareRequest obj DefaultDriverName node
      (listed (resourceSliceListOptions DefaultDriverName node) (ob_slices objects))
    = Ok (mkPrepareRequest (co_UID obj) node false (zip_with request_device (aar_Results alloc) cs)).
Proof.
  intros Horder Hok Hsl Hck Hin [_ (classes & requests & result & _ & Hb & Hall & Hres)] Huid Halloc.
  pose proof (ck_requests _ Hck _ Hin) as Hr. pose proof (requests_ok _ _ _ Hr Hb) as Hreqs.
  pose proof (allocator_input_ok objects claim classes requests Hok Hck Hr Hb) as Hiok.
  assert (requests ≠ []) as Hne by (intros ->; done).
  apply Allocate_valid_run in Hall as (devices & picks & Hnode & Hdev & Hdevs & _ & Hva);
    [|done|intros; apply Horder]. cbn [in_Candidates in_Requests] in *.
  exists (ar_NodeName result), (pk_dev <$> picks).
  pose proof Hres as Hres'. apply allocation_results in Hres'. rewrite Hdevs in Hres'.
  assert (Forall2 (result_of (ob_slices objects) (ar_NodeName result)) (pk_dev <$> picks) (aar_Results alloc))
    as Hf.
  { rewrite Hres'. apply Forall2_same_length_lookup_2.
    { by rewrite length_imap, !length_fmap. }
    intros i c r. rewrite list_lookup_fmap, list_lookup_imap, list_lookup_fmap.
    destruct (picks !! i) as [p|] eqn:Hi; simpl; [|done]. intros [= <-] [= <-].
    apply list_elem_of_lookup_2 in Hi. destruct (va_match _ _ _ _ _ Hva p Hi) as [Hd _].
    rewrite Hdev in Hd. by apply list_elem_of_filter in Hd as []. }
  split; [done|]. split; [|split; [done|]].
  { unfold BuildAllocationResultWithOptions in Hres.
    destruct (buildAllocationConfig (Some claim) classes); [|done]. by injection Hres as <-. }
  assert (aar_Results alloc ≠ []) as Hnil.
  { intros Hnil. rewrite Hnil in Hf. apply Forall2_length in Hf. rewrite length_fmap in Hf. simpl in Hf.
    apply nil_length_inv in Hf. by apply (picks_nonempty _ _ _ _ _ Hva Hreqs). }
  unfold BuildPrepareRequest. rewrite (proj2 (str_eqb_false _ "")), Halloc by done.
  rewrite (results_filter (ob_slices objects) (ar_NodeName result) Hnode _ _ Hf).
  destruct (aar_Results alloc) as [|r rs] eqn:Hrs; [done|]. cbn [list_len0].
  by rewrite (prepareDevices_results _ Hsl Hok _ Hnode (pk_dev <$> picks)).
Qed.
End Allocated.

(** ** The configuration of the devices *)

Section Configs.
Context {Q : Type} `{Quantity Q} `{ConfigDecoder Q}.

Definition isClass (cfg : DeviceAllocationConfiguration) : bool :=
  match dac_Source cfg with AllocationConfigSourceClass => true | _ => false end.
Definition isClaim (cfg : DeviceAllocationConfiguration) : bool :=
  match dac_Source cfg with AllocationConfigSourceClaim => true | _ => false end.

(** The configurations of the driver, those of classes before those of the
    claim. *)
Definition ownConfigs (driverName : string) (configs : list DeviceAllocationConfiguration)
    : list DeviceAllocationConfiguration :=
  filter (λ cfg, od_Driver <$> dc_Opaque (dac_Configuration cfg) = Some driverName)
    (filter (λ cfg, isClass cfg = true) configs ++ filter (λ cfg, isClaim cfg = true) configs).

Definition decoded_from (raw : DeviceAllocationConfiguration) (cfg : OpaqueDeviceConfig (Q:=Q)) : Prop :=
  odc_Requests cfg = dac_Requests raw ∧
  ∃ o obj, dc_Opaque (dac_Configuration raw) = Some o ∧ StrictDecode (od_Parameters o) = Ok obj ∧
    validatedConfig obj = Ok (odc_Config cfg).

Lemma splitConfigs_ok configs cs ls : splitConfigs configs = Ok (cs, ls) →
  cs = filter (λ cfg, isClass cfg = true) configs ∧ ls = filter (λ cfg, isClaim cfg = true) configs.
Proof.
  revert cs ls. induction configs as [|cfg rest IH]; intros cs ls; simpl; [by intros [= <- <-]|].
  rewrite !filter_cons.
  destruct (dac_Source cfg) eqn:Hs; [..|done];
    (destruct (splitConfigs rest) as [[cs' ls']|]; [|done]); simpl; intros [= <- <-];
    destruct (IH cs' ls') as [-> ->]; try done; unfold isClass, isClaim;
    repeat case_decide; by rewrite Hs in *.
Qed.

Lemma decodeLoop_ok driverName candidates result : decodeLoop driverName candidates = Ok result →
  Forall2 decoded_from
    (filter (λ cfg, od_Driver <$> dc_Opaque (dac_Configuration cfg) = Some driverName) candidates) result.
Proof.
  revert result. induction candidates as [|cfg rest IH]; intros result; simpl; [intros [= <-]; constructor|].
  rewrite filter_cons. destruct (dc_Opaque (dac_Configuration cfg)) as [o|] eqn:Ho; [|done]. simpl.
  destruct (str_eqb (od_Driver o) driverName) eqn:Hd; simpl; go_bool.
  - rewrite decide_True by congruence. destruct (StrictDecode _) as [obj|] eqn:Hs; [|done].
    destruct (validatedConfig obj) as [c|] eqn:Hv; [|done]. simpl.
    destruct (decodeLoop driverName rest) as [l|]; [|done]. intros [= <-]. constructor; [|by apply IH].
    split; [done|]. by exists o, obj.
  - rewrite decide_False by congruence. apply IH.
Qed.

Lemma decodeDeviceConfigs_ok driverName configs result : decodeDeviceConfigs configs driverName = Ok result →
  Forall2 decoded_from (ownConfigs driverName configs) result.
Proof.
  unfold decodeDeviceConfigs. destruct (splitConfigs configs) as [[cs ls]|] eqn:Hs; [|done]. simpl.
  destruct (splitConfigs_ok _ _ _ Hs) as [-> ->]. apply decodeLoop_ok.
Qed.

(** The configurations meant for a device. *)
Definition applicable (configs : list (OpaqueDeviceConfig (Q:=Q))) (dev : PrepareDevice Q)
    : list (OpaqueDeviceConfig (Q:=Q)) :=
  filter (λ cfg, isVfioConfig (odc_Config cfg) = false ∧
                 configAppliesToRequest (odc_Requests cfg) (pd_Request dev) = true) configs.

Definition typeOf (dev : PrepareDevice Q) : string := AttrString (pd_Attributes dev) AttrDeviceType.

(** The last of them, or the default of the type of the device. *)
Definition chosenConfig (configs : list (OpaqueDeviceConfig (Q:=Q))) (dev : PrepareDevice Q) : option (Config Q) :=
  match last (applicable configs dev) with
  | Some cfg => Some (odc_Config cfg)
  | None => defaultConfigForDevice (typeOf dev)
  end.

Definition configs_match (configs : list (OpaqueDeviceConfig (Q:=Q))) (dev : PrepareDevice Q) : Prop :=
  Forall (λ cfg, configMatchesDeviceType (odc_Config cfg) (typeOf dev) = true) (applicable configs dev).

Lemma selectConfig_spec dev configs selected c :
  selectConfig (pd_Device dev) (pd_Request dev) (typeOf dev) configs selected = Ok c ↔
  configs_match configs dev ∧
  c = match last (applicable configs dev) with Some cfg => Some (odc_Config cfg) | None => selected end.
Proof.
  unfold configs_match, applicable. revert selected.
  induction configs as [|cfg rest IH]; intros selected; simpl; [naive_solver|].
  rewrite filter_cons. case_decide as Hd.
  2: { replace (_ || _) with true; [apply IH|]. symmetry. apply not_false_iff_true.
       intros [? ?%negb_false_iff]%orb_false_iff. by apply Hd. }
  destruct Hd as [Hv Ha]. rewrite Hv, Ha. simpl. rewrite Forall_cons.
  destruct (configMatchesDeviceType _ _) eqn:Hm; simpl; [|split; [done|naive_solver]].
  rewrite IH. rewrite last_cons. destruct (last (filter _ rest)); naive_solver.
Qed.

Lemma applyToDevices_spec configs devs devs' :
  applyToDevices configs devs = Ok devs' ↔
  Forall (configs_match configs) devs ∧ devs' = (λ dev, setConfig dev (chosenConfig configs dev)) <$> devs.
Proof.
  revert devs'. induction devs as [|dev devs IH]; intros devs'; simpl; [naive_solver|].
  rewrite Forall_cons. unfold applyToDevice. fold (typeOf dev).
  destruct (selectConfig _ _ _ configs _) as [c|] eqn:Hc; simpl.
  - apply selectConfig_spec in Hc as [Hm ->]. fold (chosenConfig configs dev).
    destruct (applyToDevices configs devs) as [l|]; simpl; split.
    + intros [= <-]. destruct (IH l) as [[Hf ->] _]; done.
    + intros [[_ Hf] ->]. destruct (IH ((λ dev, setConfig dev (chosenConfig configs dev)) <$> devs)) as [_ Hi].
      specialize (Hi (conj Hf eq_refl)). by injection Hi as ->.
    + done.
    + intros [[_ Hf] ->]. destruct (IH ((λ dev, setConfig dev (chosenConfig configs dev)) <$> devs)) as [_ Hi].
      by specialize (Hi (conj Hf eq_refl)).
  - split; [done|]. intros [[Hm _] _].
    by rewrite (proj2 (selectConfig_spec dev configs _ _) (conj Hm eq_refl)) in Hc.
Qed.

(** Normalised and valid. *)
Definition config_ready (c : Config Q) : Prop :=
  match c with
  | GpuConf c => GpuConfig_Normalize c = c ∧ GpuConfig_Validate c = Ok ()
  | MigConf c => MigDeviceConfig_Normalize c = c ∧ MigDeviceConfig_Validate c = Ok ()
  | VfioConf c => VfioDeviceConfig_Normalize c = c
  | OtherConfig => False
  end.

Lemma validatedConfig_ready obj c : validatedConfig obj = Ok c → config_ready c.
Proof.
  destruct obj as [g|m|v|k]; simpl; unfold checkedConfig; [..|done].
  - destruct (GpuConfig_Validate _) as [[]|] eqn:Hv; [|done]. intros [= <-].
    split; [apply GpuConfig_Normalize_idemp|done].
  - destruct (MigDeviceConfig_Validate _) as [[]|] eqn:Hv; [|done]. intros [= <-].
    split; [apply MigDeviceConfig_Normalize_idemp|done].
  - intros [= <-]. apply VfioDeviceConfig_Normalize_idemp.
Qed.

Lemma default_ready t c : defaultConfigForDevice t = Some c →
  config_ready c ∧ configMatchesDeviceType c t = true.
Proof.
  unfold defaultConfigForDevice. destruct (IsPhysicalDevice t) eqn:Hp; [by intros [= <-]|].
  destruct (IsMigDevice t) eqn:Hm; [by intros [= <-]|done].
Qed.

Lemma chosen_ready configs dev c : Forall (λ cfg, config_ready (odc_Config cfg)) configs →
  configs_match configs dev → chosenConfig configs dev = Some c →
  config_ready c ∧ configMatchesDeviceType c (typeOf dev) = true.
Proof.
  unfold chosenConfig, configs_match. rewrite !Forall_forall. intros Hr Hm.
  destruct (last (applicable configs dev)) as [cfg|] eqn:Hl; [|apply default_ready].
  apply last_Some_elem_of in Hl. intros [= <-]. split; [|by apply Hm].
  apply list_elem_of_filter in Hl as [_ Hl]. by apply Hr.
Qed.

(** A VFIO configuration applies to an allocated request. *)
Definition vfio_applies (driverName : string) (alloc : ApiAllocationResult Q)
    (configs : list (OpaqueDeviceConfig (Q:=Q))) : Prop :=
  ∃ cfg r, cfg ∈ configs ∧ isVfioConfig (odc_Config cfg) = true ∧
    r ∈ aar_Results alloc ∧ rr_Driver r = driverName ∧
    (odc_Requests cfg = [] ∨ configAppliesToRequest (odc_Requests cfg) (rr_Request r) = true).

Lemma configApplies_spec names requests : requests ≠ [] →
  configApplies names requests = true ↔
  ∃ request, request ∈ requests ∧ (names = [] ∨ configAppliesToRequest names request = true).
Proof.
  intros Hne. unfold configApplies. destruct (list_len0 names) eqn:Hl; go_bool.
  - split; [|done]. intros _. destruct requests as [|request rest]; [done|]. exists request. split; [left|by left].
  - rewrite existsb_exists. setoid_rewrite <- list_elem_of_In.
    split; intros (request & Hin & Ha); exists request; [auto|]. split; [done|].
    destruct Ha as [->|Ha]; [exfalso; simpl in Hl; congruence|done].
Qed.

Lemma vfioRequested_spec claim driverName alloc configs :
  claim_Allocation (co_Claim claim) = Some alloc → decodeDeviceConfigs (aar_Config alloc) driverName = Ok configs →
  ∃ b, vfioRequestedFromConfig claim driverName = Ok b ∧ (b = true ↔ vfio_applies driverName alloc configs).
Proof.
  intros Ha Hdec. unfold vfioRequestedFromConfig. rewrite Ha, Hdec. set (requests := rr_Request <$> _).
  assert (∀ request, request ∈ requests ↔
    ∃ r, r ∈ aar_Results alloc ∧ rr_Driver r = driverName ∧ rr_Request r = request) as Hin.
  { intros request. subst requests. rewrite list_elem_of_fmap. setoid_rewrite list_elem_of_filter. naive_solver. }
  destruct (list_len0 requests) eqn:Hl; go_bool; eexists; (split; [done|]).
  - split; [done|]. intros (cfg & r & _ & _ & Hr & Hd & _).
    assert (rr_Request r ∈ requests) as Hreq by (apply Hin; eauto). rewrite Hl in Hreq. by apply elem_of_nil in Hreq.
  - rewrite existsb_exists. setoid_rewrite <- list_elem_of_In. setoid_rewrite andb_true_iff.
    setoid_rewrite configApplies_spec; [|intros Hn; by rewrite Hn in Hl]. setoid_rewrite Hin. unfold vfio_applies. naive_solver.
Qed.

Context `{KubeletLibrary} `{ApiErrors}.

(** Each device of a request gets the last of the configurations that
    apply to its request, those of the claim taking precedence over those of
    device classes, or the default of its type; the configuration is
    normalised, valid and of the kind of the device.  The request is for VFIO
    exactly when an annotation asks for it or a VFIO configuration applies to
    an allocated request. *)
Theorem claimRequest_configs (d : DriverState) claim slices req :
  claimRequest d claim slices = Ok req →
  ∃ alloc req0 configs,
    claim_Allocation (co_Claim claim) = Some alloc ∧
    BuildPrepareRequest claim (drv_driverName d) (drv_nodeName d) slices = Ok req0 ∧
    Forall2 decoded_from (ownConfigs (drv_driverName d) (aar_Config alloc)) configs ∧
    pr_Devices req = (λ dev, setConfig dev (chosenConfig configs dev)) <$> pr_Devices req0 ∧
    (∀ dev c, dev ∈ pr_Devices req → pd_Config dev = Some c →
       config_ready c ∧ configMatchesDeviceType c (typeOf dev) = true) ∧
    (pr_VFIO req = true ↔
       VFIORequested (co_Annotations claim) = true ∨ vfio_applies (drv_driverName d) alloc configs).
Proof.
  unfold claimRequest. destruct (BuildPrepareRequest _ _ _ _) as [req0|] eqn:Hb; [|done]. simpl.
  destruct (vfioRequestedFromConfig _ _) as [v|] eqn:Hv; [|done]. simpl.
  destruct (claim_Allocation (co_Claim claim)) as [alloc|] eqn:Ha; [|done].
  destruct (decodeDeviceConfigs _ _) as [configs|] eqn:Hdec; [|done]. simpl.
  destruct (vfioRequested_spec _ _ _ _ Ha Hdec) as (b & Hb' & Hiff). rewrite Hv in Hb'. injection Hb' as <-.
  unfold applyDeviceConfigs. simpl. destruct (applyToDevices _ _) as [devs|] eqn:Happ; [|done].
  simpl. intros [= <-]. apply applyToDevices_spec in Happ as [Hm ->].
  pose proof (decodeDeviceConfigs_ok _ _ _ Hdec) as Hd.
  exists alloc, req0, configs. do 4 (split; [done|]). simpl. split; [|by rewrite orb_true_iff, Hiff].
  assert (Forall (λ cfg, config_ready (odc_Config cfg)) configs) as Hready.
  { apply Forall_forall. intros cfg Hin. apply list_elem_of_lookup in Hin as [i Hi].
    destruct (Forall2_lookup_r _ _ _ _ _ Hd Hi) as (raw & _ & _ & o & obj & _ & _ & Hval).
    by eapply validatedConfig_ready. }
  intros dev c (dev0 & -> & Hdev)%list_elem_of_fmap Hc. rewrite Forall_forall in Hm.
  by apply (chosen_ready configs dev0 c Hready (Hm dev0 Hdev)).
Qed.
End Configs.
