(* ===== verification/Webhook.v ===== *)
(** * The admission webhook: pkg/controller/dra/webhook

    Claims and claim templates are checked when they are created or updated:
    the opaque parameters meant for the driver must decode, normalise and
    validate.  The theorem relates the check to the driver: of the claims whose
    configurations are all opaque, the webhook admits exactly those the driver
    will be able to decode when it prepares them. *)

From S2P Require Import Prelude GoLib DeviceModel K8sApi K8sAllocator ConfigApi Driver DriverSpec.

(** ** resources.go *)

Record GroupVersionResource := mkGVR { gvr_Group : string; gvr_Version : string; gvr_Resource : string }.
#[export] Instance GroupVersionResource_eq_dec : EqDecision GroupVersionResource.
Proof. solve_decision. Defined.

(** A value of the type printed with %s: its String method has a pointer receiver. *)
Definition gvr_Text (r : GroupVersionResource) : string :=
  "{" +:+ gvr_Group r +:+ " " +:+ gvr_Version r +:+ " " +:+ gvr_Resource r +:+ "}".

Definition claimVersions : list GroupVersionResource :=
  (λ v, mkGVR "resource.k8s.io" v "resourceclaims") <$> ["v1"; "v1beta1"; "v1beta2"].
Definition templateVersions : list GroupVersionResource :=
  (λ v, mkGVR "resource.k8s.io" v "resourceclaimtemplates") <$> ["v1"; "v1beta1"; "v1beta2"].

(** A template of claims, with the one field the webhook reads. *)
Record ResourceClaimTemplate := mkClaimTemplate { rct_Config : list DeviceClaimConfiguration }.

(** The universal deserializer of the scheme, decoding into the type of a
    resource, and the conversion of an object to v1. *)
Class ClaimCodec (Q : Type) := {
  VersionedObject : Type;
  codec_Decode : GroupVersionResource → string → res VersionedObject;
  convert_Claim : VersionedObject → res (ResourceClaim Q);
  convert_Template : VersionedObject → res ResourceClaimTemplate;
  error_Text : error → string;
}.

Record AdmissionRequest := mkAdmissionRequest {
  adm_Operation : string;
  adm_Resource : GroupVersionResource;
  adm_Raw : string;
}.

Inductive AdmissionResponse :=
| Allowed (reason : string)
| Denied (reason : string)
| Errored (code : Z) (e : error).

Section Webhook.
Context {Q : Type} `{Quantity Q} `{ConfigDecoder Q} `{ClaimCodec Q}.

(** The common part of the two extractors. *)
Definition decodeAs {A} (versions : list GroupVersionResource) (convert : VersionedObject → res A) (req : AdmissionRequest)
    : res A :=
  if str_eqb (adm_Raw req) "" then Err (Errorf "request object is empty" []) else
  if negb (bool_decide (adm_Resource req ∈ versions))
  then Err (Errorf "unsupported resource version: %s" [gvr_Text (adm_Resource req)]) else
  obj ← codec_Decode (adm_Resource req) (adm_Raw req);
  match convert obj with
  | Err e => Err (Wrapf "failed to convert to v1: %w" [] e)
  | Ok a => Ok a
  end.

Definition extractResourceClaim (req : AdmissionRequest) : res (ResourceClaim Q) := decodeAs claimVersions convert_Claim req.
Definition extractResourceClaimTemplate (req : AdmissionRequest) : res ResourceClaimTemplate :=
  decodeAs templateVersions convert_Template req.

(** ** validation.go *)

Definition fieldPath (specPath : string) (idx : nat) : string :=
  specPath +:+ ".devices.config[" +:+ Itoa (Z.of_nat idx) +:+ "].opaque.parameters".

(** [Normalize] of the three kinds does not fail. *)
Definition validateDecoded (path : string) (decoded : DecodedObject Q) : option error :=
  let invalid (r : res ()) : option error :=
    match r with Err e => Some (Wrapf "object at %s is invalid: %w" [path] e) | Ok _ => None end in
  match decoded with
  | DecodedGpu c => invalid (GpuConfig_Validate (GpuConfig_Normalize c))
  | DecodedMig c => invalid (MigDeviceConfig_Validate (MigDeviceConfig_Normalize c))
  | DecodedVfio c => invalid (VfioDeviceConfig_Validate (VfioDeviceConfig_Normalize c))
  | DecodedOther kind =>
      Some (Errorf "expected a recognized configuration type at %s but got: %T" [path; kind])
  end.

Definition validateDeviceConfig (specPath driverName : string) (idx : nat) (cfg : DeviceClaimConfiguration) : option error :=
  match dc_Opaque (dcl_Configuration cfg) with
  | None => None
  | Some opaque =>
      if negb (str_eqb (od_Driver opaque) driverName) then None else
      let path := fieldPath specPath idx in
      match StrictDecode (od_Parameters opaque) with
      | Err e => Some (Wrapf "error decoding object at %s: %w" [path] e)
      | Ok decoded => validateDecoded path decoded
      end
  end.

Fixpoint validateFrom (idx : nat) (configs : list DeviceClaimConfiguration) (specPath driverName : string) : list error :=
  match configs with
  | [] => []
  | cfg :: rest =>
      option_list (validateDeviceConfig specPath driverName idx cfg) ++ validateFrom (S idx) rest specPath driverName
  end.
Definition validateDeviceConfigs (configs : list DeviceClaimConfiguration) (specPath driverName : string) : list error :=
  validateFrom 0 configs specPath driverName.

(** ** handler.go *)

Definition StatusBadRequest : Z := 400.

(** The configurations of the object and the path of its spec. *)
Definition requestConfigs (req : AdmissionRequest) : res (list DeviceClaimConfiguration * string) :=
  if bool_decide (adm_Resource req ∈ claimVersions) then
    claim ← extractResourceClaim req; Ok (claim_Config claim, "spec")
  else if bool_decide (adm_Resource req ∈ templateVersions) then
    template ← extractResourceClaimTemplate req; Ok (rct_Config template, "spec.spec")
  else Err (Errorf "unsupported resource: %s" [gvr_Text (adm_Resource req)]).

Definition ParametersHandle (driverName : string) (req : AdmissionRequest) : AdmissionResponse :=
  if negb (str_eqb (adm_Operation req) "CREATE") && negb (str_eqb (adm_Operation req) "UPDATE")
  then Allowed "operation ignored" else
  match requestConfigs req with
  | Err e => Errored StatusBadRequest e
  | Ok (configs, specPath) =>
      if list_len0 configs then Allowed "no device configurations" else
      let errs := validateDeviceConfigs configs specPath driverName in
      if list_len0 errs then Allowed "device configurations are valid" else
      Denied (Itoa (Z.of_nat (length errs)) +:+ " configs failed to validate: " +:+ Join (error_Text <$> errs) "; ")
  end.

(** ** The webhook and the driver *)

Definition isAllowed (r : AdmissionResponse) : bool := match r with Allowed _ => true | _ => false end.

(** A configuration the driver can decode. *)
Definition decodable (driverName : string) (c : DeviceConfiguration) : Prop :=
  match dc_Opaque c with
  | None => False
  | Some o => od_Driver o = driverName → ∃ obj cfg, StrictDecode (od_Parameters o) = Ok obj ∧ validatedConfig obj = Ok cfg
  end.

Lemma validateDecoded_none path obj : validateDecoded path obj = None ↔ ∃ cfg, validatedConfig obj = Ok cfg.
Proof.
  destruct obj as [c|c|c|kind]; cbn [validateDecoded validatedConfig]; unfold checkedConfig.
  - destruct (GpuConfig_Validate _); naive_solver.
  - destruct (MigDeviceConfig_Validate _); naive_solver.
  - destruct (VfioDeviceConfig_Validate _); naive_solver.
  - naive_solver.
Qed.

Lemma validateDeviceConfig_none specPath driverName idx cfg : dc_Opaque (dcl_Configuration cfg) ≠ None →
  validateDeviceConfig specPath driverName idx cfg = None ↔ decodable driverName (dcl_Configuration cfg).
Proof.
  unfold validateDeviceConfig, decodable. destruct (dc_Opaque (dcl_Configuration cfg)) as [o|]; [|done]. intros _.
  destruct (str_eqb (od_Driver o) driverName) eqn:Hd; cbn [negb]; go_bool.
  - destruct (StrictDecode (od_Parameters o)) as [obj|e] eqn:Hs.
    + rewrite validateDecoded_none. split; [intros [c Hc] _; eauto|]. intros Hx. destruct (Hx Hd) as (? & c & [= <-] & Hc). eauto.
    + split; [done|]. intros Hx. by destruct (Hx Hd) as (? & ? & ? & _).
  - split; [intros _ ?; congruence|done].
Qed.

Lemma validateFrom_nil idx configs specPath driverName : Forall (λ c, dc_Opaque (dcl_Configuration c) ≠ None) configs →
  validateFrom idx configs specPath driverName = [] ↔ Forall (decodable driverName ∘ dcl_Configuration) configs.
Proof.
  intros Hop. revert idx. induction Hop as [|cfg rest Hc _ IH]; intros idx; [done|]. cbn [validateFrom].
  rewrite Forall_cons, <- (IH (S idx)). unfold compose at 1. rewrite <- (validateDeviceConfig_none specPath driverName idx) by done.
  destruct (validateDeviceConfig specPath driverName idx cfg); naive_solver.
Qed.

Lemma decodeLoop_Ok driverName candidates : is_Ok (decodeLoop driverName candidates) = true ↔
  Forall (decodable driverName ∘ dac_Configuration) candidates.
Proof.
  induction candidates as [|cfg rest IH]; [done|]. cbn [decodeLoop]. rewrite Forall_cons, <- IH. unfold decodable, compose.
  destruct (dc_Opaque (dac_Configuration cfg)) as [o|]; [|by split; [|intros [[] _]]].
  destruct (str_eqb (od_Driver o) driverName) eqn:Hd; cbn [negb]; go_bool.
  - destruct (StrictDecode (od_Parameters o)) as [obj|e].
    2:{ split; [done|]. intros [Hx _]. by destruct (Hx Hd) as (? & ? & ? & _). }
    destruct (validatedConfig obj) as [c|e] eqn:Hv; cbn [mbind res_bind].
    2:{ split; [done|]. intros [Hx _]. destruct (Hx Hd) as (? & ? & [= <-] & ?). congruence. }
    split; [intros Hr; split; [eauto|]|intros [_ Hr]]; by destruct (decodeLoop driverName rest).
  - split; [intros Hr; split; [intros ?; congruence|done]|by intros [_ Hr]].
Qed.

Definition fromClaim (c : DeviceClaimConfiguration) : DeviceAllocationConfiguration :=
  mkAllocationConfiguration AllocationConfigSourceClaim (dcl_Requests c) (dcl_Configuration c).

(** Every configuration of an allocation comes from the claim or a class. *)
Lemma split_known configs : Forall (λ c, isClass c = true ∨ isClaim c = true) configs →
  is_Ok (splitConfigs configs) = true.
Proof.
  induction 1 as [|cfg rest Hc _ IH]; [done|]. cbn [splitConfigs]. unfold isClass, isClaim in Hc.
  destruct (dac_Source cfg); [..|naive_solver]; by destruct (splitConfigs rest) as [[]|].
Qed.

Lemma decodeDeviceConfigs_iff driverName configs : Forall (λ c, isClass c = true ∨ isClaim c = true) configs →
  is_Ok (decodeDeviceConfigs configs driverName) = true ↔ Forall (decodable driverName ∘ dac_Configuration) configs.
Proof.
  intros Hknown. pose proof (split_known _ Hknown) as Hs. unfold decodeDeviceConfigs.
  destruct (splitConfigs configs) as [[cs ls]|] eqn:Hsplit; [|done]. cbn [mbind res_bind].
  destruct (splitConfigs_ok _ _ _ Hsplit) as [-> ->]. rewrite decodeLoop_Ok, Forall_app, !Forall_forall.
  setoid_rewrite list_elem_of_filter. rewrite Forall_forall in Hknown. naive_solver.
Qed.

Lemma classConfigs_source classes requests configs : classConfigs (Q := Q) classes requests = Ok configs →
  Forall (λ c, isClass c = true) configs.
Proof.
  revert configs. induction requests as [|r rest IH]; intros configs; cbn [classConfigs]; [intros [= <-]; constructor|].
  destruct (dr_Exactly r) as [ex|]; [|apply IH]. destruct (str_eqb _ ""); [apply IH|].
  destruct (classes !! _) as [class|]; [|done]. destruct (classConfigs classes rest) as [rest'|]; [|done].
  intros [= <-]. apply Forall_app. split; [|by apply IH]. apply Forall_fmap, Forall_forall. done.
Qed.

(** C29: for a claim whose configurations are all opaque, what the webhook
    decides when the claim is created or updated is what the driver will decide
    when it is prepared: the configurations the controller puts into the
    allocation, those of the claim and those of its classes, are decoded without
    an error exactly when the webhook allows the claim and the ones of the
    classes can be decoded. *)
Theorem webhook_agrees (driverName : string) (req : AdmissionRequest) (claim : ResourceClaim Q)
    (classes : gmap string DeviceClass) (fromClasses configs : list DeviceAllocationConfiguration) :
  adm_Operation req ∈ ["CREATE"; "UPDATE"] → adm_Resource req ∈ claimVersions → extractResourceClaim req = Ok claim →
  Forall (λ c, dc_Opaque (dcl_Configuration c) ≠ None) (claim_Config claim) →
  claim_Requests claim ≠ [] → classConfigs classes (claim_Requests claim) = Ok fromClasses →
  buildAllocationConfig (Some claim) classes = Ok configs →
  is_Ok (decodeDeviceConfigs configs driverName) = true ↔
  isAllowed (ParametersHandle driverName req) = true ∧ Forall (decodable driverName ∘ dac_Configuration) fromClasses.
Proof.
  intros Hop Hres Hclaim Hopaque Hreqs Hclasses Hbuild. unfold buildAllocationConfig in Hbuild.
  destruct (claim_Requests claim) as [|r rs] eqn:Hr; [done|]. cbn [list_len0] in Hbuild. rewrite Hclasses in Hbuild.
  cbn [mbind res_bind] in Hbuild. injection Hbuild as <-. apply classConfigs_source in Hclasses.
  rewrite decodeDeviceConfigs_iff, Forall_app.
  2:{ apply Forall_app. split; [apply Forall_fmap, Forall_forall; intros; by right|].
      eapply Forall_impl; [exact Hclasses|]. intros; by left. }
  apply and_iff_compat_r. unfold ParametersHandle, requestConfigs.
  assert (negb (str_eqb (adm_Operation req) "CREATE") && negb (str_eqb (adm_Operation req) "UPDATE") = false) as ->.
  { apply elem_of_cons in Hop as [-> | Hop]; [done|]. apply list_elem_of_singleton in Hop as ->. done. }
  rewrite bool_decide_eq_true_2 by done. rewrite Hclaim. cbn [mbind res_bind].
  assert (Forall (decodable driverName ∘ dac_Configuration) (fromClaim <$> claim_Config claim) ↔
    validateDeviceConfigs (claim_Config claim) "spec" driverName = []) as ->.
  { unfold validateDeviceConfigs. rewrite validateFrom_nil by done. by rewrite Forall_fmap. }
  destruct (claim_Config claim) as [|c cs]; [done|]. cbn [list_len0]. by destruct (validateDeviceConfigs _ _ _).
Qed.
End Webhook.
