(* ===== verification/DriverExamples.v ===== *)
(** * Examples: the driver and the admission webhook

    Runs and witnesses on the cluster of [ClusterExamples]. *)

From S2P Require Import Prelude GoLib DeviceModel Accounting Allocator AllocatorSpec K8sApi Render K8sAllocator.
From S2P Require Import K8sAllocatorSpec ConfigApi Effects Prepare PrepareSteps Reconciler DraController.
From S2P Require Import ClusterSafety ClusterExamples Driver DriverSpec Webhook.

(** * The driver on a concrete claim

    The claims of [ClusterExamples] as the kubelet hands them to the driver of
    the node they were allocated on, with configurations of a class and of the
    claim. *)

Module Kubelet.
Import Cluster Claims.

(** ** From the allocation to the request *)

Definition claimA : ResourceClaim Q := claimFor "a" None.

Definition allocationA : ApiAllocationResult Q := Eval vm_compute in
  default (mkApiAllocation [] [] None None) (head (ob_claims objects1) ≫= claim_Allocation).

Definition requestsA : list (Request Q) :=
  match BuildRequests (Some claimA) {[ "gpu" := gpuClass ]} with Ok r => r | Err _ => [] end.

Definition resultA : AllocationResult Q := Eval vm_compute in
  match Allocate (λ _, env_allocatedOrder env (allocatedDevices (ob_claims objects)))
      (mkInput requestsA (BuildCandidates DefaultDriverName slices) (allocatedDevices (ob_claims objects))
         (BuildCounterSets DefaultDriverName slices)) with
  | Ok (Some r) => r
  | _ => mkAllocationResult "" "" [] None
  end.

Lemma allocationA_computed : computed env (su_options setup) objects claimA allocationA.
Proof.
  constructor; [reflexivity|]. exists {[ "gpu" := gpuClass ]}, requestsA, resultA.
  split; [reflexivity|]. split; [reflexivity|]. split; vm_compute; reflexivity.
Qed.

Definition withAllocation (claim : ResourceClaim Q) (alloc : ApiAllocationResult Q) : ResourceClaim Q :=
  mkResourceClaim (claim_Namespace claim) (claim_Name claim) (claim_Requests claim)
    (claim_Constraints claim) (claim_Config claim) (Some alloc).

Definition objectA : ClaimObject := mkClaimObject "uid-a" ∅ (withAllocation claimA allocationA) [].

Lemma slices_of_nodes : node_slices slices.
Proof.
  assert (Forall (λ s, 1 ≤ rs_PoolResourceSliceCount s ∧ is_Some (rs_NodeName s) ∧ rs_NodeName s ≠ Some "")
    slices) as Hall by (apply (bool_decide_unpack _); vm_compute; exact I).
  rewrite Forall_forall in Hall. intros s Hs. destruct (Hall s Hs) as (Hc & [n Hn] & Hne).
  split; [done|]. exists n. split; [done|]. congruence.
Qed.

Lemma allocated_request_witness :
  ∃ node cs, node ≠ "" ∧ aar_NodeSelector allocationA = nodeSelectorForNode node ∧
    Forall2 (result_of slices node) cs (aar_Results allocationA) ∧
    BuildPrepareRequest objectA DefaultDriverName node
      (listed (resourceSliceListOptions DefaultDriverName node) slices)
    = Ok (mkPrepareRequest "uid-a" node false (zip_with request_device (aar_Results allocationA) cs)).
Proof.
  apply (allocated_request env setup objects claimA allocationA objectA).
  - intros m. reflexivity.
  - exact slices_are_ok.
  - exact slices_of_nodes.
  - exact objects_are_ok.
  - left.
  - exact allocationA_computed.
  - discriminate.
  - reflexivity.
Defined.

(** ** Configurations *)

(** A decoder that knows two documents. *)
#[export] Instance decoder : ConfigDecoder Q := {|
  StrictDecode raw :=
    if str_eqb raw "timeSlicing" then
      Ok (DecodedGpu (mkGpuConfig (metaFor GpuConfigKind)
            (Some (mkGpuSharing TimeSlicingStrategy None None))))
    else if str_eqb raw "gpu" then Ok (DecodedGpu DefaultGpuConfig)
    else Err (External 22);
|}.

#[export] Instance library : KubeletLibrary := {|
  IsNotFound e := bool_decide (e = External 404);
  ErrRecoverable := Errorf "recoverable" [];
  ErrorString _ := "error";
  DefaultRetrySteps := 5;
|}.

Definition opaque (source : AllocationConfigSource) (requests : list string) (raw : string)
    : DeviceAllocationConfiguration :=
  mkAllocationConfiguration source requests
    (mkDeviceConfiguration (Some (mkOpaque DefaultDriverName raw))).

(** The claim asks for time slicing, its class for an exclusive GPU. *)
Definition configured : ApiAllocationResult Q :=
  mkApiAllocation (aar_Results allocationA)
    [opaque AllocationConfigSourceClaim ["gpu"] "timeSlicing"; opaque AllocationConfigSourceClass [] "gpu"]
    (aar_NodeSelector allocationA) None.

Definition objectC : ClaimObject := mkClaimObject "uid-c" {[ VfioAnnotationKey := " Yes" ]}
  (withAllocation claimA configured) [].

Definition client : KubeClient (Q:=Q) := {|
  kc_ListSlices selector _ := Ok (listed selector slices);
  kc_GetClaim _ _ _ := Ok objectC;
  kc_UpdateStatus _ _ := Ok ();
|}.

Definition noManagers : Options Q := mkOptions None None None None None None None None false.

Definition driverA : DriverState (Q:=Q) := mkDriver DefaultDriverName "node-a" client noManagers true 1000.

Definition requestC : PrepareRequest Q :=
  match claimRequest driverA objectC (listed (resourceSliceListOptions DefaultDriverName "node-a") slices) with
  | Ok req => req
  | Err _ => mkPrepareRequest "" "" false []
  end.

(** The configuration of the claim wins, with its interval filled in. *)
Example requestC_configs : pd_Config <$> pr_Devices requestC =
  [Some (GpuConf (mkGpuConfig (metaFor GpuConfigKind)
     (Some (mkGpuSharing TimeSlicingStrategy (Some (mkTimeSlicingConfig (Some DefaultTimeSlice))) None))))].
Proof. vm_compute. reflexivity. Qed.

Lemma claimRequest_configs_witness :
  ∃ alloc req0 configs,
    claim_Allocation (co_Claim objectC) = Some alloc ∧
    BuildPrepareRequest objectC (drv_driverName driverA) (drv_nodeName driverA)
      (listed (resourceSliceListOptions DefaultDriverName "node-a") slices) = Ok req0 ∧
    Forall2 decoded_from (ownConfigs (drv_driverName driverA) (aar_Config alloc)) configs ∧
    pr_Devices requestC = (λ dev, setConfig dev (chosenConfig configs dev)) <$> pr_Devices req0 ∧
    (∀ dev c, dev ∈ pr_Devices requestC → pd_Config dev = Some c →
       config_ready c ∧ configMatchesDeviceType c (typeOf dev) = true) ∧
    (pr_VFIO requestC = true ↔
       VFIORequested (co_Annotations objectC) = true ∨ vfio_applies (drv_driverName driverA) alloc configs).
Proof.
  apply (claimRequest_configs driverA objectC
    (listed (resourceSliceListOptions DefaultDriverName "node-a") slices) requestC).
  vm_compute. reflexivity.
Defined.
End Kubelet.

(** * The admission webhook on concrete requests *)

Module Admission.
Import Cluster Claims Kubelet.

Definition configFor (raw : string) : DeviceClaimConfiguration :=
  mkClaimConfiguration ["gpu"] (mkDeviceConfiguration (Some (mkOpaque DefaultDriverName raw))).

Definition claimWith (configs : list DeviceClaimConfiguration) : ResourceClaim Q :=
  mkResourceClaim "ns" "a" (claim_Requests claimA) 0 configs None.

(** A scheme that knows three documents. *)
#[export] Instance codec : ClaimCodec Q := {|
  VersionedObject := string;
  codec_Decode _ raw := Ok raw;
  convert_Claim raw :=
    if str_eqb raw "shared" then Ok (claimWith [configFor "timeSlicing"])
    else if str_eqb raw "typo" then Ok (claimWith [configFor "gpu"; configFor "timeSlcing"])
    else if str_eqb raw "unset" then Ok (claimWith [mkClaimConfiguration [] (mkDeviceConfiguration None)])
    else Err (External 23);
  convert_Template _ := Err (External 23);
  error_Text _ := "bad";
|}.

Definition requestFor (raw : string) : AdmissionRequest :=
  mkAdmissionRequest "CREATE" (mkGVR "resource.k8s.io" "v1" "resourceclaims") raw.

Definition sharingClass : DeviceClass :=
  mkDeviceClass "gpu" [] [mkDeviceConfiguration (Some (mkOpaque DefaultDriverName "gpu"))] None.

Lemma webhook_agrees_witness :
  is_Ok (decodeDeviceConfigs
    [mkAllocationConfiguration AllocationConfigSourceClaim ["gpu"] (dcl_Configuration (configFor "timeSlicing"));
     mkAllocationConfiguration AllocationConfigSourceClass ["gpu"]
       (mkDeviceConfiguration (Some (mkOpaque DefaultDriverName "gpu")))] DefaultDriverName) = true ↔
  isAllowed (ParametersHandle DefaultDriverName (requestFor "shared")) = true ∧
  Forall (decodable DefaultDriverName ∘ dac_Configuration)
    [mkAllocationConfiguration AllocationConfigSourceClass ["gpu"]
       (mkDeviceConfiguration (Some (mkOpaque DefaultDriverName "gpu")))].
Proof.
  apply (webhook_agrees DefaultDriverName (requestFor "shared") (claimWith [configFor "timeSlicing"])
    {[ "gpu" := sharingClass ]}).
  - left.
  - left.
  - reflexivity.
  - constructor; [discriminate|constructor].
  - discriminate.
  - reflexivity.
  - reflexivity.
Defined.

(** A parameter the decoder refuses is denied, with its count and message. *)
Example typo_denied :
  ParametersHandle DefaultDriverName (requestFor "typo") = Denied "1 configs failed to validate: bad".
Proof. reflexivity. Qed.

(** A configuration without opaque parameters is admitted, and then refused by
    the driver when the claim is prepared. *)
Example unset_admitted :
  isAllowed (ParametersHandle DefaultDriverName (requestFor "unset")) = true ∧
  decodeDeviceConfigs (fromClaim <$> [mkClaimConfiguration [] (mkDeviceConfiguration None)]) DefaultDriverName
  = Err (Errorf "only opaque configs are supported" []).
Proof. split; reflexivity. Qed.

Example delete_ignored raw : ParametersHandle DefaultDriverName
  (mkAdmissionRequest "DELETE" (mkGVR "" "v1" "pods") raw) = Allowed "operation ignored".
Proof. reflexivity. Qed.
End Admission.
