(* ===== verification/Vfio.v ===== *)
(** * Binding GPUs to vfio-pci: pkg/dra/adapters/vfio

    The manager reads and writes the PCI files of sysfs.  The file system is an
    interface: its state, and what reading a link, testing a path and writing
    a file do to it.  A path is the list of its elements, so that
    [filepath.Join] is concatenation and [filepath.Base] the last element; bus
    ids and driver names are single elements.

    The laws state what the kernel documents of these files (ABI/testing:
    sysfs-bus-pci): writing a bus id to [bind] of a driver attaches the device
    to it and to no other, writing [driver_override] attaches nothing. *)

From S2P Require Import Prelude GoLib Effects Prepare.

Abbreviation path := (list string).

Class FileSystem (FS : Type) := {
  fs_readlink : FS → path → res path;
  (** [os.Stat], then [IsDir] *)
  fs_stat : FS → path → res bool;
  fs_write : FS → path → string → res () * FS;
}.

Section Manager.
Context {FS : Type} `{FileSystem FS}.

(** ** manager.go *)

Definition defaultSysfsRoot : string := "/sys/bus/pci/devices".
Definition driversRoot : string := "/sys/bus/pci/drivers".
Definition vfioDriver : string := "vfio-pci".
Definition defaultDriver : string := "nvidia".

(** [sysfsRoot] of the manager. *)
Context (sysfsRoot : string).

(** Reads and writes thread the file system; a write that fails may have
    changed it. *)
Definition Sys (A : Type) : Type := FS → res A * FS.

#[local] Instance Sys_ret : MRet Sys := λ A a fs, (Ok a, fs).
#[local] Instance Sys_bind : MBind Sys := λ A B f m fs,
  match m fs with
  | (Ok a, fs') => f a fs'
  | (Err e, fs') => (Err e, fs')
  end.

Definition sysFail {A} (e : error) : Sys A := λ fs, (Err e, fs).

(** [if err != nil { return fmt.Errorf(format, args, err) }] *)
Definition wrapped {A} (format : string) (args : list string) (r : res A) : res A :=
  match r with Err e => Err (Wrapf format args e) | ok => ok end.

(** ** sysfs.go *)

Definition devicePath (pciBusID : string) : path := [sysfsRoot; pciBusID].

Definition base (p : path) : string := default "." (last p).

Definition readDriver (pciBusID : string) : Sys string := λ fs,
  (base <$> wrapped "read driver for %s: %w" [pciBusID] (fs_readlink fs (devicePath pciBusID ++ ["driver"])), fs).

Definition readIommuGroup (pciBusID : string) : Sys Z := λ fs,
  (link ← wrapped "read iommu group for %s: %w" [pciBusID]
            (fs_readlink fs (devicePath pciBusID ++ ["iommu_group"]));
   match Atoi (base link) with
   | Some id => Ok id
   | None => Err (Errorf "parse iommu group for %s: %w" [pciBusID])
   end, fs).

Definition ensureDriver (driver : string) : Sys () := λ fs,
  (isDir ← wrapped "driver %q is not available: %w" [driver] (fs_stat fs [driversRoot; driver]);
   if isDir : bool then Ok () else Err (Errorf "driver %q path is not a directory" [driver]), fs).

Definition writeSys (p : path) (data format : string) (args : list string) : Sys () := λ fs,
  let '(r, fs') := fs_write fs p data in (wrapped format args r, fs').

Definition writeDriverOverride (pciBusID driver : string) : Sys () :=
  writeSys (devicePath pciBusID ++ ["driver_override"]) driver
    "write driver override for %s: %w" [pciBusID].

Definition clearDriverOverride (pciBusID : string) : Sys () :=
  writeSys (devicePath pciBusID ++ ["driver_override"]) ""
    "clear driver override for %s: %w" [pciBusID].

Definition unbind (pciBusID driver : string) : Sys () :=
  writeSys [driversRoot; driver; "unbind"] pciBusID "unbind %s from %s: %w" [pciBusID; driver].

Definition bind (pciBusID driver : string) : Sys () :=
  writeSys [driversRoot; driver; "bind"] pciBusID "bind %s to %s: %w" [pciBusID; driver].

Definition bindToDriver (pciBusID fromDriver toDriver : string) : Sys () :=
  _ ← ensureDriver toDriver;
  _ ← writeDriverOverride pciBusID toDriver;
  _ ← unbind pciBusID fromDriver;
  _ ← bind pciBusID toDriver;
  clearDriverOverride pciBusID.

(** ** prepare.go *)

Definition Vfio_Prepare (PCIBusID : string) : Sys PreparedVfioDevice :=
  if str_eqb PCIBusID "" then sysFail (Errorf "pci bus id is required" []) else
  driver ← readDriver PCIBusID;
  group ← readIommuGroup PCIBusID;
  if str_eqb driver vfioDriver then mret (mkPreparedVfioDevice PCIBusID vfioDriver group) else
  if negb (str_eqb driver defaultDriver)
  then sysFail (Errorf "unexpected driver %q for %s" [driver; PCIBusID]) else
  _ ← bindToDriver PCIBusID driver vfioDriver;
  mret (mkPreparedVfioDevice PCIBusID driver group).

(** ** unprepare.go *)

Definition Vfio_Unprepare (state : PreparedVfioDevice) : Sys () :=
  if str_eqb (pvd_PCIBusID state) "" then sysFail (Errorf "pci bus id is required" []) else
  let target := if str_eqb (pvd_OriginalDriver state) "" then defaultDriver else pvd_OriginalDriver state in
  if str_eqb target vfioDriver then mret () else
  current ← readDriver (pvd_PCIBusID state);
  if str_eqb current target then mret () else
  bindToDriver (pvd_PCIBusID state) current target.

(** ** What the kernel shows of a device *)

Definition driverOf (fs : FS) (pci : string) : option string :=
  match fs_readlink fs (devicePath pci ++ ["driver"]) with Ok link => Some (base link) | Err _ => None end.

Record sysfs_laws : Prop := {
  (** attaching a device *)
  sl_bind fs fs' pci driver : fs_write fs [driversRoot; driver; "bind"] pci = (Ok (), fs') →
    driverOf fs' pci = Some driver;
  (** the control files of a driver act on the device that is written *)
  sl_control fs pci driver file r fs' other :
    file = "bind" ∨ file = "unbind" → fs_write fs [driversRoot; driver; file] pci = (r, fs') →
    other ≠ pci → driverOf fs' other = driverOf fs other;
  (** an override attaches nothing *)
  sl_override fs pci data r fs' other :
    fs_write fs (devicePath pci ++ ["driver_override"]) data = (r, fs') →
    driverOf fs' other = driverOf fs other;
}.

Hypothesis laws : sysfs_laws.

Lemma readDriver_spec pci fs :
  snd (readDriver pci fs) = fs ∧
  match driverOf fs pci with
  | Some d => fst (readDriver pci fs) = Ok d
  | None => ∃ e, fst (readDriver pci fs) = Err e
  end.
Proof.
  unfold readDriver, driverOf, wrapped. destruct (fs_readlink fs _); simpl; split; try done. by eexists.
Qed.

(** What a write leaves of the drivers of other devices, and of this one. *)
Lemma override_frame pci data format args fs other :
  driverOf (snd (writeSys (devicePath pci ++ ["driver_override"]) data format args fs)) other
    = driverOf fs other.
Proof.
  unfold writeSys. destruct (fs_write fs _ data) as [r fs'] eqn:Hw. simpl. by eapply sl_override.
Qed.

Lemma control_frame pci driver file format args fs other :
  file = "bind" ∨ file = "unbind" → other ≠ pci →
  driverOf (snd (writeSys [driversRoot; driver; file] pci format args fs)) other = driverOf fs other.
Proof.
  intros Hf Ho. unfold writeSys. destruct (fs_write fs _ pci) as [r fs'] eqn:Hw. simpl. by eapply sl_control.
Qed.

Lemma bind_ok pci driver fs fs' : bind pci driver fs = (Ok (), fs') → driverOf fs' pci = Some driver.
Proof.
  unfold bind, writeSys. destruct (fs_write fs _ pci) as [[[]|e] fs1] eqn:Hw; simpl; [|done].
  intros [= <-]. by eapply sl_bind.
Qed.

(** [bindToDriver] touches one device, and when it succeeds the device is
    attached to the new driver. *)
Lemma bindToDriver_spec pci from to fs r fs' : bindToDriver pci from to fs = (r, fs') →
  (∀ other, other ≠ pci → driverOf fs' other = driverOf fs other) ∧
  (r = Ok () → driverOf fs' pci = Some to).
Proof.
  unfold bindToDriver, mbind, Sys_bind. unfold ensureDriver at 1.
  destruct (isDir ← _; _) as [[]|e]; [|by intros [= <- <-]].
  pose proof (override_frame pci to "write driver override for %s: %w" [pci] fs) as F1.
  unfold writeDriverOverride. destruct (writeSys _ to _ _ fs) as [[[]|e] fs1]; simpl in F1;
    [|by intros [= <- <-]].
  pose proof (λ other, control_frame pci from "unbind" "unbind %s from %s: %w" [pci; from] fs1 other
    (or_intror eq_refl)) as F2.
  unfold unbind. destruct (writeSys _ pci _ _ fs1) as [[[]|e] fs2]; simpl in F2;
    [|intros [= <- <-]; split; [intros other Ho; by rewrite F2, F1|done]].
  pose proof (λ other, control_frame pci to "bind" "bind %s to %s: %w" [pci; to] fs2 other
    (or_introl eq_refl)) as F3.
  destruct (bind pci to fs2) as [[[]|e] fs3] eqn:Hbind; unfold bind in Hbind; rewrite Hbind in F3; simpl in F3;
    [|intros [= <- <-]; split; [intros other Ho; by rewrite F3, F2, F1|done]].
  apply bind_ok in Hbind. intros Hc.
  pose proof (override_frame pci "" "clear driver override for %s: %w" [pci] fs3) as F4.
  unfold clearDriverOverride in Hc. rewrite Hc in F4. simpl in F4.
  split; [intros other Ho; by rewrite F4, F3, F2, F1|]. intros _. by rewrite F4.
Qed.

(** Every outcome of [Prepare]. *)
Lemma Vfio_Prepare_spec pci fs r fs' : Vfio_Prepare pci fs = (r, fs') →
  (∀ other, other ≠ pci → driverOf fs' other = driverOf fs other) ∧
  ∀ st, r = Ok st → pci ≠ "" ∧ pvd_PCIBusID st = pci ∧ driverOf fs pci = Some (pvd_OriginalDriver st) ∧
    driverOf fs' pci = Some vfioDriver ∧
    (pvd_OriginalDriver st = vfioDriver ∧ fs' = fs ∨ pvd_OriginalDriver st = defaultDriver).
Proof.
  unfold Vfio_Prepare. destruct (str_eqb pci "") eqn:He; [by intros [= <- <-]|]. go_bool.
  unfold mbind at 1, Sys_bind at 1. destruct (readDriver_spec pci fs) as [Hsame Hd].
  destruct (readDriver pci fs) as [[d|e] fs1]; simpl in *; subst fs1; [|by intros [= <- <-]].
  destruct (driverOf fs pci) as [d'|] eqn:Hdrv; [|by destruct Hd]. injection Hd as <-.
  unfold mbind at 1, Sys_bind at 1. destruct (readIommuGroup pci fs) as [[g|e] fs1] eqn:Hg;
    unfold readIommuGroup in Hg; injection Hg as Hg <-; [|by intros [= <- <-]].
  destruct (str_eqb d vfioDriver) eqn:Hv; go_bool.
  { intros [= <- <-]. split; [done|]. intros st [= <-]. simpl. subst d. split_and!; auto. }
  destruct (str_eqb d defaultDriver) eqn:Hdef; simpl; go_bool; [|by intros [= <- <-]]. subst d.
  unfold mbind, Sys_bind. destruct (bindToDriver pci defaultDriver vfioDriver fs) as [[[]|e] fs2] eqn:Hb;
    apply bindToDriver_spec in Hb as [Hframe Hok]; intros [= <- <-]; (split; [done|]); [|done].
  intros st [= <-]. simpl. split_and!; auto.
Qed.

(** Every outcome of [Unprepare]. *)
Lemma Vfio_Unprepare_spec st fs r fs' : Vfio_Unprepare st fs = (r, fs') →
  (∀ other, other ≠ pvd_PCIBusID st → driverOf fs' other = driverOf fs other) ∧
  (r = Ok () → pvd_OriginalDriver st ≠ "" → pvd_OriginalDriver st ≠ vfioDriver →
   driverOf fs' (pvd_PCIBusID st) = Some (pvd_OriginalDriver st)) ∧
  (pvd_OriginalDriver st = vfioDriver → fs' = fs).
Proof.
  unfold Vfio_Unprepare. destruct (str_eqb (pvd_PCIBusID st) "") eqn:He; [by intros [= <- <-]|].
  destruct (str_eqb (pvd_OriginalDriver st) "") eqn:Ho; go_bool; [simpl; rewrite Ho|].
  - unfold mbind, Sys_bind. destruct (readDriver_spec (pvd_PCIBusID st) fs) as [Hsame _].
    destruct (readDriver _ fs) as [[d|e] fs1]; simpl in *; subst fs1; [|by intros [= <- <-]].
    destruct (str_eqb d defaultDriver); [by intros [= <- <-]|].
    intros [Hf _]%bindToDriver_spec. done.
  - destruct (str_eqb (pvd_OriginalDriver st) vfioDriver) eqn:Hv; go_bool; [by intros [= <- <-]|].
    unfold mbind, Sys_bind. destruct (readDriver_spec (pvd_PCIBusID st) fs) as [Hsame Hd].
    destruct (readDriver _ fs) as [[d|e] fs1]; simpl in *; subst fs1; [|by intros [= <- <-]].
    destruct (driverOf fs (pvd_PCIBusID st)) as [d'|] eqn:Hdrv; [|by destruct Hd]. injection Hd as <-.
    destruct (str_eqb d (pvd_OriginalDriver st)) eqn:Heq; go_bool; [intros [= <- <-]; split_and!; try done; congruence|].
    intros [Hf Hok]%bindToDriver_spec. split_and!; [done| |done]. intros Hr _ _. by apply Hok.
Qed.

(** ** The manager as a port of the prepare service

    The state of the bus is what the calls so far made of the initial one. *)
Section Port.
Context {Q : Type} (fs0 : FS).

Definition busStep (fs : FS) (e : event Q) : FS :=
  match e with
  | EVfioPrepare pci _ => snd (Vfio_Prepare pci fs)
  | EVfioUnprepare v _ => snd (Vfio_Unprepare v fs)
  | _ => fs
  end.

Definition busAfter (h : list (event Q)) : FS := foldl busStep fs0 h.

Definition vfioManager : VfioManager Q := {|
  vfio_Prepare h pci := fst (Vfio_Prepare pci (busAfter h));
  vfio_Unprepare h v := fst (Vfio_Unprepare v (busAfter h));
|}.
End Port.

(** C17: a GPU that is on the nvidia driver when it is prepared for VFIO is
    bound to vfio-pci, and unpreparing it with the recorded state gives it back
    to the nvidia driver, whatever happened to the file system in between; no
    other device changes its driver.  (A GPU that is on vfio-pci already is
    left there by both: [Vfio_retry_keeps_bound].) *)
Theorem Vfio_roundtrip pci fs st fs1 fs2 fs3 :
  driverOf fs pci = Some defaultDriver →
  Vfio_Prepare pci fs = (Ok st, fs1) → Vfio_Unprepare st fs2 = (Ok (), fs3) →
  driverOf fs1 pci = Some vfioDriver ∧ driverOf fs3 pci = Some defaultDriver ∧
  ∀ other, other ≠ pci →
    driverOf fs1 other = driverOf fs other ∧ driverOf fs3 other = driverOf fs2 other.
Proof.
  intros Hd Hp Hu. apply Vfio_Prepare_spec in Hp as [F1 Hst].
  destruct (Hst st eq_refl) as (_ & Hpci & Ho & Hv & _). rewrite Hd in Ho. injection Ho as Ho.
  apply Vfio_Unprepare_spec in Hu as (F2 & Hback & _). rewrite Hpci, <- Ho in *.
  split; [done|]. split; [by apply Hback|]. intros other Hother. split; [by apply F1|by apply F2].
Qed.

(** A GPU that is bound already is recorded as coming from vfio-pci: when
    [Prepare] is repeated after it has bound the GPU, the state recorded the
    second time makes [Unprepare] leave the GPU bound to vfio-pci. *)
Theorem Vfio_retry_keeps_bound pci fs st fs1 st2 fs2 r fs3 :
  Vfio_Prepare pci fs = (Ok st, fs1) → Vfio_Prepare pci fs1 = (Ok st2, fs2) →
  Vfio_Unprepare st2 fs2 = (r, fs3) →
  pvd_OriginalDriver st2 = vfioDriver ∧ r = Ok () ∧ driverOf fs3 pci = Some vfioDriver.
Proof.
  intros Hp Hp2 Hu. apply Vfio_Prepare_spec in Hp as [_ Hst]. apply Vfio_Prepare_spec in Hp2 as [_ Hst2].
  destruct (Hst st eq_refl) as (Hne & _ & _ & Hv & _). destruct (Hst2 st2 eq_refl) as (_ & Hpci & Ho & Hv2 & _).
  rewrite Hv in Ho. injection Ho as Ho. apply Vfio_Unprepare_spec in Hu as Hspec.
  destruct Hspec as (_ & _ & Hsame). rewrite Hsame by done. split; [done|]. split; [|done].
  unfold Vfio_Unprepare in Hu. rewrite Hpci, <- Ho, (proj2 (str_eqb_false pci "")) in Hu by done.
  by injection Hu as <- _.
Qed.
End Manager.
