(* ===== verification/RwNames.v ===== *)
(** * Names and prefixes

    [PrefixedNameRewriter] of the kube-api-rewriter with its index, and what
    renaming and restoring do to names. *)

From S2P Require Import Prelude GoLib.

From Stdlib Require Import Ascii.

(** * Names of labels, annotations and finalizers: kube-api-rewriter/pkg/rewriter

    The API rewriter shows its clients the original names of labels and the
    API server the renamed ones.  This file models prefixed_name_rewriter.go
    and proves that a name restored for a client and renamed on its way back
    is the name the server has. *)

Inductive Action := Restore | Rename.

#[export] Instance Action_eq_dec : EqDecision Action.
Proof. solve_decision. Defined.

Record MetadataReplaceRule := mkReplaceRule {
  mrr_Original : string;
  mrr_Renamed : string;
  mrr_OriginalValue : string;
  mrr_RenamedValue : string;
}.

Record MetadataReplace := mkMetadataReplace {
  mr_Prefixes : list MetadataReplaceRule;
  mr_Names : list MetadataReplaceRule;
}.

Record PrefixedNameRewriter := mkPrefixedNameRewriter {
  namesRenameIdx : gmap string string;
  namesRestoreIdx : gmap string string;
  prefixRenameIdx : gmap string string;
  prefixRestoreIdx : gmap string string;
}.

Definition PreservedPrefix : string := "preserved-original-".

(** ** Indices *)

Definition joinKV (name value : string) : string := name +:+ "=" +:+ value.

Definition splitKV (idxValue : string) : string * string :=
  let '(name, value, _) := Cut idxValue "=" in (name, value).

Definition hasValues (rule : MetadataReplaceRule) : bool :=
  negb (str_eqb (mrr_OriginalValue rule) "") && negb (str_eqb (mrr_RenamedValue rule) "").

Definition indexRules (rules : list MetadataReplaceRule) : gmap string string :=
  foldl (λ idx rule,
    if hasValues rule
    then <[joinKV (mrr_Original rule) (mrr_OriginalValue rule) :=
             mrr_Renamed rule +:+ "=" +:+ mrr_RenamedValue rule]> idx
    else <[mrr_Original rule := mrr_Renamed rule]> idx) ∅ rules.

Definition indexRulesReverse (rules : list MetadataReplaceRule) : gmap string string :=
  foldl (λ idx rule,
    if hasValues rule
    then <[joinKV (mrr_Renamed rule) (mrr_RenamedValue rule) :=
             mrr_Original rule +:+ "=" +:+ mrr_OriginalValue rule]> idx
    else <[mrr_Renamed rule := mrr_Original rule]> idx) ∅ rules.

Definition NewPrefixedNameRewriter (replaceRules : MetadataReplace) : PrefixedNameRewriter :=
  mkPrefixedNameRewriter (indexRules (mr_Names replaceRules)) (indexRulesReverse (mr_Names replaceRules))
    (indexRules (mr_Prefixes replaceRules)) (indexRulesReverse (mr_Prefixes replaceRules)).

(** ** One name with its value *)
Section Rewriter.
Context (p : PrefixedNameRewriter).

Definition isPreserved (name : string) : bool := HasPrefix name PreservedPrefix.
Definition preserveName (name : string) : string := PreservedPrefix +:+ name.
Definition restorePreservedName (name : string) : string := TrimPrefix name PreservedPrefix.

(** [if value != "" { if v, ok := idx[joinKV(name, value)]; ok {...} }] *)
Definition lookupKV (idx : gmap string string) (name value : string) : option string :=
  if str_eqb value "" then None else idx !! joinKV name value.

Definition rename (name value : string) : string * string :=
  if isPreserved name then (restorePreservedName name, value) else
  match lookupKV (namesRenameIdx p) name value with
  | Some renamedIdxValue => splitKV renamedIdxValue
  | None =>
      match namesRenameIdx p !! name with
      | Some renamed => (renamed, value)
      | None =>
          let '(prefix, remainder, found) := Cut name "/" in
          if negb found then (name, value) else
          match prefixRenameIdx p !! prefix with
          | Some renamedPrefix => (renamedPrefix +:+ "/" +:+ remainder, value)
          | None => (name, value)
          end
      end
  end.

Definition isOriginal (name value : string) : bool :=
  if bool_decide (is_Some (lookupKV (namesRenameIdx p) name value)) then true else
  if bool_decide (is_Some (namesRenameIdx p !! name)) then true else
  let '(prefix, _, found) := Cut name "/" in
  if negb found then false else bool_decide (is_Some (prefixRenameIdx p !! prefix)).

Definition restore (name value : string) : string * string :=
  if isOriginal name value then (preserveName name, value) else
  match lookupKV (namesRestoreIdx p) name value with
  | Some restoredIdxValue => splitKV restoredIdxValue
  | None =>
      match namesRestoreIdx p !! name with
      | Some restored => (restored, value)
      | None =>
          let '(prefix, remainder, found) := Cut name "/" in
          if negb found then (name, value) else
          match prefixRestoreIdx p !! prefix with
          | Some restoredPrefix => (restoredPrefix +:+ "/" +:+ remainder, value)
          | None => (name, value)
          end
      end
  end.

(** ** Lists, maps, and selector requirements *)

(** The rewritten name is that of the first value whose rule changes it. *)
Definition rewriteNameValues (name : string) (values : list string)
    (fn : string → string → string * string) : string * list string :=
  foldl (λ '(rwrName, rwrValues) value,
    let '(n, v) := fn name value in
    (if negb (str_eqb n name) && str_eqb rwrName name then n else rwrName, rwrValues ++ [v]))
    (name, []) values.

(** A nil slice or map stays nil; the entries of a map are given in the order
    the loop visits them. *)
Definition rewriteMap (names : option (list (string * string)))
    (fn : string → string → string * string) : option (gmap string string) :=
  (foldl (λ result '(name, value),
    let '(rwrName, rwrValue) := fn name value in <[rwrName := rwrValue]> result) ∅) <$> names.

Definition rewriteSlice (names : option (list string))
    (fn : string → string → string * string) : option (list string) :=
  (λ l : list string, (λ name, fst (fn name "")) <$> l) <$> names.

Definition byAction (action : Action) : string → string → string * string :=
  match action with Rename => rename | Restore => restore end.

Definition Rewrite (name : string) (action : Action) : string := fst (byAction action name "").

Definition RewriteNameValue (name value : string) (action : Action) : string * string :=
  byAction action name value.

Definition RewriteNameValues (name : string) (values : list string) (action : Action) : string * list string :=
  if list_len0 values then (Rewrite name action, values)
  else rewriteNameValues name values (byAction action).

Definition RewriteSlice (names : option (list string)) (action : Action) : option (list string) :=
  rewriteSlice names (byAction action).

Definition RewriteMap (names : option (list (string * string))) (action : Action) : option (gmap string string) :=
  rewriteMap names (byAction action).

Definition RenameSlice (names : option (list string)) : option (list string) := rewriteSlice names rename.
Definition RestoreSlice (names : option (list string)) : option (list string) := rewriteSlice names restore.
Definition RenameMap (names : option (list (string * string))) : option (gmap string string) :=
  rewriteMap names rename.
Definition RestoreMap (names : option (list (string * string))) : option (gmap string string) :=
  rewriteMap names restore.
End Rewriter.

(** ** The rules of the tests *)

Definition testRules : MetadataReplace := mkMetadataReplace
  [mkReplaceRule "gpu.deckhouse.io" "internal.gpu.deckhouse.io" "" ""]
  [mkReplaceRule "gpu.deckhouse.io/managed-by" "internal.gpu.deckhouse.io/managed-by" "" "";
   mkReplaceRule "gpu.deckhouse.io/feature" "internal.gpu.deckhouse.io/feature" "enabled" "true"].

Example rename_ex : let p := NewPrefixedNameRewriter testRules in
  (rename p "gpu.deckhouse.io/feature" "enabled", rename p "gpu.deckhouse.io/x" "v", rename p "app" "v",
   restore p "gpu.deckhouse.io/x" "v", restore p "internal.gpu.deckhouse.io/feature" "true",
   rename p "preserved-original-gpu.deckhouse.io/x" "v") =
  (("internal.gpu.deckhouse.io/feature", "true"), ("internal.gpu.deckhouse.io/x", "v"), ("app", "v"),
   ("preserved-original-gpu.deckhouse.io/x", "v"), ("gpu.deckhouse.io/feature", "enabled"),
   ("gpu.deckhouse.io/x", "v")).
Proof. vm_compute. reflexivity. Qed.

(** * A client and the server agree on names: theorems about [RwNames]

    A name the server stores is shown to the client as its original name, or,
    when the name is itself original and would be hidden, under a prefix that
    preserves it.  For coherent rules the renaming of a request undoes the
    restoring of the response, for single names and for whole label maps. *)

(** ** Rules and their keys *)

Definition okey (rule : MetadataReplaceRule) : string :=
  if hasValues rule then joinKV (mrr_Original rule) (mrr_OriginalValue rule) else mrr_Original rule.
Definition rkey (rule : MetadataReplaceRule) : string :=
  if hasValues rule then joinKV (mrr_Renamed rule) (mrr_RenamedValue rule) else mrr_Renamed rule.

(** A prefix rule maps the name [o] to the name [r]. *)
Definition viaPrefix (prefixes : list MetadataReplaceRule) (o r : string) : Prop :=
  Exists (λ q, ∃ rest, Cut o "/" = (mrr_Original q, rest, true) ∧
                       r = mrr_Renamed q +:+ "/" +:+ rest) prefixes.

#[export] Instance viaPrefix_dec prefixes o r : Decision (viaPrefix prefixes o r).
Proof.
  unfold viaPrefix. cut (∀ q, Decision (∃ rest, Cut o "/" = (mrr_Original q, rest, true) ∧
    r = mrr_Renamed q +:+ "/" +:+ rest)); [intros; apply _|]. intros q. destruct (Cut o "/") as [[a rest] found].
  destruct (decide ((a, found) = (mrr_Original q, true) ∧ r = mrr_Renamed q +:+ "/" +:+ rest)) as [Hy|Hn].
  - left. exists rest. destruct Hy as [[= -> ->] ->]. done.
  - right. intros (rest' & [= -> -> ->] & ->). by apply Hn.
Defined.

(** The rules do not contradict each other: every key occurs once on each
    side, the separators are not part of names, no rule renames a preserved
    name, an exact rule agrees with the prefix rule that covers it, and a rule
    for a value renames the name as a rule for the name does. *)
Definition separated (rule : MetadataReplaceRule) : Prop :=
  free_of "="%char (mrr_Original rule) = true ∧ free_of "="%char (mrr_Renamed rule) = true ∧
  isPreserved (mrr_Original rule) = false.

Definition prefixRule (rule : MetadataReplaceRule) : Prop :=
  hasValues rule = false ∧ free_of "/"%char (mrr_Original rule) = true ∧
  free_of "/"%char (mrr_Renamed rule) = true.

Definition exactAgrees (prefixes : list MetadataReplaceRule) (rule : MetadataReplaceRule) : Prop :=
  hasValues rule = false →
  Forall (λ q, fst (fst (Cut (mrr_Original rule) "/")) = mrr_Original q →
               snd (Cut (mrr_Original rule) "/") = true →
               viaPrefix [q] (mrr_Original rule) (mrr_Renamed rule)) prefixes.

Definition valueCovered (rules : MetadataReplace) (rule : MetadataReplaceRule) : Prop :=
  hasValues rule = true →
  viaPrefix (mr_Prefixes rules) (mrr_Original rule) (mrr_Renamed rule) ∨
  Exists (λ e, hasValues e = false ∧ mrr_Original e = mrr_Original rule ∧
               mrr_Renamed e = mrr_Renamed rule) (mr_Names rules).

Definition coherent (rules : MetadataReplace) : Prop :=
  (NoDup (okey <$> mr_Names rules) ∧ NoDup (rkey <$> mr_Names rules)) ∧
  (NoDup (okey <$> mr_Prefixes rules) ∧ NoDup (rkey <$> mr_Prefixes rules)) ∧
  Forall separated (mr_Names rules ++ mr_Prefixes rules) ∧
  Forall prefixRule (mr_Prefixes rules) ∧
  Forall (exactAgrees (mr_Prefixes rules)) (mr_Names rules) ∧
  Forall (valueCovered rules) (mr_Names rules).

#[export] Instance coherent_dec rules : Decision (coherent rules).
Proof. unfold coherent, separated, prefixRule, exactAgrees, valueCovered. apply _. Defined.

(** A label as the server stores it: not a preserved name, and not the renamed
    name with an original value. *)
Definition serverLabel (rules : MetadataReplace) (name value : string) : Prop :=
  isPreserved name = false ∧ free_of "="%char name = true ∧
  Forall (λ r, hasValues r = true → mrr_Renamed r = name → mrr_OriginalValue r = value →
               mrr_RenamedValue r = value) (mr_Names rules).

#[export] Instance serverLabel_dec rules n v : Decision (serverLabel rules n v).
Proof. unfold serverLabel. apply _. Defined.

(** ** Indices *)

Lemma indexRules_fill rules :
  indexRules rules = foldl (λ idx rule, <[okey rule := rkey rule]> idx) ∅ rules.
Proof.
  unfold indexRules. generalize (∅ : gmap string string). induction rules as [|r rules IH]; intros m; [done|].
  simpl. rewrite IH. f_equal. unfold okey, rkey. by destruct (hasValues r).
Qed.

Lemma indexRulesReverse_fill rules :
  indexRulesReverse rules = foldl (λ idx rule, <[rkey rule := okey rule]> idx) ∅ rules.
Proof.
  unfold indexRulesReverse. generalize (∅ : gmap string string). induction rules as [|r rules IH]; intros m; [done|].
  simpl. rewrite IH. f_equal. unfold okey, rkey. by destruct (hasValues r).
Qed.

Lemma indexRules_Some rules k r : NoDup (okey <$> rules) →
  indexRules rules !! k = Some r ↔ ∃ rule, rule ∈ rules ∧ okey rule = k ∧ rkey rule = r.
Proof.
  intros Hnd. rewrite indexRules_fill. split.
  - intros [Hm|?]%lookup_fill_inv; [by rewrite lookup_empty in Hm|done].
  - intros (rule & Hin & <- & <-). by apply lookup_fill.
Qed.

Lemma indexRulesReverse_Some rules k o : NoDup (rkey <$> rules) →
  indexRulesReverse rules !! k = Some o ↔ ∃ rule, rule ∈ rules ∧ rkey rule = k ∧ okey rule = o.
Proof.
  intros Hnd. rewrite indexRulesReverse_fill. split.
  - intros [Hm|?]%lookup_fill_inv; [by rewrite lookup_empty in Hm|done].
  - intros (rule & Hin & <- & <-). by apply lookup_fill.
Qed.

(** ** Joined names and values *)

Lemma splitKV_join n v : free_of "="%char n = true → splitKV (joinKV n v) = (n, v).
Proof.
  intros Hn. unfold splitKV, Cut, joinKV.
  change ("=" +:+ v) with (String "=" v). by rewrite cut_char_app.
Qed.

Lemma joinKV_not_free n v : free_of "="%char (joinKV n v) = false.
Proof.
  unfold joinKV. change ("=" +:+ v) with (String "=" v). rewrite all_chars_app. simpl.
  apply andb_false_r.
Qed.

Lemma joinKV_inj n v n' v' : free_of "="%char n = true → free_of "="%char n' = true →
  joinKV n v = joinKV n' v' → n = n' ∧ v = v'.
Proof.
  intros Hn Hn' Heq. pose proof (splitKV_join n v Hn) as H1. rewrite Heq, splitKV_join in H1 by done.
  by simplify_eq.
Qed.

Lemma Cut_found s c a b : Cut s (String c EmptyString) = (a, b, true) →
  s = a +:+ String c b ∧ free_of c a = true.
Proof.
  unfold Cut. destruct (cut _ s) as [[]|] eqn:Hc; [|done]. intros [= <- <-]. by apply cut_char_inv.
Qed.

Lemma Cut_app c a b : free_of c a = true → Cut (a +:+ String c b) (String c EmptyString) = (a, b, true).
Proof. intros Ha. unfold Cut. by rewrite cut_char_app. Qed.

(** A preserved name has no slash in its prefix, so putting a prefix before a
    slash does not make a name preserved. *)
Lemma isPreserved_prefix q rest : isPreserved q = false → isPreserved (q +:+ String "/" rest) = false.
Proof.
  unfold isPreserved, PreservedPrefix.
  assert (∀ P, free_of "/"%char P = true → HasPrefix q P = false → HasPrefix (q +:+ String "/" rest) P = false) as Hgen.
  { intros P. revert q. induction P as [|c P IH]; intros q HP; [by destruct q|].
    simpl in HP. apply andb_true_iff in HP as [Hc HP]. destruct q as [|c' q].
    - intros _. change (EmptyString +:+ String "/" rest) with (String "/" rest). simpl.
      apply negb_true_iff, bool_decide_eq_false in Hc. by rewrite bool_decide_eq_false_2.
    - rewrite str_app_cons. simpl. destruct (bool_decide_reflect (c = c')); [|done]. simpl. by apply IH. }
  by apply Hgen.
Qed.

(** ** Round trip of one name *)
Section Coherent.
Context (rules : MetadataReplace) (Hco : coherent rules).
Let p := NewPrefixedNameRewriter rules.
Implicit Types (rule q e : MetadataReplaceRule).

Lemma names_separated rule : rule ∈ mr_Names rules → separated rule.
Proof. destruct Hco as (_ & _ & Hs & _). rewrite Forall_app, !Forall_forall in Hs. naive_solver. Qed.
Lemma prefixes_separated rule : rule ∈ mr_Prefixes rules → separated rule ∧ prefixRule rule.
Proof.
  destruct Hco as (_ & _ & Hs & Hp & _). rewrite Forall_app, !Forall_forall in Hs.
  rewrite Forall_forall in Hp. naive_solver.
Qed.

Lemma names_rename k r : namesRenameIdx p !! k = Some r ↔
  ∃ rule, rule ∈ mr_Names rules ∧ okey rule = k ∧ rkey rule = r.
Proof. apply indexRules_Some, Hco. Qed.
Lemma names_restore k o : namesRestoreIdx p !! k = Some o ↔
  ∃ rule, rule ∈ mr_Names rules ∧ rkey rule = k ∧ okey rule = o.
Proof. apply indexRulesReverse_Some, Hco. Qed.

Lemma prefix_keys q : q ∈ mr_Prefixes rules → okey q = mrr_Original q ∧ rkey q = mrr_Renamed q.
Proof. intros [_ [Hv _]]%prefixes_separated. unfold okey, rkey. by rewrite Hv. Qed.

Lemma prefix_rename k r : prefixRenameIdx p !! k = Some r ↔
  ∃ q, q ∈ mr_Prefixes rules ∧ mrr_Original q = k ∧ mrr_Renamed q = r.
Proof.
  unfold p, NewPrefixedNameRewriter. simpl. rewrite indexRules_Some by apply Hco.
  split; intros (q & Hq & Ho & Hr); exists q; destruct (prefix_keys q Hq) as [Hko Hkr]; by rewrite Hko, Hkr in *.
Qed.
Lemma prefix_restore k o : prefixRestoreIdx p !! k = Some o ↔
  ∃ q, q ∈ mr_Prefixes rules ∧ mrr_Renamed q = k ∧ mrr_Original q = o.
Proof.
  unfold p, NewPrefixedNameRewriter. simpl. rewrite indexRulesReverse_Some by apply Hco.
  split; intros (q & Hq & Ho & Hr); exists q; destruct (prefix_keys q Hq) as [Hko Hkr]; by rewrite Hko, Hkr in *.
Qed.

Lemma prefix_original_inj q q' : q ∈ mr_Prefixes rules → q' ∈ mr_Prefixes rules →
  mrr_Original q = mrr_Original q' → q = q'.
Proof.
  intros Hq Hq' Heq. apply (NoDup_fmap_inj okey (mr_Prefixes rules)); [apply Hco|done|done|].
  rewrite (proj1 (prefix_keys q Hq)), (proj1 (prefix_keys q' Hq')). done.
Qed.

(** The keys of exact rules have no equality sign, those of value rules do. *)
Lemma okey_exact rule n : rule ∈ mr_Names rules → okey rule = n → free_of "="%char n = true →
  hasValues rule = false ∧ mrr_Original rule = n.
Proof.
  intros Hin <-. unfold okey. destruct (hasValues rule); [by rewrite joinKV_not_free|done].
Qed.
Lemma rkey_exact rule n : rule ∈ mr_Names rules → rkey rule = n → free_of "="%char n = true →
  hasValues rule = false ∧ mrr_Renamed rule = n.
Proof.
  intros Hin <-. unfold rkey. destruct (hasValues rule); [by rewrite joinKV_not_free|done].
Qed.
Lemma okey_value rule n v : rule ∈ mr_Names rules → free_of "="%char n = true → okey rule = joinKV n v →
  hasValues rule = true ∧ mrr_Original rule = n ∧ mrr_OriginalValue rule = v.
Proof.
  intros Hin Hn. destruct (names_separated rule Hin) as (Ho & _ & _). unfold okey.
  destruct (hasValues rule).
  - intros Heq. by apply joinKV_inj in Heq as [-> ->].
  - intros Heq. by rewrite Heq, joinKV_not_free in Ho.
Qed.
Lemma rkey_value rule n v : rule ∈ mr_Names rules → free_of "="%char n = true → rkey rule = joinKV n v →
  hasValues rule = true ∧ mrr_Renamed rule = n ∧ mrr_RenamedValue rule = v.
Proof.
  intros Hin Hn. destruct (names_separated rule Hin) as (_ & Ho & _). unfold rkey.
  destruct (hasValues rule).
  - intros Heq. by apply joinKV_inj in Heq as [-> ->].
  - intros Heq. by rewrite Heq, joinKV_not_free in Ho.
Qed.

(** ** The name a name is renamed to, whatever its value *)

(** [o] is renamed to [r] by an exact rule or a prefix rule. *)
Definition renamesTo (o r : string) : Prop :=
  viaPrefix (mr_Prefixes rules) o r ∨
  ∃ e, e ∈ mr_Names rules ∧ hasValues e = false ∧ mrr_Original e = o ∧ mrr_Renamed e = r.

Lemma viaPrefix_fun o r r' :
  viaPrefix (mr_Prefixes rules) o r → viaPrefix (mr_Prefixes rules) o r' → r = r'.
Proof.
  unfold viaPrefix. rewrite !Exists_exists.
  intros (q & Hq & rest & Hc & ->) (q' & Hq' & rest' & Hc' & ->). rewrite Hc in Hc'. simplify_eq.
  by rewrite (prefix_original_inj q q').
Qed.

Lemma exact_viaPrefix e r : e ∈ mr_Names rules → hasValues e = false →
  viaPrefix (mr_Prefixes rules) (mrr_Original e) r → mrr_Renamed e = r.
Proof.
  intros He Hv Hr. pose proof Hco as (_ & _ & _ & _ & Hx & _). rewrite Forall_forall in Hx.
  specialize (Hx e He Hv). rewrite Forall_forall in Hx.
  pose proof Hr as (q & Hq & rest & Hc & ->)%Exists_exists.
  assert (viaPrefix [q] (mrr_Original e) (mrr_Renamed e)) as Hvp by (apply Hx; [done|by rewrite Hc..]).
  apply Exists_exists in Hvp as (q' & Hq' & rest' & Hc' & ->). apply list_elem_of_singleton in Hq' as ->.
  rewrite Hc in Hc'. by simplify_eq.
Qed.

Lemma renamesTo_fun o r r' : renamesTo o r → renamesTo o r' → r = r'.
Proof.
  intros [Hr|(e & He & Hv & Ho & <-)] [Hr'|(e' & He' & Hv' & Ho' & <-)].
  - by eapply viaPrefix_fun.
  - rewrite <- Ho' in Hr. symmetry. by eapply exact_viaPrefix.
  - rewrite <- Ho in Hr'. by eapply exact_viaPrefix.
  - assert (e = e') as ->; [|done]. apply (NoDup_fmap_inj okey (mr_Names rules)); [apply Hco|done|done|].
    unfold okey. rewrite Hv, Hv'. congruence.
Qed.

Lemma value_renamesTo rule : rule ∈ mr_Names rules → hasValues rule = true →
  renamesTo (mrr_Original rule) (mrr_Renamed rule).
Proof.
  intros Hin Hv. pose proof Hco as (_ & _ & _ & _ & _ & Hc). rewrite Forall_forall in Hc.
  destruct (Hc rule Hin Hv) as [?|(e & ? & ? & ? & ?)%Exists_exists]; [by left|right; eauto].
Qed.

Lemma lookupKV_Some (idx : gmap string string) n v r :
  lookupKV idx n v = Some r ↔ v ≠ "" ∧ idx !! joinKV n v = Some r.
Proof. unfold lookupKV. destruct (str_eqb v "") eqn:E; go_bool; naive_solver. Qed.

Lemma hasValues_true rule : hasValues rule = true ↔ mrr_OriginalValue rule ≠ "" ∧ mrr_RenamedValue rule ≠ "".
Proof. unfold hasValues. go_bool. naive_solver. Qed.

(** What [rename] does to a name that is not preserved, in terms of the rules. *)
Lemma rename_spec o w : isPreserved o = false → free_of "="%char o = true →
  (∃ rule, rule ∈ mr_Names rules ∧ hasValues rule = true ∧ mrr_Original rule = o ∧
     mrr_OriginalValue rule = w ∧ rename p o w = (mrr_Renamed rule, mrr_RenamedValue rule)) ∨
  (lookupKV (namesRenameIdx p) o w = None ∧
   ((∃ r, renamesTo o r ∧ rename p o w = (r, w)) ∨ ((∀ r, ¬ renamesTo o r) ∧ rename p o w = (o, w)))).
Proof.
  intros Hp Ho. unfold rename. rewrite Hp.
  destruct (lookupKV (namesRenameIdx p) o w) as [r|] eqn:Hkv.
  { left. apply lookupKV_Some in Hkv as [Hw (rule & Hin & Hk & <-)%names_rename].
    destruct (okey_value rule o w Hin Ho Hk) as (Hv & <- & <-). exists rule.
    destruct (names_separated rule Hin) as (_ & Hr & _). unfold rkey. rewrite Hv, splitKV_join by done. done. }
  right. split; [done|].
  destruct (namesRenameIdx p !! o) as [r|] eqn:Hex.
  { left. apply names_rename in Hex as (e & He & Hk & <-). destruct (okey_exact e o He Hk Ho) as [Hv He'].
    exists (mrr_Renamed e). unfold rkey. rewrite Hv. split; [right; eauto|done]. }
  assert (∀ e, e ∈ mr_Names rules → hasValues e = false → mrr_Original e ≠ o) as Hnone.
  { intros e He Hv <-. enough (namesRenameIdx p !! mrr_Original e = Some (rkey e)) by congruence.
    apply names_rename. exists e. unfold okey. by rewrite Hv. }
  destruct (Cut o "/") as [[prefix rest] found] eqn:Hcut. destruct found; cbn [negb].
  2: { right. split; [|done]. intros r [Hr|(e & He & Hv & Hoe & _)]; [|by eapply Hnone].
       apply Exists_exists in Hr as (q & _ & rest' & Hc & _). congruence. }
  destruct (prefixRenameIdx p !! prefix) as [r|] eqn:Hq.
  - left. exists (r +:+ "/" +:+ rest). split; [|done]. left. apply Exists_exists.
    apply prefix_rename in Hq as (q & Hq & <- & <-). eauto.
  - right. split; [|done]. intros r [Hr|(e & He & Hv & Hoe & _)]; [|by eapply Hnone].
    apply Exists_exists in Hr as (q & Hin & rest' & Hc & ->). rewrite Hcut in Hc. simplify_eq.
    enough (prefixRenameIdx p !! mrr_Original q = Some (mrr_Renamed q)) by congruence.
    apply prefix_rename. eauto.
Qed.

(** Names that are not original are not renamed. *)
Lemma not_original_rename n v : isPreserved n = false → isOriginal p n v = false → rename p n v = (n, v).
Proof.
  intros Hp. unfold isOriginal, rename. rewrite Hp.
  destruct (lookupKV _ n v); [by rewrite bool_decide_eq_true_2 by eauto|]. rewrite bool_decide_eq_false_2 by (by intros []).
  destruct (namesRenameIdx p !! n); [by rewrite bool_decide_eq_true_2 by eauto|]. rewrite bool_decide_eq_false_2 by (by intros []).
  destruct (Cut n "/") as [[prefix rest] []]; [|done]. cbn [negb].
  destruct (prefixRenameIdx p !! prefix); [by rewrite bool_decide_eq_true_2 by eauto|done].
Qed.

(** What [restore] does to a name, in terms of the rules. *)
Lemma restore_spec n v : free_of "="%char n = true →
  restore p n v = (preserveName n, v) ∨
  (isOriginal p n v = false ∧ restore p n v = (n, v)) ∨
  (∃ rule, rule ∈ mr_Names rules ∧ hasValues rule = true ∧ mrr_Renamed rule = n ∧
     mrr_RenamedValue rule = v ∧ restore p n v = (mrr_Original rule, mrr_OriginalValue rule)) ∨
  (∃ o, renamesTo o n ∧ isPreserved o = false ∧ free_of "="%char o = true ∧ restore p n v = (o, v)).
Proof.
  intros Hn. unfold restore. destruct (isOriginal p n v) eqn:Horig; [by left|right].
  destruct (lookupKV (namesRestoreIdx p) n v) as [o|] eqn:Hkv.
  { right; left. apply lookupKV_Some in Hkv as [Hw (rule & Hin & Hk & <-)%names_restore].
    destruct (rkey_value rule n v Hin Hn Hk) as (Hv & <- & <-). exists rule.
    destruct (names_separated rule Hin) as (Ho & _). unfold okey. rewrite Hv, splitKV_join by done. done. }
  destruct (namesRestoreIdx p !! n) as [o|] eqn:Hex.
  { right; right. apply names_restore in Hex as (e & He & Hk & <-). destruct (rkey_exact e n He Hk Hn) as [Hv He'].
    exists (mrr_Original e). destruct (names_separated e He) as (? & ? & ?). unfold okey. rewrite Hv.
    split; [right; eauto|done]. }
  destruct (Cut n "/") as [[prefix rest] []] eqn:Hcut; [|by left]. cbn [negb].
  destruct (prefixRestoreIdx p !! prefix) as [o|] eqn:Hq; [|by left]. right; right.
  apply prefix_restore in Hq as (q & Hq & <- & <-). destruct (prefixes_separated q Hq) as [(? & ? & ?) (? & ? & ?)].
  apply (Cut_found n "/") in Hcut as [-> _]. exists (mrr_Original q +:+ "/" +:+ rest).
  change ("/" +:+ rest) with (String "/" rest).
  split; [|split; [by apply isPreserved_prefix|split; [|done]]].
  - left. apply Exists_exists. exists q. split; [done|]. exists rest. split; [by apply Cut_app|done].
  - rewrite all_chars_app in *. by apply andb_true_iff in Hn as [_ ->]; rewrite andb_true_r.
Qed.

Lemma restore_rename n v : serverLabel rules n v → uncurry (rename p) (restore p n v) = (n, v).
Proof.
  intros (Hp & Hn & Hval). rewrite Forall_forall in Hval.
  destruct (restore_spec n v Hn) as [->|[[Ho ->]|[(rule & Hin & Hv & HR & HV & ->)|(o & Hto & Hpo & Ho & ->)]]]; simpl.
  - unfold rename, isPreserved, preserveName, restorePreservedName. by rewrite HasPrefix_app, TrimPrefix_app.
  - by apply not_original_rename.
  - destruct (names_separated rule Hin) as (Hfo & Hfr & Hpr).
    unfold rename. rewrite Hpr. replace (lookupKV _ _ _) with (Some (joinKV n v)); [by apply splitKV_join|].
    symmetry. apply lookupKV_Some. split; [by apply hasValues_true|]. apply names_rename. exists rule.
    unfold okey, rkey. rewrite Hv. by subst.
  - destruct (rename_spec o v Hpo Ho) as [(rule & Hin & Hv & <- & HV & ->)|[_ [(r & Hr & ->)|[Hno ->]]]].
    + pose proof (renamesTo_fun _ _ _ Hto (value_renamesTo rule Hin Hv)) as ->. by rewrite (Hval rule Hin).
    + by rewrite (renamesTo_fun o n r).
    + by destruct (Hno n).
Qed.

(** The name a name is renamed to does not depend on the value. *)
Lemma rename_name o w : isPreserved o = false → free_of "="%char o = true →
  renamesTo o (fst (rename p o w)) ∨ ((∀ r, ¬ renamesTo o r) ∧ fst (rename p o w) = o).
Proof.
  intros Hp Ho.
  destruct (rename_spec o w Hp Ho) as [(rule & Hin & Hv & <- & _ & ->)|[_ [(r & Ht & ->)|[Hno ->]]]];
    [left|by left|by right]. by apply value_renamesTo.
Qed.

Lemma restore_free n v : free_of "="%char n = true → free_of "="%char (fst (restore p n v)) = true.
Proof.
  intros Hn. destruct (restore_spec n v Hn) as [->|[[_ ->]|[(rule & Hin & _ & _ & _ & ->)|(o & _ & _ & Ho & ->)]]];
    simpl; try done.
  by destruct (names_separated rule Hin) as (? & _).
Qed.

(** Two stored names are never shown as the same name. *)
Lemma restore_name_inj n v n' v' : serverLabel rules n v → serverLabel rules n' v' →
  fst (restore p n v) = fst (restore p n' v') → n = n'.
Proof.
  intros Hs Hs' Heq. pose proof (restore_rename n v Hs) as Hr. pose proof (restore_rename n' v' Hs') as Hr'.
  pose proof (restore_free n v ltac:(apply Hs)) as Ho.
  destruct (restore p n v) as [o w], (restore p n' v') as [o' w']. simpl in *. subst o'.
  destruct (isPreserved o) eqn:Hp; [unfold rename in Hr, Hr'; rewrite Hp in Hr, Hr'; by simplify_eq|].
  pose proof (rename_name o w Hp Ho) as H1. pose proof (rename_name o w' Hp Ho) as H2.
  rewrite Hr in H1. rewrite Hr' in H2. simpl in *.
  destruct H1 as [H1|[H1 ->]], H2 as [H2|[H2 ->]]; [by eapply renamesTo_fun|naive_solver..].
Qed.

(** ** Whole maps *)

Lemma lookup_rewriteMap fn (l : list (string * string)) m :
  rewriteMap (Some l) fn = Some m →
  NoDup ((λ nv, fst (uncurry fn nv)) <$> l) →
  ∀ o w, m !! o = Some w ↔ ∃ n v, (n, v) ∈ l ∧ fn n v = (o, w).
Proof.
  simpl. intros [= <-] Hnd o w.
  replace (foldl _ _ l) with (foldl (λ (m : gmap string string) nv,
    <[fst (uncurry fn nv) := snd (uncurry fn nv)]> m) ∅ l).
  2: { generalize (∅ : gmap string string). clear Hnd. induction l as [|[n v] l IH]; intros m; simpl; [done|].
       rewrite IH. by destruct (fn n v). }
  split.
  - intros [Hm|([n v] & Hin & Ho & Hw)]%lookup_fill_inv; [by rewrite lookup_empty in Hm|].
    exists n, v. split; [done|]. simpl in *. destruct (fn n v). by simplify_eq/=.
  - intros (n & v & Hin & Hf).
    pose proof (lookup_fill (λ nv, fst (uncurry fn nv)) (λ nv, snd (uncurry fn nv)) ∅ l (n, v) Hnd Hin) as Hl.
    simpl in Hl. by rewrite Hf in Hl.
Qed.

(** A rewriting that another one undoes, and that keeps names apart, gives
    back the whole map, in whatever order the loops visit the entries. *)
Definition undoes (m : gmap string string) (f g : string → string → string * string) : Prop :=
  (∀ n v, m !! n = Some v → uncurry g (f n v) = (n, v)) ∧
  (∀ n v n' v', m !! n = Some v → m !! n' = Some v' → fst (f n v) = fst (f n' v') → n = n').

Lemma names_apart f g (m : gmap string string) l : undoes m f g → l ≡ₚ map_to_list m →
  NoDup ((λ nv, fst (uncurry f nv)) <$> l).
Proof.
  intros [_ Hinj] Hl. apply NoDup_fmap_2_strong; [|rewrite Hl; apply NoDup_map_to_list].
  intros [n v] [n' v']. rewrite Hl, !elem_of_map_to_list. intros H1 H2 Heq.
  assert (n = n') as -> by (by eapply Hinj). by simplify_eq.
Qed.

Lemma rewritten_entries f g (m : gmap string string) l m' l' : undoes m f g → l ≡ₚ map_to_list m →
  rewriteMap (Some l) f = Some m' → l' ≡ₚ map_to_list m' →
  ∀ o w, (o, w) ∈ l' ↔ ∃ n v, m !! n = Some v ∧ f n v = (o, w).
Proof.
  intros Hu Hl Hm' Hl' o w.
  rewrite Hl', elem_of_map_to_list, (lookup_rewriteMap f l m' Hm') by (by eapply names_apart).
  setoid_rewrite Hl. by setoid_rewrite elem_of_map_to_list.
Qed.

Lemma renamed_apart f g (m : gmap string string) l m' l' : undoes m f g → l ≡ₚ map_to_list m →
  rewriteMap (Some l) f = Some m' → l' ≡ₚ map_to_list m' → NoDup ((λ nv, fst (uncurry g nv)) <$> l').
Proof.
  intros Hu Hl Hm' Hl'. pose proof (rewritten_entries f g m l m' l' Hu Hl Hm' Hl') as Hin'. destruct Hu as [Hgf _].
  apply NoDup_fmap_2_strong; [|rewrite Hl'; apply NoDup_map_to_list].
  intros [o w] [o' w'] (n & v & Hm1 & Hf1)%Hin' (n' & v' & Hm2 & Hf2)%Hin'.
  pose proof (Hgf n v Hm1) as H1. pose proof (Hgf n' v' Hm2) as H2. rewrite Hf1 in H1. rewrite Hf2 in H2.
  simpl in *. rewrite H1, H2. simpl. intros ->. simplify_eq. congruence.
Qed.

Lemma rewriteMap_inverse f g (m : gmap string string) l m' l' : undoes m f g → l ≡ₚ map_to_list m →
  rewriteMap (Some l) f = Some m' → l' ≡ₚ map_to_list m' → rewriteMap (Some l') g = Some m.
Proof.
  intros Hu Hl Hm' Hl'. pose proof (rewritten_entries f g m l m' l' Hu Hl Hm' Hl') as Hin'.
  pose proof (renamed_apart f g m l m' l' Hu Hl Hm' Hl') as Hnd'. destruct Hu as [Hgf _].
  destruct (rewriteMap (Some l') g) as [m''|] eqn:Hm''; [|done]. f_equal. apply map_eq. intros n.
  apply option_eq. intros v. rewrite (lookup_rewriteMap g l' m'' Hm'' Hnd'). setoid_rewrite Hin'. split.
  - intros (o & w & (n' & v' & Hm & Hf) & Hg). pose proof (Hgf n' v' Hm) as Heq. rewrite Hf in Heq. simpl in Heq. congruence.
  - intros Hm. pose proof (Hgf n v Hm) as Heq. destruct (f n v) as [o w] eqn:Hf. eauto 10.
Qed.

Lemma restore_undone (m : gmap string string) : map_Forall (serverLabel rules) m → undoes m (restore p) (rename p).
Proof.
  intros Hm. split.
  - intros n v Hn. apply restore_rename. by apply Hm.
  - intros n v n' v' Hn Hn'. apply restore_name_inj; by apply Hm.
Qed.

(** The value of a name without one stays empty. *)
Lemma restore_no_value n : snd (restore p n "") = "".
Proof.
  unfold restore. destruct (isOriginal p n ""); [done|]. cbn [lookupKV].
  destruct (namesRestoreIdx p !! n); [done|]. destruct (Cut n "/") as [[prefix rest] []]; [|done]. cbn [negb].
  by destruct (prefixRestoreIdx p !! prefix).
Qed.
End Coherent.
