(* ===== verification/Json.v ===== *)
(** * JSON documents and the library that edits them

    kube-api-rewriter works on the bytes of a payload through
    github.com/tidwall/gjson (queries) and github.com/tidwall/sjson (edits).
    Both are outside the repository: their operations are the class [JsonLib],
    and what they document is the class [JsonLaws], stated through the document
    a text denotes.  The file also models transformers.go, list.go and map.go,
    the helpers the whole rewriter is made of. *)

From S2P Require Import Prelude GoLib.

From Stdlib Require Import Ascii.

(** ** Documents *)

Inductive json :=
| JNull
| JBool (b : bool)
| JNumber (raw : string)
| JString (s : string)
| JArray (items : list json)
| JObject (fields : list (string * json)).

(** Induction with hypotheses for the elements of arrays and objects. *)
Section Induction.
Context (P : json → Prop) (Hnull : P JNull) (Hbool : ∀ b, P (JBool b)) (Hnum : ∀ r, P (JNumber r))
  (Hstr : ∀ s, P (JString s)) (Harr : ∀ l, Forall P l → P (JArray l))
  (Hobj : ∀ fs, Forall (P ∘ snd) fs → P (JObject fs)).

Fixpoint json_deep_ind (j : json) : P j :=
  match j with
  | JNull => Hnull
  | JBool b => Hbool b
  | JNumber r => Hnum r
  | JString s => Hstr s
  | JArray l => Harr l ((fix go (l : list json) : Forall P l := match l with
      | [] => Forall_nil_2 _ | x :: l => Forall_cons_2 _ x l (json_deep_ind x) (go l) end) l)
  | JObject fs => Hobj fs ((fix go (fs : list (string * json)) : Forall (P ∘ snd) fs := match fs with
      | [] => Forall_nil_2 _ | kv :: fs => Forall_cons_2 _ kv fs (json_deep_ind (snd kv)) (go fs) end) fs)
  end.
End Induction.

(** The field of an object; the keys of an object are distinct. *)
Fixpoint jfield (k : string) (fs : list (string * json)) : option json :=
  match fs with
  | [] => None
  | (k', j) :: fs => if str_eqb k k' then Some j else jfield k fs
  end.

Fixpoint jput (k : string) (v : json) (fs : list (string * json)) : list (string * json) :=
  match fs with
  | [] => [(k, v)]
  | (k', j) :: fs => if str_eqb k k' then (k, v) :: fs else (k', j) :: jput k v fs
  end.

Fixpoint jwf (j : json) : bool :=
  match j with
  | JArray l => forallb jwf l
  | JObject fs => bool_decide (NoDup (fst <$> fs)) && forallb (λ kv, jwf (snd kv)) fs
  | _ => true
  end.

(** The value at a path of keys. *)
Fixpoint jget (ks : list string) (j : json) : option json :=
  match ks with
  | [] => Some j
  | k :: ks => match j with JObject fs => jfield k fs ≫= jget ks | _ => None end
  end.

Fixpoint jnew (ks : list string) (v : json) : json :=
  match ks with [] => v | k :: ks => JObject [(k, jnew ks v)] end.

(** The document with a value at a path of keys; objects on the way are
    created, values on the way that are no objects have no defined effect. *)
Fixpoint jset (ks : list string) (v : json) (j : json) : option json :=
  match ks with
  | [] => Some v
  | k :: ks =>
      match j with
      | JObject fs =>
          match jfield k fs with
          | Some j' => j'' ← jset ks v j'; Some (JObject (jput k j'' fs))
          | None => Some (JObject (jput k (jnew ks v) fs))
          end
      | _ => None
      end
  end.

(** ** What a [gjson.Result] says of the value it found, if any *)

(** [Result.String()]; the forms that are printed by the library, numbers and
    compound values, are left open. *)
Definition jtext (oj : option json) : option string :=
  match oj with
  | None | Some JNull => Some EmptyString
  | Some (JBool b) => Some (if b then "true" else "false")
  | Some (JString s) => Some s
  | _ => None
  end.

(** [Result.Array()] *)
Definition jarray (oj : option json) : list json :=
  match oj with
  | None | Some JNull => []
  | Some (JArray l) => l
  | Some j => [j]
  end.

(** [Result.Map()] *)
Definition jmap (oj : option json) : list (string * json) :=
  match oj with Some (JObject fs) => fs | _ => [] end.

Definition jisObject (oj : option json) : bool :=
  match oj with Some (JObject _) => true | _ => false end.

(** The Go values the rewriter stores: a string, a slice of strings (which may
    be nil) or a map of strings, marshalled with sorted keys. *)
Inductive goValue :=
| GoString (s : string)
| GoStrings (l : option (list string))
| GoMap (m : gmap string string).

Definition key_le (a b : string * string) : Prop := String.le (fst a) (fst b).
#[export] Instance key_le_dec a b : Decision (key_le a b).
Proof. unfold key_le. apply _. Defined.

Definition jstrings (l : list string) : json := JArray (JString <$> l).
Definition jentries (l : list (string * string)) : json := JObject (prod_map id JString <$> l).

Definition marshal (v : goValue) : json :=
  match v with
  | GoString s => JString s
  | GoStrings None => JNull
  | GoStrings (Some l) => jstrings l
  | GoMap m => jentries (merge_sort key_le (map_to_list m))
  end.

(** ** Paths: keys separated by dots *)

Definition is_letter (c : ascii) : bool := is_lower c || is_upper c.

Definition path_keys (path : string) : option (list string) :=
  let ks := SplitChar path "." in
  if forallb (λ k, negb (str_eqb k "") && all_chars is_letter k) ks then Some ks else None.

(** ** The library *)

Class JsonLib := {
  GResult : Type;
  gjson_GetBytes : string → string → GResult;
  gjson_ParseBytes : string → GResult;
  r_Exists : GResult → bool;
  r_IsObject : GResult → bool;
  r_String : GResult → string;
  r_Array : GResult → list GResult;
  r_Map : GResult → list (string * GResult); (** in the order a loop visits it *)
  r_Get : GResult → string → GResult;
  r_Raw : GResult → string;
  sjson_SetBytes : string → string → goValue → res string;
  sjson_SetRawBytes : string → string → string → res string;
}.

Definition array_text (items : list string) : string := "[" +:+ Join items "," +:+ "]".

(** [rep s j]: the text [s] denotes the document [j]; [repR r oj]: the result
    [r] stands for the value [oj].  The laws are about paths of plain keys and
    say nothing of texts that denote no document. *)
Class JsonLaws `{JsonLib} := {
  rep : string → json → Prop;
  repR : GResult → option json → Prop;
  rep_wf s j : rep s j → jwf j = true;
  rep_head s j : rep s j → match j with
    | JObject _ => String.get 0 s = Some "{"%char
    | JArray _ => String.get 0 s = Some "["%char
    | _ => s ≠ EmptyString
    end;
  rep_array ss js : Forall2 rep ss js → rep (array_text ss) (JArray js);
  rep_get s j path ks : rep s j → path_keys path = Some ks → repR (gjson_GetBytes s path) (jget ks j);
  rep_parse s j : rep s j → repR (gjson_ParseBytes s) (Some j);
  rep_set s j path ks v j' : rep s j → path_keys path = Some ks → jset ks (marshal v) j = Some j' →
    ∃ s', sjson_SetBytes s path v = Ok s' ∧ rep s' j';
  rep_setRaw s j path ks raw v j' : rep s j → path_keys path = Some ks → rep raw v → jset ks v j = Some j' →
    ∃ s', sjson_SetRawBytes s path raw = Ok s' ∧ rep s' j';
  repR_exists r oj : repR r oj → r_Exists r = bool_decide (is_Some oj);
  repR_isObject r oj : repR r oj → r_IsObject r = jisObject oj;
  repR_text r oj s : repR r oj → jtext oj = Some s → r_String r = s;
  repR_array r oj : repR r oj → Forall2 (λ r' j, repR r' (Some j)) (r_Array r) (jarray oj);
  repR_map r oj : repR r oj → ∃ fs, fs ≡ₚ jmap oj ∧
    Forall2 (λ kr kj, fst kr = fst kj ∧ repR (snd kr) (Some (snd kj))) (r_Map r) fs;
  repR_get r j path ks : repR r (Some j) → path_keys path = Some ks → repR (r_Get r path) (jget ks j);
  repR_raw r j : repR r (Some j) → rep (r_Raw r) j;
}.

(** ** The helpers of the rewriter

    A function from bytes to bytes is [string → res string]; where the code
    may return nil bytes without an error it is [string → res (option string)]. *)
Section Transformers.
Context `{JsonLib}.

Definition Root : string := "@ROOT".

Definition GetBytes (obj path : string) : GResult :=
  if str_eqb path Root then gjson_ParseBytes obj else gjson_GetBytes obj path.

Definition SetRawBytes (obj path value : string) : res string :=
  if str_eqb path Root then Ok value else sjson_SetRawBytes obj path value.

Definition TransformString (obj path : string) (transformFn : string → string) : res string :=
  let pathStr := gjson_GetBytes obj path in
  if negb (r_Exists pathStr) then Ok obj else
  sjson_SetBytes obj path (GoString (transformFn (r_String pathStr))).

Definition TransformObject (obj path : string) (transformFn : string → res string) : res string :=
  let pathObj := gjson_GetBytes obj path in
  if negb (r_IsObject pathObj) then Ok obj else
  rwrObj ← transformFn (r_Raw pathObj);
  sjson_SetRawBytes obj path rwrObj.

Definition TransformArrayOfStrings (obj arrayPath : string) (transformFn : string → string) : res string :=
  let items := r_Array (gjson_GetBytes obj arrayPath) in
  if list_len0 items then Ok obj else
  sjson_SetBytes obj arrayPath (GoStrings (Some ((λ item, transformFn (r_String item)) <$> items))).

Definition SkipItem : error := Errorf "remove item from the result" [].

(** The loop of [RewriteArray]: the texts written between the brackets. *)
Fixpoint rewriteItems (transformFn : string → res (option string)) (items : list GResult) : res (list string) :=
  match items with
  | [] => Ok []
  | item :: rest =>
      match transformFn (r_Raw item) with
      | Err err => if errorsIs err SkipItem then rewriteItems transformFn rest else Err err
      | Ok rwrItem => rwrItems ← rewriteItems transformFn rest; Ok (default (r_Raw item) rwrItem :: rwrItems)
      end
  end.

Definition RewriteArray (obj arrayPath : string) (transformFn : string → res (option string)) : res string :=
  let items := r_Array (GetBytes obj arrayPath) in
  if list_len0 items then Ok obj else
  rwrItems ← rewriteItems transformFn items;
  SetRawBytes obj arrayPath (array_text rwrItems).

Definition TransformPatch (obj : string) (transformMerge : option (string → res string))
    (transformJSON : option (string → res (option string))) : res string :=
  match String.get 0 obj, transformMerge, transformJSON with
  | Some "{"%char, Some transformMerge, _ => transformMerge obj
  | Some "["%char, _, Some transformJSON => RewriteArray obj Root transformJSON
  | _, _, _ => Ok obj
  end.

Definition RewriteResourceOrList (payload listKind : string) (transformFn : string → res (option string))
    : res (option string) :=
  if negb (str_eqb (r_String (gjson_GetBytes payload "kind")) listKind) then transformFn payload
  else Some <$> RewriteArray payload "items" transformFn.

Definition RewriteResourceOrList2 (payload : string) (transformFn : string → res (option string))
    : res (option string) :=
  if negb (HasSuffix (r_String (gjson_GetBytes payload "kind")) "List") then transformFn payload
  else Some <$> RewriteArray payload "items" transformFn.

Definition RewriteMapStringString (obj mapPath : string) (transformFn : string → string → string * string)
    : res string :=
  let m := r_Map (gjson_GetBytes obj mapPath) in
  if list_len0 m then Ok obj else
  sjson_SetBytes obj mapPath (GoMap (foldl (λ newMap '(k, v),
    let '(newK, newV) := transformFn k (r_String v) in <[newK := newV]> newMap) ∅ m)).
End Transformers.
