(* ===== verification/ModuleConfig.v ===== *)
(** * The configuration of the module

    controller/moduleconfig parses the settings of the ModuleConfig, which the
    webhook checks and a hook hands on; config holds what the controller reads
    at its start and turns into the same state.  A setting is the document
    [json.Marshal] makes of it, with the fields of an object in the order it
    writes them; keys are matched without regard to case, as [json.Unmarshal]
    does. *)

From S2P Require Import Prelude GoLib Reconciler GpuApi PoolApi PoolAdmission CpReconciler PoolSync PodWebhook.
From S2P Require Import DeviceInventory Bootstrap Json.

From Stdlib Require Import Ascii.

(** ** [json.Unmarshal] into the structs of the parsers *)

Definition typeError : error := Errorf "json: cannot unmarshal" [].

(** The fields of the object a struct is decoded from. *)
Definition structFields (raw : json) : res (list (string * json)) :=
  match raw with JObject fs => Ok fs | JNull => Ok [] | _ => Err typeError end.

(** The values for a field, in the order they are met. *)
Definition fieldValues (name : string) (fs : list (string * json)) : list json :=
  snd <$> List.filter (λ kv, EqualFold kv.1 name) fs.

Definition storeString (acc : res string) (v : json) : res string :=
  s ← acc; match v with JString s' => Ok s' | JNull => Ok s | _ => Err typeError end.
Definition stringField (name : string) (fs : list (string * json)) : res string := foldl storeString (Ok "") (fieldValues name fs).

Definition storeBool (acc : res (option bool)) (v : json) : res (option bool) :=
  _ ← acc; match v with JBool b => Ok (Some b) | JNull => Ok None | _ => Err typeError end.
Definition boolField (name : string) (fs : list (string * json)) : res (option bool) := foldl storeBool (Ok None) (fieldValues name fs).

Definition storeArray (acc : res (list json)) (v : json) : res (list json) :=
  _ ← acc; match v with JArray l => Ok l | JNull => Ok [] | _ => Err typeError end.
Definition arrayField (name : string) (fs : list (string * json)) : res (list json) := foldl storeArray (Ok []) (fieldValues name fs).

Definition storeObject (acc : res (list (string * json))) (v : json) : res (list (string * json)) :=
  l ← acc; fs ← structFields v; Ok (l ++ fs).
Definition objectField (name : string) (fs : list (string * json)) : res (list (string * json)) := foldl storeObject (Ok []) (fieldValues name fs).

(** A [json.RawMessage] *)
Definition rawField (name : string) (fs : list (string * json)) : option json := last (fieldValues name fs).

Fixpoint decodeAll {A B} (f : A → res B) (l : list A) : res (list B) :=
  match l with [] => Ok [] | a :: rest => b ← f a; bs ← decodeAll f rest; Ok (b :: bs) end.
Definition decodeString (v : json) : res string := match v with JString s => Ok s | JNull => Ok "" | _ => Err typeError end.
Definition stringsField (name : string) (fs : list (string * json)) : res (list string) := l ← arrayField name fs; decodeAll decodeString l.
Definition decodeEntry (kv : string * json) : res (string * string) := v ← decodeString kv.2; Ok (kv.1, v).
Definition stringMapField (name : string) (fs : list (string * json)) : res (gmap string string) :=
  l ← objectField name fs; kvs ← decodeAll decodeEntry l; Ok (foldl (λ m kv, <[kv.1 := kv.2]> m) ∅ kvs).

(** A setting that is there: [len(raw) != 0] and not null. *)
Definition present (raw : option json) : option json := match raw with None | Some JNull => None | _ => raw end.

Definition withText {A} (text : string) (r : res A) : res A := match r with Ok a => Ok a | Err e => Err (Wrapf text [] e) end.

(** ** state.go, defaults.go *)

Record ManagedNodesSettings := mkManagedSettings { mns_LabelKey : string; mns_EnabledByDefault : bool }.
Record DeviceApprovalSettings := mkApprovalSettings { das_Mode : string; das_Selector : option LabelSelector }.
Record SchedulingSettings := mkSchedulingSettings { scs_DefaultStrategy : string; scs_TopologyKey : string }.
Record HTTPSSettings := mkHTTPSSettings { hs_Mode : string; hs_CertManagerIssuer : string; hs_CustomCertificateSecret : string }.
Record GlobalValues := mkGlobalValues { gv_Mode : string; gv_CertManagerIssuer : string; gv_CustomSecret : string }.
Record Input := mkInput { inp_Enabled : option bool; inp_Settings : gmap string json; inp_Global : GlobalValues }.
Record Settings := mkSettings {
  se_ManagedNodes : ManagedNodesSettings;
  se_DeviceApproval : DeviceApprovalSettings;
  se_Scheduling : SchedulingSettings;
  se_Placement : list string;
  se_ServiceMonitor : bool;
  se_LogLevel : string;
}.
Record State := mkState {
  sta_Enabled : bool;
  sta_Settings : Settings;
  sta_ResyncPeriod : string;
  sta_HighAvailability : option bool;
  sta_HTTPS : HTTPSSettings;
  sta_Sanitized : gmap string json;
}.

Definition HTTPSModeDisabled : string := "Disabled".
Definition HTTPSModeCertManager : string := "CertManager".
Definition HTTPSModeCustomCertificate : string := "CustomCertificate".
Definition HTTPSModeOnlyInURI : string := "OnlyInURI".

Definition DefaultNodeLabelKey : string := "gpu.deckhouse.io/enabled".
Definition DefaultSchedulingStrategy : string := "Spread".
Definition DefaultSchedulingTopology : string := "topology.kubernetes.io/zone".
Definition DefaultMonitoringService : bool := true.
Definition DefaultInventoryResyncPeriod : string := "".
Definition DefaultLogLevel : string := "Info".
Definition DefaultHTTPSMode : string := HTTPSModeCertManager.
Definition DefaultHTTPSCertManagerIssuer : string := "letsencrypt".

Definition managedJSON (s : ManagedNodesSettings) : json :=
  JObject [("enabledByDefault", JBool (mns_EnabledByDefault s)); ("labelKey", JString (mns_LabelKey s))].
Definition schedulingJSON (s : SchedulingSettings) : json :=
  JObject [("defaultStrategy", JString (scs_DefaultStrategy s)); ("topologyKey", JString (scs_TopologyKey s))].
Definition approvalJSON (mode : string) (selector : option json) : json :=
  JObject (("mode", JString mode) :: match selector with Some j => [("selector", j)] | None => [] end).
Definition certManagerJSON (issuer : string) : json :=
  JObject [("certManager", JObject [("clusterIssuerName", JString issuer)]); ("mode", JString HTTPSModeCertManager)].
Definition customCertificateJSON (secret : string) : json :=
  JObject [("customCertificate", JObject [("secretName", JString secret)]); ("mode", JString HTTPSModeCustomCertificate)].

Definition DefaultState : State :=
  let managed := mkManagedSettings DefaultNodeLabelKey true in
  let scheduling := mkSchedulingSettings DefaultSchedulingStrategy DefaultSchedulingTopology in
  mkState false
    (mkSettings managed (mkApprovalSettings DeviceApprovalModeManual None) scheduling [] DefaultMonitoringService DefaultLogLevel)
    DefaultInventoryResyncPeriod None (mkHTTPSSettings DefaultHTTPSMode DefaultHTTPSCertManagerIssuer "")
    (list_to_map
       [("managedNodes", managedJSON managed); ("deviceApproval", approvalJSON DeviceApprovalModeManual None);
        ("scheduling", schedulingJSON scheduling); ("placement", JObject [("customTolerationKeys", JArray [])]);
        ("monitoring", JObject [("serviceMonitor", JBool DefaultMonitoringService)]); ("logLevel", JString DefaultLogLevel);
        ("inventory", JObject [("resyncPeriod", JString DefaultInventoryResyncPeriod)]); ("https", certManagerJSON DefaultHTTPSCertManagerIssuer)]).

(** ** parse_managed.go, parse_scheduling.go, parse_monitoring.go, parse_loglevel.go, parse_placement.go, parse_bool.go *)

Definition parseManaged (raw : option json) : res ManagedNodesSettings :=
  match present raw with
  | None => Ok (mkManagedSettings DefaultNodeLabelKey true)
  | Some raw =>
      withText "decode managedNodes: %w" (
        fs ← structFields raw;
        labelKey ← stringField "labelKey" fs;
        enabled ← boolField "enabledByDefault" fs;
        Ok (mkManagedSettings (orValue (TrimSpace labelKey) DefaultNodeLabelKey) (default true enabled)))
  end.

Definition normalizeStrategy (strategy : string) : string :=
  let v := ToLower (TrimSpace strategy) in
  if str_eqb v "spread" then "Spread" else if str_eqb v "binpack" then "BinPack" else "".

Definition parseScheduling (raw : option json) : res SchedulingSettings :=
  match present raw with
  | None => Ok (mkSchedulingSettings DefaultSchedulingStrategy DefaultSchedulingTopology)
  | Some raw =>
      '(strategy, topology) ← withText "decode scheduling settings: %w" (
        fs ← structFields raw;
        strategy ← stringField "defaultStrategy" fs;
        topology ← stringField "topologyKey" fs;
        Ok (strategy, topology));
      let strat := normalizeStrategy strategy in
      if str_eqb strat "" && negb (str_eqb (TrimSpace strategy) "") then Err (Errorf "unknown scheduling.defaultStrategy %q" [strategy]) else
      let strat := orValue strat DefaultSchedulingStrategy in
      let topo := TrimSpace topology in
      Ok (mkSchedulingSettings strat (if str_eqb strat DefaultSchedulingStrategy && str_eqb topo "" then DefaultSchedulingTopology else topo))
  end.

Definition parseMonitoring (raw : option json) : res bool :=
  match present raw with
  | None => Ok DefaultMonitoringService
  | Some raw =>
      withText "decode monitoring settings: %w" (
        fs ← structFields raw;
        flag ← boolField "serviceMonitor" fs;
        Ok (default DefaultMonitoringService flag))
  end.

Definition normalizeLogLevel (level : string) : string :=
  let v := ToLower (TrimSpace level) in
  if str_eqb v "debug" then "Debug" else if str_eqb v "info" then "Info" else
  if str_eqb v "warn" then "Warn" else if str_eqb v "error" then "Error" else "".
Definition parseLogLevel (raw : option json) : res string :=
  match present raw with
  | None => Ok DefaultLogLevel
  | Some raw =>
      payload ← withText "decode logLevel: %w" (decodeString raw);
      let payload := TrimSpace payload in
      let normalized := normalizeLogLevel payload in
      if negb (str_eqb normalized "") then Ok normalized else
      if negb (str_eqb payload "") then Err (Errorf "unknown logLevel %q" [payload]) else Ok DefaultLogLevel
  end.

(** What does not decode counts for nothing. *)
Definition parsePlacement (raw : option json) : list string :=
  match present raw with
  | None => []
  | Some raw =>
      match (fs ← structFields raw; stringsField "customTolerationKeys" fs) with
      | Ok keys => dedupFrom ∅ keys
      | Err _ => []
      end
  end.
Definition parseFlag (raw : option json) : option bool := match raw with Some (JBool b) => Some b | _ => None end.

(** ** parse_inventory.go *)

(** [^\d+(s|m|h)$] and the length of a unit in nanoseconds *)
Definition unitOf (c : ascii) : option Z :=
  if bool_decide (c = "s"%char) then Some 1000000000 else
  if bool_decide (c = "m"%char) then Some 60000000000 else
  if bool_decide (c = "h"%char) then Some 3600000000000 else None.
Fixpoint resyncParts (digits s : string) : option (string * Z) :=
  match s with
  | EmptyString => None
  | String c rest =>
      if is_digit c then resyncParts (digits +:+ String c EmptyString) rest else
      match rest with EmptyString => pair digits <$> unitOf c | _ => None end
  end.
Definition inventoryResyncPattern (s : string) : option (string * Z) :=
  match resyncParts "" s with Some (digits, u) => if str_eqb digits "" then None else Some (digits, u) | None => None end.

(** [time.ParseDuration] of a string of this form fails when the nanoseconds
    do not fit into an int64. *)
Definition ParseDurationResync (digits : string) (unit : Z) : option Z :=
  n ← digits_val 0 digits; if n * unit <? 2 ^ 63 then Some (n * unit) else None.

Definition parseInventory (raw : option json) : res string :=
  match present raw with
  | None => Ok DefaultInventoryResyncPeriod
  | Some raw =>
      period ← withText "decode inventory settings: %w" (fs ← structFields raw; stringField "resyncPeriod" fs);
      let trimmed := TrimSpace period in
      if str_eqb trimmed "" then Ok DefaultInventoryResyncPeriod else
      match inventoryResyncPattern trimmed with
      | None => Err (Errorf "parse inventory.resyncPeriod: value %q does not match" [trimmed])
      | Some (digits, unit) =>
          match ParseDurationResync digits unit with
          | None => Err (Errorf "parse inventory.resyncPeriod: %w" [trimmed])
          | Some _ => Ok trimmed
          end
      end
  end.

(** ** parse_https.go *)

Definition normalizeHTTPSMode (mode : string) : string :=
  let v := ToLower (TrimSpace mode) in
  if str_eqb v "certmanager" then HTTPSModeCertManager else
  if str_eqb v "customcertificate" then HTTPSModeCustomCertificate else
  if str_eqb v "onlyinuri" then HTTPSModeOnlyInURI else
  if str_eqb v "disabled" then HTTPSModeDisabled else "".

(** What the settings change of mode, issuer and secret. *)
Definition httpsPayload (raw : json) (mode issuer secret : string) : res (string * string * string) :=
  '(m, i, s) ← withText "decode https settings: %w" (
    fs ← structFields raw;
    m ← stringField "mode" fs;
    cm ← objectField "certManager" fs;
    cc ← objectField "customCertificate" fs;
    i ← stringField "clusterIssuerName" cm;
    s ← stringField "secretName" cc;
    Ok (m, i, s));
  let v := normalizeHTTPSMode m in
  if str_eqb v "" && negb (str_eqb (TrimSpace m) "") then Err (Errorf "unknown https.mode %q" [m]) else
  Ok (orValue v mode, orValue (TrimSpace i) issuer, orValue (TrimSpace s) secret).

Definition parseHTTPS (raw : option json) (globals : GlobalValues) : res (HTTPSSettings * json) :=
  let mode := orValue (normalizeHTTPSMode (gv_Mode globals)) DefaultHTTPSMode in
  let issuer := orValue (TrimSpace (gv_CertManagerIssuer globals)) DefaultHTTPSCertManagerIssuer in
  let secret := TrimSpace (gv_CustomSecret globals) in
  '(mode, issuer, secret) ← match present raw with None => Ok (mode, issuer, secret) | Some raw => httpsPayload raw mode issuer secret end;
  if str_eqb mode HTTPSModeCustomCertificate then
    (if str_eqb secret "" then Err (Errorf "https.customCertificate.secretName must be set when mode=CustomCertificate" [])
     else Ok (mkHTTPSSettings mode "" secret, customCertificateJSON secret))
  else if str_eqb mode HTTPSModeOnlyInURI || str_eqb mode HTTPSModeDisabled then Ok (mkHTTPSSettings mode "" "", JObject [("mode", JString mode)])
  else Ok (mkHTTPSSettings HTTPSModeCertManager issuer "", certManagerJSON issuer).

(** ** parse_device_approval.go *)

Definition normalizeApprovalMode (mode : string) : string :=
  let v := ToLower (TrimSpace mode) in
  if str_eqb v "manual" then DeviceApprovalModeManual else
  if str_eqb v "automatic" then DeviceApprovalModeAutomatic else
  if str_eqb v "selector" then DeviceApprovalModeSelector else "".

Definition normalizeSelectorOperator (op : string) : string :=
  let v := ToLower (TrimSpace op) in
  if str_eqb v "in" then "In" else if str_eqb v "notin" then "NotIn" else
  if str_eqb v "exists" then "Exists" else if str_eqb v "doesnotexist" then "DoesNotExist" else "".

(** An element of matchExpressions, decoded and checked. *)
Definition decodeExpression (raw : json) : res (string * string * list string) :=
  fs ← structFields raw;
  key ← stringField "key" fs;
  op ← stringField "operator" fs;
  values ← stringsField "values" fs;
  Ok (key, op, values).
Definition checkExpression (item : string * string * list string) : res LabelSelectorRequirement :=
  let '(rawKey, rawOp, rawValues) := item in
  let op := normalizeSelectorOperator rawOp in
  if str_eqb op "" then Err (Errorf "unsupported selector operator %q" [rawOp]) else
  let key := TrimSpace rawKey in
  if str_eqb key "" then Err (Errorf "deviceApproval.selector.matchExpressions[].key must be set" []) else
  let values := List.filter (λ v, negb (str_eqb v "")) (TrimSpace <$> rawValues) in
  if (str_eqb op "In" || str_eqb op "NotIn") && list_len0 values then Err (Errorf "selector operator %q requires non-empty values" [op]) else
  if (str_eqb op "Exists" || str_eqb op "DoesNotExist") && negb (list_len0 values) then Err (Errorf "selector operator %q does not accept values" [op]) else
  Ok (mkLsRequirement key op values).

Definition expressionJSON (r : LabelSelectorRequirement) : json :=
  JObject [("key", JString (lsr_Key r)); ("operator", JString (lsr_Operator r)); ("values", jstrings (lsr_Values r))].

(** The map the parser makes of a selector. *)
Definition selectorJSON (sel : LabelSelector) : json :=
  JObject ((if list_len0 (ls_MatchExpressions sel) then [] else [("matchExpressions", JArray (expressionJSON <$> ls_MatchExpressions sel))]) ++
           (if bool_decide (ls_MatchLabels sel = ∅) then [] else [("matchLabels", marshal (GoMap (ls_MatchLabels sel)))])).

Section Parse.
Context `{KO : KeyOrder}.

Definition checkLabel (m : gmap string string) (acc : res (gmap string string)) (key : string) : res (gmap string string) :=
  labels ← acc;
  let k := TrimSpace key in
  let v := TrimSpace (label m key) in
  if str_eqb k "" || str_eqb v "" then Err (Errorf "deviceApproval.selector.matchLabels keys and values must be non-empty" [])
  else Ok (<[k := v]> labels).

Definition parseSelector (raw : json) : res (LabelSelector * json) :=
  '(matchLabels, items) ← withText "decode selector: %w" (
    fs ← structFields raw;
    matchLabels ← stringMapField "matchLabels" fs;
    l ← arrayField "matchExpressions" fs;
    items ← decodeAll decodeExpression l;
    Ok (matchLabels, items));
  labels ← foldl (checkLabel matchLabels) (Ok ∅) (range_keys 20 (dom matchLabels));
  expressions ← decodeAll checkExpression items;
  if bool_decide (labels = ∅) && list_len0 expressions then Err (Errorf "deviceApproval.selector must define matchLabels or matchExpressions" []) else
  let selector := mkLabelSelector labels expressions in
  Ok (selector, selectorJSON selector).

Definition parseApproval (raw : option json) : res (DeviceApprovalSettings * option json) :=
  match present raw with
  | None => Ok (mkApprovalSettings DeviceApprovalModeManual None, None)
  | Some raw =>
      '(rawMode, rawSelector) ← withText "decode deviceApproval: %w" (
        fs ← structFields raw;
        mode ← stringField "mode" fs;
        Ok (mode, rawField "selector" fs));
      let mode := normalizeApprovalMode rawMode in
      if str_eqb mode "" && negb (str_eqb (TrimSpace rawMode) "") then Err (Errorf "unknown deviceApproval.mode %q" [rawMode]) else
      let mode := orValue mode DeviceApprovalModeManual in
      if negb (str_eqb mode DeviceApprovalModeSelector) then Ok (mkApprovalSettings mode None, None) else
      match present rawSelector with
      | None => Ok (mkApprovalSettings mode None, None)
      | Some raw => '(sel, mapped) ← parseSelector raw; Ok (mkApprovalSettings mode (Some sel), Some mapped)
      end
  end.

(** ** parse.go *)

Definition Parse (input : Input) : res State :=
  let raw key := inp_Settings input !! key in
  managed ← parseManaged (raw "managedNodes");
  '(approval, selector) ← parseApproval (raw "deviceApproval");
  scheduling ← parseScheduling (raw "scheduling");
  monitoring ← parseMonitoring (raw "monitoring");
  logLevel ← parseLogLevel (raw "logLevel");
  let placement := parsePlacement (raw "placement") in
  inventory ← parseInventory (raw "inventory");
  '(https, httpsMap) ← parseHTTPS (raw "https") (inp_Global input);
  let ha := parseFlag (raw "highAvailability") in
  let sanitized := sta_Sanitized DefaultState in
  let sanitized := <["managedNodes" := managedJSON managed]> sanitized in
  let sanitized := <["deviceApproval" := approvalJSON (das_Mode approval) selector]> sanitized in
  let sanitized := <["scheduling" := schedulingJSON scheduling]> sanitized in
  let sanitized := <["monitoring" := JObject [("serviceMonitor", JBool monitoring)]]> sanitized in
  let sanitized := <["logLevel" := JString logLevel]> sanitized in
  let sanitized := <["placement" := JObject [("customTolerationKeys", jstrings placement)]]> sanitized in
  let sanitized := <["inventory" := JObject [("resyncPeriod", JString inventory)]]> sanitized in
  let sanitized := <["https" := httpsMap]> sanitized in
  let sanitized := match ha with Some b => <["highAvailability" := JBool b]> sanitized | None => sanitized end in
  Ok (mkState (default (sta_Enabled DefaultState) (inp_Enabled input))
        (mkSettings managed approval scheduling placement monitoring logLevel) inventory ha https sanitized).
End Parse.

(** ** values.go *)

(** The copy of an empty list of values is a nil slice. *)
Definition valuesExpression (r : LabelSelectorRequirement) : json :=
  JObject [("key", JString (lsr_Key r)); ("operator", JString (lsr_Operator r)); ("values", if list_len0 (lsr_Values r) then JNull else jstrings (lsr_Values r))].
Definition selectorToMap (sel : LabelSelector) : json :=
  if bool_decide (ls_MatchLabels sel = ∅) && list_len0 (ls_MatchExpressions sel) then JNull else
  JObject ((if list_len0 (ls_MatchExpressions sel) then [] else [("matchExpressions", JArray (valuesExpression <$> ls_MatchExpressions sel))]) ++
           (if bool_decide (ls_MatchLabels sel = ∅) then [] else [("matchLabels", marshal (GoMap (ls_MatchLabels sel)))])).

Definition Values (s : State) : gmap string json :=
  let set := sta_Settings s in
  let selector := das_Selector (se_DeviceApproval set) in
  let topology := scs_TopologyKey (se_Scheduling set) in
  let mode := hs_Mode (sta_HTTPS s) in
  let values : gmap string json := list_to_map
    [("managedNodes", managedJSON (se_ManagedNodes set));
     ("deviceApproval", approvalJSON (das_Mode (se_DeviceApproval set)) (selectorToMap <$> selector));
     ("scheduling", JObject (("defaultStrategy", JString (scs_DefaultStrategy (se_Scheduling set))) ::
        (if str_eqb topology "" then [] else [("topologyKey", JString topology)])));
     ("monitoring", JObject [("serviceMonitor", JBool (se_ServiceMonitor set))]);
     ("logLevel", JString (se_LogLevel set));
     ("inventory", JObject [("resyncPeriod", JString (sta_ResyncPeriod s))]);
     ("https", if str_eqb mode HTTPSModeCertManager then certManagerJSON (hs_CertManagerIssuer (sta_HTTPS s)) else
               if str_eqb mode HTTPSModeCustomCertificate then customCertificateJSON (hs_CustomCertificateSecret (sta_HTTPS s)) else
               JObject [("mode", JString mode)]);
     ("internal", JObject [("moduleConfig", JObject [("enabled", JBool (sta_Enabled s));
        ("settings", JObject (merge_sort (λ a b : string * json, String.le a.1 b.1) (map_to_list (sta_Sanitized s))))])])] in
  match sta_HighAvailability s with Some b => <["highAvailability" := JBool b]> values | None => values end.

(** ** moduleconfig_webhook.go *)

Section Webhook.
Context `{KO : KeyOrder}.

Record ModuleConfigObject := mkModuleConfig { mco_Name : string; mco_Generation : Z; mco_Enabled : option bool; mco_Settings : gmap string json }.

Definition moduleConfigName : string := "gpu-control-plane".
Definition validateModuleConfig (obj : ModuleConfigObject) : option error :=
  match Parse (mkInput (mco_Enabled obj) (mco_Settings obj) (mkGlobalValues "" "" "")) with
  | Ok _ => None
  | Err e => Some (Wrapf "parse module configuration: %w" [] e)
  end.
Definition ModuleConfigValidateCreate (mc : ModuleConfigObject) : option error :=
  if negb (str_eqb (mco_Name mc) moduleConfigName) then None else validateModuleConfig mc.
Definition ModuleConfigValidateUpdate (old new : ModuleConfigObject) : option error :=
  if negb (str_eqb (mco_Name new) moduleConfigName) then None else
  if mco_Generation old =? mco_Generation new then None else validateModuleConfig new.
End Webhook.

(** ** config/system.go, module_state.go *)

Record ControllerConfig := mkControllerConfig { cc_Workers : Z; cc_ResyncPeriod : Z }.
Record LeaderElectionConfig := mkLeaderElection { le_Enabled : bool; le_Namespace : string; le_ID : string; le_ResourceLock : string }.
Record ModuleSettings := mkModuleSettings {
  mos_ManagedNodes : ManagedNodesSettings;
  mos_DeviceApproval : DeviceApprovalSettings;
  mos_Scheduling : SchedulingSettings;
  mos_Placement : list string;
  mos_ServiceMonitor : bool;
  mos_ResyncPeriod : string;
  mos_HTTPS : HTTPSSettings;
  mos_HighAvailability : option bool;
}.
Record System := mkSystem {
  sys_GPUInventory : ControllerConfig;
  sys_GPUBootstrap : ControllerConfig;
  sys_GPUPool : ControllerConfig;
  sys_LeaderElection : LeaderElectionConfig;
  sys_Module : ModuleSettings;
}.

Definition DefaultLeaderElectionID : string := "gpu-control-plane-controller-leader-election".
Definition DefaultLeaderElectionResourceLock : string := "leases".
Definition defaultControllerWorkers : Z := 1.
Definition defaultControllerResyncPeriod : Z := 30000000000.

Definition defaultControllerConfig : ControllerConfig := mkControllerConfig defaultControllerWorkers defaultControllerResyncPeriod.
Definition DefaultSystem : System :=
  mkSystem defaultControllerConfig defaultControllerConfig defaultControllerConfig
    (mkLeaderElection false "" DefaultLeaderElectionID DefaultLeaderElectionResourceLock)
    (mkModuleSettings (mkManagedSettings DefaultNodeLabelKey true) (mkApprovalSettings DeviceApprovalModeManual None)
       (mkSchedulingSettings DefaultSchedulingStrategy DefaultSchedulingTopology) [] DefaultMonitoringService DefaultInventoryResyncPeriod
       (mkHTTPSSettings DefaultHTTPSMode DefaultHTTPSCertManagerIssuer "") None).

Definition normalizeControllerWorkers (cfg : ControllerConfig) : ControllerConfig :=
  mkControllerConfig (if cc_Workers cfg <=? 0 then defaultControllerWorkers else cc_Workers cfg) (cc_ResyncPeriod cfg).
Definition normalizeControllerResync (cfg : ControllerConfig) : ControllerConfig :=
  mkControllerConfig (cc_Workers cfg) (if cc_ResyncPeriod cfg <=? 0 then defaultControllerResyncPeriod else cc_ResyncPeriod cfg).
Definition normalizeLeaderElection (cfg : LeaderElectionConfig) : LeaderElectionConfig :=
  mkLeaderElection (le_Enabled cfg) (TrimSpace (le_Namespace cfg))
    (if str_eqb (TrimSpace (le_ID cfg)) "" then DefaultLeaderElectionID else le_ID cfg)
    (if str_eqb (TrimSpace (le_ResourceLock cfg)) "" then DefaultLeaderElectionResourceLock else le_ResourceLock cfg).

Definition normalizeModuleSettings (cfg : ModuleSettings) : ModuleSettings :=
  let approval := mos_DeviceApproval cfg in
  let mode := if bool_decide (das_Mode approval ∈ [DeviceApprovalModeAutomatic; DeviceApprovalModeSelector; DeviceApprovalModeManual])
              then das_Mode approval else DeviceApprovalModeManual in
  let selector := if str_eqb mode DeviceApprovalModeSelector && bool_decide (das_Selector approval = None)
                  then Some (mkLabelSelector ∅ []) else das_Selector approval in
  let strategy := ToLower (orValue (TrimSpace (scs_DefaultStrategy (mos_Scheduling cfg))) DefaultSchedulingStrategy) in
  let strategy := if str_eqb strategy "binpack" then "BinPack" else DefaultSchedulingStrategy in
  let topology := TrimSpace (scs_TopologyKey (mos_Scheduling cfg)) in
  let https := mos_HTTPS cfg in
  let httpsMode := if bool_decide (hs_Mode https ∈ [HTTPSModeDisabled; HTTPSModeCertManager; HTTPSModeCustomCertificate; HTTPSModeOnlyInURI])
                   then hs_Mode https else DefaultHTTPSMode in
  mkModuleSettings
    (mkManagedSettings (orValue (TrimSpace (mns_LabelKey (mos_ManagedNodes cfg))) DefaultNodeLabelKey) (mns_EnabledByDefault (mos_ManagedNodes cfg)))
    (mkApprovalSettings mode selector)
    (mkSchedulingSettings strategy (if str_eqb strategy "Spread" && str_eqb topology "" then DefaultSchedulingTopology else topology))
    (dedupFrom ∅ (mos_Placement cfg)) (mos_ServiceMonitor cfg) (orValue (TrimSpace (mos_ResyncPeriod cfg)) DefaultInventoryResyncPeriod)
    (mkHTTPSSettings httpsMode (orValue (TrimSpace (hs_CertManagerIssuer https)) DefaultHTTPSCertManagerIssuer)
       (if negb (str_eqb httpsMode HTTPSModeCustomCertificate) then "" else TrimSpace (hs_CustomCertificateSecret https)))
    (mos_HighAvailability cfg).

(** [LoadFile] after the file is decoded over the defaults. *)
Definition normalizeSystem (cfg : System) : System :=
  let controller c := normalizeControllerResync (normalizeControllerWorkers c) in
  mkSystem (controller (sys_GPUInventory cfg)) (controller (sys_GPUBootstrap cfg)) (controller (sys_GPUPool cfg))
    (normalizeLeaderElection (sys_LeaderElection cfg)) (normalizeModuleSettings (sys_Module cfg)).

(** [json.Marshal] of a LabelSelector: what is empty is left out. *)
Definition requirementJSON (r : LabelSelectorRequirement) : json :=
  JObject ([("key", JString (lsr_Key r)); ("operator", JString (lsr_Operator r))] ++
           (if list_len0 (lsr_Values r) then [] else [("values", jstrings (lsr_Values r))])).
Definition labelSelectorJSON (sel : LabelSelector) : json :=
  JObject ((if list_len0 (ls_MatchExpressions sel) then [] else [("matchExpressions", JArray (requirementJSON <$> ls_MatchExpressions sel))]) ++
           (if bool_decide (ls_MatchLabels sel = ∅) then [] else [("matchLabels", marshal (GoMap (ls_MatchLabels sel)))])).

Definition moduleInput (s : ModuleSettings) : gmap string json :=
  let https := mos_HTTPS s in
  let custom := str_eqb (hs_Mode https) HTTPSModeCustomCertificate && negb (str_eqb (hs_CustomCertificateSecret https) "") in
  let input : gmap string json := list_to_map
    [("managedNodes", managedJSON (mos_ManagedNodes s));
     ("deviceApproval", approvalJSON (das_Mode (mos_DeviceApproval s)) (labelSelectorJSON <$> das_Selector (mos_DeviceApproval s)));
     ("scheduling", schedulingJSON (mos_Scheduling s));
     ("placement", JObject [("customTolerationKeys", jstrings (mos_Placement s))]);
     ("monitoring", JObject [("serviceMonitor", JBool (mos_ServiceMonitor s))]);
     ("inventory", JObject [("resyncPeriod", JString (mos_ResyncPeriod s))]);
     ("https", JObject ([("certManager", JObject [("clusterIssuerName", JString (hs_CertManagerIssuer https))])] ++
        (if custom then [("customCertificate", JObject [("secretName", JString (hs_CustomCertificateSecret https))])] else []) ++
        [("mode", JString (hs_Mode https))]))] in
  match mos_HighAvailability s with Some b => <["highAvailability" := JBool b]> input | None => input end.
Definition ModuleSettingsToState `{KeyOrder} (s : ModuleSettings) : res State := Parse (mkInput None (moduleInput s) (mkGlobalValues "" "" "")).

(** What the inventory controller reads of the state. *)
Definition inventorySettingsOf (st : State) : InventorySettings :=
  mkInventorySettings (mns_LabelKey (se_ManagedNodes (sta_Settings st))) (mns_EnabledByDefault (se_ManagedNodes (sta_Settings st)))
    (das_Mode (se_DeviceApproval (sta_Settings st))) (das_Selector (se_DeviceApproval (sta_Settings st))).

(** ** The normal form *)

Lemma orValue_trimmed v d : TrimSpace d = d → d ≠ "" → let w := orValue (TrimSpace v) d in TrimSpace w = w ∧ w ≠ "".
Proof.
  intros Hd Hne. unfold orValue. destruct (str_eqb (TrimSpace v) "") eqn:E; go_bool; [done|]. split; [apply TrimSpace_idem|done].
Qed.
Lemma orValue_set v d : v ≠ "" → orValue v d = v.
Proof. intros Hv. unfold orValue. by rewrite (proj2 (str_eqb_false _ _) Hv). Qed.

Lemma withText_ok {A} text (r : res A) a : withText text r = Ok a → r = Ok a.
Proof. by destruct r. Qed.

(** A parser that is given its own result, printed, returns it. *)
Definition normal_text (v : string) : Prop := TrimSpace v = v ∧ v ≠ "".

Lemma parsed_managed m : normal_text (mns_LabelKey m) → parseManaged (Some (managedJSON m)) = Ok m.
Proof.
  intros [Ht Hne]. destruct m as [key enabled]. cbn [mns_LabelKey] in Ht, Hne.
  change (parseManaged (Some (managedJSON (mkManagedSettings key enabled)))) with
    (Ok (mkManagedSettings (orValue (TrimSpace key) DefaultNodeLabelKey) enabled)). by rewrite Ht, orValue_set.
Qed.
Lemma parseManaged_normal raw m : parseManaged raw = Ok m → parseManaged (Some (managedJSON m)) = Ok m.
Proof.
  intros H. apply parsed_managed. unfold parseManaged in H. destruct (present raw) as [j|]; [|by injection H as <-]. apply withText_ok in H.
  destruct (structFields j) as [fs|]; [|done]. cbn [mbind res_bind] in H. destruct (stringField _ fs); [|done]. cbn [mbind res_bind] in H.
  destruct (boolField _ fs); [|done]. injection H as <-. by apply orValue_trimmed.
Qed.

Lemma parsed_scheduling m : (scs_DefaultStrategy m = "Spread" ∧ scs_TopologyKey m ≠ "" ∨ scs_DefaultStrategy m = "BinPack") →
  TrimSpace (scs_TopologyKey m) = scs_TopologyKey m → parseScheduling (Some (schedulingJSON m)) = Ok m.
Proof.
  intros Hs Ht. destruct m as [strategy topology]. cbn [scs_DefaultStrategy scs_TopologyKey] in Hs, Ht.
  change (parseScheduling (Some (schedulingJSON (mkSchedulingSettings strategy topology)))) with
    (if str_eqb (normalizeStrategy strategy) "" && negb (str_eqb (TrimSpace strategy) "") then Err (Errorf "unknown scheduling.defaultStrategy %q" [strategy]) else
     let strat := orValue (normalizeStrategy strategy) DefaultSchedulingStrategy in
     Ok (mkSchedulingSettings strat (if str_eqb strat DefaultSchedulingStrategy && str_eqb (TrimSpace topology) "" then DefaultSchedulingTopology else TrimSpace topology))).
  rewrite Ht. destruct Hs as [[-> Hne]| ->]; cbn; [by rewrite (proj2 (str_eqb_false _ _) Hne)|done].
Qed.
Lemma parseScheduling_normal raw m : parseScheduling raw = Ok m → parseScheduling (Some (schedulingJSON m)) = Ok m.
Proof.
  intros H. assert ((scs_DefaultStrategy m = "Spread" ∧ scs_TopologyKey m ≠ "" ∨ scs_DefaultStrategy m = "BinPack") ∧
    TrimSpace (scs_TopologyKey m) = scs_TopologyKey m) as [Hs Ht]; [|by apply parsed_scheduling].
  { unfold parseScheduling in H. destruct (present raw) as [j|]; [|injection H as <-; split; [by left|done]].
    destruct (withText _ _) as [[strategy topology]|]; [|done]. cbn [mbind res_bind] in H. destruct (_ && negb _); [done|]. injection H as <-. cbn [scs_DefaultStrategy scs_TopologyKey].
    destruct (str_eqb (TrimSpace topology) "") eqn:Et; go_bool;
      (unfold orValue, normalizeStrategy; repeat case_match; split; auto using TrimSpace_idem); try (left; split; done); by rewrite Et. }
Qed.

Lemma parseLogLevel_normal raw m : parseLogLevel raw = Ok m → parseLogLevel (Some (JString m)) = Ok m.
Proof.
  intros H. assert (m = "Debug" ∨ m = "Info" ∨ m = "Warn" ∨ m = "Error") as Hm; [|by destruct Hm as [->|[->|[->| ->]]]].
  unfold parseLogLevel in H. destruct (present raw) as [j|]; [|injection H as <-; auto].
  destruct (withText _ _) as [payload|]; [|done]. cbn [mbind res_bind] in H. unfold normalizeLogLevel in H.
  repeat (case_match; try done); simplify_eq; auto.
Qed.

Lemma parseInventory_normal raw m : parseInventory raw = Ok m → parseInventory (Some (JObject [("resyncPeriod", JString m)])) = Ok m.
Proof.
  intros H. assert (m = "" ∨ TrimSpace m = m ∧ m ≠ "" ∧ ∃ digits unit, inventoryResyncPattern m = Some (digits, unit) ∧ is_Some (ParseDurationResync digits unit)) as Hm.
  { unfold parseInventory in H. destruct (present raw) as [j|]; [|injection H as <-; by left].
    destruct (withText _ _) as [period|]; [|done]. cbn [mbind res_bind] in H. destruct (str_eqb (TrimSpace period) "") eqn:E; [injection H as <-; by left|].
    destruct (inventoryResyncPattern _) as [[digits unit]|] eqn:Ep; [|done]. destruct (ParseDurationResync digits unit) eqn:Ed; [|done]. injection H as <-.
    right. go_bool. split; [apply TrimSpace_idem|]. split; [done|]. exists digits, unit. by rewrite Ed. }
  change (parseInventory (Some (JObject [("resyncPeriod", JString m)]))) with
    (if str_eqb (TrimSpace m) "" then Ok "" else match inventoryResyncPattern (TrimSpace m) with
     | None => Err (Errorf "parse inventory.resyncPeriod: value %q does not match" [TrimSpace m])
     | Some (digits, unit) => match ParseDurationResync digits unit with
       | None => Err (Errorf "parse inventory.resyncPeriod: %w" [TrimSpace m]) | Some _ => Ok (TrimSpace m) end end).
  destruct Hm as [->|(Ht & Hne & digits & unit & Hp & [z Hz])]; [done|]. rewrite Ht, (proj2 (str_eqb_false _ _) Hne), Hp, Hz. done.
Qed.

Lemma decodeAll_fmap {A B C} (f : A → res B) (g : C → A) (h : C → B) l : (∀ c, c ∈ l → f (g c) = Ok (h c)) → decodeAll f (g <$> l) = Ok (h <$> l).
Proof. induction l as [|c l IH]; intros Hf; [done|]. rewrite !fmap_cons. cbn [decodeAll]. rewrite Hf by left. cbn [mbind res_bind]. rewrite IH; [done|]. intros c' Hc. apply Hf. by right. Qed.
Lemma decode_strings l : decodeAll decodeString (JString <$> l) = Ok l.
Proof. rewrite (decodeAll_fmap _ _ id); [by rewrite list_fmap_id|done]. Qed.

Lemma parsed_placement l : NoDup l → Forall (λ v, v ≠ "" ∧ TrimSpace v = v) l → parsePlacement (Some (JObject [("customTolerationKeys", jstrings l)])) = l.
Proof.
  intros Hnd Htr. change (parsePlacement (Some (JObject [("customTolerationKeys", jstrings l)]))) with
    (match decodeAll decodeString (JString <$> l) with Ok keys => dedupFrom ∅ keys | Err _ => [] end).
  rewrite decode_strings. apply dedupFrom_id; [done..|]. set_solver.
Qed.
Lemma parsePlacement_normal raw : parsePlacement (Some (JObject [("customTolerationKeys", jstrings (parsePlacement raw))])) = parsePlacement raw.
Proof.
  set (l := parsePlacement raw).
  assert (NoDup l ∧ Forall (λ v, v ≠ "" ∧ TrimSpace v = v) l) as [Hnd Htr].
  { unfold l, parsePlacement. destruct (present raw) as [j|]; [|split; [apply NoDup_nil_2|apply Forall_nil_2]].
    destruct (_ ← _; _) as [keys|]; [|split; [apply NoDup_nil_2|apply Forall_nil_2]]. split; [apply dedupFrom_NoDup|].
    apply Forall_forall. intros v (Hne & _ & Hin)%dedupFrom_spec. split; [done|]. apply list_elem_of_fmap in Hin as (w & -> & _). apply TrimSpace_idem. }
  by apply parsed_placement.
Qed.

Lemma httpsPayload_custom s m i x : httpsPayload (customCertificateJSON s) m i x = Ok (HTTPSModeCustomCertificate, i, orValue (TrimSpace s) x).
Proof. reflexivity. Qed.
Lemma payload_certManager c m i x : httpsPayload (certManagerJSON c) m i x = Ok (HTTPSModeCertManager, orValue (TrimSpace c) i, x).
Proof. reflexivity. Qed.

Lemma parseHTTPS_normal raw g h j : parseHTTPS raw g = Ok (h, j) → ∀ g', parseHTTPS (Some j) g' = Ok (h, j).
Proof.
  unfold parseHTTPS at 1. set (start := match present raw with None => _ | Some r => _ end).
  assert (∀ m i s, start = Ok (m, i, s) → (TrimSpace i = i ∧ i ≠ "") ∧ TrimSpace s = s) as Hstart.
  { unfold start. intros m i s. assert (TrimSpace DefaultHTTPSCertManagerIssuer = DefaultHTTPSCertManagerIssuer ∧ DefaultHTTPSCertManagerIssuer ≠ "") as [Hd Hd'] by done.
    destruct (orValue_trimmed (gv_CertManagerIssuer g) _ Hd Hd') as [Hi Hi'].
    destruct (present raw) as [r|]; [|intros [= _ <- <-]; split; [done|apply TrimSpace_idem]]. unfold httpsPayload.
    destruct (withText _ _) as [[[m0 i0] s0]|]; [|done]. cbn [mbind res_bind]. destruct (_ && negb _); [done|]. intros [= _ <- <-].
    split; [by apply orValue_trimmed|]. unfold orValue. destruct (str_eqb (TrimSpace s0) ""); apply TrimSpace_idem. }
  destruct start as [[[m i] s]|]; [|done]. destruct (Hstart m i s eq_refl) as [[Hi Hi'] Hs]. cbn [mbind res_bind].
  destruct (str_eqb m HTTPSModeCustomCertificate) eqn:E1; [|destruct (str_eqb m HTTPSModeOnlyInURI || str_eqb m HTTPSModeDisabled) eqn:E2]; go_bool.
  - destruct (str_eqb s "") eqn:E; [done|]. intros [= <- <-] g'. go_bool. unfold parseHTTPS. cbn [present customCertificateJSON].
    rewrite httpsPayload_custom, Hs, (orValue_set s) by done. cbn [mbind res_bind]. rewrite (proj2 (str_eqb_false _ _) E), E1. done.
  - intros [= <- <-] g'. by destruct E2 as [-> | ->].
  - intros [= <- <-] g'. unfold parseHTTPS. cbn [present certManagerJSON]. by rewrite payload_certManager, Hi, (orValue_set i).
Qed.

(** *** Selectors *)

Lemma entries_decode (m : gmap string string) l : l ≡ₚ map_to_list m → foldl (λ (m : gmap string string) kv, <[kv.1 := kv.2]> m) ∅ l = m.
Proof.
  intros Hl. assert (NoDup l.*1) as Hnd by (rewrite Hl; apply NoDup_fst_map_to_list).
  assert (∀ (acc : gmap string string), l.*1 ## elements (dom acc) → foldl (λ (m : gmap string string) kv, <[kv.1 := kv.2]> m) acc l = list_to_map l ∪ acc) as Hf.
  { clear Hl. induction l as [|[k v] l IH]; intros acc Hd; [symmetry; apply (left_id_L ∅ (∪))|]. rewrite fmap_cons in Hnd, Hd. apply NoDup_cons in Hnd as [Hk Hnd].
    cbn [foldl list_to_map foldr fst snd uncurry]. rewrite IH; [|done|].
    - rewrite <- insert_union_r by (by apply not_elem_of_list_to_map_1). by rewrite insert_union_l.
    - intros x Hx. rewrite elem_of_elements, dom_insert, elem_of_union, elem_of_singleton. intros [->|Hd']; [done|]. eapply Hd; [by right|by apply elem_of_elements]. }
  rewrite Hf by set_solver. rewrite (right_id_L ∅ (∪)). rewrite (list_to_map_proper l (map_to_list m)); [apply list_to_map_to_list|done..].
Qed.

Lemma marshal_decode m : ∃ l, marshal (GoMap m) = jentries l ∧ l ≡ₚ map_to_list m.
Proof. eexists. split; [reflexivity|]. apply merge_sort_Permutation. Qed.
Lemma entries_ok l : decodeAll decodeEntry (prod_map id JString <$> l) = Ok l.
Proof. rewrite (decodeAll_fmap _ _ id); [by rewrite list_fmap_id|]. by intros [k v] _. Qed.
Lemma stringMap_entries name l : EqualFold name name = true →
  stringMapField name [(name, jentries l)] = Ok (foldl (λ m kv, <[kv.1 := kv.2]> m) ∅ l).
Proof.
  intros Hn. unfold stringMapField, objectField, fieldValues. cbn [List.filter fst]. rewrite Hn. cbn [fmap list_fmap snd foldl storeObject mbind res_bind structFields jentries app].
  by rewrite entries_ok.
Qed.

Lemma decodeExpression_ok r : decodeExpression (expressionJSON r) = Ok (lsr_Key r, lsr_Operator r, lsr_Values r).
Proof.
  change (decodeExpression (expressionJSON r)) with
    (values ← decodeAll decodeString (JString <$> lsr_Values r); Ok (lsr_Key r, lsr_Operator r, values)). by rewrite decode_strings.
Qed.

Definition normal_requirement (r : LabelSelectorRequirement) : Prop := checkExpression (lsr_Key r, lsr_Operator r, lsr_Values r) = Ok r.
Record normal_selector (sel : LabelSelector) : Prop := mkNormalSelector {
  normal_labels : map_Forall (λ k v, normal_text k ∧ normal_text v) (ls_MatchLabels sel);
  normal_expressions : Forall normal_requirement (ls_MatchExpressions sel);
  normal_some : ls_MatchLabels sel ≠ ∅ ∨ ls_MatchExpressions sel ≠ [];
}.

Lemma operator_normal op : normalizeSelectorOperator op ≠ "" → normalizeSelectorOperator (normalizeSelectorOperator op) = normalizeSelectorOperator op.
Proof. unfold normalizeSelectorOperator at 1 3 4. repeat case_match; done. Qed.
Lemma filter_trimmed l : List.filter (λ v, negb (str_eqb v "")) (TrimSpace <$> List.filter (λ v, negb (str_eqb v "")) (TrimSpace <$> l)) =
  List.filter (λ v, negb (str_eqb v "")) (TrimSpace <$> l).
Proof.
  induction l as [|v l IH]; [done|]. rewrite fmap_cons. cbn [List.filter]. destruct (negb (str_eqb (TrimSpace v) "")) eqn:E; [|done].
  rewrite fmap_cons, TrimSpace_idem. cbn [List.filter]. by rewrite E, IH.
Qed.
Lemma checkExpression_normal item r : checkExpression item = Ok r → normal_requirement r.
Proof.
  destruct item as [[k o] vs]. unfold normal_requirement, checkExpression. destruct (str_eqb (normalizeSelectorOperator o) "") eqn:Eo; [done|].
  destruct (str_eqb (TrimSpace k) "") eqn:Ek; [done|]. set (values := List.filter _ (TrimSpace <$> vs)).
  destruct (_ && list_len0 values) eqn:E1; [done|]. destruct (_ && negb (list_len0 values)) eqn:E2; [done|]. intros [= <-]. cbn [lsr_Key lsr_Operator lsr_Values].
  rewrite operator_normal, TrimSpace_idem by (by apply str_eqb_false in Eo). rewrite Eo, Ek.
  unfold values. rewrite filter_trimmed. fold values. by rewrite E1, E2.
Qed.
Lemma decodeAll_Forall {A B} (f : A → res B) (P : B → Prop) l bs : (∀ a b, f a = Ok b → P b) → decodeAll f l = Ok bs → Forall P bs.
Proof.
  intros Hf. revert bs. induction l as [|a l IH]; intros bs; cbn [decodeAll]; [intros [= <-]; constructor|].
  destruct (f a) as [b|] eqn:Ea; [|done]. cbn [mbind res_bind]. destruct (decodeAll f l) as [bs'|]; [|done]. intros [= <-]. constructor; [by eapply Hf|by apply IH].
Qed.

Section Normal.
Context `{KO : KeyOrder}.

Lemma checkLabels_normal m keys acc labels : map_Forall (λ k v, normal_text k ∧ normal_text v) acc →
  foldl (checkLabel m) (Ok acc) keys = Ok labels → map_Forall (λ k v, normal_text k ∧ normal_text v) labels.
Proof.
  revert acc. induction keys as [|k keys IH]; intros acc Hacc; cbn [foldl]; [by intros [= <-]|]. unfold checkLabel at 2. cbn [mbind res_bind].
  destruct (str_eqb (TrimSpace k) "" || str_eqb (TrimSpace (label m k)) "") eqn:E.
  - intros H. exfalso. revert H. clear. induction keys as [|k keys IH]; [done|exact IH].
  - apply IH. apply orb_false_iff in E as [E1 E2]. go_bool. apply map_Forall_insert_2; [|done]. unfold normal_text. by rewrite !TrimSpace_idem.
Qed.

Lemma checkLabels_id m : map_Forall (λ k v, normal_text k ∧ normal_text v) m → foldl (checkLabel m) (Ok ∅) (range_keys 20 (dom m)) = Ok m.
Proof.
  intros Hm. assert (∀ keys acc, (∀ k, k ∈ keys → is_Some (m !! k)) → foldl (checkLabel m) (Ok acc) keys = Ok (foldl (λ acc k, <[k := label m k]> acc) acc keys)) as Hf.
  { induction keys as [|k keys IH]; intros acc Hk; cbn [foldl]; [done|]. destruct (Hk k) as [v Hv]; [by left|]. destruct (Hm _ _ Hv) as [[H1 H2] [H3 H4]].
    assert (label m k = v) as Hlab by (unfold label; by rewrite Hv). unfold checkLabel at 2. cbn [mbind res_bind]. rewrite Hlab.
    rewrite H1, H3, (proj2 (str_eqb_false _ _) H2), (proj2 (str_eqb_false _ _) H4). cbn [orb]. rewrite IH by (intros; apply Hk; by right). done. }
  rewrite Hf.
  - f_equal. transitivity (foldl (λ (acc : gmap string string) (kv : string * string), <[kv.1 := kv.2]> acc) ∅ ((λ k, (k, label m k)) <$> range_keys 20 (dom m))).
    { generalize (∅ : gmap string string). induction (range_keys 20 (dom m)) as [|k l IH]; intros acc; [done|]. cbn [foldl fmap list_fmap fst snd]. apply IH. }
    apply entries_decode. rewrite range_keys_perm. apply NoDup_Permutation.
    + apply NoDup_fmap_2; [by intros ?? [= ->]|apply NoDup_elements].
    + apply NoDup_map_to_list.
    + intros [k v]. rewrite list_elem_of_fmap, elem_of_map_to_list. split.
      * intros (k' & [= -> ->] & Hk%elem_of_elements%elem_of_dom). destruct Hk as [v Hv]. unfold label. by rewrite Hv.
      * intros Hv. exists k. unfold label. rewrite Hv. split; [done|]. apply elem_of_elements, elem_of_dom. eauto.
  - intros k Hk. rewrite range_keys_perm, elem_of_elements in Hk. by apply elem_of_dom.
Qed.

Lemma parseSelector_normal raw sel j : parseSelector raw = Ok (sel, j) → normal_selector sel ∧ j = selectorJSON sel.
Proof.
  unfold parseSelector. destruct (withText _ _) as [[labels items]|]; [|done]. cbn [mbind res_bind].
  destruct (foldl _ _ _) as [m|] eqn:Em; [|done]. cbn [mbind res_bind]. destruct (decodeAll checkExpression items) as [exprs|] eqn:Ee; [|done]. cbn [mbind res_bind].
  destruct (bool_decide (m = ∅) && list_len0 exprs) eqn:En; [done|]. intros [= <- <-]. split; [|done]. constructor; cbn.
  - eapply checkLabels_normal, Em. apply map_Forall_empty.
  - eapply decodeAll_Forall, Ee. apply checkExpression_normal.
  - apply andb_false_iff in En as [En|En]; [left; by apply bool_decide_eq_false in En|right]. by destruct exprs.
Qed.

(** What the printed selector decodes to. *)
Lemma selector_decoded sel : ∃ fs, structFields (selectorJSON sel) = Ok fs ∧ stringMapField "matchLabels" fs = Ok (ls_MatchLabels sel) ∧
  arrayField "matchExpressions" fs = Ok (expressionJSON <$> ls_MatchExpressions sel).
Proof.
  destruct sel as [m exprs]. unfold selectorJSON. cbn [ls_MatchLabels ls_MatchExpressions]. eexists. split; [reflexivity|].
  destruct (marshal_decode m) as (l & Hl & Hperm). rewrite Hl. pose proof (stringMap_entries "matchLabels" l eq_refl) as Hs. rewrite (entries_decode m l Hperm) in Hs.
  destruct exprs as [|e exprs]; case_bool_decide as Hm; subst; cbn [list_len0 app]; split; try done; try exact Hs.
Qed.

Lemma parseSelector_id sel : normal_selector sel → parseSelector (selectorJSON sel) = Ok (sel, selectorJSON sel).
Proof.
  intros [Hl He Hs]. destruct (selector_decoded sel) as (fs & H1 & H2 & H3). unfold parseSelector. rewrite H1. cbn [mbind res_bind].
  rewrite H2. cbn [mbind res_bind]. rewrite H3. cbn [mbind res_bind].
  rewrite (decodeAll_fmap _ _ (λ r, (lsr_Key r, lsr_Operator r, lsr_Values r))) by (intros; apply decodeExpression_ok). cbn [mbind res_bind withText].
  rewrite checkLabels_id by done. cbn [mbind res_bind]. rewrite (decodeAll_fmap _ _ id) by (intros r Hr; by eapply Forall_forall in He). rewrite list_fmap_id. cbn [mbind res_bind].
  destruct sel as [m exprs]. cbn [ls_MatchLabels ls_MatchExpressions] in *.
  assert (bool_decide (m = ∅) && list_len0 exprs = false) as ->; [|done].
  destruct Hs as [Hs|Hs]; [by rewrite bool_decide_false|]. destruct exprs; [done|]. apply andb_false_r.
Qed.

Lemma parseApproval_normal raw a sel : parseApproval raw = Ok (a, sel) → parseApproval (Some (approvalJSON (das_Mode a) sel)) = Ok (a, sel).
Proof.
  intros H. assert ((das_Mode a = DeviceApprovalModeManual ∨ das_Mode a = DeviceApprovalModeAutomatic ∨ das_Mode a = DeviceApprovalModeSelector) ∧
    (das_Selector a = None ∧ sel = None ∨ das_Mode a = DeviceApprovalModeSelector ∧ ∃ s, das_Selector a = Some s ∧ normal_selector s ∧ sel = Some (selectorJSON s))) as [Hm Hs].
  { unfold parseApproval in H. destruct (present raw) as [j|]; [|injection H as <- <-; split; [by left|by left]].
    destruct (withText _ _) as [[rawMode rawSel]|]; [|done]. cbn [mbind res_bind] in H. destruct (_ && negb _); [done|].
    set (mode := orValue (normalizeApprovalMode rawMode) DeviceApprovalModeManual) in H.
    assert (mode = DeviceApprovalModeManual ∨ mode = DeviceApprovalModeAutomatic ∨ mode = DeviceApprovalModeSelector) as Hm
      by (unfold mode, orValue, normalizeApprovalMode; repeat case_match; auto; done).
    destruct (negb (str_eqb mode DeviceApprovalModeSelector)) eqn:Es; [injection H as <- <-; split; [done|by left]|]. go_bool.
    destruct (present rawSel) as [r|]; [|injection H as <- <-; split; [done|by left]].
    destruct (parseSelector r) as [[s mapped]|] eqn:Ep; [|done]. cbn [mbind res_bind] in H. injection H as <- <-.
    apply parseSelector_normal in Ep as [Hn ->]. split; [done|]. right. split; [done|]. by exists s. }
  destruct a as [mode s0]. cbn [das_Mode das_Selector] in *. destruct Hs as [[-> ->]|(-> & s & -> & Hn & ->)].
  - destruct Hm as [->|[->| ->]]; reflexivity.
  - assert (present (Some (selectorJSON s)) = Some (selectorJSON s)) as Hp by done.
    change (parseApproval (Some (approvalJSON DeviceApprovalModeSelector (Some (selectorJSON s))))) with
      (match present (Some (selectorJSON s)) with
       | None => Ok (mkApprovalSettings DeviceApprovalModeSelector None, None)
       | Some raw => '(sel, mapped) ← parseSelector raw; Ok (mkApprovalSettings DeviceApprovalModeSelector (Some sel), Some mapped) end).
    by rewrite Hp, parseSelector_id.
Qed.

(** The value of a key that is written once into the sanitized settings. *)
Ltac sanitized_at Hkey := rewrite Hkey by done; repeat (rewrite lookup_insert_ne by done); apply lookup_insert_eq.

Lemma sanitized_fields input st : Parse input = Ok st → (∀ key, key ∈ ["managedNodes"; "deviceApproval"; "scheduling"; "monitoring"; "logLevel"] → is_Some (sta_Sanitized st !! key)) ∧
  ∃ fs, sta_Sanitized st !! "https" = Some (JObject fs).
Proof.
  unfold Parse. destruct (parseManaged _); [|done]. cbn [mbind res_bind]. destruct (parseApproval _) as [[? ?]|]; [|done]. cbn [mbind res_bind].
  destruct (parseScheduling _); [|done]. cbn [mbind res_bind]. destruct (parseMonitoring _); [|done]. cbn [mbind res_bind].
  destruct (parseLogLevel _); [|done]. cbn [mbind res_bind]. destruct (parseInventory _); [|done]. cbn [mbind res_bind].
  destruct (parseHTTPS _ _) as [[h j]|] eqn:Eh; [|done]. cbn [mbind res_bind]. intros [= <-]. cbn [sta_Sanitized]. split.
  - intros key Hk. rewrite !elem_of_cons, elem_of_nil in Hk. case_match; destruct Hk as [->|[->|[->|[->|[->|[]]]]]];
      eexists; repeat (rewrite lookup_insert_ne by done); apply lookup_insert_eq.
  - assert (∃ fs, j = JObject fs) as [fs ->].
    { unfold parseHTTPS in Eh. destruct (match present _ with None => _ | Some r => _ end) as [[[m i] s]|]; [|done]. cbn [mbind res_bind] in Eh.
      repeat case_match; simplify_eq; eexists; reflexivity. }
    exists fs. case_match; rewrite ?(lookup_insert_ne _ "highAvailability") by done; by rewrite lookup_insert_eq.
Qed.

(** Parsing is a normal form: the sanitized settings of an accepted input parse
    to the same state, whatever the global settings are then. *)
Lemma parse_normal input st global : Parse input = Ok st →
  Parse (mkInput (Some (sta_Enabled st)) (sta_Sanitized st) global) = Ok st.
Proof.
  intros H. unfold Parse in H.
  destruct (parseManaged (inp_Settings input !! "managedNodes")) as [managed|] eqn:E1; [|done]. cbn [mbind res_bind] in H.
  destruct (parseApproval (inp_Settings input !! "deviceApproval")) as [[approval selector]|] eqn:E2; [|done]. cbn [mbind res_bind] in H.
  destruct (parseScheduling (inp_Settings input !! "scheduling")) as [scheduling|] eqn:E3; [|done]. cbn [mbind res_bind] in H.
  destruct (parseMonitoring (inp_Settings input !! "monitoring")) as [monitoring|] eqn:E4; [|done]. cbn [mbind res_bind] in H.
  destruct (parseLogLevel (inp_Settings input !! "logLevel")) as [logLevel|] eqn:E5; [|done]. cbn [mbind res_bind] in H.
  destruct (parseInventory (inp_Settings input !! "inventory")) as [inventory|] eqn:E6; [|done]. cbn [mbind res_bind] in H.
  destruct (parseHTTPS (inp_Settings input !! "https") _) as [[https httpsMap]|] eqn:E7; [|done]. cbn [mbind res_bind] in H.
  set (placement := parsePlacement (inp_Settings input !! "placement")) in H. set (ha := parseFlag (inp_Settings input !! "highAvailability")) in H.
  set (sanitized := match ha with Some b => _ | None => _ end) in H. injection H as <-. cbn [sta_Enabled sta_Sanitized].
  assert (∀ key, key ≠ "highAvailability" → sanitized !! key = <["https" := httpsMap]> (<["inventory" := JObject [("resyncPeriod", JString inventory)]]>
    (<["placement" := JObject [("customTolerationKeys", jstrings placement)]]> (<["logLevel" := JString logLevel]> (<["monitoring" := JObject [("serviceMonitor", JBool monitoring)]]>
    (<["scheduling" := schedulingJSON scheduling]> (<["deviceApproval" := approvalJSON (das_Mode approval) selector]> (<["managedNodes" := managedJSON managed]> (sta_Sanitized DefaultState)))))))) !! key) as Hkey.
  { intros key Hne. unfold sanitized. destruct ha; [|done]. by rewrite lookup_insert_ne. }
  assert (parseFlag (sanitized !! "highAvailability") = ha) as Hha.
  { unfold sanitized. destruct ha; [by rewrite lookup_insert_eq|]. rewrite !lookup_insert_ne by done. reflexivity. }
  unfold Parse. cbn [inp_Settings inp_Global inp_Enabled]. rewrite Hha.
  assert (sanitized !! "managedNodes" = Some (managedJSON managed)) as -> by sanitized_at Hkey.
  assert (sanitized !! "deviceApproval" = Some (approvalJSON (das_Mode approval) selector)) as -> by sanitized_at Hkey.
  assert (sanitized !! "scheduling" = Some (schedulingJSON scheduling)) as -> by sanitized_at Hkey.
  assert (sanitized !! "monitoring" = Some (JObject [("serviceMonitor", JBool monitoring)])) as -> by sanitized_at Hkey.
  assert (sanitized !! "logLevel" = Some (JString logLevel)) as -> by sanitized_at Hkey.
  assert (sanitized !! "placement" = Some (JObject [("customTolerationKeys", jstrings placement)])) as -> by sanitized_at Hkey.
  assert (sanitized !! "inventory" = Some (JObject [("resyncPeriod", JString inventory)])) as -> by sanitized_at Hkey.
  assert (sanitized !! "https" = Some (httpsMap)) as -> by sanitized_at Hkey.
  rewrite (parseManaged_normal _ _ E1). cbn [mbind res_bind]. rewrite (parseApproval_normal _ _ _ E2). cbn [mbind res_bind].
  rewrite (parseScheduling_normal _ _ E3). cbn [mbind res_bind]. change (parseMonitoring (Some (JObject [("serviceMonitor", JBool monitoring)]))) with (Ok monitoring). cbn [mbind res_bind].
  rewrite (parseLogLevel_normal _ _ E5). cbn [mbind res_bind]. rewrite (parseInventory_normal _ _ E6). cbn [mbind res_bind].
  rewrite (parseHTTPS_normal _ _ _ _ E7). cbn [mbind res_bind]. unfold placement. rewrite parsePlacement_normal. done.
Qed.

(** *** What the controller starts with *)

(** The settings that a configuration file can give, after [LoadFile]. *)
Record normal_settings (s : ModuleSettings) : Prop := mkNormalSettings {
  ns_managed : normal_text (mns_LabelKey (mos_ManagedNodes s));
  ns_mode : das_Mode (mos_DeviceApproval s) ∈ [DeviceApprovalModeAutomatic; DeviceApprovalModeSelector; DeviceApprovalModeManual];
  ns_strategy : scs_DefaultStrategy (mos_Scheduling s) = "Spread" ∧ scs_TopologyKey (mos_Scheduling s) ≠ "" ∨ scs_DefaultStrategy (mos_Scheduling s) = "BinPack";
  ns_topology : TrimSpace (scs_TopologyKey (mos_Scheduling s)) = scs_TopologyKey (mos_Scheduling s);
  ns_placement : NoDup (mos_Placement s) ∧ Forall (λ v, v ≠ "" ∧ TrimSpace v = v) (mos_Placement s);
  ns_period : TrimSpace (mos_ResyncPeriod s) = mos_ResyncPeriod s;
  ns_https : hs_Mode (mos_HTTPS s) ∈ [HTTPSModeDisabled; HTTPSModeCertManager; HTTPSModeCustomCertificate; HTTPSModeOnlyInURI];
  ns_issuer : normal_text (hs_CertManagerIssuer (mos_HTTPS s));
  ns_secret : TrimSpace (hs_CustomCertificateSecret (mos_HTTPS s)) = hs_CustomCertificateSecret (mos_HTTPS s);
}.

Lemma normalize_normal cfg : normal_settings (normalizeModuleSettings cfg).
Proof.
  unfold normalizeModuleSettings. constructor; cbn [mos_ManagedNodes mos_DeviceApproval mos_Scheduling mos_Placement mos_ResyncPeriod mos_HTTPS mns_LabelKey das_Mode
    scs_DefaultStrategy scs_TopologyKey hs_Mode hs_CertManagerIssuer hs_CustomCertificateSecret].
  - by apply orValue_trimmed.
  - case_bool_decide; [done|]. apply (bool_decide_unpack _). vm_compute. exact I.
  - destruct (str_eqb _ "binpack"); [by right|left]. split; [done|]. cbn [andb]. change (str_eqb DefaultSchedulingStrategy "Spread") with true. cbn [andb].
    destruct (str_eqb (TrimSpace _) "") eqn:E; [done|]. by go_bool.
  - destruct (_ && _); [done|apply TrimSpace_idem].
  - split; [apply dedupFrom_NoDup|]. apply Forall_forall. intros v (Hne & _ & Hin)%dedupFrom_spec. split; [done|].
    apply list_elem_of_fmap in Hin as (w & -> & _). apply TrimSpace_idem.
  - unfold orValue. destruct (str_eqb _ ""); [done|apply TrimSpace_idem].
  - case_bool_decide; [done|]. apply (bool_decide_unpack _). vm_compute. exact I.
  - by apply orValue_trimmed.
  - destruct (negb _); [done|apply TrimSpace_idem].
Qed.

(** The fields that decide what [Parse] makes of the settings. *)
Lemma moduleInput_at s key : key ≠ "highAvailability" → moduleInput s !! key = moduleInput (mkModuleSettings (mos_ManagedNodes s) (mos_DeviceApproval s) (mos_Scheduling s)
  (mos_Placement s) (mos_ServiceMonitor s) (mos_ResyncPeriod s) (mos_HTTPS s) None) !! key.
Proof. intros Hne. unfold moduleInput. cbn. destruct (mos_HighAvailability s); [|done]. by rewrite lookup_insert_ne. Qed.

Lemma started_approval mode sel a j : mode ∈ [DeviceApprovalModeAutomatic; DeviceApprovalModeSelector; DeviceApprovalModeManual] →
  parseApproval (Some (approvalJSON mode sel)) = Ok (a, j) → das_Mode a = mode.
Proof.
  intros Hm. assert (∀ raw : json, present (Some raw) = None ∨ present (Some raw) = Some raw) as Hp by (intros []; auto).
  unfold parseApproval. cbn [present approvalJSON structFields mbind res_bind]. set (fs := _ :: _).
  assert (stringField "mode" fs = Ok mode) as -> by (unfold fs; by destruct sel). cbn [mbind res_bind withText].
  assert (normalizeApprovalMode mode = mode ∧ mode ≠ "") as [-> Hne].
  { rewrite !elem_of_cons, elem_of_nil in Hm. by destruct Hm as [->|[->|[->|[]]]]. }
  rewrite orValue_set, (proj2 (str_eqb_false _ _) Hne) by done. cbn [andb]. destruct (negb _); [by intros [= <- _]|].
  destruct (present (rawField "selector" fs)) as [r|]; [|by intros [= <- _]].
  destruct (parseSelector r) as [[s m]|]; [|done]. cbn [mbind res_bind]. by intros [= <- _].
Qed.
Lemma started_inventory period p : TrimSpace period = period → parseInventory (Some (JObject [("resyncPeriod", JString period)])) = Ok p → p = period.
Proof.
  intros Ht. change (parseInventory (Some (JObject [("resyncPeriod", JString period)]))) with
    (if str_eqb (TrimSpace period) "" then Ok "" else match inventoryResyncPattern (TrimSpace period) with
     | None => Err (Errorf "parse inventory.resyncPeriod: value %q does not match" [TrimSpace period])
     | Some (digits, unit) => match ParseDurationResync digits unit with
       | None => Err (Errorf "parse inventory.resyncPeriod: %w" [TrimSpace period]) | Some _ => Ok (TrimSpace period) end end).
  rewrite Ht. destruct (str_eqb period "") eqn:E; go_bool; [by intros [= <-]|]. repeat case_match; by intros [= <-].
Qed.
Lemma started_https (m issuer secret : string) (custom : bool) g h j :
  m ∈ [HTTPSModeDisabled; HTTPSModeCertManager; HTTPSModeCustomCertificate; HTTPSModeOnlyInURI] →
  parseHTTPS (Some (JObject ([("certManager", JObject [("clusterIssuerName", JString issuer)])] ++
    (if custom then [("customCertificate", JObject [("secretName", JString secret)])] else []) ++ [("mode", JString m)]))) g = Ok (h, j) → hs_Mode h = m.
Proof.
  intros Hm. unfold parseHTTPS. cbn [present]. set (doc := JObject _). set (i0 := orValue (TrimSpace (gv_CertManagerIssuer g)) _). set (m0 := orValue (normalizeHTTPSMode _) _).
  assert (∃ i s, httpsPayload doc m0 i0 (TrimSpace (gv_CustomSecret g)) = Ok (m, i, s)) as (i & s & ->).
  { rewrite !elem_of_cons, elem_of_nil in Hm. unfold doc. destruct custom, Hm as [->|[->|[->|[->|[]]]]]; eexists _, _; reflexivity. }
  cbn [mbind res_bind]. rewrite !elem_of_cons, elem_of_nil in Hm. destruct Hm as [->|[->|[->|[->|[]]]]]; cbn; [by intros [= <- _]..| |by intros [= <- _]].
  destruct (str_eqb s ""); [done|]. by intros [= <- _].
Qed.

(** The controller works with what its configuration file says: when the
    normalised settings of the file are accepted, the state it starts with has
    their nodes, approval mode, scheduling, toleration keys, monitoring, resync
    period, availability and HTTPS mode, and is marked as not enabled. *)
Theorem module_started cfg st : let s := normalizeModuleSettings cfg in ModuleSettingsToState s = Ok st →
  let set := sta_Settings st in
  se_ManagedNodes set = mos_ManagedNodes s ∧ das_Mode (se_DeviceApproval set) = das_Mode (mos_DeviceApproval s) ∧ se_Scheduling set = mos_Scheduling s ∧
  se_Placement set = mos_Placement s ∧ se_ServiceMonitor set = mos_ServiceMonitor s ∧ sta_ResyncPeriod st = mos_ResyncPeriod s ∧
  sta_HighAvailability st = mos_HighAvailability s ∧ hs_Mode (sta_HTTPS st) = hs_Mode (mos_HTTPS s) ∧ sta_Enabled st = false.
Proof.
  intros s H. pose proof (normalize_normal cfg) as Hn. fold s in Hn. clearbody s. destruct Hn as [H1 H2 H3 H4 [H5 H5'] H6 H7 H8 H9].
  unfold ModuleSettingsToState, Parse in H. cbn [inp_Settings inp_Global inp_Enabled] in H.
  rewrite (moduleInput_at s "managedNodes"), (moduleInput_at s "deviceApproval"), (moduleInput_at s "scheduling"), (moduleInput_at s "monitoring"),
    (moduleInput_at s "logLevel"), (moduleInput_at s "inventory"), (moduleInput_at s "https"), (moduleInput_at s "placement") in H by done.
  set (s' := mkModuleSettings _ _ _ _ _ _ _ None) in H.
  change (moduleInput s' !! "managedNodes") with (Some (managedJSON (mos_ManagedNodes s))) in H. rewrite parsed_managed in H by done. cbn [mbind res_bind] in H.
  change (moduleInput s' !! "deviceApproval") with (Some (approvalJSON (das_Mode (mos_DeviceApproval s)) (labelSelectorJSON <$> das_Selector (mos_DeviceApproval s)))) in H.
  destruct (parseApproval _) as [[a j]|] eqn:Ea; [|done]. apply started_approval in Ea; [|done]. cbn [mbind res_bind] in H.
  change (moduleInput s' !! "scheduling") with (Some (schedulingJSON (mos_Scheduling s))) in H. rewrite parsed_scheduling in H by done. cbn [mbind res_bind] in H.
  change (parseMonitoring (moduleInput s' !! "monitoring")) with (Ok (mos_ServiceMonitor s)) in H. cbn [mbind res_bind] in H.
  change (parseLogLevel (moduleInput s' !! "logLevel")) with (Ok DefaultLogLevel) in H. cbn [mbind res_bind] in H.
  change (moduleInput s' !! "inventory") with (Some (JObject [("resyncPeriod", JString (mos_ResyncPeriod s))])) in H.
  destruct (parseInventory _) as [p|] eqn:Ep; [|done]. apply started_inventory in Ep; [|done]. cbn [mbind res_bind] in H.
  destruct (parseHTTPS (moduleInput s' !! "https") _) as [[h jh]|] eqn:Eh; [|done]. cbn [mbind res_bind] in H.
  apply started_https in Eh; [|done].
  change (moduleInput s' !! "placement") with (Some (JObject [("customTolerationKeys", jstrings (mos_Placement s))])) in H. rewrite parsed_placement in H by done.
  injection H as <-. cbn. split_and!; try done. unfold moduleInput. destruct (mos_HighAvailability s); [by rewrite lookup_insert_eq|reflexivity].
Qed.

Lemma started_not_enabled s st : ModuleSettingsToState s = Ok st → sta_Enabled st = false.
Proof.
  unfold ModuleSettingsToState, Parse. cbn [inp_Enabled].
  destruct (parseManaged _); [|done]. cbn [mbind res_bind]. destruct (parseApproval _) as [[? ?]|]; [|done]. cbn [mbind res_bind].
  destruct (parseScheduling _); [|done]. cbn [mbind res_bind]. destruct (parseMonitoring _); [|done]. cbn [mbind res_bind].
  destruct (parseLogLevel _); [|done]. cbn [mbind res_bind]. destruct (parseInventory _); [|done]. cbn [mbind res_bind].
  destruct (parseHTTPS _ _) as [[? ?]|]; [|done]. cbn [mbind res_bind]. by intros [= <-].
Qed.

(** With the state the controller starts with, which nothing replaces, bootstrap
    and the usage of pools never write anything. *)
Theorem started_controllers_idle {S : Type} `{PC : PoolClient S, IC : InventoryClient S, AE : ApiErrors, MC : MetaConditions, BR : !BootReader (S := S), PR : PodReader S}
    s st : ModuleSettingsToState s = Ok st →
  (∀ now cfg name (srv : S), (BootstrapReconcile now cfg (sta_Enabled st) name srv).2 = srv) ∧
  (∀ keys strategy topology get usage (srv : S),
     reconcileUsage (Some (PodWebhook.mkModuleSettings (sta_Enabled st) keys strategy topology)) get usage srv = ((zeroResult, []), srv)).
Proof.
  intros ->%started_not_enabled. split; [|done]. intros now cfg name srv. unfold BootstrapReconcile. by destruct (fetch _) as [[?|]|].
Qed.

Lemma selector_empty : ∃ e, parseSelector (JObject []) = Err e.
Proof.
  eexists. unfold parseSelector. cbn [structFields mbind res_bind stringMapField objectField arrayField fieldValues List.filter fmap list_fmap foldl decodeAll withText].
  rewrite (dom_empty_L (M := gmap string)). assert (range_keys 20 (∅ : gset string) = []) as ->; [|reflexivity].
  apply Permutation_nil_r. by rewrite range_keys_perm, elements_empty.
Qed.

(** Approval by a selector that is not given is accepted in the ModuleConfig and
    keeps the controller from starting. *)
Theorem selector_mode_refused cfg : das_Mode (mos_DeviceApproval cfg) = DeviceApprovalModeSelector → das_Selector (mos_DeviceApproval cfg) = None →
  ∃ e, ModuleSettingsToState (normalizeModuleSettings cfg) = Err e.
Proof.
  intros Hm Hs. set (s := normalizeModuleSettings cfg).
  assert (mos_DeviceApproval s = mkApprovalSettings DeviceApprovalModeSelector (Some (mkLabelSelector ∅ []))) as Ha.
  { unfold s, normalizeModuleSettings. cbn [mos_DeviceApproval]. rewrite Hm, Hs. reflexivity. }
  clearbody s. unfold ModuleSettingsToState, Parse. cbn [inp_Settings]. destruct (parseManaged _) as [m|e]; [|by exists e]. cbn [mbind res_bind]. rewrite (moduleInput_at s "deviceApproval") by done.
  match goal with |- context [parseApproval (?m !! ?k)] => change (m !! k) with
    (Some (approvalJSON (das_Mode (mos_DeviceApproval s)) (labelSelectorJSON <$> das_Selector (mos_DeviceApproval s)))) end.
  rewrite Ha. destruct selector_empty as [e He]. exists e. cbn [das_Mode das_Selector fmap option_fmap option_map].
  match goal with |- context [parseApproval ?r] => change (parseApproval r) with
    ('(sel, mapped) ← parseSelector (JObject []); Ok (mkApprovalSettings DeviceApprovalModeSelector (Some sel), Some mapped)) end.
  rewrite He. reflexivity.
Qed.
End Normal.
