(* ===== verification/Hooks.v ===== *)
(** * The hooks of the module

    images/hooks: before Helm renders the module, hooks turn the ModuleConfig,
    the node states and the PhysicalGPUs of the cluster into values.  A hook
    reads the values as they were and returns what it sets and removes, in
    order; how values are stored and printed, YAML and SHA-256 are parameters.
    A snapshot that does not decode is an error. *)

From S2P Require Import Prelude GoLib GpuApi PoolApi Reconciler CpReconciler PoolSync DeviceInventory Bootstrap Json ModuleConfig.

Inductive valuesOp :=
| ValSet (path : string) (v : json)
| ValRemove (path : string).

Class HookValues := {
  val_Get : string → option json;
  (** [Result.String()] of a number or a compound value *)
  val_printed : json → string;
  (** whether a number is not zero *)
  val_nonzero : string → bool;
  val_errorText : error → string;
  val_sha256hex : string → string;
}.

(** ** settings/module.go, values.go *)

Definition ModuleName : string := "gpu-control-plane".
Definition ConfigRoot : string := "gpuControlPlane".
Definition NodeFeatureRuleName : string := "deckhouse-gpu-kernel-os".
Definition NFDDependencyErrorMessage : string := "Module gpu-control-plane requires the node-feature-discovery module to be enabled".
Definition hooksDefaultResyncPeriod : string := "30s".
Definition internalRoot : string := ConfigRoot +:+ ".internal".
Definition InternalModuleConfigPath : string := internalRoot +:+ ".moduleConfig".
Definition InternalModuleValidationPath : string := internalRoot +:+ ".moduleConfigValidation".
Definition InternalModuleConditionsPath : string := internalRoot +:+ ".conditions".
Definition InternalControllerPath : string := internalRoot +:+ ".controller".
Definition InternalMetricsPath : string := internalRoot +:+ ".metrics".
Definition InternalMetricsCertPath : string := InternalMetricsPath +:+ ".cert".
Definition InternalNodeFeatureRulePath : string := internalRoot +:+ ".nodeFeatureRule".
Definition InternalBootstrapStatePath : string := internalRoot +:+ ".bootstrap".
Definition HTTPSConfigPath : string := ConfigRoot +:+ ".https".

Section Hooks.
Context `{HV : HookValues, KO : KeyOrder}.

Definition resultString (r : option json) : string := match jtext r with Some s => s | None => match r with Some j => val_printed j | None => "" end end.
(** [Result.Str] *)
Definition resultStr (r : option json) : string := match r with Some (JString s) => s | _ => "" end.
(** [Result.Bool()] *)
Definition resultBool (r : option json) : bool :=
  match r with
  | Some (JBool b) => b
  | Some (JString s) => bool_decide (ToLower s ∈ ["1"; "t"; "true"])
  | Some (JNumber raw) => val_nonzero raw
  | _ => false
  end.

(** ** validate_module_config/hook.go *)

Definition ensureValuesMap (path : string) : list valuesOp :=
  match val_Get path with Some (JObject _) => [] | _ => [ValSet path (JObject [])] end.
Definition clearModuleValues : list valuesOp :=
  [ValRemove InternalModuleConfigPath; ValRemove (InternalControllerPath +:+ ".config"); ValRemove HTTPSConfigPath; ValRemove InternalMetricsPath].
Definition setValueOrRemove (path : string) (value : option json) : list valuesOp :=
  match value with None => [ValRemove path] | Some v => [ValSet path v] end.

Definition resyncPeriodOf (raw : option json) : option string :=
  match raw with Some (JObject inv) => match jfield "resyncPeriod" inv with Some (JString s) => Some s | _ => None end | _ => None end.
Definition setInventoryResyncPeriod (raw : option json) : list valuesOp :=
  let period := match resyncPeriodOf raw with Some s => TrimSpace s | None => "" end in
  if negb (str_eqb period "") && negb (str_eqb period hooksDefaultResyncPeriod)
  then ensureValuesMap ConfigRoot ++ [ValSet (ConfigRoot +:+ ".inventory") (JObject [("resyncPeriod", JString period)])]
  else [ValRemove (ConfigRoot +:+ ".inventory")].

Definition resolveHTTPSConfig (user : option json) : option json :=
  match user with
  | Some u => Some u
  | None =>
      let mode := orValue (normalizeHTTPSMode (resultString (val_Get "global.modules.https.mode"))) DefaultHTTPSMode in
      if str_eqb mode HTTPSModeCustomCertificate then
        (let secret := TrimSpace (resultString (val_Get "global.modules.https.customCertificate.secretName")) in
         if str_eqb secret "" then None else Some (customCertificateJSON secret))
      else if str_eqb mode HTTPSModeOnlyInURI || str_eqb mode HTTPSModeDisabled then Some (JObject [("mode", JString mode)])
      else Some (certManagerJSON (orValue (TrimSpace (resultString (val_Get "global.modules.https.certManager.clusterIssuerName"))) DefaultHTTPSCertManagerIssuer))
  end.

(** The configuration file of the controller; the label key of the nodes is
    the one of the device plugin. *)
Definition legacyManaged (managed : json) : json :=
  match managed with JObject m => JObject (jput "labelKey" (JString "gpu.deckhouse.io/dp-enabled") m) | j => j end.
Definition moduleSection (cfg : gmap string json) : list (string * json) :=
  (match cfg !! "deviceApproval" with Some j => [("deviceApproval", j)] | None => [] end) ++
  (match cfg !! "managedNodes" with Some j => [("managedNodes", legacyManaged j)] | None => [] end) ++
  (match cfg !! "scheduling" with Some j => [("scheduling", j)] | None => [] end).
Definition buildControllerConfig (cfg : gmap string json) : list (string * json) :=
  (match resyncPeriodOf (cfg !! "inventory") with
   | Some period => if str_eqb (TrimSpace period) "" then [] else
       [("controllers", JObject [("gpuInventory", JObject [("resyncPeriod", JString period)])])]
   | None => []
   end) ++ (if list_len0 (moduleSection cfg) then [] else [("module", JObject (moduleSection cfg))]).

Definition globalHTTPSDefaults : GlobalValues :=
  let get path := TrimSpace (resultString (val_Get path)) in
  mkGlobalValues (get "global.modules.https.mode") (get "global.modules.https.certManager.clusterIssuerName") (get "global.modules.https.customCertificate.secretName").

(** The first snapshot, decoded: whether the module is enabled, its settings. *)
Definition moduleConfigFromSnapshot (snapshot : option (res (option bool * gmap string json))) : res (option State) :=
  match snapshot with
  | None => Ok None
  | Some (Err e) => Err (Wrapf "decode ModuleConfig/gpu-control-plane: %w" [] e)
  | Some (Ok (enabled, settings)) =>
      match Parse (mkInput enabled settings globalHTTPSDefaults) with
      | Err e => Err (Wrapf "parse ModuleConfig/gpu-control-plane: %w" [] e)
      | Ok st => Ok (Some st)
      end
  end.

Definition sortedFields (m : gmap string json) : list (string * json) := merge_sort (λ a b : string * json, String.le a.1 b.1) (map_to_list m).

(** What is set for an accepted configuration. *)
Definition publishState (st : State) : list valuesOp :=
  let sanitized := sta_Sanitized st in
  let payload := ("enabled", JBool (sta_Enabled st)) :: (if bool_decide (sanitized = ∅) then [] else [("settings", JObject (sortedFields sanitized))]) in
  [ValRemove InternalModuleValidationPath] ++ ensureValuesMap ConfigRoot ++ [ValSet InternalModuleConfigPath (JObject payload)] ++
  (if sta_Enabled st then ensureValuesMap InternalMetricsPath ++ ensureValuesMap InternalMetricsCertPath else [ValRemove InternalMetricsPath]) ++
  concat ((λ key, setValueOrRemove (ConfigRoot +:+ "." +:+ key) (sanitized !! key)) <$>
    ["managedNodes"; "deviceApproval"; "scheduling"; "monitoring"; "logLevel"]) ++
  setInventoryResyncPeriod (sanitized !! "inventory") ++
  (match resolveHTTPSConfig (match sanitized !! "https" with Some (JObject f) => Some (JObject f) | _ => None end) with
   | Some https => [ValSet HTTPSConfigPath https]
   | None => [ValRemove HTTPSConfigPath]
   end) ++
  (match sanitized !! "highAvailability" with
   | Some (JBool ha) => [ValSet (ConfigRoot +:+ ".highAvailability") (JBool ha)]
   | _ => [ValRemove (ConfigRoot +:+ ".highAvailability")]
   end) ++
  (if list_len0 (buildControllerConfig sanitized) then [ValRemove (InternalControllerPath +:+ ".config")]
   else [ValSet (InternalControllerPath +:+ ".config") (JObject (buildControllerConfig sanitized))]).

Definition handleValidateModuleConfig (snapshot : option (res (option bool * gmap string json))) : list valuesOp :=
  match moduleConfigFromSnapshot snapshot with
  | Err e => ValSet InternalModuleValidationPath (JObject [("error", JString (val_errorText e))]) :: clearModuleValues
  | Ok None => clearModuleValues ++ [ValRemove InternalModuleValidationPath; ValRemove InternalMetricsPath]
  | Ok (Some st) => publishState st
  end.

(** ** module_status/hook.go *)

Definition validationSource : string := "module-status/prerequisite".
Definition conditionJSON (reason message : string) : json :=
  JObject [("message", JString message); ("reason", JString reason); ("status", JString "False"); ("type", JString "PrerequisiteNotMet")].

Definition isModuleEnabled (modules : option json) (name : string) : bool :=
  match modules with
  | Some (JString s) => EqualFold (TrimSpace s) name
  | Some (JArray l) => existsb (λ item, EqualFold (TrimSpace (resultStr (Some item))) name) l
  | _ => false
  end.
Definition setValidationError (message : string) : list valuesOp :=
  let message :=
    match val_Get InternalModuleValidationPath with
    | Some (JObject fs) =>
        let source := resultStr (jfield "source" fs) in
        let prev := TrimSpace (resultStr (jfield "error" fs)) in
        if negb (str_eqb source "") && negb (str_eqb source validationSource) && negb (str_eqb prev "") then prev +:+ "; " +:+ message else message
    | _ => message
    end in
  [ValSet InternalModuleValidationPath (JObject [("error", JString message); ("source", JString validationSource)])].
Definition clearValidationError : list valuesOp :=
  match val_Get InternalModuleValidationPath with
  | Some (JObject fs) => if str_eqb (resultStr (jfield "source" fs)) validationSource then [ValRemove InternalModuleValidationPath] else []
  | _ => []
  end.

Definition prerequisite (requireNFDModule : bool) : option (string * string) :=
  if requireNFDModule && negb (isModuleEnabled (val_Get "global.enabledModules") "node-feature-discovery")
  then Some ("NodeFeatureDiscoveryDisabled", NFDDependencyErrorMessage) else
  let msg := TrimSpace (resultStr (val_Get (InternalNodeFeatureRulePath +:+ ".error"))) in
  if str_eqb msg "" then None else Some ("NodeFeatureRuleApplyFailed", msg).

Definition handleModuleStatus (requireNFDModule : bool) : list valuesOp :=
  let enabled := match val_Get InternalModuleConfigPath with Some (JObject fs) => resultBool (jfield "enabled" fs) | _ => false end in
  if negb enabled then ValRemove InternalModuleConditionsPath :: clearValidationError else
  ensureValuesMap InternalMetricsPath ++ ensureValuesMap InternalMetricsCertPath ++
  match prerequisite requireNFDModule with
  | None => ValRemove InternalModuleConditionsPath :: clearValidationError
  | Some (reason, message) => ValSet InternalModuleConditionsPath (JArray [conditionJSON reason message]) :: setValidationError message
  end.

(** ** bootstrap_state_sync/hook.go *)

Record inventorySnapshot := mkInventorySnapshot { iv_Name : string; iv_Conditions : list Condition }.
Record physicalSnapshot := mkPhysicalSnapshot { ph_NodeName : string; ph_VendorID : string; ph_Conditions : list Condition }.

Definition conditionTrue (conditions : list Condition) (condType : string) : bool :=
  match findCondition conditions condType with Some c => str_eqb (cond_Status c) ConditionTrue | None => false end.
Definition hashStrings (items : list string) : string := val_sha256hex (Join items ",").
Definition normalizePCIID (raw : string) : string := let t := TrimSpace raw in if str_eqb t "" then "" else ToLower (TrimPrefix t "0x").

(** The snapshots that decode and name a node. *)
Definition physicalOf (snap : res physicalSnapshot) : option (string * physicalSnapshot) :=
  match snap with Ok p => let n := TrimSpace (ph_NodeName p) in if str_eqb n "" then None else Some (n, p) | Err _ => None end.
Definition inventoryOf (snap : res inventorySnapshot) : option (string * inventorySnapshot) :=
  match snap with Ok p => let n := TrimSpace (iv_Name p) in if str_eqb n "" then None else Some (n, p) | Err _ => None end.

Definition isNvidia (p : string * physicalSnapshot) : bool := str_eqb (normalizePCIID (ph_VendorID p.2)) "10de".
Definition nvidiaNodes (snaps : list (res physicalSnapshot)) : gset string := list_to_set (fst <$> List.filter isNvidia (omap physicalOf snaps)).
Definition driverReadyNodes (snaps : list (res physicalSnapshot)) : gset string :=
  list_to_set (fst <$> List.filter (λ p, isNvidia p && conditionTrue (ph_Conditions p.2) "DriverReady") (omap physicalOf snaps)).

Definition nodeEntry (conds : list Condition) : json :=
  JObject [("driverReady", JBool (conditionTrue conds "DriverReady")); ("inventoryComplete", JBool (conditionTrue conds "InventoryComplete"));
           ("monitoringReady", JBool (conditionTrue conds "MonitoringReady")); ("readyForPooling", JBool (conditionTrue conds "ReadyForPooling"));
           ("toolkitReady", JBool (conditionTrue conds "ToolkitReady")); ("workloadsDegraded", JBool (conditionTrue conds "WorkloadsDegraded"))].
Definition nodeEntries (snaps : list (res inventorySnapshot)) : gmap string json :=
  foldl (λ m p, <[p.1 := nodeEntry (iv_Conditions p.2)]> m) ∅ (omap inventoryOf snaps).
Definition discoveryNodes (snaps : list (res inventorySnapshot)) : list string :=
  fst <$> List.filter (λ p, conditionTrue (iv_Conditions p.2) "DriverReady" && conditionTrue (iv_Conditions p.2) "ToolkitReady") (omap inventoryOf snaps).

(** The nodes of every component, sorted; the components in the order of their names. *)
Definition componentNodes (states : list (res inventorySnapshot)) (gpus : list (res physicalSnapshot)) : list (string * list string) :=
  let nvidia := nvidiaNodes gpus in
  let validator := if bool_decide (nvidia = ∅) then range_keys 31 (dom (nodeEntries states)) else range_keys 30 nvidia in
  let handler := range_keys 32 (driverReadyNodes gpus) in
  prod_map id sort_Strings <$> [("dcgm", handler); ("dcgm-exporter", handler); ("gpu-feature-discovery", discoveryNodes states); ("handler", handler); ("validator", validator)].
Definition componentJSON (hostnames : list string) : json := JObject [("hash", JString (hashStrings hostnames)); ("nodes", jstrings hostnames)].

Definition handleBootstrapStateSync (states : list (res inventorySnapshot)) (gpus : list (res physicalSnapshot)) : list valuesOp :=
  if list_len0 states && list_len0 gpus then [ValRemove InternalBootstrapStatePath] else
  if bool_decide (nodeEntries states = ∅) && bool_decide (nvidiaNodes gpus = ∅) then [ValRemove InternalBootstrapStatePath] else
  let components := componentNodes states gpus in
  let hashes := sort_Strings ((λ c, c.1 +:+ ":" +:+ hashStrings c.2) <$> components) in
  [ValSet InternalBootstrapStatePath (JObject
     [("components", JObject (prod_map id componentJSON <$> components)); ("nodes", JObject (sortedFields (nodeEntries states)));
      ("version", JString (hashStrings hashes))])].

(** ** discovery-node-feature-rule/hook.go *)

Inductive patchOp := PatchCreateOrUpdate (obj : json) | PatchDelete (name : string).

Definition moduleConfigEnabled (snapshot : option (res (option bool))) : res bool :=
  match snapshot with
  | None => Ok false
  | Some (Err e) => Err (Wrapf "decode ModuleConfig/gpu-control-plane: %w" [] e)
  | Some (Ok enabled) => Ok (default false enabled)
  end.
Definition fieldsOf (r : option json) : list (string * json) := match r with Some (JObject fs) => fs | _ => [] end.
Definition ensureManagedLabels (obj : list (string * json)) : list (string * json) :=
  let meta := fieldsOf (jfield "metadata" obj) in
  let labels := fieldsOf (jfield "labels" meta) in
  let labels := jput "app.kubernetes.io/managed-by" (JString "deckhouse") (jput "app.kubernetes.io/name" (JString ModuleName) labels) in
  jput "metadata" (JObject (jput "labels" (JObject labels) meta)) obj.

(** [manifest] is what the YAML of the rule decodes to. *)
Definition handleNodeFeatureRuleSync (requireNFDModule : bool) (manifest : res (list (string * json))) (snapshot : option (res (option bool))) :
    option error * (list valuesOp * list patchOp) :=
  if requireNFDModule && negb (isModuleEnabled (val_Get "global.enabledModules") "node-feature-discovery")
  then (Some (Errorf NFDDependencyErrorMessage []), ([ValRemove InternalNodeFeatureRulePath], [PatchDelete NodeFeatureRuleName])) else
  match moduleConfigEnabled snapshot with
  | Err e => (Some e, ([], []))
  | Ok enabled =>
      let removed := ValRemove InternalNodeFeatureRulePath in
      if negb enabled then (None, ([removed], [PatchDelete NodeFeatureRuleName])) else
      match manifest with
      | Err e => (None, ([removed; ValSet InternalNodeFeatureRulePath (JObject [("error", JString (val_errorText (Wrapf "decode NodeFeatureRule manifest: %w" [] e)))])], []))
      | Ok obj =>
          (None, ([removed; ValSet InternalNodeFeatureRulePath (JObject [("name", JString NodeFeatureRuleName)])], [PatchCreateOrUpdate (JObject (ensureManagedLabels obj))]))
      end
  end.

(** ** Where the components run *)

(** A GPU that decodes, on a node. *)
Definition gpu_on (gpus : list (res physicalSnapshot)) (node : string) (ready : bool) : Prop :=
  ∃ p, Ok p ∈ gpus ∧ TrimSpace (ph_NodeName p) = node ∧ node ≠ "" ∧ normalizePCIID (ph_VendorID p) = "10de" ∧
       (ready = true → conditionTrue (ph_Conditions p) "DriverReady" = true).
Definition state_on (states : list (res inventorySnapshot)) (node : string) (ready : bool) : Prop :=
  ∃ p, Ok p ∈ states ∧ TrimSpace (iv_Name p) = node ∧ node ≠ "" ∧
       (ready = true → conditionTrue (iv_Conditions p) "DriverReady" = true ∧ conditionTrue (iv_Conditions p) "ToolkitReady" = true).

Lemma physical_elem (gpus : list (res physicalSnapshot)) n p : (n, p) ∈ omap physicalOf gpus ↔ Ok p ∈ gpus ∧ TrimSpace (ph_NodeName p) = n ∧ n ≠ "".
Proof.
  rewrite list_elem_of_omap. split.
  - intros ([q|e] & Hin & Hq); [|done]. unfold physicalOf in Hq. destruct (str_eqb _ "") eqn:E; [done|]. injection Hq as <- <-. by go_bool.
  - intros (Hin & <- & Hne). exists (Ok p). split; [done|]. unfold physicalOf. by rewrite (proj2 (str_eqb_false _ _) Hne).
Qed.
Lemma inventory_elem (states : list (res inventorySnapshot)) n p : (n, p) ∈ omap inventoryOf states ↔ Ok p ∈ states ∧ TrimSpace (iv_Name p) = n ∧ n ≠ "".
Proof.
  rewrite list_elem_of_omap. split.
  - intros ([q|e] & Hin & Hq); [|done]. unfold inventoryOf in Hq. destruct (str_eqb _ "") eqn:E; [done|]. injection Hq as <- <-. by go_bool.
  - intros (Hin & <- & Hne). exists (Ok p). split; [done|]. unfold inventoryOf. by rewrite (proj2 (str_eqb_false _ _) Hne).
Qed.

Lemma nvidia_spec gpus n : n ∈ nvidiaNodes gpus ↔ gpu_on gpus n false.
Proof.
  unfold nvidiaNodes, gpu_on. rewrite elem_of_list_to_set, list_elem_of_fmap. split.
  - intros ([m p] & -> & [Hin Hn]%elem_of_filter_bool). apply physical_elem in Hin as (H1 & H2 & H3). unfold isNvidia in Hn. go_bool. exists p. naive_solver.
  - intros (p & H1 & H2 & H3 & H4 & _). exists (n, p). split; [done|]. apply elem_of_filter_bool. split; [by apply physical_elem|]. unfold isNvidia. simpl. by rewrite H4.
Qed.
Lemma driverReady_spec gpus n : n ∈ driverReadyNodes gpus ↔ gpu_on gpus n true.
Proof.
  unfold driverReadyNodes, gpu_on. rewrite elem_of_list_to_set, list_elem_of_fmap. split.
  - intros ([m p] & -> & [Hin [Hn Hc]%andb_true_iff]%elem_of_filter_bool). apply physical_elem in Hin as (H1 & H2 & H3). unfold isNvidia in Hn. go_bool. exists p. naive_solver.
  - intros (p & H1 & H2 & H3 & H4 & H5). exists (n, p). split; [done|]. apply elem_of_filter_bool. split; [by apply physical_elem|]. unfold isNvidia. simpl. by rewrite H4, H5.
Qed.
Lemma discovery_spec states n : n ∈ discoveryNodes states ↔ state_on states n true.
Proof.
  unfold discoveryNodes, state_on. rewrite list_elem_of_fmap. split.
  - intros ([m p] & -> & [Hin [Hn Hc]%andb_true_iff]%elem_of_filter_bool). apply inventory_elem in Hin as (H1 & H2 & H3). exists p. naive_solver.
  - intros (p & H1 & H2 & H3 & H4). destruct (H4 eq_refl) as [H5 H6]. exists (n, p). split; [done|]. apply elem_of_filter_bool. split; [by apply inventory_elem|]. simpl. by rewrite H5, H6.
Qed.
Lemma entries_spec states n : n ∈ dom (nodeEntries states) ↔ state_on states n false.
Proof.
  transitivity (∃ p, (n, p) ∈ omap inventoryOf states).
  - unfold nodeEntries. assert (∀ l (m : gmap string json), n ∈ dom (foldl (λ m p, <[p.1 := nodeEntry (iv_Conditions p.2)]> m) m l) ↔ n ∈ dom m ∨ ∃ p, (n, p) ∈ l) as Hf.
    { induction l as [|[k q] l IH]; intros m; simpl; [set_solver|]. rewrite IH, dom_insert_L, elem_of_union, elem_of_singleton. split.
      - intros [[->|H]|[p H]]; [right; exists q; by left|by left|right; exists p; by right].
      - intros [H|[p [[= -> ->]|H]%elem_of_cons]]; [by left; right|left; by left|right; by exists p]. }
    rewrite Hf. set_solver.
  - unfold state_on. setoid_rewrite inventory_elem. naive_solver.
Qed.

Definition runs_on (states : list (res inventorySnapshot)) (gpus : list (res physicalSnapshot)) (component node : string) : Prop :=
  match component with
  | "gpu-feature-discovery" => state_on states node true
  | "validator" => gpu_on gpus node false ∨ (∀ n, ¬ gpu_on gpus n false) ∧ state_on states node false
  | _ => gpu_on gpus node true
  end.

Lemma components_spec states gpus component nodes : (component, nodes) ∈ componentNodes states gpus →
  StronglySorted String.le nodes ∧ ∀ n, n ∈ nodes ↔ runs_on states gpus component n.
Proof.
  intros H. unfold componentNodes in H. apply list_elem_of_fmap in H as ([c l] & [= -> ->] & Hin). split; [apply sort_Strings_sorted|].
  intros n. unfold id. rewrite sort_Strings_perm. rewrite !elem_of_cons, elem_of_nil in Hin.
  destruct Hin as [[= -> ->]|[[= -> ->]|[[= -> ->]|[[= -> ->]|[[= -> ->]|[]]]]]]; cbn [runs_on].
  1,2,4: by rewrite range_keys_perm, elem_of_elements, driverReady_spec.
  - apply discovery_spec.
  - case_bool_decide as Hn; rewrite range_keys_perm, elem_of_elements.
    + rewrite entries_spec. assert (∀ n, ¬ gpu_on gpus n false) as Hno by (intros m; rewrite <- nvidia_spec, Hn; set_solver). naive_solver.
    + rewrite nvidia_spec. split; [by left|]. intros [?|[Hno _]]; [done|]. destruct Hn. apply set_eq. intros m. rewrite nvidia_spec. split; [by intros ?%Hno|set_solver].
Qed.

Lemma jfield_elem key (f : list string → json) l j : jfield key (prod_map id f <$> l) = Some j → ∃ x, (key, x) ∈ l ∧ j = f x.
Proof.
  induction l as [|[k x] l IH]; [done|]. cbn [fmap list_fmap prod_map jfield id fst snd]. destruct (str_eqb key k) eqn:E; go_bool.
  - subst k. intros [= <-]. exists x. split; [by left|done].
  - intros (y & Hy & ->)%IH. exists y. split; [by right|done].
Qed.
Lemma JString_fmap_inj (l l' : list string) : JString <$> l = JString <$> l' → l = l'.
Proof. assert (Inj (=) (=) JString) by (by intros ?? [=]). apply (inj (fmap JString)). Qed.

(** C39: Where the module runs its components.  In the state the bootstrap hook
    publishes, the nodes of a component are sorted, and a node is listed exactly
    if: for the validator, it has an NVIDIA GPU, or no node has one and it has a
    node state; for feature discovery, its node state shows driver and toolkit
    ready; for the handler and the monitoring, it has an NVIDIA GPU whose driver
    is ready.  Objects that do not decode or name no node do not count. *)
Theorem components_placed states gpus doc component nodes :
  handleBootstrapStateSync states gpus = [ValSet InternalBootstrapStatePath doc] → jget ["components"; component; "nodes"] doc = Some (jstrings nodes) →
  StronglySorted String.le nodes ∧ ∀ n, n ∈ nodes ↔ runs_on states gpus component n.
Proof.
  unfold handleBootstrapStateSync. destruct (list_len0 states && _); [done|]. destruct (bool_decide _ && _); [done|]. intros [= <-] Hg.
  change (jget _ _) with (jfield component (prod_map id componentJSON <$> componentNodes states gpus) ≫= jget ["nodes"]) in Hg.
  destruct (jfield component _) as [j|] eqn:Ej; [|done]. apply jfield_elem in Ej as (l & Hl & ->). injection Hg as Hg. apply JString_fmap_inj in Hg as <-.
  by apply components_spec.
Qed.

(** ** What the values say of the configuration *)

Definition opPath (op : valuesOp) : string := match op with ValSet p _ => p | ValRemove p => p end.
(** The last operation on a path, or on one that it is under, decides. *)
Definition affects (path : string) (op : valuesOp) : bool := str_eqb (opPath op) path || HasPrefix path (opPath op +:+ ".").
Definition finalOp (ops : list valuesOp) (path : string) : option valuesOp := last (List.filter (affects path) ops).

Lemma finalOp_app a b path : finalOp (a ++ b) path = match finalOp b path with Some op => Some op | None => finalOp a path end.
Proof. unfold finalOp. rewrite List.filter_app, last_app. done. Qed.

Definition elsewhere (path : string) (ops : list valuesOp) : Prop := Forall (λ op, affects path op = false) ops.
Lemma finalOp_elsewhere ops path : elsewhere path ops → finalOp ops path = None.
Proof. intros He. unfold finalOp. induction He as [|op ops Hop He IH]; [done|]. cbn [List.filter]. by rewrite Hop. Qed.

Lemma sortedFields_map m : list_to_map (sortedFields m) = m.
Proof.
  unfold sortedFields. rewrite (list_to_map_proper _ (map_to_list m)); [apply list_to_map_to_list| |apply merge_sort_Permutation].
  rewrite merge_sort_Permutation. apply NoDup_fst_map_to_list.
Qed.

(** The settings and the flag that the values of the module hold. *)
Definition publishedInput (op : option valuesOp) (global : GlobalValues) : option Input :=
  match op with
  | Some (ValSet _ (JObject fs)) => Some (mkInput (parseFlag (jfield "enabled" fs)) (list_to_map (fieldsOf (jfield "settings" fs))) global)
  | _ => None
  end.

Lemma elsewhere_app path a b : elsewhere path (a ++ b) ↔ elsewhere path a ∧ elsewhere path b.
Proof. apply Forall_app. Qed.
Lemma elsewhere_ensure path q v : affects path (ValSet q v) = false → elsewhere path (ensureValuesMap q).
Proof. intros H. unfold ensureValuesMap. repeat case_match; repeat constructor; done. Qed.
Lemma elsewhere_set path q v : affects path (ValRemove q) = false → elsewhere path (setValueOrRemove q v).
Proof. intros H. unfold setValueOrRemove. repeat case_match; repeat constructor; done. Qed.

Lemma publish_elsewhere st path : path ∈ [InternalModuleConfigPath; InternalModuleValidationPath] → (∃ fs, val_Get ConfigRoot = Some (JObject fs)) →
  ∃ before after, publishState st = before ++ [ValSet InternalModuleConfigPath (JObject (("enabled", JBool (sta_Enabled st)) ::
    (if bool_decide (sta_Sanitized st = ∅) then [] else [("settings", JObject (sortedFields (sta_Sanitized st)))])))] ++ after ∧
    before = [ValRemove InternalModuleValidationPath] ∧ elsewhere path after.
Proof.
  intros Hp [fs Hroot]. assert (ensureValuesMap ConfigRoot = []) as Hr by (unfold ensureValuesMap; by rewrite Hroot).
  unfold publishState. rewrite Hr. eexists _, _. split; [reflexivity|]. split; [done|].
  rewrite !elem_of_cons, elem_of_nil in Hp.
  rewrite !elsewhere_app. split_and!.
  - destruct (sta_Enabled st); [|by repeat constructor; destruct Hp as [->|[->|[]]]].
    apply elsewhere_app. split; eapply (elsewhere_ensure _ _ JNull); by destruct Hp as [->|[->|[]]].
  - cbn [fmap list_fmap concat]. rewrite !elsewhere_app. split_and!; try apply elsewhere_set; try (by destruct Hp as [->|[->|[]]]). constructor.
  - unfold setInventoryResyncPeriod. rewrite Hr. case_match; repeat constructor; by destruct Hp as [->|[->|[]]].
  - case_match; repeat constructor; by destruct Hp as [->|[->|[]]].
  - repeat case_match; repeat constructor; by destruct Hp as [->|[->|[]]].
  - case_match; repeat constructor; by destruct Hp as [->|[->|[]]].
Qed.

(** C38: What the hook hands on.  Of a configuration that is accepted, the values
    of the module hold settings that parse to the same state, and no validation
    error is left; of one that is refused they hold the error and no settings. *)
Theorem config_published snapshot global : (∃ fs, val_Get ConfigRoot = Some (JObject fs)) →
  let ops := handleValidateModuleConfig snapshot in
  match moduleConfigFromSnapshot snapshot with
  | Ok (Some st) =>
      (∃ input, publishedInput (finalOp ops InternalModuleConfigPath) global = Some input ∧ Parse input = Ok st) ∧
      finalOp ops InternalModuleValidationPath = Some (ValRemove InternalModuleValidationPath)
  | Ok None => finalOp ops InternalModuleConfigPath = Some (ValRemove InternalModuleConfigPath) ∧
      finalOp ops InternalModuleValidationPath = Some (ValRemove InternalModuleValidationPath)
  | Err e => finalOp ops InternalModuleConfigPath = Some (ValRemove InternalModuleConfigPath) ∧
      finalOp ops InternalModuleValidationPath = Some (ValSet InternalModuleValidationPath (JObject [("error", JString (val_errorText e))]))
  end.
Proof.
  intros Hroot ops. unfold ops, handleValidateModuleConfig. destruct (moduleConfigFromSnapshot snapshot) as [[st|]|e] eqn:E; [|done|done]. split.
  - destruct (publish_elsewhere st InternalModuleConfigPath) as (before & after & -> & -> & Ha); [by left|done|].
    rewrite !finalOp_app, (finalOp_elsewhere after) by done. eexists. split; [reflexivity|]. cbn [parseFlag jfield].
    assert (Parse (mkInput (Some (sta_Enabled st)) (sta_Sanitized st) global) = Ok st) as Hp.
    { unfold moduleConfigFromSnapshot in E. destruct snapshot as [[[en settings]|]|]; [|done..]. destruct (Parse _) as [st'|] eqn:Ep; [|done].
      injection E as <-. by eapply parse_normal. }
    etransitivity; [|exact Hp]. f_equal. f_equal. case_bool_decide as He; [by rewrite He|]. simpl. apply sortedFields_map.
  - destruct (publish_elsewhere st InternalModuleValidationPath) as (before & after & -> & -> & Ha); [by right; left|done|].
    by rewrite !finalOp_app, (finalOp_elsewhere after).
Qed.
End Hooks.
