(* ===== verification/PoolExamples.v ===== *)
(** * A cluster with pools

    An API server in memory that keeps the laws the pool controllers rely on,
    and a namespaced pool with a device given to it, one withdrawn from it and
    one it no longer accepts. *)

From S2P Require Import Prelude GoLib Reconciler GpuApi PoolApi PoolAdmission CpReconciler PoolSync PoolSyncSpec.
From S2P Require Import PodWebhook PodWebhookSpec DeviceInventory Bootstrap Lifecycle DeviceInventorySpec.

From Stdlib Require Import Ascii.

Module PoolCluster.
Import ListConditions.

(** What the inventory and bootstrap controllers read. *)
Record Machines := mkMachines {
  ma_nodes : gmap string InvNode;
  ma_features : list NodeFeature;
  ma_states : gmap string GPUNodeState;
  ma_pods : list BootPod;
}.

Record Server := mkServer {
  srv_devices : gmap string GPUDevice;
  srv_nodes : gmap string Node;
  srv_pools : gmap (string * string) GPUPool;
  srv_pods : list (string * string * PoolPod);
  srv_workloads : list WorkPod;
  srv_namespaces : gmap string (gmap string string);
  srv_machines : Machines;
}.

Definition storedDevices (s : Server) : gmap string GPUDevice := filter (λ kv, gd_Name kv.2 = kv.1) (srv_devices s).
Definition storedNodes (s : Server) : gmap string Node := filter (λ kv, node_Name kv.2 = kv.1) (srv_nodes s).
Definition storedPools (s : Server) : gmap (string * string) GPUPool := filter (λ kv, key_of kv.2 = kv.1) (srv_pools s).

Definition notFound : error := External 404.
Definition found {A} (o : option A) : res A := match o with Some a => Ok a | None => Err notFound end.

#[export] Instance client : PoolClient Server := {|
  pc_ListDevices index value s := Ok ((filter (λ kv, value ∈ index kv.2) (map_to_list (storedDevices s))).*2);
  pc_GetDevice name s := found (storedDevices s !! name);
  pc_PatchDeviceStatus new base s :=
    match storedDevices s !! gd_Name new with
    | None => (Some notFound, s)
    | Some _ => (None, mkServer (<[gd_Name new := new]> (srv_devices s)) (srv_nodes s) (srv_pools s) (srv_pods s) (srv_workloads s) (srv_namespaces s) (srv_machines s))
    end;
  pc_GetNode name s := found (storedNodes s !! name);
  pc_ListNodesByLabel key value s := Ok ((filter (λ kv, node_Labels kv.2 !! key = Some value) (map_to_list (storedNodes s))).*2);
  pc_ListNodesByTaint key s := Ok ((filter (λ kv, key ∈ IndexNodeByTaintKey kv.2) (map_to_list (storedNodes s))).*2);
  pc_PatchNode new base s :=
    match storedNodes s !! node_Name new with
    | None => (Some notFound, s)
    | Some _ => (None, mkServer (srv_devices s) (<[node_Name new := new]> (srv_nodes s)) (srv_pools s) (srv_pods s) (srv_workloads s) (srv_namespaces s) (srv_machines s))
    end;
  pc_GetPool namespace name s := found (storedPools s !! (namespace, name));
  pc_GetClusterPool name s := found (storedPools s !! ("", name));
  pc_UpdatePoolStatus p s := (None, mkServer (srv_devices s) (srv_nodes s) (<[key_of p := p]> (srv_pools s)) (srv_pods s) (srv_workloads s) (srv_namespaces s) (srv_machines s));
  pc_ListValidatorPods namespace name s := Ok ((filter (λ p, p.1 = (namespace, name)) (srv_pods s)).*2);
  pc_IsNotFound e := bool_decide (e = notFound);
|}.

#[export] Instance apiErrors : ApiErrors := {| IsConflict e := bool_decide (e = External 409); noNewFinalizers e := false |}.
#[export] Instance keyOrder : KeyOrder := {| range_keys _ X := elements X; range_keys_perm _ X := reflexivity _ |}.

(** Selectors without expressions. *)
#[export] Instance selectors : LabelSelectors := {|
  Selector := gmap string string;
  LabelSelectorAsSelector sel := match ls_MatchExpressions sel with [] => Ok (ls_MatchLabels sel) | _ => Err (Errorf "not a selector" []) end;
  Selector_Matches sel labels := bool_decide (sel ⊆ labels);
|}.

Lemma stored_device s name d : storedDevices s !! name = Some d → gd_Name d = name.
Proof. intros [_ Hd]%map_lookup_filter_Some. done. Qed.
Lemma stored_node s name n : storedNodes s !! name = Some n → node_Name n = name.
Proof. intros [_ Hd]%map_lookup_filter_Some. done. Qed.

(** A listing of the stored objects that pass a test. *)
Lemma listing {A} (m : gmap string A) (name : A → string) (P : string * A → Prop) `{∀ kv, Decision (P kv)} a :
  (∀ k a, m !! k = Some a → name a = k) → a ∈ (filter P (map_to_list m)).*2 ↔ m !! name a = Some a ∧ P (name a, a).
Proof.
  intros Hname. rewrite list_elem_of_fmap. split.
  - intros ([k a'] & -> & [HP Hin]%list_elem_of_filter). apply elem_of_map_to_list in Hin. simpl. by rewrite (Hname _ _ Hin).
  - intros [Ha HP]. exists (name a, a). split; [done|]. apply list_elem_of_filter. by rewrite elem_of_map_to_list.
Qed.

Lemma listing_once (m : gmap string GPUDevice) (P : string * GPUDevice → Prop) `{∀ kv, Decision (P kv)} :
  (∀ k a, m !! k = Some a → gd_Name a = k) → NoDup (gd_Name <$> (filter P (map_to_list m)).*2).
Proof.
  intros Hname. rewrite <- list_fmap_compose. eapply sublist_NoDup; [apply (NoDup_fst_map_to_list m)|].
  rewrite (list_fmap_ext (gd_Name ∘ snd) fst (filter P (map_to_list m))).
  - apply fmap_sublist, sublist_filter.
  - intros i [k a] Hi. apply list_elem_of_lookup_2, list_elem_of_filter in Hi as [_ Hi]. apply elem_of_map_to_list in Hi. by apply Hname.
Qed.

Lemma stored_insert_device s d nodes pools pods workloads namespaces machines :
  storedDevices (mkServer (<[gd_Name d := d]> (srv_devices s)) nodes pools pods workloads namespaces machines) = <[gd_Name d := d]> (storedDevices s).
Proof. unfold storedDevices. simpl. by rewrite map_filter_insert_True. Qed.
Lemma stored_insert_node s n devices pools pods workloads namespaces machines :
  storedNodes (mkServer devices (<[node_Name n := n]> (srv_nodes s)) pools pods workloads namespaces machines) = <[node_Name n := n]> (storedNodes s).
Proof. unfold storedNodes. simpl. by rewrite map_filter_insert_True. Qed.

#[export, program] Instance server : PoolServer Server := {| devices := storedDevices; nodes := storedNodes |}.
Next Obligation. apply stored_device. Qed.
Next Obligation. apply stored_node. Qed.
Next Obligation.
  intros s index value l [= <-]. split; [apply listing_once, stored_device|]. intros d. by rewrite (listing _ gd_Name) by apply stored_device.
Qed.
Next Obligation. intros s name d. simpl. unfold found. destruct (storedDevices s !! name); by intros [= ->]. Qed.
Next Obligation. intros s name e. simpl. unfold found. by destruct (storedDevices s !! name). Qed.
Next Obligation.
  intros s new base s'. simpl. intros Hp Hb Hn _ _. rewrite Hn, Hb in Hp. injection Hp as <-. rewrite <- Hn. by rewrite stored_insert_device.
Qed.
Next Obligation. intros s new base e s'. simpl. by destruct (storedDevices s !! gd_Name new). Qed.
Next Obligation. intros s new base e s'. simpl. destruct (storedDevices s !! gd_Name new); [done|]. by intros [= _ <-]. Qed.
Next Obligation. intros s name n. simpl. unfold found. destruct (storedNodes s !! name); by intros [= ->]. Qed.
Next Obligation. intros s name e. simpl. unfold found. by destruct (storedNodes s !! name). Qed.
Next Obligation. intros s key value l [= <-] n. by rewrite (listing _ node_Name) by apply stored_node. Qed.
Next Obligation. intros s key l [= <-] n. by rewrite (listing _ node_Name) by apply stored_node. Qed.
Next Obligation.
  intros s new base s'. simpl. intros Hp Hb Hn. rewrite Hn, Hb in Hp. injection Hp as <-. rewrite <- Hn. by rewrite stored_insert_node.
Qed.
Next Obligation. intros s new base e s'. simpl. destruct (storedNodes s !! node_Name new); [done|]. by intros [= _ <-]. Qed.
Next Obligation. intros s p e s' [= _ <-]. done. Qed.

#[export] Instance clientErrors : ClientErrors.
Proof.
  assert (genuine (Some notFound)) as Hnf by (intros e [= <-]; done).
  split; simpl; unfold found; intros; repeat case_match; simplify_eq; done.
Qed.

(** ** The cluster *)

Definition card : GPUPoolSpec := mkPoolSpec "Nvidia" "DevicePlugin" (mkResourceSpec "Card" "" (Some 1) 2) (Some (mkLabelSelector {["zone" := "a"]} []))
  None (mkAssignmentSpec true None) (mkSchedulingSpec "Spread" "topology.kubernetes.io/zone" (Some true) []).
Definition noStatus : GPUPoolStatus := mkPoolStatus (mkCapacityStatus 0 0 0) [].
Definition pool : GPUPool := mkGPUPool "GPUPool" "main" "team" "uid-1" 1 card noStatus.

Definition device (name node state : string) (annotations : gmap string string) (ref : option GPUPoolReference) : GPUDevice :=
  mkGPUDevice name ∅ annotations [] (mkDeviceStatus node name true state false ref
    (mkHardware name "A100" (mkPCIAddress "10de" "20b0" "0302" "") (mkMIGConfig false "" [] [])) []).
Definition given : gmap string string := {[NamespacedAssignmentAnnotation := "main"]}.
Definition ours : option GPUPoolReference := Some (mkPoolReference "main" "team").

(** Two devices given to the pool on a node of its zone, one withdrawn from it,
    and one on a node that left the zone. *)
Definition cluster : Server := mkServer
  (list_to_map ((λ d, (gd_Name d, d)) <$>
     [device "gpu-0" "n1" GPUDeviceStateReady given None; device "gpu-1" "n1" GPUDeviceStateAssigned given ours;
      device "gpu-2" "n2" GPUDeviceStateAssigned ∅ ours; device "gpu-3" "n3" GPUDeviceStateAssigned given ours]))
  (list_to_map ((λ n, (node_Name n, n)) <$>
     [mkNode "n1" {["zone" := "a"]} []; mkNode "n2" {["zone" := "a"; PoolLabelKey pool := "main"]} [];
      mkNode "n3" {["zone" := "b"]} []]))
  {[key_of pool := pool]}
  [(("gpu", "main"), mkPoolPod "n1" [("Ready", "True")])]
  [] {["team" := {[gpuEnabledLabelKey := "true"]}]} (mkMachines ∅ [] ∅ []).

Definition idle : HandlePool (S := Server) := λ pool s, ((zeroResult, None), (pool, s)).
Lemma idle_keeps : keeps_devices idle.
Proof. intros p s r e p' s' [= <- <- <- <-]. split_and!; [done| |done]. exists (gp_Status p). by destruct p. Qed.

Definition after : Server := (reconcilePool pool (poolHandlers 0 "gpu" idle) cluster).2.


(** The first two devices serve the pool, the third is free again; the fourth
    lost its validator but still refers to the pool that no longer counts it,
    and keeps its node marked. *)
Example reconciled_cluster :
  (λ n, (λ d, (gd_State d, gd_PoolRef d)) <$> srv_devices after !! n) <$> ["gpu-0"; "gpu-1"; "gpu-2"; "gpu-3"] =
    [Some (GPUDeviceStateAssigned, ours); Some (GPUDeviceStateAssigned, ours); Some (GPUDeviceStateReady, None);
     Some (GPUDeviceStatePendingAssignment, ours)] ∧
  (λ n, (λ n, (node_Labels n !! PoolLabelKey pool, node_Taints n)) <$> srv_nodes after !! n) <$> ["n1"; "n2"; "n3"] =
    [Some (Some "main", [mkTaint (PoolLabelKey pool) "main" "NoSchedule"]); Some (None, []);
     Some (Some "main", [mkTaint (PoolLabelKey pool) "main" "NoSchedule"])] ∧
  (λ p, gcap_Total (gpst_Capacity (gp_Status p))) <$> srv_pools after !! key_of pool = Some 2.
Proof. vm_compute. done. Qed.

(** ** Requests for pools *)

Definition outcome {A} (default : A) (r : res A) : A := match r with Ok a => a | Err _ => default end.
Definition main : GPUPool := outcome pool (GPUPoolDefault (Expected pool)).
Definition request : GPUPool := mkGPUPool "ClusterGPUPool" "shared" "" "uid-2" 1 card noStatus.
Definition shared : GPUPool := outcome request (ClusterGPUPoolDefault (Expected request)).
Definition onePool : gmap (string * string) GPUPool := {[key_of main := main]}.
Definition twoPools : gmap (string * string) GPUPool := <[key_of shared := shared]> onePool.

Lemma admitted_pools_witness :
  rtc admitted_any ∅ onePool ∧ admits onePool onePool twoPools ∧
  pools_valid twoPools ∧ (∀ k p p', onePool !! k = Some p → twoPools !! k = Some p' → immutableView p' = immutableView p) ∧ names_unique twoPools.
Proof.
  assert (admits ∅ ∅ onePool) as Hfirst
    by (apply (admit_create ∅ ∅ pool main); [done|reflexivity|reflexivity|vm_compute; reflexivity|vm_compute; reflexivity]).
  assert (rtc admitted_any ∅ onePool) as Hreach by (eapply rtc_l; [by exists ∅|apply rtc_refl]).
  assert (rtc admitted_fresh ∅ onePool) as Hfresh.
  { eapply rtc_l; [exists ∅; split; [|exact Hfirst]|apply rtc_refl]. intros k p. by rewrite lookup_empty. }
  assert (admits onePool onePool twoPools) as Hstep.
  { apply (admit_create_cluster onePool onePool request shared); [done|reflexivity|vm_compute; reflexivity|vm_compute; reflexivity|vm_compute; reflexivity]. }
  assert (knows onePool onePool) as Hknow.
  { intros k p Hk. exists p. split; [exact Hk|]. unfold onePool in Hk. apply lookup_singleton_Some in Hk as [<- <-]. reflexivity. }
  split; [exact Hreach|]. split; [exact Hstep|].
  destruct (admitted_pools onePool onePool twoPools Hreach Hstep) as (H1 & H2 & H3).
  split; [exact H1|]. split; [exact H2|]. exact (H3 Hfresh Hknow).
Defined.

(** Two pools of one name: the cache of the webhooks does not show the first one
    yet when the second is created. *)
Definition twin : GPUPool := mkGPUPool "ClusterGPUPool" "main" "" "uid-4" 1 card noStatus.
Definition twinPool : GPUPool := outcome twin (ClusterGPUPoolDefault (Expected twin)).
Example stale_cache_admits : admits ∅ onePool (<[key_of twinPool := twinPool]> onePool) ∧ gp_Name twinPool = gp_Name main ∧ key_of twinPool ≠ key_of main.
Proof.
  split; [|by vm_compute]. apply (admit_create_cluster ∅ onePool twin twinPool); [done|reflexivity|vm_compute; reflexivity|vm_compute; reflexivity|vm_compute; reflexivity].
Qed.

(** A name taken by a cluster-wide pool is refused in a namespace, and the
    unit of a pool does not change. *)
Example refused_pools :
  let clash := mkGPUPool "GPUPool" "shared" "team" "uid-3" 1 card noStatus in
  let resized := set_PoolSpec (mkPoolSpec "Nvidia" "DevicePlugin" (mkResourceSpec "Card" "" (Some 1) 4) (gps_NodeSelector (gp_Spec main))
    (gps_DeviceSelector (gp_Spec main)) (gps_DeviceAssignment (gp_Spec main)) (gps_Scheduling (gp_Spec main))) main in
  ValidateCreate (Some twoPools) (Some "team") (Expected clash) ≠ None ∧
  ValidateUpdate (Some twoPools) (Some "team") (Expected main) (Expected resized) ≠ None.
Proof. vm_compute. done. Qed.

(** ** Pods *)

#[export] Instance podReader : PodReader Server := {|
  pr_GetNamespace name s := found (srv_namespaces s !! name);
  pr_ListPods ns name scope s :=
    Ok (filter (λ p, wp_Labels p !! PoolNameKey = Some name ∧ wp_Labels p !! PoolScopeKey = Some scope ∧ within ns p = true) (srv_workloads s));
  pr_PatchCapacity p cap s := (None, mkServer (srv_devices s) (srv_nodes s) (<[key_of p := with_capacity cap p]> (srv_pools s)) (srv_pods s)
    (srv_workloads s) (srv_namespaces s) (srv_machines s));
|}.

#[export, program] Instance podServer : PodServer := {| pods := srv_workloads; pools := storedPools |}.
Next Obligation. intros s ns name scope l [= <-]. done. Qed.
Next Obligation. done. Qed.
Next Obligation. intros s k p [_ Hp]%map_lookup_filter_Some. done. Qed.
Next Obligation. intros s ns name p. simpl. unfold found. destruct (storedPools s !! _); by intros [= ->]. Qed.
Next Obligation. intros s ns name e. simpl. unfold found. by destruct (storedPools s !! _). Qed.
Next Obligation. intros s name p. simpl. unfold found. destruct (storedPools s !! _); by intros [= ->]. Qed.
Next Obligation. intros s name e. simpl. unfold found. by destruct (storedPools s !! _). Qed.
Next Obligation.
  intros s p cap s' [= <-] _. split; [|done]. unfold storedPools. simpl. change (key_of p) with (key_of (with_capacity cap p)). by rewrite map_filter_insert_True.
Qed.
Next Obligation. done. Qed.

#[export] Instance namedPools : NamedPools.
Proof.
  split; simpl; unfold found; intros s.
  - intros ns name p. destruct (storedPools s !! (ns, name)) as [q|] eqn:Hp; [|done]. intros [= <-].
    apply map_lookup_filter_Some in Hp as [_ Hk]. unfold key_of in Hk. simpl in Hk. by injection Hk.
  - intros name p. destruct (storedPools s !! ("", name)) as [q|] eqn:Hp; [|done]. intros [= <-].
    apply map_lookup_filter_Some in Hp as [_ Hk]. unfold key_of in Hk. simpl in Hk. by injection Hk.
Qed.

Definition asking (n : Z) (tols : list Toleration) : WorkPod :=
  mkWorkPod "team" {["app" := "train"]} false [mkContainer {["gpu.deckhouse.io/main" := n; "cpu" := 4]} ∅] [mkContainer ∅ {["gpu.deckhouse.io/main" := 1]}]
    "" ∅ tols None [] "Pending".
Definition module : option ModuleSettings := Some (mkModuleSettings true ["dedicated"] "BinPack" "").

(** The cluster once the controller has seen the pool. *)
Definition settledRun : (Result * list error) * (GPUPool * Server) :=
  cp_handlersLoop (λ (h : HandlePool) st, h (fst st) (snd st)) (drop 2 (poolHandlers 0 "gpu" idle)) zeroResult [] (pool, cluster).
Definition settled : Server := settledRun.2.2.

Lemma pool_is_named : pool_named pool.
Proof. split; [done|reflexivity|vm_compute; by split]. Qed.

Lemma settled_converged : ∃ ready, converged ready pool cluster settled.
Proof.
  destruct (stages_quiet 0 "gpu" idle pool cluster settledRun.2 idle_keeps pool_is_named eq_refl zeroResult) as (s2 & l & _ & Hc);
    [vm_compute; reflexivity|]. by exists (readyNodes l).
Qed.

Definition wants : WorkPod := asking 2 [].
Definition bound_pod : WorkPod := outcome wants (PodDefault (Some settled) module (Some "team") (Expected wants)).

Lemma pod_bound_witness :
  PodDefault (Some settled) module (Some "team") (Expected wants) = Ok bound_pod ∧
  asks_for wants (requestOf pool) ∧ (∀ ref', asks_for wants ref' → ref' = requestOf pool) ∧
  (∃ p, bound (Some settled) p (requestOf pool) wants bound_pod ∧
     (∀ s, Some settled = Some s → ∃ q, p = Some q ∧ resolvePoolByRequest (Some settled) (requestOf pool) (effectiveNamespace (Some "team") (wp_Namespace wants)) = Ok q)) ∧
  PodDefault (Some settled) module (Some "team") (Expected bound_pod) = Ok bound_pod.
Proof.
  assert (PodDefault (Some settled) module (Some "team") (Expected wants) = Ok bound_pod) as Hrun by (vm_compute; reflexivity).
  split; [exact Hrun|]. apply (pod_bound (Some settled) module (Some "team") wants bound_pod (requestOf pool)); [|vm_compute; reflexivity|exact Hrun].
  intros t Ht. destruct (not_elem_of_nil t Ht).
Defined.

Definition n1 : Node := default (mkNode "" ∅ []) (nodes settled !! "n1").

Lemma pod_lands_on_pool_witness : node_has pool settled "n1" ∧ node_Taints n1 ≠ [] ∧
  ∀ t, t ∈ node_Taints n1 → ∃ tol, tol ∈ wp_Tolerations bound_pod ∧ ToleratesTaint tol t = true.
Proof.
  destruct settled_converged as [ready Hconv].
  destruct (pod_lands_on_pool ready pool cluster settled module (Some "team") wants bound_pod "n1" (mkNode "n1" {["zone" := "a"]} []) n1 pool_is_named Hconv)
    as [Hhas Htol].
  - intros t Ht. destruct (not_elem_of_nil t Ht).
  - vm_compute. reflexivity.
  - vm_compute. reflexivity.
  - vm_compute. reflexivity.
  - vm_compute. reflexivity.
  - apply (bool_decide_unpack _). vm_compute. exact I.
  - split; [exact Hhas|]. split; [vm_compute; done|]. apply Htol.
    + intros p Hp. vm_compute in Hp. injection Hp as <-. reflexivity.
    + constructor.
    + assert (map_Forall (λ _ n, Forall (λ t, tnt_Effect t ≠ "" ∧ free_of "|"%char (tnt_Key t) = true ∧ free_of "|"%char (tnt_Value t) = true) (node_Taints n)) (nodes settled)) as Hall
        by (apply (bool_decide_unpack _); vm_compute; exact I).
      intros name n t Hn Ht. specialize (Hall name n Hn). by apply (proj1 (Forall_forall _ _) Hall t Ht).
Defined.

(** Two pods on a node, one that ended and one that waits. *)
Definition placed (node phase : string) : WorkPod :=
  mkWorkPod (wp_Namespace bound_pod) (wp_Labels bound_pod) false (wp_Containers bound_pod) (wp_InitContainers bound_pod) node (wp_NodeSelector bound_pod)
    (wp_Tolerations bound_pod) (wp_Required bound_pod) (wp_Spread bound_pod) phase.
Definition busy : Server := mkServer (srv_devices settled) (srv_nodes settled) {[key_of pool := with_capacity (mkCapacityStatus 8 8 0) pool]} (srv_pods settled)
  [placed "n1" "Running"; placed "n1" "Pending"; placed "n1" "Succeeded"; placed "" "Pending"] (srv_namespaces settled) (srv_machines settled).
Definition measured : Server := (GPUPoolUsageReconcile module "team" "main" busy).2.

Lemma placed_admitted node phase : admitted (S := Server) (placed node phase) ∧ nonneg_quantities (placed node phase).
Proof.
  split.
  - exists (Some settled), module, (Some "team"), wants, bound_pod. split; [vm_compute; reflexivity|done].
  - intros c r Hc. assert (∀ l : list Container, Forall (λ c, map_Forall (λ _ v, 0 ≤ v) (ct_Limits c) ∧ map_Forall (λ _ v, 0 ≤ v) (ct_Requests c)) l → c ∈ l → 0 ≤ resourceValue r c) as Hall.
    { intros l Hl Hin. destruct (proj1 (Forall_forall _ _) Hl c Hin) as [H1 H2]. unfold resourceValue.
      destruct (ct_Limits c !! r) eqn:E1; [by eapply H1|]. destruct (ct_Requests c !! r) eqn:E2; [by eapply H2|done]. }
    apply (Hall [mkContainer {["gpu.deckhouse.io/main" := 2; "cpu" := 4]} ∅; mkContainer ∅ {["gpu.deckhouse.io/main" := 1]}]); [|exact Hc].
    apply (bool_decide_unpack _). vm_compute. exact I.
Qed.

Lemma usage_exact_witness :
  GPUPoolUsageReconcile module "team" "main" busy = ((zeroResult, []), measured) ∧
  pools measured = <[("team", "main") := with_capacity (mkCapacityStatus 8 4 4) (with_capacity (mkCapacityStatus 8 8 0) pool)]> (pools busy) ∧
  pods measured = pods busy.
Proof.
  assert (GPUPoolUsageReconcile module "team" "main" busy = ((zeroResult, []), measured)) as Hrun by (vm_compute; reflexivity).
  assert (inUse (Some "team") (poolPrefix false +:+ "main") (pods busy) = 4) as Hu by (vm_compute; reflexivity).
  assert (∀ p, p ∈ pods busy → nonneg_quantities p ∧ (asks_for p (mkPoolRequest "main" (poolPrefix false)) → admitted (S := Server) p)) as Hpods.
  { intros p Hp. assert (∃ node phase, p = placed node phase) as (node & phase & ->).
    - change (p ∈ [placed "n1" "Running"; placed "n1" "Pending"; placed "n1" "Succeeded"; placed "" "Pending"]) in Hp.
      rewrite !elem_of_cons in Hp. destruct Hp as [-> | [-> | [-> | [-> | Hp]]]]; [eauto..|]. destruct (not_elem_of_nil p Hp).
    - destruct (placed_admitted node phase) as [Ha Hq]. by split. }
  split; [exact Hrun|].
  pose proof (usage_exact module false "team" "main" busy measured (with_capacity (mkCapacityStatus 8 8 0) pool)) as Hm.
  cbv beta iota zeta in Hm. rewrite Hu in Hm.
  apply Hm; [discriminate|exact Hpods|vm_compute; reflexivity|reflexivity|split; [discriminate|reflexivity]|exact Hrun].
Defined.

(** A toleration with no value and the effect NoExecute is taken once, completed,
    and refused when the webhook runs again. *)
Example toleration_taken_once :
  let t := mkToleration "gpu.deckhouse.io/main" TolerationOpEqual "" "NoExecute" in
  match PodDefault (Some settled) module (Some "team") (Expected (asking 1 [t])) with
  | Ok pod' => PodDefault (Some settled) module (Some "team") (Expected pod') =
      Err (Errorf "toleration %q has unsupported effect %q" ["gpu.deckhouse.io/main"; "NoExecute"])
  | Err _ => False
  end.
Proof. vm_compute. reflexivity. Qed.

(** For the webhook a toleration without operator tolerates any value of the
    taint, for the scheduler it does not. *)
Example lenient_toleration :
  let t := mkToleration "dedicated" "" "" "" in let taint := mkTaint "dedicated" "ml" "NoSchedule" in
  toleratesTaint [t] taint = true ∧ ToleratesTaint t taint = false.
Proof. vm_compute. done. Qed.

(** ** Inventory and bootstrap *)

Definition set_devices (m : gmap string GPUDevice) (s : Server) : Server :=
  mkServer m (srv_nodes s) (srv_pools s) (srv_pods s) (srv_workloads s) (srv_namespaces s) (srv_machines s).
Definition set_states (m : gmap string GPUNodeState) (s : Server) : Server :=
  mkServer (srv_devices s) (srv_nodes s) (srv_pools s) (srv_pods s) (srv_workloads s) (srv_namespaces s)
    (mkMachines (ma_nodes (srv_machines s)) (ma_features (srv_machines s)) m (ma_pods (srv_machines s))).

(** Node states with names nodes can have. *)
Definition plainState (st : GPUNodeState) : Prop :=
  nodeNameOf st ≠ "" ∧ TrimSpace (gns_NodeName st) = gns_NodeName st ∧ TrimSpace (gns_Name st) = gns_Name st.
Definition storedStates (s : Server) : gmap string GPUNodeState := filter (λ kv, plainState kv.2) (ma_states (srv_machines s)).

Definition onStored (d : GPUDevice) (f : GPUDevice → GPUDevice) (s : Server) : option error * Server :=
  match storedDevices s !! gd_Name d with
  | None => (Some notFound, s)
  | Some d0 => (None, set_devices (<[gd_Name d := f d0]> (srv_devices s)) s)
  end.

#[export] Instance inventoryClient : InventoryClient Server := {|
  ic_GetNode name s := found (ma_nodes (srv_machines s) !! name);
  ic_GetNodeFeature name s := found (List.find (λ f, str_eqb (nf_Name f) name) (ma_features (srv_machines s)));
  ic_ListNodeFeatures name s := Ok [];
  ic_CreateDevice d s :=
    match srv_devices s !! gd_Name d with
    | Some _ => (Some (External 409), s)
    | None => (None, set_devices (<[gd_Name d := set_DeviceStatus emptyStatus d]> (srv_devices s)) s)
    end;
  ic_PatchDevice new base s := onStored base (λ d0, set_DeviceStatus (gd_Status d0) new) s;
  ic_UpdateDeviceStatus d s := onStored d (set_DeviceStatus (gd_Status d)) s;
  ic_DeleteDevice name s := (None, set_devices (delete name (srv_devices s)) s);
  ic_GetNodeState name s := found (storedStates s !! name);
  ic_CreateNodeState st s := (None, set_states (<[gns_Name st := st]> (ma_states (srv_machines s))) s);
  ic_PatchNodeState new base s := (None, set_states (<[gns_Name base := new]> (ma_states (srv_machines s))) s);
  ic_UpdateNodeStateStatus st s := (None, set_states (<[gns_Name st := st]> (ma_states (srv_machines s))) s);
  ic_DeleteNodeState name s := (None, set_states (delete name (ma_states (srv_machines s))) s);
|}.

Lemma stored_set_devices d0 name d s : storedDevices s !! name = Some d0 → gd_Name d = name →
  storedDevices (set_devices (<[name := d]> (srv_devices s)) s) = <[name := d]> (storedDevices s).
Proof. intros _ Hn. unfold storedDevices. simpl. by rewrite map_filter_insert_True. Qed.

#[export, program] Instance inventoryServer : InventoryServer Server.
Next Obligation.
  intros s d s'. simpl. destruct (srv_devices s !! gd_Name d) eqn:E; [done|]. intros [= <-].
  split; [by apply map_lookup_filter_None; left|]. unfold storedDevices. simpl. by rewrite map_filter_insert_True.
Qed.
Next Obligation.
  intros s new base s'. simpl. unfold onStored. intros Hp Hb Hn. rewrite Hb in Hp. injection Hp as <-. by eapply stored_set_devices.
Qed.
Next Obligation.
  intros s d s'. simpl. unfold onStored. destruct (storedDevices s !! gd_Name d) as [d0|] eqn:E; [|done]. intros [= <-].
  exists d0. split; [done|]. eapply stored_set_devices; [done|]. exact (stored_device _ _ _ E).
Qed.
Next Obligation. intros s name s' [= <-]. apply map_filter_delete. Qed.
Next Obligation. intros s d e s'. simpl. destruct (srv_devices s !! gd_Name d); [|done]. by intros [= _ <-]. Qed.
Next Obligation. intros s new base e s'. simpl. unfold onStored. destruct (storedDevices s !! _); [done|]. by intros [= _ <-]. Qed.
Next Obligation. intros s d e s'. simpl. unfold onStored. destruct (storedDevices s !! _); [done|]. by intros [= _ <-]. Qed.
Next Obligation. done. Qed.
Next Obligation. by intros s st err s' [= _ <-]. Qed.
Next Obligation. by intros s new base err s' [= _ <-]. Qed.
Next Obligation. by intros s st err s' [= _ <-]. Qed.
Next Obligation.
  intros s name st. simpl. unfold found. destruct (storedStates s !! name) as [st'|] eqn:E; [|done]. intros [= <-]. by apply map_lookup_filter_Some in E as [_ ?].
Qed.
Next Obligation. done. Qed.

#[export] Instance finds : FindsFirst.
Proof. intros cs t. simpl. induction cs as [|c cs IH]; simpl; [done|]. by rewrite IH. Qed.

(** Whole numbers. *)
#[export] Instance wholeNumbers : Float64 := {|
  float64 := Z; ParseFloat s := if str_eqb s "" then None else digits_val 0 s; f_scale := Z.mul; f_roundInt32 := wrap32 |}.
#[export] Instance catalog : Catalog := ({["10de:20b0" := "A100"]} : gmap string string).
#[export] Instance detector : Detector Server := {| dt_ListPods s := Ok []; dt_Get url s := None |}.
#[export] Instance bootReader : BootReader (S := Server) := λ ns node s, Ok (List.filter (λ p, str_eqb (bp_NodeName p) node) (ma_pods (srv_machines s))).

Definition machine : InvNode := mkInvNode "n9" "uid-n9"
  {["gpu.deckhouse.io/device.00.vendor" := "10DE"; "gpu.deckhouse.io/device.00.device" := "20B0"; "gpu.deckhouse.io/device.00.class" := "0302";
    "nvidia.com/gpu.memory" := "40 GiB"; "nvidia.com/mig-1g.5gb.count" := "7"]} false.
Definition feature : NodeFeature := mkNodeFeature "n9" "1" ∅
  (Some {["nvidia.com/gpu" := [Some {["index" := "0"; "uuid" := "GPU-1"; "pci.address" := "00000000:65:00.0"]}]]}).
Definition bootPod (app : string) : BootPod := mkBootPod "n9" {["app" := app]} [("Ready", "True")].
Definition bare : Server := mkServer ∅ (list_to_map [("n9", mkNode "n9" {["zone" := "a"]} [])]) {[key_of pool := pool]}
  [(("gpu", "main"), mkPoolPod "n9" [("Ready", "True")])] [] ∅
  (mkMachines {["n9" := machine]} [feature] ∅ (bootPod <$> ["nvidia-operator-validator"; "gpu-control-plane-gpu-feature-discovery"; "gpu-control-plane-dcgm"; "gpu-control-plane-dcgm-exporter"])).
Definition defaultConfig : ValidationConfig := validation_applyDefaults (mkValidationConfig "" "" "" "" "").
Definition policies : ManagedNodesPolicy * DeviceApprovalPolicy := (mkManagedPolicy DefaultManagedNodeLabelKey true, mkApprovalPolicy DeviceApprovalModeManual None).

Definition inventoried : Server := (InventoryReconcile 1 [HandleDeviceState] None policies "n9" bare).2.
Definition bootstrapped : Server := (BootstrapReconcile 2 defaultConfig true "n9" inventoried).2.
Definition theDevice : string := "n9-0-10de-20b0".
Definition annotate (d : GPUDevice) : GPUDevice := mkGPUDevice (gd_Name d) (gd_Labels d) given (gd_Owners d) (gd_Status d).
Definition annotatedServer : Server := set_devices (alter annotate theDevice (srv_devices bootstrapped)) bootstrapped.
Definition pooled : Server := (GPUPoolReconcile (poolHandlers 3 "gpu" idle) "team" "main" annotatedServer).2.

(** A device from the labels of its node to its pool. *)
Example device_to_pool :
  (λ s, (λ d, (gd_State d, gd_PoolRef d)) <$> srv_devices s !! theDevice) <$> [inventoried; bootstrapped; annotatedServer; pooled] =
    [Some ("Discovered", None); Some ("Ready", None); Some ("Ready", None); Some ("Assigned", ours)] ∧
  (λ d, gd_Hardware d) <$> srv_devices inventoried !! theDevice =
    Some (mkHardware "GPU-1" "A100" (mkPCIAddress "10de" "20b0" "0302" "0000:65:00.0") (mkMIGConfig true "" ["1g.5gb"] [mkMIGTypeCapacity "1g.5gb" 7])).
Proof. vm_compute. done. Qed.

Lemma device_run : ∃ V, rtc control (bare, ∅) (pooled, V) ∧ V = {[theDevice]}.
Proof.
  eexists. split.
  - eapply rtc_l; [apply (control_inventory 1 None policies "n9" bare (InventoryReconcile 1 [HandleDeviceState] None policies "n9" bare).1 inventoried ∅);
      by destruct (InventoryReconcile 1 [HandleDeviceState] None policies "n9" bare) eqn:E; unfold inventoried; rewrite E|].
    eapply rtc_l; [apply (control_bootstrap 2 defaultConfig true "n9" inventoried (BootstrapReconcile 2 defaultConfig true "n9" inventoried).1 bootstrapped);
      by destruct (BootstrapReconcile 2 defaultConfig true "n9" inventoried) eqn:E; unfold bootstrapped; rewrite E|].
    eapply rtc_l; [apply (control_edit bootstrapped annotatedServer)|].
    { exists theDevice, (default (device "" "" "" ∅ None) (devices bootstrapped !! theDevice)), (default (device "" "" "" ∅ None) (devices annotatedServer !! theDevice)).
      split; [vm_compute; reflexivity|]. split; [vm_compute; reflexivity|]. split; [vm_compute; reflexivity|]. vm_compute. reflexivity. }
    eapply rtc_l; [apply (control_pool 3 "gpu" idle "team" "main" annotatedServer (GPUPoolReconcile (poolHandlers 3 "gpu" idle) "team" "main" annotatedServer).1 pooled);
      [apply idle_keeps|by destruct (GPUPoolReconcile (poolHandlers 3 "gpu" idle) "team" "main" annotatedServer) eqn:E; unfold pooled; rewrite E]|].
    apply rtc_refl.
  - vm_compute. reflexivity.
Qed.

Lemma device_lifecycle_witness : ∃ V d, rtc control (bare, ∅) (pooled, V) ∧ devices pooled !! theDevice = Some d ∧ gd_State d = GPUDeviceStateAssigned ∧
  theDevice ∈ V ∧ is_Some (gd_PoolRef d).
Proof.
  destruct device_run as (V & Hrun & _). set (d := default (device "" "" "" ∅ None) (devices pooled !! theDevice)).
  assert (devices pooled !! theDevice = Some d) as Hd by (vm_compute; reflexivity).
  assert (gd_State d = GPUDeviceStateAssigned) as Hst by (vm_compute; reflexivity).
  exists V, d. split; [exact Hrun|]. split; [exact Hd|]. split; [exact Hst|].
  assert (devices bare = ∅) as H0 by (vm_compute; reflexivity).
  destruct (device_lifecycle bare pooled V H0 Hrun theDevice d Hd) as [H1 H2]. split.
  - apply H1. rewrite Hst. apply (bool_decide_unpack _). vm_compute. exact I.
  - apply H2. right. exact Hst.
Defined.

#[export] Instance inventoryErrors : InventoryErrors.
Proof.
  assert (genuine (Some notFound)) as Hnf by (intros e [= <-]; done).
  assert (genuine (Some (External 409))) as Hc by (intros e [= <-]; vm_compute; done).
  split; simpl; unfold found, onStored; intros; repeat case_match; simplify_eq; done.
Qed.

(** The node shows one GPU; its device did not exist. *)
Lemma inventory_synced_witness : ∃ dev, devices inventoried !! theDevice = Some dev ∧ gd_State dev = GPUDeviceStateDiscovered ∧
  gds_NodeName (gd_Status dev) = "n9" ∧ gds_Managed (gd_Status dev) = true ∧ pa_Address (hw_PCI (gd_Hardware dev)) = "0000:65:00.0".
Proof.
  assert (InventoryReconcile 1 [HandleDeviceState] None policies "n9" bare = ((zeroResult, []), inventoried)) as Hr.
  { rewrite (surjective_pairing (InventoryReconcile _ _ _ _ _ bare)). fold inventoried. apply (f_equal (λ x, (x, inventoried))). vm_compute. reflexivity. }
  assert (NoDup (buildDeviceName "n9" <$> ns_Devices (buildNodeSnapshot machine (Some feature) policies.1))) as Hnd
    by (apply (bool_decide_unpack _); vm_compute; exact I).
  assert (ic_GetNode "n9" bare = Ok machine) as Hg by (vm_compute; reflexivity).
  assert (FindNodeFeature "n9" bare = Ok (Some feature)) as Hf by (vm_compute; reflexivity).
  destruct (inventory_synced 1 None policies "n9" bare inventoried machine (Some feature) policies.1 policies.2 Hr Hg eq_refl Hf eq_refl Hnd) as [H _].
  set (d := default (bareSnapshot "" "" "" "" "" 0) (head (ns_Devices (buildNodeSnapshot machine (Some feature) policies.1)))).
  destruct (H d) as (dev & Hd & [Hn _ [Hm _] _ _] & _); [vm_compute; left|].
  exists dev. assert (buildDeviceName "n9" d = theDevice) as Hname by (vm_compute; reflexivity).
  change (in_Name machine) with "n9" in Hd. rewrite Hname in Hd. split; [exact Hd|].
  assert (dev = default (device "" "" "" ∅ None) (devices inventoried !! theDevice)) as Hdev by (rewrite Hd; reflexivity).
  split; [rewrite Hdev; vm_compute; reflexivity|]. split; [apply Hn|]. split; [rewrite Hm; vm_compute; reflexivity|]. rewrite Hdev. vm_compute. reflexivity.
Defined.

(** The names of devices are cut to 63 bytes: on a node with a long name the
    index is cut off and two GPUs share one device. *)
Example long_node_names_collide :
  let node := "worker-0.rack-17.row-3.building-b.datacenter-1.region-2.example.internal" in
  buildDeviceName node (bareSnapshot "0" "10de" "20b7" "0302" "" 0) = buildDeviceName node (bareSnapshot "1" "10de" "20b7" "0302" "" 0).
Proof. vm_compute. reflexivity. Qed.
End PoolCluster.

From S2P Require Import Json ModuleConfig Hooks.

(** The configuration of the module: settings in a loose spelling, a cluster of
    three nodes. *)
Module Configured.
#[local] Existing Instance PoolCluster.keyOrder.
#[export] Instance values : HookValues := {|
  val_Get path := if str_eqb path ConfigRoot then Some (JObject []) else None;
  val_printed j := "";
  val_nonzero raw := negb (str_eqb raw "0");
  val_errorText e := "refused";
  val_sha256hex s := s;
|}.

Definition written : gmap string json := list_to_map [
  ("deviceApproval", JObject [("mode", JString " selector "); ("selector", JObject [("matchLabels", JObject [(" tier ", JString "gpu")])])]);
  ("scheduling", JObject [("defaultStrategy", JString "BINPACK")]);
  ("inventory", JObject [("resyncPeriod", JString " 90s ")]);
  ("https", JObject [("mode", JString "customCertificate"); ("customCertificate", JObject [("secretName", JString "gpu-tls")])])].
Definition parsed : State := match Parse (mkInput (Some true) written (mkGlobalValues "" "" "")) with Ok st => st | Err _ => DefaultState end.

Definition started : State := match ModuleSettingsToState (normalizeModuleSettings (sys_Module DefaultSystem)) with Ok st => st | Err _ => DefaultState end.
Lemma module_started_witness : se_Scheduling (sta_Settings started) = mkSchedulingSettings "Spread" "topology.kubernetes.io/zone" ∧
  das_Mode (se_DeviceApproval (sta_Settings started)) = DeviceApprovalModeManual ∧ sta_Enabled started = false.
Proof.
  assert (ModuleSettingsToState (normalizeModuleSettings (sys_Module DefaultSystem)) = Ok started) as Hp by (vm_compute; reflexivity).
  destruct (module_started (sys_Module DefaultSystem) started Hp) as (_ & H1 & H2 & _ & _ & _ & _ & _ & H3).
  split; [rewrite H2; vm_compute; reflexivity|]. split; [rewrite H1; vm_compute; reflexivity|exact H3].
Defined.

Lemma config_published_witness : ∃ st input,
  publishedInput (finalOp (handleValidateModuleConfig (Some (Ok (Some true, written)))) InternalModuleConfigPath) (mkGlobalValues "" "" "") = Some input ∧
  Parse input = Ok st ∧ das_Mode (se_DeviceApproval (sta_Settings st)) = DeviceApprovalModeSelector.
Proof.
  assert (∃ fs, val_Get ConfigRoot = Some (JObject fs)) as Hroot by (by exists []).
  pose proof (config_published (Some (Ok (Some true, written))) (mkGlobalValues "" "" "") Hroot) as H.
  assert (moduleConfigFromSnapshot (Some (Ok (Some true, written))) = Ok (Some parsed)) as Hs by (vm_compute; reflexivity).
  cbv zeta in H. rewrite Hs in H. destruct H as [(input & H1 & H2) _]. exists parsed, input. split; [exact H1|]. split; [exact H2|vm_compute; reflexivity].
Defined.

Definition ready (types : list string) : list Condition := (λ t, mkCondition t ConditionTrue "" "" 0 0) <$> types.
Definition nodeStates : list (res inventorySnapshot) :=
  [Ok (mkInventorySnapshot "n2" (ready ["DriverReady"; "ToolkitReady"])); Ok (mkInventorySnapshot "n1" (ready ["DriverReady"]))].
Definition nodeGPUs : list (res physicalSnapshot) :=
  [Ok (mkPhysicalSnapshot "n3" "0x10DE" (ready ["DriverReady"])); Ok (mkPhysicalSnapshot "n1" "10de" []); Ok (mkPhysicalSnapshot "n2" "1002" (ready ["DriverReady"]));
   Err (Errorf "decode" [])].
Definition placed : json := match handleBootstrapStateSync nodeStates nodeGPUs with [ValSet _ doc] => doc | _ => JNull end.

Lemma components_placed_witness : runs_on nodeStates nodeGPUs "validator" "n1" ∧ runs_on nodeStates nodeGPUs "validator" "n3" ∧
  ¬ runs_on nodeStates nodeGPUs "validator" "n2" ∧ runs_on nodeStates nodeGPUs "handler" "n3" ∧ ¬ runs_on nodeStates nodeGPUs "handler" "n1".
Proof.
  assert (handleBootstrapStateSync nodeStates nodeGPUs = [ValSet InternalBootstrapStatePath placed]) as Hb by (vm_compute; reflexivity).
  assert (jget ["components"; "validator"; "nodes"] placed = Some (jstrings ["n1"; "n3"])) as Hv by (vm_compute; reflexivity).
  assert (jget ["components"; "handler"; "nodes"] placed = Some (jstrings ["n3"])) as Hh by (vm_compute; reflexivity).
  destruct (components_placed nodeStates nodeGPUs placed "validator" ["n1"; "n3"] Hb Hv) as [_ Hval].
  destruct (components_placed nodeStates nodeGPUs placed "handler" ["n3"] Hb Hh) as [_ Hhan].
  rewrite <- !Hval, <- !Hhan. split_and!; apply (bool_decide_unpack _); vm_compute; exact I.
Defined.
End Configured.
