(* ===== verification/RwRules.v ===== *)
(** * The rules of the API rewriter: rules.go, indexer/map_indexer.go

    Rules map the groups, kinds and resources a client knows to those the API
    server stores.  A Go map that a loop visits is the list of its entries in
    the order of the visit. *)

From S2P Require Import Prelude GoLib RwNames Json.

(** ** Index of API groups *)

Record MapIndexer := mkMapIndexer { mi_idx : gmap string string; mi_reverse : gmap string string }.

Definition NewMapIndexer : MapIndexer := mkMapIndexer ∅ ∅.

Definition AddPair (m : MapIndexer) (original renamed : string) : MapIndexer :=
  mkMapIndexer (<[original := renamed]> (mi_idx m)) (<[renamed := original]> (mi_reverse m)).

Definition mi_Rename (m : MapIndexer) (original : string) : string := default original (mi_idx m !! original).
Definition mi_Restore (m : MapIndexer) (renamed : string) : string := default renamed (mi_reverse m !! renamed).
Definition mi_IsOriginal (m : MapIndexer) (original : string) : bool := bool_decide (is_Some (mi_idx m !! original)).
Definition mi_IsRenamed (m : MapIndexer) (original : string) : bool := bool_decide (is_Some (mi_reverse m !! original)).

(** ** Rules *)

Record GroupRule := mkGroupRule {
  gr_Group : string;
  gr_Versions : list string;
  gr_PreferredVersion : string;
  gr_Renamed : string;
}.

Record ResourceRule := mkResourceRule {
  rule_Kind : string;
  rule_ListKind : string;
  rule_Plural : string;
  rule_Singular : string;
  rule_ShortNames : list string;
  rule_Categories : option (list string); (** nil or a slice *)
  rule_Versions : list string;
  rule_PreferredVersion : string;
}.

Record APIGroupRule := mkAPIGroupRule {
  agr_GroupRule : GroupRule;
  agr_ResourceRules : list (string * ResourceRule);
}.

Record WebhookRule := mkWebhookRule { wr_Path : string; wr_Group : string; wr_Resource : string }.

Record ExcludeRule := mkExcludeRule {
  ex_Kinds : list string;
  ex_MatchNames : list string;
  ex_MatchLabels : gmap string string;
}.

(** The fields that are read from the configuration. *)
Record RulesConfig := mkRulesConfig {
  rc_KindPrefix : string;
  rc_ResourceTypePrefix : string;
  rc_ShortNamePrefix : string;
  rc_Categories : option (list string);
  rc_Rules : list (string * APIGroupRule);
  rc_Webhooks : gmap string WebhookRule;
  rc_Labels : MetadataReplace;
  rc_Annotations : MetadataReplace;
  rc_Finalizers : MetadataReplace;
  rc_Excludes : list ExcludeRule;
}.

(** The rules after [Init]. *)
Record RewriteRules := mkRewriteRules {
  rw_cfg : RulesConfig;
  rw_Excludes : list ExcludeRule;
  LabelsRewriter : PrefixedNameRewriter;
  AnnotationsRewriter : PrefixedNameRewriter;
  FinalizersRewriter : PrefixedNameRewriter;
  rw_apiGroupsIndex : MapIndexer;
}.

Definition Init (rr : RulesConfig) : RewriteRules :=
  let originalKinds := '(_, apiGroupRule) ← rc_Rules rr; '(_, resourceRule) ← agr_ResourceRules apiGroupRule;
    [rule_Kind resourceRule; rule_ListKind resourceRule] in
  mkRewriteRules rr
    (rc_Excludes rr ++ if list_len0 originalKinds then [] else [mkExcludeRule originalKinds [] ∅])
    (NewPrefixedNameRewriter (rc_Labels rr))
    (NewPrefixedNameRewriter (rc_Annotations rr))
    (NewPrefixedNameRewriter (rc_Finalizers rr))
    (foldl (λ idx '(_, apiGroupRule),
       AddPair idx (gr_Group (agr_GroupRule apiGroupRule)) (gr_Renamed (agr_GroupRule apiGroupRule)))
       NewMapIndexer (rc_Rules rr)).

(** A loop that returns at the first entry for which its body does. *)
Definition first_of {A B} (f : A → option B) : list A → option B :=
  fix go l := match l with [] => None | a :: l => match f a with Some b => Some b | None => go l end end.

(** [m[key]] *)
Definition entry {V} (m : list (string * V)) (key : string) : option V :=
  first_of (λ '(k, v), if str_eqb k key then Some v else None) m.

Section Rules.
Context (rr : RewriteRules).
Let cfg := rw_cfg rr.

(** The part of an API version before the slash. *)
Definition groupOf (apiGroup : string) : string := fst (fst (Cut apiGroup "/")).

Definition ResourceByKind (kind : string) : string * string * bool :=
  default ("", "", false) (first_of (λ '(groupName, group),
    first_of (λ '(resName, res),
      if str_eqb (rule_Kind res) kind then Some (groupName, resName, false) else
      if str_eqb (rule_ListKind res) kind then Some (groupName, resName, true) else None)
      (agr_ResourceRules group)) (rc_Rules cfg)).

Definition WebhookRuleFor (path : string) : option WebhookRule := rc_Webhooks cfg !! path.

Definition IsRenamedGroup (apiGroup : string) : bool := mi_IsRenamed (rw_apiGroupsIndex rr) (groupOf apiGroup).

Definition HasGroup (group : string) : bool := bool_decide (is_Some (entry (rc_Rules cfg) (groupOf group))).

Definition GroupRuleFor (group : string) : option GroupRule := agr_GroupRule <$> entry (rc_Rules cfg) group.

Definition KindRules (apiGroup kind : string) : option (GroupRule * ResourceRule) :=
  groupRule ← entry (rc_Rules cfg) (groupOf apiGroup);
  first_of (λ '(_, resRule),
    if str_eqb (rule_Kind resRule) kind then Some (agr_GroupRule groupRule, resRule) else
    if str_eqb (rule_ListKind resRule) kind then Some (agr_GroupRule groupRule, resRule) else None)
    (agr_ResourceRules groupRule).

Definition ResourceRules (apiGroup resource : string) : option (GroupRule * ResourceRule) :=
  groupRule ← entry (rc_Rules cfg) (groupOf apiGroup);
  resourceRule ← entry (agr_ResourceRules groupRule) (groupOf resource);
  Some (agr_GroupRule groupRule, resourceRule).

Definition GroupResourceRules (resourceType : string) : option (GroupRule * ResourceRule) :=
  first_of (λ '(_, group), first_of (λ '(_, res),
    if str_eqb (rule_Plural res) (groupOf resourceType) then Some (agr_GroupRule group, res) else None)
    (agr_ResourceRules group)) (rc_Rules cfg).

Definition GroupResourceRulesByKind (kind : string) : option (GroupRule * ResourceRule) :=
  first_of (λ '(_, group), first_of (λ '(_, res),
    if str_eqb (rule_Kind res) kind then Some (agr_GroupRule group, res) else None)
    (agr_ResourceRules group)) (rc_Rules cfg).

Definition RenameResourceName (resource : string) : string := rc_ResourceTypePrefix cfg +:+ resource.
Definition RenameKind (kind : string) : string := rc_KindPrefix cfg +:+ kind.
Definition RestoreResourceName (resource : string) : string := TrimPrefix resource (rc_ResourceTypePrefix cfg).
Definition RestoreKind (kind : string) : string := TrimPrefix kind (rc_KindPrefix cfg).

Definition RestoreApiVersion (apiVersion : string) : string :=
  let '(apiGroup, version, found) := Cut apiVersion "/" in
  if negb found then mi_Restore (rw_apiGroupsIndex rr) apiVersion else
  mi_Restore (rw_apiGroupsIndex rr) apiGroup +:+ "/" +:+ version.

Definition RenameApiVersion (apiVersion : string) : string :=
  let '(apiGroup, version, found) := Cut apiVersion "/" in
  if negb found then mi_Rename (rw_apiGroupsIndex rr) apiVersion else
  mi_Rename (rw_apiGroupsIndex rr) apiGroup +:+ "/" +:+ version.

Definition RenameCategories (categories : option (list string)) : option (list string) :=
  if list_len0 (default [] categories) then Some [] else rc_Categories cfg.

Definition RestoreCategories (resourceRule : option ResourceRule) : option (list string) :=
  match resourceRule with None => Some [] | Some resourceRule => rule_Categories resourceRule end.

Definition RenameShortName (shortName : string) : string := rc_ShortNamePrefix cfg +:+ shortName.
Definition RestoreShortName (shortName : string) : string := TrimPrefix shortName (rc_ShortNamePrefix cfg).
Definition RenameShortNames (shortNames : list string) : list string :=
  (λ shortName, rc_ShortNamePrefix cfg +:+ shortName) <$> shortNames.
Definition RestoreShortNames (shortNames : list string) : list string :=
  (λ shortName, TrimPrefix shortName (rc_ShortNamePrefix cfg)) <$> shortNames.

(** The groups as entries of an [APIGroupList]; the fields of an object are
    those of a Go map, in the order they are set. *)
Definition groupVersionJson (group version : string) : json :=
  JObject [("groupVersion", JString (group +:+ "/" +:+ version)); ("version", JString version)].

Definition GetAPIGroupList : list json :=
  (λ '(_, rGroup), let rule := agr_GroupRule rGroup in JObject
    [("name", JString (gr_Group rule)); ("preferredVersion", groupVersionJson (gr_Group rule) (gr_PreferredVersion rule));
     ("versions", JArray (groupVersionJson (gr_Group rule) <$> gr_Versions rule))]) <$> rc_Rules cfg.

(** ** Excluded objects *)
Context `{JsonLib}.

Definition mapStringStringFromBytes (obj path : string) : gmap string string :=
  foldl (λ result '(field, value), <[field := r_String value]> result) ∅ (r_Map (gjson_GetBytes obj path)).

Definition mapContainsMap (obj match_ : gmap string string) : bool :=
  map_len0 match_ || range_all (λ k v, str_eqb (default "" (obj !! k)) v) match_.

Definition ExcludeMatch (r : ExcludeRule) (obj kind : string) : bool :=
  let objKind := if str_eqb kind "" then r_String (gjson_GetBytes obj "kind") else kind in
  let kindMatch := list_len0 (ex_Kinds r) || existsb (str_eqb objKind) (ex_Kinds r) in
  let objLabels := mapStringStringFromBytes obj "metadata.labels" in
  let matchLabels := map_len0 (ex_MatchLabels r) || mapContainsMap objLabels (ex_MatchLabels r) in
  let objName := r_String (gjson_GetBytes obj "metadata.name") in
  let matchName := list_len0 (ex_MatchNames r) || existsb (str_eqb objName) (ex_MatchNames r) in
  kindMatch && matchLabels && matchName.

Definition ShouldExclude (obj kind : string) : bool :=
  existsb (λ exclude, ExcludeMatch exclude obj kind) (rw_Excludes rr).
End Rules.
