(* ===== verification/Rewriter.v ===== *)
(** * Rewriting payloads: the resource rewriters of kube-api-rewriter

    gvk.go, metadata.go, resource.go, affinity.go, core.go, app.go, events.go,
    policy.go and 3rdparty.go: one definition per function, over the JSON
    library of [Json].  Payloads that name groups and resources are in
    [RewriterRbac], the dispatch by kind and the excludes in [RuleRewriter]. *)

From S2P Require Import Prelude GoLib RwNames Json RwRules.

From Stdlib Require Import Ascii.

Section Rewriter.
Context `{JsonLib} (rules : RewriteRules).

(** ** gvk.go *)

Definition RewriteGVK (obj : string) (action : Action) (gvFieldName : string) : res string :=
  let kind := r_String (gjson_GetBytes obj "kind") in
  let apiGroupVersion := r_String (gjson_GetBytes obj gvFieldName) in
  let set (rwrKind rwrApiVersion : string) :=
    obj ← sjson_SetBytes obj "kind" (GoString rwrKind);
    sjson_SetBytes obj gvFieldName (GoString rwrApiVersion) in
  match action with
  | Rename =>
      if bool_decide (KindRules rules apiGroupVersion kind = None) then Ok obj
      else set (RenameKind rules kind) (RenameApiVersion rules apiGroupVersion)
  | Restore =>
      if negb (IsRenamedGroup rules apiGroupVersion) then Ok obj else
      let rwrApiVersion := RestoreApiVersion rules apiGroupVersion in
      let rwrKind := RestoreKind rules kind in
      if bool_decide (KindRules rules rwrApiVersion rwrKind = None) then Ok obj
      else set rwrKind rwrApiVersion
  end.

Definition RewriteAPIGroupAndKind (obj : string) (action : Action) : res string :=
  RewriteGVK obj action "apiGroup".
Definition RewriteAPIVersionAndKind (obj : string) (action : Action) : res string :=
  RewriteGVK obj action "apiVersion".

(** ** metadata.go *)

Definition RewriteLabelsMap (obj path : string) (action : Action) : res string :=
  RewriteMapStringString obj path (λ k v, RewriteNameValue (LabelsRewriter rules) k v action).

Definition RewriteAnnotationsMap (obj path : string) (action : Action) : res string :=
  RewriteMapStringString obj path (λ k v, RewriteNameValue (AnnotationsRewriter rules) k v action).

Definition RewriteFinalizers (obj path : string) (action : Action) : res string :=
  TransformArrayOfStrings obj path (λ finalizer, Rewrite (FinalizersRewriter rules) finalizer action).

Definition RewriteOwnerReferences (obj path : string) (action : Action) : res string :=
  RewriteArray obj path (λ ownerRefObj, Some <$> RewriteAPIVersionAndKind ownerRefObj action).

Definition RewriteMetadata (metadataObj : string) (action : Action) : res string :=
  metadataObj ← RewriteLabelsMap metadataObj "labels" action;
  metadataObj ← RewriteAnnotationsMap metadataObj "annotations" action;
  metadataObj ← RewriteFinalizers metadataObj "finalizers" action;
  RewriteOwnerReferences metadataObj "ownerReferences" action.

Definition decodeJSONPatchPath (path : string) : string :=
  ReplaceAll (ReplaceAll path "~1" "/") "~0" "~".

Definition encodeJSONPatchPath (path : string) : string :=
  ReplaceAll (ReplaceAll path "~" "~0") "/" "~1".

(** The name at the end of a JSON pointer under [base], when its renamed form
    differs. *)
Definition renamePointer (p : PrefixedNameRewriter) (base path : string) : option string :=
  let '(enc, found) := CutPrefix path base in
  if negb found then None else
  let name := decodeJSONPatchPath enc in
  let rwr := Rewrite p name Rename in
  if negb (str_eqb name rwr) then Some (base +:+ encodeJSONPatchPath rwr) else None.

Definition renameMetadataJSONPatch (jsonPatch : string) : res string :=
  let path := r_String (gjson_GetBytes jsonPatch "path") in
  if str_eqb path "/metadata/labels" then RewriteLabelsMap jsonPatch "value" Rename else
  if str_eqb path "/metadata/annotations" then RewriteAnnotationsMap jsonPatch "value" Rename else
  if str_eqb path "/metadata/finalizers" then RewriteFinalizers jsonPatch "value" Rename else
  if str_eqb path "/metadata/ownerReferences" then RewriteOwnerReferences jsonPatch "value" Rename else
  if str_eqb path "/metadata"
  then TransformObject jsonPatch "value" (λ metadataObj, RewriteMetadata metadataObj Rename) else
  match renamePointer (LabelsRewriter rules) "/metadata/labels/" path with
  | Some path => sjson_SetBytes jsonPatch "path" (GoString path)
  | None =>
  match renamePointer (AnnotationsRewriter rules) "/metadata/annotations/" path with
  | Some path => sjson_SetBytes jsonPatch "path" (GoString path)
  | None =>
  match renamePointer (FinalizersRewriter rules) "/metadata/finalizers/" path with
  | Some path => sjson_SetBytes jsonPatch "path" (GoString path)
  | None => Ok jsonPatch
  end end end.

Definition RenameMetadataPatch (patch : string) : res string :=
  TransformPatch patch
    (Some (λ mergePatch, TransformObject mergePatch "metadata" (λ metadataObj, RewriteMetadata metadataObj Rename)))
    (Some (λ jsonPatch, Some <$> renameMetadataJSONPatch jsonPatch)).

(** ** resource.go *)

Definition RenameAPIVersionAndKind (obj : string) : res string :=
  let apiVersion := r_String (gjson_GetBytes obj "apiVersion") in
  obj ← sjson_SetBytes obj "apiVersion" (GoString (RenameApiVersion rules apiVersion));
  let kind := r_String (gjson_GetBytes obj "kind") in
  sjson_SetBytes obj "kind" (GoString (RenameKind rules kind)).

Definition RestoreAPIVersionAndKind (obj : string) : res string :=
  let apiVersion := r_String (gjson_GetBytes obj "apiVersion") in
  obj ← sjson_SetBytes obj "apiVersion" (GoString (RestoreApiVersion rules apiVersion));
  let kind := r_String (gjson_GetBytes obj "kind") in
  sjson_SetBytes obj "kind" (GoString (RestoreKind rules kind)).

Definition RestoreManagedFields (obj : string) : res string :=
  RewriteArray obj "metadata.managedFields" (λ managedField,
    Some <$> TransformString managedField "apiVersion" (RestoreApiVersion rules)).

Definition RenameManagedFields (obj : string) : res string :=
  RewriteArray obj "metadata.managedFields" (λ managedField,
    Some <$> TransformString managedField "apiVersion" (RenameApiVersion rules)).

Definition RenameResource (obj : string) : res string :=
  obj ← RenameAPIVersionAndKind obj;
  RenameManagedFields obj.

Definition RestoreResource (obj : string) : res string :=
  obj ← RestoreAPIVersionAndKind obj;
  RestoreManagedFields obj.

Definition RenameResourcesList (obj : string) : res string :=
  obj ← RenameAPIVersionAndKind obj;
  RewriteArray obj "items" (λ singleResource, Some <$> RenameResource singleResource).

Definition RestoreResourcesList (obj : string) : res string :=
  obj ← RestoreAPIVersionAndKind obj;
  RewriteArray obj "items" (λ singleResource, Some <$> RestoreResource singleResource).

Definition RewriteCustomResourceOrList (obj : string) (action : Action) : res string :=
  let kind := r_String (gjson_GetBytes obj "kind") in
  let kind := match action with Restore => RestoreKind rules kind | Rename => kind end in
  let '(origGroupName, origResName, isList) := ResourceByKind rules kind in
  if str_eqb origGroupName "" && str_eqb origResName "" then Ok obj else
  if (isList : bool) then match action with Restore => RestoreResourcesList obj | Rename => RenameResourcesList obj end
  else match action with Restore => RestoreResource obj | Rename => RenameResource obj end.

Definition RenameResourcePatch (patch : string) : res string := RenameMetadataPatch patch.

(** ** affinity.go *)

Definition rewriteSelectorRequirement (obj : string) (action : Action) : res string :=
  let key := r_String (gjson_GetBytes obj "key") in
  let values := r_String <$> r_Array (gjson_GetBytes obj "values") in
  let '(rwrKey, rwrValues) := RewriteNameValues (LabelsRewriter rules) key values action in
  obj ← sjson_SetBytes obj "key" (GoString rwrKey);
  sjson_SetBytes obj "values" (GoStrings (Some rwrValues)).

Definition rewriteNodeSelectorTerm (obj : string) (action : Action) : res string :=
  obj ← RewriteArray obj "matchLabels" (λ item, Some <$> rewriteSelectorRequirement item action);
  RewriteArray obj "matchExpressions" (λ item, Some <$> rewriteSelectorRequirement item action).

Definition rewriteNodeAffinity (obj : string) (action : Action) : res string :=
  obj ← TransformObject obj "requiredDuringSchedulingIgnoredDuringExecution" (λ affinityTerm,
    RewriteArray affinityTerm "nodeSelectorTerms" (λ item, Some <$> rewriteNodeSelectorTerm item action));
  RewriteArray obj "preferredDuringSchedulingIgnoredDuringExecution" (λ item,
    Some <$> TransformObject item "preference" (λ preference, rewriteNodeSelectorTerm preference action)).

Definition rewriteLabelSelector (obj : string) (action : Action) : res string :=
  obj ← RewriteLabelsMap obj "matchLabels" action;
  RewriteArray obj "matchExpressions" (λ item, Some <$> rewriteSelectorRequirement item action).

Definition rewritePodAffinityTerm (obj : string) (action : Action) : res string :=
  let labelKey (key : string) := Rewrite (LabelsRewriter rules) key action in
  obj ← TransformObject obj "labelSelector" (λ labelSelector, rewriteLabelSelector labelSelector action);
  obj ← TransformString obj "topologyKey" labelKey;
  obj ← TransformObject obj "namespaceSelector" (λ selector, rewriteLabelSelector selector action);
  obj ← TransformArrayOfStrings obj "matchLabelKeys" labelKey;
  TransformArrayOfStrings obj "mismatchLabelKeys" labelKey.

Definition rewritePodAffinity (obj : string) (action : Action) : res string :=
  obj ← RewriteArray obj "requiredDuringSchedulingIgnoredDuringExecution" (λ affinityTerm,
    Some <$> rewritePodAffinityTerm affinityTerm action);
  RewriteArray obj "preferredDuringSchedulingIgnoredDuringExecution" (λ affinityTerm,
    Some <$> TransformObject affinityTerm "podAffinityTerm" (λ term, rewritePodAffinityTerm term action)).

Definition RewriteAffinity (obj path : string) (action : Action) : res string :=
  TransformObject obj path (λ affinity,
    rwrAffinity ← TransformObject affinity "nodeAffinity" (λ item, rewriteNodeAffinity item action);
    rwrAffinity ← TransformObject rwrAffinity "podAffinity" (λ item, rewritePodAffinity item action);
    TransformObject rwrAffinity "podAntiAffinity" (λ item, rewritePodAffinity item action)).

(** ** app.go *)

Definition RewriteSpecTemplateLabelsAnno (obj path : string) (action : Action) : res string :=
  TransformObject obj path (λ obj,
    obj ← RewriteLabelsMap obj "template.metadata.labels" action;
    obj ← RewriteLabelsMap obj "selector.matchLabels" action;
    obj ← RewriteLabelsMap obj "template.spec.nodeSelector" action;
    obj ← RewriteAffinity obj "template.spec.affinity" action;
    RewriteAnnotationsMap obj "template.metadata.annotations" action).

Definition rewriteTemplateOrList (listKind obj : string) (action : Action) : res (option string) :=
  RewriteResourceOrList obj listKind (λ singleObj,
    Some <$> RewriteSpecTemplateLabelsAnno singleObj "spec" action).

Definition RewriteDeploymentOrList : string → Action → res (option string) := rewriteTemplateOrList "DeploymentList".
Definition RewriteDaemonSetOrList : string → Action → res (option string) := rewriteTemplateOrList "DaemonSetList".
Definition RewriteStatefulSetOrList : string → Action → res (option string) := rewriteTemplateOrList "StatefulSetList".

Definition RenameSpecTemplatePatch (obj : string) : res string :=
  obj ← RenameMetadataPatch obj;
  TransformPatch obj
    (Some (λ mergePatch, RewriteSpecTemplateLabelsAnno mergePatch "spec" Rename))
    (Some (λ jsonPatch, Some <$>
      if str_eqb (r_String (gjson_GetBytes jsonPatch "path")) "/spec"
      then RewriteSpecTemplateLabelsAnno jsonPatch "value" Rename else Ok jsonPatch)).

(** ** core.go *)

Definition RewritePodOrList (obj : string) (action : Action) : res (option string) :=
  RewriteResourceOrList obj "PodList" (λ singleObj, Some <$> (
    singleObj ← RewriteLabelsMap singleObj "spec.nodeSelector" action;
    RewriteAffinity singleObj "spec.affinity" action)).

Definition RewriteServiceOrList (obj : string) (action : Action) : res (option string) :=
  RewriteResourceOrList obj "ServiceList" (λ singleObj,
    Some <$> RewriteLabelsMap singleObj "spec.selector" action).

Definition RewriteJobOrList : string → Action → res (option string) := rewriteTemplateOrList "JobList".

Definition RewritePVCOrList (obj : string) (action : Action) : res (option string) :=
  RewriteResourceOrList obj "PersistentVolumeClaimList" (λ singleObj, Some <$> (
    singleObj ← TransformObject singleObj "spec.dataSource" (λ ds, RewriteAPIGroupAndKind ds action);
    TransformObject singleObj "spec.dataSourceRef" (λ ref, RewriteAPIGroupAndKind ref action))).

Definition RenameServicePatch (obj : string) : res string :=
  obj ← RenameMetadataPatch obj;
  TransformPatch obj None (Some (λ jsonPatch, Some <$>
    if str_eqb (r_String (gjson_GetBytes jsonPatch "path")) "/spec"
    then RewriteLabelsMap jsonPatch "value.selector" Rename else Ok jsonPatch)).

(** ** events.go, policy.go, 3rdparty.go *)

Definition RewriteEventOrList (obj : string) (action : Action) : res (option string) :=
  RewriteResourceOrList obj "EventList" (λ singleObj,
    Some <$> TransformObject singleObj "involvedObject" (λ involvedObj, RewriteAPIVersionAndKind involvedObj action)).

Definition RewritePDBOrList (obj : string) (action : Action) : res (option string) :=
  RewriteResourceOrList obj "PodDisruptionBudgetList" (λ singleObj,
    Some <$> RewriteLabelsMap singleObj "spec.selector.matchLabels" action).

Definition RewriteServiceMonitorOrList (obj : string) (action : Action) : res string :=
  TransformObject obj "spec.selector" (λ obj, rewriteLabelSelector obj action).
End Rewriter.
