(* ===== verification/RewriterRbac.v ===== *)
(** * Rewriting payloads that name groups and resources

    rbac.go, admission_configuration.go, admission_policy.go, crd.go and
    admission_review.go of kube-api-rewriter: access rules, webhook
    configurations, definitions of custom resources, and the reviews the API
    server sends to webhooks. *)

From S2P Require Import Prelude GoLib RwNames Json RwRules Rewriter.

Section Rewriter.
Context `{JsonLib} (rules : RewriteRules).

(** ** rbac.go *)

(** The strings of the array at a path. *)
Definition stringsAt (obj path : string) : list string := r_String <$> r_Array (gjson_GetBytes obj path).

(** The closure variable [renameResources] is set by the visit of [apiGroups]. *)
Definition RenameResourceRule (obj : string) : res string :=
  let renameResources := existsb (λ apiGroup, HasGroup rules apiGroup || str_eqb apiGroup "*") (stringsAt obj "apiGroups") in
  obj ← TransformArrayOfStrings obj "apiGroups" (λ apiGroup,
    if HasGroup rules apiGroup then RenameApiVersion rules apiGroup else apiGroup);
  if negb renameResources then Ok obj else
  TransformArrayOfStrings obj "resources" (λ resourceType,
    if str_eqb resourceType "*" || str_eqb resourceType "" then resourceType else
    match GroupResourceRules rules resourceType with
    | Some _ => RenameResourceName rules resourceType
    | None => resourceType
    end).

Definition RestoreResourceRule (obj : string) : res string :=
  let restoreResources := existsb (λ apiGroup, IsRenamedGroup rules apiGroup || str_eqb apiGroup "*") (stringsAt obj "apiGroups") in
  obj ← TransformArrayOfStrings obj "apiGroups" (λ apiGroup,
    if IsRenamedGroup rules apiGroup then RestoreApiVersion rules apiGroup else apiGroup);
  if negb restoreResources then Ok obj else
  TransformArrayOfStrings obj "resources" (λ resourceType,
    if str_eqb resourceType "*" || str_eqb resourceType "" then resourceType else
    let originalResourceType := RestoreResourceName rules resourceType in
    match GroupResourceRules rules originalResourceType with
    | Some _ => originalResourceType
    | None => resourceType
    end).

(** The branches on the action in the rewriters of rules. *)
Definition rewriteResourceRule (action : Action) (item : string) : res (option string) :=
  Some <$> match action with Rename => RenameResourceRule item | Restore => RestoreResourceRule item end.

Definition RewriteClusterRoleOrList (obj : string) (action : Action) : res (option string) :=
  RewriteResourceOrList obj "ClusterRoleList" (λ singleObj,
    Some <$> RewriteArray singleObj "rules" (rewriteResourceRule action)).

Definition RewriteRoleOrList (obj : string) (action : Action) : res (option string) :=
  RewriteResourceOrList obj "RoleList" (λ singleObj,
    Some <$> RewriteArray singleObj "rules" (rewriteResourceRule action)).

(** ** admission_configuration.go, admission_policy.go *)

Definition rewriteWebhooks (path : string) (action : Action) (obj : string) : res (option string) :=
  Some <$> RewriteArray obj path (λ webhook,
    Some <$> RewriteArray webhook "rules" (rewriteResourceRule action)).

Definition RewriteValidatingOrList (obj : string) (action : Action) : res (option string) :=
  RewriteResourceOrList obj "ValidatingWebhookConfigurationList" (rewriteWebhooks "webhooks" action).

Definition RewriteMutatingOrList (obj : string) (action : Action) : res (option string) :=
  RewriteResourceOrList obj "MutatingWebhookConfigurationList" (rewriteWebhooks "webhooks" action).

Definition RenameWebhookConfigurationPatch (obj : string) : res string :=
  obj ← RenameMetadataPatch rules obj;
  TransformPatch obj
    (Some (λ mergePatch, RewriteArray mergePatch "webhooks" (λ webhook,
       Some <$> RewriteArray webhook "rules" (λ item, Some <$> RestoreResourceRule item))))
    (Some (λ jsonPatch,
       if str_eqb (r_String (gjson_GetBytes jsonPatch "path")) "/webhooks"
       then rewriteWebhooks "value" Rename jsonPatch else Ok (Some jsonPatch))).

Definition RewriteValidatingAdmissionPolicyOrList (obj : string) (action : Action) : res (option string) :=
  RewriteResourceOrList obj "ValidatingAdmissionPolicyList" (λ singleObj,
    Some <$> RewriteArray singleObj "spec.matchConstraints.resourceRules" (rewriteResourceRule action)).

Definition RewriteValidatingAdmissionPolicyBindingOrList (obj : string) (action : Action) : res (option string) :=
  RewriteResourceOrList obj "ValidatingAdmissionPolicyBindingList" (λ singleObj,
    Some <$> RewriteArray singleObj "spec.matchResources.resourceRules" (rewriteResourceRule action)).

(** ** crd.go *)

Definition malformedName (crdName : string) : error :=
  Errorf "malformed CRD name: should be resourcetype.group, got %s" [crdName].

Definition RestoreCRD (obj : string) : res (option string) :=
  let crdName := r_String (gjson_GetBytes obj "metadata.name") in
  let '(resource, group, found) := Cut crdName "." in
  if negb found then Err (malformedName crdName) else
  if HasGroup rules group then Err SkipItem else
  if negb (IsRenamedGroup rules group) then Ok None else
  let origResource := RestoreResourceName rules resource in
  match GroupResourceRules rules origResource with
  | None => Ok None
  | Some (groupRule, resourceRule) =>
      let newName := rule_Plural resourceRule +:+ "." +:+ gr_Group groupRule in
      obj ← sjson_SetBytes obj "metadata.name" (GoString newName);
      obj ← sjson_SetBytes obj "spec.group" (GoString (gr_Group groupRule));
      let names := r_Raw (gjson_GetBytes obj "spec.names") in
      names ← sjson_SetBytes names "categories" (GoStrings (RestoreCategories (Some resourceRule)));
      names ← sjson_SetBytes names "kind" (GoString (RestoreKind rules (rule_Kind resourceRule)));
      names ← sjson_SetBytes names "listKind" (GoString (RestoreKind rules (rule_ListKind resourceRule)));
      names ← sjson_SetBytes names "plural" (GoString (RestoreResourceName rules (rule_Plural resourceRule)));
      names ← sjson_SetBytes names "singular" (GoString (RestoreResourceName rules (rule_Singular resourceRule)));
      names ← sjson_SetBytes names "shortNames" (GoStrings (Some (RestoreShortNames rules (rule_ShortNames resourceRule))));
      Some <$> sjson_SetRawBytes obj "spec.names" names
  end.

(** [if gjson.GetBytes(names, field).Exists() { names, err = sjsonSetBytes(...) }] *)
Definition setIfExists (names field : string) (v : goValue) : res string :=
  if r_Exists (gjson_GetBytes names field) then sjson_SetBytes names field v else Ok names.

Definition renameCRDSpec (resourceRule : ResourceRule) (spec : string) : res string :=
  spec ← TransformString spec "group" (RenameApiVersion rules);
  let names := r_Raw (gjson_GetBytes spec "names") in
  names ← setIfExists names "categories" (GoStrings (RenameCategories rules (rule_Categories resourceRule)));
  names ← setIfExists names "kind" (GoString (RenameKind rules (rule_Kind resourceRule)));
  names ← setIfExists names "listKind" (GoString (RenameKind rules (rule_ListKind resourceRule)));
  names ← setIfExists names "plural" (GoString (RenameResourceName rules (rule_Plural resourceRule)));
  names ← setIfExists names "singular" (GoString (RenameResourceName rules (rule_Singular resourceRule)));
  names ← setIfExists names "shortNames" (GoStrings (Some (RenameShortNames rules (rule_ShortNames resourceRule))));
  sjson_SetRawBytes spec "names" names.

Definition RenameCRD (obj : string) : res (option string) :=
  let crdName := r_String (gjson_GetBytes obj "metadata.name") in
  let '(resource, group, found) := Cut crdName "." in
  if negb found then Err (malformedName crdName) else
  match ResourceRules rules group resource with
  | None => Ok None
  | Some (_, resourceRule) =>
      let newName := RenameResourceName rules resource +:+ "." +:+ RenameApiVersion rules group in
      obj ← sjson_SetBytes obj "metadata.name" (GoString newName);
      newSpec ← renameCRDSpec resourceRule (r_Raw (gjson_GetBytes obj "spec"));
      Some <$> sjson_SetRawBytes obj "spec" newSpec
  end.

Definition RewriteCRDOrList (obj : string) (action : Action) : res (option string) :=
  RewriteResourceOrList obj "CustomResourceDefinitionList"
    (match action with Rename => RenameCRD | Restore => RestoreCRD end).

Definition isSpecPatch (singlePatch : string) : bool :=
  let op := r_String (gjson_GetBytes singlePatch "op") in
  let path := r_String (gjson_GetBytes singlePatch "path") in
  (str_eqb op "replace" || str_eqb op "add") && str_eqb path "/spec".

(** The error of the rewriting of the array is dropped: nil bytes are
    returned without one. *)
Definition RenameCRDPatch (resourceRule : ResourceRule) (obj : string) : res (option string) :=
  match RenameMetadataPatch rules obj with
  | Err err => Err (Wrapf "rename metadata patches for CRD: %w" [] err)
  | Ok obj =>
      let newPatches := RewriteArray obj Root (λ singlePatch,
        if isSpecPatch singlePatch then
          newValue ← renameCRDSpec resourceRule (r_Raw (gjson_GetBytes singlePatch "value"));
          Some <$> sjson_SetRawBytes singlePatch "value" newValue
        else Ok None) in
      let isRenamed := existsb (λ item, isSpecPatch (r_Raw item)) (r_Array (GetBytes obj Root)) in
      if negb isRenamed then Ok (Some obj) else
      match newPatches with Ok newPatches => Ok (Some newPatches) | Err _ => Ok None end
  end.

(** ** admission_review.go *)

Definition RenameAdmissionReviewResponse (obj : string) : res string :=
  if negb (str_eqb (r_String (gjson_GetBytes obj "patchType")) "JSONPatch") then Ok obj else
  let b64Patch := r_String (gjson_GetBytes obj "patch") in
  if str_eqb b64Patch "" then Ok obj else
  match DecodeString b64Patch with
  | Err err => Err (Wrapf "decode base64 patch: %w" [] err)
  | Ok patch =>
      match RenameMetadataPatch rules patch with
      | Err err => Err (Wrapf "rename metadata patch: %w" [] err)
      | Ok rwrPatch => sjson_SetBytes obj "patch" (GoString (EncodeToString rwrPatch))
      end
  end.

Definition RestoreAdmissionReviewObject (obj : string) : res string :=
  match RestoreResource rules obj with
  | Err err => Err (Wrapf "restore resource group, kind: %w" [] err)
  | Ok obj =>
      match TransformObject obj "metadata" (λ metadataObj, RewriteMetadata rules metadataObj Restore) with
      | Err err => Err (Wrapf "restore resource metadata: %w" [] err)
      | Ok obj => Ok obj
      end
  end.

(** The group and the resource, or the group and the kind, under a field. *)
Definition restoreResourceField (obj field : string) : res (option string) :=
  let fieldObj := gjson_GetBytes obj field in
  let group := r_String (r_Get fieldObj "group") in
  if negb (IsRenamedGroup rules group) then Ok None else
  obj ← sjson_SetBytes obj (field +:+ ".resource")
          (GoString (RestoreResourceName rules (r_String (r_Get fieldObj "resource"))));
  Some <$> sjson_SetBytes obj (field +:+ ".group") (GoString (RestoreApiVersion rules group)).

Definition restoreKindField (obj field : string) : res string :=
  let fieldObj := gjson_GetBytes obj field in
  obj ← sjson_SetBytes obj (field +:+ ".kind") (GoString (RestoreKind rules (r_String (r_Get fieldObj "kind"))));
  sjson_SetBytes obj (field +:+ ".group") (GoString (RestoreApiVersion rules (r_String (r_Get fieldObj "group")))).

Definition wrapResult {A} (format : string) (r : res A) : res A :=
  match r with Err err => Err (Wrapf format [] err) | Ok a => Ok a end.

Definition RestoreAdmissionReviewRequest (obj : string) : res (option string) :=
  r ← restoreResourceField obj "resource";
  match r with
  | None => Ok None
  | Some obj =>
      r ← restoreResourceField obj "requestResource";
      match r with
      | None => Ok None
      | Some obj =>
          let fieldObj := gjson_GetBytes obj "subresource" in
          if r_Exists fieldObj && negb (str_eqb (r_String fieldObj) "") then Ok (Some obj) else
          obj ← restoreKindField obj "kind";
          obj ← restoreKindField obj "requestKind";
          obj ← wrapResult "restore 'object': %w" (TransformObject obj "object" RestoreAdmissionReviewObject);
          obj ← wrapResult "restore 'oldObject': %w" (TransformObject obj "oldObject" RestoreAdmissionReviewObject);
          Ok (Some obj)
      end
  end.

Definition RewriteAdmissionReview (obj : string) : res string :=
  if r_Exists (gjson_GetBytes obj "response")
  then TransformObject obj "response" RenameAdmissionReviewResponse else
  let request := gjson_GetBytes obj "request" in
  if r_Exists request then
    newRequest ← RestoreAdmissionReviewRequest (r_Raw request);
    match newRequest with
    | Some newRequest =>
        if str_eqb newRequest "" then Ok obj else sjson_SetRawBytes obj "request" newRequest
    | None => Ok obj
    end
  else Ok obj.
End Rewriter.
