(* ===== verification/RwEndpoint.v ===== *)
(** * Request endpoints

    Parsing, rewriting and printing of request paths and queries, and the
    agreement of all three with the list of segments. *)

From S2P Require Import Prelude GoLib RwNames Json RwRules.

From Stdlib Require Import Ascii.

(** * Request paths: api_endpoint.go, target_request.go and the rewriting of paths

    The proxy splits the path of a request into the parts of a Kubernetes API
    endpoint, renames group and resource for the API server, and decides from
    the endpoint whether the bodies of the request and of the response are
    rewritten. *)

(** ** api_endpoint.go *)

Record APIEndpoint := mkAPIEndpoint {
  ae_IsUnknown : bool;
  ae_RawPath : string;
  ae_IsRoot : bool;
  ae_Prefix : string;
  ae_IsCore : bool;
  ae_Group : string;
  ae_Version : string;
  ae_Namespace : string;
  ae_ResourceType : string;
  ae_Name : string;
  ae_Subresource : string;
  ae_Remainder : list string;
  ae_IsCRD : bool;
  ae_CRDResourceType : string;
  ae_CRDGroup : string;
  ae_IsWatch : bool;
  ae_RawQuery : string;
}.

(** The parts the parsers fill, the other fields being zero. *)
Definition endpoint (isCore : bool) (prefix group version namespace resourceType name subresource : string)
    (remainder : list string) (isCRD : bool) : APIEndpoint :=
  let crd := if isCRD then Cut name "." else ("", "", false) in
  mkAPIEndpoint false "" false prefix isCore group version namespace resourceType name subresource remainder
    isCRD (fst (fst crd)) (snd (fst crd)) false "".

Definition withURL (a : APIEndpoint) (isWatch : bool) (rawPath rawQuery : string) : APIEndpoint :=
  mkAPIEndpoint (ae_IsUnknown a) rawPath (ae_IsRoot a) (ae_Prefix a) (ae_IsCore a) (ae_Group a) (ae_Version a)
    (ae_Namespace a) (ae_ResourceType a) (ae_Name a) (ae_Subresource a) (ae_Remainder a) (ae_IsCRD a)
    (ae_CRDResourceType a) (ae_CRDGroup a) isWatch rawQuery.

Definition withRawQuery (a : APIEndpoint) (rawQuery : string) : APIEndpoint :=
  withURL a (ae_IsWatch a) (ae_RawPath a) rawQuery.

Definition withGroupResource (a : APIEndpoint) (group resourceType : string) : APIEndpoint :=
  mkAPIEndpoint (ae_IsUnknown a) (ae_RawPath a) (ae_IsRoot a) (ae_Prefix a) (ae_IsCore a) group (ae_Version a)
    (ae_Namespace a) resourceType (ae_Name a) (ae_Subresource a) (ae_Remainder a) (ae_IsCRD a)
    (ae_CRDResourceType a) (ae_CRDGroup a) (ae_IsWatch a) (ae_RawQuery a).

Definition withCRD (a : APIEndpoint) (crdGroup crdResourceType name : string) : APIEndpoint :=
  mkAPIEndpoint (ae_IsUnknown a) (ae_RawPath a) (ae_IsRoot a) (ae_Prefix a) (ae_IsCore a) (ae_Group a) (ae_Version a)
    (ae_Namespace a) (ae_ResourceType a) name (ae_Subresource a) (ae_Remainder a) (ae_IsCRD a)
    crdResourceType crdGroup (ae_IsWatch a) (ae_RawQuery a).

Definition NamespacesPart : string := "namespaces".
Definition CRDGroup : string := "apiextensions.k8s.io".
Definition CRDResourceType : string := "customresourcedefinitions".

(** The first item, the remaining ones, and whether none remain. *)
Definition Shift (items : list string) : string * list string * bool :=
  match items with
  | [] => ("", [], true)
  | first :: rest => (first, rest, list_len0 rest)
  end.

(** The tail of both parsers, from NAME on: for a namespaced resource the
    items read so far are NAMESPACE and RESOURCETYPE. *)
Definition parseTail (namespaced : bool) (mk : string → string → string → string → list string → APIEndpoint)
    (resourceType name subresource : string) (isLast : bool) (items : list string) : APIEndpoint :=
  let '(namespace, resourceType, name, subresource) :=
    if namespaced then (name, subresource, "", "") else ("", resourceType, name, subresource) in
  if isLast then mk namespace resourceType name subresource [] else
  let '(name, items, isLast) := Shift items in
  if isLast then mk namespace resourceType name subresource [] else
  let '(subresource, items, isLast) := Shift items in
  if isLast then mk namespace resourceType name subresource [] else
  mk namespace resourceType name subresource items.

Definition parseCoreEndpoint (pathItems : list string) : APIEndpoint :=
  let '(prefix, items, isLast) := Shift pathItems in
  let mk version := λ namespace resourceType name subresource remainder,
    endpoint true prefix "" version namespace resourceType name subresource remainder false in
  if isLast then mk "" "" "" "" "" [] else
  let '(version, items, isLast) := Shift items in
  if isLast then mk version "" "" "" "" [] else
  let '(resourceType, items, isLast) := Shift items in
  if isLast then mk version "" resourceType "" "" [] else
  let '(name, items, isLast) := Shift items in
  if isLast then mk version "" resourceType name "" [] else
  let '(subresource, items, isLast) := Shift items in
  parseTail (str_eqb resourceType NamespacesPart && negb (str_eqb subresource "status"))
    (mk version) resourceType name subresource isLast items.

(** The name of a definition is split once, when it is read; [CRDResourceType]
    and [CRDGroup] keep that value when the name is overwritten later. *)
Definition parseAPIsEndpoint (pathItems : list string) : APIEndpoint :=
  let '(prefix, items, isLast) := Shift pathItems in
  let mk group version := λ namespace resourceType name subresource remainder,
    endpoint false prefix group version namespace resourceType name subresource remainder false in
  if isLast then mk "" "" "" "" "" "" [] else
  let '(group, items, isLast) := Shift items in
  if isLast then mk group "" "" "" "" "" [] else
  let '(version, items, isLast) := Shift items in
  if isLast then mk group version "" "" "" "" [] else
  let '(resourceType, items, isLast) := Shift items in
  let isCRD := str_eqb group CRDGroup && str_eqb resourceType CRDResourceType in
  if isLast then endpoint false prefix group version "" resourceType "" "" [] isCRD else
  let '(name, items, isLast) := Shift items in
  if isLast then endpoint false prefix group version "" resourceType name "" [] isCRD else
  let '(subresource, items, isLast) := Shift items in
  let ep := parseTail (str_eqb resourceType NamespacesPart) (mk group version) resourceType name subresource isLast items in
  if isCRD then
    let crd := endpoint false prefix group version "" resourceType name "" [] true in
    mkAPIEndpoint false "" false prefix false group version (ae_Namespace ep) (ae_ResourceType ep) (ae_Name ep)
      (ae_Subresource ep) (ae_Remainder ep) true (ae_CRDResourceType crd) (ae_CRDGroup crd) false ""
  else ep.

Definition trimSlash : string → string := TrimFunc (λ c, bool_decide (c = "/"%char)).

(** The path and the raw query of the URL. *)
Definition ParseAPIEndpoint (rawPath rawQuery : string) : APIEndpoint :=
  let isWatch := Contains rawQuery "watch=true" in
  let cleanedPath := trimSlash rawPath in
  let pathItems := SplitChar cleanedPath "/" in
  if str_eqb cleanedPath "" then
    mkAPIEndpoint false rawPath true "" false "" "" "" "" "" "" [] false "" "" isWatch rawQuery
  else match pathItems with
  | "api" :: _ => withURL (parseCoreEndpoint pathItems) isWatch rawPath rawQuery
  | "apis" :: _ => withURL (parseAPIsEndpoint pathItems) isWatch rawPath rawQuery
  | _ => mkAPIEndpoint true rawPath false "" false "" "" "" "" "" "" [] false "" "" false rawQuery
  end.

Definition ae_Path (a : APIEndpoint) : string :=
  if ae_IsRoot a || ae_IsCore a || ae_IsUnknown a then ae_RawPath a else
  let ns := if str_eqb (ae_Namespace a) "" then "" else NamespacesPart +:+ "/" +:+ ae_Namespace a in
  let parts := [ae_Prefix a; ae_Group a; ae_Version a; ns; ae_ResourceType a; ae_Name a; ae_Subresource a]
               ++ ae_Remainder a in
  "/" +:+ Join (filter (λ part, part ≠ "") parts) "/".

Example parse_ex :
  let ep := ParseAPIEndpoint "/apis/original.group.io/v1/namespaces/ns/someresources/name/status" "" in
  (ae_Group ep, ae_Namespace ep, ae_ResourceType ep, ae_Name ep, ae_Subresource ep, ae_Path ep) =
  ("original.group.io", "ns", "someresources", "name", "status",
   "/apis/original.group.io/v1/namespaces/ns/someresources/name/status").
Proof. vm_compute. reflexivity. Qed.

(** * Rewriting a request line: rule_rewriter.go (paths and queries), target_request.go *)

(** ** Label selectors (k8s.io/apimachinery, outside the repository) *)

Record LabelSelectorRequirement := mkRequirement { lsr_Key : string; lsr_Operator : string; lsr_Values : list string }.
Record LabelSelector := mkLabelSelector {
  ls_MatchLabels : option (list (string * string));
  ls_MatchExpressions : list LabelSelectorRequirement;
}.

(** [metav1.ParseToLabelSelector], and [metav1.LabelSelectorAsSelector] followed
    by [String()]; the entries of the map are given in the order of a loop. *)
Class SelectorLib := {
  ParseToLabelSelector : string → res LabelSelector;
  SelectorString : option (gmap string string) → list LabelSelectorRequirement → res string;
}.

(** ** The pattern of [metadataNameRe]: a name, and the dotted names after it *)

Definition name_char (c : ascii) : bool := is_lower c || is_digit c || bool_decide (c = "-"%char).

Fixpoint span (p : ascii → bool) (s : string) : string * string :=
  match s with
  | EmptyString => (EmptyString, EmptyString)
  | String c s' => if p c then let '(a, b) := span p s' in (String c a, b) else (EmptyString, s)
  end.

(** Every round takes at least two characters. *)
Fixpoint dotted (fuel : nat) (s : string) : string :=
  match fuel, s with
  | S fuel', String "." s' =>
      let '(a, b) := span name_char s' in
      if str_eqb a "" then "" else "." +:+ a +:+ dotted fuel' b
  | _, _ => ""
  end.

(** A match at the start of the text: the two groups and its length. *)
Definition match_name (s : string) : option (string * string * nat) :=
  if negb (HasPrefix s "metadata") then None else
  match str_drop 8 s with
  | String c s' =>
      if bool_decide (N_of_ascii c = 10%N) || negb (HasPrefix s' "name%3D") then None else
      let '(g1, rest) := span name_char (str_drop 7 s') in
      if str_eqb g1 "" then None else
      let g2 := dotted (String.length rest) rest in
      Some (g1, g2, (16 + String.length g1 + String.length g2)%nat)
  | EmptyString => None
  end.

Fixpoint find_name (s : string) : option (string * string) :=
  match match_name s with
  | Some (g1, g2, _) => Some (g1, g2)
  | None => match s with EmptyString => None | String _ s' => find_name s' end
  end.

(** [ReplaceAllString] for a replacement without [$]. *)
Fixpoint replace_names (repl : string) (skip : nat) (s : string) : string :=
  match s with
  | EmptyString => EmptyString
  | String c s' =>
      match skip with
      | S skip' => replace_names repl skip' s'
      | O => match match_name s with
             | Some (_, _, n) => repl +:+ replace_names repl (n - 1) s'
             | None => String c (replace_names repl 0 s')
             end
      end
  end.

(** ** rule_rewriter.go *)
Section Target.
Context `{SelectorLib} (rules : RewriteRules).

Definition rewriteFieldSelector (rawQuery : string) : string :=
  match find_name rawQuery with
  | None => ""
  | Some (resourceType, group) =>
      let group := TrimPrefix group "." in
      match ResourceRules rules group resourceType with
      | None => ""
      | Some _ =>
          let newSelector := "metadata.name%3D" +:+ RenameResourceName rules resourceType +:+ "." +:+
                             RenameApiVersion rules group in
          replace_names newSelector 0 rawQuery
      end
  end.

Definition rewriteLabelSelectorQuery (rawQuery : string) : string :=
  match ParseQuery rawQuery with
  | None => rawQuery
  | Some q =>
      let lsq := v_Get q "labelSelector" in
      if str_eqb lsq "" then rawQuery else
      match ParseToLabelSelector lsq with
      | Err _ => rawQuery
      | Ok labelSelector =>
          let rwrMatchLabels := RenameMap (LabelsRewriter rules) (ls_MatchLabels labelSelector) in
          let rwrMatchExpressions := (λ expr,
            let '(key, values) := RewriteNameValues (LabelsRewriter rules) (lsr_Key expr) (lsr_Values expr) Rename in
            mkRequirement key (lsr_Operator expr) values) <$> ls_MatchExpressions labelSelector in
          match SelectorString rwrMatchLabels rwrMatchExpressions with
          | Err _ => rawQuery
          | Ok res => v_Encode (v_Set q "labelSelector" res)
          end
      end
  end.

Definition rewriteCRDEndpoint (ep : APIEndpoint) : option APIEndpoint :=
  if str_eqb (ae_CRDGroup ep) "" && str_eqb (ae_CRDResourceType ep) "" then
    if Contains (ae_RawQuery ep) "metadata.name" then
      let newQuery := rewriteFieldSelector (ae_RawQuery ep) in
      if str_eqb newQuery "" then None else Some (withRawQuery ep newQuery)
    else None
  else
  match ResourceRules rules (ae_CRDGroup ep) (ae_CRDResourceType ep) with
  | None => None
  | Some _ =>
      let group := RenameApiVersion rules (ae_CRDGroup ep) in
      let resourceType := RenameResourceName rules (ae_CRDResourceType ep) in
      Some (withCRD ep group resourceType (resourceType +:+ "." +:+ group))
  end.

Definition rewriteCRApiEndpoint (ep : APIEndpoint) : option APIEndpoint :=
  if str_eqb (ae_Group ep) "" then None else
  match GroupRuleFor rules (ae_Group ep) with
  | None => None
  | Some _ =>
      let newGroup := RenameApiVersion rules (ae_Group ep) in
      newResource ← (if str_eqb (ae_ResourceType ep) "" then Some "" else
        match ResourceRules rules (ae_Group ep) (ae_ResourceType ep) with
        | None => None
        | Some _ => Some (RenameResourceName rules (ae_ResourceType ep))
        end);
      if str_eqb newGroup "" && str_eqb newResource "" then None else
      Some (withGroupResource ep
        (if str_eqb newGroup "" then ae_Group ep else newGroup)
        (if str_eqb newResource "" then ae_ResourceType ep else newResource))
  end.

Definition RewriteAPIEndpoint (ep : APIEndpoint) : option APIEndpoint :=
  let rwrEndpoint :=
    if ae_IsRoot ep || ae_IsCore ep || ae_IsUnknown ep then None else
    if ae_IsCRD ep then rewriteCRDEndpoint ep else rewriteCRApiEndpoint ep in
  let target := default ep rwrEndpoint in
  if Contains (ae_RawQuery ep) "labelSelector" then
    let newRawQuery := rewriteLabelSelectorQuery (ae_RawQuery target) in
    if str_eqb newRawQuery (ae_RawQuery target) then rwrEndpoint else Some (withRawQuery target newRawQuery)
  else rwrEndpoint.

(** ** target_request.go *)

Record TargetRequest := mkTargetRequest {
  originEndpoint : option APIEndpoint;
  targetEndpoint : option APIEndpoint;
  webhookRule : option WebhookRule;
}.

(** The request is given by the path and the raw query of its URL. *)
Definition NewTargetRequest (url : option (string * string)) : option TargetRequest :=
  '(path, rawQuery) ← url;
  match WebhookRuleFor rules path with
  | Some rule => Some (mkTargetRequest None None (Some rule))
  | None =>
      let apiEndpoint := ParseAPIEndpoint path rawQuery in
      Some (mkTargetRequest (Some apiEndpoint) (RewriteAPIEndpoint apiEndpoint) None)
  end.
End Target.

Section Request.
Context (tr : TargetRequest).

Definition tr_Path : string :=
  match targetEndpoint tr, originEndpoint tr, webhookRule tr with
  | Some ep, _, _ => ae_Path ep
  | None, Some ep, _ => ae_Path ep
  | None, None, Some rule => wr_Path rule
  | None, None, None => ""
  end.

Definition tr_IsCore : bool := from_option ae_IsCore false (originEndpoint tr).
Definition tr_IsCRD : bool := from_option ae_IsCRD false (originEndpoint tr).
Definition tr_IsWatch : bool := from_option ae_IsWatch false (originEndpoint tr).
Definition tr_IsWebhook : bool := bool_decide (is_Some (webhookRule tr)).

Definition OrigGroup : string :=
  match originEndpoint tr with
  | Some ep => if ae_IsCRD ep then ae_CRDGroup ep else ae_Group ep
  | None => from_option wr_Group "" (webhookRule tr)
  end.

Definition OrigResourceType : string :=
  match originEndpoint tr with
  | Some ep => if ae_IsCRD ep then ae_CRDResourceType ep else ae_ResourceType ep
  | None => from_option wr_Resource "" (webhookRule tr)
  end.

Definition tr_RawQuery : string :=
  match targetEndpoint tr, originEndpoint tr with
  | Some ep, _ => ae_RawQuery ep
  | None, Some ep => ae_RawQuery ep
  | None, None => ""
  end.

Definition RequestURI : string :=
  if str_eqb tr_RawQuery "" then tr_Path else tr_Path +:+ "?" +:+ tr_RawQuery.

Definition shouldRewriteResource (resourceType : string) : bool :=
  existsb (str_eqb resourceType)
    ["nodes"; "pods"; "configmaps"; "secrets"; "services"; "serviceaccounts"; "mutatingwebhookconfigurations";
     "validatingwebhookconfigurations"; "clusterroles"; "roles"; "rolebindings"; "clusterrolebindings";
     "deployments"; "statefulsets"; "daemonsets"; "jobs"; "persistentvolumeclaims"; "prometheusrules";
     "servicemonitors"; "poddisruptionbudgets"; "controllerrevisions"; "apiservices";
     "validatingadmissionpolicybindings"; "validatingadmissionpolicies"; "events"].

Definition ShouldRewriteRequest : bool :=
  match webhookRule tr, originEndpoint tr with
  | Some _, _ => true
  | None, Some ep =>
      if ae_IsRoot ep || ae_IsUnknown ep then false else
      match targetEndpoint tr with
      | None =>
          if str_eqb (ae_ResourceType ep) "customresourcedefinitions" && str_eqb (ae_Name ep) "" then true
          else shouldRewriteResource (ae_ResourceType ep)
      | Some _ => true
      end
  | None, None => true
  end.

Definition ShouldRewriteResponse : bool :=
  match webhookRule tr, originEndpoint tr with
  | Some _, _ => true
  | None, None => false
  | None, Some ep =>
      if ae_IsRoot ep || ae_IsUnknown ep then false else
      let rewritten := bool_decide (is_Some (targetEndpoint tr)) in
      if ae_IsCRD ep then str_eqb (ae_Name ep) "" || rewritten else
      if rewritten then true else
      if str_eqb (ae_Group ep) "" then true else
      shouldRewriteResource (ae_ResourceType ep)
  end.

Definition ResourceForLog : string :=
  match webhookRule tr, originEndpoint tr with
  | Some rule, _ => wr_Resource rule
  | None, Some ep =>
      let withSubresource := if str_eqb (ae_Subresource ep) "" then ae_ResourceType ep
                             else ae_ResourceType ep +:+ "/" +:+ ae_Subresource ep in
      if ae_IsRoot ep then "ROOT" else
      if ae_IsUnknown ep then "UKNOWN" else
      if ae_IsCore ep then
        if str_eqb (ae_Version ep) "" then "APIVersions/core" else
        if str_eqb (ae_ResourceType ep) "" then "APIResourceList/core" else withSubresource
      else
        if str_eqb (ae_Group ep) "" then "APIGroupList" else
        if str_eqb (ae_Version ep) "" then "APIGroup/" +:+ ae_Group ep else
        if str_eqb (ae_ResourceType ep) "" then "APIResourceList/" +:+ ae_Group ep else withSubresource
  | None, None => "UNKNOWN"
  end.
End Request.

(** * A request for a known resource goes to the renamed one: theorems about paths *)

(** ** Items of a path *)

Definition pathItem (s : string) : Prop := s ≠ "" ∧ free_of "/"%char s = true.

Lemma Join_cons2 x y l : Join (x :: y :: l) "/" = x +:+ String "/" (Join (y :: l) "/").
Proof. reflexivity. Qed.

Lemma SplitChar_Join x l : Forall pathItem (x :: l) → SplitChar (Join (x :: l) "/") "/" = x :: l.
Proof.
  revert x. induction l as [|y l IH]; intros x [[_ Hx] Hl]%Forall_cons; [by apply SplitChar_item|].
  rewrite Join_cons2, SplitChar_app by done. f_equal. by apply IH.
Qed.

(** Joined items start and end with an item. *)
Definition isSlash (c : ascii) : bool := bool_decide (c = "/"%char).

Lemma free_starts s : pathItem s → starts_without isSlash s = true ∧ ends_without isSlash s = true.
Proof.
  intros [Hne Hf]. destruct s as [|c s]; [done|]. clear Hne. split; [by apply andb_true_iff in Hf as [? _]|].
  revert c Hf. induction s as [|c' s IH]; intros c Hf; [simpl in *; by rewrite andb_true_r in Hf|].
  change (ends_without isSlash (String c' s) = true). apply IH. simpl in *. by apply andb_true_iff in Hf as [_ ?].
Qed.

Lemma Join_ends x l : Forall pathItem (x :: l) →
  starts_without isSlash (Join (x :: l) "/") = true ∧ ends_without isSlash (Join (x :: l) "/") = true.
Proof.
  revert x. induction l as [|y l IH]; intros x [Hx Hl]%Forall_cons; [by apply free_starts|].
  rewrite Join_cons2. split.
  - destruct x as [|c x]; [by destruct Hx|]. rewrite str_app_cons. by apply (free_starts (String c x)).
  - apply ends_without_app. destruct (IH y Hl) as [_ He]. by destruct (Join (y :: l) "/").
Qed.

Lemma trimSlash_Join x l : Forall pathItem (x :: l) → trimSlash ("/" +:+ Join (x :: l) "/") = Join (x :: l) "/".
Proof.
  intros Hl. destruct (Join_ends x l Hl) as [Hs He]. unfold trimSlash. fold isSlash.
  change (TrimFunc isSlash (Join (x :: l) "/") = Join (x :: l) "/"). by apply TrimFunc_id.
Qed.

(** ** Paths of resources *)

Definition resourcePath (ns : option string) (g v r : string) (tl : list string) : list string :=
  ["apis"; g; v] ++ match ns with Some n => [NamespacesPart; n] | None => [] end ++ r :: tl.

(** The path of the request for a resource that is not a definition of
    resources: in a namespace with anything behind it, or cluster-wide with at
    most a name and a subresource. *)
Definition resourceRequest (ns : option string) (g v r : string) (tl : list string) : Prop :=
  Forall pathItem (resourcePath ns g v r tl) ∧
  (ns = None → r ≠ NamespacesPart ∧ (length tl ≤ 2)%nat ∧ ¬ (g = CRDGroup ∧ r = CRDResourceType)).

Definition pathEndpoint (ns : option string) (g v r : string) (tl : list string) : APIEndpoint :=
  endpoint false "apis" g v (default "" ns) r (default "" (tl !! 0%nat)) (default "" (tl !! 1%nat)) (drop 2 tl) false.

Lemma parse_resource ns g v r tl : resourceRequest ns g v r tl →
  parseAPIsEndpoint (resourcePath ns g v r tl) = pathEndpoint ns g v r tl.
Proof.
  intros [Hitems Hcluster]. unfold resourcePath, parseAPIsEndpoint.
  destruct ns as [n|]; cbn [app Shift list_len0].
  - rewrite andb_false_r. cbn [parseTail]. rewrite str_eqb_refl.
    by destruct tl as [|a [|b [|c tl]]].
  - destruct (Hcluster eq_refl) as (Hr & Hlen & Hcrd).
    assert (str_eqb g CRDGroup && str_eqb r CRDResourceType = false) as Hc.
    { apply not_true_is_false. rewrite andb_true_iff, !str_eqb_true. done. }
    rewrite Hc. replace (str_eqb r NamespacesPart) with false by (symmetry; by apply str_eqb_false).
    destruct tl as [|a [|b [|c tl]]]; [done..|simpl in Hlen; lia].
Qed.

Lemma parse_path ns g v r tl q : resourceRequest ns g v r tl →
  ParseAPIEndpoint ("/" +:+ Join (resourcePath ns g v r tl) "/") q =
  withURL (pathEndpoint ns g v r tl) (Contains q "watch=true") ("/" +:+ Join (resourcePath ns g v r tl) "/") q.
Proof.
  intros Hreq. pose proof Hreq as [Hitems _]. unfold ParseAPIEndpoint.
  assert (resourcePath ns g v r tl = "apis" :: tail (resourcePath ns g v r tl)) as Heq by done.
  rewrite Heq in Hitems. rewrite Heq, trimSlash_Join, SplitChar_Join, <- Heq by done.
  replace (str_eqb (Join (resourcePath ns g v r tl) "/") "") with false.
  - rewrite <- (parse_resource ns g v r tl Hreq). reflexivity.
  - symmetry. apply str_eqb_false. rewrite Heq. destruct (Join_ends _ _ Hitems) as [Hs _]. intros He. by rewrite He in Hs.
Qed.

(** The path of an endpoint is put together from its parts. *)
Lemma endpoint_path ns g v r tl isWatch raw q : Forall pathItem (resourcePath ns g v r tl) →
  ae_Path (withURL (pathEndpoint ns g v r tl) isWatch raw q) = "/" +:+ Join (resourcePath ns g v r tl) "/".
Proof.
  intros Hitems. unfold ae_Path, pathEndpoint, resourcePath in *. cbn [ae_IsRoot ae_IsCore ae_IsUnknown withURL endpoint orb
    ae_Namespace ae_Prefix ae_Group ae_Version ae_ResourceType ae_Name ae_Subresource ae_Remainder] in *.
  assert (∀ l, Forall pathItem l → filter (λ part, part ≠ "") l = l) as Hkeep.
  { intros l. induction 1 as [|x l [Hx _] _ IH]; [done|]. by rewrite filter_cons_True, IH. }
  assert (filter (λ part, part ≠ "") ([default "" (tl !! 0%nat); default "" (tl !! 1%nat)] ++ drop 2 tl) = tl) as Htl.
  { assert (Forall pathItem tl) as Htl by (destruct ns; simpl in Hitems; by repeat apply Forall_cons in Hitems as [_ Hitems]).
    destruct tl as [|a [|b tl]]; [done| |by apply Hkeep]. simpl. apply Forall_cons in Htl as [[Ha _] _].
    by rewrite filter_cons_True. }
  rewrite !Forall_app in Hitems. destruct Hitems as (Hgv & Hns & [Hr _]%Forall_cons).
  change ([?a; ?b; ?c; ?d; ?e; ?f; ?h] ++ ?l) with ([a; b; c] ++ [d] ++ [e] ++ [f; h] ++ l).
  rewrite !filter_app in *. rewrite Htl, (Hkeep [_; _; _]), (Hkeep [r]); [|by apply Forall_singleton|done].
  destruct ns as [n|]; [|done]. cbn [default from_option id].
  assert (pathItem n) as [Hn _] by (by repeat apply Forall_cons in Hns as [? Hns]).
  replace (str_eqb n "") with false by (symmetry; by apply str_eqb_false).
  rewrite filter_cons_True by done. reflexivity.
Qed.

(** ** The request line the server receives *)
Section Request.
Context `{SelectorLib} (rules : RewriteRules).

(** The group and the resource in the path of the rewritten request. *)
Definition renamedGR (g r : string) : string * string :=
  match ResourceRules rules g r with
  | Some _ => (RenameApiVersion rules g, RenameResourceName rules r)
  | None => (g, r)
  end.

Lemma rewrite_resource ns g v r tl isWatch raw q : resourceRequest ns g v r tl → RenameApiVersion rules g ≠ "" →
  rewriteCRApiEndpoint rules (withURL (pathEndpoint ns g v r tl) isWatch raw q) =
  match ResourceRules rules g r with
  | Some _ => Some (withURL (pathEndpoint ns (RenameApiVersion rules g) v (RenameResourceName rules r) tl) isWatch raw q)
  | None => None
  end.
Proof.
  intros [Hitems _] Hg. assert (pathItem g ∧ pathItem r) as [[Hne Hf] [Hr Hfr]].
  { unfold resourcePath in Hitems. rewrite !Forall_app in Hitems. destruct Hitems as (Hgv & _ & [? _]%Forall_cons).
    by apply Forall_cons in Hgv as [_ [? _]%Forall_cons]. }
  unfold rewriteCRApiEndpoint. cbn [withURL pathEndpoint endpoint ae_Group ae_ResourceType].
  replace (str_eqb g "") with false by (symmetry; by apply str_eqb_false).
  replace (str_eqb r "") with false by (symmetry; by apply str_eqb_false).
  unfold GroupRuleFor, ResourceRules. assert (groupOf g = g) as ->.
  { unfold groupOf, Cut. apply cut_char_None in Hf. by rewrite Hf. }
  destruct (entry (rc_Rules (rw_cfg rules)) g) as [gr|]; [|done]. cbn [fmap option_fmap option_map mbind option_bind].
  destruct (entry (agr_ResourceRules gr) (groupOf r)) as [rr|]; [|done]. cbn [mbind option_bind].
  replace (str_eqb (RenameApiVersion rules g) "") with false by (symmetry; by apply str_eqb_false). cbn [andb].
  replace (str_eqb (RenameResourceName rules r) "") with false; [reflexivity|].
  symmetry. apply str_eqb_false. unfold RenameResourceName. intros He. apply Hr.
  destruct (rc_ResourceTypePrefix (rw_cfg rules)); [done|]. by rewrite str_app_cons in He.
Qed.
End Request.

(** C19: the path of a request for a resource, taken apart by the parser,
    rewritten and put together again, is the path of the request with the
    group and the resource replaced by their renamed forms when the rules know
    the resource, and the unchanged path when they do not; the namespace, the
    name, the subresource and everything behind them are kept, in a namespace
    for paths of any length and cluster-wide up to the subresource.  This is for
    requests that are not for resource definitions, have no label selector in
    the query and no webhook rule for their path, and for rules whose renamed
    group is not empty and whose renamed names are path segments. *)
Theorem request_path_rewritten `{SelectorLib} (rules : RewriteRules) (ns : option string) (g v r : string)
    (tl : list string) (q : string) :
  resourceRequest ns g v r tl → RenameApiVersion rules g ≠ "" →
  WebhookRuleFor rules ("/" +:+ Join (resourcePath ns g v r tl) "/") = None →
  Contains q "labelSelector" = false →
  Forall pathItem (resourcePath ns (fst (renamedGR rules g r)) v (snd (renamedGR rules g r)) tl) →
  ∃ tr, NewTargetRequest rules (Some ("/" +:+ Join (resourcePath ns g v r tl) "/", q)) = Some tr ∧
    tr_Path tr = "/" +:+ Join (resourcePath ns (fst (renamedGR rules g r)) v (snd (renamedGR rules g r)) tl) "/" ∧
    tr_RawQuery tr = q ∧ OrigGroup tr = g ∧ OrigResourceType tr = r.
Proof.
  intros Hreq Hg Hweb Hq Hout. unfold NewTargetRequest. cbn [mbind option_bind]. rewrite Hweb, parse_path by done.
  eexists. split; [reflexivity|].
  unfold RewriteAPIEndpoint. cbn [withURL pathEndpoint endpoint ae_IsRoot ae_IsCore ae_IsUnknown ae_IsCRD ae_RawQuery orb].
  rewrite Hq. fold (pathEndpoint ns g v r tl).
  change (mkAPIEndpoint false _ false "apis" false g v _ r _ _ _ false _ _ ?w ?q) with
    (withURL (pathEndpoint ns g v r tl) w ("/" +:+ Join (resourcePath ns g v r tl) "/") q).
  rewrite rewrite_resource by done. unfold renamedGR in *.
  destruct (ResourceRules rules g r) as [gr|]; cbn [fst snd] in *; unfold tr_Path, tr_RawQuery; cbn [targetEndpoint originEndpoint];
    (split; [apply endpoint_path; [done]|]); done.
Qed.
