(* ===== verification/RuleRewriter.v ===== *)
(** * The rewriter of payloads: discovery.go, rule_rewriter.go

    Discovery documents, the dispatch of a payload by its kind, the filter of
    excluded objects, and the rewriting of patches. *)

From S2P Require Import Prelude GoLib RwNames Json RwRules Rewriter RewriterRbac RwEndpoint.

From Stdlib Require Import Ascii.

Section Rewriter.
Context `{JsonLib} (rules : RewriteRules).

(** ** discovery.go *)

Definition restoreVersions (obj : string) : res string :=
  RewriteArray obj "versions" (λ versionObj,
    Some <$> TransformString versionObj "groupVersion" (RestoreApiVersion rules)).

Definition RewriteAPIGroupList (obj : string) : res string :=
  RewriteArray obj "groups" (λ groupObj,
    let groupName := r_String (gjson_GetBytes groupObj "name") in
    if HasGroup rules groupName then Err SkipItem else Some <$> (
    groupObj ← TransformString groupObj "name" (RestoreApiVersion rules);
    groupObj ← TransformString groupObj "preferredVersion.groupVersion" (RestoreApiVersion rules);
    restoreVersions groupObj)).

Definition RewriteAPIGroup (obj : string) : res string :=
  let groupName := r_String (gjson_GetBytes obj "name") in
  if negb (IsRenamedGroup rules groupName) then Ok obj else
  obj ← sjson_SetBytes obj "name" (GoString (RestoreApiVersion rules groupName));
  obj ← restoreVersions obj;
  TransformString obj "preferredVersion.groupVersion" (RestoreApiVersion rules).

Definition RewriteAPIResourceList (obj : string) : res string :=
  let groupVersion := r_String (gjson_GetBytes obj "groupVersion") in
  if negb (IsRenamedGroup rules groupVersion) then Ok obj else
  let origGroup := RestoreApiVersion rules groupVersion in
  obj ← sjson_SetBytes obj "groupVersion" (GoString origGroup);
  RewriteArray obj "resources" (λ resource,
    let name := r_String (gjson_GetBytes resource "name") in
    let origResourceType := RestoreResourceName rules name in
    match ResourceRules rules origGroup origResourceType with
    | None => Ok (Some resource)
    | Some (_, resourceRule) => Some <$> (
        resource ← TransformString resource "name" (λ _, origResourceType);
        resource ← TransformString resource "kind" (RestoreKind rules);
        resource ← TransformString resource "singularName" (RestoreResourceName rules);
        resource ← TransformArrayOfStrings resource "shortNames" (RestoreShortName rules);
        setIfExists resource "categories" (GoStrings (RestoreCategories (Some resourceRule))))
    end).

(** [sliceBytesBuilder]: empty texts are not written. *)
Definition buildSlice (items : list string) : string := array_text (filter (λ item, item ≠ "") items).

(** The group and the kind of [responseKind]. *)
Definition setResponseKind (obj origGroup kind : string) : res string :=
  if r_IsObject (gjson_GetBytes obj "responseKind") then
    obj ← sjson_SetBytes obj "responseKind.group" (GoString origGroup);
    sjson_SetBytes obj "responseKind.kind" (GoString kind)
  else Ok obj.

(** A resource without rules has an empty group and nil bytes; an error in the
    rewriting of the subresources is dropped, with the bytes it comes with. *)
Definition RestoreAggregatedDiscoveryResource (obj : string) : res (string * option string) :=
  let resource := r_String (gjson_GetBytes obj "resource") in
  let origResource := RestoreResourceName rules resource in
  match GroupResourceRules rules origResource with
  | None => Ok ("", None)
  | Some (groupRule, resRule) =>
      let origGroup := gr_Group groupRule in
      obj ← sjson_SetBytes obj "resource" (GoString origResource);
      obj ← setResponseKind obj origGroup (rule_Kind resRule);
      let singular := r_String (gjson_GetBytes obj "singularResource") in
      obj ← (if str_eqb singular "" then Ok obj else
             sjson_SetBytes obj "singularResource" (GoString (RestoreResourceName rules singular)));
      let shortNames := r_Array (gjson_GetBytes obj "shortNames") in
      obj ← (if list_len0 shortNames then Ok obj else
             sjson_SetBytes obj "shortNames" (GoStrings (Some (RestoreShortNames rules (r_String <$> shortNames)))));
      obj ← setIfExists obj "categories" (GoStrings (RestoreCategories (Some resRule)));
      let subresources := RewriteArray obj "subresources" (λ item,
        Some <$> setResponseKind item origGroup (rule_Kind resRule)) in
      Ok (origGroup, match subresources with Ok obj => Some obj | Err _ => None end)
  end.

(** Restored resources by group and by version. *)
Definition RestoredResources := gmap string (gmap string (list (option string))).

Definition addResource (acc : RestoredResources) (group version : string) (resource : option string) : RestoredResources :=
  let versions := default ∅ (acc !! group) in
  <[group := <[version := default [] (versions !! version) ++ [resource]]> versions]> acc.

Definition quote : string := String (ascii_of_nat 34) EmptyString.
Definition quoted (s : string) : string := quote +:+ s +:+ quote.

Definition groupObject (groupName : string) : string :=
  "{" +:+ quoted "metadata" +:+ ":{" +:+ quoted "name" +:+ ":" +:+ quoted groupName +:+ ", " +:+
  quoted "creationTimestamp" +:+ ":null}}".
Definition versionObject (versionName : string) : string :=
  "{" +:+ quoted "version" +:+ ":" +:+ quoted versionName +:+ "}".

(** The resources of one version; [None] when one could not be restored. *)
Fixpoint restoreVersionResources (versionName : string) (resources : list GResult) (acc : RestoredResources)
    : option RestoredResources :=
  match resources with
  | [] => Some acc
  | resource :: rest =>
      match RestoreAggregatedDiscoveryResource (r_Raw resource) with
      | Err _ => None
      | Ok (restoredGroup, restoredResource) =>
          restoreVersionResources versionName rest (addResource acc restoredGroup versionName restoredResource)
      end
  end.

Fixpoint restoreVersionList (versions : list GResult) (acc : RestoredResources) : option RestoredResources :=
  match versions with
  | [] => Some acc
  | version :: rest =>
      let versionName := r_String (gjson_GetBytes (r_Raw version) "version") in
      if str_eqb versionName "" then restoreVersionList rest acc else
      match restoreVersionResources versionName (r_Array (gjson_GetBytes (r_Raw version) "resources")) acc with
      | None => None
      | Some acc => restoreVersionList rest acc
      end
  end.

Definition buildVersion (versionName : string) (resources : list (option string)) : res string :=
  sjson_SetRawBytes (versionObject versionName) "resources" (buildSlice (default "" <$> resources)).

Definition buildGroup (groupName : string) (versions : gmap string (list (option string))) : res string :=
  versionObjs ← foldr (λ '(versionName, resources) acc,
    obj ← buildVersion versionName resources; objs ← acc; Ok (obj :: objs)) (Ok []) (map_to_list versions);
  sjson_SetRawBytes (groupObject groupName) "versions" (buildSlice versionObjs).

(** [None] stands for a nil slice: the group is left as it is.  The freshness
    of the versions is read by the code but never written. *)
Definition RestoreAggregatedGroupDiscovery (obj : string) : res (option (list string)) :=
  let versions := r_Array (gjson_GetBytes obj "versions") in
  if list_len0 versions then Ok None else
  match restoreVersionList versions ∅ with
  | None => Ok None
  | Some restoredResources => Some <$> foldr (λ '(groupName, groupVersions) acc,
      obj ← buildGroup groupName groupVersions; objs ← acc; Ok (obj :: objs)) (Ok []) (map_to_list restoredResources)
  end.

Fixpoint restoreGroups (items : list GResult) : res (list string) :=
  match items with
  | [] => Ok []
  | item :: rest =>
      let itemBytes := r_Raw item in
      let groupName := r_String (gjson_GetBytes itemBytes "metadata.name") in
      if negb (IsRenamedGroup rules groupName) then
        if HasGroup rules groupName then restoreGroups rest
        else rwrItems ← restoreGroups rest; Ok (itemBytes :: rwrItems)
      else
        newItems ← RestoreAggregatedGroupDiscovery itemBytes;
        rwrItems ← restoreGroups rest;
        Ok (default [itemBytes] newItems ++ rwrItems)
  end.

Definition RewriteAPIGroupDiscoveryList (obj : string) : res string :=
  let items := r_Array (gjson_GetBytes obj "items") in
  if list_len0 items then Ok obj else
  rwrItems ← restoreGroups items;
  sjson_SetRawBytes obj "items" (buildSlice rwrItems).

(** ** rule_rewriter.go *)

Definition isExcludableKind (kind : string) : bool :=
  negb (existsb (str_eqb kind)
    ["APIGroupList"; "APIGroup"; "APIResourceList"; "APIGroupDiscoveryList"; "AdmissionReview"]).

(** The bytes are returned along with the error. *)
Definition FilterExcludes (obj : string) (action : Action) : option string * option error :=
  if negb (bool_decide (action = Restore)) then (Some obj, None) else
  let kind := r_String (gjson_GetBytes obj "kind") in
  if negb (isExcludableKind kind) then (Some obj, None) else
  if ShouldExclude rules obj kind then (Some obj, Some SkipItem) else
  if negb (HasSuffix kind "List") then (Some obj, None) else
  let singleKind := TrimSuffix kind "List" in
  match RewriteResourceOrList2 obj (λ singleObj,
    if ShouldExclude rules singleObj singleKind then Err SkipItem else Ok None) with
  | Err err => (None, Some err)
  | Ok obj => (obj, None)
  end.

Definition rewriteByKind (kind obj : string) (action : Action) : res (option string) :=
  let isKind := existsb (str_eqb kind) in
  if isKind ["APIGroupList"] then Some <$> RewriteAPIGroupList obj else
  if isKind ["APIGroup"] then Some <$> RewriteAPIGroup obj else
  if isKind ["APIResourceList"] then Some <$> RewriteAPIResourceList obj else
  if isKind ["APIGroupDiscoveryList"] then Some <$> RewriteAPIGroupDiscoveryList obj else
  if isKind ["AdmissionReview"] then Some <$> RewriteAdmissionReview rules obj else
  if isKind ["CustomResourceDefinition"; "CustomResourceDefinitionList"] then RewriteCRDOrList rules obj action else
  if isKind ["MutatingWebhookConfiguration"; "MutatingWebhookConfigurationList"] then RewriteMutatingOrList rules obj action else
  if isKind ["ValidatingWebhookConfiguration"; "ValidatingWebhookConfigurationList"] then RewriteValidatingOrList rules obj action else
  if isKind ["Event"; "EventList"] then RewriteEventOrList rules obj action else
  if isKind ["ClusterRole"; "ClusterRoleList"] then RewriteClusterRoleOrList rules obj action else
  if isKind ["Role"; "RoleList"] then RewriteRoleOrList rules obj action else
  if isKind ["Deployment"; "DeploymentList"] then RewriteDeploymentOrList rules obj action else
  if isKind ["StatefulSet"; "StatefulSetList"] then RewriteStatefulSetOrList rules obj action else
  if isKind ["DaemonSet"; "DaemonSetList"] then RewriteDaemonSetOrList rules obj action else
  if isKind ["Pod"; "PodList"] then RewritePodOrList rules obj action else
  if isKind ["PodDisruptionBudget"; "PodDisruptionBudgetList"] then RewritePDBOrList rules obj action else
  if isKind ["Job"; "JobList"] then RewriteJobOrList rules obj action else
  if isKind ["Service"; "ServiceList"] then RewriteServiceOrList rules obj action else
  if isKind ["PersistentVolumeClaim"; "PersistentVolumeClaimList"] then RewritePVCOrList rules obj action else
  if isKind ["ServiceMonitor"; "ServiceMonitorList"] then Some <$> RewriteServiceMonitorOrList rules obj action else
  if isKind ["ValidatingAdmissionPolicyBinding"; "ValidatingAdmissionPolicyBindingList"]
  then RewriteValidatingAdmissionPolicyBindingOrList rules obj action else
  if isKind ["ValidatingAdmissionPolicy"; "ValidatingAdmissionPolicyList"]
  then RewriteValidatingAdmissionPolicyOrList rules obj action else
  Some <$> RewriteCustomResourceOrList rules obj action.

(** The last step on nil bytes: they have no kind and no metadata, and stay nil. *)
Definition rewriteAllMetadata (rwrBytes : option string) (action : Action) : res (option string) :=
  match rwrBytes with
  | None => Ok None
  | Some rwrBytes => RewriteResourceOrList2 rwrBytes (λ singleObj,
      Some <$> TransformObject singleObj "metadata" (λ metadataObj, RewriteMetadata rules metadataObj action))
  end.

Definition RewriteJSONPayload (obj : string) (action : Action) : option string * option error :=
  let kind := r_String (gjson_GetBytes obj "kind") in
  match FilterExcludes obj action with
  | (obj, Some err) => (obj, Some err)
  | (obj, None) =>
      match rewriteByKind kind (default "" obj) action with
      | Err err => (obj, Some err)
      | Ok rwrBytes =>
          match rewriteAllMetadata rwrBytes action with
          | Err err => (None, Some err)
          | Ok out => (out, None)
          end
      end
  end.

Definition RestoreBookmark (obj : string) : res string := RestoreAPIVersionAndKind rules obj.

Definition RewritePatch (targetReq : TargetRequest) (patchBytes : string) : res (option string) :=
  match ResourceRules rules (OrigGroup targetReq) (OrigResourceType targetReq) with
  | Some (_, resRule) =>
      if tr_IsCRD targetReq then RenameCRDPatch rules resRule patchBytes
      else Some <$> RenameResourcePatch rules patchBytes
  | None =>
      let isKind := existsb (str_eqb (OrigResourceType targetReq)) in
      Some <$>
      if isKind ["services"] then RenameServicePatch rules patchBytes else
      if isKind ["deployments"; "daemonsets"; "statefulsets"] then RenameSpecTemplatePatch rules patchBytes else
      if isKind ["validatingwebhookconfigurations"; "mutatingwebhookconfigurations"]
      then RenameWebhookConfigurationPatch rules patchBytes else
      RenameMetadataPatch rules patchBytes
  end.
End Rewriter.
