(* ===== verification/JsonText.v ===== *)
(** * The text of JSON documents

    Laws of the JSON library and their proof for a concrete parser and printer. *)

From S2P Require Import Prelude GoLib Json.

From Stdlib Require Import Ascii.

(** * Editing documents at a path

    Every step of the rewriter replaces the value at a path.  [jat] is that
    replacement as a total function on documents; edits at paths that part
    ways commute, and a batch of edits is undone by a batch of inverse edits. *)

(** ** Fields *)

Lemma jfield_jput_eq k v fs : jfield k (jput k v fs) = Some v.
Proof.
  induction fs as [|[k' j] fs IH]; simpl; [by rewrite str_eqb_refl|].
  destruct (str_eqb k k') eqn:E; simpl; [by rewrite str_eqb_refl|]. by rewrite E.
Qed.

Lemma jfield_None k fs : jfield k fs = None ↔ k ∉ fst <$> fs.
Proof.
  induction fs as [|[k' j] fs IH]; csimpl; [set_solver|]. destruct (str_eqb k k') eqn:E; go_bool; set_solver.
Qed.

Lemma jfield_Some k fs j : NoDup (fst <$> fs) → jfield k fs = Some j ↔ (k, j) ∈ fs.
Proof.
  induction fs as [|[k' j'] fs IH]; csimpl; intros Hnd; [set_solver|]. inversion_clear Hnd as [|?? Hk Hnd'].
  destruct (str_eqb k k') eqn:E; go_bool.
  - subst k'. split; [intros [= ->]; set_solver|]. rewrite elem_of_cons. intros [[= ->]|Hin]; [done|].
    destruct Hk. by apply (list_elem_of_fmap_2' fst _ (k, j)).
  - rewrite IH by done. set_solver.
Qed.

(** ** Edits at a path *)

Definition jfields (f : string → json → json) (j : json) : json :=
  match j with JObject fs => JObject ((λ kv, (fst kv, f (fst kv) (snd kv))) <$> fs) | _ => j end.

Fixpoint jat (ks : list string) (f : json → json) (j : json) : json :=
  match ks with
  | [] => f j
  | k :: ks => jfields (λ k' v, if str_eqb k k' then jat ks f v else v) j
  end.

Lemma jfields_compose f g j : jfields f (jfields g j) = jfields (λ k v, f k (g k v)) j.
Proof. destruct j as [| | | | |fs]; simpl; try done. f_equal. rewrite <- list_fmap_compose. done. Qed.

Lemma jfields_ext f g j :
  (∀ fs k v, j = JObject fs → (k, v) ∈ fs → f k v = g k v) → jfields f j = jfields g j.
Proof.
  destruct j as [| | | | |fs]; simpl; try done. intros Hfg. f_equal. apply list_fmap_ext.
  intros i [k v] Hi. simpl. f_equal. apply (Hfg fs); [done|]. by eapply list_elem_of_lookup_2.
Qed.

Lemma jfields_id j : jfields (λ _ v, v) j = j.
Proof.
  destruct j as [| | | | |fs]; simpl; try done. f_equal. rewrite <- (list_fmap_id fs) at 2.
  apply list_fmap_ext. by intros i [k v] _.
Qed.

Lemma jfield_fields f k fs :
  jfield k ((λ kv, (fst kv, f (fst kv) (snd kv))) <$> fs) = f k <$> jfield k fs.
Proof.
  induction fs as [|[k' v] fs IH]; csimpl; [done|]. destruct (str_eqb k k') eqn:E; [|done]. go_bool. by subst.
Qed.

Lemma jput_fields k v f fs : NoDup (fst <$> fs) → jfield k fs = Some v →
  jput k (f v) fs = (λ kv, (fst kv, if str_eqb k (fst kv) then f (snd kv) else snd kv)) <$> fs.
Proof.
  induction fs as [|[k' w] fs IH]; csimpl; [done|]. intros Hnd Hk. inversion_clear Hnd as [|?? Hni Hnd'].
  destruct (str_eqb k k') eqn:E; go_bool.
  - simplify_eq. f_equal. rewrite <- (list_fmap_id fs) at 1. apply list_fmap_ext.
    intros i [k'' u] Hi. simpl. destruct (str_eqb k' k'') eqn:E; [|done]. go_bool. subst.
    destruct Hni. apply list_elem_of_lookup_2 in Hi. by apply (list_elem_of_fmap_2' fst _ (k'', u)).
  - by rewrite IH.
Qed.

Lemma jwf_object fs : jwf (JObject fs) = true ↔ NoDup (fst <$> fs) ∧ ∀ k v, (k, v) ∈ fs → jwf v = true.
Proof.
  simpl. rewrite andb_true_iff, bool_decide_eq_true, forallb_forall. split; intros [Hnd Hall]; (split; [done|]).
  - intros k v Hin. apply (Hall (k, v)). by apply list_elem_of_In.
  - intros [k v] Hin. apply (Hall k). by apply list_elem_of_In.
Qed.

Lemma jfield_wf k fs v : jwf (JObject fs) = true → jfield k fs = Some v → jwf v = true.
Proof. intros [Hnd Hall]%jwf_object Hk. apply jfield_Some in Hk; eauto. Qed.

Lemma jget_wf ks j x : jwf j = true → jget ks j = Some x → jwf x = true.
Proof.
  revert j. induction ks as [|k ks IH]; intros j Hj; simpl; [by intros [= <-]|].
  destruct j as [| | | | |fs]; try done. destruct (jfield k fs) as [v|] eqn:Hk; [|done]. simpl.
  apply IH. by eapply jfield_wf.
Qed.

(** Setting the value at an existing path is an edit. *)
Lemma jset_jat ks f j x : jwf j = true → jget ks j = Some x → jset ks (f x) j = Some (jat ks f j).
Proof.
  revert j. induction ks as [|k ks IH]; intros j Hj; simpl; [by intros [= <-]|].
  destruct j as [| | | | |fs]; try done. destruct (jfield k fs) as [v|] eqn:Hk; [|done]. simpl. intros Hx.
  rewrite (IH v) by (done || by eapply jfield_wf). simpl. do 2 f_equal.
  apply (jput_fields k v (jat ks f)); [by apply jwf_object in Hj as [? _]|done].
Qed.

Lemma jat_absent ks f j : jwf j = true → jget ks j = None → jat ks f j = j.
Proof.
  revert j. induction ks as [|k ks IH]; intros j Hj; simpl; [done|]. intros Hx.
  rewrite <- (jfields_id j) at 2. apply jfields_ext. intros fs k' v -> Hin.
  pose proof Hj as [Hnd Hall]%jwf_object.
  destruct (str_eqb k k') eqn:E; [|done]. go_bool. subst k'. apply jfield_Some in Hin as Hk; [|done].
  apply IH; [by eapply Hall|]. by rewrite Hk in Hx.
Qed.

Lemma jat_ext ks f g j : jwf j = true → (∀ x, jget ks j = Some x → f x = g x) → jat ks f j = jat ks g j.
Proof.
  revert j. induction ks as [|k ks IH]; intros j Hj Hfg; simpl; [by apply Hfg|].
  apply jfields_ext. intros fs k' v -> Hin. pose proof Hj as [Hnd Hall]%jwf_object.
  destruct (str_eqb k k') eqn:E; [|done]. go_bool. subst k'. apply jfield_Some in Hin as Hk; [|done].
  apply IH; [by eapply Hall|]. intros x Hx. apply Hfg. simpl. by rewrite Hk.
Qed.

Lemma jat_id ks f j : jwf j = true → (∀ x, jget ks j = Some x → f x = x) → jat ks f j = j.
Proof.
  intros Hj Hf. rewrite (jat_ext ks f id); [|done|exact Hf].
  clear. revert j. induction ks as [|k ks IH]; intros j; [done|]. simpl. rewrite <- (jfields_id j) at 2.
  apply jfields_ext. intros ? k' v _ _. by destruct (str_eqb k k').
Qed.

Lemma jat_fuse ks f g j : jat ks f (jat ks g j) = jat ks (λ x, f (g x)) j.
Proof.
  revert j. induction ks as [|k ks IH]; intros j; [done|]. simpl. rewrite jfields_compose.
  apply jfields_ext. intros ? k' v _ _. by destruct (str_eqb k k').
Qed.

Lemma jget_jat ks f j : jget ks (jat ks f j) = f <$> jget ks j.
Proof.
  revert j. induction ks as [|k ks IH]; intros j; [done|]. destruct j as [| | | | |fs]; try done. simpl.
  rewrite (jfield_fields (λ k' v, if str_eqb k k' then jat ks f v else v)), str_eqb_refl.
  destruct (jfield k fs); simpl; [apply IH|done].
Qed.

(** Paths that part ways at some key. *)
Fixpoint diverge (ks ks' : list string) : bool :=
  match ks, ks' with
  | k :: ks, k' :: ks' => negb (str_eqb k k') || diverge ks ks'
  | _, _ => false
  end.

Lemma diverge_sym ks ks' : diverge ks ks' = diverge ks' ks.
Proof.
  revert ks'. induction ks as [|k ks IH]; intros [|k' ks']; try done. simpl. rewrite IH. f_equal. f_equal.
  unfold str_eqb. apply bool_decide_ext. done.
Qed.

Lemma jget_jat_ne ks ks' f j : diverge ks ks' = true → jget ks' (jat ks f j) = jget ks' j.
Proof.
  revert ks' j. induction ks as [|k ks IH]; intros [|k' ks'] j Hd; try done. simpl in *.
  destruct j as [| | | | |fs]; try done. simpl.
  rewrite (jfield_fields (λ k' v, if str_eqb k k' then jat ks f v else v)).
  destruct (jfield k' fs) as [v|]; [|done]. simpl. destruct (str_eqb k k'); [|done]. by apply IH.
Qed.

Lemma jat_comm ks ks' f g j : diverge ks ks' = true → jat ks f (jat ks' g j) = jat ks' g (jat ks f j).
Proof.
  revert ks' j. induction ks as [|k ks IH]; intros [|k' ks'] j Hd; try done. simpl in *.
  rewrite !jfields_compose. apply jfields_ext. intros ? k'' v _ _.
  destruct (str_eqb k k'') eqn:E1, (str_eqb k' k'') eqn:E2; try done. apply str_eqb_true in E1, E2. subst. rewrite str_eqb_refl in Hd.
  by apply IH.
Qed.

Lemma jfields_wf f j : jwf j = true → (∀ fs k v, j = JObject fs → (k, v) ∈ fs → jwf (f k v) = true) →
  jwf (jfields f j) = true.
Proof.
  destruct j as [| | | | |fs]; try done. intros [Hnd Hall]%jwf_object Hf. apply jwf_object. split.
  - by rewrite <- list_fmap_compose.
  - intros k v ([k' v'] & [= -> ->] & Hin)%list_elem_of_fmap. by eapply Hf.
Qed.

Lemma jat_wf ks f j : jwf j = true → (∀ x, jget ks j = Some x → jwf (f x) = true) → jwf (jat ks f j) = true.
Proof.
  revert j. induction ks as [|k ks IH]; intros j Hj Hf; simpl; [by apply Hf|].
  apply jfields_wf; [done|]. intros fs k' v -> Hin. pose proof Hj as [Hnd Hall]%jwf_object.
  destruct (str_eqb k k') eqn:E; [|by eapply Hall]. go_bool. subst k'. apply jfield_Some in Hin as Hk; [|done].
  apply IH; [by eapply Hall|]. intros x Hx. apply Hf. simpl. by rewrite Hk.
Qed.

(** ** Batches of edits *)

Definition edit := (list string * (json → json))%type.

Definition jats (l : list edit) (j : json) : json := foldl (λ j e, jat (fst e) (snd e) j) j l.

Lemma jats_app l l' j : jats (l ++ l') j = jats l' (jats l j).
Proof. apply foldl_app. Qed.

Lemma jget_jats_ne l ks j : Forall (λ e, diverge (fst e) ks = true) l → jget ks (jats l j) = jget ks j.
Proof.
  revert j. induction l as [|e l IH]; intros j Hl; [done|]. inversion_clear Hl. simpl.
  rewrite IH by done. by apply jget_jat_ne.
Qed.

Lemma jat_jats_comm l ks f j : Forall (λ e, diverge (fst e) ks = true) l →
  jat ks f (jats l j) = jats l (jat ks f j).
Proof.
  revert j. induction l as [|e l IH]; intros j Hl; [done|]. inversion_clear Hl. simpl.
  rewrite IH by done. f_equal. apply jat_comm. by rewrite diverge_sym.
Qed.

(** A batch on paths that part ways, undone edit by edit. *)
Fixpoint apart (l : list (list string)) : bool :=
  match l with [] => true | ks :: l => forallb (λ ks', diverge ks' ks) l && apart l end.

Lemma jats_inverse (l : list (list string * (json → json) * (json → json))) j : jwf j = true →
  apart ((λ e, fst (fst e)) <$> l) = true →
  Forall (λ e, ∀ x, jget (fst (fst e)) j = Some x → jwf (snd (fst e) x) = true ∧ snd e (snd (fst e) x) = x) l →
  jats ((λ e, (fst (fst e), snd e)) <$> l) (jats (fst <$> l) j) = j.
Proof.
  revert j. induction l as [|[[ks f] g] l IH]; intros j Hj Ha Hinv; [done|]. csimpl in *.
  apply andb_true_iff in Ha as [Hd Ha]. inversion_clear Hinv as [|?? Hfg Hinv']. simpl in Hfg.
  assert (Forall (λ e, diverge (fst (fst e)) ks = true) l) as Hdl.
  { rewrite forallb_forall in Hd. apply Forall_forall. intros e He. apply Hd.
    apply in_map_iff. exists e. split; [done|]. by apply list_elem_of_In. }
  rewrite jat_jats_comm by (by apply Forall_fmap). rewrite jat_fuse.
  rewrite (jat_id ks (λ x, g (f x)) j); [|done|intros x Hx; by apply Hfg]. by apply IH.
Qed.

Lemma jget_jats_at l j e : apart (fst <$> l) = true → e ∈ l → jget (fst e) (jats l j) = snd e <$> jget (fst e) j.
Proof.
  revert j. induction l as [|e' l IH]; intros j Ha He; [by apply not_elem_of_nil in He|]. csimpl in *.
  apply andb_true_iff in Ha as [Hd Ha]. rewrite forallb_forall in Hd.
  assert (∀ e'', e'' ∈ l → diverge (fst e'') (fst e') = true) as Hd'.
  { intros e'' Hin. apply Hd, list_elem_of_In. by apply list_elem_of_fmap_2. }
  apply elem_of_cons in He as [->|He].
  - rewrite jget_jats_ne by (by apply Forall_forall). apply jget_jat.
  - rewrite IH by done. by rewrite jget_jat_ne by (rewrite diverge_sym; by apply Hd').
Qed.

(** * A JSON library on texts

    An implementation of [JsonLib] that parses, edits and prints documents,
    and the proof that it satisfies [JsonLaws].  It shows that the laws can
    hold and lets the rewriter run on concrete payloads; the program itself
    uses gjson and sjson. *)

Definition qchar : ascii := ascii_of_nat 34.
Definition bchar : ascii := ascii_of_nat 92.

(** ** Printing *)

Fixpoint escape (s : string) : string :=
  match s with
  | EmptyString => EmptyString
  | String c s' => if bool_decide (c = qchar) || bool_decide (c = bchar)
                   then String bchar (String c (escape s')) else String c (escape s')
  end.

Definition print_string (s : string) : string := String qchar (escape s +:+ String qchar EmptyString).

Fixpoint print (j : json) : string :=
  match j with
  | JNull => "null"
  | JBool true => "true"
  | JBool false => "false"
  | JNumber raw => raw
  | JString s => print_string s
  | JArray l => "[" +:+ Join (map print l) "," +:+ "]"
  | JObject fs => "{" +:+ Join (map (λ kv, print_string (fst kv) +:+ ":" +:+ print (snd kv)) fs) "," +:+ "}"
  end.

(** ** Parsing *)

Definition skip_ws : string → string := TrimLeftFunc is_space.

Fixpoint read_string (s : string) : option (string * string) :=
  match s with
  | EmptyString => None
  | String c s' =>
      if bool_decide (c = qchar) then Some (EmptyString, s') else
      if bool_decide (c = bchar) then
        match s' with
        | String d s'' => '(a, r) ← read_string s''; Some (String d a, r)
        | EmptyString => None
        end
      else '(a, r) ← read_string s'; Some (String c a, r)
  end.

Definition num_char (c : ascii) : bool :=
  is_digit c || existsb (λ d, bool_decide (c = d)) ["-"; "+"; "."; "e"; "E"]%char.

Fixpoint read_number (s : string) : string * string :=
  match s with
  | EmptyString => (EmptyString, EmptyString)
  | String c s' => if num_char c then let '(a, b) := read_number s' in (String c a, b) else (EmptyString, s)
  end.

Fixpoint parse (fuel : nat) (s : string) : option (json * string) :=
  match fuel with
  | O => None
  | S fuel =>
      match skip_ws s with
      | EmptyString => None
      | String c s' =>
          if bool_decide (c = qchar) then '(a, r) ← read_string s'; Some (JString a, r) else
          if bool_decide (c = "["%char) then
            match skip_ws s' with
            | String "]" r => Some (JArray [], r)
            | _ => '(l, r) ← parse_items fuel s'; Some (JArray l, r)
            end else
          if bool_decide (c = "{"%char) then
            match skip_ws s' with
            | String "}" r => Some (JObject [], r)
            | _ => '(l, r) ← parse_fields fuel s'; Some (JObject l, r)
            end else
          if bool_decide (c = "n"%char) then
            if HasPrefix s' "ull" then Some (JNull, str_drop 3 s') else None else
          if bool_decide (c = "t"%char) then
            if HasPrefix s' "rue" then Some (JBool true, str_drop 3 s') else None else
          if bool_decide (c = "f"%char) then
            if HasPrefix s' "alse" then Some (JBool false, str_drop 4 s') else None else
          if num_char c then let '(a, r) := read_number s' in Some (JNumber (String c a), r) else None
      end
  end
with parse_items (fuel : nat) (s : string) : option (list json * string) :=
  match fuel with
  | O => None
  | S fuel =>
      '(j, r) ← parse fuel s;
      match skip_ws r with
      | String "," r => '(l, r) ← parse_items fuel r; Some (j :: l, r)
      | String "]" r => Some ([j], r)
      | _ => None
      end
  end
with parse_fields (fuel : nat) (s : string) : option (list (string * json) * string) :=
  match fuel with
  | O => None
  | S fuel =>
      match skip_ws s with
      | String c s =>
          if bool_decide (c = qchar) then
            '(k, r) ← read_string s;
            match skip_ws r with
            | String ":" r =>
                '(j, r) ← parse fuel r;
                match skip_ws r with
                | String "," r => '(l, r) ← parse_fields fuel r; Some ((k, j) :: l, r)
                | String "}" r => Some ([(k, j)], r)
                | _ => None
                end
            | _ => None
            end
          else None
      | EmptyString => None
      end
  end.

(** Numbers are non-empty runs of their characters. *)
Definition number_ok (raw : string) : bool := negb (str_eqb raw "") && all_chars num_char raw.

Fixpoint jnumbers (j : json) : bool :=
  match j with
  | JNumber raw => number_ok raw
  | JArray l => forallb jnumbers l
  | JObject fs => forallb (λ kv, jnumbers (snd kv)) fs
  | _ => true
  end.

Definition jvalid (j : json) : bool := jwf j && jnumbers j.

Definition decode (s : string) : option json :=
  match parse (S (2 * String.length s)) s with
  | Some (j, r) => if str_eqb (skip_ws r) "" && jvalid j then Some j else None
  | None => None
  end.

Definition jobj (l : list (string * json)) : json := JObject l.

Example json_decode_ex : let j := jobj [("kind", JString "Pod"); ("n", JNumber "-1.5e3");
    ("items", JArray [JNull; JBool true; JArray []; jobj [("q", JString (String qchar (String bchar "x")))]])] in
  decode (print j) = Some j.
Proof. vm_compute. reflexivity. Qed.

(** ** Printed documents parse *)

Lemma read_escape s rest : read_string (escape s +:+ String qchar rest) = Some (s, rest).
Proof.
  induction s as [|c s IH]; [reflexivity|]. simpl.
  destruct (bool_decide_reflect (c = qchar)) as [->|Hq]; [|destruct (bool_decide_reflect (c = bchar)) as [->|Hb]];
    cbn [orb]; rewrite ?str_app_cons; cbn [read_string].
  - rewrite (bool_decide_eq_false_2 (bchar = qchar)), (bool_decide_eq_true_2 (bchar = bchar)) by done.
    by rewrite IH.
  - rewrite (bool_decide_eq_false_2 (bchar = qchar)), (bool_decide_eq_true_2 (bchar = bchar)) by done.
    by rewrite IH.
  - rewrite (bool_decide_eq_false_2 (c = qchar)), (bool_decide_eq_false_2 (c = bchar)) by done.
    by rewrite IH.
Qed.

(** The text after a value: nothing, or a separator. *)
Definition stops (rest : string) : bool :=
  match rest with
  | EmptyString => true
  | String c _ => bool_decide (c = ","%char) || bool_decide (c = "]"%char) || bool_decide (c = "}"%char)
  end.

Lemma read_number_app raw rest : all_chars num_char raw = true → stops rest = true →
  read_number (raw +:+ rest) = (raw, rest).
Proof.
  intros Hraw Hrest. induction raw as [|c raw IH].
  - destruct rest as [|c rest]; [done|]. change (EmptyString +:+ String c rest) with (String c rest). simpl in *.
    destruct (num_char c) eqn:Hc; [|done]. exfalso.
    by destruct c as [[] [] [] [] [] [] [] []].
  - rewrite str_app_cons. simpl in *. apply andb_true_iff in Hraw as [-> Hraw]. by rewrite IH.
Qed.

Fixpoint jsize (j : json) : nat :=
  match j with
  | JArray l => S (list_sum (map (λ x, S (jsize x)) l))
  | JObject fs => S (list_sum (map (λ kv, S (jsize (snd kv))) fs))
  | _ => 1
  end.

Definition parses (j : json) : Prop := jnumbers j = true → ∀ fuel rest, (jsize j ≤ fuel)%nat → stops rest = true →
  parse fuel (print j +:+ rest) = Some (j, rest).

(** A printed value starts with neither a space nor a closing bracket. *)
Lemma print_head j : jnumbers j = true →
  ∃ c t, print j = String c t ∧ is_space c = false ∧ c ≠ "]"%char ∧ c ≠ "}"%char.
Proof.
  destruct j as [|[]|raw|s|l|fs]; intros Hj; try (eexists _, _; split; [reflexivity|done]).
  simpl in Hj. unfold number_ok in Hj. destruct raw as [|c raw]; [done|]. simpl in Hj.
  apply andb_true_iff in Hj as [Hc _]. exists c, raw. split; [done|].
  by destruct c as [[] [] [] [] [] [] [] []].
Qed.

Lemma skip_print j rest : jnumbers j = true → skip_ws (print j +:+ rest) = print j +:+ rest.
Proof.
  intros (c & t & -> & Hc & _)%print_head. rewrite str_app_cons. unfold skip_ws. simpl. by rewrite Hc.
Qed.

Lemma Join_cons x y l sep : Join (x :: y :: l) sep = x +:+ sep +:+ Join (y :: l) sep.
Proof. reflexivity. Qed.

Lemma parse_items_print l fuel rest : Forall parses l → forallb jnumbers l = true → l ≠ [] →
  (list_sum (map (λ x, S (jsize x)) l) ≤ fuel)%nat →
  parse_items fuel (Join (map print l) "," +:+ String "]" rest) = Some (l, rest).
Proof.
  intros Hl. revert fuel. induction Hl as [|x l Hx Hl IH]; intros fuel Hn Hne Hf; [done|]. clear Hne.
  simpl in Hn, Hf. apply andb_true_iff in Hn as [Hnx Hn]. destruct fuel as [|fuel]; [lia|]. cbn [parse_items].
  destruct l as [|y l].
  - change (Join (map print [x]) ",") with (print x). rewrite Hx; [|done|lia|done]. reflexivity.
  - cbn [map]. rewrite Join_cons, !str_app_assoc. rewrite Hx; [|done|lia|done].
    specialize (IH fuel Hn ltac:(done) ltac:(simpl in *; lia)). cbn [map] in IH.
    set (t := Join _ "," +:+ _) in *. change ("," +:+ t) with (String "," t). simpl. by rewrite IH.
Qed.

Lemma parse_fields_print fs fuel rest : Forall (parses ∘ snd) fs → forallb (λ kv, jnumbers (snd kv)) fs = true → fs ≠ [] →
  (list_sum (map (λ kv, S (jsize (snd kv))) fs) ≤ fuel)%nat →
  parse_fields fuel (Join (map (λ kv, print_string (fst kv) +:+ ":" +:+ print (snd kv)) fs) "," +:+ String "}" rest)
    = Some (fs, rest).
Proof.
  intros Hl. revert fuel. induction Hl as [|[k x] fs Hx Hl IH]; intros fuel Hn Hne Hf; [done|]. clear Hne.
  simpl in Hn, Hf, Hx. apply andb_true_iff in Hn as [Hnx Hn]. destruct fuel as [|fuel]; [lia|].
  assert (∀ t, parse_fields (S fuel) ((print_string k +:+ ":" +:+ print x) +:+ t) =
    '(j, r) ← parse fuel (print x +:+ t);
    match skip_ws r with
    | String "," r => '(l, r) ← parse_fields fuel r; Some ((k, j) :: l, r)
    | String "}" r => Some ([(k, j)], r)
    | _ => None
    end) as Hstep.
  { intros t. unfold print_string. rewrite !str_app_assoc, str_app_cons, !str_app_assoc. simpl.
    change (String qchar EmptyString +:+ ?u) with (String qchar u).
    rewrite read_escape. reflexivity. }
  destruct fs as [|[k' y] fs]; cbn [map fst snd].
  - change (Join [?t] ",") with t. rewrite Hstep, Hx; [reflexivity|done|lia|done].
  - rewrite Join_cons, str_app_assoc, Hstep, str_app_assoc. rewrite Hx; [|done|lia|done].
    specialize (IH fuel Hn ltac:(done) ltac:(simpl in *; lia)). cbn [map fst snd] in IH.
    set (t := Join _ "," +:+ _) in *. change ("," +:+ t) with (String "," t). simpl. by rewrite IH.
Qed.

Lemma parse_print j : parses j.
Proof.
  induction j as [| | | |l IH|fs IH] using json_deep_ind; intros Hn fuel rest Hf Hrest;
    (destruct fuel as [|fuel]; [simpl in Hf; lia|]).
  - by destruct rest.
  - by destruct b, rest.
  - simpl in Hn. unfold number_ok in Hn. destruct r as [|c raw]; [done|]. simpl in Hn. apply andb_true_iff in Hn as [Hc Hn].
    cbn [print]. rewrite str_app_cons. cbn [parse]. unfold skip_ws. simpl.
    replace (is_space c) with false by (by destruct c as [[] [] [] [] [] [] [] []]).
    rewrite !bool_decide_eq_false_2 by (intros ->; discriminate Hc).
    rewrite Hc, read_number_app by done. done.
  - cbn [print]. unfold print_string. rewrite str_app_cons, str_app_assoc. simpl.
    change (String qchar EmptyString +:+ ?u) with (String qchar u). by rewrite read_escape.
  - cbn [print]. rewrite !str_app_assoc. change ("[" +:+ ?t) with (String "[" t). change ("]" +:+ ?t) with (String "]" t).
    destruct l as [|x l]; [reflexivity|]. simpl in Hn, Hf. pose proof Hn as [Hnx _]%andb_true_iff.
    cbn [parse]. unfold skip_ws at 1. cbn [TrimLeftFunc].
    pose proof (parse_items_print (x :: l) fuel rest IH Hn ltac:(done) ltac:(simpl; lia)) as Hp.
    destruct (print_head x Hnx) as (c & t & Hx & Hsp & Hne & _).
    assert (∃ u, Join (map print (x :: l)) "," +:+ String "]" rest = String c u) as [u Hu].
    { destruct l as [|y l]; cbn [map]; rewrite ?Join_cons, ?str_app_assoc; [change (Join [?t] ",") with t|];
        rewrite Hx, str_app_cons; eauto. }
    rewrite Hu in *. simpl. unfold skip_ws. simpl. rewrite Hsp, Hp.
    by destruct c as [[] [] [] [] [] [] [] []].
  - cbn [print]. rewrite !str_app_assoc. change ("{" +:+ ?t) with (String "{" t). change ("}" +:+ ?t) with (String "}" t).
    destruct fs as [|[k x] fs]; [reflexivity|]. simpl in Hn, Hf.
    cbn [parse]. unfold skip_ws at 1. cbn [TrimLeftFunc].
    pose proof (parse_fields_print ((k, x) :: fs) fuel rest IH Hn ltac:(done) ltac:(simpl; lia)) as Hp.
    assert (∃ u, Join (map (λ kv, print_string (fst kv) +:+ ":" +:+ print (snd kv)) ((k, x) :: fs)) "," +:+ String "}" rest
      = String qchar u) as [u Hu].
    { destruct fs as [|[k' y] fs]; cbn [map fst snd]; rewrite ?Join_cons, ?str_app_assoc; [change (Join [?t] ",") with t|];
        unfold print_string; rewrite ?str_app_assoc, !str_app_cons; eauto. }
    rewrite Hu in *. simpl. by rewrite Hp.
Qed.

(** The fuel of [decode] is enough. *)
Lemma Join_length (l : list string) sep :
  (list_sum (map String.length l) + length l ≤ S (String.length (Join l sep)) + (length l - 1) * (1 - String.length sep))%nat.
Proof.
  induction l as [|x l IH]; [simpl; lia|]. destruct l as [|y l]; [unfold Join; simpl; lia|].
  rewrite Join_cons, !str_length_app. simpl in *. nia.
Qed.

Lemma list_sum_le {A} (f g : A → nat) l : (∀ x, x ∈ l → (f x ≤ g x)%nat) → (list_sum (map f l) ≤ list_sum (map g l))%nat.
Proof.
  induction l as [|x l IH]; intros Hl; simpl; [lia|]. pose proof (Hl x ltac:(left)).
  assert (list_sum (map f l) ≤ list_sum (map g l))%nat by (apply IH; intros; apply Hl; by right). lia.
Qed.

Lemma list_sum_double {A} (f : A → nat) l : list_sum (map (λ x, 2 * S (f x))%nat l) = (2 * (length l + list_sum (map f l)))%nat.
Proof. induction l; simpl in *; lia. Qed.

Lemma jsize_print j : (jsize j ≤ S (2 * String.length (print j)))%nat.
Proof.
  induction j as [| | | |l IH|fs IH] using json_deep_ind; simpl; try lia; rewrite Forall_forall in IH.
  - pose proof (Join_length (map print l) ",") as HJ. rewrite map_map, length_map in HJ.
    change (1 - String.length ",")%nat with 0%nat in HJ.
    assert (list_sum (map (λ x, S (jsize x)) l) ≤ list_sum (map (λ x, 2 * S (String.length (print x))) l))%nat.
    { apply list_sum_le. intros x Hin. pose proof (IH _ Hin). lia. }
    rewrite list_sum_double in *. rewrite !str_length_app. cbn [String.length]. lia.
  - pose proof (Join_length (map (λ kv, print_string (fst kv) +:+ ":" +:+ print (snd kv)) fs) ",") as HJ.
    rewrite map_map, length_map in HJ.
    change (1 - String.length ",")%nat with 0%nat in HJ.
    assert (list_sum (map (λ kv, S (jsize (snd kv))) fs) ≤
      list_sum (map (λ kv, 2 * S (String.length (print_string (fst kv) +:+ ":" +:+ print (snd kv)))) fs))%nat.
    { apply list_sum_le. intros [k v] Hin. pose proof (IH _ Hin) as Hv. simpl in Hv |- *.
      rewrite !str_length_app. lia. }
    rewrite list_sum_double in *. rewrite !str_length_app. cbn [String.length]. lia.
Qed.

Lemma decode_print j : jvalid j = true → decode (print j) = Some j.
Proof.
  intros Hj. unfold decode. pose proof Hj as [_ Hn]%andb_true_iff.
  pose proof (parse_print j Hn (S (2 * String.length (print j))) "" (jsize_print j) eq_refl) as Hp.
  replace (print j +:+ "") with (print j) in Hp.
  - rewrite Hp. simpl. by rewrite Hj.
  - clear. induction (print j) as [|c s IH]; [done|]. rewrite str_app_cons. by rewrite <- IH.
Qed.

(** ** Edits keep documents valid *)

Lemma jvalid_array l : jvalid (JArray l) = true ↔ ∀ x, x ∈ l → jvalid x = true.
Proof.
  unfold jvalid. simpl. rewrite andb_true_iff, !forallb_forall. setoid_rewrite andb_true_iff.
  setoid_rewrite <- list_elem_of_In. naive_solver.
Qed.

Lemma jvalid_object fs : jvalid (JObject fs) = true ↔ NoDup (fst <$> fs) ∧ ∀ kv, kv ∈ fs → jvalid (snd kv) = true.
Proof.
  unfold jvalid. simpl. rewrite !andb_true_iff, bool_decide_eq_true, !forallb_forall. setoid_rewrite andb_true_iff.
  setoid_rewrite <- list_elem_of_In. naive_solver.
Qed.

Lemma jget_valid ks j x : jvalid j = true → jget ks j = Some x → jvalid x = true.
Proof.
  revert j. induction ks as [|k ks IH]; intros j Hj; simpl; [by intros [= <-]|].
  destruct j as [| | | | |fs]; try done. destruct (jfield k fs) as [v|] eqn:Hk; [|done]. simpl.
  apply IH. apply jvalid_object in Hj as [Hnd Hall]. apply jfield_Some in Hk; [|done]. by apply (Hall (k, v)).
Qed.

Lemma jput_elem k v fs kv : kv ∈ jput k v fs → kv = (k, v) ∨ kv ∈ fs.
Proof.
  induction fs as [|[k' j] fs IH]; simpl; [set_solver|]. destruct (str_eqb k k'); set_solver.
Qed.

Lemma jput_keys k v fs : NoDup (fst <$> fs) → NoDup (fst <$> jput k v fs).
Proof.
  induction fs as [|[k' j] fs IH]; csimpl; intros Hnd; [by apply NoDup_singleton|].
  inversion_clear Hnd as [|?? Hk Hnd']. destruct (str_eqb k k') eqn:E; csimpl.
  - apply str_eqb_true in E as ->. by constructor.
  - constructor; [|by apply IH]. apply str_eqb_false in E. intros ([k'' v''] & -> & Hin)%list_elem_of_fmap.
    apply jput_elem in Hin as [[= -> ->]|Hin]; [done|]. destruct Hk. by apply (list_elem_of_fmap_2 fst) in Hin.
Qed.

Lemma jput_valid k v fs : jvalid (JObject fs) = true → jvalid v = true → jvalid (JObject (jput k v fs)) = true.
Proof.
  intros [Hnd Hall]%jvalid_object Hv. apply jvalid_object. split; [by apply jput_keys|].
  intros kv [->|Hin]%jput_elem; [done|by apply Hall].
Qed.

Lemma jnew_valid ks v : jvalid v = true → jvalid (jnew ks v) = true.
Proof.
  intros Hv. induction ks as [|k ks IH]; [done|]. apply (jput_valid k _ []); [done|by apply IH].
Qed.

Lemma jset_valid ks v j j' : jvalid j = true → jvalid v = true → jset ks v j = Some j' → jvalid j' = true.
Proof.
  revert j j'. induction ks as [|k ks IH]; intros j j' Hj Hv; simpl; [by intros [= <-]|].
  destruct j as [| | | | |fs]; try done. pose proof Hj as [Hnd Hall]%jvalid_object.
  destruct (jfield k fs) as [w|] eqn:Hk.
  - destruct (jset ks v w) as [w'|] eqn:Hw; [|done]. intros [= <-]. apply jput_valid; [done|].
    apply (IH w); [|done|done]. apply jfield_Some in Hk; [|done]. by apply (Hall (k, w)).
  - intros [= <-]. apply jput_valid; [done|]. by apply jnew_valid.
Qed.

Lemma marshal_valid v : jvalid (marshal v) = true.
Proof.
  destruct v as [s|[l|]|m]; [done| |done|]; cbn [marshal].
  - apply jvalid_array. by intros x (s & -> & _)%list_elem_of_fmap.
  - apply jvalid_object. split; [|by intros kv (s & -> & _)%list_elem_of_fmap].
    rewrite <- list_fmap_compose. change (fst ∘ prod_map id JString) with (fst : string * string → string).
    rewrite (merge_sort_Permutation key_le). apply NoDup_fst_map_to_list.
Qed.

(** ** The library *)

Definition editText (s path : string) (v : json) : res string :=
  match path_keys path, (if str_eqb s "" then Some (JObject []) else decode s) with
  | Some ks, Some j => match jset ks v j with Some j' => Ok (print j') | None => Err (External 1) end
  | _, _ => Err (External 2)
  end.

Definition readPath (oj : option json) (path : string) : option json :=
  j ← oj; ks ← path_keys path; jget ks j.

#[export] Instance textLib : JsonLib := {|
  GResult := option json;
  gjson_GetBytes s path := readPath (decode s) path;
  gjson_ParseBytes s := decode s;
  r_Exists r := bool_decide (is_Some r);
  r_IsObject := jisObject;
  r_String r := match jtext r with Some s => s | None => from_option print "" r end;
  r_Array r := Some <$> jarray r;
  r_Map r := prod_map id Some <$> jmap r;
  r_Get := readPath;
  r_Raw r := from_option print "" r;
  sjson_SetBytes s path v := editText s path (marshal v);
  sjson_SetRawBytes s path raw :=
    match decode raw with Some v => editText s path v | None => Err (External 3) end;
|}.

Definition textRep (s : string) (j : json) : Prop := s = print j ∧ jvalid j = true.
Definition textRepR (r oj : option json) : Prop := r = oj ∧ from_option jvalid true oj = true.

Lemma editText_print j path ks v j' : jvalid j = true → path_keys path = Some ks → jvalid v = true →
  jset ks v j = Some j' → ∃ s', editText (print j) path v = Ok s' ∧ textRep s' j'.
Proof.
  intros Hj Hks Hv Hset. exists (print j'). unfold editText. rewrite Hks.
  replace (str_eqb (print j) "") with false.
  - rewrite decode_print, Hset by done. split; [done|]. split; [done|]. exact (jset_valid ks v j j' Hj Hv Hset).
  - symmetry. apply str_eqb_false. apply andb_true_iff in Hj as [_ Hn]. by destruct (print_head j Hn) as (c & t & -> & _).
Qed.

#[export] Instance textLaws : @JsonLaws textLib.
Proof.
  refine {| rep := textRep; repR := textRepR |}.
  - intros s j [_ Hj]. by apply andb_true_iff in Hj as [? _].
  - intros s j [-> Hj]. apply andb_true_iff in Hj as [_ Hn].
    destruct j; try reflexivity; by destruct (print_head _ Hn) as (c & t & -> & _).
  - intros ss js Hss. assert (ss = map print js ∧ ∀ x, x ∈ js → jvalid x = true) as [-> Hall].
    { induction Hss as [|s j ss js [-> Hj] _ [-> IH]]; [set_solver|]. split; [done|]. intros x [->|?]%elem_of_cons; eauto. }
    split; [reflexivity|by apply jvalid_array].
  - intros s j path ks [-> Hj] Hks. simpl. unfold readPath. rewrite decode_print, Hks by done. simpl. split; [done|].
    destruct (jget ks j) eqn:Hx; [|done]. simpl. by eapply jget_valid.
  - intros s j [-> Hj]. simpl. by rewrite decode_print.
  - intros s j path ks v j' [-> Hj] Hks Hset. apply (editText_print j path ks); try done. apply marshal_valid.
  - intros s j path ks raw v j' [-> Hj] Hks [-> Hv] Hset. simpl. rewrite decode_print by done.
    by apply (editText_print j path ks).
  - by intros r oj [-> _].
  - by intros r oj [-> _].
  - intros r oj s [-> _] Ht. simpl. by rewrite Ht.
  - intros r oj [-> Hv]. simpl. assert (∀ x, x ∈ jarray oj → jvalid x = true) as Hall.
    { destruct oj as [[| | | |l|]|]; simpl in *; try set_solver. by apply jvalid_array. }
    revert Hall. induction (jarray oj) as [|x l IH]; intros Hall; csimpl; [constructor|].
    constructor; [split; [done|apply Hall; left]|apply IH; intros; apply Hall; by right].
  - intros r oj [-> Hv]. exists (jmap oj). split; [done|]. simpl.
    assert (∀ kv, kv ∈ jmap oj → jvalid (snd kv) = true) as Hall.
    { destruct oj as [[| | | | |fs]|]; simpl in *; try set_solver. by apply jvalid_object in Hv as [_ Hv]. }
    revert Hall. induction (jmap oj) as [|[k x] l IH]; intros Hall; csimpl; [constructor|].
    constructor; [split; [done|split; [done|apply (Hall (k, x)); left]]|apply IH; intros; apply Hall; by right].
  - intros r j path ks [-> Hv] Hks. simpl. unfold readPath. simpl. rewrite Hks. simpl. split; [done|].
    destruct (jget ks j) eqn:Hx; [|done]. simpl. by eapply jget_valid.
  - intros r j [-> Hv]. by split.
Defined.

(** ** The text layer of [encoding/json]

    [exact] are the documents a text keeps: Go replaces bytes that are not
    UTF-8, everything else survives. *)
Class JsonCodec := {
  json_Marshal : json → res string;
  json_Unmarshal : string → res json;
}.

Class JsonCodecLaws `{JsonCodec} := {
  exact : json → Prop;
  exact_marshal j : exact j → ∃ text, json_Marshal j = Ok text ∧ text ≠ "" ∧ json_Unmarshal text = Ok j;
}.

(** The printer and parser of [JsonText] are such a layer. *)
#[export] Instance textCodec : JsonCodec := {|
  json_Marshal j := if jvalid j then Ok (print j) else Err (Errorf "json: unsupported value" []);
  json_Unmarshal text := match decode text with Some j => Ok j | None => Err (Errorf "invalid character" []) end;
|}.

#[export] Instance textCodecLaws : @JsonCodecLaws textCodec.
Proof.
  refine {| exact j := jvalid j = true |}. intros j Hj. exists (print j). simpl. rewrite Hj. split; [done|].
  rewrite decode_print by done. split; [|done]. apply andb_true_iff in Hj as [_ Hn].
  by destruct (print_head j Hn) as (c & t & -> & _).
Defined.
