(* ===== verification/OsFiles.v ===== *)
(** * Files: the parts of Go's [os] and [path/filepath] the adapters use

    An operation on the file system may be interrupted: it is a function that
    returns, besides its answer and the state after it, the states it passes
    through, which are what another process finds when this one is killed.

    The laws say what POSIX documents of the contents of files: an operation on
    one file leaves the others alone, a write that answers has written all, a
    rename happens at once or not at all, and the name of a temporary file has
    the form of its pattern. *)

From S2P Require Import Prelude GoLib.

From Stdlib Require Import Ascii.

(** ** Paths *)

(** The text before and after the last occurrence of a character. *)
Fixpoint cut_last (c : ascii) (s : string) : option (string * string) :=
  match s with
  | EmptyString => None
  | String x s' =>
      match cut_last c s' with
      | Some (a, b) => Some (String x a, b)
      | None => if bool_decide (x = c) then Some (EmptyString, s') else None
      end
  end.

Definition is_slash (c : ascii) : bool := bool_decide (c = "/"%char).

(** [filepath.Base] *)
Definition filepath_Base (path : string) : string :=
  if str_eqb path "" then "." else
  let path := TrimRightFunc is_slash path in
  let base := match cut_last "/" path with Some (_, b) => b | None => path end in
  if str_eqb base "" then "/" else base.

(** [filepath.Dir] of a path without empty, [.] and [..] elements. *)
Definition filepath_Dir (path : string) : string :=
  match cut_last "/" path with
  | None => "."
  | Some (dir, _) => if str_eqb dir "" then "/" else dir
  end.

Example paths_ex : (filepath_Base "/var/lib/cp.json", filepath_Dir "/var/lib/cp.json", filepath_Base "/", filepath_Dir "/a",
  filepath_Dir "a", filepath_Base "a/b//") = ("cp.json", "/var/lib", "/", "/", ".", "b").
Proof. reflexivity. Qed.

Lemma cut_last_free c s : all_chars (λ x, negb (bool_decide (x = c))) s = true → cut_last c s = None.
Proof.
  induction s as [|x s IH]; [done|]. simpl. rewrite andb_true_iff, negb_true_iff. intros [Hx Hs].
  by rewrite IH, Hx.
Qed.

Lemma cut_last_app c pre post : all_chars (λ x, negb (bool_decide (x = c))) post = true →
  cut_last c (pre +:+ String c post) = Some (pre, post).
Proof.
  intros Hpost. induction pre as [|x pre IH].
  - change (EmptyString +:+ String c post) with (String c post). simpl.
    by rewrite cut_last_free, bool_decide_eq_true_2.
  - rewrite str_app_cons. simpl. by rewrite IH.
Qed.

(** ** Interruptible operations *)

Section Op.
Context {FS : Type}.

Definition Op (A : Type) : Type := FS → list FS * (res A * FS).

#[global] Instance Op_ret : MRet Op := λ A a fs, ([], (Ok a, fs)).
#[global] Instance Op_bind : MBind Op := λ A B f m fs,
  match m fs with
  | (seen, (Ok a, fs')) => let '(seen', out) := f a fs' in (seen ++ fs' :: seen', out)
  | (seen, (Err e, fs')) => (seen, (Err e, fs'))
  end.

Definition op_lift {A} (r : res A) : Op A := λ fs, ([], (r, fs)).
Definition op_wrap {A} (w : error → error) (m : Op A) : Op A := λ fs,
  match m fs with (seen, (Err e, fs')) => (seen, (Err (w e), fs')) | ok => ok end.

(** [_ = cleanup()] before an error is returned. *)
Definition op_onError {A} (cleanup : Op ()) (m : Op A) : Op A := λ fs,
  match m fs with
  | (seen, (Err e, fs')) => let '(seen', (_, fs'')) := cleanup fs' in (seen ++ fs' :: seen', (Err e, fs''))
  | ok => ok
  end.

(** [defer func() { _ = cleanup() }()] *)
Definition op_defer {A} (cleanup : Op ()) (m : Op A) : Op A := λ fs,
  let '(seen, (r, fs')) := m fs in
  let '(seen', (_, fs'')) := cleanup fs' in (seen ++ fs' :: seen', (r, fs'')).

(** Every state the operation passes through or ends in. *)
Definition through {A} (m : Op A) (fs : FS) (P : FS → Prop) : Prop :=
  Forall P (fst (m fs)) ∧ P (snd (snd (m fs))).
Definition answer {A} (m : Op A) (fs : FS) : res A := fst (snd (m fs)).
Definition after {A} (m : Op A) (fs : FS) : FS := snd (snd (m fs)).

(** ** Triples: from a state in [P], the operation stays in [I], ends in [Q a]
    when it answers [a] and in [X] when it fails. *)
Definition op_triple {A} (P I : FS → Prop) (m : Op A) (Q : A → FS → Prop) (X : FS → Prop) : Prop :=
  ∀ fs, P fs → Forall I (fst (m fs)) ∧
    match snd (m fs) with (Ok a, fs') => Q a fs' | (Err _, fs') => X fs' end.

Lemma triple_op_bind {A B} P I (m : Op A) (f : A → Op B) R Q X :
  op_triple P I m R X → (∀ a, op_triple (R a) I (f a) Q X) → (∀ a fs, R a fs → I fs) →
  op_triple P I (m ≫= f) Q X.
Proof.
  intros Hm Hf HR fs HP. specialize (Hm fs HP). unfold mbind, Op_bind.
  destruct (m fs) as [seen [[a|e] fs']]; [|done]. destruct Hm as [Hseen Ha]. specialize (Hf a fs' Ha).
  destruct (f a fs') as [seen' out]. simpl in *. destruct Hf. split; [|done].
  apply Forall_app. split; [done|]. constructor; [by eapply HR|done].
Qed.

Lemma triple_op_wrap {A} P I w (m : Op A) Q X : op_triple P I m Q X → op_triple P I (op_wrap w m) Q X.
Proof. intros Hm fs HP. specialize (Hm fs HP). unfold op_wrap. by destruct (m fs) as [seen [[a|e] fs']]. Qed.

Lemma triple_op_lift {A} (P I : FS → Prop) (r : res A) (Q : A → FS → Prop) (X : FS → Prop) :
  (∀ a fs, r = Ok a → P fs → Q a fs) → (∀ e fs, r = Err e → P fs → X fs) → op_triple P I (op_lift r) Q X.
Proof. intros HQ HX fs HP. split; [constructor|]. simpl. destruct r; eauto. Qed.

Lemma triple_op_onError {A} P I cleanup (m : Op A) Q X X' :
  op_triple P I m Q X' → op_triple X' I cleanup (λ _, X) X → (∀ fs, X' fs → I fs) →
  op_triple P I (op_onError cleanup m) Q X.
Proof.
  intros Hm Hc HI fs HP. specialize (Hm fs HP). unfold op_onError.
  destruct (m fs) as [seen [[a|e] fs']]; [done|]. destruct Hm as [Hseen He]. specialize (Hc fs' He).
  destruct (cleanup fs') as [seen' [[]]]; simpl in *; destruct Hc; (split; [|done]);
    (apply Forall_app; split; [done|]); constructor; auto.
Qed.

Lemma triple_op_defer {A} P I cleanup (m : Op A) (R : A → FS → Prop) Q X' X :
  op_triple P I m R X' → (∀ a, op_triple (R a) I cleanup (λ _, Q a) (Q a)) → op_triple X' I cleanup (λ _, X) X →
  (∀ a fs, R a fs → I fs) → (∀ fs, X' fs → I fs) → op_triple P I (op_defer cleanup m) Q X.
Proof.
  intros Hm Hc Hx HR HX fs HP. specialize (Hm fs HP). unfold op_defer.
  destruct (m fs) as [seen [[a|e] fs']]; destruct Hm as [Hseen He]; cbn [fst snd] in *;
    [specialize (Hc a fs' He)|specialize (Hx fs' He)];
    destruct (cleanup fs') as [seen' [[] fs'']]; cbn [fst snd] in *;
    (split; [|naive_solver]); apply Forall_app; split; [done| |done| |done| |done|]; constructor; naive_solver.
Qed.

Lemma triple_op_conseq {A} (P P' I : FS → Prop) (m : Op A) (Q Q' : A → FS → Prop) (X X' : FS → Prop) :
  op_triple P I m Q X → (∀ fs, P' fs → P fs) → (∀ a fs, Q a fs → Q' a fs) → (∀ fs, X fs → X' fs) →
  op_triple P' I m Q' X'.
Proof.
  intros Hm HP HQ HX fs HP'. specialize (Hm fs (HP fs HP')). destruct (m fs) as [seen [[] ?]]; naive_solver.
Qed.
End Op.
Arguments Op FS A : clear implicits.

(** ** The operations *)

Class OsFiles (FS : Type) := {
  os_ReadFile : string → FS → res string;
  os_IsNotExist : error → bool;
  os_MkdirAll : string → Z → Op FS ();
  os_CreateTemp : string → string → Op FS string;
  file_Chmod : string → Z → Op FS ();
  file_Write : string → string → Op FS ();
  file_Close : string → Op FS ();
  os_Rename : string → string → Op FS ();
  os_Remove : string → Op FS ();
}.

(** The form of the name of a temporary file: the last [*] of the pattern is
    replaced by a random text. *)
Definition hasPattern (pre post name : string) : Prop := ∃ rnd, filepath_Base name = pre +:+ rnd +:+ post.

Class OsFilesLaws (FS : Type) `{OsFiles FS} := {
  fileAt : FS → string → option string;
  sameFiles (except : string → Prop) (fs fs' : FS) : Prop := ∀ p, ¬ except p → fileAt fs' p = fileAt fs p;
  renamedFile (a b : string) (fs fs' : FS) : Prop :=
    fileAt fs' b = fileAt fs a ∧ sameFiles (λ p, p = a ∨ p = b) fs fs';
  readFile_answer p fs data : os_ReadFile p fs = Ok data → fileAt fs p = Some data;
  readFile_absent p fs e : os_ReadFile p fs = Err e → os_IsNotExist e = true → fileAt fs p = None;
  mkdir_files p perm fs : through (os_MkdirAll p perm) fs (sameFiles (λ _, False) fs);
  createTemp_files dir pre post fs :
    all_chars (λ x, negb (bool_decide (x = "*"%char))) post = true →
    through (os_CreateTemp dir (pre +:+ "*" +:+ post)) fs (sameFiles (hasPattern pre post) fs);
  createTemp_name dir pre post fs name :
    all_chars (λ x, negb (bool_decide (x = "*"%char))) post = true →
    answer (os_CreateTemp dir (pre +:+ "*" +:+ post)) fs = Ok name →
    hasPattern pre post name ∧ fileAt (after (os_CreateTemp dir (pre +:+ "*" +:+ post)) fs) name = Some "";
  chmod_files f perm fs : through (file_Chmod f perm) fs (sameFiles (λ _, False) fs);
  write_files f data fs : through (file_Write f data) fs (sameFiles (λ p, p = f) fs);
  write_answer f data fs old : fileAt fs f = Some old → answer (file_Write f data) fs = Ok () →
    fileAt (after (file_Write f data) fs) f = Some (old +:+ data);
  close_files f fs : through (file_Close f) fs (sameFiles (λ _, False) fs);
  rename_files a b fs :
    through (os_Rename a b) fs (λ fs', sameFiles (λ _, False) fs fs' ∨ renamedFile a b fs fs');
  rename_answer a b fs : match answer (os_Rename a b) fs with
    | Ok _ => renamedFile a b fs (after (os_Rename a b) fs)
    | Err _ => sameFiles (λ _, False) fs (after (os_Rename a b) fs)
    end;
  remove_files p fs : through (os_Remove p) fs (sameFiles (λ q, q = p) fs);
}.
