(* ===== verification/SysInfo.v ===== *)
(** * What a node knows of itself: pkg/sys/pci, pkg/sys/pciids, pkg/sys/hostinfo

    PCI devices from sysfs, names of devices from pci.ids, and the operating
    system, kernel and virtualisation of the host.  The files of the host are a
    record of functions; roots of paths are clean, so that [filepath.Join] puts
    a slash between its elements. *)

From S2P Require Import Prelude GoLib GpuApi OsFiles.

From Stdlib Require Import Ascii.

(** ** The files of the host *)

Record HostFiles := mkHostFiles {
  hf_ReadFile : string → res string;
  hf_ReadDir : string → res (list string);
  hf_Stat : string → option error;
  hf_Readlink : string → res string;
}.

Definition IsNotExist (e : error) : bool := errorsIs e (Errorf "file does not exist" []).

Definition pathJoin (a b : string) : string := a +:+ "/" +:+ b.

(** [bufio.Scanner] with [ScanLines]: lines without their end, and an error for
    a line that does not fit into the buffer. *)
Definition newline : ascii := ascii_of_nat 10.
Definition is_cr (c : ascii) : bool := (nat_of_ascii c =? 13)%nat.
Definition maxScanTokenSize : nat := N.to_nat 65536.
Definition ErrTooLong : error := Errorf "bufio.Scanner: token too long" [].

Definition dropCR (line : string) : string := TrimSuffix line (String (ascii_of_nat 13) EmptyString).

Fixpoint scanTokens (lines : list string) : list string * option error :=
  match lines with
  | [] => ([], None)
  | [EmptyString] => ([], None)
  | line :: rest =>
      if (maxScanTokenSize <=? String.length line)%nat then ([], Some ErrTooLong)
      else let '(tokens, err) := scanTokens rest in (dropCR line :: tokens, err)
  end.
Definition ScanLines (content : string) : list string * option error := scanTokens (SplitChar content newline).

(** ** pkg/sys/pci *)

Record PciDevice := mkPciDevice {
  pd_Address : string;
  pd_ClassCode : string;
  pd_VendorID : string;
  pd_DeviceID : string;
  pd_DriverName : string;
}.

Definition normalizeHexID (raw : string) : string := TrimPrefix (ToLower (TrimSpace raw)) "0x".

Definition normalizeClassCode (raw : string) : string :=
  let value := normalizeHexID raw in
  if (String.length value <? 4)%nat then "" else str_take 4 value.

Definition readTrim (fs : HostFiles) (path : string) : res string :=
  data ← hf_ReadFile fs path; Ok (TrimSpace data).

Definition readDriverName (fs : HostFiles) (devicePath : string) : string :=
  match hf_Readlink fs (pathJoin devicePath "driver") with
  | Ok link => filepath_Base link
  | Err _ => ""
  end.

Definition defaultHostSysRoot : string := "/host-sys".
Definition defaultSysRoot : string := "/sys".

(** One directory of a device; one that cannot be read is skipped. *)
Definition readDevice (fs : HostFiles) (base addr : string) : option PciDevice :=
  let devicePath := pathJoin base addr in
  match readTrim fs (pathJoin devicePath "class") with
  | Err _ => None
  | Ok classRaw =>
      let classCode := normalizeClassCode classRaw in
      if str_eqb classCode "" then None else
      match readTrim fs (pathJoin devicePath "vendor"), readTrim fs (pathJoin devicePath "device") with
      | Ok vendorRaw, Ok deviceRaw =>
          Some (mkPciDevice addr classCode (normalizeHexID vendorRaw) (normalizeHexID deviceRaw) (readDriverName fs devicePath))
      | _, _ => None
      end
  end.

(** The loop; [done] tells whether the context is over before each entry. *)
Fixpoint readDevices (fs : HostFiles) (done : nat → option error) (i : nat) (base : string) (entries : list string)
    : res (list PciDevice) :=
  match entries with
  | [] => Ok []
  | addr :: rest =>
      match done i with
      | Some e => Err e
      | None =>
          devices ← readDevices fs done (S i) base rest;
          Ok (option_list (readDevice fs base addr) ++ devices)
      end
  end.

Definition SysfsList (fs : HostFiles) (done : nat → option error) (sysRoot : string) : res (list PciDevice) :=
  let root := if str_eqb sysRoot "" then defaultHostSysRoot else sysRoot in
  let base := pathJoin root "bus/pci/devices" in
  let base := match hf_Stat fs base with None => base | Some _ => pathJoin defaultSysRoot "bus/pci/devices" end in
  match hf_ReadDir fs base with
  | Err e => Err (Wrapf "read pci devices: %w" [] e)
  | Ok entries => readDevices fs done 0 base entries
  end.

(** ** pkg/sys/pciids *)

Record Resolver := mkResolver {
  rv_vendors : gmap string string;
  rv_devices : gmap string (gmap string string);
  rv_classBase : gmap string string;
  rv_classSub : gmap string (gmap string string);
}.

Definition VendorName (r : option Resolver) (vendorID : string) : string :=
  match r with None => "" | Some r => default "" (rv_vendors r !! ToLower vendorID) end.

Definition ResolvedDeviceName (r : option Resolver) (vendorID deviceID : string) : string :=
  match r with
  | None => ""
  | Some r => default "" (rv_devices r !! ToLower vendorID ≫= λ devices, devices !! ToLower deviceID)
  end.

Definition ClassName (r : option Resolver) (classCode : string) : string :=
  match r with
  | None => ""
  | Some r =>
      let code := ToLower classCode in
      if (String.length code <? 4)%nat then "" else
      let base := str_take 2 code in
      let sub := str_take 2 (str_drop 2 code) in
      match rv_classSub r !! base ≫= λ subs, subs !! sub with
      | Some name => name
      | None => default "" (rv_classBase r !! base)
      end
  end.

Definition is_tab (c : ascii) : bool := (nat_of_ascii c =? 9)%nat.
Definition is_blank (c : ascii) : bool := bool_decide (c = " "%char).

Fixpoint leadingIndent (line : string) : Z * Z :=
  match line with
  | EmptyString => (0, 0)
  | String c rest =>
      let '(tabs, spaces) := leadingIndent rest in
      if is_tab c then (tabs + 1, spaces) else if is_blank c then (tabs, spaces + 1) else (0, 0)
  end.

Definition is_hex (c : ascii) : bool :=
  is_digit c || ((97 <=? nat_of_ascii c)%nat && (nat_of_ascii c <=? 102)%nat) || ((65 <=? nat_of_ascii c)%nat && (nat_of_ascii c <=? 70)%nat).
Definition isHex (value : string) : bool := negb (str_eqb value "") && all_chars is_hex value.

Inductive IdsMode := ModeNone | ModeClass | ModeVendor.

Record IdsState := mkIdsState {
  is_mode : IdsMode;
  is_currentVendor : string;
  is_currentClass : string;
  is_res : Resolver;
}.

(** [m[outer][inner] = name], making the inner map when it is missing. *)
Definition putNested (outer inner name : string) (m : gmap string (gmap string string)) : gmap string (gmap string string) :=
  <[outer := <[inner := name]> (default ∅ (m !! outer))]> m.

(** A line without indentation starts a vendor or a class. *)
Definition parseTop (st : IdsState) (trimmed : string) : IdsState :=
  let r := is_res st in
  if HasPrefix trimmed "C " then
    let cleared := mkIdsState ModeClass "" "" r in
    match Fields trimmed with
    | _ :: raw :: word :: words =>
        let base := ToLower raw in
        if negb (isHex base) || negb (String.length base =? 2)%nat then cleared else
        mkIdsState ModeClass "" base (mkResolver (rv_vendors r) (rv_devices r)
          (<[base := Join (word :: words) " "]> (rv_classBase r)) (rv_classSub r))
    | _ => cleared
    end
  else
    let cleared := mkIdsState (is_mode st) "" "" r in
    match Fields trimmed with
    | raw :: word :: words =>
        let id := ToLower raw in
        if negb (isHex id) || negb (String.length id =? 4)%nat then cleared else
        mkIdsState ModeVendor id "" (mkResolver (<[id := Join (word :: words) " "]> (rv_vendors r)) (rv_devices r)
          (rv_classBase r) (rv_classSub r))
    | _ => cleared
    end.

(** A line with one level of indentation names a device or a subclass. *)
Definition parseNested (st : IdsState) (tabs spaces : Z) (trimmed : string) : IdsState :=
  let r := is_res st in
  match Fields trimmed with
  | raw :: second :: words =>
      let id := ToLower raw in
      let name := Join (second :: words) " " in
      match is_mode st with
      | ModeVendor =>
          if negb (isHex id) || negb (String.length id =? 4)%nat then st else
          if (tabs =? 0) && (0 <? spaces) && isHex second && (String.length second =? 4)%nat then st else
          if str_eqb (is_currentVendor st) "" then st else
          mkIdsState (is_mode st) (is_currentVendor st) (is_currentClass st)
            (mkResolver (rv_vendors r) (putNested (is_currentVendor st) id name (rv_devices r)) (rv_classBase r) (rv_classSub r))
      | ModeClass =>
          if negb (isHex id) || negb (String.length id =? 2)%nat then st else
          if str_eqb (is_currentClass st) "" then st else
          mkIdsState (is_mode st) (is_currentVendor st) (is_currentClass st)
            (mkResolver (rv_vendors r) (rv_devices r) (rv_classBase r) (putNested (is_currentClass st) id name (rv_classSub r)))
      | ModeNone => st
      end
  | _ => st
  end.

Definition parseLine (st : IdsState) (text : string) : IdsState :=
  let line := TrimRightFunc is_cr text in
  if str_eqb line "" || HasPrefix line "#" then st else
  let '(tabs, spaces) := leadingIndent line in
  let trimmed := TrimLeftFunc (λ c, is_blank c || is_tab c) line in
  if (tabs =? 0) && (spaces =? 0) then parseTop st trimmed else
  if 2 <=? tabs then st else
  if (tabs =? 1) || ((tabs =? 0) && (0 <? spaces)) then parseNested st tabs spaces trimmed else st.

Definition emptyResolver : Resolver := mkResolver ∅ ∅ ∅ ∅.

Definition parsePCIIDs (lines : list string) (r : Resolver) : Resolver :=
  is_res (foldl parseLine (mkIdsState ModeNone "" "" r) lines).

Definition LoadIds (fs : HostFiles) (path : string) : res Resolver :=
  if str_eqb path "" then Err (Errorf "pci.ids path is empty" []) else
  content ← hf_ReadFile fs path;
  let '(lines, err) := ScanLines content in
  match err with
  | Some e => Err e
  | None => Ok (parsePCIIDs lines emptyResolver)
  end.

(** The first file that exists; the path is the one of the file or of the error. *)
Fixpoint LoadFirst (fs : HostFiles) (paths : list string) : res (option Resolver * string) :=
  match paths with
  | [] => Ok (None, "")
  | raw :: rest =>
      let path := TrimSpace raw in
      if str_eqb path "" then LoadFirst fs rest else
      match LoadIds fs path with
      | Ok r => Ok (Some r, path)
      | Err e => if IsNotExist e then LoadFirst fs rest else Err e
      end
  end.

(** ** pkg/sys/hostinfo *)

Definition defaultHostOSRelease : string := "/host-etc/os-release".
Definition defaultOSRelease : string := "/etc/os-release".
Definition defaultKernelRelease : string := "/proc/sys/kernel/osrelease".
Definition defaultCPUInfo : string := "/proc/cpuinfo".
Definition defaultDMIRelativePath : string := "devices/virtual/dmi/id".

Definition virtualizationMarkers : list string :=
  ["kvm"; "qemu"; "vmware"; "virtualbox"; "xen"; "hv"; "hyper-v"; "microsoft"; "openstack"; "amazon"; "ec2"; "google";
   "compute engine"; "digitalocean"; "parallels"; "bhyve"; "bochs"].

(** [\w] *)
Definition is_word (c : ascii) : bool := is_lower c || is_upper c || is_digit c || bool_decide (c = "_"%char).

(** [^(\w+)=(.+)] on a line *)
Fixpoint wordKey (s : string) : option (string * string) :=
  match s with
  | EmptyString => None
  | String c rest =>
      if bool_decide (c = "="%char) then Some (EmptyString, rest)
      else if is_word c then match wordKey rest with Some (k, v) => Some (String c k, v) | None => None end
      else None
  end.
Definition matchRelease (line : string) : option (string * string) :=
  match wordKey line with
  | Some (String c key, String d value) => Some (String c key, String d value)
  | _ => None
  end.

Definition is_quote (c : ascii) : bool := (nat_of_ascii c =? 34)%nat || (nat_of_ascii c =? 39)%nat.

Definition addRelease (release : gmap string string) (line : string) : gmap string string :=
  match matchRelease line with
  | Some (key, value) => <[key := TrimFunc is_quote value]> release
  | None => release
  end.

(** A line that is too long ends the scan; its error is not asked for. *)
Definition parseOSRelease (fs : HostFiles) (path : string) : res (gmap string string) :=
  content ← hf_ReadFile fs path; Ok (foldl addRelease ∅ (fst (ScanLines content))).

Definition discoverOS (fs : HostFiles) (osReleasePath : string) : option OSInfo :=
  let path := if str_eqb osReleasePath "" then defaultHostOSRelease else osReleasePath in
  let path := match hf_Stat fs path with None => path | Some _ => defaultOSRelease end in
  match parseOSRelease fs path with
  | Err _ => None
  | Ok release =>
      let value key := default "" (release !! key) in
      Some (mkOSInfo (value "ID") (value "VERSION_ID") (value "NAME"))
  end.

Definition discoverKernelRelease (fs : HostFiles) : string :=
  match readTrim fs defaultKernelRelease with Ok raw => raw | Err _ => "" end.

(** [\bhypervisor\b]: the word between characters that are none of a word. *)
Definition wordEnds (s : string) : bool := match s with EmptyString => true | String c _ => negb (is_word c) end.
Fixpoint hasWord (word : string) (inside : bool) (s : string) : bool :=
  (negb inside && HasPrefix s word && wordEnds (str_drop (String.length word) s)) ||
  match s with EmptyString => false | String c rest => hasWord word (is_word c) rest end.
Definition isVirtualizedCPUInfo (cpuInfo : string) : bool := hasWord "hypervisor" false cpuInfo.

Definition isVirtualizedDMI (sysVendor productName : string) : bool :=
  let combined := ToLower (TrimSpace (sysVendor +:+ " " +:+ productName)) in
  if str_eqb combined "" then false else existsb (Contains combined) virtualizationMarkers.

Definition detectBareMetalFromInfo (sysVendor productName cpuInfo : string) : option bool :=
  if isVirtualizedCPUInfo cpuInfo || isVirtualizedDMI sysVendor productName then Some false else
  if str_eqb sysVendor "" && str_eqb productName "" then None else Some true.

Definition readDMI (fs : HostFiles) (sysRoot : string) : string * string :=
  let root := if str_eqb sysRoot "" then defaultHostSysRoot else sysRoot in
  let dmiDir := pathJoin root defaultDMIRelativePath in
  let dmiDir := match hf_Stat fs dmiDir with None => dmiDir | Some _ => pathJoin "/sys" defaultDMIRelativePath end in
  let read name := match readTrim fs (pathJoin dmiDir name) with Ok s => s | Err _ => "" end in
  (read "sys_vendor", read "product_name").

Definition readCPUInfo (fs : HostFiles) : string :=
  match hf_ReadFile fs defaultCPUInfo with Ok data => data | Err _ => "" end.

Definition detectBareMetal (fs : HostFiles) (sysRoot : string) : option bool :=
  let '(sysVendor, productName) := readDMI fs sysRoot in
  detectBareMetalFromInfo sysVendor productName (readCPUInfo fs).

Definition Discover (fs : HostFiles) (osReleasePath sysRoot : string) : option NodeInfo :=
  let osInfo := discoverOS fs osReleasePath in
  let kernelRelease := discoverKernelRelease fs in
  let bareMetal := detectBareMetal fs sysRoot in
  match osInfo, bareMetal with
  | None, None => if str_eqb kernelRelease "" then None else Some (mkNodeInfo "" osInfo kernelRelease bareMetal)
  | _, _ => Some (mkNodeInfo "" osInfo kernelRelease bareMetal)
  end.

Example ids_ex :
  let r := Some (parsePCIIDs ["# comment"; "10de  NVIDIA Corporation"; String (ascii_of_nat 9) "20b7  GA100GL [A30 PCIe]";
     String (ascii_of_nat 9) (String (ascii_of_nat 9) "10de 1532  A30"); "C 03  Display controller"; String (ascii_of_nat 9) "02  3D controller"] emptyResolver) in
  (VendorName r "10DE", ResolvedDeviceName r "10de" "20b7", ClassName r "0302", ClassName r "0300", ClassName r "03")
  = ("NVIDIA Corporation", "GA100GL [A30 PCIe]", "3D controller", "Display controller", "").
Proof. vm_compute. reflexivity. Qed.

Example virt_ex : (isVirtualizedCPUInfo "flags : fpu hypervisor lahf", isVirtualizedCPUInfo "hypervisors", isVirtualizedDMI "QEMU" "Standard PC")
  = (true, false, true).
Proof. vm_compute. reflexivity. Qed.
