(* ===== verification/Resource.v ===== *)
(** * Objects with their patches

    JSON patches by RFC 6902 ([common/patch]) and the resource of a reconcile
    ([controller/reconciler]). *)

From S2P Require Import Prelude GoLib GpuApi Json JsonText.

From Stdlib Require Import Ascii.

(** * JSON patches of metadata: pkg/common/patch

    The operations a patch is made of and the escaping of pointers, as the code
    builds them; beside them, as the specification, what RFC 6901 and RFC 6902
    say such a patch does to the metadata of an object. *)

(** ** patch.go *)

Definition PatchReplaceOp : string := "replace".
Definition PatchAddOp : string := "add".
Definition PatchRemoveOp : string := "remove".
Definition PatchTestOp : string := "test".

(** The value of an operation is a string, a list or a map of strings; a
    missing one is left out of the document. *)
#[export] Instance goValue_eq_dec : EqDecision goValue.
Proof. solve_decision. Defined.

Record JSONPatchOperation := mkOperation {
  jpo_Op : string;
  jpo_Path : string;
  jpo_Value : option goValue;
}.

Definition NewJSONPatchOperation (op path : string) (value : option goValue) : JSONPatchOperation :=
  mkOperation op path value.
Definition WithAdd (path : string) (value : goValue) : JSONPatchOperation :=
  NewJSONPatchOperation PatchAddOp path (Some value).
Definition WithRemove (path : string) : JSONPatchOperation := NewJSONPatchOperation PatchRemoveOp path None.
Definition WithReplace (path : string) (value : goValue) : JSONPatchOperation :=
  NewJSONPatchOperation PatchReplaceOp path (Some value).

(** [NewJSONPatch] and [Append] build the list of the operations, [Len] is its length. *)
Definition JSONPatch : Type := list JSONPatchOperation.
Definition JSONPatch_Append (jp : JSONPatch) (patches : list JSONPatchOperation) : JSONPatch := jp ++ patches.

Definition jsonOfOperation (op : JSONPatchOperation) : json := JObject (
  [("op", JString (jpo_Op op)); ("path", JString (jpo_Path op))] ++
  match jpo_Value op with Some v => [("value", marshal v)] | None => [] end).

Definition JSONPatch_Bytes `{JsonCodec} (jp : JSONPatch) : res string :=
  if list_len0 jp then Err (Errorf "list of patches is empty" [])
  else json_Marshal (JArray (jsonOfOperation <$> jp)).

Definition EscapeJSONPointer (path : string) : string :=
  ReplaceAll (ReplaceAll path "~" "~0") "/" "~1".

(** ** RFC 6901: the tokens of a pointer *)

Fixpoint unescape (s : string) : option string :=
  match s with
  | EmptyString => Some EmptyString
  | String "~" (String "0" s') => String "~" <$> unescape s'
  | String "~" (String "1" s') => String "/" <$> unescape s'
  | String "~" _ => None
  | String c s' => String c <$> unescape s'
  end.

Definition pointer (path : string) : option (list string) :=
  match SplitChar path "/" with
  | EmptyString :: tokens => mapM unescape tokens
  | _ => None
  end.

(** ** RFC 6902: the operations a document lists *)

Definition textOfJson (j : json) : option string := match j with JString s => Some s | _ => None end.

Definition valueOfJson (j : json) : option goValue :=
  match j with
  | JString s => Some (GoString s)
  | JNull => Some (GoStrings None)
  | JArray l => GoStrings ∘ Some <$> mapM textOfJson l
  | JObject fs => GoMap ∘ list_to_map <$> mapM (λ kv, pair (fst kv) <$> textOfJson (snd kv)) fs
  | _ => None
  end.

Definition operationOfJson (j : json) : option JSONPatchOperation :=
  match j with
  | JObject fs =>
      op ← jfield "op" fs ≫= textOfJson; path ← jfield "path" fs ≫= textOfJson;
      match jfield "value" fs with
      | None => Some (mkOperation op path None)
      | Some j => v ← valueOfJson j; Some (mkOperation op path (Some v))
      end
  | _ => None
  end.

Definition patchOfJson (j : json) : option JSONPatch :=
  match j with JArray l => mapM operationOfJson l | _ => None end.

(** ** RFC 6902: the effect of an operation

    One operation on the members of an object; [None] is an error. *)
Section Members.
Context {V : Type} `{EqDecision V}.

Definition memberOp (op : string) (value : option V) (key : string) (m : gmap string V) : option (gmap string V) :=
  if str_eqb op PatchAddOp then v ← value; Some (<[key := v]> m) else
  if str_eqb op PatchRemoveOp then _ ← m !! key; Some (delete key m) else
  if str_eqb op PatchReplaceOp then v ← value; _ ← m !! key; Some (<[key := v]> m) else
  if str_eqb op PatchTestOp then if bool_decide (m !! key = value ∧ is_Some value) then Some m else None
  else None.
End Members.

(** The members of [metadata]; the operations go to a member of it or to a
    member of one of its maps. *)
Abbreviation Metadata := (gmap string goValue).

Definition stringValue (v : option goValue) : option string :=
  match v with Some (GoString s) => Some s | _ => None end.

Definition applyOp (doc : Metadata) (op : JSONPatchOperation) : option Metadata :=
  match pointer (jpo_Path op) with
  | Some [root; field] => if str_eqb root "metadata" then memberOp (jpo_Op op) (jpo_Value op) field doc else None
  | Some [root; field; key] =>
      if negb (str_eqb root "metadata") then None else
      match doc !! field with
      | Some (GoMap m) => m' ← memberOp (jpo_Op op) (stringValue (jpo_Value op)) key m; Some (<[field := GoMap m']> doc)
      | _ => None
      end
  | _ => None
  end.

(** A patch is applied as a whole or not at all. *)
Fixpoint applyPatch (doc : Metadata) (ops : list JSONPatchOperation) : option Metadata :=
  match ops with
  | [] => Some doc
  | op :: rest => doc' ← applyOp doc op; applyPatch doc' rest
  end.

(** ** Pointers of the code *)

Lemma EscapeJSONPointer_nil : EscapeJSONPointer "" = "".
Proof. reflexivity. Qed.

Lemma ReplaceAll_app c new s t :
  ReplaceAll (s +:+ t) (String c EmptyString) new
  = ReplaceAll s (String c EmptyString) new +:+ ReplaceAll t (String c EmptyString) new.
Proof.
  induction s as [|x s IH]; [done|]. rewrite str_app_cons, !ReplaceAll_cons, IH. symmetry. apply str_app_assoc.
Qed.

Lemma EscapeJSONPointer_cons c s : EscapeJSONPointer (String c s)
  = (if bool_decide (c = "~"%char) then "~0" else if bool_decide (c = "/"%char) then "~1" else String c EmptyString)
    +:+ EscapeJSONPointer s.
Proof.
  unfold EscapeJSONPointer. rewrite ReplaceAll_cons, ReplaceAll_app. f_equal.
  destruct (bool_decide_reflect (c = "~"%char)); [done|]. rewrite ReplaceAll_cons. by destruct (bool_decide (c = "/"%char)).
Qed.

Lemma unescape_char c s : c ≠ "~"%char → unescape (String c s) = String c <$> unescape s.
Proof. destruct c as [[][][][][][][][]]; try done; congruence. Qed.

Lemma unescape_Escape s : unescape (EscapeJSONPointer s) = Some s.
Proof.
  induction s as [|c s IH]; [done|]. rewrite EscapeJSONPointer_cons.
  destruct (bool_decide_reflect (c = "~"%char)) as [->|Ht]; [|destruct (bool_decide_reflect (c = "/"%char)) as [->|Hs]];
    rewrite !str_app_cons.
  - change (EmptyString +:+ EscapeJSONPointer s) with (EscapeJSONPointer s). cbn [unescape]. by rewrite IH.
  - change (EmptyString +:+ EscapeJSONPointer s) with (EscapeJSONPointer s). cbn [unescape]. by rewrite IH.
  - change (EmptyString +:+ EscapeJSONPointer s) with (EscapeJSONPointer s). rewrite unescape_char, IH by done. done.
Qed.

Lemma Escape_free s : free_of "/"%char (EscapeJSONPointer s) = true.
Proof.
  induction s as [|c s IH]; [done|]. rewrite EscapeJSONPointer_cons, all_chars_app, IH, andb_true_r.
  destruct (bool_decide_reflect (c = "~"%char)) as [->|Ht]; [done|].
  destruct (bool_decide_reflect (c = "/"%char)) as [->|Hs]; [done|]. simpl. by rewrite bool_decide_eq_false_2.
Qed.

Lemma SplitChar_join c s t : SplitChar (s +:+ String c t) c = SplitChar s c ++ SplitChar t c.
Proof.
  induction s as [|x s IH].
  - change (EmptyString +:+ String c t) with (String c t). simpl. by rewrite bool_decide_eq_true_2.
  - rewrite str_app_cons. simpl. rewrite IH. destruct (bool_decide (x = c)); [done|].
    destruct (SplitChar s c) as [|part parts] eqn:Hs; [|done]. destruct s; simpl in Hs; [done|].
    destruct (bool_decide _); [done|]. by destruct (SplitChar s c).
Qed.

(** A path the code builds for a key of a map points at that key. *)
Lemma pointer_key path tokens key : pointer path = Some tokens →
  pointer (path +:+ "/" +:+ EscapeJSONPointer key) = Some (tokens ++ [key]).
Proof.
  unfold pointer. change ("/" +:+ EscapeJSONPointer key) with (String "/" (EscapeJSONPointer key)).
  rewrite SplitChar_join, (SplitChar_item "/"%char (EscapeJSONPointer key)) by apply Escape_free.
  destruct (SplitChar path "/") as [|[] parts]; [done| |done]. rewrite <- app_comm_cons, !mapM_Some. intros Hp.
  apply Forall2_app; [done|]. constructor; [apply unescape_Escape|done].
Qed.

(** ** What the server reads is what the code wrote *)

Lemma mapM_textOfJson l : mapM textOfJson (JString <$> l) = Some l.
Proof. apply mapM_Some, Forall2_fmap_l, Forall_Forall2_diag, Forall_forall. done. Qed.

Lemma valueOfJson_marshal v : valueOfJson (marshal v) = Some v.
Proof.
  destruct v as [s|[l|]|m]; [done| |done|]; cbn [marshal valueOfJson jstrings jentries].
  - by rewrite mapM_textOfJson.
  - assert (mapM (λ kv, pair (fst kv) <$> textOfJson (snd kv)) (prod_map id JString <$> merge_sort key_le (map_to_list m))
      = Some (merge_sort key_le (map_to_list m))) as ->.
    { apply mapM_Some, Forall2_fmap_l, Forall_Forall2_diag, Forall_forall. by intros [k x] _. }
    cbn. do 2 f_equal. rewrite <- (list_to_map_to_list m) at 2. apply list_to_map_proper.
    + rewrite (merge_sort_Permutation key_le). apply NoDup_fst_map_to_list.
    + apply merge_sort_Permutation.
Qed.

Lemma operationOfJson_json op : operationOfJson (jsonOfOperation op) = Some op.
Proof.
  destruct op as [op path [v|]]; [|done].
  trans (x ← valueOfJson (marshal v); Some (mkOperation op path (Some x))); [reflexivity|by rewrite valueOfJson_marshal].
Qed.

Lemma patchOfJson_json jp : patchOfJson (JArray (jsonOfOperation <$> jp)) = Some jp.
Proof.
  apply mapM_Some, Forall2_fmap_l, Forall_Forall2_diag, Forall_forall. intros op _. apply operationOfJson_json.
Qed.

(** * The wrapper of a reconciled object: pkg/controller/reconciler/resource*.go

    [Fetch] reads the object and keeps a copy the handlers change; [Update]
    writes the status when it changed and sends the change of the metadata as a
    JSON patch.  The API server is the class [ApiClient].  The theorems say what
    the patch does to the metadata on the server: with what [Fetch] saw still in
    place it leaves exactly what the handlers asked for, and a concurrent change
    of a map both sides have is refused. *)

(** The order in which the n-th [range] of an update visits a map. *)
Class RangeOrder := {
  rangeAt : nat → gmap string string → list (string * string);
  rangeAt_perm n m : rangeAt n m ≡ₚ map_to_list m;
}.

(** ** resource_patch.go *)

Section Patch.
Context `{RangeOrder}.

Definition jsonPatchOpsForFinalizers (current desired : list string) : list JSONPatchOperation :=
  match current, desired with
  | [], [] => []
  | [], _ => [WithAdd "/metadata/finalizers" (GoStrings (Some desired))]
  | _, [] => [WithRemove "/metadata/finalizers"]
  | _, _ => [WithReplace "/metadata/finalizers" (GoStrings (Some desired))]
  end.

Definition keyPath (path key : string) : string := path +:+ "/" +:+ EscapeJSONPointer key.

(** The two loops, over the keys of [current] and over the entries of [desired]. *)
Definition removeOps (path : string) (desired : gmap string string) (entries : list (string * string)) : list JSONPatchOperation :=
  omap (λ '(key, _), match desired !! key with Some _ => None | None => Some (WithRemove (keyPath path key)) end) entries.
Definition setOps (path : string) (current : gmap string string) (entries : list (string * string)) : list JSONPatchOperation :=
  omap (λ '(key, value),
    match current !! key with
    | None => Some (WithAdd (keyPath path key) (GoString value))
    | Some currentValue =>
        if str_eqb currentValue value then None else Some (WithReplace (keyPath path key) (GoString value))
    end) entries.

Definition jsonPatchOpsForMap (n : nat) (path : string) (current desired : option (gmap string string))
    : list JSONPatchOperation :=
  match current, desired with
  | None, None => []
  | None, Some d => [WithAdd path (GoMap d)]
  | Some _, None => [WithRemove path]
  | Some c, Some d =>
      NewJSONPatchOperation PatchTestOp path (Some (GoMap c)) ::
      removeOps path d (rangeAt n c) ++ setOps path c (rangeAt (S n) d)
  end.

Definition jsonPatchOpsForAnnotations (current desired : ObjectMeta) : list JSONPatchOperation :=
  jsonPatchOpsForMap 0 "/metadata/annotations" (om_Annotations current) (om_Annotations desired).
Definition jsonPatchOpsForLabels (current desired : ObjectMeta) : list JSONPatchOperation :=
  jsonPatchOpsForMap 2 "/metadata/labels" (om_Labels current) (om_Labels desired).

(** [maps.Equal]: a nil map is an empty one. *)
Definition maps_Equal (a b : option (gmap string string)) : bool := bool_decide (default ∅ a = default ∅ b).

(** The middle of [Update]. *)
Definition metadataPatch (current changed : ObjectMeta) : JSONPatch :=
  let patch : JSONPatch := [] in
  let patch := if bool_decide (om_Finalizers current = om_Finalizers changed) then patch
    else JSONPatch_Append patch (jsonPatchOpsForFinalizers (om_Finalizers current) (om_Finalizers changed)) in
  let patch := if maps_Equal (om_Annotations current) (om_Annotations changed) then patch
    else JSONPatch_Append patch (jsonPatchOpsForAnnotations current changed) in
  if maps_Equal (om_Labels current) (om_Labels changed) then patch
  else JSONPatch_Append patch (jsonPatchOpsForLabels current changed).
End Patch.

(** ** resource.go, resource_update.go *)

(** Objects with metadata and a status; [ST] is what [reflect.DeepEqual] compares. *)
Class ResourceObject (T ST : Type) := {
  obj_Meta : T → ObjectMeta;
  obj_SetMeta : ObjectMeta → T → T;
  obj_Status : T → ST;
}.

(** The client: reads, status updates and patches.  A write returns the object
    the server answers with. *)
Class ApiClient (T S : Type) := {
  client_Get : string → S → res T;
  client_StatusUpdate : T → S → res T * S;
  client_Patch : T → string → S → res T * S;
  client_IsNotFound : error → bool;
}.

Record Resource (T : Type) := mkResource { rsc_current : option T; rsc_changed : option T }.
Arguments mkResource {T}.
Arguments rsc_current {T}.
Arguments rsc_changed {T}.

Section Resource.
Context {T ST S : Type} `{EqDecision ST} `{ResourceObject T ST} `{ApiClient T S} `{RangeOrder} `{JsonCodec}.

(** common/object: an object that does not exist is empty. *)
Definition FetchObject (key : string) (s : S) : res (option T) :=
  match client_Get key s with
  | Ok obj => Ok (Some obj)
  | Err e => if client_IsNotFound e then Ok None else Err e
  end.

Definition Fetch (name : string) (s : S) : res (Resource T) :=
  currentObj ← FetchObject name s; Ok (mkResource currentObj currentObj).

Definition IsEmpty (r : Resource T) : bool := match rsc_current r with None => true | Some _ => false end.

(** The status subresource; the metadata the handlers set is put back over the
    answer of the server. *)
Definition updateStatus (current changed : T) (s : S) : res T * S :=
  if bool_decide (obj_Status current = obj_Status changed) then (Ok changed, s) else
  match client_StatusUpdate changed s with
  | (Err e, s') => (Err (Wrapf "error updating status subresource: %w" [] e), s')
  | (Ok updated, s') =>
      let m := obj_Meta updated in
      (Ok (obj_SetMeta (mkObjectMeta (om_Name m) (om_Finalizers (obj_Meta changed)) (om_Annotations (obj_Meta changed))
             (om_Labels (obj_Meta changed)) (om_Generation m) (om_DeletionTimestamp m)) updated), s')
  end.

Definition patchMetadata (current changed : T) (s : S) : res T * S :=
  let patch := metadataPatch (obj_Meta current) (obj_Meta changed) in
  if list_len0 patch then (Ok changed, s) else
  match JSONPatch_Bytes patch with
  | Err e => (Err e, s)
  | Ok bytes =>
      match client_Patch changed bytes s with
      | (Ok patched, s') => (Ok patched, s')
      | (Err e, s') =>
          let m := obj_Meta changed in
          if bool_decide (is_Some (om_DeletionTimestamp m)) && list_len0 (om_Finalizers m) && client_IsNotFound e
          then (Ok changed, s')
          else (Err (Wrapf "error patching metadata (%s, ops=%d): %w" [bytes; Itoa (Z.of_nat (length patch))] e), s')
      end
  end.

Definition Update (r : Resource T) (s : S) : (option error * Resource T) * S :=
  match rsc_current r, rsc_changed r with
  | Some current, Some changed =>
      match updateStatus current changed s with
      | (Err e, s1) => ((Some e, r), s1)
      | (Ok changed1, s1) =>
          match patchMetadata current changed1 s1 with
          | (Err e, s2) => ((Some e, mkResource (Some current) (Some changed1)), s2)
          | (Ok changed2, s2) => ((None, mkResource (Some current) (Some changed2)), s2)
          end
      end
  | _, _ => ((None, r), s)
  end.

(** Nothing is written when the handlers changed nothing. *)
Lemma Update_unchanged r s current : rsc_current r = Some current → rsc_changed r = Some current →
  Update r s = ((None, r), s).
Proof.
  intros Hc Hd. destruct r as [c d]. simpl in *. subst. unfold Update, updateStatus. simpl. rewrite bool_decide_eq_true_2 by done.
  unfold patchMetadata, metadataPatch, maps_Equal. rewrite !bool_decide_eq_true_2 by done. done.
Qed.
End Resource.

(** ** What the patch does *)

Section Meaning.
Context `{RangeOrder}.

(** A document of the server and the metadata it holds; an empty list or map is
    left out of the documents the server keeps. *)
Definition docStrings (doc : Metadata) (field : string) : list string :=
  match doc !! field with Some (GoStrings (Some l)) => l | _ => [] end.
Definition docMap (doc : Metadata) (field : string) : gmap string string :=
  match doc !! field with Some (GoMap m) => m | _ => ∅ end.

Definition strings_at (doc : Metadata) (field : string) (l : list string) : Prop :=
  doc !! field = if list_len0 l then None else Some (GoStrings (Some l)).
Definition map_at (doc : Metadata) (field : string) (m : option (gmap string string)) : Prop :=
  doc !! field = GoMap <$> m ∧ m ≠ Some ∅.

Definition holds (doc : Metadata) (m : ObjectMeta) : Prop :=
  strings_at doc "finalizers" (om_Finalizers m) ∧
  map_at doc "annotations" (om_Annotations m) ∧ map_at doc "labels" (om_Labels m).

Lemma applyPatch_app doc ops ops' : applyPatch doc (ops ++ ops') = applyPatch doc ops ≫= (λ doc', applyPatch doc' ops').
Proof. revert doc. induction ops as [|op ops IH]; intros doc; [done|]. simpl. destruct (applyOp doc op); simpl; [apply IH|done]. Qed.

(** An operation at a field and at a key of a field. *)
Lemma applyOp_field path field op v doc : pointer path = Some ["metadata"; field] →
  applyOp doc (mkOperation op path v) = memberOp op v field doc.
Proof. intros Hp. unfold applyOp. simpl. by rewrite Hp. Qed.

Lemma applyOp_key path field key op v doc m : pointer path = Some ["metadata"; field] → doc !! field = Some (GoMap m) →
  applyOp doc (mkOperation op (keyPath path key) v) =
  m' ← memberOp op (stringValue v) key m; Some (<[field := GoMap m']> doc).
Proof. intros Hp Hd. unfold applyOp, keyPath. simpl. rewrite (pointer_key _ _ _ Hp). simpl. by rewrite Hd. Qed.

Lemma memberOp_add {V} `{EqDecision V} (v : V) key m : memberOp PatchAddOp (Some v) key m = Some (<[key := v]> m).
Proof. reflexivity. Qed.
Lemma memberOp_remove {V} `{EqDecision V} (v : option V) key m : is_Some (m !! key) → memberOp PatchRemoveOp v key m = Some (delete key m).
Proof. intros [x Hx]. unfold memberOp. simpl. by rewrite Hx. Qed.
Lemma memberOp_replace {V} `{EqDecision V} (v : V) key m : is_Some (m !! key) → memberOp PatchReplaceOp (Some v) key m = Some (<[key := v]> m).
Proof. intros [x Hx]. unfold memberOp. simpl. by rewrite Hx. Qed.
Lemma memberOp_test {V} `{EqDecision V} (v : V) key m : memberOp PatchTestOp (Some v) key m = if bool_decide (m !! key = Some v) then Some m else None.
Proof.
  unfold memberOp. simpl. destruct (bool_decide_reflect (m !! key = Some v)).
  - by rewrite bool_decide_eq_true_2 by eauto.
  - rewrite bool_decide_eq_false_2; [done|]. by intros [? _].
Qed.

Lemma removeOps_cons path desired key v entries : removeOps path desired ((key, v) :: entries) =
  match desired !! key with Some _ => [] | None => [WithRemove (keyPath path key)] end ++ removeOps path desired entries.
Proof. unfold removeOps. simpl. by destruct (desired !! key). Qed.

Lemma setOps_cons path current key v entries : setOps path current ((key, v) :: entries) =
  match current !! key with
  | None => [WithAdd (keyPath path key) (GoString v)]
  | Some cv => if str_eqb cv v then [] else [WithReplace (keyPath path key) (GoString v)]
  end ++ setOps path current entries.
Proof. unfold setOps. simpl. destruct (current !! key) as [cv|]; [|done]. by destruct (str_eqb cv v). Qed.

Lemma removeOps_effect path field desired entries doc m : pointer path = Some ["metadata"; field] →
  doc !! field = Some (GoMap m) → NoDup (entries.*1) →
  (∀ k, k ∈ entries.*1 → desired !! k = None → is_Some (m !! k)) →
  ∃ m', applyPatch doc (removeOps path desired entries) = Some (<[field := GoMap m']> doc) ∧
    ∀ k, m' !! k = if decide (k ∈ entries.*1 ∧ desired !! k = None) then None else m !! k.
Proof.
  intros Hp. revert doc m. induction entries as [|[key v] entries IH]; intros doc m Hd Hnd Hin.
  { exists m. split; [change (Some doc = Some (<[field := GoMap m]> doc)); by rewrite insert_id|]. intros k. rewrite decide_False; [done|]. intros [Hk _]. by apply not_elem_of_nil in Hk. }
  rewrite fmap_cons in Hnd. apply NoDup_cons in Hnd as [Hnk Hnd]. rewrite removeOps_cons.
  destruct (desired !! key) as [dv|] eqn:Hdk.
  - destruct (IH doc m Hd Hnd) as (m' & Hm' & Hl). { intros k Hk. apply Hin. by right. }
    exists m'. split; [done|]. intros k. rewrite Hl. apply decide_ext. set_solver.
  - cbn [app applyPatch]. unfold WithRemove, NewJSONPatchOperation. rewrite (applyOp_key path field key _ _ doc m) by done.
    rewrite memberOp_remove by (apply Hin; [left|done]). cbn [mbind option_bind].
    destruct (IH (<[field := GoMap (delete key m)]> doc) (delete key m)) as (m' & Hm' & Hl); [by rewrite lookup_insert_eq|done| |].
    { intros k Hk Hkd. rewrite lookup_delete_ne by set_solver. apply Hin; [by right|done]. }
    exists m'. rewrite Hm', insert_insert_eq. split; [done|]. intros k. rewrite Hl. destruct (decide (k = key)) as [->|Hne].
    + rewrite decide_False by tauto. rewrite lookup_delete_eq, decide_True; [done|]. split; [left|done].
    + rewrite lookup_delete_ne by done. apply decide_ext. set_solver.
Qed.

Lemma setOps_effect path field current (desired : gmap string string) entries doc m : pointer path = Some ["metadata"; field] →
  doc !! field = Some (GoMap m) → NoDup (entries.*1) →
  (∀ k v, (k, v) ∈ entries → desired !! k = Some v ∧ m !! k = current !! k) →
  ∃ m', applyPatch doc (setOps path current entries) = Some (<[field := GoMap m']> doc) ∧
    ∀ k, m' !! k = if decide (k ∈ entries.*1) then desired !! k else m !! k.
Proof.
  intros Hp. revert doc m. induction entries as [|[key v] entries IH]; intros doc m Hd Hnd Hin.
  { exists m. split; [change (Some doc = Some (<[field := GoMap m]> doc)); by rewrite insert_id|].
    intros k. rewrite decide_False; [done|apply not_elem_of_nil]. }
  rewrite fmap_cons in Hnd. apply NoDup_cons in Hnd as [Hnk Hnd]. destruct (Hin key v ltac:(left)) as [Hdk Hmk].
  assert (∀ m0, (∀ k, k ≠ key → m0 !! k = m !! k) → m0 !! key = Some v →
    ∃ m', applyPatch (<[field := GoMap m0]> doc) (setOps path current entries) = Some (<[field := GoMap m']> doc) ∧
      ∀ k, m' !! k = if decide (k ∈ key :: entries.*1) then desired !! k else m !! k) as Hset.
  { intros m0 Hother Hkey. destruct (IH (<[field := GoMap m0]> doc) m0) as (m' & Hm' & Hl); [by rewrite lookup_insert_eq|done| |].
    { intros k x Hk. destruct (Hin k x ltac:(by right)) as [Hdx Hmx]. rewrite Hother; [done|]. intros ->.
      apply Hnk, list_elem_of_fmap. by exists (key, x). }
    exists m'. rewrite Hm', insert_insert_eq. split; [done|]. intros k. rewrite Hl. destruct (decide (k = key)) as [->|Hne].
    - rewrite decide_False by done. rewrite decide_True by left. congruence.
    - rewrite Hother by done. apply decide_ext. set_solver. }
  rewrite setOps_cons. destruct (current !! key) as [cv|] eqn:Hck.
  - destruct (str_eqb cv v) eqn:Hcv; go_bool.
    + subst cv. destruct (Hset m) as (m' & Hm' & Hl); [done|done|]. exists m'. rewrite insert_id in Hm' by done. done.
    + cbn [app applyPatch]. unfold WithReplace, NewJSONPatchOperation. rewrite (applyOp_key path field key _ _ doc m) by done.
      cbn [stringValue]. rewrite memberOp_replace by (rewrite Hmk; eauto). cbn [mbind option_bind].
      apply (Hset (<[key := v]> m)); [intros k Hk; by rewrite lookup_insert_ne|by rewrite lookup_insert_eq].
  - cbn [app applyPatch]. unfold WithAdd, NewJSONPatchOperation. rewrite (applyOp_key path field key _ _ doc m) by done.
    apply (Hset (<[key := v]> m)); [intros k Hk; by rewrite lookup_insert_ne|by rewrite lookup_insert_eq].
Qed.

Lemma rangeAt_keys n m : NoDup ((rangeAt n m).*1) ∧ (∀ k, k ∈ (rangeAt n m).*1 ↔ is_Some (m !! k)) ∧
  ∀ k v, (k, v) ∈ rangeAt n m → m !! k = Some v.
Proof.
  split; [rewrite rangeAt_perm; apply NoDup_fst_map_to_list|]. split.
  - intros k. rewrite rangeAt_perm, list_elem_of_fmap. split.
    + intros ([k' v] & -> & Hin). apply elem_of_map_to_list in Hin. eauto.
    + intros [v Hv]. exists (k, v). split; [done|]. by apply elem_of_map_to_list.
  - intros k v. rewrite rangeAt_perm. apply elem_of_map_to_list.
Qed.

(** The operations for a map both sides have, on the document they were made for. *)
Lemma mapOps_effect n path field c d doc : pointer path = Some ["metadata"; field] → doc !! field = Some (GoMap c) →
  applyPatch doc (jsonPatchOpsForMap n path (Some c) (Some d)) = Some (<[field := GoMap d]> doc).
Proof.
  intros Hp Hd. unfold jsonPatchOpsForMap. cbn [applyPatch]. unfold NewJSONPatchOperation.
  rewrite (applyOp_field path field) by done. rewrite memberOp_test, bool_decide_eq_true_2 by done. cbn [mbind option_bind].
  rewrite applyPatch_app. destruct (rangeAt_keys n c) as (Hnd & Hkeys & _). destruct (rangeAt_keys (S n) d) as (Hnd' & Hkeys' & Hval).
  destruct (removeOps_effect path field d (rangeAt n c) doc c Hp Hd Hnd) as (m1 & -> & Hl1).
  { intros k Hk _. by apply Hkeys. }
  cbn [mbind option_bind].
  destruct (setOps_effect path field c d (rangeAt (S n) d) (<[field := GoMap m1]> doc) m1) as (m2 & -> & Hl2).
  { done. } { by rewrite lookup_insert_eq. } { done. }
  { intros k v Hk. apply Hval in Hk. split; [done|]. rewrite Hl1, decide_False; [done|]. intros [_ ?]. congruence. }
  rewrite insert_insert_eq. do 3 f_equal. apply map_eq. intros k. rewrite Hl2. destruct (decide _) as [_|Hnk]; [done|].
  rewrite Hkeys' in Hnk. rewrite Hl1. destruct (d !! k) eqn:Hdk; [by destruct Hnk; eauto|].
  destruct (decide _) as [_|Hn]; [done|]. destruct (c !! k) eqn:Hck; [|done]. destruct Hn. split; [apply Hkeys; eauto|done].
Qed.
(** A step of the patch changes one field. *)
Definition sets_field (field : string) (doc doc' : Metadata) : Prop := ∀ f, f ≠ field → doc' !! f = doc !! f.

Lemma finalizers_spec doc current desired : strings_at doc "finalizers" current →
  ∃ doc', applyPatch doc (if bool_decide (current = desired) then [] else jsonPatchOpsForFinalizers current desired) = Some doc' ∧
    docStrings doc' "finalizers" = desired ∧ sets_field "finalizers" doc doc'.
Proof.
  unfold strings_at. intros Hd. destruct (bool_decide_reflect (current = desired)) as [<-|Hne].
  { exists doc. split; [done|]. split; [|done]. unfold docStrings. rewrite Hd. by destruct current. }
  assert (∃ doc', applyPatch doc (jsonPatchOpsForFinalizers current desired) = Some doc' ∧
    doc' !! "finalizers" = (if list_len0 desired then None else Some (GoStrings (Some desired))) ∧
    sets_field "finalizers" doc doc') as (doc' & Happ & Hl & Hf).
  { destruct current as [|c cs], desired as [|d ds]; [done|..]; cbn [jsonPatchOpsForFinalizers applyPatch list_len0] in *;
      unfold WithAdd, WithRemove, WithReplace, NewJSONPatchOperation; rewrite (applyOp_field _ "finalizers") by done.
    - rewrite memberOp_add. eexists. split; [done|]. split; [by rewrite lookup_insert_eq|]. intros f Hne'. by rewrite lookup_insert_ne.
    - rewrite memberOp_remove by (rewrite Hd; eauto). eexists. split; [done|]. split; [by rewrite lookup_delete_eq|].
      intros f Hne'. by rewrite lookup_delete_ne.
    - rewrite memberOp_replace by (rewrite Hd; eauto). eexists. split; [done|]. split; [by rewrite lookup_insert_eq|].
      intros f Hne'. by rewrite lookup_insert_ne. }
  exists doc'. split; [done|]. split; [|done]. unfold docStrings. rewrite Hl. by destruct desired.
Qed.

Lemma map_spec n path field doc current desired : pointer path = Some ["metadata"; field] → map_at doc field current →
  ∃ doc', applyPatch doc (if maps_Equal current desired then [] else jsonPatchOpsForMap n path current desired) = Some doc' ∧
    docMap doc' field = default ∅ desired ∧ sets_field field doc doc'.
Proof.
  intros Hp [Hd Hne]. unfold maps_Equal. destruct (bool_decide_reflect (default ∅ current = default ∅ desired)) as [<-|Hdiff].
  { exists doc. split; [done|]. split; [|done]. unfold docMap. rewrite Hd. by destruct current. }
  destruct current as [c|], desired as [d|]; [| | |done].
  - exists (<[field := GoMap d]> doc). split; [by apply mapOps_effect|]. split; [unfold docMap; by rewrite lookup_insert_eq|].
    intros f Hf. by rewrite lookup_insert_ne.
  - exists (delete field doc). cbn [jsonPatchOpsForMap applyPatch]. unfold WithRemove, NewJSONPatchOperation.
    rewrite (applyOp_field _ field) by done. rewrite memberOp_remove by (rewrite Hd; simpl; eauto). split; [done|].
    split; [unfold docMap; by rewrite lookup_delete_eq|]. intros f Hf. by rewrite lookup_delete_ne.
  - exists (<[field := GoMap d]> doc). cbn [jsonPatchOpsForMap applyPatch]. unfold WithAdd, NewJSONPatchOperation.
    rewrite (applyOp_field _ field), memberOp_add by done. split; [done|].
    split; [unfold docMap; by rewrite lookup_insert_eq|]. intros f Hf. by rewrite lookup_insert_ne.
Qed.

(** The patch is the three parts in order. *)
Lemma metadataPatch_parts current desired : metadataPatch current desired =
  (if bool_decide (om_Finalizers current = om_Finalizers desired) then []
   else jsonPatchOpsForFinalizers (om_Finalizers current) (om_Finalizers desired)) ++
  (if maps_Equal (om_Annotations current) (om_Annotations desired) then [] else jsonPatchOpsForAnnotations current desired) ++
  (if maps_Equal (om_Labels current) (om_Labels desired) then [] else jsonPatchOpsForLabels current desired).
Proof.
  unfold metadataPatch, JSONPatch_Append. destruct (bool_decide _), (maps_Equal (om_Annotations _) _), (maps_Equal (om_Labels _) _);
    by rewrite ?app_nil_r, <- ?app_assoc.
Qed.

Lemma map_at_frame field field' doc doc' m : sets_field field doc doc' → field' ≠ field → map_at doc field' m → map_at doc' field' m.
Proof. intros Hs Hne [Hd Hm]. split; [|done]. by rewrite Hs. Qed.

Lemma docMap_frame field field' doc doc' : sets_field field doc doc' → field' ≠ field → docMap doc' field' = docMap doc field'.
Proof. intros Hs Hne. unfold docMap. by rewrite Hs. Qed.
Lemma docStrings_frame field field' doc doc' : sets_field field doc doc' → field' ≠ field → docStrings doc' field' = docStrings doc field'.
Proof. intros Hs Hne. unfold docStrings. by rewrite Hs. Qed.

(** C30: the metadata patch is exact: applied by the rules of RFC 6902 to a
    document that still holds the metadata the object was fetched with, it
    succeeds, leaves the finalizers, annotations and labels the handlers asked
    for, and no other field changes, in whatever order the maps are visited and
    whatever characters their keys have. *)
Theorem metadata_patch_exact (doc : Metadata) (current desired : ObjectMeta) : holds doc current →
  ∃ doc', applyPatch doc (metadataPatch current desired) = Some doc' ∧
    docStrings doc' "finalizers" = om_Finalizers desired ∧
    docMap doc' "annotations" = default ∅ (om_Annotations desired) ∧
    docMap doc' "labels" = default ∅ (om_Labels desired) ∧
    ∀ f, f ∉ ["finalizers"; "annotations"; "labels"] → doc' !! f = doc !! f.
Proof.
  intros (Hf & Ha & Hl). rewrite metadataPatch_parts, applyPatch_app.
  destruct (finalizers_spec doc _ (om_Finalizers desired) Hf) as (doc1 & -> & Hf1 & Hs1). cbn [mbind option_bind].
  rewrite applyPatch_app. unfold jsonPatchOpsForAnnotations, jsonPatchOpsForLabels.
  destruct (map_spec 0 "/metadata/annotations" "annotations" doc1 (om_Annotations current) (om_Annotations desired))
    as (doc2 & -> & Ha2 & Hs2); [done|by eapply map_at_frame|]. cbn [mbind option_bind].
  destruct (map_spec 2 "/metadata/labels" "labels" doc2 (om_Labels current) (om_Labels desired)) as (doc3 & -> & Hl3 & Hs3);
    [done|eapply map_at_frame; [done..|]; by eapply map_at_frame|].
  exists doc3. split; [done|]. split; [|split; [|split; [done|]]].
  - by rewrite (docStrings_frame "labels" _ doc2 doc3), (docStrings_frame "annotations" _ doc1 doc2).
  - by rewrite (docMap_frame "labels" _ doc2 doc3).
  - intros f Hin. rewrite Hs3, Hs2, Hs1 by set_solver. done.
Qed.

(** A change of the annotations made by someone else since the fetch is
    not overwritten: when the handlers changed a map the object already had, a
    document with another map refuses the whole patch. *)
Theorem metadata_patch_guarded (doc : Metadata) (current desired : ObjectMeta) (c d : gmap string string) :
  strings_at doc "finalizers" (om_Finalizers current) → om_Annotations current = Some c → om_Annotations desired = Some d →
  c ≠ d → doc !! "annotations" ≠ Some (GoMap c) → applyPatch doc (metadataPatch current desired) = None.
Proof.
  intros Hf Hc Hd Hne Hdoc. rewrite metadataPatch_parts, applyPatch_app.
  destruct (finalizers_spec doc _ (om_Finalizers desired) Hf) as (doc1 & -> & Hf1 & Hs1). cbn [mbind option_bind].
  rewrite applyPatch_app. unfold maps_Equal, jsonPatchOpsForAnnotations. rewrite Hc, Hd. cbn [default from_option id].
  rewrite (bool_decide_eq_false_2 (c = d)) by done. cbn [jsonPatchOpsForMap applyPatch]. unfold NewJSONPatchOperation.
  rewrite (applyOp_field _ "annotations") by done. rewrite memberOp_test, (bool_decide_eq_false_2 (doc1 !! _ = _)); [done|]. by rewrite Hs1.
Qed.
End Meaning.
