(* ===== verification/PhysicalGpu.v ===== *)
(** * The PhysicalGPU controller: pkg/controller/physicalgpu

    The controller keeps the condition DriverReady of a PhysicalGPU in step with
    the validator pods of its node, through the handler chain of [Reconciler]
    and the wrapper of [Resource].  The API server is a parameter: what the
    client reads and writes is [ApiClient] and the listing of pods and GPUs. *)

From S2P Require Import Prelude GoLib Reconciler GpuApi Json JsonText Resource.

(** ** internal/service/validator.go *)

Definition moduleLabelKey : string := "module".
Definition moduleLabelValue : string := "gpu-control-plane".
Definition componentLabelKey : string := "component".
Definition componentValidator : string := "validator".
Definition appLabelKey : string := "app".
Definition validatorAppName : string := "nvidia-operator-validator".
Definition validatorLabels : gmap string string :=
  {[ moduleLabelKey := moduleLabelValue; componentLabelKey := componentValidator; appLabelKey := validatorAppName ]}.

(** A pod, with the fields the validator reads: its node and the types and
    statuses of its conditions. *)
Record Pod := mkPod {
  pod_Namespace : string;
  pod_Labels : gmap string string;
  pod_NodeName : string;
  pod_Conditions : list (string * string);
}.
Definition PodReady : string := "Ready".

Record ValidationResult := mkValidationResult { vr_Present : bool; vr_Ready : bool; vr_Message : string }.

Definition filterPodsByNode (pods : list Pod) (nodeName : string) : list Pod :=
  if str_eqb nodeName "" then pods else filter (λ p, pod_NodeName p = nodeName) pods.

Fixpoint readyIn (conditions : list (string * string)) : bool :=
  match conditions with
  | [] => false
  | (type, status) :: rest => if str_eqb type PodReady then str_eqb status ConditionTrue else readyIn rest
  end.
Definition podReady (pod : Pod) : bool := readyIn (pod_Conditions pod).

(** [Status] on the pods the client listed. *)
Definition validationOf (pods : list Pod) (nodeName : string) : ValidationResult :=
  if list_len0 pods then mkValidationResult false false "validator pods not found" else
  let nodePods := filterPodsByNode pods nodeName in
  if list_len0 nodePods
  then mkValidationResult true false ("validator pod not found on node " +:+ Quote nodeName) else
  if existsb podReady nodePods then mkValidationResult true true "" else
  mkValidationResult true false "validator pod is not ready".

(** What the controller needs of the API server beside [ApiClient]. *)
Class PodLister (S : Type) := {
  client_ListPods : string → gmap string string → S → res (list Pod);
}.

Section Controller.
Context {S : Type} `{ApiClient PhysicalGPU S} `{PodLister S} `{MetaConditions} `{RangeOrder} `{JsonCodec} `{ApiErrors}.

Definition Validator_Status (namespace nodeName : string) (s : S) : res ValidationResult :=
  pods ← client_ListPods namespace validatorLabels s; Ok (validationOf pods nodeName).

(** ** internal/handler/validator.go, validator_conditions.go, validator_events.go *)

Definition conditionDriverReady : string := "DriverReady".
Definition reasonValidatorReady : string := "ValidatorReady".
Definition reasonValidatorNotReady : string := "ValidatorNotReady".
Definition reasonValidatorMissing : string := "ValidatorMissing".
Definition validatorHandlerName : string := "validator".
Definition labelVendor : string := "gpu.deckhouse.io/vendor".

Record Event := mkEvent { ev_Object : string; ev_Type : string; ev_Reason : string; ev_Message : string }.
Definition EventTypeNormal : string := "Normal".
Definition EventTypeWarning : string := "Warning".

(** The state of a reconcile: the wrapped object, the server, the events sent. *)
Record GpuState := mkGpuState {
  gs_resource : Resource PhysicalGPU;
  gs_server : S;
  gs_events : list Event;
}.

Record ValidatorHandler := mkValidatorHandler {
  vh_validator : option string;
  vh_recorder : bool;
}.

Definition driverReadyCondition (res : ValidationResult) (gen : Z) : Condition :=
  let driverReady := cb_Generation gen (NewConditionBuilder conditionDriverReady) in
  cb_Condition
    (if negb (vr_Present res) then
       cb_Message (vr_Message res) (cb_Reason reasonValidatorMissing (cb_Status ConditionUnknown driverReady))
     else if vr_Ready res then
       cb_Message "validator is ready" (cb_Reason reasonValidatorReady (cb_Status ConditionTrue driverReady))
     else cb_Message (vr_Message res) (cb_Reason reasonValidatorNotReady (cb_Status ConditionFalse driverReady))).

Definition recordDriverReadyEvent (recorder : bool) (obj : PhysicalGPU) (prev : option PhysicalGPU) : list Event :=
  if negb recorder then [] else
  match FindStatusCondition (st_Conditions (pg_Status obj)) conditionDriverReady with
  | None => []
  | Some newCond =>
      let oldCond := prev ≫= λ p, FindStatusCondition (st_Conditions (pg_Status p)) conditionDriverReady in
      let event := mkEvent (pg_Name obj)
        (if str_eqb (cond_Status newCond) ConditionTrue then EventTypeNormal else EventTypeWarning)
        (cond_Reason newCond) (cond_Message newCond) in
      match oldCond with
      | Some old =>
          if str_eqb (cond_Status old) (cond_Status newCond) && str_eqb (cond_Reason old) (cond_Reason newCond) &&
             str_eqb (cond_Message old) (cond_Message newCond)
          then [] else [event]
      | None => [event]
      end
  end.

Definition ValidatorHandle (now : Z) (h : ValidatorHandler) (st : GpuState) : (Result * option error) * GpuState :=
  match vh_validator h, rsc_current (gs_resource st), rsc_changed (gs_resource st) with
  | Some namespace, Some current, Some obj =>
      let nodeName := pg_NodeName obj in
      if str_eqb nodeName "" then ((zeroResult, None), st) else
      let changed obj' events := mkGpuState (mkResource (Some current) (Some obj')) (gs_server st) (gs_events st ++ events) in
      if negb (str_eqb (om_label (pg_Meta obj) labelVendor) "nvidia")
      then ((zeroResult, None), changed (set_Conditions (RemoveCondition conditionDriverReady (st_Conditions (pg_Status obj))) obj) [])
      else
      match Validator_Status namespace nodeName (gs_server st) with
      | Err e => ((zeroResult, Some e), st)
      | Ok res =>
          let mgr := NewManager (st_Conditions (pg_Status obj)) in
          let mgr := mgr_Update now (driverReadyCondition res (om_Generation (pg_Meta obj))) mgr in
          let obj' := set_Conditions (mgr_Generate mgr) obj in
          ((zeroResult, None), changed obj' (recordDriverReadyEvent (vh_recorder h) obj' (Some current)))
      end
  | _, _, _ => ((zeroResult, None), st)
  end.

(** ** reconciler.go *)

#[export] Instance PhysicalGPU_object : ResourceObject PhysicalGPU PhysicalGPUStatus := {|
  obj_Meta := pg_Meta;
  obj_SetMeta := set_Meta;
  obj_Status := pg_Status;
|}.

Definition gpuUpdate (st : GpuState) : option error * GpuState :=
  let '((err, r), s) := Update (gs_resource st) (gs_server st) in
  (err, mkGpuState r s (gs_events st)).

Definition GpuReconcile (now : Z) (handlers : list ValidatorHandler) (name : string) (s : S)
    : (Result * list error) * (S * list Event) :=
  match Fetch name s with
  | Err e => ((zeroResult, [e]), (s, []))
  | Ok physicalGPU =>
      if IsEmpty physicalGPU then ((zeroResult, []), (s, [])) else
      let rec := mkBaseReconciler handlers (Some gpuUpdate) (Some (ValidatorHandle now)) (λ _, None) in
      let '(out, st) := BaseReconcile rec (mkGpuState physicalGPU s []) in
      (out, (gs_server st, gs_events st))
  end.

(** setup.go: the only handler *)
Definition namespaceFromEnv (POD_NAMESPACE : string) : string :=
  if str_eqb POD_NAMESPACE "" then "d8-gpu-control-plane" else POD_NAMESPACE.
Definition setupHandlers (POD_NAMESPACE : string) : list ValidatorHandler :=
  [mkValidatorHandler (Some (namespaceFromEnv POD_NAMESPACE)) true].

(** ** internal/indexer, internal/watcher *)

Definition nodeIndex (pgpu : PhysicalGPU) : list string :=
  match st_NodeInfo (pg_Status pgpu) with
  | None => []
  | Some info => if str_eqb (ni_NodeName info) "" then [] else [ni_NodeName info]
  end.

(** A node that changes enqueues the GPUs the index has under its name. *)
Definition nodeEnqueueRequests (listByNode : string → res (list PhysicalGPU)) (nodeName : string) : list string :=
  if str_eqb nodeName "" then [] else
  match listByNode nodeName with
  | Err _ => []
  | Ok items => pg_Name <$> items
  end.

(** ** Lemmas *)

Lemma driverReadyCondition_type res gen : cond_Type (driverReadyCondition res gen) = conditionDriverReady.
Proof. unfold driverReadyCondition. by destruct (vr_Present res), (vr_Ready res). Qed.

(** What the validator says of a node, by the pods listed. *)
Lemma validationOf_spec pods nodeName : nodeName ≠ "" →
  let status := cond_Status (driverReadyCondition (validationOf pods nodeName) 0) in
  (status = ConditionTrue ↔ ∃ pod, pod ∈ pods ∧ pod_NodeName pod = nodeName ∧ podReady pod = true) ∧
  (status = ConditionUnknown ↔ pods = []) ∧
  (status = ConditionFalse ↔ pods ≠ [] ∧ ∀ pod, pod ∈ pods → pod_NodeName pod = nodeName → podReady pod = false).
Proof.
  intros Hn. unfold validationOf, filterPodsByNode.
  destruct pods as [|p pods]; cbn [list_len0]; [|set (l := p :: pods); assert (l ≠ []) as Hl by done; clearbody l].
  { split; [|split]; [split; [done|intros (pod & Hin & _); by apply not_elem_of_nil in Hin]|done|split; [done|by intros [? _]]]. }
  assert (str_eqb nodeName "" = false) as -> by (unfold str_eqb; by apply bool_decide_eq_false_2).
  assert (existsb podReady (filter (λ p0, pod_NodeName p0 = nodeName) l) = true ↔
    ∃ pod, pod ∈ l ∧ pod_NodeName pod = nodeName ∧ podReady pod = true) as Hex.
  { rewrite existsb_exists. setoid_rewrite <- list_elem_of_In. setoid_rewrite list_elem_of_filter. naive_solver. }
  assert (existsb podReady (filter (λ p0, pod_NodeName p0 = nodeName) l) = false ↔
    ∀ pod, pod ∈ l → pod_NodeName pod = nodeName → podReady pod = false) as Hnex.
  { rewrite <- not_true_iff_false, Hex. split.
    - intros Hx pod Hin Hnode. destruct (podReady pod) eqn:Hr; [|done]. destruct Hx. eauto.
    - intros Hx (pod & Hin & Hnode & Hr). rewrite Hx in Hr; done. }
  destruct (filter _ l) as [|q nodePods]; cbn [list_len0]; [|destruct (existsb _ _) eqn:He].
  - split; [rewrite <- Hex; done|]. split; [done|]. split; [|done]. intros _. split; [done|]. by apply Hnex.
  - split; [by rewrite <- Hex|]. split; [done|]. rewrite <- Hnex. split; [done|by intros [_ ?]].
  - split; [by rewrite <- Hex|]. split; [done|]. rewrite <- Hnex. done.
Qed.

(** The handler reports the validator pods: for an NVIDIA GPU on a known
    node the condition DriverReady becomes True exactly when one of the pods
    listed runs on that node and is ready, Unknown exactly when no pod was
    listed, and False exactly when there are pods and none on the node is ready;
    every other condition and every other field keeps its value, and nothing is
    written yet. *)
Theorem driver_ready_spec (now : Z) (h : ValidatorHandler) (st : GpuState) (current obj : PhysicalGPU) (namespace : string) (pods : list Pod) :
  vh_validator h = Some namespace → gs_resource st = mkResource (Some current) (Some obj) →
  pg_NodeName obj ≠ "" → om_label (pg_Meta obj) labelVendor = "nvidia" →
  client_ListPods namespace validatorLabels (gs_server st) = Ok pods →
  ∃ obj' c events, ValidatorHandle now h st
      = ((zeroResult, None), mkGpuState (mkResource (Some current) (Some obj')) (gs_server st) (gs_events st ++ events)) ∧
    FindStatusCondition (st_Conditions (pg_Status obj')) conditionDriverReady = Some c ∧
    (cond_Status c = ConditionTrue ↔ ∃ pod, pod ∈ pods ∧ pod_NodeName pod = pg_NodeName obj ∧ podReady pod = true) ∧
    (cond_Status c = ConditionUnknown ↔ pods = []) ∧
    (cond_Status c = ConditionFalse ↔
       pods ≠ [] ∧ ∀ pod, pod ∈ pods → pod_NodeName pod = pg_NodeName obj → podReady pod = false) ∧
    (∀ t, t ≠ conditionDriverReady →
       FindStatusCondition (st_Conditions (pg_Status obj')) t = FindStatusCondition (st_Conditions (pg_Status obj)) t) ∧
    obj' = set_Conditions (st_Conditions (pg_Status obj')) obj.
Proof.
  intros Hv Hr Hn Hvendor Hpods. unfold ValidatorHandle, Validator_Status. rewrite Hv, Hr. cbn [rsc_current rsc_changed]. rewrite Hvendor, Hpods.
  assert (str_eqb (pg_NodeName obj) "" = false) as -> by (unfold str_eqb; by apply bool_decide_eq_false_2). 
  change (negb (str_eqb "nvidia" "nvidia")) with false. cbn [mbind res_bind]. unfold mgr_Update, NewManager, mgr_Generate.
  set (cond := driverReadyCondition _ _). destruct (Find_Set now (st_Conditions (pg_Status obj)) cond) as (c & Hf & Hsame & _).
  assert (cond_Type cond = conditionDriverReady) as Ht by apply driverReadyCondition_type. rewrite Ht in Hf.
  assert (cond_Status c = cond_Status (driverReadyCondition (validationOf pods (pg_NodeName obj)) 0)) as Hstatus.
  { destruct Hsame as (_ & -> & _). unfold cond, driverReadyCondition. by destruct (vr_Present _), (vr_Ready _). }
  pose proof (validationOf_spec pods (pg_NodeName obj) Hn) as Hspec. cbv zeta in Hspec. rewrite <- Hstatus in Hspec.
  destruct Hspec as (Htrue & Hunknown & Hfalse).
  eexists _, c, _. split; [done|]. split; [done|]. split; [done|]. split; [done|]. split; [done|]. split; [|done].
  intros t Hne. apply Find_Set_other. by rewrite Ht.
Qed.

(** ** A second reconcile *)

(** An API server whose reads show the last write: an update of the status
    subresource stores the status, keeps the metadata and touches no pod. *)
Record fresh_server : Prop := {
  fs_get name s obj : client_Get name s = Ok obj → pg_Name obj = name;
  fs_update obj s obj' s' stored : client_Get (pg_Name obj) s = Ok stored → client_StatusUpdate obj s = (Ok obj', s') →
    client_Get (pg_Name obj) s' = Ok obj' ∧ pg_Status obj' = pg_Status obj ∧ pg_Meta obj' = pg_Meta stored;
  fs_pods obj s obj' s' namespace labels : client_StatusUpdate obj s = (Ok obj', s') →
    client_ListPods namespace labels s' = client_ListPods namespace labels s;
}.

(** What the handler makes of an object, and the events it sends. *)
Definition handled (now : Z) (h : ValidatorHandler) (s : S) (obj : PhysicalGPU) : (option error * PhysicalGPU) * list Event :=
  let '((_, err), st) := ValidatorHandle now h (mkGpuState (mkResource (Some obj) (Some obj)) s []) in
  ((err, default obj (rsc_changed (gs_resource st))), gs_events st).

Lemma ValidatorHandle_shape now h s obj err obj' events : handled now h s obj = ((err, obj'), events) →
  ValidatorHandle now h (mkGpuState (mkResource (Some obj) (Some obj)) s []) =
    ((zeroResult, err), mkGpuState (mkResource (Some obj) (Some obj')) s events) ∧ pg_Meta obj' = pg_Meta obj.
Proof.
  unfold handled, ValidatorHandle. cbn [rsc_current rsc_changed gs_resource gs_server gs_events].
  destruct (vh_validator h) as [namespace|]; [|by intros [= <- <- <-]].
  destruct (str_eqb _ ""); [by intros [= <- <- <-]|]. destruct (negb _); [by intros [= <- <- <-]|].
  destruct (Validator_Status _ _ _); by intros [= <- <- <-].
Qed.

(** Metadata the handler left alone needs no patch. *)
Lemma metadataPatch_same a b : om_Finalizers a = om_Finalizers b → om_Annotations a = om_Annotations b →
  om_Labels a = om_Labels b → metadataPatch a b = [].
Proof. intros Hf Ha Hl. unfold metadataPatch, maps_Equal. rewrite Hf, Ha, Hl, !bool_decide_eq_true_2 by done. done. Qed.

Lemma Update_status current changed s : pg_Meta changed = pg_Meta current →
  snd (Update (mkResource (Some current) (Some changed)) s) = snd (updateStatus current changed s) ∧
  fst (fst (Update (mkResource (Some current) (Some changed)) s)) =
    match fst (updateStatus current changed s) with Ok _ => None | Err e => Some e end.
Proof.
  intros Hm. unfold Update. cbn [rsc_current rsc_changed]. destruct (updateStatus current changed s) as [[changed1|e] s1] eqn:Hu; [|done].
  assert (metadataPatch (obj_Meta current) (obj_Meta changed1) = []) as Hp.
  { unfold updateStatus in Hu. destruct (bool_decide _); [injection Hu as <- <-; apply metadataPatch_same; simpl; congruence|].
    destruct (client_StatusUpdate changed s) as [[u|?] s']; [|done]. injection Hu as <- <-. apply metadataPatch_same; simpl; congruence. }
  unfold patchMetadata. by rewrite Hp.
Qed.

(** The result of a reconcile by one handler, from its error and the write. *)
Definition finished {A} (err : option error) (written : res A) : Result * list error :=
  let '((result, errs), _) := handleOutcome zeroResult [] zeroResult err in
  let '(result, uerr) := match written with
    | Ok _ => (result, None)
    | Err e =>
        if IsConflict e then (mkResult (Requeue result) 100000, None) else
        if noNewFinalizers e then (mkResult (Requeue result) 1000000000, None) else (result, Some e)
    end in
  let errs := errs ++ option_list uerr in
  if negb (list_len0 errs) then (zeroResult, errs) else (result, []).

Lemma GpuReconcile_one now h name s obj err obj' events : client_Get name s = Ok obj →
  handled now h s obj = ((err, obj'), events) →
  GpuReconcile now [h] name s =
    (finished err (fst (updateStatus obj obj' s)), (snd (updateStatus obj obj' s), events)).
Proof.
  intros Hget Hh. apply ValidatorHandle_shape in Hh as [Hh Hm]. unfold GpuReconcile, Fetch, FetchObject. rewrite Hget.
  cbn [mbind res_bind IsEmpty rsc_current]. unfold BaseReconcile, runHandlers. cbn [br_update br_execute br_handlers br_finalizer handlersLoop].
  rewrite Hh. unfold finished. destruct (Update_status obj obj' s Hm) as [Hs He].
  destruct (handleOutcome zeroResult [] zeroResult err) as [[result errs] stop]. unfold updateResource, gpuUpdate.
  destruct stop; cbn [gs_resource gs_server gs_events];
    destruct (Update (mkResource (Some obj) (Some obj')) s) as [[uerr r] s']; cbn [fst snd] in Hs, He; subst uerr s';
    (destruct (fst (updateStatus obj obj' s)) as [u|e]; [|destruct (IsConflict e); [|destruct (noNewFinalizers e)]]);
    by destruct (negb _).
Qed.

Lemma set_Conditions_NodeName cs obj : pg_NodeName (set_Conditions cs obj) = pg_NodeName obj.
Proof. reflexivity. Qed.
Lemma set_Conditions_Meta cs obj : pg_Meta (set_Conditions cs obj) = pg_Meta obj.
Proof. reflexivity. Qed.
Lemma set_Conditions_Conditions cs obj : st_Conditions (pg_Status (set_Conditions cs obj)) = cs.
Proof. reflexivity. Qed.
Lemma set_Conditions_idem cs obj : set_Conditions cs (set_Conditions cs obj) = set_Conditions cs obj.
Proof. reflexivity. Qed.

(** Handling what a previous reconcile wrote changes nothing. *)
Lemma handled_again now now' h s s1 obj obj' events obj1 : handled now h s obj = ((None, obj'), events) →
  pg_Status obj1 = pg_Status obj' → pg_Meta obj1 = pg_Meta obj →
  (∀ namespace labels, client_ListPods namespace labels s1 = client_ListPods namespace labels s) →
  handled now' h s1 obj1 = ((None, obj1), []).
Proof.
  intros Hh Hst Hmeta Hpods. assert (pg_Meta obj' = pg_Meta obj) as Hm by (by apply ValidatorHandle_shape in Hh as [_ ?]).
  assert (obj1 = obj') as -> by (destruct obj1, obj'; simpl in *; congruence). clear Hst Hmeta.
  revert Hh. unfold handled, ValidatorHandle, Validator_Status. cbn [rsc_current rsc_changed gs_resource gs_server gs_events].
  destruct (vh_validator h) as [namespace|]; [|done]. rewrite Hpods.
  destruct (str_eqb (pg_NodeName obj) "") eqn:Hn; [intros [= <- <-]; by rewrite Hn|].
  destruct (negb (str_eqb (om_label (pg_Meta obj) labelVendor) "nvidia")) eqn:Hv.
  - intros [= <- <-]. rewrite set_Conditions_NodeName, set_Conditions_Meta, set_Conditions_Conditions, Hn, Hv.
    unfold RemoveCondition. rewrite (Remove_absent (RemoveStatusCondition _ _)); [done|].
    rewrite Find_Remove. unfold str_eqb. by rewrite bool_decide_eq_true_2.
  - destruct (client_ListPods namespace validatorLabels s) as [pods|e]; cbn [mbind res_bind]; [|done]. intros [= <- <-].
    rewrite set_Conditions_NodeName, set_Conditions_Meta, set_Conditions_Conditions, Hn, Hv.
    unfold mgr_Update, NewManager, mgr_Generate. set (cond := driverReadyCondition _ _).
    destruct (Find_Set now (st_Conditions (pg_Status obj)) cond) as (c & Hf & Hsame & _).
    rewrite (Set_same now' (SetStatusCondition now _ cond) cond c), set_Conditions_idem by done. cbn -[recordDriverReadyEvent set_Conditions].
    f_equal. unfold recordDriverReadyEvent.
    rewrite (driverReadyCondition_type _ _ : cond_Type cond = _) in Hf.
    rewrite set_Conditions_Conditions, Hf. cbn [mbind option_bind]. rewrite set_Conditions_Conditions, Hf.
    unfold str_eqb. rewrite !bool_decide_eq_true_2 by done. by destruct (vh_recorder h).
Qed.

(** An error of the client leaves the object alone. *)
Lemma handled_error now h s obj e obj' events : handled now h s obj = ((Some e, obj'), events) →
  obj' = obj ∧ ∀ now', handled now' h s obj = ((Some e, obj), []).
Proof.
  unfold handled, ValidatorHandle. cbn [rsc_current rsc_changed gs_resource gs_server gs_events].
  destruct (vh_validator h) as [namespace|]; [|done]. destruct (str_eqb _ ""); [done|]. destruct (negb _); [done|].
  destruct (Validator_Status _ _ _); [done|]. by intros [= <- <- <-].
Qed.

Lemma finished_Err {A} err e : finished (A:=A) err (Err e) ≠ (zeroResult, []).
Proof.
  unfold finished. destruct (handleOutcome zeroResult [] zeroResult err) as [[result errs] stop].
  destruct (IsConflict e); [|destruct (noNewFinalizers e)]; cbn [option_list]; rewrite ?app_nil_r;
    destruct errs; cbn; try done; unfold zeroResult; congruence.
Qed.

(** C12: the controller comes to rest: when a reconcile of a GPU ended without
    an error and without asking to be repeated, the next one, at any later time
    and with the same pods, writes nothing, sends no event and asks for nothing,
    whichever branch the GPU takes. *)
Theorem reconcile_quiesces (now now' : Z) (h : ValidatorHandler) (name : string) (s s1 : S) (events : list Event) :
  fresh_server → GpuReconcile now [h] name s = ((zeroResult, []), (s1, events)) →
  GpuReconcile now' [h] name s1 = ((zeroResult, []), (s1, [])).
Proof.
  intros Hserver Hrec. destruct (client_Get name s) as [obj|e] eqn:Hget.
  2:{ unfold GpuReconcile, Fetch, FetchObject in *. rewrite Hget in Hrec. destruct (client_IsNotFound e) eqn:Hnf; [|done].
      cbn in Hrec. injection Hrec as <- <-. rewrite Hget, Hnf. done. }
  destruct (handled now h s obj) as [[err obj'] events'] eqn:Hh. rewrite (GpuReconcile_one _ _ _ _ _ _ _ _ Hget Hh) in Hrec.
  injection Hrec as Hfin Hs <-. pose proof (ValidatorHandle_shape _ _ _ _ _ _ _ Hh) as [_ Hm].
  assert (∀ (s2 : S) (obj2 : PhysicalGPU), client_Get name s2 = Ok obj2 →
    (∃ err', handled now' h s2 obj2 = ((err', obj2), []) ∧ (err' = None ∨ err' = err ∧ finished err (Ok obj2) = (zeroResult, []))) →
    GpuReconcile now' [h] name s2 = ((zeroResult, []), (s2, []))) as Hrest.
  { intros s2 obj2 Hg (err' & Hh' & Herr). rewrite (GpuReconcile_one _ _ _ _ _ _ _ _ Hg Hh'). unfold updateStatus.
    rewrite bool_decide_eq_true_2 by done. cbn [fst snd]. destruct Herr as [-> | [-> ->]]; done. }
  unfold updateStatus in Hfin, Hs. cbn [obj_Status PhysicalGPU_object] in Hfin, Hs.
  destruct (bool_decide_reflect (pg_Status obj = pg_Status obj')) as [Heq|Hne]; cbn [fst snd] in Hfin, Hs.
  - subst s1. apply (Hrest s obj Hget). destruct err as [e|].
    + apply handled_error in Hh as [_ Hh]. eexists. split; [apply Hh|]. right. split; [done|exact Hfin].
    + eexists. split; [by apply (handled_again now now' h s s obj obj' events' obj Hh)|]. by left.
  - destruct err as [e|]; [by apply handled_error in Hh as [-> _]|].
    destruct (client_StatusUpdate obj' s) as [[u|e] s'] eqn:Hu; cbn [fst snd] in Hfin, Hs; [|by apply finished_Err in Hfin]. subst s'.
    assert (pg_Name obj' = name) as Hname by (unfold pg_Name; rewrite Hm; by eapply fs_get).
    destruct (fs_update Hserver obj' s u s1 obj) as (Hg & Hst & Hmeta); [congruence|done|]. rewrite Hname in Hg.
    apply (Hrest s1 u Hg). eexists. split; [|by left]. apply (handled_again now now' h s s1 obj obj' events' u Hh); [done..|].
    intros namespace labels. by eapply fs_pods.
Qed.
End Controller.
