(* ===== verification/NodeAgent.v ===== *)
(** * The node agent: pkg/nodeagent

    A sync scans the PCI bus, creates or updates one PhysicalGPU object per GPU
    and deletes the objects of devices that are gone.  Handlers run as steps of
    [Effects.Run] over the state of the sync and the API server; the events sent
    are the trace.

    Go maps and pointers are shared: [ensureLabels] writes into the map of the
    object it was given, and [buildCurrentState] into the struct the object
    points to, before the object is copied as the base of the patch.  The
    definitions return the object as it is after such a write. *)

From S2P Require Import Prelude GoLib DeviceModel Effects GpuApi GpuStore SysInfo PhysicalGpu.

(** ** internal/state *)

Record NodeDevice := mkNodeDevice {
  nd_Address : string;
  nd_ClassCode : string;
  nd_ClassName : string;
  nd_Index : string;
  nd_VendorID : string;
  nd_VendorName : string;
  nd_DeviceID : string;
  nd_DeviceName : string;
  nd_DriverName : string;
}.

Definition LabelNode : string := "gpu.deckhouse.io/node".
Definition LabelVendor : string := "gpu.deckhouse.io/vendor".
Definition LabelDevice : string := "gpu.deckhouse.io/device".

Definition VendorLabel (dev : NodeDevice) : string :=
  let id := ToLower (nd_VendorID dev) in
  if str_eqb id "10de" then "nvidia" else if str_eqb id "1002" then "amd" else if str_eqb id "8086" then "intel" else
  let name := ToLower (nd_VendorName dev) in
  if Contains name "nvidia" then "nvidia" else
  if Contains name "advanced micro devices" || Contains name "amd" then "amd" else
  if Contains name "intel" then "intel" else "".

Definition normalizeNodeLabel (value : string) : string :=
  let value := ToLower (TrimSpace value) in
  if str_eqb value "" then "" else TrimDash (sanitizeLoop false value).

(** The text in the first pair of brackets, when it is not blank. *)
Definition DeviceLabel (deviceName : string) : string :=
  let deviceName := TrimSpace deviceName in
  if str_eqb deviceName "" then "" else
  let deviceName := match cut "[" deviceName with
    | Some (_, rest) =>
        match cut "]" rest with
        | Some (inner, _) => let candidate := TrimSpace inner in if str_eqb candidate "" then deviceName else candidate
        | None => deviceName
        end
    | None => deviceName
    end in
  normalizeNodeLabel deviceName.

Definition LabelsForDevice (nodeName : string) (dev : NodeDevice) : gmap string string :=
  let labels := {[ LabelNode := nodeName ]} in
  let labels := if str_eqb (VendorLabel dev) "" then labels else <[LabelVendor := VendorLabel dev]> labels in
  if str_eqb (DeviceLabel (nd_DeviceName dev)) "" then labels else <[LabelDevice := DeviceLabel (nd_DeviceName dev)]> labels.

Definition maxNameLength : nat := 253.

Definition sanitizeName (name : string) : string := normalizeNodeLabel name.

Definition truncateName (name : string) (limit : nat) : string :=
  if (limit =? 0)%nat then "" else
  if (String.length name <=? limit)%nat then name else TrimDash (str_take limit name).

Definition PhysicalGPUName (nodeName : string) (dev : NodeDevice) : string :=
  let index := if str_eqb (nd_Index dev) "" then "0" else nd_Index dev in
  let part id := if str_eqb id "" then [] else [ToLower id] in
  let parts := [nodeName; index] ++ part (nd_VendorID dev) ++ part (nd_DeviceID dev) in
  let name := sanitizeName (Join parts "-") in
  if str_eqb name "" then "pgpu" else
  if (maxNameLength <? String.length name)%nat then
    let name := truncateName name maxNameLength in if str_eqb name "" then "pgpu" else name
  else name.

Record NodeState := mkNodeState {
  ns_nodeName : string;
  ns_nodeInfo : option NodeInfo;
  ns_devices : list NodeDevice;
  ns_expected : gmap string NodeDevice;
}.

Definition NewState (nodeName : string) : NodeState := mkNodeState nodeName None [] ∅.
Definition SetNodeInfo (info : option NodeInfo) (st : NodeState) : NodeState :=
  mkNodeState (ns_nodeName st) info (ns_devices st) (ns_expected st).
(** A later device takes the place of an earlier one of the same name. *)
Definition SetDevices (devices : list NodeDevice) (st : NodeState) : NodeState :=
  mkNodeState (ns_nodeName st) (ns_nodeInfo st) devices
    (foldl (λ expected dev, <[PhysicalGPUName (ns_nodeName st) dev := dev]> expected) ∅ devices).

(** ** internal/service/pci.go *)

Definition nvidiaVendorID : string := "10de".
Definition isGPUClass (classCode : string) : bool := HasPrefix (ToLower classCode) "03".

Definition scannedDevice (resolver : option Resolver) (raw : PciDevice) : option NodeDevice :=
  if negb (isGPUClass (pd_ClassCode raw)) then None else
  if negb (str_eqb (pd_VendorID raw) nvidiaVendorID) then None else
  Some (mkNodeDevice (pd_Address raw) (pd_ClassCode raw) (ClassName resolver (pd_ClassCode raw)) ""
    (pd_VendorID raw) (VendorName resolver (pd_VendorID raw))
    (pd_DeviceID raw) (ResolvedDeviceName resolver (pd_VendorID raw) (pd_DeviceID raw)) (pd_DriverName raw)).

Definition withIndex (i : nat) (dev : NodeDevice) : NodeDevice :=
  mkNodeDevice (nd_Address dev) (nd_ClassCode dev) (nd_ClassName dev) (Itoa (Z.of_nat i)) (nd_VendorID dev) (nd_VendorName dev)
    (nd_DeviceID dev) (nd_DeviceName dev) (nd_DriverName dev).

Definition Scan `{GoSort} (resolver : option Resolver) (listed : res (list PciDevice)) : res (list NodeDevice) :=
  match listed with
  | Err e => Err (Wrapf "list pci devices: %w" [] e)
  | Ok rawDevices =>
      let devices := omap (scannedDevice resolver) rawDevices in
      Ok (imap withIndex (sort_Slice (λ a b, str_ltb (nd_Address a) (nd_Address b)) devices))
  end.

(** ** internal/handler *)

Definition ErrStopChain : error := Errorf "stop handler chain" [].
(** The cause goes into the text with [%v], so only the sentinel is wrapped. *)
Definition StopHandlerChain (text : error → string) (err : error) : error :=
  if errorsIs err ErrStopChain then err else Wrapf "%w: %v" [text err] ErrStopChain.

Section Agent.
Context {S : Type} `{GpuClient S} `{GoSort}.

Record AgentState := mkAgentState { as_node : NodeState; as_server : S }.
Abbreviation Agent := (M Event AgentState).

(** Calls of the client: a read, and a write with its answer. *)
Definition reads {A} (f : S → res A) : Agent A := λ s h, (f (as_server s), (s, h)).
Definition writes {A} (f : S → res A * S) : Agent A := λ s h,
  let '(r, server) := f (as_server s) in (r, (mkAgentState (as_node s) server, h)).

(** *** internal/service/store.go *)

Definition store_Get (name : string) : Agent PhysicalGPU := reads (gc_Get name).
Definition store_Create (obj : PhysicalGPU) : Agent PhysicalGPU := writes (gc_Create obj).
Definition store_Patch (obj base : PhysicalGPU) : Agent PhysicalGPU := writes (gc_Patch obj base).
Definition store_PatchStatus (obj base : PhysicalGPU) : Agent PhysicalGPU := writes (gc_PatchStatus obj base).
Definition store_ListByNode (nodeName : string) : Agent (list PhysicalGPU) := reads (gc_List {[ LabelNode := nodeName ]}).
Definition store_Delete (obj : PhysicalGPU) : Agent () := writes (λ s,
  let '(err, s') := gc_Delete obj s in (match err with Some e => Err e | None => Ok () end, s')).

(** *** internal/builder *)

Definition NewPhysicalGPU (name : string) : PhysicalGPU :=
  mkPhysicalGPU (mkObjectMeta name [] None None 0 None) emptyStatus.
Definition SetLabels (labels : gmap string string) (obj : PhysicalGPU) : PhysicalGPU :=
  let m := pg_Meta obj in
  set_Meta (mkObjectMeta (om_Name m) (om_Finalizers m) (om_Annotations m) (Some labels) (om_Generation m) (om_DeletionTimestamp m)) obj.

(** *** internal/handler/discover *)

Definition DiscoverHandle (scan : res (list NodeDevice)) (hostInfo : option NodeInfo) : Agent () :=
  st ← get;
  if str_eqb (ns_nodeName (as_node st)) "" then fail (StopHandlerChain gc_ErrorText (Errorf "node name is empty" [])) else
  devices ← wrapErr (StopHandlerChain gc_ErrorText) (liftR scan);
  modify (λ st, mkAgentState (SetNodeInfo hostInfo (SetDevices devices (as_node st))) (as_server st)).

(** *** internal/handler/apply *)

Definition driverTypeFromName (name : string) : string :=
  let name := ToLower name in
  if str_eqb name "nvidia" then DriverTypeNvidia else
  if str_eqb name "vfio-pci" then DriverTypeVFIO else
  if str_eqb name "amdgpu" then DriverTypeROCm else "".

Definition buildPCIInfo (dev : NodeDevice) : PCIInfo :=
  let unless_blank {A} (a b : string) (x : A) := if str_eqb a "" && str_eqb b "" then None else Some x in
  mkPCIInfo (nd_Address dev)
    (unless_blank (nd_ClassCode dev) (nd_ClassName dev) (mkPCIClass (nd_ClassCode dev) (nd_ClassName dev)))
    (unless_blank (nd_VendorID dev) (nd_VendorName dev) (mkPCIVendor (nd_VendorID dev) (nd_VendorName dev)))
    (unless_blank (nd_DeviceID dev) (nd_DeviceName dev) (mkPCIDevice (nd_DeviceID dev) (nd_DeviceName dev))).

Definition buildCurrentState (existing : option GPUCurrentState) (driverName : string) : option GPUCurrentState :=
  let driverType := driverTypeFromName driverName in
  match existing with
  | None => if str_eqb driverType "" then None else Some (mkCurrentState driverType None)
  | Some current => Some (if str_eqb driverType "" then current else mkCurrentState driverType (gcs_Nvidia current))
  end.

Definition set_CurrentState (cs : option GPUCurrentState) (obj : PhysicalGPU) : PhysicalGPU :=
  let st := pg_Status obj in
  set_Status (mkStatus (st_NodeInfo st) (st_PCIInfo st) (st_Capabilities st) (st_Conditions st) cs) obj.

(** The status, and the object after the write through its [CurrentState]. *)
Definition buildStatus (obj : PhysicalGPU) (dev : NodeDevice) (nodeName : string) (nodeInfo : option NodeInfo)
    : PhysicalGPUStatus * PhysicalGPU :=
  let nodeInfo := default (mkNodeInfo "" None "" None) nodeInfo in
  let nodeInfo := mkNodeInfo nodeName (ni_OS nodeInfo) (ni_KernelRelease nodeInfo) (ni_BareMetal nodeInfo) in
  let status := pg_Status obj in
  let current := buildCurrentState (st_CurrentState status) (nd_DriverName dev) in
  (mkStatus (Some nodeInfo) (Some (buildPCIInfo dev)) (st_Capabilities status) (st_Conditions status) current,
   match st_CurrentState status with Some _ => set_CurrentState current obj | None => obj end).

(** The patch of the labels, when one is needed: the object and its base.  A
    map the object has is the one that was written to. *)
Definition labelsPatch (obj : PhysicalGPU) (nodeName : string) (dev : NodeDevice) : option (PhysicalGPU * PhysicalGPU) :=
  let desired := LabelsForDevice nodeName dev in
  let labels := pg_Labels obj in
  let differ kv := default "" (labels !! fst kv) ≠ snd kv in
  let written := filter differ desired ∪ labels in
  if negb (range_any (λ key value, negb (str_eqb (default "" (labels !! key)) value)) desired) then None else
  match om_Labels (pg_Meta obj) with
  | Some _ => let obj := SetLabels written obj in Some (obj, obj)
  | None => Some (SetLabels written obj, obj)
  end.

Definition ensureLabels (obj : PhysicalGPU) (nodeName : string) (dev : NodeDevice) : Agent PhysicalGPU :=
  match labelsPatch obj nodeName dev with
  | None => mret obj
  | Some (obj, patchBase) => store_Patch obj patchBase
  end.

Definition reasonPhysicalGPUCreated : string := "PhysicalGPUCreated".
Definition reasonPhysicalGPULabelUpdateFailed : string := "PhysicalGPULabelUpdateFailed".
Definition reasonPhysicalGPUStatusUpdateFailed : string := "PhysicalGPUStatusUpdateFailed".

(** The object found or created, and whether it was created. *)
Definition obtainDevice (recorder : bool) (name nodeName : string) (dev : NodeDevice) : Agent (PhysicalGPU * bool) :=
  got ← try (store_Get name);
  match got with
  | Err e =>
      if negb (gc_IsNotFound e) then fail (Wrapf "get PhysicalGPU: %w" [] e) else
      obj ← wrapErr (Wrapf "create PhysicalGPU: %w" [])
        (store_Create (SetLabels (LabelsForDevice nodeName dev) (NewPhysicalGPU name)));
      mret (obj, true)
  | Ok obj =>
      labelled ← try (ensureLabels obj nodeName dev);
      match labelled with
      | Ok obj => mret (obj, false)
      | Err e =>
          _ ← emit recorder (mkEvent (pg_Name obj) EventTypeWarning reasonPhysicalGPULabelUpdateFailed
                ("PhysicalGPU labels update failed: " +:+ gc_ErrorText e));
          fail (Wrapf "update PhysicalGPU labels: %w" [] e)
      end
  end.

Definition applyDevice (recorder : bool) (name nodeName : string) (dev : NodeDevice) (nodeInfo : option NodeInfo) : Agent () :=
  obtained ← obtainDevice recorder name nodeName dev;
  let '(obj, created) := (obtained : PhysicalGPU * bool) in
  let '(desiredStatus, patchBase) := buildStatus obj dev nodeName nodeInfo in
  let obj := set_Status desiredStatus patchBase in
  patched ← try (store_PatchStatus obj patchBase);
  match patched with
  | Err e =>
      _ ← emit recorder (mkEvent (pg_Name obj) EventTypeWarning reasonPhysicalGPUStatusUpdateFailed
            ("PhysicalGPU status update failed: " +:+ gc_ErrorText e));
      fail (Wrapf "patch PhysicalGPU status: %w" [] e)
  | Ok obj =>
      if created
      then emit recorder (mkEvent (pg_Name obj) EventTypeNormal reasonPhysicalGPUCreated "PhysicalGPU created from PCI scan")
      else mret ()
  end.

Definition ApplyHandle (recorder : bool) : Agent () :=
  st ← get;
  let node := as_node st in
  errs ← collectErrors (λ dev,
    let name := PhysicalGPUName (ns_nodeName node) dev in
    wrapErr (Wrapf "%s: %w" [name]) (applyDevice recorder name (ns_nodeName node) dev (ns_nodeInfo node))) (ns_devices node);
  if list_len0 errs then mret () else fail (joinErrors gc_ErrorText errs).

(** *** internal/handler/cleanup *)

Definition reasonPhysicalGPUDeleted : string := "PhysicalGPUDeleted".
Definition reasonPhysicalGPUDeleteFailed : string := "PhysicalGPUDeleteFailed".

Definition cleanupObject (recorder : bool) (expected : gmap string NodeDevice) (obj : PhysicalGPU) : Agent () :=
  match expected !! pg_Name obj with
  | Some _ => mret ()
  | None =>
      deleted ← try (store_Delete obj);
      match deleted with
      | Err e =>
          if gc_IsNotFound e
          then emit recorder (mkEvent (pg_Name obj) EventTypeNormal reasonPhysicalGPUDeleted "PhysicalGPU removed from PCI scan")
          else
            _ ← emit recorder (mkEvent (pg_Name obj) EventTypeWarning reasonPhysicalGPUDeleteFailed
                  ("PhysicalGPU delete failed: " +:+ gc_ErrorText e));
            fail (Wrapf "delete %s: %w" [pg_Name obj] e)
      | Ok _ => emit recorder (mkEvent (pg_Name obj) EventTypeNormal reasonPhysicalGPUDeleted "PhysicalGPU removed from PCI scan")
      end
  end.

Definition CleanupHandle (recorder : bool) : Agent () :=
  st ← get;
  items ← wrapErr (Wrapf "list PhysicalGPU: %w" []) (store_ListByNode (ns_nodeName (as_node st)));
  errs ← collectErrors (cleanupObject recorder (ns_expected (as_node st))) items;
  if list_len0 errs then mret () else fail (joinErrors gc_ErrorText errs).

(** *** internal/handler/steps.go: an error that stops the chain ends the sync *)

Definition agentStep (name : string) (handle : Agent ()) : StepTaker Event AgentState := λ s h,
  match handle s h with
  | (Ok _, sh) => (Ok None, sh)
  | (Err e, sh) => if errorsIs e ErrStopChain then (Ok (Some ()), sh) else (Err (Wrapf "%s: %w" [name] e), sh)
  end.
Definition NewSteps (handlers : list (string * Agent ())) : list (StepTaker Event AgentState) :=
  ((λ '(name, handle), agentStep name handle) <$> handlers) ++ [final].

(** ** bootstrap.go, run.go *)

Definition agentSteps (recorder : bool) (scan : res (list NodeDevice)) (hostInfo : option NodeInfo) : list (StepTaker Event AgentState) :=
  NewSteps [("Discover", DiscoverHandle scan hostInfo); ("Apply", ApplyHandle recorder); ("Cleanup", CleanupHandle recorder)].

(** One sync: the error it ends with, the server after it, the events. *)
Definition agentSync (recorder : bool) (nodeName : string) (scan : res (list NodeDevice)) (hostInfo : option NodeInfo) (server : S)
    : option error * S * list Event :=
  let '(r, (st, events)) := Run (agentSteps recorder scan hostInfo) (mkAgentState (NewState nodeName) server) [] in
  (match r with Err e => Some e | Ok _ => None end, as_server st, events).
End Agent.
