(* ===== verification/NodeAgentSpec.v ===== *)
(** * The node agent: theorems

    Names of PhysicalGPU objects identify the node and the device; a sync makes
    the objects of a node be those of its devices; labels and driver type of an
    object that exists are not updated. *)

From S2P Require Import Prelude GoLib DeviceModel Effects GpuApi GpuStore OsFiles SysInfo PhysicalGpu NodeAgent.

From Stdlib Require Import Ascii.

(** ** Names *)

Abbreviation not_label := (λ c, negb (is_label_char c)).

(** A node name that is written as it is: lower-case letters, digits and single
    dashes between them. *)
Definition plain_node (n : string) : Prop :=
  sanitizeLoop false n = n ∧ starts_without not_label n = true ∧ ends_without not_label n = true.

(** A part of a name: letters and digits, at least one. *)
Definition plain_part (s : string) : Prop := s ≠ "" ∧ all_chars is_label_char s = true.

Lemma plain_part_free s : plain_part s → free_of "-"%char s = true.
Proof.
  intros [_ Hs]. eapply all_chars_weaken; [|exact Hs]. intros c Hc. apply is_label_char_cases in Hc as (_ & _ & Hd).
  unfold is_dash in Hd. by rewrite Hd.
Qed.

Lemma plain_part_lower s : plain_part s → ToLower s = s.
Proof.
  intros [_ Hs]. apply ToLower_id. eapply all_chars_weaken; [|exact Hs]. intros c Hc.
  apply is_label_char_cases in Hc as (-> & _ & _). done.
Qed.

Lemma starts_without_weaken (p q : ascii → bool) s : (∀ c, q c = true → p c = true) →
  starts_without p s = true → starts_without q s = true.
Proof. intros Hpq. destruct s as [|c s]; [done|]. simpl. rewrite !negb_true_iff. specialize (Hpq c). destruct (q c); naive_solver. Qed.

Lemma space_not_label c : is_space c = true → not_label c = true.
Proof. cbv beta. destruct (is_label_char c) eqn:Hc; [|done]. apply is_label_char_cases in Hc as (_ & -> & _). done. Qed.
Lemma dash_not_label c : bool_decide (c = "-"%char) = true → not_label c = true.
Proof. intros ->%bool_decide_eq_true. done. Qed.

Lemma plain_part_ends s : plain_part s → ends_without not_label s = true.
Proof.
  intros [Hne Hs]. induction s as [|c s IH]; [done|]. simpl in *. apply andb_true_iff in Hs as [Hc Hs].
  destruct s as [|c' s]; [by rewrite negb_involutive|]. by apply IH.
Qed.

Lemma str_app_nil_r (s : string) : s +:+ "" = s.
Proof. induction s as [|c s IH]; [done|]. by rewrite str_app_cons, IH. Qed.

Lemma sanitize_part b s t : plain_part s → sanitizeLoop b (s +:+ t) = s +:+ sanitizeLoop false t.
Proof. intros Hs. rewrite sanitizeLoop_app, sanitizeLoop_id by first [by apply plain_part_ends | apply Hs]. done. Qed.

Lemma sanitize_dash_part s t : plain_part s → sanitizeLoop false (String "-" (s +:+ t)) = String "-" (s +:+ sanitizeLoop false t).
Proof. intros Hs. simpl. by rewrite sanitize_part. Qed.

(** The name before it is checked for its length. *)
Definition rawName (n i v d : string) : string := n +:+ String "-" (i +:+ String "-" (v +:+ String "-" d)).

Lemma name_char_not_upper c : is_name_char c = true → is_upper c = false.
Proof.
  unfold is_name_char. intros [Hc|Hc]%orb_true_iff; [by apply is_label_char_cases in Hc as (? & _)|].
  apply bool_decide_eq_true in Hc as ->. done.
Qed.

Lemma rawName_normal n i v d : plain_node n → plain_part i → plain_part v → plain_part d →
  normalizeNodeLabel (rawName n i v d) = rawName n i v d.
Proof.
  intros (Hn & Hs & He) Hi Hv Hd. unfold normalizeNodeLabel, rawName. set (t := String "-" _).
  assert (starts_without not_label (n +:+ t) = true) as Hstart by (by destruct n).
  assert (ends_without not_label (n +:+ t) = true) as Hend.
  { apply ends_without_app. unfold t. apply (ends_without_app _ (String "-" i)), (ends_without_app _ (String "-" v)), (ends_without_app _ "-").
    by apply plain_part_ends. }
  assert (sanitizeLoop false (n +:+ t) = n +:+ t) as Hsan.
  { rewrite sanitizeLoop_app, Hn by done. f_equal. unfold t. rewrite !sanitize_dash_part by done.
    do 4 f_equal. rewrite <- (str_app_nil_r d) at 1. rewrite sanitize_dash_part by done. by rewrite str_app_nil_r. }
  assert (TrimSpace (n +:+ t) = n +:+ t) as ->.
  { apply TrimFunc_id; [apply (starts_without_weaken not_label)|apply (ends_without_weaken not_label)]; auto using space_not_label. }
  rewrite ToLower_id.
  2:{ rewrite <- Hsan. eapply all_chars_weaken; [|apply sanitizeLoop_chars]. intros c Hc. by rewrite name_char_not_upper. }
  assert (str_eqb (n +:+ t) "" = false) as -> by (unfold str_eqb; apply bool_decide_eq_false; by destruct n).
  rewrite Hsan. apply TrimFunc_id; [apply (starts_without_weaken not_label)|apply (ends_without_weaken not_label)]; auto using dash_not_label.
Qed.

(** A device as the scan makes it, on a node whose name leaves room. *)
Definition nameable (n : string) (dev : NodeDevice) : Prop :=
  plain_node n ∧ plain_part (nd_Index dev) ∧ plain_part (nd_VendorID dev) ∧ plain_part (nd_DeviceID dev) ∧
  (String.length (rawName n (nd_Index dev) (nd_VendorID dev) (nd_DeviceID dev)) ≤ maxNameLength)%nat.

Lemma PhysicalGPUName_raw n dev : nameable n dev →
  PhysicalGPUName n dev = rawName n (nd_Index dev) (nd_VendorID dev) (nd_DeviceID dev).
Proof.
  intros (Hn & Hi & Hv & Hd & Hlen). unfold PhysicalGPUName.
  assert (∀ s, plain_part s → str_eqb s "" = false) as Hne by (intros s [? _]; unfold str_eqb; by apply bool_decide_eq_false).
  rewrite (Hne (nd_Index dev)), (Hne (nd_VendorID dev)), (Hne (nd_DeviceID dev)), !plain_part_lower by done.
  change (Join ([n; nd_Index dev] ++ [nd_VendorID dev] ++ [nd_DeviceID dev]) "-")
    with (rawName n (nd_Index dev) (nd_VendorID dev) (nd_DeviceID dev)).
  unfold sanitizeName. rewrite rawName_normal by done.
  assert (str_eqb (rawName n (nd_Index dev) (nd_VendorID dev) (nd_DeviceID dev)) "" = false) as ->.
  { destruct Hn as (_ & Hs & _). unfold str_eqb. apply bool_decide_eq_false. unfold rawName. by destruct n. }
  destruct (Nat.ltb_spec maxNameLength (String.length (rawName n (nd_Index dev) (nd_VendorID dev) (nd_DeviceID dev)))); [lia|done].
Qed.

Lemma last_part_inj (a b x y : string) : plain_part x → plain_part y → a +:+ String "-" x = b +:+ String "-" y → a = b ∧ x = y.
Proof.
  intros Hx Hy Heq. pose proof (cut_last_app "-" a x (plain_part_free _ Hx)) as Hc. rewrite Heq, cut_last_app in Hc by by apply plain_part_free.
  by injection Hc.
Qed.

Lemma name_identifies n n' dev dev' : nameable n dev → nameable n' dev' →
  PhysicalGPUName n dev = PhysicalGPUName n' dev' →
  n = n' ∧ nd_Index dev = nd_Index dev' ∧ nd_VendorID dev = nd_VendorID dev' ∧ nd_DeviceID dev = nd_DeviceID dev'.
Proof.
  intros H1 H2. rewrite !PhysicalGPUName_raw by done. destruct H1 as (_ & Hi & Hv & Hd & _), H2 as (_ & Hi' & Hv' & Hd' & _).
  unfold rawName. intros Heq.
  assert (∀ a i v d, a +:+ String "-" (i +:+ String "-" (v +:+ String "-" d))
    = (((a +:+ String "-" i) +:+ String "-" v) +:+ String "-" d)) as Hassoc.
  { intros. by rewrite !str_app_assoc, !str_app_cons. }
  rewrite !Hassoc in Heq. apply last_part_inj in Heq as [Heq ->]; [|done..]. apply last_part_inj in Heq as [Heq ->]; [|done..].
  by apply last_part_inj in Heq as [-> ->].
Qed.

(** Object names identify devices: two devices of nodes with plain names
    that get the same object name are on the same node and have the same place
    in its list of devices, and the same PCI identifiers. *)
Theorem PhysicalGPUName_identifies (n n' : string) (dev dev' : NodeDevice) : nameable n dev → nameable n' dev' →
  PhysicalGPUName n dev = PhysicalGPUName n' dev' →
  n = n' ∧ nd_Index dev = nd_Index dev' ∧ nd_VendorID dev = nd_VendorID dev' ∧ nd_DeviceID dev = nd_DeviceID dev'.
Proof. apply name_identifies. Qed.

(** ** The scan *)

Section Scan.
Context `{GoSort}.

Definition byAddress : NodeDevice → NodeDevice → bool := λ a b, str_ltb (nd_Address a) (nd_Address b).

(** A display controller of NVIDIA. *)
Definition scanned (raw : PciDevice) : Prop := isGPUClass (pd_ClassCode raw) = true ∧ pd_VendorID raw = nvidiaVendorID.
#[local] Instance scanned_dec raw : Decision (scanned raw).
Proof. unfold scanned. apply _. Defined.

Lemma scannedDevice_address resolver raw :
  nd_Address <$> scannedDevice resolver raw = if decide (scanned raw) then Some (pd_Address raw) else None.
Proof.
  unfold scannedDevice. destruct (decide (scanned raw)) as [[-> Hv]|Hn].
  - rewrite Hv. done.
  - destruct (isGPUClass (pd_ClassCode raw)) eqn:Hc; cbn [negb]; [|done].
    destruct (str_eqb (pd_VendorID raw) nvidiaVendorID) eqn:Hv; [|done]. go_bool. by destruct Hn.
Qed.

Lemma omap_scanned resolver (raws : list PciDevice) :
  nd_Address <$> omap (scannedDevice resolver) raws = pd_Address <$> filter scanned raws.
Proof.
  induction raws as [|raw raws IH]; [done|]. rewrite filter_cons. cbn [omap list_omap].
  pose proof (scannedDevice_address resolver raw) as Ha. destruct (scannedDevice resolver raw) as [dev|], (decide (scanned raw)); try done.
  cbn in Ha |- *. injection Ha as ->. f_equal. exact IH.
Qed.

Lemma imap_withIndex_address k devs : nd_Address <$> imap (λ i, withIndex (k + i)) devs = nd_Address <$> devs.
Proof.
  revert k. induction devs as [|dev devs IH]; intros k; [done|]. rewrite imap_cons. cbn. f_equal.
  rewrite <- (IH (S k)). f_equal. apply imap_ext. intros i d _. unfold compose. by rewrite <- Nat.add_succ_comm.
Qed.

(** A scan lists the NVIDIA display controllers of the bus, each once, in
    the order of their addresses; the index of a device is its place in the
    list, and with a plain node name every device has an object name of its own. *)
Theorem scan_spec (resolver : option Resolver) (raws : list PciDevice) (devs : list NodeDevice) :
  Scan resolver (Ok raws) = Ok devs → Z.of_nat (length devs) < 2 ^ 63 →
  nd_Address <$> devs ≡ₚ pd_Address <$> filter scanned raws ∧
  Sorted String.le (nd_Address <$> devs) ∧
  (∀ i dev, devs !! i = Some dev → nd_Index dev = Itoa (Z.of_nat i)) ∧
  (∀ n, Forall (nameable n) devs → NoDup (PhysicalGPUName n <$> devs)).
Proof.
  unfold Scan. intros [= <-] Hlen. set (sorted := sort_Slice _ _) in *.
  assert (nd_Address <$> imap withIndex sorted = nd_Address <$> sorted) as Haddr by apply (imap_withIndex_address 0).
  assert (∀ i dev, imap withIndex sorted !! i = Some dev → nd_Index dev = Itoa (Z.of_nat i)) as Hidx.
  { intros i dev. rewrite list_lookup_imap. destruct (sorted !! i); [|done]. by intros [= <-]. }
  rewrite Haddr. split; [|split; [|split; [done|]]].
  - unfold sorted. rewrite sort_Slice_perm. by rewrite omap_scanned.
  - pose proof (sort_Slice_sorted byAddress (omap (scannedDevice resolver) raws) (weak_order_key nd_Address)) as Hs.
    fold byAddress in sorted. change (Sorted (λ x y, byAddress y x = false) sorted) in Hs. clearbody sorted. clear -Hs.
    induction Hs as [|x l _ IH Hd]; cbn; constructor; [done|]. destruct Hd as [|y l Hxy]; constructor.
    unfold byAddress in Hxy. by apply str_ltb_false in Hxy.
  - intros n Hn. apply NoDup_alt. intros i j name. rewrite !list_lookup_fmap.
    destruct (imap withIndex sorted !! i) as [d|] eqn:Hi; [|done]. destruct (imap withIndex sorted !! j) as [d'|] eqn:Hj; [|done].
    intros [= <-] [= Heq]. rewrite Forall_lookup in Hn. symmetry in Heq.
    destruct (name_identifies _ _ _ _ (Hn i d Hi) (Hn j d' Hj) Heq) as (_ & Hij & _). rewrite (Hidx i d Hi), (Hidx j d' Hj) in Hij.
    apply lookup_lt_Some in Hi, Hj. apply Itoa_inj in Hij; lia.
Qed.
End Scan.

(** ** The sync and the objects stored *)

Section Sync.
Context {S : Type} `{GpuServer S} `{GoSort}.
Abbreviation Agent := (M Event (AgentState (S := S))).
Implicit Types (s : S) (ns : NodeState) (h : list Event).

(** What applying a device does to the objects: only the object of its name. *)
Definition touches (name : string) (before after : gmap string PhysicalGPU) : Prop :=
  ∀ n, n ≠ name → after !! n = before !! n.

#[local] Instance touches_preorder name : PreOrder (touches name).
Proof. split; [done|]. intros a b c Hab Hbc n Hn. by rewrite Hbc, Hab. Qed.

Lemma touches_insert name obj before after : after = <[name := obj]> before → touches name before after.
Proof. intros -> n Hn. by rewrite lookup_insert_ne. Qed.

(** A computation that leaves the state of the sync alone and relates the
    objects before and after. *)
Definition acts {A} (R : gmap string PhysicalGPU → res A → gmap string PhysicalGPU → Prop) (m : Agent A) : Prop :=
  ∀ ns s h, ∃ r s' h', m (mkAgentState ns s) h = (r, (mkAgentState ns s', h')) ∧ R (stored s) r (stored s').

Lemma acts_try {A} R (m : Agent A) : acts R m → acts (λ a r b, ∃ r', r = Ok r' ∧ R a r' b) (try m).
Proof. intros Hm ns s h. destruct (Hm ns s h) as (r & s' & h' & Heq & HR). exists (Ok r), s', h'. unfold try. rewrite Heq. eauto. Qed.

Lemma acts_conseq {A} R R' (m : Agent A) : acts R m → (∀ a r b, R a r b → R' a r b) → acts R' m.
Proof. intros Hm HR ns s h. destruct (Hm ns s h) as (r & s' & h' & Heq & Hr). exists r, s', h'. eauto. Qed.

Lemma acts_wrapErr {A} R w (m : Agent A) :
  acts R m → acts (λ a r b, ∃ r', R a r' b ∧ r = match r' with Err e => Err (w e) | ok => ok end) (wrapErr w m).
Proof.
  intros Hm ns s h. destruct (Hm ns s h) as (r & s' & h' & Heq & HR). unfold wrapErr. rewrite Heq.
  destruct r; eexists _, s', h'; (split; [reflexivity|]); eexists; split; try exact HR; done.
Qed.

Lemma acts_emit recorder ev : acts (λ a r b, r = Ok () ∧ b = a) (emit recorder ev).
Proof. intros ns s h. eexists _, s, _. split; [done|]. done. Qed.

(** *** Getting or creating the object *)

(** The status an object starts from: the stored one, or none. *)
Definition startStatus (objects : gmap string PhysicalGPU) (name : string) : PhysicalGPUStatus :=
  match objects !! name with Some old => pg_Status old | None => emptyStatus end.

(** The labels of an object that is applied: those of an existing object that
    has labels stay, others get the ones of the device. *)
Definition labelled (nodeName : string) (dev : NodeDevice) (before : option PhysicalGPU) (obj : PhysicalGPU) : Prop :=
  match before with
  | None => pg_Labels obj = LabelsForDevice nodeName dev
  | Some old => om_Labels (pg_Meta old) ≠ None → pg_Labels obj = pg_Labels old
  end.

Lemma labelsPatch_name obj nodeName dev obj' base : labelsPatch obj nodeName dev = Some (obj', base) →
  pg_Name obj' = pg_Name obj ∧ (om_Labels (pg_Meta obj) ≠ None → base = obj').
Proof.
  unfold labelsPatch. destruct (negb _); [done|]. destruct (om_Labels (pg_Meta obj)); intros [= <- <-]; done.
Qed.

Lemma ensureLabels_acts name obj nodeName dev :
  acts (λ a r b, a !! name = Some obj → pg_Name obj = name →
    match r with
    | Ok obj' => b !! name = Some obj' ∧ pg_Status obj' = pg_Status obj ∧ touches name a b ∧
        (om_Labels (pg_Meta obj) ≠ None → pg_Labels obj' = pg_Labels obj)
    | Err _ => b = a
    end) (ensureLabels obj nodeName dev).
Proof.
  intros ns s h. unfold ensureLabels. destruct (labelsPatch obj nodeName dev) as [[obj' base]|] eqn:Hp.
  - apply labelsPatch_name in Hp as [Hname Hbase]. unfold store_Patch, writes. cbn [as_server as_node].
    destruct (gc_Patch obj' base s) as [[answer|e] s'] eqn:Hpatch; (eexists _, s', h; split; [reflexivity|]); intros Hs Hn.
    + destruct (patch_stored _ _ _ _ _ Hpatch) as (old & Hold & Hs' & Hst & Hlabels). rewrite Hname, Hn in Hold, Hs'.
      assert (old = obj) as -> by congruence. rewrite Hs', lookup_insert_eq. split; [done|]. split; [done|].
      split; [by eapply touches_insert|]. intros Hne. apply map_eq. intros key. destruct (Hlabels key) as [Hkeep _].
      apply Hkeep. by rewrite (Hbase Hne).
    + by apply (patch_failed _ _ _ _ _ Hpatch).
  - exists (Ok obj), s, h. split; [done|]. done.
Qed.

Lemma obtainDevice_acts recorder name nodeName dev :
  acts (λ a r b, touches name a b ∧
    match r with
    | Ok (obj, created) => b !! name = Some obj ∧ pg_Name obj = name ∧ pg_Status obj = startStatus a name ∧
        labelled nodeName dev (a !! name) obj
    | Err _ => True
    end) (obtainDevice recorder name nodeName dev).
Proof.
  intros ns s h. unfold obtainDevice, mbind, M_bind, try at 1, store_Get, reads. cbn [as_server].
  destruct (gc_Get name s) as [obj|e] eqn:Hget.
  - pose proof (get_stored _ _ _ Hget) as Hs. pose proof (stored_name _ _ _ Hs) as Hn.
    destruct (ensureLabels_acts name obj nodeName dev ns s h) as (r & s' & h' & Heq & HR). specialize (HR Hs Hn).
    unfold try. rewrite Heq. destruct r as [obj'|e].
    + destruct HR as (Hs' & Hst & Ht & Hl). eexists _, s', h'. split; [reflexivity|]. split; [done|]. split; [done|].
      split; [by eapply stored_name|]. unfold startStatus, labelled. rewrite Hs. done.
    + eexists _, s', _. split; [reflexivity|]. rewrite HR. done.
  - destruct (gc_IsNotFound e) eqn:Hnf; cbn [negb].
    + unfold wrapErr, store_Create, writes. cbn [as_server as_node].
      set (new := SetLabels (LabelsForDevice nodeName dev) (NewPhysicalGPU name)).
      destruct (gc_Create new s) as [[obj|e'] s'] eqn:Hc.
      * destruct (create_stored _ _ _ _ Hc) as (Hnone & Hs' & Hl & Hst). change (pg_Name new) with name in *.
        eexists _, s', h. split; [reflexivity|]. split; [by eapply touches_insert|].
        assert (stored s' !! name = Some obj) as Hobj by (by rewrite Hs', lookup_insert_eq).
        split; [done|]. split; [by eapply stored_name|]. unfold startStatus, labelled. rewrite Hnone. done.
      * eexists _, s', h. split; [reflexivity|]. by rewrite (create_failed _ _ _ _ Hc).
    + eexists _, s, h. split; [reflexivity|]. done.
Qed.

(** *** Applying a device *)

Record applied (nodeName : string) (dev : NodeDevice) (nodeInfo : option NodeInfo) (start : PhysicalGPUStatus)
    (before : option PhysicalGPU) (obj : PhysicalGPU) : Prop := {
  ap_pci : st_PCIInfo (pg_Status obj) = Some (buildPCIInfo dev);
  ap_node : st_NodeInfo (pg_Status obj) = Some (mkNodeInfo nodeName (nodeInfo ≫= ni_OS)
    (from_option ni_KernelRelease "" nodeInfo) (nodeInfo ≫= ni_BareMetal));
  ap_capabilities : st_Capabilities (pg_Status obj) = st_Capabilities start;
  ap_conditions : st_Conditions (pg_Status obj) = st_Conditions start;
  ap_current : st_CurrentState (pg_Status obj) =
    match st_CurrentState start with Some current => Some current | None => buildCurrentState None (nd_DriverName dev) end;
  ap_labels : labelled nodeName dev before obj;
}.

Lemma buildStatus_name obj dev nodeName nodeInfo status base : buildStatus obj dev nodeName nodeInfo = (status, base) →
  pg_Meta base = pg_Meta obj.
Proof. unfold buildStatus. intros [= <- <-]. by destruct (st_CurrentState (pg_Status obj)). Qed.

Lemma buildStatus_patched obj dev nodeName nodeInfo status base answer : buildStatus obj dev nodeName nodeInfo = (status, base) →
  patched_status status (pg_Status base) (pg_Status obj) (pg_Status answer) → pg_Meta answer = pg_Meta obj →
  ∀ before, labelled nodeName dev before obj → applied nodeName dev nodeInfo (pg_Status obj) before answer.
Proof.
  unfold buildStatus. intros [= <- <-] [Hni Hpci Hcap Hcond Hcs] Hmeta before Hlab. cbn in Hni, Hpci, Hcap, Hcond, Hcs.
  destruct (st_CurrentState (pg_Status obj)) as [cs|] eqn:Hst; cbn in Hni, Hpci, Hcap, Hcond, Hcs; constructor.
  - by apply Hpci.
  - destruct nodeInfo; by apply Hni.
  - by apply Hcap.
  - by apply Hcond.
  - rewrite Hst. by apply Hcs.
  - destruct before; unfold labelled, pg_Labels in *; by rewrite Hmeta.
  - by apply Hpci.
  - destruct nodeInfo; by apply Hni.
  - by apply Hcap.
  - by apply Hcond.
  - rewrite Hst. by apply Hcs.
  - destruct before; unfold labelled, pg_Labels in *; by rewrite Hmeta.
Qed.

Lemma applyDevice_acts recorder name nodeName dev nodeInfo :
  acts (λ a r b, touches name a b ∧
    match r with
    | Ok _ => ∃ obj, b !! name = Some obj ∧ applied nodeName dev nodeInfo (startStatus a name) (a !! name) obj
    | Err _ => True
    end) (applyDevice recorder name nodeName dev nodeInfo).
Proof.
  intros ns s h. destruct (obtainDevice_acts recorder name nodeName dev ns s h) as (r & s1 & h1 & Heq & Ht & HR).
  unfold applyDevice, mbind, M_bind. rewrite Heq. destruct r as [[obj created]|e]; [|eexists _, s1, h1; done].
  destruct HR as (Hs1 & Hname & Hst & Hlab). destruct (buildStatus obj dev nodeName nodeInfo) as [status base] eqn:Hb.
  unfold try, store_PatchStatus, writes. cbn [as_server as_node].
  destruct (gc_PatchStatus (set_Status status base) base s1) as [[answer|e] s2] eqn:Hpatch.
  - destruct (patchStatus_stored _ _ _ _ _ Hpatch) as (old & Hold & Hs2 & Hmeta & Hps).
    assert (pg_Name (set_Status status base) = name) as Hn2.
    { unfold pg_Name, set_Status. cbn. rewrite (buildStatus_name _ _ _ _ _ _ Hb). exact Hname. }
    rewrite Hn2 in Hold, Hs2. assert (old = obj) as -> by congruence. cbn in Hps.
    assert (touches name (stored s) (stored s2)) as Ht2 by (etrans; [exact Ht|by eapply touches_insert]).
    assert (applied nodeName dev nodeInfo (startStatus (stored s) name) (stored s !! name) answer) as Happ.
    { rewrite <- Hst. by eapply buildStatus_patched. }
    assert (stored s2 !! name = Some answer) as Hs2' by (by rewrite Hs2, lookup_insert_eq).
    destruct created; (eexists _, s2, _; split; [reflexivity|]); eauto.
  - eexists _, s2, _. split; [reflexivity|]. rewrite (patchStatus_failed _ _ _ _ _ Hpatch). done.
Qed.

(** *** The loops *)

Abbreviation nameOf nodeName := (PhysicalGPUName nodeName).

Lemma applyAll_acts recorder nodeName nodeInfo devs :
  acts (λ a r b, ∃ errs, r = Ok errs ∧ (∀ n, n ∉ nameOf nodeName <$> devs → b !! n = a !! n) ∧
    (errs = [] → NoDup (nameOf nodeName <$> devs) → ∀ dev, dev ∈ devs →
       ∃ obj, b !! nameOf nodeName dev = Some obj ∧
         applied nodeName dev nodeInfo (startStatus a (nameOf nodeName dev)) (a !! nameOf nodeName dev) obj))
    (collectErrors (λ dev, wrapErr (Wrapf "%s: %w" [nameOf nodeName dev])
       (applyDevice recorder (nameOf nodeName dev) nodeName dev nodeInfo)) devs).
Proof.
  induction devs as [|dev devs IH]; intros ns s h.
  { exists (Ok []), s, h. split; [done|]. exists []. split; [done|]. split; [done|]. intros _ _ dev Hin. by apply not_elem_of_nil in Hin. }
  cbn [collectErrors]. unfold mbind, M_bind, try.
  destruct (acts_wrapErr _ (Wrapf "%s: %w" [nameOf nodeName dev]) _ (applyDevice_acts recorder (nameOf nodeName dev) nodeName dev nodeInfo) ns s h)
    as (r & s1 & h1 & Heq & r' & [Ht HR] & Hr). rewrite Heq.
  destruct (IH ns s1 h1) as (r2 & s2 & h2 & Heq2 & errs & -> & Hframe & Hall). rewrite Heq2.
  eexists _, s2, h2. split; [reflexivity|]. eexists. split; [reflexivity|]. split.
  { intros n Hn. rewrite fmap_cons, not_elem_of_cons in Hn. destruct Hn as [Hn1 Hn2]. by rewrite Hframe, Ht. }
  intros Herrs Hnd. destruct r' as [[]|e]; [|by rewrite Hr in Herrs]. subst r errs.
  rewrite fmap_cons in Hnd. apply NoDup_cons in Hnd as [Hnin Hnd]. intros d Hd. apply elem_of_cons in Hd as [-> | Hd].
  - destruct HR as (obj & Hobj & Happ). exists obj. by rewrite Hframe.
  - destruct (Hall eq_refl Hnd d Hd) as (obj & Hobj & Happ). exists obj. split; [done|].
    assert (nameOf nodeName d ≠ nameOf nodeName dev) as Hne.
    { intros Heqn. apply Hnin. rewrite <- Heqn. by apply list_elem_of_fmap_2. }
    unfold startStatus in *. by rewrite !(Ht _ Hne) in Happ.
Qed.

Lemma cleanupObject_acts recorder (expected : gmap string NodeDevice) obj :
  acts (λ a r b, (b = a ∨ expected !! pg_Name obj = None ∧ b = delete (pg_Name obj) a) ∧
    (r = Ok () → expected !! pg_Name obj = None → b !! pg_Name obj = None)) (cleanupObject recorder expected obj).
Proof.
  intros ns s h. unfold cleanupObject. destruct (expected !! pg_Name obj) eqn:Hexp.
  { exists (Ok ()), s, h. split; [done|]. split; [by left|done]. }
  unfold mbind, M_bind, try, store_Delete, writes. cbn [as_server as_node].
  destruct (gc_Delete obj s) as [[e|] s'] eqn:Hd.
  - pose proof (delete_failed _ _ _ _ Hd) as Hs'. destruct (gc_IsNotFound e) eqn:Hnf; (eexists _, s', _; split; [reflexivity|]).
    + split; [by left|]. intros _ _. rewrite Hs'. by eapply delete_missing.
    + split; [by left|done].
  - pose proof (delete_stored _ _ _ Hd) as Hs'. eexists _, s', _. split; [reflexivity|]. split; [by right|].
    intros _ _. by rewrite Hs', lookup_delete_eq.
Qed.

Lemma cleanupAll_acts recorder (expected : gmap string NodeDevice) items :
  acts (λ a r b, ∃ errs, r = Ok errs ∧
    (∀ n, b !! n = a !! n ∨ b !! n = None ∧ expected !! n = None ∧ n ∈ pg_Name <$> items) ∧
    (errs = [] → ∀ obj, obj ∈ items → expected !! pg_Name obj = None → b !! pg_Name obj = None))
    (collectErrors (cleanupObject recorder expected) items).
Proof.
  induction items as [|obj items IH]; intros ns s h.
  { exists (Ok []), s, h. split; [done|]. exists []. split; [done|]. split; [by left|]. intros _ o Hin. by apply not_elem_of_nil in Hin. }
  cbn [collectErrors]. unfold mbind, M_bind, try.
  destruct (cleanupObject_acts recorder expected obj ns s h) as (r & s1 & h1 & Heq & Hone & Hdel). rewrite Heq.
  destruct (IH ns s1 h1) as (r2 & s2 & h2 & Heq2 & errs & -> & Hall & Hdels). rewrite Heq2.
  assert (∀ n, stored s1 !! n = stored s !! n ∨ stored s1 !! n = None ∧ expected !! n = None ∧ n = pg_Name obj) as Hone'.
  { intros n. destruct Hone as [-> | [Hexp ->]]; [by left|]. destruct (decide (n = pg_Name obj)) as [->|Hne];
      [right; by rewrite lookup_delete_eq|left; by rewrite lookup_delete_ne]. }
  eexists _, s2, h2. split; [reflexivity|]. eexists. split; [reflexivity|]. split.
  - intros n. rewrite fmap_cons, elem_of_cons. destruct (Hall n) as [-> | (? & ? & ?)]; [|tauto]. destruct (Hone' n) as [|(? & ? & ?)]; tauto.
  - intros Herrs o Ho Hexp. destruct r as [[]|e]; [|done]. apply elem_of_cons in Ho as [-> | Ho]; [|by apply Hdels].
    destruct (Hall (pg_Name obj)) as [-> | (-> & _)]; [by apply Hdel|done].
Qed.

Lemma expected_names nodeName devs n :
  is_Some (foldl (λ (expected : gmap string NodeDevice) dev, <[nameOf nodeName dev := dev]> expected) ∅ devs !! n) ↔ n ∈ nameOf nodeName <$> devs.
Proof.
  assert (∀ (m : gmap string NodeDevice), is_Some (foldl (λ expected dev, <[nameOf nodeName dev := dev]> expected) m devs !! n) ↔
    n ∈ nameOf nodeName <$> devs ∨ is_Some (m !! n)) as Hgen.
  { induction devs as [|dev devs IH]; intros m; simpl; [rewrite elem_of_nil; tauto|]. rewrite IH, elem_of_cons.
    destruct (decide (n = nameOf nodeName dev)) as [->|Hne]; [rewrite lookup_insert_eq; naive_solver|].
    rewrite lookup_insert_ne by done. tauto. }
  rewrite Hgen, lookup_empty. split; [intros [|[? ?]]; done|by left].
Qed.

(** *** The handlers *)

Lemma ApplyHandle_runs recorder nodeName nodeInfo devs expected s h : ∃ errs s' h',
  let ns := mkNodeState nodeName nodeInfo devs expected in
  ApplyHandle recorder (mkAgentState ns s) h
    = (if list_len0 errs then Ok () else Err (joinErrors gc_ErrorText errs), (mkAgentState ns s', h')) ∧
  (∀ n, n ∉ nameOf nodeName <$> devs → stored s' !! n = stored s !! n) ∧
  (errs = [] → NoDup (nameOf nodeName <$> devs) → ∀ dev, dev ∈ devs →
     ∃ obj, stored s' !! nameOf nodeName dev = Some obj ∧
       applied nodeName dev nodeInfo (startStatus (stored s) (nameOf nodeName dev)) (stored s !! nameOf nodeName dev) obj).
Proof.
  destruct (applyAll_acts recorder nodeName nodeInfo devs (mkNodeState nodeName nodeInfo devs expected) s h)
    as (r & s1 & h1 & Heq & errs & -> & Hframe & Hall).
  exists errs, s1, h1. split; [|done]. unfold ApplyHandle, get. unfold mbind at 1, M_bind at 1. cbv beta iota zeta. cbn [as_node ns_nodeName ns_nodeInfo ns_devices].
  unfold mbind at 1, M_bind at 1. rewrite Heq. by destruct errs.
Qed.

Lemma CleanupHandle_runs recorder ns s h items : gc_List {[ LabelNode := ns_nodeName ns ]} s = Ok items → ∃ errs s' h',
  CleanupHandle recorder (mkAgentState ns s) h
    = (if list_len0 errs then Ok () else Err (joinErrors gc_ErrorText errs), (mkAgentState ns s', h')) ∧
  (∀ n, stored s' !! n = stored s !! n ∨ stored s' !! n = None ∧ ns_expected ns !! n = None ∧ n ∈ pg_Name <$> items) ∧
  (errs = [] → ∀ obj, obj ∈ items → ns_expected ns !! pg_Name obj = None → stored s' !! pg_Name obj = None).
Proof.
  intros Hlist. destruct (cleanupAll_acts recorder (ns_expected ns) items ns s h) as (r & s1 & h1 & Heq & errs & -> & Hall & Hdel).
  exists errs, s1, h1. split; [|done]. unfold CleanupHandle, get. unfold mbind at 1, M_bind at 1. cbv beta iota zeta. cbn [as_node].
  unfold mbind at 1, M_bind at 1, wrapErr, store_ListByNode, reads. cbn [as_server]. rewrite Hlist. unfold mbind at 1, M_bind at 1. rewrite Heq. by destruct errs.
Qed.

(** *** The sync *)

Lemma sync_objects (recorder : bool) (nodeName : string) (devs : list NodeDevice) (hostInfo : option NodeInfo)
    (s s' : S) (events : list Event) :
  nodeName ≠ "" → NoDup (PhysicalGPUName nodeName <$> devs) → (∀ labels s0 e, gc_List labels s0 = Err e → errorsIs e ErrStopChain = false) →
  agentSync recorder nodeName (Ok devs) hostInfo s = (None, s', events) →
  (∀ dev, dev ∈ devs → ∃ obj, stored s' !! PhysicalGPUName nodeName dev = Some obj ∧
     applied nodeName dev hostInfo (startStatus (stored s) (PhysicalGPUName nodeName dev)) (stored s !! PhysicalGPUName nodeName dev) obj) ∧
  (∀ name obj, stored s' !! name = Some obj → pg_Labels obj !! LabelNode = Some nodeName → name ∈ PhysicalGPUName nodeName <$> devs) ∧
  (∀ name, name ∉ PhysicalGPUName nodeName <$> devs → stored s' !! name = stored s !! name ∨
     stored s' !! name = None ∧ ∃ obj, stored s !! name = Some obj ∧ pg_Labels obj !! LabelNode = Some nodeName).
Proof.
  intros Hnode Hnd Hstop. unfold agentSync, agentSteps, NewSteps. cbn [fmap list_fmap app].
  set (ns := SetNodeInfo hostInfo (SetDevices devs (NewState nodeName))).
  erewrite (Run_continue (E := Event) (S := AgentState) _ _ (mkAgentState (NewState nodeName) s) [] (mkAgentState ns s) []).
  2:{ unfold agentStep, DiscoverHandle, mbind, M_bind, get, wrapErr, liftR, modify. cbn [as_node NewState ns_nodeName].
      unfold str_eqb. by rewrite bool_decide_eq_false_2. }
  destruct (ApplyHandle_runs recorder nodeName hostInfo devs (ns_expected ns) s []) as (errs & s1 & h1 & Heq & Hframe & Hall).
  change (mkNodeState nodeName hostInfo devs (ns_expected ns)) with ns in Heq. cbv zeta in Heq.
  destruct errs as [|err errs].
  2:{ cbn [Run]. unfold mbind at 1, M_bind at 1, agentStep at 1. rewrite Heq. cbn. done. }
  erewrite (Run_continue (E := Event) (S := AgentState) _ _ (mkAgentState ns s) [] (mkAgentState ns s1) h1).
  2:{ unfold agentStep. by rewrite Heq. }
  specialize (Hall eq_refl Hnd). destruct (gc_List {[LabelNode := nodeName]} s1) as [items|e] eqn:Hlist.
  2:{ cbn [Run]. unfold mbind at 1, M_bind at 1, agentStep, CleanupHandle, get. unfold mbind at 1, M_bind at 1. cbv beta iota zeta.
      unfold mbind at 1, M_bind at 1, wrapErr, store_ListByNode, reads. cbn [as_server as_node]. change (ns_nodeName ns) with nodeName.
      rewrite Hlist. cbn [errorsIs]. rewrite (Hstop _ _ _ Hlist), orb_false_r. done. }
  destruct (CleanupHandle_runs recorder ns s1 h1 items Hlist) as (errs & s2 & h2 & Heq2 & Hkept & Hdel).
  destruct errs as [|err errs].
  2:{ cbn [Run]. unfold mbind at 1, M_bind at 1, agentStep at 1. rewrite Heq2. cbn. done. }
  erewrite (Run_continue (E := Event) (S := AgentState) _ _ (mkAgentState ns s1) h1 (mkAgentState ns s2) h2).
  2:{ unfold agentStep. by rewrite Heq2. }
  cbn. intros [= <- <-]. specialize (Hdel eq_refl).
  assert (∀ n, ns_expected ns !! n = None ↔ n ∉ nameOf nodeName <$> devs) as Hexp.
  { intros n. rewrite <- (expected_names nodeName devs n), <- eq_None_not_Some. done. }
  pose proof (list_stored _ _ _ Hlist) as Hitems. split; [|split].
  - intros dev Hdev. destruct (Hall dev Hdev) as (obj & Hobj & Happ). exists obj. split; [|done].
    destruct (Hkept (nameOf nodeName dev)) as [-> | (_ & Hnone & _)]; [done|].
    apply Hexp in Hnone. destruct Hnone. by apply list_elem_of_fmap_2.
  - intros name obj Hobj Hlabel. apply dec_stable. intros Hnin. pose proof (stored_name _ _ _ Hobj) as Hname.
    destruct (Hkept name) as [Hsame|(Hnone & _)]; [|congruence].
    rewrite <- Hname, Hdel in Hobj; [done| |apply Hexp; by rewrite Hname].
    apply Hitems. split; [congruence|]. by apply map_singleton_subseteq_l.
  - intros name Hnin. destruct (Hkept name) as [-> | (Hnone & _ & Hin)]; [by left; apply Hframe|]. right. split; [done|].
    apply list_elem_of_fmap in Hin as (obj & -> & Hin). apply Hitems in Hin as [Hst Hl]. exists obj.
    rewrite <- (Hframe _ Hnin). split; [done|]. by apply map_singleton_subseteq_l.
Qed.

(** A sync whose scan fails does nothing. *)
Lemma failed_scan recorder nodeName e hostInfo (s s' : S) err events :
  agentSync recorder nodeName (Err e) hostInfo s = (err, s', events) → s' = s.
Proof.
  set (st := mkAgentState (NewState nodeName) s).
  assert (∃ e', DiscoverHandle (Err e) hostInfo st [] = (Err e', (st, []))) as [e' Hd].
  { unfold DiscoverHandle, mbind, M_bind, get, wrapErr, liftR, fail. by destruct (str_eqb _ _); eexists. }
  unfold agentSync. fold st. unfold agentSteps, NewSteps. cbn [fmap list_fmap app Run]. unfold mbind, M_bind, agentStep at 1. rewrite Hd.
  by destruct (errorsIs e' ErrStopChain); intros [= _ <- _].
Qed.

(** C9: a sync that ends without an error either could not scan the PCI bus, and
    then changed nothing, or makes the objects of the node be its devices, when
    these get distinct names and a failed list is not taken for the end of the
    chain: every device scanned has its object, with the PCI identity, the node
    and what the gpu-handler and the controller had put into the status (the
    labels and the driver type an object has already are kept); every object
    that carries the label of the node belongs to a device of the scan; and an
    object that is not one of a scanned device is as before, or it was labelled
    with this node and is deleted. *)
Theorem sync_converges (recorder : bool) (nodeName : string) (scan : res (list NodeDevice)) (hostInfo : option NodeInfo)
    (s s' : S) (events : list Event) :
  nodeName ≠ "" → (∀ labels s0 e, gc_List labels s0 = Err e → errorsIs e ErrStopChain = false) →
  agentSync recorder nodeName scan hostInfo s = (None, s', events) →
  match scan with
  | Err _ => s' = s
  | Ok devs => NoDup (PhysicalGPUName nodeName <$> devs) →
      (∀ dev, dev ∈ devs → ∃ obj, stored s' !! PhysicalGPUName nodeName dev = Some obj ∧
         applied nodeName dev hostInfo (startStatus (stored s) (PhysicalGPUName nodeName dev)) (stored s !! PhysicalGPUName nodeName dev) obj) ∧
      (∀ name obj, stored s' !! name = Some obj → pg_Labels obj !! LabelNode = Some nodeName → name ∈ PhysicalGPUName nodeName <$> devs) ∧
      (∀ name, name ∉ PhysicalGPUName nodeName <$> devs → stored s' !! name = stored s !! name ∨
         stored s' !! name = None ∧ ∃ obj, stored s !! name = Some obj ∧ pg_Labels obj !! LabelNode = Some nodeName)
  end.
Proof.
  intros Hnode Hstop Hsync. destruct scan as [devs|e]; [|by eapply failed_scan]. intros Hnd. by eapply sync_objects.
Qed.

(** A sync never changes what it got wrong before: an object that exists and
    has labels keeps them all, whatever the labels of the device are by now, and
    an object with a current state keeps its driver type although the device is
    bound to another driver. *)
Theorem sync_keeps_labels_and_driver (recorder : bool) (nodeName : string) (devs : list NodeDevice) (hostInfo : option NodeInfo)
    (s s' : S) (events : list Event) (dev : NodeDevice) (old : PhysicalGPU) (labels : gmap string string) (current : GPUCurrentState) :
  nodeName ≠ "" → NoDup (PhysicalGPUName nodeName <$> devs) → (∀ labels s0 e, gc_List labels s0 = Err e → errorsIs e ErrStopChain = false) →
  agentSync recorder nodeName (Ok devs) hostInfo s = (None, s', events) → dev ∈ devs →
  stored s !! PhysicalGPUName nodeName dev = Some old → om_Labels (pg_Meta old) = Some labels → st_CurrentState (pg_Status old) = Some current →
  ∃ obj, stored s' !! PhysicalGPUName nodeName dev = Some obj ∧ pg_Labels obj = labels ∧ st_CurrentState (pg_Status obj) = Some current.
Proof.
  intros Hnode Hnd Hstop Hsync Hdev Hold Hlabels Hcurrent.
  destruct (sync_objects recorder nodeName devs hostInfo s s' events Hnode Hnd Hstop Hsync) as (Hall & _ & _).
  destruct (Hall dev Hdev) as (obj & Hobj & Happ). exists obj. split; [done|]. destruct Happ as [_ _ _ _ Hst Hl].
  unfold startStatus, labelled in *. rewrite Hold in Hst, Hl. rewrite Hcurrent in Hst. split; [|done].
  rewrite Hl by by rewrite Hlabels. unfold pg_Labels. by rewrite Hlabels.
Qed.
End Sync.
