(* ===== verification/SyncLoop.v ===== *)
(** * The sync loops of the agents: pkg/nodeagent/loop.go, pkg/gpuhandler/loop.go

    Both agents wait for notifications, let a quiet period pass and run a sync;
    a sync that failed notifies again, and the gpu-handler notifies itself every
    minute.  The loop is a step relation: notifications come from other
    goroutines at any time, also while a sync runs, the timer expires when its
    time has come, and the loop takes one ready case of its select at a time.

    The channel of notifications holds one token, so that notifications between
    two receives are one; the heartbeat of the gpu-handler is one more notifier. *)

From S2P Require Import Prelude.

Definition eventQuietPeriod : Z := 1000000000.

(** ** The state of the loop *)

Inductive Timer :=
| TimerStopped
| TimerRunning (deadline : Z)
| TimerFired.

Inductive Phase := Selecting | Syncing | Returned.

Record Loop := mkLoop {
  lp_phase : Phase;
  lp_pending : bool;
  lp_timer : Timer;
  lp_now : Z;
}.

(** [time.NewTimer] and the first select. *)
Definition startLoop (now : Z) : Loop := mkLoop Selecting false (TimerRunning (now + eventQuietPeriod)) now.

(** [notify]: a token is put unless there is one. *)
Definition Notify (l : Loop) : Loop := mkLoop (lp_phase l) true (lp_timer l) (lp_now l).

(** [case <-notifyCh]: the timer is stopped, a value it left in its channel is
    dropped, and it is started again. *)
Definition onNotify (l : Loop) : option Loop :=
  match lp_phase l with
  | Selecting =>
      if lp_pending l
      then Some (mkLoop Selecting false (TimerRunning (lp_now l + eventQuietPeriod)) (lp_now l))
      else None
  | _ => None
  end.

(** [case <-timer.C]: the sync starts, and ends with or without an error. *)
Definition onTimer (l : Loop) : option Loop :=
  match lp_phase l, lp_timer l with
  | Selecting, TimerFired => Some (mkLoop Syncing (lp_pending l) TimerStopped (lp_now l))
  | _, _ => None
  end.
Definition onSynced (failed : bool) (l : Loop) : option Loop :=
  match lp_phase l with
  | Syncing =>
      let l := mkLoop Selecting (lp_pending l) (lp_timer l) (lp_now l) in
      Some (if failed then Notify l else l)
  | _ => None
  end.

(** [case <-ctx.Done()] and [case err := <-errCh]. *)
Definition onReturn (l : Loop) : option Loop :=
  match lp_phase l with
  | Selecting => Some (mkLoop Returned (lp_pending l) (lp_timer l) (lp_now l))
  | _ => None
  end.

(** The runtime: time passes, a timer fires. *)
Definition tick (now : Z) (l : Loop) : Loop := mkLoop (lp_phase l) (lp_pending l) (lp_timer l) now.
Definition expire (l : Loop) : option Loop :=
  match lp_timer l with
  | TimerRunning deadline =>
      if deadline <=? lp_now l then Some (mkLoop (lp_phase l) (lp_pending l) TimerFired (lp_now l)) else None
  | _ => None
  end.

(** ** Steps, with what they mean for the outside *)

Inductive label :=
| Triggered
| SyncStarts
| SyncEnds (failed : bool)
| Silent.

Inductive lstep : Loop → label → Loop → Prop :=
| step_notify l : lstep l Triggered (Notify l)
| step_receive l l' : onNotify l = Some l' → lstep l Silent l'
| step_sync l l' : onTimer l = Some l' → lstep l SyncStarts l'
| step_synced failed l l' : onSynced failed l = Some l' → lstep l (SyncEnds failed) l'
| step_return l l' : onReturn l = Some l' → lstep l Silent l'
| step_tick now l : lp_now l ≤ now → lstep l Silent (tick now l)
| step_expire l l' : expire l = Some l' → lstep l Silent l'.

(** A sync is due after the start, after a notification and after a failure,
    until the next one starts; the time of the last notification received. *)
Definition due_after (due : bool) (a : label) : bool :=
  match a with
  | Triggered => true
  | SyncStarts => false
  | SyncEnds failed => due || failed
  | Silent => due
  end.

Inductive runs (start : Z) : Loop → bool → Prop :=
| runs_start : runs start (startLoop start) true
| runs_step l due a l' : runs start l due → lstep l a l' → runs start l' (due_after due a).

(** ** A sync that is due comes *)

Definition armed (l : Loop) : Prop := lp_pending l = true ∨ lp_timer l ≠ TimerStopped.

Definition loop_inv (l : Loop) (due : bool) : Prop :=
  (lp_phase l ≠ Returned → due = true → armed l) ∧
  (∀ deadline, lp_timer l = TimerRunning deadline → deadline ≤ lp_now l + eventQuietPeriod).

Lemma lstep_inv l due a l' : loop_inv l due → lstep l a l' → loop_inv l' (due_after due a).
Proof.
  intros [Hdue Hbound] Hstep. destruct Hstep as [l|l l' H|l l' H|failed l l' H|l l' H|now l Hnow|l l' H]; simpl.
  - split; [intros _ _; by left|done].
  - unfold onNotify in H. destruct (lp_phase l), (lp_pending l); try done. injection H as <-.
    split; [intros _ _; by right|]. simpl. intros d [= <-]. lia.
  - unfold onTimer in H. destruct (lp_phase l), (lp_timer l) eqn:Ht; try done. injection H as <-. split; [done|]. simpl. done.
  - unfold onSynced in H. destruct (lp_phase l) eqn:Hp; try done. injection H as <-. destruct failed.
    + split; [intros _ _; by left|done].
    + split; [|done]. intros _. rewrite orb_false_r. by apply Hdue.
  - unfold onReturn in H. destruct (lp_phase l); try done. injection H as <-. by split.
  - split; [by apply Hdue|]. simpl. intros d Hd. specialize (Hbound d Hd). lia.
  - unfold expire in H. destruct (lp_timer l) as [|d|] eqn:Ht; try done. destruct (d <=? lp_now l); [|done]. injection H as <-.
    split; [intros _ _; by right|]. simpl. done.
Qed.

Lemma runs_inv start l due : runs start l due → loop_inv l due.
Proof.
  induction 1 as [|l due a l' _ IH Hstep]; [|by eapply lstep_inv].
  split; [intros _ _; by right|]. simpl. intros d [= <-]. lia.
Qed.

(** Steps of the loop and of time alone. *)
Inductive proceeds : Loop → list label → Loop → Prop :=
| proceeds_nil l : proceeds l [] l
| proceeds_cons l a l' as_ l'' : a ≠ Triggered → lstep l a l' → proceeds l' as_ l'' → proceeds l (a :: as_) l''.

Lemma timer_proceeds l : lp_phase l = Selecting → lp_timer l ≠ TimerStopped →
  (∀ deadline, lp_timer l = TimerRunning deadline → deadline ≤ lp_now l + eventQuietPeriod) →
  ∃ as_ l', proceeds l as_ l' ∧ lp_phase l' = Syncing ∧ SyncStarts ∈ as_ ∧ lp_now l' ≤ lp_now l + eventQuietPeriod.
Proof.
  intros Hp Ht Hb. destruct l as [phase pending timer now]. simpl in *. subst phase.
  assert (∀ n, proceeds (mkLoop Selecting pending TimerFired n) [SyncStarts] (mkLoop Syncing pending TimerStopped n)) as Hfire.
  { intros n. eapply proceeds_cons; [done| |constructor]. by apply step_sync. }
  destruct timer as [|deadline|]; [done| |].
  - specialize (Hb deadline eq_refl). destruct (Z.le_gt_cases deadline now) as [Hle|Hgt].
    + exists [Silent; SyncStarts], (mkLoop Syncing pending TimerStopped now). split; [|simpl; unfold eventQuietPeriod; split; [done|]; split; [set_solver|lia]].
      eapply proceeds_cons; [done| |apply Hfire]. apply step_expire. unfold expire. simpl. by destruct (Z.leb_spec deadline now); [|lia].
    + exists [Silent; Silent; SyncStarts], (mkLoop Syncing pending TimerStopped deadline).
      split; [|simpl; split; [done|]; split; [set_solver|lia]].
      eapply proceeds_cons; [done|apply (step_tick deadline); simpl; lia|].
      eapply proceeds_cons; [done| |apply Hfire]. apply step_expire. unfold expire, tick. simpl. by rewrite Z.leb_refl.
  - exists [SyncStarts], (mkLoop Syncing pending TimerStopped now). split; [apply Hfire|]. simpl. unfold eventQuietPeriod.
    split; [done|]. split; [set_solver|lia].
Qed.

(** C15: no trigger is lost: in every state the loop can reach, if a sync is due
    (the agent just started, somebody notified, or the last sync failed) then,
    unless the loop has returned or is in the middle of a sync, it can go on by
    itself, without another notification, to a state in which a sync starts, at
    most one quiet period later. *)
Theorem due_sync_starts (start : Z) (l : Loop) : runs start l true → lp_phase l = Selecting →
  ∃ as_ l', proceeds l as_ l' ∧ lp_phase l' = Syncing ∧ SyncStarts ∈ as_ ∧ lp_now l' ≤ lp_now l + eventQuietPeriod.
Proof.
  intros Hrun Hp. destruct (runs_inv _ _ _ Hrun) as [Harmed Hbound].
  destruct (Harmed ltac:(by rewrite Hp) eq_refl) as [Hpend|Ht]; [|by apply timer_proceeds].
  destruct l as [phase pending timer now]. simpl in *. subst phase pending.
  destruct (timer_proceeds (mkLoop Selecting false (TimerRunning (now + eventQuietPeriod)) now)) as (as_ & l' & Hpr & Hs & Hin & Hnow);
    [done|done|by intros d [= <-]|].
  exists (Silent :: as_), l'. split; [|split; [done|]; split; [by right|done]]. eapply proceeds_cons; [done| |exact Hpr]. by apply step_receive.
Qed.

(** Each receive moves the sync to a whole quiet period after it. *)
Lemma receive_postpones (l l' : Loop) : onNotify l = Some l' →
  lp_timer l' = TimerRunning (lp_now l + eventQuietPeriod) ∧ lp_pending l' = false ∧ onTimer l' = None.
Proof.
  unfold onNotify. destruct (lp_phase l), (lp_pending l); try done. by intros [= <-].
Qed.
