(* ===== verification/CheckpointFile.v ===== *)
(** * The checkpoint file

    The JSON form of the checkpoint and the store that writes it atomically. *)

From S2P Require Import Prelude GoLib Prepare Json JsonText OsFiles.

From Stdlib Require Import Ascii.

(** * The checkpoint as a document: domain/checkpoint.go

    [encoding/json] of the records of the checkpoint, field by field as the
    tags of the structs say.  The text layer under it is an interface; a nil
    map and an empty map are one value of the model, and both are written as an
    object, since the steps that save a checkpoint make the map first. *)

(** ** Writing *)

Definition jint (z : Z) : json := JNumber (Itoa z).

(** A field with [omitempty]. *)
Definition unlessEmpty {A} (key : string) (l : list A) (enc : list A → json) : list (string * json) :=
  match l with [] => [] | _ => [(key, enc l)] end.
Definition unlessNil {A} (key : string) (o : option A) (enc : A → json) : list (string * json) :=
  match o with Some a => [(key, enc a)] | None => [] end.
Definition unlessBlank (key s : string) : list (string * json) :=
  if str_eqb s "" then [] else [(key, JString s)].

Definition jsonOfMig (m : PreparedMigDevice) : json := JObject [
  ("pciBusId", JString (pmd_PCIBusID m)); ("profileId", jint (pmd_ProfileID m));
  ("sliceStart", jint (pmd_SliceStart m)); ("sliceSize", jint (pmd_SliceSize m));
  ("gpuInstanceId", jint (pmd_GPUInstanceID m)); ("computeInstanceId", jint (pmd_ComputeInstanceID m));
  ("deviceUuid", JString (pmd_DeviceUUID m))].

Definition jsonOfVfio (v : PreparedVfioDevice) : json := JObject [
  ("pciBusId", JString (pvd_PCIBusID v)); ("originalDriver", JString (pvd_OriginalDriver v));
  ("iommuGroup", jint (pvd_IommuGroup v))].

Definition jsonOfMps (m : PreparedMpsState) : json := JObject [
  ("controlId", JString (pms_ControlID m)); ("pipeDir", JString (pms_PipeDir m));
  ("shmDir", JString (pms_ShmDir m)); ("logDir", JString (pms_LogDir m))].

Definition jsonOfSharing (s : PreparedSharing) : json := JObject (
  [("strategy", JString (psh_Strategy s))] ++
  unlessBlank "deviceUuid" (psh_DeviceUUID s) ++
  unlessNil "mps" (psh_MPS s) jsonOfMps).

Definition jsonOfDevice (d : PreparedDeviceState) : json := JObject (
  [("request", JString (pds_Request d)); ("pool", JString (pds_Pool d)); ("device", JString (pds_Device d))] ++
  unlessEmpty "cdiDeviceIDs" (pds_CDIDeviceIDs d) jstrings ++
  unlessNil "mig" (pds_MIG d) jsonOfMig ++
  unlessNil "vfio" (pds_VFIO d) jsonOfVfio ++
  unlessNil "sharing" (pds_Sharing d) jsonOfSharing).

Definition jsonOfClaim (c : PreparedClaim) : json := JObject (
  [("state", JString (pc_State c))] ++
  unlessEmpty "devices" (pc_Devices c) (λ l, JArray (jsonOfDevice <$> l))).

(** Keys are written in order. *)
Definition claim_le (a b : string * PreparedClaim) : Prop := String.le (fst a) (fst b).
#[export] Instance claim_le_dec a b : Decision (claim_le a b).
Proof. unfold claim_le. apply _. Defined.

Definition jsonOfCheckpoint (cp : PrepareCheckpoint) : json := JObject [
  ("version", JString (pcp_Version cp));
  ("claims", JObject (prod_map id jsonOfClaim <$> merge_sort claim_le (map_to_list (pcp_Claims cp))))].

(** ** Reading: a missing field or null is the zero value, a value of another
    type an error *)

Definition typeError : error := Errorf "json: cannot unmarshal value into Go struct field" [].

Definition stringOf (oj : option json) : res string :=
  match oj with None | Some JNull => Ok "" | Some (JString s) => Ok s | _ => Err typeError end.
Definition intOf (oj : option json) : res Z :=
  match oj with
  | None | Some JNull => Ok 0
  | Some (JNumber raw) => match Atoi raw with Some z => Ok z | None => Err typeError end
  | _ => Err typeError
  end.
Definition sliceOf {A} (dec : json → res A) (oj : option json) : res (list A) :=
  match oj with None | Some JNull => Ok [] | Some (JArray l) => mapM dec l | _ => Err typeError end.
Definition pointerOf {A} (dec : json → res A) (oj : option json) : res (option A) :=
  match oj with None | Some JNull => Ok None | Some j => a ← dec j; Ok (Some a) end.
Definition structOf {A} (dec : (string → option json) → res A) (j : json) : res A :=
  match j with
  | JObject fs => dec (λ key, jfield key fs)
  | JNull => dec (λ _, None)
  | _ => Err typeError
  end.
Definition mapOf {A} (dec : json → res A) (oj : option json) : res (gmap string A) :=
  match oj with
  | None | Some JNull => Ok ∅
  | Some (JObject fs) => l ← mapM (λ kv, a ← dec (snd kv); Ok (fst kv, a)) fs; Ok (list_to_map l)
  | _ => Err typeError
  end.

Definition migOfJson : json → res PreparedMigDevice := structOf (λ field,
  pci ← stringOf (field "pciBusId"); profile ← intOf (field "profileId");
  start ← intOf (field "sliceStart"); size ← intOf (field "sliceSize");
  gi ← intOf (field "gpuInstanceId"); ci ← intOf (field "computeInstanceId");
  uuid ← stringOf (field "deviceUuid");
  Ok (mkPreparedMigDevice pci profile start size gi ci uuid)).

Definition vfioOfJson : json → res PreparedVfioDevice := structOf (λ field,
  pci ← stringOf (field "pciBusId"); driver ← stringOf (field "originalDriver");
  group ← intOf (field "iommuGroup"); Ok (mkPreparedVfioDevice pci driver group)).

Definition mpsOfJson : json → res PreparedMpsState := structOf (λ field,
  control ← stringOf (field "controlId"); pipe ← stringOf (field "pipeDir");
  shm ← stringOf (field "shmDir"); log ← stringOf (field "logDir");
  Ok (mkPreparedMpsState control pipe shm log)).

Definition sharingOfJson : json → res PreparedSharing := structOf (λ field,
  strategy ← stringOf (field "strategy"); uuid ← stringOf (field "deviceUuid");
  mps ← pointerOf mpsOfJson (field "mps"); Ok (mkPreparedSharing strategy uuid mps)).

Definition deviceOfJson : json → res PreparedDeviceState := structOf (λ field,
  request ← stringOf (field "request"); pool ← stringOf (field "pool"); device ← stringOf (field "device");
  ids ← sliceOf (stringOf ∘ Some) (field "cdiDeviceIDs");
  mig ← pointerOf migOfJson (field "mig"); vfio ← pointerOf vfioOfJson (field "vfio");
  sharing ← pointerOf sharingOfJson (field "sharing");
  Ok (mkPreparedDeviceState request pool device ids mig vfio sharing)).

Definition claimOfJson : json → res PreparedClaim := structOf (λ field,
  state ← stringOf (field "state"); devices ← sliceOf deviceOfJson (field "devices");
  Ok (mkPreparedClaim state devices)).

Definition checkpointOfJson : json → res PrepareCheckpoint := structOf (λ field,
  version ← stringOf (field "version"); claims ← mapOf claimOfJson (field "claims");
  Ok (mkPrepareCheckpoint version claims)).

(** ** What is written is read back *)

(** The numbers of a record are Go [int]s. *)
Definition mig_int64 (m : PreparedMigDevice) : Prop :=
  in_int64 (pmd_ProfileID m) ∧ in_int64 (pmd_SliceStart m) ∧ in_int64 (pmd_SliceSize m) ∧
  in_int64 (pmd_GPUInstanceID m) ∧ in_int64 (pmd_ComputeInstanceID m).
Definition device_int64 (d : PreparedDeviceState) : Prop :=
  from_option mig_int64 True (pds_MIG d) ∧ from_option (λ v, in_int64 (pvd_IommuGroup v)) True (pds_VFIO d).
Definition checkpoint_int64 (cp : PrepareCheckpoint) : Prop :=
  map_Forall (λ _ c, Forall device_int64 (pc_Devices c)) (pcp_Claims cp).

Lemma intOf_jint z : in_int64 z → intOf (Some (jint z)) = Ok z.
Proof. intros Hz. simpl. by rewrite Atoi_Itoa64. Qed.

Lemma mapM_encoded {A B} (enc : A → B) (dec : B → res A) l :
  Forall (λ a, dec (enc a) = Ok a) l → mapM dec (enc <$> l) = Ok l.
Proof.
  induction 1 as [|a l Ha _ IH]; [done|].
  change (mapM dec (enc <$> a :: l)) with (x ← dec (enc a); xs ← mapM dec (enc <$> l); Ok (x :: xs)).
  by rewrite Ha, IH.
Qed.

Lemma migOfJson_jsonOf m : mig_int64 m → migOfJson (jsonOfMig m) = Ok m.
Proof.
  destruct m as [pci profile start size gi ci uuid]. intros (H1 & H2 & H3 & H4 & H5). simpl in H1, H2, H3, H4, H5.
  change (migOfJson _) with (
    profile' ← intOf (Some (jint profile)); start' ← intOf (Some (jint start)); size' ← intOf (Some (jint size));
    gi' ← intOf (Some (jint gi)); ci' ← intOf (Some (jint ci));
    Ok (mkPreparedMigDevice pci profile' start' size' gi' ci' uuid)).
  by rewrite !intOf_jint.
Qed.

Lemma vfioOfJson_jsonOf v : in_int64 (pvd_IommuGroup v) → vfioOfJson (jsonOfVfio v) = Ok v.
Proof.
  destruct v as [pci driver group]. intros Hv. simpl in Hv.
  change (vfioOfJson _) with (group' ← intOf (Some (jint group)); Ok (mkPreparedVfioDevice pci driver group')).
  by rewrite intOf_jint.
Qed.

Lemma mpsOfJson_jsonOf m : mpsOfJson (jsonOfMps m) = Ok m.
Proof. by destruct m. Qed.

Lemma sharingOfJson_jsonOf s : sharingOfJson (jsonOfSharing s) = Ok s.
Proof.
  destruct s as [strategy uuid mps]. unfold jsonOfSharing, unlessBlank. cbn [psh_Strategy psh_DeviceUUID psh_MPS].
  destruct (str_eqb uuid "") eqn:Hu; [apply str_eqb_true in Hu as ->|]; destruct mps as [[]|]; reflexivity.
Qed.

Lemma pointer_field {A} (enc : A → json) (dec : json → res A) (o : option A) :
  (∀ a, enc a ≠ JNull) → (∀ a, o = Some a → dec (enc a) = Ok a) → pointerOf dec (enc <$> o) = Ok o.
Proof.
  intros Hnull Hdec. destruct o as [a|]; [|done]. simpl. specialize (Hnull a). rewrite Hdec by done.
  by destruct (enc a).
Qed.

Lemma deviceOfJson_jsonOf d : device_int64 d → deviceOfJson (jsonOfDevice d) = Ok d.
Proof.
  destruct d as [request pool device ids mig vfio sharing]. intros [Hm Hv]. cbn [pds_MIG pds_VFIO] in *.
  set (d := mkPreparedDeviceState request pool device ids mig vfio sharing).
  set (fs := match jsonOfDevice d with JObject fs => fs | _ => [] end).
  assert (jfield "cdiDeviceIDs" fs = match ids with [] => None | _ => Some (jstrings ids) end) as Hids
    by (subst fs d; by destruct ids, mig, vfio, sharing).
  assert (jfield "mig" fs = jsonOfMig <$> mig) as Hmig by (subst fs d; by destruct ids, mig, vfio, sharing).
  assert (jfield "vfio" fs = jsonOfVfio <$> vfio) as Hvfio by (subst fs d; by destruct ids, mig, vfio, sharing).
  assert (jfield "sharing" fs = jsonOfSharing <$> sharing) as Hsh by (subst fs d; by destruct ids, mig, vfio, sharing).
  assert (sliceOf (stringOf ∘ Some) (jfield "cdiDeviceIDs" fs) = Ok ids) as Hids'.
  { rewrite Hids. destruct ids as [|i ids]; [done|]. apply mapM_encoded, Forall_forall. done. }
  change (deviceOfJson (jsonOfDevice d)) with (
    ids' ← sliceOf (stringOf ∘ Some) (jfield "cdiDeviceIDs" fs);
    mig' ← pointerOf migOfJson (jfield "mig" fs); vfio' ← pointerOf vfioOfJson (jfield "vfio" fs);
    sharing' ← pointerOf sharingOfJson (jfield "sharing" fs);
    Ok (mkPreparedDeviceState request pool device ids' mig' vfio' sharing')).
  rewrite Hids', Hmig, Hvfio, Hsh. cbn [mbind res_bind].
  rewrite (pointer_field jsonOfMig) by (try done; intros a ->; by apply migOfJson_jsonOf). cbn [mbind res_bind].
  rewrite (pointer_field jsonOfVfio) by (try done; intros a ->; by apply vfioOfJson_jsonOf). cbn [mbind res_bind].
  rewrite (pointer_field jsonOfSharing) by (try done; intros a ->; apply sharingOfJson_jsonOf). reflexivity.
Qed.

Lemma claimOfJson_jsonOf c : Forall device_int64 (pc_Devices c) → claimOfJson (jsonOfClaim c) = Ok c.
Proof.
  destruct c as [state devices]. intros Hd. cbn [pc_Devices] in Hd.
  change (claimOfJson (jsonOfClaim (mkPreparedClaim state devices))) with (
    devices' ← sliceOf deviceOfJson (jfield "devices" (unlessEmpty "devices" devices (λ l, JArray (jsonOfDevice <$> l))));
    Ok (mkPreparedClaim state devices')).
  assert (sliceOf deviceOfJson (jfield "devices" (unlessEmpty "devices" devices (λ l, JArray (jsonOfDevice <$> l)))) = Ok devices)
    as ->; [|done].
  destruct devices as [|d ds]; [done|]. cbn -[fmap list_fmap]. apply mapM_encoded.
  eapply Forall_impl; [exact Hd|]. intros x. apply deviceOfJson_jsonOf.
Qed.

Lemma checkpointOfJson_jsonOf cp : checkpoint_int64 cp → checkpointOfJson (jsonOfCheckpoint cp) = Ok cp.
Proof.
  destruct cp as [version claims]. intros Hall. unfold checkpoint_int64 in Hall. cbn [pcp_Claims] in Hall.
  unfold checkpointOfJson, jsonOfCheckpoint. cbn [structOf pcp_Version pcp_Claims].
  set (l := merge_sort _ _). assert (l ≡ₚ map_to_list claims) as Hl by apply merge_sort_Permutation.
  assert (mapM (λ kv, a ← claimOfJson (snd kv); Ok (fst kv, a)) (prod_map id jsonOfClaim <$> l) = Ok l) as HM.
  { apply mapM_encoded, Forall_forall. intros [uid c] Hin. cbn [prod_map fst snd id].
    rewrite claimOfJson_jsonOf; [done|]. rewrite Hl in Hin. apply elem_of_map_to_list in Hin. by apply (Hall uid). }
  change (jfield "version" _) with (Some (JString version)).
  match goal with |- context [jfield "claims" ?fs] => change (jfield "claims" fs) with
    (Some (JObject (prod_map id jsonOfClaim <$> l))) end.
  cbn [stringOf mbind res_bind mapOf]. rewrite HM. cbn [mbind res_bind]. do 2 f_equal.
  rewrite <- (list_to_map_to_list claims). apply list_to_map_proper; [|done].
  rewrite Hl. apply NoDup_fst_map_to_list.
Qed.

(** * The checkpoint file: pkg/dra/adapters/checkpoint/file

    The store writes the checkpoint to a temporary file and renames it over the
    old one.  The theorem is that the store refines a single cell: whatever
    calls fail and wherever the process is killed, the file holds the last
    checkpoint that was saved, or the one being saved when the process died, and
    never anything else.  A loss of power is outside of it: the code does not
    sync the file before the rename. *)

Section Store.
Context {FS : Type} `{OsFiles FS} `{JsonCodec}.

(** The path of the store; [None] is a nil store. *)
Abbreviation Store := (option string).

Definition Store_Load (s : Store) (fs : FS) : res PrepareCheckpoint :=
  match s with
  | None | Some EmptyString => Err (Errorf "checkpoint path is not configured" [])
  | Some path =>
      match os_ReadFile path fs with
      | Err err =>
          if os_IsNotExist err then Ok zeroCheckpoint else Err (Wrapf "read checkpoint: %w" [] err)
      | Ok data =>
          if str_eqb data "" then Ok zeroCheckpoint else
          match (j ← json_Unmarshal data; checkpointOfJson j) with
          | Err err => Err (Wrapf "decode checkpoint: %w" [] err)
          | Ok checkpoint => Ok checkpoint
          end
      end
  end.

Definition writeAtomically (path data : string) (perm : Z) : Op FS () :=
  let dir := filepath_Dir path in
  let base := filepath_Base path in
  tmp ← op_wrap (Wrapf "create temp file: %w" []) (os_CreateTemp dir (base +:+ ".*.tmp"));
  op_defer (os_Remove tmp) (
    _ ← op_onError (file_Close tmp) (op_wrap (Wrapf "chmod temp file: %w" []) (file_Chmod tmp perm));
    _ ← op_onError (file_Close tmp) (op_wrap (Wrapf "write temp file: %w" []) (file_Write tmp data));
    _ ← op_wrap (Wrapf "close temp file: %w" []) (file_Close tmp);
    op_wrap (Wrapf "rename checkpoint: %w" []) (os_Rename tmp path)).

(** Permissions 0o755 and 0o644. *)
Definition Store_Save (s : Store) (checkpoint : PrepareCheckpoint) : Op FS () :=
  match s with
  | None | Some EmptyString => op_lift (Err (Errorf "checkpoint path is not configured" []))
  | Some path =>
      _ ← op_wrap (Wrapf "ensure checkpoint dir: %w" []) (os_MkdirAll (filepath_Dir path) 493);
      data ← op_wrap (Wrapf "encode checkpoint: %w" []) (op_lift (json_Marshal (jsonOfCheckpoint checkpoint)));
      writeAtomically path data 420
  end.

(** ** What a file means *)

Context `{!OsFilesLaws FS} `{!JsonCodecLaws}.
Context (path : string) (Hpath : path ≠ "").

Definition decodeFile (contents : option string) : res PrepareCheckpoint :=
  match contents with
  | None | Some EmptyString => Ok zeroCheckpoint
  | Some data => j ← json_Unmarshal data; checkpointOfJson j
  end.

(** The checkpoint the file holds. *)
Definition holds (fs : FS) (c : PrepareCheckpoint) : Prop := decodeFile (fileAt fs path) = Ok c.

(** A [Store_Load] answers with the checkpoint the file holds, unless the file cannot
    be read. *)
Lemma Load_holds fs c : holds fs c →
  Store_Load (Some path) fs = Ok c ∨ ∃ e, Store_Load (Some path) fs = Err (Wrapf "read checkpoint: %w" [] e).
Proof.
  unfold holds, Store_Load, decodeFile. intros Hh. destruct path as [|ch p]; [done|].
  destruct (os_ReadFile (String ch p) fs) as [data|e] eqn:Hr.
  - apply readFile_answer in Hr. rewrite Hr in Hh. destruct data; [by left|]. simpl in *. left.
    by rewrite Hh.
  - destruct (os_IsNotExist e) eqn:He; [|right; by exists e]. left. apply (readFile_absent _ _ _ Hr) in He.
    by rewrite He in Hh.
Qed.

(** ** A write happens at once or not at all *)

Lemma temp_differs tmp : hasPattern (filepath_Base path +:+ ".") ".tmp" tmp → tmp ≠ path.
Proof.
  intros (rnd & Hb) ->. apply (f_equal String.length) in Hb. rewrite !str_length_app in Hb. simpl in Hb. lia.
Qed.

(** A single call that leaves the file of the store alone. *)
Lemma triple_frame {A} (m : Op FS A) (P : FS → Prop) I (Q : A → FS → Prop) (X : FS → Prop) (except : string → Prop) :
  (∀ fs, P fs → through m fs (sameFiles except fs)) →
  (∀ fs fs', P fs → sameFiles except fs fs' → I fs' ∧ X fs') →
  (∀ fs a, P fs → answer m fs = Ok a → sameFiles except fs (after m fs) → Q a (after m fs)) →
  op_triple P I m Q X.
Proof.
  intros Hm HI HQ fs HP. destruct (Hm fs HP) as [Hseen Hend]. specialize (HQ fs).
  unfold answer, after in HQ. split.
  - eapply Forall_impl; [exact Hseen|]. intros fs' Hfs'. by apply (HI fs).
  - destruct (m fs) as [seen [[a|e] fs']]; simpl in *; [by apply HQ|by apply (HI fs)].
Qed.

Section Write.
Context (old : option string) (data : string).
Let I (fs : FS) : Prop := fileAt fs path = old ∨ fileAt fs path = Some data.
Let untouched (fs : FS) : Prop := fileAt fs path = old.

(** The temporary file and its contents. *)
Let written (tmp text : string) (fs : FS) : Prop :=
  untouched fs ∧ tmp ≠ path ∧ fileAt fs tmp = Some text.

Lemma create_triple dir : op_triple untouched I (os_CreateTemp dir (filepath_Base path +:+ ".*.tmp"))
  (λ tmp, written tmp "") untouched.
Proof.
  assert (∀ fs, fileAt fs path = old → I fs) as HI by (intros; by left).
  replace (filepath_Base path +:+ ".*.tmp") with ((filepath_Base path +:+ ".") +:+ "*" +:+ ".tmp")
    by (by rewrite str_app_assoc).
  apply (triple_frame _ _ _ _ _ (hasPattern (filepath_Base path +:+ ".") ".tmp")).
  - intros fs _. by apply createTemp_files.
  - intros fs fs' Hfs Hsame. assert (untouched fs') as Ho; [|split; [by apply HI|done]].
    unfold untouched. rewrite Hsame; [done|]. by intros ?%temp_differs.
  - intros fs tmp Hfs Hans Hsame. destruct (createTemp_name dir (filepath_Base path +:+ ".") ".tmp" fs tmp) as [Hp Hc]; [done..|].
    split; [|split; [by apply temp_differs|done]]. unfold untouched. rewrite Hsame; [done|]. by intros ?%temp_differs.
Qed.

(** A call that changes no file, or only the temporary one. *)
Lemma keep_triple {A} (m : Op FS A) tmp text :
  (∀ fs, through m fs (sameFiles (λ _, False) fs)) →
  op_triple (written tmp text) I m (λ _, written tmp text) (written tmp text).
Proof.
  intros Hm. assert (∀ fs fs', written tmp text fs → sameFiles (λ _, False) fs fs' → written tmp text fs') as Hkeep.
  { intros fs fs' (Ho & Hne & Ht) Hsame. split; [|split; [done|]]; [unfold untouched|]; by rewrite Hsame by tauto. }
  apply (triple_frame _ _ _ _ _ (λ _, False)); [intros; apply Hm| |].
  - intros fs fs' Hfs Hsame. pose proof (Hkeep _ _ Hfs Hsame) as Hk. split; [left; apply Hk|done].
  - intros fs a Hfs _ Hsame. by eapply Hkeep.
Qed.

Lemma write_triple tmp : op_triple (written tmp "") I (file_Write tmp data)
  (λ _, written tmp data) (λ fs, untouched fs ∧ tmp ≠ path).
Proof.
  apply (triple_frame _ _ _ _ _ (λ p, p = tmp)); [intros; apply write_files| |].
  - intros fs fs' (Ho & Hne & _) Hsame. assert (untouched fs') as Ho' by (unfold untouched; by rewrite Hsame).
    split; [by left|done].
  - intros fs [] (Ho & Hne & Ht) Hans Hsame. split; [|split; [done|]].
    + unfold untouched. by rewrite Hsame.
    + by apply (write_answer tmp data fs "").
Qed.

Lemma rename_triple tmp : op_triple (written tmp data) I (os_Rename tmp path)
  (λ _ fs, fileAt fs path = Some data ∧ tmp ≠ path) (λ fs, untouched fs ∧ tmp ≠ path).
Proof.
  intros fs (Ho & Hne & Ht). destruct (rename_files tmp path fs) as [Hseen _].
  pose proof (rename_answer tmp path fs) as Hans. unfold answer, after in Hans. split.
  - eapply Forall_impl; [exact Hseen|]. intros fs' [Hsame|[Hr _]].
    + left. by rewrite Hsame by tauto.
    + right. by rewrite Hr.
  - destruct (os_Rename tmp path fs) as [seen [[[]|e] fs']]; simpl in *.
    + destruct Hans as [Hr _]. by rewrite Hr.
    + split; [|done]. unfold untouched. by rewrite Hans by tauto.
Qed.

(** Cleaning up never touches the file of the store. *)
Lemma cleanup_triple {A} (m : Op FS A) tmp (P : option string → Prop) :
  (∀ fs, through m fs (sameFiles (λ p, p = tmp) fs)) → (∀ o, P o → o = old ∨ o = Some data) →
  op_triple (λ fs, P (fileAt fs path) ∧ tmp ≠ path) I m
    (λ _ fs, P (fileAt fs path) ∧ tmp ≠ path) (λ fs, P (fileAt fs path) ∧ tmp ≠ path).
Proof.
  intros Hm HP. apply (triple_frame _ _ _ _ _ (λ p, p = tmp)); [intros; apply Hm| |].
  - intros fs fs' [Hp Hne] Hsame. rewrite Hsame by done. split; [|done]. unfold I. rewrite Hsame by done. by apply HP.
  - intros fs a [Hp Hne] _ Hsame. by rewrite Hsame.
Qed.

Lemma close_through tmp fs : through (file_Close tmp) fs (sameFiles (λ p, p = tmp) fs).
Proof.
  destruct (close_files tmp fs) as [Hs He]. split.
  - eapply Forall_impl; [exact Hs|]. intros fs' Hfs' p _. apply Hfs'; tauto.
  - intros p _. apply He; tauto.
Qed.

Lemma writeAtomically_triple perm : op_triple untouched I (writeAtomically path data perm)
  (λ _ fs, fileAt fs path = Some data) untouched.
Proof.
  assert (∀ fs, untouched fs → I fs) as HI by (intros; by left).
  unfold writeAtomically. eapply triple_op_bind; [apply triple_op_wrap, create_triple| |by intros tmp fs [? _]; apply HI].
  intros tmp. eapply (triple_op_conseq _ _ _ _ (λ _ fs, fileAt fs path = Some data ∧ tmp ≠ path) _ (λ fs, untouched fs ∧ tmp ≠ path));
    [|done|by intros ? ? [? _]|by intros ? [? _]].
  set (X := λ fs, untouched fs ∧ tmp ≠ path).
  assert (∀ text fs, written tmp text fs → X fs) as HX by (intros ? ? (? & ? & _); by split).
  assert (∀ m : Op FS (), (∀ fs, through m fs (sameFiles (λ p, p = tmp) fs)) → op_triple X I m (λ _, X) X) as Hclean.
  { intros m Hm. apply (cleanup_triple m tmp (λ o, o = old)); [done|intros; by left]. }
  eapply (triple_op_defer _ _ _ _ (λ _ fs, fileAt fs path = Some data ∧ tmp ≠ path) _ X).
  - eapply triple_op_bind; [eapply triple_op_onError|..].
    + apply triple_op_wrap, keep_triple. intros; apply chmod_files.
    + eapply triple_op_conseq; [apply Hclean; intros; apply close_through|apply HX|done|done].
    + intros fs [? _]. by apply HI.
    + intros []. eapply triple_op_bind; [eapply triple_op_onError|..].
      * apply triple_op_wrap, write_triple.
      * apply Hclean. intros; apply close_through.
      * intros fs [? _]. by apply HI.
      * intros []. eapply triple_op_bind.
        -- eapply triple_op_conseq; [apply triple_op_wrap, keep_triple; intros; apply close_files|done|done|apply HX].
        -- intros []. apply triple_op_wrap, rename_triple.
        -- intros ? fs [? _]. by apply HI.
      * intros ? fs [? _]. by apply HI.
    + intros ? fs [? _]. by apply HI.
  - intros []. apply (cleanup_triple _ tmp (λ o, o = Some data)); [intros; apply remove_files|intros; by right].
  - apply Hclean. intros; apply remove_files.
  - intros ? fs [Hd _]. by right.
  - intros fs [? _]. by apply HI.
Qed.
End Write.

(** ** Saving *)

Definition savable (cp : PrepareCheckpoint) : Prop := exact (jsonOfCheckpoint cp) ∧ checkpoint_int64 cp.

Lemma Save_configured cp : Store_Save (Some path) cp =
  (_ ← op_wrap (Wrapf "ensure checkpoint dir: %w" []) (os_MkdirAll (filepath_Dir path) 493);
   data ← op_wrap (Wrapf "encode checkpoint: %w" []) (op_lift (json_Marshal (jsonOfCheckpoint cp)));
   writeAtomically path data 420).
Proof. unfold Store_Save. by destruct path. Qed.

(** [Store_Save] at every instant holds the old checkpoint or the new one, the new
    one when it succeeds and the old one when it fails. *)
Lemma Save_triple cp c : savable cp → op_triple (λ fs, holds fs c) (λ fs, holds fs c ∨ holds fs cp)
  (Store_Save (Some path) cp) (λ _ fs, holds fs cp) (λ fs, holds fs c).
Proof.
  intros [Hex Hint] fs0 Hfs0. destruct (exact_marshal _ Hex) as (data & Hdata & Hne & Hun).
  assert (∀ fs, fileAt fs path = fileAt fs0 path → holds fs c) as Hold by (unfold holds; by intros fs ->).
  assert (∀ fs, fileAt fs path = Some data → holds fs cp) as Hnew.
  { unfold holds. intros fs ->. simpl. destruct data; [done|]. rewrite Hun. simpl. by apply checkpointOfJson_jsonOf. }
  assert (op_triple (λ fs, fileAt fs path = fileAt fs0 path)
    (λ fs, fileAt fs path = fileAt fs0 path ∨ fileAt fs path = Some data) (Store_Save (Some path) cp)
    (λ _ fs, fileAt fs path = Some data) (λ fs, fileAt fs path = fileAt fs0 path)) as Hsave.
  { rewrite Save_configured. eapply triple_op_bind; [apply triple_op_wrap|intros []|].
    - apply (triple_frame _ _ _ (λ _ fs, fileAt fs path = fileAt fs0 path) _ (λ _, False));
        [intros; apply mkdir_files| |].
      + intros fs fs' Hfs Hsame. rewrite Hsame by tauto. by split; [left|].
      + intros fs [] Hfs _ Hsame. by rewrite Hsame by tauto.
    - rewrite Hdata. apply (triple_op_bind _ _ _ _
        (λ text fs, text = data ∧ fileAt fs path = fileAt fs0 path)).
      + apply triple_op_wrap, triple_op_lift; [|done]. by intros a fs [= ->].
      + intros text fs [-> Hfs]. by apply writeAtomically_triple.
      + intros a fs [_ Hfs]. by left.
    - intros a fs Hfs. by left. }
  destruct (Hsave fs0 eq_refl) as [Hseen Hend]. split.
  - eapply Forall_impl; [exact Hseen|]. intros fs [?|?]; [left|right]; auto.
  - destruct (snd (Store_Save (Some path) cp fs0)) as [[[]|e] fs']; auto.
Qed.

(** ** The store is a cell

    The life of the file: saves that return, and processes killed in the middle
    of one. *)
Inductive diskEvent :=
| Saved (cp : PrepareCheckpoint) (r : res ())
| Killed (cp : PrepareCheckpoint).

Inductive diskRun : FS → list diskEvent → FS → Prop :=
| run_done fs : diskRun fs [] fs
| run_saved fs cp evs fs' :
    diskRun (after (Store_Save (Some path) cp) fs) evs fs' →
    diskRun fs (Saved cp (answer (Store_Save (Some path) cp) fs) :: evs) fs'
| run_killed fs cp at_ evs fs' :
    at_ ∈ fs :: fst (Store_Save (Some path) cp fs) ++ [after (Store_Save (Some path) cp) fs] → diskRun at_ evs fs' → diskRun fs (Killed cp :: evs) fs'.

(** What a cell may contain after such a life. *)
Inductive cellRun : PrepareCheckpoint → list diskEvent → PrepareCheckpoint → Prop :=
| cell_done c : cellRun c [] c
| cell_saved c cp evs c' : cellRun cp evs c' → cellRun c (Saved cp (Ok ()) :: evs) c'
| cell_failed c cp e evs c' : cellRun c evs c' → cellRun c (Saved cp (Err e) :: evs) c'
| cell_lost c cp evs c' : cellRun c evs c' → cellRun c (Killed cp :: evs) c'
| cell_kept c cp evs c' : cellRun cp evs c' → cellRun c (Killed cp :: evs) c'.

Definition eventCheckpoint (ev : diskEvent) : PrepareCheckpoint :=
  match ev with Saved cp _ | Killed cp => cp end.

(** C20: the file store implements a cell of checkpoints, also when writes fail
    and when the process is killed at any point of a write: the file always
    holds a whole checkpoint, the last one saved or one that was being saved
    when a process was killed after it, and loading it returns exactly that
    checkpoint unless the file cannot be read. *)
Theorem store_refines_cell (fs fs' : FS) (evs : list diskEvent) (c : PrepareCheckpoint) :
  decodeFile (fileAt fs path) = Ok c → Forall (savable ∘ eventCheckpoint) evs → diskRun fs evs fs' →
  ∃ c', cellRun c evs c' ∧ decodeFile (fileAt fs' path) = Ok c' ∧
    (Store_Load (Some path) fs' = Ok c' ∨ ∃ e, Store_Load (Some path) fs' = Err (Wrapf "read checkpoint: %w" [] e)).
Proof.
  intros Hc Hall Hrun. fold (holds fs c) in Hc. revert c Hc.
  induction Hrun as [fs|fs cp evs fs' _ IH|fs cp at_ evs fs' Hat _ IH]; intros c Hc.
  - exists c. split; [constructor|]. split; [done|]. by apply Load_holds.
  - apply Forall_cons in Hall as [Hcp Hall]. destruct (Save_triple cp c Hcp fs Hc) as [_ Hend].
    unfold answer, after in *. destruct (snd (Store_Save (Some path) cp fs)) as [[[]|e] fs1]; simpl in *;
      destruct (IH Hall _ Hend) as (c' & Hcell & Hrest); exists c'; (split; [|done]); by constructor.
  - apply Forall_cons in Hall as [Hcp Hall]. destruct (Save_triple cp c Hcp fs Hc) as [Hseen Hend].
    assert (holds at_ c ∨ holds at_ cp) as [Hh|Hh].
    { apply elem_of_cons in Hat as [-> | [Hat | ->%list_elem_of_singleton]%elem_of_app]; [by left|by eapply Forall_forall in Hseen|].
      unfold after. destruct (snd (Store_Save (Some path) cp fs)) as [[[]|e] fs1]; [by right|by left]. }
    + destruct (IH Hall _ Hh) as (c' & Hcell & Hrest). exists c'. split; [by apply cell_lost|done].
    + destruct (IH Hall _ Hh) as (c' & Hcell & Hrest). exists c'. split; [by apply cell_kept|done].
Qed.
End Store.
