(* ===== verification/FsLock.v ===== *)
(** * The node lock: pkg/dra/adapters/lock/fslock

    [Lock] opens a file and polls [flock] on it until it gets the lock or its
    context ends; the function it returns releases it.  A call of [Lock] and of
    the function it returns is a state machine, one transition per system call,
    and any number of calls, in one process or in several, run interleaved over
    the kernel.  The theorems: at most one call is between its acquisition and
    its release, and the lock is never lost. *)

From S2P Require Import Prelude GoLib.

(** ** The kernel

    A descriptor stands for an open file description, the owner of a [flock]. *)
Class LockFiles (W : Type) := {
  os_OpenFile : string → W → res Z * W;
  flock_EX_NB : Z → W → res () * W;
  flock_UN : Z → W → res () * W;
  fd_Close : Z → W → res () * W;
  EWOULDBLOCK : error;
}.

(** What flock(2), open(2) and close(2) document, for one lock file that stays
    in place: the lock has at most one owner, an attempt fails with
    [EWOULDBLOCK] exactly when the owner is another description, and closing
    gives the lock up. *)
Class LockFilesLaws (W : Type) `{LockFiles W} := {
  owner : W → option Z;
  isOpen : W → Z → Prop;
  open_ok p w : match os_OpenFile p w with
    | (Ok fd, w') => ¬ isOpen w fd ∧ owner w ≠ Some fd ∧ owner w' = owner w ∧ ∀ d, isOpen w' d ↔ d = fd ∨ isOpen w d
    | (Err _, w') => owner w' = owner w ∧ ∀ d, isOpen w' d ↔ isOpen w d
    end;
  flock_ok fd w : isOpen w fd → (∀ d, isOpen (snd (flock_EX_NB fd w)) d ↔ isOpen w d) ∧
    match flock_EX_NB fd w with
    | (Ok _, w') => (owner w = None ∨ owner w = Some fd) ∧ owner w' = Some fd
    | (Err e, w') => owner w' = owner w ∧ (errorsIs e EWOULDBLOCK = true ↔ ∃ d, owner w = Some d ∧ d ≠ fd)
    end;
  unlock_ok fd w : isOpen w fd → (∀ d, isOpen (snd (flock_UN fd w)) d ↔ isOpen w d) ∧
    match flock_UN fd w with
    | (Ok _, w') => owner w' = if bool_decide (owner w = Some fd) then None else owner w
    | (Err _, w') => owner w' = owner w
    end;
  close_ok fd w : isOpen w fd → (∀ d, isOpen (snd (fd_Close fd w)) d ↔ d ≠ fd ∧ isOpen w d) ∧
    owner (snd (fd_Close fd w)) = if bool_decide (owner w = Some fd) then None else owner w;
}.

Section Lock.
Context {W : Type} `{LockFiles W}.

(** Where a call is: before the open, about to try, asleep after a refusal, in
    possession of the lock, between the unlock and the close of the release,
    and at the end.  [Gone] is a call whose process was killed. *)
Inductive Call :=
| Entry
| Trying (fd : Z)
| Sleeping (fd : Z)
| Locked (fd : Z)
| Releasing (fd : Z) (lockErr : option error)
| Failed (e : error)
| Released (r : res ())
| Gone.

(** The path of the locker; [None] is a nil locker. *)
Context (locker : option string).

(** One system call of [Lock] or of the release function.  [wake] is what ends
    a sleep: the timer, or the context with its error. *)
Definition lockStep (wake : option error) (c : Call) (w : W) : Call * W :=
  match c with
  | Entry =>
      match locker with
      | None | Some EmptyString => (Failed (Errorf "lock path is not configured" []), w)
      | Some path =>
          match os_OpenFile path w with
          | (Ok fd, w) => (Trying fd, w)
          | (Err err, w) => (Failed (Wrapf "open lock file: %w" [] err), w)
          end
      end
  | Trying fd =>
      match flock_EX_NB fd w with
      | (Ok _, w) => (Locked fd, w)
      | (Err err, w) =>
          if errorsIs err EWOULDBLOCK then (Sleeping fd, w) else
          let '(_, w) := fd_Close fd w in (Failed (Wrapf "acquire lock: %w" [] err), w)
      end
  | Sleeping fd =>
      match wake with
      | Some ctxErr => let '(_, w) := fd_Close fd w in (Failed ctxErr, w)
      | None => (Trying fd, w)
      end
  | Locked fd =>
      match flock_UN fd w with
      | (Ok _, w) => (Releasing fd None, w)
      | (Err lockErr, w) => (Releasing fd (Some lockErr), w)
      end
  | Releasing fd lockErr =>
      let '(closed, w) := fd_Close fd w in
      (Released match lockErr, closed with
                | Some lockErr, _ => Err (Wrapf "release lock: %w" [] lockErr)
                | None, Err closeErr => Err (Wrapf "close lock file: %w" [] closeErr)
                | None, Ok _ => Ok ()
                end, w)
  | c => (c, w)
  end.

(** The description a call has open. *)
Definition callFd (c : Call) : option Z :=
  match c with
  | Trying fd | Sleeping fd | Locked fd | Releasing fd _ => Some fd
  | _ => None
  end.

(** Interleavings: a call begins, a call makes its next system call, or its
    process is killed and the kernel closes its descriptions. *)
Inductive sysStep : gmap nat Call * W → gmap nat Call * W → Prop :=
| sys_begin calls w i : calls !! i = None → sysStep (calls, w) (<[i := Entry]> calls, w)
| sys_step calls w i c wake : calls !! i = Some c →
    sysStep (calls, w) (<[i := fst (lockStep wake c w)]> calls, snd (lockStep wake c w))
| sys_kill calls w i c : calls !! i = Some c →
    sysStep (calls, w) (<[i := Gone]> calls, match callFd c with Some fd => snd (fd_Close fd w) | None => w end).

(** ** The invariant *)

Context `{!LockFilesLaws W}.

Record lockInv (s : gmap nat Call * W) : Prop := {
  inv_open i c fd : fst s !! i = Some c → callFd c = Some fd → isOpen (snd s) fd;
  inv_distinct i j c d fd : fst s !! i = Some c → fst s !! j = Some d →
    callFd c = Some fd → callFd d = Some fd → i = j;
  inv_locked i fd : fst s !! i = Some (Locked fd) → owner (snd s) = Some fd;
  inv_owner fd : owner (snd s) = Some fd → ∃ i c, fst s !! i = Some c ∧
    (c = Locked fd ∨ ∃ e, c = Releasing fd e);
}.

(** A step of call [i] in the form the invariant needs: what it does to its own
    description, and that the kernel touches no other. *)
Record localStep (c c' : Call) (w w' : W) : Prop := {
  ls_open fd : callFd c' = Some fd → callFd c = Some fd ∧ isOpen w' fd ∨ ¬ isOpen w fd ∧ isOpen w' fd;
  ls_others fd : callFd c ≠ Some fd → isOpen w fd → isOpen w' fd;
  ls_locked fd : c' = Locked fd → owner w' = Some fd;
  ls_keeps fd : callFd c ≠ Some fd → owner w = Some fd → owner w' = Some fd;
  ls_owner fd : owner w' = Some fd →
    (callFd c ≠ Some fd ∧ owner w = Some fd) ∨ c' = Locked fd ∨ ∃ e, c' = Releasing fd e;
}.

Lemma localStep_inv calls w i c c' w' : lockInv (calls, w) → calls !! i = Some c → localStep c c' w w' →
  lockInv (<[i := c']> calls, w').
Proof.
  intros [Ho Hd Hl Hw] Hi [Lo Lt Ll Lk Lw]. simpl in *.
  assert (∀ j d fd, j ≠ i → calls !! j = Some d → callFd d = Some fd → callFd c ≠ Some fd) as Hne.
  { intros j d fd Hji Hj Hfd Hc. by apply Hji, (Hd j i d c fd). }
  split; simpl.
  - intros j d fd Hj Hfd. destruct (decide (j = i)) as [->|Hji].
    + rewrite lookup_insert_eq in Hj. simplify_eq. destruct (Lo fd Hfd) as [[_ ?]|[_ ?]]; done.
    + rewrite lookup_insert_ne in Hj by done. apply Lt; [by eapply Hne|by eapply Ho].
  - assert (∀ j d fd, j ≠ i → calls !! j = Some d → callFd d = Some fd → callFd c' = Some fd → False) as Hfresh.
    { intros j d fd Hji Hj Hfd Hc'. destruct (Lo fd Hc') as [[Hc _]|[Hn _]]; [by eapply Hne|]. by eapply Hn, Ho. }
    intros j k d e fd Hj Hk Hfd Hfe. destruct (decide (j = i)) as [->|Hji], (decide (k = i)) as [->|Hki]; [done|..].
    + rewrite lookup_insert_eq in Hj. rewrite lookup_insert_ne in Hk by done. simplify_eq. by destruct (Hfresh k e fd).
    + rewrite lookup_insert_eq in Hk. rewrite lookup_insert_ne in Hj by done. simplify_eq. by destruct (Hfresh j d fd).
    + rewrite lookup_insert_ne in Hj, Hk by done. by eapply Hd.
  - intros j fd Hj. destruct (decide (j = i)) as [->|Hji].
    + rewrite lookup_insert_eq in Hj. simplify_eq. by apply Ll.
    + rewrite lookup_insert_ne in Hj by done. apply Lk; [by eapply Hne|by eapply Hl].
  - intros fd Hfd. destruct (Lw fd Hfd) as [[Hc Hw0]|Hc'].
    + destruct (Hw fd Hw0) as (j & d & Hj & Hdd). exists j, d.
      rewrite lookup_insert_ne; [done|]. intros ->. simplify_eq. apply Hc. by destruct Hdd as [-> | [e ->]].
    + exists i, c'. by rewrite lookup_insert_eq.
Qed.

(** Closing the description of a call. *)
Lemma close_local c c' fd w : callFd c = Some fd → callFd c' = None → isOpen w fd →
  localStep c c' w (snd (fd_Close fd w)).
Proof.
  intros Hc Hc' Hopen. destruct (close_ok fd w Hopen) as [Ho Hw]. split.
  - intros d Hd. congruence.
  - intros d Hd Hdo. apply Ho. split; [congruence|done].
  - intros d ->. done.
  - intros d Hd Hdw. rewrite Hw, bool_decide_eq_false_2; [done|congruence].
  - intros d Hd. rewrite Hw in Hd. case_bool_decide as Hfd; [done|]. left. split; [|done]. intros Hcd. congruence.
Qed.

(** A call that touches nothing: descriptions and owner stay. *)
Lemma quiet_local c c' w w' : callFd c' = callFd c ∨ callFd c' = None → (∀ fd, c' ≠ Locked fd) →
  (∀ fd, owner w = Some fd → callFd c ≠ Some fd) → (∀ fd, callFd c = Some fd → isOpen w fd) →
  owner w' = owner w → (∀ d, isOpen w' d ↔ isOpen w d) → localStep c c' w w'.
Proof.
  intros Hfd Hl Hw Hopen Ho Hi. split.
  - intros fd Hfd'. left. destruct Hfd as [Hfd|Hfd]; [|congruence]. rewrite Hfd in Hfd'. split; [done|]. apply Hi. auto.
  - intros fd _ Hfd'. by apply Hi.
  - intros fd Hc'. by destruct (Hl fd).
  - intros fd _ Hfd'. by rewrite Ho.
  - intros fd Hfd'. rewrite Ho in Hfd'. left. split; [by apply Hw|done].
Qed.

(** A waiting call does not own the lock. *)
Lemma waiting_not_owner calls w i c fd : lockInv (calls, w) → calls !! i = Some c →
  (∀ d, c ≠ Locked d) → (∀ d e, c ≠ Releasing d e) → owner w = Some fd → callFd c ≠ Some fd.
Proof.
  intros Hinv Hi Hl Hr Hw Hc. destruct (inv_owner _ Hinv fd Hw) as (j & d & Hj & Hd).
  assert (callFd d = Some fd) as Hfd by (by destruct Hd as [-> | [e ->]]).
  assert (i = j) as <- by (by eapply (inv_distinct _ Hinv)). simpl in *. simplify_eq.
  destruct Hd as [-> | [e ->]]; [by eapply Hl|by eapply Hr].
Qed.

Lemma lockStep_local calls w i c wake : lockInv (calls, w) → calls !! i = Some c →
  localStep c (fst (lockStep wake c w)) w (snd (lockStep wake c w)).
Proof.
  intros Hinv Hi. assert (∀ fd, callFd c = Some fd → isOpen w fd) as Hopen by (intros fd Hfd; by eapply (inv_open _ Hinv)).
  assert ((∀ d, c ≠ Locked d) → (∀ d e, c ≠ Releasing d e) → ∀ fd, owner w = Some fd → callFd c ≠ Some fd) as Hnot
    by (intros ? ? fd; by eapply waiting_not_owner).
  destruct c as [|fd|fd|fd|fd lockErr|e|r|]; cbn [lockStep callFd] in *.
  - destruct locker as [[|ch p]|]; [by apply quiet_local; auto| |by apply quiet_local; auto].
    pose proof (open_ok (String ch p) w) as Hok. destruct (os_OpenFile (String ch p) w) as [[fd|e] w'].
    + destruct Hok as (Hnew & Hown & Ho & Hop). split; simpl; try done.
      * intros d [= <-]. right. split; [done|]. apply Hop. by left.
      * intros d _ Hd. apply Hop. by right.
      * intros d _. by rewrite Ho.
      * intros d Hd. left. rewrite Ho in Hd. by split.
    + destruct Hok as [Ho Hop]. apply quiet_local; simpl; auto.
  - destruct (flock_ok fd w (Hopen fd eq_refl)) as [Hop Hf].
    destruct (flock_EX_NB fd w) as [[[]|e] w'] eqn:Hflock; cbn [fst snd] in *.
    + destruct Hf as [Hfree Ho]. split; cbn [fst snd callFd].
      * intros d Hd. left. split; [done|]. apply Hop, Hopen, Hd.
      * intros d _ Hd. by apply Hop.
      * intros d [= <-]. done.
      * intros d Hd Hdw. destruct Hfree as [Hfree|Hfree]; congruence.
      * intros d Hd. right. left. congruence.
    + destruct Hf as [Ho Hblock]. destruct (errorsIs e EWOULDBLOCK) eqn:He.
      * apply quiet_local; simpl; auto; by apply Hnot.
      * assert (isOpen w' fd) as Hopen' by (apply Hop; auto).
        pose proof (close_local (Trying fd) (Failed (Wrapf "acquire lock: %w" [] e)) fd w' eq_refl eq_refl Hopen') as [H1 H2 H3 H4 H5].
        destruct (fd_Close fd w') as [r w'']. cbn [fst snd] in *. split; try done.
        -- intros d Hd Hdo. apply H2; [done|by apply Hop].
        -- intros d Hd Hdw. apply H4; [done|by rewrite Ho].
        -- intros d Hd. destruct (H5 d Hd) as [[? ?]|[?|[? ?]]]; [|done|done]. left. by rewrite <- Ho.
  - destruct wake as [ctxErr|].
    + pose proof (close_local (Sleeping fd) (Failed ctxErr) fd w eq_refl eq_refl (Hopen fd eq_refl)) as Hc.
      by destruct (fd_Close fd w).
    + apply quiet_local; simpl; auto; by apply Hnot.
  - destruct (unlock_ok fd w (Hopen fd eq_refl)) as [Hop Hu].
    pose proof (inv_locked _ Hinv i fd Hi) as Hown. simpl in Hown.
    assert (∀ lockErr w', (∀ d, isOpen w' d ↔ isOpen w d) → owner w' = None ∨ owner w' = Some fd →
      localStep (Locked fd) (Releasing fd lockErr) w w') as Hrel.
    { intros lockErr w' Hop' Ho'. split; cbn [callFd].
      - intros d Hd. left. split; [done|]. by apply Hop', Hopen.
      - intros d _ Hd. by apply Hop'.
      - done.
      - congruence.
      - intros d Hd. right. right. exists lockErr. destruct Ho'; congruence. }
    destruct (flock_UN fd w) as [[[]|e] w']; cbn [fst snd] in *; apply Hrel; try done.
    + left. by rewrite Hu, bool_decide_eq_true_2.
    + right. by rewrite Hu.
  - pose proof (close_local (Releasing fd lockErr)) as Hc. specialize (Hc (fst (lockStep wake (Releasing fd lockErr) w)) fd w).
    cbn [lockStep] in Hc. destruct (fd_Close fd w) as [r w']. apply Hc; auto.
  - apply quiet_local; simpl; auto.
  - apply quiet_local; simpl; auto.
  - apply quiet_local; simpl; auto.
Qed.

Lemma begin_inv calls w i : lockInv (calls, w) → calls !! i = None → lockInv (<[i := Entry]> calls, w).
Proof.
  intros [Ho Hd Hl Hw] Hi. simpl in *.
  assert (∀ j c fd, <[i := Entry]> calls !! j = Some c → callFd c = Some fd → calls !! j = Some c) as Hold.
  { intros j c fd Hj Hc. destruct (decide (j = i)) as [->|]; [|by rewrite lookup_insert_ne in Hj].
    rewrite lookup_insert_eq in Hj. by simplify_eq. }
  split; simpl; eauto.
  intros fd Hfd. destruct (Hw fd Hfd) as (j & c & Hj & Hc). exists j, c. rewrite lookup_insert_ne; [done|]. by intros ->; simplify_eq.
Qed.

Lemma sysStep_inv s s' : sysStep s s' → lockInv s → lockInv s'.
Proof.
  intros [calls w i Hi|calls w i c wake Hi|calls w i c Hi] Hinv.
  - by apply begin_inv.
  - eapply localStep_inv; [done..|]. by eapply lockStep_local.
  - eapply localStep_inv; [done..|]. destruct (callFd c) as [fd|] eqn:Hc.
    + apply close_local; [done..|]. by eapply (inv_open _ Hinv).
    + by apply quiet_local; rewrite ?Hc; auto.
Qed.

Lemma reachable_inv w0 s : owner w0 = None → rtc sysStep (∅, w0) s → lockInv s.
Proof.
  intros Hw0 Hs. assert (lockInv (∅, w0)) as Hinit.
  { split; simpl; intros; [by simplify_map_eq..|congruence]. }
  revert Hinit. induction Hs as [s|s1 s2 s3 Hstep _ IH]; [done|]. intros Hinv. by apply IH, (sysStep_inv s1).
Qed.

(** C21: however the calls of [Lock] of any number of processes interleave,
    whichever system calls fail and whichever processes are killed, at most one
    call is between acquiring the lock and releasing it, and then the kernel
    lists it as the owner. *)
Theorem lock_exclusive (w0 : W) (calls : gmap nat Call) (w : W) (i j : nat) (fd fd' : Z) :
  owner w0 = None → rtc sysStep (∅, w0) (calls, w) →
  calls !! i = Some (Locked fd) → calls !! j = Some (Locked fd') → i = j ∧ owner w = Some fd.
Proof.
  intros Hw0 Hs Hi Hj. pose proof (reachable_inv w0 _ Hw0 Hs) as Hinv.
  pose proof (inv_locked _ Hinv i fd Hi) as H1. pose proof (inv_locked _ Hinv j fd' Hj) as H2. simpl in *.
  split; [|done]. eapply (inv_distinct _ Hinv i j); [done..|simpl; congruence].
Qed.

(** ** The lock is not lost *)

Fixpoint stepsAlone (wakes : list (option error)) (c : Call) (w : W) : Call * W :=
  match wakes with
  | [] => (c, w)
  | wake :: wakes => let '(c, w) := lockStep wake c w in stepsAlone wakes c w
  end.

(** C22: the lock is never lost, neither by a failed release nor by a killed
    process: in any state that can be reached, when no call holds the lock or is
    about to close it, a waiting call gets it within two of its own steps, unless
    [flock] reports an error of its own. *)
Theorem lock_available (w0 : W) (calls : gmap nat Call) (w : W) (i : nat) (fd : Z) (c : Call) :
  owner w0 = None → rtc sysStep (∅, w0) (calls, w) →
  calls !! i = Some c → c = Trying fd ∨ c = Sleeping fd →
  (∀ j d, calls !! j = Some d → (∀ f, d ≠ Locked f) ∧ (∀ f e, d ≠ Releasing f e)) →
  ∃ n, (n ≤ 2)%nat ∧ let '(c', w') := stepsAlone (replicate n None) c w in
    (c' = Locked fd ∧ owner w' = Some fd) ∨
    ∃ e, c' = Failed (Wrapf "acquire lock: %w" [] e) ∧ errorsIs e EWOULDBLOCK = false.
Proof.
  intros Hw0 Hs Hi Hc Hnone. pose proof (reachable_inv w0 _ Hw0 Hs) as Hinv.
  assert (isOpen w fd) as Hopen by (eapply (inv_open _ Hinv i c); [done|]; by destruct Hc as [-> | ->]).
  assert (owner w = None) as Hfree.
  { destruct (owner w) as [f|] eqn:Hw; [|done]. destruct (inv_owner _ Hinv f Hw) as (j & d & Hj & Hd).
    destruct (Hnone j d Hj) as [H1 H2]. by destruct Hd as [-> | [e ->]]; [destruct (H1 f)|destruct (H2 f e)]. }
  assert (let '(c', w') := lockStep None (Trying fd) w in (c' = Locked fd ∧ owner w' = Some fd) ∨
    ∃ e, c' = Failed (Wrapf "acquire lock: %w" [] e) ∧ errorsIs e EWOULDBLOCK = false) as Htry.
  { cbn [lockStep]. destruct (flock_ok fd w Hopen) as [_ Hf]. destruct (flock_EX_NB fd w) as [[[]|e] w']; [by left; destruct Hf|].
    destruct Hf as [_ Hblock]. destruct (errorsIs e EWOULDBLOCK) eqn:He.
    - destruct (proj1 Hblock eq_refl) as (d & Hd & _). congruence.
    - destruct (fd_Close fd w'). right. by exists e. }
  destruct Hc as [-> | ->]; [exists 1%nat|exists 2%nat]; (split; [lia|]);
    cbn [replicate stepsAlone]; [|change (lockStep None (Sleeping fd) w) with (Trying fd, w)]; cbn beta iota;
    by destruct (lockStep None (Trying fd) w).
Qed.
End Lock.
