(* ===== verification/MigNvml.v ===== *)
(** * MIG instances: pkg/dra/adapters/mig/nvml

    The manager makes a GPU instance at the requested placement with one compute
    instance on it, and destroys both.  NVML is an interface over the state of
    the hardware; its calls return a code besides their value, and a failed call
    of the manager undoes what it made. *)

From S2P Require Import Prelude GoLib Prepare.

(** ** NVML *)

Record GpuInstanceProfileInfo := mkGpuInstanceProfileInfo { gip_Id : Z; gip_SliceCount : Z }.
Record GpuInstanceInfo := mkGpuInstanceInfo { gii_Id : Z; gii_Start : Z; gii_Size : Z }.
Record ComputeInstanceProfileInfo := mkComputeInstanceProfileInfo { cip_Id : Z; cip_SliceCount : Z }.
Record ComputeInstanceInfo := mkComputeInstanceInfo { cii_Id : Z; cii_Device : Z }.

(** Handles of devices and instances are numbers; a call that returns a code
    only reads the state unless it also returns the state after it. *)
Class Nvml (G : Type) := {
  nv_SUCCESS : Z;
  nv_ERROR_ALREADY_INITIALIZED : Z;
  nv_ERROR_INVALID_ARGUMENT : Z;
  nv_ERROR_NOT_FOUND : Z;
  nv_DEVICE_MIG_ENABLE : Z;
  nv_ENGINE_PROFILE_SHARED : Z;
  nv_COMPUTE_INSTANCE_PROFILE_SLICE : Z → Z;
  nv_ErrorString : Z → string;
  nv_Init : G → Z * G;
  nv_Shutdown : G → G;
  nv_DeviceGetHandleByPciBusId : string → G → Z * Z;
  nv_DeviceGetMigMode : Z → G → Z * Z;
  nv_DeviceSetMigMode : Z → Z → G → (Z * Z) * G;
  nv_GetGpuInstanceProfileInfoById : Z → Z → G → GpuInstanceProfileInfo * Z;
  nv_GetGpuInstances : Z → Z → G → list Z * Z;
  nv_GpuInstanceGetInfo : Z → G → GpuInstanceInfo * Z;
  nv_GetComputeInstances : Z → Z → G → list Z * Z;
  nv_ComputeInstanceGetInfo : Z → G → ComputeInstanceInfo * Z;
  nv_DeviceGetUUID : Z → G → string * Z;
  nv_CreateGpuInstanceWithPlacement : Z → Z → Z * Z → G → (Z * Z) * G;
  nv_GetComputeInstanceProfileInfo : Z → Z → Z → G → ComputeInstanceProfileInfo * Z;
  nv_CreateComputeInstanceWithPlacement : Z → ComputeInstanceProfileInfo → Z * Z → G → (Z * Z) * G;
  nv_ComputeInstanceDestroy : Z → G → Z * G;
  nv_GpuInstanceDestroy : Z → G → Z * G;
  nv_DeviceGetGpuInstanceById : Z → Z → G → Z * Z;
  nv_GpuInstanceGetComputeInstanceById : Z → Z → G → Z * Z;
}.

Section Manager.
Context {G : Type} `{Nvml G}.

Definition Hw (A : Type) : Type := G → res A * G.
#[global] Instance Hw_ret : MRet Hw := λ A a g, (Ok a, g).
#[global] Instance Hw_bind : MBind Hw := λ A B f m g,
  match m g with (Ok a, g') => f a g' | (Err e, g') => (Err e, g') end.

Definition hw_lift {A} (r : res A) : Hw A := λ g, (r, g).
Definition succeeded (ret : Z) : bool := bool_decide (ret = nv_SUCCESS).

(** [if ret != nvml.SUCCESS { return fmt.Errorf(format, ..., ErrorString(ret)) }]
    after a call that reads and after one that changes the hardware. *)
Definition query {A} (format : string) (args : list string) (f : G → A * Z) : Hw A := λ g,
  let '(a, ret) := f g in
  (if succeeded ret then Ok a else Err (Errorf format (args ++ [nv_ErrorString ret])), g).
Definition act {A} (format : string) (f : G → (A * Z) * G) : Hw A := λ g,
  let '((a, ret), g') := f g in
  (if succeeded ret then Ok a else Err (Errorf format [nv_ErrorString ret]), g').

(** [_ = lib.ComputeInstanceDestroy(...)] and the like before an error. *)
Definition undo {A} (cleanup : G → G) (m : Hw A) : Hw A := λ g,
  match m g with (Err e, g') => (Err e, cleanup g') | ok => ok end.
Definition destroyGpu (gi : Z) (g : G) : G := snd (nv_GpuInstanceDestroy gi g).
Definition destroyCompute (ci : Z) (g : G) : G := snd (nv_ComputeInstanceDestroy ci g).

(** nvml.go *)
Definition initNVML : Hw () := λ g,
  let '(ret, g') := nv_Init g in
  (if succeeded ret || bool_decide (ret = nv_ERROR_ALREADY_INITIALIZED) then Ok ()
   else Err (Errorf "NVML init failed: %s" [nv_ErrorString ret]), g').

(** prepare_validate.go *)
Definition validatePrepareRequest (req : MigPrepareRequest) : res () :=
  if str_eqb (mpr_PCIBusID req) "" then Err (Errorf "pci bus id is required" []) else
  if mpr_SliceSize req <=? 0 then Err (Errorf "mig placement size is required" []) else Ok ().

(** prepare_helpers.go *)
Definition ensureMigMode (device : Z) : Hw () :=
  current ← query "get mig mode: %s" [] (nv_DeviceGetMigMode device);
  if bool_decide (current = nv_DEVICE_MIG_ENABLE) then mret () else
  activation ← act "enable mig mode: %s" (nv_DeviceSetMigMode device nv_DEVICE_MIG_ENABLE);
  if succeeded activation then mret () else
  hw_lift (Err (Errorf "mig mode activation pending: %s" [nv_ErrorString activation])).

Definition lookupProfile (device profileID : Z) : Hw GpuInstanceProfileInfo :=
  query "get mig profile info: %s" [] (nv_GetGpuInstanceProfileInfoById device profileID).

(** profiles.go *)
Definition computeProfileBySliceCount (sliceCount : Z) : option Z :=
  if bool_decide (sliceCount ∈ [1; 2; 3; 4; 6; 7; 8]) then Some (nv_COMPUTE_INSTANCE_PROFILE_SLICE sliceCount) else None.

Definition computeProfileForSlices (sliceCount : Z) (gpuInstance : option Z) (g : G) : ComputeInstanceProfileInfo * Z :=
  match computeProfileBySliceCount sliceCount with
  | None => (mkComputeInstanceProfileInfo 0 0, nv_ERROR_INVALID_ARGUMENT)
  | Some profile =>
      match gpuInstance with
      | None => (mkComputeInstanceProfileInfo (profile `mod` 2 ^ 32) 0, nv_SUCCESS)
      | Some gi => nv_GetComputeInstanceProfileInfo gi profile nv_ENGINE_PROFILE_SHARED g
      end
  end.

Definition selectComputePlacement (info : ComputeInstanceProfileInfo) : Z * Z := (0, cip_SliceCount info).

(** existing.go: the loop over the GPU instances of the profile *)
Definition preparedDevice (req : MigPrepareRequest) (gpuID computeID : Z) (uuid : string) : PreparedMigDevice :=
  mkPreparedMigDevice (mpr_PCIBusID req) (mpr_ProfileID req) (mpr_SliceStart req) (mpr_SliceSize req) gpuID computeID uuid.

Fixpoint findLoop (ciInfo : ComputeInstanceProfileInfo) (req : MigPrepareRequest) (gis : list Z) (g : G)
    : option PreparedMigDevice :=
  match gis with
  | [] => None
  | gi :: rest =>
      let next := findLoop ciInfo req rest g in
      let '(info, giRet) := nv_GpuInstanceGetInfo gi g in
      if negb (succeeded giRet) then next else
      if negb (gii_Start info =? mpr_SliceStart req) || negb (gii_Size info =? mpr_SliceSize req) then next else
      let '(computeInstances, ciRet) := nv_GetComputeInstances gi (cip_Id ciInfo) g in
      match succeeded ciRet, computeInstances with
      | true, ci :: _ =>
          let '(computeInfo, ciInfoRet) := nv_ComputeInstanceGetInfo ci g in
          if negb (succeeded ciInfoRet) then next else
          let '(uuid, uuidRet) := nv_DeviceGetUUID (cii_Device computeInfo) g in
          if negb (succeeded uuidRet) then next else
          Some (preparedDevice req (gii_Id info) (cii_Id computeInfo) uuid)
      | _, _ => next
      end
  end.

Definition findExisting (device : Z) (profile : GpuInstanceProfileInfo) (req : MigPrepareRequest) (g : G)
    : option PreparedMigDevice :=
  let '(gpuInstances, ret) := nv_GetGpuInstances device (gip_Id profile) g in
  if negb (succeeded ret) || list_len0 gpuInstances then None else
  let '(ciInfo, ret) := computeProfileForSlices (gip_SliceCount profile) None g in
  if negb (succeeded ret) then None else findLoop ciInfo req gpuInstances g.

(** What follows the creation of the GPU instance, and of the compute instance. *)
Definition describeMig (req : MigPrepareRequest) (gpuInstance computeInstance : Z) : Hw PreparedMigDevice :=
  gpuInfo ← query "get gpu instance info: %s" [] (nv_GpuInstanceGetInfo gpuInstance);
  computeInfo ← query "get compute instance info: %s" [] (nv_ComputeInstanceGetInfo computeInstance);
  uuid ← query "get mig uuid: %s" [] (nv_DeviceGetUUID (cii_Device computeInfo));
  mret (preparedDevice req (gii_Id gpuInfo) (cii_Id computeInfo) uuid).

Definition createMigDevice (device : Z) (profileInfo : GpuInstanceProfileInfo) (req : MigPrepareRequest)
    : Hw PreparedMigDevice :=
  gpuInstance ← act "create gpu instance: %s" (nv_CreateGpuInstanceWithPlacement device (gip_Id profileInfo)
    (mpr_SliceStart req `mod` 2 ^ 32, mpr_SliceSize req `mod` 2 ^ 32));
  undo (destroyGpu gpuInstance) (
    ciInfo ← query "get compute profile: %s" [] (computeProfileForSlices (gip_SliceCount profileInfo) (Some gpuInstance));
    computeInstance ← act "create compute instance: %s"
      (nv_CreateComputeInstanceWithPlacement gpuInstance ciInfo (selectComputePlacement ciInfo));
    undo (destroyCompute computeInstance) (describeMig req gpuInstance computeInstance)).

(** [defer m.lib.Shutdown()] *)
Definition withShutdown {A} (m : Hw A) : Hw A := λ g, let '(r, g') := m g in (r, nv_Shutdown g').

(** prepare.go; [configured] says that the manager and its library are set *)
Definition Mig_Prepare (configured : bool) (req : MigPrepareRequest) : Hw PreparedMigDevice :=
  if negb configured then hw_lift (Err (Errorf "nvml is not configured" [])) else
  _ ← hw_lift (validatePrepareRequest req);
  _ ← initNVML;
  withShutdown (
    device ← query "get device by pci %q: %s" [mpr_PCIBusID req] (nv_DeviceGetHandleByPciBusId (mpr_PCIBusID req));
    _ ← ensureMigMode device;
    profileInfo ← lookupProfile device (mpr_ProfileID req);
    existing ← (λ g, (Ok (findExisting device profileInfo req g), g)) : Hw (option PreparedMigDevice);
    match existing with
    | Some existing => mret existing
    | None => createMigDevice device profileInfo req
    end).

(** unprepare.go *)
Definition destroyInstances (gpuInstance : Z) (state : PreparedMigDevice) : Hw () := λ g,
  let '(computeInstance, ret) := nv_GpuInstanceGetComputeInstanceById gpuInstance (pmd_ComputeInstanceID state) g in
  let '(destroyed, g) := if succeeded ret then nv_ComputeInstanceDestroy computeInstance g else (nv_SUCCESS, g) in
  if negb (succeeded destroyed) then (Err (Errorf "destroy compute instance: %s" [nv_ErrorString destroyed]), g) else
  if negb (succeeded ret) && negb (bool_decide (ret = nv_ERROR_NOT_FOUND))
  then (Err (Errorf "get compute instance: %s" [nv_ErrorString ret]), g) else
  let '(destroy, g) := nv_GpuInstanceDestroy gpuInstance g in
  if negb (succeeded destroy) && negb (bool_decide (destroy = nv_ERROR_NOT_FOUND))
  then (Err (Errorf "destroy gpu instance: %s" [nv_ErrorString destroy]), g) else (Ok (), g).

Definition unprepareOn (state : PreparedMigDevice) (device : Z) : Hw () := λ g,
  let '(gpuInstance, ret) := nv_DeviceGetGpuInstanceById device (pmd_GPUInstanceID state) g in
  if negb (succeeded ret) then
    if bool_decide (ret = nv_ERROR_NOT_FOUND) then (Ok (), g)
    else (Err (Errorf "get gpu instance: %s" [nv_ErrorString ret]), g)
  else destroyInstances gpuInstance state g.

Definition Mig_Unprepare (configured : bool) (state : PreparedMigDevice) : Hw () :=
  if negb configured then hw_lift (Err (Errorf "nvml is not configured" [])) else
  if str_eqb (pmd_PCIBusID state) "" then hw_lift (Err (Errorf "pci bus id is required" [])) else
  _ ← initNVML;
  withShutdown (
    device ← query "get device by pci %q: %s" [pmd_PCIBusID state] (nv_DeviceGetHandleByPciBusId (pmd_PCIBusID state));
    unprepareOn state device).
End Manager.

(** ** What NVML documents of instances *)

Record GpuInst := mkGpuInst { gi_device : Z; gi_id : Z; gi_start : Z; gi_size : Z }.
Record CompInst := mkCompInst { ci_gpu : Z; ci_id : Z }.

Class NvmlLaws (G : Type) `{Nvml G} := {
  gpuInsts : G → gmap Z GpuInst;
  compInsts : G → gmap Z CompInst;
  deviceAt : string → Z;
  sameInstances (g g' : G) : Prop := gpuInsts g' = gpuInsts g ∧ compInsts g' = compInsts g;
  codes_distinct : nv_SUCCESS ≠ nv_ERROR_NOT_FOUND ∧ nv_SUCCESS ≠ nv_ERROR_INVALID_ARGUMENT;
  gpu_ids g h h' x x' : gpuInsts g !! h = Some x → gpuInsts g !! h' = Some x' →
    gi_device x = gi_device x' → gi_id x = gi_id x' → h = h';
  comp_ids g h h' y y' : compInsts g !! h = Some y → compInsts g !! h' = Some y' →
    ci_gpu y = ci_gpu y' → ci_id y = ci_id y' → h = h';
  init_same g : sameInstances g (snd (nv_Init g));
  shutdown_same g : sameInstances g (nv_Shutdown g);
  setMigMode_same d mode g : sameInstances g (snd (nv_DeviceSetMigMode d mode g));
  handle_ok pci g d : nv_DeviceGetHandleByPciBusId pci g = (d, nv_SUCCESS) → d = deviceAt pci;
  instances_ok d p g l : nv_GetGpuInstances d p g = (l, nv_SUCCESS) →
    ∀ gi, gi ∈ l → ∃ x, gpuInsts g !! gi = Some x ∧ gi_device x = d;
  info_ok gi g info : nv_GpuInstanceGetInfo gi g = (info, nv_SUCCESS) →
    ∃ d, gpuInsts g !! gi = Some (mkGpuInst d (gii_Id info) (gii_Start info) (gii_Size info));
  computes_ok gi p g l : nv_GetComputeInstances gi p g = (l, nv_SUCCESS) →
    ∀ ci, ci ∈ l → ∃ y, compInsts g !! ci = Some y ∧ ci_gpu y = gi;
  compute_info_ok ci g info : nv_ComputeInstanceGetInfo ci g = (info, nv_SUCCESS) →
    ∃ gi, compInsts g !! ci = Some (mkCompInst gi (cii_Id info));
  create_gpu_ok d p pl g gi ret g' : nv_CreateGpuInstanceWithPlacement d p pl g = ((gi, ret), g') →
    if bool_decide (ret = nv_SUCCESS) then
      gpuInsts g !! gi = None ∧ (∀ ci y, compInsts g !! ci = Some y → ci_gpu y ≠ gi) ∧
      compInsts g' = compInsts g ∧ ∃ id, gpuInsts g' = <[gi := mkGpuInst d id (fst pl) (snd pl)]> (gpuInsts g)
    else sameInstances g g';
  create_compute_ok gi p pl g ci ret g' : nv_CreateComputeInstanceWithPlacement gi p pl g = ((ci, ret), g') →
    if bool_decide (ret = nv_SUCCESS) then
      compInsts g !! ci = None ∧ gpuInsts g' = gpuInsts g ∧
      ∃ id, compInsts g' = <[ci := mkCompInst gi id]> (compInsts g)
    else sameInstances g g';
  destroy_compute_ok ci g ret g' : nv_ComputeInstanceDestroy ci g = (ret, g') →
    if bool_decide (ret = nv_SUCCESS) then gpuInsts g' = gpuInsts g ∧ compInsts g' = delete ci (compInsts g)
    else sameInstances g g';
  destroy_gpu_ok gi g ret g' : nv_GpuInstanceDestroy gi g = (ret, g') →
    if bool_decide (ret = nv_SUCCESS) then gpuInsts g' = delete gi (gpuInsts g) ∧ compInsts g' = compInsts g
    else sameInstances g g' ∧ (ret = nv_ERROR_NOT_FOUND → gpuInsts g !! gi = None);
  gpu_by_id_ok d id g gi ret : nv_DeviceGetGpuInstanceById d id g = (gi, ret) →
    (ret = nv_SUCCESS → ∃ x, gpuInsts g !! gi = Some x ∧ gi_device x = d ∧ gi_id x = id) ∧
    (ret = nv_ERROR_NOT_FOUND → ∀ h x, gpuInsts g !! h = Some x → gi_device x = d → gi_id x ≠ id);
  compute_by_id_ok gi id g ci ret : nv_GpuInstanceGetComputeInstanceById gi id g = (ci, ret) →
    (ret = nv_SUCCESS → compInsts g !! ci = Some (mkCompInst gi id)) ∧
    (ret = nv_ERROR_NOT_FOUND → ∀ h y, compInsts g !! h = Some y → ci_gpu y = gi → ci_id y ≠ id);
}.

Section Theorems.
Context {G : Type} `{NvmlLaws G}.

Lemma same_refl g : sameInstances g g.
Proof. done. Qed.
Lemma same_trans g1 g2 g3 : sameInstances g1 g2 → sameInstances g2 g3 → sameInstances g1 g3.
Proof. intros [H1 H2] [H3 H4]. split; congruence. Qed.

Definition keeps {A} (m : Hw A) : Prop := ∀ g : G, sameInstances g (snd (m g)).

Lemma query_inv {A} format args (f : G → A * Z) g a g' : query format args f g = (Ok a, g') →
  f g = (a, nv_SUCCESS) ∧ g' = g.
Proof. unfold query, succeeded. destruct (f g) as [a' ret]. case_bool_decide; naive_solver. Qed.

Lemma query_keeps {A} format args (f : G → A * Z) : keeps (query format args f).
Proof. intros g. unfold query. by destruct (f g). Qed.

Lemma act_inv {A} format (f : G → (A * Z) * G) g a g' : act format f g = (Ok a, g') → f g = ((a, nv_SUCCESS), g').
Proof. unfold act, succeeded. destruct (f g) as [[a' ret] g1]. case_bool_decide; naive_solver. Qed.

Lemma hw_bind_inv {A B} (m : Hw A) (f : A → Hw B) (g : G) r g' : (m ≫= f) g = (r, g') →
  (∃ e, m g = (Err e, g') ∧ r = Err e) ∨ ∃ a g1, m g = (Ok a, g1) ∧ f a g1 = (r, g').
Proof. unfold mbind, Hw_bind. destruct (m g) as [[a|e] g1]; naive_solver. Qed.

(** Peel off a first part that leaves the instances alone. *)
Lemma keeps_bind {A B} (m : Hw A) (f : A → Hw B) g r g' : keeps m → (m ≫= f) g = (r, g') →
  (∃ e, r = Err e ∧ sameInstances g g') ∨ ∃ a g1, m g = (Ok a, g1) ∧ sameInstances g g1 ∧ f a g1 = (r, g').
Proof.
  intros Hm [(e & He & ->)|(a & g1 & Ha & Hf)]%hw_bind_inv.
  - left. exists e. split; [done|]. specialize (Hm g). by rewrite He in Hm.
  - right. exists a, g1. split; [done|]. split; [|done]. specialize (Hm g). by rewrite Ha in Hm.
Qed.

Lemma lift_keeps {A} (r : res A) : keeps (hw_lift r).
Proof. done. Qed.

Lemma init_keeps : keeps initNVML.
Proof. intros g. unfold initNVML. pose proof (init_same g) as Hs. by destruct (nv_Init g). Qed.

Lemma mode_keeps d : keeps (ensureMigMode d).
Proof.
  intros g. destruct (ensureMigMode d g) as [r g'] eqn:Hr. simpl. unfold ensureMigMode in Hr.
  destruct (keeps_bind _ _ _ _ _ (query_keeps _ _ _) Hr) as [(e & _ & ?)|(cur & g1 & _ & H1 & Hr1)]; [done|].
  case_bool_decide; [by injection Hr1 as <- <-|]. eapply same_trans; [exact H1|].
  apply hw_bind_inv in Hr1 as [(e & Hact & _)|(a & g2 & Hact & Hr2)]; unfold act in Hact;
    pose proof (setMigMode_same d nv_DEVICE_MIG_ENABLE g1) as Hs; destruct (nv_DeviceSetMigMode _ _ g1) as [[a' ret] g3];
    simpl in Hs; [by simplify_eq|].
  assert (g' = g3) as ->; [|done]. destruct (succeeded a); unfold mret, Hw_ret, hw_lift in Hr2; naive_solver.
Qed.

(** ** Making an instance *)

(** A GPU instance at the requested placement with a compute instance on it. *)
Definition instanceOf (m : PreparedMigDevice) (gi ci : Z) (g : G) : Prop :=
  gpuInsts g !! gi = Some (mkGpuInst (deviceAt (pmd_PCIBusID m)) (pmd_GPUInstanceID m) (pmd_SliceStart m) (pmd_SliceSize m)) ∧
  compInsts g !! ci = Some (mkCompInst gi (pmd_ComputeInstanceID m)).

Definition describes (m : PreparedMigDevice) (req : MigPrepareRequest) : Prop :=
  ∃ gpuID computeID uuid, m = preparedDevice req gpuID computeID uuid.

(** [g'] is [g] with one more GPU instance and one more compute instance. *)
Definition added (gi ci : Z) (g g' : G) : Prop :=
  gpuInsts g !! gi = None ∧ compInsts g !! ci = None ∧
  gpuInsts g = delete gi (gpuInsts g') ∧ compInsts g = delete ci (compInsts g').

Lemma findLoop_ok ciInfo req gis g d m : d = deviceAt (mpr_PCIBusID req) →
  (∀ gi, gi ∈ gis → ∃ x, gpuInsts g !! gi = Some x ∧ gi_device x = d) →
  findLoop ciInfo req gis g = Some m → describes m req ∧ ∃ gi ci, instanceOf m gi ci g.
Proof.
  intros Hd. induction gis as [|gi gis IH]; intros Hgis; [done|]. cbn [findLoop]. intros Hf.
  assert (findLoop ciInfo req gis g = Some m → describes m req ∧ ∃ gi ci, instanceOf m gi ci g) as Hnext
    by (apply IH; intros; apply Hgis; by right). clear IH.
  destruct (nv_GpuInstanceGetInfo gi g) as [info giRet] eqn:Hinfo. unfold succeeded in *.
  destruct (bool_decide_reflect (giRet = nv_SUCCESS)) as [->|]; [|by apply Hnext].
  destruct (gii_Start info =? mpr_SliceStart req) eqn:Hs; [|by apply Hnext].
  destruct (gii_Size info =? mpr_SliceSize req) eqn:Hz; [|by apply Hnext]. cbn [negb orb] in Hf.
  destruct (nv_GetComputeInstances gi (cip_Id ciInfo) g) as [cis ciRet] eqn:Hcis.
  destruct (bool_decide_reflect (ciRet = nv_SUCCESS)) as [->|]; [|by apply Hnext]. destruct cis as [|ci cis]; [by apply Hnext|].
  destruct (nv_ComputeInstanceGetInfo ci g) as [cinfo ciRet] eqn:Hci. destruct (bool_decide_reflect (ciRet = nv_SUCCESS)) as [->|];
    [|by apply Hnext].
  destruct (nv_DeviceGetUUID (cii_Device cinfo) g) as [uuid uret]. destruct (bool_decide_reflect (uret = nv_SUCCESS)); [|by apply Hnext].
  cbn [negb] in Hf. simplify_eq.
  apply Z.eqb_eq in Hs, Hz. split; [by eexists _, _, _|]. exists gi, ci. unfold instanceOf. cbn [preparedDevice pmd_PCIBusID
    pmd_GPUInstanceID pmd_SliceStart pmd_SliceSize pmd_ComputeInstanceID].
  destruct (info_ok gi g info Hinfo) as [d Hgi]. destruct (Hgis gi ltac:(left)) as (x & Hx & Hxd). rewrite Hgi in Hx.
  injection Hx as <-. simpl in Hxd. subst d. rewrite Hgi, Hs, Hz. split; [done|].
  destruct (compute_info_ok ci g cinfo Hci) as [gi' Hy]. destruct (computes_ok gi _ g _ Hcis ci ltac:(left)) as (y & Hy' & Hyg).
  rewrite Hy in Hy'. injection Hy' as <-. simpl in Hyg. by subst gi'.
Qed.

Lemma findExisting_ok d profile req g m : d = deviceAt (mpr_PCIBusID req) →
  findExisting d profile req g = Some m → describes m req ∧ ∃ gi ci, instanceOf m gi ci g.
Proof.
  intros Hd. unfold findExisting. destruct (nv_GetGpuInstances d (gip_Id profile) g) as [gis ret] eqn:Hg. unfold succeeded.
  case_bool_decide; [|done]. subst ret. destruct (list_len0 gis); [done|]. cbn [negb orb].
  destruct (computeProfileForSlices _ None g) as [ciInfo ret]. case_bool_decide; [|done].
  apply (findLoop_ok ciInfo req gis g d); [done|]. by eapply instances_ok.
Qed.

Lemma describe_inv req gi ci g m g' : describeMig req gi ci g = (Ok m, g') → g' = g ∧ describes m req ∧
  (∃ d, gpuInsts g !! gi = Some (mkGpuInst d (pmd_GPUInstanceID m) (gi_start (default (mkGpuInst 0 0 0 0) (gpuInsts g !! gi)))
    (gi_size (default (mkGpuInst 0 0 0 0) (gpuInsts g !! gi))))) ∧
  ∃ gi', compInsts g !! ci = Some (mkCompInst gi' (pmd_ComputeInstanceID m)).
Proof.
  unfold describeMig. intros [(e & _ & [=])|(info & g1 & [H1 ->]%query_inv & Hr)]%hw_bind_inv.
  apply hw_bind_inv in Hr as [(e & _ & [=])|(cinfo & g2 & [H2 ->]%query_inv & Hr)].
  apply hw_bind_inv in Hr as [(e & _ & [=])|(uuid & g3 & [H3 ->]%query_inv & Hr)]. injection Hr as <- <-.
  split; [done|]. split; [by eexists _, _, _|]. split.
  - destruct (info_ok gi g info H1) as [d Hd]. exists d. by rewrite Hd.
  - by apply compute_info_ok.
Qed.

Lemma describe_keeps req gi ci : keeps (describeMig (G := G) req gi ci).
Proof.
  intros g. destruct (describeMig req gi ci g) as [r g'] eqn:Hr. simpl. unfold describeMig in Hr.
  destruct (keeps_bind _ _ _ _ _ (query_keeps _ _ _) Hr) as [(e & _ & ?)|(i & g1 & _ & H1 & Hr1)]; [done|].
  destruct (keeps_bind _ _ _ _ _ (query_keeps _ _ _) Hr1) as [(e & _ & ?)|(c & g2 & _ & H2 & Hr2)]; [by eapply same_trans|].
  destruct (keeps_bind _ _ _ _ _ (query_keeps _ _ _) Hr2) as [(e & _ & ?)|(u & g3 & _ & H3 & Hr3)];
    [by eapply same_trans, same_trans|]. injection Hr3 as <- <-. eauto using same_trans.
Qed.

Lemma undo_inv {A} cleanup (m : Hw A) (g : G) r g' : undo cleanup m g = (r, g') →
  match r with Ok _ => m g = (r, g') | Err e => ∃ g1, m g = (Err e, g1) ∧ g' = cleanup g1 end.
Proof. unfold undo. destruct (m g) as [[a|e] g1]; intros [= <- <-]; eauto. Qed.

(** The placement of a request as NVML gets it, in 32 bits. *)
Definition placement32 (req : MigPrepareRequest) : Prop :=
  0 ≤ mpr_SliceStart req < 2 ^ 32 ∧ 0 ≤ mpr_SliceSize req < 2 ^ 32.

Lemma create_made d profile req g m g' : d = deviceAt (mpr_PCIBusID req) → placement32 req →
  createMigDevice d profile req g = (Ok m, g') →
  describes m req ∧ ∃ gi ci, instanceOf m gi ci g' ∧ added gi ci g g'.
Proof.
  intros -> [Hs Hz] [(e & _ & [=])|(gi & g1 & Hc%act_inv & Hr%undo_inv)]%hw_bind_inv.
  apply create_gpu_ok in Hc. rewrite bool_decide_eq_true_2 in Hc by done. destruct Hc as (Hgi & _ & Hcomp & id & Hgpu).
  rewrite !Z.mod_small in Hgpu by lia. simpl in Hgpu.
  apply hw_bind_inv in Hr as [(e & _ & [=])|(ciInfo & g1' & [_ ->]%query_inv & Hr)].
  apply hw_bind_inv in Hr as [(e & _ & [=])|(ci & g2 & Hk%act_inv & Hr%undo_inv)].
  apply create_compute_ok in Hk. rewrite bool_decide_eq_true_2 in Hk by done. destruct Hk as (Hci & Hgpu2 & cid & Hcomp2).
  apply describe_inv in Hr as (-> & Hm & [d Hgi2] & [gi' Hci2]). split; [done|].
  rewrite Hgpu2, Hgpu, lookup_insert_eq in Hgi2. simpl in Hgi2. injection Hgi2 as Hd Hid.
  rewrite Hcomp2, lookup_insert_eq in Hci2. injection Hci2 as Hgi' Hcid.
  destruct Hm as (gpuID & computeID & ? & ->). simpl in Hid, Hcid. subst gi' d id cid. exists gi, ci. split.
  - split; simpl; [by rewrite Hgpu2, Hgpu, lookup_insert_eq|by rewrite Hcomp2, lookup_insert_eq].
  - rewrite Hcomp in Hci. split; [done|]. split; [done|].
    by rewrite Hgpu2, Hgpu, Hcomp2, Hcomp, !delete_insert_id.
Qed.

(** NVML may refuse to destroy an instance, for example one that is in use; the
    clean-up of a failed call ignores the refusal. *)
Definition refused (gi ci : Z) : Prop := ∃ g : G,
  (is_Some (gpuInsts g !! gi) ∧ fst (nv_GpuInstanceDestroy gi g) ≠ nv_SUCCESS) ∨
  (is_Some (compInsts g !! ci) ∧ fst (nv_ComputeInstanceDestroy ci g) ≠ nv_SUCCESS).
(** [g'] has nothing more than [g] but these two. *)
Definition leftover (gi ci : Z) (g g' : G) : Prop :=
  (gpuInsts g' = gpuInsts g ∨ gpuInsts g !! gi = None ∧ gpuInsts g = delete gi (gpuInsts g')) ∧
  (compInsts g' = compInsts g ∨ compInsts g !! ci = None ∧ compInsts g = delete ci (compInsts g')).
Definition undone (g g' : G) : Prop := sameInstances g g' ∨ ∃ gi ci, refused gi ci ∧ leftover gi ci g g'.

Lemma destroyGpu_undoes g g1 gi x : gpuInsts g1 = <[gi := x]> (gpuInsts g) → gpuInsts g !! gi = None →
  compInsts (destroyGpu gi g1) = compInsts g1 ∧
  (gpuInsts (destroyGpu gi g1) = gpuInsts g ∨ gpuInsts (destroyGpu gi g1) = gpuInsts g1 ∧ ∀ ci, refused gi ci).
Proof.
  intros Hgpu Hgi. unfold destroyGpu. destruct (nv_GpuInstanceDestroy gi g1) as [ret g2] eqn:Hd. pose proof (destroy_gpu_ok _ _ _ _ Hd) as Hok.
  case_bool_decide as Hret; simpl.
  - destruct Hok as [H1 H2]. split; [done|]. left. by rewrite H1, Hgpu, delete_insert_id.
  - destruct Hok as [[H1 H2] _]. split; [done|]. right. split; [done|]. intros ci. exists g1. left. rewrite Hgpu, lookup_insert_eq, Hd. by split.
Qed.

Lemma destroyCompute_undoes g1 g2 ci y : compInsts g2 = <[ci := y]> (compInsts g1) →
  gpuInsts g2 = gpuInsts g1 → compInsts g1 !! ci = None →
  sameInstances g1 (destroyCompute ci g2) ∨ sameInstances g2 (destroyCompute ci g2) ∧ ∀ gi, refused gi ci.
Proof.
  intros Hcomp Hgpu Hci. unfold destroyCompute. destruct (nv_ComputeInstanceDestroy ci g2) as [ret g3] eqn:Hd.
  pose proof (destroy_compute_ok _ _ _ _ Hd) as Hok. case_bool_decide as Hret; simpl.
  - destruct Hok as [H1 H2]. left. split; [congruence|]. by rewrite H2, Hcomp, delete_insert_id.
  - right. split; [done|]. intros gi. exists g2. right. rewrite Hcomp, lookup_insert_eq, Hd. by split.
Qed.

(** The compute instance of a failed call: gone, or its destruction refused. *)
Lemma compute_failed req gi profile g1 e g2 :
  (ciInfo ← query "get compute profile: %s" [] (computeProfileForSlices (gip_SliceCount profile) (Some gi));
   computeInstance ← act "create compute instance: %s" (nv_CreateComputeInstanceWithPlacement gi ciInfo (selectComputePlacement ciInfo));
   undo (destroyCompute computeInstance) (describeMig req gi computeInstance)) g1 = (Err e, g2) →
  gpuInsts g2 = gpuInsts g1 ∧
  (compInsts g2 = compInsts g1 ∨ ∃ ci, refused gi ci ∧ compInsts g1 !! ci = None ∧ compInsts g1 = delete ci (compInsts g2)).
Proof.
  intros Hr. destruct (keeps_bind _ _ _ _ _ (query_keeps _ _ _) Hr) as [(e1 & _ & [? ?])|(ciInfo & g1' & _ & [Hs1 Hs2] & Hr1)]; [by auto|].
  rewrite <- Hs1, <- Hs2. apply hw_bind_inv in Hr1 as [(e1 & Hact & _)|(ci & g3 & Hk%act_inv & (g4 & Hr2 & ->)%undo_inv)].
  - unfold act in Hact. destruct (nv_CreateComputeInstanceWithPlacement _ _ _ g1') as [[ci ret] g3] eqn:Hc.
    unfold succeeded in Hact. apply create_compute_ok in Hc. case_bool_decide; [by simplify_eq|]. injection Hact as _ <-. destruct Hc. by auto.
  - apply create_compute_ok in Hk. rewrite bool_decide_eq_true_2 in Hk by done. destruct Hk as (Hci & Hg3 & cid & Hcomp3).
    pose proof (describe_keeps req gi ci g3) as [Hd1 Hd2]. rewrite Hr2 in Hd1, Hd2. simpl in Hd1, Hd2. rewrite Hg3 in Hd1. rewrite Hcomp3 in Hd2.
    destruct (destroyCompute_undoes g1' g4 ci _ Hd2 Hd1 Hci) as [[H1 H2]|[[H1 H2] Href]]; [by auto|].
    split; [congruence|]. right. exists ci. split; [done|]. split; [done|]. by rewrite H2, Hd2, delete_insert_id.
Qed.

Lemma create_failed d profile req g e g' : createMigDevice d profile req g = (Err e, g') → undone g g'.
Proof.
  intros [(e' & Hact & _)|(gi & g1 & Hc%act_inv & (g2 & Hr & ->)%undo_inv)]%hw_bind_inv.
  - unfold act in Hact. destruct (nv_CreateGpuInstanceWithPlacement _ _ _ g) as [[gi ret] g1] eqn:Hc.
    unfold succeeded in Hact. apply create_gpu_ok in Hc. case_bool_decide; [by simplify_eq|]. injection Hact as _ <-. by left.
  - apply create_gpu_ok in Hc. rewrite bool_decide_eq_true_2 in Hc by done. destruct Hc as (Hgi & _ & Hcomp & id & Hgpu).
    apply compute_failed in Hr as [Hg2 Hc2]. rewrite Hgpu in Hg2. rewrite Hcomp in Hc2.
    destruct (destroyGpu_undoes g g2 gi _ Hg2 Hgi) as [Hd1 Hd2]. unfold undone, leftover.
    rewrite <- Hd1 in Hc2. rewrite Hg2 in Hd2. destruct Hd2 as [Hd2|[Hd2 Href]], Hc2 as [Hc2|(ci & Hrefc & Hci & Hc2)].
    + left. by split.
    + right. exists gi, ci. auto.
    + right. exists gi, 0. split; [apply Href|]. split; [|by left]. right. split; [done|]. by rewrite Hd2, delete_insert_id.
    + right. exists gi, ci. split; [done|]. split; [|by right]. right. split; [done|]. by rewrite Hd2, delete_insert_id.
Qed.

(** ** The manager *)

Lemma withShutdown_inv {A} (m : Hw A) (g : G) r g' : withShutdown m g = (r, g') →
  ∃ g1, m g = (r, g1) ∧ sameInstances g1 g'.
Proof.
  unfold withShutdown. destruct (m g) as [r1 g1]. intros [= <- <-]. exists g1. split; [done|]. apply shutdown_same.
Qed.

(** What a call of [Prepare] does: nothing, or it finds the instance, or it
    makes it. *)
Lemma Prepare_cases req g r g' : placement32 req → Mig_Prepare true req g = (r, g') →
  match r with
  | Ok m => describes m req ∧ ∃ gi ci, instanceOf m gi ci g' ∧ (sameInstances g g' ∨ added gi ci g g')
  | Err _ => undone g g'
  end.
Proof.
  intros Hpl Hr. unfold Mig_Prepare in Hr. cbn [negb] in Hr.
  assert (∀ e, r = Err e → sameInstances g g' → match r with
    | Ok m => describes m req ∧ ∃ gi ci, instanceOf m gi ci g' ∧ (sameInstances g g' ∨ added gi ci g g')
    | Err _ => undone g g' end) as Herr by (intros e -> ?; by left).
  destruct (keeps_bind _ _ _ _ _ (lift_keeps _) Hr) as [(e & ? & ?)|(? & g0 & _ & K0 & Hr0)]; [by eapply Herr|].
  destruct (keeps_bind _ _ _ _ _ init_keeps Hr0) as [(e & ? & ?)|(? & g1 & _ & H1 & Hr1)]; [by eapply Herr, same_trans|].
  apply withShutdown_inv in Hr1 as (gz & Hr1 & Hz).
  destruct (keeps_bind _ _ _ _ _ (query_keeps _ _ _) Hr1) as [(e & ? & H2)|(d & g2 & [Hd ->]%query_inv & _ & Hr2)].
  { eapply Herr; eauto using same_trans. }
  apply handle_ok in Hd.
  destruct (keeps_bind _ _ _ _ _ (mode_keeps d) Hr2) as [(e & ? & H3)|(? & g3 & _ & H3 & Hr3)].
  { eapply Herr; eauto using same_trans. }
  destruct (keeps_bind _ _ _ _ _ (query_keeps _ _ _) Hr3) as [(e & ? & H4)|(profile & g4 & [_ ->]%query_inv & _ & Hr4)].
  { eapply Herr; eauto using same_trans. }
  unfold mbind, Hw_bind in Hr4. assert (sameInstances g g3) as Hg3 by eauto using same_trans.
  destruct Hg3 as [Ha Hb], Hz as [Hza Hzb].
  destruct (findExisting d profile req g3) as [m|] eqn:Hfind.
  - injection Hr4 as <- <-. destruct (findExisting_ok d profile req g3 m Hd Hfind) as (Hm & gi & ci & Hi1 & Hi2).
    split; [done|]. exists gi, ci. unfold instanceOf. rewrite Hza, Hzb. split; [done|]. left. split; congruence.
  - destruct r as [m|e].
    + apply create_made in Hr4 as (Hm & gi & ci & [Hi1 Hi2] & Hx1 & Hx2 & Hx3 & Hx4); [|done|done].
      split; [done|]. exists gi, ci. unfold instanceOf, added. rewrite Hza, Hzb, <- Ha, <- Hb.
      split; [done|]. by right.
    + apply create_failed in Hr4. unfold undone, leftover, sameInstances in *. by rewrite Hza, Hzb, <- Ha, <- Hb.
Qed.

Lemma destroyInstances_gone state gi ci g g' : instanceOf state gi ci g → destroyInstances gi state g = (Ok (), g') →
  gpuInsts g' = delete gi (gpuInsts g) ∧ compInsts g' = delete ci (compInsts g).
Proof.
  intros [Hgi Hci]. unfold destroyInstances.
  destruct (nv_GpuInstanceGetComputeInstanceById gi (pmd_ComputeInstanceID state) g) as [ci' ret] eqn:Hby.
  apply compute_by_id_ok in Hby as [Hok Hnf]. unfold succeeded. destruct codes_distinct as [Hne _].
  destruct (bool_decide_reflect (ret = nv_SUCCESS)) as [->|Hret].
  - assert (ci' = ci) as -> by (eapply (comp_ids g); eauto).
    destruct (nv_ComputeInstanceDestroy ci g) as [ret g1] eqn:Hc. apply destroy_compute_ok in Hc.
    case_bool_decide; [|done]. destruct Hc as [Hg1 Hc1]. cbn [negb andb].
    destruct (nv_GpuInstanceDestroy gi g1) as [ret2 g2] eqn:Hd. apply destroy_gpu_ok in Hd.
    destruct (bool_decide_reflect (ret2 = nv_SUCCESS)); cbn [negb andb].
    + intros [= <-]. destruct Hd as [Hd1 Hd2]. split; congruence.
    + case_bool_decide as Hnf2; [|done]. destruct Hd as [_ Hd]. rewrite Hg1, Hgi in Hd. by specialize (Hd Hnf2).
  - rewrite bool_decide_eq_true_2 by done. cbn [negb andb]. case_bool_decide as Hnf'; [|done].
    by destruct (Hnf Hnf' ci _ Hci).
Qed.

End Theorems.
