(* ===== verification/GpuChecker.v ===== *)
(** * Idle GPUs: pkg/dra/adapters/nvml

    The check the prepare service runs before a GPU is bound to VFIO: NVML must
    list neither compute nor graphics processes on it. *)

From S2P Require Import Prelude GoLib Prepare MigNvml.

From Stdlib Require Import Ascii.

Class NvmlProcesses (G : Type) := {
  nv_GetComputeRunningProcesses : Z → G → list Z * Z;
  nv_GetGraphicsRunningProcesses : Z → G → list Z * Z;
}.

(** ** library.go: bus ids *)

(** [strconv.ParseUint(s, 16, 32)] *)
Definition hex_val (c : ascii) : option Z :=
  let n := Z.of_N (N_of_ascii c) in
  if is_digit c then Some (n - 48)
  else if (97 <=? n) && (n <=? 102) then Some (n - 87)
  else if (65 <=? n) && (n <=? 70) then Some (n - 55) else None.
Fixpoint hex_value (acc : Z) (s : string) : option Z :=
  match s with
  | EmptyString => Some acc
  | String c s' => d ← hex_val c; hex_value (16 * acc + d) s'
  end.
Definition ParseHex32 (s : string) : option Z :=
  match s with
  | EmptyString => None
  | _ => n ← hex_value 0 s; if n <? 2 ^ 32 then Some n else None
  end.

(** [fmt.Sprintf("%08x", value)] of a 32-bit number *)
Definition hex_char (n : Z) : ascii := ascii_of_N (Z.to_N (if n <? 10 then n + 48 else n + 87)).
Fixpoint hex_digits (k : nat) (n : Z) (acc : string) : string :=
  match k with O => acc | S k => hex_digits k (n / 16) (String (hex_char (n `mod` 16)) acc) end.
Definition padHex8 (n : Z) : string := hex_digits 8 n EmptyString.

Definition normalizePCIBusID (busID : string) : string :=
  let busID := TrimSpace busID in
  match SplitChar busID ":" with
  | [domain; bus; device] =>
      let domain :=
        if Nat.ltb (String.length domain) 8 then
          match ParseHex32 domain with Some value => padHex8 value | None => domain end
        else domain in
      Join [domain; bus; device] ":"
  | _ => busID
  end.

Example normalize_ex : (normalizePCIBusID "0000:65:00.0", normalizePCIBusID " 0001ab:3B:00.1 ", normalizePCIBusID "65:00.0",
  normalizePCIBusID "zz:65:00.0") = ("00000000:65:00.0", "000001ab:3B:00.1", "65:00.0", "zz:65:00.0").
Proof. reflexivity. Qed.

(** ** checker.go *)

Section Checker.
Context {G : Type} `{Nvml G} `{NvmlProcesses G}.

(** One of the two queries. *)
Definition noProcesses (failed running pciBusID : string) (f : G → list Z * Z) : Hw () :=
  procs ← query failed [pciBusID] f;
  if list_len0 procs then mret () else
  hw_lift (Err (Errorf running [pciBusID; Itoa (Z.of_nat (length procs))])).

(** [ctxErr] is the error of a context that has ended. *)
Definition EnsureGPUFree (configured : bool) (ctxErr : option error) (pciBusID : string) : Hw () :=
  if negb configured then hw_lift (Err (Errorf "nvml checker is not configured" [])) else
  match ctxErr with
  | Some e => hw_lift (Err e)
  | None => λ g,
      let '(ret, g) := nv_Init g in
      if negb (succeeded ret) && negb (bool_decide (ret = nv_ERROR_ALREADY_INITIALIZED))
      then (Err (Errorf "nvml init failed: %s" [nv_ErrorString ret]), g) else
      withShutdown (
        device ← query "nvml device lookup failed for %q: %s" [pciBusID]
          (nv_DeviceGetHandleByPciBusId (normalizePCIBusID pciBusID));
        _ ← noProcesses "nvml compute process query failed for %q: %s" "gpu %q has %d running compute process(es)" pciBusID
              (nv_GetComputeRunningProcesses device);
        noProcesses "nvml graphics process query failed for %q: %s" "gpu %q has %d running graphics process(es)" pciBusID
          (nv_GetGraphicsRunningProcesses device)) g
  end.

Lemma noProcesses_spec failed running pci f g : snd (noProcesses failed running pci f g) = g ∧
  (fst (noProcesses failed running pci f g) = Ok () ↔ f g = ([], nv_SUCCESS)).
Proof.
  unfold noProcesses, mbind, Hw_bind, query, succeeded. destruct (f g) as [procs ret].
  case_bool_decide as Hret; [|split; [done|]; naive_solver]. destruct procs; simpl; [|split; [done|]; naive_solver].
  split; [done|]. subst ret. done.
Qed.

(** The check succeeds exactly when NVML can be initialised, finds the GPU
    under its normalised bus id and lists no compute and no graphics process on
    it; whatever a failed query may hide, it never passes. *)
Theorem EnsureGPUFree_spec (configured : bool) (ctxErr : option error) (pci : string) (g : G) :
  fst (EnsureGPUFree configured ctxErr pci g) = Ok () ↔
  configured = true ∧ ctxErr = None ∧
  (fst (nv_Init g) = nv_SUCCESS ∨ fst (nv_Init g) = nv_ERROR_ALREADY_INITIALIZED) ∧
  ∃ device, nv_DeviceGetHandleByPciBusId (normalizePCIBusID pci) (snd (nv_Init g)) = (device, nv_SUCCESS) ∧
    nv_GetComputeRunningProcesses device (snd (nv_Init g)) = ([], nv_SUCCESS) ∧
    nv_GetGraphicsRunningProcesses device (snd (nv_Init g)) = ([], nv_SUCCESS).
Proof.
  unfold EnsureGPUFree. destruct configured; [|naive_solver]. destruct ctxErr as [e|]; [naive_solver|]. cbn [negb].
  destruct (nv_Init g) as [ret g1]. unfold succeeded. cbn [fst snd].
  assert (ret = nv_SUCCESS ∨ ret = nv_ERROR_ALREADY_INITIALIZED ∨ (ret ≠ nv_SUCCESS ∧ ret ≠ nv_ERROR_ALREADY_INITIALIZED)) as Hret.
  { destruct (decide (ret = nv_SUCCESS)); [by left|]. destruct (decide (ret = nv_ERROR_ALREADY_INITIALIZED)); auto. }
  destruct (negb (bool_decide (ret = nv_SUCCESS)) && negb (bool_decide (ret = nv_ERROR_ALREADY_INITIALIZED))) eqn:Hb.
  { apply andb_true_iff in Hb as [H1%negb_true_iff%bool_decide_eq_false H2%negb_true_iff%bool_decide_eq_false]. naive_solver. }
  assert (ret = nv_SUCCESS ∨ ret = nv_ERROR_ALREADY_INITIALIZED) as Hinit.
  { destruct Hret as [|[|[H1 H2]]]; [by left|by right|]. by rewrite !bool_decide_eq_false_2 in Hb. }
  unfold withShutdown, mbind, Hw_bind, query, succeeded.
  destruct (nv_DeviceGetHandleByPciBusId (normalizePCIBusID pci) g1) as [device dret].
  destruct (bool_decide_reflect (dret = nv_SUCCESS)) as [->|Hd]; [|naive_solver].
  match goal with |- context [noProcesses ?a ?b pci (nv_GetComputeRunningProcesses device)] =>
    destruct (noProcesses_spec a b pci (nv_GetComputeRunningProcesses device) g1) as [Hs1 H1] end.
  destruct (noProcesses _ _ pci (nv_GetComputeRunningProcesses device) g1) as [[[]|e] g2]; simpl in Hs1; subst g2; simpl in H1.
  2:{ split; [done|]. intros (_ & _ & _ & d & [= <-] & Hc & _). apply H1 in Hc. done. }
  match goal with |- context [noProcesses ?a ?b pci (nv_GetGraphicsRunningProcesses device)] =>
    destruct (noProcesses_spec a b pci (nv_GetGraphicsRunningProcesses device) g1) as [Hs2 H2] end.
  destruct (noProcesses _ _ pci (nv_GetGraphicsRunningProcesses device) g1) as [r g2]; simpl in *. naive_solver.
Qed.
End Checker.
