(* ===== verification/NvmlReader.v ===== *)
(** * What NVML says of a GPU: gpuhandler/internal/service/capabilities and nvml,
    inventory/mig/placements_*.go

    The reader turns the answers of NVML into the capabilities and the current
    state of a PhysicalGPU; the placement session into the placements of the MIG
    profiles.  go-nvml is outside the repository: its constants are the class
    [NvmlApi], and a device is the record of the answers it gives.  The theorem
    says that answers in the range of the hardware give an object the theorems
    on the inventory apply to. *)

From S2P Require Import Prelude GoLib DeviceModel Render GpuApi Inventory InventorySpec MigNvml GpuChecker.

(** ** go-nvml *)

Class NvmlApi := {
  api_SUCCESS : Z;
  api_ERROR_ALREADY_INITIALIZED : Z;
  api_ERROR_NOT_SUPPORTED : Z;
  api_ERROR_INVALID_ARGUMENT : Z;
  api_ErrorString : Z → string;
  api_DEVICE_MIG_ENABLE : Z;
  api_DEVICE_MIG_DISABLE : Z;
  (** the architectures, oldest first: Kepler, Maxwell, ..., Blackwell *)
  api_DEVICE_ARCH : list Z;
  api_GPU_INSTANCE_PROFILE_COUNT : nat;
  api_PROFILE_1_SLICE_REV1 : Z;
  api_PROFILE_2_SLICE_REV1 : Z;
  api_PROFILE_1_SLICE_ALL_ME : Z;
  api_PROFILE_2_SLICE_ALL_ME : Z;
  api_PROFILE_1_SLICE_GFX : Z;
  api_PROFILE_2_SLICE_GFX : Z;
  api_PROFILE_4_SLICE_GFX : Z;
  api_PROFILE_1_SLICE_NO_ME : Z;
  api_PROFILE_2_SLICE_NO_ME : Z;
}.

(** An answer and the return code. *)
Abbreviation Answer A := (A * Z)%type.

(** A profile; the first version has no name and no engines, the second no
    engines. *)
Record ProfileInfo := mkProfileInfo {
  pi_Id : Z;
  pi_Name : string;
  pi_MemorySizeMB : Z;
  pi_SliceCount : Z;
  pi_InstanceCount : Z;
  pi_MultiprocessorCount : Z;
  pi_CopyEngineCount : Z;
  pi_DecoderCount : Z;
  pi_EncoderCount : Z;
  pi_JpegCount : Z;
  pi_OfaCount : Z;
}.

Record NvmlDevice := mkNvmlDevice {
  dv_Name : Answer string;
  dv_UUID : Answer string;
  dv_MemoryTotal : Answer Z;
  dv_CudaComputeCapability : Answer (Z * Z);
  dv_Architecture : Answer Z;
  dv_BoardPartNumber : Answer string;
  dv_PowerManagementLimit : Answer Z;
  dv_EnforcedPowerLimit : Answer Z;
  dv_PowerLimitConstraints : Answer (Z * Z);
  dv_MigMode : Answer (Z * Z);
  dv_ProfileInfo : nat → Answer ProfileInfo;
  dv_ProfileInfoV2 : nat → Answer ProfileInfo;
  dv_ProfileInfoV3 : nat → Answer ProfileInfo;
  (** start and size of the placements of a profile *)
  dv_PossiblePlacements : ProfileInfo → Answer (list (Z * Z));
}.

Record NvmlLibrary := mkNvmlLibrary {
  lib_Init : Z;
  lib_DriverVersion : Answer string;
  lib_CudaDriverVersion : Answer Z;
  lib_DeviceGetHandleByPciBusId : string → Answer NvmlDevice;
}.

Section Reader.
Context `{NvmlApi}.

Definition ok (ret : Z) : bool := bool_decide (ret = api_SUCCESS).

(** service.go *)
Definition DeviceByPCI (lib : NvmlLibrary) (pciBusID : string) : Answer NvmlDevice :=
  lib_DeviceGetHandleByPciBusId lib (normalizePCIBusID pciBusID).

(** ** errors.go, nvml_reader_errors.go: the reason is what is wrapped *)

Definition ErrNVMLUnavailable : error := Errorf "nvml unavailable" [].
Definition ErrNVMLQueryFailed : error := Errorf "nvml query failed" [].
Definition ErrMissingPCIAddress : error := Errorf "missing pci address" [].
Definition newReadError (reason : error) (format : string) (args : list string) : error := Wrapf format args reason.

(** [if ret != SUCCESS { return newReadError(ErrNVMLQueryFailed, format, ErrorString(ret)) }] *)
Definition queried {A} (format : string) (a : Answer A) : res A :=
  if ok (snd a) then Ok (fst a) else Err (newReadError ErrNVMLQueryFailed format [api_ErrorString (snd a)]).

(** ** nvml_reader_helpers.go *)

Definition formatCudaVersion (raw : Z) : string :=
  if raw <=? 0 then "" else Itoa (raw `quot` 1000) +:+ "." +:+ Itoa ((raw `rem` 1000) `quot` 10).

Definition archNames : list string :=
  ["Kepler"; "Maxwell"; "Pascal"; "Volta"; "Turing"; "Ampere"; "Ada"; "Hopper"; "Blackwell"].
Definition architectureName (arch : Z) : string :=
  match list_find (λ e, fst e = arch) (zip api_DEVICE_ARCH archNames) with Some (_, (_, name)) => name | None => "" end.

Definition migModeFromNVML (mode : Z) : string :=
  if bool_decide (mode = api_DEVICE_MIG_ENABLE) then MIGModeEnabled else
  if bool_decide (mode = api_DEVICE_MIG_DISABLE) then MIGModeDisabled else MIGModeUnknown.

Definition nvmlString (a : Answer string) : string := if ok (snd a) then fst a else "".
Definition milliwattsToWatts (value : Z) : Z := value / 1000.
Definition nvmlPowerLimit (a : Answer Z) : option Z := if ok (snd a) then Some (milliwattsToWatts (fst a)) else None.

(** ** nvml_reader_mig_names.go *)

Definition normalizeMigProfileName (raw : string) : string :=
  let name := TrimSpace raw in
  if str_eqb name "" then "" else TrimSpace (TrimPrefix name "MIG ").

Definition defaultMigProfileName (sliceCount memoryMiB profileID : Z) : string :=
  if (sliceCount =? 0) || (memoryMiB =? 0) then "" else
  let gb := ((memoryMiB + 512) `mod` 2 ^ 64) / 1024 in
  if gb =? 0 then "profile-" +:+ Itoa profileID else Itoa sliceCount +:+ "g." +:+ Itoa gb +:+ "gb".

Definition hasProfileSuffix (name : string) : bool :=
  let lower := ToLower name in Contains lower "+me" || Contains lower "+gfx" || Contains lower "-me".

Definition migProfileSuffix (profileID : Z) : string :=
  let isP p := bool_decide (profileID = p) in
  if isP api_PROFILE_1_SLICE_REV1 || isP api_PROFILE_2_SLICE_REV1 then "+me" else
  if isP api_PROFILE_1_SLICE_ALL_ME || isP api_PROFILE_2_SLICE_ALL_ME then "+me.all" else
  if isP api_PROFILE_1_SLICE_GFX || isP api_PROFILE_2_SLICE_GFX || isP api_PROFILE_4_SLICE_GFX then "+gfx" else
  if isP api_PROFILE_1_SLICE_NO_ME || isP api_PROFILE_2_SLICE_NO_ME then "-me" else "".

Definition migProfileName (raw : string) (sliceCount memoryMiB profileID : Z) : string :=
  let name := normalizeMigProfileName raw in
  let name := if str_eqb name "" then defaultMigProfileName sliceCount memoryMiB profileID else name in
  if str_eqb name "" then "" else
  if hasProfileSuffix name then name else name +:+ migProfileSuffix profileID.

(** ** nvml_reader_mig_profiles.go and _helpers.go *)

Record migProfileCounters := mkProfileCounters {
  pc_Multiprocessors : Z;
  pc_CopyEngines : Z;
  pc_Decoders : Z;
  pc_Encoders : Z;
  pc_JpegEngines : Z;
  pc_OfaEngines : Z;
}.
Definition noCounters : migProfileCounters := mkProfileCounters 0 0 0 0 0 0.
Definition countersOf (info : ProfileInfo) : migProfileCounters :=
  mkProfileCounters (wrap32 (pi_MultiprocessorCount info)) (wrap32 (pi_CopyEngineCount info)) (wrap32 (pi_DecoderCount info))
    (wrap32 (pi_EncoderCount info)) (wrap32 (pi_JpegCount info)) (wrap32 (pi_OfaCount info)).

(** The list of profiles and the running total, as they are appended to. *)
Definition appendMigProfile (acc : list NvidiaMIGProfile * Z) (info : ProfileInfo) (name : string) (counters : migProfileCounters)
    : list NvidiaMIGProfile * Z :=
  let '(profiles, totalSlices) := acc in
  if (pi_SliceCount info =? 0) || (pi_MemorySizeMB info =? 0) then acc else
  let profileName := migProfileName name (pi_SliceCount info) (pi_MemorySizeMB info) (pi_Id info) in
  if str_eqb profileName "" then acc else
  let profile := mkMIGProfile (wrap32 (pi_Id info)) profileName (wrap32 (pi_MemorySizeMB info)) (wrap32 (pi_SliceCount info))
    (wrap32 (pi_InstanceCount info)) (pc_Multiprocessors counters) (pc_CopyEngines counters) (pc_Decoders counters)
    (pc_Encoders counters) (pc_JpegEngines counters) (pc_OfaEngines counters) in
  let candidate := wrap32 (wrap32 (pi_SliceCount info) * wrap32 (pi_InstanceCount info)) in
  (profiles ++ [profile], if totalSlices <? candidate then candidate else totalSlices).

Definition maxProfiles : nat := Nat.max 32 api_GPU_INSTANCE_PROFILE_COUNT.

(** One profile: the third version of its info, the second or the first. *)
Definition probeProfile (dev : NvmlDevice) (acc : list NvidiaMIGProfile * Z) (profile : nat) : list NvidiaMIGProfile * Z :=
  let '(infoV3, ret) := dv_ProfileInfoV3 dev profile in
  let '(infoV2, ret2) := dv_ProfileInfoV2 dev profile in
  if ok ret then
    let name := if negb (str_eqb (pi_Name infoV3) "") then pi_Name infoV3 else if ok ret2 then pi_Name infoV2 else "" in
    appendMigProfile acc infoV3 name (countersOf infoV3)
  else if ok ret2 then appendMigProfile acc infoV2 (pi_Name infoV2) noCounters
  else
    let '(infoV1, ret1) := dv_ProfileInfo dev profile in
    if ok ret1 then appendMigProfile acc infoV1 "" noCounters else acc.

Definition buildMigProfiles (dev : NvmlDevice) : option NvidiaMIGCapabilities :=
  let '(profiles, totalSlices) := foldl (probeProfile dev) ([], 0) (seq 0 maxProfiles) in
  if list_len0 profiles then None else Some (mkMIGCapabilities totalSlices profiles).

(** ** nvml_reader_mig.go, nvml_reader_caps.go, nvml_reader_state.go *)

Definition readMigMode (dev : NvmlDevice) : option NvidiaMIGState :=
  let '((current, _), ret) := dv_MigMode dev in
  if ok ret then Some (mkMIGState (migModeFromNVML current)) else None.

Definition readMigCapabilities (dev : NvmlDevice) : option bool * option NvidiaMIGCapabilities :=
  let ret := snd (dv_MigMode dev) in
  if ok ret then (Some true, buildMigProfiles dev) else
  if bool_decide (ret = api_ERROR_NOT_SUPPORTED) then (Some false, None) else (None, None).

Definition computeTypes : list string := ["FP32"; "FP64"; "FP16"; "BF16"; "TF32"; "INT8"; "INT4"; "FP8"].

Definition buildCapabilities (dev : NvmlDevice) : res GPUCapabilities :=
  name ← queried "NVML device name failed: %s" (dv_Name dev);
  mem ← queried "NVML memory info failed: %s" (dv_MemoryTotal dev);
  cc ← queried "NVML compute capability failed: %s" (dv_CudaComputeCapability dev);
  arch ← queried "NVML architecture failed: %s" (dv_Architecture dev);
  let board := nvmlString (dv_BoardPartNumber dev) in
  let limits := if ok (snd (dv_PowerLimitConstraints dev)) then Some (fst (dv_PowerLimitConstraints dev)) else None in
  let '(migSupported, migCaps) := readMigCapabilities dev in
  let nvidia := mkNvidiaCapabilities (Itoa (fst cc) +:+ "." +:+ Itoa (snd cc)) (architectureName arch) board computeTypes
    ((λ l, milliwattsToWatts (fst l)) <$> limits) ((λ l, milliwattsToWatts (snd l)) <$> limits)
    migSupported (if default false migSupported then migCaps else None) in
  Ok (mkGPUCapabilities name (Some (wrap64 (mem / 1048576))) VendorNvidia (Some nvidia)).

Definition readCurrentState (dev : NvmlDevice) (driverVersion cudaVersion : string) : GPUCurrentState :=
  mkCurrentState "" (Some (mkNvidiaCurrentState (nvmlString (dv_UUID dev)) driverVersion cudaVersion
    (nvmlPowerLimit (dv_PowerManagementLimit dev)) (nvmlPowerLimit (dv_EnforcedPowerLimit dev)) (readMigMode dev))).

(** ** nvml_reader.go, nvml_session.go *)

Record DeviceSnapshot := mkSnapshot { snap_Capabilities : GPUCapabilities; snap_CurrentState : GPUCurrentState }.

Record NVMLSession := mkSession { sess_nvml : NvmlLibrary; sess_driverVersion : string; sess_cudaVersion : string }.

(** The session, and how many times NVML was left initialised: a session
    shuts it down when it is closed. *)
Definition readerOpen (lib : option NvmlLibrary) : res NVMLSession * Z :=
  match lib with
  | None => (Err (newReadError ErrNVMLUnavailable "NVML is not configured" []), 0)
  | Some lib =>
      let ret := lib_Init lib in
      if negb (ok ret) && negb (bool_decide (ret = api_ERROR_ALREADY_INITIALIZED))
      then (Err (newReadError ErrNVMLUnavailable "NVML init failed: %s" [api_ErrorString ret]), 0) else
      (driverVersion ← queried "NVML driver version failed: %s" (lib_DriverVersion lib);
       cudaRaw ← queried "NVML CUDA version failed: %s" (lib_CudaDriverVersion lib);
       Ok (mkSession lib driverVersion (formatCudaVersion cudaRaw)), 1)
  end.

Definition ReadDevice (s : NVMLSession) (pciAddress : string) : res DeviceSnapshot :=
  if str_eqb pciAddress "" then Err (newReadError ErrMissingPCIAddress "pci address is empty" []) else
  let '(dev, ret) := DeviceByPCI (sess_nvml s) pciAddress in
  if negb (ok ret) then Err (newReadError ErrNVMLUnavailable "NVML device lookup failed: %s" [api_ErrorString ret]) else
  capabilities ← buildCapabilities dev;
  Ok (mkSnapshot capabilities (readCurrentState dev (sess_driverVersion s) (sess_cudaVersion s))).

(** ** inventory/mig: placements_nvml.go, placements_session.go *)

Definition placementError (reason : error) (format : string) (args : list string) : error := Wrapf "%w: %s" (format :: args) reason.

Definition migPlacementOf (p : Z * Z) : MigPlacement := mkMigPlacement (wrap32 (fst p)) (wrap32 (snd p)).

Definition skippable (ret : Z) : bool :=
  bool_decide (ret = api_ERROR_NOT_SUPPORTED) || bool_decide (ret = api_ERROR_INVALID_ARGUMENT).

(** The body of the loop over the profiles. *)
Definition placeProfile (dev : NvmlDevice) (target : gset Z) (placements : gmap Z (list MigPlacement)) (profile : nat)
    : res (gmap Z (list MigPlacement)) :=
  let '(info, ret) := dv_ProfileInfo dev profile in
  if negb (ok ret) then
    if skippable ret then Ok placements
    else Err (placementError ErrNVMLQueryFailed "NVML profile info failed: %s" [api_ErrorString ret])
  else if negb (bool_decide (pi_Id info ∈ target)) then Ok placements else
  let '(possible, ret) := dv_PossiblePlacements dev info in
  if negb (ok ret) then
    if skippable ret then Ok placements
    else Err (placementError ErrNVMLQueryFailed "NVML placements failed: %s" [api_ErrorString ret])
  else
    let id := wrap32 (pi_Id info) in
    if list_len0 possible then Ok placements else
    Ok (<[id := default [] (placements !! id) ++ (migPlacementOf <$> possible)]> placements).

Fixpoint placeProfiles (dev : NvmlDevice) (target : gset Z) (placements : gmap Z (list MigPlacement)) (profiles : list nat)
    : res (gmap Z (list MigPlacement)) :=
  match profiles with
  | [] => Ok placements
  | p :: rest => placements ← placeProfile dev target placements p; placeProfiles dev target placements rest
  end.

Definition ReadPlacements (lib : NvmlLibrary) : MigPlacementSession := λ pciAddress profileIDs,
  if str_eqb pciAddress "" then Err (placementError ErrNVMLQueryFailed "missing PCI address" []) else
  let '(dev, ret) := DeviceByPCI lib pciAddress in
  if negb (ok ret) then Err (placementError ErrNVMLUnavailable "NVML device lookup failed: %s" [api_ErrorString ret]) else
  let target : gset Z := list_to_set (filter (λ id, 0 ≤ id) profileIDs) in
  if bool_decide (target = ∅) then Ok ∅ else
  placements ← placeProfiles dev target ∅ (seq 0 maxProfiles);
  match filter (λ id, placements !! wrap32 id = None) (elements target) with
  | [] => Ok placements
  | id :: _ => Err (placementError ErrNVMLQueryFailed "NVML placements missing for profile %d" [Itoa id])
  end.

Definition placementsOpen (lib : option NvmlLibrary) : res MigPlacementSession :=
  match lib with
  | None => Err (placementError ErrNVMLUnavailable "NVML is not configured" [])
  | Some lib =>
      let ret := lib_Init lib in
      if negb (ok ret) && negb (bool_decide (ret = api_ERROR_ALREADY_INITIALIZED))
      then Err (placementError ErrNVMLUnavailable "NVML init failed: %s" [api_ErrorString ret])
      else Ok (ReadPlacements lib)
  end.
End Reader.

(** ** Answers in the range of the hardware

    An int32 holds the memory of a profile and what all its instances have of
    an engine; a placement ends below 2^31; the memory is below 2^62 bytes. *)

Section Range.
Context `{NvmlApi}.

Definition engine_in_range (info : ProfileInfo) (v : Z) : Prop := 0 ≤ v ∧ v * Z.max 1 (pi_InstanceCount info) < 2 ^ 31.

Record info_in_range (info : ProfileInfo) : Prop := {
  ir_memory : 0 ≤ pi_MemorySizeMB info < 2 ^ 31;
  ir_instances : 0 ≤ pi_InstanceCount info < 2 ^ 31;
  ir_engines : Forall (engine_in_range info) [pi_MultiprocessorCount info; pi_CopyEngineCount info; pi_DecoderCount info;
    pi_EncoderCount info; pi_JpegCount info; pi_OfaCount info];
}.

Record device_in_range (dev : NvmlDevice) : Prop := {
  dr_memory : 0 ≤ fst (dv_MemoryTotal dev) < 2 ^ 62;
  dr_info i : info_in_range (fst (dv_ProfileInfo dev i));
  dr_info2 i : info_in_range (fst (dv_ProfileInfoV2 dev i));
  dr_info3 i : info_in_range (fst (dv_ProfileInfoV3 dev i));
  dr_placements info p : p ∈ fst (dv_PossiblePlacements dev info) → 0 ≤ fst p ∧ 0 ≤ snd p ∧ fst p + snd p < 2 ^ 31;
}.

Definition library_in_range (lib : NvmlLibrary) : Prop :=
  ∀ pci, ok (snd (lib_DeviceGetHandleByPciBusId lib pci)) = true → device_in_range (fst (lib_DeviceGetHandleByPciBusId lib pci)).

(** The counters of a profile are the info's, or none. *)
Definition counters_of_info (info : ProfileInfo) (c : migProfileCounters) : Prop := c = countersOf info ∨ c = noCounters.

Lemma engine_per_instance info v p : info_in_range info → engine_in_range info v →
  mp_MaxInstances p = wrap32 (pi_InstanceCount info) → per_instance p (wrap32 v).
Proof.
  intros [_ Hi _] [Hv Hb] Hp. unfold per_instance. assert (v < 2 ^ 31) by nia.
  rewrite Hp, (wrap32_id (pi_InstanceCount info)), (wrap32_id v) by lia. lia.
Qed.

Lemma append_in_range acc info name c : info_in_range info → counters_of_info info c →
  Forall profile_in_range (fst acc) ∧ snd acc < 2 ^ 31 →
  Forall profile_in_range (fst (appendMigProfile acc info name c)) ∧ snd (appendMigProfile acc info name c) < 2 ^ 31.
Proof.
  intros Hinfo Hc [Hacc Ht]. unfold appendMigProfile. destruct acc as [profiles total]; simpl in *.
  destruct (_ || _); [done|]. destruct (str_eqb _ ""); [done|]. simpl. split.
  - apply Forall_app_2; [done|]. apply Forall_singleton. unfold profile_in_range.
    pose proof (ir_engines _ Hinfo) as He. rewrite !Forall_cons in He. destruct_and! He.
    split; [simpl; pose proof (ir_memory _ Hinfo); rewrite wrap32_id by lia; done|].
    destruct Hc as [-> | ->]; simpl; refine (conj _ (conj _ (conj _ (conj _ (conj _ _)))));
      first [by apply (engine_per_instance info) | split; simpl; lia].
  - case_match; [|done]. apply wrap32_lt.
Qed.

Lemma probe_in_range dev acc i : device_in_range dev → Forall profile_in_range (fst acc) ∧ snd acc < 2 ^ 31 →
  Forall profile_in_range (fst (probeProfile dev acc i)) ∧ snd (probeProfile dev acc i) < 2 ^ 31.
Proof.
  intros Hd Hacc. unfold probeProfile. pose proof (dr_info _ Hd i). pose proof (dr_info2 _ Hd i). pose proof (dr_info3 _ Hd i).
  destruct (dv_ProfileInfoV3 dev i) as [info3 ret3], (dv_ProfileInfoV2 dev i) as [info2 ret2], (dv_ProfileInfo dev i) as [info1 ret1].
  repeat case_match; try done; (apply append_in_range; [done| |done]); first [by left | by right].
Qed.

Lemma mig_in_range dev caps : device_in_range dev → buildMigProfiles dev = Some caps →
  Forall profile_in_range (mc_Profiles caps) ∧ mc_TotalSlices caps < 2 ^ 31.
Proof.
  intros Hd. unfold buildMigProfiles. generalize (seq 0 maxProfiles) as l. intros l.
  assert (∀ acc, Forall profile_in_range (fst acc) ∧ snd acc < 2 ^ 31 →
    Forall profile_in_range (fst (foldl (probeProfile dev) acc l)) ∧ snd (foldl (probeProfile dev) acc l) < 2 ^ 31) as Hl.
  { induction l as [|i l IH]; [done|]. intros acc Hacc. simpl. by apply IH, probe_in_range. }
  specialize (Hl ([], 0)). destruct (foldl _ _ _) as [profiles total]. destruct (list_len0 profiles); [done|].
  intros [= <-]. apply Hl. split; [constructor|done].
Qed.

Lemma lookup_in_range lib pci dev ret : library_in_range lib → DeviceByPCI lib pci = (dev, ret) → ok ret = true → device_in_range dev.
Proof. intros Hlib. unfold DeviceByPCI. intros Heq Hok. specialize (Hlib (normalizePCIBusID pci)). rewrite Heq in Hlib. by apply Hlib. Qed.

Lemma read_in_range s pci snap pgpu : library_in_range (sess_nvml s) → ReadDevice s pci = Ok snap →
  pg_Capabilities pgpu = Some (snap_Capabilities snap) → gpu_in_range pgpu.
Proof.
  intros Hlib. unfold ReadDevice. destruct (str_eqb pci ""); [done|]. destruct (DeviceByPCI _ pci) as [dev ret] eqn:Hdev.
  destruct (ok ret) eqn:Hok; [|done]. simpl. pose proof (lookup_in_range _ _ _ _ Hlib Hdev Hok) as Hr. clear Hlib Hdev.
  unfold buildCapabilities. destruct (queried _ (dv_Name dev)) as [name|]; [|done]. simpl.
  destruct (queried _ (dv_MemoryTotal dev)) as [mem|] eqn:Hmem; [|done]. simpl.
  destruct (queried _ (dv_CudaComputeCapability dev)) as [cc|]; [|done]. simpl.
  destruct (queried _ (dv_Architecture dev)) as [arch|]; [|done]. simpl.
  assert (0 ≤ mem < 2 ^ 62) as Hm.
  { unfold queried in Hmem. destruct (ok (snd (dv_MemoryTotal dev))); [|done]. injection Hmem as <-. apply (dr_memory _ Hr). }
  destruct (readMigCapabilities dev) as [supported migCaps] eqn:Hmig. intros [= <-] Hcaps. simpl in Hcaps.
  assert (∀ mig, (if default false supported then migCaps else None) = Some mig → buildMigProfiles dev = Some mig) as Hm'.
  { intros mig. unfold readMigCapabilities in Hmig. destruct (ok (snd (dv_MigMode dev))); [|destruct (bool_decide _)]; simplify_eq/=; done. }
  split.
  - intros caps m Hc Hcm. rewrite Hcaps in Hc. injection Hc as <-. injection Hcm as <-.
    assert (mem / 1048576 < 2 ^ 42) by (apply Z.div_lt_upper_bound; lia). pose proof (Z.div_pos mem 1048576).
    rewrite wrap64_id by (unfold in_int64; lia). lia.
  - intros p. unfold profiles_of. rewrite Hcaps. simpl. destruct (if default false supported then migCaps else None) as [mig|]; [|by intros ?%elem_of_nil].
    destruct (mig_in_range _ _ Hr (Hm' mig eq_refl)) as [Hf _]. rewrite Forall_forall in Hf. apply Hf.
  - intros caps mig Hc. rewrite Hcaps in Hc. injection Hc as <-. simpl. intros Hmg. by apply Hm', (mig_in_range _ _ Hr) in Hmg as [_ ?].
Qed.

Definition map_in_range (m : gmap Z (list MigPlacement)) : Prop := map_Forall (λ _ pls, Forall placement_in_range pls) m.

Lemma placeProfile_in_range dev target m i m' : device_in_range dev → map_in_range m →
  placeProfile dev target m i = Ok m' → map_in_range m'.
Proof.
  intros Hd Hm. unfold placeProfile. destruct (dv_ProfileInfo dev i) as [info ret]. destruct (ok ret); simpl.
  - destruct (bool_decide _); simpl; [|by intros [= <-]]. pose proof (dr_placements _ Hd info) as Hp.
    destruct (dv_PossiblePlacements dev info) as [possible ret']. destruct (ok ret'); simpl.
    + destruct (list_len0 possible); intros [= <-]; [done|]. apply map_Forall_insert_2; [|done]. apply Forall_app_2.
      * destruct (m !! wrap32 (pi_Id info)) eqn:Hl; [|constructor]. simpl. by eapply Hm.
      * apply Forall_fmap, Forall_forall. intros p Hin. specialize (Hp p Hin). unfold compose, migPlacementOf, placement_in_range.
        simpl. rewrite !wrap32_id by lia. done.
    + destruct (skippable ret'); [|done]. by intros [= <-].
  - destruct (skippable ret); [|done]. by intros [= <-].
Qed.

Lemma session_of_library lib : library_in_range lib → session_in_range (ReadPlacements lib).
Proof.
  intros Hlib pci ids m i pls pl. unfold ReadPlacements. destruct (str_eqb pci ""); [done|].
  destruct (DeviceByPCI lib pci) as [dev ret] eqn:Hdev. destruct (ok ret) eqn:Hok; [|done]. simpl.
  pose proof (lookup_in_range _ _ _ _ Hlib Hdev Hok) as Hr. case_match; [intros [= <-]; by rewrite lookup_empty|].
  generalize (seq 0 maxProfiles) as l, (list_to_set (filter (λ id, 0 ≤ id) ids) : gset Z) as target. intros l target.
  destruct (placeProfiles dev target ∅ l) as [m'|] eqn:Hpl; [|done]. simpl. case_match; [|done]. intros [= <-] Hi Hin.
  assert (∀ m0, map_in_range m0 → placeProfiles dev target m0 l = Ok m' → map_in_range m') as Hall.
  { clear -Hr. induction l as [|j l IH]; simpl; intros m0 Hm0; [by intros [= <-]|].
    destruct (placeProfile dev target m0 j) as [m1|] eqn:H1; [|done]. simpl. by eapply IH, placeProfile_in_range. }
  specialize (Hall ∅ (map_Forall_empty _) Hpl i pls Hi). rewrite Forall_forall in Hall. by apply Hall.
Qed.

(** C13: from NVML to what is published: when the answers of NVML are in the
    range of the hardware, every device the inventory builds of GPUs whose
    capabilities the reader read, with the placements the session read, is in
    the range where publishing and allocation are proved correct; no amount
    wraps on the way through int32 and int64. *)
Theorem nvml_inventory_wellformed s gpus d : library_in_range (sess_nvml s) →
  Forall (λ pgpu, ∃ pci snap, ReadDevice s pci = Ok snap ∧ pg_Capabilities pgpu = Some (snap_Capabilities snap)) gpus →
  d ∈ inv_Devices (fst (BuildInventory (Some (placementsOpen (Some (sess_nvml s)))) gpus)) → device_wellformed d.
Proof.
  intros Hlib Hgpus. apply inventory_wellformed.
  - eapply Forall_impl; [exact Hgpus|]. intros pgpu (pci & snap & Hread & Hcaps). by eapply read_in_range.
  - intros session. unfold placementsOpen. case_match; [done|]. intros [= <-]. by apply session_of_library.
Qed.
End Range.
