(* ===== verification/GpuHandler.v ===== *)
(** * The gpu-handler agent: gpuhandler/internal/handler, state, service

    A sync lists the PhysicalGPU objects of the node, marks those whose driver
    is not ready, reads the others through NVML, and publishes the devices of
    the healthy ones with the base CDI spec.  Handlers run as steps of
    [Effects.Run] over the state of the sync and of the agent (the failure
    tracker and the features of the builder); the events sent are the trace. *)

From S2P Require Import Prelude GoLib DeviceModel K8sApi Render Effects GpuApi GpuStore Inventory PhysicalGpu.
From S2P Require Import NodeAgent NvmlReader.

(** ** internal/state/nvml_failures.go; times in nanoseconds *)

Definition second : Z := 1000000000.
Definition nvmlFailureGrace : Z := 30 * second.
Definition nvmlFailureBackoff : list Z := [5 * second; 10 * second; 30 * second; 60 * second; 300 * second].

Record nvmlFailureState := mkFailureState {
  fs_firstFailure : Z;
  fs_nextAttempt : option Z;
  fs_backoffIndex : nat;
}.
Abbreviation Failures := (gmap string nvmlFailureState).

Definition ShouldAttempt (t : Failures) (now : Z) (name : string) : bool :=
  match t !! name with
  | None => true
  | Some entry => match fs_nextAttempt entry with None => true | Some next => negb (now <? next) end
  end.

Definition backoffAt (index : nat) : Z :=
  nth (if (length nvmlFailureBackoff <=? index)%nat then length nvmlFailureBackoff - 1 else index)%nat nvmlFailureBackoff 0.

(** Whether the grace has elapsed. *)
Definition RecordFailure (t : Failures) (now : Z) (name : string) : bool * Failures :=
  let entry := default (mkFailureState now None 0) (t !! name) in
  let entry' := mkFailureState (fs_firstFailure entry) (Some (now + backoffAt (fs_backoffIndex entry))) (S (fs_backoffIndex entry)) in
  (nvmlFailureGrace <=? now - fs_firstFailure entry, <[name := entry']> t).

Definition ClearFailure (t : Failures) (name : string) : Failures := delete name t.

(** ** service/resourceslice *)

Definition PoolName (nodeName : string) : string :=
  let name := TrimSpace nodeName in "gpus/" +:+ (if str_eqb name "" then "unknown" else name).

(** ** What a sync uses beside the API server: the clock, the publishing helper
    and the CDI writer *)

Record BaseDevice := mkBaseDevice { bd_Name : string; bd_UUID : string }.
#[export] Instance BaseDevice_eq_dec : EqDecision BaseDevice.
Proof. solve_decision. Defined.

(** The order in which [range] visits a map. *)
Class MapOrder := {
  mapRange {A} : gmap string A → list (string * A);
  mapRange_perm {A} (m : gmap string A) : mapRange m ≡ₚ map_to_list m;
}.

Section Handler.
Context {Q : Type} `{Quantity Q}.
Abbreviation DriverResources := (gmap string (list (Slice Q))).

(** [DroppedFieldsError] of the publishing helper *)
Record DroppedFields := mkDropped { df_PoolName : string; df_DisabledFeatures : list string }.

Class HandlerWorld (S : Type) := {
  hw_Now : S → Z * S;
  hw_PublishResources : DriverResources → S → option error * S;
  hw_WriteBase : list BaseDevice → S → option error * S;
  hw_Dropped : error → option DroppedFields;
}.

Context {S : Type} `{GpuClient S} `{HandlerWorld S} `{MetaConditions} `{MapOrder}.

(** The state of a sync, and of the agent behind it. *)
Record HandlerState := mkHandlerState {
  hs_nodeName : string;
  hs_all : list PhysicalGPU;
  hs_ready : list PhysicalGPU;
  hs_tracker : Failures;
  hs_features : FeatureSet;
  (** features the gate tracker has seen disabled *)
  hs_disabled : gset string;
  (** syncs asked for *)
  hs_notified : nat;
  hs_server : S;
}.
(** The trace: events sent, the base CDI spec written, resources published. *)
Inductive HandlerCall :=
| Sent (ev : Event)
| WroteBase (devices : list BaseDevice) (err : option error)
| Published (resources : DriverResources) (err : option error).
Abbreviation Sync := (M HandlerCall HandlerState).

Definition setAll (l : list PhysicalGPU) : Sync () := modify (λ s,
  mkHandlerState (hs_nodeName s) l (hs_ready s) (hs_tracker s) (hs_features s) (hs_disabled s) (hs_notified s) (hs_server s)).
Definition setReady (l : list PhysicalGPU) : Sync () := modify (λ s,
  mkHandlerState (hs_nodeName s) (hs_all s) l (hs_tracker s) (hs_features s) (hs_disabled s) (hs_notified s) (hs_server s)).
Definition setTracker (t : Failures) : Sync () := modify (λ s,
  mkHandlerState (hs_nodeName s) (hs_all s) (hs_ready s) t (hs_features s) (hs_disabled s) (hs_notified s) (hs_server s)).
Definition setFeatures (f : FeatureSet) : Sync () := modify (λ s,
  mkHandlerState (hs_nodeName s) (hs_all s) (hs_ready s) (hs_tracker s) f (hs_disabled s) (hs_notified s) (hs_server s)).
Definition setDisabled (d : gset string) : Sync () := modify (λ s,
  mkHandlerState (hs_nodeName s) (hs_all s) (hs_ready s) (hs_tracker s) (hs_features s) d (hs_notified s) (hs_server s)).
Definition notify : Sync () := modify (λ s,
  mkHandlerState (hs_nodeName s) (hs_all s) (hs_ready s) (hs_tracker s) (hs_features s) (hs_disabled s) (Datatypes.S (hs_notified s)) (hs_server s)).
Definition onServer {A} (f : S → A * S) : Sync A := λ s h,
  let '(a, server) := f (hs_server s) in
  (Ok a, (mkHandlerState (hs_nodeName s) (hs_all s) (hs_ready s) (hs_tracker s) (hs_features s) (hs_disabled s) (hs_notified s) server, h)).
(** A call of the publishing helper or of the CDI writer. *)
Definition traced (ev : option error → HandlerCall) (f : S → option error * S) : Sync (option error) :=
  err ← onServer f; _ ← emit true (ev err); mret err.
Definition send (recorder : bool) (ev : Event) : Sync () := emit recorder (Sent ev).

(** *** service/physicalgpu.go *)

Definition ListByNode (nodeName : string) : Sync (list PhysicalGPU) :=
  st ← get; liftR (gc_List {[ LabelNode := nodeName ]} (hs_server st)).
Definition PatchStatus (obj base : PhysicalGPU) : Sync PhysicalGPU :=
  r ← onServer (gc_PatchStatus obj base); liftR r.

(** *** The tracker at the time of the clock *)

Definition tracker_ShouldAttempt (name : string) : Sync bool :=
  now ← onServer hw_Now; st ← get; mret (ShouldAttempt (hs_tracker st) now name).
Definition tracker_RecordFailure (name : string) : Sync bool :=
  now ← onServer hw_Now; st ← get;
  let '(elapsed, t) := RecordFailure (hs_tracker st) now name in
  _ ← setTracker t; mret elapsed.
Definition tracker_Clear (name : string) : Sync () :=
  st ← get; setTracker (ClearFailure (hs_tracker st) name).

(** ** inventory/discover.go, filter_ready.go *)

Definition DriverReadyType : string := "DriverReady".
Definition HardwareHealthyType : string := "HardwareHealthy".

Definition condition_true (type : string) (pgpu : PhysicalGPU) : bool :=
  match FindStatusCondition (st_Conditions (pg_Status pgpu)) type with
  | Some cond => str_eqb (cond_Status cond) ConditionTrue
  | None => false
  end.

Definition HandlerDiscover : Sync () :=
  st ← get; devices ← ListByNode (hs_nodeName st); setAll devices.

Definition FilterReadyHandle : Sync () :=
  st ← get; setReady (List.filter (condition_true DriverReadyType) (hs_all st)).

(** ** health/reasons.go, conditions.go, mark_not_ready.go and _helpers.go *)

Definition reasonNVMLHealthy : string := "NVMLHealthy".
Definition reasonNVMLUnavailable : string := "NVMLUnavailable".
Definition reasonNVMLQueryFailed : string := "NVMLQueryFailed".
Definition reasonDriverTypeNotNvidia : string := "DriverTypeNotNvidia".
Definition reasonDriverNotReady : string := "DriverNotReady".
Definition reasonMissingPCIAddress : string := "MissingPCIAddress".
Definition reasonToolkitNotReady : string := "ToolkitNotReady".

Definition hardwareConditionChanged (prev next : PhysicalGPU) : bool :=
  let oldCond := FindStatusCondition (st_Conditions (pg_Status prev)) HardwareHealthyType in
  match FindStatusCondition (st_Conditions (pg_Status next)) HardwareHealthyType, oldCond with
  | None, _ => false
  | Some _, None => true
  | Some newCond, Some oldCond =>
      negb (str_eqb (cond_Status oldCond) (cond_Status newCond)) || negb (str_eqb (cond_Reason oldCond) (cond_Reason newCond)) ||
      negb (str_eqb (cond_Message oldCond) (cond_Message newCond)) ||
      negb (cond_ObservedGeneration oldCond =? cond_ObservedGeneration newCond)
  end.

(** The time is read for the condition's transition. *)
Definition setHardwareCondition (now : Z) (status reason message : string) (obj : PhysicalGPU) : PhysicalGPU :=
  let cond := mkCondition HardwareHealthyType status reason message (om_Generation (pg_Meta obj)) 0 in
  set_Conditions (SetStatusCondition now (st_Conditions (pg_Status obj)) cond) obj.

Definition recordHardwareEvent (recorder : bool) (obj base : PhysicalGPU) (reason message : string) : Sync () :=
  if hardwareConditionChanged base obj then send recorder (mkEvent (pg_Name obj) EventTypeWarning reason message) else mret ().

Definition recordToolkitNotReadyEvent (recorder : bool) (obj base : PhysicalGPU) : Sync () :=
  if hardwareConditionChanged base obj
  then send recorder (mkEvent (pg_Name obj) EventTypeWarning reasonToolkitNotReady "driver is not ready") else mret ().

Definition markOne (recorder : bool) (pgpu : PhysicalGPU) : Sync () :=
  if condition_true DriverReadyType pgpu then mret () else
  _ ← tracker_Clear (pg_Name pgpu);
  now ← onServer hw_Now;
  let obj := setHardwareCondition now ConditionUnknown reasonDriverNotReady "driver is not ready" pgpu in
  _ ← recordToolkitNotReadyEvent recorder obj pgpu;
  _ ← PatchStatus obj pgpu; mret ().

(** [errors.Join]: no error when the list is empty. *)
Definition join (errs : list error) : Sync () := if list_len0 errs then mret () else fail (joinErrors gc_ErrorText errs).

Definition MarkNotReadyHandle (recorder : bool) : Sync () :=
  st ← get; errs ← collectErrors (markOne recorder) (hs_all st); join errs.

(** ** health/capabilities_handle.go, _update.go, _helpers.go, _events.go *)

Definition failureReason (err : error) : string :=
  if errorsIs err ErrMissingPCIAddress then reasonMissingPCIAddress else
  if errorsIs err ErrNVMLUnavailable then reasonNVMLUnavailable else reasonNVMLQueryFailed.

Definition mergeCurrentState (existing : option GPUCurrentState) (snapshot : GPUCurrentState) : GPUCurrentState :=
  mkCurrentState (match existing with Some e => gcs_DriverType e | None => "" end) (gcs_Nvidia snapshot).

Definition isDriverTypeNvidia (pgpu : PhysicalGPU) : bool :=
  match st_CurrentState (pg_Status pgpu) with None => false | Some cs => str_eqb (gcs_DriverType cs) DriverTypeNvidia end.

Definition applyDeviceFailure (recorder : bool) (base : PhysicalGPU) (err : error) : Sync () :=
  elapsed ← tracker_RecordFailure (pg_Name base);
  if negb elapsed then mret () else
  now ← onServer hw_Now;
  let reason := failureReason err in
  let obj := setHardwareCondition now ConditionUnknown reason (gc_ErrorText err) base in
  _ ← recordHardwareEvent recorder obj base reason (gc_ErrorText err);
  _ ← PatchStatus obj base; mret ().

Definition applyFailure (recorder : bool) (devices : list PhysicalGPU) (err : error) : Sync () :=
  errs ← collectErrors (λ pgpu, applyDeviceFailure recorder pgpu err) devices; join errs.

Definition set_Read (caps : GPUCapabilities) (cs : GPUCurrentState) (obj : PhysicalGPU) : PhysicalGPU :=
  let st := pg_Status obj in
  set_Status (mkStatus (st_NodeInfo st) (st_PCIInfo st) (Some caps) (st_Conditions st) (Some cs)) obj.

(** The object the server answered with, or none after a failure. *)
Definition updateDevice (recorder : bool) (read : string → res DeviceSnapshot) (pgpu : PhysicalGPU) : Sync (option PhysicalGPU) :=
  match read (match st_PCIInfo (pg_Status pgpu) with Some pci => pci_Address pci | None => "" end) with
  | Err err => _ ← applyDeviceFailure recorder pgpu err; mret None
  | Ok snapshot =>
      now ← onServer hw_Now;
      let merged := mergeCurrentState (st_CurrentState (pg_Status pgpu)) (snap_CurrentState snapshot) in
      let obj := setHardwareCondition now ConditionTrue reasonNVMLHealthy "NVML is available"
        (set_Read (snap_Capabilities snapshot) merged pgpu) in
      _ ← tracker_Clear (pg_Name obj);
      obj ← PatchStatus obj pgpu; mret (Some obj)
  end.

Definition markDriverTypeNotNvidia (pgpu : PhysicalGPU) : Sync () :=
  now ← onServer hw_Now;
  let cs := (λ c, mkCurrentState (gcs_DriverType c) None) <$> st_CurrentState (pg_Status pgpu) in
  let obj := setHardwareCondition now ConditionUnknown reasonDriverTypeNotNvidia "current driver is not Nvidia"
    (set_CurrentState cs pgpu) in
  _ ← PatchStatus obj pgpu; mret ().

(** The first loop: errors, the devices kept as they are, the devices to read. *)
Fixpoint splitReady (ready : list PhysicalGPU) : Sync (list error * list PhysicalGPU * list PhysicalGPU) :=
  match ready with
  | [] => mret ([], [], [])
  | pgpu :: rest =>
      if negb (isDriverTypeNvidia pgpu) then
        marked ← try (markDriverTypeNotNvidia pgpu);
        _ ← tracker_Clear (pg_Name pgpu);
        r ← splitReady rest;
        let '(errs, updated, nvidia) := (r : list error * list PhysicalGPU * list PhysicalGPU) in
        mret (match marked with Err e => e :: errs | Ok _ => errs end, pgpu :: updated, nvidia)
      else
        attempt ← tracker_ShouldAttempt (pg_Name pgpu);
        r ← splitReady rest;
        let '(errs, updated, nvidia) := (r : list error * list PhysicalGPU * list PhysicalGPU) in
        mret (if (attempt : bool) then (errs, updated, pgpu :: nvidia) else (errs, pgpu :: updated, nvidia))
  end.

(** The second loop. *)
Fixpoint updateDevices (recorder : bool) (read : string → res DeviceSnapshot) (nvidia : list PhysicalGPU)
    : Sync (list error * list PhysicalGPU) :=
  match nvidia with
  | [] => mret ([], [])
  | pgpu :: rest =>
      r ← try (updateDevice recorder read pgpu);
      more ← updateDevices recorder read rest;
      let '(errs, updated) := (more : list error * list PhysicalGPU) in
      mret (match r with Err e => e :: errs | Ok _ => errs end,
            (match r with Ok (Some obj) => obj | _ => pgpu end) :: updated)
  end.

(** [open] is what [Open] of the reader returns: the session reads a device. *)
Definition CapabilitiesHandle (recorder : bool) (open : res (string → res DeviceSnapshot)) : Sync () :=
  st ← get;
  if list_len0 (hs_ready st) then mret () else
  split ← splitReady (hs_ready st);
  let '(errs, updated, nvidia) := (split : list error * list PhysicalGPU * list PhysicalGPU) in
  if list_len0 nvidia then join errs else
  match open with
  | Err err =>
      applied ← try (applyFailure recorder nvidia err);
      join (errs ++ match applied with Err e => [e] | Ok _ => [] end)
  | Ok read =>
      r ← updateDevices recorder read nvidia;
      let '(errs', updated') := (r : list error * list PhysicalGPU) in
      let all := updated ++ updated' in
      _ ← (if list_len0 all then mret () else setReady all);
      join (errs ++ errs')
  end.

(** ** health/filter_healthy.go *)

Definition FilterHealthyHandle : Sync () :=
  st ← get; setReady (List.filter (condition_true HardwareHealthyType) (hs_ready st)).

(** ** publish/publish_helpers.go, publish_mig_mismatch.go, publish_events.go *)

Definition publish_pciAddress (pgpu : PhysicalGPU) : string := match st_PCIInfo (pg_Status pgpu) with None => "" | Some pci => pci_Address pci end.

Definition migTotalSlices (pgpu : PhysicalGPU) : Z :=
  match (pg_Capabilities pgpu ≫= gcap_Nvidia) ≫= nc_MIG with None => 0 | Some mig => mc_TotalSlices mig end.

Definition sliceIndex (name : string) : option Z :=
  let prefix := "memory-slice-" in
  if negb (HasPrefix name prefix) then None else
  wrap32 <$> Atoi (TrimPrefix name prefix).

Definition maxMemorySliceIndex (consumes : list (DeviceCounterConsumption Q)) : option Z :=
  let names := consumes ≫= (λ c, (map_to_list (dcc_Counters c)).*1) in
  let maxIdx := foldl (λ m name, match sliceIndex name with Some i => if m <? i then i else m | None => m end) (-1) names in
  if maxIdx <? 0 then None else Some maxIdx.

Definition stringAttribute (attrs : gmap string DeviceAttribute) (key : string) : option string := attrs !! key ≫= da_StringValue.

Definition devicePCI (dev : ApiDevice Q) : string :=
  match stringAttribute (api_Attributes dev) AttrPCIAddress with None => "" | Some v => TrimSpace v end.
Definition deviceIsMIG (dev : ApiDevice Q) : bool :=
  match stringAttribute (api_Attributes dev) AttrDeviceType with None => false | Some v => str_eqb v DeviceTypeMIG end.

(** The MIG-capable GPUs by address: the last of an address counts. *)
Definition slicesByPCI (ready : list PhysicalGPU) : gmap string (Z * PhysicalGPU) :=
  foldl (λ m pgpu,
    let pci := TrimSpace (publish_pciAddress pgpu) in
    let totalSlices := migTotalSlices pgpu in
    if str_eqb pci "" || (totalSlices =? 0) then m else <[pci := (totalSlices, pgpu)]> m) ∅ ready.

Definition mismatchOf (totalByPCI : gmap string (Z * PhysicalGPU)) (maxByPCI : gmap string Z) (dev : ApiDevice Q) : gmap string Z :=
  if negb (deviceIsMIG dev) then maxByPCI else
  let pci := devicePCI dev in
  match (if str_eqb pci "" then None else totalByPCI !! pci), maxMemorySliceIndex (api_ConsumesCounters dev) with
  | Some (totalSlices, _), Some maxIdx =>
      if maxIdx <? totalSlices then maxByPCI else
      match maxByPCI !! pci with
      | Some current => if current <? maxIdx then <[pci := maxIdx]> maxByPCI else maxByPCI
      | None => <[pci := maxIdx]> maxByPCI
      end
  | _, _ => maxByPCI
  end.

Definition resourceDevices (resources : DriverResources) : list (ApiDevice Q) :=
  mapRange resources ≫= (λ pool, snd pool ≫= sl_Devices).

Definition reasonMigPlacementMismatch : string := "MigPlacementMismatch".
Definition reasonResourceSlicePublished : string := "ResourceSlicePublished".
Definition reasonResourceSlicePublishFailed : string := "ResourceSlicePublishFailed".

Definition mismatchEvent (totalByPCI : gmap string (Z * PhysicalGPU)) (found : string * Z) : list Event :=
  let '(pci, maxIdx) := found in
  match totalByPCI !! pci with
  | None => []
  | Some (totalSlices, pgpu) => [mkEvent (pg_Name pgpu) EventTypeWarning reasonMigPlacementMismatch
      ("MIG placements require memory-slice-" +:+ Itoa maxIdx +:+ " but totalSlices=" +:+ Itoa totalSlices +:+
       "; check driver/NVML placement data")]
  end.

Definition recordMigPlacementMismatch (recorder : bool) (ready : list PhysicalGPU) (resources : DriverResources) : Sync () :=
  let totalByPCI := slicesByPCI ready in
  let maxByPCI := foldl (mismatchOf totalByPCI) ∅ (resourceDevices resources) in
  forEach (send recorder) (mapRange maxByPCI ≫= mismatchEvent totalByPCI).

Definition recordPublish (recorder : bool) (ready : list PhysicalGPU) (err : option error) : Sync () :=
  let event pgpu := match err with
    | None => mkEvent (pg_Name pgpu) EventTypeNormal reasonResourceSlicePublished "resource slices published"
    | Some e => mkEvent (pg_Name pgpu) EventTypeWarning reasonResourceSlicePublishFailed
        ("resource slice publish failed: " +:+ gc_ErrorText e)
    end in
  forEach (λ pgpu, send recorder (event pgpu)) ready.

(** ** service/cdi/base_sync.go *)

Definition cdi_attrString (attrs : gmap string DeviceAttribute) (key : string) : string :=
  match stringAttribute attrs key with None => "" | Some v => TrimSpace v end.
Definition isPhysicalDevice (attrs : gmap string DeviceAttribute) : bool := str_eqb (ToLower (cdi_attrString attrs AttrDeviceType)) "physical".

Definition baseDevice (dev : ApiDevice Q) : option BaseDevice :=
  if negb (isPhysicalDevice (api_Attributes dev)) then None else
  let uuid := cdi_attrString (api_Attributes dev) AttrGPUUUID in
  let name := TrimSpace (api_Name dev) in
  if str_eqb uuid "" || str_eqb name "" then None else Some (mkBaseDevice name uuid).

Definition baseDevices (resources : DriverResources) : list BaseDevice :=
  (mapRange (foldl (λ seen dev, match baseDevice dev with Some b => <[bd_Name b := b]> seen | None => seen end) ∅
     (resourceDevices resources))).*2.

(** Without a writer there is no syncer. *)
Definition BaseSync (writer : bool) (resources : DriverResources) : Sync (option error) :=
  if negb writer then mret None else
  let devices := baseDevices resources in
  if list_len0 devices then mret None else traced (WroteBase devices) (hw_WriteBase devices).

(** ** featuregates: errors.go, events.go, tracker.go *)

Definition featurePartitionable : string := "DRAPartitionableDevices".
Definition featureConsumableCapacity : string := "DRAConsumableCapacity".
Definition featureBindingConditions : string := "DRADeviceBindingConditions".
Definition gh_reasonFeatureGateDisabled : string := "FeatureGateDisabled".
Definition reasonExclusiveFallback : string := "ExclusiveFallback".

Definition known_feature (feature : string) : bool :=
  str_eqb feature featurePartitionable || str_eqb feature featureConsumableCapacity || str_eqb feature featureBindingConditions.
Definition splitFeatures (features : list string) : list string * list string :=
  (List.filter known_feature features, List.filter (λ f, negb (known_feature f)) features).

(** The features not seen before, and those seen now. *)
Definition MarkDisabled (disabled : gset string) (features : list string) : list string * gset string :=
  foldl (λ '(newly, seen) feature, if decide (feature ∈ seen) then (newly, seen) else (newly ++ [feature], {[ feature ]} ∪ seen))
    ([], disabled) features.

Definition gateEvents (gpus : list PhysicalGPU) (feature : string) : list Event :=
  ((λ pgpu, mkEvent (pg_Name pgpu) EventTypeWarning gh_reasonFeatureGateDisabled (feature +:+ " is disabled on apiserver")) <$> gpus) ++
  (if str_eqb feature featurePartitionable
   then (λ pgpu, mkEvent (pg_Name pgpu) EventTypeWarning reasonExclusiveFallback
           "publishing exclusive Physical offers only (no MIG profiles)") <$> gpus
   else []).

Definition recordFeatureGateEvents (recorder : bool) (serviceNode poolName : string) (features : list string) : Sync () :=
  if negb recorder || list_len0 features then mret () else
  st ← get;
  let '(newly, disabled) := MarkDisabled (hs_disabled st) features in
  _ ← setDisabled disabled;
  if list_len0 newly then mret () else
  let trimmed := TrimPrefix poolName "gpus/" in
  let nodeName := if str_eqb trimmed "" || str_eqb trimmed poolName then serviceNode else trimmed in
  listed ← try (ListByNode nodeName);
  match listed with
  | Err _ => mret ()
  | Ok gpus => forEach (send recorder) (newly ≫= gateEvents gpus)
  end.

(** service/resourceslice/features.go *)
Definition builder_EnableFeatures (features : list string) : Sync bool :=
  st ← get; let '(updated, changed) := Enable (hs_features st) features in
  _ ← (if changed then setFeatures updated else mret ()); mret changed.
Definition builder_DisableFeatures (features : list string) : Sync bool :=
  st ← get; let '(updated, changed) := Disable (hs_features st) features in
  _ ← (if changed then setFeatures updated else mret ()); mret changed.
Definition builder_SetSharedCountersLayout (layout : SharedCountersLayout) : Sync bool :=
  st ← get; let '(updated, changed) := WithSharedCountersLayout (hs_features st) layout in
  _ ← (if changed then setFeatures updated else mret ()); mret changed.
Definition builder_SetBindingConditionsEnabled (enabled : bool) : Sync bool :=
  st ← get; let '(updated, changed) := WithBindingConditions (hs_features st) enabled in
  _ ← (if changed then setFeatures updated else mret ()); mret changed.

(** A dropped field disables its features and asks for another sync; other
    errors are only reported. *)
Definition HandleError (recorder : bool) (serviceNode : string) (err : error) : Sync () :=
  match hw_Dropped err with
  | None => mret ()
  | Some dropped =>
      if list_len0 (df_DisabledFeatures dropped) then mret () else
      let '(known, _) := splitFeatures (df_DisabledFeatures dropped) in
      changed ← (if list_len0 known then mret false else builder_DisableFeatures known);
      _ ← (if (changed : bool) then notify else mret ());
      recordFeatureGateEvents recorder serviceNode (df_PoolName dropped) known
  end.

(** dra/driver/driver.go: errors the publishing helper reports in the background *)
Definition Driver_HandleError (errorHandler : option (error → Sync ())) (err : error) : Sync () :=
  match errorHandler with Some handle => handle err | None => mret () end.

(** ** publish/publish_resources.go *)

(** service/resourceslice/builder.go: the resources and the errors of the inventory *)
Definition BuildResources (placements : option (res MigPlacementSession)) (nodeName : string) (devices : list PhysicalGPU)
    (features : FeatureSet) : DriverResources * list error :=
  let '(inv, errs) := BuildInventory placements devices in
  (BuildDriverResources (PoolName nodeName) inv features, errs).

Definition PublishHandle (recorder writer : bool) (placements : option (res MigPlacementSession)) : Sync () :=
  st ← get;
  let '(resources, errs) := BuildResources placements (hs_nodeName st) (hs_ready st) (hs_features st) in
  _ ← recordMigPlacementMismatch recorder (hs_ready st) resources;
  cdiErr ← BaseSync writer resources;
  _ ← (match cdiErr with Some e => HandleError recorder (hs_nodeName st) e | None => mret () end);
  publishErr ← traced (Published resources) (hw_PublishResources resources);
  _ ← (match publishErr with Some e => HandleError recorder (hs_nodeName st) e | None => mret () end);
  let buildErr := if list_len0 errs then [] else [joinErrors gc_ErrorText errs] in
  let all := buildErr ++ option_list cdiErr ++ option_list publishErr in
  let err := if list_len0 all then None else Some (joinErrors gc_ErrorText all) in
  _ ← recordPublish recorder (hs_ready st) err;
  match err with Some e => fail e | None => mret () end.

(** ** handler/steps.go, bootstrap_start.go, run.go *)

Definition handlerStep (name : string) (handle : Sync ()) : StepTaker HandlerCall HandlerState := λ s h,
  match handle s h with
  | (Ok _, sh) => (Ok None, sh)
  | (Err e, sh) => if errorsIs e ErrStopChain then (Ok (Some ()), sh) else (Err (Wrapf "%s: %w" [name] e), sh)
  end.

Definition handlerSteps (recorder writer : bool) (reader : res (string → res DeviceSnapshot)) (placements : option (res MigPlacementSession))
    : list (StepTaker HandlerCall HandlerState) :=
  [handlerStep "discover" HandlerDiscover; handlerStep "mark-not-ready" (MarkNotReadyHandle recorder);
   handlerStep "filter-ready" FilterReadyHandle; handlerStep "capabilities" (CapabilitiesHandle recorder reader);
   handlerStep "filter-healthy" FilterHealthyHandle; handlerStep "publish-resources" (PublishHandle recorder writer placements); final].

Definition handlerSync (recorder writer : bool) (reader : res (string → res DeviceSnapshot)) (placements : option (res MigPlacementSession))
    : Sync () :=
  _ ← setAll []; _ ← setReady []; Run (handlerSteps recorder writer reader placements).
End Handler.
