(* ===== verification/GpuHandlerSpec.v ===== *)
(** * The gpu-handler agent: theorems

    A GPU that stops answering is reported after the grace and not before; what
    a sync publishes are devices of GPUs that are healthy and whose driver was
    ready when they were listed. *)

From S2P Require Import Prelude GoLib DeviceModel K8sApi Render Effects GpuApi GpuStore Inventory PhysicalGpu.
From S2P Require Import NodeAgent NvmlReader GpuHandler.

(** ** The failure tracker *)

Section Tracker.
Context (name : string).

(** A sync at [now] in which the device cannot be read: the attempts made, each
    with its time and whether it was reported. *)
Definition failingSync (st : Failures * list (Z * bool)) (now : Z) : Failures * list (Z * bool) :=
  let '(t, log) := st in
  if ShouldAttempt t now name then let '(elapsed, t') := RecordFailure t now name in (t', log ++ [(now, elapsed)]) else st.
Definition failingSyncs (times : list Z) : Failures * list (Z * bool) := foldl failingSync (∅, []) times.

(** The least time between the first attempt and the one after [i] failures. *)
Fixpoint waited (i : nat) : Z := match i with O => 0 | S i' => waited i' + backoffAt i' end.

Lemma backoffAt_pos i : 5 * second ≤ backoffAt i ≤ 300 * second.
Proof. unfold backoffAt. do 6 (destruct i as [|i]; [vm_compute; split; discriminate|]). vm_compute. split; discriminate. Qed.

Lemma waited_grace i : (3 ≤ i)%nat → nvmlFailureGrace ≤ waited i.
Proof.
  induction 1 as [|i Hi IH]; [vm_compute; discriminate|]. cbn [waited]. pose proof (backoffAt_pos i). unfold second in *. lia.
Qed.

(** What the tracker knows after the attempts of the log. *)
Record tracked (t : Failures) (log : list (Z * bool)) : Prop := {
  tr_entry : t !! name = match log with
    | [] => None
    | (first, _) :: _ => Some (mkFailureState first (Some (default 0 (last log.*1) + backoffAt (length log - 1))) (length log))
    end;
  tr_spaced i u u' : log.*1 !! i = Some u → log.*1 !! S i = Some u' → u + backoffAt i ≤ u';
  tr_reported i first u b : log.*1 !! 0%nat = Some first → log !! i = Some (u, b) → b = (nvmlFailureGrace <=? u - first);
}.

Lemma tracked_nil : tracked ∅ [].
Proof. split; [apply lookup_empty|by intros i u u'|by intros i f u b]. Qed.

Lemma lookup_app_last {A} (l : list A) x i y : (l ++ [x]) !! i = Some y → l !! i = Some y ∨ i = length l ∧ y = x.
Proof. intros [?|[Hi Hx]]%lookup_app_Some; [by left|]. apply list_lookup_singleton_Some in Hx as [? ->]. right. split; [lia|done]. Qed.

Lemma tracked_step t log now : tracked t log → ∀ t' log', failingSync (t, log) now = (t', log') → tracked t' log'.
Proof.
  intros Ht t' log'. unfold failingSync. destruct (ShouldAttempt t now name) eqn:Ha; [|by intros [= <- <-]].
  pose proof Ht as [He Hs Hr]. unfold RecordFailure. intros [= <- <-]. unfold ShouldAttempt in Ha. rewrite He in *. split.
  - rewrite lookup_insert_eq. destruct log as [|[first b] log]; [done|]. simpl. f_equal.
    rewrite fmap_app, last_cons, last_app. simpl. rewrite length_app. simpl. f_equal; [|lia]. repeat f_equal. lia.
  - intros i u u'. rewrite fmap_app. simpl. intros Hu [Hu'|[Hi ->]]%lookup_app_last.
    + apply lookup_app_last in Hu as [Hu|[-> _]]; [by eapply Hs|]. apply lookup_lt_Some in Hu'. lia.
    + apply lookup_app_last in Hu as [Hu|[-> _]]; [|lia]. destruct log as [|[first b] log]; [done|].
      assert (last ((first, b) :: log).*1 = Some u) as Hlast by (rewrite last_lookup, <- Hi; exact Hu).
      apply negb_true_iff, Z.ltb_ge in Ha. rewrite Hlast in Ha. simpl default in Ha.
      rewrite length_fmap in Hi. replace (length ((first, b) :: log) - 1)%nat with i in Ha by (simpl in *; lia). done.
  - intros i first u b Hf Hl. apply lookup_app_last in Hl as [Hl|[-> [= -> ->]]].
    + eapply Hr; [|exact Hl]. destruct log; [done|]. exact Hf.
    + destruct log as [|[f b'] log]; simpl in Hf; injection Hf as <-; done.
Qed.

Lemma tracked_syncs times : tracked (fst (failingSyncs times)) (snd (failingSyncs times)).
Proof.
  unfold failingSyncs. assert (∀ st, tracked (fst st) (snd st) → tracked (fst (foldl failingSync st times)) (snd (foldl failingSync st times))) as Hf.
  { induction times as [|now times IH]; [done|]. intros [t log] Ht. cbn [foldl]. apply IH.
    destruct (failingSync (t, log) now) as [t' log'] eqn:Hs. by apply (tracked_step t log now Ht). }
  exact (Hf (∅, []) tracked_nil).
Qed.

Lemma tracked_waited t log i first u : tracked t log → log.*1 !! 0%nat = Some first → log.*1 !! i = Some u → first + waited i ≤ u.
Proof.
  intros Ht Hf. revert u. induction i as [|i IH]; intros u Hu; [rewrite Hf in Hu; injection Hu as <-; simpl; lia|].
  destruct (log.*1 !! i) as [v|] eqn:Hv.
  - specialize (IH v eq_refl). pose proof (tr_spaced _ _ Ht i v u Hv Hu). simpl. lia.
  - apply lookup_ge_None in Hv. apply lookup_lt_Some in Hu. lia.
Qed.

(** A GPU that NVML cannot read at any sync is reported on an attempt
    exactly when the grace of 30 seconds has passed since the first failure,
    and on every attempt from the fourth on whatever the times of the syncs
    are; two attempts are at least the back-off apart, and no back-off keeps
    the agent from trying for more than five minutes. *)
Theorem failure_grace times :
  let '(t, log) := failingSyncs times in
  (∀ i first u reported, log.*1 !! 0%nat = Some first → log !! i = Some (u, reported) →
     reported = bool_decide (first + nvmlFailureGrace ≤ u) ∧ ((3 ≤ i)%nat → reported = true)) ∧
  (∀ i u u', log.*1 !! i = Some u → log.*1 !! S i = Some u' → u + backoffAt i ≤ u') ∧
  (∀ u now, last log.*1 = Some u → u + 300 * second ≤ now → ShouldAttempt t now name = true).
Proof.
  pose proof (tracked_syncs times) as Ht. destruct (failingSyncs times) as [t log]. simpl in Ht. split; [|split].
  - intros i first u b Hf Hl. pose proof (tr_reported _ _ Ht i first u b Hf Hl) as ->.
    assert (log.*1 !! i = Some u) as Hu by (by rewrite list_lookup_fmap, Hl). split.
    + destruct (Z.leb_spec nvmlFailureGrace (u - first)); [rewrite bool_decide_eq_true_2|rewrite bool_decide_eq_false_2]; lia.
    + intros Hi%waited_grace. pose proof (tracked_waited _ _ i first u Ht Hf Hu). apply Z.leb_le. lia.
  - apply (tr_spaced _ _ Ht).
  - intros u now Hu Hnow. unfold ShouldAttempt. rewrite (tr_entry _ _ Ht). destruct log as [|[first b] log]; [done|].
    cbn [fs_nextAttempt]. rewrite Hu. cbn [default from_option]. apply negb_true_iff, Z.ltb_ge.
    pose proof (backoffAt_pos (length ((first, b) :: log) - 1)). unfold id; lia.
Qed.
End Tracker.

(** ** What a sync does beside publishing

    [does m P]: whatever the state, [m] keeps the node and the lists of GPUs,
    publishes nothing, and returns an answer in [P]. *)

Section Sync.
Context {Q : Type} `{Quantity Q} {S : Type} `{GpuServer S} `{HandlerWorld (Q := Q) S} `{MetaConditions} `{MapOrder}.
Abbreviation State := (HandlerState (S := S)).
Abbreviation Call := (HandlerCall (Q := Q)).
Abbreviation Sync := (M Call State).

Definition kept (s s' : State) : Prop := hs_nodeName s' = hs_nodeName s ∧ hs_all s' = hs_all s ∧ hs_ready s' = hs_ready s.

Definition publishes (c : Call) : Prop := match c with Published _ _ => True | _ => False end.
Definition quiet (h h' : list Call) : Prop := ∃ new, h' = h ++ new ∧ Forall (λ c, ¬ publishes c) new.

Lemma quiet_refl h : quiet h h.
Proof. exists []. by rewrite app_nil_r. Qed.
Lemma quiet_trans h1 h2 h3 : quiet h1 h2 → quiet h2 h3 → quiet h1 h3.
Proof. intros (a & -> & Ha) (b & -> & Hb). exists (a ++ b). rewrite app_assoc. split; [done|]. by apply Forall_app_2. Qed.

Definition does {A} (m : Sync A) (P : A → Prop) : Prop := ∀ s h,
  kept s (fst (snd (m s h))) ∧ quiet h (snd (snd (m s h))) ∧ match fst (m s h) with Ok a => P a | Err _ => True end.

Lemma does_bind {A B} (m : Sync A) (f : A → Sync B) P R : does m P → (∀ a, P a → does (f a) R) → does (m ≫= f) R.
Proof.
  intros Hm Hf s h. specialize (Hm s h). unfold mbind, M_bind. destruct (m s h) as [[a|e] [s1 h1]]; simpl in Hm.
  - destruct Hm as (Hk & Hq & Ha). destruct (Hf a Ha s1 h1) as (Hk' & Hq' & Hr). split; [|split; [|done]].
    + unfold kept in *. destruct_and!. repeat split; congruence.
    + by eapply quiet_trans.
  - by destruct Hm as (? & ? & _).
Qed.

Lemma does_weaken {A} (m : Sync A) (P R : A → Prop) : does m P → (∀ a, P a → R a) → does m R.
Proof. intros Hm HP s h. destruct (Hm s h) as (? & ? & Ha). split; [done|]. split; [done|]. destruct (fst (m s h)); [by apply HP|done]. Qed.

Lemma does_ret {A} (a : A) (P : A → Prop) : P a → does (mret a) P.
Proof. intros Ha s h. split; [done|]. split; [apply quiet_refl|done]. Qed.
Lemma does_fail {A} e (P : A → Prop) : does (fail e) P.
Proof. intros s h. split; [done|]. split; [apply quiet_refl|done]. Qed.
Lemma does_liftR {A} (r : res A) (P : A → Prop) : (∀ a, r = Ok a → P a) → does (liftR r) P.
Proof. intros Hr s h. split; [done|]. split; [apply quiet_refl|]. simpl. destruct r; [by apply Hr|done]. Qed.
Lemma does_get (P : State → Prop) : (∀ s, P s) → does get P.
Proof. intros HP s h. split; [done|]. split; [apply quiet_refl|]. apply HP. Qed.
Lemma does_try {A} (m : Sync A) P : does m P → does (try m) (λ r, match r with Ok a => P a | Err _ => True end).
Proof. intros Hm s h. specialize (Hm s h). unfold try. destruct (m s h) as [r [s' h']]. exact Hm. Qed.
Lemma does_onServer {A} (f : S → A * S) (P : A → Prop) : (∀ s, P (fst (f s))) → does (onServer f) P.
Proof. intros Hf s h. specialize (Hf (hs_server s)). unfold onServer. destruct (f (hs_server s)). split; [done|]. split; [apply quiet_refl|done]. Qed.
Lemma does_modify f : (∀ s, kept s (f s)) → does (modify f) (λ _, True).
Proof. intros Hf s h. split; [apply Hf|]. split; [apply quiet_refl|done]. Qed.
Lemma does_send recorder ev : does (send recorder ev) (λ _, True).
Proof.
  intros s h. split; [done|]. split; [|done]. unfold send, emit. destruct recorder; [|apply quiet_refl].
  exists [Sent ev]. split; [done|]. apply Forall_singleton. by intros [].
Qed.
Lemma does_forEach {A} (f : A → Sync ()) l : (∀ a, does (f a) (λ _, True)) → does (forEach f l) (λ _, True).
Proof. intros Hf. induction l as [|a l IH]; [by apply does_ret|]. simpl. eapply does_bind; [apply Hf|done]. Qed.
Lemma does_collect {A} (f : A → Sync ()) l : (∀ a, does (f a) (λ _, True)) → does (collectErrors f l) (λ _, True).
Proof.
  intros Hf. induction l as [|a l IH]; [by apply does_ret|]. simpl. eapply does_bind; [apply does_try, Hf|].
  intros r _. eapply does_bind; [exact IH|]. intros errs _. by apply does_ret.
Qed.
Lemma does_join errs (P : () → Prop) : P () → does (join errs) P.
Proof. intros HP. unfold join. destruct (list_len0 errs); [by apply does_ret|apply does_fail]. Qed.
Lemma does_traced ev f : (∀ err, ¬ publishes (ev err)) → does (traced ev f) (λ _, True).
Proof.
  intros Hev. unfold traced. eapply (does_bind _ _ (λ _, True)); [by apply does_onServer|]. intros err _ s h.
  split; [done|]. split; [|done]. exists [ev err]. split; [done|]. apply Forall_singleton, Hev.
Qed.

(** *** The handlers *)

Lemma does_setTracker t : does (setTracker t) (λ _, True).
Proof. by apply does_modify. Qed.
Lemma does_Clear name : does (tracker_Clear name) (λ _, True).
Proof. unfold tracker_Clear. eapply (does_bind _ _ (λ _, True)); [by apply does_get|]. intros st _. apply does_setTracker. Qed.
Lemma does_Now : does (onServer hw_Now) (λ _, True).
Proof. by apply does_onServer. Qed.

Lemma does_PatchStatus obj base : does (PatchStatus obj base) (λ obj', pg_Name obj' = pg_Name obj).
Proof.
  unfold PatchStatus. apply (does_bind _ _ (λ r, ∀ obj', r = Ok obj' → pg_Name obj' = pg_Name obj)); [|intros r Hr; by apply does_liftR].
  apply does_onServer. intros s obj'. destruct (gc_PatchStatus obj base s) as [r s'] eqn:Hp. simpl. intros ->.
  apply patchStatus_stored in Hp as (old & Hold & _ & Hmeta & _). apply stored_name in Hold. unfold pg_Name in *. by rewrite Hmeta.
Qed.

Lemma does_record recorder obj base reason message : does (recordHardwareEvent recorder obj base reason message) (λ _, True).
Proof. unfold recordHardwareEvent. destruct (hardwareConditionChanged _ _); [apply does_send|by apply does_ret]. Qed.
Lemma does_recordToolkit recorder obj base : does (recordToolkitNotReadyEvent recorder obj base) (λ _, True).
Proof. unfold recordToolkitNotReadyEvent. destruct (hardwareConditionChanged _ _); [apply does_send|by apply does_ret]. Qed.

(** Binds whose first half answers anything. *)
Ltac step lem := eapply (does_bind _ _ (λ _, True)); [lem|intros ? _].

Lemma does_patched obj base : does (PatchStatus obj base ≫= λ _, mret ()) (λ _, True).
Proof. eapply does_bind; [apply does_PatchStatus|]. intros a _. by apply does_ret. Qed.

Lemma does_markOne recorder pgpu : does (markOne recorder pgpu) (λ _, True).
Proof.
  unfold markOne. destruct (condition_true _ _); [by apply does_ret|].
  step ltac:(apply does_Clear). step ltac:(apply does_Now). step ltac:(apply does_recordToolkit). apply does_patched.
Qed.

Lemma does_MarkNotReady recorder : does (MarkNotReadyHandle recorder) (λ _, True).
Proof.
  unfold MarkNotReadyHandle. step ltac:(by apply does_get). step ltac:(apply does_collect, does_markOne). by apply does_join.
Qed.

Lemma does_RecordFailure name : does (tracker_RecordFailure name) (λ _, True).
Proof.
  unfold tracker_RecordFailure. step ltac:(apply does_Now). step ltac:(by apply does_get). destruct (RecordFailure _ _ _).
  step ltac:(apply does_setTracker). by apply does_ret.
Qed.

Lemma does_deviceFailure recorder base err : does (applyDeviceFailure recorder base err) (λ _, True).
Proof.
  unfold applyDeviceFailure. step ltac:(apply does_RecordFailure). destruct (negb _); [by apply does_ret|].
  step ltac:(apply does_Now). step ltac:(apply does_record). apply does_patched.
Qed.

Lemma does_applyFailure recorder devices err : does (applyFailure recorder devices err) (λ _, True).
Proof. unfold applyFailure. step ltac:(apply does_collect; intros; apply does_deviceFailure). by apply does_join. Qed.

Lemma does_updateDevice recorder read pgpu :
  does (updateDevice recorder read pgpu) (λ r, ∀ obj, r = Some obj → pg_Name obj = pg_Name pgpu ∧ ∃ snapshot, read (publish_pciAddress pgpu) = Ok snapshot).
Proof.
  unfold updateDevice, publish_pciAddress.
  replace (match st_PCIInfo (pg_Status pgpu) with Some pci => pci_Address pci | None => "" end)
    with (match st_PCIInfo (pg_Status pgpu) with None => "" | Some pci => pci_Address pci end) by done.
  destruct (read _) as [snapshot|err].
  - step ltac:(apply does_Now). step ltac:(apply does_Clear). eapply does_bind; [apply does_PatchStatus|].
    intros obj Hobj. apply does_ret. intros obj' [= <-]. split; [done|by exists snapshot].
  - step ltac:(apply does_deviceFailure). by apply does_ret.
Qed.

Lemma does_markNotNvidia pgpu : does (markDriverTypeNotNvidia pgpu) (λ _, True).
Proof. unfold markDriverTypeNotNvidia. step ltac:(apply does_Now). apply does_patched. Qed.

Lemma does_ShouldAttempt name : does (tracker_ShouldAttempt name) (λ _, True).
Proof. unfold tracker_ShouldAttempt. step ltac:(apply does_Now). step ltac:(by apply does_get). by apply does_ret. Qed.

(** A GPU of the sync is one of [ready] as it was, or what the server answered
    after a read of one of them succeeded. *)
Definition comes_from (open : res (string → res DeviceSnapshot)) (pgpu l : PhysicalGPU) : Prop :=
  pgpu = l ∨ pg_Name pgpu = pg_Name l ∧ ∃ read snapshot, open = Ok read ∧ read (publish_pciAddress l) = Ok snapshot.
Definition all_from open (ready l : list PhysicalGPU) : Prop := ∀ pgpu, pgpu ∈ l → ∃ l0, l0 ∈ ready ∧ comes_from open pgpu l0.

Lemma all_from_incl open ready l : (∀ pgpu, pgpu ∈ l → pgpu ∈ ready) → all_from open ready l.
Proof. intros Hl pgpu Hin. exists pgpu. split; [by apply Hl|by left]. Qed.
Lemma all_from_weaken open ready ready' l : (∀ pgpu, pgpu ∈ ready → pgpu ∈ ready') → all_from open ready l → all_from open ready' l.
Proof. intros Hr Hl pgpu (l0 & Hin & Hf)%Hl. exists l0. split; [by apply Hr|done]. Qed.
Lemma all_from_cons open ready pgpu pgpu' l : comes_from open pgpu' pgpu → all_from open ready l → all_from open (pgpu :: ready) (pgpu' :: l).
Proof.
  intros Hf Hl g [->|Hg]%elem_of_cons; [exists pgpu; split; [by left|done]|].
  destruct (Hl g Hg) as (l0 & Hin & Hc). exists l0. split; [by right|done].
Qed.
Lemma all_from_app open l l1 l2 : all_from open l l1 → all_from open l l2 → all_from open l (l1 ++ l2).
Proof. intros H1' H2' g [?|?]%elem_of_app; [by apply H1'|by apply H2']. Qed.

Lemma does_splitReady ready :
  does (splitReady ready) (λ '(_, updated, nvidia), ∀ pgpu, pgpu ∈ updated ∨ pgpu ∈ nvidia → pgpu ∈ ready).
Proof.
  induction ready as [|pgpu rest IH]; simpl; [apply does_ret; set_solver|].
  destruct (negb (isDriverTypeNvidia pgpu)).
  - step ltac:(eapply does_weaken; [apply does_try, does_markNotNvidia|done]). step ltac:(apply does_Clear).
    eapply does_bind; [exact IH|]. intros [[errs updated] nvidia] Hu. apply does_ret. set_solver.
  - step ltac:(apply does_ShouldAttempt). eapply does_bind; [exact IH|]. intros [[errs updated] nvidia] Hu. apply does_ret.
    destruct a; set_solver.
Qed.

Lemma does_updateDevices recorder read nvidia :
  does (updateDevices recorder read nvidia) (λ '(_, updated), all_from (Ok read) nvidia updated).
Proof.
  induction nvidia as [|pgpu rest IH]; simpl; [apply does_ret; by intros g ?%elem_of_nil|].
  eapply does_bind; [apply does_try, does_updateDevice|]. intros r Hr. eapply does_bind; [exact IH|].
  intros [errs updated] Hu. apply does_ret. apply all_from_cons; [|done]. destruct r as [[obj|]|]; [|by left..].
  destruct (Hr obj eq_refl) as [Hn [snapshot Hs]]. right. split; [done|]. by exists read, snapshot.
Qed.

Lemma get_bind {B} (f : State → Sync B) s h : (get ≫= f) s h = f s s h.
Proof. reflexivity. Qed.

(** A bind after something that keeps the lists: it failed, or the rest runs. *)
Lemma does_inv {A B} (m : Sync A) P (f : A → Sync B) s h r s' h' : does m P → (m ≫= f) s h = (r, (s', h')) →
  kept s s' ∧ quiet h h' ∧ (∃ e, r = Err e) ∨ ∃ a s1 h1, P a ∧ kept s s1 ∧ quiet h h1 ∧ f a s1 h1 = (r, (s', h')).
Proof.
  intros Hm Heq. destruct (Hm s h) as (Hk & Hq & Ha). unfold mbind, M_bind in Heq. destruct (m s h) as [[a|e] [s1 h1]]; simpl in *.
  - right. by exists a, s1, h1.
  - left. injection Heq as <- <- <-. split; [done|]. split; [done|]. by eexists.
Qed.

(** The node and the GPUs listed stay; the ready ones come from [ready]. *)
Definition narrowed open (ready : list PhysicalGPU) (s : State) (h : list Call) (s' : State) (h' : list Call) : Prop :=
  hs_nodeName s' = hs_nodeName s ∧ hs_all s' = hs_all s ∧ all_from open ready (hs_ready s') ∧ quiet h h'.

Lemma kept_narrowed open s h s' h' : kept s s' → quiet h h' → narrowed open (hs_ready s) s h s' h'.
Proof. intros (? & ? & Hr) Hq. split_and!; [done|done|rewrite Hr; by apply all_from_incl|done]. Qed.
Lemma narrowed_trans open ready s h s1 h1 s2 h2 : kept s s1 → quiet h h1 → narrowed open ready s1 h1 s2 h2 → narrowed open ready s h s2 h2.
Proof. intros (? & ? & ?) Hq (? & ? & ? & ?). split_and!; [congruence|congruence|done|by eapply quiet_trans]. Qed.

Lemma does_narrowed open (m : Sync ()) P s h r s' h' : does m P → m s h = (r, (s', h')) → narrowed open (hs_ready s) s h s' h'.
Proof. intros Hm Heq. destruct (Hm s h) as (? & ? & _). rewrite Heq in *. by apply kept_narrowed. Qed.

Lemma capabilities_narrows recorder open s h r s' h' : CapabilitiesHandle recorder open s h = (r, (s', h')) →
  narrowed open (hs_ready s) s h s' h'.
Proof.
  unfold CapabilitiesHandle. rewrite get_bind. destruct (list_len0 (hs_ready s)); [by eapply does_narrowed, (does_ret _ (λ _, True))|].
  intros [(? & ? & _)|([[errs updated] nvidia] & s1 & h1 & Hu & Hk & Hq & Heq)]%(does_inv _ _ _ _ _ _ _ _ (does_splitReady _)).
  { by apply kept_narrowed. }
  apply (narrowed_trans _ _ _ _ s1 h1); [done|done|]. destruct Hk as (_ & _ & Hrd). rewrite <- Hrd in *.
  destruct (list_len0 nvidia); [by apply (does_narrowed _ _ _ _ _ _ _ _ (does_join errs (λ _, True) I) Heq)|]. destruct open as [read|err].
  2: { eapply (does_narrowed _ _ (λ _, True)); [|exact Heq]. eapply does_bind; [apply does_try, does_applyFailure|]. intros applied _. by apply (does_join _ (λ _, True)). }
  apply (does_inv _ _ _ _ _ _ _ _ (does_updateDevices _ _ _)) in Heq as [(? & ? & _)|([errs' updated'] & s2 & h2 & Hr & Hk & Hq2 & Heq)].
  { by apply kept_narrowed. }
  apply (narrowed_trans _ _ _ _ s2 h2); [done|done|]. destruct Hk as (_ & _ & Hrd2). rewrite <- Hrd2 in *.
  assert (all_from (Ok read) (hs_ready s2) (updated ++ updated')) as Hall.
  { apply all_from_app; [apply all_from_incl; set_solver|]. eapply all_from_weaken; [|exact Hr]. set_solver. }
  destruct (list_len0 (updated ++ updated')); unfold join in Heq; destruct (list_len0 (errs ++ errs')); injection Heq as <- <- <-;
    first [by apply kept_narrowed, quiet_refl | split_and!; [done|done|done|apply quiet_refl]].
Qed.

Lemma does_mismatch recorder ready resources : does (recordMigPlacementMismatch recorder ready resources) (λ _, True).
Proof. apply does_forEach. intros ev. apply does_send. Qed.

Lemma does_recordPublish recorder ready err : does (recordPublish recorder ready err) (λ _, True).
Proof. apply does_forEach. intros pgpu. apply does_send. Qed.

Lemma does_BaseSync writer resources : does (BaseSync writer resources) (λ _, True).
Proof.
  unfold BaseSync. destruct (negb writer); [by apply does_ret|]. destruct (list_len0 _); [by apply does_ret|].
  apply does_traced. by intros err [].
Qed.

Lemma does_gateEvents recorder node pool features : does (recordFeatureGateEvents recorder node pool features) (λ _, True).
Proof.
  unfold recordFeatureGateEvents. destruct (negb recorder || _); [by apply does_ret|]. step ltac:(by apply does_get).
  destruct (MarkDisabled _ _) as [newly disabled]. step ltac:(by apply does_modify). destruct (list_len0 newly); [by apply does_ret|].
  eapply does_bind; [apply (does_try _ (λ _, True))|].
  - unfold ListByNode. step ltac:(by apply does_get). by apply does_liftR.
  - intros [gpus|e] _; [|by apply does_ret]. apply does_forEach. intros ev. apply does_send.
Qed.

Lemma does_HandleError recorder node err : does (HandleError recorder node err) (λ _, True).
Proof.
  unfold HandleError. destruct (hw_Dropped err) as [dropped|]; [|by apply does_ret].
  destruct (list_len0 (df_DisabledFeatures dropped)); [by apply does_ret|]. destruct (splitFeatures _) as [known unknown].
  step idtac. { destruct (list_len0 known); [by apply does_ret|]. unfold builder_DisableFeatures. step ltac:(by apply does_get).
    destruct (Disable _ _) as [updated changed]. step ltac:(destruct changed; [by apply does_modify|by apply does_ret]). by apply does_ret. }
  step ltac:(match goal with |- context [if ?b then _ else _] => destruct b end; [by apply does_modify|by apply does_ret]).
  apply does_gateEvents.
Qed.

Lemma does_onError recorder node err : does (match err with Some e => HandleError recorder node e | None => mret () end) (λ _, True).
Proof. destruct err; [apply does_HandleError|by apply does_ret]. Qed.

(** What a part of the trace publishes: [pub] at most once, and once without an
    error when [r] is none. *)
Definition publishes_once (pub : gmap string (list (Slice Q))) (r : res ()) (new : list Call) : Prop :=
  (∃ a err b, new = a ++ Published pub err :: b ∧ Forall (λ c, ¬ publishes c) (a ++ b) ∧ (r = Ok () → err = None)) ∨
  Forall (λ c, ¬ publishes c) new ∧ r ≠ Ok ().

Lemma publishes_after pub r h h1 h' new : quiet h h1 → h' = h1 ++ new → publishes_once pub r new →
  ∃ new', h' = h ++ new' ∧ publishes_once pub r new'.
Proof.
  intros (new1 & -> & Hq) -> Hn. exists (new1 ++ new). rewrite app_assoc. split; [done|].
  destruct Hn as [(x & err & y & -> & Hxy & Hr)|[Hno Hr]]; [left|right].
  - exists (new1 ++ x), err, y. rewrite <- !app_assoc. split; [done|]. split; [by apply Forall_app_2|done].
  - split; [by apply Forall_app_2|done].
Qed.

Lemma publishes_bind {A} (m : Sync A) (f : A → Sync ()) P s h pub r s' h' : does m P → (m ≫= f) s h = (r, (s', h')) →
  (∀ a s1 h1, f a s1 h1 = (r, (s', h')) → ∃ new, h' = h1 ++ new ∧ publishes_once pub r new) →
  ∃ new, h' = h ++ new ∧ publishes_once pub r new.
Proof.
  intros Hm Heq Hf. apply (does_inv _ _ _ _ _ _ _ _ Hm) in Heq as [(_ & (new & -> & Hq) & [e ->])|(a & s1 & h1 & _ & _ & Hq & Heq)].
  - exists new. split; [done|]. by right.
  - destruct (Hf a s1 h1 Heq) as (new & Hnew & Hn). by eapply publishes_after.
Qed.

Lemma traced_inv {B} ev g (f : option error → Sync B) s h out : (traced ev g ≫= f) s h = out →
  ∃ err s1, f err s1 (h ++ [ev err]) = out.
Proof. unfold traced, mbind, M_bind, onServer. destruct (g (hs_server s)) as [err server]. simpl. intros Heq. by eexists _, _. Qed.

Lemma publish_once recorder writer placements s h r s' h' : PublishHandle recorder writer placements s h = (r, (s', h')) →
  ∃ new, h' = h ++ new ∧
    publishes_once (fst (BuildResources placements (hs_nodeName s) (hs_ready s) (hs_features s))) r new.
Proof.
  unfold PublishHandle. rewrite get_bind. destruct (BuildResources _ _ _ _) as [resources errs]. cbn [fst]. intros Heq.
  eapply publishes_bind; [apply does_mismatch|exact Heq|]. clear Heq. intros [] s1 h1 Heq.
  eapply publishes_bind; [apply does_BaseSync|exact Heq|]. clear Heq. intros cdiErr s2 h2 Heq.
  eapply publishes_bind; [apply does_onError|exact Heq|]. clear Heq. intros [] s3 h3 Heq.
  apply traced_inv in Heq as (err & s4 & Heq).
  apply (does_inv _ _ _ _ _ _ _ _ (does_onError _ _ _)) in Heq as [(_ & (new & -> & Hq) & [e ->])|([] & s5 & h5 & _ & _ & (n5 & -> & Hq5) & Heq)].
  { exists (Published resources err :: new). rewrite <- app_assoc. split; [done|]. left. by exists [], err, new. }
  apply (does_inv _ _ _ _ _ _ _ _ (does_recordPublish _ _ _)) in Heq as [(_ & (new & -> & Hq) & [e ->])|([] & s6 & h6 & _ & _ & (n6 & -> & Hq6) & Heq)].
  { exists (Published resources err :: n5 ++ new). rewrite <- !app_assoc. split; [done|]. left. exists [], err, (n5 ++ new).
    split; [done|]. split; [by apply (Forall_app_2 _ n5 new)|done]. }
  exists (Published resources err :: n5 ++ n6). split.
  { match type of Heq with context [list_len0 ?l] => destruct (list_len0 l) end; injection Heq as _ _ <-;
      by rewrite <- !app_assoc. }
  left. exists [], err, (n5 ++ n6). split; [done|]. split; [by apply (Forall_app_2 _ n5 n6)|]. intros ->.
  destruct err as [e|]; [|done]. exfalso. revert Heq.
  assert (list_len0 ((if list_len0 errs then [] else [joinErrors gc_ErrorText errs]) ++ option_list cdiErr ++ option_list (Some e)) = false) as ->; [|done].
  destruct (list_len0 errs), cdiErr; done.
Qed.

(** *** A sync *)

Lemma step_inv name (m : Sync ()) rest s h r s' h' : Run (handlerStep name m :: rest) s h = (r, (s', h')) →
  (∃ r0, m s h = (r0, (s', h'))) ∨ ∃ s1 h1, m s h = (Ok (), (s1, h1)) ∧ Run rest s1 h1 = (r, (s', h')).
Proof.
  cbn [Run]. unfold mbind, M_bind, handlerStep. destruct (m s h) as [[[]|e] [s1 h1]]; [intros Hr; right; by exists s1, h1|].
  destruct (errorsIs e ErrStopChain); intros [= _ <- <-]; left; by eexists.
Qed.

(** The GPUs published: healthy, and listed with the driver ready or read anew
    from such a GPU. *)
Definition published_from open (listed gpus : list PhysicalGPU) : Prop := ∀ pgpu, pgpu ∈ gpus →
  condition_true HardwareHealthyType pgpu = true ∧
  ∃ l, l ∈ listed ∧ condition_true DriverReadyType l = true ∧ comes_from open pgpu l.

Lemma quiet_publishes h h' pub err new : quiet h h' → h' = h ++ new → Published pub err ∈ new → False.
Proof.
  intros (new' & -> & Hq) Heq%app_inv_head Hin. subst. rewrite Forall_forall in Hq. by apply (Hq _ Hin).
Qed.

Lemma discover_eq s h : (HandlerDiscover : Sync ()) s h = match gc_List {[ LabelNode := hs_nodeName s ]} (hs_server s) with
  | Ok l => (setAll l : Sync ()) s h | Err e => (Err e, (s, h)) end.
Proof. unfold HandlerDiscover, ListByNode, mbind, M_bind, get, liftR. by destruct (gc_List _ _). Qed.

Lemma sync_publishes recorder writer reader placements s h r s' h' :
  handlerSync recorder writer reader placements s h = (r, (s', h')) →
  quiet h h' ∨ ∃ listed gpus features h1 r0 new, gc_List {[ LabelNode := hs_nodeName s ]} (hs_server s) = Ok listed ∧
    published_from reader listed gpus ∧ quiet h h1 ∧ h' = h1 ++ new ∧
    publishes_once (fst (BuildResources placements (hs_nodeName s) gpus features)) r0 new.
Proof.
  unfold handlerSync, setAll, setReady. unfold mbind, M_bind, modify. set (s0 := mkHandlerState _ _ _ _ _ _ _ _).
  assert (hs_nodeName s0 = hs_nodeName s ∧ hs_server s0 = hs_server s) as [Hn0 Hs0] by done. clearbody s0. unfold handlerSteps.
  (* discover *)
  intros [[r0 Heq]|(s1 & h1 & Heq & Hrun)]%step_inv; rewrite discover_eq, Hn0, Hs0 in Heq.
  { left. destruct (gc_List _ _); injection Heq as _ _ <-; apply quiet_refl. }
  destruct (gc_List {[ LabelNode := hs_nodeName s ]} (hs_server s)) as [listed|] eqn:Hlist; [|done].
  injection Heq as Hs1 <-. assert (hs_nodeName s1 = hs_nodeName s ∧ hs_all s1 = listed) as [Hn1 Ha1] by (by rewrite <- Hs1, <- Hn0).
  clear Hs1.
  (* mark-not-ready *)
  apply step_inv in Hrun as [[r0 Heq]|(s2 & h2 & Heq & Hrun)].
  { left. destruct (does_MarkNotReady recorder s1 h) as (_ & Hq & _). by rewrite Heq in Hq. }
  destruct (does_MarkNotReady recorder s1 h) as ((Hn2 & Ha2 & _) & Hq2 & _). rewrite Heq in Hn2, Ha2, Hq2. simpl in Hn2, Ha2, Hq2. clear Heq.
  (* filter-ready *)
  apply step_inv in Hrun as [[r0 Heq]|(s3 & h3 & Heq & Hrun)]; unfold FilterReadyHandle in Heq.
  { rewrite get_bind in Heq. injection Heq as _ _ <-. by left. }
  rewrite get_bind in Heq. injection Heq as <- <-.
  (* capabilities *)
  apply step_inv in Hrun as [[r0 Heq]|(s4 & h4 & Heq & Hrun)].
  { apply capabilities_narrows in Heq as (_ & _ & _ & Hq). left. by eapply quiet_trans. }
  apply capabilities_narrows in Heq as (Hn4 & _ & Hr4 & Hq4). simpl in Hn4, Hr4.
  (* filter-healthy *)
  apply step_inv in Hrun as [[r0 Heq]|(s5 & h5 & Heq & Hrun)]; unfold FilterHealthyHandle in Heq.
  { rewrite get_bind in Heq. injection Heq as _ _ <-. left. by eapply quiet_trans. }
  rewrite get_bind in Heq. injection Heq as <- <-.
  (* publish *)
  right. assert (∃ r0 s6 , PublishHandle recorder writer placements
    (mkHandlerState (hs_nodeName s4) (hs_all s4) (List.filter (condition_true HardwareHealthyType) (hs_ready s4)) (hs_tracker s4)
       (hs_features s4) (hs_disabled s4) (hs_notified s4) (hs_server s4)) h4 = (r0, (s6, h'))) as (r0 & s6 & Hpub).
  { apply step_inv in Hrun as [[r0 Heq]|(s6 & h6 & Heq & Hrun)]; [by eexists _, _|].
    exists (Ok ()), s6. rewrite Heq. cbn in Hrun. by injection Hrun as _ _ ->. }
  apply publish_once in Hpub as (new & -> & Hpub). simpl in Hpub.
  eexists listed, _, _, h4, r0, new. split; [done|]. split; [|split; [by eapply quiet_trans|split; [done|]]].
  2: { rewrite Hn4, Hn2, Hn1 in Hpub. exact Hpub. }
  intros pgpu [Hin Hh]%elem_of_filter_bool. split; [done|]. apply Hr4 in Hin as (l & Hin & Hl).
  apply elem_of_filter_bool in Hin as [Hin Hd]. exists l. rewrite Ha2, Ha1 in Hin. done.
Qed.

Definition is_published (c : Call) : bool := match c with Published _ _ => true | _ => false end.
Lemma filter_quiet (l : list Call) : Forall (λ c, ¬ publishes c) l → List.filter is_published l = [].
Proof. induction 1 as [|c l Hc _ IH]; [done|]. destruct c; [done|done|]. by destruct Hc. Qed.

(** C10: a sync publishes at most once, and what it publishes are the devices of
    GPUs that the sync takes for healthy: each was listed on the node with its
    driver ready when the sync began, and either its condition was HardwareHealthy
    in that list, or NVML was read for it successfully in this sync and the
    status the server answered with says so.  (The listed condition also counts
    when this very sync has set it to Unknown on the server.) *)
Theorem published_are_healthy recorder writer reader placements s h r s' h' :
  handlerSync recorder writer reader placements s h = (r, (s', h')) →
  ∃ new, h' = h ++ new ∧ (length (List.filter is_published new) ≤ 1)%nat ∧
  ∀ pub err, Published pub err ∈ new → ∃ listed gpus features,
    gc_List {[ LabelNode := hs_nodeName s ]} (hs_server s) = Ok listed ∧
    pub = fst (BuildResources placements (hs_nodeName s) gpus features) ∧
    ∀ pgpu, pgpu ∈ gpus → condition_true HardwareHealthyType pgpu = true ∧
      ∃ l, l ∈ listed ∧ condition_true DriverReadyType l = true ∧ comes_from reader pgpu l.
Proof.
  intros [(new & -> & Hq)|(listed & gpus & features & h1 & r0 & new & Hl & Hg & (n1 & -> & Hq) & -> & Hp)]%sync_publishes.
  - exists new. split; [done|]. split; [rewrite filter_quiet by done; simpl; lia|]. intros pub err Hin. rewrite Forall_forall in Hq.
    destruct (Hq _ Hin I).
  - exists (n1 ++ new). rewrite <- app_assoc. split; [done|]. rewrite List.filter_app, (filter_quiet n1 Hq). simpl.
    destruct Hp as [(a & e & b & -> & Hab & _)|[Hno _]].
    + apply Forall_app in Hab as [Ha Hb]. rewrite List.filter_app, (filter_quiet a Ha). simpl. rewrite (filter_quiet b Hb). split; [simpl; lia|].
      intros pub err Hin. exists listed, gpus, features. split; [done|]. split; [|done].
      rewrite !elem_of_app, elem_of_cons in Hin. rewrite Forall_forall in Hq, Ha, Hb.
      destruct Hin as [Hin|[Hin|[Hin|Hin]]]; [destruct (Hq _ Hin I)|destruct (Ha _ Hin I)|by injection Hin|destruct (Hb _ Hin I)].
    + rewrite filter_quiet by done. split; [simpl; lia|]. intros pub err Hin. rewrite elem_of_app in Hin. rewrite Forall_forall in Hq, Hno.
      destruct Hin as [Hin|Hin]; [destruct (Hq _ Hin I)|destruct (Hno _ Hin I)].
Qed.

(** ** Retries

    A sync asked for because fields were dropped costs a feature: what is left
    to ask for is the number of features that are enabled. *)

Definition enabled (f : FeatureSet) : nat :=
  Nat.b2n (PartitionableDevices f) + Nat.b2n (ConsumableCapacity f) + Nat.b2n (BindingConditions f).
Definition budget (s : State) : nat := hs_notified s + enabled (hs_features s).
Definition frugal {A} (m : Sync A) : Prop := ∀ s h, (budget (fst (snd (m s h))) ≤ budget s)%nat.

Lemma frugal_bind {A B} (m : Sync A) (f : A → Sync B) : frugal m → (∀ a, frugal (f a)) → frugal (m ≫= f).
Proof.
  intros Hm Hf s h. specialize (Hm s h). unfold mbind, M_bind. destruct (m s h) as [[a|e] [s1 h1]]; simpl in *; [|done].
  specialize (Hf a s1 h1). lia.
Qed.
Lemma frugal_try {A} (m : Sync A) : frugal m → frugal (try m).
Proof. intros Hm s h. specialize (Hm s h). unfold try. by destruct (m s h) as [r [s' h']]. Qed.
Lemma frugal_modify f : (∀ s, budget (f s) = budget s) → frugal (modify f).
Proof. intros Hf s h. simpl. by rewrite Hf. Qed.
Lemma frugal_onServer {A} (f : S → A * S) : frugal (onServer f).
Proof. intros s h. unfold onServer. by destruct (f (hs_server s)). Qed.
Lemma frugal_pure {A} (r : res A) : frugal (liftR r).
Proof. by intros s h. Qed.
Lemma frugal_ret {A} (a : A) : frugal (mret a).
Proof. by intros s h. Qed.
Lemma frugal_fail {A} e : frugal (fail (A := A) e).
Proof. by intros s h. Qed.
Lemma frugal_get : frugal get.
Proof. by intros s h. Qed.
Lemma frugal_emit recorder ev : frugal (emit recorder ev).
Proof. by intros s h. Qed.

(** The structure of a handler, down to the calls. *)
Ltac frugal_using lem := repeat first
  [ lem | apply frugal_ret | apply frugal_fail | apply frugal_get | apply frugal_pure | apply frugal_emit | apply frugal_onServer
  | apply frugal_try | apply frugal_modify; reflexivity | (apply frugal_bind; [|intros ?]) | assumption
  | match goal with |- frugal (match ?x with _ => _ end) => destruct x end
  | match goal with |- frugal (let '_ := ?x in _) => destruct x end ].
Ltac frugal := frugal_using fail.

Lemma frugal_forEach {A} (f : A → Sync ()) l : (∀ a, frugal (f a)) → frugal (forEach f l).
Proof. intros Hf. induction l as [|a l IH]; simpl; frugal; apply Hf. Qed.
Lemma frugal_collect {A} (f : A → Sync ()) l : (∀ a, frugal (f a)) → frugal (collectErrors f l).
Proof. intros Hf. induction l as [|a l IH]; simpl; frugal; apply Hf. Qed.

Lemma frugal_discover : frugal HandlerDiscover.
Proof. unfold HandlerDiscover, ListByNode, setAll. frugal. Qed.
Lemma frugal_mark recorder : frugal (MarkNotReadyHandle recorder).
Proof.
  unfold MarkNotReadyHandle, join. frugal. apply frugal_collect. intros pgpu.
  unfold markOne, tracker_Clear, setTracker, recordToolkitNotReadyEvent, send, PatchStatus. frugal.
Qed.
Lemma frugal_filterReady : frugal FilterReadyHandle.
Proof. unfold FilterReadyHandle, setReady. frugal. Qed.
Lemma frugal_filterHealthy : frugal FilterHealthyHandle.
Proof. unfold FilterHealthyHandle, setReady. frugal. Qed.

Lemma frugal_deviceFailure recorder base err : frugal (applyDeviceFailure recorder base err).
Proof. unfold applyDeviceFailure, tracker_RecordFailure, setTracker, recordHardwareEvent, send, PatchStatus. frugal. Qed.
Lemma frugal_splitReady ready : frugal (splitReady ready).
Proof.
  induction ready as [|pgpu rest IH]; simpl; [frugal|].
  unfold markDriverTypeNotNvidia, tracker_Clear, tracker_ShouldAttempt, setTracker, PatchStatus. frugal.
Qed.
Lemma frugal_updateDevices recorder read nvidia : frugal (updateDevices recorder read nvidia).
Proof.
  induction nvidia as [|pgpu rest IH]; simpl; [frugal|]. unfold updateDevice, tracker_Clear, setTracker, PatchStatus.
  frugal_using ltac:(apply frugal_deviceFailure).
Qed.
Lemma frugal_capabilities recorder open : frugal (CapabilitiesHandle recorder open).
Proof.
  unfold CapabilitiesHandle, applyFailure, join, setReady.
  frugal_using ltac:(first [apply frugal_splitReady | apply frugal_updateDevices | apply frugal_collect; intros; apply frugal_deviceFailure]).
Qed.

Lemma Disable_enabled f features f' changed : Disable f features = (f', changed) →
  (enabled f' + Nat.b2n changed ≤ enabled f)%nat.
Proof.
  unfold Disable. assert (∀ st, (enabled (fst (foldl (setFeature false) st features)) +
      Nat.b2n (snd (foldl (setFeature false) st features)) ≤ enabled (fst st) + Nat.b2n (snd st))%nat) as Hf.
  { induction features as [|x features IH]; [done|]. intros st. simpl. etrans; [apply IH|]. destruct st as [[p c b l] ch].
    unfold setFeature, enabled. simpl. repeat case_match; destruct p, c, b, ch; simpl in *; try done; lia. }
  intros Heq. specialize (Hf (f, false)). rewrite Heq in Hf. simpl in Hf. lia.
Qed.

Lemma frugal_gateEvents recorder node pool features : frugal (recordFeatureGateEvents recorder node pool features).
Proof.
  unfold recordFeatureGateEvents, setDisabled, ListByNode. frugal_using ltac:(apply frugal_forEach; intros; apply frugal_emit).
Qed.

(** The features disabled pay for the sync asked for. *)
Lemma frugal_HandleError recorder node err : frugal (HandleError recorder node err).
Proof.
  unfold HandleError. destruct (hw_Dropped err) as [dropped|]; [|frugal]. destruct (list_len0 _); [frugal|].
  destruct (splitFeatures _) as [known unknown]. destruct (list_len0 known).
  { frugal_using ltac:(apply frugal_gateEvents). }
  intros s h. unfold builder_DisableFeatures. unfold mbind, M_bind, get. destruct (Disable (hs_features s) known) as [f changed] eqn:Hd.
  apply Disable_enabled in Hd. destruct changed; simpl in *.
  - etrans; [apply frugal_gateEvents|]. unfold budget. simpl. lia.
  - apply frugal_gateEvents.
Qed.

Lemma frugal_publish recorder writer placements : frugal (PublishHandle recorder writer placements).
Proof.
  unfold PublishHandle, recordMigPlacementMismatch, recordPublish, BaseSync, traced.
  frugal_using ltac:(first [apply frugal_HandleError | apply frugal_forEach; intros; apply frugal_emit]).
Qed.

Lemma frugal_step name (m : Sync ()) : frugal m → frugal (handlerStep name m).
Proof.
  intros Hm s h. specialize (Hm s h). unfold handlerStep. destruct (m s h) as [[a|e] [s' h']]; [done|]. by destruct (errorsIs e ErrStopChain).
Qed.

(** Work of the handler: errors the publishing helper reports in the background
    are handled between the steps of a sync as well as between syncs. *)
Definition background (recorder : bool) (errs : list error) : StepTaker HandlerCall State := λ s h,
  match forEach (Driver_HandleError (Some (HandleError recorder (hs_nodeName s)))) errs s h with
  | (Ok _, sh) => (Ok None, sh)
  | (Err e, sh) => (Err e, sh)
  end.
Fixpoint withBackground (recorder : bool) (steps : list (StepTaker HandlerCall State)) (errs : list (list error))
    : list (StepTaker HandlerCall State) :=
  match steps, errs with
  | step :: rest, e :: more => background recorder e :: step :: withBackground recorder rest more
  | _, _ => steps
  end.
Record Work := mkWork {
  wk_reader : res (string → res DeviceSnapshot);
  wk_placements : option (res MigPlacementSession);
  (** the errors reported before each step *)
  wk_errors : list (list error);
}.
Definition runWork (recorder writer : bool) (w : Work) : Sync () :=
  _ ← setAll []; _ ← setReady []; Run (withBackground recorder (handlerSteps recorder writer (wk_reader w) (wk_placements w)) (wk_errors w)).
Definition afterWork (recorder writer : bool) (work : list Work) (s : State) (h : list Call) : State * list Call :=
  foldl (λ '(s, h) w, snd (runWork recorder writer w s h)) (s, h) work.

(** Without errors in the background it is the sync. *)
Lemma runWork_sync recorder writer reader placements : runWork recorder writer (mkWork reader placements []) = handlerSync recorder writer reader placements.
Proof. reflexivity. Qed.

Lemma frugal_background recorder errs s h : (budget (fst (snd (background recorder errs s h))) ≤ budget s)%nat.
Proof.
  unfold background.
  assert (frugal (forEach (Driver_HandleError (Some (HandleError recorder (hs_nodeName s)))) errs)) as Hf
    by (apply frugal_forEach; intros; apply frugal_HandleError).
  specialize (Hf s h). by destruct (forEach _ _ s h) as [[|] sh].
Qed.

Lemma frugal_Run (steps : list (StepTaker HandlerCall State)) :
  Forall (λ step : StepTaker HandlerCall State, ∀ s h, (budget (fst (snd (step s h))) ≤ budget s)%nat) steps → frugal (Run steps).
Proof.
  induction 1 as [|step steps Hs _ IH]; cbn [Run]; [frugal|]. apply frugal_bind; [exact Hs|]. intros [|]; [frugal|exact IH].
Qed.
Lemma frugal_steps recorder writer reader placements errs :
  Forall (λ step : StepTaker HandlerCall State, ∀ s h, (budget (fst (snd (step s h))) ≤ budget s)%nat)
    (withBackground recorder (handlerSteps recorder writer reader placements) errs).
Proof.
  assert (Forall (λ step : StepTaker HandlerCall State, ∀ s h, (budget (fst (snd (step s h))) ≤ budget s)%nat)
    (handlerSteps recorder writer reader placements)) as Hsteps.
  { unfold handlerSteps. repeat constructor; try (apply frugal_step; first
      [ apply frugal_discover | apply frugal_mark | apply frugal_filterReady | apply frugal_capabilities | apply frugal_filterHealthy | apply frugal_publish ]). }
  revert errs. induction Hsteps as [|step steps Hs Hsteps IH]; intros errs; [by destruct errs|].
  destruct errs as [|e errs]; cbn [withBackground]; [by constructor|]. constructor; [apply frugal_background|by constructor].
Qed.

(** C11: the retries of the publishing helper end: every sync the error handler
    asks for has turned a feature off, so that any number of syncs, whatever the
    API server drops, and whatever dropped fields the helper reports in the
    background between and during the syncs, ask for at most as many more as
    features are on, and never for more than three. *)
Theorem retries_bounded recorder writer work s h :
  (hs_notified (fst (afterWork recorder writer work s h)) ≤ hs_notified s + enabled (hs_features s) ≤ hs_notified s + 3)%nat.
Proof.
  split; [|unfold enabled; destruct (hs_features s) as [[] [] []]; simpl; lia].
  change (hs_notified s + _)%nat with (budget s). assert (budget (fst (afterWork recorder writer work s h)) ≤ budget s)%nat as Hb;
    [|unfold budget in Hb at 1; lia].
  unfold afterWork. revert s h. induction work as [|w work IH]; intros s h; [done|]. cbn [foldl].
  assert (frugal (runWork recorder writer w)) as Hs.
  { unfold runWork, setAll, setReady. apply frugal_bind; [by apply frugal_modify|]. intros _.
    apply frugal_bind; [by apply frugal_modify|]. intros _. apply frugal_Run, frugal_steps. }
  specialize (Hs s h). destruct (runWork recorder writer w s h) as [r [s1 h1]]. simpl in *. etrans; [apply IH|exact Hs].
Qed.
End Sync.
