(* ===== verification/FeatureGates.v ===== *)
(** * Feature gates: dra/featuregates, gpuhandler/featuregates, bootstrap

    Which optional parts of the API a node uses is resolved once, from the
    configuration and the version of the API server.  k8s.io/apimachinery's
    version package is outside the repository: parsing and the order of versions
    are the class [VersionApi]. *)

From S2P Require Import Prelude GoLib DeviceModel K8sApi Render Effects GpuApi GpuStore Inventory PhysicalGpu.
From S2P Require Import NodeAgent NvmlReader GpuHandler.

Class VersionApi := {
  Version : Type;
  ParseGeneric : string → res Version;
  AtLeast : Version → Version → bool;
}.

Section Resolve.
Context `{VersionApi}.

(** Enabled, the source, the version of the server, the error. *)
Record Resolved := mkResolved { rv_Enabled : bool; rv_Source : string; rv_ServerVersion : string; rv_Err : option error }.

(** [ServerVersion()] of a client, or no client. *)
Abbreviation KubeClient := (option (res string)).

(** [parsed.AtLeast(version.MustParseGeneric(min))] *)
Definition mustAtLeast (parsed : Version) (min : string) : res bool :=
  match ParseGeneric min with Ok m => Ok (AtLeast parsed m) | Err _ => Err (GoPanic "MustParseGeneric") end.

(** The part the resolvers share: the server is at least [min]. *)
Definition resolveAuto (client : KubeClient) (min : string) : Resolved :=
  match client with
  | None => mkResolved false "auto" "" (Some (Errorf "kube client is nil" []))
  | Some (Err e) => mkResolved false "auto" "" (Some (Wrapf "detect server version: %w" [] e))
  | Some (Ok gitVersion) =>
      match ParseGeneric gitVersion with
      | Err e => mkResolved false "auto" gitVersion (Some (Wrapf "parse server version %q: %w" [gitVersion] e))
      | Ok parsed =>
          match mustAtLeast parsed min with
          | Ok b => mkResolved b "auto" gitVersion None
          | Err e => mkResolved false "auto" gitVersion (Some e)
          end
      end
  end.

(** ** The modes *)

Inductive gateMode := ModeAuto | ModeEnabled | ModeDisabled.

Definition parseMode (what raw : string) : gateMode * option error :=
  let value := TrimSpace (ToLower raw) in
  if existsb (str_eqb value) [""; "auto"] then (ModeAuto, None) else
  if existsb (str_eqb value) ["true"; "enabled"; "enable"; "on"; "1"; "yes"] then (ModeEnabled, None) else
  if existsb (str_eqb value) ["false"; "disabled"; "disable"; "off"; "0"; "no"] then (ModeDisabled, None) else
  (ModeAuto, Some (Errorf ("unsupported " +:+ what +:+ " mode %q") [raw])).

(** gpuhandler/featuregates/consumable_capacity.go *)
Definition consumableCapacityMinVersion : string := "v1.34.0".
Definition parseConsumableCapacityMode (raw : string) : gateMode * option error := parseMode "consumable capacity" raw.
Definition resolveConsumableCapacity (client : KubeClient) (mode : gateMode) : Resolved :=
  match mode with
  | ModeEnabled => mkResolved true "config" "" None
  | ModeDisabled => mkResolved false "config" "" None
  | ModeAuto => resolveAuto client consumableCapacityMinVersion
  end.

(** gpuhandler/featuregates/partitionable_devices.go, shared_counters_layout.go *)
Definition partitionableMinVersion : string := "v1.34.0".
Definition resolvePartitionableSupport (client : KubeClient) : Resolved := resolveAuto client partitionableMinVersion.

Definition sharedCountersSeparateMinVersion : string := "v1.35.0".
Definition resolveSharedCountersLayout (client : KubeClient) : SharedCountersLayout * Resolved :=
  let r := resolveAuto client sharedCountersSeparateMinVersion in
  (if rv_Enabled r then SharedCountersSeparate else SharedCountersInline, r).

(** dra/featuregates/device_status.go: a mode that cannot be read is an error *)
Definition deviceStatusMinVersion : string := "v1.32.0".
Definition parseDeviceStatusMode (raw : string) : gateMode * option error := parseMode "device status" raw.
Definition ResolveDeviceStatus (client : KubeClient) (rawMode : string) : Resolved :=
  match parseDeviceStatusMode rawMode with
  | (_, Some err) => mkResolved false "auto" "" (Some err)
  | (ModeEnabled, None) => mkResolved true "config" "" None
  | (ModeDisabled, None) => mkResolved false "config" "" None
  | (ModeAuto, None) => resolveAuto client deviceStatusMinVersion
  end.

(** dra/featuregates/extended_resource.go *)
Definition extendedResourceMinVersion : string := "v1.34.0".
Definition ResolveExtendedResource (client : KubeClient) : Resolved := resolveAuto client extendedResourceMinVersion.

(** ** gpuhandler/featuregates/config.go, partitionable_devices.go, bootstrap_helpers.go, bootstrap_start.go *)

Context {Q : Type} `{Quantity Q} {S : Type} `{GpuClient S} `{HandlerWorld (Q := Q) S} `{MetaConditions} `{MapOrder}.
Abbreviation Sync := (M (HandlerCall (Q := Q)) (HandlerState (S := S))).

Definition ConfigurePartitionableDevices (recorder : bool) (serviceNode : string) (client : KubeClient) : Sync () :=
  if rv_Enabled (resolvePartitionableSupport client) then mret () else
  _ ← builder_DisableFeatures [featurePartitionable];
  recordFeatureGateEvents recorder serviceNode ("gpus/" +:+ serviceNode) [featurePartitionable].

Definition ConfigureConsumableCapacity (client : KubeClient) (modeRaw : string) : Sync () :=
  let '(mode, _) := parseConsumableCapacityMode modeRaw in
  if rv_Enabled (resolveConsumableCapacity client mode)
  then _ ← builder_EnableFeatures [featureConsumableCapacity]; mret () else mret ().

Definition ConfigureSharedCountersLayout (client : KubeClient) : Sync () :=
  _ ← builder_SetSharedCountersLayout (fst (resolveSharedCountersLayout client)); mret ().

Definition initFeatureGates (recorder : bool) (serviceNode : string) (client : KubeClient) (consumableMode : string) : Sync () :=
  _ ← ConfigurePartitionableDevices recorder serviceNode client;
  _ ← ConfigureConsumableCapacity client consumableMode;
  ConfigureSharedCountersLayout client.

(** The features of the builder when the driver starts; whether claims get
    device statuses. *)
Definition startFeatures (recorder : bool) (serviceNode : string) (client : KubeClient) (consumableMode deviceStatusMode : string)
    : Sync bool :=
  _ ← setFeatures DefaultFeatures;
  _ ← initFeatureGates recorder serviceNode client consumableMode;
  let enabled := rv_Enabled (ResolveDeviceStatus client deviceStatusMode) in
  _ ← builder_SetBindingConditionsEnabled enabled; mret enabled.

(** ** The features at the start *)

Lemma send_all recorder events (s : HandlerState (S := S)) h :
  ∃ h', (forEach (send recorder) events : Sync ()) s h = (Ok (), (s, h')).
Proof.
  revert h. induction events as [|ev events IH]; intros h; [by exists h|]. simpl. unfold mbind, M_bind, send at 1, emit. apply IH.
Qed.

Lemma gateEvents_features recorder node pool features (s : HandlerState (S := S)) h :
  ∃ s' h', (recordFeatureGateEvents recorder node pool features : Sync ()) s h = (Ok (), (s', h')) ∧ hs_features s' = hs_features s.
Proof.
  unfold recordFeatureGateEvents. destruct (negb recorder || _); [by eexists _, _|]. unfold mbind, M_bind, get.
  destruct (MarkDisabled _ _) as [newly disabled]. unfold setDisabled, modify. destruct (list_len0 newly); [by eexists _, _|].
  unfold try, ListByNode, liftR, mbind, M_bind, get. destruct (gc_List _ _) as [gpus|e]; [|by eexists _, _].
  match goal with |- context [forEach _ ?l ?s1 ?h1] => destruct (send_all recorder l s1 h1) as [h' ->] end.
  by eexists _, _.
Qed.

(** Whatever the builder held before, the features are those the server and
    the configuration allow, and nothing else. *)
Lemma start_features recorder node client consumableMode deviceStatusMode (s : HandlerState (S := S)) h : ∃ s' h',
  (startFeatures recorder node client consumableMode deviceStatusMode : Sync bool) s h =
    (Ok (rv_Enabled (ResolveDeviceStatus client deviceStatusMode)), (s', h')) ∧
  hs_features s' = mkFeatureSet (rv_Enabled (resolvePartitionableSupport client))
    (rv_Enabled (resolveConsumableCapacity client (fst (parseConsumableCapacityMode consumableMode))))
    (rv_Enabled (ResolveDeviceStatus client deviceStatusMode)) (fst (resolveSharedCountersLayout client)).
Proof.
  unfold startFeatures, initFeatureGates, ConfigurePartitionableDevices, ConfigureConsumableCapacity, ConfigureSharedCountersLayout.
  destruct (parseConsumableCapacityMode consumableMode) as [mode err]. unfold setFeatures, modify, mbind, M_bind.
  destruct (rv_Enabled (resolvePartitionableSupport client)) eqn:Hp.
  - cbn [mret M_ret fst]. destruct (rv_Enabled (resolveConsumableCapacity client mode)), (rv_Enabled (ResolveDeviceStatus _ _)),
      (fst (resolveSharedCountersLayout client)); by eexists _, _.
  - unfold builder_DisableFeatures, mbind, M_bind, get, setFeatures, modify. simpl.
    match goal with |- context [recordFeatureGateEvents _ _ _ _ ?s1 ?h1] =>
      destruct (gateEvents_features recorder node ("gpus/" +:+ node) [featurePartitionable] s1 h1) as (s2 & h2 & Heq & Hf) end.
    simpl in Heq, Hf. rewrite Heq. destruct s2 as [? ? ? ? f2 ? ? ?]. simpl in Hf. subst f2.
    destruct (rv_Enabled (resolveConsumableCapacity client mode)), (rv_Enabled (ResolveDeviceStatus _ _)),
      (rv_Enabled (resolveAuto client sharedCountersSeparateMinVersion)); by eexists _, _.
Qed.
End Resolve.
