(* ===== verification/Cdi.v ===== *)
(** * CDI specs: dra/adapters/cdi (nvcdi and composite), vfio/cdi*.go

    The writers turn a prepare request into a CDI spec of the claim and the
    qualified names a container asks for.  The libraries are outside the
    repository: nvcdi (what a device needs), its spec builder and root
    transformer, and the CDI cache that keeps the specs, with what they document
    as laws. *)

From S2P Require Import Prelude GoLib DeviceModel Prepare OsFiles SysInfo GpuHandler.

(** ** specs-go *)

Record DeviceNode := mkDeviceNode {
  dn_Path : string;
  dn_Type : string;
  dn_FileMode : option Z;
  dn_Major : Z;
  dn_Minor : Z;
}.
Record Mount := mkMount { mnt_HostPath : string; mnt_ContainerPath : string }.
Record ContainerEdits := mkContainerEdits { ce_Env : list string; ce_DeviceNodes : list DeviceNode; ce_Mounts : list Mount }.
Record CdiDevice := mkCdiDevice { cdev_Name : string; cdev_Edits : ContainerEdits }.
Record CdiSpec := mkCdiSpec { spec_Kind : string; spec_Version : string; spec_Devices : list CdiDevice; spec_Edits : ContainerEdits }.

Definition spec_names (spec : CdiSpec) : list string := cdev_Name <$> spec_Devices spec.
Definition set_Version (v : string) (spec : CdiSpec) : CdiSpec := mkCdiSpec (spec_Kind spec) v (spec_Devices spec) (spec_Edits spec).

(** ** The libraries *)

(** What NVML answers of a MIG device: instance ids, and its GPU with its minor. *)
Record MigHandle := mkMigHandle { mh_GpuInstance : res Z; mh_ComputeInstance : res Z; mh_Parent : res (res Z) }.

Class CdiLibraries (C : Type) := {
  (** nvcdi *)
  nv_CommonEdits : res (option ContainerEdits);
  nv_DeviceSpecsByID : string → res (list CdiDevice);
  nvspec_New : string → string → list CdiDevice → ContainerEdits → res CdiSpec;
  nv_Transform : CdiSpec → res CdiSpec;
  (** container-device-interface *)
  cdi_MinimumRequiredVersion : CdiSpec → res string;
  cdi_TransientSpecName : string → string → string → string;
  cdi_QualifiedName : string → string → string → string;
  cdi_WriteSpec : CdiSpec → string → C → option error * C;
  cdi_RemoveSpec : string → C → option error * C;
  (** NVML *)
  cdi_NvmlInit : option error;
  cdi_NvmlByUUID : string → res MigHandle;
  cdi_ErrorString : error → string;
}.

(** What they document: builder and transformer keep the devices, the cache
    keeps a spec under its name and changes nothing on an error, and a name
    identifies the claim. *)
Class CdiLaws (C : Type) `{CdiLibraries C} := {
  specs : C → gmap string CdiSpec;
  nvspec_names vendor class devices edits spec : nvspec_New vendor class devices edits = Ok spec → spec_names spec = cdev_Name <$> devices;
  transform_names spec spec' : nv_Transform spec = Ok spec' → spec_names spec' = spec_names spec;
  write_spec spec name c c' : cdi_WriteSpec spec name c = (None, c') → specs c' = <[name := spec]> (specs c);
  write_failed spec name c e c' : cdi_WriteSpec spec name c = (Some e, c') → specs c' = specs c;
  remove_spec name c c' : cdi_RemoveSpec name c = (None, c') → specs c' = delete name (specs c);
  remove_failed name c e c' : cdi_RemoveSpec name c = (Some e, c') → specs c' = specs c;
}.

(** ** nvcdi/options.go, writer_params.go *)

Definition defaultCDIRoot : string := "/etc/cdi".
Definition defaultClaimClass : string := "claim".
Definition defaultDeviceClass : string := "device".

Record CdiOptions := mkCdiOptions {
  co_DriverName : string;
  co_Vendor : string;
  co_Class : string;
  co_DeviceClass : string;
  co_DriverRoot : string;
  co_HostDriverRoot : string;
  co_CDIRoot : string;
  co_NvidiaCDIHookPath : string;
}.

Record writerParams := mkWriterParams {
  wp_vendor : string;
  wp_claimClass : string;
  wp_deviceClass : string;
  wp_cdiRoot : string;
  wp_driverRoot : string;
  wp_targetDriverRoot : string;
  wp_hookPath : string;
}.

Definition orDefault (value default_ : string) : string := let v := TrimSpace value in if str_eqb v "" then default_ else v.

Definition normalizeWriterParams (opts : CdiOptions) : res writerParams :=
  let vendor := TrimSpace (co_Vendor opts) in
  let vendor := if str_eqb vendor "" && negb (str_eqb (co_DriverName opts) "") then "k8s." +:+ co_DriverName opts else vendor in
  if str_eqb vendor "" then Err (Errorf "vendor is required" []) else
  Ok (mkWriterParams vendor (orDefault (co_Class opts) defaultClaimClass) (orDefault (co_DeviceClass opts) defaultDeviceClass)
    (orDefault (co_CDIRoot opts) defaultCDIRoot) (orDefault (co_DriverRoot opts) "/") (orDefault (co_HostDriverRoot opts) "/")
    (TrimSpace (co_NvidiaCDIHookPath opts))).

Section Writers.
Context {C : Type} `{CdiLibraries C} (fs : HostFiles).

(** Writers work on the cache. *)
Definition Cdi (A : Type) : Type := C → res A * C.
#[global] Instance Cdi_ret : MRet Cdi := λ A a c, (Ok a, c).
#[global] Instance Cdi_bind : MBind Cdi := λ A B f m c, match m c with (Ok a, c') => f a c' | (Err e, c') => (Err e, c') end.
Definition cdi_lift {A} (r : res A) : Cdi A := λ c, (r, c).
Definition cdi_fail {A} (e : error) : Cdi A := λ c, (Err e, c).
Definition cdi_call (f : C → option error * C) : Cdi () := λ c,
  let '(err, c') := f c in (match err with Some e => Err e | None => Ok () end, c').
Definition wrap_cdi {A} (w : error → error) (r : res A) : res A := match r with Err e => Err (w e) | Ok a => Ok a end.
Definition cdi_wrapped {A} (w : error → error) (m : Cdi A) : Cdi A := λ c, let '(r, c') := m c in (wrap_cdi w r, c').

(** ** nvcdi/devices_helpers.go *)

Definition appendEnv (entry : string) (edits : ContainerEdits) : ContainerEdits :=
  if bool_decide (entry ∈ ce_Env edits) then edits else mkContainerEdits (ce_Env edits ++ [entry]) (ce_DeviceNodes edits) (ce_Mounts edits).
Definition appendMount (host container : string) (edits : ContainerEdits) : ContainerEdits :=
  mkContainerEdits (ce_Env edits) (ce_DeviceNodes edits) (ce_Mounts edits ++ [mkMount host container]).

Definition applyMpsEdits (attrs : gmap string AttributeValue) (edits : ContainerEdits) : ContainerEdits :=
  let pipeDir := AttrString attrs AttrMpsPipeDir in
  let shmDir := AttrString attrs AttrMpsShmDir in
  let logDir := AttrString attrs AttrMpsLogDir in
  let edits := if str_eqb pipeDir "" then edits else
    appendMount pipeDir "/tmp/nvidia-mps" (appendEnv "CUDA_MPS_PIPE_DIRECTORY=/tmp/nvidia-mps" edits) in
  let edits := if str_eqb logDir "" then edits else
    appendMount logDir "/var/log/nvidia-mps" (appendEnv "CUDA_MPS_LOG_DIRECTORY=/var/log/nvidia-mps" edits) in
  if str_eqb shmDir "" then edits else appendMount shmDir "/dev/shm" edits.

(** ** nvcdi/nvcaps.go, nvcaps_parse.go, nvcaps_device.go, nvcaps_mig.go *)

Definition procDevicesPath : string := "/proc/devices".
Definition procNvCapsPath : string := "/proc/driver/nvidia/capabilities".
Definition devNvidiaCapsPath : string := "/dev/nvidia-caps".
Definition nvidiaCapsDeviceName : string := "nvidia-caps".

(** The lines of /proc/devices: [inChar] is whether the heading was seen. *)
Fixpoint findMajor (name : string) (inChar : bool) (lines : list string) (end_ : option error) : res Z :=
  let notFound := match end_ with
    | Some e => Err e
    | None => Err (Errorf "device %q not found in %s" [name; procDevicesPath])
    end in
  match lines with
  | [] => notFound
  | line :: rest =>
      let line := TrimSpace line in
      if str_eqb line "Character devices:" then findMajor name true rest end_ else
      (* the loop is left before an error of the scanner *)
      if str_eqb line "Block devices:" then Err (Errorf "device %q not found in %s" [name; procDevicesPath]) else
      if negb inChar || str_eqb line "" then findMajor name inChar rest end_ else
      match Fields line with
      | major :: dev :: _ =>
          if str_eqb dev name then
            match Atoi major with Some m => Ok m | None => Err (Wrapf "parse major %q: %w" [major] (Errorf "invalid syntax" [])) end
          else findMajor name inChar rest end_
      | _ => findMajor name inChar rest end_
      end
  end.

Definition getDeviceMajor (name : string) : res Z :=
  data ← hf_ReadFile fs procDevicesPath;
  let '(lines, err) := ScanLines data in findMajor name false lines err.

Record nvCapDeviceInfo := mkNvCap { cap_Major : Z; cap_Minor : Z; cap_Mode : Z; cap_Path : string }.

(** A line [key: value]: minor and mode, when the value is a number. *)
Definition capLine (info : Z * Z) (line : string) : Z * Z :=
  let '(minor, mode) := info in
  match SplitN2 (TrimSpace line) ":" with
  | [key; value] =>
      match Atoi (TrimSpace value) with
      | None => info
      | Some n => if str_eqb (TrimSpace key) "DeviceFileMinor" then (n, mode) else
                  if str_eqb (TrimSpace key) "DeviceFileMode" then (minor, n `mod` 2 ^ 32) else info
      end
  | _ => info
  end.

Definition parseNVCapDeviceInfo (path : string) : res nvCapDeviceInfo :=
  data ← hf_ReadFile fs path;
  major ← wrap_cdi (Wrapf "get %s major: %w" [nvidiaCapsDeviceName]) (getDeviceMajor nvidiaCapsDeviceName);
  let '(lines, err) := ScanLines data in
  match err with
  | Some e => Err e
  | None =>
      let '(minor, mode) := foldl capLine (0, 0) lines in
      Ok (mkNvCap major minor mode (devNvidiaCapsPath +:+ "/nvidia-cap" +:+ Itoa minor))
  end.

Definition deviceNode (i : nvCapDeviceInfo) : DeviceNode := mkDeviceNode (cap_Path i) "c" (Some (cap_Mode i)) (cap_Major i) (cap_Minor i).

Definition nvmlErr {A} (format uuid : string) (r : res A) : res A := wrap_cdi (λ e, Errorf format [uuid; cdi_ErrorString e]) r.

Definition migDeviceNodes (migUUID : string) : res (list DeviceNode) :=
  if str_eqb (TrimSpace migUUID) "" then Err (Errorf "MIG UUID is required" []) else
  dev ← nvmlErr "get MIG device by UUID %q: %s" migUUID (cdi_NvmlByUUID migUUID);
  giID ← nvmlErr "get GPU instance id for %q: %s" migUUID (mh_GpuInstance dev);
  ciID ← nvmlErr "get compute instance id for %q: %s" migUUID (mh_ComputeInstance dev);
  parent ← nvmlErr "get parent GPU for %q: %s" migUUID (mh_Parent dev);
  minor ← nvmlErr "get parent minor for %q: %s" migUUID parent;
  let gi := procNvCapsPath +:+ "/gpu" +:+ Itoa minor +:+ "/mig/gi" +:+ Itoa giID in
  giInfo ← wrap_cdi (Wrapf "parse GI caps %q: %w" [gi +:+ "/access"]) (parseNVCapDeviceInfo (gi +:+ "/access"));
  let ci := gi +:+ "/ci" +:+ Itoa ciID +:+ "/access" in
  ciInfo ← wrap_cdi (Wrapf "parse CI caps %q: %w" [ci]) (parseNVCapDeviceInfo ci);
  Ok [deviceNode giInfo; deviceNode ciInfo].

(** ** nvcdi/devices_claim.go, base.go, edits.go, spec.go, writer_ops.go *)

Definition claimDeviceName (claimUID deviceName : string) : string := claimUID +:+ "-" +:+ deviceName.

Section Request.
Context {Q : Type}.

Definition set_cdiName (name : string) (dev : CdiDevice) : CdiDevice := mkCdiDevice name (cdev_Edits dev).
Definition addNodes (nodes : list DeviceNode) (e : ContainerEdits) : ContainerEdits :=
  mkContainerEdits (ce_Env e) (ce_DeviceNodes e ++ nodes) (ce_Mounts e).

(** The spec of a device: its name and edits. *)
Definition claimDeviceSpec (claimUID : string) (dev : PrepareDevice Q) : res CdiDevice :=
  let deviceType := AttrString (pd_Attributes dev) AttrDeviceType in
  let mig := EqualFold deviceType "mig" in
  let uuid := AttrString (pd_Attributes dev) (if mig then AttrMigUUID else AttrGPUUUID) in
  if mig && str_eqb uuid "" then Err (Errorf "MIG uuid is missing for device %q" [pd_Device dev]) else
  if str_eqb uuid "" then Err (Errorf "GPU UUID is missing for device %q" [pd_Device dev]) else
  found ← wrap_cdi (Wrapf "get CDI spec for %q: %w" [pd_Device dev]) (nv_DeviceSpecsByID uuid);
  match found with
  | [] => Err (Errorf "empty CDI spec for %q" [pd_Device dev])
  | spec :: _ =>
      nodes ← (if mig then wrap_cdi (Wrapf "build MIG device nodes for %q: %w" [pd_Device dev]) (migDeviceNodes uuid) else Ok []);
      Ok (mkCdiDevice (claimDeviceName claimUID (pd_Device dev)) (applyMpsEdits (pd_Attributes dev) (addNodes nodes (cdev_Edits spec))))
  end.

Fixpoint buildDeviceSpecs (vendor class claimUID : string) (devices : list (PrepareDevice Q))
    : res (list CdiDevice * gmap string (list string)) :=
  match devices with
  | [] => Ok ([], ∅)
  | dev :: rest =>
      spec ← claimDeviceSpec claimUID dev;
      more ← buildDeviceSpecs vendor class claimUID rest;
      let '(specs, ids) := (more : list CdiDevice * gmap string (list string)) in
      (* a later device of the same name overwrites the entry; both are equal *)
      Ok (spec :: specs, <[pd_Device dev := [cdi_QualifiedName vendor class (claimDeviceName claimUID (pd_Device dev))]]> ids)
  end.

Definition voidDevices : string := "NVIDIA_VISIBLE_DEVICES=void".
Definition commonEdits : res ContainerEdits :=
  found ← wrap_cdi (Wrapf "get common CDI edits: %w" []) nv_CommonEdits;
  match found with
  | None => Err (Errorf "common CDI edits are empty" [])
  | Some e => Ok (mkContainerEdits (ce_Env e ++ [voidDevices]) (ce_DeviceNodes e) (ce_Mounts e))
  end.

Definition writeSpec (spec : CdiSpec) (specName : string) : Cdi () :=
  spec ← cdi_lift (wrap_cdi (Wrapf "transform CDI spec: %w" []) (nv_Transform spec));
  version ← cdi_lift (wrap_cdi (Wrapf "detect CDI spec version: %w" []) (cdi_MinimumRequiredVersion spec));
  cdi_wrapped (Wrapf "write CDI spec %q: %w" [specName]) (cdi_call (cdi_WriteSpec (set_Version version spec) specName)).

Definition initNVML : res () := match cdi_NvmlInit with None => Ok () | Some e => Err (Errorf "NVML init failed: %s" [cdi_ErrorString e]) end.

(** A request that a writer can work on. *)
Definition requestOk (req : PrepareRequest Q) : res () :=
  if str_eqb (pr_ClaimUID req) "" then Err (Errorf "claim UID is required" []) else
  if list_len0 (pr_Devices req) then Err (Errorf "no devices to prepare" []) else Ok ().

Definition nvcdi_Write (p : writerParams) (req : PrepareRequest Q) : Cdi (gmap string (list string)) :=
  _ ← cdi_lift (requestOk req);
  if pr_VFIO req then cdi_fail (Errorf "vfio prepare is not implemented" []) else
  _ ← cdi_lift initNVML;
  edits ← cdi_lift commonEdits;
  built ← cdi_lift (buildDeviceSpecs (wp_vendor p) (wp_claimClass p) (pr_ClaimUID req) (pr_Devices req));
  let '(deviceSpecs, deviceIDs) := (built : list CdiDevice * gmap string (list string)) in
  if list_len0 deviceSpecs then cdi_fail (Errorf "no CDI device specs generated" []) else
  spec ← cdi_lift (nvspec_New (wp_vendor p) (wp_claimClass p) deviceSpecs edits);
  _ ← writeSpec spec (cdi_TransientSpecName (wp_vendor p) (wp_claimClass p) (pr_ClaimUID req));
  mret deviceIDs.

Definition nvcdi_Delete (p : writerParams) (claimUID : string) : Cdi () :=
  if str_eqb claimUID "" then cdi_fail (Errorf "claim UID is required" []) else
  cdi_call (cdi_RemoveSpec (cdi_TransientSpecName (wp_vendor p) (wp_claimClass p) claimUID)).

(** base.go *)
Definition baseSpecIdentifier : string := "base".

Fixpoint buildBaseDeviceSpecs (devices : list BaseDevice) : res (list CdiDevice) :=
  match devices with
  | [] => Ok []
  | dev :: rest =>
      if str_eqb (bd_Name dev) "" || str_eqb (bd_UUID dev) "" then buildBaseDeviceSpecs rest else
      found ← wrap_cdi (Wrapf "get CDI spec for %q: %w" [bd_Name dev]) (nv_DeviceSpecsByID (bd_UUID dev));
      match found with
      | [] => Err (Errorf "empty CDI spec for %q" [bd_Name dev])
      | spec :: _ => specs ← buildBaseDeviceSpecs rest; Ok (set_cdiName (bd_Name dev) spec :: specs)
      end
  end.

Definition WriteBase (p : writerParams) (devices : list BaseDevice) : Cdi () :=
  if list_len0 devices then mret () else
  _ ← cdi_lift initNVML;
  edits ← cdi_lift commonEdits;
  deviceSpecs ← cdi_lift (buildBaseDeviceSpecs devices);
  if list_len0 deviceSpecs then mret () else
  spec ← cdi_lift (nvspec_New (wp_vendor p) (wp_deviceClass p) deviceSpecs edits);
  writeSpec spec (cdi_TransientSpecName (wp_vendor p) (wp_deviceClass p) baseSpecIdentifier).

(** ** vfio/cdi.go, cdi_helpers.go, cdi_ops.go *)

Definition vfioRoot : string := "/dev/vfio".
Record VfioCdi := mkVfioCdi { vc_vendor : string; vc_class : string; vc_sysfsRoot : string }.

Definition pathNode (path : string) : DeviceNode := mkDeviceNode path "" None 0 0.

Definition cdi_readIommuGroup (w : VfioCdi) (pciBusID : string) : res Z :=
  link ← wrap_cdi (Wrapf "read iommu group for %s: %w" [pciBusID])
    (hf_Readlink fs (pathJoin (pathJoin (vc_sysfsRoot w) pciBusID) "iommu_group"));
  match Atoi (filepath_Base link) with
  | Some id => Ok id
  | None => Err (Wrapf "parse iommu group for %s: %w" [pciBusID] (Errorf "invalid syntax" []))
  end.

Fixpoint vfioDeviceSpecs (w : VfioCdi) (claimUID : string) (devices : list (PrepareDevice Q))
    : res (list CdiDevice * gmap string (list string)) :=
  match devices with
  | [] => Ok ([], ∅)
  | dev :: rest =>
      let pci := AttrString (pd_Attributes dev) AttrPCIAddress in
      if str_eqb pci "" then Err (Errorf "pci address is missing for device %q" [pd_Device dev]) else
      group ← cdi_readIommuGroup w pci;
      more ← vfioDeviceSpecs w claimUID rest;
      let '(specs, ids) := (more : list CdiDevice * gmap string (list string)) in
      let name := claimDeviceName claimUID (pd_Device dev) in
      Ok (mkCdiDevice name (mkContainerEdits [] [pathNode (pathJoin vfioRoot (Itoa group))] []) :: specs,
          <[pd_Device dev := [cdi_QualifiedName (vc_vendor w) (vc_class w) name]]> ids)
  end.

Definition vfioCdi_Write (w : VfioCdi) (req : PrepareRequest Q) : Cdi (gmap string (list string)) :=
  _ ← cdi_lift (requestOk req);
  built ← cdi_lift (vfioDeviceSpecs w (pr_ClaimUID req) (pr_Devices req));
  let '(deviceSpecs, deviceIDs) := (built : list CdiDevice * gmap string (list string)) in
  let spec := mkCdiSpec (vc_vendor w +:+ "/" +:+ vc_class w) "" deviceSpecs (mkContainerEdits [] [pathNode (pathJoin vfioRoot "vfio")] []) in
  version ← cdi_lift (wrap_cdi (Wrapf "detect CDI spec version: %w" []) (cdi_MinimumRequiredVersion spec));
  let specName := cdi_TransientSpecName (vc_vendor w) (vc_class w) (pr_ClaimUID req) in
  _ ← cdi_wrapped (Wrapf "write CDI spec %q: %w" [specName]) (cdi_call (cdi_WriteSpec (set_Version version spec) specName));
  mret deviceIDs.

Definition vfioCdi_Delete (w : VfioCdi) (claimUID : string) : Cdi () :=
  if str_eqb claimUID "" then cdi_fail (Errorf "claim UID is required" []) else
  cdi_call (cdi_RemoveSpec (cdi_TransientSpecName (vc_vendor w) (vc_class w) claimUID)).

(** ** composite/writer.go *)

Record Composite := mkComposite { cw_standard : option writerParams; cw_vfio : option VfioCdi }.

Definition composite_Write (w : Composite) (req : PrepareRequest Q) : Cdi (gmap string (list string)) :=
  if pr_VFIO req then
    match cw_vfio w with
    | None => cdi_fail (Errorf "vfio CDI writer is not configured" [])
    | Some v => vfioCdi_Write v req
    end
  else
    match cw_standard w with
    | None => cdi_fail (Errorf "standard CDI writer is not configured" [])
    | Some p => nvcdi_Write p req
    end.

(** The writers that are configured are all asked; their errors are joined. *)
Definition composite_Delete (text : error → string) (w : Composite) (claimUID : string) : Cdi () := λ c,
  let run (m : option (Cdi ())) (st : list error * C) : list error * C :=
    let '(errs, c) := st in
    match m with
    | None => st
    | Some m => let '(r, c') := m c in (match r with Err e => errs ++ [e] | Ok _ => errs end, c')
    end in
  let '(errs, c') := run ((λ v, vfioCdi_Delete v claimUID) <$> cw_vfio w) (run ((λ p, nvcdi_Delete p claimUID) <$> cw_standard w) ([], c)) in
  (match errs with
   | [] => Ok ()
   | [e] => Err e
   | e1 :: e2 :: _ => Err (Errorf "delete CDI specs: %v; %v" [text e1; text e2])
   end, c').
End Request.
End Writers.

(** ** The specs of a claim *)

Section Specs.
Context {C Q : Type} `{CdiLaws C} (fs : HostFiles).
Implicit Types (c : C) (req : PrepareRequest Q) (devices : list (PrepareDevice Q)).

(** The spec and the ids of a claim: one device of the spec per device of the
    request, under the name the id qualifies. *)
Definition claim_written (vendor class uid : string) devices (names : list string) (ids : gmap string (list string)) : Prop :=
  names = (λ d, claimDeviceName uid (pd_Device d)) <$> devices ∧
  (∀ d, d ∈ devices → ids !! pd_Device d = Some [cdi_QualifiedName vendor class (claimDeviceName uid (pd_Device d))]) ∧
  dom ids = list_to_set (pd_Device <$> devices).

Lemma claim_written_cons vendor class uid devices names ids (dev : PrepareDevice Q) spec :
  cdev_Name spec = claimDeviceName uid (pd_Device dev) → claim_written vendor class uid devices names ids →
  claim_written vendor class uid (dev :: devices) (cdev_Name spec :: names)
    (<[pd_Device dev := [cdi_QualifiedName vendor class (claimDeviceName uid (pd_Device dev))]]> ids).
Proof.
  intros Hn (-> & Hids & Hdom). split; [by rewrite fmap_cons, Hn|]. split.
  - intros d Hd. destruct (decide (pd_Device d = pd_Device dev)) as [Heq|Hne]; [by rewrite Heq, lookup_insert_eq|].
    rewrite lookup_insert_ne by done. apply elem_of_cons in Hd as [->|Hd]; [done|by apply Hids].
  - rewrite dom_insert_L, Hdom, fmap_cons. done.
Qed.

Lemma claim_written_nil vendor class uid : claim_written vendor class uid [] [] ∅.
Proof. split; [done|]. split; [by intros d ?%elem_of_nil|apply dom_empty_L]. Qed.

Lemma claimDeviceSpec_name uid (dev : PrepareDevice Q) spec : claimDeviceSpec fs uid dev = Ok spec → cdev_Name spec = claimDeviceName uid (pd_Device dev).
Proof.
  unfold claimDeviceSpec. destruct (_ && _); [done|]. destruct (str_eqb _ ""); [done|].
  destruct (nv_DeviceSpecsByID _) as [[|found l]|]; simpl; [done| |done].
  destruct (if EqualFold _ _ then _ else _) as [nodes|]; simpl; [|done]. by intros [= <-].
Qed.

Lemma buildDeviceSpecs_written vendor class uid devices built ids : buildDeviceSpecs fs vendor class uid devices = Ok (built, ids) →
  claim_written vendor class uid devices (cdev_Name <$> built) ids.
Proof.
  revert built ids. induction devices as [|dev devices IH]; intros built ids; simpl; [intros [= <- <-]; apply claim_written_nil|].
  destruct (claimDeviceSpec fs uid dev) as [spec|] eqn:Hs; [|done]. simpl.
  destruct (buildDeviceSpecs fs vendor class uid devices) as [[specs ids']|]; [|done]. intros [= <- <-].
  rewrite fmap_cons. apply claim_written_cons; [by apply claimDeviceSpec_name|by apply IH].
Qed.

Lemma vfioDeviceSpecs_written w uid devices built ids : vfioDeviceSpecs fs w uid devices = Ok (built, ids) →
  claim_written (vc_vendor w) (vc_class w) uid devices (cdev_Name <$> built) ids.
Proof.
  revert built ids. induction devices as [|dev devices IH]; intros built ids; simpl; [intros [= <- <-]; apply claim_written_nil|].
  destruct (str_eqb _ ""); [done|]. destruct (cdi_readIommuGroup fs w _) as [group|]; [|done]. simpl.
  destruct (vfioDeviceSpecs fs w uid devices) as [[specs ids']|]; [|done]. intros [= <- <-].
  rewrite fmap_cons. by apply claim_written_cons; [|apply IH].
Qed.

(** The vendor and class under which a request is written. *)
Definition claim_kind (w : Composite) (vfio : bool) : option (string * string) :=
  if vfio then (λ v, (vc_vendor v, vc_class v)) <$> cw_vfio w else (λ p, (wp_vendor p, wp_claimClass p)) <$> cw_standard w.

(** A binary writer outcome: an error leaves the specs, success adds one. *)
Definition write_outcome (kind : option (string * string)) req c (out : res (gmap string (list string)) * C) : Prop :=
  match out with
  | (Err _, c') => specs c' = specs c
  | (Ok ids, c') => ∃ vendor class spec, kind = Some (vendor, class) ∧
      specs c' = <[cdi_TransientSpecName vendor class (pr_ClaimUID req) := spec]> (specs c) ∧
      claim_written vendor class (pr_ClaimUID req) (pr_Devices req) (spec_names spec) ids
  end.

Lemma call_write spec name c : match cdi_call (cdi_WriteSpec spec name) c with
  | (Ok _, c') => specs c' = <[name := spec]> (specs c)
  | (Err _, c') => specs c' = specs c
  end.
Proof.
  unfold cdi_call. destruct (cdi_WriteSpec spec name c) as [[e|] c'] eqn:Hw; [by eapply write_failed|by apply write_spec].
Qed.

Lemma nvcdi_Write_outcome p req c :
  write_outcome (Some (wp_vendor p, wp_claimClass p)) req c (nvcdi_Write fs p req c).
Proof.
  unfold nvcdi_Write, cdi_lift, mbind, Cdi_bind. destruct (requestOk req) as [|e]; [|done]. destruct (pr_VFIO req); [done|].
  destruct initNVML; [|done]. destruct commonEdits as [edits|]; [|done].
  destruct (buildDeviceSpecs _ _ _ _ _) as [[built ids]|] eqn:Hb; [|done]. apply buildDeviceSpecs_written in Hb.
  destruct (list_len0 built); [done|]. destruct (nvspec_New _ _ _ _) as [spec|] eqn:Hnew; [|done]. apply nvspec_names in Hnew.
  unfold writeSpec, cdi_lift, mbind, Cdi_bind. destruct (nv_Transform spec) as [spec'|] eqn:Ht; simpl; [|done].
  apply transform_names in Ht. destruct (cdi_MinimumRequiredVersion spec') as [version|]; simpl; [|done].
  unfold cdi_wrapped. pose proof (call_write (set_Version version spec') (cdi_TransientSpecName (wp_vendor p) (wp_claimClass p) (pr_ClaimUID req)) c) as Hw.
  destruct (cdi_call _ c) as [[u|e] c']; simpl; [|done]. eexists _, _, _. split; [done|]. split; [exact Hw|].
  change (spec_names (set_Version version spec')) with (spec_names spec'). by rewrite Ht, Hnew.
Qed.

Lemma vfioCdi_Write_outcome w req c : write_outcome (Some (vc_vendor w, vc_class w)) req c (vfioCdi_Write fs w req c).
Proof.
  unfold vfioCdi_Write, cdi_lift, mbind, Cdi_bind. destruct (requestOk req) as [|e]; [|done].
  destruct (vfioDeviceSpecs _ _ _ _) as [[built ids]|] eqn:Hb; [|done]. apply vfioDeviceSpecs_written in Hb.
  set (spec := mkCdiSpec _ _ _ _). destruct (cdi_MinimumRequiredVersion spec) as [version|]; simpl; [|done].
  unfold cdi_wrapped. pose proof (call_write (set_Version version spec) (cdi_TransientSpecName (vc_vendor w) (vc_class w) (pr_ClaimUID req)) c) as Hw.
  destruct (cdi_call _ c) as [[u|e] c']; simpl; [|done]. by eexists _, _, _.
Qed.

Lemma composite_Write_outcome w req c : write_outcome (claim_kind w (pr_VFIO req)) req c (composite_Write fs w req c).
Proof.
  unfold composite_Write, claim_kind. destruct (pr_VFIO req); [destruct (cw_vfio w); [apply vfioCdi_Write_outcome|done]|].
  destruct (cw_standard w); [apply nvcdi_Write_outcome|done].
Qed.

Lemma call_remove name c : match cdi_call (cdi_RemoveSpec name) c with
  | (Ok _, c') => specs c' = delete name (specs c)
  | (Err _, c') => specs c' = specs c
  end.
Proof. unfold cdi_call. destruct (cdi_RemoveSpec name c) as [[e|] c'] eqn:Hr; [by eapply remove_failed|by apply remove_spec]. Qed.

(** A removal that succeeds removes the specs of the kinds that are configured. *)
Lemma composite_Delete_outcome text w uid c c' : composite_Delete text w uid c = (Ok (), c') →
  (∀ vfio vendor class, claim_kind w vfio = Some (vendor, class) → specs c' !! cdi_TransientSpecName vendor class uid = None) ∧
  (∀ name, (∀ vfio vendor class, claim_kind w vfio = Some (vendor, class) → name ≠ cdi_TransientSpecName vendor class uid) →
     specs c' !! name = specs c !! name).
Proof.
  unfold composite_Delete, claim_kind, nvcdi_Delete, vfioCdi_Delete. destruct w as [standard vfio]; simpl.
  destruct (str_eqb uid "").
  { destruct standard, vfio; simpl; try done. intros [= <-]. split; [by intros [] ? ?|done]. }
  (* what either writer leaves *)
  assert (∀ (k : option (string * string)) c0, match k with
    | None => True
    | Some (vendor, class) => match cdi_call (cdi_RemoveSpec (cdi_TransientSpecName vendor class uid)) c0 with
       | (Ok _, c1) => specs c1 = delete (cdi_TransientSpecName vendor class uid) (specs c0) | _ => True end end) as Hr.
  { intros [[vendor class]|] c0; [|done]. pose proof (call_remove (cdi_TransientSpecName vendor class uid) c0) as Hc.
    by destruct (cdi_call _ c0) as [[]]. }
  destruct standard as [p|]; simpl.
  - specialize (Hr (Some (wp_vendor p, wp_claimClass p)) c) as H1'. simpl in H1'. destruct (cdi_call _ c) as [[u|e] c1].
    2: { destruct vfio as [v|]; simpl; [|done]. by destruct (cdi_call _ c1) as [[]]. }
    destruct vfio as [v|]; simpl.
    + specialize (Hr (Some (vc_vendor v, vc_class v)) c1) as H2'. simpl in H2'. destruct (cdi_call _ c1) as [[u'|e] c2]; [|done].
      intros [= <-]. rewrite H2', H1'. split.
      * intros [] vendor class [= <- <-]; [apply lookup_delete_eq|]. apply lookup_delete_None. right. apply lookup_delete_eq.
      * intros name Hne. rewrite lookup_delete_ne by (by apply not_eq_sym, (Hne true)). by apply lookup_delete_ne, not_eq_sym, (Hne false).
    + intros [= <-]. rewrite H1'. split; [by intros [] vendor class [= <- <-]; apply lookup_delete_eq|].
      intros name Hne. by apply lookup_delete_ne, not_eq_sym, (Hne false).
  - destruct vfio as [v|]; simpl.
    + specialize (Hr (Some (vc_vendor v, vc_class v)) c) as H2'. simpl in H2'. destruct (cdi_call _ c) as [[u'|e] c2]; [|done].
      intros [= <-]. rewrite H2'. split; [by intros [] vendor class [= <- <-]; apply lookup_delete_eq|].
      intros name Hne. by apply lookup_delete_ne, not_eq_sym, (Hne true).
    + intros [= <-]. split; [by intros [] ? ?|done].
Qed.

(** C14: the CDI spec of a claim: a write that succeeds puts exactly one spec,
    the claim's, with one entry per device of the request, and answers for each
    device the qualified name of its entry; a write that fails leaves the specs
    as they were; and a delete that succeeds after a write leaves the specs
    there were before, without any of the claim. *)
Theorem cdi_write_delete text w req c out c1 c2 vendor class :
  composite_Write fs w req c = (out, c1) → claim_kind w (pr_VFIO req) = Some (vendor, class) →
  let name := cdi_TransientSpecName vendor class (pr_ClaimUID req) in
  (∀ e, out = Err e → specs c1 = specs c) ∧
  (∀ ids, out = Ok ids → ∃ spec, specs c1 = <[name := spec]> (specs c) ∧
     spec_names spec = (λ d, claimDeviceName (pr_ClaimUID req) (pd_Device d)) <$> pr_Devices req ∧
     (∀ d, d ∈ pr_Devices req →
        ids !! pd_Device d = Some [cdi_QualifiedName vendor class (claimDeviceName (pr_ClaimUID req) (pd_Device d))]) ∧
     dom ids = list_to_set (pd_Device <$> pr_Devices req)) ∧
  (composite_Delete text w (pr_ClaimUID req) c1 = (Ok (), c2) →
     (∀ k, claim_kind w (negb (pr_VFIO req)) = Some k → k = (vendor, class)) → specs c2 = delete name (specs c)).
Proof.
  intros Hw Hk name. pose proof (composite_Write_outcome w req c) as Ho. rewrite Hw, Hk in Ho. split; [|split].
  - intros e ->. exact Ho.
  - intros ids ->. destruct Ho as (vendor' & class' & spec & [= <- <-] & Hs & Hn & Hids & Hd). by exists spec.
  - intros [Hin Hout]%composite_Delete_outcome Hsame. apply map_eq. intros n. destruct (decide (n = name)) as [->|Hne].
    + rewrite lookup_delete_eq. by eapply Hin.
    + rewrite lookup_delete_ne by done. rewrite Hout.
      * destruct out as [ids|e]; [|by rewrite Ho]. destruct Ho as (? & ? & spec & [= <- <-] & -> & _). by rewrite lookup_insert_ne.
      * intros vfio vendor' class' Hv. destruct (decide (vfio = pr_VFIO req)) as [->|Hv'].
        -- rewrite Hk in Hv. by injection Hv as <- <-.
        -- assert (vfio = negb (pr_VFIO req)) as -> by (by destruct vfio, (pr_VFIO req)). apply Hsame in Hv. by injection Hv as -> ->.
Qed.
End Specs.
