(* ===== verification/AgentExamples.v ===== *)
(** * Examples: the controller of PhysicalGPUs and the two agents

    Runs and witnesses of the PhysicalGPU controller, the node agent and the
    gpu-handler. *)

From S2P Require Import Prelude GoLib DeviceModel K8sApi Render Effects Prepare Reconciler GpuApi GpuStore.
From S2P Require Import Inventory InventorySpec Json JsonText OsFiles SysInfo Resource PhysicalGpu NodeAgent.
From S2P Require Import NodeAgentSpec SyncLoop MigNvml GpuChecker NvmlReader GpuHandler GpuHandlerSpec Cdi.

(** * Metadata patches and the PhysicalGPU controller on concrete objects *)

Module Metadata.

#[export] Instance inOrder : RangeOrder := {| rangeAt _ m := map_to_list m; rangeAt_perm _ m := reflexivity (map_to_list m) |}.

Definition meta (finalizers : list string) (annotations : option (gmap string string)) : ObjectMeta :=
  mkObjectMeta "gpu-0" finalizers annotations (Some {[ "node" := "a" ]}) 1 None.

Definition fetched : ObjectMeta := meta ["a"] (Some {[ "example.io/a~b" := "1"; "keep" := "2" ]}).
Definition wanted : ObjectMeta := meta ["a"; "b"] (Some {[ "keep" := "3"; "new/key" := "4" ]}).

Definition stored : Metadata := {[
  "name" := GoString "gpu-0"; "finalizers" := GoStrings (Some ["a"]);
  "annotations" := GoMap {[ "example.io/a~b" := "1"; "keep" := "2" ]}; "labels" := GoMap {[ "node" := "a" ]} ]}.

Lemma stored_holds : holds stored fetched.
Proof. split; [reflexivity|]. split; (split; [reflexivity|discriminate]). Qed.

Lemma metadata_patch_exact_witness :
  ∃ doc', applyPatch stored (metadataPatch fetched wanted) = Some doc' ∧
    docStrings doc' "finalizers" = om_Finalizers wanted ∧
    docMap doc' "annotations" = default ∅ (om_Annotations wanted) ∧
    docMap doc' "labels" = default ∅ (om_Labels wanted) ∧
    ∀ f, f ∉ ["finalizers"; "annotations"; "labels"] → doc' !! f = stored !! f.
Proof. apply (metadata_patch_exact stored fetched wanted). exact stored_holds. Defined.

(** The patch goes through the bytes it is sent as. *)
Example patch_text : JSONPatch_Bytes (metadataPatch (meta ["a"] None) (meta [] None))
  = Ok (print (JArray [JObject [("op", JString "remove"); ("path", JString "/metadata/finalizers")]])).
Proof. vm_compute. reflexivity. Qed.

(** Somebody else annotated the object since the fetch. *)
Definition annotated : Metadata := <["annotations" := GoMap {[ "example.io/a~b" := "1"; "keep" := "2"; "theirs" := "5" ]}]> stored.

Lemma metadata_patch_guarded_witness : applyPatch annotated (metadataPatch fetched wanted) = None.
Proof.
  apply (metadata_patch_guarded annotated fetched wanted {[ "example.io/a~b" := "1"; "keep" := "2" ]} {[ "keep" := "3"; "new/key" := "4" ]}).
  - reflexivity.
  - reflexivity.
  - reflexivity.
  - apply (bool_decide_unpack _). vm_compute. exact I.
  - intros [=].
Defined.

(** Finalizers have no such guard: one that was added meanwhile is lost. *)
Example lost_finalizer :
  (λ doc, docStrings doc "finalizers") <$>
    applyPatch (<["finalizers" := GoStrings (Some ["a"; "theirs"])]> stored) (metadataPatch fetched (meta ["a"; "b"] (om_Annotations fetched)))
  = Some ["a"; "b"].
Proof. vm_compute. reflexivity. Qed.

(** Nor have the first annotations of an object. *)
Example lost_annotation :
  (λ doc, docMap doc "annotations") <$>
    applyPatch stored (metadataPatch (meta ["a"] None) (meta ["a"] (Some {[ "new" := "1" ]}))) = Some {[ "new" := "1" ]}.
Proof. vm_compute. reflexivity. Qed.
End Metadata.

Module GpuController.
Import Metadata ListConditions.

(** A server with one GPU and some pods. *)
Record Server := mkServer { srv_gpu : option PhysicalGPU; srv_pods : list Pod; srv_writes : nat }.

#[export] Instance server : ApiClient PhysicalGPU Server := {|
  client_Get name s := match srv_gpu s with
    | Some obj => if str_eqb (pg_Name obj) name then Ok obj else Err (External 404)
    | None => Err (External 404)
    end;
  client_StatusUpdate obj s := match srv_gpu s with
    | Some old =>
        if str_eqb (pg_Name old) (pg_Name obj)
        then let obj' := mkPhysicalGPU (pg_Meta old) (pg_Status obj) in (Ok obj', mkServer (Some obj') (srv_pods s) (S (srv_writes s)))
        else (Err (External 404), s)
    | None => (Err (External 404), s)
    end;
  client_Patch obj _ s := (Err (External 422), s);
  client_IsNotFound e := bool_decide (e = External 404);
|}.

#[export] Instance pods : PodLister Server := {|
  client_ListPods namespace labels s := Ok (filter (λ p, pod_Namespace p = namespace ∧ labels ⊆ pod_Labels p) (srv_pods s));
|}.

#[export] Instance apiErrors : ApiErrors := {|
  IsConflict e := bool_decide (e = External 409);
  noNewFinalizers e := false;
|}.

Lemma server_is_fresh : fresh_server (S := Server).
Proof.
  split.
  - intros name s obj. simpl. destruct (srv_gpu s) as [o|]; [|done]. destruct (str_eqb (pg_Name o) name) eqn:Ho; [|done].
    go_bool. congruence.
  - intros obj s obj' s' stored. simpl. destruct (srv_gpu s) as [o|]; [|done]. destruct (str_eqb (pg_Name o) (pg_Name obj)) eqn:Ho; [|done].
    intros [= <-] [= <- <-]. simpl. unfold pg_Name in *. simpl. by rewrite Ho.
  - intros obj s obj' s' namespace labels. simpl. destruct (srv_gpu s) as [o|]; [|done].
    destruct (str_eqb _ _); [|done]. by intros [= <- <-].
Qed.

Definition gpu : PhysicalGPU := mkPhysicalGPU
  (mkObjectMeta "gpu-0" [] None (Some {[ labelVendor := "nvidia" ]}) 3 None)
  (mkStatus (Some (mkNodeInfo "node-a" None "" None)) None None
     [mkCondition "HardwareHealthy" ConditionTrue "Ok" "" 3 10] None).

Definition pod (node status : string) : Pod :=
  mkPod "d8-gpu-control-plane" validatorLabels node [("Initialized", "True"); (PodReady, status)].

Definition before : Server := mkServer (Some gpu) [pod "node-b" "True"; pod "node-a" "False"; pod "node-a" "True"] 0.

Definition handler : ValidatorHandler := mkValidatorHandler (Some "d8-gpu-control-plane") true.

Lemma driver_ready_spec_witness :
  ∃ obj' c events, ValidatorHandle 20 handler (mkGpuState (mkResource (Some gpu) (Some gpu)) before [])
      = ((zeroResult, None), mkGpuState (mkResource (Some gpu) (Some obj')) before ([] ++ events)) ∧
    FindStatusCondition (st_Conditions (pg_Status obj')) conditionDriverReady = Some c ∧
    (cond_Status c = ConditionTrue ↔ ∃ pod, pod ∈ srv_pods before ∧ pod_NodeName pod = pg_NodeName gpu ∧ podReady pod = true) ∧
    (cond_Status c = ConditionUnknown ↔ srv_pods before = []) ∧
    (cond_Status c = ConditionFalse ↔
       srv_pods before ≠ [] ∧ ∀ pod, pod ∈ srv_pods before → pod_NodeName pod = pg_NodeName gpu → podReady pod = false) ∧
    (∀ t, t ≠ conditionDriverReady →
       FindStatusCondition (st_Conditions (pg_Status obj')) t = FindStatusCondition (st_Conditions (pg_Status gpu)) t) ∧
    obj' = set_Conditions (st_Conditions (pg_Status obj')) gpu.
Proof.
  apply (driver_ready_spec 20 handler (mkGpuState (mkResource (Some gpu) (Some gpu)) before []) gpu gpu "d8-gpu-control-plane" (srv_pods before));
    [reflexivity|reflexivity|discriminate|reflexivity|vm_compute; reflexivity].
Defined.

Definition after : Server := Eval vm_compute in fst (snd (GpuReconcile 20 [handler] "gpu-0" before)).

(** The first reconcile writes once and says so. *)
Example first_reconcile : GpuReconcile 20 [handler] "gpu-0" before
  = ((zeroResult, []), (after, [mkEvent "gpu-0" EventTypeNormal reasonValidatorReady "validator is ready"])) ∧ srv_writes after = 1%nat.
Proof. vm_compute. done. Qed.

Lemma reconcile_quiesces_witness : GpuReconcile 99 [handler] "gpu-0" after = ((zeroResult, []), (after, [])).
Proof.
  apply (reconcile_quiesces 20 99 handler "gpu-0" before after [mkEvent "gpu-0" EventTypeNormal reasonValidatorReady "validator is ready"]).
  - exact server_is_fresh.
  - vm_compute. reflexivity.
Defined.
End GpuController.

(** * The agents of a node on concrete inputs *)

Module NodeSync.
Import MemoryServer.

Definition raw (address device : string) : PciDevice := mkPciDevice address "030200" "10de" device "nvidia".
Definition bridge : PciDevice := mkPciDevice "0000:00:01.0" "060400" "8086" "1901" "".
Definition bus : list PciDevice := [raw "0000:65:00.0" "20b7"; bridge; raw "0000:17:00.0" "20b7"].

Definition devs : list NodeDevice := match Scan None (Ok bus) with Ok devs => devs | Err _ => [] end.

Lemma nameable_devs : Forall (nameable "node-1") devs.
Proof.
  repeat constructor; try (vm_compute; reflexivity); try discriminate; vm_compute; repeat constructor.
Qed.

(** The indexes follow the addresses, not the order of the bus. *)
Lemma scan_spec_witness :
  nd_Address <$> devs ≡ₚ pd_Address <$> filter scanned bus ∧ Sorted String.le (nd_Address <$> devs) ∧
  (∀ i dev, devs !! i = Some dev → nd_Index dev = Itoa (Z.of_nat i)) ∧
  (∀ n, Forall (nameable n) devs → NoDup (PhysicalGPUName n <$> devs)).
Proof. apply (scan_spec None bus devs); [vm_compute; reflexivity|vm_compute; reflexivity]. Defined.

Definition gpu0 : NodeDevice := mkNodeDevice "0000:17:00.0" "030200" "" "0" "10de" "" "20b7" "" "nvidia".
Lemma PhysicalGPUName_identifies_witness : "node-1" = "node-1" ∧ nd_Index gpu0 = nd_Index gpu0 ∧
  nd_VendorID gpu0 = nd_VendorID gpu0 ∧ nd_DeviceID gpu0 = nd_DeviceID gpu0.
Proof.
  apply (PhysicalGPUName_identifies "node-1" "node-1" gpu0 gpu0); [| |reflexivity];
    (repeat split; try (vm_compute; reflexivity); try discriminate; vm_compute; repeat constructor).
Defined.

(** Node names that differ in a dot only share the names of their objects. *)
Example dotted_nodes_collide : PhysicalGPUName "gpu.a" gpu0 = PhysicalGPUName "gpu-a" gpu0.
Proof. vm_compute. reflexivity. Qed.

(** A GPU added below the others takes over the name of the first one. *)
Example names_shift :
  (λ r, match r with Ok l => PhysicalGPUName "node-1" <$> l | Err _ => [] end)
    (Scan None (Ok (raw "0000:05:00.0" "20b7" :: bus))) !! 0%nat = Some (PhysicalGPUName "node-1" gpu0) ∧
  (λ r, match r with Ok l => nd_Address <$> l | Err _ => [] end) (Scan None (Ok (raw "0000:05:00.0" "20b7" :: bus))) !! 0%nat = Some "0000:05:00.0".
Proof. split; vm_compute; reflexivity. Qed.

(** ** A sync against a server with one stale and one known object *)

Definition nodeLabels (extra : string) : option (gmap string string) := Some {[ LabelNode := "node-1"; "extra" := extra ]}.
Definition known : PhysicalGPU :=
  mkPhysicalGPU (mkObjectMeta (PhysicalGPUName "node-1" gpu0) [] None (nodeLabels "kept") 1 None)
    (mkStatus None None None [] (Some (mkCurrentState DriverTypeVFIO None))).
Definition stale : PhysicalGPU :=
  mkPhysicalGPU (mkObjectMeta "node-1-7-10de-20b7" [] None (nodeLabels "gone") 1 None) emptyStatus.

Definition objects : Objects := {[ PhysicalGPUName "node-1" gpu0 := known; "node-1-7-10de-20b7" := stale ]}.
Lemma objects_named : named objects.
Proof. apply (bool_decide_unpack _). vm_compute. exact I. Qed.
Definition start : Server := dexist objects objects_named.

Definition synced : option error * Server * list Event := agentSync true "node-1" (Ok devs) None start.

Example stale_deleted : fst (fst synced) = None ∧
  (map_to_list (contents (snd (fst synced)))).*1 ≡ₚ PhysicalGPUName "node-1" <$> devs.
Proof. split; [vm_compute; reflexivity|]. vm_compute. apply Permutation_swap || reflexivity. Qed.

Definition finish : Server := snd (fst synced).
Lemma synced_ok : agentSync true "node-1" (Ok devs) None start = (None, finish, snd synced).
Proof.
  unfold finish. assert (fst (fst synced) = None) as He by (vm_compute; reflexivity). unfold synced in *.
  destruct (agentSync true "node-1" (Ok devs) None start) as [[e s'] events]. simpl in *. by rewrite He.
Qed.

Lemma names_distinct : NoDup (PhysicalGPUName "node-1" <$> devs).
Proof. apply (bool_decide_unpack _). vm_compute. exact I. Qed.
Lemma lists_never_stop labels (s0 : Server) e : gc_List labels s0 = Err e → errorsIs e ErrStopChain = false.
Proof. done. Qed.

Lemma sync_converges_witness :
  (∀ dev, dev ∈ devs → ∃ obj, contents finish !! PhysicalGPUName "node-1" dev = Some obj ∧
     applied "node-1" dev None (startStatus (contents start) (PhysicalGPUName "node-1" dev)) (contents start !! PhysicalGPUName "node-1" dev) obj) ∧
  (∀ name obj, contents finish !! name = Some obj → pg_Labels obj !! LabelNode = Some "node-1" → name ∈ PhysicalGPUName "node-1" <$> devs) ∧
  (∀ name, name ∉ PhysicalGPUName "node-1" <$> devs → contents finish !! name = contents start !! name ∨
     contents finish !! name = None ∧ ∃ obj, contents start !! name = Some obj ∧ pg_Labels obj !! LabelNode = Some "node-1").
Proof.
  exact (sync_converges true "node-1" (Ok devs) None start finish (snd synced) ltac:(discriminate) lists_never_stop synced_ok names_distinct).
Defined.

Lemma gpu0_scanned : gpu0 ∈ devs.
Proof. apply list_elem_of_lookup_2 with 0%nat. vm_compute. reflexivity. Qed.
Lemma known_stored : contents start !! PhysicalGPUName "node-1" gpu0 = Some known.
Proof. vm_compute. reflexivity. Qed.

(** The device is bound to nvidia and its labels are those of a 20b7; the
    object keeps the driver vfio-pci and the labels it had. *)
Lemma sync_keeps_labels_and_driver_witness : ∃ obj, contents finish !! PhysicalGPUName "node-1" gpu0 = Some obj ∧
  pg_Labels obj = {[ LabelNode := "node-1"; "extra" := "kept" ]} ∧
  st_CurrentState (pg_Status obj) = Some (mkCurrentState DriverTypeVFIO None).
Proof.
  exact (sync_keeps_labels_and_driver true "node-1" devs None start finish (snd synced) gpu0 known
    {[ LabelNode := "node-1"; "extra" := "kept" ]} (mkCurrentState DriverTypeVFIO None)
    ltac:(discriminate) names_distinct lists_never_stop synced_ok gpu0_scanned known_stored eq_refl eq_refl).
Defined.
Example labels_are_outdated : (LabelsForDevice "node-1" gpu0) !! LabelVendor = Some "nvidia" ∧ driverTypeFromName (nd_DriverName gpu0) = DriverTypeNvidia.
Proof. split; vm_compute; reflexivity. Qed.

(** A scan that fails is no error of the sync: it is not retried. *)
Example failed_scan_is_silent : fst (fst (agentSync true "node-1" (Err (External 5)) None start)) = None.
Proof. vm_compute. reflexivity. Qed.
End NodeSync.

Module Loops.

(** A notification while a sync runs: it is due again when the sync ends. *)
Definition during : Loop := mkLoop Selecting true TimerStopped eventQuietPeriod.

Lemma during_runs : runs 0 during true.
Proof.
  pose (l0 := startLoop 0). pose (l1 := tick eventQuietPeriod l0).
  pose (l2 := mkLoop Selecting false TimerFired eventQuietPeriod). pose (l3 := mkLoop Syncing false TimerStopped eventQuietPeriod).
  assert (runs 0 l1 true) as H1 by (apply (runs_step 0 l0 true Silent); [constructor|by apply step_tick]).
  assert (runs 0 l2 true) as H2 by (apply (runs_step 0 l1 true Silent); [done|by apply step_expire]).
  assert (runs 0 l3 false) as H3 by (apply (runs_step 0 l2 true SyncStarts); [done|by apply step_sync]).
  assert (runs 0 (Notify l3) true) as H4 by (apply (runs_step 0 l3 false Triggered); [done|by apply step_notify]).
  apply (runs_step 0 (Notify l3) true (SyncEnds false)); [done|by apply step_synced].
Qed.

Lemma due_sync_starts_witness : ∃ as_ l', proceeds during as_ l' ∧ lp_phase l' = Syncing ∧ SyncStarts ∈ as_ ∧
  lp_now l' ≤ lp_now during + eventQuietPeriod.
Proof. apply (due_sync_starts 0 during during_runs). reflexivity. Defined.
End Loops.

(** * The gpu-handler on a node with an A30 *)

Module Nvml.

(** The constants of nvml.h. *)
#[export] Instance nvmlHeader : NvmlApi := {|
  api_SUCCESS := 0; api_ERROR_ALREADY_INITIALIZED := 5; api_ERROR_NOT_SUPPORTED := 3; api_ERROR_INVALID_ARGUMENT := 2;
  api_ErrorString _ := "nvml error"; api_DEVICE_MIG_ENABLE := 1; api_DEVICE_MIG_DISABLE := 0;
  api_DEVICE_ARCH := [2; 3; 4; 5; 6; 7; 8; 9; 10]; api_GPU_INSTANCE_PROFILE_COUNT := 17;
  api_PROFILE_1_SLICE_REV1 := 7; api_PROFILE_2_SLICE_REV1 := 8; api_PROFILE_1_SLICE_ALL_ME := 15; api_PROFILE_2_SLICE_ALL_ME := 16;
  api_PROFILE_1_SLICE_GFX := 10; api_PROFILE_2_SLICE_GFX := 11; api_PROFILE_4_SLICE_GFX := 12;
  api_PROFILE_1_SLICE_NO_ME := 13; api_PROFILE_2_SLICE_NO_ME := 14;
|}.

Definition noInfo : ProfileInfo := mkProfileInfo 0 "" 0 0 0 0 0 0 0 0 0.
Definition oneSlice : ProfileInfo := mkProfileInfo 14 "" 5952 1 4 14 1 0 0 0 0.
Definition twoSlices : ProfileInfo := mkProfileInfo 5 "" 12032 2 2 28 2 0 0 0 0.
Definition infoAt (i : nat) : Answer ProfileInfo := match i with 0%nat => (oneSlice, 0) | 1%nat => (twoSlices, 0) | _ => (noInfo, 2) end.

Definition device : NvmlDevice := {|
  dv_Name := ("NVIDIA A30", 0); dv_UUID := ("GPU-a30", 0); dv_MemoryTotal := (25769803776, 0);
  dv_CudaComputeCapability := ((8, 0), 0); dv_Architecture := (7, 0); dv_BoardPartNumber := ("", 3);
  dv_PowerManagementLimit := (165000, 0); dv_EnforcedPowerLimit := (165000, 0); dv_PowerLimitConstraints := ((100000, 165000), 0);
  dv_MigMode := ((1, 1), 0); dv_ProfileInfo := infoAt; dv_ProfileInfoV2 _ := (noInfo, 3); dv_ProfileInfoV3 := infoAt;
  dv_PossiblePlacements info := if pi_Id info =? 14 then ([(0, 1); (1, 1); (2, 1); (3, 1)], 0) else ([(0, 2); (2, 2)], 0);
|}.

Definition lib : NvmlLibrary := mkNvmlLibrary 0 ("570.1", 0) (12080, 0) (λ _, (device, 0)).
Definition session : NVMLSession := mkSession lib "570.1" "12.8".

Example session_opened : readerOpen (Some lib) = (Ok session, 1).
Proof. vm_compute. reflexivity. Qed.

(** NVML stays initialised when the version cannot be read: nobody closes. *)
Example init_leaked : snd (readerOpen (Some (mkNvmlLibrary 0 ("", 999) (12080, 0) (λ _, (device, 0))))) = 1.
Proof. vm_compute. reflexivity. Qed.

(** The suffix takes the identifier of a profile for its index: the profile
    1g.6gb of an A30 has the identifier 14. *)
Example suffix_of_identifier : migProfileName "" 1 5952 14 = "1g.6gb-me".
Proof. vm_compute. reflexivity. Qed.

Definition snapshot : DeviceSnapshot := match ReadDevice session "0000:65:00.0" with Ok s => s | Err _ => mkSnapshot (mkGPUCapabilities "" None "" None) (mkCurrentState "" None) end.
Lemma device_read : ReadDevice session "0000:65:00.0" = Ok snapshot.
Proof. vm_compute. reflexivity. Qed.

Definition gpu (conditions : list Condition) (driver : string) : PhysicalGPU :=
  mkPhysicalGPU (mkObjectMeta "pgpu-a30" [] None (Some {[ LabelNode := "node-1" ]}) 1 None)
    (mkStatus None (Some (mkPCIInfo "0000:65:00.0" None None None)) (Some (snap_Capabilities snapshot)) conditions (Some (mkCurrentState driver (Some (mkNvidiaCurrentState "GPU-a30" "570.1" "12.8" None None None))))).

Lemma infoAt_in_range i : info_in_range (fst (infoAt i)).
Proof.
  destruct i as [|[|i]]; (split; [simpl; lia|simpl; lia|]); simpl; repeat constructor; simpl; lia.
Qed.

Lemma lib_in_range : library_in_range lib.
Proof.
  intros pci _. split.
  - simpl. lia.
  - apply infoAt_in_range.
  - intros i. split; [simpl; lia|simpl; lia|]. simpl. repeat constructor; simpl; lia.
  - apply infoAt_in_range.
  - intros info p. simpl. destruct (pi_Id info =? 14); simpl; rewrite !elem_of_cons, elem_of_nil; intros Hp;
      destruct_or! Hp; subst; simpl; lia.
Qed.

Definition built : Inventory := fst (BuildInventory (Some (placementsOpen (Some lib))) [gpu [] DriverTypeNvidia]).
Example built_names : dev_canonicalName <$> inv_Devices built =
    ["gpu-0000-65-00-0"; "mig-0000-65-00-0-p14-s0-n1"; "mig-0000-65-00-0-p14-s1-n1"; "mig-0000-65-00-0-p14-s2-n1";
     "mig-0000-65-00-0-p14-s3-n1"; "mig-0000-65-00-0-p5-s0-n2"; "mig-0000-65-00-0-p5-s2-n2"].
Proof. vm_compute. reflexivity. Qed.

Lemma first_built : ∃ d, d ∈ inv_Devices built.
Proof. eexists. apply list_elem_of_lookup_2 with 3%nat. vm_compute. reflexivity. Qed.

Lemma nvml_inventory_wellformed_witness : ∃ d, d ∈ inv_Devices built ∧ device_wellformed d.
Proof.
  destruct first_built as [d Hd]. exists d. split; [exact Hd|].
  apply (nvml_inventory_wellformed session [gpu [] DriverTypeNvidia] d).
  - exact lib_in_range.
  - constructor; [|constructor]. exists "0000:65:00.0", snapshot. split; [exact device_read|reflexivity].
  - exact Hd.
Defined.
End Nvml.

Module Handling.
Import Nvml MemoryServer ListConditions.

(** A server that accepts everything, at a clock that stands still. *)
#[export] Instance world : HandlerWorld (Q := int_quantity) Server := {|
  hw_Now s := (0, s); hw_PublishResources _ s := (None, s); hw_WriteBase _ s := (None, s); hw_Dropped _ := None;
|}.
#[export] Instance inOrder : MapOrder := {| mapRange A m := map_to_list m; mapRange_perm A m := reflexivity (map_to_list m) |}.

Definition condition (type status : string) : Condition := mkCondition type status "" "" 1 0.
Definition ready : list Condition := [condition DriverReadyType ConditionTrue].

Definition named_gpu : PhysicalGPU → Objects := λ g, {[ pg_Name g := g ]}.
Lemma named_gpu_named g : named (named_gpu g).
Proof. apply map_Forall_singleton. done. Qed.

(** The agent of a node whose server has one GPU. *)
Definition agent (g : PhysicalGPU) : HandlerState (S := Server) :=
  mkHandlerState "node-1" [] [] ∅ DefaultFeatures ∅ 0 (dexist (named_gpu g) (named_gpu_named g)).

Abbreviation Outcome := (res () * (HandlerState (S := Server) * list (HandlerCall (Q := int_quantity))))%type.
Definition sync (g : PhysicalGPU) : Outcome :=
  handlerSync true true (Ok (ReadDevice session)) (Some (placementsOpen (Some lib))) (agent g) [].

Definition publishedNames (out : Outcome) : list (list string) :=
  omap (λ c, match c with Published pub _ => Some (api_Name <$> resourceDevices pub) | _ => None end) (snd (snd out)).
Definition healthOf (out : Outcome) : option string :=
  contents (hs_server (fst (snd out))) !! "pgpu-a30" ≫= λ g, cond_Status <$> FindStatusCondition (st_Conditions (pg_Status g)) HardwareHealthyType.

(** A GPU with its driver ready is read, marked healthy and published. *)
Definition good : Outcome := sync (gpu ready DriverTypeNvidia).
Example good_published : fst good = Ok () ∧ healthOf good = Some ConditionTrue ∧ length (publishedNames good) = 1%nat ∧
  length (concat (publishedNames good)) = 7%nat.
Proof. vm_compute. done. Qed.

Lemma good_eq : handlerSync true true (Ok (ReadDevice session)) (Some (placementsOpen (Some lib))) (agent (gpu ready DriverTypeNvidia)) []
  = (fst good, (fst (snd good), snd (snd good))).
Proof. unfold good, sync. by destruct (handlerSync _ _ _ _ _ _) as [r [s h]]. Qed.

Lemma published_are_healthy_witness : ∃ new, snd (snd good) = [] ++ new ∧ (length (List.filter is_published new) ≤ 1)%nat ∧
  ∀ pub err, Published pub err ∈ new → ∃ listed gpus features,
    gc_List {[ LabelNode := "node-1" ]} (hs_server (agent (gpu ready DriverTypeNvidia))) = Ok listed ∧
    pub = fst (BuildResources (Some (placementsOpen (Some lib))) "node-1" gpus features) ∧
    ∀ pgpu, pgpu ∈ gpus → condition_true HardwareHealthyType pgpu = true ∧
      ∃ l, l ∈ listed ∧ condition_true DriverReadyType l = true ∧ comes_from (Ok (ReadDevice session)) pgpu l.
Proof.
  exact (published_are_healthy true true (Ok (ReadDevice session)) (Some (placementsOpen (Some lib)))
    (agent (gpu ready DriverTypeNvidia)) [] (fst good) (fst (snd good)) (snd (snd good)) good_eq).
Defined.

(** A GPU whose driver is not ready is marked, and nothing of it published. *)
Example not_ready : let out := sync (gpu [condition DriverReadyType ConditionFalse] DriverTypeNvidia) in
  fst out = Ok () ∧ healthOf out = Some ConditionUnknown ∧ publishedNames out = [[]].
Proof. vm_compute. done. Qed.

(** A GPU that was healthy and is now bound to vfio-pci: its status says that
    the health is unknown, and its devices are published all the same, since
    the list of the sync still has the old condition. *)
Example stale_published :
  let out := sync (gpu (ready ++ [condition HardwareHealthyType ConditionTrue]) DriverTypeVFIO) in
  fst out = Ok () ∧ healthOf out = Some ConditionUnknown ∧ length (concat (publishedNames out)) = 7%nat.
Proof. vm_compute. done. Qed.
End Handling.

Module CdiFiles.

(** Libraries that keep specs in a map. *)
#[export] Instance memoryCdi : CdiLibraries (gmap string CdiSpec) := {|
  nv_CommonEdits := Ok (Some (mkContainerEdits [] [] []));
  nv_DeviceSpecsByID uuid := Ok [mkCdiDevice uuid (mkContainerEdits [] [mkDeviceNode "/dev/nvidia0" "c" None 195 0] [])];
  nvspec_New vendor class devices edits := Ok (mkCdiSpec (vendor +:+ "/" +:+ class) "" devices edits);
  nv_Transform spec := Ok spec;
  cdi_MinimumRequiredVersion _ := Ok "0.5.0";
  cdi_TransientSpecName vendor class id := vendor +:+ "-" +:+ class +:+ "_" +:+ id;
  cdi_QualifiedName vendor class name := vendor +:+ "/" +:+ class +:+ "=" +:+ name;
  cdi_WriteSpec spec name c := (None, <[name := spec]> c);
  cdi_RemoveSpec name c := (None, delete name c);
  cdi_NvmlInit := None;
  cdi_NvmlByUUID _ := Ok (mkMigHandle (Ok 1) (Ok 0) (Ok (Ok 0)));
  cdi_ErrorString _ := "error";
|}.
#[export] Instance memoryCdiLaws : CdiLaws (gmap string CdiSpec).
Proof.
  refine {| specs c := c |}; simpl; try congruence; by intros; simplify_eq.
Defined.

Definition params : writerParams := mkWriterParams "k8s.gpu" "claim" "device" "/etc/cdi" "/" "/" "".
Definition writers : Composite := mkComposite (Some params) (Some (mkVfioCdi "k8s.gpu" "claim" "/sys/bus/pci/devices")).

Definition nl : string := String newline EmptyString.
Definition files : HostFiles := {|
  hf_ReadFile path := if str_eqb path procDevicesPath
    then Ok ("Character devices:" +:+ nl +:+ "195 nvidia" +:+ nl +:+ "238 nvidia-caps" +:+ nl +:+ nl +:+ "Block devices:" +:+ nl)
    else Ok ("DeviceFileMinor: 12" +:+ nl +:+ "DeviceFileMode: 256" +:+ nl);
  hf_ReadDir _ := Ok []; hf_Stat _ := None; hf_Readlink _ := Ok "../../kernel/iommu_groups/7";
|}.

Definition str (v : string) : AttributeValue := mkAttributeValue (Some v) None None.
Definition mig : PrepareDevice int_quantity := mkPrepareDevice "gpu" "gpu.deckhouse.io" "gpus/node-1" "mig-0" "" ∅
  {[ AttrDeviceType := str "MIG"; AttrMigUUID := str "MIG-1"; AttrMpsPipeDir := str "/run/pipe" ]} None.
Definition request : PrepareRequest int_quantity := mkPrepareRequest "uid-1" "node-1" false [mig].

Definition written : res (gmap string (list string)) * gmap string CdiSpec := composite_Write files writers request ∅.
Definition ids : gmap string (list string) := {[ "mig-0" := ["k8s.gpu/claim=uid-1-mig-0"] ]}.

(** The entry of a MIG device: the nodes of the GPU and of its instances, and
    the pipe of MPS. *)
Example mig_entry : written = (Ok ids, {[ "k8s.gpu-claim_uid-1" := mkCdiSpec "k8s.gpu/claim" "0.5.0"
  [mkCdiDevice "uid-1-mig-0" (mkContainerEdits ["CUDA_MPS_PIPE_DIRECTORY=/tmp/nvidia-mps"]
     [mkDeviceNode "/dev/nvidia0" "c" None 195 0; mkDeviceNode "/dev/nvidia-caps/nvidia-cap12" "c" (Some 256) 238 12;
      mkDeviceNode "/dev/nvidia-caps/nvidia-cap12" "c" (Some 256) 238 12] [mkMount "/run/pipe" "/tmp/nvidia-mps"])]
  (mkContainerEdits ["NVIDIA_VISIBLE_DEVICES=void"] [] []) ]}).
Proof. vm_compute. reflexivity. Qed.

Lemma cdi_write_delete_witness : let name := "k8s.gpu-claim_uid-1" in
  (∃ spec, snd written = <[name := spec]> ∅ ∧ spec_names spec = ["uid-1-mig-0"]) ∧
  snd (composite_Delete (λ _, "") writers "uid-1" (snd written)) = delete name ∅.
Proof.
  destruct (cdi_write_delete files (λ _, "") writers request ∅ (Ok ids) (snd written)
    (snd (composite_Delete (λ _, "") writers "uid-1" (snd written))) "k8s.gpu" "claim") as (_ & Hok & Hdel).
  - vm_compute. reflexivity.
  - reflexivity.
  - split.
    + destruct (Hok ids eq_refl) as (spec & Hs & Hn & _). exists spec. split; [exact Hs|exact Hn].
    + apply Hdel; [vm_compute; reflexivity|]. intros k [= <-]. reflexivity.
Defined.
End CdiFiles.
