(* ===== verification/SharingAdapters.v ===== *)
(** * Adapters for shared GPUs

    Files and programs of the host, the time-slicing adapter and the MPS
    adapter. *)

From S2P Require Import Prelude GoLib DeviceModel ConfigApi Effects Prepare.

(** * Programs, directories and environments of the host

    The time slicing and MPS adapters run NVIDIA's command line tools.  What the
    host answers is a function of everything that was asked of it before, and
    every action is recorded, as for the managers of the prepare service. *)

(** [exec.Cmd] with its environment and standard input. *)
Record command := mkCommand {
  cmd_Path : string;
  cmd_Args : list string;
  cmd_Env : list string;
  cmd_Stdin : string;
}.

Inductive hostEvent :=
| HMkdirAll (path : string) (r : res ())
| HRun (c : command) (r : res string)
| HWriteFile (path data : string) (r : res ())
| HRemoveAll (path : string) (r : res ()).

(** [CombinedOutput] answers with the output; when the program fails, the error
    carries it too, as the messages of the adapters quote it. *)
Class Host := {
  host_MkdirAll : list hostEvent → string → res ();
  host_Run : list hostEvent → command → res string;
  host_WriteFile : list hostEvent → string → string → res ();
  host_RemoveAll : list hostEvent → string → res ();
  host_Exists : list hostEvent → string → bool;
  host_IsRegularFile : string → bool;
  host_IsDir : string → bool;
  host_LookPath : string → res string;
  host_Environ : list string;
  host_Output : error → string;
}.

Section Host.
Context `{Host}.

Abbreviation HM := (M hostEvent ()).

Definition os_mkdirAll (path : string) : HM () := call (λ h, host_MkdirAll h path) (HMkdirAll path).
Definition os_writeFile (path data : string) : HM () := call (λ h, host_WriteFile h path data) (HWriteFile path data).
Definition os_removeAll (path : string) : HM () := call (λ h, host_RemoveAll h path) (HRemoveAll path).
Definition exec_run (c : command) : HM string := call (λ h, host_Run h c) (HRun c).
Definition os_exists (path : string) : HM bool := λ s h, (Ok (host_Exists h path), (s, h)).

(** [filepath.Join] of elements without empty, [.] and [..] parts. *)
Definition filepath_Join (elems : list string) : string := Join (filter (λ e, e ≠ "") elems) "/".

(** ** helpers.go *)

Fixpoint firstRegular (root name : string) (relDirs : list string) : string :=
  match relDirs with
  | [] => ""
  | rel :: rest =>
      let path := filepath_Join [root; rel; name] in
      if host_IsRegularFile path then path else firstRegular root name rest
  end.
Definition resolveBinary (root : string) (relDirs : list string) (name : string) : string :=
  let root := TrimSpace root in
  if str_eqb root "" then "" else firstRegular root name relDirs.

(** The first entry with the prefix [key=] is replaced, or one is appended. *)
Fixpoint putEnv (prefix : string) (value : string → string) (env : list string) : list string :=
  match env with
  | [] => [prefix +:+ value ""]
  | entry :: rest =>
      if HasPrefix entry prefix then (prefix +:+ value (TrimPrefix entry prefix)) :: rest
      else entry :: putEnv prefix value rest
  end.

(** A list of paths put before what the entry had. *)
Definition before (value current : string) : string :=
  if str_eqb current "" then value else value +:+ ":" +:+ current.

Definition setEnv (env : list string) (key value : string) : list string := putEnv (key +:+ "=") (λ _, value) env.

Definition withLDPreload (env : list string) (libPath : string) : list string :=
  if str_eqb libPath "" then env else putEnv "LD_PRELOAD=" (before libPath) env.

Definition libraryDirs : list string :=
  ["usr/lib64"; "usr/lib/x86_64-linux-gnu"; "usr/lib/aarch64-linux-gnu"; "lib64"; "lib/x86_64-linux-gnu";
   "lib/aarch64-linux-gnu"].

Definition withLDLibraryPath (env : list string) (driverRoot : string) : list string :=
  let driverRoot := TrimSpace driverRoot in
  if str_eqb driverRoot "" then env else
  let paths := filter (λ p, host_IsDir p = true) ((λ d, filepath_Join [driverRoot; d]) <$> libraryDirs) in
  if list_len0 paths then env else putEnv "LD_LIBRARY_PATH=" (before (Join paths ":")) env.

(** Trimmed, without empty strings and repetitions, in order. *)
Fixpoint uniqueTrimmed (seen : gset string) (values : list string) : list string :=
  match values with
  | [] => []
  | value :: rest =>
      let value := TrimSpace value in
      if str_eqb value "" then uniqueTrimmed seen rest
      else if bool_decide (value ∈ seen) then uniqueTrimmed seen rest
      else value :: uniqueTrimmed ({[value]} ∪ seen) rest
  end.
End Host.
Abbreviation HM := (M hostEvent ()).

(** ** Runs of commands *)

Section Runs.
Context `{Host}.

(** The outcome of a run of commands: all of them ran, or the last one that ran
    failed, and nothing else happened. *)
Definition allRan (cs : list command) (t : list hostEvent) : Prop :=
  ∃ outs, length outs = length cs ∧ t = zip_with (λ c out, HRun c (Ok out)) cs outs.
Definition lastFailed (cs : list command) (t : list hostEvent) : Prop :=
  ∃ before c after outs e, cs = before ++ c :: after ∧ length outs = length before ∧
    t = zip_with (λ c out, HRun c (Ok out)) before outs ++ [HRun c (Err e)].

(** A computation that runs these commands in order and stops at a failure. *)
Definition runsCommands (cs : list command) (m : HM ()) : Prop := ∀ h, ∃ t,
  snd (snd (m () h)) = h ++ t ∧
  match fst (m () h) with Ok _ => allRan cs t | Err _ => lastFailed cs t end.

(** Taking a successful computation apart. *)
Lemma bind_Ok {A B} (m : HM A) (f : A → HM B) h b sh : (m ≫= f) () h = (Ok b, sh) →
  ∃ a h1, m () h = (Ok a, ((), h1)) ∧ f a () h1 = (Ok b, sh).
Proof. unfold mbind, M_bind. destruct (m () h) as [[a|e] [[] h1]]; [|done]. eauto. Qed.
Lemma wrap_Ok {A} w (m : HM A) h a sh : wrapErr w m () h = (Ok a, sh) → m () h = (Ok a, sh).
Proof. unfold wrapErr. by destruct (m () h) as [[] ?]. Qed.
Lemma call_Ok {A} (f : list hostEvent → res A) ev h (a : A) s h1 :
  call (S := ()) f ev () h = (Ok a, (s, h1)) → f h = Ok a ∧ h1 = h ++ [ev (Ok a)].
Proof. unfold call. intros [= Hf _ <-]. by rewrite Hf. Qed.

Lemma runs_nil : runsCommands [] (mret ()).
Proof. intros h. exists []. simpl. rewrite app_nil_r. split; [done|]. by exists []. Qed.

Lemma runs_one c w : runsCommands [c] (wrapErr w (exec_run c) ≫= λ _, mret ()).
Proof.
  intros h. unfold mbind, M_bind, wrapErr, exec_run, call. destruct (host_Run h c) as [out|e] eqn:Hr.
  - exists [HRun c (Ok out)]. split; [done|]. by exists [out].
  - exists [HRun c (Err e)]. split; [done|]. by exists [], c, [], [], e.
Qed.

Lemma runs_app cs1 cs2 m1 (m2 : () → HM ()) : runsCommands cs1 m1 → runsCommands cs2 (m2 ()) →
  runsCommands (cs1 ++ cs2) (m1 ≫= m2).
Proof.
  intros H1 H2 h. destruct (H1 h) as (t1 & Ht1 & Hr1). unfold mbind, M_bind.
  destruct (m1 () h) as [[[]|e] [[] h1]]; simpl in *; subst h1.
  - destruct Hr1 as (outs1 & Hl1 & ->). destruct (H2 (h ++ zip_with (λ c out, HRun c (Ok out)) cs1 outs1)) as (t2 & Ht2 & Hr2).
    eexists. split; [rewrite Ht2, <- app_assoc; reflexivity|].
    destruct (m2 () () _) as [[[]|e] [[] h2]]; simpl in *.
    + destruct Hr2 as (outs2 & Hl2 & ->). exists (outs1 ++ outs2). rewrite !length_app, zip_with_app by done. split; [lia|done].
    + destruct Hr2 as (b & c & a & outs2 & e2 & -> & Hl2 & ->). exists (cs1 ++ b), c, a, (outs1 ++ outs2), e2.
      rewrite !length_app, zip_with_app, <- !app_assoc by done. split; [done|]. split; [lia|done].
  - exists t1. split; [done|]. destruct Hr1 as (b & c & a & outs & e1 & -> & Hl & ->).
    exists b, c, (a ++ cs2), outs, e1. by rewrite <- app_assoc.
Qed.

Lemma runs_ext cs m m' : (∀ h, m () h = m' () h ∨ ∃ e e' sh, m () h = (Err e, sh) ∧ m' () h = (Err e', sh)) →
  runsCommands cs m → runsCommands cs m'.
Proof.
  intros Hext Hm h. destruct (Hm h) as (t & Ht). destruct (Hext h) as [<-|(e & e' & sh & He & ->)]; [by exists t|].
  rewrite He in Ht. by exists t.
Qed.

Lemma runs_wrap cs w m : runsCommands cs m → runsCommands cs (wrapErr w m).
Proof.
  apply runs_ext. intros h. unfold wrapErr. destruct (m () h) as [[[]|e] sh]; [by left|right; by eexists _, _, _].
Qed.
End Runs.

(** * Time slices: pkg/dra/adapters/timeslicing

    The manager sets the compute mode and the time slice of each GPU with
    nvidia-smi. *)

(** ** manager.go *)

Definition defaultSMIBinary : string := "nvidia-smi".
Definition defaultNVMLLib : string := "libnvidia-ml.so.1".
Definition defaultComputeMode : string := "DEFAULT".
Definition smiRelDirs : list string := ["opt/bin"; "usr/bin"; "usr/sbin"; "bin"; "sbin"].
Definition nvmlRelDirs : list string :=
  ["usr/lib64"; "usr/lib/x86_64-linux-gnu"; "usr/lib/aarch64-linux-gnu"; "lib64"; "lib/x86_64-linux-gnu";
   "lib/aarch64-linux-gnu"].

Record TimeSlicingAdapter := mkTimeSlicingAdapter { nvidiaSMIPath : string; nvmlLibPath : string }.
Record TimeSlicingOptions := mkTimeSlicingOptions {
  tso_DriverRoot : string;
  tso_NvidiaSMIPath : string;
  tso_NVMLLibPath : string;
}.

Section TimeSlicing.
Context `{Host}.

Definition TimeSlicing_New (opts : TimeSlicingOptions) : TimeSlicingAdapter :=
  let smiPath := TrimSpace (tso_NvidiaSMIPath opts) in
  let smiPath :=
    if str_eqb smiPath "" then
      let resolved := resolveBinary (tso_DriverRoot opts) smiRelDirs defaultSMIBinary in
      if str_eqb resolved "" then match host_LookPath defaultSMIBinary with Ok p => p | Err _ => "" end else resolved
    else smiPath in
  let nvmlPath := TrimSpace (tso_NVMLLibPath opts) in
  let nvmlPath :=
    if str_eqb nvmlPath "" then resolveBinary (tso_DriverRoot opts) nvmlRelDirs defaultNVMLLib else nvmlPath in
  mkTimeSlicingAdapter smiPath nvmlPath.

(** ** manager_apply.go *)

Definition smiCommand (m : TimeSlicingAdapter) (args : list string) : command :=
  mkCommand (nvidiaSMIPath m) args (withLDPreload host_Environ (nvmlLibPath m)) "".

Definition runSMI (m : TimeSlicingAdapter) (args : list string) : HM () :=
  _ ← wrapErr (λ e, Errorf "nvidia-smi failed: %s" [TrimSpace (host_Output e)]) (exec_run (smiCommand m args));
  mret ().

Definition modeArgs (uuid : string) : list string := ["-i"; uuid; "-c"; defaultComputeMode].
Definition sliceArgs (interval : Z) (uuid : string) : list string :=
  ["compute-policy"; "-i"; uuid; "--set-timeslice"; Itoa interval].

(** The loop; a UUID is entered in [seen] after both commands succeeded. *)
Fixpoint sliceLoop (m : TimeSlicingAdapter) (interval : Z) (seen : gset string) (deviceUUIDs : list string) : HM () :=
  match deviceUUIDs with
  | [] => mret ()
  | uuid :: rest =>
      let uuid := TrimSpace uuid in
      if str_eqb uuid "" then sliceLoop m interval seen rest
      else if bool_decide (uuid ∈ seen) then sliceLoop m interval seen rest
      else
        _ ← wrapErr (Wrapf "set compute mode for %q: %w" [uuid]) (runSMI m (modeArgs uuid));
        _ ← wrapErr (Wrapf "set time-slice for %q: %w" [uuid]) (runSMI m (sliceArgs interval uuid));
        sliceLoop m interval ({[uuid]} ∪ seen) rest
  end.

(** A nil manager is [None]. *)
Definition SetTimeSlice (m : option TimeSlicingAdapter) (deviceUUIDs : list string) (cfg : option TimeSlicingConfig)
    : HM () :=
  match m with
  | None => fail (Errorf "nvidia-smi path is not configured" [])
  | Some m =>
      if str_eqb (nvidiaSMIPath m) "" then fail (Errorf "nvidia-smi path is not configured" []) else
      match cfg with
      | Some (mkTimeSlicingConfig (Some i)) =>
          let interval := TimeSliceInterval_Int i in
          if interval <? 0 then fail (Errorf "unsupported time-slice interval %q" [i])
          else sliceLoop m interval ∅ deviceUUIDs
      | _ => fail (Errorf "time-slicing interval is not set" [])
      end
  end.

(** ** What is run *)

Definition sliceCommands (m : TimeSlicingAdapter) (interval : Z) (uuid : string) : list command :=
  [smiCommand m (modeArgs uuid); smiCommand m (sliceArgs interval uuid)].

Lemma sliceLoop_runs m interval seen uuids :
  runsCommands (concat (sliceCommands m interval <$> uniqueTrimmed seen uuids)) (sliceLoop m interval seen uuids).
Proof.
  revert seen. induction uuids as [|u uuids IH]; intros seen; cbn [uniqueTrimmed sliceLoop]; [apply runs_nil|].
  destruct (str_eqb (TrimSpace u) ""); [apply IH|]. case_bool_decide; [apply IH|].
  cbn [fmap list_fmap concat]. change (sliceCommands m interval (TrimSpace u)) with
    ([smiCommand m (modeArgs (TrimSpace u))] ++ [smiCommand m (sliceArgs interval (TrimSpace u))]).
  rewrite <- app_assoc. repeat (apply runs_app; [apply runs_wrap, runs_one|]). apply IH.
Qed.

(** With a configured manager and a known interval, [SetTimeSlice] runs for
    each of the given GPUs, trimmed and without repetitions and in the given
    order, the command that sets the compute mode and the command that sets the
    time slice: all of them when it succeeds, and when it fails exactly those up
    to the one that failed; in every other case it runs nothing and fails. *)
Theorem SetTimeSlice_runs (m : TimeSlicingAdapter) (uuids : list string) (cfg : option TimeSlicingConfig) (h : list hostEvent) :
  ∃ t, snd (snd (SetTimeSlice (Some m) uuids cfg () h)) = h ++ t ∧
    match nvidiaSMIPath m, cfg with
    | String _ _, Some (mkTimeSlicingConfig (Some i)) =>
        if decide (i ∈ [DefaultTimeSlice; ShortTimeSlice; MediumTimeSlice; LongTimeSlice]) then
          let cs := concat (sliceCommands m (TimeSliceInterval_Int i) <$> uniqueTrimmed ∅ uuids) in
          match fst (SetTimeSlice (Some m) uuids cfg () h) with Ok _ => allRan cs t | Err _ => lastFailed cs t end
        else t = [] ∧ is_Ok (fst (SetTimeSlice (Some m) uuids cfg () h)) = false
    | _, _ => t = [] ∧ is_Ok (fst (SetTimeSlice (Some m) uuids cfg () h)) = false
    end.
Proof.
  assert (∀ e : error, ∃ t, snd (snd (fail (A := ()) e () h)) = h ++ t ∧ t = [] ∧ is_Ok (fst (fail (A := ()) e () h)) = false)
    as Hfail by (intros e; exists []; by rewrite app_nil_r).
  unfold SetTimeSlice. destruct (nvidiaSMIPath m) as [|c p] eqn:Hp; [apply Hfail|].
  replace (str_eqb (String c p) "") with false by (symmetry; by apply str_eqb_false).
  destruct cfg as [[[i|]]|]; [|apply Hfail..].
  assert ((TimeSliceInterval_Int i <? 0) = negb (bool_decide (i ∈ [DefaultTimeSlice; ShortTimeSlice; MediumTimeSlice; LongTimeSlice])))
    as ->.
  { unfold TimeSliceInterval_Int, str_eqb. repeat case_bool_decide; subst; try done; set_solver. }
  destruct (decide _) as [Hi|Hi]; [rewrite bool_decide_eq_true_2 by done|rewrite bool_decide_eq_false_2 by done; apply Hfail].
  cbn [negb]. apply sliceLoop_runs.
Qed.
End TimeSlicing.

(** * MPS control daemons: pkg/dra/adapters/mps

    One control daemon per control id, in a directory of its own; a log file
    written after the configuration was applied marks a daemon that is ready. *)

(** ** manager.go *)

Definition defaultControlBinary : string := "nvidia-cuda-mps-control".
Definition defaultControlDir : string := "mps".
Definition defaultPipeDir : string := "pipe".
Definition defaultLogDir : string := "log".
Definition defaultShmDir : string := "/dev/shm".
Definition startupLogName : string := "startup.log".
Definition controlRelDirs : list string := ["usr/bin"; "usr/sbin"; "bin"; "sbin"].

Record MpsAdapter := mkMpsAdapter {
  controlBinary : string;
  pluginPath : string;
  driverRoot : string;
  shmDir : string;
}.
Record MpsOptions := mkMpsOptions {
  mpo_PluginPath : string;
  mpo_DriverRoot : string;
  mpo_ControlBinPath : string;
  mpo_ShmDir : string;
}.

Section Mps.
Context {Q : Type} `{Quantity Q} `{Host}.

(** [range] over the map of limits. *)
Context (rangeLimits : gmap string Q → list (string * Q)).

Definition Mps_New (opts : MpsOptions) : MpsAdapter :=
  let controlPath := TrimSpace (mpo_ControlBinPath opts) in
  let controlPath :=
    if str_eqb controlPath "" then
      let resolved := resolveBinary (mpo_DriverRoot opts) controlRelDirs defaultControlBinary in
      if str_eqb resolved "" then match host_LookPath defaultControlBinary with Ok p => p | Err _ => "" end else resolved
    else controlPath in
  let shm := TrimSpace (mpo_ShmDir opts) in
  mkMpsAdapter controlPath (TrimSpace (mpo_PluginPath opts)) (TrimSpace (mpo_DriverRoot opts))
    (if str_eqb shm "" then defaultShmDir else shm).

(** ** manager_stop.go: commands to a daemon *)

Definition controlEnv (m : MpsAdapter) (deviceUUIDs : list string) (pipeDir logDir : string) : list string :=
  let env := host_Environ in
  let env := if list_len0 deviceUUIDs then env else setEnv env "CUDA_VISIBLE_DEVICES" (Join deviceUUIDs ",") in
  let env := if str_eqb pipeDir "" then env else setEnv env "CUDA_MPS_PIPE_DIRECTORY" pipeDir in
  let env := if str_eqb logDir "" then env else setEnv env "CUDA_MPS_LOG_DIRECTORY" logDir in
  withLDLibraryPath env (driverRoot m).

Definition newline : string := String (Ascii.ascii_of_nat 10) EmptyString.

Definition daemonCommand (m : MpsAdapter) (deviceUUIDs : list string) (pipeDir logDir : string) : command :=
  mkCommand (controlBinary m) ["-d"] (controlEnv m deviceUUIDs pipeDir logDir) "".
Definition controlCommand (m : MpsAdapter) (pipeDir logDir text : string) : command :=
  mkCommand (controlBinary m) [] (controlEnv m [] pipeDir logDir) (text +:+ newline).

Definition runCommand (m : MpsAdapter) (pipeDir logDir text : string) : HM () :=
  if str_eqb (TrimSpace text) "" then mret () else
  _ ← wrapErr (λ e, Errorf "MPS command %q failed: %s" [text; TrimSpace (host_Output e)])
        (exec_run (controlCommand m pipeDir logDir text));
  mret ().

(** ** manager_start.go *)

Definition percentageText (p : Z) : string := "set_default_active_thread_percentage " +:+ Itoa p.
Definition limitText (uuid limit : string) : string := "set_default_device_pinned_mem_limit " +:+ uuid +:+ " " +:+ limit.

Fixpoint limitCommands (m : MpsAdapter) (pipeDir logDir : string) (limits : gmap string string) (keys : list string) : HM () :=
  match keys with
  | [] => mret ()
  | uuid :: rest =>
      _ ← runCommand m pipeDir logDir (limitText uuid (default "" (limits !! uuid)));
      limitCommands m pipeDir logDir limits rest
  end.

Definition applyConfig (m : MpsAdapter) (deviceUUIDs : list string) (pipeDir logDir : string) (cfg : option (MpsConfig Q))
    : HM () :=
  match cfg with
  | None => mret ()
  | Some cfg =>
      _ ← match mps_DefaultActiveThreadPercentage cfg with
          | Some p => runCommand m pipeDir logDir (percentageText p)
          | None => mret ()
          end;
      limits ← wrapErr (Wrapf "normalize MPS memory limits: %w" []) (liftR
        (MpsLimit_Normalize (rangeLimits (mps_DefaultPerDevicePinnedMemoryLimit cfg)) deviceUUIDs
          (mps_DefaultPinnedDeviceMemoryLimit cfg)));
      limitCommands m pipeDir logDir limits (sort_Strings (map_to_list limits).*1)
  end.

(** [ensureDir] of a path that is not empty. *)
Definition ensureDir (path : string) : HM () := if str_eqb path "" then mret () else os_mkdirAll path.

Definition rootDirOf (m : MpsAdapter) (controlID : string) : string := filepath_Join [pluginPath m; defaultControlDir; controlID].
Definition pipeDirOf (m : MpsAdapter) (controlID : string) : string := filepath_Join [rootDirOf m controlID; defaultPipeDir].
Definition logDirOf (m : MpsAdapter) (controlID : string) : string := filepath_Join [rootDirOf m controlID; defaultLogDir].
Definition startupLogOf (m : MpsAdapter) (controlID : string) : string := filepath_Join [logDirOf m controlID; startupLogName].

Definition startDaemon (m : MpsAdapter) (controlID : string) (deviceUUIDs : list string) (cfg : option (MpsConfig Q)) : HM () :=
  let pipeDir := pipeDirOf m controlID in
  let logDir := logDirOf m controlID in
  _ ← wrapErr (λ e, Errorf "start MPS control daemon: %s" [TrimSpace (host_Output e)])
        (exec_run (daemonCommand m deviceUUIDs pipeDir logDir));
  _ ← applyConfig m deviceUUIDs pipeDir logDir cfg;
  wrapErr (Wrapf "write MPS startup log: %w" []) (os_writeFile (startupLogOf m controlID) ("startup complete" +:+ newline)).

Definition Mps_Start (m : option MpsAdapter) (req : MpsPrepareRequest Q) : HM PreparedMpsState :=
  match m with
  | None => fail (Errorf "mps manager is nil" [])
  | Some m =>
      if str_eqb (controlBinary m) "" then fail (Errorf "mps control binary is not configured" []) else
      if str_eqb (pluginPath m) "" then fail (Errorf "plugin path is not configured" []) else
      let controlID := TrimSpace (mpq_ControlID req) in
      if str_eqb controlID "" then fail (Errorf "mps control id is empty" []) else
      let deviceUUIDs := uniqueTrimmed ∅ (mpq_DeviceUUIDs req) in
      if list_len0 deviceUUIDs then fail (Errorf "no device UUIDs provided for MPS" []) else
      _ ← wrapErr (Wrapf "create MPS pipe dir: %w" []) (ensureDir (pipeDirOf m controlID));
      _ ← wrapErr (Wrapf "create MPS log dir: %w" []) (ensureDir (logDirOf m controlID));
      let state := mkPreparedMpsState controlID (pipeDirOf m controlID) (shmDir m) (logDirOf m controlID) in
      started ← os_exists (startupLogOf m controlID);
      if started : bool then mret state else
      _ ← startDaemon m controlID deviceUUIDs (mpq_Config req);
      mret state
  end.

Definition Mps_Stop (m : option MpsAdapter) (state : PreparedMpsState) : HM () :=
  match m with
  | None => fail (Errorf "mps manager is nil" [])
  | Some m =>
      let controlID := TrimSpace (pms_ControlID state) in
      if str_eqb controlID "" then mret () else
      let pipeDir := TrimSpace (pms_PipeDir state) in
      let logDir := TrimSpace (pms_LogDir state) in
      let pipeDir := if str_eqb pipeDir "" then pipeDirOf m controlID else pipeDir in
      let logDir := if str_eqb logDir "" then logDirOf m controlID else logDir in
      _ ← runCommand m pipeDir logDir "quit";
      if str_eqb (pluginPath m) "" then mret () else
      wrapErr (Wrapf "remove MPS control dir: %w" []) (os_removeAll (rootDirOf m controlID))
  end.

(** ** What the adapter does *)

Lemma TrimSpace_idemp s : TrimSpace (TrimSpace s) = TrimSpace s.
Proof.
  unfold TrimSpace at 2 3. unfold TrimFunc. destruct (TrimRightFunc_ends is_space (TrimLeftFunc is_space s)) as [->|He]; [done|].
  apply TrimFunc_id; [|done]. destruct (TrimLeftFunc_starts is_space s) as [Hn|Hs]; [by rewrite Hn in He|].
  by apply TrimRightFunc_starts.
Qed.

(** The commands of a configuration: the thread percentage, then the limits in
    the order of the UUIDs. *)
Definition configCommands (m : MpsAdapter) (pipeDir logDir : string) (cfg : option (MpsConfig Q))
    (limits : gmap string string) : list command :=
  match cfg with
  | None => []
  | Some cfg =>
      (match mps_DefaultActiveThreadPercentage cfg with
       | Some p => [controlCommand m pipeDir logDir (percentageText p)]
       | None => []
       end) ++
      ((λ uuid, controlCommand m pipeDir logDir (limitText uuid (default "" (limits !! uuid)))) <$>
        sort_Strings (map_to_list limits).*1)
  end.

Lemma Trim_nonblank s : starts_without is_space s = true → str_eqb (TrimSpace s) "" = false.
Proof.
  intros Hs. apply str_eqb_false. unfold TrimSpace, TrimFunc. destruct s as [|c s]; [done|]. simpl in Hs.
  apply negb_true_iff in Hs. cbn [TrimLeftFunc]. rewrite Hs.
  assert (starts_without is_space (TrimRightFunc is_space (String c s)) = true) as Hst
    by (apply TrimRightFunc_starts; simpl; by rewrite Hs).
  by intros He; rewrite He in Hst.
Qed.

Lemma runCommand_runs m pipeDir logDir text : starts_without is_space text = true →
  runsCommands [controlCommand m pipeDir logDir text] (runCommand m pipeDir logDir text).
Proof. intros Ht. unfold runCommand. rewrite Trim_nonblank by done. apply runs_one. Qed.

Lemma limitCommands_runs m pipeDir logDir limits keys :
  runsCommands ((λ uuid, controlCommand m pipeDir logDir (limitText uuid (default "" (limits !! uuid)))) <$> keys)
    (limitCommands m pipeDir logDir limits keys).
Proof.
  induction keys as [|u keys IH]; [apply runs_nil|]. cbn [limitCommands fmap list_fmap].
  apply (runs_app [_]); [|apply IH]. by apply runCommand_runs.
Qed.

(** A configuration that is applied has limits, and its commands ran. *)
Lemma applyConfig_ran m uuids pipeDir logDir cfg h h' : applyConfig m uuids pipeDir logDir cfg () h = (Ok (), ((), h')) →
  ∃ limits t, match cfg with
    | Some cfg => MpsLimit_Normalize (rangeLimits (mps_DefaultPerDevicePinnedMemoryLimit cfg)) uuids
        (mps_DefaultPinnedDeviceMemoryLimit cfg) = Ok limits
    | None => limits = ∅
    end ∧ allRan (configCommands m pipeDir logDir cfg limits) t ∧ h' = h ++ t.
Proof.
  destruct cfg as [cfg|]; [|intros [= <-]; exists ∅, []; rewrite app_nil_r; split; [done|]; by split; [exists []|]].
  intros Hrun. cbn [applyConfig] in Hrun.
  destruct (MpsLimit_Normalize (rangeLimits (mps_DefaultPerDevicePinnedMemoryLimit cfg)) uuids
    (mps_DefaultPinnedDeviceMemoryLimit cfg)) as [limits|e] eqn:Hn.
  - exists limits.
    assert (runsCommands (configCommands m pipeDir logDir (Some cfg) limits) (applyConfig m uuids pipeDir logDir (Some cfg))) as Hruns.
    { cbn [applyConfig configCommands]. rewrite Hn. apply runs_app; [|apply limitCommands_runs].
      destruct (mps_DefaultActiveThreadPercentage cfg); [by apply runCommand_runs|apply runs_nil]. }
    destruct (Hruns h) as (t & Ht & Hr). cbn [applyConfig] in Ht, Hr. rewrite Hn in Ht, Hr. rewrite Hrun in Ht, Hr.
    exists t. split; [done|]. by split.
  - exfalso. unfold mbind, M_bind, wrapErr, liftR in Hrun.
    destruct (mps_DefaultActiveThreadPercentage cfg) as [p|]; [|done].
    by destruct (runCommand m pipeDir logDir (percentageText p) () h) as [[] [[] ?]].
Qed.

(** Whether the daemon of a control id is marked as ready. *)
Definition ready (m : MpsAdapter) (controlID : string) (h : list hostEvent) : bool :=
  foldl (λ r ev, match ev with
    | HWriteFile p _ (Ok _) => if str_eqb p (startupLogOf m controlID) then true else r
    | HRemoveAll p (Ok _) => if str_eqb p (rootDirOf m controlID) then false else r
    | _ => r
    end) false h.

Lemma ready_app m id h t : ready m id (h ++ t) =
  foldl (λ r ev, match ev with
    | HWriteFile p _ (Ok _) => if str_eqb p (startupLogOf m id) then true else r
    | HRemoveAll p (Ok _) => if str_eqb p (rootDirOf m id) then false else r
    | _ => r
    end) (ready m id h) t.
Proof. unfold ready. apply foldl_app. Qed.

(** The host keeps the mark: nothing else writes to the directory of a daemon. *)
Definition marks (m : MpsAdapter) (controlID : string) : Prop :=
  ∀ h, host_Exists h (startupLogOf m controlID) = ready m controlID h.

Lemma filepath_Join_two a b : a ≠ "" → b ≠ "" → filepath_Join [a; b] = a +:+ "/" +:+ b.
Proof. intros Ha Hb. unfold filepath_Join. by rewrite !filter_cons_True, filter_nil. Qed.

Section Directories.
Context (m : MpsAdapter) (id : string) (Hpath : pluginPath m ≠ "") (Hid : id ≠ "").

Lemma rootDir_eq : rootDirOf m id = pluginPath m +:+ "/mps/" +:+ id.
Proof. unfold rootDirOf, filepath_Join. by rewrite !filter_cons_True, filter_nil. Qed.
Lemma rootDir_ne : rootDirOf m id ≠ "".
Proof. rewrite rootDir_eq. by destruct (pluginPath m). Qed.
Lemma pipeDir_eq : pipeDirOf m id = rootDirOf m id +:+ "/pipe".
Proof. apply filepath_Join_two; [apply rootDir_ne|done]. Qed.
Lemma logDir_eq : logDirOf m id = rootDirOf m id +:+ "/log".
Proof. apply filepath_Join_two; [apply rootDir_ne|done]. Qed.

(** Directories of a trimmed plugin path are trimmed. *)
Lemma dir_trimmed suffix : TrimSpace (pluginPath m) = pluginPath m → ends_without is_space suffix = true →
  TrimSpace (rootDirOf m id +:+ suffix) = rootDirOf m id +:+ suffix ∧ rootDirOf m id +:+ suffix ≠ "".
Proof.
  intros Htrim Hend. assert (starts_without is_space (pluginPath m) = true) as Hstart.
  { destruct (TrimLeftFunc_starts is_space (pluginPath m)) as [He|Hs].
    - exfalso. unfold TrimSpace, TrimFunc in Htrim. rewrite He in Htrim. by apply Hpath.
    - apply TrimRightFunc_starts in Hs. unfold TrimSpace, TrimFunc in Htrim. by rewrite Htrim in Hs. }
  rewrite rootDir_eq. split; [apply TrimFunc_id|]; [|by apply ends_without_app|]; by destruct (pluginPath m).
Qed.
End Directories.

Lemma ensureDir_Ok path h h1 : path ≠ "" → ensureDir path () h = (Ok (), ((), h1)) → h1 = h ++ [HMkdirAll path (Ok ())].
Proof.
  intros Hp. unfold ensureDir. replace (str_eqb path "") with false by (symmetry; by apply str_eqb_false).
  by intros [_ ->]%call_Ok.
Qed.

(** What a successful [Start] did. *)
Lemma Start_Ok m req st h h1 : Mps_Start (Some m) req () h = (Ok st, ((), h1)) →
  let id := TrimSpace (mpq_ControlID req) in
  let uuids := uniqueTrimmed ∅ (mpq_DeviceUUIDs req) in
  let dirs := [HMkdirAll (pipeDirOf m id) (Ok ()); HMkdirAll (logDirOf m id) (Ok ())] in
  pluginPath m ≠ "" ∧ id ≠ "" ∧ uuids ≠ [] ∧
  st = mkPreparedMpsState id (pipeDirOf m id) (shmDir m) (logDirOf m id) ∧
  ((host_Exists (h ++ dirs) (startupLogOf m id) = true ∧ h1 = h ++ dirs) ∨
   host_Exists (h ++ dirs) (startupLogOf m id) = false ∧ startDaemon m id uuids (mpq_Config req) () (h ++ dirs) = (Ok (), ((), h1))).
Proof.
  intros Hs id uuids dirs. unfold Mps_Start in Hs. destruct (str_eqb (controlBinary m) ""); [done|].
  destruct (str_eqb (pluginPath m) "") eqn:Hp; [done|]. apply str_eqb_false in Hp. cbv zeta in Hs. fold id uuids in Hs.
  destruct (str_eqb id "") eqn:Hid; [done|]. apply str_eqb_false in Hid.
  destruct (list_len0 uuids) eqn:Hu; [done|].
  assert (pipeDirOf m id ≠ "") as Hpipe by (rewrite pipeDir_eq by done; by destruct (rootDirOf m id)).
  assert (logDirOf m id ≠ "") as Hlog by (rewrite logDir_eq by done; by destruct (rootDirOf m id)).
  apply bind_Ok in Hs as ([] & h2 & ->%wrap_Ok%ensureDir_Ok & Hs); [|done].
  apply bind_Ok in Hs as ([] & h3 & ->%wrap_Ok%ensureDir_Ok & Hs); [|done]. rewrite <- app_assoc in Hs. fold dirs in Hs.
  apply bind_Ok in Hs as (started & h4 & [= <- <-] & Hs). split; [done|]. split; [done|].
  split; [by intros Hn; rewrite Hn in Hu|]. destruct (host_Exists _ _).
  - injection Hs as <- <-. split; [done|]. by left.
  - apply bind_Ok in Hs as ([] & h5 & Hd & [= <- <-]). split; [done|]. by right.
Qed.

(** the life of an MPS daemon.  A successful [Start] that finds no mark of a
    running daemon starts one in directories of its control id, sends it all the
    commands of the configuration, and only then marks it; one that finds the
    mark runs nothing; both return the same directories and leave a marked
    daemon.  A successful [Stop] of the returned state tells exactly this daemon
    to quit and removes its directory and with it the mark, so that the next
    [Start] starts a new one. *)
Theorem mps_lifecycle (m : MpsAdapter) (req : MpsPrepareRequest Q) (st : PreparedMpsState) (h h1 : list hostEvent) :
  let id := TrimSpace (mpq_ControlID req) in
  let uuids := uniqueTrimmed ∅ (mpq_DeviceUUIDs req) in
  let dirs := [HMkdirAll (pipeDirOf m id) (Ok ()); HMkdirAll (logDirOf m id) (Ok ())] in
  marks m id → TrimSpace (pluginPath m) = pluginPath m → Mps_Start (Some m) req () h = (Ok st, ((), h1)) →
  st = mkPreparedMpsState id (pipeDirOf m id) (shmDir m) (logDirOf m id) ∧
  (if ready m id h then h1 = h ++ dirs else
   ∃ out limits t, allRan (configCommands m (pipeDirOf m id) (logDirOf m id) (mpq_Config req) limits) t ∧
     h1 = h ++ dirs ++ [HRun (daemonCommand m uuids (pipeDirOf m id) (logDirOf m id)) (Ok out)] ++ t ++
       [HWriteFile (startupLogOf m id) ("startup complete" +:+ newline) (Ok ())]) ∧
  ready m id h1 = true ∧
  (∀ h2, Mps_Stop (Some m) st () h1 = (Ok (), ((), h2)) →
    (∃ out, h2 = h1 ++ [HRun (controlCommand m (pipeDirOf m id) (logDirOf m id) "quit") (Ok out);
      HRemoveAll (rootDirOf m id) (Ok ())]) ∧ ready m id h2 = false).
Proof.
  intros id uuids dirs Hmarks Htrim Hs. apply Start_Ok in Hs as (Hp & Hid & Huuids & -> & Hs). fold id uuids dirs in Hid, Huuids, Hs |- *.
  rewrite Hmarks, ready_app in Hs. change (foldl _ (ready m id h) dirs) with (ready m id h) in Hs.
  split; [done|]. split; [|split].
  - destruct Hs as [[-> ->]|[-> Hs]]; [done|]. unfold startDaemon in Hs.
    apply bind_Ok in Hs as (out & h2 & [_ ->]%wrap_Ok%call_Ok & Hs).
    apply bind_Ok in Hs as ([] & h3 & (limits & t & _ & Hran & ->)%applyConfig_ran & Hs).
    apply wrap_Ok, call_Ok in Hs as [_ ->]. exists out, limits, t. split; [done|]. by rewrite <- !app_assoc.
  - destruct Hs as [[Hr ->]|[Hr Hs]]; [by rewrite ready_app, Hr|]. unfold startDaemon in Hs.
    apply bind_Ok in Hs as (out & h2 & _ & Hs). apply bind_Ok in Hs as ([] & h3 & _ & Hs).
    apply wrap_Ok, call_Ok in Hs as [_ ->]. rewrite ready_app. simpl. by rewrite str_eqb_refl.
  - intros h2 Hstop. unfold Mps_Stop in Hstop. cbn [pms_ControlID pms_PipeDir pms_LogDir] in Hstop.
    assert (TrimSpace id = id) as Hidt by (apply TrimSpace_idemp). rewrite Hidt in Hstop.
    replace (str_eqb id "") with false in Hstop by (symmetry; by apply str_eqb_false).
    destruct (dir_trimmed m id Hp Hid "/pipe" Htrim eq_refl) as [Hpipe Hpipe']. rewrite <- pipeDir_eq in Hpipe, Hpipe' by done.
    destruct (dir_trimmed m id Hp Hid "/log" Htrim eq_refl) as [Hlog Hlog']. rewrite <- logDir_eq in Hlog, Hlog' by done.
    rewrite Hpipe, Hlog in Hstop. apply str_eqb_false in Hpipe', Hlog'. rewrite Hpipe', Hlog' in Hstop.
    apply bind_Ok in Hstop as ([] & h3 & Hrun & Hstop).
    replace (str_eqb (pluginPath m) "") with false in Hstop by (symmetry; by apply str_eqb_false).
    apply wrap_Ok, call_Ok in Hstop as [_ ->].
    apply bind_Ok in Hrun as (out & h4 & [_ ->]%wrap_Ok%call_Ok & [= <-]). rewrite <- app_assoc.
    split; [by exists out|]. rewrite ready_app. simpl. by rewrite str_eqb_refl.
Qed.
End Mps.
