(* ===== verification/AdapterExamples.v ===== *)
(** * Examples: the adapters

    A PCI bus, a disk, a lock file, a GPU and daemons on which the adapters
    are run, and the witnesses of their theorems. *)

From S2P Require Import Prelude GoLib DeviceModel ConfigApi Effects Prepare PrepareSteps PrepareProtocol.
From S2P Require Import PrepareSpec PrepareExamples Vfio Json JsonText OsFiles CheckpointFile FsLock MigNvml.
From S2P Require Import SharingAdapters.

From Stdlib Require Import Ascii.

(** * A PCI bus with two GPUs

    A file system that behaves as the PCI files of sysfs do; the laws hold for
    it.  With it the prepare service shows what a retry after a failed
    [Prepare] does to a GPU passed through with VFIO. *)

Module Bus.
Import Node.

Record PciDevice := mkPciDevice {
  pci_driver : option string;
  pci_group : Z;
  pci_override : string;
}.

(** The loaded drivers and the devices. *)
Record PciBus := mkPciBus { bus_drivers : list string; bus_devices : gmap string PciDevice }.

Definition ENOENT : error := External 2.
Definition ENODEV : error := External 19.

Definition setDevice (bus : PciBus) (pci : string) (d : PciDevice) : PciBus :=
  mkPciBus (bus_drivers bus) (<[pci := d]> (bus_devices bus)).

Definition busReadlink (bus : PciBus) (p : path) : res path :=
  match p with
  | [root; pci; file] =>
      match bus_devices bus !! pci with
      | Some d =>
          if str_eqb root defaultSysfsRoot then
            if str_eqb file "driver" then
              match pci_driver d with Some drv => Ok [".."; "drivers"; drv] | None => Err ENOENT end
            else if str_eqb file "iommu_group" then Ok [".."; "iommu_groups"; Itoa (pci_group d)]
            else Err ENOENT
          else Err ENOENT
      | None => Err ENOENT
      end
  | _ => Err ENOENT
  end.

Definition busStat (bus : PciBus) (p : path) : res bool :=
  match p with
  | [root; driver] =>
      if str_eqb root driversRoot && bool_decide (driver ∈ bus_drivers bus) then Ok true else Err ENOENT
  | _ => Err ENOENT
  end.

Definition busControl (bus : PciBus) (driver file pci : string) : res () * PciBus :=
  match bus_devices bus !! pci with
  | None => (Err ENODEV, bus)
  | Some d =>
      if str_eqb file "unbind" then
        if bool_decide (pci_driver d = Some driver)
        then (Ok (), setDevice bus pci (mkPciDevice None (pci_group d) (pci_override d)))
        else (Err ENODEV, bus)
      else if str_eqb file "bind" then
        if bool_decide (pci_driver d = None) && (str_eqb (pci_override d) "" || str_eqb (pci_override d) driver)
        then (Ok (), setDevice bus pci (mkPciDevice (Some driver) (pci_group d) (pci_override d)))
        else (Err ENODEV, bus)
      else (Err ENOENT, bus)
  end.

Definition busWrite (bus : PciBus) (p : path) (data : string) : res () * PciBus :=
  match p with
  | [root; x; file] =>
      if str_eqb root driversRoot then
        if bool_decide (x ∈ bus_drivers bus) then busControl bus x file data else (Err ENOENT, bus)
      else if str_eqb root defaultSysfsRoot && str_eqb file "driver_override" then
        match bus_devices bus !! x with
        | Some d => (Ok (), setDevice bus x (mkPciDevice (pci_driver d) (pci_group d) data))
        | None => (Err ENOENT, bus)
        end
      else (Err ENOENT, bus)
  | _ => (Err ENOENT, bus)
  end.

#[export] Instance sysfs : FileSystem PciBus := {|
  fs_readlink := busReadlink;
  fs_stat := busStat;
  fs_write := busWrite;
|}.

Lemma driverOf_bus bus pci :
  driverOf defaultSysfsRoot bus pci = bus_devices bus !! pci ≫= pci_driver.
Proof.
  unfold driverOf. simpl. unfold busReadlink. simpl. destruct (bus_devices bus !! pci) as [d|]; [|done].
  simpl. by destruct (pci_driver d).
Qed.

Lemma busControl_driver bus driver file pci r bus' :
  busControl bus driver file pci = (r, bus') →
  (∀ other, other ≠ pci → driverOf defaultSysfsRoot bus' other = driverOf defaultSysfsRoot bus other) ∧
  (r = Ok () → file = "bind" → driverOf defaultSysfsRoot bus' pci = Some driver).
Proof.
  unfold busControl. destruct (bus_devices bus !! pci) as [d|] eqn:Hd; [|by intros [= <- <-]].
  assert (∀ d' other, other ≠ pci →
    driverOf defaultSysfsRoot (setDevice bus pci d') other = driverOf defaultSysfsRoot bus other) as Hf.
  { intros d' other Ho. rewrite !driverOf_bus. simpl. by rewrite lookup_insert_ne. }
  destruct (str_eqb file "unbind") eqn:Hu; go_bool.
  { destruct (bool_decide _); intros [= <- <-]; (split; [by auto|intros _ Hb; congruence]). }
  destruct (str_eqb file "bind"); [|by intros [= <- <-]].
  destruct (_ && _); intros [= <- <-]; (split; [by auto|]); [|done].
  intros _ _. rewrite driverOf_bus. simpl. by rewrite lookup_insert_eq.
Qed.

Lemma bus_laws : sysfs_laws (FS := PciBus) defaultSysfsRoot.
Proof.
  constructor.
  - intros fs fs' pci driver. simpl. unfold busWrite. simpl.
    destruct (bool_decide _); [|done]. intros Hc. by apply busControl_driver in Hc as [_ Hc]; apply Hc.
  - intros fs pci driver file r fs' other _. simpl. unfold busWrite. simpl.
    destruct (bool_decide _); [|by intros [= <- <-]]. intros Hc. by apply busControl_driver in Hc as [Hc _]; apply Hc.
  - intros fs pci data r fs' other. simpl. unfold busWrite. simpl.
    destruct (bus_devices fs !! pci) as [d|] eqn:Hd; intros [= <- <-]; [|done]. rewrite !driverOf_bus. simpl.
    destruct (decide (other = pci)) as [->|Ho]; [by rewrite lookup_insert_eq, Hd|by rewrite lookup_insert_ne].
Qed.

(** Two GPUs on the nvidia driver. *)
Definition gpu17 : string := "0000:17:00.0".
Definition idle : PciDevice := mkPciDevice (Some "nvidia") 7 "".
Definition bus0 : PciBus :=
  mkPciBus ["nvidia"; "vfio-pci"] {[ gpu17 := idle; "0000:65:00.0" := idle ]}.

Definition bound : PciBus := Eval vm_compute in snd (Vfio_Prepare defaultSysfsRoot gpu17 bus0).
Definition released : PciBus := Eval vm_compute in
  snd (Vfio_Unprepare defaultSysfsRoot (mkPreparedVfioDevice gpu17 "nvidia" 7) bound).

Lemma Vfio_roundtrip_witness :
  driverOf defaultSysfsRoot bound gpu17 = Some vfioDriver ∧
  driverOf defaultSysfsRoot released gpu17 = Some defaultDriver ∧
  ∀ other, other ≠ gpu17 →
    driverOf defaultSysfsRoot bound other = driverOf defaultSysfsRoot bus0 other ∧
    driverOf defaultSysfsRoot released other = driverOf defaultSysfsRoot bound other.
Proof.
  apply (Vfio_roundtrip defaultSysfsRoot bus_laws gpu17 bus0 (mkPreparedVfioDevice gpu17 "nvidia" 7)
    bound bound released); vm_compute; reflexivity.
Defined.

Lemma Vfio_retry_keeps_bound_witness :
  vfioDriver = vfioDriver ∧ Ok () = Ok () ∧ driverOf defaultSysfsRoot bound gpu17 = Some vfioDriver.
Proof.
  apply (Vfio_retry_keeps_bound defaultSysfsRoot bus_laws gpu17 bus0 (mkPreparedVfioDevice gpu17 "nvidia" 7)
    bound (mkPreparedVfioDevice gpu17 "vfio-pci" 7) bound (Ok ()) bound); vm_compute; reflexivity.
Defined.

(** ** The prepare service on this bus *)

(** The CDI writer fails the first time. *)
Definition flakyCdi : CDIWriter Q := {|
  cdi_Write h q :=
    if existsb (λ e, match e with ECDIWrite _ _ => true | _ => false end) h
    then cdi_Write cdi h q else Err (External 5);
  cdi_Delete := cdi_Delete cdi;
|}.

Definition busSvc (writer : CDIWriter Q) : Options Q :=
  mkOptions (Some writer) (Some mig) (Some (vfioManager defaultSysfsRoot bus0)) (Some ts) (Some mps)
    (Some locker) (Some store) (Some checker) true.

Definition driverAfter (h : list (event Q)) : option string :=
  driverOf defaultSysfsRoot (busAfter defaultSysfsRoot bus0 h) gpu17.

(** Without failures the GPU is given back. *)
Definition plain1 : list (event Q) := Eval vm_compute in snd (ServicePrepare (busSvc cdi) vfioClaim []).
Definition plain2 : list (event Q) := Eval vm_compute in snd (ServiceUnprepare (busSvc cdi) "uid-2" plain1).

Example given_back : (driverAfter [], driverAfter plain1, driverAfter plain2)
  = (Some "nvidia", Some "vfio-pci", Some "nvidia").
Proof. vm_compute. reflexivity. Qed.

(** With a [Prepare] that fails once after binding, repeated and then undone,
    the GPU stays on vfio-pci, although every later call succeeds. *)
Definition retry1 : list (event Q) := Eval vm_compute in snd (ServicePrepare (busSvc flakyCdi) vfioClaim []).
Definition retry2 : list (event Q) := Eval vm_compute in snd (ServicePrepare (busSvc flakyCdi) vfioClaim retry1).
Definition retry3 : list (event Q) := Eval vm_compute in snd (ServiceUnprepare (busSvc flakyCdi) "uid-2" retry2).

Example never_given_back :
  fst (ServicePrepare (busSvc flakyCdi) vfioClaim []) = Err (External 5) ∧
  (∃ r, fst (ServicePrepare (busSvc flakyCdi) vfioClaim retry1) = Ok r) ∧
  fst (ServiceUnprepare (busSvc flakyCdi) "uid-2" retry2) = Ok () ∧
  driverAfter retry3 = Some "vfio-pci".
Proof. split; [reflexivity|]. split; [eexists; vm_compute; reflexivity|]. split; vm_compute; reflexivity. Qed.
End Bus.

(** * A disk, a kernel and a GPU for the adapters

    Small implementations of the interfaces of [OsFiles], [FsLock], [MigNvml]
    and [HostExec] that satisfy their laws, and the adapters running on them. *)

(** A number above all the keys of a map. *)
Definition maxKey {A} (m : gmap Z A) : Z := map_fold (λ k _ acc, Z.max k acc) 0 m.

Lemma maxKey_ge {A} (m : gmap Z A) k x : m !! k = Some x → k ≤ maxKey m.
Proof.
  unfold maxKey. revert k x. induction m as [|i y m Hi Hf IH] using map_first_key_ind; intros k x Hk; [done|].
  rewrite map_fold_insert_first_key by done. destruct (decide (k = i)) as [->|]; [lia|].
  rewrite lookup_insert_ne in Hk by done. apply IH in Hk. lia.
Qed.

Module Disk.

(** Files by path, and a number for the next temporary file. *)
Record disk := mkDisk { files : gmap string string; next : Z }.

Definition put (p data : string) (d : disk) : disk := mkDisk (<[p := data]> (files d)) (next d).

Definition exampleTemp (dir pattern : string) : Op disk string := λ d,
  match cut_last "*" pattern with
  | Some (pre, post) =>
      let base := pre +:+ Itoa (next d) +:+ post in
      let name := dir +:+ "/" +:+ base in
      if bool_decide (filepath_Base name = base)
      then ([], (Ok name, mkDisk (<[name := ""]> (files d)) (next d + 1))) else ([], (Err (External 22), d))
  | None => ([], (Err (External 22), d))
  end.

#[export] Instance diskFiles : OsFiles disk := {|
  os_ReadFile p d := match files d !! p with Some data => Ok data | None => Err (External 2) end;
  os_IsNotExist e := bool_decide (e = External 2);
  os_MkdirAll _ _ d := ([], (Ok (), d));
  os_CreateTemp := exampleTemp;
  file_Chmod _ _ d := ([], (Ok (), d));
  file_Write f data d := match files d !! f with
    | Some old => ([put f old d], (Ok (), put f (old +:+ data) d)) | None => ([], (Err (External 9), d)) end;
  file_Close _ d := ([], (Ok (), d));
  os_Rename a b d := match files d !! a with
    | Some data => ([], (Ok (), mkDisk (<[b := data]> (delete a (files d))) (next d))) | None => ([], (Err (External 2), d)) end;
  os_Remove p d := ([], (Ok (), mkDisk (delete p (files d)) (next d)));
|}.

#[export] Instance diskLaws : OsFilesLaws disk.
Proof.
  refine {| fileAt d p := files d !! p |}; unfold through, answer, after; simpl.
  - intros p d data. destruct (files d !! p); congruence.
  - intros p d e. destruct (files d !! p); congruence.
  - intros. by split.
  - intros dir pre post d Hpost. unfold exampleTemp.
    change ("*" +:+ post) with (String "*" post). rewrite (cut_last_app "*") by done. case_bool_decide as Hb; [|by split].
    split; [constructor|]. simpl. intros p Hp. rewrite lookup_insert_ne; [done|]. intros <-. apply Hp. by eexists.
  - intros dir pre post d name Hpost. unfold exampleTemp.
    change ("*" +:+ post) with (String "*" post). rewrite (cut_last_app "*") by done. case_bool_decide as Hb; [|done].
    intros [= <-]. simpl. rewrite lookup_insert_eq. split; [by eexists|done].
  - intros. by split.
  - intros f data d. destruct (files d !! f) eqn:Hf; [|by split]. split; [constructor; [|constructor]|]; intros p Hp; simpl;
      by rewrite lookup_insert_ne.
  - intros f data d old Hf. rewrite Hf. intros _. simpl. by rewrite lookup_insert_eq.
  - intros. by split.
  - intros a b d. destruct (files d !! a) eqn:Ha; [|by split; [|left]]. split; [constructor|]. right. simpl.
    rewrite lookup_insert_eq. split; [done|]. intros p Hp. rewrite lookup_insert_ne, lookup_delete_ne by naive_solver. done.
  - intros a b d. destruct (files d !! a) eqn:Ha; [|done]. simpl. rewrite lookup_insert_eq. split; [done|].
    intros p Hp. rewrite lookup_insert_ne, lookup_delete_ne by naive_solver. done.
  - intros p d. split; [constructor|]. intros q Hq. simpl. by rewrite lookup_delete_ne.
Defined.

(** A checkpoint with a record of a MIG instance. *)
Definition record : PrepareCheckpoint := mkPrepareCheckpoint "v1" {[ "uid-1" := mkPreparedClaim PrepareStateCompleted
  [mkPreparedDeviceState "gpu" "node-a" "mig-0" ["vendor/gpu=mig-0"]
    (Some (mkPreparedMigDevice "0000:65:00.0" 19 0 1 7 0 "MIG-1")) None
    (Some (mkPreparedSharing "TimeSlicing" "MIG-1" None))] ]}.
Definition path : string := "/var/lib/gpu/checkpoint.json".
Definition empty : disk := mkDisk ∅ 7.

Definition saved : disk := Eval vm_compute in after (Store_Save (Some path) record) empty.

(** The text of the file, with [q] for the quotes. *)
Definition fileText : string := default "" (files saved !! path).
Example saved_text : HasPrefix fileText "{" = true ∧ String.length fileText = 360%nat ∧
  dom (files saved) = {[ path ]} ∧ Store_Load (Some path) saved = Ok record.
Proof. vm_compute. done. Qed.

Lemma record_savable : savable record.
Proof.
  split; [by vm_compute|]. intros uid c Hc. unfold record in Hc. cbn [pcp_Claims] in Hc. apply lookup_singleton_Some in Hc as [_ <-].
  repeat constructor; cbn; unfold in_int64; lia.
Qed.

Lemma zero_savable : savable zeroCheckpoint.
Proof. split; [by vm_compute|]. apply map_Forall_empty. Qed.

(** A save that returns, and one whose process is killed while it writes the
    temporary file, which stays on the disk. *)
Definition passed : list disk := fst (Store_Save (Some path) zeroCheckpoint saved).
Definition crashed : disk := Eval vm_compute in default saved (passed !! 4%nat).
Example crashed_files : size (files crashed) = 2%nat ∧ Store_Load (Some path) crashed = Ok record.
Proof. vm_compute. done. Qed.

Lemma store_refines_cell_witness : ∃ c', cellRun zeroCheckpoint [Saved record (Ok ()); Killed zeroCheckpoint] c' ∧
  c' = record ∧ Store_Load (Some path) crashed = Ok c'.
Proof.
  destruct (store_refines_cell path ltac:(discriminate) empty crashed
    [Saved record (Ok ()); Killed zeroCheckpoint] zeroCheckpoint) as (c' & Hcell & Hfile & _).
  - reflexivity.
  - apply Forall_cons. split; [apply record_savable|]. apply Forall_cons. split; [|apply Forall_nil_2]. apply zero_savable.
  - replace (Ok ()) with (answer (Store_Save (Some path) record) empty) by reflexivity. apply run_saved.
    apply (run_killed _ _ _ crashed); [|apply run_done]. right. apply elem_of_app. left.
    apply (list_elem_of_lookup_2 _ 4%nat). vm_compute. reflexivity.
  - assert (decodeFile (fileAt crashed path) = Ok record) as Hr by (vm_compute; reflexivity).
    rewrite Hr in Hfile. injection Hfile as <-. exists record. split; [exact Hcell|]. split; [reflexivity|]. vm_compute. reflexivity.
Defined.
End Disk.

Module Kernel.

(** The open descriptions of the lock file, and which one holds the lock. *)
Record kernel := mkKernel { opens : list Z; own : option Z }.

Definition unused (k : kernel) : Z := 1 + foldr Z.max (default 0 (own k)) (opens k).
Definition giveUp (fd : Z) (k : kernel) : option Z := if bool_decide (own k = Some fd) then None else own k.

#[export] Instance kernelFiles : LockFiles kernel := {|
  os_OpenFile _ k := (Ok (unused k), mkKernel (unused k :: opens k) (own k));
  flock_EX_NB fd k := if bool_decide (own k = None ∨ own k = Some fd)
    then (Ok (), mkKernel (opens k) (Some fd)) else (Err (External 11), k);
  flock_UN fd k := (Ok (), mkKernel (opens k) (giveUp fd k));
  fd_Close fd k := (Ok (), mkKernel (filter (λ d, d ≠ fd) (opens k)) (giveUp fd k));
  EWOULDBLOCK := External 11;
|}.

Lemma unused_max k : default 0 (own k) < unused k ∧ ∀ d, d ∈ opens k → d < unused k.
Proof.
  unfold unused. induction (opens k) as [|x l [IH1 IH2]]; [split; [simpl; lia|by intros d ?%not_elem_of_nil]|]. cbn [foldr] in *.
  split; [lia|]. intros d [->|Hd]%elem_of_cons; [lia|]. specialize (IH2 d Hd). lia.
Qed.

#[export] Instance kernelLaws : LockFilesLaws kernel.
Proof.
  refine {| owner := own; isOpen k fd := fd ∈ opens k |}; simpl.
  - intros p k. destruct (unused_max k) as [Hown Hopens]. split; [intros Hin; specialize (Hopens _ Hin); lia|].
    split; [intros Ho; rewrite Ho in Hown; simpl in Hown; lia|]. split; [done|]. intros d. apply elem_of_cons.
  - intros fd k Hopen. case_bool_decide as Hfree; simpl; (split; [done|]); [done|]. split; [done|].
    split; [intros _|done].
    destruct (own k) as [d|]; [exists d; split; [done|]; intros ->; tauto|tauto].
  - intros fd k Hopen. done.
  - intros fd k Hopen. split; [|done]. intros d. rewrite list_elem_of_filter. done.
Defined.

(** A schedule: a call begins, steps, or is killed. *)
Inductive turn := Begin (i : nat) | Next (i : nat) (wake : option error) | Kill (i : nat).

Definition locker : option string := Some "/var/lib/gpu/lock".
Definition play1 (s : gmap nat Call * kernel) (t : turn) : gmap nat Call * kernel :=
  let '(calls, w) := s in
  match t with
  | Begin i => if bool_decide (calls !! i = None) then (<[i := Entry]> calls, w) else s
  | Next i wake =>
      match calls !! i with
      | Some c => let '(c', w') := lockStep locker wake c w in (<[i := c']> calls, w')
      | None => s
      end
  | Kill i =>
      match calls !! i with
      | Some c => (<[i := Gone]> calls, match callFd c with Some fd => snd (fd_Close fd w) | None => w end)
      | None => s
      end
  end.
Definition play : list turn → gmap nat Call * kernel := foldl play1 (∅, mkKernel [] None).

Lemma play_reachable ts : rtc (sysStep locker) (∅, mkKernel [] None) (play ts).
Proof.
  unfold play. generalize (∅ : gmap nat Call, mkKernel [] None). induction ts as [|t ts IH]; intros s; [done|].
  cbn [foldl]. assert (rtc (sysStep locker) s (play1 s t)) as Ht; [|by etrans; [exact Ht|apply IH]].
  destruct s as [calls w], t as [i|i wake|i]; simpl.
  - case_bool_decide; [|done]. by apply rtc_once, sys_begin.
  - destruct (calls !! i) as [c|] eqn:Hc; [|done]. apply rtc_once.
    pose proof (sys_step locker calls w i c wake Hc) as Hs. by destruct (lockStep locker wake c w).
  - destruct (calls !! i) as [c|] eqn:Hc; [|done]. apply rtc_once. exact (sys_kill locker calls w i c Hc).
Qed.

(** Two calls: the first gets the lock, the second is refused and sleeps. *)
Definition contended : gmap nat Call * kernel := Eval vm_compute in
  play [Begin 0; Begin 1; Next 0 None; Next 1 None; Next 0 None; Next 1 None].

Lemma contended_reachable : rtc (sysStep locker) (∅, mkKernel [] None) (fst contended, snd contended).
Proof.
  replace (fst contended, snd contended) with (play [Begin 0; Begin 1; Next 0 None; Next 1 None; Next 0 None; Next 1 None])
    by (vm_compute; reflexivity). apply play_reachable.
Qed.

Lemma lock_exclusive_witness : fst contended !! 1%nat = Some (Sleeping 2) ∧ own (snd contended) = Some 1.
Proof.
  split; [vm_compute; reflexivity|].
  refine (proj2 (lock_exclusive locker (mkKernel [] None) (fst contended) (snd contended) 0 0 1 1 _ _ _ _)).
  - reflexivity.
  - apply contended_reachable.
  - vm_compute. reflexivity.
  - vm_compute. reflexivity.
Defined.

(** The holder is killed: the sleeper gets the lock. *)
Definition orphaned : gmap nat Call * kernel := Eval vm_compute in
  play [Begin 0; Begin 1; Next 0 None; Next 1 None; Next 0 None; Next 1 None; Kill 0].

Lemma orphaned_reachable : rtc (sysStep locker) (∅, mkKernel [] None) (fst orphaned, snd orphaned).
Proof.
  replace (fst orphaned, snd orphaned) with
    (play [Begin 0; Begin 1; Next 0 None; Next 1 None; Next 0 None; Next 1 None; Kill 0])
    by (vm_compute; reflexivity). apply play_reachable.
Qed.

Lemma orphaned_calls : map_Forall (λ _ d, (∀ f, d ≠ Locked f) ∧ (∀ f e, d ≠ Releasing f e)) (fst orphaned).
Proof.
  replace (fst orphaned) with (<[0%nat := Gone]> {[ 1%nat := Sleeping 2 ]} : gmap nat Call) by (vm_compute; reflexivity).
  apply map_Forall_insert_2; [done|]. by apply map_Forall_singleton.
Qed.

Lemma lock_available_witness : ∃ n, (n ≤ 2)%nat ∧
  let '(c', w') := stepsAlone locker (replicate n None) (Sleeping 2) (snd orphaned) in
  (c' = Locked 2 ∧ owner w' = Some 2) ∨
  ∃ e, c' = Failed (Wrapf "acquire lock: %w" [] e) ∧ errorsIs e EWOULDBLOCK = false.
Proof.
  apply (lock_available locker (mkKernel [] None) (fst orphaned) (snd orphaned) 1 2 (Sleeping 2)).
  - reflexivity.
  - apply orphaned_reachable.
  - vm_compute. reflexivity.
  - right. reflexivity.
  - exact orphaned_calls.
Defined.
End Kernel.

Module Gpu.

(** One GPU.  GPU instances by handle with their placement, compute instances by
    handle with the handle of their GPU instance; an id is the handle. *)
Record hardware := mkHardware { gpus : gmap Z (Z * Z * Z); comps : gmap Z Z }.

Definition unusedGpu (h : hardware) : Z :=
  1 + Z.max (maxKey (gpus h)) (map_fold (λ _ gi acc, Z.max gi acc) 0 (comps h)).
Definition unusedComp (h : hardware) : Z := 1 + maxKey (comps h).

Definition overlaps (d start size : Z) (x : Z * Z * Z) : bool :=
  let '(d', s, z) := x in bool_decide (d' = d ∧ s < start + size ∧ start < s + z).
Definition occupied (gi : Z) (h : hardware) : bool := existsb (λ kv, bool_decide (snd kv = gi)) (map_to_list (comps h)).
Definition pci : string := "0000:65:00.0".

(** [broken] makes the last query of [Prepare] fail. *)
Definition nvmlOf (broken : bool) : Nvml hardware := {|
  nv_SUCCESS := 0; nv_ERROR_ALREADY_INITIALIZED := 5; nv_ERROR_INVALID_ARGUMENT := 2; nv_ERROR_NOT_FOUND := 6;
  nv_DEVICE_MIG_ENABLE := 1; nv_ENGINE_PROFILE_SHARED := 0; nv_COMPUTE_INSTANCE_PROFILE_SLICE n := n - 1;
  nv_ErrorString := Itoa;
  nv_Init h := (0, h); nv_Shutdown h := h;
  nv_DeviceGetHandleByPciBusId p h := (1, if str_eqb p pci then 0 else 6);
  nv_DeviceGetMigMode _ _ := (1, 0);
  nv_DeviceSetMigMode _ _ h := ((0, 0), h);
  nv_GetGpuInstanceProfileInfoById _ p _ := (mkGpuInstanceProfileInfo p 1, 0);
  nv_GetGpuInstances d _ h := (fst <$> filter (λ kv, fst (fst (snd kv)) = d) (map_to_list (gpus h)), 0);
  nv_GpuInstanceGetInfo gi h := match gpus h !! gi with
    | Some (_, s, z) => (mkGpuInstanceInfo gi s z, 0) | None => (mkGpuInstanceInfo 0 0 0, 6) end;
  nv_GetComputeInstances gi _ h := (fst <$> filter (λ kv, snd kv = gi) (map_to_list (comps h)), 0);
  nv_ComputeInstanceGetInfo ci h := match comps h !! ci with
    | Some _ => (mkComputeInstanceInfo ci (100 + ci), 0) | None => (mkComputeInstanceInfo 0 0, 6) end;
  nv_DeviceGetUUID d h := ("MIG-" +:+ Itoa d, if broken then 999 else 0);
  nv_CreateGpuInstanceWithPlacement d _ pl h :=
    if existsb (λ kv, overlaps d (fst pl) (snd pl) (snd kv)) (map_to_list (gpus h)) then ((0, 20), h)
    else ((unusedGpu h, 0), mkHardware (<[unusedGpu h := (d, fst pl, snd pl)]> (gpus h)) (comps h));
  nv_GetComputeInstanceProfileInfo _ p _ _ := (mkComputeInstanceProfileInfo p 1, 0);
  nv_CreateComputeInstanceWithPlacement gi _ _ h :=
    ((unusedComp h, 0), mkHardware (gpus h) (<[unusedComp h := gi]> (comps h)));
  nv_ComputeInstanceDestroy ci h := match comps h !! ci with
    | Some _ => (0, mkHardware (gpus h) (delete ci (comps h))) | None => (6, h) end;
  nv_GpuInstanceDestroy gi h := match gpus h !! gi with
    | None => (6, h)
    | Some _ => if occupied gi h then (19, h) else (0, mkHardware (delete gi (gpus h)) (comps h)) end;
  nv_DeviceGetGpuInstanceById d id h := match gpus h !! id with
    | Some (d', _, _) => if bool_decide (d' = d) then (id, 0) else (0, 6) | None => (0, 6) end;
  nv_GpuInstanceGetComputeInstanceById gi id h :=
    if bool_decide (comps h !! id = Some gi) then (id, 0) else (0, 6);
|}.

Definition gpuView (h : hardware) : gmap Z GpuInst :=
  map_imap (λ k x, let '(d, s, z) := x in Some (mkGpuInst d k s z)) (gpus h).
Definition compView (h : hardware) : gmap Z CompInst := map_imap (λ k gi, Some (mkCompInst gi k)) (comps h).

Lemma gpuView_Some h k x : gpuView h !! k = Some x ↔ gpus h !! k = Some (gi_device x, gi_start x, gi_size x) ∧ gi_id x = k.
Proof.
  unfold gpuView. rewrite map_lookup_imap. destruct (gpus h !! k) as [[[d s] z]|]; simpl; [|naive_solver].
  destruct x as [d' i s' z']. naive_solver.
Qed.
Lemma compView_Some h k y : compView h !! k = Some y ↔ comps h !! k = Some (ci_gpu y) ∧ ci_id y = k.
Proof.
  unfold compView. rewrite map_lookup_imap. destruct (comps h !! k) as [gi|]; simpl; [|naive_solver].
  destruct y as [gi' i]. naive_solver.
Qed.

Lemma occupied_spec gi h : occupied gi h = true ↔ ∃ ci, comps h !! ci = Some gi.
Proof.
  unfold occupied. rewrite existsb_exists. split.
  - intros ([ci gi'] & Hin%list_elem_of_In%elem_of_map_to_list & Hb). apply bool_decide_eq_true in Hb. simpl in Hb. subst. eauto.
  - intros [ci Hci]. exists (ci, gi). split; [by apply list_elem_of_In, elem_of_map_to_list|by apply bool_decide_eq_true].
Qed.

Lemma unusedGpu_fresh h : gpus h !! unusedGpu h = None ∧ ∀ ci gi, comps h !! ci = Some gi → gi ≠ unusedGpu h.
Proof.
  split.
  - destruct (gpus h !! unusedGpu h) eqn:He; [|done]. apply maxKey_ge in He. unfold unusedGpu in He. lia.
  - intros ci gi Hci ->. assert (∀ m : gmap Z Z, m !! ci = Some (unusedGpu h) →
      unusedGpu h ≤ map_fold (λ _ gi acc, Z.max gi acc) 0 m) as Hmax.
    { intros m. induction m as [|i y m Hi Hf IH] using map_first_key_ind; [done|]. intros Hm.
      rewrite map_fold_insert_first_key by done. destruct (decide (ci = i)) as [->|].
      - rewrite lookup_insert_eq in Hm. simplify_eq. lia.
      - rewrite lookup_insert_ne in Hm by done. specialize (IH Hm). lia. }
    specialize (Hmax _ Hci). unfold unusedGpu in Hmax at 1. lia.
Qed.

Lemma unusedComp_fresh h : comps h !! unusedComp h = None.
Proof. destruct (comps h !! unusedComp h) eqn:He; [|done]. apply maxKey_ge in He. unfold unusedComp in He. lia. Qed.

#[export] Instance nvmlLaws broken : @NvmlLaws hardware (nvmlOf broken).
Proof.
  refine {| gpuInsts := gpuView; compInsts := compView; deviceAt _ := 1 |}; simpl.
  - done.
  - intros g h h' x x' [_ <-]%gpuView_Some [_ <-]%gpuView_Some. done.
  - intros g h h' y y' [_ <-]%compView_Some [_ <-]%compView_Some. done.
  - done.
  - done.
  - done.
  - intros p h d. by intros [= <-].
  - intros d p h l [= <-] gi ([k [[d' s] z]] & -> & [Hd Hin]%list_elem_of_filter)%list_elem_of_fmap. simpl in Hd. subst d'.
    exists (mkGpuInst d k s z). rewrite gpuView_Some. by apply elem_of_map_to_list in Hin.
  - intros gi h info. destruct (gpus h !! gi) as [[[d s] z]|] eqn:Hg; intros [= <-]. exists d. by rewrite gpuView_Some.
  - intros gi p h l [= <-] ci ([k gi'] & -> & [Hg Hin]%list_elem_of_filter)%list_elem_of_fmap. simpl in Hg. subst gi'.
    exists (mkCompInst gi k). rewrite compView_Some. by apply elem_of_map_to_list in Hin.
  - intros ci h info. destruct (comps h !! ci) as [gi|] eqn:Hc; intros [= <-]. exists gi. by rewrite compView_Some.
  - intros d p pl h gi ret h'. destruct (existsb _ _); intros [= <- <- <-]; simpl; [done|].
    destruct (unusedGpu_fresh h) as [H1 H2]. split; [unfold gpuView; by rewrite map_lookup_imap, H1|].
    split; [intros ci y [Hy _]%compView_Some; by eapply H2|]. split; [done|]. exists (unusedGpu h).
    unfold gpuView. simpl. by erewrite map_imap_insert_Some.
  - intros gi p pl h ci ret h' [= <- <- <-]. simpl. pose proof (unusedComp_fresh h) as Hf.
    split; [unfold compView; by rewrite map_lookup_imap, Hf|]. split; [done|]. exists (unusedComp h).
    unfold compView. simpl. by erewrite map_imap_insert_Some.
  - intros ci h ret h'. destruct (comps h !! ci) eqn:Hc; intros [= <- <-]; simpl; [|done]. split; [done|].
    unfold compView. simpl. by rewrite map_imap_delete.
  - intros gi h ret h'. destruct (gpus h !! gi) as [[[d s] z]|] eqn:Hg; [|intros [= <- <-]; simpl; split; [done|]].
    + destruct (occupied gi h); intros [= <- <-]; simpl; [done|]. split; [|done]. unfold gpuView. simpl. by rewrite map_imap_delete.
    + intros _. unfold gpuView. by rewrite map_lookup_imap, Hg.
  - intros d id h gi ret. destruct (gpus h !! id) as [[[d' s] z]|] eqn:Hg; [case_bool_decide as Hd'; [subst d'|]|];
      intros [= <- <-]; split; try done.
    + intros _. exists (mkGpuInst d id s z). by rewrite gpuView_Some.
    + intros _ k x [Hk <-]%gpuView_Some Hd Hid. subst id. rewrite Hg in Hk. congruence.
    + intros _ k x [Hk <-]%gpuView_Some Hd Hid. subst id. congruence.
  - intros gi id h ci ret. case_bool_decide as Hc; intros [= <- <-]; split; try done.
    + intros _. by rewrite compView_Some.
    + intros _ k y [Hk <-]%compView_Some Hd Hid. subst id. congruence.
Defined.

Definition request : MigPrepareRequest := mkMigPrepareRequest pci 19 2 1.
Definition other : hardware := mkHardware {[ 1 := (1, 0, 2) ]} {[ 1 := 1 ]}.
Definition prepared : PreparedMigDevice := mkPreparedMigDevice pci 19 2 1 2 2 "MIG-102".
Definition made : hardware := mkHardware {[ 1 := (1, 0, 2); 2 := (1, 2, 1) ]} {[ 1 := 1; 2 := 2 ]}.

Example made_prepared : @Mig_Prepare hardware (nvmlOf false) true request other = (Ok prepared, made).
Proof. vm_compute. reflexivity. Qed.

(** The last query fails: both instances are destroyed again. *)
Example failed_clean : @Mig_Prepare hardware (nvmlOf true) true request other = (Err (Errorf "get mig uuid: %s" ["999"]), other).
Proof. vm_compute. reflexivity. Qed.

(** A second call finds the instance. *)
Example found_again : @Mig_Prepare hardware (nvmlOf false) true request made = (Ok prepared, made).
Proof. vm_compute. reflexivity. Qed.


(** A GPU instance without a compute instance, left behind by a process that was
    killed between the two, is not found and not removed, and keeps its
    placement: every later call for the placement fails. *)
Definition half : hardware := mkHardware {[ 2 := (1, 2, 1) ]} ∅.
Example half_blocks : @Mig_Prepare hardware (nvmlOf false) true request half = (Err (Errorf "create gpu instance: %s" ["20"]), half).
Proof. vm_compute. reflexivity. Qed.
End Gpu.

Module Daemons.

Definition adapter : MpsAdapter := mkMpsAdapter "/usr/bin/nvidia-cuda-mps-control" "/plugins/gpu" "" "/dev/shm".
Definition control : string := "ctl-1".

(** Whether a control daemon is running. *)
Definition running (h : list hostEvent) : bool := foldl (λ r ev, match ev with
  | HRun c (Ok _) => if bool_decide (cmd_Args c = ["-d"]) then true
                     else if HasPrefix (cmd_Stdin c) "quit" then false else r
  | _ => r end) false h.

(** A host with one daemon: a second one does not start while it runs.
    [refuses] says which commands the daemon refuses. *)
Definition hostOf (refuses : string) : Host := {|
  host_MkdirAll _ _ := Ok ();
  host_Run h c :=
    if bool_decide (cmd_Args c = ["-d"]) then if running h then Err (External 1) else Ok ""
    else if negb (str_eqb refuses "") && HasPrefix (cmd_Stdin c) refuses then Err (External 2) else Ok "";
  host_WriteFile _ _ _ := Ok ();
  host_RemoveAll _ _ := Ok ();
  host_Exists h p := if str_eqb p (startupLogOf adapter control) then ready adapter control h else false;
  host_IsRegularFile _ := false; host_IsDir _ := false; host_LookPath _ := Err (External 2);
  host_Environ := ["PATH=/bin"];
  host_Output e := match e with External 1 => "An instance of this daemon is already running" | _ => "refused" end;
|}.

Definition config : MpsConfig int_quantity := mkMpsConfig (Some 50) None ∅.
Definition daemonRequest : MpsPrepareRequest int_quantity := mkMpsPrepareRequest control ["GPU-a"; " GPU-a"; "GPU-b"] (Some config).
Definition start (refuses : string) := @Mps_Start int_quantity _ (hostOf refuses) map_to_list (Some adapter) daemonRequest.
Definition state : PreparedMpsState :=
  mkPreparedMpsState control "/plugins/gpu/mps/ctl-1/pipe" "/dev/shm" "/plugins/gpu/mps/ctl-1/log".
Definition after1 : list hostEvent := Eval vm_compute in snd (snd (start "" () [])).
Definition after2 : list hostEvent := Eval vm_compute in
  snd (snd (@Mps_Stop (hostOf "") (Some adapter) state () after1)).

Lemma adapter_marks refuses : @marks (hostOf refuses) adapter control.
Proof. intros h. cbn [host_Exists hostOf]. by rewrite str_eqb_refl. Qed.

(** A daemon is started, configured, marked, told to quit, and its mark is
    gone. *)
Lemma mps_lifecycle_witness : length after1 = 5%nat ∧ ready adapter control after1 = true ∧ ready adapter control after2 = false.
Proof.
  destruct (@mps_lifecycle int_quantity _ (hostOf "") map_to_list adapter daemonRequest state [] after1) as (_ & _ & Hr & Hstop).
  - apply adapter_marks.
  - vm_compute. reflexivity.
  - vm_compute. reflexivity.
  - split; [vm_compute; reflexivity|]. split; [exact Hr|]. apply (Hstop after2). vm_compute. reflexivity.
Defined.

(** A daemon that refuses its configuration keeps running without a mark, and no
    later [Start] succeeds: the second daemon does not start. *)
Definition refused : list hostEvent := Eval vm_compute in snd (snd (start "set_default" () [])).
Example start_refused : fst (start "set_default" () []) =
    Err (Errorf "MPS command %q failed: %s" ["set_default_active_thread_percentage 50"; "refused"]) ∧
  running refused = true ∧ ready adapter control refused = false ∧
  fst (start "" () refused) = Err (Errorf "start MPS control daemon: %s" ["An instance of this daemon is already running"]).
Proof. vm_compute. done. Qed.

(** Time slices of two GPUs: four commands. *)
Example time_slices : length (snd (snd (@SetTimeSlice (hostOf "") (Some (mkTimeSlicingAdapter "/usr/bin/nvidia-smi" ""))
  [" GPU-a"; "GPU-b"; "GPU-a"; ""] (Some (mkTimeSlicingConfig (Some ShortTimeSlice))) () []))) = 4%nat.
Proof. vm_compute. reflexivity. Qed.
End Daemons.
