(* ===== verification/RewriterSim.v ===== *)
(** * What the helpers of the rewriter do to documents

    For any JSON library with the documented behaviour, each helper of
    transformers.go, list.go and map.go is an edit of the document its text
    denotes.  These are the lemmas through which the rewriters of payloads are
    proved. *)

From S2P Require Import Prelude GoLib RwNames Json RwRules Rewriter JsonText.

(** ** Document functions *)

Definition jstr (f : string → string) (x : json) : json :=
  match x with JString t => JString (f t) | _ => x end.
Definition jarr (f : json → json) (x : json) : json :=
  match x with JArray l => JArray (f <$> l) | _ => x end.

(** The entries of an object of strings. *)
Definition strEntries (fs : list (string * json)) : list (string * string) :=
  (λ kv, (fst kv, default "" (jtext (Some (snd kv))))) <$> fs.

Definition fillMap (fn : string → string → string * string) (l : list (string * string)) : gmap string string :=
  foldl (λ m '(k, v), let '(k', v') := fn k v in <[k' := v']> m) ∅ l.

Definition jlabels (fn : string → string → string * string) (x : json) : json :=
  match x with
  | JObject ((_ :: _) as fs) => marshal (GoMap (fillMap fn (strEntries fs)))
  | _ => x
  end.

(** ** Shapes of values *)

Definition at_path (ks : list string) (P : json → Prop) (j : json) : Prop := ∀ x, jget ks j = Some x → P x.
Definition isStr (x : json) : Prop := ∃ t, x = JString t.
Definition arrOf (P : json → Prop) (x : json) : Prop := x = JNull ∨ ∃ l, x = JArray l ∧ Forall P l.

(** An object of strings as the API server prints it, whose names stay apart. *)
Definition mapOf (fn : string → string → string * string) (x : json) : Prop :=
  ∃ m, x = marshal (GoMap m) ∧ NoDup ((λ nv, fst (uncurry fn nv)) <$> map_to_list m).

Lemma rewriteMap_fill fn l : rewriteMap (Some l) fn = Some (fillMap fn l).
Proof. reflexivity. Qed.

Lemma fillMap_perm fn l l' : NoDup ((λ nv, fst (uncurry fn nv)) <$> l) → l ≡ₚ l' → fillMap fn l = fillMap fn l'.
Proof.
  intros Hnd Hp. apply map_eq. intros o. apply option_eq. intros w.
  rewrite (lookup_rewriteMap fn l _ (rewriteMap_fill fn l) Hnd).
  rewrite (lookup_rewriteMap fn l' _ (rewriteMap_fill fn l')) by (by rewrite <- Hp). by setoid_rewrite Hp.
Qed.

(** The entries of a marshalled map, in sorted order. *)
Definition sorted_entries (m : gmap string string) : list (string * string) := merge_sort key_le (map_to_list m).

Lemma sorted_entries_perm m : sorted_entries m ≡ₚ map_to_list m.
Proof. apply merge_sort_Permutation. Qed.

Lemma strEntries_marshal l : strEntries (prod_map id JString <$> l) = l.
Proof. induction l as [|[k v] l IH]; csimpl; [done|]. by f_equal. Qed.

Lemma jlabels_marshal fn m : m ≠ ∅ →
  jlabels fn (marshal (GoMap m)) = marshal (GoMap (fillMap fn (sorted_entries m))).
Proof.
  intros Hm. cbn [marshal]. fold (sorted_entries m). unfold jentries, jlabels.
  destruct (prod_map id JString <$> sorted_entries m) as [|kv fs] eqn:E.
  - apply fmap_nil_inv in E. pose proof (sorted_entries_perm m) as Hp. rewrite E in Hp.
    symmetry in Hp. apply Permutation_nil_r in Hp. by apply map_to_list_empty_iff in Hp.
  - rewrite <- E. by rewrite strEntries_marshal.
Qed.

Lemma jlabels_empty fn : jlabels fn (marshal (GoMap ∅)) = marshal (GoMap ∅).
Proof. cbn [marshal]. by rewrite map_to_list_empty. Qed.

(** ** Simulation *)
Section Sim.
Context `{HL : JsonLib} {HW : JsonLaws}.

Definition simulates (F : string → res string) (f : json → json) (j : json) : Prop :=
  ∀ s, rep s j → ∃ s', F s = Ok s' ∧ rep s' (f j).

Lemma simulates_bind F G f g j : simulates F f j → simulates G g (f j) →
  simulates (λ s, t ← F s; G t) (λ x, g (f x)) j.
Proof.
  intros HF HG s Hs. destruct (HF s Hs) as (t & Ht & Hrt). destruct (HG t Hrt) as (u & Hu & Hru).
  exists u. by rewrite Ht.
Qed.

Lemma simulates_ext F f g j : f j = g j → simulates F f j → simulates F g j.
Proof. intros Heq HF s Hs. rewrite <- Heq. by apply HF. Qed.

Lemma get_text s j path ks t : rep s j → path_keys path = Some ks → jget ks j = Some (JString t) →
  r_String (gjson_GetBytes s path) = t.
Proof. intros Hs Hks Hg. eapply repR_text; [by eapply rep_get|]. by rewrite Hg. Qed.

Lemma sim_set path ks v x j : path_keys path = Some ks → jget ks j = Some x →
  simulates (λ s, sjson_SetBytes s path v) (jat ks (λ _, marshal v)) j.
Proof.
  intros Hks Hx s Hs. apply (rep_set s j path ks v); [done|done|].
  apply (jset_jat ks (λ _, marshal v) j x); [by eapply rep_wf|done].
Qed.

Lemma sim_TransformString path ks f j : path_keys path = Some ks → at_path ks isStr j →
  simulates (λ s, TransformString s path f) (jat ks (jstr f)) j.
Proof.
  intros Hks Hstr s Hs. pose proof (rep_wf s j Hs) as Hwf. unfold TransformString.
  rewrite (repR_exists _ _ (rep_get s j path ks Hs Hks)). destruct (jget ks j) as [x|] eqn:Hx.
  - destruct (Hstr x Hx) as [t ->]. rewrite bool_decide_eq_true_2 by eauto. simpl.
    rewrite (get_text s j path ks t) by done. destruct (sim_set path ks (GoString (f t)) _ j Hks Hx s Hs) as (s' & -> & Hs').
    exists s'. split; [done|]. rewrite (jat_ext ks _ (λ _, JString (f t))); [done|done|]. intros y Hy. by simplify_eq.
  - rewrite bool_decide_eq_false_2 by (by intros []). simpl. exists s. by rewrite jat_absent.
Qed.

Lemma sim_TransformObject path ks F f j : path_keys path = Some ks →
  (∀ x, jisObject (Some x) = false → f x = x) → at_path ks (simulates F f) j →
  simulates (λ s, TransformObject s path F) (jat ks f) j.
Proof.
  intros Hks Hf HF s Hs. pose proof (rep_wf s j Hs) as Hwf. unfold TransformObject.
  pose proof (rep_get s j path ks Hs Hks) as Hr. rewrite (repR_isObject _ _ Hr).
  destruct (jisObject (jget ks j)) eqn:Hobj; simpl.
  - destruct (jget ks j) as [x|] eqn:Hx; [|done].
    destruct (HF x Hx _ (repR_raw _ x Hr)) as (t & -> & Ht). simpl.
    apply (rep_setRaw s j path ks t (f x)); [done|done|done|]. by apply jset_jat.
  - exists s. split; [done|]. rewrite jat_id; [done|done|]. intros x Hx. apply Hf. by rewrite <- Hx.
Qed.

Lemma sim_TransformArrayOfStrings path ks f j : path_keys path = Some ks → at_path ks (arrOf isStr) j →
  simulates (λ s, TransformArrayOfStrings s path f) (jat ks (jarr (jstr f))) j.
Proof.
  intros Hks Harr s Hs. pose proof (rep_wf s j Hs) as Hwf. unfold TransformArrayOfStrings.
  pose proof (repR_array _ _ (rep_get s j path ks Hs Hks)) as Hr. set (items := r_Array _) in *. clearbody items.
  assert (jarray (jget ks j) = [] → ∃ s', Ok s = Ok s' ∧ rep s' (jat ks (jarr (jstr f)) j)) as Hnil.
  { intros Hj. exists s. split; [done|]. rewrite jat_id; [done|done|]. intros x Hx. rewrite Hx in Hj.
    destruct (Harr x Hx) as [->|(l & -> & _)]; [done|]. simpl in *. by subst. }
  destruct (jget ks j) as [x|] eqn:Hx; [|simpl in *; inversion Hr; subst; by apply Hnil].
  destruct (Harr x Hx) as [->|(l & -> & Hl)]; [simpl in *; inversion Hr; subst; by apply Hnil|]. simpl in *.
  destruct items as [|item items]; [inversion Hr; subst; by apply Hnil|]. cbn [list_len0].
  destruct (sim_set path ks (GoStrings (Some ((λ item, f (r_String item)) <$> (item :: items)))) _ j Hks Hx s Hs) as (s' & -> & Hs').
  exists s'. split; [done|]. rewrite (jat_ext ks _ (λ _, marshal (GoStrings (Some ((λ item, f (r_String item)) <$> (item :: items))))));
    [done|done|]. intros y Hy. simplify_eq. cbn [jarr marshal jstrings]. unfold jstrings. f_equal. clear Hnil Hs' Hx.
  induction Hr as [|r x rs xs Hrx _ IH]; [done|]. apply Forall_cons in Hl as [[t ->] Hl']. csimpl.
  rewrite (repR_text r _ t Hrx) by done. f_equal. by apply IH.
Qed.

Lemma sim_items F f items l : Forall2 (λ r x, repR r (Some x)) items l → Forall (simulates F f) l →
  ∃ ts, rewriteItems (λ s, Some <$> F s) items = Ok ts ∧ Forall2 rep ts (f <$> l).
Proof.
  induction 1 as [|r x items l Hrx _ IH]; intros Hl; [exists []; split; constructor|].
  inversion_clear Hl as [|?? Hx Hl']. destruct (IH Hl') as (ts & Hts & Hrep).
  destruct (Hx _ (repR_raw r x Hrx)) as (t & Ht & Hrt). exists (t :: ts). simpl. rewrite Ht. simpl. rewrite Hts.
  split; [done|]. by constructor.
Qed.

Lemma sim_RewriteArray path ks F f j : path_keys path = Some ks → path ≠ Root →
  at_path ks (arrOf (simulates F f)) j →
  simulates (λ s, RewriteArray s path (λ item, Some <$> F item)) (jat ks (jarr f)) j.
Proof.
  intros Hks Hroot Harr s Hs. pose proof (rep_wf s j Hs) as Hwf. unfold RewriteArray, GetBytes, SetRawBytes.
  replace (str_eqb path Root) with false by (symmetry; by apply str_eqb_false).
  pose proof (repR_array _ _ (rep_get s j path ks Hs Hks)) as Hr. set (items := r_Array _) in *. clearbody items.
  assert (jarray (jget ks j) = [] → ∃ s', Ok s = Ok s' ∧ rep s' (jat ks (jarr f) j)) as Hnil.
  { intros Hj. exists s. split; [done|]. rewrite jat_id; [done|done|]. intros x Hx. rewrite Hx in Hj.
    destruct (Harr x Hx) as [->|(l & -> & _)]; [done|]. simpl in *. by subst. }
  destruct (jget ks j) as [x|] eqn:Hx; [|simpl in *; inversion Hr; subst; by apply Hnil].
  destruct (Harr x Hx) as [->|(l & -> & Hl)]; [simpl in *; inversion Hr; subst; by apply Hnil|]. simpl in Hr.
  destruct (list_len0 items) eqn:Hlen; [apply list_len0_true in Hlen; subst; inversion Hr; subst; by apply Hnil|].
  destruct (sim_items F f items l Hr Hl) as (ts & -> & Hts). simpl.
  apply (rep_setRaw s j path ks _ (JArray (f <$> l))); [done|done|by apply rep_array|].
  by apply (jset_jat ks (jarr f) j (JArray l)).
Qed.

(** The keys of the map are visited in any order. *)
Lemma map_entries r m : repR r (Some (marshal (GoMap m))) →
  ((λ kr, (fst kr, r_String (snd kr))) <$> r_Map r) ≡ₚ map_to_list m.
Proof.
  intros Hr. destruct (repR_map _ _ Hr) as (fs & Hp & Hf2). cbn [jmap marshal jentries] in Hp. unfold jentries in Hp.
  simpl in Hp. apply Permutation_map_inv in Hp as (l & -> & Hl).
  rewrite <- sorted_entries_perm. unfold sorted_entries. rewrite Hl. clear Hr Hl. apply reflexive_eq. revert Hf2. generalize (r_Map r).
  induction l as [|[k v] l IH]; intros rs Hf2; [by inversion Hf2|].
  inversion_clear Hf2 as [|[k' x] ? rs' ? [Hk Hrx] Hf2']. csimpl in *. subst k'.
  rewrite (repR_text x _ v Hrx) by done. f_equal. by apply IH.
Qed.

Lemma sim_RewriteMap path ks fn j : path_keys path = Some ks → at_path ks (mapOf fn) j →
  simulates (λ s, RewriteMapStringString s path fn) (jat ks (jlabels fn)) j.
Proof.
  intros Hks Hmap s Hs. pose proof (rep_wf s j Hs) as Hwf. unfold RewriteMapStringString.
  pose proof (rep_get s j path ks Hs Hks) as Hr. destruct (jget ks j) as [x|] eqn:Hx.
  2: { destruct (repR_map _ _ Hr) as (fs & Hp & Hf2). apply Permutation_nil_r in Hp as ->. inversion Hf2. simpl.
       exists s. by rewrite jat_absent. }
  destruct (Hmap x Hx) as (m & -> & Hnd). pose proof (map_entries _ m Hr) as Hent.
  set (rm := r_Map _) in *. clearbody rm.
  assert (foldl (λ newMap '(k, v), let '(newK, newV) := fn k (r_String v) in <[newK := newV]> newMap) ∅ rm
    = fillMap fn ((λ kr, (fst kr, r_String (snd kr))) <$> rm)) as ->.
  { unfold fillMap. generalize (∅ : gmap string string). clear. induction rm as [|[k v] rm IH]; intros acc; csimpl; [done|].
    by rewrite IH. }
  destruct (decide (m = ∅)) as [->|Hm].
  { rewrite map_to_list_empty in Hent. apply Permutation_nil_r, fmap_nil_inv in Hent as ->. simpl.
    exists s. split; [done|]. rewrite jat_id; [done|done|]. intros y Hy. simplify_eq. apply jlabels_empty. }
  replace (list_len0 rm) with false.
  2: { destruct rm; [|done]. symmetry in Hent. apply Permutation_nil_r, map_to_list_empty_iff in Hent. done. }
  destruct (sim_set path ks (GoMap (fillMap fn ((λ kr, (fst kr, r_String (snd kr))) <$> rm))) _ j Hks Hx s Hs) as (s' & -> & Hs').
  exists s'. split; [done|]. rewrite (jat_ext ks _ (λ _, marshal (GoMap (fillMap fn ((λ kr, (fst kr, r_String (snd kr))) <$> rm)))));
    [done|done|]. intros y Hy. simplify_eq. rewrite jlabels_marshal by done. do 2 f_equal.
  symmetry. apply fillMap_perm; [by rewrite Hent|]. by rewrite Hent, sorted_entries_perm.
Qed.
End Sim.
