(* ===== verification/RewriterSpec.v ===== *)
(** * A client that reads an object and writes it back does not change it

    For coherent rules, a custom resource restored for a client and renamed on
    its way back is, as a document, the object the API server stores: group
    and kind, managed fields, labels, annotations, finalizers and owners. *)

From S2P Require Import Prelude GoLib RwNames Json RwRules Rewriter RewriterRbac RuleRewriter JsonText RewriterSim.

From Stdlib Require Import Ascii.

(** ** Coherent rules *)

Definition groupRule (e : string * APIGroupRule) : GroupRule := agr_GroupRule (snd e).

(** A group is listed under its own name, renamed groups are distinct and are
    no original groups. *)
Definition coherentGroups (cfg : RulesConfig) : Prop :=
  NoDup (fst <$> rc_Rules cfg) ∧ NoDup ((λ e, gr_Renamed (groupRule e)) <$> rc_Rules cfg) ∧
  Forall (λ e, gr_Group (groupRule e) = fst e ∧ free_of "/"%char (fst e) = true ∧
               free_of "/"%char (gr_Renamed (groupRule e)) = true ∧
               gr_Renamed (groupRule e) ∉ fst <$> rc_Rules cfg) (rc_Rules cfg).

Definition coherentRules (cfg : RulesConfig) : Prop :=
  coherentGroups cfg ∧ coherent (rc_Labels cfg) ∧ coherent (rc_Annotations cfg) ∧ coherent (rc_Finalizers cfg).

#[export] Instance coherentRules_dec cfg : Decision (coherentRules cfg).
Proof. unfold coherentRules, coherentGroups. apply _. Defined.

(** ** API versions *)
Section Groups.
Context (cfg : RulesConfig) (Hco : coherentGroups cfg).
Let rules := Init cfg.

Lemma index_fill (l : list (string * APIGroupRule)) idx :
  mi_idx (foldl (λ idx '(_, g), AddPair idx (gr_Group (agr_GroupRule g)) (gr_Renamed (agr_GroupRule g))) idx l) =
    foldl (λ m e, <[gr_Group (groupRule e) := gr_Renamed (groupRule e)]> m) (mi_idx idx) l ∧
  mi_reverse (foldl (λ idx '(_, g), AddPair idx (gr_Group (agr_GroupRule g)) (gr_Renamed (agr_GroupRule g))) idx l) =
    foldl (λ m e, <[gr_Renamed (groupRule e) := gr_Group (groupRule e)]> m) (mi_reverse idx) l.
Proof. revert idx. induction l as [|[n g] l IH]; intros idx; [done|]. simpl. destruct (IH (AddPair idx (gr_Group (agr_GroupRule g)) (gr_Renamed (agr_GroupRule g)))) as [-> ->]. done. Qed.

Lemma groups_names : NoDup ((λ e, gr_Group (groupRule e)) <$> rc_Rules cfg).
Proof.
  destruct Hco as (Hnd & _ & Hall). replace ((λ e, gr_Group (groupRule e)) <$> rc_Rules cfg) with (fst <$> rc_Rules cfg); [done|].
  apply list_fmap_ext. intros i e He. rewrite Forall_forall in Hall. symmetry. apply Hall. by eapply list_elem_of_lookup_2.
Qed.

Lemma groups_idx g r : mi_idx (rw_apiGroupsIndex rules) !! g = Some r ↔
  ∃ e, e ∈ rc_Rules cfg ∧ gr_Group (groupRule e) = g ∧ gr_Renamed (groupRule e) = r.
Proof.
  unfold rules, Init. cbn [rw_apiGroupsIndex]. rewrite (proj1 (index_fill _ _)). split.
  - intros [Hm|?]%(lookup_fill_inv (λ e, gr_Group (groupRule e)) (λ e, gr_Renamed (groupRule e))); [cbn in Hm; by rewrite lookup_empty in Hm|done].
  - intros (e & Hin & <- & <-). apply (lookup_fill (λ e, gr_Group (groupRule e)) (λ e, gr_Renamed (groupRule e))), Hin. apply groups_names.
Qed.

Lemma groups_reverse r g : mi_reverse (rw_apiGroupsIndex rules) !! r = Some g ↔
  ∃ e, e ∈ rc_Rules cfg ∧ gr_Renamed (groupRule e) = r ∧ gr_Group (groupRule e) = g.
Proof.
  unfold rules, Init. cbn [rw_apiGroupsIndex]. rewrite (proj2 (index_fill _ _)). split.
  - intros [Hm|?]%(lookup_fill_inv (λ e, gr_Renamed (groupRule e)) (λ e, gr_Group (groupRule e))); [cbn in Hm; by rewrite lookup_empty in Hm|done].
  - intros (e & Hin & <- & <-). apply (lookup_fill (λ e, gr_Renamed (groupRule e)) (λ e, gr_Group (groupRule e))), Hin. apply Hco.
Qed.

Lemma entry_None {V} (m : list (string * V)) k : entry m k = None ↔ k ∉ fst <$> m.
Proof.
  unfold entry. induction m as [|[k' v] m IH]; csimpl; [set_solver|]. destruct (str_eqb k' k) eqn:E; go_bool; set_solver.
Qed.

Lemma HasGroup_false av : HasGroup rules av = false ↔ groupOf av ∉ fst <$> rc_Rules cfg.
Proof.
  unfold HasGroup, rules, Init. cbn [rw_cfg]. rewrite bool_decide_eq_false, <- eq_None_not_Some. apply entry_None.
Qed.

(** The group part alone is restored and renamed. *)
Lemma group_roundtrip g : g ∉ fst <$> rc_Rules cfg →
  mi_Rename (rw_apiGroupsIndex rules) (mi_Restore (rw_apiGroupsIndex rules) g) = g ∧
  (mi_Restore (rw_apiGroupsIndex rules) g = g ∨ free_of "/"%char (mi_Restore (rw_apiGroupsIndex rules) g) = true).
Proof.
  intros Hg. destruct Hco as (_ & _ & Hall). rewrite Forall_forall in Hall. unfold mi_Restore, mi_Rename.
  destruct (mi_reverse (rw_apiGroupsIndex rules) !! g) as [o|] eqn:Hr; cbn [default from_option id].
  - apply groups_reverse in Hr as (e & He & <- & <-). destruct (Hall e He) as (Hn & Hf & _).
    replace (mi_idx _ !! gr_Group (groupRule e)) with (Some (gr_Renamed (groupRule e))); [split; [done|right; by rewrite Hn]|].
    symmetry. apply groups_idx. eauto.
  - destruct (mi_idx (rw_apiGroupsIndex rules) !! g) eqn:Hi; [|split; [done|by left]].
    apply groups_idx in Hi as (e & He & <- & _). destruct (Hall e He) as (Hn & _). destruct Hg. rewrite Hn.
    by apply list_elem_of_fmap_2.
Qed.

Lemma version_roundtrip av : HasGroup rules av = false → RenameApiVersion rules (RestoreApiVersion rules av) = av.
Proof.
  intros Hg%HasGroup_false. destruct (group_roundtrip _ Hg) as [Hrt Hfree]. unfold groupOf in *.
  unfold RestoreApiVersion. destruct (Cut av "/") as [[g ver] []] eqn:Hc; cbn [negb fst snd] in *.
  - apply (Cut_found av "/") in Hc as [-> Hfg]. unfold RenameApiVersion.
    change ("/" +:+ ver) with (String "/" ver). rewrite Cut_app; [cbn [negb]; by rewrite Hrt|].
    by destruct Hfree as [-> | ->].
  - assert (av = g ∧ free_of "/"%char av = true) as [<- Hfa].
    { unfold Cut in Hc. destruct (cut "/" av) as [[]|] eqn:E; [done|]. simplify_eq. by apply cut_char_None in E. }
    unfold RenameApiVersion, Cut.
    replace (cut "/" (mi_Restore (rw_apiGroupsIndex rules) av)) with (@None (string * string)).
    + cbn [negb]. done.
    + symmetry. apply cut_char_None. by destruct Hfree as [-> | ->].
Qed.

Lemma kind_roundtrip k : RestoreKind rules (RenameKind rules k) = k.
Proof. apply TrimPrefix_app. Qed.
End Groups.

(** ** What the rewriters do to a document *)
Section Documents.
Context (rules : RewriteRules).

Definition versionAs (action : Action) : string → string :=
  match action with Rename => RenameApiVersion rules | Restore => RestoreApiVersion rules end.
Definition kindAs (action : Action) : string → string :=
  match action with Rename => RenameKind rules | Restore => RestoreKind rules end.

(** Whether a group and a kind are rewritten. *)
Definition gvkApplies (action : Action) (v k : string) : bool :=
  match action with
  | Rename => negb (bool_decide (KindRules rules v k = None))
  | Restore => IsRenamedGroup rules v &&
      negb (bool_decide (KindRules rules (RestoreApiVersion rules v) (RestoreKind rules k) = None))
  end.

Definition gvkDoc (action : Action) (x : json) : json :=
  match jget ["kind"] x, jget ["apiVersion"] x with
  | Some (JString k), Some (JString v) =>
      if gvkApplies action v k
      then jats [(["kind"], jstr (kindAs action)); (["apiVersion"], jstr (versionAs action))] x else x
  | _, _ => x
  end.

Definition metaEdits (action : Action) : list edit :=
  [(["labels"], jlabels (byAction (LabelsRewriter rules) action));
   (["annotations"], jlabels (byAction (AnnotationsRewriter rules) action));
   (["finalizers"], jarr (jstr (λ n, Rewrite (FinalizersRewriter rules) n action)));
   (["ownerReferences"], jarr (gvkDoc action))].

Definition under (k : string) (e : edit) : edit := (k :: fst e, snd e).

Definition resourceEdits (action : Action) : list edit :=
  [(["apiVersion"], jstr (versionAs action)); (["kind"], jstr (kindAs action));
   (["metadata"; "managedFields"], jarr (jat ["apiVersion"] (jstr (versionAs action))))].

Definition objectEdits (action : Action) : list edit :=
  resourceEdits action ++ (under "metadata" <$> metaEdits action).

Lemma jat_under k l j : jat [k] (jats l) j = jats (under k <$> l) j.
Proof.
  revert j. induction l as [|e l IH]; intros j.
  - simpl. rewrite <- (jfields_id j) at 2. apply jfields_ext. intros ? k' v _ _. by destruct (str_eqb k k').
  - change (jats (under k <$> e :: l) j) with (jats (under k <$> l) (jat [k] (jat (fst e) (snd e)) j)).
    rewrite <- IH, jat_fuse. reflexivity.
Qed.

(** The shape of owner references and of whole objects. *)
Definition gvkShape (x : json) : Prop := at_path [] (λ x,
  (∃ k, jget ["kind"] x = Some (JString k)) ∧ ∃ v, jget ["apiVersion"] x = Some (JString v)) x.

Definition metaShape (action : Action) (x : json) : Prop :=
  at_path ["labels"] (mapOf (byAction (LabelsRewriter rules) action)) x ∧
  at_path ["annotations"] (mapOf (byAction (AnnotationsRewriter rules) action)) x ∧
  at_path ["finalizers"] (arrOf isStr) x ∧
  at_path ["ownerReferences"] (arrOf gvkShape) x.

Definition resourceShape (x : json) : Prop :=
  gvkShape x ∧ at_path ["metadata"; "managedFields"] (arrOf (at_path ["apiVersion"] isStr)) x.

Lemma at_path_jat ks ks' f P j : diverge ks ks' = true → at_path ks' P j → at_path ks' P (jat ks f j).
Proof. intros Hd HP x. rewrite jget_jat_ne by done. apply HP. Qed.

Lemma arrOf_impl (P R : json → Prop) x : (∀ y, P y → R y) → arrOf P x → arrOf R x.
Proof. intros HPR [?|(l & -> & Hl)]; [by left|right]. exists l. split; [done|]. by eapply Forall_impl. Qed.

Lemma at_path_impl (P R : json → Prop) ks x : (∀ y, P y → R y) → at_path ks P x → at_path ks R x.
Proof. intros HPR HP y Hy. auto. Qed.

Lemma jats_nonobject l x : Forall (λ e, fst e ≠ []) l → jisObject (Some x) = false → jats l x = x.
Proof.
  intros Hl Hx. induction Hl as [|[ks f] l Hks _ IH]; [done|]. simpl in *.
  replace (jat ks f x) with x; [done|]. destruct ks; [done|]. by destruct x.
Qed.

(** ** The code does these edits *)
Context `{HL : JsonLib} {HW : JsonLaws}.

Lemma sim_setStr path k t g (x : json) : path_keys path = Some [k] → jget [k] x = Some (JString t) →
  simulates (λ s, sjson_SetBytes s path (GoString (g t))) (jat [k] (jstr g)) x.
Proof.
  intros Hk Hx s Hs. destruct (sim_set path [k] (GoString (g t)) _ x Hk Hx s Hs) as (s' & Hset & Hs').
  exists s'. split; [done|]. rewrite (jat_ext [k] _ (λ _, JString (g t))); [done|by eapply rep_wf|].
  intros y Hy. by simplify_eq.
Qed.

Lemma sim_gvk action x : gvkShape x →
  simulates (λ s, RewriteAPIVersionAndKind rules s action) (gvkDoc action) x.
Proof.
  intros Hshape s Hs. destruct (Hshape x eq_refl) as [(k & Hk) (v & Hv)].
  unfold RewriteAPIVersionAndKind, RewriteGVK, gvkDoc. rewrite Hk, Hv.
  rewrite (get_text s x "kind" ["kind"] k), (get_text s x "apiVersion" ["apiVersion"] v) by done.
  assert (∀ g h, ∃ s', (obj ← sjson_SetBytes s "kind" (GoString (g k)); sjson_SetBytes obj "apiVersion" (GoString (h v))) = Ok s' ∧
    rep s' (jats [(["kind"], jstr g); (["apiVersion"], jstr h)] x)) as Hset.
  { intros g h. destruct (sim_setStr "kind" "kind" k g x eq_refl Hk s Hs) as (s1 & -> & Hs1). simpl.
    assert (jget ["apiVersion"] (jat ["kind"] (jstr g) x) = Some (JString v)) as Hv1 by (by rewrite jget_jat_ne).
    exact (sim_setStr "apiVersion" "apiVersion" v h _ eq_refl Hv1 s1 Hs1). }
  destruct action; cbn [gvkApplies kindAs versionAs].
  - destruct (IsRenamedGroup rules v); cbn [negb andb]; [|by exists s].
    case_bool_decide; cbn [negb]; [by exists s|]. apply Hset.
  - case_bool_decide; cbn [negb]; [by exists s|]. apply Hset.
Qed.

Lemma sim_metadata action x : metaShape action x →
  simulates (λ s, RewriteMetadata rules s action) (jats (metaEdits action)) x.
Proof.
  intros (Hl & Ha & Hf & Ho). unfold RewriteMetadata.
  apply (simulates_bind (λ s, RewriteLabelsMap rules s "labels" action)
    (λ s, t ← RewriteAnnotationsMap rules s "annotations" action;
          t ← RewriteFinalizers rules t "finalizers" action; RewriteOwnerReferences rules t "ownerReferences" action)
    _ (jats (tail (metaEdits action)))); [by apply sim_RewriteMap|].
  apply (simulates_bind (λ s, RewriteAnnotationsMap rules s "annotations" action)
    (λ t, t ← RewriteFinalizers rules t "finalizers" action; RewriteOwnerReferences rules t "ownerReferences" action)
    _ (jats (drop 2 (metaEdits action)))).
  { apply sim_RewriteMap; [done|]. by apply at_path_jat. }
  apply (simulates_bind (λ t, RewriteFinalizers rules t "finalizers" action)
    (λ t, RewriteOwnerReferences rules t "ownerReferences" action) _ (jats (drop 3 (metaEdits action)))).
  { apply sim_TransformArrayOfStrings; [done|]. by do 2 (apply at_path_jat; [done|]). }
  apply sim_RewriteArray; [done|done|]. do 3 (apply at_path_jat; [done|]).
  eapply at_path_impl, Ho. intros y. apply arrOf_impl. intros z Hz. by apply sim_gvk.
Qed.

Lemma sim_resource action x : resourceShape x →
  simulates (match action with Rename => RenameResource rules | Restore => RestoreResource rules end)
    (jats (resourceEdits action)) x.
Proof.
  intros [Hgvk Hm] s Hs. destruct (Hgvk x eq_refl) as [(k & Hk) (v & Hv)].
  destruct (sim_setStr "apiVersion" "apiVersion" v (versionAs action) x eq_refl Hv s Hs) as (s1 & H1 & Hs1).
  assert (jget ["kind"] (jat ["apiVersion"] (jstr (versionAs action)) x) = Some (JString k)) as Hk1 by (by rewrite jget_jat_ne).
  destruct (sim_setStr "kind" "kind" k (kindAs action) _ eq_refl Hk1 s1 Hs1) as (s2 & H2 & Hs2).
  destruct (sim_RewriteArray "metadata.managedFields" ["metadata"; "managedFields"]
    (λ managedField, TransformString managedField "apiVersion" (versionAs action))
    (jat ["apiVersion"] (jstr (versionAs action))) (jat ["kind"] (jstr (kindAs action)) (jat ["apiVersion"] (jstr (versionAs action)) x))
    eq_refl) with (s := s2) as (s3 & H3 & Hs3); [done| |done|].
  { do 2 (apply at_path_jat; [done|]). eapply at_path_impl, Hm. intros y. apply arrOf_impl. intros z Hz.
    by apply sim_TransformString. }
  exists s3. split; [|exact Hs3].
  destruct action; unfold RenameResource, RestoreResource, RenameAPIVersionAndKind, RestoreAPIVersionAndKind;
    rewrite (get_text s x "apiVersion" ["apiVersion"] v) by done; cbn [versionAs] in *; rewrite H1; cbn [mbind res_bind];
    rewrite (get_text s1 _ "kind" ["kind"] k Hs1 eq_refl Hk1); cbn [kindAs] in *; rewrite H2; cbn [mbind res_bind]; exact H3.
Qed.

(** ** The whole payload of a custom resource *)

Definition builtinKinds : list string :=
  ["APIGroupList"; "APIGroup"; "APIResourceList"; "APIGroupDiscoveryList"; "AdmissionReview";
   "CustomResourceDefinition"; "CustomResourceDefinitionList";
   "MutatingWebhookConfiguration"; "MutatingWebhookConfigurationList";
   "ValidatingWebhookConfiguration"; "ValidatingWebhookConfigurationList"; "Event"; "EventList";
   "ClusterRole"; "ClusterRoleList"; "Role"; "RoleList"; "Deployment"; "DeploymentList";
   "StatefulSet"; "StatefulSetList"; "DaemonSet"; "DaemonSetList"; "Pod"; "PodList";
   "PodDisruptionBudget"; "PodDisruptionBudgetList"; "Job"; "JobList"; "Service"; "ServiceList";
   "PersistentVolumeClaim"; "PersistentVolumeClaimList"; "ServiceMonitor"; "ServiceMonitorList";
   "ValidatingAdmissionPolicyBinding"; "ValidatingAdmissionPolicyBindingList";
   "ValidatingAdmissionPolicy"; "ValidatingAdmissionPolicyList"].

(** A kind of a single object that the rewriter has no special case for. *)
Definition customKind (k : string) : Prop := (k ∉ builtinKinds) ∧ HasSuffix k "List" = false.

Lemma rewriteByKind_custom k obj action : customKind k →
  rewriteByKind rules k obj action = Some <$> RewriteCustomResourceOrList rules obj action.
Proof.
  intros [Hk _]. unfold rewriteByKind.
  assert (∀ l, forallb (λ x, bool_decide (x ∈ builtinKinds)) l = true → existsb (str_eqb k) l = false) as Hno.
  { intros l Hl. apply not_true_is_false. rewrite existsb_exists. intros (k' & Hin & Heq%str_eqb_true). subst k'.
    rewrite forallb_forall in Hl. apply Hk. by apply (bool_decide_eq_true _), Hl. }
  rewrite !Hno by reflexivity. done.
Qed.

Lemma at_path_cons k ks P j : at_path (k :: ks) P j → at_path [k] (at_path ks P) j.
Proof.
  intros HP x Hx y Hy. apply HP. destruct j as [| | | | |fs]; try done. simpl in *.
  destruct (jfield k fs); simpl in *; [by simplify_eq|done].
Qed.

Definition objectShape (action : Action) (j : json) : Prop :=
  resourceShape j ∧
  at_path ["metadata"; "labels"] (mapOf (byAction (LabelsRewriter rules) action)) j ∧
  at_path ["metadata"; "annotations"] (mapOf (byAction (AnnotationsRewriter rules) action)) j ∧
  at_path ["metadata"; "finalizers"] (arrOf isStr) j ∧
  at_path ["metadata"; "ownerReferences"] (arrOf gvkShape) j.

Lemma sim_object action j : objectShape action j →
  simulates (λ s, t ← match action with Rename => RenameResource rules | Restore => RestoreResource rules end s;
    TransformObject t "metadata" (λ metadataObj, RewriteMetadata rules metadataObj action))
    (jats (objectEdits action)) j.
Proof.
  intros (Hr & Hl & Ha & Hf & Ho). unfold objectEdits.
  apply (simulates_ext _ (λ x, jat ["metadata"] (jats (metaEdits action)) (jats (resourceEdits action) x))).
  { by rewrite jats_app, jat_under. }
  apply simulates_bind; [by apply sim_resource|].
  apply sim_TransformObject; [done|intros x; apply jats_nonobject; by repeat constructor|].
  intros x Hx. apply sim_metadata.
  repeat split; eapply (at_path_cons "metadata"); try exact Hx; do 3 (apply at_path_jat; [done|]); done.
Qed.

Lemma payload_custom action s j k g r : rep s j → objectShape action j → jget ["kind"] j = Some (JString k) →
  ResourceByKind rules (match action with Restore => RestoreKind rules k | Rename => k end) = (g, r, false) →
  (g ≠ "" ∨ r ≠ "") → customKind k → HasSuffix (kindAs action k) "List" = false →
  (action = Restore → ShouldExclude rules s k = false) →
  ∃ s', RewriteJSONPayload rules s action = (Some s', None) ∧ rep s' (jats (objectEdits action) j).
Proof.
  intros Hs Hshape Hk Hres Hgr Hcustom Hlist Hex. unfold RewriteJSONPayload.
  rewrite (get_text s j "kind" ["kind"] k) by done.
  assert (FilterExcludes rules s action = (Some s, None)) as ->.
  { unfold FilterExcludes. rewrite (get_text s j "kind" ["kind"] k) by done. destruct action; [|done].
    rewrite bool_decide_eq_true_2 by done. cbn [negb]. destruct (isExcludableKind k); [|done]. cbn [negb].
    rewrite Hex by done. by rewrite (proj2 Hcustom). }
  cbn [default from_option id]. rewrite rewriteByKind_custom by done.
  destruct (sim_object action j Hshape s Hs) as (s' & Hrun & Hs').
  assert (RewriteCustomResourceOrList rules s action =
    match action with Rename => RenameResource rules | Restore => RestoreResource rules end s) as Hcr.
  { unfold RewriteCustomResourceOrList. rewrite (get_text s j "kind" ["kind"] k) by done. rewrite Hres.
    replace (str_eqb g "" && str_eqb r "") with false; [by destruct action|].
    symmetry. apply andb_false_iff. rewrite !str_eqb_false. done. }
  rewrite Hcr. destruct (sim_resource action j (proj1 Hshape) s Hs) as (t & Ht & Hrt). rewrite Ht in Hrun |- *.
  cbn [mbind res_bind fmap res_fmap] in *. cbn [rewriteAllMetadata]. unfold RewriteResourceOrList2.
  replace (r_String (gjson_GetBytes t "kind")) with (kindAs action k).
  - rewrite Hlist. cbn [negb]. rewrite Hrun. cbn. by exists s'.
  - symmetry. apply (get_text t _ "kind" ["kind"] (kindAs action k) Hrt); [done|].
    unfold resourceEdits. cbn [jats foldl fst snd]. rewrite jget_jat_ne, jget_jat, jget_jat_ne by done. by rewrite Hk.
Qed.
End Documents.

(** ** Objects as the API server stores them *)
Section Server.
Context (cfg : RulesConfig).
Let rules := Init cfg.

Definition serverVersion (v : string) : Prop := HasGroup rules v = false.

Definition serverMap (replace : MetadataReplace) (x : json) : Prop :=
  ∃ m, x = marshal (GoMap m) ∧ map_Forall (serverLabel replace) m.

(** An owner reference: its group is not an original one, and a renamed kind
    carries the prefix. *)
Definition serverOwner (x : json) : Prop := ∃ k v,
  jget ["kind"] x = Some (JString k) ∧ jget ["apiVersion"] x = Some (JString v) ∧ serverVersion v ∧
  (gvkApplies rules Restore v k = true → HasPrefix k (rc_KindPrefix cfg) = true).

(** A custom resource with the original kind [kind]. *)
Record serverResource (kind : string) (j : json) : Prop := {
  sr_kind : jget ["kind"] j = Some (JString (RenameKind rules kind));
  sr_known : ∃ g r, ResourceByKind rules kind = (g, r, false) ∧ (g ≠ "" ∨ r ≠ "");
  sr_custom : customKind kind ∧ customKind (RenameKind rules kind);
  sr_version : ∃ v, jget ["apiVersion"] j = Some (JString v) ∧ serverVersion v;
  sr_managed : at_path ["metadata"; "managedFields"]
    (arrOf (at_path ["apiVersion"] (λ x, ∃ v, x = JString v ∧ serverVersion v))) j;
  sr_labels : at_path ["metadata"; "labels"] (serverMap (rc_Labels cfg)) j;
  sr_annotations : at_path ["metadata"; "annotations"] (serverMap (rc_Annotations cfg)) j;
  sr_finalizers : at_path ["metadata"; "finalizers"]
    (arrOf (λ x, ∃ t, x = JString t ∧ serverLabel (rc_Finalizers cfg) t "")) j;
  sr_owners : at_path ["metadata"; "ownerReferences"] (arrOf serverOwner) j;
}.

Context (Hco : coherentRules cfg).

(** *** Each edit is undone *)

Lemma map_shape replace x : coherent replace → serverMap replace x →
  mapOf (restore (NewPrefixedNameRewriter replace)) x.
Proof.
  intros Hc (m & -> & Hm). exists m. split; [done|].
  by eapply names_apart; [by apply (restore_undone replace Hc m)|].
Qed.

Lemma map_undone replace (p := NewPrefixedNameRewriter replace) x : coherent replace → serverMap replace x →
  mapOf (rename p) (jlabels (restore p) x) ∧ jlabels (rename p) (jlabels (restore p) x) = x.
Proof.
  intros Hc (m & -> & Hm). destruct (decide (m = ∅)) as [->|Hne].
  { rewrite !jlabels_empty. split; [|done]. exists ∅. split; [done|]. rewrite map_to_list_empty. constructor. }
  rewrite (jlabels_marshal (restore p) m Hne). set (m' := fillMap (restore p) (sorted_entries m)).
  pose proof (restore_undone replace Hc m Hm) as Hu.
  assert (rewriteMap (Some (sorted_entries m)) (restore p) = Some m') as Hm' by done.
  assert (m' ≠ ∅) as Hne'.
  { intros He. apply Hne, map_to_list_empty_iff, Permutation_nil_r. rewrite <- sorted_entries_perm.
    destruct (sorted_entries m) as [|[n v] l] eqn:Hl; [done|]. exfalso.
    pose proof (rewritten_entries _ _ m (sorted_entries m) m' (map_to_list m') Hu (sorted_entries_perm m) ltac:(by rewrite Hl) ltac:(done)) as Hin.
    rewrite He, map_to_list_empty in Hin. destruct (restore p n v) as [o w] eqn:Ho.
    apply (not_elem_of_nil (o, w)), Hin. exists n, v. split; [|done].
    apply elem_of_map_to_list. rewrite <- sorted_entries_perm, Hl. left. }
  split.
  - exists m'. split; [done|]. by eapply (renamed_apart _ _ m (sorted_entries m)); [exact Hu|apply sorted_entries_perm|..].
  - rewrite jlabels_marshal by done. do 2 f_equal.
    pose proof (rewriteMap_inverse _ _ m (sorted_entries m) m' (sorted_entries m') Hu (sorted_entries_perm m) Hm'
      (sorted_entries_perm m')) as Hinv. rewrite rewriteMap_fill in Hinv. by simplify_eq.
Qed.

Lemma arr_undone (P : json → Prop) f g x : (∀ y, P y → g (f y) = y) → arrOf P x → jarr g (jarr f x) = x.
Proof.
  intros Hfg [->|(l & -> & Hl)]; [done|]. simpl. f_equal. rewrite <- list_fmap_compose.
  induction Hl as [|y l Hy _ IH]; csimpl; [done|]. f_equal; [by apply Hfg|done].
Qed.

Lemma version_undone x : (∃ v, x = JString v ∧ serverVersion v) →
  jstr (RenameApiVersion rules) (jstr (RestoreApiVersion rules) x) = x.
Proof. intros (v & -> & Hv). simpl. f_equal. apply version_roundtrip; [apply Hco|done]. Qed.

Lemma finalizer_undone x (F := FinalizersRewriter rules) :
  (∃ t, x = JString t ∧ serverLabel (rc_Finalizers cfg) t "") →
  jstr (λ n, Rewrite F n Rename) (jstr (λ n, Rewrite F n Restore) x) = x.
Proof.
  intros (t & -> & Ht). simpl. f_equal. unfold Rewrite, byAction.
  assert (coherent (rc_Finalizers cfg)) as Hc by apply Hco.
  pose proof (restore_rename (rc_Finalizers cfg) Hc t "" Ht) as Hr.
  pose proof (restore_no_value (rc_Finalizers cfg) t) as Hv.
  change (NewPrefixedNameRewriter (rc_Finalizers cfg)) with F in *.
  destruct (restore F t "") as [o w]. simpl in *. subst w. by rewrite Hr.
Qed.

Lemma kind_undone k : HasPrefix k (rc_KindPrefix cfg) = true → RenameKind rules (RestoreKind rules k) = k.
Proof.
  intros Hk. unfold RestoreKind, RenameKind, TrimPrefix. change (rw_cfg rules) with cfg. rewrite Hk.
  symmetry. by apply HasPrefix_true.
Qed.

Lemma KindRules_None v k : serverVersion v → KindRules rules v k = None.
Proof.
  unfold serverVersion, HasGroup, KindRules. rewrite bool_decide_eq_false, <- eq_None_not_Some. by intros ->.
Qed.

Lemma owner_undone x : jwf x = true → serverOwner x →
  gvkShape (gvkDoc rules Restore x) ∧ jwf (gvkDoc rules Restore x) = true ∧
  gvkDoc rules Rename (gvkDoc rules Restore x) = x.
Proof.
  intros Hwf (k & v & Hk & Hv & Hsv & Hpre).
  assert (gvkDoc rules Restore x = if gvkApplies rules Restore v k
    then jats [(["kind"], jstr (RestoreKind rules)); (["apiVersion"], jstr (RestoreApiVersion rules))] x else x) as ->
    by (unfold gvkDoc; by rewrite Hk, Hv).
  destruct (gvkApplies rules Restore v k) eqn:Happ.
  2: { split; [intros y [= <-]; eauto|]. split; [done|]. unfold gvkDoc. rewrite Hk, Hv. cbn [gvkApplies].
       by rewrite (KindRules_None v k Hsv), bool_decide_eq_true_2. }
  set (y := jats _ x).
  assert (jget ["kind"] y = Some (JString (RestoreKind rules k))) as Hky.
  { unfold y. cbn [jats foldl fst snd]. by rewrite jget_jat_ne, jget_jat, Hk. }
  assert (jget ["apiVersion"] y = Some (JString (RestoreApiVersion rules v))) as Hvy.
  { unfold y. cbn [jats foldl fst snd]. by rewrite jget_jat, jget_jat_ne, Hv. }
  split; [intros z [= <-]; eauto|]. split.
  { unfold y. cbn [jats foldl fst snd]. apply jat_wf; [apply jat_wf; [done|]|].
    - intros z Hz. by rewrite Hk in Hz; simplify_eq.
    - intros z. rewrite jget_jat_ne, Hv by done. by intros [= <-]. }
  unfold gvkDoc. rewrite Hky, Hvy. simpl in Happ. apply andb_true_iff in Happ as [_ Happ].
  cbn [gvkApplies kindAs versionAs]. rewrite Happ.
  apply (jats_inverse [(["kind"], jstr (RestoreKind rules), jstr (RenameKind rules));
    (["apiVersion"], jstr (RestoreApiVersion rules), jstr (RenameApiVersion rules))]); [done|done|].
  apply Forall_cons. split; [|apply Forall_cons; split; [|by apply Forall_nil]]; cbn [fst snd]; intros z Hz;
    simplify_eq; (split; [done|]); cbn [jstr]; f_equal.
  - by apply kind_undone, Hpre.
  - apply version_roundtrip; [apply Hco|done].
Qed.

(** The values of a well-formed array are well formed. *)
Lemma arrOf_wf P x : jwf x = true → arrOf P x → arrOf (λ y, jwf y = true ∧ P y) x.
Proof.
  intros Hx [?|(l & -> & Hl)]; [by left|right]. exists l. split; [done|]. simpl in Hx. rewrite forallb_forall in Hx.
  rewrite Forall_forall in *. intros y Hy. split; [apply Hx; by apply list_elem_of_In|by apply Hl].
Qed.

Lemma jarr_wf P f x : (∀ y, P y → jwf (f y) = true) → arrOf P x → jwf (jarr f x) = true.
Proof.
  intros Hf [->|(l & -> & Hl)]; [done|]. simpl. apply forallb_forall. intros y Hy%list_elem_of_In.
  apply list_elem_of_fmap in Hy as (z & -> & Hz). rewrite Forall_forall in Hl. auto.
Qed.

Lemma arrOf_fmap P R f x : (∀ y, P y → R (f y)) → arrOf P x → arrOf R (jarr f x).
Proof.
  intros Hf [->|(l & -> & Hl)]; [by left|right]. exists (f <$> l). split; [done|]. apply Forall_fmap.
  eapply Forall_impl, Hf. done.
Qed.

Lemma marshal_wf v : jwf (marshal v) = true.
Proof.
  destruct v as [s|[l|]|m]; [done| |done|]; cbn [marshal].
  - simpl. apply forallb_forall. by intros y (s & -> & _)%list_elem_of_In%list_elem_of_fmap.
  - apply jwf_object. split; [|by intros k y ([] & [= -> ->] & _)%list_elem_of_fmap].
    rewrite <- list_fmap_compose. change (fst ∘ prod_map id JString) with (fst : string * string → string).
    rewrite (merge_sort_Permutation key_le). apply NoDup_fst_map_to_list.
Qed.

Lemma jlabels_wf fn x : jwf x = true → jwf (jlabels fn x) = true.
Proof. destruct x as [| | | | |[|kv fs]]; try done. intros _. apply (marshal_wf (GoMap _)). Qed.

(** *** The whole object *)

Lemma server_shape kind j : serverResource kind j → objectShape rules Restore j.
Proof.
  intros [Hk _ _ (v & Hv & _) Hm Hl Ha Hf Ho]. destruct Hco as (_ & HcL & HcA & HcF).
  split; [split; [intros x [= <-]; eauto|]|split; [|split; [|split]]].
  - eapply at_path_impl, Hm. intros y. apply arrOf_impl. intros z. apply at_path_impl. intros u (w & -> & _). by exists w.
  - eapply at_path_impl, Hl. intros y. by apply (map_shape (rc_Labels cfg)).
  - eapply at_path_impl, Ha. intros y. by apply (map_shape (rc_Annotations cfg)).
  - eapply at_path_impl, Hf. intros y. apply arrOf_impl. intros z (w & -> & _). by exists w.
  - eapply at_path_impl, Ho. intros y. apply arrOf_impl. intros z (k & w & H1 & H2 & _) u [= <-]. eauto.
Qed.

Lemma edits_apart action : apart (fst <$> objectEdits rules action) = true.
Proof. by destruct action. Qed.

Lemma at_path_edited action ks f P j : (ks, f) ∈ objectEdits rules action → at_path ks (λ x, P (f x)) j →
  at_path ks P (jats (objectEdits rules action) j).
Proof.
  intros He HP x. pose proof (jget_jats_at _ j _ (edits_apart action) He) as Hg. cbn [fst snd] in Hg. rewrite Hg.
  destruct (jget ks j) as [y|] eqn:Hy; [|done]. intros [= <-]. by apply HP.
Qed.

Lemma restored_shape kind j : jwf j = true → serverResource kind j →
  objectShape rules Rename (jats (objectEdits rules Restore) j) ∧
  jget ["kind"] (jats (objectEdits rules Restore) j) = Some (JString kind).
Proof.
  intros Hwf [Hk _ _ (v & Hv & _) Hm Hl Ha Hf Ho]. destruct Hco as (_ & HcL & HcA & HcF).
  assert (∀ e, e ∈ objectEdits rules Restore →
    jget (fst e) (jats (objectEdits rules Restore) j) = snd e <$> jget (fst e) j) as Hget
    by (intros; by apply jget_jats_at; [apply edits_apart|]).
  assert (jget ["kind"] (jats (objectEdits rules Restore) j) = Some (JString kind)) as Hk1.
  { pose proof (Hget (["kind"], jstr (RestoreKind rules)) ltac:(right; left)) as Hg. cbn [fst snd] in Hg.
    rewrite Hg, Hk. cbn [fmap option_fmap option_map jstr]. do 2 f_equal. apply kind_roundtrip. }
  split; [|done]. split; [split|split; [|split; [|split]]].
  - intros x [= <-]. split; [eauto|]. exists (RestoreApiVersion rules v).
    pose proof (Hget (["apiVersion"], jstr (RestoreApiVersion rules)) ltac:(left)) as Hg. cbn [fst snd] in Hg.
    rewrite Hv in Hg. exact Hg.
  - eapply at_path_edited; [do 2 right; left|]. eapply at_path_impl, Hm. intros y. apply arrOf_fmap.
    intros z Hz u. rewrite jget_jat. destruct (jget _ z) as [w|] eqn:Hw; [|done]. destruct (Hz w Hw) as (t & -> & _).
    intros [= <-]. by eexists.
  - eapply at_path_edited; [do 3 right; left|]. eapply at_path_impl, Hl. intros y Hy. by apply (map_undone (rc_Labels cfg)).
  - eapply at_path_edited; [do 4 right; left|]. eapply at_path_impl, Ha. intros y Hy. by apply (map_undone (rc_Annotations cfg)).
  - eapply at_path_edited; [do 5 right; left|]. eapply at_path_impl, Hf. intros y. apply arrOf_fmap.
    intros z (w & -> & _). by eexists.
  - eapply at_path_edited; [do 6 right; left|]. intros x Hx. eapply arrOf_fmap, arrOf_wf, Ho, Hx; [|by eapply jget_wf].
    intros y [Hy Hsy]. by apply owner_undone.
Qed.

Definition undoneEdits : list (list string * (json → json) * (json → json)) :=
  zip (objectEdits rules Restore) (snd <$> objectEdits rules Rename).

Lemma object_undone kind j : jwf j = true → serverResource kind j →
  jats (objectEdits rules Rename) (jats (objectEdits rules Restore) j) = j.
Proof.
  intros Hwf [Hk _ _ (v & Hv & Hsv) Hm Hl Ha Hf Ho]. pose proof Hco as (HcG & HcL & HcA & HcF).
  apply (jats_inverse undoneEdits); [done|done|]. unfold undoneEdits, objectEdits. cbn [zip zip_with].
  repeat (apply Forall_cons; split); [..|by apply Forall_nil]; cbn [fst snd under]; intros x Hx.
  - rewrite Hv in Hx. simplify_eq. split; [done|]. cbn. f_equal. by apply version_roundtrip.
  - rewrite Hk in Hx. simplify_eq. split; [done|]. cbn [jstr kindAs]. do 2 f_equal. apply kind_roundtrip.
  - pose proof (arrOf_wf _ x (jget_wf _ _ _ Hwf Hx) (Hm x Hx)) as Hx'. split.
    + eapply jarr_wf, Hx'. intros y [Hy Hsy]. apply jat_wf; [done|]. intros z Hz. by destruct (Hsy z Hz) as (t & -> & _).
    + eapply arr_undone, Hx'. intros y [Hy Hsy]. rewrite jat_fuse. apply jat_id; [done|]. intros z Hz.
      by apply version_undone, Hsy.
  - split; [apply jlabels_wf; by eapply jget_wf|]. by apply (map_undone (rc_Labels cfg)), Hl.
  - split; [apply jlabels_wf; by eapply jget_wf|]. by apply (map_undone (rc_Annotations cfg)), Ha.
  - split.
    + eapply jarr_wf, Hf, Hx. by intros y (t & -> & _).
    + eapply arr_undone, Hf, Hx. intros y Hy. by apply finalizer_undone.
  - pose proof (arrOf_wf _ x (jget_wf _ _ _ Hwf Hx) (Ho x Hx)) as Hx'. split.
    + eapply jarr_wf, Hx'. intros y [Hy Hsy]. by apply owner_undone.
    + eapply arr_undone, Hx'. intros y [Hy Hsy]. by apply owner_undone.
Qed.
End Server.

(** C18: for rules that do not contradict each other and any JSON library with
    the documented behaviour, a custom resource the API server returns reaches
    the client with its original kind and API version, and when the client
    sends it back unchanged the rewritten request denotes exactly the document
    the server returned. *)
Theorem custom_resource_roundtrip `{HW : JsonLaws} (cfg : RulesConfig) (kind version s : string) (j : json) :
  coherentRules cfg → serverResource cfg kind j → jget ["apiVersion"] j = Some (JString version) →
  rep s j → ShouldExclude (Init cfg) s (RenameKind (Init cfg) kind) = false →
  ∃ s1 j1 s2, RewriteJSONPayload (Init cfg) s Restore = (Some s1, None) ∧ rep s1 j1 ∧
    jget ["kind"] j1 = Some (JString kind) ∧
    jget ["apiVersion"] j1 = Some (JString (RestoreApiVersion (Init cfg) version)) ∧
    RewriteJSONPayload (Init cfg) s1 Rename = (Some s2, None) ∧ rep s2 j.
Proof.
  intros Hco Hj Hv Hs Hex. pose proof (rep_wf s j Hs) as Hwf. pose proof Hj as [Hk (g & r & Hres & Hgr) [Hc Hc'] _ _ _ _ _ _].
  destruct (payload_custom (Init cfg) Restore s j (RenameKind (Init cfg) kind) g r) as (s1 & H1 & Hs1); try done.
  { by eapply server_shape. }
  { by rewrite kind_roundtrip. }
  { cbn [kindAs]. rewrite kind_roundtrip. apply Hc. }
  destruct (restored_shape cfg Hco kind j Hwf Hj) as [Hshape Hk1].
  destruct (payload_custom (Init cfg) Rename s1 _ kind g r Hs1 Hshape Hk1) as (s2 & H2 & Hs2); try done.
  { apply Hc'. }
  rewrite (object_undone cfg Hco kind j Hwf Hj) in Hs2. exists s1, (jats (objectEdits (Init cfg) Restore) j), s2.
  split; [done|]. split; [done|]. split; [done|]. split; [|done].
  pose proof (jget_jats_at (objectEdits (Init cfg) Restore) j (["apiVersion"], jstr (RestoreApiVersion (Init cfg)))
    (edits_apart cfg Restore) ltac:(left)) as Hg. cbn [fst snd] in Hg.
  rewrite Hv in Hg. exact Hg.
Qed.
