(* ===== verification/RewriterRbacSpec.v ===== *)
(** * Access rules and definitions of resources: theorems about [RewriterRbac]

    The rules of a role survive the way to the client and back; a definition of
    a resource the rules do not know does not reach the client at all. *)

From S2P Require Import Prelude GoLib RwNames Json RwRules Rewriter RewriterRbac RuleRewriter JsonText RewriterSim.
From S2P Require Import RewriterSpec.

From Stdlib Require Import Ascii.

(** ** Rules as documents *)

Definition jtexts (oj : option json) : list string := (λ x, default "" (jtext (Some x))) <$> jarray oj.

Section Documents.
Context (rules : RewriteRules).

Definition groupAs (action : Action) (g : string) : string :=
  match action with
  | Rename => if HasGroup rules g then RenameApiVersion rules g else g
  | Restore => if IsRenamedGroup rules g then RestoreApiVersion rules g else g
  end.

Definition resourceAs (action : Action) (r : string) : string :=
  if str_eqb r "*" || str_eqb r "" then r else
  match action with
  | Rename => match GroupResourceRules rules r with Some _ => RenameResourceName rules r | None => r end
  | Restore =>
      let orig := RestoreResourceName rules r in
      match GroupResourceRules rules orig with Some _ => orig | None => r end
  end.

(** Whether the groups of a rule concern renamed resources. *)
Definition concerns (action : Action) (groups : list string) : bool :=
  existsb (λ g, match action with Rename => HasGroup rules g | Restore => IsRenamedGroup rules g end || str_eqb g "*") groups.

Definition ruleEdits (action : Action) (x : json) : list edit :=
  (["apiGroups"], jarr (jstr (groupAs action))) ::
  if concerns action (jtexts (jget ["apiGroups"] x)) then [(["resources"], jarr (jstr (resourceAs action)))] else [].

Definition ruleDoc (action : Action) (x : json) : json := jats (ruleEdits action x) x.

Definition ruleShape (x : json) : Prop :=
  at_path ["apiGroups"] (arrOf isStr) x ∧ at_path ["resources"] (arrOf isStr) x.

Context `{HL : JsonLib} {HW : JsonLaws}.

Lemma stringsAt_texts s j path ks : rep s j → path_keys path = Some ks → at_path ks (arrOf isStr) j →
  stringsAt s path = jtexts (jget ks j).
Proof.
  intros Hs Hks Harr. unfold stringsAt, jtexts. pose proof (repR_array _ _ (rep_get s j path ks Hs Hks)) as Hr.
  assert (Forall isStr (jarray (jget ks j))) as Hall.
  { destruct (jget ks j) as [x|] eqn:Hx; [|by apply Forall_nil].
    destruct (Harr x Hx) as [->|(l & -> & Hl)]; [by apply Forall_nil|done]. }
  induction Hr as [|r x rs xs Hrx _ IH]; [done|]. apply Forall_cons in Hall as [[t ->] Hall]. csimpl.
  rewrite (repR_text r _ t Hrx) by done. f_equal. by apply IH.
Qed.

Lemma sim_rule action x : ruleShape x →
  simulates (match action with Rename => RenameResourceRule rules | Restore => RestoreResourceRule rules end)
    (ruleDoc action) x.
Proof.
  intros [Hg Hr] s Hs. unfold ruleDoc, ruleEdits.
  pose proof (stringsAt_texts s x "apiGroups" ["apiGroups"] Hs eq_refl Hg) as Htexts.
  destruct (sim_TransformArrayOfStrings "apiGroups" ["apiGroups"] (groupAs action) x eq_refl Hg s Hs) as (s1 & H1 & Hs1).
  assert (at_path ["resources"] (arrOf isStr) (jat ["apiGroups"] (jarr (jstr (groupAs action))) x)) as Hr1
    by (by apply at_path_jat).
  destruct (sim_TransformArrayOfStrings "resources" ["resources"] (resourceAs action) _ eq_refl Hr1 s1 Hs1) as (s2 & H2 & Hs2).
  destruct action; unfold RenameResourceRule, RestoreResourceRule; rewrite Htexts;
    cbv beta iota delta [groupAs] in H1; rewrite H1; cbn [mbind res_bind]; unfold concerns; cbv beta iota;
    destruct (existsb _ _); cbn [negb]; first [by exists s2 | by exists s1].
Qed.
End Documents.

(** ** Rules as the API server stores them *)
Section Server.
Context (cfg : RulesConfig).
Let rules := Init cfg.

Definition serverResourceName (r : string) : Prop := r = "*" ∨ r = "" ∨ GroupResourceRules rules r = None.

Definition serverRule (x : json) : Prop :=
  at_path ["apiGroups"] (arrOf (λ y, ∃ t, y = JString t ∧ serverVersion cfg t)) x ∧
  at_path ["resources"] (arrOf (λ y, ∃ t, y = JString t ∧ serverResourceName t)) x.

(** No rule is about the wildcard or the empty resource. *)
Definition properResources : Prop := GroupResourceRules rules "*" = None ∧ GroupResourceRules rules "" = None.

Context (Hco : coherentGroups cfg) (Hproper : properResources).

Lemma restored_HasGroup v : IsRenamedGroup rules v = true → HasGroup rules (RestoreApiVersion rules v) = true.
Proof.
  unfold IsRenamedGroup, mi_IsRenamed. rewrite bool_decide_eq_true. intros [o Ho].
  pose proof Ho as (e & He & _ & <-)%(groups_reverse cfg Hco).
  pose proof Hco as (_ & _ & Hall). rewrite Forall_forall in Hall. destruct (Hall e He) as (Hn & Hf & _).
  apply not_false_is_true. intros Hout%(HasGroup_false cfg Hco). apply Hout.
  assert (groupOf (RestoreApiVersion rules v) = gr_Group (groupRule e)) as ->.
  2: { rewrite Hn. by apply list_elem_of_fmap_2. }
  unfold RestoreApiVersion, groupOf in *. destruct (Cut v "/") as [[g ver] []] eqn:Hc; cbn [negb fst] in *.
  - unfold mi_Restore. rewrite Ho. cbn [default from_option id]. change ("/" +:+ ver) with (String "/" ver).
    rewrite Cut_app; [done|by rewrite Hn].
  - assert (v = g) as ->. { unfold Cut in Hc. by destruct (cut "/" v) as [[]|]; simplify_eq. }
    unfold mi_Restore. rewrite Ho. cbn [default from_option id]. unfold Cut.
    replace (cut "/" (gr_Group (groupRule e))) with (@None (string * string)); [done|].
    symmetry. apply cut_char_None. by rewrite Hn.
Qed.

Lemma group_undone t : serverVersion cfg t →
  groupAs rules Rename (groupAs rules Restore t) = t ∧
  (HasGroup rules (groupAs rules Restore t) || str_eqb (groupAs rules Restore t) "*") =
    (IsRenamedGroup rules t || str_eqb t "*").
Proof.
  intros Ht. cbn [groupAs]. destruct (IsRenamedGroup rules t) eqn:Hr.
  - rewrite restored_HasGroup by done. split; [by apply version_roundtrip|done].
  - unfold serverVersion in Ht. fold rules in Ht. by rewrite Ht.
Qed.

Lemma resource_undone t : serverResourceName t → resourceAs rules Rename (resourceAs rules Restore t) = t.
Proof.
  intros Ht. unfold resourceAs. destruct (str_eqb t "*" || str_eqb t "") eqn:Hsp; [by rewrite Hsp|].
  assert (GroupResourceRules rules t = None) as Hnone.
  { apply orb_false_iff in Hsp as [H1%str_eqb_false H2%str_eqb_false]. by destruct Ht as [?|[?|?]]. }
  destruct (GroupResourceRules rules (RestoreResourceName rules t)) as [gr|] eqn:Hres; [|by rewrite Hsp, Hnone].
  set (o := RestoreResourceName rules t) in *. destruct Hproper as [Hs He].
  replace (str_eqb o "*" || str_eqb o "") with false.
  2: { symmetry. apply orb_false_iff. rewrite !str_eqb_false. split; intros Ho; rewrite Ho in Hres; congruence. }
  rewrite Hres. unfold o, RestoreResourceName, RenameResourceName, TrimPrefix in *.
  destruct (HasPrefix t (rc_ResourceTypePrefix (rw_cfg rules))) eqn:Hp; [symmetry; by apply HasPrefix_true|].
  congruence.
Qed.

Lemma rule_undone x : jwf x = true → serverRule x →
  ruleShape (ruleDoc rules Restore x) ∧ jwf (ruleDoc rules Restore x) = true ∧
  ruleDoc rules Rename (ruleDoc rules Restore x) = x.
Proof.
  intros Hwf [Hg Hr].
  set (flag := concerns rules Restore (jtexts (jget ["apiGroups"] x))).
  set (edits := (["apiGroups"], jarr (jstr (groupAs rules Restore)), jarr (jstr (groupAs rules Rename))) ::
    if flag then [(["resources"], jarr (jstr (resourceAs rules Restore)), jarr (jstr (resourceAs rules Rename)))] else []).
  set (out := jats (fst <$> edits) x).
  assert (ruleDoc rules Restore x = out) as ->.
  { unfold ruleDoc, ruleEdits, out, edits, flag. by destruct (concerns _ _ _). }
  assert (apart ((λ e, fst (fst e)) <$> edits) = true) as Hap by (unfold edits; by destruct flag).
  assert (jget ["apiGroups"] out = jarr (jstr (groupAs rules Restore)) <$> jget ["apiGroups"] x) as Hgx.
  { apply (jget_jats_at (fst <$> edits) x (["apiGroups"], jarr (jstr (groupAs rules Restore)))); [|left].
    rewrite <- list_fmap_compose. exact Hap. }
  assert (concerns rules Rename (jtexts (jget ["apiGroups"] out)) = flag) as Hflag.
  { rewrite Hgx. unfold flag. destruct (jget ["apiGroups"] x) as [y|] eqn:Hy; [|done].
    destruct (Hg y Hy) as [->|(l & -> & Hl)]; [done|]. cbn. clear - Hl Hco.
    induction Hl as [|z l (t & -> & Ht) _ IH]; [done|]. cbn in IH |- *. f_equal; [|exact IH]. by apply group_undone. }
  assert (ruleDoc rules Rename out = jats ((λ e, (fst (fst e), snd e)) <$> edits) out) as Hren.
  { unfold ruleDoc, ruleEdits. rewrite Hflag. unfold out, edits. by destruct flag. }
  split; [|split; [|etransitivity; [exact Hren|]]].
  - split.
    + intros y. rewrite Hgx. destruct (jget ["apiGroups"] x) as [z|] eqn:Hz; [|done]. intros [= <-].
      eapply arrOf_fmap, Hg, Hz. intros u (t & -> & _). by eexists.
    + unfold out, edits. destruct flag; cbn [fmap list_fmap fst jats foldl snd].
      * intros y. rewrite jget_jat, jget_jat_ne by done. destruct (jget ["resources"] x) as [z|] eqn:Hz; [|done]. intros [= <-].
        eapply arrOf_fmap, Hr, Hz. intros u (t & -> & _). by eexists.
      * apply at_path_jat; [done|]. eapply at_path_impl, Hr. intros y. apply arrOf_impl. intros z (t & -> & _). by eexists.
  - assert (∀ ks f (P : string → Prop) z, jwf z = true → at_path ks (arrOf (λ y, ∃ t, y = JString t ∧ P t)) z →
      jwf (jat ks (jarr (jstr f)) z) = true) as Hjw.
    { intros ks f P z Hz Hks. apply jat_wf; [done|]. intros y Hy. eapply jarr_wf, Hks, Hy. by intros u (t & -> & _). }
    unfold out, edits. destruct flag; cbn [fmap list_fmap fst jats foldl snd]; [|by eapply Hjw].
    eapply Hjw; [by eapply Hjw|]. by apply at_path_jat.
  - apply jats_inverse; [done|done|].
    assert (∀ ks f g (P : string → Prop), (∀ t, P t → g (f t) = t) → at_path ks (arrOf (λ y, ∃ t, y = JString t ∧ P t)) x →
      ∀ y, jget ks x = Some y → jwf (jarr (jstr f) y) = true ∧ jarr (jstr g) (jarr (jstr f) y) = y) as Hinv.
    { intros ks f g P Hfg Hks y Hy. split; [eapply jarr_wf, Hks, Hy; by intros u (t & -> & _)|].
      eapply arr_undone, Hks, Hy. intros u (t & -> & Ht). cbn. by rewrite Hfg. }
    unfold edits. apply Forall_cons. split; [eapply Hinv, Hg; intros t Ht; by apply group_undone|].
    destruct flag; [|by apply Forall_nil]. apply Forall_singleton. eapply Hinv, Hr. intros t Ht. by apply resource_undone.
Qed.
End Server.

(** ** Roles *)

Lemma sim_roleRules `{HW : JsonLaws} rules action j : at_path ["rules"] (arrOf ruleShape) j →
  simulates (λ s, RewriteArray s "rules" (rewriteResourceRule rules action)) (jat ["rules"] (jarr (ruleDoc rules action))) j.
Proof.
  intros Hj. assert (at_path ["rules"] (arrOf (simulates
    (match action with Rename => RenameResourceRule rules | Restore => RestoreResourceRule rules end)
    (ruleDoc rules action))) j) as Hsim.
  { eapply at_path_impl, Hj. intros x. apply arrOf_impl. intros y Hy. by apply sim_rule. }
  destruct action; by apply (sim_RewriteArray "rules" ["rules"]).
Qed.

Lemma role_single `{HW : JsonLaws} rules action s j t kind : rep s j → jget ["kind"] j = Some (JString kind) →
  kind ≠ "ClusterRoleList" → RewriteArray s "rules" (rewriteResourceRule rules action) = Ok t →
  RewriteClusterRoleOrList rules s action = Ok (Some t).
Proof.
  intros Hs Hk Hkind Ht. unfold RewriteClusterRoleOrList, RewriteResourceOrList.
  rewrite (get_text s j "kind" ["kind"] kind) by done.
  replace (str_eqb kind "ClusterRoleList") with false by (symmetry; by apply str_eqb_false). cbn [negb]. by rewrite Ht.
Qed.

(** C26: a cluster role as the API server stores it is shown to the client with
    the original groups and resources, and when the client sends it back its
    rules denote exactly the rules of the server: wildcards, subresources and
    the groups and resources the rewriter does not know are kept, and a rule
    whose groups are not renamed is not touched. *)
Theorem cluster_role_roundtrip `{HW : JsonLaws} (cfg : RulesConfig) (s : string) (j : json) :
  coherentGroups cfg → properResources cfg → jget ["kind"] j = Some (JString "ClusterRole") →
  at_path ["rules"] (arrOf (serverRule cfg)) j → rep s j →
  ∃ s1 s2, RewriteClusterRoleOrList (Init cfg) s Restore = Ok (Some s1) ∧
    rep s1 (jat ["rules"] (jarr (ruleDoc (Init cfg) Restore)) j) ∧
    RewriteClusterRoleOrList (Init cfg) s1 Rename = Ok (Some s2) ∧ rep s2 j.
Proof.
  intros Hco Hproper Hk Hrules Hs. pose proof (rep_wf s j Hs) as Hwf.
  assert (at_path ["rules"] (arrOf (λ y, jwf y = true ∧ serverRule cfg y)) j) as Hrules'.
  { intros x Hx. apply arrOf_wf; [by eapply jget_wf|by apply Hrules]. }
  destruct (sim_roleRules (Init cfg) Restore j) with (s := s) as (s1 & H1 & Hs1); [|done|].
  { eapply at_path_impl, Hrules. intros x. apply arrOf_impl. intros y [Hg Hr].
    split; [eapply at_path_impl, Hg|eapply at_path_impl, Hr]; intros z; apply arrOf_impl; intros u (t & -> & _); by exists t. }
  set (j1 := jat _ _ j) in *.
  destruct (sim_roleRules (Init cfg) Rename j1) with (s := s1) as (s2 & H2 & Hs2); [|done|].
  { intros x. unfold j1. rewrite jget_jat. destruct (jget ["rules"] j) as [y|] eqn:Hy; [|done]. intros [= <-].
    eapply arrOf_fmap, Hrules', Hy. intros z [Hz Hsz]. by apply rule_undone. }
  assert (jat ["rules"] (jarr (ruleDoc (Init cfg) Rename)) j1 = j) as Hback.
  { unfold j1. rewrite jat_fuse. apply jat_id; [done|]. intros x Hx.
    eapply arr_undone, Hrules', Hx. intros y [Hy Hsy]. by apply rule_undone. }
  rewrite Hback in Hs2. exists s1, s2. split; [by eapply role_single|]. split; [done|]. split; [|done].
  apply (role_single (Init cfg) Rename s1 j1 s2 "ClusterRole"); [done| |done|done]. unfold j1. by rewrite jget_jat_ne.
Qed.

(** ** Definitions of resources the rules do not know *)

(** The response to a request for a single definition of a resource whose
    group has no rule, and the object of a watch event about it, is rewritten to
    nil bytes without an error: the client gets an empty body, or an event
    without an object. *)
Theorem unknown_definition_lost `{HW : JsonLaws} (rules : RewriteRules) (s name resource group : string) (j : json) :
  rep s j → jget ["kind"] j = Some (JString "CustomResourceDefinition") →
  jget ["metadata"; "name"] j = Some (JString name) → Cut name "." = (resource, group, true) →
  HasGroup rules group = false → IsRenamedGroup rules group = false →
  ShouldExclude rules s "CustomResourceDefinition" = false →
  RewriteJSONPayload rules s Restore = (None, None).
Proof.
  intros Hs Hk Hname Hcut Hg Hr Hex. unfold RewriteJSONPayload, FilterExcludes.
  rewrite (get_text s j "kind" ["kind"] "CustomResourceDefinition") by done.
  rewrite bool_decide_eq_true_2 by done. cbn [negb]. change (isExcludableKind "CustomResourceDefinition") with true.
  cbn [negb]. rewrite Hex. change (HasSuffix "CustomResourceDefinition" "List") with false. cbn [negb default from_option id].
  change (rewriteByKind rules "CustomResourceDefinition" s Restore) with (RewriteCRDOrList rules s Restore).
  unfold RewriteCRDOrList, RewriteResourceOrList. rewrite (get_text s j "kind" ["kind"] "CustomResourceDefinition") by done.
  change (str_eqb "CustomResourceDefinition" "CustomResourceDefinitionList") with false. cbn [negb].
  unfold RestoreCRD. rewrite (get_text s j "metadata.name" ["metadata"; "name"] name) by done.
  by rewrite Hcut, Hg, Hr.
Qed.
