(* ===== verification/RewriterExamples.v ===== *)
(** * The API rewriter on concrete payloads

    The rules of the tests of the rewriter, and payloads in the text library
    of [JsonText]. *)

From S2P Require Import Prelude GoLib RwNames Json RwRules Rewriter RewriterRbac RwEndpoint RuleRewriter JsonText.
From S2P Require Import RewriterSim RewriterSpec RewriterRbacSpec.

From Stdlib Require Import Ascii.

Module Proxy.

Definition resource (kind plural singular : string) (shortNames : list string) (categories : option (list string)) : ResourceRule :=
  mkResourceRule kind (kind +:+ "List") plural singular shortNames categories ["v1"; "v1alpha1"] "v1".

Definition cfg : RulesConfig := mkRulesConfig "Prefixed" "prefixed" "p" (Some ["prefixed"])
  [("original.group.io", mkAPIGroupRule (mkGroupRule "original.group.io" ["v1"; "v1alpha1"] "v1" "prefixed.resources.group.io")
     [("someresources", resource "SomeResource" "someresources" "someresource" ["sr"; "srs"] (Some ["all"]));
      ("anotherresources", resource "AnotherResource" "anotherresources" "anotherresource" ["ar"] None)]);
   ("other.group.io", mkAPIGroupRule (mkGroupRule "other.group.io" ["v2alpha3"] "v2alpha3" "other.prefixed.resources.group.io")
     [("otherresources", resource "OtherResource" "otherresources" "otherresource" ["or"] None)])]
  ∅
  (mkMetadataReplace
    [mkReplaceRule "labelgroup.io" "replacedlabelgroup.io" "" "";
     mkReplaceRule "component.labelgroup.io" "component.replacedlabelgroup.io" "" ""]
    [mkReplaceRule "labelgroup.io" "replacedlabelgroup.io" "" "";
     mkReplaceRule "labelgroup.io" "replacedlabelgroup.io" "some-value" "some-value-renamed"])
  (mkMetadataReplace
    [mkReplaceRule "annogroup.io" "replacedannogroup.io" "" ""]
    [mkReplaceRule "annogroup.io" "replacedannogroup.io" "" ""])
  (mkMetadataReplace [mkReplaceRule "group.io" "replaced.group.io" "" ""] [])
  [].

Definition rules : RewriteRules := Init cfg.

(** ** A custom resource *)

Definition labels : gmap string string :=
  {[ "replacedlabelgroup.io/app" := "gpu"; "labelgroup.io/legacy" := "kept"; "replacedlabelgroup.io" := "some-value-renamed";
     "team" := "a" ]}.
Definition annotations : gmap string string := {[ "replacedannogroup.io/note" := "x=y"; "plain" := "1" ]}.

Definition owner : json := jobj [("apiVersion", JString "prefixed.resources.group.io/v1"); ("kind", JString "PrefixedAnotherResource");
  ("name", JString "own"); ("controller", JBool true)].
Definition podOwner : json := jobj [("apiVersion", JString "v1"); ("kind", JString "Pod"); ("name", JString "p")].

Definition stored : json := jobj
  [("apiVersion", JString "prefixed.resources.group.io/v1"); ("kind", JString "PrefixedSomeResource");
   ("metadata", jobj
     [("name", JString "res"); ("labels", marshal (GoMap labels)); ("annotations", marshal (GoMap annotations));
      ("finalizers", JArray [JString "replaced.group.io/protect"; JString "kubernetes"]);
      ("ownerReferences", JArray [owner; podOwner]);
      ("managedFields", JArray [jobj [("manager", JString "kubectl"); ("apiVersion", JString "prefixed.resources.group.io/v1")]])]);
   ("spec", jobj [("replicas", JNumber "3"); ("paused", JBool false)])].

(** What the client sees: the original names, and the label that looks original
    under a prefix that keeps it apart. *)
Example restored_payload : (λ r, decode (default "" (fst r))) (RewriteJSONPayload rules (print stored) Restore) = Some (jobj
  [("apiVersion", JString "original.group.io/v1"); ("kind", JString "SomeResource");
   ("metadata", jobj
     [("name", JString "res");
      ("labels", marshal (GoMap {[ "labelgroup.io/app" := "gpu"; "preserved-original-labelgroup.io/legacy" := "kept";
                                   "labelgroup.io" := "some-value"; "team" := "a" ]}));
      ("annotations", marshal (GoMap {[ "annogroup.io/note" := "x=y"; "plain" := "1" ]}));
      ("finalizers", JArray [JString "group.io/protect"; JString "kubernetes"]);
      ("ownerReferences", JArray
        [jobj [("apiVersion", JString "original.group.io/v1"); ("kind", JString "AnotherResource"); ("name", JString "own"); ("controller", JBool true)];
         podOwner]);
      ("managedFields", JArray [jobj [("manager", JString "kubectl"); ("apiVersion", JString "original.group.io/v1")]])]);
   ("spec", jobj [("replicas", JNumber "3"); ("paused", JBool false)])]).
Proof. vm_compute. reflexivity. Qed.

Lemma cfg_coherent : coherentRules cfg.
Proof. apply (bool_decide_unpack (coherentRules cfg)). vm_compute. exact I. Qed.

Lemma stored_rep : rep (print stored) stored.
Proof. split; [done|]. vm_compute. reflexivity. Qed.

(** Server conditions at a concrete value. *)
Ltac at_value := intros ? [= <-].
Ltac computed P := apply (bool_decide_unpack P); vm_compute; exact I.

Lemma stored_server : serverResource cfg "SomeResource" stored.
Proof.
  split.
  - reflexivity.
  - exists "original.group.io", "someresources". split; [reflexivity|by left].
  - split; (split; [apply (bool_decide_unpack (_ ∉ _)); vm_compute; exact I|reflexivity]).
  - exists "prefixed.resources.group.io/v1". split; reflexivity.
  - at_value. right. eexists. split; [reflexivity|]. apply Forall_singleton. at_value. eexists. split; reflexivity.
  - at_value. exists labels. split; [done|]. apply (bool_decide_unpack (map_Forall _ labels)). vm_compute. exact I.
  - at_value. exists annotations. split; [done|]. apply (bool_decide_unpack (map_Forall _ annotations)). vm_compute. exact I.
  - at_value. right. eexists. split; [reflexivity|]. apply Forall_cons. split; [|apply Forall_singleton]; eexists; (split; [reflexivity|]);
      apply (bool_decide_unpack (serverLabel _ _ _)); vm_compute; exact I.
  - at_value. right. eexists. split; [reflexivity|]. apply Forall_cons.
    split; [|apply Forall_singleton]; eexists _, _; (split; [reflexivity|]); (split; [reflexivity|]); (split; [reflexivity|]).
    + intros _. reflexivity.
    + intros Happ. vm_compute in Happ. discriminate Happ.
Qed.

Lemma custom_resource_roundtrip_witness :
  ∃ s1 j1 s2, RewriteJSONPayload rules (print stored) Restore = (Some s1, None) ∧ rep s1 j1 ∧
    jget ["kind"] j1 = Some (JString "SomeResource") ∧
    jget ["apiVersion"] j1 = Some (JString (RestoreApiVersion rules "prefixed.resources.group.io/v1")) ∧
    RewriteJSONPayload rules s1 Rename = (Some s2, None) ∧ rep s2 stored.
Proof.
  apply (custom_resource_roundtrip cfg "SomeResource" "prefixed.resources.group.io/v1" (print stored) stored
    cfg_coherent stored_server eq_refl stored_rep). vm_compute. reflexivity.
Defined.

(** ** A cluster role *)

Definition accessRule (groups resources : list string) : json :=
  jobj [("apiGroups", jstrings groups); ("resources", jstrings resources); ("verbs", jstrings ["get"; "list"])].

Definition role : json := jobj [("kind", JString "ClusterRole");
  ("rules", JArray [accessRule ["prefixed.resources.group.io"] ["prefixedsomeresources"; "prefixedsomeresources/status"; "*"];
                    accessRule [""; "apps"] ["pods"; "deployments"]; accessRule ["*"] ["prefixedotherresources"; "nodes"]])].

Example restored_role : (λ r, match r with Ok (Some s) => decode s | _ => None end) (RewriteClusterRoleOrList rules (print role) Restore) =
  Some (jobj [("kind", JString "ClusterRole");
    ("rules", JArray [accessRule ["original.group.io"] ["someresources"; "someresources/status"; "*"];
                      accessRule [""; "apps"] ["pods"; "deployments"]; accessRule ["*"] ["otherresources"; "nodes"]])]).
Proof. vm_compute. reflexivity. Qed.

Lemma accessRule_server groups resources :
  Forall (serverVersion cfg) groups → Forall (serverResourceName cfg) resources → serverRule cfg (accessRule groups resources).
Proof.
  intros Hg Hr. split; at_value; right; eexists; (split; [reflexivity|]); apply Forall_fmap.
  - eapply Forall_impl; [exact Hg|]. intros t Ht. by exists t.
  - eapply Forall_impl; [exact Hr|]. intros t Ht. by exists t.
Qed.

Lemma role_server : at_path ["rules"] (arrOf (serverRule cfg)) role.
Proof.
  at_value. right. eexists. split; [reflexivity|].
  repeat (apply Forall_cons; split); [..|by apply Forall_nil]; apply accessRule_server;
    repeat (apply Forall_cons; split); try (by apply Forall_nil); try reflexivity;
    first [by left | right; right; reflexivity].
Qed.

Lemma cluster_role_roundtrip_witness :
  ∃ s1 s2, RewriteClusterRoleOrList rules (print role) Restore = Ok (Some s1) ∧
    rep s1 (jat ["rules"] (jarr (ruleDoc rules Restore)) role) ∧
    RewriteClusterRoleOrList rules s1 Rename = Ok (Some s2) ∧ rep s2 role.
Proof.
  apply (cluster_role_roundtrip cfg (print role) role).
  - apply cfg_coherent.
  - split; reflexivity.
  - reflexivity.
  - apply role_server.
  - split; [done|]. vm_compute. reflexivity.
Defined.

(** In a merge patch of a webhook configuration the rules are restored where
    they should be renamed: the patch reaches the server with original names,
    while the same rules in a JSON patch are renamed. *)
Definition webhooks : json := JArray [jobj [("rules", JArray [accessRule ["original.group.io"] ["someresources"]])]].
Definition renamedWebhooks : json :=
  JArray [jobj [("rules", JArray [accessRule ["prefixed.resources.group.io"] ["prefixedsomeresources"]])]].

Example webhook_merge_patch :
  let mergePatch := jobj [("webhooks", webhooks)] in
  let jsonPatch w := JArray [jobj [("op", JString "replace"); ("path", JString "/webhooks"); ("value", w)]] in
  RenameWebhookConfigurationPatch rules (print mergePatch) = Ok (print mergePatch) ∧
  RenameWebhookConfigurationPatch rules (print (jsonPatch webhooks)) = Ok (print (jsonPatch renamedWebhooks)).
Proof. vm_compute. split; reflexivity. Qed.

(** ** Definitions of resources *)

Definition unknownCRD : json := jobj [("kind", JString "CustomResourceDefinition");
  ("metadata", jobj [("name", JString "gpus.example.com")]); ("spec", jobj [])].

Lemma unknown_definition_lost_witness : RewriteJSONPayload rules (print unknownCRD) Restore = (None, None).
Proof.
  apply (unknown_definition_lost rules (print unknownCRD) "gpus.example.com" "gpus" "example.com" unknownCRD).
  - split; [done|]. vm_compute. reflexivity.
  - reflexivity.
  - reflexivity.
  - reflexivity.
  - reflexivity.
  - reflexivity.
  - vm_compute. reflexivity.
Defined.

(** ** Discovery: a resource of a renamed group without rules gives a group
    with an empty name, in which the resource is missing. *)
Definition discovery : json := jobj [("kind", JString "APIGroupDiscoveryList");
  ("items", JArray [jobj [("metadata", jobj [("name", JString "prefixed.resources.group.io")]);
    ("versions", JArray [jobj [("version", JString "v1"); ("freshness", JString "Current");
      ("resources", JArray [jobj [("resource", JString "unknowns")]])]])]])].

Example discovery_unknown : (λ r, match r with Ok s => decode s | Err _ => None end) (RewriteAPIGroupDiscoveryList rules (print discovery)) =
  Some (jobj [("kind", JString "APIGroupDiscoveryList");
    ("items", JArray [jobj [("metadata", jobj [("name", JString ""); ("creationTimestamp", JNull)]);
      ("versions", JArray [jobj [("version", JString "v1"); ("resources", JArray [])]])]])]).
Proof. vm_compute. reflexivity. Qed.

(** ** Request paths *)

#[local] Instance noSelectors : SelectorLib := {|
  ParseToLabelSelector _ := Err (External 1);
  SelectorString _ _ := Err (External 1);
|}.

Lemma request_path_rewritten_witness :
  ∃ tr, NewTargetRequest rules (Some ("/apis/original.group.io/v1/namespaces/ns/someresources/name/status", "watch=true")) = Some tr ∧
    tr_Path tr = "/apis/prefixed.resources.group.io/v1/namespaces/ns/prefixedsomeresources/name/status" ∧
    tr_RawQuery tr = "watch=true" ∧ OrigGroup tr = "original.group.io" ∧ OrigResourceType tr = "someresources".
Proof.
  apply (request_path_rewritten rules (Some "ns") "original.group.io" "v1" "someresources" ["name"; "status"] "watch=true").
  - split; [|done]. apply (bool_decide_unpack (Forall (λ s, s ≠ "" ∧ free_of "/"%char s = true) _)). vm_compute. exact I.
  - vm_compute. discriminate.
  - reflexivity.
  - reflexivity.
  - apply (bool_decide_unpack (Forall (λ s, s ≠ "" ∧ free_of "/"%char s = true) _)). vm_compute. exact I.
Defined.

(** A cluster-wide path with more behind the subresource loses its name. *)
Example long_cluster_path :
  ae_Path (ParseAPIEndpoint "/apis/example.com/v1/nodes/n1/proxy/stats" "") = "/apis/example.com/v1/nodes/stats/proxy".
Proof. vm_compute. reflexivity. Qed.
End Proxy.
